(* ===== verification/_CoqProject ===== *)
-Q . S2P
Prelude.v
Transitions.v
Framing.v
JsValue.v
Sorting.v
RoutePolicy.v
Constraints.v
Router.v
RouterMiddleware.v
CircuitBreaker.v
Failover.v
RouteFailover.v
JsonSchema.v
BudgetKeys.v
BudgetConfig.v
PolicyDoc.v
Baseline.v
BudgetStore.v
Budget.v
MemoryCache.v
JsText.v
CacheKey.v
ConditionalRouter.v
GroupPolicy.v
AccessPolicy.v
PolicyBundle.v
TelemetrySender.v
RetryHandler.v
TargetTree.v
McpText.v
McpPolicy.v
McpSse.v
McpGuards.v
McpHandler.v
Doubles.v
UrlGuard.v
RequestValidator.v
McpConfig.v
SemanticStore.v
SemanticCache.v
ResponseCache.v
Hooks.v
PayloadSize.v
ProxyGuardrails.v
AdapterRouting.v
TryPost.v
UpstreamRequest.v
HeaderConfig.v
ProviderTransform.v
AdapterShared.v
MessagesStream.v
OidcConfig.v
Jwks.v
Oidc.v
PolicyPull.v
Regex.v
PiiPatterns.v
PiiCards.v
Pii.v
AwsStream.v
StreamHandler.v
ViaResponses.v
AdminAuth.v
MetricsRegistry.v
StreamObserver.v
