(* ===== verification/Prelude.v ===== *)
(** * Prompt Shields gateway: verification library

    The program is the Prompt Shields LLM gateway (src/gateway, TypeScript): an
    HTTP proxy in front of model providers.  This library models the parts that
    decide what a call may do, as executable definitions translated from the
    source, and proves what each promises.  Paths below are under
    src/gateway/src.

    ** What a call goes through

    The size of the body and the config of the call are checked first
    ([middlewares/payloadSizeValidator.ts], [middlewares/requestValidator]): limits,
    custom hosts, the fan-out of a config.  An authenticated user's group limits
    providers, models and calls per minute ([middlewares/psOidc]).  The router
    middleware reads hint headers, classifies the request's sensitivity, and picks a
    model under the route policy's data rules, quality targets and cost ceiling
    ([middlewares/router]).  It leaves a gate on the request that every target is
    checked against when it is called.  The budget middleware reads shared spend
    counters, may block or downgrade the call, reserves before sending and settles
    after ([middlewares/psBudget]).  A failed attempt moves to the router's next
    candidates through circuit breakers ([middlewares/psFailover],
    [router/failover.ts]).

    The handler walks the tree of targets of the config ([tryTargetsRecursively] in
    [handlers/handlerUtils.ts]; conditions are [services/conditionalRouter.ts]).  For
    a leaf, [tryPost] checks both policies and the guardrails and chooses the API the
    provider is called with; then the input guardrails run ([middlewares/hooks]), the
    parameters are translated for the provider
    ([services/transformToProviderRequest.ts]), the cache is asked
    ([middlewares/cache]), and the request is sent, retried and its answer passed to
    the output guardrails ([handlers/retryHandler.ts]).  What happened is shipped as
    events ([middlewares/psTelemetrySender.ts]).

    The same process proxies MCP servers ([mcp/]): a client's message is
    authenticated, checked against the tool policy of the server and of the group
    and by guardrails, forwarded, and the answer, a listing or an event stream, is
    filtered on the way back.

    Streamed answers are cut into messages and transformed while they are read
    ([handlers/streamHandler.ts]), and read again by the adapters of other formats
    ([adapters/]).  With an identity provider every caller is authenticated first
    ([middlewares/psOidc]), and the policies may come from a central service that is
    polled ([middlewares/policyPull]).

    ** Files

    Shared parts:
    - [Prelude]: binary64 numbers on [SpecFloat] ([num]) with the order decided
      by [num_order], boolean automation, list lemmas.
    - [Transitions]: runs of labelled step relations: invariants, bounds,
      termination, for the components that are state machines.
    - [Framing]: reading a stream in pieces: a class of buffers, and the theorem that
      the messages read do not depend on the cuts; [AwsStream] and [StreamHandler]
      instantiate it.
    - [Regex]: an engine of regular expressions (the ways a match can go, in the order
      of backtracking), for the patterns of the PII scanner.
    - [JsValue], [JsText]: the language's part: results that may throw
      ([result], [let*]), strings, [Number], [parseFloat], objects and maps as
      property lists in order, JSON values ([json], [any] with undefined).
    - [Doubles]: whole numbers in binary64: order, sums, division by powers of two.
    - [Sorting]: the stable insertion sort that stands for [Array.sort].

    Routing and policy:
    - [RoutePolicy]: [router/types.ts], [router/policy.ts]: the policy data,
      token and cost estimates, the two cheapest-tier scans.
    - [Constraints]: [router/constraints.ts], [psServedTarget.ts]: sensitivity
      classification, data rules, what a tier vouches for.
    - [Router]: [router/index.ts], [router/heuristic.ts]: hints, the precedence
      of explicit group, quality and strategy, the policy stages with each
      error, the failover candidates.
    - [RouterMiddleware]: [router/middleware.ts], [router/dataPolicyGate.ts],
      [router/hono.ts]: [beforeRequest], the gate, the adapter.
    - [JsonSchema], [PolicyDoc]: [router/jsonSchema.ts], [router/policyDoc.ts],
      [fromRoutePolicyDoc]: how a policy document is validated and converted.
    - [Baseline]: [router/baseline.ts]: the savings baseline.
    - [CircuitBreaker], [Failover], [RouteFailover]: [psFailover/index.ts] and
      [router/failover.ts]: breakers and their registry, the engine, its use by
      the router.
    - [GroupPolicy], [AccessPolicy]: [psOidc/policy.ts] and the policy document of
      [psOidc/config.ts]: allowlists, the per-minute limit, validation.
    - [PolicyBundle], [PolicyPull]: [policyPull/state.ts] and [puller.ts]: the central
      bundle that carries a route and an access policy, and the polling for it.
    - [OidcConfig], [Jwks], [Oidc]: [psOidc/config.ts], [jwks.ts], [index.ts]: the
      configuration, the key source, the verification of tokens and the middleware.
    - [PiiPatterns], [PiiCards], [Pii]: [router/pii.ts]: the patterns with their
      checksums, the scan for card numbers, detection and redaction.

    Budgets:
    - [BudgetKeys], [BudgetConfig], [BudgetStore], [Budget]:
      [psBudget/keys.ts], [config.ts], [store.ts], [index.ts], [downgrade.ts].
      [BudgetStore] states the store's interface as a class; [Budget] is proved
      against the class, and the in-process store is an instance.

    The call:
    - [PayloadSize]: [payloadSizeValidator.ts].
    - [UrlGuard], [RequestValidator]: [requestValidator/index.ts] and
      [schema/config.ts]: which hosts the gateway calls, the checks of a config.
    - [HeaderConfig]: [constructConfigFromRequestHeaders]: the options of a request from
      its config or provider headers, down to the hosts the target search calls.
    - [ConditionalRouter]: [services/conditionalRouter.ts].
    - [TargetTree]: [tryTargetsRecursively]: inherited settings, fallback, load
      balance, conditions, open targets.
    - [ProxyGuardrails], [AdapterRouting], [TryPost]: [handlers/proxyGuardrails.ts],
      [hooks/responsesSupport.ts], [handlers/adapterUtils.ts] and [adapters/*/index.ts],
      [tryPost] with [psOidc/identity.ts]: the call of one target.
    - [Hooks]: [middlewares/hooks]: guardrails and mutators, run side by side.
    - [ProviderTransform], [UpstreamRequest]: [transformToProviderRequest.ts];
      [constructRequest] and [services/providerContext.ts]: body, headers, URL.
    - [RetryHandler]: [handlers/retryHandler.ts], the recursion over output hooks.
    - [CacheKey], [ResponseCache], [SemanticStore], [SemanticCache]:
      [cache/hash.ts], [index.ts], [store.ts], [semanticStore.ts], [semantic.ts] and
      [handlers/services/cacheService.ts].
    - [AwsStream], [StreamHandler]: [handlers/streamHandler.ts],
      [responseHandlers.ts], [responseSizeLimit.ts] and the separators of [utils.ts]:
      streams of bytes and of text, writing to a client that may leave, the limit on
      custom hosts.
    - [AdapterShared], [MessagesStream]: [adapters/shared.ts] and
      [adapters/messages/streamTransform.ts]: a chat completion stream read as a
      Messages stream, against a client of that protocol.
    - [ViaResponses]: [adapters/messagesViaResponses]: a Responses stream read as a
      Messages stream, and the signatures that carry reasoning between turns.
    - [AdminAuth]: [middlewares/adminAuth/index.ts]: the token, the cookies and the
      sessions of the admin pages.
    - [StreamObserver]: [psStreamObserver.ts], [psOutcomeSignals.ts]: usage and the end
      of a stream read while it passes, and the outcome classes of a call.
    - [MetricsRegistry]: [psMetrics/registry.ts] and [labels.ts]: counters, gauges and
      histograms, and the text a scraper reads.
    - [MemoryCache]: [shared/services/cache/backends/memory.ts].
    - [TelemetrySender]: [psTelemetrySender.ts].

    The MCP proxy:
    - [McpText], [McpPolicy]: [mcp/policy.ts], [mcp/groupPolicy.ts].
    - [McpSse]: [mcp/sse.ts].  [McpGuards]: [mcp/auth.ts], [mcp/guardrails.ts].
    - [McpHandler]: [mcp/handler.ts].  [McpConfig]: [mcp/config.ts].

    State is passed explicitly: breakers, stores, caches and buckets are
    arguments and results.  Asynchronous calls are functions on a world, or the steps
    of a relation whose labels are the environment's choices ([Hooks],
    [TelemetrySender]), so that whatever other requests do meanwhile is covered by
    quantifying over them.  Thrown errors are values of an error type per component.
    Each operation takes the readings of the clock it makes.

    ** What the theorems show

    - Data protection: a model decided under a data policy complies with the
      rule of the effective level; the middleware fails closed; the gate admits
      only compliant names; failover and budget downgrades stay inside it; a target
      is called only for models both policies admit.
    - Guardrails: a request is denied exactly when a check of a denying hook fails,
      whatever the order its checks answer in; the hooks of a request end; a target
      with hooks is called only with a request they can read.
    - Upstream calls: the host called passed a check that no internal address
      passes, whichever target of the config is tried; headers and body hold only what
      the provider's table, the forwarded headers and the request's named parameters
      give, within their bounds; retries
      and the waits of providers are bounded and the search of the target tree ends.
    - Caches: an exact or semantic hit was stored for the same caller and question;
      an embedder sees only text it may see; the stores keep their bounds and answer
      from their live entries.
    - MCP: a forwarded call was checked; a released listing is filtered and agrees
      with what may be called; a client reads only events that were checked.
    - Identity: a request passes only with a token verified with keys of the configured
      identity provider, which does not travel on, and under the policy in force; keys
      are refreshed rarely and kept; a central policy is replaced only by a whole
      accepted one.
    - Personal data: what is detected is redacted and nothing else is changed; the scan
      for cards answers as the loop over its pattern does.
    - Streams: the messages of an event stream are read exactly, however it was cut;
      what the adapter writes is a stream its clients accept, with the text, the
      thoughts and the calls of the provider; answers of custom hosts stay within
      their limit.
    - Policy documents: validation does not run out of depth, a validated
      document converts without reading a field of another type, and every
      reference inside an accepted policy resolves.  Accepted budget, access and MCP
      documents are valid, valid budgets have documents, a central bundle is
      all or nothing, and a baseline always prices.
    - Failover: the engine terminates and every run refines an in-order account
      of its candidates, a refusal is final, breakers keep their invariant and
      are isolated from one another.
    - Budgets: decisions meet a stated contract; no reservation leaks from any
      outcome; a call the memory store serves was under every blocking limit; each
      counter is charged once; keys agree exactly when their parts agree.
    - Telemetry: every accepted event is delivered, counted as dropped or still
      held, and the sender's own steps end with every event settled.
    - Operation: an admin page needs the token or a fresh session opened with it; the
      metrics keep their limit of series, a scrape reads the labels that were
      counted, and the summary of an observed stream does not depend on its cuts.
    - Limits: the per-minute limit of an accepted access policy holds over any
      interleaving of calls while the map of buckets is not full; payload limits are exact to the byte.

    ** Numbers, bounds and fuel

    Costs, limits and token counts are binary64 with the rounding of the
    language; clocks and counters are integers.  Loops that are not structural take
    fuel, and a theorem shows that theirs is enough: the schema validator eight
    ([validate_total]), the failover engine [enough_fuel]
    ([failover_refines_account]), retries the first attempt that is at least the
    retries and one ([most_attempts], [retries_are_bounded]), the target recursion the depth of its config plus one
    ([target_search_terminates]), the fan-out walk the number of targets
    ([fan_out_check_exact]), a telemetry drain the buffered events plus one
    ([every_event_settles]), the cuts of the semantic store the length of what is cut.
    [configHasHooks] has the code's own limit of levels.  Strings hold code units
    below 256, except in the MCP files, where a string stands for any UTF-16 text
    ([McpText]).

    The readers of streams take the length of their buffer
    ([Framing.messages_fuel]); a round of [split_loop] takes every separator, so that
    the next finds none ([split_loop_messages]).  A repetition of [Regex] takes the
    length of the text, and every body that is repeated consumes ([eats_consumes]).

    ** Not modelled

    Network, files, timers, Redis and Web Crypto; regular expressions outside the
    PII scanner that are not written out, the URL parser, [JSON.parse], [TextDecoder]
    and base64, and the jose package, which are parameters.  The tables of the
    providers and the transforms of whole requests and answers between formats are
    wide mappings of data without state; the generated prices, whose rounding is
    the decimal printing of the language, are a parameter of the budget.  Plugins are
    integrations of services, whose answers the environment chooses in [Hooks].
    Telemetry events, logs and the choice of what is counted report decisions and
    change none. *)

From Stdlib Require Import ZArith Lia ZifyBool Ascii Floats.SpecFloat.
From stdpp Require Import base strings option gmap list.

Set Default Goal Selector "!".

(** ** Automation shared by the components *)

Create HintDb js discriminated.

(** Splits every conditional and match of the goal or of a hypothesis. *)
Ltac split_match :=
  match goal with
  | |- context [match ?x with _ => _ end] => destruct x eqn:?
  | H : context [match ?x with _ => _ end] |- _ => destruct x eqn:?
  end.

(** Splits the boolean connectives that the code's guards are made of. *)
Ltac split_bool :=
  repeat match goal with
  | H : _ && _ = true |- _ => apply andb_true_iff in H as [? ?]
  | H : _ || _ = false |- _ => apply orb_false_iff in H as [? ?]
  | H : negb _ = true |- _ => apply negb_true_iff in H
  | H : negb _ = false |- _ => apply negb_false_iff in H
  | H : String.eqb _ _ = true |- _ => apply String.eqb_eq in H
  | H : String.eqb _ _ = false |- _ => apply String.eqb_neq in H
  end.

(** ** Records with mutable fields

    [set_field eta s f v] is the record [s] with field [f] replaced by [v],
    where [eta s] rebuilds [s] from its fields. *)
Ltac set_field eta s f v :=
  let b := eval cbv beta delta [eta] in (eta s) in
  match eval pattern (f s) in b with
  | ?g _ => let r := eval cbv beta in (g v) in exact r
  end.

(** ** JavaScript numbers: IEEE binary64 without NaN payloads *)

Declare Scope num_scope.
Delimit Scope num_scope with num.

Definition num : Type := spec_float.

Definition nadd (a b : num) : num := SFadd 53 1024 a b.
Definition nsub (a b : num) : num := SFsub 53 1024 a b.
Definition nmul (a b : num) : num := SFmul 53 1024 a b.
Definition ndiv (a b : num) : num := SFdiv 53 1024 a b.

(** The double nearest to an integer (exact up to 2^53). *)
Definition num_of_Z (z : Z) : num := binary_normalize 53 1024 z 0 false.

(** The double nearest to the rational [n / d], used for the code's decimal
    literals. *)
Definition num_of_Q (n : Z) (d : positive) : num :=
  match n with
  | Z0 => S754_zero false
  | Zpos p => SFdiv 53 1024 (S754_finite false p 0) (S754_finite false d 0)
  | Zneg p => SFdiv 53 1024 (S754_finite true p 0) (S754_finite false d 0)
  end.

Definition NaN : num := S754_nan.
Definition Infinity : num := S754_infinity false.
Definition nzero : num := S754_zero false.

(** [a < b], [a <= b] and [a === b] on numbers: false as soon as one side is
    NaN. *)
Definition nltb (a b : num) : bool := SFltb a b.
Definition nleb (a b : num) : bool := SFleb a b.
Definition neqb (a b : num) : bool := SFeqb a b.

Definition is_nan (a : num) : bool := match a with S754_nan => true | _ => false end.

(** [Number.isFinite] *)
Definition is_finite_num (a : num) : bool :=
  match a with S754_zero _ | S754_finite _ _ _ => true | _ => false end.

Definition is_neg_zero (a : num) : bool :=
  match a with S754_zero true => true | _ => false end.

(** [Math.max] and [Math.min]: NaN is contagious and [-0 < +0]. *)
Definition nmax (a b : num) : num :=
  if is_nan a || is_nan b then NaN
  else if nltb a b then b
  else if nltb b a then a
  else if is_neg_zero a then b else a.

Definition nmin (a b : num) : num :=
  if is_nan a || is_nan b then NaN
  else if nltb a b then a
  else if nltb b a then b
  else if is_neg_zero a then a else b.

(** The integer part towards minus infinity and towards plus infinity of a
    finite number ([Math.floor], [Math.ceil]). *)
Definition floor_Z (a : num) : Z :=
  match a with
  | S754_finite s m e =>
      let z := if s then Zneg m else Zpos m in
      if (0 <=? e)%Z then (z * 2 ^ e)%Z else (z / 2 ^ (- e))%Z
  | _ => 0%Z
  end.

Definition ceil_Z (a : num) : Z :=
  match a with
  | S754_finite s m e => (- floor_Z (S754_finite (negb s) m e))%Z
  | _ => 0%Z
  end.

(** [Math.floor] and [Math.ceil] on numbers; a zero keeps its sign and
    [Math.ceil] of a number in [(-1, 0)] is [-0]. *)
Definition nfloor (a : num) : num :=
  match a with S754_finite _ _ _ => num_of_Z (floor_Z a) | _ => a end.

Definition nceil (a : num) : num :=
  match a with
  | S754_finite s _ _ =>
      if (ceil_Z a =? 0)%Z then S754_zero s else num_of_Z (ceil_Z a)
  | _ => a
  end.

(** [Number.isInteger] *)
Definition is_integer_num (a : num) : bool :=
  match a with
  | S754_zero _ => true
  | S754_finite _ _ _ => (floor_Z a =? ceil_Z a)%Z
  | _ => false
  end.

Notation "a <? b" := (nltb a b) : num_scope.
Notation "a <=? b" := (nleb a b) : num_scope.
Notation "a =? b" := (neqb a b) : num_scope.
Notation "a + b" := (nadd a b) : num_scope.
Notation "a - b" := (nsub a b) : num_scope.
Notation "a * b" := (nmul a b) : num_scope.
Notation "a / b" := (ndiv a b) : num_scope.

(** *** Order of numbers

    Each number other than NaN has a key (sign class, exponent, mantissa),
    and [SFcompare] is the lexicographic comparison of keys. *)

Definition key1 (a : num) : Z :=
  match a with
  | S754_infinity true => -2
  | S754_finite true _ _ => -1
  | S754_finite false _ _ => 1
  | S754_infinity false => 2
  | _ => 0
  end%Z.

Definition key2 (a : num) : Z :=
  match a with
  | S754_finite true _ e => (- e)%Z
  | S754_finite false _ e => e
  | _ => 0%Z
  end.

Definition key3 (a : num) : Z :=
  match a with
  | S754_finite true m _ => Zneg m
  | S754_finite false m _ => Zpos m
  | _ => 0%Z
  end.

Definition keyltb (a b : num) : bool :=
  ((key1 a <? key1 b) ||
   ((key1 a =? key1 b) &&
    ((key2 a <? key2 b) || ((key2 a =? key2 b) && (key3 a <? key3 b)))))%Z.

Lemma SFcompare_keys a b :
  is_nan a = false -> is_nan b = false ->
  SFcompare a b = Some (if keyltb a b then Lt else if keyltb b a then Gt else Eq).
Proof.
  unfold keyltb.
  destruct a as [sa|sa| |sa ma ea]; destruct b as [sb|sb| |sb mb eb];
    intros Ha Hb; try discriminate; try destruct sa; try destruct sb; simpl; try reflexivity.
  all: change (Pos.compare_cont Eq ma mb) with (Pos.compare ma mb);
    destruct (Z.compare_spec ea eb); destruct (Pos.compare_spec ma mb); simpl;
    repeat match goal with |- context [(?x <? ?y)%Z] => destruct (Z.ltb_spec x y)
      | |- context [(?x =? ?y)%Z] => destruct (Z.eqb_spec x y) end; simpl;
    try reflexivity; exfalso; lia.
Qed.

Lemma SFcompare_nan_l b : SFcompare S754_nan b = None.
Proof. by destruct b. Qed.

Lemma SFcompare_nan_r a : SFcompare a S754_nan = None.
Proof. by destruct a. Qed.

Lemma keyltb_asym a b : keyltb a b = true -> keyltb b a = false.
Proof. unfold keyltb. lia. Qed.

Lemma is_nan_true a : is_nan a = true -> a = NaN.
Proof. by destruct a. Qed.

Lemma nltb_key a b : nltb a b = negb (is_nan a) && negb (is_nan b) && keyltb a b.
Proof.
  unfold nltb, SFltb.
  destruct (is_nan a) eqn:Ha.
  { apply is_nan_true in Ha as ->. by rewrite SFcompare_nan_l. }
  destruct (is_nan b) eqn:Hb.
  { apply is_nan_true in Hb as ->. by rewrite SFcompare_nan_r. }
  rewrite SFcompare_keys by done. simpl.
  destruct (keyltb a b); [done|]. by destruct (keyltb b a).
Qed.

Lemma nleb_key a b :
  nleb a b = negb (is_nan a) && negb (is_nan b) && negb (keyltb b a).
Proof.
  unfold nleb, SFleb.
  destruct (is_nan a) eqn:Ha.
  { apply is_nan_true in Ha as ->. by rewrite SFcompare_nan_l. }
  destruct (is_nan b) eqn:Hb.
  { apply is_nan_true in Hb as ->. by rewrite SFcompare_nan_r. }
  rewrite SFcompare_keys by done. simpl.
  destruct (keyltb a b) eqn:E.
  { by rewrite (keyltb_asym _ _ E). }
  by destruct (keyltb b a).
Qed.

Lemma neqb_key a b :
  neqb a b = negb (is_nan a) && negb (is_nan b) && negb (keyltb a b) && negb (keyltb b a).
Proof.
  unfold neqb, SFeqb.
  destruct (is_nan a) eqn:Ha.
  { apply is_nan_true in Ha as ->. by rewrite SFcompare_nan_l. }
  destruct (is_nan b) eqn:Hb.
  { apply is_nan_true in Hb as ->. by rewrite SFcompare_nan_r. }
  rewrite SFcompare_keys by done. simpl.
  destruct (keyltb a b); [done|]. by destruct (keyltb b a).
Qed.

(** Decides goals about the order of numbers: every comparison becomes a
    boolean formula over integer keys, which [lia] decides. *)
Ltac num_order :=
  repeat rewrite ?nltb_key, ?nleb_key, ?neqb_key in *;
  unfold keyltb in *; lia.

Lemma nltb_trans a b c : nltb a b = true -> nltb b c = true -> nltb a c = true.
Proof. intros. num_order. Qed.

Lemma nleb_trans a b c : nleb a b = true -> nleb b c = true -> nleb a c = true.
Proof. intros. num_order. Qed.

Lemma nleb_refl a : is_nan a = false -> nleb a a = true.
Proof. intros. num_order. Qed.

Lemma nltb_nleb a b : nltb a b = true -> nleb a b = true.
Proof. intros. num_order. Qed.

Lemma nleb_negb a b :
  is_nan a = false -> is_nan b = false -> nleb a b = negb (nltb b a).
Proof. intros Ha Hb. rewrite nleb_key, nltb_key, Ha, Hb. simpl. done. Qed.

Lemma nltb_irrefl a : nltb a a = false.
Proof. destruct (nltb a a) eqn:?; [num_order|done]. Qed.

Lemma nmax_not_nan a b : is_nan a = false -> is_nan b = false -> is_nan (nmax a b) = false.
Proof.
  unfold nmax. intros Ha Hb. rewrite Ha, Hb. simpl.
  by destruct (nltb a b), (nltb b a), (is_neg_zero a).
Qed.

Lemma nmax_ge_l a b :
  is_nan a = false -> is_nan b = false -> nleb a (nmax a b) = true.
Proof.
  intros Ha Hb. unfold nmax. rewrite Ha, Hb. simpl.
  destruct (nltb a b) eqn:?; [num_order|]. destruct (nltb b a) eqn:?; [num_order|].
  destruct (is_neg_zero a); num_order.
Qed.

Lemma nmax_ge_r a b :
  is_nan a = false -> is_nan b = false -> nleb b (nmax a b) = true.
Proof.
  intros Ha Hb. unfold nmax. rewrite Ha, Hb. simpl.
  destruct (nltb a b) eqn:?; [num_order|]. destruct (nltb b a) eqn:?; [num_order|].
  destruct (is_neg_zero a); num_order.
Qed.

(** *** Finite operands never give NaN *)

Lemma shr_1_nonneg r : (0 <= shr_m r)%Z -> (0 <= shr_m (shr_1 r))%Z.
Proof. destruct r as [m rr s]. simpl. destruct m as [|[p|p|]|p]; simpl; lia. Qed.

Lemma iter_shr_nonneg n r : (0 <= shr_m r)%Z -> (0 <= shr_m (SpecFloat.iter_pos shr_1 n r))%Z.
Proof. revert r. induction n; intros r Hr; simpl; auto using shr_1_nonneg. Qed.

Lemma shr_fexp_nonneg m e l : (0 <= m)%Z -> (0 <= shr_m (shr_fexp 53 1024 m e l).1)%Z.
Proof.
  intros Hm. unfold shr_fexp.
  assert (Hr : (0 <= shr_m (shr_record_of_loc m l))%Z) by (by destruct l as [|[]]).
  unfold shr. case_match; simpl; auto using iter_shr_nonneg.
Qed.

Lemma round_even_nonneg m l : (0 <= m)%Z -> (0 <= round_nearest_even m l)%Z.
Proof. intros Hm. destruct l as [|[]]; simpl; try lia. case_match; lia. Qed.

Lemma binary_round_aux_not_nan s m e l :
  (0 <= m)%Z -> is_nan (binary_round_aux 53 1024 s m e l) = false.
Proof.
  intros Hm. unfold binary_round_aux.
  pose proof (shr_fexp_nonneg m e l Hm) as H1.
  destruct (shr_fexp _ _ m e l) as [r1 e1]. simpl in H1.
  pose proof (shr_fexp_nonneg _ e1 loc_Exact
    (round_even_nonneg _ (loc_of_shr_record r1) H1)) as H2.
  destruct (shr_fexp _ _ (round_nearest_even _ _) _ _) as [r2 e2]. simpl in H2.
  destruct (shr_m r2); [done|by case_match|lia].
Qed.

Lemma binary_normalize_not_nan m e s : is_nan (binary_normalize 53 1024 m e s) = false.
Proof.
  unfold binary_normalize, binary_round.
  destruct m as [|p|p]; [done|..];
    match goal with |- context [shl_align ?x ?y ?z] => destruct (shl_align x y z) as [mz ez] end;
    by apply binary_round_aux_not_nan.
Qed.

Lemma nadd_not_nan a b :
  is_finite_num a = true -> is_finite_num b = true -> is_nan (nadd a b) = false.
Proof.
  destruct a as [[]|?| |sa ma ea]; try done; destruct b as [[]|?| |sb mb eb]; try done;
    intros _ _; apply binary_normalize_not_nan.
Qed.

Lemma nsub_not_nan a b :
  is_finite_num a = true -> is_finite_num b = true -> is_nan (nsub a b) = false.
Proof.
  destruct a as [[]|?| |sa ma ea]; try done; destruct b as [[]|?| |sb mb eb]; try done;
    intros _ _; apply binary_normalize_not_nan.
Qed.

Lemma finite_not_nan n : is_finite_num n = true -> is_nan n = false.
Proof. by destruct n. Qed.

#[export] Hint Resolve nltb_trans nleb_trans nltb_nleb : js.

(** ** Lists filtered by boolean predicates *)

Lemma filter_elem {A} (p : A -> bool) (l : list A) x :
  x ∈ List.filter p l <-> x ∈ l /\ p x = true.
Proof. by rewrite !list_elem_of_In, filter_In. Qed.

Lemma NoDup_filter_bool {A} (p : A -> bool) (l : list A) :
  NoDup l -> NoDup (List.filter p l).
Proof.
  induction 1 as [|x l Hx Hnd IH]; simpl; [constructor|].
  destruct (p x); [|done]. constructor; [|done]. rewrite filter_elem. naive_solver.
Qed.

Lemma filter_bool_id {A} (p : A -> bool) (l : list A) :
  (forall x, x ∈ l -> p x = true) -> List.filter p l = l.
Proof.
  induction l as [|x l IH]; simpl; intros H; [done|].
  rewrite (H x) by left. rewrite IH; [done|]. intros y Hy. apply H. by right.
Qed.

Lemma length_filter_bool {A} (p : A -> bool) (l : list A) :
  (length (List.filter p l) <= length l)%nat.
Proof. induction l as [|x l IH]; simpl; [lia|]. destruct (p x); simpl; lia. Qed.

(** The first element with a property. *)
Lemma first_such {A} (P : A -> Prop) `{!forall x, Decision (P x)} (l : list A) x :
  x ∈ l -> P x ->
  exists pre y post, l = pre ++ y :: post /\ P y /\ Forall (fun z => ~ P z) pre.
Proof.
  induction l as [|z l IH]; intros Hx HP; [by apply elem_of_nil in Hx|].
  destruct (decide (P z)) as [Hz|Hz].
  - by exists [], z, l.
  - apply elem_of_cons in Hx as [->|Hx]; [done|].
    destruct (IH Hx HP) as (pre & y & post & -> & Hy & Hpre).
    exists (z :: pre), y, post. split; [done|]. split; [done|]. by constructor.
Qed.

#[local] Arguments String.append : simpl nomatch.

(** ** Texts put one after another *)

Lemma sapp_nil (s : string) : ("" +:+ s)%string = s.
Proof. done. Qed.

Lemma sapp_cons (c : ascii) (s t : string) : (String c s +:+ t)%string = String c (s +:+ t)%string.
Proof. done. Qed.

Lemma sapp_nil_r (s : string) : (s +:+ "")%string = s.
Proof. induction s as [|c s IH]; simpl; [done|by rewrite IH]. Qed.

Lemma sapp_assoc (a b c : string) : ((a +:+ b) +:+ c)%string = (a +:+ (b +:+ c))%string.
Proof. induction a as [|x a IH]; simpl; [done|by rewrite IH]. Qed.

Lemma slength_app (a b : string) : String.length (a +:+ b)%string = (String.length a + String.length b)%nat.
Proof. induction a as [|x a IH]; simpl; [done|by rewrite IH]. Qed.

Lemma sapp_inv_head (p a b : string) : (p +:+ a)%string = (p +:+ b)%string -> a = b.
Proof. induction p as [|x p IH]; simpl; [done|]. by intros [= ?%IH]. Qed.
