(* ===== verification/Transitions.v ===== *)
(** * Step systems

    The vocabulary of the components that are state machines: labelled runs of
    a step relation, reachability, invariants by induction on a run, and the
    termination of runs under a decreasing measure.  Nothing here models a file
    of the repository. *)

From Stdlib Require Import Lia.
From stdpp Require Import base list gmap.
From S2P Require Import Prelude.

#[local] Open Scope list_scope.
#[local] Open Scope nat_scope.

Section Steps.
Context {S L : Type} (step : L -> S -> S -> Prop).

(** A run from [s] to [s'] that takes the steps labelled [ls], in order. *)
Inductive run : list L -> S -> S -> Prop :=
| run_nil s : run [] s s
| run_cons l ls s s1 s' : step l s s1 -> run ls s1 s' -> run (l :: ls) s s'.

Lemma run_app ls ls' s s1 s' : run ls s s1 -> run ls' s1 s' -> run (ls ++ ls') s s'.
Proof. induction 1; [done|]. intros. econstructor; eauto. Qed.

Lemma run_one l s s' : step l s s' -> run [l] s s'.
Proof. intros. econstructor; [done|constructor]. Qed.

Lemma run_snoc ls l s s1 s' : run ls s s1 -> step l s1 s' -> run (ls ++ [l]) s s'.
Proof. intros. eapply run_app; [done|]. by apply run_one. Qed.

(** What every step preserves holds along a run. *)
Lemma run_invariant (P : S -> Prop) ls s s' :
  (forall l a b, step l a b -> P a -> P b) -> run ls s s' -> P s -> P s'.
Proof. intros Hstep. induction 1; eauto. Qed.

(** No step is possible among those the predicate selects. *)
Definition stuck (sel : L -> Prop) (s : S) : Prop := forall l s', sel l -> ~ step l s s'.

(** Steps that lower a measure cannot go on for longer than it. *)
Lemma run_bounded (P : S -> Prop) (sel : L -> Prop) (m : S -> nat) ls s s' :
  (forall l a b, step l a b -> P a -> P b) ->
  (forall l a b, sel l -> step l a b -> P a -> m b < m a) ->
  run ls s s' -> Forall sel ls -> P s -> length ls + m s' <= m s.
Proof.
  intros HP Hm. induction 1 as [|l ls s s1 s' Hs Hr IH]; intros Hsel Hps; simpl; [lia|].
  apply Forall_cons in Hsel as [Hl Hsel].
  specialize (Hm _ _ _ Hl Hs Hps). specialize (IH Hsel (HP _ _ _ Hs Hps)). lia.
Qed.

(** The converse of the selected steps is well founded on the states of an
    invariant: no infinite sequence of them. *)
Lemma steps_well_founded (P : S -> Prop) (sel : L -> Prop) (m : S -> nat) s :
  (forall l a b, step l a b -> P a -> P b) ->
  (forall l a b, sel l -> step l a b -> P a -> m b < m a) ->
  P s -> Acc (fun b a => exists l, sel l /\ step l a b) s.
Proof.
  intros HP Hm. remember (m s) as k eqn:Hk. revert s Hk.
  induction k as [k IH] using lt_wf_ind. intros s -> Hs. constructor.
  intros b (l & Hl & Hstep). apply (IH (m b)); [|done|]; eauto.
Qed.
End Steps.

Arguments run_nil {S L step} s.
Arguments run_cons {S L step} l ls s s1 s'.

(** ** Measures that are sums over the numbers below a bound *)

Definition sum_below (n : nat) (w : nat -> nat) : nat := sum_list_with w (seq 0 n).

Lemma sum_below_S n w : sum_below (S n) w = sum_below n w + w n.
Proof. unfold sum_below. rewrite seq_S, sum_list_with_app. simpl. lia. Qed.

Lemma sum_below_le n w w' :
  (forall i, i < n -> w' i <= w i) -> sum_below n w' <= sum_below n w.
Proof.
  induction n as [|n IH]; intros H; [done|]. rewrite !sum_below_S.
  specialize (IH ltac:(intros; apply H; lia)). specialize (H n ltac:(lia)). lia.
Qed.

(** One number's weight drops by [d] and no other grows. *)
Lemma sum_below_drop n w w' k d :
  k < n -> (forall i, i < n -> i <> k -> w' i <= w i) -> w' k + d <= w k ->
  sum_below n w' + d <= sum_below n w.
Proof.
  induction n as [|n IH]; intros Hk H Hd; [lia|]. rewrite !sum_below_S.
  destruct (decide (k = n)) as [->|Hne].
  - assert (sum_below n w' <= sum_below n w) by (apply sum_below_le; intros; apply H; lia). lia.
  - specialize (IH ltac:(lia) ltac:(intros; apply H; lia) Hd).
    specialize (H n ltac:(lia) ltac:(lia)). lia.
Qed.
