(* ===== verification/Framing.v ===== *)
(** * Reading a stream in pieces

    What the stream readers of the gateway share (the loops of
    [handlers/streamHandler.ts]): a buffer grows by what is read, complete messages
    are taken off its front and handled in order, and a message that cannot be
    handled ends the reading.

    A reader is a way to take the [next] message off a buffer and a [handle] for it.
    [read_messages]: when a message that is complete stays the same whatever is read
    after it, the reader handles the messages of the whole stream, however the
    stream was cut into pieces.  The components instantiate [Buffer] with texts and
    with bytes. *)

From Stdlib Require Import ZArith Lia.
From stdpp Require Import base strings option list.
From S2P Require Import Prelude.

(** A thing that is read in pieces. *)
Class Buffer (T : Type) := {
  b_nil : T;
  b_app : T -> T -> T;
  b_size : T -> nat
}.

Class BufferLaws (T : Type) `{Buffer T} : Prop := {
  b_app_assoc a b c : b_app (b_app a b) c = b_app a (b_app b c);
  b_app_nil_r a : b_app a b_nil = a;
  b_size_app a b : b_size (b_app a b) = (b_size a + b_size b)%nat
}.

#[export] Instance list_buffer {A} : Buffer (list A) := {| b_nil := []; b_app := app; b_size := length |}.
#[export] Instance list_buffer_laws {A} : BufferLaws (list A).
Proof. split; simpl; intros; [by rewrite app_assoc|by rewrite app_nil_r|by rewrite length_app]. Qed.

#[export] Instance string_buffer : Buffer string :=
  {| b_nil := EmptyString; b_app := String.app; b_size := String.length |}.
#[export] Instance string_buffer_laws : BufferLaws string.
Proof. split; simpl; intros; [apply sapp_assoc|apply sapp_nil_r|apply slength_app]. Qed.

Fixpoint joined_pieces {T} `{Buffer T} (pieces : list T) : T :=
  match pieces with [] => b_nil | t :: r => b_app t (joined_pieces r) end.

(** Reads of texts and of bytes add up to what they join to. *)
Lemma concat_text_cons (x : string) l : String.concat "" (x :: l) = (x +:+ String.concat "" l)%string.
Proof. destruct l; simpl; by rewrite ?sapp_nil_r. Qed.

Lemma concat_text_snoc l (x : string) : String.concat "" (l ++ [x]) = (String.concat "" l +:+ x)%string.
Proof.
  induction l as [|y l IH]; [done|]. cbn [app]. by rewrite !concat_text_cons, IH, sapp_assoc.
Qed.

Lemma joined_pieces_text (pieces : list string) : joined_pieces pieces = String.concat "" pieces.
Proof.
  induction pieces as [|x l IH]; [done|]. rewrite concat_text_cons, <- IH. done.
Qed.

Lemma joined_pieces_concat {A} (pieces : list (list A)) : joined_pieces pieces = concat pieces.
Proof. induction pieces as [|x l IH]; simpl; [done|by rewrite IH]. Qed.

Section Reader.
Context {T : Type} `{Buffer T}.
Context {M State Out E : Type}.
Variable next : T -> option (M * T).
Variable handle : State -> M -> State * list Out * option E.

(** What a reader has after some of the stream: what it gave out, its state, and
    the part of the buffer that is not a message yet or the error that ended it. *)
Record Reading := mkReading { given : list Out; now : State; outcome : E + T }.

Definition prepend (l : list Out) (r : Reading) : Reading := mkReading (l ++ given r) (now r) (outcome r).

(** The messages that are complete, handled in order. *)
Fixpoint drain (fuel : nat) (b : T) (s : State) : Reading :=
  match fuel with
  | O => mkReading [] s (inr b)
  | S n =>
      match next b with
      | None => mkReading [] s (inr b)
      | Some (m, rest) =>
          let '(s, l, e) := handle s m in
          match e with
          | Some e => mkReading l s (inl e)
          | None => prepend l (drain n rest s)
          end
      end
  end.

Definition drain_all (b : T) (s : State) : Reading := drain (b_size b) b s.

(** The reads of a stream, then its end. *)
Fixpoint read (b : T) (s : State) (pieces : list T) : Reading :=
  match pieces with
  | [] => mkReading [] s (inr b)
  | t :: r =>
      let d := drain_all (b_app b t) s in
      match outcome d with
      | inl _ => d
      | inr b => prepend (given d) (read b (now d) r)
      end
  end.

(** The reference: the messages of a whole text, and handling a list of them. *)
Fixpoint messages_of (fuel : nat) (b : T) : list M * T :=
  match fuel with
  | O => ([], b)
  | S n =>
      match next b with
      | None => ([], b)
      | Some (m, rest) => let '(l, t) := messages_of n rest in (m :: l, t)
      end
  end.

Definition messages (b : T) : list M * T := messages_of (b_size b) b.

Fixpoint handle_all (s : State) (ms : list M) (rest : T) : Reading :=
  match ms with
  | [] => mkReading [] s (inr rest)
  | m :: r =>
      let '(s, l, e) := handle s m in
      match e with
      | Some e => mkReading l s (inl e)
      | None => prepend l (handle_all s r rest)
      end
  end.

Lemma drain_messages fuel b s :
  drain fuel b s = let '(ms, rest) := messages_of fuel b in handle_all s ms rest.
Proof.
  revert b s. induction fuel as [|n IH]; intros b s; [done|]. simpl.
  destruct (next b) as [[m rest]|]; [|done].
  destruct (messages_of n rest) as [l t] eqn:El. simpl.
  destruct (handle s m) as [[s' o] [e|]]; [done|]. by rewrite IH, El.
Qed.

Lemma handle_all_app s ms ms' rest :
  handle_all s (ms ++ ms') rest =
  let d := handle_all s ms rest in
  match outcome d with
  | inl _ => d
  | inr _ => prepend (given d) (handle_all (now d) ms' rest)
  end.
Proof.
  revert s. induction ms as [|m ms IH]; intros s; simpl.
  - by destruct (handle_all s ms' rest).
  - destruct (handle s m) as [[s' l] [e|]]; [done|]. rewrite IH. cbv zeta. simpl.
    destruct (outcome (handle_all s' ms rest)); [done|].
    unfold prepend. simpl. by rewrite app_assoc.
Qed.

(** What is left matters only when nothing went wrong. *)
Lemma handle_all_rest s ms rest rest' :
  handle_all s ms rest' =
  let d := handle_all s ms rest in
  match outcome d with inl _ => d | inr _ => mkReading (given d) (now d) (inr rest') end.
Proof.
  revert s. induction ms as [|m ms IH]; intros s; simpl; [done|].
  destruct (handle s m) as [[s' l] [e|]]; [done|]. rewrite IH. cbv zeta. simpl.
  by destruct (outcome (handle_all s' ms rest)).
Qed.

Lemma handle_all_left s ms rest x : outcome (handle_all s ms rest) = inr x -> x = rest.
Proof.
  revert s. induction ms as [|m ms IH]; intros s; simpl; [by intros [= <-]|].
  destruct (handle s m) as [[s' l] [e|]]; [done|]. apply IH.
Qed.

Section Whole.
Context `{!BufferLaws T}.
(** A message takes something off the buffer, and is the same with more behind it. *)
Hypothesis next_shorter : forall b m r, next b = Some (m, r) -> (b_size r < b_size b)%nat.
Hypothesis next_app : forall b m r t, next b = Some (m, r) -> next (b_app b t) = Some (m, b_app r t).

Lemma messages_fuel n m b :
  (b_size b <= n)%nat -> (b_size b <= m)%nat -> messages_of n b = messages_of m b.
Proof.
  revert m b. induction n as [|n IH]; intros m b Hn Hm.
  - destruct m as [|m]; [done|]. simpl. destruct (next b) as [[x r]|] eqn:En; [|done].
    apply next_shorter in En. lia.
  - destruct m as [|m]; simpl; destruct (next b) as [[x r]|] eqn:En; try done;
      pose proof (next_shorter _ _ _ En); [lia|]. by rewrite (IH m) by lia.
Qed.

Lemma messages_unfold b :
  messages b = match next b with
               | Some (m, r) => let '(l, t) := messages r in (m :: l, t)
               | None => ([], b)
               end.
Proof.
  unfold messages. destruct (next b) as [[m r]|] eqn:En.
  - pose proof (next_shorter _ _ _ En). destruct (b_size b) as [|n] eqn:Eb; [lia|].
    simpl. rewrite En. by rewrite (messages_fuel n (b_size r)) by lia.
  - destruct (b_size b); simpl; [done|]. by rewrite En.
Qed.

Lemma messages_ind (P : T -> Prop) :
  (forall b, next b = None -> P b) ->
  (forall b m r, next b = Some (m, r) -> P r -> P b) ->
  forall b, P b.
Proof.
  intros Hn Hs b. remember (b_size b) as n eqn:Eb. revert b Eb.
  induction n as [n IH] using lt_wf_ind. intros b ->.
  destruct (next b) as [[m r]|] eqn:En; [|by apply Hn].
  apply (Hs b m r En). apply (IH (b_size r)); [by eapply next_shorter|done].
Qed.

Lemma messages_left b : next (messages b).2 = None.
Proof.
  induction b as [b En|b m r En IH] using messages_ind; rewrite messages_unfold, En; [done|].
  by destruct (messages r).
Qed.

Lemma messages_app b t :
  messages (b_app b t) =
  let '(l, rest) := messages b in let '(l', rest') := messages (b_app rest t) in (l ++ l', rest').
Proof.
  induction b as [b En|b m r En IH] using messages_ind; rewrite (messages_unfold b), En.
  - by destruct (messages (b_app b t)).
  - rewrite messages_unfold, (next_app _ _ _ _ En), IH.
    destruct (messages r) as [l x]. by destruct (messages (b_app x t)).
Qed.

(** The reader handles the messages of the whole stream. *)
Lemma read_messages b s pieces :
  next b = None ->
  read b s pieces =
  let '(ms, rest) := messages (b_app b (joined_pieces pieces)) in handle_all s ms rest.
Proof.
  revert b s. induction pieces as [|t pieces IH]; intros b s Hb; simpl.
  - by rewrite b_app_nil_r, messages_unfold, Hb.
  - rewrite <- b_app_assoc, (messages_app (b_app b t)).
    unfold drain_all. rewrite drain_messages. fold (messages (b_app b t)).
    pose proof (messages_left (b_app b t)) as Hx.
    destruct (messages (b_app b t)) as [l x]. simpl in Hx.
    pose proof (IH x (now (handle_all s l x)) Hx) as IH'.
    destruct (messages (b_app x (joined_pieces pieces))) as [l' x'].
    rewrite handle_all_app. cbv zeta. rewrite (handle_all_rest s l x x'). cbv zeta.
    destruct (outcome (handle_all s l x)) as [e|y] eqn:Eo; simpl; rewrite ?Eo; [done|].
    apply handle_all_left in Eo as ->. by rewrite IH'.
Qed.

End Whole.
End Reader.

Arguments Reading : clear implicits.
