(* ===== verification/JsValue.v ===== *)
(** * JavaScript strings, objects and JSON values

    The pieces of the language and of its standard library that the modelled
    code uses: strings as sequences of code units below 256 (ASCII and
    Latin-1, which is what header values are), [toLowerCase], [trim],
    [includes], [Number(string)], objects as property lists in enumeration
    order, and JSON values.  Nothing here models a file of the repository. *)

From Stdlib Require Import ZArith Lia ZifyBool Ascii Floats.SpecFloat.
From stdpp Require Import base strings option list.
From S2P Require Import Prelude.

#[local] Open Scope string_scope.
#[local] Open Scope list_scope.

(** ** Fallible code: a value or a thrown error *)

Inductive result (E A : Type) :=
| Ok (a : A)
| Throw (e : E).
Arguments Ok {E A} a.
Arguments Throw {E A} e.

Declare Scope result_scope.
Delimit Scope result_scope with result.

Notation "'let*' x := a 'in' b" :=
  (match a with Ok x => b | Throw e => Throw e end)
  (at level 10, x name, a at level 100, b at level 200) : result_scope.
Notation "'check' c 'else' e 'in' b" :=
  (if c then b else Throw e)
  (at level 10, c at level 100, e at level 100, b at level 200) : result_scope.

Open Scope result_scope.

(** [E : run = Ok d] for a closed [run]: replaces [d] by the computed value
    (used to evaluate the model on concrete inputs). *)
Ltac known_value E d :=
  match type of E with
  | ?run = Ok d =>
      let v := eval vm_compute in run in
      lazymatch v with
      | Ok ?x =>
          let H := fresh in
          assert (H : d = x) by (revert E; vm_compute; intros [= <-]; reflexivity);
          subst d
      end
  end.

(** [xs.map(f)] for a callback that may throw. *)
Fixpoint map_throw {E A B} (f : A -> result E B) (l : list A) : result E (list B) :=
  match l with
  | [] => Ok []
  | x :: r => let* y := f x in let* ys := map_throw f r in Ok (y :: ys)
  end.

Lemma map_throw_Ok {E A B} (f : A -> result E B) l ys :
  map_throw f l = Ok ys <-> Forall2 (fun x y => f x = Ok y) l ys.
Proof.
  revert ys. induction l as [|x l IH]; intros ys; simpl.
  - split; [intros [= <-]; constructor|by inversion 1].
  - split.
    + destruct (f x) eqn:Hx; [|done]. destruct (map_throw f l) eqn:Hl; [|done].
      intros [= <-]. constructor; [done|]. by apply IH.
    + inversion 1 as [|? y ? ys' Hx Hr]; subst. rewrite Hx.
      apply IH in Hr. by rewrite Hr.
Qed.

(** ** Characters and strings *)

Definition code (c : ascii) : N := N_of_ascii c.

Definition is_digit (c : ascii) : bool := ((48 <=? code c) && (code c <=? 57))%N.
Definition is_upper (c : ascii) : bool := ((65 <=? code c) && (code c <=? 90))%N.
Definition is_lower (c : ascii) : bool := ((97 <=? code c) && (code c <=? 122))%N.

(** White space and line terminators below 256 ([trim], [Number]). *)
Definition is_space (c : ascii) : bool :=
  (((9 <=? code c) && (code c <=? 13)) || (code c =? 32) || (code c =? 160))%N.

(** [toLowerCase] on a Latin-1 code unit. *)
Definition lower_char (c : ascii) : ascii :=
  if is_upper c || ((192 <=? code c)%N && (code c <=? 222)%N && negb (code c =? 215)%N)
  then ascii_of_N (code c + 32) else c.

Fixpoint smap (f : ascii -> ascii) (s : string) : string :=
  match s with
  | EmptyString => EmptyString
  | String c r => String (f c) (smap f r)
  end.

Definition toLowerCase (s : string) : string := smap lower_char s.

Fixpoint sforallb (f : ascii -> bool) (s : string) : bool :=
  match s with
  | EmptyString => true
  | String c r => f c && sforallb f r
  end.

Fixpoint drop_while (f : ascii -> bool) (s : string) : string :=
  match s with
  | String c r => if f c then drop_while f r else s
  | EmptyString => EmptyString
  end.

Fixpoint srev_onto (s acc : string) : string :=
  match s with
  | EmptyString => acc
  | String c r => srev_onto r (String c acc)
  end.

Definition srev (s : string) : string := srev_onto s EmptyString.

Lemma sforallb_append p a b : sforallb p (a +:+ b) = sforallb p a && sforallb p b.
Proof. induction a as [|x a IH]; simpl; [done|]. by rewrite IH, andb_assoc. Qed.

Lemma sforallb_srev_onto f s acc : sforallb f (srev_onto s acc) = sforallb f s && sforallb f acc.
Proof.
  revert acc. induction s as [|c s IH]; intros acc; cbn [srev_onto sforallb]; [done|].
  rewrite IH. cbn [sforallb]. by destruct (f c), (sforallb f s), (sforallb f acc).
Qed.

Lemma sforallb_srev f s : sforallb f (srev s) = sforallb f s.
Proof. unfold srev. rewrite sforallb_srev_onto. cbn. apply andb_true_r. Qed.

(** [s.trim()] *)
Definition trim (s : string) : string :=
  srev (drop_while is_space (srev (drop_while is_space s))).

(** [s.startsWith(p)] and [s.includes(p)] *)
Definition startsWith (s p : string) : bool := String.prefix p s.

Fixpoint includes (s p : string) : bool :=
  startsWith s p ||
  match s with
  | EmptyString => false
  | String _ r => includes r p
  end.

Definition truthy_string (s : string) : bool := negb (s =? "")%string.

(** A present, non-empty string: the guard [if (x)] on an optional string. *)
Definition truthy_opt (o : option string) : bool :=
  match o with Some s => truthy_string s | None => false end.

Fixpoint mem_string (k : string) (l : list string) : bool :=
  match l with
  | [] => false
  | x :: r => (k =? x)%string || mem_string k r
  end.

Lemma mem_string_In k l : mem_string k l = true <-> k ∈ l.
Proof.
  induction l as [|x l IH]; simpl.
  - split; [done|]. by intros ?%elem_of_nil.
  - rewrite orb_true_iff, String.eqb_eq, elem_of_cons, IH. done.
Qed.

Lemma mem_string_false k l : mem_string k l = false <-> k ∉ l.
Proof. rewrite <- mem_string_In. destruct (mem_string k l); naive_solver. Qed.

(** [l.indexOf(k)], [None] for -1. *)
Fixpoint indexOf (k : string) (l : list string) : option nat :=
  match l with
  | [] => None
  | x :: r => if (k =? x)%string then Some 0 else S <$> indexOf k r
  end.

Lemma indexOf_lookup k l i : indexOf k l = Some i -> l !! i = Some k.
Proof.
  revert i. induction l as [|x l IH]; intros i; simpl; [done|].
  destruct (String.eqb_spec k x) as [->|Hne]; [by intros [= <-]|].
  destruct (indexOf k l) as [j|]; [|done]. intros [= <-]. by apply IH.
Qed.

Lemma indexOf_None k l : indexOf k l = None <-> k ∉ l.
Proof.
  induction l as [|x l IH]; simpl.
  - split; [intros _; apply not_elem_of_nil|done].
  - destruct (String.eqb_spec k x) as [->|Hne].
    + split; [done|]. intros H. exfalso. apply H. by left.
    + rewrite fmap_None, IH, not_elem_of_cons. naive_solver.
Qed.

#[export] Hint Resolve indexOf_lookup : js.

(** ** [Number(string)] *)

Fixpoint digits_val (s : string) (acc : Z) : Z :=
  match s with
  | String c r => digits_val r (acc * 10 + (Z.of_N (code c) - 48))%Z
  | EmptyString => acc
  end.

Fixpoint take_while (f : ascii -> bool) (s : string) : string :=
  match s with
  | String c r => if f c then String c (take_while f r) else EmptyString
  | EmptyString => EmptyString
  end.

(** The double nearest to [(-1)^neg * m * 10^e]. Beyond 400 decimal places
    either way the result is an infinity or a zero whatever the digits. *)
Definition scale10 (neg : bool) (m e : Z) (ndigits : Z) : num :=
  let sign n := match n with
    | S754_finite _ m e => S754_finite neg m e
    | S754_zero _ => S754_zero neg
    | S754_infinity _ => S754_infinity neg
    | S754_nan => S754_nan end in
  if (m =? 0)%Z then S754_zero neg
  else if (400 <? e + ndigits)%Z then S754_infinity neg
  else if (e + ndigits <? -400)%Z then S754_zero neg
  else if (0 <=? e)%Z then sign (num_of_Z (m * 10 ^ e))
  else sign (num_of_Q m (Z.to_pos (10 ^ (- e)))).

(** An exponent part: [e] or [E], an optional sign and digits to the end. *)
Definition exponent_part (s : string) : option Z :=
  match s with
  | EmptyString => Some 0%Z
  | String c r =>
      if (code c =? 101)%N || (code c =? 69)%N then
        let '(neg, ds) := match r with
          | String d t => if (code d =? 45)%N then (true, t)
                          else if (code d =? 43)%N then (false, t) else (false, r)
          | EmptyString => (false, r) end in
        if truthy_string ds && sforallb is_digit ds
        then Some (if neg then - digits_val ds 0 else digits_val ds 0)%Z
        else None
      else None
  end.

(** StrUnsignedDecimalLiteral *)
Definition decimal_literal (neg : bool) (s : string) : num :=
  if (s =? "Infinity")%string then S754_infinity neg else
  let ip := take_while is_digit s in
  let r1 := drop_while is_digit s in
  let '(fp, r2) := match r1 with
    | String c t => if (code c =? 46)%N then (take_while is_digit t, drop_while is_digit t)
                    else ("", r1)
    | EmptyString => ("", r1) end in
  if negb (truthy_string (ip ++ fp)%string) then NaN else
  match exponent_part r2 with
  | None => NaN
  | Some e =>
      let digits := (ip ++ fp)%string in
      scale10 neg (digits_val digits 0) (e - Z.of_nat (String.length fp))
              (Z.of_nat (String.length digits))
  end.

Definition radix_digit (c : ascii) : Z :=
  if is_digit c then Z.of_N (code c) - 48
  else if is_lower c then Z.of_N (code c) - 87
  else if is_upper c then Z.of_N (code c) - 55 else 99.

Fixpoint radix_val (radix : Z) (s : string) (acc : Z) : Z :=
  match s with
  | String c r => radix_val radix r (acc * radix + radix_digit c)
  | EmptyString => acc
  end.

Definition radix_literal (radix : Z) (s : string) : num :=
  if truthy_string s && sforallb (fun c => radix_digit c <? radix)%Z s
  then num_of_Z (radix_val radix s 0) else NaN.

Definition to_number (str : string) : num :=
  match trim str with
  | EmptyString => nzero
  | String c r as s =>
      if (code c =? 43)%N then decimal_literal false r
      else if (code c =? 45)%N then decimal_literal true r
      else if (code c =? 48)%N then
        match r with
        | String x t =>
            if (code x =? 120)%N || (code x =? 88)%N then radix_literal 16 t
            else if (code x =? 111)%N || (code x =? 79)%N then radix_literal 8 t
            else if (code x =? 98)%N || (code x =? 66)%N then radix_literal 2 t
            else decimal_literal false s
        | EmptyString => nzero
        end
      else decimal_literal false s
  end.

Example to_number_ex1 : to_number " 0.5 " = num_of_Q 1 2.
Proof. vm_compute. reflexivity. Qed.
Example to_number_ex2 : to_number "0x10" = num_of_Z 16.
Proof. vm_compute. reflexivity. Qed.
Example to_number_ex3 : to_number "1e-2" = num_of_Q 1 100.
Proof. vm_compute. reflexivity. Qed.
Example to_number_ex4 : to_number "1,5" = NaN.
Proof. vm_compute. reflexivity. Qed.
Example to_number_ex5 : to_number "" = nzero.
Proof. vm_compute. reflexivity. Qed.

(** ** Objects

    An object used as a map is the list of its own enumerable properties in
    enumeration order, each key once. *)

Abbreviation obj A := (list (string * A)).

Fixpoint own {A} (o : obj A) (k : string) : option A :=
  match o with
  | [] => None
  | (k', v) :: r => if (k =? k')%string then Some v else own r k
  end.

Definition hasOwn {A} (o : obj A) (k : string) : bool :=
  match own o k with Some _ => true | None => false end.

Definition obj_keys {A} (o : obj A) : list string := map fst o.

(** [o[k] = v] on an ordinary object: the property keeps its place, a new one
    goes last; [__proto__] is the prototype setter and adds no property. *)
Fixpoint obj_put {A} (o : obj A) (k : string) (v : A) : obj A :=
  match o with
  | [] => [(k, v)]
  | (k', v') :: r => if (k =? k')%string then (k', v) :: r else (k', v') :: obj_put r k v
  end.

Definition obj_set {A} (o : obj A) (k : string) (v : A) : obj A :=
  if (k =? "__proto__")%string then o else obj_put o k v.

Definition obj_map {A B} (f : A -> B) (o : obj A) : obj B :=
  map (fun p => (p.1, f p.2)) o.

Lemma own_In {A} (o : obj A) k v : own o k = Some v -> (k, v) ∈ o.
Proof.
  induction o as [|[k' v'] o IH]; simpl; [done|].
  destruct (String.eqb_spec k k') as [->|Hne].
  - intros [= ->]. by left.
  - intros H. right. by apply IH.
Qed.

Lemma own_of_In {A} (o : obj A) k v :
  NoDup (obj_keys o) -> (k, v) ∈ o -> own o k = Some v.
Proof.
  induction o as [|[k' v'] o IH]; simpl; intros Hnd Hin; [by apply elem_of_nil in Hin|].
  apply NoDup_cons in Hnd as [Hk Hnd].
  apply elem_of_cons in Hin as [[= <- <-]|Hin]; [by rewrite String.eqb_refl|].
  destruct (String.eqb_spec k k') as [->|]; [|by apply IH].
  exfalso. apply Hk. apply list_elem_of_In, in_map_iff. exists (k', v).
  split; [done|]. by apply list_elem_of_In.
Qed.

Lemma own_None {A} (o : obj A) k : own o k = None <-> k ∉ obj_keys o.
Proof.
  induction o as [|[k' v'] o IH]; simpl.
  - split; [intros _; apply not_elem_of_nil|done].
  - destruct (String.eqb_spec k k') as [->|Hne].
    + split; [done|]. intros H. exfalso. apply H. by left.
    + rewrite IH, not_elem_of_cons. naive_solver.
Qed.

Lemma own_put {A} (o : obj A) k v k' :
  own (obj_put o k v) k' = if (k' =? k)%string then Some v else own o k'.
Proof.
  induction o as [|[x w] o IH]; simpl; [done|].
  destruct (String.eqb_spec k x) as [->|Hkx]; simpl.
  - by destruct (String.eqb_spec k' x).
  - destruct (String.eqb_spec k' x) as [->|]; [|done].
    by destruct (String.eqb_spec x k) as [->|].
Qed.

Lemma own_map {A B} (f : A -> B) (o : obj A) k : own (obj_map f o) k = f <$> own o k.
Proof.
  induction o as [|[k' v] o IH]; simpl; [done|]. by destruct (k =? k')%string.
Qed.

Lemma obj_put_keys {A} (o : obj A) k v :
  obj_keys (obj_put o k v) = if hasOwn o k then obj_keys o else obj_keys o ++ [k].
Proof.
  unfold hasOwn. induction o as [|[x w] o IH]; simpl; [done|].
  destruct (String.eqb_spec k x) as [->|Hne]; simpl; [done|].
  rewrite IH. by destruct (own o k).
Qed.

Lemma obj_keys_length {A} (o : obj A) : length (obj_keys o) = length o.
Proof. apply length_map. Qed.

Lemma NoDup_obj_put {A} (o : obj A) k v : NoDup (obj_keys o) -> NoDup (obj_keys (obj_put o k v)).
Proof.
  intros Ho. rewrite obj_put_keys. unfold hasOwn. destruct (own o k) eqn:Hk; [done|].
  apply own_None in Hk. apply NoDup_app. split; [done|]. split; [|apply NoDup_singleton].
  intros x Hx Hxk. apply list_elem_of_singleton in Hxk as ->. by apply Hk.
Qed.

(** [{...a, ...b}] *)
Definition obj_spread {A} (a b : obj A) : obj A := foldl (fun o p => obj_put o p.1 p.2) a b.

Lemma own_spread {A} (a b : obj A) k : NoDup (obj_keys b) ->
  own (obj_spread a b) k = match own b k with Some v => Some v | None => own a k end.
Proof.
  unfold obj_spread. revert a. induction b as [|[x v] b IH]; intros a Hb; [done|]. cbn [foldl fst snd].
  inversion Hb as [|? ? Hx Hb']; subst. rewrite IH by done. rewrite own_put. cbn [own].
  destruct (String.eqb_spec k x) as [->|]; [|done]. by rewrite (proj2 (own_None b x)).
Qed.

Lemma NoDup_obj_spread {A} (a b : obj A) : NoDup (obj_keys a) -> NoDup (obj_keys (obj_spread a b)).
Proof.
  unfold obj_spread. revert a. induction b as [|[x v] b IH]; intros a Ha; [done|].
  cbn [foldl]. by apply IH, NoDup_obj_put.
Qed.

(** The entries whose key and value pass a test. *)
Lemma own_filter_entry {A} (f : string * A -> bool) (o : obj A) k : NoDup (obj_keys o) ->
  own (List.filter f o) k = match own o k with Some v => if f (k, v) then Some v else None | None => None end.
Proof.
  induction o as [|[x v] o IH]; intros Ho; [done|]. inversion Ho as [|? ? Hx Ho']; subst. cbn [List.filter own].
  destruct (String.eqb_spec k x) as [->|Hk].
  - destruct (f (x, v)); cbn [own]; [by rewrite String.eqb_refl|]. rewrite IH by done.
    by rewrite (proj2 (own_None o x)).
  - destruct (f (x, v)); cbn [own]; [destruct (String.eqb_spec k x); [done|]|]; by apply IH.
Qed.

Lemma obj_keys_filter {A} (P : string * A -> bool) (o : obj A) :
  NoDup (obj_keys o) -> NoDup (obj_keys (List.filter P o)).
Proof.
  induction o as [|p o IH]; simpl; [done|]. intros [Hp Ho]%NoDup_cons.
  destruct (P p); [|by apply IH]. simpl. apply NoDup_cons. split; [|by apply IH].
  intros Hin. apply Hp. unfold obj_keys in *. apply list_elem_of_fmap in Hin as (x & -> & Hx).
  apply list_elem_of_fmap. exists x. split; [done|]. by apply filter_elem in Hx as [? _].
Qed.

Lemma own_filter {A} (P : A -> bool) (o : obj A) k :
  NoDup (obj_keys o) ->
  own (List.filter (fun p => P p.2) o) k =
    match own o k with Some v => if P v then Some v else None | None => None end.
Proof.
  induction o as [|[x v] o IH]; simpl; [done|]. intros [Hx Ho]%NoDup_cons.
  destruct (String.eqb_spec k x) as [->|Hne].
  - destruct (P v) eqn:HP; simpl; rewrite ?HP, ?String.eqb_refl; [done|].
    rewrite IH by done. destruct (own o x) eqn:Hown; [|done].
    exfalso. apply Hx. apply own_In in Hown. unfold obj_keys. apply list_elem_of_fmap. by eexists (_, _).
  - destruct (P v) eqn:HP; simpl; rewrite IH by done; [|done].
    by destruct (String.eqb_spec k x).
Qed.

#[export] Hint Resolve own_In : js.

(** ** Maps

    A [Map] is its entries in insertion order, each key once. *)
Definition map_delete {A} (m : obj A) (k : string) : obj A :=
  List.filter (fun p => negb (k =? p.1)%string) m.

(** [m.delete(k); m.set(k, v)]: the entry becomes the newest. *)
Definition map_touch {A} (m : obj A) (k : string) (v : A) : obj A :=
  map_delete m k ++ [(k, v)].

Lemma obj_keys_delete {A} (m : obj A) k :
  obj_keys (map_delete m k) = List.filter (fun x => negb (k =? x)%string) (obj_keys m).
Proof.
  unfold obj_keys, map_delete. induction m as [|[x v] m IH]; simpl; [done|].
  destruct (k =? x)%string; simpl; [done|by rewrite IH].
Qed.

Lemma map_delete_id {A} (m : obj A) k : k ∉ obj_keys m -> map_delete m k = m.
Proof.
  intros Hk. apply filter_bool_id. intros [x v] Hin. simpl. apply negb_true_iff.
  apply String.eqb_neq. intros ->. apply Hk.
  apply list_elem_of_In, in_map_iff. exists (x, v). by rewrite <- list_elem_of_In.
Qed.

Lemma own_map_delete {A} (m : obj A) k q : q <> k -> own (map_delete m k) q = own m q.
Proof.
  intros Hne. induction m as [|[x v] m IH]; simpl; [done|].
  destruct (String.eqb_spec k x) as [->|]; simpl.
  - rewrite IH. by destruct (String.eqb_spec q x).
  - by rewrite IH.
Qed.

Lemma own_app {A} (m m' : obj A) k :
  own (m ++ m') k = match own m k with Some v => Some v | None => own m' k end.
Proof.
  induction m as [|[x v] m IH]; simpl; [done|]. by destruct (k =? x)%string.
Qed.

Lemma map_delete_length {A} (m : obj A) k :
  NoDup (obj_keys m) -> is_Some (own m k) -> (length (map_delete m k) + 1 = length m)%nat.
Proof.
  induction m as [|[x v] m IH]; simpl; intros Hnd [w Hw]; [done|].
  apply NoDup_cons in Hnd as [Hx Hnd].
  destruct (String.eqb_spec k x) as [->|Hne]; simpl.
  - fold (map_delete m x). rewrite map_delete_id by done. lia.
  - rewrite <- IH; [lia|done|by exists w].
Qed.

Lemma NoDup_map_delete {A} (m : obj A) k :
  NoDup (obj_keys m) -> NoDup (obj_keys (map_delete m k)).
Proof. intros. rewrite obj_keys_delete. by apply NoDup_filter_bool. Qed.

Lemma own_map_delete_eq {A} (m : obj A) k : own (map_delete m k) k = None.
Proof.
  apply own_None. rewrite obj_keys_delete, filter_elem.
  intros [_ H]. by rewrite String.eqb_refl in H.
Qed.

Lemma own_map_touch {A} (m : obj A) k v q :
  own (map_touch m k v) q = if (q =? k)%string then Some v else own m q.
Proof.
  unfold map_touch. rewrite own_app. simpl. destruct (String.eqb_spec q k) as [->|Hne].
  - by rewrite own_map_delete_eq.
  - rewrite own_map_delete by done. by destruct (own m q).
Qed.

Lemma NoDup_map_touch {A} (m : obj A) k v :
  NoDup (obj_keys m) -> NoDup (obj_keys (map_touch m k v)).
Proof.
  intros Hnd. unfold map_touch, obj_keys. rewrite map_app. apply NoDup_app.
  split; [by apply NoDup_map_delete|]. split; [|apply NoDup_singleton].
  intros x Hx ->%list_elem_of_singleton. revert Hx. fold (obj_keys (map_delete m k)).
  apply own_None, own_map_delete_eq.
Qed.

(** ** JSON values and [any] *)

Inductive json :=
| JNull
| JBool (b : bool)
| JNum (n : num)
| JStr (s : string)
| JArr (l : list json)
| JObj (o : list (string * json)).

(** A value of type [any]: a JSON value or [undefined]. *)
Abbreviation any := (option json).

(** [v?.k]: property access where null and undefined give undefined. Arrays
    and strings have no own property among the names the code reads. *)
Definition prop (v : any) (k : string) : any :=
  match v with Some (JObj o) => own o k | _ => None end.

Definition is_null_or_undef (v : any) : bool :=
  match v with None | Some JNull => true | _ => false end.

(** [a ?? b] *)
Definition nullish (a b : any) : any := if is_null_or_undef a then b else a.

Definition num_truthy (n : num) : bool :=
  match n with S754_zero _ | S754_nan => false | _ => true end.

(** [!!v] *)
Definition truthy (v : any) : bool :=
  match v with
  | None | Some JNull => false
  | Some (JBool b) => b
  | Some (JNum n) => num_truthy n
  | Some (JStr s) => truthy_string s
  | Some (JArr _) | Some (JObj _) => true
  end.

Definition as_string (v : any) : option string :=
  match v with Some (JStr s) => Some s | _ => None end.

Definition as_num (v : any) : option num :=
  match v with Some (JNum n) => Some n | _ => None end.

Definition is_object (v : any) : bool :=
  match v with Some (JObj _) => true | _ => false end.

(** Induction over JSON values with the hypothesis for every component. *)
Section json_induction.
Variable P : json -> Prop.
Hypothesis Hnull : P JNull.
Hypothesis Hbool : forall b, P (JBool b).
Hypothesis Hnum : forall n, P (JNum n).
Hypothesis Hstr : forall s, P (JStr s).
Hypothesis Harr : forall l, Forall P l -> P (JArr l).
Hypothesis Hobj : forall o, Forall (fun p => P p.2) o -> P (JObj o).

Fixpoint json_rect' (v : json) : P v :=
  match v with
  | JNull => Hnull
  | JBool b => Hbool b
  | JNum n => Hnum n
  | JStr s => Hstr s
  | JArr l => Harr l ((fix go (l : list json) : Forall P l :=
      match l with
      | [] => Forall_nil_2 P
      | x :: r => Forall_cons_2 P x r (json_rect' x) (go r)
      end) l)
  | JObj o => Hobj o ((fix go (o : list (string * json)) : Forall (fun p => P p.2) o :=
      match o with
      | [] => Forall_nil_2 _
      | p :: r => Forall_cons_2 (fun p => P p.2) p r (json_rect' p.2) (go r)
      end) o)
  end.
End json_induction.

(** ** [ToNumber] on a value of type [any]

    A one-element array converts through its element's string, a longer one
    through a string with a comma, an object through ["[object Object]"]. *)
Fixpoint json_to_number (v : json) : num :=
  match v with
  | JNull => nzero
  | JBool b => if b then num_of_Z 1 else nzero
  | JNum n => n
  | JStr s => to_number s
  | JArr [] => nzero
  | JArr [JNull] => nzero
  | JArr [JBool _] => NaN
  | JArr [JNum n] => if num_truthy n then n else nadd n nzero
  | JArr [x] => json_to_number x
  | JArr _ => NaN
  | JObj _ => NaN
  end.

Definition ToNumber (v : any) : num :=
  match v with Some j => json_to_number j | None => NaN end.

(** ** Reading documents *)

Definition object_of (v : any) : option (obj json) :=
  match v with Some (JObj o) => Some o | _ => None end.

(** Unwraps an option or throws. *)
Definition required {E A} (o : option A) (e : E) : result E A :=
  match o with Some x => Ok x | None => Throw e end.

(** The first key that is not one of the known fields. *)
Definition first_unknown (fields keys : list string) : option string :=
  List.find (fun k => negb (mem_string k fields)) keys.

Definition known_fields {E A} (fields : list string) (o : obj A) (e : string -> E)
    : result E unit :=
  match first_unknown fields (obj_keys o) with Some k => Throw (e k) | None => Ok tt end.

Lemma required_Ok {E A} (o : option A) (e : E) x : required o e = Ok x -> o = Some x.
Proof. destruct o; [by intros [= ->]|done]. Qed.

(** Takes a successful run apart, one throwing step at a time. *)
Ltac run_ok :=
  repeat match goal with
  | H : match ?x with Ok _ => _ | Throw _ => _ end = Ok _ |- _ =>
      destruct x eqn:?; [|discriminate H]
  | H : (if ?b then _ else Throw _) = Ok _ |- _ => destruct b eqn:?; [|discriminate H]
  | H : required _ _ = Ok _ |- _ => apply required_Ok in H
  end.
