(* ===== verification/Sorting.v ===== *)
(** * Array.prototype.sort

    The stable insertion that [sort] with a comparator amounts to: a permutation
    of the array, ordered when the comparator is antisymmetric.  Used by
    [Router] for candidates by cost and by [CacheKey] for identity fields.
    Nothing here models a file of the repository by itself. *)

From Stdlib Require Import Lia.
From stdpp Require Import base list.
From S2P Require Import Prelude.

#[local] Open Scope list_scope.

(** The stable sort of [Array.prototype.sort] for a comparator. *)
Fixpoint insert_sorted {A} (gt : A -> A -> bool) (x : A) (l : list A) : list A :=
  match l with
  | [] => [x]
  | y :: r => if gt y x then x :: l else y :: insert_sorted gt x r
  end.

Definition stable_sort {A} (gt : A -> A -> bool) (l : list A) : list A :=
  foldl (fun acc x => insert_sorted gt x acc) [] l.

Section StableSort.
Context {A : Type} (gt : A -> A -> bool).

Lemma insert_sorted_perm x l : insert_sorted gt x l ≡ₚ x :: l.
Proof.
  induction l as [|y l IH]; simpl; [done|]. destruct (gt y x); [done|].
  rewrite IH. apply Permutation_swap.
Qed.

Lemma stable_sort_perm_acc l acc :
  foldl (fun acc x => insert_sorted gt x acc) acc l ≡ₚ acc ++ l.
Proof.
  revert acc. induction l as [|x l IH]; intros acc; simpl; [by rewrite app_nil_r|].
  rewrite IH, insert_sorted_perm. by rewrite <- Permutation_middle.
Qed.

Lemma stable_sort_perm l : stable_sort gt l ≡ₚ l.
Proof. apply (stable_sort_perm_acc l []). Qed.

(** Consecutive elements are never in the comparator's wrong order. *)
Fixpoint ordered (l : list A) : Prop :=
  match l with
  | x :: (y :: _) as r => gt x y = false /\ ordered r
  | _ => True
  end.

Hypothesis gt_asym : forall a b, gt a b = true -> gt b a = false.

Lemma insert_sorted_ordered x l : ordered l -> ordered (insert_sorted gt x l).
Proof.
  induction l as [|y l IH]; [done|]. intros Hl.
  cbn [insert_sorted]. destruct (gt y x) eqn:Hyx.
  { simpl. split; [by apply gt_asym|done]. }
  destruct l as [|z l]; [simpl; done|].
  destruct Hl as [Hyz Hl]. specialize (IH Hl).
  cbn [insert_sorted] in *. destruct (gt z x); simpl in *; naive_solver.
Qed.

Lemma stable_sort_ordered l : ordered (stable_sort gt l).
Proof.
  unfold stable_sort. generalize (I : ordered []). generalize (@nil A).
  induction l as [|x l IH]; intros acc Hacc; simpl; [done|].
  apply IH. by apply insert_sorted_ordered.
Qed.

Lemma elem_of_stable_sort l x : x ∈ stable_sort gt l <-> x ∈ l.
Proof. by rewrite stable_sort_perm. Qed.
End StableSort.

