(* ===== verification/RoutePolicy.v ===== *)
(** * The routing policy and its cost model

    [middlewares/router/types.ts] (the data) and [middlewares/router/policy.ts]
    (token and cost estimates, the two cost-minimising searches). *)

From Stdlib Require Import ZArith Lia ZifyBool.
From stdpp Require Import base strings option sets list.
From S2P Require Import Prelude JsValue.

#[local] Open Scope string_scope.
#[local] Open Scope list_scope.
#[local] Open Scope num_scope.

(** ** Data ([types.ts]) *)

Inductive Quality := draft | balanced | critical.

Definition quality_name (q : Quality) : string :=
  match q with draft => "draft" | balanced => "balanced" | critical => "critical" end.

Record ModelTier := mkTier {
  mt_model : string;
  mt_group : string;
  mt_inputCostPer1k : num;
  mt_outputCostPer1k : num;
  mt_provider : option string;
  mt_jurisdiction : option string;
  mt_zdr : option bool;
  mt_usCloudActExposure : option bool
}.

(** ['declared' | 'pii_escalated' | 'default'] *)
Inductive SensitivitySource := declared | pii_escalated | default_level.

Record SensitivityConfig := mkSensitivity {
  sc_levels : option (list string);
  sc_unclassifiedDefault : string;
  sc_piiEscalation : option (obj string)
}.

Record DataPolicyRule := mkRule {
  dr_jurisdictions : list string;
  dr_providers : option (list string);
  dr_requireZdr : option bool;
  dr_usCloudActExposure : option bool
}.

Record UseCaseBar := mkBar {
  ub_minGroup : option string;
  ub_evalSet : option string;
  ub_minParity : option num;
  ub_eligibleModels : option (list string)
}.

Record RoutePolicy := mkPolicy {
  rp_policyVersion : option string;
  rp_defaultGroup : string;
  rp_groups : obj (list ModelTier);
  rp_qualityToGroup : obj string;
  rp_groupOrder : option (list string);
  rp_strategy : option string;
  rp_sensitivity : option SensitivityConfig;
  rp_dataPolicy : option (obj DataPolicyRule);
  rp_useCases : option (obj UseCaseBar)
}.

Record RouteRequest := mkReq {
  rr_messages : list json;
  rr_requestedModel : string;
  rr_approxInputTokens : num;
  rr_maxOutputTokens : any;
  rr_quality : option Quality;
  rr_maxCost : option num;
  rr_explicitGroup : option string;
  rr_dataClassification : option string;
  rr_piiDetected : list string;
  rr_useCase : option string
}.

Record RouteDecision := mkDecision {
  rd_model : string;
  rd_group : string;
  rd_reason : string;
  rd_estCost : num;
  rd_sensitivityLevel : option string;
  rd_sensitivitySource : option SensitivitySource
}.

Record ParsedRouteHints := mkHints {
  ph_quality : option Quality;
  ph_maxCost : option num;
  ph_explicitGroup : option string;
  ph_dataClassification : option string;
  ph_useCase : option string;
  ph_cacheOff : bool
}.

(** Every tier of the policy, in the order the nested loops over
    [Object.keys(policy.groups)] and each group visit them. *)
Definition all_tiers (policy : RoutePolicy) : list ModelTier :=
  concat (map snd (rp_groups policy)).

(** ** Estimates ([policy.ts]) *)

Definition DEFAULT_OUTPUT_TOKENS : num := num_of_Z 512.

(** Characters of one message: a string content, or the text parts of an
    array content. *)
Definition part_chars (part : json) : Z :=
  match prop (Some part) "text" with
  | Some (JStr t) => Z.of_nat (String.length t)
  | _ => 0
  end.

Definition message_chars (m : json) : Z :=
  match prop (Some m) "content" with
  | Some (JStr s) => Z.of_nat (String.length s)
  | Some (JArr parts) => foldl (fun acc part => (acc + part_chars part)%Z) 0%Z parts
  | _ => 0
  end.

(** [Math.ceil(chars / 4)] *)
Definition estimateInputTokens (messages : list json) : num :=
  let chars := foldl (fun acc m => (acc + message_chars m)%Z) 0%Z messages in
  nceil (num_of_Z chars / num_of_Z 4).

Definition estimateTierCost (tier : ModelTier) (inputTokens outputTokens : num) : num :=
  (inputTokens / num_of_Z 1000) * mt_inputCostPer1k tier +
  (outputTokens / num_of_Z 1000) * mt_outputCostPer1k tier.

(** [maxOutputTokens ?? DEFAULT_OUTPUT_TOKENS], as a number. *)
Definition out_tokens (maxOutputTokens : any) : num :=
  ToNumber (nullish maxOutputTokens (Some (JNum DEFAULT_OUTPUT_TOKENS))).

Definition outTokens (req : RouteRequest) : num := out_tokens (rr_maxOutputTokens req).

(** The cost the searches give a tier for a request. *)
Definition request_cost (req : RouteRequest) (tier : ModelTier) : num :=
  estimateTierCost tier (rr_approxInputTokens req) (outTokens req).

Definition groupTiers (policy : RoutePolicy) (name : string) : option (list ModelTier) :=
  own (rp_groups policy) name.

(** [groupTiers(policy, g) || []] *)
Definition tiersOf (policy : RoutePolicy) (g : string) : list ModelTier :=
  default [] (groupTiers policy g).

(** A chosen tier with its estimate. *)
Record Pick := mkPick { pk_tier : ModelTier; pk_estCost : num }.

Fixpoint pick_loop (cost : ModelTier -> num) (tiers : list ModelTier)
    (best : option ModelTier) (bestCost : num) : option Pick :=
  match tiers with
  | [] => (fun t => mkPick t bestCost) <$> best
  | tier :: rest =>
      let c := cost tier in
      if c <? bestCost then pick_loop cost rest (Some tier) c
      else pick_loop cost rest best bestCost
  end.

Definition pickCheapestIn (tiers : list ModelTier) (req : RouteRequest) : option Pick :=
  pick_loop (request_cost req) tiers None Infinity.

(** The two accumulators of [cheapestUnderBudget], updated for one tier. *)
Definition budget_step (cost : ModelTier -> num) (maxCost : num)
    (allow : ModelTier -> bool) (acc : option Pick * option Pick) (tier : ModelTier)
    : option Pick * option Pick :=
  let '(under, cheapest) := acc in
  if negb (allow tier) then acc else
  let c := cost tier in
  let cheapest' := match cheapest with
    | Some p => if c <? pk_estCost p then Some (mkPick tier c) else cheapest
    | None => Some (mkPick tier c) end in
  let under' :=
    if (c <=? maxCost) &&
       match under with Some p => pk_estCost p <? c | None => true end
    then Some (mkPick tier c) else under in
  (under', cheapest').

(** The result carries [underBudget]. *)
Definition cheapestUnderBudget (policy : RoutePolicy) (maxCost : num)
    (req : RouteRequest) (allow : ModelTier -> bool) : option (Pick * bool) :=
  let '(under, cheapest) :=
    foldl (foldl (budget_step (request_cost req) maxCost allow))
          (None, None) (map snd (rp_groups policy)) in
  match under with
  | Some p => Some (p, true)
  | None => (fun p => (p, false)) <$> cheapest
  end.

(** ** Lemmas *)

Lemma foldl_concat {A B} (f : A -> B -> A) (ls : list (list B)) a :
  foldl (foldl f) a ls = foldl f a (concat ls).
Proof.
  revert a. induction ls as [|l ls IH]; intros a; simpl; [done|].
  rewrite IH. by rewrite foldl_app.
Qed.

(** [p] records [t]'s cost and no tier of [seen] beats it. *)
Definition cheapest_of (cost : ModelTier -> num) (seen : list ModelTier) (p : Pick) : Prop :=
  pk_tier p ∈ seen /\ pk_estCost p = cost (pk_tier p) /\
  forall t, t ∈ seen -> (cost t <? pk_estCost p) = false.

Lemma pick_loop_spec cost tiers best bestCost seen :
  match best with
  | Some b => cheapest_of cost seen (mkPick b bestCost) /\ (bestCost <? Infinity) = true
  | None => bestCost = Infinity /\ forall t, t ∈ seen -> (cost t <? Infinity) = false
  end ->
  match pick_loop cost tiers best bestCost with
  | Some p => cheapest_of cost (seen ++ tiers) p /\ (pk_estCost p <? Infinity) = true
  | None => forall t, t ∈ seen ++ tiers -> (cost t <? Infinity) = false
  end.
Proof.
  revert best bestCost seen.
  induction tiers as [|tier tiers IH]; intros best bestCost seen Hinv; simpl.
  { rewrite app_nil_r. destruct best; simpl; [done|by destruct Hinv]. }
  replace (seen ++ tier :: tiers) with ((seen ++ [tier]) ++ tiers)
    by by rewrite <- app_assoc.
  destruct (cost tier <? bestCost) eqn:Hc; apply IH.
  - split.
    + split; simpl; [set_solver|]. split; [done|].
      intros t [Ht|Ht]%elem_of_app.
      * destruct best as [b|].
        { destruct Hinv as [(_ & _ & Hmin) _]. specialize (Hmin _ Ht). simpl in Hmin. num_order. }
        { destruct Hinv as [-> Hmin]. specialize (Hmin _ Ht). num_order. }
      * apply list_elem_of_singleton in Ht as ->. apply nltb_irrefl.
    + destruct best; [destruct Hinv as [_ ?]|destruct Hinv as [-> _]]; num_order.
  - destruct best as [b|].
    + destruct Hinv as [(? & ? & Hmin) ?]. split; [|done].
      split; simpl in *; [set_solver|]. split; [done|].
      intros t [Ht|Ht]%elem_of_app; [by apply Hmin|].
      by apply list_elem_of_singleton in Ht as ->.
    + destruct Hinv as [-> Hmin]. split; [done|].
      intros t [Ht|Ht]%elem_of_app; [by apply Hmin|].
      by apply list_elem_of_singleton in Ht as ->.
Qed.

(** Functional specification of the single-group search. *)
Lemma pickCheapestIn_spec tiers req :
  match pickCheapestIn tiers req with
  | Some p => cheapest_of (request_cost req) tiers p /\ (pk_estCost p <? Infinity) = true
  | None => forall t, t ∈ tiers -> (request_cost req t <? Infinity) = false
  end.
Proof.
  apply (pick_loop_spec _ tiers None Infinity []). split; [done|].
  intros t Ht. by apply elem_of_nil in Ht.
Qed.

Lemma pickCheapestIn_In tiers req p :
  pickCheapestIn tiers req = Some p ->
  pk_tier p ∈ tiers /\ pk_estCost p = request_cost req (pk_tier p).
Proof.
  intros H. pose proof (pickCheapestIn_spec tiers req) as Hs. rewrite H in Hs.
  by destruct Hs as [(? & ? & _) _].
Qed.

(** The best candidate at or under the ceiling: none is more capable. *)
Definition best_under (cost : ModelTier -> num) (maxCost : num) (seen : list ModelTier)
    (p : Pick) : Prop :=
  pk_tier p ∈ seen /\ pk_estCost p = cost (pk_tier p) /\
  (pk_estCost p <=? maxCost) = true /\
  forall t, t ∈ seen -> (cost t <=? maxCost) = true -> (pk_estCost p <? cost t) = false.

(** The state of the loop after visiting [seen]. *)
Definition budget_inv (cost : ModelTier -> num) (maxCost : num) (allow : ModelTier -> bool)
    (seen : list ModelTier) (acc : option Pick * option Pick) : Prop :=
  let ok := List.filter allow seen in
  match acc.1 with
  | Some p => best_under cost maxCost ok p
  | None => forall t, t ∈ ok -> (cost t <=? maxCost) = false
  end /\
  match acc.2 with
  | Some p => cheapest_of cost ok p
  | None => ok = []
  end.

Lemma budget_step_inv cost maxCost allow seen acc tier :
  budget_inv cost maxCost allow seen acc ->
  budget_inv cost maxCost allow (seen ++ [tier]) (budget_step cost maxCost allow acc tier).
Proof.
  destruct acc as [under cheapest]. unfold budget_inv, budget_step.
  rewrite List.filter_app. simpl.
  destruct (allow tier); simpl; [|by rewrite app_nil_r].
  set (ok := List.filter allow seen). intros [Hu Hc]. split.
  - destruct ((cost tier <=? maxCost) && _) eqn:Hg.
    + apply andb_true_iff in Hg as [Hle Hgt]. simpl.
      split; simpl; [set_solver|]. split; [done|]. split; [done|].
      intros t [Ht|Ht]%elem_of_app Hlt.
      * destruct under as [p|]; [|by rewrite (Hu _ Ht) in Hlt].
        destruct Hu as (_ & _ & _ & Hmax). specialize (Hmax _ Ht Hlt). num_order.
      * apply list_elem_of_singleton in Ht as ->. apply nltb_irrefl.
    + destruct under as [p|].
      * destruct Hu as (? & ? & ? & Hmax). split; simpl; [set_solver|].
        do 2 (split; [done|]). intros t [Ht|Ht]%elem_of_app Hlt; [by apply Hmax|].
        apply list_elem_of_singleton in Ht as ->. by rewrite Hlt in Hg.
      * intros t [Ht|Ht]%elem_of_app; [by apply Hu|].
        apply list_elem_of_singleton in Ht as ->. by rewrite andb_true_r in Hg.
  - destruct cheapest as [p|].
    + destruct Hc as (Hin & He & Hmin).
      destruct (cost tier <? pk_estCost p) eqn:Hlt; simpl.
      * split; simpl; [set_solver|]. split; [done|].
        intros t [Ht|Ht]%elem_of_app.
        { specialize (Hmin _ Ht). num_order. }
        apply list_elem_of_singleton in Ht as ->. apply nltb_irrefl.
      * split; [set_solver|]. split; [done|].
        intros t [Ht|Ht]%elem_of_app; [by apply Hmin|].
        by apply list_elem_of_singleton in Ht as ->.
    + rewrite Hc. simpl. split; simpl; [set_solver|]. split; [done|].
      intros t Ht%list_elem_of_singleton. subst. apply nltb_irrefl.
Qed.

Lemma budget_loop_inv cost maxCost allow tiers seen acc :
  budget_inv cost maxCost allow seen acc ->
  budget_inv cost maxCost allow (seen ++ tiers)
    (foldl (budget_step cost maxCost allow) acc tiers).
Proof.
  revert seen acc. induction tiers as [|t tiers IH]; intros seen acc H; simpl.
  - by rewrite app_nil_r.
  - replace (seen ++ t :: tiers) with ((seen ++ [t]) ++ tiers) by by rewrite <- app_assoc.
    apply IH. by apply budget_step_inv.
Qed.

(** Functional specification of the search under a ceiling. *)
Lemma cheapestUnderBudget_spec policy maxCost req allow :
  let ok := List.filter allow (all_tiers policy) in
  match cheapestUnderBudget policy maxCost req allow with
  | Some (p, true) => best_under (request_cost req) maxCost ok p
  | Some (p, false) => cheapest_of (request_cost req) ok p /\
      forall t, t ∈ ok -> (request_cost req t <=? maxCost) = false
  | None => ok = []
  end.
Proof.
  unfold cheapestUnderBudget. rewrite foldl_concat.
  pose proof (budget_loop_inv (request_cost req) maxCost allow (all_tiers policy) []
                (None, None)) as H.
  fold (all_tiers policy).
  destruct (foldl _ _ _) as [under cheapest]. destruct H as [Hu Hc].
  { split; simpl; [|done]. intros t Ht. by apply elem_of_nil in Ht. }
  simpl in *. destruct under as [p|]; [done|]. by destruct cheapest as [p|].
Qed.

Lemma cheapestUnderBudget_In policy maxCost req allow p b :
  cheapestUnderBudget policy maxCost req allow = Some (p, b) ->
  pk_tier p ∈ all_tiers policy /\ allow (pk_tier p) = true /\
  pk_estCost p = request_cost req (pk_tier p).
Proof.
  intros H. pose proof (cheapestUnderBudget_spec policy maxCost req allow) as Hs.
  rewrite H in Hs. simpl in Hs.
  assert (pk_tier p ∈ List.filter allow (all_tiers policy) /\
          pk_estCost p = request_cost req (pk_tier p)) as [Hin ?].
  { destruct b; [by destruct Hs as (? & ? & _)|by destruct Hs as [(? & ? & _) _]]. }
  apply list_elem_of_In, filter_In in Hin as [Hin ?]. by rewrite list_elem_of_In.
Qed.

Lemma tiersOf_all_tiers policy g t : t ∈ tiersOf policy g -> t ∈ all_tiers policy.
Proof.
  unfold tiersOf, groupTiers, all_tiers. destruct (own _ g) as [ts|] eqn:Ho; simpl.
  - intros Ht. apply own_In in Ho. apply list_elem_of_In, in_concat. exists ts.
    split; [|by apply list_elem_of_In].
    apply in_map_iff. exists (g, ts). split; [done|]. by apply list_elem_of_In.
  - intros Ht. by apply elem_of_nil in Ht.
Qed.

#[export] Hint Resolve tiersOf_all_tiers : js.
