(* ===== verification/Constraints.v ===== *)
(** * Policy stages that run before any routing strategy

    [middlewares/router/constraints.ts]: sensitivity classification and the
    fail-closed data policy; [middlewares/psServedTarget.ts]: which tiers
    state facts about the target a call is sent to.  The WHATWG URL parser is
    a parameter ([urlOrigin], the [origin] of a parsed URL). *)

From Stdlib Require Import ZArith Lia ZifyBool.
From stdpp Require Import base strings option sets list.
From S2P Require Import Prelude JsValue RoutePolicy.

#[local] Open Scope string_scope.
#[local] Open Scope list_scope.

(** ** Sensitivity *)

Definition DEFAULT_LEVELS : list string :=
  ["public"; "internal"; "confidential"; "restricted"].

Definition EEA_COUNTRIES : list string :=
  ["AT"; "BE"; "BG"; "HR"; "CY"; "CZ"; "DK"; "EE"; "FI"; "FR"; "DE"; "GR";
   "HU"; "IE"; "IT"; "LV"; "LT"; "LU"; "MT"; "NL"; "PL"; "PT"; "RO"; "SK";
   "SI"; "ES"; "SE"; "IS"; "LI"; "NO"].

(** The error thrown when no candidate is allowed. *)
Record PolicyViolation := mkViolation {
  pv_message : string;
  pv_sensitivityLevel : option string;
  pv_sensitivitySource : option SensitivitySource;
  pv_group : option string
}.

Definition hasPolicyStages (policy : RoutePolicy) : bool :=
  match rp_sensitivity policy, rp_dataPolicy policy, rp_useCases policy with
  | None, None, None => false
  | _, _, _ => true
  end.

(** [levels.indexOf(l)] *)
Definition rank (levels : list string) (l : string) : Z :=
  match indexOf l levels with Some i => Z.of_nat i | None => (-1)%Z end.

Definition levels_of (s : SensitivityConfig) : list string :=
  match sc_levels s with
  | Some ((_ :: _) as l) => l
  | _ => DEFAULT_LEVELS
  end.

(** The level a detected category escalates to, when the map has one. *)
Definition escalation_of (s : SensitivityConfig) (category : string) : option string :=
  match sc_piiEscalation s with Some m => own m category | None => None end.

Definition escalate (s : SensitivityConfig) (acc : string * SensitivitySource)
    (category : string) : string * SensitivitySource :=
  let levels := levels_of s in
  match escalation_of s category with
  | Some escalated =>
      if ((0 <=? rank levels escalated) && (rank levels acc.1 <? rank levels escalated))%Z
      then (escalated, pii_escalated) else acc
  | None => acc
  end.

(** The level before any detection. *)
Definition declared_level (s : SensitivityConfig) (declared_ : option string)
    : string * SensitivitySource :=
  match declared_ with
  | Some d => if (0 <=? rank (levels_of s) d)%Z then (d, declared)
              else (sc_unclassifiedDefault s, default_level)
  | None => (sc_unclassifiedDefault s, default_level)
  end.

Definition classifySensitivity (policy : RoutePolicy) (declared_ : option string)
    (piiDetected : list string) : option string * SensitivitySource :=
  match rp_sensitivity policy with
  | None =>
      match declared_ with
      | Some d => if truthy_string d then (Some d, declared) else (None, default_level)
      | None => (None, default_level)
      end
  | Some s =>
      let '(level, source) := foldl (escalate s) (declared_level s declared_) piiDetected in
      (Some level, source)
  end.

(** ** Data policy *)

Definition dataPolicyRule (policy : RoutePolicy) (level : option string)
    : option DataPolicyRule :=
  match level, rp_dataPolicy policy with
  | Some l, Some d => own d l
  | _, _ => None
  end.

Definition jurisdictionAllowed (jurisdiction : option string) (allowed : list string)
    : bool :=
  if mem_string "any" allowed then true else
  match jurisdiction with
  | None => false
  | Some j => mem_string j allowed ||
              (mem_string "EEA" allowed && mem_string j EEA_COUNTRIES)
  end.

Definition is_true_flag (o : option bool) : bool :=
  match o with Some true => true | _ => false end.

Definition is_false_flag (o : option bool) : bool :=
  match o with Some false => true | _ => false end.

Definition tierComplies (tier : ModelTier) (rule : option DataPolicyRule) : bool :=
  match rule with
  | None => true
  | Some r =>
      if negb (jurisdictionAllowed (mt_jurisdiction tier) (dr_jurisdictions r)) then false
      else if match dr_providers r with
              | Some ps => match mt_provider tier with
                           | None => true
                           | Some p => negb (mem_string p ps)
                           end
              | None => false
              end then false
      else if is_true_flag (dr_requireZdr r) && negb (is_true_flag (mt_zdr tier)) then false
      else negb (is_false_flag (dr_usCloudActExposure r) &&
                 negb (is_false_flag (mt_usCloudActExposure tier)))
  end.

(** A model the policy states nothing about. *)
Definition unlisted_tier (model : string) : ModelTier :=
  mkTier model "" nzero nzero None None None None.

Definition modelComplies (policy : RoutePolicy) (model : option string)
    (rule : option DataPolicyRule) (applies : ModelTier -> bool) : bool :=
  match rule with
  | None => true
  | Some _ =>
      let tiers :=
        match model with
        | Some m =>
            if truthy_string m
            then List.filter (fun t => (mt_model t =? m)%string && applies t)
                             (all_tiers policy)
            else []
        | None => []
        end in
      match tiers with
      | [] => tierComplies (unlisted_tier (default "" model)) rule
      | _ => existsb (fun t => tierComplies t rule) tiers
      end
  end.

(** ** Use-case bar *)

Definition groupRank (policy : RoutePolicy) (g : string) : option nat :=
  indexOf g (default [] (rp_groupOrder policy)).

Definition useCaseBar (policy : RoutePolicy) (useCase : option string)
    : option UseCaseBar :=
  match useCase, rp_useCases policy with
  | Some u, Some m => own m u
  | _, _ => None
  end.

(** ** Served targets ([psServedTarget.ts]) *)

Record ServedTarget := mkTarget {
  st_provider : option string;
  st_customHost : option string;
  st_model : option string
}.

Definition POLICY_PROVIDER_IDS : obj string := [("mistral-ai", "mistral")].

Definition POLICY_PROVIDER_ALIASES : obj (list string) := [("mistral-ai", ["mistral-eu"])].

Definition PROVIDER_BASE_URLS : obj string :=
  [("openai", "https://api.openai.com/v1");
   ("anthropic", "https://api.anthropic.com/v1");
   ("mistral-ai", "https://api.mistral.ai/v1");
   ("berget", "https://api.berget.ai/v1");
   ("infercom", "https://api.infercom.ai/v1");
   ("ionos", "https://openai.inference.de-txl.ionos.com/v1");
   ("regolo", "https://api.regolo.ai/v1");
   ("scaleway", "https://api.scaleway.ai/v1");
   ("stackit", "https://api.openai-compat.model-serving.eu01.onstackit.cloud/v1");
   ("ovhcloud", "https://oai.endpoints.kepler.ai.cloud.ovh.net/v1")].

Definition policyProviderId (provider : string) : string :=
  let id := toLowerCase provider in
  default id (own POLICY_PROVIDER_IDS id).

Section ServedTarget.
(** [new URL(s).origin]; [None] when the constructor throws. *)
Variable urlOrigin : string -> option string.

Definition originOf (url : string) : option string :=
  toLowerCase <$> urlOrigin (trim url).

(** [undefined === undefined] holds in the last comparison. *)
Definition same_origin (a b : option string) : bool :=
  match a, b with
  | Some x, Some y => (x =? y)%string
  | None, None => true
  | _, _ => false
  end.

Definition tierServesTarget (tier : ModelTier) (target : option ServedTarget) : bool :=
  match mt_provider tier, target with
  | None, _ | _, None => true
  | Some tp, Some tgt =>
      if negb (truthy_opt (st_provider tgt)) then true else
      let gatewayId := toLowerCase (default "" (st_provider tgt)) in
      if negb (tp =? gatewayId)%string &&
         negb (tp =? policyProviderId gatewayId)%string &&
         negb (mem_string tp (default [] (own POLICY_PROVIDER_ALIASES gatewayId)))
      then false
      else if negb (truthy_opt (st_customHost tgt)) then true
      else match own PROVIDER_BASE_URLS gatewayId with
           | Some own_url =>
               truthy_string own_url &&
               same_origin (originOf (default "" (st_customHost tgt))) (originOf own_url)
           | None => false
           end
  end.

(** [[...found]] of a [Set] of optional jurisdictions, in insertion order. *)
Definition add_found (found : list (option string)) (j : option string)
    : list (option string) :=
  if decide (j ∈ found) then found else found ++ [j].

Definition servedJurisdiction (policy : option RoutePolicy) (model : option string)
    (target : option ServedTarget) : option string :=
  match policy, model with
  | Some p, Some m =>
      if negb (truthy_string m) then None else
      let found :=
        foldl (fun found tier =>
          if (mt_model tier =? m)%string && tierServesTarget tier target
          then add_found found (mt_jurisdiction tier) else found)
          [] (all_tiers p) in
      match found with [j] => j | _ => None end
  | _, _ => None
  end.
End ServedTarget.

(** [recordServedTarget]'s target: only truthy strings are kept. *)
Definition served_target_of (provider customHost model : option string) : ServedTarget :=
  let keep o := if truthy_opt o then o else None in
  mkTarget (keep provider) (keep customHost) (keep model).

(** ** Lemmas: sensitivity *)

Section Sensitivity.
Context (s : SensitivityConfig).
Let r := rank (levels_of s).

Lemma escalate_rank acc c : (r acc.1 <= r (escalate s acc c).1)%Z.
Proof. unfold escalate, r. repeat case_match; simpl; lia. Qed.

Lemma escalate_fold_rank acc cs : (r acc.1 <= r (foldl (escalate s) acc cs).1)%Z.
Proof.
  revert acc. induction cs as [|c cs IH]; intros acc; simpl; [lia|].
  pose proof (escalate_rank acc c). specialize (IH (escalate s acc c)). lia.
Qed.

Lemma escalate_fold_reaches acc cs c e :
  c ∈ cs -> escalation_of s c = Some e -> (r e <= r (foldl (escalate s) acc cs).1)%Z.
Proof.
  revert acc. induction cs as [|c' cs IH]; intros acc Hin He; simpl.
  { by apply elem_of_nil in Hin. }
  apply elem_of_cons in Hin as [->|Hin]; [|by apply IH].
  pose proof (escalate_fold_rank (escalate s acc c') cs) as H.
  enough (r e <= r (escalate s acc c').1)%Z by lia.
  unfold escalate, r. rewrite He. case_match eqn:Hg; simpl; [lia|].
  unfold rank in *. repeat case_match; lia.
Qed.

(** The level is one of those offered: the level before detection, or the
    escalation of a detected category, and then the source says so. *)
Lemma escalate_fold_origin acc cs :
  let out := foldl (escalate s) acc cs in
  out = acc \/
  (out.2 = pii_escalated /\ (r acc.1 < r out.1)%Z /\
   exists c, c ∈ cs /\ escalation_of s c = Some out.1).
Proof.
  revert acc. induction cs as [|c cs IH]; intros acc; simpl; [by left|].
  destruct (IH (escalate s acc c)) as [Heq|(Hs & Hlt & c' & Hin & He)].
  - rewrite Heq. unfold escalate. destruct (escalation_of s c) as [e|] eqn:He; [|by left].
    case_match eqn:Hg; [|by left]. right. simpl. split; [done|].
    split; [unfold r; lia|]. exists c. split; [left|done].
  - right. split; [done|]. split.
    + pose proof (escalate_rank acc c). lia.
    + exists c'. split; [by right|done].
Qed.
End Sensitivity.

(** ** Lemmas: data policy *)

(** What a rule asks of a tier, as the documentation states it. *)
Definition Compliant (tier : ModelTier) (r : DataPolicyRule) : Prop :=
  ("any" ∈ dr_jurisdictions r \/
   exists j, mt_jurisdiction tier = Some j /\
     (j ∈ dr_jurisdictions r \/ ("EEA" ∈ dr_jurisdictions r /\ j ∈ EEA_COUNTRIES))) /\
  (forall ps, dr_providers r = Some ps -> exists p, mt_provider tier = Some p /\ p ∈ ps) /\
  (dr_requireZdr r = Some true -> mt_zdr tier = Some true) /\
  (dr_usCloudActExposure r = Some false -> mt_usCloudActExposure tier = Some false).

Lemma jurisdictionAllowed_true j allowed :
  jurisdictionAllowed j allowed = true <->
  "any" ∈ allowed \/
  exists x, j = Some x /\ (x ∈ allowed \/ ("EEA" ∈ allowed /\ x ∈ EEA_COUNTRIES)).
Proof.
  unfold jurisdictionAllowed. destruct (mem_string "any" allowed) eqn:Hany.
  - apply mem_string_In in Hany. naive_solver.
  - apply mem_string_false in Hany. destruct j as [x|]; [|naive_solver].
    rewrite orb_true_iff, andb_true_iff, !mem_string_In. naive_solver.
Qed.

Lemma is_true_flag_spec o : is_true_flag o = true <-> o = Some true.
Proof. destruct o as [[]|]; naive_solver. Qed.

Lemma is_false_flag_spec o : is_false_flag o = true <-> o = Some false.
Proof. destruct o as [[]|]; naive_solver. Qed.

Lemma tierComplies_Compliant tier r :
  tierComplies tier (Some r) = true <-> Compliant tier r.
Proof.
  unfold tierComplies, Compliant.
  rewrite <- jurisdictionAllowed_true, <- !is_true_flag_spec, <- !is_false_flag_spec.
  destruct (jurisdictionAllowed _ _); simpl; [|naive_solver].
  destruct (dr_providers r) as [ps|].
  - destruct (mt_provider tier) as [p|].
    + destruct (mem_string p ps) eqn:Hp; simpl.
      * apply mem_string_In in Hp.
        destruct (is_true_flag (dr_requireZdr r)), (is_true_flag (mt_zdr tier)),
          (is_false_flag (dr_usCloudActExposure r)),
          (is_false_flag (mt_usCloudActExposure tier)); simpl; naive_solver.
      * apply mem_string_false in Hp. naive_solver.
    + naive_solver.
  - destruct (is_true_flag (dr_requireZdr r)), (is_true_flag (mt_zdr tier)),
      (is_false_flag (dr_usCloudActExposure r)),
      (is_false_flag (mt_usCloudActExposure tier)); simpl; naive_solver.
Qed.

(** [a] states no fact that [b] does not state with the same value. *)
Definition fact_le {A} (a b : option A) : Prop := a = None \/ a = b.

Definition FewerFacts (a b : ModelTier) : Prop :=
  fact_le (mt_provider a) (mt_provider b) /\
  fact_le (mt_jurisdiction a) (mt_jurisdiction b) /\
  fact_le (mt_zdr a) (mt_zdr b) /\
  fact_le (mt_usCloudActExposure a) (mt_usCloudActExposure b).

Lemma modelComplies_cases policy model rule applies :
  modelComplies policy model (Some rule) applies = true ->
  (exists m t, model = Some m /\ t ∈ all_tiers policy /\ mt_model t = m /\
     applies t = true /\ tierComplies t (Some rule) = true) \/
  tierComplies (unlisted_tier (default "" model)) (Some rule) = true.
Proof.
  unfold modelComplies. case_match eqn:Ht; [by right|].
  rewrite <- Ht. intros (t & Hin & Hc)%existsb_exists. left.
  destruct model as [m'|]; [|done]. destruct (truthy_string m'); [|done].
  apply filter_In in Hin as [Hin Hg]. split_bool.
  exists m', t. by rewrite list_elem_of_In.
Qed.

Lemma unlisted_complies m r :
  tierComplies (unlisted_tier m) (Some r) = true <->
  "any" ∈ dr_jurisdictions r /\ dr_providers r = None /\
  dr_requireZdr r <> Some true /\ dr_usCloudActExposure r <> Some false.
Proof.
  rewrite tierComplies_Compliant. unfold Compliant; simpl. split.
  - intros (Hj & Hp & Hz & Hc). split; [naive_solver|]. split.
    { destruct (dr_providers r) as [ps|]; [|done]. by destruct (Hp ps eq_refl) as (? & ? & ?). }
    split; intros H; [by apply Hz in H|by apply Hc in H].
  - intros (Hj & Hp & Hz & Hc). rewrite Hp. naive_solver.
Qed.

(** ** Properties *)

(** Classification is escalate-only: under a sensitivity section the
    effective level ranks at least as high as the declared (or default) level
    and as the escalation of every detected category, it is one of those
    levels, and the source is [pii_escalated] exactly when a detection raised
    it. *)
Theorem classify_escalate_only policy s declared_ pii :
  rp_sensitivity policy = Some s ->
  let base := declared_level s declared_ in
  exists level source,
    classifySensitivity policy declared_ pii = (Some level, source) /\
    (rank (levels_of s) base.1 <= rank (levels_of s) level)%Z /\
    (forall c e, c ∈ pii -> escalation_of s c = Some e ->
       (rank (levels_of s) e <= rank (levels_of s) level)%Z) /\
    ((level, source) = base \/
     (source = pii_escalated /\
      (rank (levels_of s) base.1 < rank (levels_of s) level)%Z /\
      exists c, c ∈ pii /\ escalation_of s c = Some level)).
Proof.
  intros Hs base. unfold classifySensitivity. rewrite Hs. fold base.
  pose proof (escalate_fold_rank s base pii) as H1.
  pose proof (fun c e => escalate_fold_reaches s base pii c e) as H2.
  pose proof (escalate_fold_origin s base pii) as H3.
  destruct (foldl _ _ _) as [level source]. exists level, source.
  split; [done|]. split; [done|]. split; [done|].
  destruct H3 as [H3|(? & ? & ?)]; [by left|by right].
Qed.

(** A policy used by the witnesses: two groups, the EEA-only rule at
    [restricted], and escalation of detected health data. *)
Module Sample.
Definition eu_tier : ModelTier :=
  mkTier "eu-small" "cheap" (num_of_Q 2 1000) (num_of_Q 4 1000)
    (Some "mistral") (Some "FR") (Some true) (Some false).
Definition us_tier : ModelTier :=
  mkTier "us-mini" "cheap" (num_of_Q 1 1000) (num_of_Q 2 1000)
    (Some "openai") (Some "US") (Some true) (Some true).
Definition eu_large : ModelTier :=
  mkTier "eu-large" "frontier" (num_of_Q 1 100) (num_of_Q 3 100)
    (Some "mistral") (Some "FR") (Some true) (Some false).
Definition sensitivity : SensitivityConfig :=
  mkSensitivity None "internal" (Some [("health_data", "restricted"); ("email", "confidential")]).
Definition eea_rule : DataPolicyRule := mkRule ["EEA"] None (Some true) (Some false).
Definition policy : RoutePolicy :=
  mkPolicy (Some "v1") "cheap"
    [("cheap", [us_tier; eu_tier]); ("frontier", [eu_large])]
    [("draft", "cheap"); ("balanced", "cheap"); ("critical", "frontier")]
    (Some ["cheap"; "frontier"]) None (Some sensitivity)
    (Some [("restricted", eea_rule)])
    (Some [("hr", mkBar (Some "frontier") (Some "set-1") None (Some ["eu-large"]))]).
End Sample.

Lemma classify_escalate_only_witness :
  exists level source,
    classifySensitivity Sample.policy (Some "public") ["email"; "health_data"] =
      (Some level, source) /\ level = "restricted" /\ source = pii_escalated.
Proof.
  destruct (classify_escalate_only Sample.policy Sample.sensitivity (Some "public")
              ["email"; "health_data"] eq_refl) as (level & source & H & _).
  exists level, source. split; [exact H|].
  revert H. vm_compute. intros [= <- <-]. split; reflexivity.
Defined.

(** The data policy check decides exactly the documented conditions: an
    allowed jurisdiction ([EEA] covers its member countries, never the
    reverse), a listed provider, stated zero data retention and stated absence
    of US CLOUD Act exposure when the rule asks for them. *)
Theorem tierComplies_exact tier r :
  tierComplies tier (Some r) = true <-> Compliant tier r.
Proof. apply tierComplies_Compliant. Qed.

(** Fail closed on missing facts: a tier that states fewer facts than
    another one never meets a rule the other does not meet. *)
Theorem tierComplies_fewer_facts a b rule :
  FewerFacts a b -> tierComplies a rule = true -> tierComplies b rule = true.
Proof.
  destruct rule as [r|]; [|done].
  rewrite !tierComplies_Compliant. unfold FewerFacts, fact_le, Compliant.
  intros (Hp & Hj & Hz & Hc) (Cj & Cp & Cz & Cc). split; [|split; [|split]].
  - destruct Cj as [?|(j & Hja & ?)]; [by left|right]. exists j.
    destruct Hj as [Hj|Hj]; by simplify_eq/=; rewrite ?Hj in Hja.
  - intros ps Hps. destruct (Cp _ Hps) as (p & Hpa & ?). exists p.
    destruct Hp as [Hp|Hp]; by rewrite Hp in Hpa.
  - intros H. specialize (Cz H). destruct Hz as [Hz|Hz]; by rewrite Hz in Cz.
  - intros H. specialize (Cc H). destruct Hc as [Hc|Hc]; by rewrite Hc in Cc.
Qed.

Lemma tierComplies_fewer_facts_witness :
  FewerFacts (unlisted_tier "m") Sample.eu_tier /\
  tierComplies Sample.eu_tier (Some (mkRule ["any"] None None None)) = true.
Proof.
  assert (H : FewerFacts (unlisted_tier "m") Sample.eu_tier)
    by (repeat split; left; reflexivity).
  split; [exact H|].
  apply (tierComplies_fewer_facts (unlisted_tier "m") Sample.eu_tier _ H).
  vm_compute. reflexivity.
Defined.

(** A model named directly is vouched for only by a tier that lists it,
    applies to the target and meets the rule; a model without such facts passes
    only a rule that allows any jurisdiction and asks for nothing else. *)
Theorem modelComplies_vouched policy model r applies :
  modelComplies policy model (Some r) applies = true ->
  (exists t, t ∈ all_tiers policy /\ model = Some (mt_model t) /\ applies t = true /\
     Compliant t r) \/
  ("any" ∈ dr_jurisdictions r /\ dr_providers r = None /\
   dr_requireZdr r <> Some true /\ dr_usCloudActExposure r <> Some false).
Proof.
  intros [(m & t & -> & Ht & Hm & Ha & Hc)|H]%modelComplies_cases.
  - left. exists t. rewrite <- tierComplies_Compliant, Hm. done.
  - right. by apply unlisted_complies in H.
Qed.

Lemma modelComplies_vouched_witness :
  exists t, t ∈ all_tiers Sample.policy /\ Some "eu-small" = Some (mt_model t) /\
    Compliant t Sample.eea_rule.
Proof.
  destruct (modelComplies_vouched Sample.policy (Some "eu-small") Sample.eea_rule
              (fun _ => true)) as [(t & ? & ? & _ & ?)|(H & _)].
  - vm_compute. reflexivity.
  - exists t. split; [assumption|]. split; assumption.
  - exfalso. revert H. apply mem_string_false. vm_compute. reflexivity.
Defined.

Section Served.
Variable urlOrigin : string -> option string.

Lemma found_inv tiers target m found :
  forall j, j ∈ foldl (fun found tier =>
      if (mt_model tier =? m)%string && tierServesTarget urlOrigin tier target
      then add_found found (mt_jurisdiction tier) else found) found tiers <->
  j ∈ found \/ exists t, t ∈ tiers /\ mt_model t = m /\
    tierServesTarget urlOrigin t target = true /\ mt_jurisdiction t = j.
Proof.
  revert found. induction tiers as [|t tiers IH]; intros found j; simpl.
  { split; [by left|]. intros [?|(t & Ht & _)]; [done|by apply elem_of_nil in Ht]. }
  rewrite IH. destruct (_ && _) eqn:Hg.
  - split_bool. unfold add_found. case_decide as Hd; set_solver.
  - split; [set_solver|]. intros [?|(t' & Ht & Hm & Hs & Hj)]; [by left|].
    apply elem_of_cons in Ht as [->|Ht].
    + rewrite Hm, String.eqb_refl, Hs in Hg. done.
    + right. by exists t'.
Qed.
End Served.

(** A reported jurisdiction is never a guess: whenever one is reported,
    some tier lists the model for this target, and every tier listing the model
    that applies to the target states that same jurisdiction. *)
Theorem servedJurisdiction_agreed urlOrigin p m target j :
  servedJurisdiction urlOrigin (Some p) (Some m) target = Some j ->
  (exists t, t ∈ all_tiers p /\ mt_model t = m /\
     tierServesTarget urlOrigin t target = true) /\
  forall t, t ∈ all_tiers p -> mt_model t = m ->
    tierServesTarget urlOrigin t target = true -> mt_jurisdiction t = Some j.
Proof.
  unfold servedJurisdiction. destruct (truthy_string m); simpl; [|done].
  pose proof (found_inv urlOrigin (all_tiers p) target m []) as Hinv.
  destruct (foldl _ _ _) as [|j' [|]]; [done| |done]. intros ->. split.
  - destruct (proj1 (Hinv (Some j))) as [H|(t & ? & ? & ? & _)].
    { left. } { by apply elem_of_nil in H. } by exists t.
  - intros t Ht Hm Hs. symmetry.
    assert (H : mt_jurisdiction t ∈ [Some j]) by (apply Hinv; right; by exists t).
    by apply list_elem_of_singleton in H.
Qed.

Lemma servedJurisdiction_agreed_witness :
  mt_jurisdiction Sample.eu_tier = Some "FR".
Proof.
  apply (servedJurisdiction_agreed (fun s => Some s) Sample.policy "eu-small"
           (Some (mkTarget (Some "mistral-ai") None None)) "FR").
  - vm_compute. reflexivity.
  - vm_compute. right. left.
  - reflexivity.
  - vm_compute. reflexivity.
Defined.
