(* ===== verification/Router.v ===== *)
(** * Cost-aware routing

    [middlewares/router/heuristic.ts] (the built-in strategy) and
    [middlewares/router/index.ts] (hint headers, precedence, the policy stages
    and the failover candidates).  A strategy other than the built-in one is
    arbitrary code behind the [RouterStrategy] interface: the constructor
    [Custom] carries any function. *)

From Stdlib Require Import ZArith Lia ZifyBool Floats.SpecFloat.
From stdpp Require Import base strings option sets list.
From S2P Require Import Prelude JsValue Sorting RoutePolicy Constraints.

#[local] Open Scope string_scope.
#[local] Open Scope list_scope.

(** What a routing call may throw: a policy violation, a [TypeError] from a
    null dereference, or whatever a custom strategy throws. *)
Inductive RouteError :=
| EViolation (v : PolicyViolation)
| ETypeError
| EStrategy (message : string).

Inductive RouterStrategy :=
| Heuristic
| Custom (route : RouteRequest -> RoutePolicy -> result RouteError RouteDecision).

(** ** The heuristic ([heuristic.ts]) *)

Definition COMPLEX_TOKEN_THRESHOLD : num := num_of_Z 2000.

Definition content_string (m : json) : option string :=
  as_string (prop (Some m) "content").

Definition hasCodeFence (messages : list json) : bool :=
  existsb (fun m => match content_string m with
                    | Some s => includes s "```" | None => false end) messages.

Definition demandsJsonSchema (messages : list json) : bool :=
  existsb (fun m => match content_string m with
    | Some s => let s := toLowerCase s in
                includes s "json schema" || includes s "response_format" ||
                includes s "strict json"
    | None => false end) messages.

Definition isComplex (req : RouteRequest) : bool :=
  nltb COMPLEX_TOKEN_THRESHOLD (rr_approxInputTokens req) ||
  hasCodeFence (rr_messages req) || demandsJsonSchema (rr_messages req).

Definition complexity_label (req : RouteRequest) : string :=
  if isComplex req then "complex" else "simple".

Definition heuristic_group (req : RouteRequest) : string :=
  if isComplex req then "frontier" else "cheap".

Definition plain_decision (model group reason : string) (estCost : num) : RouteDecision :=
  mkDecision model group reason estCost None None.

(** [req.maxCost != null && picked.estCost > req.maxCost] *)
Definition busts (req : RouteRequest) (estCost : num) : option num :=
  match rr_maxCost req with
  | Some m => if nltb m estCost then Some m else None
  | None => None
  end.

Definition allow_all (_ : ModelTier) : bool := true.

(** The cheapest tier of the default group, or the requested model at no
    cost: the answer for an unknown or empty group. *)
Definition default_group_decision (policy : RoutePolicy) (req : RouteRequest)
    (reason : string) : RouteDecision :=
  let fallback := pickCheapestIn (tiersOf policy (rp_defaultGroup policy)) req in
  plain_decision
    (match fallback with Some p => mt_model (pk_tier p) | None => rr_requestedModel req end)
    (rp_defaultGroup policy) reason
    (match fallback with Some p => pk_estCost p | None => nzero end).

Definition heuristic_route (req : RouteRequest) (policy : RoutePolicy) : RouteDecision :=
  let group := heuristic_group req in
  match pickCheapestIn (tiersOf policy group) req with
  | None => default_group_decision policy req "heuristic:empty-group-fallback"
  | Some picked =>
      let natural := plain_decision (mt_model (pk_tier picked)) group
                       ("heuristic:" +:+ complexity_label req) (pk_estCost picked) in
      match busts req (pk_estCost picked) with
      | Some maxCost =>
          match cheapestUnderBudget policy maxCost req allow_all with
          | Some (clamped, underBudget) =>
              plain_decision (mt_model (pk_tier clamped)) (mt_group (pk_tier clamped))
                (if (underBudget : bool)
                 then "heuristic:" +:+ complexity_label req +:+ "+budget-clamp"
                 else "heuristic:budget-unsatisfiable-cheapest")
                (pk_estCost clamped)
          | None => natural
          end
      | None => natural
      end
  end.

Definition strategy_route (strategy : RouterStrategy) (req : RouteRequest)
    (policy : RoutePolicy) : result RouteError RouteDecision :=
  match strategy with
  | Heuristic => Ok (heuristic_route req policy)
  | Custom route => route req policy
  end.

(** ** Hint headers ([index.ts]) *)

Definition QUALITIES : list Quality := [draft; balanced; critical].

(** Case-insensitive lookup: the first key of the bag that matches. *)
Fixpoint header (headers : obj string) (name : string) : option string :=
  match headers with
  | [] => None
  | (key, v) :: rest =>
      if (toLowerCase key =? toLowerCase name)%string then Some v else header rest name
  end.

Definition parse_quality (q : string) : option Quality :=
  List.find (fun k => (quality_name k =? q)%string) QUALITIES.

Definition truthy_header (o : option string) : option string :=
  if truthy_opt o then o else None.

Definition parseRouteHeaders (headers : obj string) : ParsedRouteHints :=
  mkHints
    (match truthy_header (header headers "x-ps-quality") with
     | Some q => parse_quality q | None => None end)
    (match header headers "x-ps-max-cost" with
     | Some c => let parsed := to_number c in if is_nan parsed then None else Some parsed
     | None => None end)
    (truthy_header (header headers "x-ps-route"))
    (truthy_header (header headers "x-ps-data-classification"))
    (truthy_header (header headers "x-ps-use-case"))
    (toLowerCase (default "" (header headers "x-ps-cache")) =? "off")%string.

(** ** Routing without policy stages *)

Definition resolveInGroup (policy : RoutePolicy) (group : string) (req : RouteRequest)
    (reasonPrefix : string) : result RouteError RouteDecision :=
  match groupTiers policy group with
  | None | Some [] =>
      Ok (default_group_decision policy req (reasonPrefix +:+ ":unknown-group-default"))
  | Some tiers =>
      match pickCheapestIn tiers req with
      | None => Throw ETypeError
      | Some picked =>
          let natural := plain_decision (mt_model (pk_tier picked)) group reasonPrefix
                           (pk_estCost picked) in
          match busts req (pk_estCost picked) with
          | Some maxCost =>
              match cheapestUnderBudget policy maxCost req allow_all with
              | Some (clamped, underBudget) =>
                  Ok (plain_decision (mt_model (pk_tier clamped)) (mt_group (pk_tier clamped))
                        (reasonPrefix +:+ (if (underBudget : bool) then "+budget-clamp"
                                           else "+budget-unsatisfiable"))
                        (pk_estCost clamped))
              | None => Ok natural
              end
          | None => Ok natural
          end
      end
  end.

(** ** Routing under the whole policy *)

Record PolicyFilter := mkFilter {
  pf_level : option string;
  pf_source : SensitivitySource;
  pf_bar : option UseCaseBar;
  pf_eligible : option (list string);
  pf_rule : option DataPolicyRule
}.

Definition pf_allow (f : PolicyFilter) (tier : ModelTier) : bool :=
  match pf_eligible f with Some e => mem_string (mt_model tier) e | None => true end &&
  tierComplies tier (pf_rule f).

Definition policyFilter (policy : RoutePolicy) (req : RouteRequest) : PolicyFilter :=
  let '(level, source) :=
    classifySensitivity policy (rr_dataClassification req) (rr_piiDetected req) in
  let bar := if truthy_opt (rr_explicitGroup req) then None
             else useCaseBar policy (rr_useCase req) in
  let eligible := match bar with
    | Some b => if truthy_opt (ub_evalSet b) then Some (default [] (ub_eligibleModels b))
                else None
    | None => None end in
  mkFilter level source bar eligible (dataPolicyRule policy level).

(** The policy a custom strategy sees: only allowed tiers. *)
Definition allowed_view (policy : RoutePolicy) (f : PolicyFilter) : RoutePolicy :=
  mkPolicy (rp_policyVersion policy) (rp_defaultGroup policy)
    (obj_map (List.filter (pf_allow f)) (rp_groups policy))
    (rp_qualityToGroup policy) (rp_groupOrder policy) (rp_strategy policy)
    (rp_sensitivity policy) (rp_dataPolicy policy) (rp_useCases policy).

(** Falls back to the default group when the chosen one is unknown or empty. *)
Definition known_group (policy : RoutePolicy) (group reason fallback_reason : string)
    : string * string :=
  match tiersOf policy group with
  | [] => (rp_defaultGroup policy, fallback_reason)
  | _ => (group, reason)
  end.

(** Step 3: the group and reason, as [resolveRoute] would pick them. *)
Definition select_group (req : RouteRequest) (policy : RoutePolicy)
    (strategy : RouterStrategy) (f : PolicyFilter) : result RouteError (string * string) :=
  match truthy_header (rr_explicitGroup req), rr_quality req, strategy with
  | Some g, _, _ => Ok (known_group policy g "override" "override:unknown-group-default")
  | None, Some q, _ =>
      let mapped := own (rp_qualityToGroup policy) (quality_name q) in
      let group := if truthy_opt mapped then default "" mapped else rp_defaultGroup policy in
      let reason := "quality:" +:+ quality_name q in
      Ok (known_group policy group reason (reason +:+ ":unknown-group-default"))
  | None, None, Heuristic =>
      Ok (known_group policy (heuristic_group req)
            ("heuristic:" +:+ complexity_label req) "heuristic:empty-group-fallback")
  | None, None, Custom route =>
      let* picked := route req (allowed_view policy f) in
      Ok (known_group policy (rd_group picked) (rd_reason picked)
            (rd_reason picked +:+ ":unknown-group-default"))
  end.

(** Step 4, first half: the use case's lowest group. *)
Definition raise_group (policy : RoutePolicy) (f : PolicyFilter) (gr : string * string)
    : string * string :=
  match pf_bar f with
  | Some b =>
      match truthy_header (ub_minGroup b) with
      | Some g =>
          match groupRank policy g, groupRank policy gr.1 with
          | Some need, Some have =>
              if (have <? need)%nat then (g, gr.2 +:+ "+use-case-min-group") else gr
          | Some _, None => (g, gr.2 +:+ "+use-case-min-group")
          | None, _ => gr
          end
      | None => gr
      end
  | None => gr
  end.

Fixpoint first_eligible (policy : RoutePolicy) (f : PolicyFilter) (groups : list string)
    : option (string * list ModelTier) :=
  match groups with
  | [] => None
  | g :: rest =>
      match List.filter (pf_allow f) (tiersOf policy g) with
      | [] => first_eligible policy f rest
      | candidates => Some (g, candidates)
      end
  end.

(** [order.slice(start !== undefined ? start + 1 : order.length)] *)
Definition groups_above (policy : RoutePolicy) (group : string) : list string :=
  let order := default [] (rp_groupOrder policy) in
  drop (match groupRank policy group with Some i => S i | None => length order end) order.

(** Step 4, second half: the candidates, trying the next groups up when an
    eval set leaves none. *)
Definition find_candidates (policy : RoutePolicy) (f : PolicyFilter) (gr : string * string)
    : (string * string) * list ModelTier :=
  match List.filter (pf_allow f) (tiersOf policy gr.1) with
  | [] =>
      match pf_eligible f with
      | Some _ =>
          match first_eligible policy f (groups_above policy gr.1) with
          | Some (g, candidates) => ((g, gr.2 +:+ "+use-case-eligible"), candidates)
          | None => (gr, [])
          end
      | None => (gr, [])
      end
  | candidates => (gr, candidates)
  end.

Definition no_candidate (f : PolicyFilter) (group : string) : PolicyViolation :=
  mkViolation ("no candidate in group '" +:+ group +:+ "' is allowed at sensitivity '" +:+
               default "undefined" (pf_level f) +:+ "'")
    (pf_level f) (Some (pf_source f)) (Some group).

(** Step 5: the budget clamp over every allowed candidate. *)
Definition clamp_pick (policy : RoutePolicy) (f : PolicyFilter) (req : RouteRequest)
    (gr : string * string) (picked : Pick) : (string * string) * Pick :=
  match busts req (pk_estCost picked) with
  | Some maxCost =>
      match cheapestUnderBudget policy maxCost req (pf_allow f) with
      | Some (clamped, underBudget) =>
          let reason :=
            if (underBudget : bool) then gr.2 +:+ "+budget-clamp"
            else if startsWith gr.2 "heuristic:" && negb (includes gr.2 "+")
            then "heuristic:budget-unsatisfiable-cheapest"
            else gr.2 +:+ "+budget-unsatisfiable" in
          ((mt_group (pk_tier clamped), reason), clamped)
      | None => (gr, picked)
      end
  | None => (gr, picked)
  end.

Definition resolvePolicyRoute (req : RouteRequest) (policy : RoutePolicy)
    (strategy : RouterStrategy) : result RouteError RouteDecision :=
  let f := policyFilter policy req in
  let* gr := select_group req policy strategy f in
  let '(gr, candidates) := find_candidates policy f (raise_group policy f gr) in
  match candidates with
  | [] => Throw (EViolation (no_candidate f gr.1))
  | _ =>
      match pickCheapestIn candidates req with
      | None => Throw ETypeError
      | Some picked =>
          let '(gr, picked) := clamp_pick policy f req gr picked in
          Ok (mkDecision (mt_model (pk_tier picked)) gr.1 gr.2 (pk_estCost picked)
                (pf_level f) (Some (pf_source f)))
      end
  end.

Definition resolveRoute (req : RouteRequest) (policy : RoutePolicy)
    (strategy : RouterStrategy) : result RouteError RouteDecision :=
  if hasPolicyStages policy then resolvePolicyRoute req policy strategy else
  match truthy_header (rr_explicitGroup req) with
  | Some g => resolveInGroup policy g req "override"
  | None =>
      match rr_quality req with
      | Some q =>
          let group := default (rp_defaultGroup policy)
                         (own (rp_qualityToGroup policy) (quality_name q)) in
          resolveInGroup policy group req ("quality:" +:+ quality_name q)
      | None => strategy_route strategy req policy
      end
  end.

(** ** Failover candidates *)

(** One visited tier of [routeCandidates]: the models already seen and the
    kept tiers with their cost, in visiting order. *)
Definition candidate_step (req : RouteRequest) (allow : ModelTier -> bool)
    (acc : list string * list Pick) (tier : ModelTier) : list string * list Pick :=
  let '(seen, rest) := acc in
  if mem_string (mt_model tier) seen || negb (allow tier) then acc else
  let cost := request_cost req tier in
  match busts req cost with
  | Some _ => acc
  | None => (seen ++ [mt_model tier], rest ++ [mkPick tier cost])
  end.

(** [a.cost - b.cost > 0]: the comparator's sign. *)
Definition cost_gt (a b : Pick) : bool := nltb nzero (nsub (pk_estCost a) (pk_estCost b)).

Definition route_allow (policy : RoutePolicy) (req : RouteRequest) : ModelTier -> bool :=
  if hasPolicyStages policy then pf_allow (policyFilter policy req) else allow_all.

Definition routeCandidates (req : RouteRequest) (policy : RoutePolicy)
    (decision : RouteDecision) : list ModelTier :=
  let tiers := tiersOf policy (rd_group decision) in
  let primary :=
    default (mkTier (rd_model decision) (rd_group decision) nzero nzero None None None None)
      (List.find (fun t => (mt_model t =? rd_model decision)%string) tiers) in
  let '(_, rest) :=
    foldl (candidate_step req (route_allow policy req)) ([rd_model decision], []) tiers in
  primary :: map pk_tier (stable_sort cost_gt rest).

(** ** Building a request *)

(** [body?.model || 'auto'] for a body whose model, when present, is a string. *)
Definition requested_model (body : any) : string :=
  match prop body "model" with
  | Some (JStr m) => if truthy_string m then m else "auto"
  | _ => "auto"
  end.

Definition body_messages (body : any) : list json :=
  match prop body "messages" with Some (JArr l) => l | _ => [] end.

Definition buildRouteRequest (body : any) (hints : ParsedRouteHints) : RouteRequest :=
  let messages := body_messages body in
  mkReq messages (requested_model body) (estimateInputTokens messages)
    (nullish (prop body "max_tokens") (prop body "max_completion_tokens"))
    (ph_quality hints) (ph_maxCost hints) (ph_explicitGroup hints)
    (ph_dataClassification hints) [] (ph_useCase hints).

(** ** Lemmas *)

Lemma first_eligible_spec policy f groups g cs :
  first_eligible policy f groups = Some (g, cs) ->
  g ∈ groups /\ cs = List.filter (pf_allow f) (tiersOf policy g) /\ cs <> [].
Proof.
  induction groups as [|g' groups IH]; simpl; [done|].
  destruct (List.filter _ (tiersOf policy g')) as [|t ts] eqn:Hf.
  - intros H. destruct (IH H) as (? & ? & ?). split; [by right|done].
  - intros [= <- <-]. rewrite Hf. split; [left|]. split; [done|discriminate].
Qed.

Lemma first_eligible_None policy f groups :
  first_eligible policy f groups = None ->
  forall g t, g ∈ groups -> t ∈ tiersOf policy g -> pf_allow f t = false.
Proof.
  induction groups as [|g' groups IH]; simpl; intros H g t Hg Ht.
  { by apply elem_of_nil in Hg. }
  destruct (List.filter _ (tiersOf policy g')) as [|t' ts] eqn:Hf; [|done].
  apply elem_of_cons in Hg as [->|Hg]; [|by apply (IH H g)].
  destruct (pf_allow f t) eqn:Ha; [|done].
  assert (Hin : t ∈ List.filter (pf_allow f) (tiersOf policy g')) by by apply filter_elem.
  rewrite Hf in Hin. by apply elem_of_nil in Hin.
Qed.

(** The candidates are exactly the allowed tiers of the reported group, which
    is the given one or one ranked above it. *)
Lemma find_candidates_spec policy f gr gr' cs :
  find_candidates policy f gr = (gr', cs) ->
  cs = List.filter (pf_allow f) (tiersOf policy gr'.1) /\
  (gr' = gr \/ (gr'.1 ∈ groups_above policy gr.1 /\ cs <> [])) /\
  (cs = [] -> is_Some (pf_eligible f) ->
   forall g t, g ∈ groups_above policy gr.1 -> t ∈ tiersOf policy g -> pf_allow f t = false).
Proof.
  unfold find_candidates. destruct (List.filter _ (tiersOf policy gr.1)) as [|t ts] eqn:Hf.
  - destruct (pf_eligible f) as [e|].
    + destruct (first_eligible _ _ _) as [[g cs']|] eqn:He.
      * intros [= <- <-]. apply first_eligible_spec in He as (Hg & -> & Hne).
        split; [done|]. split; [by right|]. intros H. by rewrite H in Hne.
      * intros [= <- <-]. rewrite Hf. split; [done|]. split; [by left|].
        intros _ _. by apply first_eligible_None.
    + intros [= <- <-]. rewrite Hf. split; [done|]. split; [by left|]. by intros _ [? ?].
  - intros [= <- <-]. rewrite Hf. split; [done|]. split; [by left|]. discriminate.
Qed.

Lemma busts_None req m c :
  rr_maxCost req = Some m -> is_nan m = false -> is_nan c = false ->
  busts req c = None -> nleb c m = true.
Proof.
  intros Hm Hn Hc. unfold busts. rewrite Hm. case_match eqn:Hlt; [done|].
  intros _. num_order.
Qed.

Lemma busts_Some req c m : busts req c = Some m -> rr_maxCost req = Some m /\ nltb m c = true.
Proof. unfold busts. repeat case_match; naive_solver. Qed.

(** The pick after the clamp is an allowed tier with its own cost. *)
Lemma clamp_pick_spec policy f req gr picked gr' picked' :
  clamp_pick policy f req gr picked = (gr', picked') ->
  (gr' = gr /\ picked' = picked /\
   (busts req (pk_estCost picked) = None \/
    List.filter (pf_allow f) (all_tiers policy) = [])) \/
  (exists m under, busts req (pk_estCost picked) = Some m /\
     cheapestUnderBudget policy m req (pf_allow f) = Some (picked', under) /\
     gr'.1 = mt_group (pk_tier picked')).
Proof.
  unfold clamp_pick. destruct (busts _ _) as [m|] eqn:Hb.
  - destruct (cheapestUnderBudget _ _ _ _) as [[p under]|] eqn:Hc.
    + intros [= <- <-]. right. exists m, under. done.
    + intros [= <- <-]. left. split; [done|]. split; [done|]. right.
      pose proof (cheapestUnderBudget_spec policy m req (pf_allow f)) as Hs.
      by rewrite Hc in Hs.
  - intros [= <- <-]. left. naive_solver.
Qed.

(** The shape of every successful routing under policy stages. *)
Lemma resolvePolicyRoute_Ok req policy strategy d :
  resolvePolicyRoute req policy strategy = Ok d ->
  let f := policyFilter policy req in
  exists gr0 gr cs picked gr' picked',
    select_group req policy strategy f = Ok gr0 /\
    find_candidates policy f (raise_group policy f gr0) = (gr, cs) /\
    pickCheapestIn cs req = Some picked /\
    clamp_pick policy f req gr picked = (gr', picked') /\
    d = mkDecision (mt_model (pk_tier picked')) gr'.1 gr'.2 (pk_estCost picked')
          (pf_level f) (Some (pf_source f)).
Proof.
  intros H f. unfold resolvePolicyRoute in H. fold f in H.
  destruct (select_group _ _ _ _) as [gr0|] eqn:Hs; [|done].
  destruct (find_candidates _ _ _) as [gr cs] eqn:Hf.
  destruct cs as [|c cs]; [done|].
  destruct (pickCheapestIn _ _) as [picked|] eqn:Hp; [|done].
  destruct (clamp_pick _ _ _ _ _) as [gr' picked'] eqn:Hc.
  injection H as <-. by exists gr0, gr, (c :: cs), picked, gr', picked'.
Qed.

(** The served tier: allowed, in the policy, priced as reported. *)
Lemma resolvePolicyRoute_tier req policy strategy d :
  resolvePolicyRoute req policy strategy = Ok d ->
  let f := policyFilter policy req in
  exists t, t ∈ all_tiers policy /\ mt_model t = rd_model d /\ pf_allow f t = true /\
    rd_estCost d = request_cost req t /\
    rd_sensitivityLevel d = pf_level f /\ rd_sensitivitySource d = Some (pf_source f).
Proof.
  intros (gr0 & gr & cs & picked & gr' & picked' & _ & Hf & Hp & Hc & ->)%resolvePolicyRoute_Ok f.
  apply find_candidates_spec in Hf as [-> _].
  apply pickCheapestIn_In in Hp as [Hin He]. apply filter_elem in Hin as [Hin Ha].
  apply clamp_pick_spec in Hc as [(-> & -> & _)|(m & under & _ & Hu & _)].
  - exists (pk_tier picked). simpl. split; [by eauto with js|]. naive_solver.
  - apply cheapestUnderBudget_In in Hu as (? & ? & ?). exists (pk_tier picked'). naive_solver.
Qed.

Lemma pf_allow_spec f t :
  pf_allow f t = true <->
  (forall e, pf_eligible f = Some e -> mt_model t ∈ e) /\ tierComplies t (pf_rule f) = true.
Proof.
  unfold pf_allow. rewrite andb_true_iff. destruct (pf_eligible f) as [e|].
  - rewrite mem_string_In. naive_solver.
  - naive_solver.
Qed.

Lemma policyFilter_eq policy req :
  let c := classifySensitivity policy (rr_dataClassification req) (rr_piiDetected req) in
  pf_level (policyFilter policy req) = c.1 /\ pf_source (policyFilter policy req) = c.2 /\
  pf_rule (policyFilter policy req) = dataPolicyRule policy c.1.
Proof.
  unfold policyFilter. destruct (classifySensitivity _ _ _) as [l s]. done.
Qed.

(** *** Group order *)

Lemma indexOf_drop order g i j :
  NoDup order -> g ∈ drop j order -> indexOf g order = Some i -> (j <= i)%nat.
Proof.
  intros Hnd [k Hk]%list_elem_of_lookup Hi. apply indexOf_lookup in Hi.
  rewrite lookup_drop in Hk.
  assert (i = j + k)%nat by by eapply NoDup_lookup. lia.
Qed.

Lemma drop_indexOf order (g : string) j : g ∈ drop j order -> exists i, indexOf g order = Some i.
Proof.
  intros H. destruct (indexOf g order) as [i|] eqn:Hi; [by exists i|].
  apply indexOf_None in Hi. exfalso. apply Hi.
  rewrite <- (take_drop j order). by apply elem_of_app; right.
Qed.

Lemma raise_group_rank policy f gr b g need :
  pf_bar f = Some b -> ub_minGroup b = Some g -> truthy_string g = true ->
  groupRank policy g = Some need ->
  exists i, groupRank policy (raise_group policy f gr).1 = Some i /\ (need <= i)%nat.
Proof.
  intros Hb Hg Ht Hn. unfold raise_group, truthy_header. rewrite Hb, Hg. simpl.
  rewrite Ht, Hn. destruct (groupRank policy gr.1) as [h|] eqn:Hh.
  - destruct (h <? need)%nat eqn:Hlt; simpl; [by exists need|].
    exists h. split; [done|]. apply Nat.ltb_ge in Hlt. lia.
  - by exists need.
Qed.

Lemma find_candidates_rank policy f gr gr' cs i :
  NoDup (default [] (rp_groupOrder policy)) ->
  find_candidates policy f gr = (gr', cs) -> groupRank policy gr.1 = Some i ->
  exists j, groupRank policy gr'.1 = Some j /\ (i <= j)%nat.
Proof.
  intros Hnd [_ [[->|[Hin _]] _]]%find_candidates_spec Hi; [by exists i|].
  unfold groups_above in Hin. rewrite Hi in Hin.
  destruct (drop_indexOf _ _ _ Hin) as [j Hj]. exists j. split; [done|].
  pose proof (indexOf_drop _ _ _ _ Hnd Hin Hj). lia.
Qed.

(** Subtraction is antisymmetric up to the sign of a zero, so the comparator
    of the candidate sort is asymmetric. *)
Lemma binary_round_pos_not m e :
  nltb nzero (binary_round 53 1024 true m e) = false.
Proof.
  unfold binary_round. destruct (shl_align _ _ _) as [mz ez].
  unfold binary_round_aux. destruct (shr_fexp _ _ _ _ _) as [mrs e'].
  destruct (shr_fexp _ _ _ e' loc_Exact) as [mrs' e''].
  destruct (shr_m mrs') as [|p|p]; [done| |done].
  by destruct (e'' <=? 1024 - 53)%Z.
Qed.

Lemma normalize_asym x y e :
  nltb nzero (binary_normalize 53 1024 (x - y) e false) = true ->
  nltb nzero (binary_normalize 53 1024 (y - x) e false) = false.
Proof.
  replace (y - x)%Z with (- (x - y))%Z by lia. unfold binary_normalize.
  destruct (x - y)%Z; simpl Z.opp; intros H;
    first [done | apply binary_round_pos_not | by rewrite binary_round_pos_not in H].
Qed.

Lemma nsub_pos_asym a b : nltb nzero (nsub a b) = true -> nltb nzero (nsub b a) = false.
Proof.
  unfold nsub. destruct a as [sa|sa| |sa ma ea]; destruct b as [sb|sb| |sb mb eb];
    try destruct sa; try destruct sb; try (cbn; intros; congruence).
  all: cbn [SFsub]; rewrite (Z.min_comm eb ea); apply normalize_asym.
Qed.

Lemma cost_gt_asym a b : cost_gt a b = true -> cost_gt b a = false.
Proof. apply nsub_pos_asym. Qed.

(** *** Failover candidates *)

(** Invariant of the visiting loop: [seen] starts with the decided model and
    lists the kept models, which are pairwise distinct. *)
Definition candidate_inv (req : RouteRequest) (allow : ModelTier -> bool) (model : string)
    (tiers : list ModelTier) (acc : list string * list Pick) : Prop :=
  acc.1 = model :: map (fun p => mt_model (pk_tier p)) acc.2 /\ NoDup acc.1 /\
  Forall (fun p => pk_tier p ∈ tiers /\ allow (pk_tier p) = true /\
                   pk_estCost p = request_cost req (pk_tier p) /\
                   busts req (pk_estCost p) = None) acc.2.

Lemma candidate_step_inv req allow model tiers acc tier :
  tier ∈ tiers -> candidate_inv req allow model tiers acc ->
  candidate_inv req allow model tiers (candidate_step req allow acc tier).
Proof.
  intros Hin. destruct acc as [seen rest]. intros (Hs & Hnd & Hall).
  unfold candidate_step. destruct (_ || _) eqn:Hg; [done|]. split_bool.
  destruct (busts req (request_cost req tier)) eqn:Hb; [done|].
  match goal with H : mem_string _ _ = false |- _ => apply mem_string_false in H end.
  simpl in *. split; simpl; [|split].
  - rewrite Hs. by rewrite map_app.
  - apply NoDup_app. split; [done|]. split; [set_solver|]. apply NoDup_singleton.
  - apply Forall_app. split; [done|]. constructor; [done|constructor].
Qed.

Lemma candidate_fold_inv req allow model tiers visited acc :
  (forall t, t ∈ visited -> t ∈ tiers) -> candidate_inv req allow model tiers acc ->
  candidate_inv req allow model tiers (foldl (candidate_step req allow) acc visited).
Proof.
  revert acc. induction visited as [|t visited IH]; intros acc Hsub Hinv; simpl; [done|].
  apply IH; [set_solver|]. apply candidate_step_inv; [set_solver|done].
Qed.

(** The candidates as a head and a sorted list of picks. *)
Lemma routeCandidates_shape req policy d :
  exists primary rest,
    routeCandidates req policy d = primary :: map pk_tier rest /\
    mt_model primary = rd_model d /\
    ordered cost_gt rest /\
    NoDup (rd_model d :: map (fun p => mt_model (pk_tier p)) rest) /\
    Forall (fun p => pk_tier p ∈ tiersOf policy (rd_group d) /\
                     route_allow policy req (pk_tier p) = true /\
                     pk_estCost p = request_cost req (pk_tier p) /\
                     busts req (pk_estCost p) = None) rest.
Proof.
  unfold routeCandidates.
  destruct (foldl _ _ _) as [seen rest] eqn:Hf.
  assert (Hinv : candidate_inv req (route_allow policy req) (rd_model d)
                   (tiersOf policy (rd_group d)) (seen, rest)).
  { rewrite <- Hf. apply candidate_fold_inv; [done|].
    split; [done|]. split; [apply NoDup_singleton|constructor]. }
  destruct Hinv as (Hs & Hnd & Hall). simpl in *.
  eexists _, (stable_sort cost_gt rest). split; [done|]. split; [|split; [|split]].
  - destruct (List.find _ _) as [t|] eqn:Ht; simpl; [|done].
    apply find_some in Ht as [_ Ht]. by apply String.eqb_eq.
  - apply stable_sort_ordered, cost_gt_asym.
  - rewrite Hs in Hnd. eapply NoDup_Permutation_proper; [|exact Hnd].
    apply perm_skip, Permutation_map, stable_sort_perm.
  - apply Forall_forall. intros p Hp. rewrite Forall_forall in Hall. apply Hall.
    by rewrite stable_sort_perm in Hp.
Qed.

(** ** Properties *)

(** [C1] A routed call is never served outside the data policy: whatever the
    hints, the use case and the strategy (built in or custom), a decision made
    under policy stages names a model of the policy whose tier meets the rule
    of the call's effective sensitivity level and, when the use case has an
    eval set, is one of its eligible models; the reported cost and level are
    that tier's cost and that level. *)
Theorem routed_model_is_compliant req policy strategy d :
  resolvePolicyRoute req policy strategy = Ok d ->
  let '(level, source) :=
    classifySensitivity policy (rr_dataClassification req) (rr_piiDetected req) in
  exists t, t ∈ all_tiers policy /\ mt_model t = rd_model d /\
    tierComplies t (dataPolicyRule policy level) = true /\
    (forall e, pf_eligible (policyFilter policy req) = Some e -> rd_model d ∈ e) /\
    rd_estCost d = request_cost req t /\
    rd_sensitivityLevel d = level /\ rd_sensitivitySource d = Some source.
Proof.
  intros H. apply resolvePolicyRoute_tier in H as (t & Hin & Hm & Ha & He & Hl & Hs).
  destruct (policyFilter_eq policy req) as (El & Es & Er).
  destruct (classifySensitivity _ _ _) as [level source]; simpl in *.
  apply pf_allow_spec in Ha as [Hel Hc]. exists t. rewrite <- Er.
  do 3 (split; [done|]). split; [by rewrite <- Hm|]. split; [done|]. split; congruence.
Qed.

Module SampleRequest.
Definition plain : RouteRequest :=
  mkReq [] "auto" (num_of_Z 1000) None None None None (Some "restricted") [] None.
Definition hr : RouteRequest :=
  mkReq [] "auto" (num_of_Z 1000) None None None None None [] (Some "hr").
Definition capped : RouteRequest :=
  mkReq [] "auto" (num_of_Z 1000) None (Some critical) (Some (num_of_Q 1 1000)) None
    (Some "restricted") [] None.
End SampleRequest.

Lemma routed_model_is_compliant_witness :
  exists t, t ∈ all_tiers Sample.policy /\ mt_model t = "eu-small" /\
    tierComplies t (Some Sample.eea_rule) = true.
Proof.
  destruct (resolvePolicyRoute SampleRequest.plain Sample.policy Heuristic) as [d|] eqn:E;
    [|revert E; vm_compute; discriminate].
  assert (Hd : rd_model d = "eu-small") by (revert E; vm_compute; intros [= <-]; reflexivity).
  pose proof (routed_model_is_compliant _ _ _ _ E) as (t & Hin & Hm & Hc & _).
  exists t. split; [exact Hin|]. split; [rewrite Hm; exact Hd|exact Hc].
Defined.

(** The budget clamp: under policy stages a decision either fits the
    caller's cost ceiling, or no allowed tier of the whole policy fits it; the
    call is never served above the ceiling while an allowed tier below it
    exists. *)
Theorem routed_within_budget_if_possible req policy strategy d maxCost :
  resolvePolicyRoute req policy strategy = Ok d ->
  rr_maxCost req = Some maxCost -> is_nan maxCost = false ->
  nleb (rd_estCost d) maxCost = true \/
  forall t, t ∈ all_tiers policy -> pf_allow (policyFilter policy req) t = true ->
    nleb (request_cost req t) maxCost = false.
Proof.
  intros (gr0 & gr & cs & picked & gr' & picked' & _ & Hf & Hp & Hc & ->)%resolvePolicyRoute_Ok
    Hm Hn. simpl.
  pose proof (pickCheapestIn_spec cs req) as Hs. rewrite Hp in Hs. destruct Hs as [_ Hinf].
  assert (Hnan : is_nan (pk_estCost picked) = false) by num_order.
  apply clamp_pick_spec in Hc as [(-> & -> & [Hb|Hempty])|(m & under & Hb & Hu & _)].
  - left. by eapply busts_None.
  - right. intros t Ht Ha. exfalso.
    assert (Hin : t ∈ List.filter (pf_allow (policyFilter policy req)) (all_tiers policy))
      by by apply filter_elem.
    rewrite Hempty in Hin. by apply elem_of_nil in Hin.
  - apply busts_Some in Hb as [Hm' _]. simplify_eq.
    pose proof (cheapestUnderBudget_spec policy m req (pf_allow (policyFilter policy req))) as Hs.
    rewrite Hu in Hs. destruct under.
    + left. by destruct Hs as (_ & _ & ? & _).
    + right. destruct Hs as [_ Hs]. intros t Ht Ha. apply Hs. by apply filter_elem.
Qed.

Lemma routed_within_budget_if_possible_witness :
  exists d, resolvePolicyRoute SampleRequest.capped Sample.policy Heuristic = Ok d /\
    rd_reason d = "quality:critical+budget-unsatisfiable" /\
    nleb (request_cost SampleRequest.capped Sample.eu_large) (num_of_Q 1 1000) = false.
Proof.
  destruct (resolvePolicyRoute SampleRequest.capped Sample.policy Heuristic) as [d|] eqn:E;
    [|revert E; vm_compute; discriminate].
  exists d. split; [reflexivity|]. split.
  - known_value E d. reflexivity.
  - destruct (routed_within_budget_if_possible _ _ _ _ (num_of_Q 1 1000) E
                eq_refl eq_refl) as [H|H].
    + exfalso. known_value E d. vm_compute in H. discriminate H.
    + apply H; [vm_compute; right; right; left|vm_compute; reflexivity].
Defined.

(** Refusals are exact: with the built-in strategy a policy violation is
    thrown only when no tier of the reported group is allowed (and, for a use
    case with an eval set, none of the groups ranked above it either), and a
    [TypeError] only when some group has allowed tiers none of which has a cost
    below infinity. Nothing else is thrown. *)
Theorem policy_route_refusals req policy e :
  resolvePolicyRoute req policy Heuristic = Throw e ->
  let f := policyFilter policy req in
  match e with
  | EViolation v =>
      pv_sensitivityLevel v = pf_level f /\
      exists g, pv_group v = Some g /\
        (forall t, t ∈ tiersOf policy g -> pf_allow f t = false) /\
        (is_Some (pf_eligible f) -> forall g' t,
           g' ∈ groups_above policy g -> t ∈ tiersOf policy g' -> pf_allow f t = false)
  | ETypeError =>
      exists g, (exists t, t ∈ tiersOf policy g /\ pf_allow f t = true) /\
        forall t, t ∈ tiersOf policy g -> pf_allow f t = true ->
          nltb (request_cost req t) Infinity = false
  | EStrategy _ => False
  end.
Proof.
  intros H f. unfold resolvePolicyRoute in H. fold f in H.
  assert (exists gr0, select_group req policy Heuristic f = Ok gr0) as [gr0 Hs].
  { unfold select_group. repeat case_match; eauto. }
  rewrite Hs in H. destruct (find_candidates _ _ _) as [gr cs] eqn:Hf.
  apply find_candidates_spec in Hf as (-> & Hgr & Hup).
  destruct (List.filter _ _) as [|c cs] eqn:Hcs.
  - injection H as <-. simpl. split; [done|]. exists gr.1. split; [done|].
    destruct Hgr as [->|[_ ?]]; [|done]. split.
    + intros t Ht. destruct (pf_allow f t) eqn:Ha; [|done].
      assert (Hin : t ∈ List.filter (pf_allow f) (tiersOf policy (raise_group policy f gr0).1))
        by by apply filter_elem.
      rewrite Hcs in Hin. by apply elem_of_nil in Hin.
    + by apply Hup.
  - pose proof (pickCheapestIn_spec (c :: cs) req) as Hp.
    destruct (pickCheapestIn _ _) as [p|]; [by destruct (clamp_pick _ _ _ _ _)|].
    injection H as <-. exists gr.1. rewrite <- Hcs in Hp. split.
    + exists c. apply filter_elem. rewrite Hcs. left.
    + intros t Ht Ha. apply Hp. by apply filter_elem.
Qed.

Module SampleRefusal.
Definition policy : RoutePolicy :=
  mkPolicy None "cheap" [("cheap", [Sample.us_tier])] [] None None
    (Some Sample.sensitivity) (Some [("restricted", Sample.eea_rule)]) None.
End SampleRefusal.

Lemma policy_route_refusals_witness :
  exists v, resolvePolicyRoute SampleRequest.plain SampleRefusal.policy Heuristic
    = Throw (EViolation v) /\ pv_group v = Some "cheap" /\
    pf_allow (policyFilter SampleRefusal.policy SampleRequest.plain) Sample.us_tier = false.
Proof.
  destruct (resolvePolicyRoute SampleRequest.plain SampleRefusal.policy Heuristic)
    as [d|e] eqn:E; [revert E; vm_compute; discriminate|].
  pose proof (policy_route_refusals _ _ _ E) as H.
  assert (He : e = EViolation (no_candidate
    (policyFilter SampleRefusal.policy SampleRequest.plain) "cheap"))
    by (revert E; vm_compute; intros [= <-]; reflexivity).
  subst e. eexists. split; [reflexivity|]. split; [reflexivity|].
  destruct H as (_ & g & Hg & Ha & _). injection Hg as <-.
  apply Ha. vm_compute. left.
Defined.

(** The use case's lowest group is honoured: with a group order free of
    duplicates, no explicit group and no cost ceiling, a decision for a use
    case with a ranked [minGroup] is served from a group ranked at least as
    high, whatever the strategy proposed. *)
Theorem use_case_min_group_honoured req policy strategy d b g need :
  resolvePolicyRoute req policy strategy = Ok d ->
  NoDup (default [] (rp_groupOrder policy)) ->
  truthy_opt (rr_explicitGroup req) = false -> rr_maxCost req = None ->
  useCaseBar policy (rr_useCase req) = Some b -> ub_minGroup b = Some g ->
  truthy_string g = true -> groupRank policy g = Some need ->
  exists i, groupRank policy (rd_group d) = Some i /\ (need <= i)%nat.
Proof.
  intros (gr0 & gr & cs & picked & gr' & picked' & _ & Hf & Hp & Hc & ->)%resolvePolicyRoute_Ok
    Hnd Hex Hmax Hbar Hg Ht Hneed. simpl.
  assert (Hb : pf_bar (policyFilter policy req) = Some b).
  { unfold policyFilter. destruct (classifySensitivity _ _ _). simpl. by rewrite Hex. }
  destruct (raise_group_rank policy _ gr0 _ _ _ Hb Hg Ht Hneed) as (i & Hi & Hle).
  destruct (find_candidates_rank _ _ _ _ _ _ Hnd Hf Hi) as (j & Hj & Hle').
  apply clamp_pick_spec in Hc as [(-> & -> & _)|(m & ? & Hbust & _)].
  - exists j. split; [done|lia].
  - apply busts_Some in Hbust as [Hm _]. congruence.
Qed.

Lemma use_case_min_group_honoured_witness :
  exists d, resolvePolicyRoute SampleRequest.hr Sample.policy Heuristic = Ok d /\
    exists i, groupRank Sample.policy (rd_group d) = Some i /\ (1 <= i)%nat.
Proof.
  destruct (resolvePolicyRoute SampleRequest.hr Sample.policy Heuristic) as [d|] eqn:E;
    [|revert E; vm_compute; discriminate].
  exists d. split; [reflexivity|].
  apply (use_case_min_group_honoured _ _ _ _
           (mkBar (Some "frontier") (Some "set-1") None (Some ["eu-large"])) "frontier" 1 E).
  - apply NoDup_ListNoDup. repeat constructor; simpl; intuition discriminate.
  - reflexivity.
  - reflexivity.
  - reflexivity.
  - reflexivity.
  - reflexivity.
  - reflexivity.
Defined.

(** Failover never widens the constraint set: the candidates start with
    the decided model, their models are pairwise distinct, and every later one
    is a tier of the served group that passes the same filter, fits the cost
    ceiling and is not ordered before its predecessor's cost. *)
Theorem candidates_within_constraints req policy d :
  exists primary rest,
    routeCandidates req policy d = primary :: map pk_tier rest /\
    mt_model primary = rd_model d /\
    NoDup (rd_model d :: map (fun p => mt_model (pk_tier p)) rest) /\
    ordered cost_gt rest /\
    forall p, p ∈ rest ->
      pk_tier p ∈ tiersOf policy (rd_group d) /\
      route_allow policy req (pk_tier p) = true /\
      pk_estCost p = request_cost req (pk_tier p) /\
      (forall m, rr_maxCost req = Some m -> nltb m (pk_estCost p) = false).
Proof.
  destruct (routeCandidates_shape req policy d) as (primary & rest & H & Hp & Ho & Hnd & Hall).
  exists primary, rest. do 4 (split; [done|]). intros p Hin.
  rewrite Forall_forall in Hall. destruct (Hall p Hin) as (? & ? & ? & Hb).
  do 3 (split; [done|]). intros m Hm. unfold busts in Hb. rewrite Hm in Hb.
  by destruct (nltb m _).
Qed.

(** Precedence without policy stages: an explicit group the policy defines
    with at least one tier is used whatever the quality hint and the strategy
    say, and without a cost ceiling its cheapest tier is served. *)
Theorem explicit_group_wins req policy strategy g tiers d :
  hasPolicyStages policy = false -> rr_explicitGroup req = Some g ->
  truthy_string g = true -> groupTiers policy g = Some tiers -> tiers <> [] ->
  rr_maxCost req = None -> resolveRoute req policy strategy = Ok d ->
  rd_group d = g /\ rd_reason d = "override" /\
  exists t, t ∈ tiers /\ rd_model d = mt_model t /\ rd_estCost d = request_cost req t /\
    forall t', t' ∈ tiers -> nltb (request_cost req t') (rd_estCost d) = false.
Proof.
  intros Hst Hex Htr Hg Hne Hmax. unfold resolveRoute. rewrite Hst. unfold truthy_header.
  rewrite Hex. simpl. rewrite Htr. unfold resolveInGroup. rewrite Hg.
  destruct tiers as [|t0 ts]; [done|].
  pose proof (pickCheapestIn_spec (t0 :: ts) req) as Hp.
  destruct (pickCheapestIn _ _) as [p|]; [|done]. unfold busts. rewrite Hmax.
  intros [= <-]. simpl. do 2 (split; [done|]).
  destruct Hp as [(Hin & He & Hmin) _]. exists (pk_tier p). done.
Qed.

Lemma explicit_group_wins_witness :
  rd_group (plain_decision "eu-large" "frontier" "override" nzero) = "frontier" /\
  exists d, resolveRoute
      (mkReq [] "auto" nzero None (Some draft) None (Some "frontier") None [] None)
      (mkPolicy None "cheap" (rp_groups Sample.policy) [] None None None None None)
      Heuristic = Ok d /\ rd_group d = "frontier".
Proof.
  split; [reflexivity|].
  match goal with |- exists d, ?r = _ /\ _ => destruct r as [d|e] eqn:E end;
    [|revert E; vm_compute; discriminate].
  exists d. split; [reflexivity|].
  refine (proj1 (explicit_group_wins _ _ _ "frontier" [Sample.eu_large] _ _ _ _ _ _ _ E)).
  - reflexivity.
  - reflexivity.
  - reflexivity.
  - reflexivity.
  - discriminate.
  - reflexivity.
Defined.
