(* ===== verification/RouterMiddleware.v ===== *)
(** * The routing middleware and the data policy gate

    [middlewares/router/middleware.ts] ([beforeRequest]),
    [middlewares/router/dataPolicyGate.ts] (the gate [tryPost] checks per
    target) and [middlewares/router/hono.ts] (the adapter that puts them on the
    request path).  Parameters: the URL parser ([urlOrigin]), the PII scanner
    of [pii.ts] ([scanRequestBody]), and for the realtime endpoint the target
    read from headers and query ([realtimeTarget], [None] when reading it
    throws). *)

From Stdlib Require Import ZArith Lia ZifyBool.
From stdpp Require Import base strings option sets list.
From S2P Require Import Prelude JsValue RoutePolicy Constraints Router.

#[local] Open Scope string_scope.
#[local] Open Scope list_scope.

(** ** Data *)

Record RouteCandidate := mkCandidate { rc_model : string; rc_provider : option string }.

Record PSRoute := mkRoute {
  ps_requestedModel : string;
  ps_servedModel : string;
  ps_group : string;
  ps_reason : string;
  ps_estCost : num;
  ps_sensitivityLevel : option string;
  ps_sensitivitySource : option SensitivitySource;
  ps_candidates : option (list RouteCandidate)
}.

Record PSRouteViolation := mkRouteViolation {
  rv_requestedModel : string;
  rv_message : string;
  rv_group : option string;
  rv_sensitivityLevel : option string;
  rv_sensitivitySource : option SensitivitySource
}.

(** The request object the middleware mutates. *)
Record Request := mkRequest {
  rq_headers : obj string;
  rq_body : any;
  rq_psPii : option (list string);
  rq_psRoute : option PSRoute;
  rq_psRouteViolation : option PSRouteViolation
}.

Record DataPolicyGate := mkGate {
  dg_policy : RoutePolicy;
  dg_level : option string;
  dg_source : SensitivitySource;
  dg_rule : option DataPolicyRule
}.

(** ** [middleware.ts] *)

Definition escalatesOnPii (policy : RoutePolicy) : bool :=
  match rp_sensitivity policy with
  | Some s => match sc_piiEscalation s with Some (_ :: _) => true | _ => false end
  | None => false
  end.

Definition is_array (v : any) : bool := match v with Some (JArr _) => true | _ => false end.

(** [body.model = m] *)
Definition set_model (body : any) (m : string) : any :=
  match body with
  | Some (JObj o) => Some (JObj (obj_put o "model" (JStr m)))
  | _ => body
  end.

Definition candidate_of (t : ModelTier) : RouteCandidate :=
  mkCandidate (mt_model t) (if truthy_opt (mt_provider t) then mt_provider t else None).

Definition with_pii (req : RouteRequest) (pii : list string) : RouteRequest :=
  mkReq (rr_messages req) (rr_requestedModel req) (rr_approxInputTokens req)
    (rr_maxOutputTokens req) (rr_quality req) (rr_maxCost req) (rr_explicitGroup req)
    (rr_dataClassification req) pii (rr_useCase req).

Definition stash_violation (request : Request) (v : PSRouteViolation) : Request :=
  mkRequest (rq_headers request) (rq_body request) (rq_psPii request)
    (rq_psRoute request) (Some v).

Definition stash_route (request : Request) (route : PSRoute) : Request :=
  mkRequest (rq_headers request) (set_model (rq_body request) (ps_servedModel route))
    (rq_psPii request) (Some route) (rq_psRouteViolation request).

(** The violation recorded when routing threw under a data policy. *)
Definition violation_of (requestedModel : string) (e : RouteError) : PSRouteViolation :=
  match e with
  | EViolation v => mkRouteViolation requestedModel (pv_message v) (pv_group v)
                      (pv_sensitivityLevel v) (pv_sensitivitySource v)
  | _ => mkRouteViolation requestedModel
           "routing failed under a data policy; refusing the call" None None None
  end.

Definition is_violation (e : RouteError) : bool :=
  match e with EViolation _ => true | _ => false end.

Definition has_some {A} (o : option A) : bool := match o with Some _ => true | None => false end.

Section Middleware.
Variable scanRequestBody : any -> list string.

(** Whether the router engages: [model: "auto"] or a routing hint. *)
Definition engages (request : Request) : bool :=
  let hints := parseRouteHeaders (rq_headers request) in
  is_array (prop (rq_body request) "messages") &&
  (match prop (rq_body request) "model" with
   | Some (JStr m) => (m =? "auto")%string | _ => false end ||
   has_some (ph_quality hints) || has_some (ph_explicitGroup hints) ||
   has_some (ph_maxCost hints)).

(** The request handed to the router, with its detected PII. *)
Definition route_request (policy : RoutePolicy) (request : Request) : RouteRequest :=
  let routeReq := buildRouteRequest (rq_body request)
                    (parseRouteHeaders (rq_headers request)) in
  if escalatesOnPii policy
  then with_pii routeReq (default (scanRequestBody (rq_body request)) (rq_psPii request))
  else routeReq.

Definition route_of (policy : RoutePolicy) (routeReq : RouteRequest) (d : RouteDecision)
    : PSRoute :=
  mkRoute (rr_requestedModel routeReq) (rd_model d) (rd_group d) (rd_reason d)
    (rd_estCost d) (rd_sensitivityLevel d) (rd_sensitivitySource d)
    (Some (map candidate_of (routeCandidates routeReq policy d))).

Definition beforeRequest (policy : RoutePolicy) (strategy : RouterStrategy)
    (request : Request) : Request :=
  if negb (engages request) then request else
  let routeReq := route_request policy request in
  match resolveRoute routeReq policy strategy with
  | Throw e =>
      if is_violation e || has_some (rp_dataPolicy policy)
      then stash_violation request (violation_of (rr_requestedModel routeReq) e)
      else request
  | Ok decision => stash_route request (route_of policy routeReq decision)
  end.
End Middleware.

(** ** [dataPolicyGate.ts] *)

Definition buildDataPolicyGate (policy : RoutePolicy) (headers : obj string)
    (piiDetected : list string) : option DataPolicyGate :=
  match rp_dataPolicy policy with
  | None => None
  | Some _ =>
      let '(level, source) := classifySensitivity policy
        (ph_dataClassification (parseRouteHeaders headers)) piiDetected in
      Some (mkGate policy level source (dataPolicyRule policy level))
  end.

(** The 403 of a refused call: what it says about the refused target. *)
Record Denied := mkDenied {
  dn_requestedModel : string;
  dn_provider : option string;
  dn_group : option string;
  dn_sensitivityLevel : option string
}.

Section Gate.
Variable urlOrigin : string -> option string.

Definition models_to_check (models : list string) (requireModel : bool)
    : list (option string) :=
  match List.filter truthy_string models with
  | [] => if requireModel then [None] else []
  | names => map Some names
  end.

Definition gate_target (provider customHost : option string) : ServedTarget :=
  mkTarget provider customHost None.

Definition target_complies (gate : DataPolicyGate) (provider customHost : option string)
    (model : option string) : bool :=
  modelComplies (dg_policy gate) model (dg_rule gate)
    (fun tier => tierServesTarget urlOrigin tier (Some (gate_target provider customHost))).

Definition dataPolicyTargetDenied (gate : option DataPolicyGate)
    (provider : option string) (models : list string) (requireModel : bool)
    (customHost : option string) : option Denied :=
  match gate with
  | Some g =>
      match dg_rule g with
      | None => None
      | Some _ =>
          match List.find (fun m => negb (target_complies g provider customHost m))
                  (models_to_check models requireModel) with
          | Some m => Some (mkDenied (default "" m) provider None (dg_level g))
          | None => None
          end
      end
  | None => None
  end.
End Gate.

(** ** [hono.ts] *)

(** What the adapter sees of a call. [hc_json] is the parsed body, [None]
    when [c.req.json()] rejects. *)
Record HonoCall := mkCall {
  hc_path : string;
  hc_method : string;
  hc_contentType : string;
  hc_headers : obj string;
  hc_json : option json
}.

(** What the next handler finds on the context, or the answer given instead. *)
Inductive HonoOutcome :=
| PolicyUnavailable
| PolicyDenied (v : Denied)
| Next (gate : option DataPolicyGate) (route : option PSRoute) (body : option json).

Definition denied_of_violation (v : PSRouteViolation) : Denied :=
  mkDenied (rv_requestedModel v) None (rv_group v) (rv_sensitivityLevel v).

Definition isMcpProxyPath (path : string) : bool := startsWith path "/v1/mcp/".

Section Hono.
Variable urlOrigin : string -> option string.
Variable scanRequestBody : any -> list string.
Variable realtimeTarget : HonoCall -> option (option string * list string * option string).

Definition is_json_post (c : HonoCall) : bool :=
  (hc_method c =? "POST")%string && includes (hc_contentType c) "application/json".

(** The PII found before the gate is built: the body of a JSON post when the
    policy escalates on PII; [None] when it was not scanned. *)
Definition gate_pii (active : RoutePolicy) (c : HonoCall) : option (list string) :=
  if is_json_post c && escalatesOnPii active
  then Some (scanRequestBody (hc_json c)) else None.

Definition realtime_denied (gate : option DataPolicyGate) (c : HonoCall) : option Denied :=
  if (hc_path c =? "/v1/realtime")%string then
    match realtimeTarget c with
    | None => Some (mkDenied "" None None None)
    | Some (provider, models, customHost) =>
        dataPolicyTargetDenied urlOrigin gate provider models true customHost
    end
  else None.

Definition hono_route (active : RoutePolicy) (strategy : RouterStrategy)
    (c : HonoCall) (pii : option (list string)) (gate : option DataPolicyGate)
    : HonoOutcome :=
  match is_json_post c, hc_json c with
  | true, Some body =>
      let request := beforeRequest scanRequestBody active strategy
        (mkRequest (hc_headers c) (Some body) pii None None) in
      match rq_psRouteViolation request with
      | Some v => PolicyDenied (denied_of_violation v)
      | None => Next gate (rq_psRoute request) (rq_body request)
      end
  | _, _ => Next gate None (hc_json c)
  end.

Definition psRouter (provide : option RoutePolicy) (strategy : RouterStrategy)
    (c : HonoCall) : HonoOutcome :=
  if isMcpProxyPath (hc_path c) then Next None None (hc_json c) else
  match provide with
  | None => PolicyUnavailable
  | Some active =>
      match rp_dataPolicy active with
      | None => hono_route active strategy c None None
      | Some _ =>
          let pii := gate_pii active c in
          let gate := buildDataPolicyGate active (hc_headers c) (default [] pii) in
          match realtime_denied gate c with
          | Some v => PolicyDenied v
          | None => hono_route active strategy c pii gate
          end
      end
  end.
End Hono.

(** ** Lemmas *)

Lemma prop_set_model o m : prop (set_model (Some (JObj o)) m) "model" = Some (JStr m).
Proof. simpl. by rewrite own_put. Qed.

Lemma engages_object request :
  engages request = true -> exists o, rq_body request = Some (JObj o).
Proof.
  unfold engages. destruct (rq_body request) as [[| | | | |o]|]; simpl; try done. by exists o.
Qed.

(** Every outcome of [beforeRequest]. *)
Lemma beforeRequest_cases scan policy strategy request :
  (engages request = false /\ beforeRequest scan policy strategy request = request) \/
  (engages request = true /\
   let req := route_request scan policy request in
   match resolveRoute req policy strategy with
   | Ok d => beforeRequest scan policy strategy request =
             stash_route request (route_of policy req d)
   | Throw e => beforeRequest scan policy strategy request =
       if is_violation e || has_some (rp_dataPolicy policy)
       then stash_violation request (violation_of (rr_requestedModel req) e) else request
   end).
Proof.
  unfold beforeRequest. destruct (engages request); [right|by left].
  split; [done|]. by destruct (resolveRoute _ _ _).
Qed.

Lemma find_None_forallb {A} (p : A -> bool) (l : list A) :
  List.find (fun x => negb (p x)) l = None <-> forall x, x ∈ l -> p x = true.
Proof.
  induction l as [|x l IH]; simpl.
  - split; [intros _ x Hx; by apply elem_of_nil in Hx|done].
  - destruct (p x) eqn:Hp; simpl.
    + rewrite IH. split; [intros H y [->|Hy]%elem_of_cons; auto|].
      intros H y Hy. apply H. by right.
    + split; [done|]. intros H. exfalso. specialize (H x). rewrite Hp in H.
      assert (x ∈ x :: l) by left. naive_solver.
Qed.

Lemma dataPolicy_has_stages policy d : rp_dataPolicy policy = Some d -> hasPolicyStages policy = true.
Proof. unfold hasPolicyStages. intros ->. by destruct (rp_sensitivity policy). Qed.

(** Routing under a data policy, as [beforeRequest] leaves the request. *)
Lemma beforeRequest_fail_closed scan policy strategy request rules :
  rp_dataPolicy policy = Some rules -> engages request = true ->
  let req := route_request scan policy request in
  let r := beforeRequest scan policy strategy request in
  (exists v, r = stash_violation request v) \/
  (exists d, resolvePolicyRoute req policy strategy = Ok d /\
     r = stash_route request (route_of policy req d)).
Proof.
  intros Hd He req r.
  destruct (beforeRequest_cases scan policy strategy request) as [[H _]|[_ H]]; [congruence|].
  cbv zeta in H. fold req in H. unfold resolveRoute in H.
  rewrite (dataPolicy_has_stages _ _ Hd) in H.
  destruct (resolvePolicyRoute req policy strategy) as [d|e].
  - right. by exists d.
  - left. rewrite Hd in H. simpl in H. rewrite orb_true_r in H. eauto.
Qed.

(** The level the router uses for a request built from headers. *)
Lemma route_request_classification scan policy request :
  let req := route_request scan policy request in
  rr_dataClassification req =
    ph_dataClassification (parseRouteHeaders (rq_headers request)) /\
  rr_piiDetected req =
    (if escalatesOnPii policy
     then default (scan (rq_body request)) (rq_psPii request) else []).
Proof. unfold route_request. by destruct (escalatesOnPii policy). Qed.

(** ** Properties *)

(** [C7] The middleware fails closed under a data policy: a routed request
    either ends with a stashed violation and an untouched body, or with
    [body.model] rewritten to a model of the policy whose tier meets the rule
    of the request's sensitivity level; there is no third outcome, whatever
    the strategy does (including throwing). *)
Theorem beforeRequest_never_leaks scan policy strategy request rules :
  rp_dataPolicy policy = Some rules -> engages request = true ->
  rq_psRoute request = None -> rq_psRouteViolation request = None ->
  let req := route_request scan policy request in
  let level := (classifySensitivity policy (rr_dataClassification req) (rr_piiDetected req)).1 in
  let r := beforeRequest scan policy strategy request in
  (has_some (rq_psRouteViolation r) = true /\ rq_psRoute r = None /\
   rq_body r = rq_body request) \/
  (rq_psRouteViolation r = None /\
   exists route t, rq_psRoute r = Some route /\
     prop (rq_body r) "model" = Some (JStr (ps_servedModel route)) /\
     t ∈ all_tiers policy /\ mt_model t = ps_servedModel route /\
     tierComplies t (dataPolicyRule policy level) = true).
Proof.
  intros Hd He Hr Hv req level r.
  destruct (beforeRequest_fail_closed scan policy strategy request rules Hd He)
    as [[v E]|(d & Hok & E)]; unfold r; rewrite E.
  - left. done.
  - right. split; [done|]. exists (route_of policy req d).
    destruct (resolvePolicyRoute_tier _ _ _ _ Hok) as (t & Hin & Hm & Ha & _).
    destruct (engages_object _ He) as [o Ho].
    exists t. split; [done|]. split; [|split; [done|split; [done|]]].
    + simpl. rewrite Ho. by rewrite prop_set_model.
    + apply pf_allow_spec in Ha as [_ Hc].
      destruct (policyFilter_eq policy req) as (_ & _ & Er). fold req in Hc. by rewrite Er in Hc.
Qed.

Module SampleHttp.
Definition body : json :=
  JObj [("model", JStr "auto"); ("messages", JArr [JObj [("content", JStr "hi")]])].
Definition headers : obj string := [("X-PS-Data-Classification", "restricted")].
Definition request : Request := mkRequest headers (Some body) None None None.
Definition call : HonoCall :=
  mkCall "/v1/chat/completions" "POST" "application/json" headers (Some body).
End SampleHttp.

Lemma beforeRequest_never_leaks_witness :
  exists r, r = beforeRequest (fun _ => []) Sample.policy Heuristic SampleHttp.request /\
  prop (rq_body r) "model" = Some (JStr "eu-small").
Proof.
  destruct (beforeRequest_never_leaks (fun _ => []) Sample.policy Heuristic
    SampleHttp.request _ eq_refl eq_refl eq_refl eq_refl) as [(H & _)|(_ & route & t & Hr & Hb & _)].
  - exfalso. vm_compute in H. discriminate H.
  - eexists. split; [reflexivity|]. rewrite Hb. apply f_equal, f_equal.
    vm_compute in Hr. injection Hr as <-. reflexivity.
Defined.

(** [C8] The gate is sound for every target: when it lets a call through under
    a rule, each named model is vouched for by a policy tier that lists it,
    applies to the target's provider and host and meets the rule, unless the
    rule allows any jurisdiction and asks for nothing else; a call that names no
    model where one is required passes only under such a rule. *)
Theorem gate_admits_only_compliant urlOrigin g r provider models requireModel customHost :
  dg_rule g = Some r ->
  dataPolicyTargetDenied urlOrigin (Some g) provider models requireModel customHost = None ->
  let open_rule := "any" ∈ dr_jurisdictions r /\ dr_providers r = None /\
    dr_requireZdr r <> Some true /\ dr_usCloudActExposure r <> Some false in
  (forall m, m ∈ models -> truthy_string m = true ->
     (exists t, t ∈ all_tiers (dg_policy g) /\ mt_model t = m /\
        tierServesTarget urlOrigin t (Some (gate_target provider customHost)) = true /\
        Compliant t r) \/ open_rule) /\
  ((forall m, m ∈ models -> truthy_string m = false) -> requireModel = true -> open_rule).
Proof.
  intros Hr. unfold dataPolicyTargetDenied. rewrite Hr.
  destruct (List.find _ _) eqn:Hf; [done|]. intros _.
  set (open_rule := "any" ∈ dr_jurisdictions r /\ dr_providers r = None /\
    dr_requireZdr r <> Some true /\ dr_usCloudActExposure r <> Some false).
  rewrite find_None_forallb in Hf.
  assert (Hok : forall m, target_complies urlOrigin g provider customHost m = true ->
    (exists t, t ∈ all_tiers (dg_policy g) /\ m = Some (mt_model t) /\
        tierServesTarget urlOrigin t (Some (gate_target provider customHost)) = true /\
        Compliant t r) \/ open_rule).
  { intros m. unfold target_complies. rewrite Hr.
    intros H. apply modelComplies_cases in H as [(m' & t & -> & ? & Hm' & ? & Hc)|H].
    - left. exists t. apply tierComplies_Compliant in Hc. by rewrite Hm'.
    - right. by apply unlisted_complies in H. }
  unfold models_to_check in Hf. split.
  - intros m Hm Ht.
    assert (Hin : m ∈ List.filter truthy_string models) by by apply filter_elem.
    destruct (List.filter _ _) as [|n ns]; [by apply elem_of_nil in Hin|].
    assert (Hs : Some m ∈ map Some (n :: ns))
      by (apply list_elem_of_In, in_map; by apply list_elem_of_In).
    destruct (Hok _ (Hf _ Hs)) as [(t & ? & [= ->] & ?)|?]; [left; by exists t|by right].
  - intros Hnone ->.
    destruct (List.filter _ _) as [|n ns] eqn:Hn.
    + destruct (Hok None) as [(t & _ & [=] & _)|?]; [|done]. apply Hf. left.
    + assert (Hin : n ∈ List.filter truthy_string models) by (rewrite Hn; left).
      apply filter_elem in Hin as [Hin Ht]. by rewrite Hnone in Ht.
Qed.

Module SampleGate.
Definition gate : DataPolicyGate :=
  mkGate Sample.policy (Some "restricted") declared (Some Sample.eea_rule).
(** An origin function for the hosts of the samples. *)
Definition origin (s : string) : option string := Some s.
End SampleGate.

Lemma gate_admits_only_compliant_witness :
  exists t, t ∈ all_tiers Sample.policy /\ mt_model t = "eu-small" /\
    Compliant t Sample.eea_rule.
Proof.
  destruct (gate_admits_only_compliant SampleGate.origin SampleGate.gate Sample.eea_rule
    (Some "mistral-ai") ["eu-small"] true None) as [H _].
  - reflexivity.
  - vm_compute. reflexivity.
  - destruct (H "eu-small") as [(t & ? & ? & _ & ?)|(Hany & _)].
    + left.
    + reflexivity.
    + exists t. split; [assumption|]. split; assumption.
    + exfalso. revert Hany. apply mem_string_false. vm_compute. reflexivity.
Defined.

(** On the request path the router and the gate agree: when the adapter
    lets a routed JSON post through under a data policy, the gate is set, its
    level is the one the router classified the call at, and the body's model is
    the routed one, whose tier meets the gate's rule. *)
Theorem psRouter_gate_agrees urlOrigin scan rt active strategy c rules gate route body :
  rp_dataPolicy active = Some rules ->
  is_json_post c = true -> isMcpProxyPath (hc_path c) = false ->
  engages (mkRequest (hc_headers c) (hc_json c) None None None) = true ->
  psRouter urlOrigin scan rt (Some active) strategy c = Next gate route body ->
  exists g rt' t, gate = Some g /\ route = Some rt' /\
    dg_policy g = active /\ ps_sensitivityLevel rt' = dg_level g /\
    prop body "model" = Some (JStr (ps_servedModel rt')) /\
    t ∈ all_tiers active /\ mt_model t = ps_servedModel rt' /\
    tierComplies t (dg_rule g) = true.
Proof.
  intros Hd Hpost Hmcp Heng. unfold psRouter. rewrite Hmcp, Hd.
  destruct (realtime_denied _ _ _ _) eqn:Hrt; [done|].
  unfold hono_route. rewrite Hpost. destruct (hc_json c) as [b|] eqn:Hb;
    [|by destruct (engages_object _ Heng)].
  set (req0 := mkRequest (hc_headers c) (Some b) (gate_pii scan active c) None None).
  assert (Heng' : engages req0 = true) by exact Heng.
  destruct (beforeRequest_fail_closed scan active strategy req0 rules Hd Heng')
    as [[v E]|(d & Hok & E)]; rewrite E; simpl; [done|].
  intros [= <- <- <-].
  destruct (resolvePolicyRoute_tier _ _ _ _ Hok) as (t & Hin & Hm & Ha & _ & Hl & _).
  destruct (policyFilter_eq active (route_request scan active req0)) as (El & _ & Er).
  destruct (route_request_classification scan active req0) as [Hc1 Hc2].
  apply pf_allow_spec in Ha as [_ Hc]. rewrite Er in Hc. rewrite El in Hl.
  rewrite Hc1, Hc2 in Hc, Hl. unfold buildDataPolicyGate. rewrite Hd.
  assert (Hpii : (if escalatesOnPii active
      then default (scan (rq_body req0)) (rq_psPii req0) else [])
    = default [] (gate_pii scan active c)).
  { simpl. unfold gate_pii. rewrite Hpost. by destruct (escalatesOnPii active). }
  rewrite Hpii in Hc, Hl. simpl in Hc, Hl.
  destruct (classifySensitivity _ _ _) as [level source]; simpl in Hc, Hl.
  destruct (engages_object _ Heng') as [o Ho]. simpl in Ho. injection Ho as ->.
  eexists _, _, t. do 3 (split; [reflexivity|]). simpl.
  split; [done|]. split; [by rewrite own_put|]. done.
Qed.

Lemma psRouter_gate_agrees_witness :
  exists gate route body,
    psRouter SampleGate.origin (fun _ => []) (fun _ => None) (Some Sample.policy) Heuristic
      SampleHttp.call = Next gate route body /\
    exists g rt', gate = Some g /\ route = Some rt' /\
      ps_sensitivityLevel rt' = dg_level g.
Proof.
  destruct (psRouter SampleGate.origin (fun _ => []) (fun _ => None) (Some Sample.policy)
    Heuristic SampleHttp.call) as [|v|gate route body] eqn:E;
    [vm_compute in E; discriminate E|vm_compute in E; discriminate E|].
  exists gate, route, body. split; [reflexivity|].
  destruct (psRouter_gate_agrees _ _ _ Sample.policy Heuristic SampleHttp.call
              [("restricted", Sample.eea_rule)] _ _ _
              eq_refl eq_refl eq_refl eq_refl E) as (g & rt' & t & ? & ? & _ & ? & _).
  exists g, rt'. split; [assumption|]. split; assumption.
Defined.
