(* ===== verification/CircuitBreaker.v ===== *)
(** * Circuit breakers

    The breaker and the bounded registry of [middlewares/psFailover/index.ts].
    Clocks are read as numbers of seconds; each operation takes the value the
    clock gives while it runs.  Thresholds and counters are whole numbers. *)

From Stdlib Require Import ZArith Lia ZifyBool.
From stdpp Require Import base strings option sets list.
From S2P Require Import Prelude JsValue.

#[local] Open Scope string_scope.
#[local] Open Scope list_scope.
#[local] Open Scope Z_scope.

Inductive BreakerState := closed | open | half_open.

#[export] Instance BreakerState_eq_dec : EqDecision BreakerState.
Proof. solve_decision. Defined.

Record BreakerConfig := mkBreakerConfig {
  bc_failureThreshold : Z;
  bc_openSeconds : num;
  bc_halfOpenMaxProbes : Z
}.

Definition DEFAULT_BREAKER_CONFIG : BreakerConfig := mkBreakerConfig 5 (num_of_Z 30) 1.

Record CircuitBreaker := mkBreaker {
  cb_state : BreakerState;
  cb_failures : Z;
  cb_openedAt : num;
  cb_probes : Z
}.

Definition new_breaker : CircuitBreaker := mkBreaker closed 0 nzero 0.

(** The constructor's range checks ([RangeError] otherwise). *)
Definition valid_config (config : BreakerConfig) : bool :=
  (1 <=? bc_failureThreshold config) && nleb nzero (bc_openSeconds config) &&
  (1 <=? bc_halfOpenMaxProbes config).

(** A state change reported through [onTransition]. *)
Notation Transition := (BreakerState * BreakerState)%type (only parsing).

Section Breaker.
Variable config : BreakerConfig.

(** [move]: the new state and the transition, if any. *)
Definition move (now : num) (b : CircuitBreaker) (to : BreakerState)
    : CircuitBreaker * list Transition :=
  if decide (to = cb_state b) then (b, []) else
  (mkBreaker to
     (match to with closed => 0 | _ => cb_failures b end)
     (match to with open => now | _ => cb_openedAt b end) 0,
   [(cb_state b, to)]).

Definition currentState (now : num) (b : CircuitBreaker)
    : CircuitBreaker * list Transition :=
  match cb_state b with
  | open =>
      if nleb (bc_openSeconds config) (nsub now (cb_openedAt b))
      then move now b half_open else (b, [])
  | _ => (b, [])
  end.

Definition allow (now : num) (b : CircuitBreaker)
    : bool * (CircuitBreaker * list Transition) :=
  let '(b, tr) := currentState now b in
  match cb_state b with
  | closed => (true, (b, tr))
  | half_open =>
      if cb_probes b <? bc_halfOpenMaxProbes config
      then (true, (mkBreaker (cb_state b) (cb_failures b) (cb_openedAt b)
                     (cb_probes b + 1), tr))
      else (false, (b, tr))
  | open => (false, (b, tr))
  end.

Definition recordSuccess (now : num) (b : CircuitBreaker)
    : CircuitBreaker * list Transition :=
  match cb_state b with
  | half_open => move now b closed
  | closed => (mkBreaker closed 0 (cb_openedAt b) (cb_probes b), [])
  | open => (b, [])
  end.

Definition recordFailure (now : num) (b : CircuitBreaker)
    : CircuitBreaker * list Transition :=
  match cb_state b with
  | half_open => move now b open
  | closed =>
      let b' := mkBreaker closed (cb_failures b + 1) (cb_openedAt b) (cb_probes b) in
      if bc_failureThreshold config <=? cb_failures b' then move now b' open
      else (b', [])
  | open => (b, [])
  end.

Definition release (now : num) (b : CircuitBreaker)
    : CircuitBreaker * list Transition :=
  match cb_state b with
  | half_open =>
      if 0 <? cb_probes b
      then (mkBreaker half_open (cb_failures b) (cb_openedAt b) (cb_probes b - 1), [])
      else (b, [])
  | _ => (b, [])
  end.

Definition forceOpen (now : num) (b : CircuitBreaker)
    : CircuitBreaker * list Transition :=
  match cb_state b with
  | open => (mkBreaker open (cb_failures b) now (cb_probes b), [])
  | _ => move now b open
  end.

(** *** Reachability *)

Inductive Op := OpAllow | OpSuccess | OpFailure | OpRelease | OpForce | OpRead.

Definition step (op : Op) (now : num) (b : CircuitBreaker)
    : CircuitBreaker * list Transition :=
  match op with
  | OpAllow => (allow now b).2
  | OpSuccess => recordSuccess now b
  | OpFailure => recordFailure now b
  | OpRelease => release now b
  | OpForce => forceOpen now b
  | OpRead => currentState now b
  end.

Inductive Reachable : CircuitBreaker -> Prop :=
| reach_new : Reachable new_breaker
| reach_step op now b : Reachable b -> Reachable (step op now b).1.

(** The counters stay in range and only a half-open breaker has probes. *)
Definition wf (b : CircuitBreaker) : Prop :=
  0 <= cb_failures b /\ 0 <= cb_probes b <= bc_halfOpenMaxProbes config /\
  (cb_state b <> half_open -> cb_probes b = 0) /\
  (cb_state b = closed -> cb_failures b < bc_failureThreshold config).

(** The state changes a breaker may make. *)
Inductive Legal : BreakerState -> BreakerState -> Prop :=
| legal_trip : Legal closed open
| legal_probe : Legal open half_open
| legal_recover : Legal half_open closed
| legal_reopen : Legal half_open open.
End Breaker.

#[export] Hint Constructors Legal Reachable : js.

(** Unfolds one breaker operation and decides its guards. *)
Ltac breaker_cases :=
  unfold step, allow, currentState, recordSuccess, recordFailure, release, forceOpen,
    move in *;
  repeat (simpl in *; first [case_decide | case_match]); simplify_eq/=.

Section BreakerLemmas.
Context (config : BreakerConfig) (Hvalid : valid_config config = true).

Lemma valid_thresholds :
  1 <= bc_failureThreshold config /\ 1 <= bc_halfOpenMaxProbes config.
Proof using Hvalid. unfold valid_config in Hvalid. split_bool. lia. Qed.

Lemma new_breaker_wf : wf config new_breaker.
Proof using Hvalid.
  pose proof valid_thresholds. unfold wf, new_breaker. simpl. repeat split; try lia; done.
Qed.

Lemma step_wf op now b : wf config b -> wf config (step config op now b).1.
Proof using Hvalid.
  pose proof valid_thresholds. destruct b as [st fl oa pr]. unfold wf.
  simpl. intros (Hf & Hp & Hs & Hc).
  assert (st = half_open \/ pr = 0) by (destruct st; auto; right; by apply Hs).
  assert (st <> closed \/ fl < bc_failureThreshold config)
    by (destruct st; auto; left; done).
  clear Hs Hc. destruct op, st; breaker_cases; repeat split; intros; try done; intuition lia.
Qed.

Lemma reachable_wf b : Reachable config b -> wf config b.
Proof using Hvalid. induction 1; [apply new_breaker_wf|by apply step_wf]. Qed.

Lemma step_legal op now b from to :
  (from, to) ∈ (step config op now b).2 -> Legal from to /\ from = cb_state b.
Proof.
  destruct b as [st fl oa pr].
  destruct op, st; breaker_cases; intros Hin;
    repeat (apply elem_of_cons in Hin as [Hin|Hin]); simplify_eq;
    try (by apply elem_of_nil in Hin); split; auto with js.
Qed.

(** A denied or granted call at an open breaker, before the wait is over. *)
Lemma open_denies now b :
  cb_state b = open -> nleb (bc_openSeconds config) (nsub now (cb_openedAt b)) = false ->
  allow config now b = (false, (b, [])).
Proof.
  unfold allow, currentState. intros Hs Hn. rewrite Hs, Hn. by rewrite Hs.
Qed.
End BreakerLemmas.

(** ** The registry *)

Record BreakerRegistry := mkRegistry {
  br_config : BreakerConfig;
  br_maxEntries : nat;
  br_breakers : obj CircuitBreaker;
  br_transitions : list (string * Transition);
  br_evictions : Z
}.

Definition new_registry (config : BreakerConfig) (maxEntries : nat) : BreakerRegistry :=
  mkRegistry config maxEntries [] [] 0.

(** Evicts the oldest entries while the map is too large. *)
Definition evict (maxEntries : nat) (m : obj CircuitBreaker) : obj CircuitBreaker * Z :=
  let excess := (length m - maxEntries)%nat in (drop excess m, Z.of_nat excess).

(** [get]: the provider's breaker, made most recently used. *)
Definition registry_get (r : BreakerRegistry) (provider : string)
    : CircuitBreaker * BreakerRegistry :=
  match own (br_breakers r) provider with
  | Some b =>
      (b, mkRegistry (br_config r) (br_maxEntries r) (map_touch (br_breakers r) provider b)
            (br_transitions r) (br_evictions r))
  | None =>
      let '(m, evicted) := evict (br_maxEntries r) (br_breakers r ++ [(provider, new_breaker)]) in
      (new_breaker, mkRegistry (br_config r) (br_maxEntries r) m
                      (br_transitions r) (br_evictions r + evicted))
  end.

(** Stores the breaker's new state (the object is mutated in place, so it
    keeps its position) and records its transitions ([moved]). *)
Definition registry_put (r : BreakerRegistry) (provider : string) (b : CircuitBreaker)
    (tr : list Transition) : BreakerRegistry :=
  mkRegistry (br_config r) (br_maxEntries r)
    (map (fun p => if (provider =? p.1)%string then (p.1, b) else p) (br_breakers r))
    (br_transitions r ++ map (fun t => (provider, t)) tr) (br_evictions r).

(** The metric label: the provider without the caller scope, capped. *)
Fixpoint before_hash (s : string) : string :=
  match s with
  | EmptyString => EmptyString
  | String c r => if (code c =? 35)%N then EmptyString else String c (before_hash r)
  end.

Definition transition_label (provider : string) : string :=
  String.substring 0 128 (before_hash provider).

Definition registry_allow (r : BreakerRegistry) (provider : string) (now : num)
    : bool * BreakerRegistry :=
  let '(b, r) := registry_get r provider in
  let '(ok, (b, tr)) := allow (br_config r) now b in
  (ok, registry_put r provider b tr).

(** [recordSuccess], [recordFailure], [release] and [forceOpen]. *)
Definition registry_step (op : Op) (r : BreakerRegistry) (provider : string) (now : num)
    : BreakerRegistry :=
  let '(b, r) := registry_get r provider in
  let '(b, tr) := step (br_config r) op now b in
  registry_put r provider b tr.

(** [state]: does not touch the order of use. *)
Definition registry_state (r : BreakerRegistry) (provider : string) (now : num)
    : BreakerState * BreakerRegistry :=
  match own (br_breakers r) provider with
  | None => (closed, r)
  | Some b =>
      let '(b, tr) := currentState (br_config r) now b in
      (cb_state b, registry_put r provider b tr)
  end.

(** [snapshot]: reads every breaker in order. *)
Definition registry_snapshot (r : BreakerRegistry) (now : num)
    : obj BreakerState * BreakerRegistry :=
  foldl (fun '(out, r) p =>
    let '(s, r) := registry_state r p now in (obj_set out p s, r))
    ([], r) (obj_keys (br_breakers r)).

Definition transitions_to (r : BreakerRegistry) (s : BreakerState) : Z :=
  Z.of_nat (length (List.filter (fun t => bool_decide (t.2.2 = s)) (br_transitions r))).

(** [metrics()] *)
Record BreakerMetrics := mkMetrics {
  bm_opened : Z; bm_half_opened : Z; bm_closed : Z; bm_tracked : Z; bm_evicted : Z
}.

Definition registry_metrics (r : BreakerRegistry) : BreakerMetrics :=
  mkMetrics (transitions_to r open) (transitions_to r half_open) (transitions_to r closed)
    (Z.of_nat (length (br_breakers r))) (br_evictions r).

(** *** Registry lemmas *)

Definition registry_wf (r : BreakerRegistry) : Prop :=
  NoDup (obj_keys (br_breakers r)) /\
  (length (br_breakers r) <= br_maxEntries r)%nat /\
  Forall (fun p => wf (br_config r) p.2) (br_breakers r) /\
  Forall (fun t => Legal t.2.1 t.2.2) (br_transitions r).

(** The oldest provider of the registry: the first key of the map. *)
Definition oldest (r : BreakerRegistry) : option string := head (obj_keys (br_breakers r)).

Lemma own_map_pair (m : obj CircuitBreaker) k b q :
  own (map (fun p => if (k =? p.1)%string then (p.1, b) else p) m) q =
  if (q =? k)%string then (match own m k with Some _ => Some b | None => None end)
  else own m q.
Proof.
  induction m as [|[x v] m IH]; simpl; [by destruct (q =? k)%string|].
  destruct (String.eqb_spec k x) as [->|Hkx]; simpl.
  - by destruct (String.eqb_spec q x).
  - rewrite IH. destruct (String.eqb_spec q x) as [->|]; [|done].
    by destruct (String.eqb_spec x k) as [->|].
Qed.

Lemma obj_keys_map_pair (m : obj CircuitBreaker) k b :
  obj_keys (map (fun p => if (k =? p.1)%string then (p.1, b) else p) m) = obj_keys m.
Proof.
  unfold obj_keys. rewrite map_map. apply map_ext. intros [x v]. simpl.
  by destruct (k =? x)%string.
Qed.

Lemma own_drop1 (m : obj CircuitBreaker) q :
  NoDup (obj_keys m) ->
  own (drop 1 m) q = if decide (head (obj_keys m) = Some q) then None else own m q.
Proof.
  destruct m as [|[x v] m]; simpl; [done|].
  intros [Hx _]%NoDup_cons. rewrite drop_0. destruct (decide (Some x = Some q)) as [Hd|Hd].
  - injection Hd as ->. by apply own_None.
  - destruct (String.eqb_spec q x) as [->|]; [done|done].
Qed.

Lemma Forall_map_delete (P : string * CircuitBreaker -> Prop) m k :
  Forall P m -> Forall P (map_delete m k).
Proof.
  rewrite !Forall_forall. intros H p [Hp _]%filter_elem. by apply H.
Qed.

Section RegistryLemmas.
Context (r : BreakerRegistry) (Hvalid : valid_config (br_config r) = true).
Context (Hmax : (1 <= br_maxEntries r)%nat) (Hwf : registry_wf r).

Lemma registry_get_spec provider b r' :
  registry_get r provider = (b, r') ->
  b = default new_breaker (own (br_breakers r) provider) /\
  br_config r' = br_config r /\ br_maxEntries r' = br_maxEntries r /\
  registry_wf r' /\ own (br_breakers r') provider = Some b /\
  forall q, q <> provider ->
    own (br_breakers r') q = own (br_breakers r) q \/
    (own (br_breakers r') q = None /\ own (br_breakers r) provider = None /\
     length (br_breakers r) = br_maxEntries r /\ oldest r = Some q).
Proof using Hvalid Hmax Hwf.
  destruct Hwf as (Hnd & Hlen & Hall & Htr). unfold registry_get, registry_wf.
  destruct (own (br_breakers r) provider) as [b0|] eqn:Ho.
  - intros [= <- <-]. simpl. do 3 (split; [done|]). split; [|split].
    + split; [by apply NoDup_map_touch|]. split; [|split; [|done]].
      * unfold map_touch. rewrite length_app. simpl.
        pose proof (map_delete_length (br_breakers r) provider Hnd). rewrite Ho in H.
        specialize (H (ex_intro _ b0 eq_refl)). lia.
      * apply Forall_app. split; [by apply Forall_map_delete|].
        constructor; [|constructor]. simpl. apply own_In in Ho.
        rewrite Forall_forall in Hall. by apply (Hall (provider, b0)).
    + rewrite own_map_touch. by rewrite String.eqb_refl.
    + intros q Hq. left. rewrite own_map_touch. by destruct (String.eqb_spec q provider).
  - unfold evict. intros [= <- <-]. cbn [br_config br_maxEntries br_breakers br_transitions].
    assert (Hnd' : NoDup (obj_keys (br_breakers r ++ [(provider, new_breaker)]))).
    { unfold obj_keys. rewrite map_app. apply NoDup_app. split; [done|].
      split; [|apply NoDup_singleton]. intros x Hx ->%list_elem_of_singleton.
      by apply own_None in Ho. }
    rewrite length_app. simpl length.
    assert (Hall' : Forall (fun p => wf (br_config r) p.2)
                      (br_breakers r ++ [(provider, new_breaker)])).
    { apply Forall_app. split; [done|]. constructor; [by apply new_breaker_wf|constructor]. }
    do 3 (split; [done|]).
    assert (Hown : forall q, q <> provider ->
      own (br_breakers r ++ [(provider, new_breaker)]) q = own (br_breakers r) q).
    { intros q Hq. rewrite own_app. simpl. destruct (String.eqb_spec q provider); [done|].
      by destruct (own _ q). }
    assert (Hself : own (br_breakers r ++ [(provider, new_breaker)]) provider
                    = Some new_breaker).
    { rewrite own_app, Ho. simpl. by rewrite String.eqb_refl. }
    destruct (decide (length (br_breakers r) = br_maxEntries r)) as [Hfull|Hroom].
    + replace (length (br_breakers r) + 1 - br_maxEntries r)%nat with 1%nat by lia.
      assert (Hhd : head (obj_keys (br_breakers r ++ [(provider, new_breaker)])) = oldest r).
      { unfold oldest. destruct (br_breakers r); [simpl in Hfull; lia|done]. }
      split; [|split].
      * split; [|split; [|split; [|done]]].
        { unfold obj_keys in *. rewrite <- skipn_map. eapply sublist_NoDup; [exact Hnd'|]. apply sublist_drop. }
        { rewrite length_drop, length_app. simpl. lia. }
        { by apply Forall_drop. }
      * rewrite own_drop1 by done. rewrite Hhd, Hself. case_decide as Hd; [|done].
        exfalso. unfold oldest in Hd. apply own_None in Ho. apply Ho.
        destruct (obj_keys _); simplify_eq/=. left.
      * intros q Hq. rewrite own_drop1 by done. rewrite Hhd.
        case_decide as Hd; [by right|left; by apply Hown].
    + replace (length (br_breakers r) + 1 - br_maxEntries r)%nat with 0%nat by lia.
      rewrite drop_0. split; [|split].
      * split; [done|]. split; [rewrite length_app; simpl; lia|]. by split.
      * done.
      * intros q Hq. left. by apply Hown.
Qed.

Lemma registry_put_wf provider b tr :
  wf (br_config r) b -> Forall (fun t => Legal t.1 t.2) tr ->
  registry_wf (registry_put r provider b tr).
Proof using Hwf.
  destruct Hwf as (Hnd & Hlen & Hall & Htr). intros Hb Hl. unfold registry_wf. simpl.
  rewrite obj_keys_map_pair, length_map. split; [done|]. split; [done|]. split.
  - apply Forall_forall. intros p Hp. apply list_elem_of_In, in_map_iff in Hp as (p0 & <- & Hp).
    rewrite Forall_forall in Hall. apply list_elem_of_In in Hp.
    destruct (provider =? p0.1)%string; [done|by apply Hall].
  - apply Forall_app. split; [done|]. apply Forall_forall. intros t Ht.
    apply list_elem_of_In, in_map_iff in Ht as (t0 & <- & Ht). simpl.
    rewrite Forall_forall in Hl. apply Hl. by apply list_elem_of_In.
Qed.
End RegistryLemmas.

(** Feeding a breaker a sequence of calls of one kind, at the given times. *)
Fixpoint failures_at (config : BreakerConfig) (nows : list num) (b : CircuitBreaker)
    : CircuitBreaker :=
  match nows with
  | [] => b
  | now :: rest => failures_at config rest (recordFailure config now b).1
  end.

Fixpoint allows_at (config : BreakerConfig) (nows : list num) (b : CircuitBreaker)
    : list bool * CircuitBreaker :=
  match nows with
  | [] => ([], b)
  | now :: rest =>
      let '(ok, (b, _)) := allow config now b in
      let '(oks, b) := allows_at config rest b in (ok :: oks, b)
  end.

Definition granted (oks : list bool) : Z := Z.of_nat (length (List.filter id oks)).

Lemma failures_at_open config nows b :
  cb_state b = open -> cb_state (failures_at config nows b) = open.
Proof.
  revert b. induction nows as [|now nows IH]; intros b Hb; simpl; [done|].
  apply IH. unfold recordFailure. by rewrite Hb.
Qed.

(** One step of the registry, whatever the operation. *)
Lemma registry_step_spec op r provider now :
  valid_config (br_config r) = true -> (1 <= br_maxEntries r)%nat -> registry_wf r ->
  let r' := registry_step op r provider now in
  registry_wf r' /\
  own (br_breakers r') provider =
    Some (step (br_config r) op now (default new_breaker (own (br_breakers r) provider))).1 /\
  forall q, q <> provider ->
    own (br_breakers r') q = own (br_breakers r) q \/
    (own (br_breakers r') q = None /\ own (br_breakers r) provider = None /\
     length (br_breakers r) = br_maxEntries r /\ oldest r = Some q).
Proof.
  intros Hv Hm Hwf r'. unfold r', registry_step.
  destruct (registry_get r provider) as [b r1] eqn:Hg.
  destruct (registry_get_spec r Hv Hm Hwf _ _ _ Hg) as (-> & Hc & _ & Hwf1 & Hown & Hq).
  rewrite Hc.
  set (b0 := default new_breaker (own (br_breakers r) provider)) in *.
  assert (Hb0 : wf (br_config r) b0).
  { destruct Hwf1 as (_ & _ & Hall & _). apply own_In in Hown.
    rewrite Forall_forall in Hall. rewrite <- Hc. by apply (Hall (provider, b0)). }
  pose proof (step_wf (br_config r) Hv op now b0 Hb0) as Hs.
  pose proof (fun f t => step_legal (br_config r) op now b0 f t) as Hl.
  destruct (step (br_config r) op now b0) as [b1 tr]. simpl in *. split; [|split].
  - apply registry_put_wf; [done|by rewrite Hc|].
    apply Forall_forall. intros [f t] Ht. by destruct (Hl _ _ Ht).
  - rewrite own_map_pair, String.eqb_refl. by rewrite Hown.
  - intros q Hne. rewrite own_map_pair.
    destruct (String.eqb_spec q provider); [done|]. by apply Hq.
Qed.

(** ** Properties *)

(** [C31] Every reachable breaker is well formed: counters in range, probe slots
    only while half-open and never more than the configured maximum, and a
    closed breaker below its failure threshold. Every transition an operation
    reports starts at the current state and is one of closed to open, open to
    half-open, half-open to closed and half-open to open. *)
Theorem breaker_invariant config b :
  valid_config config = true -> Reachable config b ->
  wf config b /\
  forall op now from to, (from, to) ∈ (step config op now b).2 ->
    Legal from to /\ from = cb_state b.
Proof.
  intros Hv Hr. split; [by apply reachable_wf|]. intros. by eapply step_legal.
Qed.

Lemma breaker_invariant_witness :
  wf DEFAULT_BREAKER_CONFIG
    (step DEFAULT_BREAKER_CONFIG OpForce (num_of_Z 3) new_breaker).1.
Proof.
  refine (proj1 (breaker_invariant DEFAULT_BREAKER_CONFIG _ _ _)).
  - vm_compute. reflexivity.
  - constructor. constructor.
Defined.

(** A closed breaker opens at exactly its threshold: after any sequence of
    consecutive failures it is open if and only if the failures counted so far
    reach [failureThreshold], and otherwise it has counted each of them. *)
Theorem breaker_opens_at_threshold config b nows :
  cb_state b = closed -> cb_failures b < bc_failureThreshold config ->
  let b' := failures_at config nows b in
  let total := cb_failures b + Z.of_nat (length nows) in
  (bc_failureThreshold config <= total -> cb_state b' = open) /\
  (total < bc_failureThreshold config -> cb_state b' = closed /\ cb_failures b' = total).
Proof.
  revert b. induction nows as [|now nows IH]; intros b Hs Hf b' total; subst b' total; simpl.
  { split; intros; [lia|]. split; [done|lia]. }
  unfold recordFailure. rewrite Hs. simpl.
  destruct (bc_failureThreshold config <=? cb_failures b + 1) eqn:Hth; simpl.
  - split; [|lia]. intros _. unfold move. simpl. by apply failures_at_open.
  - destruct (IH (mkBreaker closed (cb_failures b + 1) (cb_openedAt b) (cb_probes b)))
      as [H1 H2]; simpl in *; [done|lia|].
    split; intros; [apply H1; lia|]. destruct H2 as [-> ->]; [lia|]. split; [done|lia].
Qed.

Lemma breaker_opens_at_threshold_witness :
  cb_state (failures_at DEFAULT_BREAKER_CONFIG
    [nzero; nzero; nzero; nzero; nzero] new_breaker) = open.
Proof.
  refine (proj1 (breaker_opens_at_threshold DEFAULT_BREAKER_CONFIG new_breaker
    [nzero; nzero; nzero; nzero; nzero] _ _) _).
  - reflexivity.
  - vm_compute. reflexivity.
  - vm_compute. discriminate.
Defined.

(** Probes are limited: while half-open, any number of consecutive [allow]
    calls at any times grants exactly the smaller of that number and the free
    probe slots, and the breaker stays half-open. *)
Theorem half_open_probe_limit config b nows :
  cb_state b = half_open -> 0 <= cb_probes b <= bc_halfOpenMaxProbes config ->
  let '(oks, b') := allows_at config nows b in
  granted oks = Z.min (Z.of_nat (length nows)) (bc_halfOpenMaxProbes config - cb_probes b) /\
  cb_state b' = half_open.
Proof.
  revert b. induction nows as [|now nows IH]; intros b Hs Hp.
  { simpl. unfold granted. simpl. split; [lia|done]. }
  cbn [allows_at]. unfold allow, currentState. rewrite Hs, Hs.
  destruct (cb_probes b <? bc_halfOpenMaxProbes config) eqn:Hlt.
  - specialize (IH (mkBreaker half_open (cb_failures b) (cb_openedAt b) (cb_probes b + 1))).
    simpl in IH. destruct (allows_at _ _ _) as [oks b']. destruct IH as [IH ?]; [done|lia|].
    split; [|done]. unfold granted in *. simpl. lia.
  - specialize (IH b Hs Hp). destruct (allows_at _ _ _) as [oks b']. destruct IH as [IH ?].
    split; [|done]. unfold granted in *. simpl. lia.
Qed.

Lemma half_open_probe_limit_witness :
  granted (allows_at DEFAULT_BREAKER_CONFIG [nzero; nzero; nzero]
    (mkBreaker half_open 5 nzero 0)).1 = 1.
Proof.
  pose proof (half_open_probe_limit DEFAULT_BREAKER_CONFIG (mkBreaker half_open 5 nzero 0)
    [nzero; nzero; nzero] eq_refl ltac:(vm_compute; split; discriminate)) as H.
  destruct (allows_at _ _ _) as [oks b']. exact (proj1 H).
Defined.

(** The registry isolates providers and stays bounded: an operation on one
    provider keeps the registry well formed (distinct keys, at most
    [maxEntries] breakers, each well formed), applies the operation to that
    provider's breaker only, and leaves every other provider's breaker as it
    was, except that a new provider in a full registry evicts the one least
    recently used. *)
Theorem registry_isolation op r provider now q :
  valid_config (br_config r) = true -> (1 <= br_maxEntries r)%nat -> registry_wf r ->
  q <> provider ->
  let r' := registry_step op r provider now in
  registry_wf r' /\
  own (br_breakers r') provider =
    Some (step (br_config r) op now (default new_breaker (own (br_breakers r) provider))).1 /\
  (own (br_breakers r') q = own (br_breakers r) q \/
   (own (br_breakers r') q = None /\ own (br_breakers r) provider = None /\
    length (br_breakers r) = br_maxEntries r /\ oldest r = Some q)).
Proof.
  intros Hv Hm Hwf Hne r'.
  destruct (registry_step_spec op r provider now Hv Hm Hwf) as (? & ? & Hq).
  split; [done|]. split; [done|]. by apply Hq.
Qed.

Lemma registry_isolation_witness :
  registry_wf (registry_step OpFailure
    (registry_step OpFailure (new_registry DEFAULT_BREAKER_CONFIG 1) "a" nzero) "b" nzero).
Proof.
  refine (proj1 (registry_isolation _ _ "b" _ "a" _ _ _ _)).
  - vm_compute. reflexivity.
  - vm_compute. apply le_n.
  - refine (proj1 (registry_isolation _ _ "a" _ "b" _ _ _ _)).
    + vm_compute. reflexivity.
    + vm_compute. apply le_n.
    + split; [constructor|]. split; [apply le_S, le_n|]. split; constructor.
    + discriminate.
  - discriminate.
Defined.
