(* ===== verification/Failover.v ===== *)
(** * The failover engine

    [classifyFailure], [retryAfterOf], [failureFromError] and [runFailover] of
    [middlewares/psFailover/index.ts].

    A provider call is an arbitrary function on a world that holds the breaker
    registry and the clocks: while the engine awaits the call, other requests
    may use the same registry and time passes, so the call may return any
    world.  [sleep] is the same.  An error is any value with a reading
    [failureOf] as a [FailureInfo]. *)

From Stdlib Require Import ZArith Lia ZifyBool.
From stdpp Require Import base strings option sets pretty list.
From S2P Require Import Prelude JsValue CircuitBreaker.

#[local] Open Scope string_scope.
#[local] Open Scope list_scope.
#[local] Open Scope Z_scope.

(** ** Classification *)

Inductive FailoverAction := retry_after | next_candidate | next_larger_context | raise.
Inductive SkipReason := circuit_open | context_window | non_compliant.

#[export] Instance FailoverAction_eq_dec : EqDecision FailoverAction.
Proof. solve_decision. Defined.
#[export] Instance SkipReason_eq_dec : EqDecision SkipReason.
Proof. solve_decision. Defined.

Record FailureInfo := mkFailure {
  fi_status : option Z;
  fi_kind : option string;
  fi_code : option string;
  fi_message : option string;
  fi_retryAfter : option num
}.

Record Classification := mkClass {
  cl_errorClass : string;
  cl_action : FailoverAction;
  cl_tripsBreaker : bool
}.

Definition CONTENT_FILTER_CODES : list string := ["content_filter"; "content_policy_violation"].

Definition separators : list string := [""; " "; "_"; "-"].

(** [/content[ _-]?(management )?(filter|policy)/i] as its alternatives. *)
Definition content_filter_phrases : list string :=
  flat_map (fun sep => flat_map (fun mid => map (fun last => "content" +:+ sep +:+ mid +:+ last)
    ["filter"; "policy"]) [""; "management "]) separators.

(** [/context[ _-]?(length|window)|prompt is too long|too many (input )?tokens/i] *)
Definition context_phrases : list string :=
  flat_map (fun sep => map (fun last => "context" +:+ sep +:+ last) ["length"; "window"])
    separators ++ ["prompt is too long"; "too many tokens"; "too many input tokens"].

Definition matches_any (phrases : list string) (message : string) : bool :=
  existsb (includes (toLowerCase message)) phrases.

Definition kind_is (info : FailureInfo) (k : string) : bool :=
  match fi_kind info with Some k' => (k' =? k)%string | None => false end.

Definition classify_status (status : Z) : Classification :=
  if (status =? 408) || (status =? 504) then mkClass "timeout" next_candidate true
  else if status =? 429 then mkClass "rate_limited" retry_after true
  else if 500 <=? status then mkClass "server_error" next_candidate true
  else if 400 <=? status then mkClass "client_error" raise false
  else mkClass "unknown_error" raise false.

Definition classifyFailure (info : FailureInfo) : Classification :=
  if kind_is info "stream_interrupted" then mkClass "stream_interrupted" raise true
  else if kind_is info "timeout" then mkClass "timeout" next_candidate true
  else if kind_is info "network" then mkClass "network_error" next_candidate true
  else match fi_status info with
  | None => mkClass "unknown_error" raise false
  | Some status =>
      if status <? 500 then
        let code := toLowerCase (default "" (fi_code info)) in
        let message := default "" (fi_message info) in
        if mem_string code CONTENT_FILTER_CODES || matches_any content_filter_phrases message
        then mkClass "content_filter" raise false
        else if (status =? 413) ||
                ((status =? 400) && ((code =? "context_length_exceeded")%string ||
                                     matches_any context_phrases message))
        then mkClass "context_length_exceeded" next_larger_context false
        else classify_status status
      else classify_status status
  end.

(** [retryAfterOf]: seconds from [retry-after-ms] or [retry-after]; [parseDate]
    is [Date.parse] (milliseconds, NaN when it cannot parse). *)
Definition retryAfterOf (get : string -> option string) (parseDate : string -> num)
    (now : num) : option num :=
  let fallback :=
    match get "retry-after" with
    | None => None
    | Some value =>
        if negb (truthy_string (trim value)) then None
        else if negb (is_nan (to_number value)) then Some (nmax nzero (to_number value))
        else let when := parseDate value in
             if is_nan when then None
             else Some (nmax nzero (ndiv (nsub when now) (num_of_Z 1000)))
    end in
  match get "retry-after-ms" with
  | Some ms =>
      if truthy_string (trim ms) && negb (is_nan (to_number ms))
      then Some (nmax nzero (ndiv (to_number ms) (num_of_Z 1000)))
      else fallback
  | None => fallback
  end.

(** What a provider call may throw. *)
Inductive JsError :=
| UpstreamError (info : FailureInfo)
| TypeErrorOf (message : string)
| NamedError (name : string)
| OtherThrown.

(** [/fetch|network|socket/i] *)
Definition network_phrases : list string := ["fetch"; "network"; "socket"].

Definition failureFromError (err : JsError) : FailureInfo :=
  match err with
  | UpstreamError info => info
  | NamedError name =>
      if (name =? "AbortError")%string || (name =? "TimeoutError")%string
      then mkFailure None (Some "timeout") None None None
      else mkFailure None None None None None
  | TypeErrorOf message =>
      if matches_any network_phrases message
      then mkFailure None (Some "network") None None None
      else mkFailure None None None None None
  | OtherThrown => mkFailure None None None None None
  end.

(** ** The engine *)

Record Candidate := mkCand {
  ca_provider : string;
  ca_model : string;
  ca_contextWindow : option num
}.

Record FailoverAttempt := mkAttempt {
  fa_provider : string;
  fa_model : string;
  fa_ok : bool;
  fa_latency_ms : num;
  fa_error_class : option string;
  fa_status : option Z
}.

Record Skipped := mkSkipped { sk_provider : string; sk_model : string; sk_reason : SkipReason }.

Definition chainOf (attempts : list FailoverAttempt) : list string :=
  omap (fun a => if fa_ok a then None else
    match fa_error_class a with
    | Some c => if truthy_string c then Some c else None
    | None => None end) attempts.

Record World := mkWorld {
  w_breakers : BreakerRegistry;
  w_now : num;      (** the breakers' clock, in seconds *)
  w_dateNow : num   (** [Date.now()], in milliseconds *)
}.

Definition with_breakers (w : World) (r : BreakerRegistry) : World :=
  mkWorld r (w_now w) (w_dateNow w).

Section Engine.
Context {Resp Err : Type}.

Record FailoverOptions := mkOptions {
  fo_maxWait : num;
  fo_rateLimitRetries : Z;
  fo_allow : option (Candidate -> bool);
  fo_failureOf : Err -> FailureInfo;
  fo_sleep : num -> World -> World
}.

Variable call : Candidate -> World -> result Err Resp * World.
Variable opts : FailoverOptions.

(** The engine's local variables. *)
Record Run := mkRun {
  ru_queue : list Candidate;
  ru_attempts : list FailoverAttempt;
  ru_skipped : list Skipped;
  ru_minWindow : option num;
  ru_lastError : option Err;
  ru_world : World
}.

Record FailoverResult := mkResult {
  fr_response : Resp;
  fr_candidate : Candidate;
  fr_attempts : list FailoverAttempt;
  fr_skipped : list Skipped;
  fr_fallbackChain : list string
}.

(** A result, the error rethrown as is (with the attempts attached), or
    [NoCompliantCandidate]. *)
Inductive FailoverOutcome :=
| Served (res : FailoverResult)
| Raised (err : Err) (attempts : list FailoverAttempt) (skipped : list Skipped)
| NoCompliantCandidate (message : string) (attempts : list FailoverAttempt)
    (skipped : list Skipped) (lastError : option Err).

Definition too_small (minWindow : option num) (c : Candidate) : bool :=
  match minWindow with
  | Some m => match ca_contextWindow c with None => true | Some w => nleb w m end
  | None => false
  end.

Definition rejected (c : Candidate) : bool :=
  match fo_allow opts with Some allow => negb (allow c) | None => false end.

Definition skip (c : Candidate) (reason : SkipReason) : Skipped :=
  mkSkipped (ca_provider c) (ca_model c) reason.

(** [next()]: the next usable candidate; the others are recorded as skipped.
    The breaker is asked last, since asking may take a probe slot. *)
Fixpoint next_loop (queue : list Candidate) (skipped : list Skipped)
    (minWindow : option num) (w : World)
    : option Candidate * (list Candidate * list Skipped * World) :=
  match queue with
  | [] => (None, ([], skipped, w))
  | c :: rest =>
      if rejected c then
        next_loop rest (skipped ++ [skip c non_compliant]) minWindow w
      else if too_small minWindow c then
        next_loop rest (skipped ++ [skip c context_window]) minWindow w
      else
        let '(ok, r) := registry_allow (w_breakers w) (ca_provider c) (w_now w) in
        let w := with_breakers w r in
        if (ok : bool) then (Some c, (rest, skipped, w))
        else next_loop rest (skipped ++ [skip c circuit_open]) minWindow w
  end.

Definition next (run : Run) : option Candidate * Run :=
  let '(c, (queue, skipped, w)) :=
    next_loop (ru_queue run) (ru_skipped run) (ru_minWindow run) (ru_world run) in
  (c, mkRun queue (ru_attempts run) skipped (ru_minWindow run) (ru_lastError run) w).

Definition record (op : Op) (w : World) (provider : string) : World :=
  with_breakers w (registry_step op (w_breakers w) provider (w_now w)).

(** After a rate limit: [Some w] when the same candidate is tried again, in
    the world after the wait; [None] with the world after asking. *)
Definition retry_same (verdict : Classification) (info : FailureInfo) (retries : Z)
    (c : Candidate) (w : World) : option World * World :=
  match cl_action verdict, fi_retryAfter info with
  | retry_after, Some wait =>
      if nleb wait (fo_maxWait opts) && (retries <? fo_rateLimitRetries opts) then
        let '(ok, r) := registry_allow (w_breakers w) (ca_provider c) (w_now w) in
        let w := with_breakers w r in
        if (ok : bool) then (Some (fo_sleep opts wait w), w) else (None, w)
      else (None, w)
  | _, _ => (None, w)
  end.

Definition raise_window (verdict : Classification) (c : Candidate)
    (minWindow : option num) : option num :=
  match cl_action verdict with
  | next_larger_context =>
      Some (nmax (default nzero minWindow) (default nzero (ca_contextWindow c)))
  | _ => minWindow
  end.

Definition reason_name (r : SkipReason) : string :=
  match r with circuit_open => "circuit_open" | context_window => "context_window"
              | non_compliant => "non_compliant" end.

Fixpoint join (sep : string) (l : list string) : string :=
  match l with
  | [] => ""
  | [x] => x
  | x :: r => x +:+ sep +:+ join sep r
  end.

Definition failure_parts (run : Run) : list string :=
  map (fun a => fa_provider a +:+ "/" +:+ fa_model a +:+ ": " +:+
                default "undefined" (fa_error_class a))
      (List.filter (fun a => negb (fa_ok a)) (ru_attempts run)) ++
  map (fun s => sk_provider s +:+ "/" +:+ sk_model s +:+ ": skipped (" +:+
                reason_name (sk_reason s) +:+ ")") (ru_skipped run).

Definition give_up_message (run : Run) : string :=
  match failure_parts run with
  | [] => "no compliant candidate to serve the call; failing closed"
  | parts => "no compliant candidate left after " +:+ pretty (length (ru_attempts run)) +:+
             " attempt(s); failing closed (" +:+ join "; " parts +:+ ")"
  end.

Definition no_candidate_left (run : Run) : FailoverOutcome :=
  NoCompliantCandidate (give_up_message run) (ru_attempts run) (ru_skipped run)
    (ru_lastError run).

(** The body of [while (c)]; [None] when the fuel is spent. *)
Fixpoint loop (fuel : nat) (c : option Candidate) (retries : Z) (run : Run)
    : option (FailoverOutcome * World) :=
  match c with
  | None => Some (no_candidate_left run, ru_world run)
  | Some c =>
  match fuel with
  | O => None
  | S fuel =>
      let start := w_dateNow (ru_world run) in
      let '(res, w) := call c (ru_world run) in
      let latency := nsub (w_dateNow w) start in
      match res with
      | Ok response =>
          let w := record OpSuccess w (ca_provider c) in
          let attempts := ru_attempts run ++
            [mkAttempt (ca_provider c) (ca_model c) true latency None None] in
          Some (Served (mkResult response c attempts (ru_skipped run) (chainOf attempts)), w)
      | Throw err =>
          let info := fo_failureOf opts err in
          let verdict := classifyFailure info in
          let w := record (if cl_tripsBreaker verdict then OpFailure else OpRelease)
                     w (ca_provider c) in
          let attempts := ru_attempts run ++
            [mkAttempt (ca_provider c) (ca_model c) false latency
               (Some (cl_errorClass verdict)) (fi_status info)] in
          match cl_action verdict with
          | raise => Some (Raised err attempts (ru_skipped run), w)
          | _ =>
              match retry_same verdict info retries c w with
              | (Some w, _) =>
                  loop fuel (Some c) (retries + 1)
                    (mkRun (ru_queue run) attempts (ru_skipped run) (ru_minWindow run)
                       (Some err) w)
              | (None, w) =>
                  let '(c', run') := next
                    (mkRun (ru_queue run) attempts (ru_skipped run)
                       (raise_window verdict c (ru_minWindow run)) (Some err) w) in
                  loop fuel c' 0 run'
              end
          end
      end
  end
  end.

(** Calls each candidate at most [1 + rateLimitRetries] times. *)
Definition tries_per_candidate : nat := S (Z.to_nat (fo_rateLimitRetries opts)).

Definition enough_fuel (candidates : list Candidate) : nat :=
  (length candidates * tries_per_candidate)%nat.

Definition runFailover (candidates : list Candidate) (w : World)
    : option (FailoverOutcome * World) :=
  let '(c, run) := next (mkRun candidates [] [] None None w) in
  loop (enough_fuel candidates) c 0 run.
End Engine.

Arguments FailoverOptions : clear implicits.
Arguments FailoverResult : clear implicits.
Arguments FailoverOutcome : clear implicits.
Arguments Run : clear implicits.

(** ** What a run accounts for: the abstract specification

    Each candidate, in order, meets one fate: it is skipped for a reason, or
    tried a number of times.  The attempts and skips a run reports are those of
    the fates. *)

Inductive Fate :=
| FSkip (reason : SkipReason)
| FTry (tries : list FailoverAttempt).

Definition fate_attempts (p : Candidate * Fate) : list FailoverAttempt :=
  match p.2 with FTry l => l | FSkip _ => [] end.

Definition fate_skips (p : Candidate * Fate) : list Skipped :=
  match p.2 with FSkip r => [skip p.1 r] | FTry _ => [] end.

Definition all_attempts (fates : list (Candidate * Fate)) : list FailoverAttempt :=
  concat (map fate_attempts fates).
Definition all_skips (fates : list (Candidate * Fate)) : list Skipped :=
  concat (map fate_skips fates).

(** Error classes that let the engine go on. *)
Definition retryable_class (a : FailoverAttempt) : Prop :=
  fa_ok a = false /\
  exists k, fa_error_class a = Some k /\
    k ∈ ["timeout"; "network_error"; "rate_limited"; "server_error"; "context_length_exceeded"].

Definition hit_context (l : list FailoverAttempt) : Prop :=
  exists a, a ∈ l /\ fa_error_class a = Some "context_length_exceeded".

Definition window_of (c : Candidate) : num := default nzero (ca_contextWindow c).

Section FailoverSpec.
Context {Resp Err : Type} (opts : FailoverOptions Err).

Definition fate_ok (p : Candidate * Fate) : Prop :=
  match p.2 with
  | FSkip r => r = non_compliant <-> rejected opts p.1 = true
  | FTry l => rejected opts p.1 = false /\ l <> [] /\
      (length l <= tries_per_candidate opts)%nat /\
      Forall (fun a => fa_provider a = ca_provider p.1 /\ fa_model a = ca_model p.1) l
  end.

(** A candidate tried after a context-length failure has a known, strictly
    larger window than the one that failed. *)
Definition windows_grow (fates : list (Candidate * Fate)) : Prop :=
  forall i j c l c' l', (i < j)%nat -> fates !! i = Some (c, FTry l) ->
    fates !! j = Some (c', FTry l') -> hit_context l ->
    exists w, ca_contextWindow c' = Some w /\ nltb (window_of c) w = true.

Definition accounted (fates : list (Candidate * Fate)) : Prop :=
  Forall fate_ok fates /\ windows_grow fates.

Inductive ServedBy (candidates : list Candidate) : FailoverOutcome Resp Err -> Prop :=
| served_by fates rest c before a res :
    accounted fates -> map fst fates ++ rest = candidates ->
    last (map fst fates) = Some c ->
    all_attempts fates = before ++ [a] -> Forall retryable_class before ->
    fa_ok a = true -> fr_attempts res = before ++ [a] ->
    fr_skipped res = all_skips fates -> fr_candidate res = c ->
    ServedBy candidates (Served res)
| raised_by fates rest before a err :
    accounted fates -> map fst fates ++ rest = candidates ->
    all_attempts fates = before ++ [a] -> Forall retryable_class before ->
    fa_ok a = false ->
    fa_error_class a = Some (cl_errorClass (classifyFailure (fo_failureOf opts err))) ->
    cl_action (classifyFailure (fo_failureOf opts err)) = raise ->
    ServedBy candidates (Raised err (before ++ [a]) (all_skips fates))
| exhausted fates message lastError :
    accounted fates -> map fst fates = candidates ->
    Forall retryable_class (all_attempts fates) ->
    ServedBy candidates
      (NoCompliantCandidate message (all_attempts fates) (all_skips fates) lastError).
End FailoverSpec.

(** ** Lemmas *)

Lemma classify_retryable info :
  let v := classifyFailure info in
  cl_action v <> raise ->
  cl_errorClass v ∈
    ["timeout"; "network_error"; "rate_limited"; "server_error"; "context_length_exceeded"].
Proof.
  intros v. subst v. unfold classifyFailure, classify_status.
  repeat (simpl; case_match); simpl; intros ?; try done; set_solver.
Qed.

Lemma classify_context info :
  cl_errorClass (classifyFailure info) = "context_length_exceeded" ->
  cl_action (classifyFailure info) = next_larger_context.
Proof.
  unfold classifyFailure, classify_status.
  repeat (simpl; case_match); simpl; done.
Qed.

Lemma all_attempts_app f g : all_attempts (f ++ g) = all_attempts f ++ all_attempts g.
Proof. unfold all_attempts. by rewrite map_app, concat_app. Qed.

Lemma all_skips_app f g : all_skips (f ++ g) = all_skips f ++ all_skips g.
Proof. unfold all_skips. by rewrite map_app, concat_app. Qed.

Lemma not_raised {A} act (x t : A) :
  act <> raise -> match act with raise => x | _ => t end = t.
Proof. by destruct act. Qed.

Section FailoverLemmas.
Context {Resp Err : Type} (opts : FailoverOptions Err).

Lemma next_loop_spec queue skipped mw w c queue' skipped' w' :
  next_loop opts queue skipped mw w = (c, (queue', skipped', w')) ->
  exists skips : list (Candidate * SkipReason),
    skipped' = skipped ++ map (fun p => skip p.1 p.2) skips /\
    queue = map fst skips ++ match c with Some c => c :: queue' | None => [] end /\
    Forall (fun p => p.2 = non_compliant <-> rejected opts p.1 = true) skips /\
    match c with
    | Some c => rejected opts c = false /\ too_small mw c = false
    | None => queue' = []
    end.
Proof.
  revert skipped w. induction queue as [|q queue IH]; intros skipped w; simpl.
  { intros [= <- <- <- <-]. exists []. simpl. by rewrite app_nil_r. }
  assert (Hstep : forall reason w0,
    (reason = non_compliant <-> rejected opts q = true) ->
    next_loop opts queue (skipped ++ [skip q reason]) mw w0 = (c, (queue', skipped', w')) ->
    exists skips : list (Candidate * SkipReason),
      skipped' = skipped ++ map (fun p => skip p.1 p.2) skips /\
      q :: queue = map fst skips ++ match c with Some c => c :: queue' | None => [] end /\
      Forall (fun p => p.2 = non_compliant <-> rejected opts p.1 = true) skips /\
      match c with
      | Some c => rejected opts c = false /\ too_small mw c = false
      | None => queue' = []
      end).
  { intros reason w0 Hr (skips & -> & -> & Hall & Hc)%IH.
    exists ((q, reason) :: skips). simpl. rewrite <- app_assoc. repeat split; [|done].
    by constructor. }
  destruct (rejected opts q) eqn:Hrej; [by apply Hstep|].
  destruct (too_small mw q) eqn:Hts; [by apply Hstep|].
  destruct (registry_allow _ _ _) as [[] r]; [|by apply Hstep].
  intros [= <- <- <- <-]. exists []. simpl. by rewrite app_nil_r.
Qed.

Lemma retry_same_spec verdict info retries c w w1 w2 :
  retry_same opts verdict info retries c w = (Some w1, w2) ->
  cl_action verdict = retry_after /\ retries < fo_rateLimitRetries opts.
Proof.
  unfold retry_same. destruct (cl_action verdict); try done.
  destruct (fi_retryAfter info); [|done]. destruct (_ && _) eqn:Hg; [|done].
  split_bool. intros _. split; [done|lia].
Qed.

(** The fates of skipped candidates. *)
Definition skip_fates (skips : list (Candidate * SkipReason)) : list (Candidate * Fate) :=
  map (fun p => (p.1, FSkip p.2)) skips.

Lemma skip_fates_facts skips :
  map fst (skip_fates skips) = map fst skips /\
  all_attempts (skip_fates skips) = [] /\
  all_skips (skip_fates skips) = map (fun p => skip p.1 p.2) skips.
Proof.
  unfold skip_fates, all_attempts, all_skips. rewrite !map_map. simpl.
  induction skips as [|[c r] skips (_ & IH2 & IH3)]; simpl in *; [done|].
  by rewrite IH2, IH3.
Qed.

Lemma skip_fates_ok skips :
  Forall (fun p => p.2 = non_compliant <-> rejected opts p.1 = true) skips ->
  Forall (fate_ok opts) (skip_fates skips).
Proof. intros H. by apply Forall_map. Qed.

Lemma windows_grow_skips fates skips :
  windows_grow fates -> windows_grow (fates ++ skip_fates skips).
Proof.
  intros H i j c l c' l' Hij Hi Hj Hl.
  assert (Hnot : forall k x t, (length fates <= k)%nat ->
    (fates ++ skip_fates skips) !! k = Some (x, FTry t) -> False).
  { intros k x t Hk Hx. rewrite lookup_app_r in Hx by lia.
    apply list_elem_of_lookup_2 in Hx. unfold skip_fates in Hx.
    apply list_elem_of_In, in_map_iff in Hx as ([] & [=] & _). }
  destruct (decide (j < length fates)%nat) as [Hj'|Hj'].
  - rewrite lookup_app_l in Hi, Hj by lia. by eapply (H i j).
  - exfalso. eapply Hnot; [|exact Hj]. lia.
Qed.

(** Invariant between two calls: [fates] for the candidates done with, [c]
    the current one with its [tries] so far. *)
Record LoopInv (candidates : list Candidate) (fates : list (Candidate * Fate))
    (c : Candidate) (tries : list FailoverAttempt) (retries : Z) (run : Run Err) : Prop := {
  li_fates : accounted opts fates;
  li_order : map fst fates ++ c :: ru_queue run = candidates;
  li_allowed : rejected opts c = false;
  li_attempts : ru_attempts run = all_attempts fates ++ tries;
  li_skipped : ru_skipped run = all_skips fates;
  li_retryable : Forall retryable_class (ru_attempts run);
  li_tries : Forall (fun a => fa_provider a = ca_provider c /\ fa_model a = ca_model c) tries;
  li_retries : Z.of_nat (length tries) = retries /\
               retries <= Z.max 0 (fo_rateLimitRetries opts);
  li_no_context : ~ hit_context tries;
  li_window : forall c' l, (c', FTry l) ∈ fates -> hit_context l ->
    exists m, ru_minWindow run = Some m /\ nleb (window_of c') m = true;
  li_window_nan : forall m, ru_minWindow run = Some m -> is_nan m = false;
  li_fits : too_small (ru_minWindow run) c = false
}.

Definition windows_known (candidates : list Candidate) : Prop :=
  forall c w, c ∈ candidates -> ca_contextWindow c = Some w -> is_nan w = false.

(** The fates once the current candidate is done with its last attempt. *)
Lemma close_candidate candidates fates c tries retries run a :
  windows_known candidates ->
  LoopInv candidates fates c tries retries run ->
  fa_provider a = ca_provider c /\ fa_model a = ca_model c ->
  accounted opts (fates ++ [(c, FTry (tries ++ [a]))]).
Proof.
  intros Hnan [[Hok Hgrow] Hord Hall Hatt Hsk Hret Htries [Hlen Hmax] Hnc Hw Hwn Hfit] Ha.
  split.
  - apply Forall_app. split; [done|]. constructor; [|constructor]. simpl.
    split; [done|]. split; [by destruct tries|]. split.
    + rewrite length_app. simpl. unfold tries_per_candidate. lia.
    + apply Forall_app. split; [done|]. by constructor.
  - intros i j c1 l1 c2 l2 Hij Hi Hj Hctx.
    destruct (decide (j < length fates)%nat) as [Hj'|Hj'].
    { rewrite lookup_app_l in Hi, Hj by lia. by eapply (Hgrow i j). }
    assert (j = length fates) as ->.
    { apply lookup_lt_Some in Hj. rewrite length_app in Hj. simpl in Hj. lia. }
    rewrite lookup_app_l in Hi by lia.
    rewrite list_lookup_middle in Hj by done. injection Hj as <- <-.
    apply list_elem_of_lookup_2 in Hi. destruct (Hw _ _ Hi Hctx) as (m & Hm & Hle).
    unfold too_small in Hfit. rewrite Hm in Hfit.
    destruct (ca_contextWindow c) as [w|] eqn:Hcw; [|done]. exists w. split; [done|].
    assert (Hwnan : is_nan w = false).
    { eapply (Hnan c); [|done]. rewrite <- Hord. set_solver. }
    specialize (Hwn _ Hm). num_order.
Qed.
End FailoverLemmas.

Section FailoverLoop.
Context {Resp Err : Type} (opts : FailoverOptions Err) (candidates : list Candidate).
Context (Hnan : windows_known candidates).

(** Invariant when the engine looks for its next candidate. *)
Record IdleInv (fates : list (Candidate * Fate)) (run : Run Err) : Prop := {
  ii_fates : accounted opts fates;
  ii_order : map fst fates ++ ru_queue run = candidates;
  ii_attempts : ru_attempts run = all_attempts fates;
  ii_skipped : ru_skipped run = all_skips fates;
  ii_retryable : Forall retryable_class (ru_attempts run);
  ii_window : forall c' l, (c', FTry l) ∈ fates -> hit_context l ->
    exists m, ru_minWindow run = Some m /\ nleb (window_of c') m = true;
  ii_window_nan : forall m, ru_minWindow run = Some m -> is_nan m = false
}.

Lemma next_inv fates run c run' :
  IdleInv fates run -> next opts run = (c, run') ->
  exists fates',
    match c with
    | Some c => LoopInv opts candidates fates' c [] 0 run' /\
        (length (ru_queue run') < length (ru_queue run))%nat
    | None => accounted opts fates' /\ map fst fates' = candidates /\
        ru_attempts run' = all_attempts fates' /\ ru_skipped run' = all_skips fates' /\
        Forall retryable_class (ru_attempts run')
    end.
Proof using Hnan.
  intros [[Hok Hgrow] Hord Hatt Hsk Hret Hw Hwn]. unfold next.
  destruct (next_loop _ _ _ _ _) as [c0 [[queue skipped] w]] eqn:Hn.
  intros [= <- <-]. apply next_loop_spec in Hn as (skips & -> & Hq & Hall & Hc).
  destruct (skip_fates_facts skips) as (F1 & F2 & F3).
  exists (fates ++ skip_fates skips).
  assert (Hacc : accounted opts (fates ++ skip_fates skips)).
  { split; [|by apply windows_grow_skips].
    apply Forall_app. split; [done|]. by apply skip_fates_ok. }
  destruct c0 as [c|]; simpl.
  - destruct Hc as [Hrej Hts]. split; [|rewrite Hq, length_app; simpl; lia].
    split; simpl; try done.
    + rewrite map_app, F1. rewrite <- Hord, Hq. by rewrite <- app_assoc.
    + rewrite all_attempts_app, F2, !app_nil_r. done.
    + by rewrite all_skips_app, F3, Hsk.
    + split; [done|lia].
    + intros (a & Ha & _). by apply elem_of_nil in Ha.
    + intros c' l [Hin|Hin]%elem_of_app Hctx; [by eapply Hw|].
      unfold skip_fates in Hin. by apply list_elem_of_In, in_map_iff in Hin as ([] & [=] & _).
  - split; [done|]. split; [|split; [|split]].
    + rewrite map_app, F1. rewrite <- Hord, Hq. by rewrite app_nil_r.
    + by rewrite all_attempts_app, F2, app_nil_r.
    + by rewrite all_skips_app, F3, Hsk.
    + done.
Qed.

Lemma all_attempts_close fates c l :
  all_attempts (fates ++ [(c, FTry l)]) = all_attempts fates ++ l.
Proof. rewrite all_attempts_app. unfold all_attempts. simpl. by rewrite app_nil_r. Qed.

Lemma all_skips_close fates c l : all_skips (fates ++ [(c, FTry l)]) = all_skips fates.
Proof. rewrite all_skips_app. unfold all_skips. simpl. by rewrite app_nil_r. Qed.

(** The run after a failure that moves on: the engine is idle again. *)
Lemma fail_idle fates c tries retries run a info err w :
  LoopInv opts candidates fates c tries retries run ->
  let verdict := classifyFailure info in
  fa_provider a = ca_provider c -> fa_model a = ca_model c -> fa_ok a = false ->
  fa_error_class a = Some (cl_errorClass verdict) -> cl_action verdict <> raise ->
  IdleInv (fates ++ [(c, FTry (tries ++ [a]))])
    (mkRun (ru_queue run) (ru_attempts run ++ [a]) (ru_skipped run)
       (raise_window verdict c (ru_minWindow run)) (Some err : option Err) w).
Proof using Hnan.
  intros Hinv verdict Hp Hm Hok Hcls Hact.
  pose proof (close_candidate opts _ _ _ _ _ _ a Hnan Hinv (conj Hp Hm)) as Hacc.
  pose proof Hinv as [_ Hord _ Hatt Hsk Hret _ _ Hnc Hw Hwn _].
  assert (Hwc : is_nan (window_of c) = false).
  { unfold window_of. destruct (ca_contextWindow c) as [x|] eqn:Hx; [|done]. simpl.
    eapply (Hnan c); [|done]. rewrite <- Hord. set_solver. }
  assert (Hbase : is_nan (default nzero (ru_minWindow run)) = false).
  { destruct (ru_minWindow run) as [x|] eqn:Hx; simpl; [by apply Hwn|done]. }
  split; simpl; try done.
  - rewrite map_app. simpl. by rewrite <- app_assoc.
  - by rewrite all_attempts_close, Hatt, app_assoc.
  - by rewrite all_skips_close.
  - apply Forall_app. split; [done|]. constructor; [|constructor].
    split; [done|]. eexists. split; [done|]. by apply classify_retryable.
  - intros c' l Hin Hctx. unfold raise_window. apply elem_of_app in Hin as [Hin|Hin].
    + destruct (Hw _ _ Hin Hctx) as (m & Hm' & Hle).
      destruct (cl_action verdict); eauto. eexists. split; [done|].
      rewrite Hm' in *. simpl in *. fold (window_of c).
      eapply nleb_trans; [exact Hle|]. by apply nmax_ge_l.
    + apply list_elem_of_singleton in Hin. injection Hin as -> ->.
      destruct Hctx as (a' & [Ha'|Ha']%elem_of_app & Hcls').
      { exfalso. apply Hnc. by exists a'. }
      apply list_elem_of_singleton in Ha' as ->. rewrite Hcls in Hcls'.
      injection Hcls' as Hcls'. apply classify_context in Hcls'.
      fold verdict in Hcls'. rewrite Hcls'. eexists. split; [done|].
      fold (window_of c). by apply nmax_ge_r.
  - intros m. unfold raise_window. destruct (cl_action verdict); try apply Hwn.
    intros [= <-]. fold (window_of c). by apply nmax_not_nan.
Qed.

Variable call : Candidate -> World -> result Err Resp * World.

Definition fuel_needed (queue : nat) (retries : Z) : nat :=
  (queue * tries_per_candidate opts + (tries_per_candidate opts - Z.to_nat retries))%nat.

Lemma loop_served fuel fates c tries retries run :
  LoopInv opts candidates fates c tries retries run ->
  (fuel_needed (length (ru_queue run)) retries <= fuel)%nat ->
  exists out w, loop call opts fuel (Some c) retries run = Some (out, w) /\
    ServedBy opts candidates out.
Proof using Hnan.
  revert fates c tries retries run. induction fuel as [|fuel IH];
    intros fates c tries retries run Hinv Hfuel.
  { exfalso. pose proof (li_retries _ _ _ _ _ _ _ Hinv) as [? ?].
    unfold fuel_needed, tries_per_candidate in Hfuel. lia. }
  pose proof Hinv as [Hacc Hord Hrej Hatt Hsk Hret Htries [Hlen Hmax] Hnc Hw Hwn Hfit].
  cbn [loop]. destruct (call c (ru_world run)) as [res w].
  destruct res as [response|err].
  - set (a := mkAttempt _ _ true _ _ _). eexists _, _. split; [done|].
    apply (served_by opts candidates (fates ++ [(c, FTry (tries ++ [a]))])
             (ru_queue run) c (all_attempts fates ++ tries) a); simpl; try done.
    + by eapply close_candidate.
    + rewrite map_app. simpl. by rewrite <- app_assoc.
    + rewrite map_app. simpl. by rewrite last_snoc.
    + by rewrite all_attempts_close, app_assoc.
    + by rewrite <- Hatt.
    + by rewrite Hatt.
    + by rewrite all_skips_close.
  - set (info := fo_failureOf opts err). set (verdict := classifyFailure info).
    set (a := mkAttempt _ _ false _ _ _).
    destruct (decide (cl_action verdict = raise)) as [Hraise|Hgo].
    { rewrite Hraise. eexists _, _. split; [done|].
      rewrite Hatt, <- app_assoc, app_assoc, Hsk.
      rewrite <- (all_skips_close fates c (tries ++ [a])).
      apply (raised_by opts candidates _ (ru_queue run)); try done.
      - by eapply close_candidate.
      - rewrite map_app. simpl. by rewrite <- app_assoc.
      - by rewrite all_attempts_close, app_assoc.
      - by rewrite <- Hatt. }
    rewrite (not_raised _ _ _ Hgo).
    destruct (retry_same opts verdict info retries c _) as [[w1|] w2] eqn:Hretry.
    + apply (IH fates c (tries ++ [a])).
      * apply retry_same_spec in Hretry as [Hact Hlt].
        split; simpl; try done.
        -- by rewrite Hatt, app_assoc.
        -- apply Forall_app. split; [done|]. constructor; [|constructor].
           split; [done|]. eexists. split; [done|]. by apply classify_retryable.
        -- apply Forall_app. split; [done|]. by constructor.
        -- rewrite length_app. simpl. lia.
        -- intros (a' & [Ha'|Ha']%elem_of_app & Hcls); [apply Hnc; by exists a'|].
           apply list_elem_of_singleton in Ha' as ->. injection Hcls as Hcls.
           apply classify_context in Hcls. fold verdict in Hcls. congruence.
      * simpl. apply retry_same_spec in Hretry as [_ Hlt].
        unfold fuel_needed, tries_per_candidate in *. lia.
    + pose proof (fail_idle _ _ _ _ _ a info err w2 Hinv eq_refl eq_refl eq_refl eq_refl Hgo)
        as Hidle.
      destruct (next opts _) as [c' run'] eqn:Hn.
      destruct (next_inv _ _ _ _ Hidle Hn) as (fates' & Hnext).
      destruct c' as [c'|].
      * destruct Hnext as [Hinv' Hq]. apply (IH fates' c' [] 0); [done|].
        simpl in Hq. unfold fuel_needed, tries_per_candidate in *. simpl. nia.
      * destruct Hnext as (Hacc' & Hord' & Hatt' & Hsk' & Hret').
        eexists _, _. split; [by destruct fuel|].
        unfold no_candidate_left. rewrite Hatt', Hsk'. constructor; try done.
        by rewrite <- Hatt'.
Qed.
End FailoverLoop.

Section FailoverRun.
Context {Resp Err : Type} (opts : FailoverOptions Err).
Variable call : Candidate -> World -> result Err Resp * World.

Lemma runFailover_served candidates w :
  windows_known candidates ->
  exists out w', runFailover call opts candidates w = Some (out, w') /\
    ServedBy opts candidates out.
Proof.
  intros Hnan. unfold runFailover.
  destruct (next opts _) as [c run] eqn:Hn.
  assert (Hidle : IdleInv opts candidates [] (mkRun candidates [] [] None (None : option Err) w)).
  { split; simpl; try done; try (by constructor).
    intros c' l Hin. by apply elem_of_nil in Hin. }
  destruct (next_inv opts candidates Hnan _ _ _ _ Hidle Hn) as (fates & Hnext).
  destruct c as [c|].
  - destruct Hnext as [Hinv Hq]. eapply loop_served; [done|done|].
    simpl in Hq. unfold fuel_needed, enough_fuel, tries_per_candidate. nia.
  - destruct Hnext as (Hacc & Hord & Hatt & Hsk & Hret).
    do 2 eexists. split; [by destruct (enough_fuel opts candidates)|].
    unfold no_candidate_left. rewrite Hatt, Hsk. constructor; try done.
    by rewrite <- Hatt.
Qed.
End FailoverRun.

(** The attempts an outcome reports, and whether it is the rethrown error. *)
Definition outcome_attempts {Resp Err} (out : FailoverOutcome Resp Err)
    : list FailoverAttempt :=
  match out with
  | Served res => fr_attempts res
  | Raised _ attempts _ => attempts
  | NoCompliantCandidate _ attempts _ _ => attempts
  end.

Definition is_raised {Resp Err} (out : FailoverOutcome Resp Err) : bool :=
  match out with Raised _ _ _ => true | _ => false end.

Lemma accounted_attempt {Err} (opts : FailoverOptions Err) fates a :
  accounted opts fates -> a ∈ all_attempts fates ->
  exists c, c ∈ map fst fates /\ rejected opts c = false /\
    fa_provider a = ca_provider c /\ fa_model a = ca_model c.
Proof.
  intros [Hok _] Ha. unfold all_attempts in Ha.
  apply list_elem_of_In, in_concat in Ha as (l & Hl & Ha).
  apply in_map_iff in Hl as ([c f] & <- & Hin).
  rewrite Forall_forall in Hok. apply list_elem_of_In in Hin.
  specialize (Hok _ Hin). destruct f as [r|l]; [done|]. simpl in *.
  destruct Hok as (Hrej & _ & _ & Hall). rewrite Forall_forall in Hall.
  destruct (Hall a) as [? ?]; [by apply list_elem_of_In|]. exists c. split; [|done].
  apply list_elem_of_In, in_map_iff. exists (c, FTry l). by rewrite <- list_elem_of_In.
Qed.

Lemma served_attempts {Resp Err} (opts : FailoverOptions Err) candidates
    (out : FailoverOutcome Resp Err) :
  ServedBy opts candidates out ->
  exists fates rest, accounted opts fates /\ map fst fates ++ rest = candidates /\
    outcome_attempts out = all_attempts fates.
Proof.
  destruct 1 as [fates rest c before a res Hacc Hord _ Hatt _ _ Hres _ _
                |fates rest before a err Hacc Hord Hatt _ _ _ _
                |fates message lastError Hacc Hord _].
  - exists fates, rest. simpl. by rewrite Hres, Hatt.
  - exists fates, rest. by rewrite Hatt.
  - exists fates, []. by rewrite app_nil_r.
Qed.

(** ** Properties *)

(** [C28] The engine terminates and refines its specification, whatever the
    provider calls return and whatever else happens to the shared breakers
    while they run: every run yields a result within the fuel of one call per
    candidate and allowed retry, the reported attempts and skips are exactly
    those of an in-order account of the candidates (each skipped for its reason,
    or tried at least once and at most [1 + rateLimitRetries] times), every
    attempt before the last failed with a class that allows going on, and after
    a context-length failure only candidates with a known larger window are
    tried. *)
Theorem failover_refines_account {Resp Err} (opts : FailoverOptions Err)
    (call : Candidate -> World -> result Err Resp * World) candidates w :
  windows_known candidates ->
  exists out w', runFailover call opts candidates w = Some (out, w') /\
    ServedBy opts candidates out.
Proof. apply runFailover_served. Qed.

Module SampleFailover.
Definition first : Candidate := mkCand "openai" "m1" (Some (num_of_Z 8000)).
Definition second : Candidate := mkCand "mistral" "m2" (Some (num_of_Z 32000)).
Definition opts : FailoverOptions JsError :=
  mkOptions (num_of_Z 10) 1 None failureFromError (fun _ w => w).
Definition world : World := mkWorld (new_registry DEFAULT_BREAKER_CONFIG 256) nzero nzero.
(** The first provider is down, the second refuses the content. *)
Definition call (c : Candidate) (w : World) : result JsError unit * World :=
  (Throw (UpstreamError
     (if (ca_provider c =? "openai")%string
      then mkFailure (Some 503) None None None None
      else mkFailure (Some 400) None (Some "content_filter") None None)), w).
End SampleFailover.

Lemma failover_refines_account_witness :
  exists out w', runFailover SampleFailover.call SampleFailover.opts
      [SampleFailover.first; SampleFailover.second] SampleFailover.world = Some (out, w') /\
    ServedBy SampleFailover.opts [SampleFailover.first; SampleFailover.second] out.
Proof.
  apply failover_refines_account.
  intros c w Hc Hw. apply list_elem_of_In in Hc.
  destruct Hc as [<-|[<-|[]]]; simpl in Hw; injection Hw as <-; vm_compute; reflexivity.
Defined.

(** A content-filter refusal (and any other 4xx the matrix does not fail
    over on) is never retried elsewhere: an attempt with such a class is the
    last one, and the run rethrows the error. *)
Theorem refusal_is_final {Resp Err} (opts : FailoverOptions Err)
    (call : Candidate -> World -> result Err Resp * World) candidates w out w' a :
  windows_known candidates ->
  runFailover call opts candidates w = Some (out, w') ->
  a ∈ outcome_attempts out -> fa_ok a = false ->
  fa_error_class a = Some "content_filter" \/ fa_error_class a = Some "client_error" ->
  is_raised out = true /\ last (outcome_attempts out) = Some a.
Proof.
  intros Hnan Hrun Ha Hok Hcls.
  destruct (runFailover_served opts call candidates w Hnan) as (out' & w'' & Hrun' & Hs).
  rewrite Hrun in Hrun'. injection Hrun' as <- <-.
  assert (Hno : forall l, Forall retryable_class l -> a ∈ l -> False).
  { intros l Hl Hin. rewrite Forall_forall in Hl. destruct (Hl _ Hin) as (_ & k & Hk & Hkin).
    destruct Hcls as [Hc|Hc]; rewrite Hk in Hc; injection Hc as ->; set_solver. }
  destruct Hs as [fates rest c before b res _ _ _ _ Hret Hb Hres _ _
                 |fates rest before b err _ _ _ Hret Hb _ _
                 |fates message lastError _ _ Hret]; simpl in *.
  - rewrite Hres in Ha. apply elem_of_app in Ha as [Ha|Ha]; [by destruct (Hno _ Hret)|].
    apply list_elem_of_singleton in Ha as ->. congruence.
  - apply elem_of_app in Ha as [Ha|Ha]; [by destruct (Hno _ Hret)|].
    apply list_elem_of_singleton in Ha as ->. by rewrite last_snoc.
  - by destruct (Hno _ Hret).
Qed.

Lemma refusal_is_final_witness :
  exists out w', runFailover SampleFailover.call SampleFailover.opts
      [SampleFailover.first; SampleFailover.second] SampleFailover.world = Some (out, w') /\
    is_raised out = true.
Proof.
  destruct (runFailover SampleFailover.call SampleFailover.opts
      [SampleFailover.first; SampleFailover.second] SampleFailover.world) as [[out w']|] eqn:E;
    [|vm_compute in E; discriminate E].
  exists out, w'. split; [reflexivity|].
  refine (proj1 (refusal_is_final SampleFailover.opts SampleFailover.call _ _ _ _
    (mkAttempt "mistral" "m2" false nzero (Some "content_filter") (Some 400)) _ E _ _ _)).
  - intros c w Hc Hw. apply list_elem_of_In in Hc.
    destruct Hc as [<-|[<-|[]]]; simpl in Hw; injection Hw as <-; vm_compute; reflexivity.
  - vm_compute in E. injection E as <- <-. right. left.
  - reflexivity.
  - left. reflexivity.
Defined.

(** The engine never widens the candidate set: every attempt of every run
    is a call to one of the given candidates that [allow] accepts. *)
Theorem failover_calls_only_allowed {Resp Err} (opts : FailoverOptions Err)
    (call : Candidate -> World -> result Err Resp * World) candidates w out w' a allow :
  windows_known candidates ->
  runFailover call opts candidates w = Some (out, w') ->
  fo_allow opts = Some allow -> a ∈ outcome_attempts out ->
  exists c, c ∈ candidates /\ allow c = true /\
    fa_provider a = ca_provider c /\ fa_model a = ca_model c.
Proof.
  intros Hnan Hrun Hallow Ha.
  destruct (runFailover_served opts call candidates w Hnan) as (out' & w'' & Hrun' & Hs).
  rewrite Hrun in Hrun'. injection Hrun' as <- <-.
  destruct (served_attempts _ _ _ Hs) as (fates & rest & Hacc & Hord & Hatt).
  rewrite Hatt in Ha. destruct (accounted_attempt _ _ _ Hacc Ha) as (c & Hc & Hrej & ? & ?).
  exists c. split; [rewrite <- Hord; apply elem_of_app; by left|]. split; [|done].
  unfold rejected in Hrej. rewrite Hallow in Hrej. by destruct (allow c).
Qed.

Module SampleAllow.
Definition opts : FailoverOptions JsError :=
  mkOptions (num_of_Z 10) 1 (Some (fun c => (ca_provider c =? "mistral")%string))
    failureFromError (fun _ w => w).
End SampleAllow.

Lemma failover_calls_only_allowed_witness :
  exists out w' a, runFailover SampleFailover.call SampleAllow.opts
      [SampleFailover.first; SampleFailover.second] SampleFailover.world = Some (out, w') /\
    a ∈ outcome_attempts out /\
    exists c, (ca_provider c =? "mistral")%string = true /\ fa_model a = ca_model c.
Proof.
  destruct (runFailover SampleFailover.call SampleAllow.opts
      [SampleFailover.first; SampleFailover.second] SampleFailover.world) as [[out w']|] eqn:E;
    [|vm_compute in E; discriminate E].
  exists out, w', (mkAttempt "mistral" "m2" false nzero (Some "content_filter") (Some 400)).
  assert (Hin : mkAttempt "mistral" "m2" false nzero (Some "content_filter") (Some 400)
                ∈ outcome_attempts out)
    by (vm_compute in E; injection E as <- <-; left).
  split; [reflexivity|]. split; [exact Hin|].
  assert (Hnan : windows_known [SampleFailover.first; SampleFailover.second]).
  { intros c w Hc Hw. apply list_elem_of_In in Hc.
    destruct Hc as [<-|[<-|[]]]; simpl in Hw; injection Hw as <-; vm_compute; reflexivity. }
  destruct (failover_calls_only_allowed SampleAllow.opts SampleFailover.call _ _ _ _ _
    (fun c => (ca_provider c =? "mistral")%string) Hnan E eq_refl Hin)
    as (c & _ & Hc & _ & Hm).
  exists c. split; [exact Hc|exact Hm].
Defined.
