(* ===== verification/RouteFailover.v ===== *)
(** * Failover between routed models

    Models [src/gateway/src/middlewares/router/failover.ts]: when the request's
    own configuration leaves retries to the router, the reading of an upstream
    answer as a failure, and [tryTargetsWithRouteFailover], which runs the
    failover engine (file Failover) over the router's candidates under the data
    policy gate.

    Parameters: the attempt itself ([tryTargets], the handlers'
    [tryTargetsRecursively]), which may change the world; the digest of the
    caller ([routeBreakerScope]'s [computeCacheScope], [None] when it throws);
    the URL parser and [Date.parse]. *)

From Stdlib Require Import ZArith Lia ZifyBool.
From stdpp Require Import base strings option sets list.
From S2P Require Import Prelude JsValue RoutePolicy Constraints Router RouterMiddleware.
From S2P Require Import CircuitBreaker Failover.

#[local] Open Scope string_scope.
#[local] Open Scope list_scope.
#[local] Open Scope Z_scope.

(** An upstream answer: its status, headers and, when its body can be read,
    the body's length and what [JSON.parse] makes of it. *)
Record Response := mkResponse {
  rs_status : Z;
  rs_header : string -> option string;
  rs_text : option (Z * option json)
}.

(** What an attempt throws: a failed answer kept for the client, or an error of
    the handlers. *)
Inductive AttemptError :=
| RouteAttemptError (response : Response) (info : FailureInfo)
| HandlerError (e : JsError).

(** The handler's answer to the client. *)
Inductive RouteAnswer :=
| Answered (response : Response)
| PolicyDenied (denied : Denied)
| NoAvailableCandidate
| Rethrown (e : JsError).

Definition is_js_object (v : any) : bool :=
  match v with Some (JObj _) | Some (JArr _) => true | _ => false end.

(** True unless the request's Portkey config owns retries or fallbacks. *)
Definition configAllowsRouteFailover (config : any) : bool :=
  if negb (is_js_object config) then true
  else if truthy (prop config "strategy") then false
  else if match prop config "targets" with Some (JArr (_ :: _)) => true | _ => false end
  then false
  else if truthy (prop config "retry") &&
          nltb nzero (ToNumber (prop (prop config "retry") "attempts")) then false
  else if truthy (prop config "overrideParams") &&
          has_some (prop (prop config "overrideParams") "model") then false
  else true.

Definition MAX_ERROR_BODY : Z := 64 * 1024.

(** The error object of a parsed body: [parsed?.error ?? parsed]. *)
Definition error_of (parsed : json) : any := nullish (prop (Some parsed) "error") (Some parsed).

Definition error_code (err : any) : option string :=
  as_string (nullish (prop err "code") (prop err "type")).

Section RouteFailover.
Variable urlOrigin : string -> option string.
Variable parseDate : string -> num.
Variable tryTargets : obj json -> World -> result JsError Response * World.
Variable sleep : num -> World -> World.

Definition failureOfResponse (res : Response) (now : num) : FailureInfo :=
  let retryAfter := retryAfterOf (rs_header res) parseDate now in
  let '(code, message) :=
    if rs_status res <? 500 then
      match rs_text res with
      | Some (len, Some parsed) =>
          if len <=? MAX_ERROR_BODY then
            (error_code (error_of parsed), as_string (prop (error_of parsed) "message"))
          else (None, None)
      | _ => (None, None)
      end
    else (None, None) in
  mkFailure (Some (rs_status res)) None code message retryAfter.

Definition attempt_failure (e : AttemptError) : FailureInfo :=
  match e with
  | RouteAttemptError _ info => info
  | HandlerError e => failureFromError e
  end.

(** The provider the call goes to, and the host that overrides its URL. *)
Definition gateway_provider (targetGroup : any) : string :=
  default "" (as_string (prop targetGroup "provider")).

Definition custom_host (targetGroup : any) (headers : obj string) : option string :=
  let h := own headers "x-portkey-custom-host" in
  if truthy_opt h then h else as_string (prop targetGroup "customHost").

Definition route_target (targetGroup : any) (headers : obj string) : ServedTarget :=
  let p := gateway_provider targetGroup in
  mkTarget (if truthy_string p then Some p else None) (custom_host targetGroup headers) None.

(** A candidate's breaker key: its provider, scoped to the caller. *)
Definition breaker_key (provider : option string) (gatewayProvider scope : string) : string :=
  let name := if truthy_opt provider then default "" provider
              else if truthy_string gatewayProvider then gatewayProvider else "unknown" in
  (name +:+ "#" +:+ scope)%string.

Definition failover_list (candidates : list RouteCandidate) (gatewayProvider scope : string)
    : list Candidate :=
  map (fun cand => mkCand (breaker_key (rc_provider cand) gatewayProvider scope)
                     (rc_model cand) None) candidates.

Definition candidate_complies (gate : DataPolicyGate) (target : ServedTarget) (cand : Candidate)
    : bool :=
  modelComplies (dg_policy gate) (Some (ca_model cand)) (dg_rule gate)
    (fun tier => tierServesTarget urlOrigin tier (Some target)).

Definition failover_options (gate : option DataPolicyGate) (target : ServedTarget)
    : FailoverOptions AttemptError :=
  mkOptions (num_of_Z 10) 1
    (match gate with
     | Some g => if has_some (dg_rule g) then Some (candidate_complies g target) else None
     | None => None
     end) attempt_failure sleep.

(** One attempt: the request with the candidate's model. *)
Definition route_call (request : obj json) (cand : Candidate) (w : World)
    : result AttemptError Response * World :=
  let '(res, w) := tryTargets (obj_put request "model" (JStr (ca_model cand))) w in
  match res with
  | Ok res =>
      if (200 <=? rs_status res) && (rs_status res <? 300) then (Ok res, w)
      else (Throw (RouteAttemptError res (failureOfResponse res (w_dateNow w))), w)
  | Throw e => (Throw (HandlerError e), w)
  end.

Definition only_non_compliant (skipped : list Skipped) : bool :=
  match skipped with
  | [] => false
  | _ => forallb (fun s => bool_decide (sk_reason s = non_compliant)) skipped
  end.

(** The answer for an outcome of the engine. *)
Definition route_answer (route : PSRoute) (gate : option DataPolicyGate)
    (out : FailoverOutcome Response AttemptError) : RouteAnswer :=
  match out with
  | Served res => Answered (fr_response res)
  | Raised (RouteAttemptError response _) _ _ => Answered response
  | Raised (HandlerError e) _ _ => Rethrown e
  | NoCompliantCandidate _ _ skipped lastError =>
      match lastError with
      | Some (RouteAttemptError response _) => Answered response
      | _ =>
          if only_non_compliant skipped
          then PolicyDenied (mkDenied (ps_requestedModel route) None (Some (ps_group route))
                 (gate ≫= dg_level))
          else NoAvailableCandidate
      end
  end.

(** Without failover: one call of the handlers' own routing. *)
Definition delegate (request : obj json) (w : World) : RouteAnswer * World :=
  let '(res, w) := tryTargets request w in
  (match res with Ok r => Answered r | Throw e => Rethrown e end, w).

(** The run of the engine for a routed call; [None] would be a spent fuel. *)
Definition route_run (candidates : list RouteCandidate) (gate : option DataPolicyGate)
    (targetGroup : any) (headers : obj string) (scope : string) (request : obj json) (w : World)
    : option (FailoverOutcome Response AttemptError * World) :=
  runFailover (route_call request)
    (failover_options gate (route_target targetGroup headers))
    (failover_list candidates (gateway_provider targetGroup) scope) w.

(** Whether the router's candidates are run, and which. *)
Definition failover_candidates (route : option PSRoute) (targetGroup : any)
    : option (PSRoute * list RouteCandidate) :=
  match route with
  | Some r =>
      match ps_candidates r with
      | Some (c1 :: c2 :: rest) =>
          if configAllowsRouteFailover targetGroup then Some (r, c1 :: c2 :: rest) else None
      | _ => None
      end
  | None => None
  end.

(** A JSON request ([request] is a form or a stream otherwise, which the code
    delegates without failover). *)
Definition tryTargetsWithRouteFailover (route : option PSRoute) (gate : option DataPolicyGate)
    (targetGroup : any) (headers : obj string) (scope : option string) (request : obj json)
    (w : World) : option (RouteAnswer * World) :=
  match failover_candidates route targetGroup, scope with
  | Some (r, candidates), Some scope =>
      match route_run candidates gate targetGroup headers scope request w with
      | Some (out, w) => Some (route_answer r gate out, w)
      | None => None
      end
  | _, _ => Some (delegate request w)
  end.

(** ** Lemmas *)

Lemma failover_list_known candidates p scope : windows_known (failover_list candidates p scope).
Proof.
  intros c w Hc. unfold failover_list in Hc.
  apply list_elem_of_In, in_map_iff in Hc as (x & <- & _). done.
Qed.

Lemma failover_list_model candidates p scope c :
  c ∈ failover_list candidates p scope -> exists x, x ∈ candidates /\ rc_model x = ca_model c.
Proof.
  unfold failover_list. intros (x & <- & Hx)%list_elem_of_In%in_map_iff.
  exists x. by rewrite list_elem_of_In.
Qed.

(** A queue the gate rejects altogether is skipped without a call and without
    asking a breaker. *)
Lemma next_loop_rejects {Err} (opts : FailoverOptions Err) queue skipped mw w :
  Forall (fun c => rejected opts c = true) queue ->
  next_loop opts queue skipped mw w =
  (None, ([], skipped ++ map (fun c => skip c non_compliant) queue, w)).
Proof.
  intros Hq. revert skipped. induction Hq as [|c queue Hc Hq IH]; intros skipped; simpl.
  - by rewrite app_nil_r.
  - rewrite Hc, IH. by rewrite <- app_assoc.
Qed.

Lemma only_non_compliant_all (l : list Candidate) :
  l <> [] -> only_non_compliant (map (fun c => skip c non_compliant) l) = true.
Proof.
  intros Hne. destruct l as [|c l]; [done|]. unfold only_non_compliant. simpl.
  clear Hne. by induction l.
Qed.

(** The gate's verdict on a candidate's model at the call's target. *)
Definition model_allowed (g : DataPolicyGate) (targetGroup : any) (headers : obj string)
    (model : string) : bool :=
  modelComplies (dg_policy g) (Some model) (dg_rule g)
    (fun tier => tierServesTarget urlOrigin tier (Some (route_target targetGroup headers))).

(** A run ends within its fuel, and attempts only what the gate allows. *)
Lemma route_run_attempts candidates g r targetGroup headers scope request w :
  dg_rule g = Some r ->
  exists out w',
    route_run candidates (Some g) targetGroup headers scope request w = Some (out, w') /\
    forall a, a ∈ outcome_attempts out ->
      (exists cand, cand ∈ candidates /\ rc_model cand = fa_model a) /\
      model_allowed g targetGroup headers (fa_model a) = true.
Proof.
  intros Hr. unfold route_run. set (opts := failover_options _ _). set (l := failover_list _ _ _).
  destruct (runFailover_served opts (route_call request) l w) as (out & w' & Hrun & Hs).
  { apply failover_list_known. }
  exists out, w'. split; [done|]. intros a Ha.
  destruct (served_attempts _ _ _ Hs) as (fates & rest & Hacc & Hord & Hatt).
  rewrite Hatt in Ha. destruct (accounted_attempt _ _ _ Hacc Ha) as (c & Hc & Hrej & _ & Hm).
  split.
  - destruct (failover_list_model candidates (gateway_provider targetGroup) scope c)
      as (x & Hx & Hxm); [fold l; rewrite <- Hord; apply elem_of_app; by left|].
    exists x. split; [done|]. by rewrite Hxm.
  - unfold rejected, opts, failover_options in Hrej. rewrite Hr in Hrej. cbn [fo_allow has_some] in Hrej.
    rewrite Hm. by apply negb_false_iff in Hrej.
Qed.

(** The run when the gate allows no candidate: nothing is attempted, nothing changes. *)
Lemma route_run_rejected candidates g targetGroup headers scope request w :
  is_Some (dg_rule g) ->
  Forall (fun c => model_allowed g targetGroup headers (rc_model c) = false) candidates ->
  route_run candidates (Some g) targetGroup headers scope request w =
  Some (no_candidate_left (mkRun [] []
    (map (fun c => skip c non_compliant) (failover_list candidates (gateway_provider targetGroup) scope))
    None None w), w).
Proof.
  intros [rule Hrule] Hall. unfold route_run. set (opts := failover_options _ _). set (l := failover_list _ _ _).
  assert (Hrej : Forall (fun c => rejected opts c = true) l).
  { apply Forall_forall. intros c Hc. destruct (failover_list_model _ _ _ c Hc) as (x & Hx & Hxm).
    unfold rejected, opts, failover_options. rewrite Hrule. cbn [fo_allow has_some].
    rewrite Forall_forall in Hall. unfold candidate_complies. rewrite <- Hxm.
    specialize (Hall x Hx). unfold model_allowed in Hall. by rewrite Hall. }
  assert (Hloop : forall n, loop (route_call request) opts n None 0
    (mkRun [] [] (map (fun c => skip c non_compliant) l) None None w) =
    Some (no_candidate_left (mkRun [] [] (map (fun c => skip c non_compliant) l) None None w), w))
    by (by intros []).
  unfold runFailover, next. simpl. rewrite (next_loop_rejects opts l [] None w Hrej). apply Hloop.
Qed.

Lemma failover_list_not_empty route targetGroup r candidates p scope :
  failover_candidates route targetGroup = Some (r, candidates) -> failover_list candidates p scope <> [].
Proof.
  unfold failover_candidates. destruct route as [r0|]; [|done].
  destruct (ps_candidates r0) as [[|c1 [|c2 cs]]|]; try done.
  destruct (configAllowsRouteFailover targetGroup); [|done]. by injection 1 as <- <-.
Qed.

(** ** Properties *)

(** [C24] Failover never leaves the data policy: under a gate with a rule, the run of a
    routed call ends within its fuel for every behaviour of the attempts, and every
    attempt the engine makes runs a model of the router's own candidate list that the
    gate allows at the call's provider and host, whatever the attempts answer and
    whatever happens to the breakers meanwhile.  When the gate allows none of the
    candidates the answer is the policy's 403, with no attempt made and no breaker
    touched. *)
Theorem route_failover_compliant route g rule targetGroup headers scope request w r candidates
    (Hroute : failover_candidates route targetGroup = Some (r, candidates))
    (Hrule : dg_rule g = Some rule) :
  exists out w',
    route_run candidates (Some g) targetGroup headers scope request w = Some (out, w') /\
    tryTargetsWithRouteFailover route (Some g) targetGroup headers (Some scope) request w =
      Some (route_answer r (Some g) out, w') /\
    (forall a, a ∈ outcome_attempts out ->
      (exists cand, cand ∈ candidates /\ rc_model cand = fa_model a) /\
      model_allowed g targetGroup headers (fa_model a) = true) /\
    (Forall (fun c => model_allowed g targetGroup headers (rc_model c) = false) candidates ->
     route_answer r (Some g) out =
       PolicyDenied (mkDenied (ps_requestedModel r) None (Some (ps_group r)) (dg_level g)) /\
     outcome_attempts out = [] /\ w' = w).
Proof.
  destruct (route_run_attempts candidates g rule targetGroup headers scope request w Hrule)
    as (out & w' & Hrun & Hatt).
  exists out, w'. unfold tryTargetsWithRouteFailover. rewrite Hroute, Hrun. repeat split.
  1,2: by apply Hatt.
  all: rewrite route_run_rejected in Hrun by (rewrite ?Hrule; eauto); injection Hrun as <- <-; try done.
  unfold route_answer. simpl.
  by rewrite only_non_compliant_all by (by eapply failover_list_not_empty).
Qed.

(** The routed call always gets an answer, for every behaviour of the attempts and
    whatever gate, candidates and scope it has. *)
Theorem route_failover_answers route gate targetGroup headers scope request w :
  exists ans w',
    tryTargetsWithRouteFailover route gate targetGroup headers scope request w = Some (ans, w').
Proof.
  unfold tryTargetsWithRouteFailover.
  destruct (failover_candidates route targetGroup) as [[r candidates]|]; simpl;
    [|destruct (delegate request w); eauto].
  destruct scope as [sc|]; simpl; [|destruct (delegate request w); eauto].
  unfold route_run. set (opts := failover_options _ _). set (l := failover_list _ _ _).
  destruct (runFailover_served opts (route_call request) l w) as (out & w' & Hrun & _).
  { apply failover_list_known. }
  rewrite Hrun. eauto.
Qed.
End RouteFailover.

(** The witnesses' call: two candidates of which only the first complies with
    the EEA rule of [Constraints.Sample] at the call's provider. *)
Module SampleRoute.
Definition gate : DataPolicyGate :=
  mkGate Sample.policy (Some "restricted") declared (Some Sample.eea_rule).
Definition route (models : list string) : PSRoute :=
  mkRoute "auto" "eu-small" "cheap" "heuristic:simple" nzero (Some "restricted") (Some declared)
    (Some (map (fun m => mkCandidate m None) models)).
Definition group : any := Some (JObj [("provider", JStr "mistral-ai")]).
(** Every attempt answers 503. *)
Definition down (request : obj json) (w : World) : result JsError Response * World :=
  (Ok (mkResponse 503 (fun _ => None) None), w).
Definition world : World := mkWorld (new_registry DEFAULT_BREAKER_CONFIG 256) nzero nzero.
End SampleRoute.

Lemma route_failover_compliant_witness :
  let run models :=
    tryTargetsWithRouteFailover (fun _ => None) (fun _ => NaN) SampleRoute.down (fun _ w => w)
      (Some (SampleRoute.route models)) (Some SampleRoute.gate) SampleRoute.group [] (Some "caller") []
      SampleRoute.world in
  (exists out w' a,
    run ["eu-small"; "us-mini"] = Some (route_answer (SampleRoute.route ["eu-small"; "us-mini"]) (Some SampleRoute.gate) out, w') /\
    a ∈ outcome_attempts out /\ fa_model a = "eu-small" /\
    model_allowed (fun _ => None) SampleRoute.gate SampleRoute.group [] (fa_model a) = true) /\
  run ["us-mini"; "unknown"] =
    Some (PolicyDenied (mkDenied "auto" None (Some "cheap") (Some "restricted")), SampleRoute.world).
Proof.
  cbv zeta. split.
  - destruct (route_failover_compliant (fun _ => None) (fun _ => NaN) SampleRoute.down (fun _ w => w)
      (Some (SampleRoute.route ["eu-small"; "us-mini"])) SampleRoute.gate Sample.eea_rule SampleRoute.group
      [] "caller" [] SampleRoute.world _ _ eq_refl eq_refl) as (out & w' & E & Hans & Hatt & _).
    exists out, w', (mkAttempt "mistral-ai#caller" "eu-small" false nzero (Some "server_error") (Some 503)).
    assert (Hin : mkAttempt "mistral-ai#caller" "eu-small" false nzero (Some "server_error") (Some 503)
                  ∈ outcome_attempts out) by (vm_compute in E; injection E as <- <-; left).
    split; [exact Hans|]. split; [exact Hin|]. split; [reflexivity|]. exact (proj2 (Hatt _ Hin)).
  - destruct (route_failover_compliant (fun _ => None) (fun _ => NaN) SampleRoute.down (fun _ w => w)
      (Some (SampleRoute.route ["us-mini"; "unknown"])) SampleRoute.gate Sample.eea_rule SampleRoute.group
      [] "caller" [] SampleRoute.world _ _ eq_refl eq_refl) as (out & w' & _ & Hans & _ & Hno).
    destruct Hno as (Hd & _ & ->); [repeat constructor; vm_compute; reflexivity|].
    rewrite Hans, Hd. reflexivity.
Defined.
