(* ===== verification/JsonSchema.v ===== *)
(** * The JSON Schema validator

    Models [src/gateway/src/middlewares/router/jsonSchema.ts]: [typeOf] and
    [validate].  An error is a path and a problem instead of a text; a
    [$ref] to a missing definition is the [TypeError] the code runs into.
    [$ref] makes the recursion follow the schema rather than the value, so
    [validate] takes fuel; [schema_within] checks how deep a schema goes and
    [validate_total] shows that much fuel is enough for every value.

    Keywords are read with the types JSON Schema gives them (a keyword of
    another type is ignored where the code would throw or coerce).  [pattern]
    tests are a parameter ([regex]).  [keywordsIn], used by a test only, is not
    modelled. *)

From Stdlib Require Import ZArith Lia ZifyBool Ascii Floats.SpecFloat.
From stdpp Require Import base strings option sets list.
From S2P Require Import Prelude JsValue.

#[local] Open Scope string_scope.
#[local] Open Scope list_scope.
#[local] Arguments num_of_Z : simpl never.

Inductive VError := OutOfFuel | UndefinedSchema.

Inductive Segment := Key (k : string) | Item (i : nat) | NameOf (k : string).
Abbreviation Path := (list Segment).

Inductive Problem :=
| not_allowed
| expected (type got : string)
| not_one_of
| must_be (c : json)
| shorter_than (n : num)
| does_not_match (pattern : string)
| below (n : num)
| above (n : num)
| fewer_items (n : num)
| items_not_unique
| missing (key : string)
| fewer_properties (n : num).

Abbreviation Errors := (list (Path * Problem)).

(** Written [null] by [JSON.stringify], as are the numbers that are not
    finite. *)
Definition written_null (v : json) : bool :=
  match v with JNull => true | JNum n => negb (is_finite_num n) | _ => false end.

(** [JSON.stringify(a) === JSON.stringify(b)]; both zeros are written [0]. *)
Fixpoint same_text (a b : json) : bool :=
  (written_null a && written_null b) ||
  match a, b with
  | JBool x, JBool y => Bool.eqb x y
  | JNum x, JNum y => is_finite_num x && is_finite_num y && neqb x y
  | JStr x, JStr y => (x =? y)%string
  | JArr x, JArr y =>
      (fix go (x y : list json) :=
        match x, y with
        | [], [] => true
        | a :: x, b :: y => same_text a b && go x y
        | _, _ => false
        end) x y
  | JObj x, JObj y =>
      (fix go (x y : list (string * json)) :=
        match x, y with
        | [], [] => true
        | (k, a) :: x, (k', b) :: y => (k =? k')%string && same_text a b && go x y
        | _, _ => false
        end) x y
  | _, _ => false
  end.

Definition typeOf (v : json) : string :=
  match v with
  | JNull => "null"
  | JArr _ => "array"
  | JNum n => if is_integer_num n then "integer" else "number"
  | JBool _ => "boolean"
  | JStr _ => "string"
  | JObj _ => "object"
  end.

Definition type_matches (type t : string) : bool :=
  (type =? t)%string || ((type =? "number")%string && (t =? "integer")%string).

(** Concatenates the errors of a check on each element. *)
Fixpoint concat_throw {E A B} (f : A -> result E (list B)) (l : list A) : result E (list B) :=
  match l with
  | [] => Ok []
  | x :: r => let* ys := f x in let* zs := concat_throw f r in Ok (ys ++ zs)
  end.

(** [String(ref).replace(/^#\/\$defs\//, '')] *)
Fixpoint strip_prefix (p s : string) : option string :=
  match p, s with
  | EmptyString, _ => Some s
  | String c p, String d s => if Ascii.eqb c d then strip_prefix p s else None
  | _, _ => None
  end.

Definition ref_name (ref : string) : string := default ref (strip_prefix "#/$defs/" ref).

Definition definition_of (root : json) (ref : string) : any :=
  prop (prop (Some root) "$defs") (ref_name ref).

Fixpoint has_duplicate (l : list json) : bool :=
  match l with
  | [] => false
  | x :: r => existsb (same_text x) r || has_duplicate r
  end.

Definition when (b : bool) (at_ : Path) (p : Problem) : Errors := if b then [(at_, p)] else [].

(** [schema.k != null && left < schema.k] for a numeric keyword. *)
Definition less_than_keyword (schema : obj json) (k : string) (left : num) : option num :=
  match own schema k with
  | Some (JNum n) => if nltb left n then Some n else None
  | _ => None
  end.

Definition of_keyword (o : option num) (at_ : Path) (p : num -> Problem) : Errors :=
  match o with Some n => [(at_, p n)] | None => [] end.

Definition length_num {A} (l : list A) : num := num_of_Z (Z.of_nat (length l)).

Section Validate.
Variable regex : string -> string -> bool.

(** The keywords on any value: [enum] and [const]. *)
Definition check_values (schema : obj json) (value : json) (at_ : Path) : Errors :=
  match own schema "enum" with
  | Some (JArr l) => when (negb (existsb (fun e => same_text e value) l)) at_ not_one_of
  | _ => []
  end ++
  match own schema "const" with
  | Some c => when (negb (same_text c value)) at_ (must_be c)
  | None => []
  end.

Definition check_string (schema : obj json) (s : string) (at_ : Path) : Errors :=
  of_keyword (less_than_keyword schema "minLength" (num_of_Z (Z.of_nat (String.length s))))
    at_ shorter_than ++
  match own schema "pattern" with
  | Some (JStr p) => when (truthy_string p && negb (regex p s)) at_ (does_not_match p)
  | _ => []
  end.

Definition check_number (schema : obj json) (n : num) (at_ : Path) : Errors :=
  of_keyword (less_than_keyword schema "minimum" n) at_ below ++
  match own schema "maximum" with
  | Some (JNum m) => when (nltb m n) at_ (above m)
  | _ => []
  end.

Definition check_array (schema : obj json) (l : list json) (at_ : Path) : Errors :=
  of_keyword (less_than_keyword schema "minItems" (length_num l)) at_ fewer_items ++
  when (truthy (own schema "uniqueItems") && has_duplicate l) at_ items_not_unique.

Definition check_required (schema : obj json) (o : obj json) (at_ : Path) : Errors :=
  match own schema "required" with
  | Some (JArr l) =>
      flat_map (fun r => match r with JStr k => when (negb (hasOwn o k)) at_ (missing k)
                         | _ => [] end) l
  | _ => []
  end ++
  of_keyword (less_than_keyword schema "minProperties" (length_num o)) at_ fewer_properties.

(** The scalar checks of a value against an object schema. *)
Definition check_scalar (schema : obj json) (value : json) (at_ : Path) : Errors :=
  check_values schema value at_ ++
  match value with
  | JStr s => check_string schema s at_
  | JNum n => check_number schema n at_
  | JArr l => check_array schema l at_
  | JObj o => check_required schema o at_
  | _ => []
  end.

(** The subschema a property is checked with. *)
Definition property_schema (schema : obj json) (k : string) : any :=
  match prop (own schema "properties") k with
  | Some s => Some s
  | None => own schema "additionalProperties"
  end.

(** The checks of the parts of a value, given the check of a subschema. *)
Definition check_parts (sub : any -> json -> Path -> result VError Errors) (schema : obj json)
    (value : json) (at_ : Path) : result VError Errors :=
  match value with
  | JArr l =>
      if truthy (own schema "items") then
        concat_throw (fun p => sub (own schema "items") p.2 (at_ ++ [Item p.1]))
          (zip (seq 0 (length l)) l)
      else Ok []
  | JObj o =>
      concat_throw (fun p =>
        let* names := if truthy (own schema "propertyNames")
                      then sub (own schema "propertyNames") (JStr p.1) (at_ ++ [NameOf p.1])
                      else Ok [] in
        let* values := match property_schema schema p.1 with
                       | Some s => sub (Some s) p.2 (at_ ++ [Key p.1])
                       | None => Ok [] end in
        Ok (names ++ values)) o
  | _ => Ok []
  end.

Definition reference (schema : obj json) : option string :=
  match own schema "$ref" with
  | Some (JStr r) => if truthy_string r then Some r else None
  | _ => None
  end.

Definition wrong_type (schema : obj json) (value : json) : option string :=
  match own schema "type" with
  | Some (JStr ty) =>
      if truthy_string ty && negb (type_matches ty (typeOf value)) then Some ty else None
  | _ => None
  end.

Fixpoint validate (fuel : nat) (root : json) (schema : any) (value : json) (at_ : Path)
    : result VError Errors :=
  match fuel with
  | O => Throw OutOfFuel
  | S fuel =>
      match schema with
      | None | Some JNull => Throw UndefinedSchema
      | Some (JBool true) => Ok []
      | Some (JBool false) => Ok [(at_, not_allowed)]
      | Some (JObj s) =>
          let* by_ref := match reference s with
                         | Some r => validate fuel root (definition_of root r) value at_
                         | None => Ok [] end in
          match wrong_type s value with
          | Some ty => Ok (by_ref ++ [(at_, expected ty (typeOf value))])
          | None =>
              let* parts := check_parts (validate fuel root) s value at_ in
              Ok (by_ref ++ check_scalar s value at_ ++ parts)
          end
      | Some _ => Ok []
      end
  end.
End Validate.

(** ** How deep a schema goes *)

Fixpoint schema_within (n : nat) (root : json) (schema : any) : bool :=
  match n with
  | O => false
  | S n =>
      match schema with
      | None | Some JNull => false
      | Some (JObj s) =>
          match reference s with
          | Some r => schema_within n root (definition_of root r) | None => true end &&
          (if truthy (own s "items") then schema_within n root (own s "items") else true) &&
          (if truthy (own s "propertyNames") then schema_within n root (own s "propertyNames")
           else true) &&
          match own s "properties" with
          | Some (JObj ps) => forallb (fun p => schema_within n root (Some p.2)) ps
          | _ => true end &&
          match own s "additionalProperties" with
          | Some a => schema_within n root (Some a) | None => true end
      | Some _ => true
      end
  end.

Lemma concat_throw_total {E A B} (f : A -> result E (list B)) l :
  (forall x, x ∈ l -> exists ys, f x = Ok ys) -> exists ys, concat_throw f l = Ok ys.
Proof.
  induction l as [|x l IH]; simpl; intros H; [by exists []|].
  destruct (H x) as [ys ->]; [by left|]. destruct IH as [zs ->]; [|by eexists].
  intros y Hy. apply H. by right.
Qed.

Lemma property_schema_within n root s k v :
  match own s "properties" with
  | Some (JObj ps) => forallb (fun p => schema_within n root (Some p.2)) ps = true
  | _ => True end ->
  match own s "additionalProperties" with
  | Some a => schema_within n root (Some a) = true | None => True end ->
  property_schema s k = Some v -> schema_within n root (Some v) = true.
Proof.
  unfold property_schema. intros Hp Ha.
  destruct (own s "properties") as [[| | | | |ps]|]; simpl;
    try (intros Hk; rewrite Hk in Ha; exact Ha).
  destruct (own ps k) as [w|] eqn:Hw; [|intros Hk; rewrite Hk in Ha; exact Ha].
  intros [= ->]. rewrite forallb_forall in Hp. apply own_In, list_elem_of_In in Hw.
  by apply (Hp _ Hw).
Qed.

(** Fuel for the depth of the schema is enough for every value. *)
Lemma validate_total regex n root schema value at_ :
  schema_within n root schema = true ->
  exists errors, validate regex n root schema value at_ = Ok errors.
Proof.
  revert schema value at_. induction n as [|n IH]; intros schema value at_ Hw; [done|].
  cbn [validate schema_within] in *.
  destruct schema as [[|[]|?|?|?|s]|]; try done; try (by eexists).
  apply andb_true_iff in Hw as [Hw Hadd]. apply andb_true_iff in Hw as [Hw Hprops].
  apply andb_true_iff in Hw as [Hw Hnames]. apply andb_true_iff in Hw as [Href Hitems].
  assert (exists r, match reference s with
    | Some r => validate regex n root (definition_of root r) value at_ | None => Ok [] end = Ok r)
    as [by_ref ->] by (destruct (reference s); [by apply IH|by eexists]).
  destruct (wrong_type s value); [by eexists|].
  assert (exists p, check_parts (validate regex n root) s value at_ = Ok p) as [parts ->];
    [|by eexists].
  destruct value as [| | | |l|o]; simpl; try (by eexists).
  - destruct (truthy (own s "items")); [|by eexists]. apply concat_throw_total.
    intros p _. by apply IH.
  - apply concat_throw_total. intros p _.
    assert (exists e, (if truthy (own s "propertyNames")
      then validate regex n root (own s "propertyNames") (JStr p.1) (at_ ++ [NameOf p.1])
      else Ok []) = Ok e) as [names ->] by (destruct (truthy (own s "propertyNames")); [by apply IH|by eexists]).
    destruct (property_schema s p.1) as [v|] eqn:Hv; [|by eexists].
    destruct (IH (Some v) p.2 (at_ ++ [Key p.1])) as [vs ->]; [|by eexists].
    eapply property_schema_within; [| |done].
    + by destruct (own s "properties") as [[]|].
    + by destruct (own s "additionalProperties").
Qed.

(** ** What an accepted value looks like *)

Section Accepts.
Variables (regex : string -> string -> bool) (root : json).

Definition accepts (schema value : json) : Prop :=
  exists n at_, validate regex n root (Some schema) value at_ = Ok [].

Lemma when_nil b at_ p : when b at_ p = [] -> b = false.
Proof. by destruct b. Qed.

Lemma concat_throw_nil {E A B} (f : A -> result E (list B)) l :
  concat_throw f l = Ok [] -> Forall (fun x => f x = Ok []) l.
Proof.
  induction l as [|x l IH]; simpl; [by constructor|].
  destruct (f x) as [ys|] eqn:Hf; [|done]. destruct (concat_throw f l) as [zs|]; [|done].
  intros [= [-> ->]%app_eq_nil]. constructor; [done|by apply IH].
Qed.

Lemma accepts_inv s v :
  accepts (JObj s) v ->
  (forall r, reference s = Some r ->
     exists d, definition_of root r = Some d /\ accepts d v) /\
  wrong_type s v = None /\
  (exists at_, check_scalar regex s v at_ = []) /\
  (exists n at_, check_parts (validate regex n root) s v at_ = Ok []).
Proof.
  intros ([|n] & at_ & Hv); [done|]. cbn [validate] in Hv.
  destruct (match reference s with Some r => _ | None => _ end) as [by_ref|] eqn:Href; [|done].
  destruct (wrong_type s v) as [ty|]; [by destruct by_ref|].
  destruct (check_parts _ s v at_) as [parts|] eqn:Hparts; [|done].
  injection Hv as [-> [Hs ->]%app_eq_nil]%app_eq_nil.
  split; [|split; [done|split; [by exists at_|by exists n, at_]]].
  intros r Hr. rewrite Hr in Href.
  destruct n as [|n]; [done|].
  destruct (definition_of root r) as [d|] eqn:Hd; [|done].
  exists d. split; [done|]. by exists (S n), at_.
Qed.

(** A reference accepts what its definition accepts. *)
Lemma accepts_reference s v r d :
  accepts (JObj s) v ->
  reference s = Some r -> definition_of root r = Some d -> accepts d v.
Proof. intros (Href & _)%accepts_inv Hr Hd. destruct (Href r Hr) as (d' & Hd' & ?). naive_solver. Qed.

Lemma accepts_type s v ty :
  accepts (JObj s) v ->
  own s "type" = Some (JStr ty) -> truthy_string ty = true -> type_matches ty (typeOf v) = true.
Proof.
  intros (_ & Hw & _)%accepts_inv Hty Ht. unfold wrong_type in Hw. rewrite Hty, Ht in Hw.
  by destruct (type_matches ty (typeOf v)).
Qed.

Lemma accepts_string s v :
  accepts (JObj s) v ->
  own s "type" = Some (JStr "string") -> exists t, v = JStr t.
Proof.
  intros Ha Hty. pose proof (accepts_type s v _ Ha Hty eq_refl) as Hm.
  destruct v; simpl in Hm; try destruct (is_integer_num _); try done. by eexists.
Qed.

Lemma accepts_boolean s v :
  accepts (JObj s) v ->
  own s "type" = Some (JStr "boolean") -> exists b, v = JBool b.
Proof.
  intros Ha Hty. pose proof (accepts_type s v _ Ha Hty eq_refl) as Hm.
  destruct v; simpl in Hm; try destruct (is_integer_num _); try done. by eexists.
Qed.

Lemma accepts_number s v :
  accepts (JObj s) v ->
  own s "type" = Some (JStr "number") -> exists n, v = JNum n.
Proof.
  intros Ha Hty. pose proof (accepts_type s v _ Ha Hty eq_refl) as Hm.
  destruct v; simpl in Hm; try done. by eexists.
Qed.

Lemma accepts_array s v :
  accepts (JObj s) v ->
  own s "type" = Some (JStr "array") -> exists l, v = JArr l.
Proof.
  intros Ha Hty. pose proof (accepts_type s v _ Ha Hty eq_refl) as Hm.
  destruct v; simpl in Hm; try destruct (is_integer_num _); try done. by eexists.
Qed.

Lemma accepts_object s v :
  accepts (JObj s) v ->
  own s "type" = Some (JStr "object") -> exists o, v = JObj o.
Proof.
  intros Ha Hty. pose proof (accepts_type s v _ Ha Hty eq_refl) as Hm.
  destruct v; simpl in Hm; try destruct (is_integer_num _); try done. by eexists.
Qed.

Lemma accepts_pattern s t p :
  accepts (JObj s) (JStr t) ->
  own s "pattern" = Some (JStr p) -> truthy_string p = true -> regex p t = true.
Proof.
  intros (_ & _ & (at_ & Hc) & _)%accepts_inv Hp Ht. unfold check_scalar, check_string in Hc.
  apply app_eq_nil in Hc as [_ [_ Hc]%app_eq_nil]. rewrite Hp, Ht in Hc.
  apply when_nil in Hc. simpl in Hc. by apply negb_false_iff.
Qed.

Lemma accepts_minLength s t m :
  accepts (JObj s) (JStr t) ->
  own s "minLength" = Some (JNum m) -> nltb (num_of_Z (Z.of_nat (String.length t))) m = false.
Proof.
  intros (_ & _ & (at_ & Hc) & _)%accepts_inv Hm.
  unfold check_scalar, check_string, less_than_keyword in Hc. rewrite Hm in Hc.
  apply app_eq_nil in Hc as [_ [Hc _]%app_eq_nil]. by destruct (nltb _ m).
Qed.

Lemma accepts_minimum s n m :
  accepts (JObj s) (JNum n) ->
  own s "minimum" = Some (JNum m) -> nltb n m = false.
Proof.
  intros (_ & _ & (at_ & Hc) & _)%accepts_inv Hm.
  unfold check_scalar, check_number, less_than_keyword in Hc. rewrite Hm in Hc.
  apply app_eq_nil in Hc as [_ [Hc _]%app_eq_nil]. by destruct (nltb n m).
Qed.

Lemma accepts_enum s v l :
  accepts (JObj s) v ->
  own s "enum" = Some (JArr l) -> existsb (fun e => same_text e v) l = true.
Proof.
  intros (_ & _ & (at_ & Hc) & _)%accepts_inv Hl. unfold check_scalar, check_values in Hc.
  rewrite Hl in Hc. apply app_eq_nil in Hc as [[Hc _]%app_eq_nil _].
  apply when_nil in Hc. by apply negb_false_iff.
Qed.

Lemma accepts_minItems s l :
  accepts (JObj s) (JArr l) ->
  own s "minItems" = Some (JNum (num_of_Z 1)) -> l <> [].
Proof.
  intros (_ & _ & (at_ & Hc) & _)%accepts_inv Hm -> .
  unfold check_scalar, check_array, less_than_keyword in Hc. rewrite Hm in Hc.
  by apply app_eq_nil in Hc as [_ [Hc _]%app_eq_nil].
Qed.

Lemma accepts_required s o l k :
  accepts (JObj s) (JObj o) ->
  own s "required" = Some (JArr l) -> JStr k ∈ l -> exists v, own o k = Some v.
Proof.
  intros (_ & _ & (at_ & Hc) & _)%accepts_inv Hl Hk. unfold check_scalar, check_required in Hc.
  rewrite Hl in Hc. apply app_eq_nil in Hc as [_ [Hc _]%app_eq_nil].
  unfold hasOwn in Hc. destruct (own o k) as [v|] eqn:Ho; [by exists v|]. exfalso.
  assert (Hin : (at_, missing k) ∈ []); [|by apply elem_of_nil in Hin].
  rewrite <- Hc. apply list_elem_of_In, in_flat_map. exists (JStr k).
  split; [by apply list_elem_of_In|]. rewrite Ho. by left.
Qed.

Lemma accepts_items s l it :
  accepts (JObj s) (JArr l) ->
  own s "items" = Some it -> truthy (Some it) = true -> Forall (accepts it) l.
Proof.
  intros (_ & _ & _ & n & at_ & Hc)%accepts_inv Hi Ht. unfold check_parts in Hc.
  rewrite Hi, Ht in Hc. apply concat_throw_nil in Hc. apply Forall_forall. intros v Hv.
  apply list_elem_of_lookup in Hv as [i Hv]. rewrite Forall_lookup in Hc.
  exists n, (at_ ++ [Item i]). apply (Hc i (i, v)). apply lookup_zip_Some. split; [|done].
  rewrite lookup_seq_lt; [done|]. by eapply lookup_lt_Some.
Qed.

Lemma accepts_part s o k v :
  accepts (JObj s) (JObj o) ->
  (k, v) ∈ o ->
  (forall names, own s "propertyNames" = Some names -> truthy (Some names) = true ->
     accepts names (JStr k)) /\
  (forall sub, property_schema s k = Some sub -> accepts sub v).
Proof.
  intros (_ & _ & _ & n & at_ & Hc)%accepts_inv Hin. unfold check_parts in Hc.
  apply concat_throw_nil in Hc. rewrite Forall_forall in Hc. specialize (Hc _ Hin). simpl in Hc.
  destruct (if truthy _ then _ else _) as [names|] eqn:Hnames; [|done].
  destruct (match property_schema s k with Some s => _ | None => _ end) as [vs|] eqn:Hvs; [|done].
  injection Hc as [-> ->]%app_eq_nil. split.
  - intros sub Hs Ht. rewrite Hs, Ht in Hnames. by exists n, (at_ ++ [NameOf k]).
  - intros sub Hs. rewrite Hs in Hvs. by exists n, (at_ ++ [Key k]).
Qed.

Lemma accepts_property s o ps k sub v :
  accepts (JObj s) (JObj o) ->
  own s "properties" = Some (JObj ps) -> own ps k = Some sub -> own o k = Some v -> accepts sub v.
Proof.
  intros Ha Hps Hsub Hv%own_In. apply (accepts_part _ _ _ _ Ha Hv).
  unfold property_schema. by rewrite Hps; simpl; rewrite Hsub.
Qed.

Lemma accepts_entry s o sub k v :
  accepts (JObj s) (JObj o) ->
  own s "properties" = None -> own s "additionalProperties" = Some sub ->
  (k, v) ∈ o -> accepts sub v.
Proof.
  intros Ha Hps Hsub Hin. apply (accepts_part _ _ _ _ Ha Hin). unfold property_schema.
  by rewrite Hps.
Qed.

(** A closed object has no property its schema does not list. *)
Lemma accepts_closed s o ps k v :
  accepts (JObj s) (JObj o) -> own s "properties" = Some (JObj ps) ->
  own s "additionalProperties" = Some (JBool false) -> (k, v) ∈ o ->
  exists sub, own ps k = Some sub /\ accepts sub v.
Proof.
  intros Ha Hps Hadd Hin. destruct (accepts_part _ _ _ _ Ha Hin) as [_ Hpart].
  unfold property_schema in Hpart. rewrite Hps, Hadd in Hpart. simpl in Hpart.
  destruct (own ps k) as [sub|]; [exists sub; auto|].
  by destruct (Hpart _ eq_refl) as ([|n] & at_ & Hf).
Qed.
End Accepts.
