(* ===== verification/BudgetKeys.v ===== *)
(** * Budget counter keys and periods

    Models [src/gateway/src/middlewares/psBudget/keys.ts]: the UTC calendar
    arithmetic behind the day, ISO week and month periods, the counter's time
    to live, and the percent-encoded counter key shared with the SDK.

    Times are integers of milliseconds ([Date] truncates to them).  The [Date]
    operations are those of the language: [DayFromYear], the year, month and
    date of a day number, [MakeDay] with its overflowing month and date, and
    [Date.UTC] with its two-digit years; the range check at +-8.64e15 ms is
    the theorems' bound instead.  The quotients the code rounds up are exact
    integers here; [week_of_year_exact] checks the week's against binary64. *)

From Stdlib Require Import ZArith Lia ZifyBool Ascii Decimal DecimalString DecimalN.
From stdpp Require Import base strings option list.
From S2P Require Import Prelude JsValue.

#[local] Open Scope string_scope.
#[local] Open Scope list_scope.
#[local] Open Scope Z_scope.

Ltac div_lia := Z.div_mod_to_equations; lia.

(** ** The language's calendar *)

Definition msPerDay : Z := 86400000.

Definition DayFromYear (y : Z) : Z :=
  365 * (y - 1970) + (y - 1969) / 4 - (y - 1901) / 100 + (y - 1601) / 400.

Definition leap (y : Z) : bool :=
  (y mod 4 =? 0) && (negb (y mod 100 =? 0) || (y mod 400 =? 0)).

(** The year of a day number: an estimate from the mean year, corrected. *)
Definition year_of_day (day : Z) : Z :=
  let y := 1970 + day * 400 / 146097 in
  if day <? DayFromYear y then y - 1
  else if DayFromYear (y + 1) <=? day then y + 1 else y.

(** Days of the year before month [m] (0 to 12). *)
Definition month_start (lp : bool) (m : Z) : Z :=
  let extra := if lp && (2 <=? m) then 1 else 0 in
  extra + nth (Z.to_nat m) [0; 31; 59; 90; 120; 151; 181; 212; 243; 273; 304; 334; 365] 365.

Definition months : list Z := [0; 1; 2; 3; 4; 5; 6; 7; 8; 9; 10; 11].

Definition month_of_doy (lp : bool) (doy : Z) : Z :=
  default 11 (List.find (fun m => doy <? month_start lp (m + 1)) months).

Definition doy_of (day : Z) : Z := day - DayFromYear (year_of_day day).
Definition dayOf (t : Z) : Z := t / msPerDay.
Definition getUTCFullYear (t : Z) : Z := year_of_day (dayOf t).
Definition getUTCMonth (t : Z) : Z :=
  month_of_doy (leap (getUTCFullYear t)) (doy_of (dayOf t)).
Definition getUTCDate (t : Z) : Z :=
  doy_of (dayOf t) - month_start (leap (getUTCFullYear t)) (getUTCMonth t) + 1.
Definition getUTCDay (t : Z) : Z := (dayOf t + 4) mod 7.

Definition MakeDay (y m dt : Z) : Z :=
  let ym := y + m / 12 in
  DayFromYear ym + month_start (leap ym) (m mod 12) + dt - 1.

(** [Date.UTC(y, m, dt)]: years 0 to 99 are 1900 to 1999. *)
Definition Date_UTC (y m dt : Z) : Z :=
  let y := if (0 <=? y) && (y <=? 99) then 1900 + y else y in
  MakeDay y m dt * msPerDay.

Definition setUTCDate (t dt : Z) : Z :=
  MakeDay (getUTCFullYear t) (getUTCMonth t) dt * msPerDay + t mod msPerDay.

(** [String(n)] of an integer that is not negative, and [pad]. *)
Definition String_of (n : Z) : string :=
  NilEmpty.string_of_uint (N.to_uint (Z.to_N n)).

Fixpoint padStart (missing : nat) (s : string) : string :=
  match missing with O => s | S k => String "0" (padStart k s) end.

Definition pad (n : Z) : string :=
  let s := String_of n in padStart (2 - String.length s) s.

(** ** keys.ts *)

Inductive BudgetWindow := day | week | month.
Inductive BudgetScope := global | business_unit | use_case | owner.

#[export] Instance BudgetWindow_eq_dec : EqDecision BudgetWindow.
Proof. solve_decision. Defined.
#[export] Instance BudgetScope_eq_dec : EqDecision BudgetScope.
Proof. solve_decision. Defined.

Definition window_name (w : BudgetWindow) : string :=
  match w with day => "day" | week => "week" | month => "month" end.

Definition scope_name (s : BudgetScope) : string :=
  match s with
  | global => "global" | business_unit => "business_unit"
  | use_case => "use_case" | owner => "owner"
  end.

Definition KEY_PREFIX : string := "ps:budget:v1".
Definition GRACE_SECONDS : Z := 86400.
Definition GLOBAL_SUBJECT : string := "_".

Definition cdiv (a b : Z) : Z := - ((- a) / b).

(** [d.getUTCDay() || 7]: Monday 1 to Sunday 7. *)
Definition iso_weekday (t : Z) : Z :=
  if getUTCDay t =? 0 then 7 else getUTCDay t.

(** [Math.ceil((days + 1) / 7)] for the ordinal [days] from 0. *)
Definition week_of_year (days : Z) : Z := cdiv (days + 1) 7.

Definition isoWeek (t : Z) : Z * Z :=
  let d := Date_UTC (getUTCFullYear t) (getUTCMonth t) (getUTCDate t) in
  let thursday := setUTCDate d (getUTCDate d + 4 - iso_weekday d) in
  let yearStart := Date_UTC (getUTCFullYear thursday) 0 1 in
  (getUTCFullYear thursday, week_of_year ((thursday - yearStart) / msPerDay)).

Definition periodOf (window : BudgetWindow) (nowMs : Z) : string :=
  let y := String_of (getUTCFullYear nowMs) in
  match window with
  | day => (y +:+ "-" +:+ pad (getUTCMonth nowMs + 1) +:+ "-" +:+ pad (getUTCDate nowMs))%string
  | month => (y +:+ "-" +:+ pad (getUTCMonth nowMs + 1))%string
  | week => let '(isoYear, wk) := isoWeek nowMs in
            (String_of isoYear +:+ "-W" +:+ pad wk)%string
  end.

Definition periodEnd (window : BudgetWindow) (nowMs : Z) : Z :=
  let y := getUTCFullYear nowMs in
  let m := getUTCMonth nowMs in
  match window with
  | day => Date_UTC y m (getUTCDate nowMs + 1)
  | month => Date_UTC y (m + 1) 1
  | week => Date_UTC y m (getUTCDate nowMs + 8 - iso_weekday nowMs)
  end.

Definition counterTtl (window : BudgetWindow) (nowMs : Z) : Z :=
  cdiv (periodEnd window nowMs - nowMs) 1000 + GRACE_SECONDS.

(** [new TextEncoder().encode] of one code unit below 256. *)
Definition utf8 (c : ascii) : list N :=
  let n := code c in
  if (n <? 128)%N then [n] else [N.lor 192 (N.shiftr n 6); N.lor 128 (N.land n 63)].

Definition hex_digit (n : N) : ascii :=
  ascii_of_N (if (n <? 10)%N then 48 + n else 55 + n).

(** [/[A-Za-z0-9._~-]/] *)
Definition unreserved (n : N) : bool :=
  (((65 <=? n) && (n <=? 90)) || ((97 <=? n) && (n <=? 122)) || ((48 <=? n) && (n <=? 57)) ||
   (n =? 46) || (n =? 95) || (n =? 126) || (n =? 45))%N.

Definition encode_byte (n : N) : string :=
  if unreserved n then String (ascii_of_N n) ""
  else String "%" (String (hex_digit (n / 16)) (String (hex_digit (n mod 16)) "")).

Fixpoint encode_bytes (bytes : list N) : string :=
  match bytes with
  | [] => ""
  | b :: r => (encode_byte b +:+ encode_bytes r)%string
  end.

Fixpoint TextEncoder_encode (s : string) : list N :=
  match s with
  | EmptyString => []
  | String c r => utf8 c ++ TextEncoder_encode r
  end.

Definition encodeSegment (value : string) : string := encode_bytes (TextEncoder_encode value).

Fixpoint join_colon (l : list string) : string :=
  match l with
  | [] => ""
  | [x] => x
  | x :: r => (x +:+ ":" +:+ join_colon r)%string
  end.

Definition counterKey (namespace : string) (scope : BudgetScope) (subject : string)
    (window : BudgetWindow) (period : string) : string :=
  join_colon [KEY_PREFIX; encodeSegment namespace; scope_name scope;
              encodeSegment subject; window_name window; period].

Definition reservationsKey (key : string) : string := ("{" +:+ key +:+ "}:res")%string.

(** Vectors of schemas/budget/vectors/keys.json. *)
Example periodOf_day : periodOf day 1793966400000 = "2026-11-06".
Proof. vm_compute. reflexivity. Qed.
Example periodOf_week : periodOf week 1793966400000 = "2026-W45".
Proof. vm_compute. reflexivity. Qed.
Example periodOf_month : periodOf month 1793966400000 = "2026-11".
Proof. vm_compute. reflexivity. Qed.
Example counterTtl_day : counterTtl day 1793972730000 = 123270.
Proof. vm_compute. reflexivity. Qed.
Example counterTtl_week : counterTtl week 1793972730000 = 296070.
Proof. vm_compute. reflexivity. Qed.
Example counterTtl_month : counterTtl month 1798761599500 = 86401.
Proof. vm_compute. reflexivity. Qed.
Example periodOf_iso_year : periodOf week 1798790400000 = "2026-W53".
Proof. vm_compute. reflexivity. Qed.

(** ** Calendar lemmas *)

Lemma year_bounds d :
  DayFromYear (year_of_day d) <= d < DayFromYear (year_of_day d + 1).
Proof.
  unfold year_of_day. set (y := 1970 + d * 400 / 146097).
  assert (DayFromYear (y - 1) <= d < DayFromYear (y + 2)) as [Hlo Hhi]
    by (subst y; unfold DayFromYear; div_lia).
  destruct (Z.ltb_spec d (DayFromYear y)).
  { replace (y - 1 + 1) with y by lia. lia. }
  destruct (Z.leb_spec (DayFromYear (y + 1)) d); [|lia].
  replace (y + 1 + 1) with (y + 2) by lia. lia.
Qed.

Lemma DayFromYear_lt y z : y < z -> DayFromYear y < DayFromYear z.
Proof. unfold DayFromYear. intros. div_lia. Qed.

Lemma year_unique d y : DayFromYear y <= d < DayFromYear (y + 1) -> year_of_day d = y.
Proof.
  intros Hy. pose proof (year_bounds d) as Hd.
  destruct (Z.lt_trichotomy (year_of_day d) y) as [Hlt|[Heq|Hgt]]; [|done|].
  - destruct (decide (year_of_day d + 1 = y)) as [<-|]; [lia|].
    pose proof (DayFromYear_lt (year_of_day d + 1) y). lia.
  - destruct (decide (y + 1 = year_of_day d)) as [Heq|]; [rewrite <- Heq in Hd; lia|].
    pose proof (DayFromYear_lt (y + 1) (year_of_day d)). lia.
Qed.

Lemma year_length y :
  DayFromYear (y + 1) = DayFromYear y + 365 + (if leap y then 1 else 0).
Proof.
  unfold DayFromYear, leap.
  destruct (Z.eqb_spec (y mod 4) 0), (Z.eqb_spec (y mod 100) 0), (Z.eqb_spec (y mod 400) 0);
    simpl; div_lia.
Qed.

Lemma year_pos d : 0 <= d -> 1970 <= year_of_day d.
Proof.
  intros Hd. pose proof (year_bounds d) as [_ H].
  destruct (Z.ltb_spec (year_of_day d) 1970) as [Hlt|]; [|done].
  destruct (decide (year_of_day d + 1 = 1970)) as [Heq|].
  - rewrite Heq in H. change (DayFromYear 1970) with 0 in H. lia.
  - pose proof (DayFromYear_lt (year_of_day d + 1) 1970) as H'.
    change (DayFromYear 1970) with 0 in H'. lia.
Qed.

(** Lifts a check of a bounded range to a statement about its integers. *)
Lemma upto_check (p : Z -> bool) (n : nat) :
  forallb (fun k => p (Z.of_nat k)) (seq 0 n) = true ->
  forall z, 0 <= z < Z.of_nat n -> p z = true.
Proof.
  intros H z Hz. rewrite forallb_forall in H. specialize (H (Z.to_nat z)).
  rewrite Z2Nat.id in H by lia. apply H, in_seq. lia.
Qed.

Definition month_ok (lp : bool) (doy : Z) : bool :=
  let m := month_of_doy lp doy in
  (0 <=? m) && (m <=? 11) && (month_start lp m <=? doy) && (doy <? month_start lp (m + 1)) &&
  (month_start lp (m + 1) <=? month_start lp m + 31).

Lemma month_bounds (lp : bool) doy :
  0 <= doy < 365 + (if lp then 1 else 0) -> month_ok lp doy = true.
Proof.
  destruct lp; intros H.
  - apply (upto_check (month_ok true) 366); [vm_compute; reflexivity|lia].
  - apply (upto_check (month_ok false) 365); [vm_compute; reflexivity|lia].
Qed.

Lemma month_start_lt lp a b : 0 <= a < b -> b <= 12 -> month_start lp a < month_start lp b.
Proof.
  intros Ha Hb.
  assert (Hc : forallb (fun j => forallb (fun i => implb (Nat.ltb i j)
      (month_start lp (Z.of_nat i) <? month_start lp (Z.of_nat j))) (seq 0 13)) (seq 0 13) = true)
    by (destruct lp; vm_compute; reflexivity).
  rewrite forallb_forall in Hc. specialize (Hc (Z.to_nat b)). rewrite forallb_forall in Hc.
  specialize (Hc ltac:(apply in_seq; lia) (Z.to_nat a) ltac:(apply in_seq; lia)).
  rewrite !Z2Nat.id in Hc by lia. lia.
Qed.

Lemma month_start_0 lp : month_start lp 0 = 0.
Proof. by destruct lp. Qed.

Lemma month_start_nonneg lp m : 0 <= m <= 11 -> 0 <= month_start lp m.
Proof.
  intros Hm. rewrite <- (month_start_0 lp).
  destruct (decide (m = 0)) as [->|]; [lia|]. apply Z.lt_le_incl, month_start_lt; lia.
Qed.

Record Civil (t y m d : Z) : Prop := {
  civil_year : y = getUTCFullYear t;
  civil_month : m = getUTCMonth t;
  civil_date : d = getUTCDate t;
  civil_m : 0 <= m <= 11;
  civil_day : dayOf t = DayFromYear y + month_start (leap y) m + d - 1;
  civil_d : 1 <= d;
  civil_before : dayOf t < DayFromYear y + month_start (leap y) (m + 1);
  civil_short : month_start (leap y) (m + 1) <= month_start (leap y) m + 31
}.

Lemma civil t : Civil t (getUTCFullYear t) (getUTCMonth t) (getUTCDate t).
Proof.
  pose proof (year_bounds (dayOf t)) as Hy. rewrite year_length in Hy.
  pose proof (month_bounds (leap (getUTCFullYear t)) (doy_of (dayOf t))) as Hm.
  unfold getUTCFullYear in *. unfold doy_of in Hm at 1. specialize (Hm ltac:(unfold doy_of; lia)).
  unfold month_ok in Hm. fold (getUTCFullYear t) in *. fold (getUTCMonth t) in *.
  split_bool.
  split; try done; unfold getUTCDate, doy_of in *; fold (getUTCFullYear t) in *; lia.
Qed.

Lemma dayOf_mul d : dayOf (d * msPerDay) = d.
Proof. unfold dayOf, msPerDay. div_lia. Qed.

Lemma MakeDay_in y m dt : 0 <= m <= 11 ->
  MakeDay y m dt = DayFromYear y + month_start (leap y) m + dt - 1.
Proof.
  intros Hm. unfold MakeDay.
  replace (m / 12) with 0 by div_lia. replace (m mod 12) with m by div_lia.
  by rewrite Z.add_0_r.
Qed.

Lemma MakeDay_civil t k : MakeDay (getUTCFullYear t) (getUTCMonth t) (getUTCDate t + k) = dayOf t + k.
Proof. destruct (civil t). rewrite MakeDay_in by done. lia. Qed.

Lemma Date_UTC_late y m dt : 100 <= y -> Date_UTC y m dt = MakeDay y m dt * msPerDay.
Proof.
  intros Hy. unfold Date_UTC.
  by replace ((0 <=? y) && (y <=? 99)) with false by lia.
Qed.

Lemma dayOf_nonneg t : 0 <= t -> 0 <= dayOf t.
Proof. unfold dayOf, msPerDay. intros. div_lia. Qed.

Lemma full_year_late t : 0 <= t -> 1970 <= getUTCFullYear t.
Proof. intros. by apply year_pos, dayOf_nonneg. Qed.

(** *** Periods as day numbers *)

Lemma iso_weekday_spec t : 1 <= iso_weekday t <= 7 /\ (dayOf t + 4 - iso_weekday t) mod 7 = 0.
Proof. unfold iso_weekday, getUTCDay. destruct (Z.eqb_spec ((dayOf t + 4) mod 7) 0); div_lia. Qed.

(** The Thursday of the ISO week. *)
Definition thursday_of (t : Z) : Z := dayOf t + 4 - iso_weekday t.

Definition month_end_day (t : Z) : Z :=
  DayFromYear (getUTCFullYear t)
  + month_start (leap (getUTCFullYear t)) (getUTCMonth t + 1).

(** The day number after the last day of the period. *)
Definition end_day (w : BudgetWindow) (t : Z) : Z :=
  match w with
  | day => dayOf t + 1
  | week => thursday_of t + 4
  | month => month_end_day t
  end.

Lemma month_start_full lp : month_start lp 12 = 365 + (if lp : bool then 1 else 0).
Proof. by destruct lp. Qed.

Lemma periodEnd_day w t : 0 <= t -> periodEnd w t = end_day w t * msPerDay.
Proof.
  intros Ht. pose proof (full_year_late t Ht). destruct (civil t).
  destruct w; simpl; rewrite Date_UTC_late by lia.
  - by rewrite MakeDay_civil.
  - replace (getUTCDate t + 8 - iso_weekday t) with (getUTCDate t + (8 - iso_weekday t)) by lia.
    rewrite MakeDay_civil. unfold thursday_of. lia.
  - unfold month_end_day. f_equal.
    destruct (decide (getUTCMonth t = 11)) as [->|]; [|rewrite MakeDay_in; lia].
    unfold MakeDay. change (11 + 1) with 12. change (12 / 12) with 1. change (12 mod 12) with 0.
    rewrite month_start_full, year_length.
    rewrite month_start_0. lia.
Qed.

Lemma dayOf_before t d : dayOf t < d <-> t < d * msPerDay.
Proof. unfold dayOf, msPerDay. div_lia. Qed.

Lemma end_day_after w t : dayOf t < end_day w t.
Proof.
  destruct w; simpl.
  - lia.
  - unfold thursday_of. pose proof (iso_weekday_spec t). lia.
  - destruct (civil t). unfold month_end_day. lia.
Qed.

Definition window_days (w : BudgetWindow) : Z :=
  match w with day => 1 | week => 7 | month => 31 end.

Lemma end_day_length w t : end_day w t <= dayOf t + window_days w.
Proof.
  destruct w; simpl.
  - lia.
  - unfold thursday_of. pose proof (iso_weekday_spec t). lia.
  - destruct (civil t). unfold month_end_day. lia.
Qed.

(** Two times are in one period exactly when the later one is before the end
    of the earlier one's. *)
Lemma same_period w t1 t2 :
  t1 <= t2 -> end_day w t1 = end_day w t2 <-> dayOf t2 < end_day w t1.
Proof.
  intros Ht. assert (Hd : dayOf t1 <= dayOf t2) by (unfold dayOf, msPerDay; div_lia).
  split; [intros ->; apply end_day_after|]. intros Hlt. destruct w; simpl in *.
  - lia.
  - unfold thursday_of in *. pose proof (iso_weekday_spec t1). pose proof (iso_weekday_spec t2).
    div_lia.
  - unfold month_end_day in *. destruct (civil t1), (civil t2).
    assert (Hy : getUTCFullYear t2 = getUTCFullYear t1).
    { apply year_unique. rewrite year_length.
      pose proof (month_start_full (leap (getUTCFullYear t1))) as H12.
      assert (month_start (leap (getUTCFullYear t1)) (getUTCMonth t1 + 1)
              <= month_start (leap (getUTCFullYear t1)) 12).
      { destruct (decide (getUTCMonth t1 + 1 = 12)) as [->|]; [lia|].
        apply Z.lt_le_incl, month_start_lt; lia. }
      assert (0 <= month_start (leap (getUTCFullYear t1)) (getUTCMonth t1)).
      { by apply month_start_nonneg. }
      lia. }
    rewrite Hy in *. f_equal.
    destruct (Z.lt_trichotomy (getUTCMonth t1) (getUTCMonth t2)) as [Hm|[->|Hm]]; [|done|].
    + assert (month_start (leap (getUTCFullYear t1)) (getUTCMonth t1 + 1)
              <= month_start (leap (getUTCFullYear t1)) (getUTCMonth t2)); [|lia].
      destruct (decide (getUTCMonth t1 + 1 = getUTCMonth t2)) as [->|]; [lia|].
      apply Z.lt_le_incl, month_start_lt; lia.
    + assert (month_start (leap (getUTCFullYear t1)) (getUTCMonth t2 + 1)
              <= month_start (leap (getUTCFullYear t1)) (getUTCMonth t1)); [|lia].
      destruct (decide (getUTCMonth t2 + 1 = getUTCMonth t1)) as [->|]; [lia|].
      apply Z.lt_le_incl, month_start_lt; lia.
Qed.

(** The end of the month determines the year and the month. *)
Lemma month_end_day_inj t t' : month_end_day t = month_end_day t' ->
  getUTCFullYear t = getUTCFullYear t' /\ getUTCMonth t = getUTCMonth t'.
Proof.
  unfold month_end_day. intros He. destruct (civil t) as [_ _ _ Hm _ _ _ _].
  destruct (civil t') as [_ _ _ Hm' _ _ _ _].
  assert (Hin : forall y m, 0 <= m <= 11 ->
      year_of_day (DayFromYear y + month_start (leap y) (m + 1) - 1) = y).
  { intros y m Hmm. apply year_unique. rewrite year_length.
    pose proof (month_start_full (leap y)) as H12. split.
    - pose proof (month_start_lt (leap y) 0 (m + 1)). rewrite month_start_0 in *. lia.
    - destruct (decide (m = 11)) as [->|]; [change (11 + 1) with 12; lia|].
      pose proof (month_start_lt (leap y) (m + 1) 12). lia. }
  assert (Hy : getUTCFullYear t = getUTCFullYear t').
  { rewrite <- (Hin (getUTCFullYear t) (getUTCMonth t)) by done. rewrite He. by apply Hin. }
  split; [done|]. rewrite Hy in He.
  destruct (Z.lt_trichotomy (getUTCMonth t) (getUTCMonth t')) as [Hlt|[?|Hlt]]; [|done|].
  - pose proof (month_start_lt (leap (getUTCFullYear t')) (getUTCMonth t + 1)
      (getUTCMonth t' + 1)). lia.
  - pose proof (month_start_lt (leap (getUTCFullYear t')) (getUTCMonth t' + 1)
      (getUTCMonth t + 1)). lia.
Qed.

(** *** The ISO week *)

Lemma week_of_year_div k : week_of_year k = k / 7 + 1.
Proof. unfold week_of_year, cdiv. div_lia. Qed.

(** The code's binary64 computation of the week gives the exact value. *)
Definition week_in_binary64 (days : Z) : Z :=
  ceil_Z (ndiv (nadd (ndiv (num_of_Z (days * msPerDay)) (num_of_Z msPerDay)) (num_of_Z 1))
               (num_of_Z 7)).

Lemma week_of_year_exact days :
  0 <= days < 366 -> week_in_binary64 days = week_of_year days.
Proof.
  intros H. apply Z.eqb_eq.
  apply (upto_check (fun days => week_in_binary64 days =? week_of_year days) 366);
    [vm_compute; reflexivity|lia].
Qed.

Lemma dayOf_shift t k : dayOf (k * msPerDay + t mod msPerDay) = k.
Proof. unfold dayOf, msPerDay. div_lia. Qed.

Lemma mod_of_mul k : k * msPerDay mod msPerDay = 0.
Proof. unfold msPerDay. div_lia. Qed.

Lemma thursday_nonneg t : 0 <= t -> 0 <= thursday_of t.
Proof.
  intros Ht. pose proof (dayOf_nonneg t Ht) as H0. unfold thursday_of.
  pose proof (iso_weekday_spec t) as [Hw Hm]. revert Hw Hm H0.
  generalize (dayOf t), (iso_weekday t). intros. div_lia.
Qed.

Lemma isoWeek_spec t : 0 <= t ->
  isoWeek t = (year_of_day (thursday_of t),
               (thursday_of t - DayFromYear (year_of_day (thursday_of t))) / 7 + 1).
Proof.
  intros Ht. unfold isoWeek. pose proof (full_year_late t Ht).
  rewrite Date_UTC_late by lia.
  replace (MakeDay (getUTCFullYear t) (getUTCMonth t) (getUTCDate t)) with (dayOf t)
    by (rewrite <- (Z.add_0_r (getUTCDate t)), MakeDay_civil; lia).
  set (d := dayOf t * msPerDay).
  assert (Hd : dayOf d = dayOf t) by apply dayOf_mul.
  assert (Hwd : iso_weekday d = iso_weekday t) by (unfold iso_weekday, getUTCDay; by rewrite Hd).
  unfold setUTCDate.
  replace (getUTCDate d + 4 - iso_weekday d) with (getUTCDate d + (4 - iso_weekday d)) by lia.
  rewrite MakeDay_civil, Hd, Hwd. replace (d mod msPerDay) with 0
    by (symmetry; apply mod_of_mul).
  rewrite Z.add_0_r.
  replace (dayOf t + (4 - iso_weekday t)) with (thursday_of t) by (unfold thursday_of; lia).
  unfold getUTCFullYear. rewrite dayOf_mul.
  pose proof (year_bounds (thursday_of t)) as Hy.
  assert (1970 <= year_of_day (thursday_of t)) as Hlate.
  { by apply year_pos, thursday_nonneg. }
  rewrite Date_UTC_late by lia. rewrite MakeDay_in by lia. rewrite week_of_year_div.
  do 3 f_equal. rewrite month_start_0.
  replace (_ * msPerDay - _ * msPerDay)
    with ((thursday_of t - DayFromYear (year_of_day (thursday_of t))) * msPerDay) by lia.
  by rewrite Z.div_mul.
Qed.

(** ** String lemmas *)

Definition lacks (c : ascii) (s : string) : bool :=
  sforallb (fun x => negb (Ascii.eqb x c)) s.

(** A separator that the first parts lack splits a string in one way. *)
Lemma split_at_sep c a b r s :
  lacks c a = true -> lacks c b = true ->
  (a +:+ String c r = b +:+ String c s)%string -> a = b /\ r = s.
Proof.
  revert b. induction a as [|x a IH]; intros [|y b] Ha Hb; simpl.
  - by intros [= ->].
  - intros [= <- _]. unfold lacks in Hb. simpl in Hb. by rewrite Ascii.eqb_refl in Hb.
  - intros [= -> _]. unfold lacks in Ha. simpl in Ha. by rewrite Ascii.eqb_refl in Ha.
  - intros [= <- Hr]. unfold lacks in *. simpl in *. split_bool.
    by destruct (IH b ltac:(done) ltac:(done) Hr) as [-> ->].
Qed.

Lemma append_cancel a r s : (a +:+ r = a +:+ s)%string -> r = s.
Proof. induction a as [|x a IH]; simpl; [done|]. intros [= H]. by apply IH. Qed.

Lemma String_of_inj a b : 0 <= a -> 0 <= b -> String_of a = String_of b -> a = b.
Proof.
  unfold String_of. intros Ha Hb H.
  assert (Hu : N.to_uint (Z.to_N a) = N.to_uint (Z.to_N b)).
  { pose proof (NilEmpty.usu (N.to_uint (Z.to_N a))) as Hx.
    rewrite H, NilEmpty.usu in Hx. by injection Hx. }
  apply (f_equal N.of_uint) in Hu. rewrite !DecimalN.Unsigned.of_to in Hu. lia.
Qed.

Lemma forall_lacks p c s : sforallb p s = true -> p c = false -> lacks c s = true.
Proof.
  intros Hs Hc. unfold lacks. induction s as [|x s IH]; simpl in *; [done|]. split_bool.
  rewrite IH by done. rewrite andb_true_r. apply negb_true_iff, Ascii.eqb_neq. congruence.
Qed.

Lemma sforallb_impl (p q : ascii -> bool) s :
  (forall c, p c = true -> q c = true) -> sforallb p s = true -> sforallb q s = true.
Proof.
  intros Hpq. induction s as [|x s IH]; simpl; intros H; [done|]. split_bool.
  by rewrite Hpq, IH.
Qed.

Lemma String_of_digits n : sforallb is_digit (String_of n) = true.
Proof. unfold String_of. generalize (N.to_uint (Z.to_N n)) as u. by induction u. Qed.

Lemma pad_digits n : sforallb is_digit (pad n) = true.
Proof.
  unfold pad. generalize (2 - String.length (String_of n))%nat as k.
  induction k as [|k IH]; simpl; [apply String_of_digits|done].
Qed.

Lemma String_of_lacks c n : is_digit c = false -> lacks c (String_of n) = true.
Proof. apply forall_lacks, String_of_digits. Qed.

Lemma pad_lacks c n : is_digit c = false -> lacks c (pad n) = true.
Proof. apply forall_lacks, pad_digits. Qed.

Lemma pad_inj a b : 0 <= a < 100 -> 0 <= b < 100 -> pad a = pad b -> a = b.
Proof.
  intros Ha Hb H.
  assert (Hp : forall z, 0 <= z < 100 -> digits_val (pad z) 0 = z).
  { intros z Hz. apply Z.eqb_eq.
    apply (upto_check (fun z => digits_val (pad z) 0 =? z) 100); [vm_compute; reflexivity|lia]. }
  rewrite <- (Hp a Ha), <- (Hp b Hb). by rewrite H.
Qed.

(** *** Percent-encoding *)

Lemma ascii_of_N_inj a b : (a < 256)%N -> (b < 256)%N -> ascii_of_N a = ascii_of_N b -> a = b.
Proof. intros Ha Hb H. rewrite <- (N_ascii_embedding a), <- (N_ascii_embedding b) by done. by rewrite H. Qed.

Lemma hex_digit_inj a b : (a < 16)%N -> (b < 16)%N -> hex_digit a = hex_digit b -> a = b.
Proof.
  intros Ha Hb H. unfold hex_digit in H. apply ascii_of_N_inj in H.
  - destruct (N.ltb_spec a 10), (N.ltb_spec b 10); lia.
  - destruct (N.ltb_spec a 10); lia.
  - destruct (N.ltb_spec b 10); lia.
Qed.

Lemma encode_byte_prefix a b r s :
  (a < 256)%N -> (b < 256)%N ->
  (encode_byte a +:+ r = encode_byte b +:+ s)%string -> a = b /\ r = s.
Proof.
  intros Ha Hb. unfold encode_byte.
  destruct (unreserved a) eqn:Ua, (unreserved b) eqn:Ub; simpl; intros H; inversion H; subst.
  - split; [by apply ascii_of_N_inj|done].
  - exfalso. assert (a = 37)%N as -> by (by apply ascii_of_N_inj). discriminate Ua.
  - exfalso. assert (b = 37)%N as -> by (by apply ascii_of_N_inj). discriminate Ub.
  - assert (Hq : (a / 16 = b / 16)%N).
    { apply hex_digit_inj; [apply N.Div0.div_lt_upper_bound; lia..|done]. }
    assert (Hm : (a mod 16 = b mod 16)%N).
    { apply hex_digit_inj; [apply N.mod_lt; lia..|done]. }
    split; [|done]. rewrite (N.div_mod a 16), (N.div_mod b 16) by done. by rewrite Hq, Hm.
Qed.

Lemma encode_bytes_inj l l' :
  Forall (fun n => n < 256)%N l -> Forall (fun n => n < 256)%N l' ->
  encode_bytes l = encode_bytes l' -> l = l'.
Proof.
  assert (Hne : forall n s, (encode_byte n +:+ s)%string <> "").
  { intros n s. unfold encode_byte. by destruct (unreserved n). }
  intros Hl. revert l'. induction Hl as [|a l Ha Hl IH]; intros l' Hl' H; simpl in H.
  - destruct l'; [done|]. simpl in H. by destruct (Hne n (encode_bytes l')).
  - inversion Hl' as [|b l0 Hb Hl0]; subst; simpl in H; [by apply Hne in H|].
    apply encode_byte_prefix in H as [-> H]; [|done|done]. f_equal. by apply IH.
Qed.

Definition utf8_decodes (c : ascii) : bool :=
  match utf8 c with
  | [n] => ((n =? code c) && (n <? 128))%N
  | [n; m] => ((192 <=? n) && (n <? 256) && (m <? 256) && ((n - 192) * 64 + (m - 128) =? code c))%N
  | _ => false
  end.

Lemma utf8_ok c : utf8_decodes c = true.
Proof. destruct c as [[][][][][][][][]]; vm_compute; reflexivity. Qed.

Lemma code_inj a b : code a = code b -> a = b.
Proof. intros H. rewrite <- (ascii_N_embedding a), <- (ascii_N_embedding b). unfold code in H. by rewrite H. Qed.

Lemma utf8_prefix a b r s : utf8 a ++ r = utf8 b ++ s -> a = b /\ r = s.
Proof.
  pose proof (utf8_ok a) as Ha. pose proof (utf8_ok b) as Hb. unfold utf8_decodes in *.
  destruct (utf8 a) as [|n [|m [|? ?]]]; try done; destruct (utf8 b) as [|n' [|m' [|? ?]]];
    try done; simpl; intros H; inversion H; subst; split_bool.
  - split; [|done]. apply code_inj. lia.
  - exfalso. lia.
  - exfalso. lia.
  - split; [|done]. apply code_inj. lia.
Qed.

Lemma TextEncoder_inj s t : TextEncoder_encode s = TextEncoder_encode t -> s = t.
Proof.
  assert (Hne : forall c r, utf8 c ++ r <> []).
  { intros c r. unfold utf8. by destruct (code c <? 128)%N. }
  revert t. induction s as [|c s IH]; intros [|d t]; simpl; intros H; [done|..].
  - symmetry in H. by apply Hne in H.
  - by apply Hne in H.
  - apply utf8_prefix in H as [-> H]. f_equal. by apply IH.
Qed.

Lemma TextEncoder_bytes s : Forall (fun n => n < 256)%N (TextEncoder_encode s).
Proof.
  induction s as [|c s IH]; simpl; [constructor|]. apply Forall_app. split; [|done].
  pose proof (utf8_ok c) as H. unfold utf8_decodes in H.
  destruct (utf8 c) as [|n [|m [|? ?]]]; try done; split_bool; repeat constructor; lia.
Qed.

Lemma encodeSegment_inj s t : encodeSegment s = encodeSegment t -> s = t.
Proof. intros H. apply TextEncoder_inj, encode_bytes_inj; [apply TextEncoder_bytes..|done]. Qed.

(** Characters an encoded segment can have: unreserved, [%] or hex digits. *)
Definition segment_char (c : ascii) : bool := unreserved (code c) || Ascii.eqb c "%".

Lemma hex_digit_segment n : (n < 16)%N -> segment_char (hex_digit n) = true.
Proof.
  intros Hn. unfold segment_char, hex_digit, code.
  rewrite N_ascii_embedding by (destruct (N.ltb_spec n 10); lia).
  unfold unreserved. destruct (N.ltb_spec n 10); lia.
Qed.

Lemma encodeSegment_chars s : sforallb segment_char (encodeSegment s) = true.
Proof.
  unfold encodeSegment. pose proof (TextEncoder_bytes s) as Hl.
  induction Hl as [|b l Hb Hl IH]; simpl; [done|]. rewrite sforallb_append, IH, andb_true_r.
  unfold encode_byte. destruct (unreserved b) eqn:Hu; simpl; rewrite ?andb_true_r.
  - unfold segment_char, code. by rewrite N_ascii_embedding, Hu.
  - rewrite !hex_digit_segment; [done|apply N.mod_lt; lia|].
    apply N.Div0.div_lt_upper_bound. lia.
Qed.

Lemma encodeSegment_lacks c s : segment_char c = false -> lacks c (encodeSegment s) = true.
Proof. apply forall_lacks, encodeSegment_chars. Qed.

Lemma counterKey_inj n n' sc sc' s s' w w' p p' :
  counterKey n sc s w p = counterKey n' sc' s' w' p' ->
  n = n' /\ sc = sc' /\ s = s' /\ w = w' /\ p = p'.
Proof.
  unfold counterKey. cbn [join_colon]. intros H.
  apply append_cancel, (append_cancel ":") in H.
  apply split_at_sep in H as [Hn H]; [|by apply encodeSegment_lacks..].
  apply split_at_sep in H as [Hsc H]; [|by destruct sc|by destruct sc'].
  apply split_at_sep in H as [Hs H]; [|by apply encodeSegment_lacks..].
  apply split_at_sep in H as [Hw H]; [|by destruct w|by destruct w'].
  apply encodeSegment_inj in Hn, Hs. repeat split; try done.
  - by destruct sc, sc'.
  - by destruct w, w'.
Qed.

Definition key_char (c : ascii) : bool := segment_char c || Ascii.eqb c ":".

Lemma key_digits s : sforallb is_digit s = true -> sforallb key_char s = true.
Proof.
  apply sforallb_impl. intros c Hc. unfold key_char, segment_char, unreserved.
  unfold is_digit in Hc. lia.
Qed.

Lemma counterKey_chars ns scope subject w t :
  sforallb key_char (counterKey ns scope subject w (periodOf w t)) = true.
Proof.
  assert (Hseg : forall s, sforallb key_char (encodeSegment s) = true).
  { intros s. eapply sforallb_impl; [|apply encodeSegment_chars].
    intros c Hc. unfold key_char. by rewrite Hc. }
  assert (Hper : sforallb key_char (periodOf w t) = true).
  { pose proof (fun n => key_digits _ (String_of_digits n)) as Hn.
    pose proof (fun n => key_digits _ (pad_digits n)) as Hp.
    destruct w; cbn [periodOf]; [|destruct (isoWeek t) as [y k]|];
      by rewrite !sforallb_append, ?Hn, ?Hp. }
  unfold counterKey. cbn [join_colon]. rewrite !sforallb_append, !Hseg, Hper.
  by destruct scope, w.
Qed.

(** ** Labels and periods *)

Lemma day_label_inj t1 t2 : 0 <= t1 -> 0 <= t2 ->
  periodOf day t1 = periodOf day t2 -> dayOf t1 = dayOf t2.
Proof.
  intros H1 H2. cbn [periodOf]. intros H.
  pose proof (full_year_late t1 H1). pose proof (full_year_late t2 H2).
  destruct (civil t1) as [_ _ _ Hm1 -> ? Hb1 Hs1], (civil t2) as [_ _ _ Hm2 -> ? Hb2 Hs2].
  apply split_at_sep in H as [Hy H]; [|by apply String_of_lacks..].
  apply split_at_sep in H as [Hm H]; [|by apply pad_lacks..].
  apply String_of_inj in Hy; [|lia..]. rewrite Hy in *.
  apply pad_inj in Hm; [|lia..]. assert (getUTCMonth t1 = getUTCMonth t2) as Hmm by lia.
  rewrite Hmm in *. apply pad_inj in H; lia.
Qed.

Lemma month_label_inj t1 t2 : 0 <= t1 -> 0 <= t2 ->
  periodOf month t1 = periodOf month t2 -> month_end_day t1 = month_end_day t2.
Proof.
  intros H1 H2. cbn [periodOf]. intros H.
  pose proof (full_year_late t1 H1). pose proof (full_year_late t2 H2).
  destruct (civil t1), (civil t2).
  apply split_at_sep in H as [Hy H]; [|by apply String_of_lacks..].
  apply String_of_inj in Hy; [|lia..]. apply pad_inj in H; [|lia..].
  unfold month_end_day. rewrite Hy. by assert (getUTCMonth t1 = getUTCMonth t2) as -> by lia.
Qed.

Lemma week_label_inj t1 t2 : 0 <= t1 -> 0 <= t2 ->
  periodOf week t1 = periodOf week t2 -> thursday_of t1 = thursday_of t2.
Proof.
  intros H1 H2. cbn [periodOf]. rewrite !isoWeek_spec by done. intros H.
  assert (Hw : forall t, 0 <= t -> 1970 <= year_of_day (thursday_of t) /\
      0 <= thursday_of t - DayFromYear (year_of_day (thursday_of t)) < 366).
  { intros t Ht. split; [by apply year_pos, thursday_nonneg|].
    pose proof (year_bounds (thursday_of t)) as Hb. rewrite year_length in Hb.
    destruct (leap _); lia. }
  pose proof (Hw _ H1) as [Hy1 Hr1]. pose proof (Hw _ H2) as [Hy2 Hr2].
  pose proof (iso_weekday_spec t1) as [_ Hm1]. pose proof (iso_weekday_spec t2) as [_ Hm2].
  fold (thursday_of t1) in Hm1. fold (thursday_of t2) in Hm2. cbn [String.append] in H.
  apply split_at_sep in H as [Hy H]; [|by apply String_of_lacks..].
  apply String_of_inj in Hy; [|lia..]. injection H as H. rewrite Hy in *.
  apply pad_inj in H; [|div_lia..]. div_lia.
Qed.

Lemma label_end_day w t1 t2 : 0 <= t1 -> 0 <= t2 ->
  periodOf w t1 = periodOf w t2 <-> end_day w t1 = end_day w t2.
Proof.
  intros H1 H2. split.
  - destruct w; cbn [end_day]; intros H.
    + by rewrite (day_label_inj t1 t2).
    + by rewrite (week_label_inj t1 t2).
    + by apply month_label_inj.
  - intros H. destruct w; cbn [end_day periodOf] in *.
    + assert (dayOf t1 = dayOf t2) as Hd by lia.
      unfold getUTCFullYear, getUTCMonth, getUTCDate, getUTCMonth, getUTCFullYear. by rewrite Hd.
    + rewrite !isoWeek_spec by done. by assert (thursday_of t1 = thursday_of t2) as -> by lia.
    + by apply month_end_day_inj in H as [-> ->].
Qed.

(** Times whose period ends inside the range of [Date]. *)
Definition valid_time (t : Z) : Prop := 0 <= t <= 8640000000000000 - 32 * msPerDay.

(** What two calls must share to be counted together. *)
Definition same_counter (ns1 ns2 : string) (sc1 sc2 : BudgetScope) (s1 s2 : string)
    (w1 w2 : BudgetWindow) (t1 t2 : Z) : Prop :=
  ns1 = ns2 /\ sc1 = sc2 /\ s1 = s2 /\ w1 = w2 /\ t2 < periodEnd w1 t1.

(** ** Properties *)

(** Two calls write the same counter exactly when they have the same
    namespace, scope, subject and window and the later one comes before the end
    of the earlier one's UTC day, ISO week or month: encoding and period labels
    never merge two counters and never split one, over year ends, leap days and
    the ISO years that differ from the calendar's. *)
Theorem counter_shared_iff ns1 ns2 sc1 sc2 s1 s2 w1 w2 t1 t2 :
  valid_time t1 -> valid_time t2 -> t1 <= t2 ->
  counterKey ns1 sc1 s1 w1 (periodOf w1 t1) = counterKey ns2 sc2 s2 w2 (periodOf w2 t2) <->
  same_counter ns1 ns2 sc1 sc2 s1 s2 w1 w2 t1 t2.
Proof.
  intros [H1 _] [H2 _] Ht. unfold same_counter. split.
  - intros (-> & -> & -> & -> & Hp)%counterKey_inj. repeat split; try done.
    rewrite periodEnd_day, <- dayOf_before by done. apply same_period; [done|].
    by apply label_end_day.
  - intros (-> & -> & -> & -> & Hend). f_equal. apply label_end_day; [done..|].
    apply same_period; [done|]. by rewrite dayOf_before, <- periodEnd_day.
Qed.

(** Both calls are in ISO week 53 of 2026, in two calendar years. *)
Lemma counter_shared_iff_witness :
  let t1 := 1798675200000 in let t2 := 1798790400000 in
  counterKey "acme" business_unit "r&d" week (periodOf week t1) =
  counterKey "acme" business_unit "r&d" week (periodOf week t2) /\
  periodOf month t1 <> periodOf month t2.
Proof.
  intros t1 t2. split; [|vm_compute; discriminate].
  apply counter_shared_iff; [split; vm_compute; discriminate..|vm_compute; discriminate|].
  repeat split; vm_compute; reflexivity.
Defined.

(** A counter's time to live reaches the end of its period and the day of
    grace, by less than a second more, so a counter never expires inside its
    period and never outlives it by more than a day and a second: it is at most
    the window's length plus a day. *)
Theorem counterTtl_covers w nowMs :
  valid_time nowMs ->
  nowMs < periodEnd w nowMs <= nowMs + window_days w * msPerDay /\
  periodEnd w nowMs + GRACE_SECONDS * 1000 <= nowMs + counterTtl w nowMs * 1000
    < periodEnd w nowMs + GRACE_SECONDS * 1000 + 1000 /\
  GRACE_SECONDS < counterTtl w nowMs <= window_days w * GRACE_SECONDS + GRACE_SECONDS.
Proof.
  intros [H _].
  assert (Hend : nowMs < periodEnd w nowMs <= nowMs + window_days w * msPerDay).
  { rewrite periodEnd_day by done. pose proof (end_day_after w nowMs) as Ha.
    pose proof (end_day_length w nowMs). split; [by apply dayOf_before|].
    unfold dayOf, msPerDay in *. div_lia. }
  split; [done|]. revert Hend. unfold counterTtl, cdiv, GRACE_SECONDS, msPerDay.
  generalize (periodEnd w nowMs). intros e [Ha Hb].
  assert (0 < window_days w) by (by destruct w). split; div_lia.
Qed.

Lemma counterTtl_covers_witness :
  let t := 1798761599500 in
  t < periodEnd month t /\ periodEnd month t + GRACE_SECONDS * 1000 <= t + counterTtl month t * 1000.
Proof.
  intros t. destruct (counterTtl_covers month t) as ([H _] & [H' _] & _).
  - split; vm_compute; discriminate.
  - split; [exact H|exact H'].
Defined.

(** Counter keys never hold a brace, whatever the header values: the braces
    of the reservations key delimit the whole counter key as its Redis Cluster
    hash tag, so both keys of a script share a slot. *)
Lemma reservations_hash_tag ns scope subject w t :
  let key := counterKey ns scope subject w (periodOf w t) in
  lacks "{" key = true /\ lacks "}" key = true /\
  reservationsKey key = ("{" +:+ key +:+ "}" +:+ ":res")%string.
Proof.
  intros key. pose proof (counterKey_chars ns scope subject w t) as Hk.
  split; [|split; [|done]]; by apply (forall_lacks _ _ _ Hk).
Qed.
