(* ===== verification/BudgetConfig.v ===== *)
(** * The budget document

    Models [src/gateway/src/middlewares/psBudget/config.ts]: the validation of
    a budget.v1 document ([parseBudgetConfig], every [fail] an error value of
    its own) and [budgetConfigFromText], which takes the outcome of
    [JSON.parse] as an argument.  The theorems state what an accepted document
    guarantees and that every valid configuration has a document. *)

From Stdlib Require Import ZArith Lia ZifyBool Ascii.
From stdpp Require Import base strings option sets list.
From S2P Require Import Prelude JsValue BudgetKeys.

#[local] Open Scope string_scope.
#[local] Open Scope list_scope.
#[local] Arguments num_of_Z : simpl never.
#[local] Arguments num_of_Q : simpl never.

Inductive BudgetMode := warn_only | downgrade | block.

#[export] Instance BudgetMode_eq_dec : EqDecision BudgetMode.
Proof. solve_decision. Defined.

Definition mode_name (m : BudgetMode) : string :=
  match m with warn_only => "warn" | downgrade => "downgrade" | block => "block" end.

Record Budget := mkBudget {
  b_id : string;
  b_scope : BudgetScope;
  b_subject : option string;
  b_window : BudgetWindow;
  b_limitUsd : num;
  b_mode : BudgetMode;
  b_warnAt : num
}.

Inductive OnStoreError := open_ | closed.

Record BudgetConfig := mkBudgetConfig {
  bc_namespace : string;
  bc_onStoreError : OnStoreError;
  bc_budgets : list Budget
}.

Inductive ConfigError :=
| expected_object
| bad_schema_version
| unknown_field (k : string)
| bad_namespace
| bad_on_store_error
| budgets_not_array
| budget_not_object
| bad_budget_id
| budget_unknown_field (id k : string)
| duplicate_budget_id (id : string)
| bad_scope (id : string)
| global_with_subject (id : string)
| subject_missing (id : string)
| bad_window (id : string)
| bad_limit (id : string)
| bad_mode (id : string)
| bad_warn_at (id : string)
| downgrade_model_without_mode (id : string)
| bad_downgrade_model (id : string)
| not_json
| bad_namespace_override.

Definition SCOPES : list BudgetScope := [global; business_unit; use_case; owner].
Definition WINDOWS : list BudgetWindow := [day; week; month].
Definition MODES : list BudgetMode := [warn_only; downgrade; block].

Definition token_first (c : ascii) : bool := is_lower c || is_digit c.
Definition token_char (c : ascii) : bool :=
  token_first c || Ascii.eqb c "." || Ascii.eqb c "_" || Ascii.eqb c "-".

(** [TOKEN_RE] *)
Definition is_token (s : string) : bool :=
  match s with
  | EmptyString => false
  | String c r => token_first c && sforallb token_char r
  end.

Definition BUDGET_FIELDS : list string :=
  ["id"; "scope"; "subject"; "window"; "limit_usd"; "mode"; "warn_at"; "downgrade_model"].

Definition DOC_FIELDS : list string :=
  ["$schema"; "schema_version"; "namespace"; "on_store_error"; "budgets"].

(** [LIST.includes(v)] for a list of names. *)
Definition named {A} (name : A -> string) (l : list A) (v : any) : option A :=
  match v with
  | Some (JStr s) => List.find (fun x => (name x =? s)%string) l
  | _ => None
  end.

Definition finite_number (v : any) : option num :=
  match v with Some (JNum n) => if is_finite_num n then Some n else None | _ => None end.

Definition token_of (v : any) : option string :=
  match v with Some (JStr s) => if is_token s then Some s else None | _ => None end.

Definition parse_subject (id : string) (scope : BudgetScope) (subject : any)
    : result ConfigError (option string) :=
  match scope with
  | global =>
      match subject with None => Ok None | Some _ => Throw (global_with_subject id) end
  | _ =>
      match subject with
      | Some (JStr s) => if truthy_string s then Ok (Some s) else Throw (subject_missing id)
      | _ => Throw (subject_missing id)
      end
  end.

Definition valid_limit (n : num) : bool := negb (nltb n nzero).
Definition valid_warn_at (n : num) : bool := nltb nzero n && nleb n (num_of_Z 1).

Definition DEFAULT_WARN_AT : num := num_of_Q 8 10.

Definition check_downgrade_model (id : string) (mode : BudgetMode) (v : any)
    : result ConfigError unit :=
  match v with
  | None => Ok tt
  | Some x =>
      check (bool_decide (mode = downgrade)) else downgrade_model_without_mode id in
      match x with
      | JStr s => if truthy_string s then Ok tt else Throw (bad_downgrade_model id)
      | _ => Throw (bad_downgrade_model id)
      end
  end.

(** One element of [budgets]; [seen] are the ids before it. *)
Definition parse_budget (seen : list string) (v : json) : result ConfigError Budget :=
  let* raw := required (object_of (Some v)) budget_not_object in
  let* id := required (token_of (own raw "id")) bad_budget_id in
  let* _ := known_fields BUDGET_FIELDS raw (budget_unknown_field id) in
  check (negb (mem_string id seen)) else duplicate_budget_id id in
  let* scope := required (named scope_name SCOPES (own raw "scope")) (bad_scope id) in
  let* subject := parse_subject id scope (own raw "subject") in
  let* window := required (named window_name WINDOWS (own raw "window")) (bad_window id) in
  let* limit := required (finite_number (own raw "limit_usd")) (bad_limit id) in
  check (valid_limit limit) else bad_limit id in
  let* mode := required (named mode_name MODES (own raw "mode")) (bad_mode id) in
  let* warnAt := required (finite_number (nullish (own raw "warn_at") (Some (JNum DEFAULT_WARN_AT))))
                   (bad_warn_at id) in
  check (valid_warn_at warnAt) else bad_warn_at id in
  let* _ := check_downgrade_model id mode (own raw "downgrade_model") in
  Ok (mkBudget id scope subject window limit mode warnAt).

Fixpoint parse_budgets (seen : list string) (l : list json) : result ConfigError (list Budget) :=
  match l with
  | [] => Ok []
  | v :: r =>
      let* b := parse_budget seen v in
      let* bs := parse_budgets (b_id b :: seen) r in
      Ok (b :: bs)
  end.

Definition parse_on_store_error (v : any) : option OnStoreError :=
  match nullish v (Some (JStr "open")) with
  | Some (JStr s) =>
      if (s =? "open")%string then Some open_
      else if (s =? "closed")%string then Some closed else None
  | _ => None
  end.

Definition parseBudgetConfig (doc : any) : result ConfigError BudgetConfig :=
  let* d := required (object_of doc) expected_object in
  check (bool_decide (as_string (own d "schema_version") = Some "budget.v1"))
    else bad_schema_version in
  let* _ := known_fields DOC_FIELDS d unknown_field in
  let* namespace := required (token_of (nullish (own d "namespace") (Some (JStr "default"))))
                      bad_namespace in
  let* onStoreError := required (parse_on_store_error (own d "on_store_error"))
                         bad_on_store_error in
  let* raw := required (match own d "budgets" with Some (JArr l) => Some l | _ => None end)
                budgets_not_array in
  let* budgets := parse_budgets [] raw in
  Ok (mkBudgetConfig namespace onStoreError budgets).

(** [parsed] is what [JSON.parse(text)] gave, [None] when it threw. *)
Definition budgetConfigFromText (text : option string) (parsed : option json)
    (namespaceOverride : option string) : result ConfigError (option BudgetConfig) :=
  match text with
  | Some t =>
      if truthy_string (trim t) then
        let* doc := required parsed not_json in
        let* config := parseBudgetConfig (Some doc) in
        let* config :=
          match namespaceOverride with
          | Some ns =>
              if truthy_string ns then
                check (is_token ns) else bad_namespace_override in
                Ok (mkBudgetConfig ns (bc_onStoreError config) (bc_budgets config))
              else Ok config
          | None => Ok config
          end in
        Ok (match bc_budgets config with [] => None | _ => Some config end)
      else Ok None
  | None => Ok None
  end.

(** ** What an accepted document guarantees *)

Record ValidBudget (b : Budget) : Prop := {
  vb_id : is_token (b_id b) = true;
  vb_subject : match b_scope b with
               | global => b_subject b = None
               | _ => exists s, b_subject b = Some s /\ truthy_string s = true
               end;
  vb_finite : is_finite_num (b_limitUsd b) = true;
  vb_limit : nleb nzero (b_limitUsd b) = true;
  vb_warn : is_finite_num (b_warnAt b) = true;
  vb_warn_range : nltb nzero (b_warnAt b) = true /\ nleb (b_warnAt b) (num_of_Z 1) = true
}.

Record ValidConfig (c : BudgetConfig) : Prop := {
  vc_namespace : is_token (bc_namespace c) = true;
  vc_budgets : Forall ValidBudget (bc_budgets c);
  vc_ids : NoDup (map b_id (bc_budgets c))
}.

(** The document of a configuration. *)
Definition budget_doc (b : Budget) : json :=
  JObj ([("id", JStr (b_id b)); ("scope", JStr (scope_name (b_scope b)))] ++
        match b_subject b with Some s => [("subject", JStr s)] | None => [] end ++
        [("window", JStr (window_name (b_window b))); ("limit_usd", JNum (b_limitUsd b));
         ("mode", JStr (mode_name (b_mode b))); ("warn_at", JNum (b_warnAt b))]).

Definition config_doc (c : BudgetConfig) : json :=
  JObj [("schema_version", JStr "budget.v1"); ("namespace", JStr (bc_namespace c));
        ("on_store_error",
          JStr match bc_onStoreError c with open_ => "open" | closed => "closed" end);
        ("budgets", JArr (map budget_doc (bc_budgets c)))].

(** ** Lemmas *)

Lemma finite_number_Some v n : finite_number v = Some n -> is_finite_num n = true.
Proof.
  unfold finite_number. destruct v as [[]|]; try done.
  destruct (is_finite_num _) eqn:Hf; [|done]. by intros [= <-].
Qed.

Lemma token_of_Some v s : token_of v = Some s -> is_token s = true.
Proof.
  unfold token_of. destruct v as [[]|]; try done. destruct (is_token _) eqn:Ht; [|done].
  by intros [= <-].
Qed.

Lemma parse_budget_valid seen v b :
  parse_budget seen v = Ok b -> ValidBudget b /\ b_id b ∉ seen.
Proof.
  unfold parse_budget. intros H. run_ok. injection H as <-. simpl.
  split; [|apply mem_string_false; split_bool; done].
  split; simpl; try (by eauto using token_of_Some, finite_number_Some).
  - match goal with H : parse_subject _ _ _ = _ |- _ => revert H end. unfold parse_subject.
    repeat case_match; try done; intros [= <-]; eauto.
  - match goal with H : finite_number (own _ "limit_usd") = _ |- _ =>
      apply finite_number_Some, finite_not_nan in H end.
    by rewrite nleb_negb.
  - match goal with H : valid_warn_at _ = true |- _ => unfold valid_warn_at in H end. by split_bool.
Qed.

Lemma parse_budgets_valid seen l bs :
  parse_budgets seen l = Ok bs ->
  Forall ValidBudget bs /\ NoDup (map b_id bs) /\ (forall i, i ∈ map b_id bs -> i ∉ seen).
Proof.
  revert seen bs. induction l as [|v l IH]; intros seen bs H; simpl in H.
  - injection H as <-. split; [done|]. split; [constructor|]. intros i. by intros ?%elem_of_nil.
  - run_ok. injection H as <-.
    destruct (parse_budget_valid _ _ _ Heqr) as [Hv Hid].
    destruct (IH _ _ Heqr0) as (Hf & Hnd & Hin). simpl. split; [by constructor|].
    split; [|intros i [->|Hi]%elem_of_cons; [done|]; apply Hin in Hi; set_solver].
    constructor; [|done]. intros Hi. apply Hin in Hi. set_solver.
Qed.

Lemma named_name {A} (name : A -> string) l x :
  (forall y, name y = name x -> y = x) -> x ∈ l -> named name l (Some (JStr (name x))) = Some x.
Proof.
  intros Hinj Hx. simpl. induction l as [|y l IH]; [by apply elem_of_nil in Hx|]. simpl.
  destruct (String.eqb_spec (name y) (name x)) as [Heq|Hne].
  - by rewrite (Hinj y Heq).
  - apply IH. apply elem_of_cons in Hx as [->|]; [done|]. done.
Qed.

Lemma parse_scope s : named scope_name SCOPES (Some (JStr (scope_name s))) = Some s.
Proof. by destruct s. Qed.
Lemma parse_window w : named window_name WINDOWS (Some (JStr (window_name w))) = Some w.
Proof. by destruct w. Qed.
Lemma parse_mode m : named mode_name MODES (Some (JStr (mode_name m))) = Some m.
Proof. by destruct m. Qed.

(** The fields of a budget's document. *)
Definition budget_fields (b : Budget) : obj json :=
  match budget_doc b with JObj o => o | _ => [] end.

Lemma budget_doc_fields b :
  let o := budget_fields b in
  budget_doc b = JObj o /\ own o "id" = Some (JStr (b_id b)) /\
  own o "scope" = Some (JStr (scope_name (b_scope b))) /\
  own o "subject" = JStr <$> b_subject b /\
  own o "window" = Some (JStr (window_name (b_window b))) /\
  own o "limit_usd" = Some (JNum (b_limitUsd b)) /\
  own o "mode" = Some (JStr (mode_name (b_mode b))) /\
  own o "warn_at" = Some (JNum (b_warnAt b)) /\ own o "downgrade_model" = None /\
  forall e : string -> ConfigError, known_fields BUDGET_FIELDS o e = Ok tt.
Proof. unfold budget_fields, budget_doc. by destruct (b_subject b). Qed.

Lemma parse_subject_valid b :
  ValidBudget b -> parse_subject (b_id b) (b_scope b) (JStr <$> b_subject b) = Ok (b_subject b).
Proof.
  intros [_ Hsub _ _ _ _]. destruct (b_scope b); simpl; [by rewrite Hsub|..];
    destruct Hsub as (s & -> & Hs); simpl; by rewrite Hs.
Qed.

Lemma parse_budget_doc seen b :
  ValidBudget b -> b_id b ∉ seen -> parse_budget seen (budget_doc b) = Ok b.
Proof.
  intros Hb Hseen%mem_string_false. pose proof (parse_subject_valid b Hb) as Hs.
  destruct Hb as [Hid _ Hfin Hlim Hwf [Hw0 Hw1]].
  destruct (budget_doc_fields b) as (Hd & E1 & E2 & E3 & E4 & E5 & E6 & E7 & E8 & E9).
  unfold parse_budget. rewrite Hd. cbn [object_of required].
  rewrite E1, E2, E3, E4, E5, E6, E7, E8. cbn [token_of]. rewrite Hid. cbn [required].
  rewrite E9, Hseen. cbn [negb]. rewrite parse_scope. cbn [required]. rewrite Hs, parse_window.
  cbn [required finite_number]. rewrite Hfin. cbn [required].
  assert (valid_limit (b_limitUsd b) = true) as ->
    by (unfold valid_limit; by rewrite <- nleb_negb by (done || by apply finite_not_nan)).
  rewrite parse_mode. cbn [required nullish is_null_or_undef finite_number]. rewrite Hwf.
  cbn [required]. unfold valid_warn_at. rewrite Hw0, Hw1. by destruct b.
Qed.

Lemma parse_budgets_doc seen bs :
  Forall ValidBudget bs -> NoDup (map b_id bs) -> (forall i, i ∈ map b_id bs -> i ∉ seen) ->
  parse_budgets seen (map budget_doc bs) = Ok bs.
Proof.
  intros Hb. revert seen. induction Hb as [|b bs Hb Hbs IH]; intros seen Hnd Hin; [done|].
  apply NoDup_cons in Hnd as [Hni Hnd]. cbn [map parse_budgets].
  rewrite parse_budget_doc by (done || apply Hin; left). rewrite IH; [done|done|].
  intros i Hi [->|Hs]%elem_of_cons; [done|]. by apply (Hin i); [right|].
Qed.

(** ** Properties *)

(** What budget enforcement relies on holds of every accepted document,
    whatever JSON it is: ids are distinct tokens, limits are finite and not
    negative, warning thresholds are fractions in (0, 1], exactly the global
    budgets have no subject, and the namespace is a token, so every counter key
    and every comparison downstream is well defined. *)
Theorem parseBudgetConfig_sound doc config :
  parseBudgetConfig doc = Ok config -> ValidConfig config.
Proof.
  unfold parseBudgetConfig. intros H. run_ok. injection H as <-.
  match goal with H : parse_budgets _ _ = _ |- _ =>
    apply parse_budgets_valid in H as (Hf & Hnd & _) end.
  split; simpl; [by eauto using token_of_Some|done|done].
Qed.

Module SampleBudgets.
Definition support : Budget :=
  mkBudget "support-daily" use_case (Some "support-bot") day (num_of_Z 10) downgrade
    (num_of_Q 8 10).
Definition everyone : Budget :=
  mkBudget "all" global None month (num_of_Z 500) block (num_of_Z 1).
Definition config : BudgetConfig := mkBudgetConfig "acme" closed [support; everyone].

Lemma valid : ValidConfig config.
Proof.
  split; simpl; [reflexivity| |].
  - repeat constructor; simpl; try reflexivity. by exists "support-bot".
  - apply NoDup_cons. split; [|apply NoDup_singleton]. by intros ?%list_elem_of_singleton.
Qed.
End SampleBudgets.

Lemma parseBudgetConfig_sound_witness :
  exists config, parseBudgetConfig (Some (config_doc SampleBudgets.config)) = Ok config /\
    ValidConfig config.
Proof.
  destruct (parseBudgetConfig (Some (config_doc SampleBudgets.config))) as [config|e] eqn:E;
    [|vm_compute in E; discriminate E].
  exists config. split; [reflexivity|]. apply (parseBudgetConfig_sound _ _ E).
Defined.

(** Every valid configuration can be written as a document: parsing the
    document of a configuration gives the configuration back, so validation
    refuses no configuration that meets the guarantees and drops nothing. *)
Theorem parseBudgetConfig_roundtrip config :
  ValidConfig config -> parseBudgetConfig (Some (config_doc config)) = Ok config.
Proof.
  destruct config as [ns onErr bs]. intros [Hns Hbs Hnd]. simpl in *.
  unfold parseBudgetConfig, config_doc. cbn [object_of required bc_namespace bc_onStoreError bc_budgets].
  set (o := [_; _; _; _]).
  assert (own o "namespace" = Some (JStr ns)) as -> by reflexivity.
  assert (own o "budgets" = Some (JArr (map budget_doc bs))) as -> by reflexivity.
  assert (known_fields DOC_FIELDS o unknown_field = Ok tt) as -> by reflexivity.
  cbn [nullish is_null_or_undef token_of]. rewrite Hns. cbn [required].
  rewrite parse_budgets_doc; [by destruct onErr|done|done|].
  intros i _. apply not_elem_of_nil.
Qed.

Lemma parseBudgetConfig_roundtrip_witness :
  parseBudgetConfig (Some (config_doc SampleBudgets.config)) = Ok SampleBudgets.config.
Proof. apply parseBudgetConfig_roundtrip. apply SampleBudgets.valid. Defined.
