(* ===== verification/PolicyDoc.v ===== *)
(** * Route policy documents

    Models [src/gateway/src/middlewares/router/policyDoc.ts] and
    [fromRoutePolicyDoc] of [constraints.ts]: a document is validated against
    the route-policy.v1 schema (the constant [schema], the content of
    [route-policy.v1.schema.json] without titles and descriptions), checked for
    the cross-field rules, and converted.

    The conversion is untyped in the code; here a field of another type than
    its target is the error [ill_typed], and [parsed_policy_well_formed] with
    [parse_never_ill_typed] show that the schema rules it out. *)

From Stdlib Require Import ZArith Lia ZifyBool Ascii Floats.SpecFloat.
From stdpp Require Import base strings option sets list.
From S2P Require Import Prelude JsValue RoutePolicy Constraints BudgetConfig JsonSchema.

#[local] Open Scope string_scope.
#[local] Open Scope list_scope.
#[local] Arguments num_of_Z : simpl never.

(** ** The schema *)

Definition def_identifier : json :=
  JObj [("type", JStr "string"); ("pattern", JStr "^[a-z0-9][a-z0-9._-]*$")].

Definition def_jurisdiction : json :=
  JObj [("type", JStr "string"); ("pattern", JStr "^(any|[A-Z]{2,3})$")].

Definition def_modelTier : json :=
  JObj [
    ("type", JStr "object");
    ("required", JArr [JStr "model"; JStr "input_cost_per_1k"; JStr "output_cost_per_1k"]);
    ("additionalProperties", JBool false);
    ("properties", JObj [
      ("model", JObj [("type", JStr "string"); ("minLength", JNum (num_of_Z 1))]);
      ("provider", JObj [("$ref", JStr "#/$defs/identifier")]);
      ("input_cost_per_1k", JObj [("type", JStr "number"); ("minimum", JNum (num_of_Z 0))]);
      ("output_cost_per_1k", JObj [("type", JStr "number"); ("minimum", JNum (num_of_Z 0))]);
      ("jurisdiction", JObj [("$ref", JStr "#/$defs/jurisdiction")]);
      ("zdr", JObj [("type", JStr "boolean")]);
      ("us_cloud_act_exposure", JObj [("type", JStr "boolean")])])].

Definition def_sensitivity : json :=
  JObj [
    ("type", JStr "object");
    ("required", JArr [JStr "levels"; JStr "unclassified_default"]);
    ("additionalProperties", JBool false);
    ("properties", JObj [
      ("levels", JObj [
        ("type", JStr "array");
        ("items", JObj [("$ref", JStr "#/$defs/identifier")]);
        ("uniqueItems", JBool true);
        ("minItems", JNum (num_of_Z 1));
        ("default", JArr [JStr "public"; JStr "internal"; JStr "confidential"; JStr "restricted"])]);
      ("unclassified_default", JObj [("$ref", JStr "#/$defs/identifier"); ("default", JStr "confidential")]);
      ("pii_escalation", JObj [
        ("type", JStr "object");
        ("propertyNames", JObj [("$ref", JStr "#/$defs/identifier")]);
        ("additionalProperties", JObj [("$ref", JStr "#/$defs/identifier")])]);
      ("anonymise_then_route", JObj [
        ("type", JStr "array");
        ("items", JObj [("$ref", JStr "#/$defs/identifier")]);
        ("uniqueItems", JBool true);
        ("default", JArr [])])])].

Definition def_dataPolicyRule : json :=
  JObj [
    ("type", JStr "object");
    ("required", JArr [JStr "jurisdictions"]);
    ("additionalProperties", JBool false);
    ("properties", JObj [
      ("jurisdictions", JObj [
        ("type", JStr "array");
        ("items", JObj [("$ref", JStr "#/$defs/jurisdiction")]);
        ("minItems", JNum (num_of_Z 1));
        ("uniqueItems", JBool true)]);
      ("providers", JObj [
        ("type", JStr "array");
        ("items", JObj [("$ref", JStr "#/$defs/identifier")]);
        ("minItems", JNum (num_of_Z 1));
        ("uniqueItems", JBool true)]);
      ("require_zdr", JObj [("type", JStr "boolean"); ("default", JBool false)]);
      ("us_cloud_act_exposure", JObj [("type", JStr "boolean")])])].

Definition def_qualityBar : json :=
  JObj [
    ("type", JStr "object");
    ("additionalProperties", JBool false);
    ("properties", JObj [
      ("min_group", JObj [("$ref", JStr "#/$defs/identifier")]);
      ("eval_set", JObj [("type", JStr "string"); ("minLength", JNum (num_of_Z 1))]);
      ("min_parity", JObj [
        ("type", JStr "number");
        ("minimum", JNum (num_of_Z 0));
        ("maximum", JNum (num_of_Z 1));
        ("default", JNum (num_of_Q 19 20))]);
      ("eligible_models", JObj [
        ("type", JStr "array");
        ("items", JObj [("type", JStr "string"); ("minLength", JNum (num_of_Z 1))]);
        ("uniqueItems", JBool true)])])].

Definition def_fallback : json :=
  JObj [
    ("type", JStr "object");
    ("additionalProperties", JBool false);
    ("properties", JObj [
      ("unknown_group", JObj [("enum", JArr [JStr "default_group"]); ("default", JStr "default_group")]);
      ("budget_unsatisfiable", JObj [("enum", JArr [JStr "cheapest"; JStr "fail"]); ("default", JStr "cheapest")]);
      ("no_compliant_candidate", JObj [("const", JStr "fail_closed"); ("default", JStr "fail_closed")]);
      ("max_attempts", JObj [
        ("type", JStr "integer");
        ("minimum", JNum (num_of_Z 1));
        ("default", JNum (num_of_Z 3))]);
      ("retry_after_max_wait_ms", JObj [("type", JStr "integer"); ("minimum", JNum (num_of_Z 0))]);
      ("content_filter_refusal", JObj [("const", JStr "raise"); ("default", JStr "raise")])])].

Definition prop_group_order : json :=
  JObj [
    ("type", JStr "array");
    ("items", JObj [("$ref", JStr "#/$defs/identifier")]);
    ("uniqueItems", JBool true);
    ("minItems", JNum (num_of_Z 1))].

Definition prop_groups : json :=
  JObj [
    ("type", JStr "object");
    ("minProperties", JNum (num_of_Z 1));
    ("propertyNames", JObj [("$ref", JStr "#/$defs/identifier")]);
    ("additionalProperties", JObj [("type", JStr "array"); ("items", JObj [("$ref", JStr "#/$defs/modelTier")])])].

Definition prop_quality_to_group : json :=
  JObj [
    ("type", JStr "object");
    ("required", JArr [JStr "draft"; JStr "balanced"; JStr "critical"]);
    ("additionalProperties", JBool false);
    ("properties", JObj [
      ("draft", JObj [("$ref", JStr "#/$defs/identifier")]);
      ("balanced", JObj [("$ref", JStr "#/$defs/identifier")]);
      ("critical", JObj [("$ref", JStr "#/$defs/identifier")])])].

Definition prop_data_policy : json :=
  JObj [
    ("type", JStr "object");
    ("propertyNames", JObj [("$ref", JStr "#/$defs/identifier")]);
    ("additionalProperties", JObj [("$ref", JStr "#/$defs/dataPolicyRule")])].

Definition prop_use_cases : json :=
  JObj [
    ("type", JStr "object");
    ("propertyNames", JObj [("$ref", JStr "#/$defs/identifier")]);
    ("additionalProperties", JObj [("$ref", JStr "#/$defs/qualityBar")])].

Definition schema_properties : obj json := [
  ("$schema", JObj [("type", JStr "string")]);
  ("schema_version", JObj [("const", JStr "route-policy.v1")]);
  ("policy_version", JObj [("type", JStr "string"); ("minLength", JNum (num_of_Z 1))]);
  ("default_group", JObj [("$ref", JStr "#/$defs/identifier")]);
  ("group_order", prop_group_order);
  ("groups", prop_groups);
  ("quality_to_group", prop_quality_to_group);
  ("strategy", JObj [
    ("enum", JArr [JStr "heuristic"; JStr "cheapest"; JStr "latency"; JStr "learned"]);
    ("default", JStr "heuristic")]);
  ("sensitivity", JObj [("$ref", JStr "#/$defs/sensitivity")]);
  ("data_policy", prop_data_policy);
  ("use_cases", prop_use_cases);
  ("fallback", JObj [("$ref", JStr "#/$defs/fallback")])].

Definition schema_defs : obj json := [
  ("identifier", def_identifier);
  ("jurisdiction", def_jurisdiction);
  ("modelTier", def_modelTier);
  ("sensitivity", def_sensitivity);
  ("dataPolicyRule", def_dataPolicyRule);
  ("qualityBar", def_qualityBar);
  ("fallback", def_fallback)].

Definition schema : json :=
  JObj [
    ("type", JStr "object");
    ("required", JArr [JStr "schema_version"; JStr "default_group"; JStr "groups";
                       JStr "quality_to_group"]);
    ("additionalProperties", JBool false);
    ("properties", JObj schema_properties);
    ("$defs", JObj schema_defs)].

(** [^(any|[A-Z]{2,3})$] *)
Definition is_jurisdiction (s : string) : bool :=
  (s =? "any")%string ||
  (((String.length s =? 2) || (String.length s =? 3))%nat && sforallb is_upper s).

(** [new RegExp(pattern, 'u').test(s)] for the patterns of the schema. *)
Definition policy_pattern (pattern s : string) : bool :=
  if (pattern =? "^[a-z0-9][a-z0-9._-]*$")%string then is_token s
  else if (pattern =? "^(any|[A-Z]{2,3})$")%string then is_jurisdiction s
  else false.

(** ** Cross-field rules *)

Inductive CrossProblem :=
| not_a_group (at_ : Path) (name : string)
| not_a_level (at_ : Path) (name : string).

(** [Object.entries(v || {})] and [(v || []).forEach] on validated values. *)
Definition entries_of (v : any) : obj json := match v with Some (JObj o) => o | _ => [] end.
Definition items_of (v : any) : list json := match v with Some (JArr l) => l | _ => [] end.

Definition strings_of (v : any) : list string :=
  omap (fun x => as_string (Some x)) (items_of v).

Definition known_name (known : list string) (problem : Path -> string -> CrossProblem)
    (at_ : Path) (name : any) : list CrossProblem :=
  match name with
  | Some (JStr n) => if mem_string n known then [] else [problem at_ n]
  | _ => []
  end.

Definition on_entries {B} (f : string -> json -> list B) (o : obj json) : list B :=
  flat_map (fun p => f p.1 p.2) o.

Definition on_items {B} (f : nat -> json -> list B) (l : list json) : list B :=
  flat_map (fun p => f p.1 p.2) (zip (seq 0 (length l)) l).

(** [new Set(s?.levels ?? DEFAULT_LEVELS)] *)
Definition doc_levels (doc : any) : list string :=
  match prop (prop doc "sensitivity") "levels" with
  | None | Some JNull => DEFAULT_LEVELS
  | v => strings_of v
  end.

Definition crossFieldProblems (doc : any) : list CrossProblem :=
  let group := known_name (obj_keys (entries_of (prop doc "groups"))) not_a_group in
  let level := known_name (doc_levels doc) not_a_level in
  let s := prop doc "sensitivity" in
  group [Key "default_group"] (prop doc "default_group") ++
  on_entries (fun k v => group [Key "quality_to_group"; Key k] (Some v))
    (entries_of (prop doc "quality_to_group")) ++
  on_items (fun i g => group [Key "group_order"; Item i] (Some g))
    (items_of (prop doc "group_order")) ++
  on_entries (fun k b => group [Key "use_cases"; Key k; Key "min_group"]
                           (prop (Some b) "min_group"))
    (entries_of (prop doc "use_cases")) ++
  (if truthy s then
     level [Key "sensitivity"; Key "unclassified_default"] (prop s "unclassified_default") ++
     on_entries (fun k v => level [Key "sensitivity"; Key "pii_escalation"; Key k] (Some v))
       (entries_of (prop s "pii_escalation")) ++
     on_items (fun i l => level [Key "sensitivity"; Key "anonymise_then_route"; Item i] (Some l))
       (items_of (prop s "anonymise_then_route"))
   else []) ++
  on_entries (fun k _ => level [Key "data_policy"; Key k] (Some (JStr k)))
    (entries_of (prop doc "data_policy")).

(** ** Conversion *)

Inductive PolicyError :=
| must_be_an_object
| does_not_match_schema (errors : Errors)
| policy_inconsistent (problems : list CrossProblem)
| validator_failed (e : VError)
| ill_typed
| policy_not_json.

Abbreviation read A := (json -> result PolicyError A).

Definition read_string : read string :=
  fun v => match v with JStr s => Ok s | _ => Throw ill_typed end.
Definition read_bool : read bool :=
  fun v => match v with JBool b => Ok b | _ => Throw ill_typed end.
Definition read_num : read num :=
  fun v => match v with JNum n => Ok n | _ => Throw ill_typed end.
Definition read_list {A} (f : read A) : read (list A) :=
  fun v => match v with JArr l => map_throw f l | _ => Throw ill_typed end.

(** Every entry of an object, read by its key and value. *)
Definition read_entries {A} (f : string -> read A) : read (obj A) :=
  fun v => match v with
  | JObj o => map_throw (fun p => let* a := f p.1 p.2 in Ok (p.1, a)) o
  | _ => Throw ill_typed
  end.

Definition required_field {A} (f : read A) (v : json) (k : string) : result PolicyError A :=
  match prop (Some v) k with Some x => f x | None => Throw ill_typed end.

(** [if (v.k !== undefined) target.k = v.k] *)
Definition optional_field {A} (f : read A) (v : json) (k : string)
    : result PolicyError (option A) :=
  match prop (Some v) k with Some x => let* a := f x in Ok (Some a) | None => Ok None end.

Definition read_tier (group : string) : read ModelTier := fun t =>
  let* model := required_field read_string t "model" in
  let* input := required_field read_num t "input_cost_per_1k" in
  let* output := required_field read_num t "output_cost_per_1k" in
  let* provider := optional_field read_string t "provider" in
  let* jurisdiction := optional_field read_string t "jurisdiction" in
  let* zdr := optional_field read_bool t "zdr" in
  let* exposure := optional_field read_bool t "us_cloud_act_exposure" in
  Ok (mkTier model group input output provider jurisdiction zdr exposure).

Definition read_sensitivity : read SensitivityConfig := fun s =>
  let* levels := optional_field (read_list read_string) s "levels" in
  let* default_ := required_field read_string s "unclassified_default" in
  let* escalation := optional_field (read_entries (fun _ => read_string)) s "pii_escalation" in
  Ok (mkSensitivity levels default_ escalation).

Definition read_rule : read DataPolicyRule := fun r =>
  let* jurisdictions := required_field (read_list read_string) r "jurisdictions" in
  let* providers := optional_field (read_list read_string) r "providers" in
  let* zdr := optional_field read_bool r "require_zdr" in
  let* exposure := optional_field read_bool r "us_cloud_act_exposure" in
  Ok (mkRule jurisdictions providers zdr exposure).

Definition read_bar : read UseCaseBar := fun b =>
  let* min_group := optional_field read_string b "min_group" in
  let* eval_set := optional_field read_string b "eval_set" in
  let* min_parity := optional_field read_num b "min_parity" in
  let* models := optional_field (read_list read_string) b "eligible_models" in
  Ok (mkBar min_group eval_set min_parity models).

Definition fromRoutePolicyDoc (doc : json) : result PolicyError RoutePolicy :=
  let* groups := required_field (read_entries (fun name => read_list (read_tier name)))
                   doc "groups" in
  let* default_group := required_field read_string doc "default_group" in
  let* quality := required_field (read_entries (fun _ => read_string)) doc "quality_to_group" in
  let* version := optional_field read_string doc "policy_version" in
  let* order := optional_field (read_list read_string) doc "group_order" in
  let* strategy := optional_field read_string doc "strategy" in
  let* sensitivity := optional_field read_sensitivity doc "sensitivity" in
  let* data_policy := optional_field (read_entries (fun _ => read_rule)) doc "data_policy" in
  let* use_cases := optional_field (read_entries (fun _ => read_bar)) doc "use_cases" in
  Ok (mkPolicy version default_group groups quality order strategy sensitivity
        data_policy use_cases).

(** The schema nests seven levels deep, [$ref] steps included. *)
Definition SCHEMA_FUEL : nat := 8.

Definition parseRoutePolicyDoc (doc : any) : result PolicyError RoutePolicy :=
  match doc with
  | Some (JObj _ as d) =>
      match validate policy_pattern SCHEMA_FUEL schema (Some schema) d [] with
      | Throw e => Throw (validator_failed e)
      | Ok ((_ :: _) as problems) => Throw (does_not_match_schema problems)
      | Ok [] =>
          match crossFieldProblems doc with
          | [] => fromRoutePolicyDoc d
          | cross => Throw (policy_inconsistent cross)
          end
      end
  | _ => Throw must_be_an_object
  end.

(** [JSON.parse] is the argument: its value, or [None] when it throws. *)
Definition parseRoutePolicyText (parsed : option json) : result PolicyError RoutePolicy :=
  match parsed with
  | Some doc => parseRoutePolicyDoc (Some doc)
  | None => Throw policy_not_json
  end.

Lemma schema_depth : schema_within SCHEMA_FUEL schema (Some schema) = true.
Proof. vm_compute. reflexivity. Qed.

(** ** What the schema guarantees *)

Abbreviation acc := (accepts policy_pattern schema).

(** Reading [v] succeeds with a value that has the property. *)
Definition reads {A} (f : read A) (P : A -> Prop) (v : json) : Prop :=
  exists a, f v = Ok a /\ P a.

Lemma reads_impl {A} (f : read A) (P Q : A -> Prop) v :
  reads f P v -> (forall a, P a -> Q a) -> reads f Q v.
Proof. intros (a & ? & ?) HPQ. exists a. auto. Qed.

Lemma map_throw_reads {A B} (f : A -> result PolicyError B) (P : A -> B -> Prop) l :
  (forall x, x ∈ l -> exists y, f x = Ok y /\ P x y) ->
  exists ys, map_throw f l = Ok ys /\ Forall2 P l ys.
Proof.
  induction l as [|x l IH]; intros H; [by exists []|].
  destruct (H x) as (y & Hy & HP); [by left|].
  destruct IH as (ys & Hys & HPs); [intros z Hz; apply H; by right|].
  exists (y :: ys). simpl. rewrite Hy, Hys. by split; [|constructor].
Qed.

Lemma read_list_reads {A} (f : read A) (P : A -> Prop) l :
  Forall (reads f P) l -> reads (read_list f) (Forall P) (JArr l).
Proof.
  intros Hl. rewrite Forall_forall in Hl.
  destruct (map_throw_reads f (fun _ => P) l Hl) as (ys & Hys & HP).
  exists ys. split; [done|]. by eapply Forall2_Forall_r; [|apply Forall_true].
Qed.

(** The entries read from an object: the same keys, each value read as [P]
    says. *)
Definition entries_read {A} (P : string -> json -> A -> Prop) (o : obj json) (m : obj A) : Prop :=
  Forall2 (fun p q => q.1 = p.1 /\ P p.1 p.2 q.2) o m.

Lemma read_entries_reads {A} (f : string -> read A) (P : string -> json -> A -> Prop) o :
  (forall k v, (k, v) ∈ o -> reads (f k) (P k v) v) ->
  reads (read_entries f) (entries_read P o) (JObj o).
Proof.
  intros Ho. apply map_throw_reads. intros [k v] Hin. destruct (Ho k v Hin) as (a & Ha & HP).
  exists (k, a). simpl. by rewrite Ha.
Qed.

Lemma entries_keys {A} (P : string -> json -> A -> Prop) (o : obj json) (m : obj A) :
  entries_read P o m -> obj_keys m = obj_keys o.
Proof. induction 1 as [|? ? ? ? [Hk _] _ IH]; simpl; [done|by rewrite Hk, IH]. Qed.

Lemma entries_own {A} (P : string -> json -> A -> Prop) (o : obj json) (m : obj A) k v :
  entries_read P o m -> own o k = Some v ->
  exists a, own m k = Some a /\ P k v a.
Proof.
  induction 1 as [|[k1 v1] [k2 a] o m [Hk HP] _ IH]; simpl in *; [done|]. subst k2.
  destruct (String.eqb_spec k k1) as [->|]; [|done]. intros [= ->]. by exists a.
Qed.

Lemma entries_elem {A} (P : string -> json -> A -> Prop) (o : obj json) (m : obj A) k a :
  entries_read P o m -> (k, a) ∈ m ->
  exists v, (k, v) ∈ o /\ P k v a.
Proof.
  intros H (i & Hi)%list_elem_of_lookup.
  destruct (Forall2_lookup_r _ _ _ _ _ H Hi) as ([k' v] & Hv & [Hk HP]). simpl in *. subst k'.
  exists v. split; [|done]. by eapply list_elem_of_lookup_2.
Qed.

(** The outcome of an optional field, against the field. *)
Definition field_is {A} (P : json -> A -> Prop) (v : json) (k : string) (o : option A) : Prop :=
  match o with
  | Some a => exists x, prop (Some v) k = Some x /\ P x a
  | None => prop (Some v) k = None
  end.

Lemma optional_reads {A} (f : read A) (P : json -> A -> Prop) v k :
  (forall x, prop (Some v) k = Some x -> reads f (P x) x) ->
  exists o, optional_field f v k = Ok o /\ field_is P v k o.
Proof.
  unfold optional_field. intros H. destruct (prop (Some v) k) as [x|] eqn:Hx.
  - destruct (H x eq_refl) as (a & Ha & HP). exists (Some a). rewrite Ha. split; [done|].
    simpl. eauto.
  - by exists None.
Qed.

Definition is_text (P : string -> Prop) (x : json) (s : string) : Prop := x = JStr s /\ P s.
Definition is_texts (P : string -> Prop) (x : json) (l : list string) : Prop :=
  x = JArr (map JStr l) /\ Forall P l.

Definition token (s : string) : Prop := is_token s = true.
Definition jurisdiction_code (s : string) : Prop := is_jurisdiction s = true.

Lemma identifier_accepted v : acc def_identifier v -> exists s, v = JStr s /\ is_token s = true.
Proof.
  intros Hv. destruct (accepts_string _ _ _ _ Hv eq_refl) as [s ->]. exists s. split; [done|].
  by apply (accepts_pattern _ _ _ _ "^[a-z0-9][a-z0-9._-]*$" Hv eq_refl eq_refl).
Qed.

Lemma jurisdiction_accepted v :
  acc def_jurisdiction v -> exists s, v = JStr s /\ is_jurisdiction s = true.
Proof.
  intros Hv. destruct (accepts_string _ _ _ _ Hv eq_refl) as [s ->]. exists s. split; [done|].
  by apply (accepts_pattern _ _ _ _ "^(any|[A-Z]{2,3})$" Hv eq_refl eq_refl).
Qed.

(** Reading a string the schema describes. *)
Lemma string_reads (P : string -> Prop) v :
  (exists s, v = JStr s /\ P s) -> reads read_string (is_text P v) v.
Proof. intros (s & -> & Hs). by exists s. Qed.

Lemma strings_reads (P : string -> Prop) s it v :
  acc (JObj s) v -> own s "type" = Some (JStr "array") -> own s "items" = Some it ->
  truthy (Some it) = true -> (forall x, acc it x -> exists t, x = JStr t /\ P t) ->
  reads (read_list read_string) (is_texts P v) v.
Proof.
  intros Hv Hty Hit Ht Hx. destruct (accepts_array _ _ _ _ Hv Hty) as [l ->].
  pose proof (accepts_items _ _ _ _ _ Hv Hit Ht) as Hl.
  assert (exists ts, l = map JStr ts /\ Forall P ts) as (ts & -> & HP).
  { clear Hv. induction Hl as [|x l (t & -> & Ht')%Hx _ (ts & -> & Hts)]; [by exists []|].
    by exists (t :: ts); split; [|constructor]. }
  exists ts. split; [|done]. simpl. clear. induction ts as [|t ts IH]; simpl; [done|].
  by rewrite IH.
Qed.

Lemma strings_of_texts l : strings_of (Some (JArr (map JStr l))) = l.
Proof. unfold strings_of. simpl. induction l as [|x l IH]; simpl; [done|by f_equal]. Qed.

(** The reference steps of the schema. *)
Lemma identifier_ref s v :
  acc (JObj s) v -> reference s = Some "#/$defs/identifier" ->
  exists t, v = JStr t /\ is_token t = true.
Proof.
  intros Hv Hr. by apply identifier_accepted, (accepts_reference _ _ _ _ _ _ Hv Hr eq_refl).
Qed.

Lemma jurisdiction_ref s v :
  acc (JObj s) v -> reference s = Some "#/$defs/jurisdiction" ->
  exists t, v = JStr t /\ is_jurisdiction t = true.
Proof.
  intros Hv Hr. by apply jurisdiction_accepted, (accepts_reference _ _ _ _ _ _ Hv Hr eq_refl).
Qed.

Lemma non_empty_text s v :
  acc (JObj s) v -> own s "type" = Some (JStr "string") ->
  own s "minLength" = Some (JNum (num_of_Z 1)) -> exists t, v = JStr t /\ t <> "".
Proof.
  intros Hv Hty Hm. destruct (accepts_string _ _ _ _ Hv Hty) as [t ->]. exists t.
  split; [done|]. intros ->. pose proof (accepts_minLength _ _ _ _ _ Hv Hm) as H.
  by vm_compute in H.
Qed.

Lemma bool_reads s v :
  acc (JObj s) v -> own s "type" = Some (JStr "boolean") ->
  reads read_bool (fun b => v = JBool b) v.
Proof. intros Hv Hty. destruct (accepts_boolean _ _ _ _ Hv Hty) as [b ->]. by exists b. Qed.

(** A number that is not below zero. *)
Lemma rate_reads s v :
  acc (JObj s) v -> own s "type" = Some (JStr "number") ->
  own s "minimum" = Some (JNum (num_of_Z 0)) -> reads read_num (fun n => nltb n nzero = false) v.
Proof.
  intros Hv Hty Hm. destruct (accepts_number _ _ _ _ Hv Hty) as [n ->]. exists n.
  split; [done|]. by apply (accepts_minimum _ _ _ _ _ Hv Hm).
Qed.

Definition requires (l : list json) (k : string) : bool :=
  existsb (fun x => match x with JStr k' => (k' =? k)%string | _ => false end) l.

Lemma requires_In l k : requires l k = true -> JStr k ∈ l.
Proof.
  unfold requires. rewrite existsb_exists. intros ([] & Hx & Hk); try done.
  apply String.eqb_eq in Hk as ->. by apply list_elem_of_In.
Qed.

(** A field the schema describes, read when it is there. *)
Lemma field_reads {A} (f : read A) (P : json -> A -> Prop) k s ps sub o :
  acc (JObj s) (JObj o) ->
  own s "properties" = Some (JObj ps) -> own ps k = Some sub ->
  (forall x, acc sub x -> reads f (P x) x) ->
  exists a, optional_field f (JObj o) k = Ok a /\ field_is P (JObj o) k a.
Proof.
  intros Ho Hps Hsub Hf. apply optional_reads. intros x Hx. apply Hf.
  by apply (accepts_property _ _ _ _ _ _ _ _ Ho Hps Hsub).
Qed.

(** A field the schema requires. *)
Lemma needed_reads {A} (f : read A) (P : json -> A -> Prop) k s ps sub l o :
  acc (JObj s) (JObj o) ->
  own s "properties" = Some (JObj ps) -> own ps k = Some sub ->
  own s "required" = Some (JArr l) -> requires l k = true ->
  (forall x, acc sub x -> reads f (P x) x) ->
  exists a x, required_field f (JObj o) k = Ok a /\ own o k = Some x /\ P x a.
Proof.
  intros Ho Hps Hsub Hl Hk%requires_In Hf.
  destruct (accepts_required _ _ _ _ _ _ Ho Hl Hk) as [x Hx].
  destruct (Hf x) as (a & Ha & HP).
  { by apply (accepts_property _ _ _ _ _ _ _ _ Ho Hps Hsub). }
  exists a, x. unfold required_field. simpl. by rewrite Hx.
Qed.

(** Reads the field [k] of the document [o] that [Ho] says is accepted. *)
Tactic Notation "needed" constr(k) constr(Ho) uconstr(lem) "as" ident(a) ident(HP) :=
  let H := fresh in let Hx := fresh "Hx" in let x := fresh "x" in
  destruct (needed_reads _ _ k _ _ _ _ _ Ho eq_refl eq_refl eq_refl eq_refl
              lem) as (a & x & H & Hx & HP); rewrite H; clear H.
Tactic Notation "field" constr(k) constr(Ho) uconstr(lem) "as" ident(a) ident(HP) :=
  let H := fresh in
  destruct (field_reads _ _ k _ _ _ _ Ho eq_refl eq_refl lem)
    as (a & H & HP); rewrite H; clear H.

Lemma identifier_reads s v :
  acc (JObj s) v -> reference s = Some "#/$defs/identifier" ->
  reads read_string (is_text token v) v.
Proof. intros Hv Hr. by apply string_reads, (identifier_ref s). Qed.

Lemma jurisdiction_reads s v :
  acc (JObj s) v -> reference s = Some "#/$defs/jurisdiction" ->
  reads read_string (is_text jurisdiction_code v) v.
Proof. intros Hv Hr. by apply string_reads, (jurisdiction_ref s). Qed.

Lemma non_empty_reads s v :
  acc (JObj s) v -> own s "type" = Some (JStr "string") ->
  own s "minLength" = Some (JNum (num_of_Z 1)) ->
  reads read_string (is_text (fun t => t <> "") v) v.
Proof. intros Hv Hty Hm. by apply string_reads, (non_empty_text s). Qed.

(** ** The parts of an accepted policy *)

(** What a tier of a parsed policy satisfies. *)
Record tier_ok (group : string) (t : ModelTier) : Prop := {
  to_group : mt_group t = group;
  to_model : mt_model t <> "";
  to_input : nltb (mt_inputCostPer1k t) nzero = false;
  to_output : nltb (mt_outputCostPer1k t) nzero = false;
  to_provider : forall p, mt_provider t = Some p -> is_token p = true;
  to_jurisdiction : forall j, mt_jurisdiction t = Some j -> is_jurisdiction j = true
}.

Lemma tier_reads group s v :
  reference s = Some "#/$defs/modelTier" -> acc (JObj s) v ->
  reads (read_tier group) (tier_ok group) v.
Proof.
  intros Hr Hv. pose proof (accepts_reference _ _ _ _ _ _ Hv Hr eq_refl) as Hd; clear Hv; rename Hd into Hv.
  destruct (accepts_object _ _ _ _ Hv eq_refl) as [o ->]. unfold reads, read_tier.
  needed "model" Hv (fun x H => non_empty_reads _ x H eq_refl eq_refl) as model Hmodel.
  needed "input_cost_per_1k" Hv (fun x H => rate_reads _ x H eq_refl eq_refl) as input Hinput.
  needed "output_cost_per_1k" Hv (fun x H => rate_reads _ x H eq_refl eq_refl) as output Houtput.
  field "provider" Hv (fun x H => identifier_reads _ x H eq_refl) as provider Hprovider.
  field "jurisdiction" Hv (fun x H => jurisdiction_reads _ x H eq_refl) as jur Hjurisdiction.
  field "zdr" Hv (fun x H => bool_reads _ x H eq_refl) as zdr Hzdr.
  field "us_cloud_act_exposure" Hv (fun x H => bool_reads _ x H eq_refl) as exposure Hexposure.
  eexists. split; [done|]. destruct Hmodel as [_ Hmodel].
  split; try done; simpl.
  - intros p ->. by destruct Hprovider as (? & _ & _ & ?).
  - intros j ->. by destruct Hjurisdiction as (? & _ & _ & ?).
Qed.

(** What a rule and a quality bar of a parsed policy satisfy. *)
Record rule_ok (r : DataPolicyRule) : Prop := {
  ro_jurisdictions : dr_jurisdictions r <> [];
  ro_codes : Forall jurisdiction_code (dr_jurisdictions r);
  ro_providers : forall ps, dr_providers r = Some ps -> ps <> []
}.

Lemma strings_non_empty P s it v :
  acc (JObj s) v -> own s "type" = Some (JStr "array") -> own s "items" = Some it ->
  truthy (Some it) = true -> own s "minItems" = Some (JNum (num_of_Z 1)) ->
  (forall x, acc it x -> exists t, x = JStr t /\ P t) ->
  reads (read_list read_string) (fun l => is_texts P v l /\ l <> []) v.
Proof.
  intros Hv Hty Hit Ht Hm Hx.
  destruct (strings_reads P s it v Hv Hty Hit Ht Hx) as (l & Hl & Htexts).
  exists l. split; [done|]. split; [done|]. intros ->. destruct Htexts as [-> _].
  by apply (accepts_minItems _ _ _ _ Hv Hm).
Qed.

Lemma rule_reads s v :
  acc (JObj s) v -> reference s = Some "#/$defs/dataPolicyRule" ->
  reads read_rule rule_ok v.
Proof.
  intros Hs Hr. pose proof (accepts_reference _ _ _ _ _ _ Hs Hr eq_refl) as Hv.
  destruct (accepts_object _ _ _ _ Hv eq_refl) as [o ->]. unfold reads, read_rule.
  needed "jurisdictions" Hv (fun x H => strings_non_empty jurisdiction_code _ _ x H
    eq_refl eq_refl eq_refl eq_refl (fun y Hy => jurisdiction_ref _ y Hy eq_refl)) as js Hjs.
  field "providers" Hv (fun x H => strings_non_empty token _ _ x H
    eq_refl eq_refl eq_refl eq_refl (fun y Hy => identifier_ref _ y Hy eq_refl)) as ps Hps.
  field "require_zdr" Hv (fun x H => bool_reads _ x H eq_refl) as zdr Hzdr.
  field "us_cloud_act_exposure" Hv (fun x H => bool_reads _ x H eq_refl) as exposure Hexposure.
  eexists. split; [done|]. destruct Hjs as [[_ Hcodes] Hne]. split; simpl; try done.
  intros l ->. by destruct Hps as (? & _ & _ & ?).
Qed.

(** A bar, with the group it names. *)
Definition bar_is (v : json) (b : UseCaseBar) : Prop :=
  as_string (prop (Some v) "min_group") = ub_minGroup b.

Lemma text_field P v k o : field_is (is_text P) v k o -> as_string (prop (Some v) k) = o.
Proof. destruct o as [s|]; simpl; [by intros (x & -> & -> & _)|by intros ->]. Qed.

Lemma bar_reads s v :
  acc (JObj s) v -> reference s = Some "#/$defs/qualityBar" -> reads read_bar (bar_is v) v.
Proof.
  intros Hs Hr. pose proof (accepts_reference _ _ _ _ _ _ Hs Hr eq_refl) as Hv.
  destruct (accepts_object _ _ _ _ Hv eq_refl) as [o ->]. unfold reads, read_bar.
  field "min_group" Hv (fun x H => identifier_reads _ x H eq_refl) as group Hgroup.
  field "eval_set" Hv (fun x H => non_empty_reads _ x H eq_refl eq_refl) as eval_set Heval.
  field "min_parity" Hv (fun x H => rate_reads _ x H eq_refl eq_refl) as parity Hparity.
  field "eligible_models" Hv (fun x H => strings_reads (fun t => t <> "") _ _ x H
    eq_refl eq_refl eq_refl (fun y Hy => non_empty_text _ y Hy eq_refl eq_refl))
    as models Hmodels.
  eexists. split; [done|]. by apply text_field in Hgroup.
Qed.

(** The sensitivity section, with the names the cross-field rules read. *)
Record sensitivity_is (v : json) (s : SensitivityConfig) : Prop := {
  si_levels : exists l, sc_levels s = Some l /\ l <> [] /\
    prop (Some v) "levels" = Some (JArr (map JStr l));
  si_unclassified : prop (Some v) "unclassified_default" = Some (JStr (sc_unclassifiedDefault s));
  si_escalation : forall m, sc_piiEscalation s = Some m -> forall k l, (k, l) ∈ m ->
    (k, JStr l) ∈ entries_of (prop (Some v) "pii_escalation")
}.

Lemma names_reads s v :
  acc (JObj s) v -> own s "type" = Some (JStr "object") -> own s "properties" = None ->
  (exists t, own s "additionalProperties" = Some (JObj t) /\
             reference t = Some "#/$defs/identifier") ->
  reads (read_entries (fun _ => read_string))
    (fun m => forall k l, (k, l) ∈ m -> (k, JStr l) ∈ entries_of (Some v)) v.
Proof.
  intros Hv Hty Hps (t & Ht & Hr). destruct (accepts_object _ _ _ _ Hv Hty) as [o ->].
  destruct (read_entries_reads (fun _ => read_string) (fun _ => is_text token) o)
    as (m & Hm & Hom).
  { intros k x Hx. apply (identifier_reads t x); [|done].
    by apply (accepts_entry _ _ _ _ _ _ _ Hv Hps Ht Hx). }
  exists m. split; [done|]. intros k l Hin.
  by destruct (entries_elem _ _ _ _ _ Hom Hin) as (x & Hx & -> & _).
Qed.

Lemma sensitivity_reads s v :
  acc (JObj s) v -> reference s = Some "#/$defs/sensitivity" ->
  reads read_sensitivity (sensitivity_is v) v.
Proof.
  intros Hs Hr. pose proof (accepts_reference _ _ _ _ _ _ Hs Hr eq_refl) as Hv.
  destruct (accepts_object _ _ _ _ Hv eq_refl) as [o ->]. unfold reads, read_sensitivity.
  field "levels" Hv (fun x H => strings_non_empty token _ _ x H
    eq_refl eq_refl eq_refl eq_refl (fun y Hy => identifier_ref _ y Hy eq_refl)) as levels Hlevels.
  needed "unclassified_default" Hv (fun x H => identifier_reads _ x H eq_refl) as level Hlevel.
  field "pii_escalation" Hv (fun x H => names_reads _ x H eq_refl eq_refl
    (ex_intro _ _ (conj eq_refl eq_refl))) as escalation Hescalation.
  eexists. split; [done|]. split; simpl.
  - destruct (accepts_required _ _ _ _ _ "levels" Hv eq_refl) as [w Hw];
      [by apply requires_In|]. destruct levels as [l|]; simpl in Hlevels; [|by rewrite Hlevels in Hw].
    destruct Hlevels as (y & Hy & [-> _] & Hne). by exists l.
  - by destruct Hlevel as [-> _].
  - intros m ->. simpl in Hescalation. destruct Hescalation as (y & Hy & Hm). rewrite Hy. exact Hm.
Qed.

(** One of the strategies of the enumeration. *)
Lemma strategy_reads s v :
  acc (JObj s) v ->
  own s "enum" = Some (JArr (map JStr ["heuristic"; "cheapest"; "latency"; "learned"])) ->
  reads read_string (is_text (fun t => t ∈ ["heuristic"; "cheapest"; "latency"; "learned"]) v) v.
Proof.
  intros Hv Hl. pose proof (accepts_enum _ _ _ _ _ Hv Hl) as H.
  apply existsb_exists in H as (e & He & Hsame). apply in_map_iff in He as (t & <- & Ht).
  destruct v as [| |n|u| |]; simpl in Hsame; try done; try by rewrite andb_false_r in Hsame.
  apply String.eqb_eq in Hsame as <-. exists t. split; [done|]. split; [done|].
  by apply list_elem_of_In.
Qed.

(** How a parsed policy reads the document it comes from. *)
Record document_is (doc : json) (p : RoutePolicy) : Prop := {
  di_groups : exists o, prop (Some doc) "groups" = Some (JObj o) /\
    entries_read (fun name _ tiers => Forall (tier_ok name) tiers) o (rp_groups p);
  di_default : prop (Some doc) "default_group" = Some (JStr (rp_defaultGroup p));
  di_quality : forall k g, (k, g) ∈ rp_qualityToGroup p ->
    (k, JStr g) ∈ entries_of (prop (Some doc) "quality_to_group");
  di_qualities : forall q, is_Some (own (rp_qualityToGroup p) (quality_name q));
  di_order : field_is (is_texts token) doc "group_order" (rp_groupOrder p);
  di_sensitivity : field_is sensitivity_is doc "sensitivity" (rp_sensitivity p);
  di_data_policy : field_is (fun v m => exists o, v = JObj o /\
    entries_read (fun _ _ => rule_ok) o m) doc "data_policy" (rp_dataPolicy p);
  di_use_cases : field_is (fun v m => exists o, v = JObj o /\
    entries_read (fun _ => bar_is) o m) doc "use_cases" (rp_useCases p)
}.

(** An object whose values the schema describes by one subschema. *)
Lemma map_reads {A} (f : string -> read A) (P : string -> json -> A -> Prop) s sub v :
  acc (JObj s) v -> own s "type" = Some (JStr "object") -> own s "properties" = None ->
  own s "additionalProperties" = Some sub ->
  (forall k x, acc sub x -> reads (f k) (P k x) x) ->
  reads (read_entries f) (fun m => exists o, v = JObj o /\ entries_read P o m) v.
Proof.
  intros Hv Hty Hps Hsub Hf. destruct (accepts_object _ _ _ _ Hv Hty) as [o ->].
  destruct (read_entries_reads f P o) as (m & Hm & Hom).
  { intros k x Hx. apply Hf. by apply (accepts_entry _ _ _ _ _ _ _ Hv Hps Hsub Hx). }
  exists m. split; [done|]. by exists o.
Qed.

Lemma tiers_reads name s v :
  acc (JObj s) v -> own s "type" = Some (JStr "array") ->
  (exists t, own s "items" = Some (JObj t) /\ reference t = Some "#/$defs/modelTier") ->
  reads (read_list (read_tier name)) (Forall (tier_ok name)) v.
Proof.
  intros Hv Hty (t & Ht & Hr). destruct (accepts_array _ _ _ _ Hv Hty) as [l ->].
  apply read_list_reads. eapply Forall_impl; [apply (accepts_items _ _ _ _ _ Hv Ht eq_refl)|].
  intros x Hx. by apply (tier_reads name t).
Qed.

(** [quality_to_group]: each quality, named by an identifier. *)
Lemma qualities_reads v :
  acc prop_quality_to_group v ->
  reads (read_entries (fun _ => read_string))
    (fun m => (forall k g, (k, g) ∈ m -> (k, JStr g) ∈ entries_of (Some v)) /\
              (forall q, is_Some (own m (quality_name q)))) v.
Proof.
  intros Hv. destruct (accepts_object _ _ _ _ Hv eq_refl) as [o ->].
  destruct (read_entries_reads (fun _ => read_string) (fun _ => is_text token) o)
    as (m & Hm & Hom).
  { intros k x Hx. destruct (accepts_closed _ _ _ _ _ _ _ Hv eq_refl eq_refl Hx) as (sub & Hk & Hsub).
    assert (sub = JObj [("$ref", JStr "#/$defs/identifier")]) as ->
      by (simpl in Hk; repeat case_match; by simplify_eq).
    by apply (identifier_reads _ x Hsub). }
  exists m. split; [done|]. split.
  - intros k g Hin. by destruct (entries_elem _ _ _ _ _ Hom Hin) as (x & Hx & -> & _).
  - intros q. destruct (accepts_required _ _ _ _ _ (quality_name q) Hv eq_refl) as [x Hx].
    { apply requires_In. by destruct q. }
    destruct (entries_own _ _ _ _ _ Hom Hx) as (g & Hg & _). by exists g.
Qed.

(** The schema makes the conversion succeed. *)
Lemma accepted_converts o :
  acc schema (JObj o) ->
  exists p, fromRoutePolicyDoc (JObj o) = Ok p /\ document_is (JObj o) p.
Proof.
  intros Hv. unfold fromRoutePolicyDoc.
  needed "groups" Hv (fun x H => map_reads _ _ _ _ x H eq_refl eq_refl eq_refl
    (fun k y Hy => tiers_reads k _ y Hy eq_refl (ex_intro _ _ (conj eq_refl eq_refl))))
    as groups Hgroups.
  needed "default_group" Hv (fun x H => identifier_reads _ x H eq_refl) as default_ Hdefault.
  needed "quality_to_group" Hv (fun x H => qualities_reads x H) as quality Hquality.
  field "policy_version" Hv (fun x H => non_empty_reads _ x H eq_refl eq_refl) as version Hversion.
  field "group_order" Hv (fun x H => strings_reads token _ _ x H eq_refl eq_refl eq_refl
    (fun y Hy => identifier_ref _ y Hy eq_refl)) as order Horder.
  field "strategy" Hv (fun x H => strategy_reads _ x H eq_refl) as strategy Hstrategy.
  field "sensitivity" Hv (fun x H => sensitivity_reads _ x H eq_refl) as sens Hsens.
  field "data_policy" Hv (fun x H => map_reads _ _ _ _ x H eq_refl eq_refl eq_refl
    (fun k y Hy => rule_reads _ y Hy eq_refl)) as data Hdata.
  field "use_cases" Hv (fun x H => map_reads _ _ _ _ x H eq_refl eq_refl eq_refl
    (fun k y Hy => bar_reads _ y Hy eq_refl)) as uses Huses.
  eexists. split; [done|]. split; simpl; try done.
  - destruct Hgroups as (g & -> & Hg). by exists g.
  - by destruct Hdefault as [-> _].
  - destruct Hquality as [Hq _]. rewrite Hx1. apply Hq.
  - by destruct Hquality.
Qed.

(** ** The cross-field rules *)

Lemma known_name_nil known problem at_ n :
  known_name known problem at_ (Some (JStr n)) = [] -> n ∈ known.
Proof. simpl. destruct (mem_string n known) eqn:Hn; [|done]. intros _. by apply mem_string_In. Qed.

Lemma flat_map_nil {A B} (f : A -> list B) l : flat_map f l = [] -> forall x, x ∈ l -> f x = [].
Proof.
  intros H x Hx%list_elem_of_In. destruct (f x) as [|y r] eqn:Hf; [done|]. exfalso.
  assert (Hin : In y (flat_map f l)) by (apply in_flat_map; exists x; rewrite Hf; by split; [|left]).
  by rewrite H in Hin.
Qed.

Lemma on_entries_nil {B} (f : string -> json -> list B) o k v :
  on_entries f o = [] -> (k, v) ∈ o -> f k v = [].
Proof. intros H Hin. apply (flat_map_nil _ _ H (k, v) Hin). Qed.

Lemma on_items_nil {B} (f : nat -> json -> list B) l v :
  on_items f l = [] -> v ∈ l -> exists i, f i v = [].
Proof.
  intros H (i & Hi)%list_elem_of_lookup. exists i. apply (flat_map_nil _ _ H (i, v)).
  apply (list_elem_of_lookup_2 _ i), lookup_zip_Some. split; [|done].
  rewrite lookup_seq_lt; [done|]. by eapply lookup_lt_Some.
Qed.

(** The levels a policy knows. *)
Definition policy_levels (p : RoutePolicy) : list string :=
  match rp_sensitivity p with Some s => levels_of s | None => DEFAULT_LEVELS end.

(** What the router relies on in a policy. *)
Record policy_ok (p : RoutePolicy) : Prop := {
  po_default : rp_defaultGroup p ∈ obj_keys (rp_groups p);
  po_quality : forall q, exists g,
    own (rp_qualityToGroup p) (quality_name q) = Some g /\ g ∈ obj_keys (rp_groups p);
  po_order : forall l g, rp_groupOrder p = Some l -> g ∈ l -> g ∈ obj_keys (rp_groups p);
  po_use_cases : forall m u b g, rp_useCases p = Some m -> (u, b) ∈ m ->
    ub_minGroup b = Some g -> g ∈ obj_keys (rp_groups p);
  po_tiers : forall name tiers t, (name, tiers) ∈ rp_groups p -> t ∈ tiers -> tier_ok name t;
  po_unclassified : forall s, rp_sensitivity p = Some s ->
    sc_unclassifiedDefault s ∈ policy_levels p;
  po_escalation : forall s m k l, rp_sensitivity p = Some s -> sc_piiEscalation s = Some m ->
    (k, l) ∈ m -> l ∈ policy_levels p;
  po_data_policy : forall m l r, rp_dataPolicy p = Some m -> (l, r) ∈ m ->
    l ∈ policy_levels p /\ rule_ok r
}.

Lemma doc_levels_is doc p : document_is doc p -> doc_levels (Some doc) = policy_levels p.
Proof.
  intros Hp. pose proof (di_sensitivity _ _ Hp) as Hs. unfold policy_levels, doc_levels.
  destruct (rp_sensitivity p) as [s|]; cbn [field_is] in Hs.
  - destruct Hs as (v & Hv & Hs). rewrite Hv. destruct (si_levels _ _ Hs) as (l & Hl & Hne & Hdoc).
    rewrite Hdoc. unfold levels_of. rewrite Hl.
    rewrite strings_of_texts. by destruct l.
  - by rewrite Hs.
Qed.

Lemma doc_groups_is doc p :
  document_is doc p ->
  obj_keys (entries_of (prop (Some doc) "groups")) = obj_keys (rp_groups p).
Proof.
  intros Hp. destruct (di_groups _ _ Hp) as (o & -> & Ho). symmetry. apply (entries_keys _ _ _ Ho).
Qed.

(** The rules about groups and about levels, one conjunct a rule. *)
Lemma cross_rules doc p :
  document_is doc p -> crossFieldProblems (Some doc) = [] ->
  let group := fun at_ => known_name (obj_keys (rp_groups p)) not_a_group at_ in
  let level := fun at_ => known_name (policy_levels p) not_a_level at_ in
  group [Key "default_group"] (prop (Some doc) "default_group") = [] /\
  (forall k v, (k, v) ∈ entries_of (prop (Some doc) "quality_to_group") ->
    exists at_, group at_ (Some v) = []) /\
  (forall v, v ∈ items_of (prop (Some doc) "group_order") -> exists at_, group at_ (Some v) = []) /\
  (forall k b, (k, b) ∈ entries_of (prop (Some doc) "use_cases") ->
    exists at_, group at_ (prop (Some b) "min_group") = []) /\
  (forall s, prop (Some doc) "sensitivity" = Some (JObj s) ->
    (exists at_, level at_ (prop (Some (JObj s)) "unclassified_default") = []) /\
    (forall k v, (k, v) ∈ entries_of (prop (Some (JObj s)) "pii_escalation") ->
      exists at_, level at_ (Some v) = [])) /\
  (forall k v, (k, v) ∈ entries_of (prop (Some doc) "data_policy") ->
    exists at_, level at_ (Some (JStr k)) = []).
Proof.
  intros Hp. unfold crossFieldProblems. rewrite (doc_levels_is _ _ Hp), (doc_groups_is _ _ Hp).
  intros [Hd [Hq [Ho [Hu [Hs Hdp]%app_eq_nil]%app_eq_nil]%app_eq_nil]%app_eq_nil]%app_eq_nil.
  split; [exact Hd|]. split; [|split; [|split; [|split]]].
  - intros k v Hin. eexists. apply (on_entries_nil _ _ _ _ Hq Hin).
  - intros v Hin. destruct (on_items_nil _ _ _ Ho Hin) as [i Hi]. by eexists.
  - intros k b Hin. eexists. apply (on_entries_nil _ _ _ _ Hu Hin).
  - intros s Hsec. rewrite Hsec in Hs. apply app_eq_nil in Hs as [H1 [H2 _]%app_eq_nil].
    split; [by eexists|]. intros k v Hin. eexists. apply (on_entries_nil _ _ _ _ H2 Hin).
  - intros k v Hin. eexists. apply (on_entries_nil _ _ _ _ Hdp Hin).
Qed.

(** The section of a document that a sensitivity configuration was read from. *)
Lemma sensitivity_object v s : sensitivity_is v s -> exists o, v = JObj o.
Proof. intros Hs. pose proof (si_unclassified _ _ Hs) as H. destruct v; try done. by eexists. Qed.

Lemma consistent_policy_ok doc p :
  document_is doc p -> crossFieldProblems (Some doc) = [] -> policy_ok p.
Proof.
  intros Hp Hcross. destruct (cross_rules doc p Hp Hcross) as (Hd & Hq & Ho & Hu & Hs & Hdp).
  pose proof (di_sensitivity _ _ Hp) as Hsec. split.
  - rewrite (di_default _ _ Hp) in Hd. by apply known_name_nil in Hd.
  - intros q. destruct (di_qualities _ _ Hp q) as [g Hg]. exists g. split; [done|].
    destruct (Hq (quality_name q) (JStr g)) as [at_ H%known_name_nil]; [|done].
    by apply (di_quality _ _ Hp), own_In.
  - intros l g Hl Hg. pose proof (di_order _ _ Hp) as Hor. rewrite Hl in Hor.
    destruct Hor as (v & Hv & -> & _). rewrite Hv in Ho.
    destruct (Ho (JStr g)) as [at_ H%known_name_nil]; [|done].
    simpl. apply list_elem_of_In, in_map_iff. exists g. by rewrite <- list_elem_of_In.
  - intros m u b g Hm Hb Hg. pose proof (di_use_cases _ _ Hp) as Huc. rewrite Hm in Huc.
    destruct Huc as (v & Hv & o & -> & Hom).
    destruct (entries_elem _ _ _ _ _ Hom Hb) as (x & Hx & Hbar). rewrite Hv in Hu.
    destruct (Hu u x Hx) as [at_ H]. unfold bar_is in Hbar. rewrite Hg in Hbar.
    destruct (prop (Some x) "min_group") as [[]|]; try done. injection Hbar as ->.
    by apply known_name_nil in H.
  - intros name tiers t Hin Ht. destruct (di_groups _ _ Hp) as (o & _ & Hom).
    destruct (entries_elem _ _ _ _ _ Hom Hin) as (x & _ & Hall).
    rewrite Forall_forall in Hall. by apply Hall.
  - intros s Hsp. rewrite Hsp in Hsec. destruct Hsec as (v & Hv & His).
    destruct (sensitivity_object _ _ His) as [o ->]. destruct (Hs o Hv) as [[at_ H] _].
    rewrite (si_unclassified _ _ His) in H. by apply known_name_nil in H.
  - intros s m k l Hsp Hm Hin. rewrite Hsp in Hsec. destruct Hsec as (v & Hv & His).
    destruct (sensitivity_object _ _ His) as [o ->]. destruct (Hs o Hv) as [_ Hesc].
    by destruct (Hesc k (JStr l) (si_escalation _ _ His m Hm k l Hin)) as [at_ H%known_name_nil].
  - intros m l r Hm Hin. pose proof (di_data_policy _ _ Hp) as Hdata. rewrite Hm in Hdata.
    destruct Hdata as (v & Hv & o & -> & Hom).
    destruct (entries_elem _ _ _ _ _ Hom Hin) as (x & Hx & Hrule). split; [|done].
    rewrite Hv in Hdp. by destruct (Hdp l x Hx) as [at_ H%known_name_nil].
Qed.

(** ** The parser *)

(** The outcome of parsing an object: problems of the schema, problems across
    fields, or a converted policy. *)
Lemma parse_object o :
  (exists e, parseRoutePolicyDoc (Some (JObj o)) = Throw (does_not_match_schema e) /\ e <> []) \/
  (exists c, parseRoutePolicyDoc (Some (JObj o)) = Throw (policy_inconsistent c) /\
             crossFieldProblems (Some (JObj o)) = c /\ c <> []) \/
  (exists p, parseRoutePolicyDoc (Some (JObj o)) = Ok p /\ document_is (JObj o) p /\
             crossFieldProblems (Some (JObj o)) = []).
Proof.
  unfold parseRoutePolicyDoc.
  destruct (validate_total policy_pattern SCHEMA_FUEL schema (Some schema) (JObj o) []
              schema_depth) as [errors Herrors]. rewrite Herrors.
  destruct errors as [|e errors]; [|left; by eexists]. right.
  destruct (crossFieldProblems (Some (JObj o))) as [|c cs] eqn:Hcross; [right|left; by eexists].
  destruct (accepted_converts o) as (p & Hp & Hdoc); [by exists SCHEMA_FUEL, []|].
  by exists p.
Qed.

Lemma parse_Ok doc p :
  parseRoutePolicyDoc doc = Ok p ->
  exists o, doc = Some (JObj o) /\ document_is (JObj o) p /\
            crossFieldProblems (Some (JObj o)) = [].
Proof.
  intros Hparse. destruct doc as [[| | | | |o]|]; try done. exists o. split; [done|].
  destruct (parse_object o) as [(e & He & _)|[(c & Hc & _)|(q & Hq & Hdoc & Hcross)]];
    try congruence.
  rewrite Hparse in Hq. by injection Hq as <-.
Qed.

(** Classification stays within the levels of a well-formed policy. *)
Lemma classify_known_level p s declared_ pii :
  policy_ok p -> rp_sensitivity p = Some s ->
  exists l, (classifySensitivity p declared_ pii).1 = Some l /\ l ∈ levels_of s.
Proof.
  intros Hok Hs.
  pose proof (po_unclassified _ Hok s Hs) as Hun. unfold policy_levels in Hun. rewrite Hs in Hun.
  unfold classifySensitivity. rewrite Hs.
  assert (Hrank : forall l, (0 <=? rank (levels_of s) l)%Z = true -> l ∈ levels_of s).
  { intros l. unfold rank. destruct (indexOf l (levels_of s)) as [i|] eqn:Hi; [|done].
    intros _. by eapply list_elem_of_lookup_2, indexOf_lookup. }
  assert (Hstart : (declared_level s declared_).1 ∈ levels_of s).
  { unfold declared_level. destruct declared_ as [d|]; [|done].
    destruct (0 <=? rank (levels_of s) d)%Z eqn:Hd; [by apply Hrank|done]. }
  revert Hstart. generalize (declared_level s declared_).
  induction pii as [|c pii IH]; simpl; intros [l src] Hl; [by exists l|].
  apply IH. unfold escalate. destruct (escalation_of s c) as [e|]; [|done].
  destruct (_ && _)%Z eqn:He; [|done]. apply andb_true_iff in He as [He _]. by apply Hrank.
Qed.

(** [C26] Every accepted route policy document gives a policy the router can
    rely on: the default group, each of the three quality targets, every entry
    of the group order and every use case's minimum group name groups of the
    policy; every tier belongs to its group, names a model, has no negative
    rate and a well-formed provider and jurisdiction; and the unclassified
    default, the escalation targets and the levels of the data policy are
    levels the policy knows, each rule allowing at least one jurisdiction. *)
Theorem parsed_policy_well_formed doc p :
  parseRoutePolicyDoc doc = Ok p -> policy_ok p.
Proof.
  intros (o & _ & Hdoc & Hcross)%parse_Ok. by apply (consistent_policy_ok (JObj o)).
Qed.

(** Parsing never fails for another reason than a document that is not an
    object, has problems with the schema, or has problems across fields: the
    validator does not run out of depth or meet an undefined reference, and the
    conversion of a validated document never reads a field of another type. *)
Theorem parse_never_ill_typed doc :
  (exists p, parseRoutePolicyDoc doc = Ok p) \/
  (parseRoutePolicyDoc doc = Throw must_be_an_object /\ is_object doc = false) \/
  (exists e, parseRoutePolicyDoc doc = Throw (does_not_match_schema e) /\ e <> []) \/
  (exists c, parseRoutePolicyDoc doc = Throw (policy_inconsistent c) /\ c <> []).
Proof.
  destruct doc as [[| | | | |o]|]; try (right; left; by split).
  destruct (parse_object o) as [(e & ?)|[(c & ? & _ & ?)|(q & ? & _)]].
  - right; right; left. by exists e.
  - right; right; right. by exists c.
  - left. by exists q.
Qed.

(** Under an accepted policy with a sensitivity section, every call is
    classified to a level of the policy, whatever the caller declares and
    whatever was detected. *)
Theorem parsed_policy_classifies doc p s declared_ pii :
  parseRoutePolicyDoc doc = Ok p -> rp_sensitivity p = Some s ->
  exists l, (classifySensitivity p declared_ pii).1 = Some l /\ l ∈ levels_of s.
Proof.
  intros (o & _ & Hdoc & Hcross)%parse_Ok. apply classify_known_level.
  by apply (consistent_policy_ok (JObj o)).
Qed.

(** A document with every section, and what it is parsed to. *)
Definition example_doc : json :=
  JObj [
    ("schema_version", JStr "route-policy.v1");
    ("default_group", JStr "cheap");
    ("group_order", JArr [JStr "cheap"; JStr "strong"]);
    ("groups", JObj [
      ("cheap", JArr [JObj [("model", JStr "small"); ("provider", JStr "mistral");
        ("input_cost_per_1k", JNum (num_of_Q 1 10)); ("output_cost_per_1k", JNum (num_of_Z 0));
        ("jurisdiction", JStr "FR"); ("zdr", JBool true)]]);
      ("strong", JArr [])]);
    ("quality_to_group", JObj [("draft", JStr "cheap"); ("balanced", JStr "cheap");
                               ("critical", JStr "strong")]);
    ("strategy", JStr "cheapest");
    ("sensitivity", JObj [("levels", JArr [JStr "low"; JStr "high"]);
      ("unclassified_default", JStr "high");
      ("pii_escalation", JObj [("email", JStr "high")])]);
    ("data_policy", JObj [("high", JObj [("jurisdictions", JArr [JStr "EEA"])])]);
    ("use_cases", JObj [("triage", JObj [("min_group", JStr "strong")])])].

Definition example_policy : RoutePolicy :=
  mkPolicy None "cheap"
    [("cheap", [mkTier "small" "cheap" (num_of_Q 1 10) (num_of_Z 0) (Some "mistral")
                  (Some "FR") (Some true) None]); ("strong", [])]
    [("draft", "cheap"); ("balanced", "cheap"); ("critical", "strong")]
    (Some ["cheap"; "strong"]) (Some "cheapest")
    (Some (mkSensitivity (Some ["low"; "high"]) "high" (Some [("email", "high")])))
    (Some [("high", mkRule ["EEA"] None None None)])
    (Some [("triage", mkBar (Some "strong") None None None)]).

Example parse_example : parseRoutePolicyDoc (Some example_doc) = Ok example_policy.
Proof. vm_compute. reflexivity. Qed.

(** A minimum group that is not a group is refused. *)
Example parse_inconsistent :
  parseRoutePolicyDoc (Some (JObj [("schema_version", JStr "route-policy.v1");
    ("default_group", JStr "gone"); ("groups", JObj [("cheap", JArr [])]);
    ("quality_to_group", JObj [("draft", JStr "cheap"); ("balanced", JStr "cheap");
                               ("critical", JStr "cheap")])]))
  = Throw (policy_inconsistent [not_a_group [Key "default_group"] "gone"]).
Proof. vm_compute. reflexivity. Qed.

Lemma parsed_policy_well_formed_witness : policy_ok example_policy.
Proof. apply (parsed_policy_well_formed (Some example_doc)). vm_compute. reflexivity. Defined.

Lemma parsed_policy_classifies_witness :
  exists l, (classifySensitivity example_policy (Some "secret") ["email"]).1 = Some l /\
    l ∈ ["low"; "high"].
Proof.
  apply (parsed_policy_classifies (Some example_doc) example_policy
    (mkSensitivity (Some ["low"; "high"]) "high" (Some [("email", "high")])));
    [vm_compute; reflexivity|reflexivity].
Defined.
