(* ===== verification/Baseline.v ===== *)
(** * The frozen savings baseline

    Models [src/gateway/src/middlewares/router/baseline.ts]: the validation of a
    baseline.v1 document ([parseBaseline], each failure an error value), the
    baseline model of a use case, and the counterfactual cost of an event.
    [models] and [useCases] are objects without a prototype, so every key,
    [__proto__] included, is an ordinary property. *)

From Stdlib Require Import ZArith Lia ZifyBool Ascii Floats.SpecFloat.
From stdpp Require Import base strings option sets list.
From S2P Require Import Prelude JsValue.

#[local] Open Scope string_scope.
#[local] Open Scope list_scope.
#[local] Arguments num_of_Z : simpl never.

Record BaselineRates := mkRates {
  input_cost_per_token : num;
  output_cost_per_token : num;
  cache_read_input_token_cost : num;
  cache_creation_input_token_cost : num
}.

Record Baseline := mkBaseline {
  bl_baselineId : string;
  bl_catalogVersion : string;
  bl_frozenAt : string;
  bl_defaultModel : string;
  bl_useCases : obj string;
  bl_models : obj BaselineRates
}.

Inductive BaselineError :=
| not_an_object
| bad_version
| bad_baseline_id
| missing_field (k : string)
| bad_currency
| no_models
| model_not_object (key : string)
| bad_rate (key field : string)
| bad_default_model
| use_cases_not_object
| bad_use_case (useCase : string).

(** Reading a rate of a missing model, or an error of [parseBaseline]. *)
Inductive PricingError := MissingRates.

Definition BASELINE_SCHEMA_VERSION : string := "baseline.v1".
Definition MAX_BASELINE_ID_LENGTH : nat := 128.
Definition STANDARD_SERVICE_TIERS : list string := ["default"; "standard"; "auto"].

Definition NUL : ascii := ascii_of_N 0.

(** [rate(value, where)] *)
Definition rate (value : any) (key field : string) : result BaselineError num :=
  match value with
  | Some (JNum n) =>
      if is_finite_num n && negb (nltb n nzero) then Ok n else Throw (bad_rate key field)
  | _ => Throw (bad_rate key field)
  end.

(** The four rates, in the order of [RATE_FIELDS]. *)
Definition parse_rates (key : string) (entry : json) : result BaselineError BaselineRates :=
  check is_object (Some entry) else model_not_object key in
  let field := fun f => rate (prop (Some entry) f) key f in
  let* input := field "input_cost_per_token" in
  let* output := field "output_cost_per_token" in
  let* cache_read := field "cache_read_input_token_cost" in
  let* cache_write := field "cache_creation_input_token_cost" in
  Ok (mkRates input output cache_read cache_write).

Fixpoint parse_models (entries : obj json) (models : obj BaselineRates)
    : result BaselineError (obj BaselineRates) :=
  match entries with
  | [] => Ok models
  | (key, entry) :: rest =>
      let* rates := parse_rates key entry in
      parse_models rest (obj_put models key rates)
  end.

Fixpoint parse_use_cases (models : obj BaselineRates) (entries : obj json) (useCases : obj string)
    : result BaselineError (obj string) :=
  match entries with
  | [] => Ok useCases
  | (useCase, model) :: rest =>
      match model with
      | JStr m =>
          check hasOwn models m else bad_use_case useCase in
          parse_use_cases models rest (obj_put useCases useCase m)
      | _ => Throw (bad_use_case useCase)
      end
  end.

Definition valid_id (id : string) : bool :=
  truthy_string (trim id) && Nat.leb (String.length id) MAX_BASELINE_ID_LENGTH &&
  sforallb (fun c => negb (Ascii.eqb c NUL)) id.

Definition parse_id (v : any) : result BaselineError string :=
  match v with
  | Some (JStr id) => if valid_id id then Ok id else Throw bad_baseline_id
  | _ => Throw bad_baseline_id
  end.

Definition non_empty (v : any) (key : string) : result BaselineError string :=
  match v with
  | Some (JStr s) => if truthy_string s then Ok s else Throw (missing_field key)
  | _ => Throw (missing_field key)
  end.

(** A string naming one of the models. *)
Definition named_model (models : obj BaselineRates) (v : any) : result BaselineError string :=
  match v with
  | Some (JStr m) => if hasOwn models m then Ok m else Throw bad_default_model
  | _ => Throw bad_default_model
  end.

Definition parseBaseline (doc : any) : result BaselineError Baseline :=
  check is_object doc else not_an_object in
  check bool_decide (as_string (prop doc "schema_version") = Some BASELINE_SCHEMA_VERSION)
    else bad_version in
  let* id := parse_id (prop doc "baseline_id") in
  let* catalogVersion := non_empty (prop doc "catalog_version") "catalog_version" in
  let* frozenAt := non_empty (prop doc "frozen_at") "frozen_at" in
  check match prop doc "currency" with
        | None => true | Some (JStr c) => (c =? "USD")%string | _ => false end
    else bad_currency in
  let* entries := match prop doc "models" with
                  | Some (JObj (p :: o)) => Ok (p :: o) | _ => Throw no_models end in
  let* models := parse_models entries [] in
  let* defaultModel := named_model models (prop doc "default_model") in
  let* raw := match nullish (prop doc "use_cases") (Some (JObj [])) with
              | Some (JObj o) => Ok o | _ => Throw use_cases_not_object end in
  let* useCases := parse_use_cases models raw [] in
  Ok (mkBaseline id catalogVersion frozenAt defaultModel useCases models).

(** The baseline model of [useCase], else the default model. *)
Definition baselineModelFor (baseline : Baseline) (useCase : any) : string :=
  match useCase with
  | Some (JStr u) => default (bl_defaultModel baseline) (own (bl_useCases baseline) u)
  | _ => bl_defaultModel baseline
  end.

Definition count (event : obj json) (name : string) : option num :=
  match own event name with
  | Some (JNum n) => if is_integer_num n && nleb nzero n then Some n else None
  | _ => None
  end.

Definition standard_tier (event : obj json) : bool :=
  match own event "service_tier" with
  | None | Some JNull => true
  | Some (JStr t) => mem_string t STANDARD_SERVICE_TIERS
  | _ => false
  end.

(** The same order of operations as the SDK. *)
Definition price (r : BaselineRates) (tokensIn tokensOut cached write : num) : num :=
  let uncached := nmax (nsub (nsub tokensIn cached) write) nzero in
  nadd (nadd (nadd (nmul uncached (input_cost_per_token r))
                   (nmul cached (cache_read_input_token_cost r)))
             (nmul write (cache_creation_input_token_cost r)))
       (nmul tokensOut (output_cost_per_token r)).

Definition counterfactualCost (baseline : Baseline) (event : obj json)
    : result PricingError (option num) :=
  if negb (standard_tier event) then Ok None else
  match count event "tokens_in", count event "tokens_out" with
  | Some tokensIn, Some tokensOut =>
      let cached := default nzero (count event "tokens_cached") in
      let write := default nzero (count event "tokens_cache_write") in
      match own (bl_models baseline) (baselineModelFor baseline (own event "use_case_name")) with
      | Some r => Ok (Some (price r tokensIn tokensOut cached write))
      | None => Throw MissingRates
      end
  | _, _ => Ok None
  end.

Definition applyBaseline (baseline : Baseline) (event : obj json)
    : result PricingError (obj json) :=
  let event' := obj_put event "baseline_id" (JStr (bl_baselineId baseline)) in
  let* cost := counterfactualCost baseline event' in
  Ok (match cost with Some c => obj_put event' "counterfactual_cost" (JNum c) | None => event' end).

(** ** What an accepted baseline guarantees *)

Definition valid_rate (n : num) : Prop := is_finite_num n = true /\ nleb nzero n = true.

Definition valid_rates (r : BaselineRates) : Prop :=
  valid_rate (input_cost_per_token r) /\ valid_rate (output_cost_per_token r) /\
  valid_rate (cache_read_input_token_cost r) /\ valid_rate (cache_creation_input_token_cost r).

Record ValidBaseline (b : Baseline) : Prop := {
  vb_default : is_Some (own (bl_models b) (bl_defaultModel b));
  vb_use_cases : forall u m, own (bl_useCases b) u = Some m -> is_Some (own (bl_models b) m);
  vb_rates : forall m r, own (bl_models b) m = Some r -> valid_rates r
}.

(** ** Lemmas *)

Lemma rate_Ok v key f n : rate v key f = Ok n -> valid_rate n.
Proof.
  unfold rate. destruct v as [[| |m| | |]|]; try done. destruct (is_finite_num m) eqn:Hf; [|done].
  destruct (nltb m nzero) eqn:Hm; [done|]. intros [= <-]. split; [done|].
  rewrite nleb_negb; [by rewrite Hm|done|by apply finite_not_nan].
Qed.

Lemma parse_rates_Ok key entry r : parse_rates key entry = Ok r -> valid_rates r.
Proof.
  unfold parse_rates. destruct (is_object _); [|done].
  destruct (rate _ key "input_cost_per_token") eqn:H1; [|done].
  destruct (rate _ key "output_cost_per_token") eqn:H2; [|done].
  destruct (rate _ key "cache_read_input_token_cost") eqn:H3; [|done].
  destruct (rate _ key "cache_creation_input_token_cost") eqn:H4; [|done].
  intros [= <-]. unfold valid_rates. simpl. eauto 10 using rate_Ok.
Qed.

Lemma parse_models_Ok entries acc models :
  (forall m r, own acc m = Some r -> valid_rates r) -> parse_models entries acc = Ok models ->
  forall m r, own models m = Some r -> valid_rates r.
Proof.
  revert acc. induction entries as [|[key entry] rest IH]; intros acc Hacc; simpl;
    [by intros [= <-]|].
  destruct (parse_rates key entry) as [rates|] eqn:Hr; [|done]. apply IH.
  intros m r. rewrite own_put. destruct (m =? key)%string; [|apply Hacc].
  intros [= <-]. by eapply parse_rates_Ok.
Qed.

Lemma hasOwn_Some {A} (o : obj A) k : hasOwn o k = true <-> is_Some (own o k).
Proof. unfold hasOwn. destruct (own o k); [by eauto|]. split; [done|by intros [? [=]]]. Qed.

Lemma parse_use_cases_Ok models entries acc useCases :
  (forall u m, own acc u = Some m -> is_Some (own models m)) ->
  parse_use_cases models entries acc = Ok useCases ->
  forall u m, own useCases u = Some m -> is_Some (own models m).
Proof.
  revert acc. induction entries as [|[u0 m0] rest IH]; intros acc Hacc; simpl;
    [by intros [= <-]|].
  destruct m0 as [| | |m0| |]; try done. destruct (hasOwn models m0) eqn:Hm; [|done]. apply IH.
  intros u m. rewrite own_put. destruct (u =? u0)%string; [|apply Hacc].
  intros [= <-]. by apply hasOwn_Some.
Qed.

Lemma parseBaseline_valid doc b : parseBaseline doc = Ok b -> ValidBaseline b.
Proof.
  unfold parseBaseline. intros H.
  repeat match goal with
  | H : match ?x with Ok _ => _ | Throw _ => _ end = Ok _ |- _ =>
      destruct x eqn:?; [|discriminate H]
  | H : (if ?c then _ else Throw _) = Ok _ |- _ => destruct c eqn:?; [|discriminate H]
  end.
  injection H as <-. split; simpl.
  - match goal with H : named_model _ _ = Ok _ |- _ => revert H end. unfold named_model.
    destruct (prop doc "default_model") as [[| | |m| |]|]; try done.
    destruct (hasOwn _ m) eqn:Hm; [|done]. intros [= <-]. by apply hasOwn_Some.
  - eapply parse_use_cases_Ok; [|done]. by intros ? ?.
  - eapply parse_models_Ok; [|done]. by intros ? ?.
Qed.

(** *** Sums of products of non-negative amounts *)

Definition nonneg (n : num) : bool :=
  match n with
  | S754_zero _ | S754_infinity false | S754_finite false _ _ => true
  | _ => false
  end.

Lemma nonneg_nleb n : nonneg n = true <-> nleb nzero n = true.
Proof. destruct n as [[]|[]| |[] m e]; done. Qed.

Lemma round_nonneg m e l : (0 <= m)%Z -> nonneg (binary_round_aux 53 1024 false m e l) = true.
Proof.
  intros Hm. pose proof (binary_round_aux_not_nan false m e l Hm) as Hn. revert Hn.
  unfold binary_round_aux.
  destruct (shr_fexp 53 1024 m e l) as [r1 e1]. destruct (shr_fexp _ _ _ e1 _) as [r2 e2].
  destruct (shr_m r2); simpl; [done| |done]. by case_match.
Qed.

Lemma normalize_nonneg m e : (0 <= m)%Z -> nonneg (binary_normalize 53 1024 m e false) = true.
Proof.
  intros Hm. unfold binary_normalize, binary_round. destruct m as [|p|p]; [done| |lia].
  match goal with |- context [shl_align ?x ?y ?z] => destruct (shl_align x y z) as [mz ez] end.
  by apply round_nonneg.
Qed.

Lemma nmul_nonneg a b :
  is_finite_num a = true -> nonneg a = true -> nonneg b = true -> is_finite_num b = true ->
  nonneg (nmul a b) = true.
Proof.
  destruct a as [sa|sa| |[] ma ea]; try done; destruct b as [sb|sb| |[] mb eb]; try done;
    intros _ _ _ _; by apply round_nonneg.
Qed.

Lemma nadd_nonneg a b : nonneg a = true -> nonneg b = true -> nonneg (nadd a b) = true.
Proof.
  destruct a as [[]|[]| |[] ma ea]; try done; destruct b as [[]|[]| |[] mb eb]; try done;
    intros _ _; apply normalize_nonneg; simpl; lia.
Qed.

(** The tokens priced at the plain input rate. *)
Definition uncached_tokens (event : obj json) : num :=
  nsub (nsub (default nzero (count event "tokens_in"))
             (default nzero (count event "tokens_cached")))
       (default nzero (count event "tokens_cache_write")).

Lemma count_valid event k n : count event k = Some n -> is_finite_num n = true /\ nonneg n = true.
Proof.
  unfold count. destruct (own event k) as [[| |m| | |]|]; try done.
  destruct (is_integer_num m && nleb nzero m) eqn:Hm; [|done]. intros [= <-]. split_bool.
  split; [by destruct m|by apply nonneg_nleb].
Qed.

Lemma count_default event k :
  is_finite_num (default nzero (count event k)) = true /\
  nonneg (default nzero (count event k)) = true.
Proof. destruct (count event k) eqn:H; simpl; [by eapply count_valid|done]. Qed.

Lemma price_nonneg r tokensIn tokensOut cached write :
  valid_rates r ->
  Forall (fun n => is_finite_num n = true /\ nonneg n = true) [tokensOut; cached; write] ->
  is_finite_num (nsub (nsub tokensIn cached) write) = true ->
  nleb nzero (price r tokensIn tokensOut cached write) = true.
Proof.
  intros (H1 & H2 & H3 & H4) Hc Hu. apply nonneg_nleb. unfold price.
  apply Forall_cons in Hc as [[Ho Ho'] Hc]. apply Forall_cons in Hc as [[Hca Hca'] Hc].
  apply Forall_cons in Hc as [[Hw Hw'] _].
  assert (Hmul : forall a b, is_finite_num a = true -> nonneg a = true -> valid_rate b ->
    nonneg (nmul a b) = true).
  { intros a b Ha Ha' [Hb Hb']. apply nmul_nonneg; [done|done|by apply nonneg_nleb|done]. }
  set (u := nsub (nsub tokensIn cached) write) in *.
  assert (Hmax : is_finite_num (nmax u nzero) = true /\ nonneg (nmax u nzero) = true).
  { unfold nmax. pose proof (finite_not_nan u Hu) as Hn. rewrite Hn. simpl.
    destruct (nltb u nzero) eqn:Hlt; [done|]. destruct (nltb nzero u) eqn:Hgt.
    - split; [done|]. apply nonneg_nleb. by apply nltb_nleb.
    - destruct (is_neg_zero u) eqn:Hz; [done|]. split; [done|]. apply nonneg_nleb.
      rewrite nleb_negb; [by rewrite Hlt|done|done]. }
  destruct Hmax. by repeat apply nadd_nonneg; apply Hmul.
Qed.

(** ** Properties *)

(** A loaded baseline prices every event or says it cannot: whatever the
    document and whatever the event, the lookup of the rates never fails; the
    cost is missing exactly for a non-standard service tier or missing token
    counts; otherwise it is the event's tokens at the frozen rates of the use
    case's model (the default model for an unlisted or absent use case), and it
    is never negative nor NaN. *)
Theorem counterfactual_total doc b event :
  parseBaseline doc = Ok b ->
  exists cost, counterfactualCost b event = Ok cost /\
    match cost with
    | None => standard_tier event = false \/ count event "tokens_in" = None \/
        count event "tokens_out" = None
    | Some c => standard_tier event = true /\
        exists tokensIn tokensOut r,
          count event "tokens_in" = Some tokensIn /\ count event "tokens_out" = Some tokensOut /\
          own (bl_models b) (baselineModelFor b (own event "use_case_name")) = Some r /\
          valid_rates r /\
          c = price r tokensIn tokensOut (default nzero (count event "tokens_cached"))
                (default nzero (count event "tokens_cache_write")) /\
          (is_finite_num (uncached_tokens event) = true -> nleb nzero c = true)
    end.
Proof.
  intros [Hd Hu Hr]%parseBaseline_valid. unfold counterfactualCost.
  destruct (standard_tier event) eqn:Ht; simpl; [|exists None; by eauto].
  destruct (count event "tokens_in") as [tin|] eqn:Hin; [|exists None; by eauto].
  destruct (count event "tokens_out") as [tout|] eqn:Hout; [|exists None; by eauto].
  assert (is_Some (own (bl_models b) (baselineModelFor b (own event "use_case_name")))) as [r Hm].
  { unfold baselineModelFor. destruct (own event "use_case_name") as [[| | |u| |]|]; try done.
    destruct (own (bl_useCases b) u) eqn:Huc; simpl; [by eapply Hu|done]. }
  rewrite Hm. eexists. split; [done|]. split; [done|]. exists tin, tout, r.
  do 3 (split; [done|]). split; [by eapply Hr|]. split; [done|]. intros Hf.
  apply price_nonneg; [by eapply Hr| |].
  - repeat constructor; try apply count_default; by apply (count_valid _ _ _ Hout).
  - unfold uncached_tokens in Hf. by rewrite Hin in Hf.
Qed.

Module SampleBaseline.
Definition rates : json :=
  JObj [("input_cost_per_token", JNum (num_of_Q 1 100000));
        ("output_cost_per_token", JNum (num_of_Q 3 100000));
        ("cache_read_input_token_cost", JNum (num_of_Q 1 1000000));
        ("cache_creation_input_token_cost", JNum nzero)].
Definition doc : any :=
  Some (JObj [("schema_version", JStr "baseline.v1"); ("baseline_id", JStr "q3");
              ("catalog_version", JStr "2026-01"); ("frozen_at", JStr "2026-07-01");
              ("models", JObj [("gpt-large", rates); ("gpt-small", rates)]);
              ("default_model", JStr "gpt-large");
              ("use_cases", JObj [("support", JStr "gpt-small")])]).
Definition event : obj json :=
  [("tokens_in", JNum (num_of_Z 1000)); ("tokens_out", JNum (num_of_Z 100));
   ("use_case_name", JStr "support")].
End SampleBaseline.

Lemma counterfactual_total_witness :
  exists b c, parseBaseline SampleBaseline.doc = Ok b /\
    counterfactualCost b SampleBaseline.event = Ok (Some c) /\ nltb nzero c = true.
Proof.
  destruct (parseBaseline SampleBaseline.doc) as [b|e] eqn:E; [|vm_compute in E; discriminate E].
  destruct (counterfactual_total _ _ SampleBaseline.event E) as (cost & Hc & _).
  exists b. destruct cost as [c|].
  - exists c. split; [reflexivity|]. split; [exact Hc|].
    vm_compute in E. injection E as <-. vm_compute in Hc. injection Hc as <-. vm_compute. reflexivity.
  - exfalso. vm_compute in E. injection E as <-. vm_compute in Hc. discriminate Hc.
Defined.
