(* ===== verification/BudgetStore.v ===== *)
(** * Budget stores

    Models [src/gateway/src/middlewares/psBudget/store.ts]: the interface every
    store offers to the budget middleware, as a class over the store's state,
    and the in-process [MemoryBudgetStore].  The Redis store runs Lua scripts
    inside a Redis server and is not modelled; the middleware's theorems
    (file Budget) are proved for every instance of the class, whose operations
    may fail.

    A [Map] is its entries in insertion order.  Amounts and times are binary64
    numbers; each reading of the store's clock is an argument. *)

From Stdlib Require Import ZArith Lia ZifyBool Ascii.
From stdpp Require Import base strings option list.
From S2P Require Import Prelude JsValue.

#[local] Open Scope string_scope.
#[local] Open Scope list_scope.

Record BudgetUsage := mkUsage { spent : num; reserved : num }.

Record ReserveArgs := mkReserve {
  ra_key : string;
  ra_id : string;
  ra_amount : num;
  ra_nowMs : num;
  ra_reservationTtlMs : num;
  ra_limit : option num
}.

Record ReserveResult := mkReserveResult { rr_ok : bool; rr_usage : BudgetUsage }.

(** What a store offers: each operation may throw, whatever it did before. *)
Class BudgetStore (St : Type) := {
  store_read : list string -> num -> St -> result string (list BudgetUsage) * St;
  store_reserve : ReserveArgs -> St -> result string ReserveResult * St;
  store_settle : string -> string -> num -> num -> Z -> St -> result string unit * St
}.

(** ** MemoryBudgetStore *)

Record Counter := mkCounter { c_spent : num; c_expiresAt : num }.
Record Reservation := mkReservation { r_amount : num; r_expiresAt : num }.

Record MemoryStore := mkMemory {
  counters : obj Counter;
  reservations : obj (obj Reservation);
  ms_clock : num
}.

Definition expired (t now : num) : bool := nleb t now.

(** [if (c && c.expiresAt <= this.clock()) this.counters.delete(key)] *)
Definition drop_counter (key : string) (s : MemoryStore) : MemoryStore :=
  match own (counters s) key with
  | Some c =>
      if expired (c_expiresAt c) (ms_clock s)
      then mkMemory (map_delete (counters s) key) (reservations s) (ms_clock s) else s
  | None => s
  end.

(** The live reservations, and their sum in insertion order. *)
Definition live (nowMs : num) (res : obj Reservation) : obj Reservation :=
  List.filter (fun p => negb (expired (r_expiresAt p.2) nowMs)) res.

Definition sum_reserved (res : obj Reservation) : num :=
  fold_left (fun acc p => nadd acc (r_amount p.2)) res nzero.

Definition with_reservations (key : string) (res : obj Reservation) (s : MemoryStore) : MemoryStore :=
  mkMemory (counters s) (obj_put (reservations s) key res) (ms_clock s).

Definition usage (key : string) (nowMs : num) (s : MemoryStore) : BudgetUsage * MemoryStore :=
  let s := drop_counter key s in
  let spent := match own (counters s) key with Some c => c_spent c | None => nzero end in
  match own (reservations s) key with
  | Some res =>
      (mkUsage spent (sum_reserved (live nowMs res)), with_reservations key (live nowMs res) s)
  | None => (mkUsage spent nzero, s)
  end.

Fixpoint memory_read (keys : list string) (nowMs : num) (s : MemoryStore)
    : list BudgetUsage * MemoryStore :=
  match keys with
  | [] => ([], s)
  | k :: r =>
      let '(u, s) := usage k nowMs s in
      let '(us, s) := memory_read r nowMs s in (u :: us, s)
  end.

(** [a.limit !== undefined && spent + reserved >= a.limit] *)
Definition over_limit (limit : option num) (u : BudgetUsage) : bool :=
  match limit with Some l => nleb l (nadd (spent u) (reserved u)) | None => false end.

Definition memory_reserve (a : ReserveArgs) (s : MemoryStore) : ReserveResult * MemoryStore :=
  let '(u, s) := usage (ra_key a) (ra_nowMs a) s in
  if over_limit (ra_limit a) u then (mkReserveResult false u, s)
  else
    let res := default [] (own (reservations s) (ra_key a)) in
    (mkReserveResult true u,
     with_reservations (ra_key a)
       (obj_put res (ra_id a)
          (mkReservation (ra_amount a) (nadd (ra_nowMs a) (ra_reservationTtlMs a)))) s).

(** [res?.delete(id); if (res && !res.size) this.reservations.delete(key)] *)
Definition drop_reservation (key id : string) (s : MemoryStore) : MemoryStore :=
  match own (reservations s) key with
  | Some res =>
      match map_delete res id with
      | [] => mkMemory (counters s) (map_delete (reservations s) key) (ms_clock s)
      | res' => with_reservations key res' s
      end
  | None => s
  end.

Definition add_spent (key : string) (actual : num) (ttlSeconds : Z) (s : MemoryStore) : MemoryStore :=
  let c' := match own (counters s) key with
    | Some c => mkCounter (nadd (c_spent c) actual) (c_expiresAt c)
    | None => mkCounter actual (nadd (ms_clock s) (nmul (num_of_Z ttlSeconds) (num_of_Z 1000)))
    end in
  mkMemory (obj_put (counters s) key c') (reservations s) (ms_clock s).

Definition memory_settle (key id : string) (amount actual : num) (ttlSeconds : Z)
    (s : MemoryStore) : MemoryStore :=
  let s := drop_reservation key id s in
  if negb (nltb nzero actual) then s
  else add_spent key actual ttlSeconds (usage key nzero s).2.

#[export] Instance MemoryBudgetStore : BudgetStore MemoryStore := {
  store_read keys nowMs s := let '(us, s) := memory_read keys nowMs s in (Ok us, s);
  store_reserve a s := let '(r, s) := memory_reserve a s in (Ok r, s);
  store_settle key id amount actual ttl s := (Ok tt, memory_settle key id amount actual ttl s)
}.

(** ** What the store holds: the abstract account of a counter

    The spend the store reports for a key at a time, and the reservations it
    counts.  Two stores are the same for a key when these agree. *)

Definition spent_of (key : string) (s : MemoryStore) : num :=
  match own (counters s) key with
  | Some c => if expired (c_expiresAt c) (ms_clock s) then nzero else c_spent c
  | None => nzero
  end.

Definition expiry_of (key : string) (s : MemoryStore) : option num :=
  match own (counters s) key with
  | Some c => if expired (c_expiresAt c) (ms_clock s) then None else Some (c_expiresAt c)
  | None => None
  end.

Definition held (key : string) (s : MemoryStore) : obj Reservation :=
  default [] (own (reservations s) key).

Definition memory_wf (s : MemoryStore) : Prop :=
  NoDup (obj_keys (counters s)) /\ NoDup (obj_keys (reservations s)) /\
  forall key res, own (reservations s) key = Some res -> NoDup (obj_keys res).

(** ** Lemmas *)

Lemma obj_keys_put {A} (o : obj A) k v :
  obj_keys (obj_put o k v) = if hasOwn o k then obj_keys o else obj_keys o ++ [k].
Proof.
  unfold hasOwn. induction o as [|[x w] o IH]; simpl; [done|].
  destruct (k =? x)%string eqn:Hx; simpl; [done|].
  fold (obj_keys o). fold (obj_keys (obj_put o k v)). rewrite IH. by destruct (own o k).
Qed.

Lemma NoDup_put {A} (o : obj A) k v : NoDup (obj_keys o) -> NoDup (obj_keys (obj_put o k v)).
Proof.
  intros Hnd. rewrite obj_keys_put. unfold hasOwn. destruct (own o k) eqn:Ho; [done|].
  apply NoDup_app. split; [done|]. split; [|apply NoDup_singleton].
  intros x Hx ->%list_elem_of_singleton. by apply own_None in Ho.
Qed.

Lemma NoDup_live nowMs res : NoDup (obj_keys res) -> NoDup (obj_keys (live nowMs res)).
Proof.
  unfold obj_keys, live. induction res as [|p res IH]; simpl; intros Hnd; [done|].
  apply NoDup_cons in Hnd as [Hp Hnd]. destruct (negb _); simpl; [|by apply IH].
  constructor; [|by apply IH]. intros Hin. apply Hp.
  apply list_elem_of_In, in_map_iff in Hin as (q & Hq & Hin).
  apply filter_In in Hin as [Hin _]. rewrite <- Hq. apply list_elem_of_In. by apply in_map.
Qed.

Lemma drop_counter_spent key s k :
  memory_wf s -> spent_of k (drop_counter key s) = spent_of k s /\
    expiry_of k (drop_counter key s) = expiry_of k s.
Proof.
  intros _. unfold drop_counter, spent_of, expiry_of.
  destruct (own (counters s) key) as [c|] eqn:Hc; [|done].
  destruct (expired _ _) eqn:He; simpl; [|done].
  destruct (decide (k = key)) as [->|Hne].
  - by rewrite own_map_delete_eq, Hc, He.
  - by rewrite own_map_delete.
Qed.

Lemma drop_counter_own key s :
  match own (counters (drop_counter key s)) key with
  | Some c => c_spent c | None => nzero end = spent_of key s /\
  expiry_of key s = c_expiresAt <$> own (counters (drop_counter key s)) key.
Proof.
  unfold drop_counter, spent_of, expiry_of.
  destruct (own (counters s) key) as [c|] eqn:Hc; [|by rewrite Hc].
  destruct (expired _ _) eqn:He; simpl; [by rewrite own_map_delete_eq|by rewrite Hc].
Qed.

Lemma drop_counter_rest key s :
  reservations (drop_counter key s) = reservations s /\ ms_clock (drop_counter key s) = ms_clock s.
Proof.
  unfold drop_counter. destruct (own (counters s) key) as [c|]; [|done]. by destruct (expired _ _).
Qed.

Lemma drop_counter_wf key s : memory_wf s -> memory_wf (drop_counter key s).
Proof.
  intros (Hc & Hr & Hin). unfold drop_counter.
  destruct (own (counters s) key) as [c|]; [|done]. destruct (expired _ _); [|done].
  split; [by apply NoDup_map_delete|done].
Qed.

Lemma with_reservations_wf key res s :
  memory_wf s -> NoDup (obj_keys res) -> memory_wf (with_reservations key res s).
Proof.
  intros (Hc & Hr & Hin) Hres. split; [done|]. split; [by apply NoDup_put|].
  intros k r. simpl. rewrite own_put. destruct (k =? key)%string; [by intros [= <-]|apply Hin].
Qed.

Lemma held_with key res s k :
  held k (with_reservations key res s) = if (k =? key)%string then res else held k s.
Proof. unfold held. simpl. rewrite own_put. by destruct (k =? key)%string. Qed.

(** What [usage] reports and what it changes. *)
Lemma usage_spec key nowMs s u s' :
  memory_wf s -> usage key nowMs s = (u, s') ->
  u = mkUsage (spent_of key s) (sum_reserved (live nowMs (held key s))) /\
  memory_wf s' /\ ms_clock s' = ms_clock s /\
  (forall k, spent_of k s' = spent_of k s /\ expiry_of k s' = expiry_of k s) /\
  (forall k, held k s' = if (k =? key)%string then live nowMs (held k s) else held k s).
Proof.
  intros Hwf. unfold usage. set (d := drop_counter key s).
  assert (Hd : forall k, spent_of k d = spent_of k s /\ expiry_of k d = expiry_of k s)
    by (intros k; by apply drop_counter_spent).
  destruct (drop_counter_own key s) as [Hsp _]. fold d in Hsp. rewrite Hsp.
  destruct (drop_counter_rest key s) as [Hres Hck]. fold d in Hres, Hck.
  assert (Hwd : memory_wf d) by (by apply drop_counter_wf).
  assert (Hh : forall k, held k d = held k s) by (intros k; unfold held; by rewrite Hres).
  destruct (own (reservations d) key) as [res|] eqn:Hr; intros [= <- <-].
  - assert (Hkey : held key s = res) by (rewrite <- Hh; unfold held; by rewrite Hr).
    rewrite Hkey. split; [done|]. split.
    { apply with_reservations_wf; [done|]. apply NoDup_live. destruct Hwd as (_ & _ & Hin). eauto. }
    split; [done|]. split; [done|]. intros k. rewrite held_with, Hh.
    destruct (String.eqb_spec k key) as [->|]; [by rewrite Hkey|done].
  - assert (Hkey : held key s = []) by (rewrite <- Hh; unfold held; by rewrite Hr).
    rewrite Hkey. split; [done|]. split; [done|]. split; [done|]. split; [done|].
    intros k. rewrite Hh. destruct (String.eqb_spec k key) as [->|]; [by rewrite Hkey|done].
Qed.

Lemma drop_reservation_spec key id s :
  memory_wf s ->
  memory_wf (drop_reservation key id s) /\
  counters (drop_reservation key id s) = counters s /\
  ms_clock (drop_reservation key id s) = ms_clock s /\
  (forall k, held k (drop_reservation key id s) =
    if (k =? key)%string then map_delete (held k s) id else held k s).
Proof.
  intros (Hc & Hr & Hin). unfold drop_reservation.
  destruct (own (reservations s) key) as [res|] eqn:Ho.
  - pose proof (Hin _ _ Ho) as Hres.
    destruct (map_delete res id) as [|p res'] eqn:Hd.
    + split; [split; [done|]; split; [by apply NoDup_map_delete|]|].
      { simpl. intros k r Hk. destruct (decide (k = key)) as [->|Hne].
        - by rewrite own_map_delete_eq in Hk.
        - rewrite own_map_delete in Hk by done. eauto. }
      split; [done|]. split; [done|]. intros k. unfold held. simpl.
      destruct (String.eqb_spec k key) as [->|Hne].
      * by rewrite own_map_delete_eq, Ho.
      * by rewrite own_map_delete.
    + split.
      { apply with_reservations_wf; [done|]. rewrite <- Hd. by apply NoDup_map_delete. }
      split; [done|]. split; [done|]. intros k. rewrite held_with.
      destruct (String.eqb_spec k key) as [->|]; [|done]. unfold held. rewrite Ho. simpl. by rewrite Hd.
  - split; [done|]. split; [done|]. split; [done|]. intros k.
    destruct (String.eqb_spec k key) as [->|]; [|done]. unfold held. by rewrite Ho.
Qed.

(** What a reader of [key] at [nowMs] is told. *)
Definition usage_of (key : string) (nowMs : num) (s : MemoryStore) : BudgetUsage :=
  mkUsage (spent_of key s) (sum_reserved (live nowMs (held key s))).

Lemma reserve_spec a s r s' :
  memory_wf s -> memory_reserve a s = (r, s') ->
  memory_wf s' /\ ms_clock s' = ms_clock s /\
  rr_usage r = usage_of (ra_key a) (ra_nowMs a) s /\
  rr_ok r = negb (over_limit (ra_limit a) (usage_of (ra_key a) (ra_nowMs a) s)) /\
  (forall k, spent_of k s' = spent_of k s /\ expiry_of k s' = expiry_of k s) /\
  (forall k, held k s' =
     if (k =? ra_key a)%string then
       let res := live (ra_nowMs a) (held k s) in
       if rr_ok r then
         obj_put res (ra_id a)
           (mkReservation (ra_amount a) (nadd (ra_nowMs a) (ra_reservationTtlMs a)))
       else res
     else held k s).
Proof.
  intros Hwf. unfold memory_reserve.
  destruct (usage (ra_key a) (ra_nowMs a) s) as [u s1] eqn:Hu.
  pose proof (usage_spec _ _ _ _ _ Hwf Hu) as (-> & Hwf1 & Hck & Hsp & Hheld).
  fold (usage_of (ra_key a) (ra_nowMs a) s).
  destruct (over_limit _ _) eqn:Hover; intros [= <- <-]; simpl.
  - done.
  - split.
    { apply with_reservations_wf; [done|]. apply NoDup_put.
      destruct Hwf1 as (_ & _ & Hin). unfold held in Hheld.
      destruct (own (reservations s1) (ra_key a)) as [res|] eqn:Hr; simpl; [eauto|constructor]. }
    split; [done|]. split; [done|]. split; [done|]. split; [exact Hsp|].
    intros k. rewrite held_with, Hheld. fold (held (ra_key a) s1). rewrite Hheld.
    destruct (String.eqb_spec k (ra_key a)) as [->|]; [by rewrite String.eqb_refl|done].
Qed.

Lemma add_spent_spec key actual ttl s :
  memory_wf s ->
  memory_wf (add_spent key actual ttl s) /\
  own (counters (add_spent key actual ttl s)) key =
    Some match own (counters s) key with
         | Some c => mkCounter (nadd (c_spent c) actual) (c_expiresAt c)
         | None => mkCounter actual (nadd (ms_clock s) (nmul (num_of_Z ttl) (num_of_Z 1000)))
         end /\
  (forall k, k <> key -> own (counters (add_spent key actual ttl s)) k = own (counters s) k) /\
  (forall k, held k (add_spent key actual ttl s) = held k s).
Proof.
  intros (Hc & Hr & Hin). split; [split; [by apply NoDup_put|done]|].
  split; [simpl; by rewrite own_put, String.eqb_refl|]. split; [|done].
  intros k Hk. simpl. rewrite own_put. by destruct (String.eqb_spec k key).
Qed.

(** The counter of [key] after adding [actual] to it at the store's clock. *)
Definition counter_after (key : string) (actual : num) (ttl : Z) (s : MemoryStore) : Counter :=
  match expiry_of key s with
  | Some e => mkCounter (nadd (spent_of key s) actual) e
  | None => mkCounter actual (nadd (ms_clock s) (nmul (num_of_Z ttl) (num_of_Z 1000)))
  end.

Lemma usage_counters key nowMs s :
  counters (usage key nowMs s).2 = counters (drop_counter key s).
Proof. unfold usage. by destruct (own (reservations _) key). Qed.

Lemma drop_counter_live key s :
  own (counters (drop_counter key s)) key =
  (fun e => mkCounter (spent_of key s) e) <$> expiry_of key s.
Proof.
  unfold drop_counter, spent_of, expiry_of.
  destruct (own (counters s) key) as [[sp e]|] eqn:Hc; simpl; [|by rewrite Hc].
  destruct (expired _ _) eqn:He; simpl; [by rewrite own_map_delete_eq|by rewrite Hc].
Qed.

Lemma settle_spec key id amount actual ttl s :
  memory_wf s ->
  let s' := memory_settle key id amount actual ttl s in
  memory_wf s' /\
  (forall k, k <> key -> spent_of k s' = spent_of k s /\ expiry_of k s' = expiry_of k s /\
     held k s' = held k s) /\
  (nltb nzero actual = false ->
     spent_of key s' = spent_of key s /\ expiry_of key s' = expiry_of key s /\
     held key s' = map_delete (held key s) id) /\
  (nltb nzero actual = true ->
     own (counters s') key = Some (counter_after key actual ttl s) /\
     held key s' = live nzero (map_delete (held key s) id)).
Proof.
  intros Hwf s'. subst s'. unfold memory_settle.
  pose proof (drop_reservation_spec key id s Hwf) as (Hwf1 & Hcnt & Hck & Hheld).
  set (s1 := drop_reservation key id s) in *.
  assert (Hsp1 : forall k, spent_of k s1 = spent_of k s /\ expiry_of k s1 = expiry_of k s)
    by (intros k; unfold spent_of, expiry_of; by rewrite Hcnt, Hck).
  assert (Hkey1 : held key s1 = map_delete (held key s) id)
    by (by rewrite Hheld, String.eqb_refl).
  assert (Hoth1 : forall k, k <> key -> held k s1 = held k s)
    by (intros k Hk; rewrite Hheld; by destruct (String.eqb_spec k key)).
  destruct (nltb nzero actual) eqn:Hpos; cbn [negb].
  - destruct (usage key nzero s1) as [u s2] eqn:Hu.
    pose proof (usage_spec _ _ _ _ _ Hwf1 Hu) as (_ & Hwf2 & Hck2 & Hsp2 & Hheld2).
    pose proof (usage_counters key nzero s1) as Hc2. rewrite Hu in Hc2. cbn [snd] in Hc2 |- *.
    pose proof (add_spent_spec key actual ttl s2 Hwf2) as (Hwf3 & Hown & Hoth & Hh3).
    split; [done|]. split; [|split; [done|]].
    + intros k Hk. rewrite Hh3, Hheld2. destruct (String.eqb_spec k key) as [->|_]; [done|].
      rewrite <- (Hoth1 k Hk). destruct (Hsp1 k) as [<- <-]. destruct (Hsp2 k) as [<- <-].
      unfold spent_of, expiry_of. rewrite Hoth by done. done.
    + intros _. rewrite Hh3, Hheld2, String.eqb_refl, Hkey1. split; [|done].
      rewrite Hown, Hc2, drop_counter_live, Hck2, Hck. unfold counter_after.
      destruct (Hsp1 key) as [-> ->]. by destruct (expiry_of key s).
  - split; [done|]. split; [|split; [|done]].
    + intros k Hk. destruct (Hsp1 k) as [-> ->]. by rewrite Hoth1.
    + intros _. destruct (Hsp1 key) as [-> ->]. done.
Qed.

Lemma map_delete_put_fresh {A} (m : obj A) k v :
  k ∉ obj_keys m -> map_delete (obj_put m k v) k = m.
Proof.
  induction m as [|[x w] m IH]; simpl; intros Hk.
  - unfold map_delete. simpl. by rewrite String.eqb_refl.
  - apply not_elem_of_cons in Hk as [Hne Hk].
    destruct (String.eqb_spec k x) as [->|_]; [done|]. unfold map_delete in *. simpl.
    destruct (String.eqb_spec k x) as [->|_]; [done|]. simpl. by rewrite IH.
Qed.

Lemma live_keys nowMs res k : k ∈ obj_keys (live nowMs res) -> k ∈ obj_keys res.
Proof.
  unfold obj_keys, live. rewrite !list_elem_of_In, !in_map_iff.
  intros (p & Hp & Hin). apply filter_In in Hin as [Hin _]. by exists p.
Qed.

(** ** Properties *)

(** The atomic check of a block budget: a reservation is taken exactly when
    the limit, if any, is above the settled spend plus the live reservations
    the store reports; a refused one changes no counter and holds nothing; and
    neither outcome touches another key. *)
Theorem reserve_checks_limit a s r s' k :
  memory_wf s -> memory_reserve a s = (r, s') ->
  rr_usage r = usage_of (ra_key a) (ra_nowMs a) s /\
  rr_ok r = negb (over_limit (ra_limit a) (rr_usage r)) /\
  spent_of k s' = spent_of k s /\
  (k <> ra_key a -> held k s' = held k s) /\
  held (ra_key a) s' =
    (let res := live (ra_nowMs a) (held (ra_key a) s) in
     if rr_ok r then
       obj_put res (ra_id a)
         (mkReservation (ra_amount a) (nadd (ra_nowMs a) (ra_reservationTtlMs a)))
     else res).
Proof.
  intros Hwf Hr. pose proof (reserve_spec _ _ _ _ Hwf Hr) as (_ & _ & Hu & Hok & Hsp & Hh).
  rewrite Hu. split; [done|]. split; [done|]. split; [apply Hsp|]. split.
  - intros Hk. rewrite Hh. by destruct (String.eqb_spec k (ra_key a)).
  - by rewrite Hh, String.eqb_refl.
Qed.

Module SampleStore.
Definition empty : MemoryStore := mkMemory [] [] (num_of_Z 1000).
(** A 10 USD counter with 9 USD spent and 2 USD reserved by another call. *)
Definition busy : MemoryStore :=
  mkMemory [("k", mkCounter (num_of_Z 9) (num_of_Z 5000))]
    [("k", [("other", mkReservation (num_of_Z 2) (num_of_Z 3000))])] (num_of_Z 1000).
Definition ask : ReserveArgs :=
  mkReserve "k" "me" (num_of_Z 1) (num_of_Z 1000) (num_of_Z 500) (Some (num_of_Z 10)).

Lemma busy_wf : memory_wf busy.
Proof.
  split; [apply NoDup_singleton|]. split; [apply NoDup_singleton|].
  intros key res. simpl. destruct (key =? "k")%string; [|done].
  intros [= <-]. apply NoDup_singleton.
Qed.
End SampleStore.

Lemma reserve_checks_limit_witness :
  rr_ok (memory_reserve SampleStore.ask SampleStore.busy).1 = false /\
  held "k" (memory_reserve SampleStore.ask SampleStore.busy).2 = held "k" SampleStore.busy.
Proof.
  destruct (memory_reserve SampleStore.ask SampleStore.busy) as [r s'] eqn:E.
  destruct (reserve_checks_limit _ _ _ _ "k" SampleStore.busy_wf E) as (Hu & Hok & _ & _ & Hh).
  assert (Hf : rr_ok r = false) by (rewrite Hok, Hu; vm_compute; reflexivity).
  split; [exact Hf|]. rewrite Hf in Hh. cbn [snd].
  change "k"%string with (ra_key SampleStore.ask). rewrite Hh. vm_compute. reflexivity.
Defined.

(** A counter's expiry is set by the first spend of its period and never
    extended: settling on a live counter keeps its expiry and adds the cost to
    it, settling on a missing or expired one starts a new counter at that cost
    with the given time to live; a call that cost nothing leaves the counter
    alone; and other keys are untouched. *)
Theorem settle_adds_once key id amount actual ttl s k :
  memory_wf s ->
  let s' := memory_settle key id amount actual ttl s in
  (k <> key -> spent_of k s' = spent_of k s /\ held k s' = held k s) /\
  (nltb nzero actual = false -> spent_of key s' = spent_of key s) /\
  (nltb nzero actual = true ->
     own (counters s') key = Some (counter_after key actual ttl s)) /\
  own (held key s') id = None.
Proof.
  intros Hwf s'. pose proof (settle_spec key id amount actual ttl s Hwf) as (_ & Ho & Hz & Hp).
  fold s' in Ho, Hz, Hp. split; [intros Hk; by destruct (Ho k Hk) as (? & _ & ?)|].
  split; [by intros H; destruct (Hz H)|]. split; [by intros H; destruct (Hp H)|].
  destruct (nltb nzero actual).
  - destruct (Hp eq_refl) as [_ ->]. apply own_None. intros Hin%live_keys.
    revert Hin. apply own_None, own_map_delete_eq.
  - destruct (Hz eq_refl) as (_ & _ & ->). apply own_map_delete_eq.
Qed.

Lemma settle_adds_once_witness :
  own (counters (memory_settle "k" "other" (num_of_Z 2) (num_of_Z 3) 60 SampleStore.busy)) "k"
    = Some (mkCounter (num_of_Z 12) (num_of_Z 5000)).
Proof.
  destruct (settle_adds_once "k" "other" (num_of_Z 2) (num_of_Z 3) 60 SampleStore.busy "k"
    SampleStore.busy_wf) as (_ & _ & H & _).
  rewrite H; [vm_compute; reflexivity|vm_compute; reflexivity].
Defined.

(** A reservation round trip leaves no trace but the cost: reserving under a
    fresh id and settling it leaves exactly the reservations that were live
    before, whether or not the call cost anything, and a free call leaves the
    spend as it was. *)
Theorem reserve_settle_roundtrip a s r s' amount actual ttl :
  memory_wf s -> memory_reserve a s = (r, s') -> rr_ok r = true ->
  own (held (ra_key a) s) (ra_id a) = None ->
  let s'' := memory_settle (ra_key a) (ra_id a) amount actual ttl s' in
  let before := live (ra_nowMs a) (held (ra_key a) s) in
  (nltb nzero actual = true -> held (ra_key a) s'' = live nzero before) /\
  (nltb nzero actual = false ->
     held (ra_key a) s'' = before /\ spent_of (ra_key a) s'' = spent_of (ra_key a) s).
Proof.
  intros Hwf Hr Hok Hfresh s'' before.
  pose proof (reserve_spec _ _ _ _ Hwf Hr) as (Hwf' & _ & _ & _ & Hsp & Hh).
  specialize (Hh (ra_key a)). rewrite String.eqb_refl, Hok in Hh. simpl in Hh. fold before in Hh.
  pose proof (settle_spec (ra_key a) (ra_id a) amount actual ttl s' Hwf') as (_ & _ & Hz & Hp).
  fold s'' in Hz, Hp.
  assert (Hd : map_delete (held (ra_key a) s') (ra_id a) = before).
  { rewrite Hh. apply map_delete_put_fresh. intros Hin%live_keys. by apply own_None in Hfresh. }
  rewrite Hd in Hz, Hp. split; intros H.
  - by destruct (Hp H).
  - destruct (Hz H) as (-> & _ & ->). split; [done|]. apply Hsp.
Qed.

Lemma reserve_settle_roundtrip_witness :
  let a := mkReserve "k" "me" (num_of_Z 1) (num_of_Z 1000) (num_of_Z 500) None in
  held "k" (memory_settle "k" "me" (num_of_Z 1) nzero 60 (memory_reserve a SampleStore.busy).2)
    = held "k" SampleStore.busy.
Proof.
  intros a. destruct (memory_reserve a SampleStore.busy) as [r s'] eqn:E.
  destruct (reserve_settle_roundtrip a SampleStore.busy r s' (num_of_Z 1) nzero 60
    SampleStore.busy_wf E) as [_ H].
  - vm_compute in E. by injection E as <- _.
  - vm_compute. reflexivity.
  - destruct H as [H _]; [vm_compute; reflexivity|]. cbn [snd]. etransitivity; [exact H|]. vm_compute. reflexivity.
Defined.
