(* ===== verification/Budget.v ===== *)
(** * The budget middleware

    Models [src/gateway/src/middlewares/psBudget/index.ts] and
    [downgrade.ts]: which budgets match a call, their states, the decision
    (block, downgrade under a cost ceiling, warn), the downgrade's choice of a
    cheaper compliant model, and the request handler from the read of the
    counters to the settlement.

    The handler is written against the [BudgetStore] class: its operations may
    fail at any point.  Parameters: the rest of the request ([next], which may
    change the store because other calls run meanwhile), what other calls do
    before each reservation and each settlement ([others]) and while a stream drains
    ([drain]), the price table of psPricing.ts ([estimateCost]), the actual
    cost telemetry computes ([actualCost], [None] when unpriced or when pricing
    throws), the PII scan of pii.ts, the provider named by the headers, the URL
    parser and [JSON.parse] / [JSON.stringify].  Metrics, log lines and the
    wording of the messages are not modelled. *)

From Stdlib Require Import ZArith Lia ZifyBool Ascii.
From stdpp Require Import base strings option sets list.
From S2P Require Import Prelude JsValue RoutePolicy Constraints Router RouterMiddleware.
From S2P Require Import BudgetKeys BudgetConfig BudgetStore.

#[local] Open Scope string_scope.
#[local] Open Scope list_scope.
#[local] Arguments num_of_Z : simpl never.

(** ** Matching *)

Inductive BudgetState := ok | warn | unknown | exceeded.

#[export] Instance BudgetState_eq_dec : EqDecision BudgetState.
Proof. solve_decision. Defined.

Definition BILLED_PATHS : list string :=
  ["/v1/chat/completions"; "/v1/completions"; "/v1/messages"; "/v1/responses";
   "/v1/embeddings"; "/v1/rerank"; "/v1/images/generations"; "/v1/images/edits";
   "/v1/audio/speech"; "/v1/audio/transcriptions"; "/v1/audio/translations"; "/v1/ocr"].

Record BudgetAttributes := mkAttributes {
  at_business_unit : option string;
  at_use_case : option string;
  at_owner : option string
}.

Record Matched := mkMatched {
  m_budget : Budget;
  m_subject : string;
  m_key : string;
  m_ttlSeconds : Z;
  m_periodEndsAt : Z
}.

Definition clean (v : option string) : option string :=
  match v with
  | Some s => if truthy_string s && truthy_string (trim s) then Some s else None
  | None => None
  end.

Definition attributesOf (headers : obj string) (verifiedOwner : option string)
    : BudgetAttributes :=
  mkAttributes (clean (own headers "x-ps-business-unit")) (clean (own headers "x-ps-use-case"))
    (if truthy_opt verifiedOwner then verifiedOwner else clean (own headers "x-ps-owner")).

Definition attribute (a : BudgetAttributes) (scope : BudgetScope) : option string :=
  match scope with
  | global => None
  | business_unit => at_business_unit a
  | use_case => at_use_case a
  | owner => at_owner a
  end.

(** The counted subject of a call under a budget, if the budget applies. *)
Definition subject_of (a : BudgetAttributes) (b : Budget) : option string :=
  match b_scope b with
  | global => Some GLOBAL_SUBJECT
  | scope =>
      match attribute a scope with
      | Some v =>
          if negb (truthy_string v) then None
          else if negb (bool_decide (b_subject b = Some "*")) &&
                  negb (bool_decide (b_subject b = Some v)) then None
          else Some v
      | None => None
      end
  end.

Definition matched_of (config : BudgetConfig) (nowMs : Z) (b : Budget) (subject : string)
    : Matched :=
  mkMatched b subject
    (counterKey (bc_namespace config) (b_scope b) subject (b_window b)
       (periodOf (b_window b) nowMs))
    (counterTtl (b_window b) nowMs) (periodEnd (b_window b) nowMs).

Definition matchBudgets (config : BudgetConfig) (attributes : BudgetAttributes) (nowMs : Z)
    : list Matched :=
  omap (fun b => matched_of config nowMs b <$> subject_of attributes b) (bc_budgets config).

(** ** Deciding *)

Record Status := mkStatus { s_matched : Matched; s_spent : option num; s_state : BudgetState }.

Definition s_budget (s : Status) : Budget := m_budget (s_matched s).

Definition budgetState (budget : Budget) (spent : option num) : BudgetState :=
  match spent with
  | None => unknown
  | Some v =>
      if nleb (b_limitUsd budget) v then exceeded
      else if nleb (nmul (b_warnAt budget) (b_limitUsd budget)) v then warn
      else ok
  end.

Definition SEVERITY (s : BudgetState) : Z :=
  match s with ok => 0 | warn => 1 | unknown => 2 | exceeded => 3 end.

Inductive BudgetAction := act_none | act_downgrade | act_block.

Record Decision := mkBudgetDecision {
  d_state : BudgetState;
  d_budgetId : string;
  d_action : BudgetAction;
  d_ceilingUsd : option num;
  d_blockedBy : option Status
}.

Definition worse (worst s : Status) : Status :=
  if (SEVERITY (s_state worst) <? SEVERITY (s_state s))%Z then s else worst.

Definition exhausted (onStoreError : OnStoreError) (s : Status) : bool :=
  match s_state s, onStoreError with
  | exceeded, _ => true
  | unknown, closed => true
  | _, _ => false
  end.

(** What is left of a downgrade budget; [None] when it does not count. *)
Definition remaining (onStoreError : OnStoreError) (s : Status) : option num :=
  match s_spent s, onStoreError with
  | None, closed => Some nzero
  | None, open_ => None
  | Some v, _ => Some (nmax (nsub (b_limitUsd (s_budget s)) v) nzero)
  end.

Record Tally := mkTally {
  ta_action : BudgetAction;
  ta_ceiling : option num;
  ta_blockedBy : option Status
}.

(** One pass of the loop over the statuses. *)
Definition tally_step (onStoreError : OnStoreError) (t : Tally) (s : Status) : Tally :=
  match b_mode (s_budget s) with
  | block =>
      match exhausted onStoreError s, ta_blockedBy t with
      | true, None => mkTally (ta_action t) (ta_ceiling t) (Some s)
      | _, _ => t
      end
  | downgrade =>
      match remaining onStoreError s with
      | None => t
      | Some r =>
          mkTally
            (match ta_action t with
             | act_none => if exhausted onStoreError s then act_downgrade else act_none
             | a => a end)
            (Some match ta_ceiling t with None => r | Some c => nmin c r end)
            (ta_blockedBy t)
      end
  | warn_only => t
  end.

Definition decide_budgets (statuses : list Status) (onStoreError : OnStoreError)
    : option Decision :=
  match statuses with
  | [] => None
  | first :: _ =>
      let worst := fold_left worse statuses first in
      let t := fold_left (tally_step onStoreError) statuses (mkTally act_none None None) in
      Some (mkBudgetDecision (s_state worst) (b_id (s_budget worst))
              (if has_some (ta_blockedBy t) then act_block else ta_action t)
              (ta_ceiling t) (ta_blockedBy t))
  end.

(** ** Refusals *)

Record Exceeded := mkExceeded {
  ex_budgetId : string;
  ex_used : num;
  ex_limit : num;
  ex_resetsAt : Z;
  ex_retryAfter : Z
}.

Definition budgetExceededResponse (m : Matched) (used : num) (nowMs : Z) : Exceeded :=
  mkExceeded (b_id (m_budget m)) used (b_limitUsd (m_budget m)) (m_periodEndsAt m)
    (Z.max 1 (cdiv (m_periodEndsAt m - nowMs) 1000)).

(** ** Downgrading ([downgrade.ts]) *)

Record DowngradeRequest := mkDowngradeReq {
  dq_approxInputTokens : num;
  dq_maxOutputTokens : any;
  dq_useCase : option string
}.

(** One tier of [pickDowngrade]'s loop; the accumulators are [fits] and
    [cheapest]. *)
Definition downgrade_step (rule : option DataPolicyRule) (serves : ModelTier -> bool)
    (eligible : option (list string)) (cost : ModelTier -> num) (currentEst ceiling : num)
    (acc : option Pick * option Pick) (tier : ModelTier) : option Pick * option Pick :=
  let '(fits, cheapest) := acc in
  if negb (tierComplies tier rule) then acc
  else if negb (serves tier) then acc
  else if match eligible with Some l => negb (mem_string (mt_model tier) l) | None => false end
  then acc
  else
    let c := cost tier in
    if negb (nltb c currentEst) then acc else
    let cheapest' := match cheapest with
      | Some p => if nltb c (pk_estCost p) then Some (mkPick tier c) else cheapest
      | None => Some (mkPick tier c) end in
    let fits' :=
      if nleb c ceiling && match fits with Some p => nltb (pk_estCost p) c | None => true end
      then Some (mkPick tier c) else fits in
    (fits', cheapest').

Definition eligible_models (policy : RoutePolicy) (useCase : option string)
    : option (list string) :=
  match useCaseBar policy useCase with
  | Some b => if truthy_opt (ub_evalSet b) then Some (default [] (ub_eligibleModels b)) else None
  | None => None
  end.

Definition downgrade_cost (req : DowngradeRequest) (tier : ModelTier) : num :=
  estimateTierCost tier (dq_approxInputTokens req) (out_tokens (dq_maxOutputTokens req)).

Definition pickDowngrade (policy : RoutePolicy) (req : DowngradeRequest)
    (rule : option DataPolicyRule) (currentEst ceiling : num) (serves : ModelTier -> bool)
    : option Pick :=
  let '(fits, cheapest) :=
    foldl (foldl (downgrade_step rule serves (eligible_models policy (dq_useCase req))
                    (downgrade_cost req) currentEst ceiling))
      (None, None) (map snd (rp_groups policy)) in
  match fits with Some p => Some p | None => cheapest end.

(** The first tier of the policy listing a model. *)
Definition tierOf (policy : RoutePolicy) (model : string) : option ModelTier :=
  List.find (fun t => (mt_model t =? model)%string) (all_tiers policy).

(** The failover candidates after a downgrade. *)
Definition downgradeCandidates (policy : RoutePolicy) (candidates : option (list RouteCandidate))
    (pick : Pick) (tokensIn : num) (maxOutput : any) : list RouteCandidate :=
  candidate_of (pk_tier pick) ::
  List.filter (fun cand =>
    negb (rc_model cand =? mt_model (pk_tier pick))%string &&
    match tierOf policy (rc_model cand) with
    | Some tier => nleb (estimateTierCost tier tokensIn (out_tokens maxOutput)) (pk_estCost pick)
    | None => false
    end) (default [] candidates).

(** ** The call's estimate and target *)

Section Estimate.
Variable estimateCost : string -> string -> num -> any -> option num.
Variable stringify_length : any -> Z.

Definition messages_of (body : any) : option (list json) :=
  match prop body "messages" with Some (JArr l) => Some l | _ => None end.

Definition tokens_in (body : any) : num :=
  match messages_of body with
  | Some l => estimateInputTokens l
  | None =>
      nceil (ndiv (num_of_Z (stringify_length
        (nullish (nullish (prop body "input") (prop body "prompt")) (Some (JStr "")))))
        (num_of_Z 4))
  end.

Definition tokens_out (body : any) : any :=
  nullish (nullish (nullish (prop body "max_tokens") (prop body "max_completion_tokens"))
             (prop body "max_output_tokens"))
    (Some (JNum DEFAULT_OUTPUT_TOKENS)).

Definition estimateOf (policy : RoutePolicy) (vendor : string) (body : any)
    (route : option PSRoute) : num :=
  let by_model :=
    match as_string (prop body "model") with
    | None => nzero
    | Some model =>
        if negb (truthy_string model) then nzero else
        let from_tiers :=
          match tierOf policy model with
          | Some tier => estimateTierCost tier (tokens_in body) (ToNumber (tokens_out body))
          | None => nzero
          end in
        match estimateCost vendor model (tokens_in body)
                (if has_some (messages_of body) then tokens_out body else Some (JNum nzero)) with
        | Some priced => if is_finite_num priced then priced else from_tiers
        | None => from_tiers
        end
    end in
  match route with
  | Some r => if is_finite_num (ps_estCost r) then ps_estCost r else by_model
  | None => by_model
  end.
End Estimate.

Section Target.
Variable JSON_parse : string -> option json.
Variable providerFromHeaders : obj string -> option string.

(** [config?.targets?.[0]?.custom_host] *)
Definition first_target_host (config : any) : any :=
  match prop config "targets" with
  | Some (JArr (t :: _)) => prop (Some t) "custom_host"
  | _ => None
  end.

Definition requestTarget (headers : obj string) : ServedTarget :=
  let direct := own headers "x-portkey-custom-host" in
  let customHost :=
    if truthy_opt direct then direct
    else match own headers "x-portkey-config" with
         | Some text =>
             if truthy_string text then
               match JSON_parse text with
               | Some config =>
                   match nullish (prop (Some config) "custom_host")
                           (first_target_host (Some config)) with
                   | Some (JStr host) => Some host
                   | _ => direct
                   end
               | None => direct
               end
             else direct
         | None => direct
         end in
  mkTarget (providerFromHeaders headers) (if truthy_opt customHost then customHost else None) None.
End Target.

(** The data policy rule for this call, as the router (or tryPost) applies it. *)
Definition ruleFor (scanRequestBody : any -> list string) (gate : option DataPolicyGate)
    (policy : RoutePolicy) (headers : obj string) (body : any) : option DataPolicyRule :=
  match gate with
  | Some g => dg_rule g
  | None =>
      match rp_dataPolicy policy with
      | None => None
      | Some _ =>
          let pii := if escalatesOnPii policy then scanRequestBody body else [] in
          dataPolicyRule policy
            (classifySensitivity policy (own headers "x-ps-data-classification") pii).1
      end
  end.

(** ** The handler *)

Record BudgetRuntime := mkRuntime {
  rt_config : BudgetConfig;
  rt_reservationTtlMs : num
}.

(** What the handler reads of the request. *)
Record BudgetCall := mkBudgetCall {
  bq_method : string;
  bq_path : string;
  bq_headers : obj string;
  bq_body : any;
  bq_route : option PSRoute;
  bq_gate : option DataPolicyGate;
  bq_verifiedOwner : option string;
  bq_vendor : string;
  bq_nowMs : Z;
  bq_reservationId : string
}.

(** The call as it goes on: its body, its route and its estimate. *)
Record Shaped := mkShaped { sh_body : any; sh_route : option PSRoute; sh_estimate : num;
                            sh_downgraded : bool }.

Inductive BudgetOutcome (Err Resp : Type) :=
| Unbudgeted (res : result Err Resp)
| Refused (e : Exceeded)
| Unavailable (budgetId : string)
| Served (state : BudgetState) (budgetId : string) (downgraded : bool) (res : result Err Resp).
Arguments Unbudgeted {Err Resp} res.
Arguments Refused {Err Resp} e.
Arguments Unavailable {Err Resp} budgetId.
Arguments Served {Err Resp} state budgetId downgraded res.

Fixpoint dedup (seen l : list string) : list string :=
  match l with
  | [] => []
  | k :: r => if mem_string k seen then dedup seen r else k :: dedup (k :: seen) r
  end.

(** [[...new Set(matched.map((m) => m.key))]] *)
Definition keys_of (matched : list Matched) : list string := dedup [] (map m_key matched).

(** The counters read, by key; [None] when a usage is missing (reading it
    throws, inside the [try]). *)
Definition used_of (keys : list string) (us : list BudgetUsage) : option (obj num) :=
  if Nat.leb (length keys) (length us)
  then Some (zip_with (fun k u => (k, nadd (spent u) (reserved u))) keys us)
  else None.

Definition statuses_of (matched : list Matched) (used : option (obj num)) : list Status :=
  map (fun m =>
    let spent := match used with
      | Some u => Some (default nzero (own u (m_key m)))
      | None => None end in
    mkStatus m spent (budgetState (m_budget m) spent)) matched.

Definition on_key (key : string) (statuses : list Status) : list Status :=
  List.filter (fun s => (m_key (s_matched s) =? key)%string) statuses.

Definition tighter (x y : Status) : Status :=
  if nltb (b_limitUsd (s_budget y)) (b_limitUsd (s_budget x)) then y else x.

Definition is_block (s : Status) : bool := bool_decide (b_mode (s_budget s) = block).

(** The block budget with the least limit on a key. *)
Definition tightest (key : string) (statuses : list Status) : option Status :=
  match List.filter is_block (on_key key statuses) with
  | [] => None
  | first :: rest => Some (fold_left tighter rest first)
  end.

Inductive Admission :=
| Granted
| OverLimit (s : Status) (used : num)
| StoreDown (s : Status).

(** When other calls may run: before a reservation and before a settlement, each of
    which is awaited. *)
Inductive Moment := before_reserve (key : string) | before_settle (key : string).

Section Handler.
Context {St : Type} `{BudgetStore St} {Err Resp : Type}.
Variable urlOrigin : string -> option string.
Variable scanRequestBody : any -> list string.
Variable estimateCost : string -> string -> num -> any -> option num.
Variable stringify_length : any -> Z.
Variable JSON_parse : string -> option json.
Variable providerFromHeaders : obj string -> option string.
Variable next : any -> option PSRoute -> St -> result Err Resp * St.
Variable others : Moment -> St -> St.
Variable drain : Resp -> St -> St.
Variable free_of_charge : Resp -> bool.
Variable actualCost : option PSRoute -> Resp -> option num.

(** [settle(...).catch(...)]: a failing settlement is only counted. *)
Definition settle_one (key id : string) (amount actual : num) (ttl : Z) (s : St) : St :=
  (store_settle key id amount actual ttl (others (before_settle key) s)).2.

Definition release (id : string) (estimate : num) (reserved : list Status) (s : St) : St :=
  fold_left (fun s m =>
    settle_one (m_key (s_matched m)) id estimate nzero (m_ttlSeconds (s_matched m)) s)
    reserved s.

(** Settles [actual ?? estimate] on every distinct counter. *)
Definition settle_all (id : string) (estimate : num) (matched : list Matched)
    (actual : option num) (s : St) : St :=
  fold_left (fun s key =>
    match List.find (fun m => (m_key m =? key)%string) matched with
    | Some m => settle_one key id estimate (default estimate actual) (m_ttlSeconds m) s
    | None => s
    end) (keys_of matched) s.

(** Step 4: one reservation per distinct counter, an atomic check when a
    block budget limits it. *)
Fixpoint reserve_loop (rt : BudgetRuntime) (id : string) (estimate : num) (nowMs : Z)
    (statuses : list Status) (keys : list string) (reserved_ : list Status) (s : St)
    : Admission * list Status * St :=
  match keys with
  | [] => (Granted, reserved_, s)
  | key :: rest =>
      let block_ := tightest key statuses in
      let '(r, s) := store_reserve
        (mkReserve key id estimate (num_of_Z nowMs) (rt_reservationTtlMs rt)
           (b_limitUsd ∘ s_budget <$> block_)) (others (before_reserve key) s) in
      match r with
      | Ok r =>
          if rr_ok r then
            reserve_loop rt id estimate nowMs statuses rest
              (reserved_ ++ take 1 (on_key key statuses)) s
          else
            let s := release id estimate reserved_ s in
            match block_ with
            | Some b => (OverLimit b (nadd (spent (rr_usage r)) (reserved (rr_usage r))),
                         reserved_, s)
            | None =>
                (* [tightest!] is undefined: the throw is caught as a store error *)
                reserve_loop rt id estimate nowMs statuses rest reserved_ s
            end
      | Throw _ =>
          match bc_onStoreError (rt_config rt), block_ with
          | closed, Some b => (StoreDown b, reserved_, release id estimate reserved_ s)
          | _, _ => reserve_loop rt id estimate nowMs statuses rest reserved_ s
          end
      end
  end.

(** Step 3: the downgrade.  (A [body.model] that is not a string is reported
    as ["auto"] here; the code would report it as it is.) *)
Definition shape (policy : RoutePolicy) (c : BudgetCall) (ceiling : option num) : Shaped :=
  let estimate := estimateOf estimateCost stringify_length policy (bq_vendor c) (bq_body c)
                    (bq_route c) in
  let same := mkShaped (bq_body c) (bq_route c) estimate false in
  match ceiling, messages_of (bq_body c) with
  | Some limit, Some messages =>
      if negb (nltb limit estimate) then same else
      let maxOutput := nullish (prop (bq_body c) "max_tokens")
                         (prop (bq_body c) "max_completion_tokens") in
      match pickDowngrade policy
              (mkDowngradeReq (estimateInputTokens messages) maxOutput
                 (own (bq_headers c) "x-ps-use-case"))
              (ruleFor scanRequestBody (bq_gate c) policy (bq_headers c) (bq_body c))
              estimate limit
              (fun tier => tierServesTarget urlOrigin tier
                 (Some (requestTarget JSON_parse providerFromHeaders (bq_headers c)))) with
      | None => same
      | Some pick =>
          let requestedModel := match bq_route c with
            | Some r => ps_requestedModel r
            | None => match prop (bq_body c) "model" with
                      | Some (JStr m) => m | _ => "auto" end
            end in
          let reason := match bq_route c with Some r => ps_reason r | None => "budget" end in
          mkShaped (set_model (bq_body c) (mt_model (pk_tier pick)))
            (Some (mkRoute requestedModel (mt_model (pk_tier pick)) (mt_group (pk_tier pick))
               (reason +:+ "+budget-downgrade") (pk_estCost pick)
               (bq_route c ≫= ps_sensitivityLevel) (bq_route c ≫= ps_sensitivitySource)
               (Some (downgradeCandidates policy (bq_route c ≫= ps_candidates) pick
                  (estimateInputTokens messages) maxOutput))))
            (pk_estCost pick) true
      end
  | _, _ => same
  end.

(** Step 5: the call and its settlement. *)
Definition run_call (c : BudgetCall) (sh : Shaped) (d : Decision) (matched : list Matched)
    (reserved_ : list Status) (s : St) : BudgetOutcome Err Resp * St :=
  let id := bq_reservationId c in
  let '(res, s) := next (sh_body sh) (sh_route sh) s in
  let s :=
    match res with
    | Throw _ => release id (sh_estimate sh) reserved_ s
    | Ok resp =>
        if free_of_charge resp then settle_all id (sh_estimate sh) matched (Some nzero) s
        else settle_all id (sh_estimate sh) matched (actualCost (sh_route sh) resp) (drain resp s)
    end in
  (Served (d_state d) (d_budgetId d) (sh_downgraded sh) res, s).

Definition read_used (keys : list string) (nowMs : Z) (s : St) : option (obj num) * St :=
  let '(us, s) := store_read keys (num_of_Z nowMs) s in
  match us with Ok us => (used_of keys us, s) | Throw _ => (None, s) end.

(** The handler for a call some budget matches. *)
Definition budgeted (rt : BudgetRuntime) (policy : RoutePolicy) (c : BudgetCall)
    (matched : list Matched) (s : St) : BudgetOutcome Err Resp * St :=
  let keys := keys_of matched in
  let '(used, s) := read_used keys (bq_nowMs c) s in
  let statuses := statuses_of matched used in
  match decide_budgets statuses (bc_onStoreError (rt_config rt)) with
  | None => (* statuses is not empty *)
      let '(res, s) := next (bq_body c) (bq_route c) s in (Unbudgeted res, s)
  | Some d =>
      match d_blockedBy d with
      | Some b =>
          (match s_spent b with
           | Some used => Refused (budgetExceededResponse (s_matched b) used (bq_nowMs c))
           | None => Unavailable (b_id (s_budget b))
           end, s)
      | None =>
          let sh := shape policy c (d_ceilingUsd d) in
          let '(adm, reserved_, s) :=
            match used with
            | Some _ => reserve_loop rt (bq_reservationId c) (sh_estimate sh) (bq_nowMs c)
                          statuses keys [] s
            | None => (Granted, [], s)
            end in
          match adm with
          | OverLimit b used =>
              (Refused (budgetExceededResponse (s_matched b) used (bq_nowMs c)), s)
          | StoreDown b => (Unavailable (b_id (s_budget b)), s)
          | Granted => run_call c sh d matched reserved_ s
          end
      end
  end.

Definition psBudget (rt : option BudgetRuntime) (policy : RoutePolicy) (c : BudgetCall)
    (s : St) : BudgetOutcome Err Resp * St :=
  let skip := let '(res, s) := next (bq_body c) (bq_route c) s in (Unbudgeted res, s) in
  if negb (bq_method c =? "POST")%string then skip
  else if isMcpProxyPath (bq_path c) || negb (mem_string (bq_path c) BILLED_PATHS) then skip
  else match rt with
  | None => skip
  | Some rt =>
      match matchBudgets (rt_config rt)
              (attributesOf (bq_headers c) (bq_verifiedOwner c)) (bq_nowMs c) with
      | [] => skip
      | matched => budgeted rt policy c matched s
      end
  end.
End Handler.

(** ** Lemmas: the decision *)

Lemma worse_fold l first :
  let worst := fold_left worse l first in
  (worst = first \/ worst ∈ l) /\
  (SEVERITY (s_state first) <= SEVERITY (s_state worst))%Z /\
  (forall s, s ∈ l -> (SEVERITY (s_state s) <= SEVERITY (s_state worst))%Z) /\
  (worst = first \/ (SEVERITY (s_state first) < SEVERITY (s_state worst))%Z).
Proof.
  revert first. induction l as [|x l IH]; intros first; simpl.
  - split; [by left|]. split; [lia|]. split; [intros s ?%elem_of_nil; done|by left].
  - destruct (IH (worse first x)) as (H1 & H2 & H3 & H4).
    set (w := fold_left worse l (worse first x)) in *.
    assert (Hx : (SEVERITY (s_state x) <= SEVERITY (s_state (worse first x)))%Z /\
                 (SEVERITY (s_state first) <= SEVERITY (s_state (worse first x)))%Z /\
                 (worse first x = first \/ (worse first x = x /\
                   (SEVERITY (s_state first) < SEVERITY (s_state x))%Z))).
    { unfold worse. destruct (Z.ltb_spec (SEVERITY (s_state first)) (SEVERITY (s_state x)));
        [split; [lia|split; [lia|by right]]|split; [lia|split; [lia|by left]]]. }
    destruct Hx as (Hx1 & Hx2 & Hx3).
    split; [|split; [lia|split]].
    + destruct H1 as [->|H1]; [|right; by right].
      destruct Hx3 as [->|[-> _]]; [by left|right; by left].
    + intros s [->|Hs]%elem_of_cons; [lia|by apply H3].
    + destruct H4 as [->|H4]; [|right; lia]. destruct Hx3 as [->|[-> ?]]; [by left|by right].
Qed.

(** The reported state's budget is the first in that state. *)
Lemma worse_fold_first first pre s post :
  s_state s = s_state (fold_left worse (pre ++ s :: post) first) ->
  Forall (fun x => s_state x <> s_state s) (first :: pre) ->
  fold_left worse (pre ++ s :: post) first = s.
Proof.
  revert first. induction pre as [|x pre IH]; intros first Hs Hall; simpl in *.
  - destruct (worse_fold post (worse first s)) as (_ & Hge & _ & Hstrict).
    destruct Hstrict as [Heq|Hlt].
    + rewrite Heq in *. unfold worse in *. destruct (_ <? _)%Z; [done|].
      apply Forall_cons in Hall as [Hf _]. congruence.
    + exfalso. rewrite <- Hs in Hlt. unfold worse in Hlt.
      destruct (Z.ltb_spec (SEVERITY (s_state first)) (SEVERITY (s_state s))); lia.
  - apply (IH (worse first x) Hs).
    apply Forall_cons in Hall as [Hf Hall]. apply Forall_cons in Hall as [Hx Hall].
    constructor; [|done]. unfold worse. by destruct (_ <? _)%Z.
Qed.

Lemma tally_blocked onErr l t :
  ta_blockedBy (fold_left (tally_step onErr) l t) =
  match ta_blockedBy t with
  | Some b => Some b
  | None => List.find (fun s => is_block s && exhausted onErr s) l
  end.
Proof.
  revert t. induction l as [|s l IH]; intros t; simpl; [by destruct (ta_blockedBy t)|].
  rewrite IH. unfold tally_step, is_block.
  destruct (b_mode (s_budget s)); simpl; destruct (remaining onErr s);
    destruct (exhausted onErr s); destruct (ta_blockedBy t) eqn:Hb; simpl; by rewrite ?Hb.
Qed.

(** A downgrade budget that counts and is used up. *)
Definition downgrades (onErr : OnStoreError) (s : Status) : bool :=
  bool_decide (b_mode (s_budget s) = downgrade) && has_some (remaining onErr s) &&
  exhausted onErr s.

Lemma tally_action onErr l t :
  ta_action t <> act_block ->
  ta_action (fold_left (tally_step onErr) l t) =
  match ta_action t with
  | act_none => if List.existsb (downgrades onErr) l then act_downgrade else act_none
  | a => a
  end.
Proof.
  revert t. induction l as [|s l IH]; intros t Ht; simpl; [by destruct (ta_action t)|].
  rewrite IH.
  - unfold tally_step, downgrades. destruct (b_mode (s_budget s)); simpl;
      destruct (remaining onErr s); destruct (exhausted onErr s);
      destruct (ta_blockedBy t), (ta_action t) eqn:Ha; simpl; by rewrite ?Ha.
  - unfold tally_step. destruct (b_mode (s_budget s)); simpl;
      destruct (remaining onErr s); destruct (exhausted onErr s);
      destruct (ta_blockedBy t), (ta_action t) eqn:Ha; simpl; by rewrite ?Ha.
Qed.

(** The remaining amounts that count towards the ceiling. *)
Definition ceilings (onErr : OnStoreError) (l : list Status) : list num :=
  omap (fun s => if bool_decide (b_mode (s_budget s) = downgrade) then remaining onErr s else None) l.

Lemma tally_ceiling onErr l t :
  ta_ceiling (fold_left (tally_step onErr) l t) =
  fold_left (fun acc r => Some match acc with None => r | Some c => nmin c r end)
    (ceilings onErr l) (ta_ceiling t).
Proof.
  revert t. induction l as [|s l IH]; intros t; [done|]. cbn [fold_left]. rewrite IH.
  unfold ceilings. cbn [omap list_omap]. unfold tally_step.
  destruct (b_mode (s_budget s)); simpl.
  - done.
  - by destruct (remaining onErr s).
  - by destruct (exhausted onErr s), (ta_blockedBy t).
Qed.

Lemma nmin_least a b :
  is_nan a = false -> is_nan b = false ->
  is_nan (nmin a b) = false /\ nleb (nmin a b) a = true /\ nleb (nmin a b) b = true /\
  (nmin a b = a \/ nmin a b = b).
Proof.
  intros Ha Hb. unfold nmin. rewrite Ha, Hb. simpl.
  destruct (nltb a b) eqn:?; [repeat split; auto; num_order|].
  destruct (nltb b a) eqn:?; [repeat split; auto; num_order|].
  destruct (is_neg_zero a); repeat split; auto; num_order.
Qed.

Lemma min_fold l c :
  Forall (fun r => is_nan r = false) (c :: l) ->
  exists m, fold_left (fun acc r => Some match acc with None => r | Some c => nmin c r end)
    l (Some c) = Some m /\ m ∈ c :: l /\ Forall (fun r => nleb m r = true) (c :: l).
Proof.
  revert c. induction l as [|r l IH]; intros c Hnan; simpl.
  - exists c. split; [done|]. split; [by left|]. constructor; [|done].
    apply Forall_cons in Hnan as [Hc _]. by apply nleb_refl.
  - apply Forall_cons in Hnan as [Hc Hnan]. apply Forall_cons in Hnan as [Hr Hnan].
    destruct (nmin_least c r Hc Hr) as (Hm & Hmc & Hmr & Hor).
    destruct (IH (nmin c r)) as (m & -> & Hin & Hle); [by constructor|].
    exists m. split; [done|]. apply Forall_cons in Hle as [Hle Hall]. split.
    + apply elem_of_cons in Hin as [->|Hin]; [|right; by right].
      destruct Hor as [->| ->]; [by left|right; by left].
    + constructor; [by eapply nleb_trans|]. constructor; [by eapply nleb_trans|done].
Qed.

(** ** Lemmas: the downgrade *)

(** The tiers the downgrade may choose: compliant, serving the call's target,
    eligible for its use case, and strictly cheaper than the call. *)
Definition downgrade_allow (rule : option DataPolicyRule) (serves : ModelTier -> bool)
    (eligible : option (list string)) (cost : ModelTier -> num) (currentEst : num)
    (tier : ModelTier) : bool :=
  tierComplies tier rule && serves tier &&
  match eligible with Some l => mem_string (mt_model tier) l | None => true end &&
  nltb (cost tier) currentEst.

(** The loop is the router's budget clamp over those tiers. *)
Lemma downgrade_step_budget rule serves eligible cost currentEst ceiling acc tier :
  downgrade_step rule serves eligible cost currentEst ceiling acc tier =
  budget_step cost ceiling (downgrade_allow rule serves eligible cost currentEst) acc tier.
Proof.
  destruct acc as [fits cheapest]. unfold downgrade_step, budget_step, downgrade_allow.
  destruct (tierComplies tier rule); simpl; [|done].
  destruct (serves tier); simpl; [|done].
  destruct eligible as [l|]; simpl; [destruct (mem_string _ l); simpl; [|done]|];
    by destruct (nltb (cost tier) currentEst).
Qed.

Lemma foldl_ext_fun {A B} (f g : A -> B -> A) l a :
  (forall x y, f x y = g x y) -> foldl f a l = foldl g a l.
Proof. intros Hfg. revert a. induction l as [|x l IH]; intros a; simpl; [done|]. by rewrite Hfg. Qed.

Lemma pickDowngrade_spec policy req rule currentEst ceiling serves :
  let cost := downgrade_cost req in
  let allowed := List.filter (downgrade_allow rule serves
    (eligible_models policy (dq_useCase req)) cost currentEst) (all_tiers policy) in
  match pickDowngrade policy req rule currentEst ceiling serves with
  | Some p => best_under cost ceiling allowed p \/
      cheapest_of cost allowed p /\ forall t, t ∈ allowed -> nleb (cost t) ceiling = false
  | None => allowed = []
  end.
Proof.
  intros cost allowed. unfold pickDowngrade. rewrite foldl_concat.
  rewrite (foldl_ext_fun _ _ _ _ (downgrade_step_budget _ _ _ _ _ _)).
  pose proof (budget_loop_inv cost ceiling (downgrade_allow rule serves
    (eligible_models policy (dq_useCase req)) cost currentEst) (all_tiers policy) []
    (None, None)) as H.
  fold (all_tiers policy). fold cost.
  destruct (foldl _ _ _) as [fits cheapest]. destruct H as [Hu Hc].
  { split; simpl; [|done]. intros t Ht. by apply elem_of_nil in Ht. }
  simpl in *. destruct fits as [p|]; [by left|]. destruct cheapest as [p|]; [by right|done].
Qed.

Lemma pickDowngrade_allowed policy req rule currentEst ceiling serves p :
  pickDowngrade policy req rule currentEst ceiling serves = Some p ->
  pk_tier p ∈ all_tiers policy /\ pk_estCost p = downgrade_cost req (pk_tier p) /\
  downgrade_allow rule serves (eligible_models policy (dq_useCase req)) (downgrade_cost req)
    currentEst (pk_tier p) = true.
Proof.
  intros H. pose proof (pickDowngrade_spec policy req rule currentEst ceiling serves) as Hs.
  rewrite H in Hs. simpl in Hs.
  destruct Hs as [(Hin & He & _)|[(Hin & He & _) _]]; apply filter_elem in Hin; naive_solver.
Qed.

(** ** Properties: deciding *)

(** What the budget contract (schemas/budget/README.md, "Decision") asks of a
    decision. *)
Record DecisionSpec (statuses : list Status) (onErr : OnStoreError) (d : Decision) : Prop := {
  ds_worst : forall s, s ∈ statuses -> (SEVERITY (s_state s) <= SEVERITY (d_state d))%Z;
  ds_first : exists pre s post, statuses = pre ++ s :: post /\ s_state s = d_state d /\
    b_id (s_budget s) = d_budgetId d /\ Forall (fun x => s_state x <> d_state d) pre;
  ds_blocked : d_blockedBy d = List.find (fun s => is_block s && exhausted onErr s) statuses;
  ds_action : d_action d =
    if has_some (d_blockedBy d) then act_block
    else if List.existsb (downgrades onErr) statuses then act_downgrade else act_none;
  ds_ceiling : match d_ceilingUsd d with
    | None => ceilings onErr statuses = []
    | Some m => m ∈ ceilings onErr statuses /\
        Forall (fun r => nleb m r = true) (ceilings onErr statuses)
    end
}.

Definition known_amounts (statuses : list Status) : Prop :=
  Forall (fun s => is_finite_num (b_limitUsd (s_budget s)) = true /\
                   forall v, s_spent s = Some v -> is_finite_num v = true) statuses.

(** What is left of a budget is a number when its amounts are. *)
Lemma ceilings_known onErr statuses :
  known_amounts statuses -> Forall (fun r => is_nan r = false) (ceilings onErr statuses).
Proof.
  intros Hk. unfold ceilings. apply Forall_forall. intros r Hr.
  apply list_elem_of_omap in Hr as (s & Hs & Hr).
  unfold known_amounts in Hk. rewrite Forall_forall in Hk. destruct (Hk _ Hs) as [Hl Hv].
  destruct (bool_decide _); [|done]. unfold remaining in Hr.
  destruct (s_spent s) as [v|].
  - injection Hr as <-. apply nmax_not_nan; [|done]. apply nsub_not_nan; auto.
  - destruct onErr; [done|]. by injection Hr as <-.
Qed.

(** The decision meets the shared contract on every list of statuses:
    the state is the worst one and the budget named is the first in document
    order in it; the call is blocked exactly by the first used-up block budget
    (an unreadable one only when store errors close); otherwise it is to be
    downgraded exactly when a counted downgrade budget is used up; and the
    ceiling is the least remaining amount of the downgrade budgets. *)
Theorem decide_meets_contract statuses onErr :
  statuses <> [] -> known_amounts statuses ->
  exists d, decide_budgets statuses onErr = Some d /\ DecisionSpec statuses onErr d.
Proof.
  intros Hne Hk. destruct statuses as [|first rest]; [done|].
  eexists. split; [reflexivity|]. set (l := first :: rest) in *.
  destruct (worse_fold l first) as (Hin & _ & Hmax & _). set (w := fold_left worse l first) in *.
  split; cbn [d_state d_budgetId d_blockedBy d_action d_ceilingUsd].
  - exact Hmax.
  - assert (Hw : w ∈ l) by (destruct Hin as [->|Hin]; [left|done]).
    destruct (first_such (fun s => s_state s = s_state w) l w Hw eq_refl)
      as (pre & s & post & Hl & Hs & Hpre).
    exists pre, s, post. split; [done|]. split; [done|]. split; [|done].
    assert (w = s) as ->; [|done]. destruct pre as [|p pre].
    + assert (first = s) as -> by (by injection Hl).
      destruct (worse_fold l s) as (_ & _ & _ & [Hw'|Hw']); [done|].
      fold w in Hw'. rewrite Hs in Hw'. lia.
    + assert (first = p) as -> by (by injection Hl). subst w. rewrite Hl in Hs, Hpre |- *.
      apply worse_fold_first; [done|]. rewrite Hs. constructor; [|done].
      by apply Forall_cons in Hpre as [? _].
  - rewrite tally_blocked. done.
  - rewrite tally_blocked, tally_action by done. done.
  - rewrite tally_ceiling. cbn [ta_ceiling]. pose proof (ceilings_known onErr l Hk) as Hnan.
    destruct (ceilings onErr l) as [|r rs]; [done|]. cbn [fold_left].
    destruct (min_fold rs r Hnan) as (m & -> & Hm & Hall). done.
Qed.

Module SampleDecision.
Definition over : Status :=
  mkStatus (mkMatched (mkBudget "team" owner (Some "ml") day (num_of_Z 10) downgrade
              (num_of_Q 8 10)) "ml" "k1" 1 1) (Some (num_of_Z 9)) warn.
Definition full : Status :=
  mkStatus (mkMatched (mkBudget "all" global None month (num_of_Z 100) block (num_of_Z 1))
              "_" "k2" 1 1) (Some (num_of_Z 100)) exceeded.
End SampleDecision.

Lemma decide_meets_contract_witness :
  exists d, decide_budgets [SampleDecision.over; SampleDecision.full] open_ = Some d /\
    DecisionSpec [SampleDecision.over; SampleDecision.full] open_ d /\
    d_action d = act_block /\ d_ceilingUsd d = Some (num_of_Z 1).
Proof.
  destruct (decide_meets_contract [SampleDecision.over; SampleDecision.full] open_)
    as (d & Hd & Hs).
  - discriminate.
  - repeat constructor; try reflexivity; intros v [= <-]; reflexivity.
  - exists d. split; [exact Hd|]. split; [exact Hs|].
    vm_compute in Hd. injection Hd as <-. split; vm_compute; reflexivity.
Defined.

(** The downgrade's choice is the best allowed one: among the tiers that
    comply with the rule, serve the call's target, are eligible for its use case
    and cost strictly less than the call, it is the most capable one at or under
    the ceiling, else the cheapest; none is chosen exactly when there is none. *)
Theorem pickDowngrade_best policy req rule currentEst ceiling serves :
  let allowed := List.filter (downgrade_allow rule serves
    (eligible_models policy (dq_useCase req)) (downgrade_cost req) currentEst)
    (all_tiers policy) in
  match pickDowngrade policy req rule currentEst ceiling serves with
  | Some p =>
      pk_tier p ∈ allowed /\ pk_estCost p = downgrade_cost req (pk_tier p) /\
      if List.existsb (fun t => nleb (downgrade_cost req t) ceiling) allowed
      then nleb (pk_estCost p) ceiling = true /\
        forall t, t ∈ allowed -> nleb (downgrade_cost req t) ceiling = true ->
          nltb (pk_estCost p) (downgrade_cost req t) = false
      else forall t, t ∈ allowed -> nltb (downgrade_cost req t) (pk_estCost p) = false
  | None => allowed = []
  end.
Proof.
  intros allowed. pose proof (pickDowngrade_spec policy req rule currentEst ceiling serves) as Hs.
  simpl in Hs. fold allowed in Hs. destruct (pickDowngrade _ _ _ _ _ _) as [p|]; [|done].
  destruct (List.existsb _ allowed) eqn:Hex; destruct Hs as [Hu|[Hc Hno]].
  - destruct Hu as (? & ? & ? & ?). done.
  - apply List.existsb_exists in Hex as (t & Ht & Hle). apply list_elem_of_In in Ht.
    by rewrite Hno in Hle.
  - destruct Hu as (Hin & He & Hle & _). exfalso.
    assert (List.existsb (fun t => nleb (downgrade_cost req t) ceiling) allowed = true); [|congruence].
    apply List.existsb_exists. exists (pk_tier p). rewrite <- list_elem_of_In, <- He. done.
  - destruct Hc as (? & ? & ?). done.
Qed.

Section Shape.
Variable urlOrigin : string -> option string.
Variable scan : any -> list string.
Variable estimateCost : string -> string -> num -> any -> option num.
Variable stringify_length : any -> Z.
Variable JSON_parse : string -> option json.
Variable providerOf : obj string -> option string.

Definition call_estimate (policy : RoutePolicy) (c : BudgetCall) : num :=
  estimateOf estimateCost stringify_length policy (bq_vendor c) (bq_body c) (bq_route c).

Definition call_target (c : BudgetCall) : ServedTarget :=
  requestTarget JSON_parse providerOf (bq_headers c).

(** A failover candidate that does not undo a downgrade to [estimate]: its
    tier costs no more. *)
Definition no_dearer (policy : RoutePolicy) (c : BudgetCall) (estimate : num)
    (cand : RouteCandidate) : Prop :=
  exists tier tokens, tierOf policy (rc_model cand) = Some tier /\
    messages_of (bq_body c) = Some tokens /\
    nleb (estimateTierCost tier (estimateInputTokens tokens)
      (out_tokens (nullish (prop (bq_body c) "max_tokens")
         (prop (bq_body c) "max_completion_tokens")))) estimate = true.

(** A budget downgrade never weakens the data policy and never saves
    nothing: the model it writes into the body is a tier of the policy that
    complies with the call's data policy rule and serves the call's own
    provider and host, its estimate is strictly below the call's, and every
    other failover candidate kept costs no more than it. *)
Theorem downgrade_keeps_policy policy c ceiling :
  let sh := shape urlOrigin scan estimateCost stringify_length JSON_parse providerOf
              policy c ceiling in
  sh_downgraded sh = true ->
  exists tier route, tier ∈ all_tiers policy /\
    tierComplies tier (ruleFor scan (bq_gate c) policy (bq_headers c) (bq_body c)) = true /\
    tierServesTarget urlOrigin tier (Some (call_target c)) = true /\
    sh_body sh = set_model (bq_body c) (mt_model tier) /\
    nltb (sh_estimate sh) (call_estimate policy c) = true /\
    sh_route sh = Some route /\ ps_servedModel route = mt_model tier /\
    exists rest, ps_candidates route = Some (candidate_of tier :: rest) /\
      Forall (no_dearer policy c (sh_estimate sh)) rest.
Proof.
  intros sh. subst sh. unfold shape, call_estimate.
  set (est := estimateOf _ _ _ _ _ _).
  destruct ceiling as [limit|]; [|done].
  destruct (messages_of (bq_body c)) as [messages|] eqn:Hm; [|done].
  destruct (nltb limit est); cbn [negb]; [|done].
  destruct (pickDowngrade _ _ _ _ _ _) as [pick|] eqn:Hp; [|done]. intros _.
  apply pickDowngrade_allowed in Hp as (Hin & He & Hallow).
  unfold downgrade_allow in Hallow. split_bool.
  exists (pk_tier pick). eexists. split; [done|]. split; [done|]. split; [done|].
  split; [done|]. split; [cbn [sh_estimate]; by rewrite He|]. split; [reflexivity|].
  split; [done|]. eexists. split; [reflexivity|]. cbn [sh_estimate].
  apply Forall_forall. intros cand Hc. apply filter_elem in Hc as [_ Hc]. split_bool.
  unfold no_dearer. rewrite Hm. destruct (tierOf policy (rc_model cand)) as [t|]; [|done].
  by exists t, messages.
Qed.
End Shape.

Module SampleDowngrade.
Definition message : json := JObj [("role", JStr "user"); ("content", JStr "hello there")].
(** A restricted call to the expensive EEA model; the cheapest tier of the
    policy is in the US and must not be the downgrade. *)
Definition call : BudgetCall :=
  mkBudgetCall "POST" "/v1/chat/completions" [("x-ps-data-classification", "restricted")]
    (Some (JObj [("model", JStr "eu-large"); ("messages", JArr [message])]))
    None None None "mistral-ai" 1793966400000 "call-1".
Definition shaped : Shaped :=
  shape (fun _ => None) (fun _ => []) (fun _ _ _ _ => None) (fun _ => 0%Z) (fun _ => None)
    (fun _ => Some "mistral-ai") Sample.policy call (Some nzero).
End SampleDowngrade.

Lemma downgrade_keeps_policy_witness :
  exists tier, tier ∈ all_tiers Sample.policy /\
    tierComplies tier (Some Sample.eea_rule) = true /\
    sh_body SampleDowngrade.shaped = set_model (bq_body SampleDowngrade.call) (mt_model tier).
Proof.
  destruct (downgrade_keeps_policy (fun _ => None) (fun _ => []) (fun _ _ _ _ => None)
    (fun _ => 0%Z) (fun _ => None) (fun _ => Some "mistral-ai") Sample.policy
    SampleDowngrade.call (Some nzero)) as (tier & route & Hin & Hc & _ & Hb & _).
  - vm_compute. reflexivity.
  - exists tier. split; [exact Hin|]. split; [exact Hc|exact Hb].
Defined.

(** ** Lemmas: reservations and settlements *)

(** What the handler's accounting needs of a store: who holds a reservation,
    that only a granted [reserve] adds one and that [settle] always drops it.
    [MemoryBudgetStore] has these laws; a store that can fail after it has
    reserved has not, and its reservations lapse by their time to live. *)
Class BudgetStoreLaws (St : Type) `{BudgetStore St} := {
  holds : string -> string -> St -> Prop;
  law_read keys now s r s' k i :
    store_read keys now s = (r, s') -> holds k i s' -> holds k i s;
  law_reserve a s r s' k i :
    store_reserve a s = (Ok r, s') -> holds k i s' ->
    holds k i s \/ rr_ok r = true /\ k = ra_key a /\ i = ra_id a;
  law_reserve_throw a s e s' k i :
    store_reserve a s = (Throw e, s') -> holds k i s' -> holds k i s;
  law_settle key id amount actual ttl s k i :
    holds k i (store_settle key id amount actual ttl s).2 ->
    holds k i s /\ ~ (k = key /\ i = id)
}.

Lemma live_keys_usage key now s k i :
  i ∈ obj_keys (held k (usage key now s).2) -> i ∈ obj_keys (held k s).
Proof.
  unfold usage. destruct (drop_counter_rest key s) as [Hr _].
  destruct (own (reservations (drop_counter key s)) key) as [res|] eqn:Ho; simpl.
  - rewrite held_with. destruct (String.eqb_spec k key) as [->|]; [|unfold held; by rewrite Hr].
    intros Hin%live_keys. unfold held. rewrite <- Hr. by rewrite Ho.
  - unfold held. by rewrite Hr.
Qed.

Lemma memory_read_keys ks now s us s' k i :
  memory_read ks now s = (us, s') -> i ∈ obj_keys (held k s') -> i ∈ obj_keys (held k s).
Proof.
  revert s us. induction ks as [|key ks IH]; intros s us; simpl; [by intros [= _ <-]|].
  destruct (usage key now s) as [u s1] eqn:Hu.
  destruct (memory_read ks now s1) as [us' s2] eqn:Hr. intros [= _ <-] Hin.
  apply (IH _ _ Hr) in Hin. apply (live_keys_usage key now). by rewrite Hu.
Qed.

Lemma obj_keys_put_in {A} (o : obj A) k v x :
  x ∈ obj_keys (obj_put o k v) -> x ∈ obj_keys o \/ x = k.
Proof.
  rewrite obj_keys_put. destruct (hasOwn o k); [by left|].
  intros [Hx|Hx%list_elem_of_singleton]%elem_of_app; by auto.
Qed.

Lemma drop_reservation_keys key id s k i :
  i ∈ obj_keys (held k (drop_reservation key id s)) ->
  i ∈ obj_keys (held k s) /\ ~ (k = key /\ i = id).
Proof.
  unfold drop_reservation. destruct (own (reservations s) key) as [res|] eqn:Ho.
  - assert (Hres : i ∈ obj_keys (map_delete res id) -> i ∈ obj_keys res /\ i <> id).
    { rewrite obj_keys_delete, filter_elem. intros [Hin Hb]. split; [done|]. intros ->.
      by rewrite String.eqb_refl in Hb. }
    assert (Hkey : obj_keys (held key s) = obj_keys res) by (unfold held; by rewrite Ho).
    destruct (map_delete res id) as [|p r] eqn:Hd.
    + unfold held at 1. simpl. intros Hin.
      destruct (decide (k = key)) as [->|Hne].
      * rewrite own_map_delete_eq in Hin. by apply elem_of_nil in Hin.
      * rewrite own_map_delete in Hin by done. split; [done|]. by intros [? _].
    + rewrite held_with. destruct (String.eqb_spec k key) as [->|Hne].
      * intros [? ?]%Hres. rewrite Hkey. split; [done|]. by intros [_ ?].
      * intros Hin. split; [done|]. by intros [? _].
  - intros Hin. split; [done|]. intros [-> _]. unfold held in Hin. rewrite Ho in Hin.
    by apply elem_of_nil in Hin.
Qed.

#[export, refine] Instance MemoryBudgetStoreLaws : BudgetStoreLaws MemoryStore := {
  holds k i s := i ∈ obj_keys (held k s)
}.
Proof.
  - intros keys now s r s' k i. simpl. destruct (memory_read keys now s) as [us s1] eqn:Hr.
    intros [= _ <-]. by eapply memory_read_keys.
  - intros a s r s' k i. simpl. unfold memory_reserve.
    destruct (usage (ra_key a) (ra_nowMs a) s) as [u s1] eqn:Hu.
    assert (Hs1 : forall k i, i ∈ obj_keys (held k s1) -> i ∈ obj_keys (held k s)).
    { intros k' i' Hin. apply (live_keys_usage (ra_key a) (ra_nowMs a)). by rewrite Hu. }
    destruct (over_limit _ _); intros [= <- <-]; [by left; apply Hs1|].
    rewrite held_with. destruct (String.eqb_spec k (ra_key a)) as [->|]; [|by left; apply Hs1].
    intros [Hin| ->]%obj_keys_put_in; [left; by apply Hs1|by right].
  - intros a s e s' k i. simpl. by destruct (memory_reserve a s).
  - intros key id amount actual ttl s k i. simpl. unfold memory_settle.
    destruct (negb _); [apply drop_reservation_keys|].
    intros Hin. apply (drop_reservation_keys key id s k i).
    apply (live_keys_usage key nzero). exact Hin.
Defined.

Lemma dedup_in seen l k : k ∈ dedup seen l <-> k ∈ l /\ k ∉ seen.
Proof.
  revert seen. induction l as [|x l IH]; intros seen; simpl.
  - split; [by intros ?%elem_of_nil|by intros [?%elem_of_nil _]].
  - destruct (mem_string x seen) eqn:Hx.
    + apply mem_string_In in Hx. rewrite IH, elem_of_cons. naive_solver.
    + apply mem_string_false in Hx. rewrite !elem_of_cons, IH, not_elem_of_cons.
      destruct (decide (k = x)) as [->|]; naive_solver.
Qed.

Lemma dedup_NoDup seen l : NoDup (dedup seen l).
Proof.
  revert seen. induction l as [|x l IH]; intros seen; simpl; [constructor|].
  destruct (mem_string x seen); [done|]. constructor; [|done]. rewrite dedup_in. set_solver.
Qed.

Lemma keys_of_in matched k : k ∈ keys_of matched <-> exists m, m ∈ matched /\ m_key m = k.
Proof.
  unfold keys_of. rewrite dedup_in. split.
  - intros [Hk _]. apply list_elem_of_In, in_map_iff in Hk as (m & <- & Hm).
    exists m. by rewrite list_elem_of_In.
  - intros (m & Hm & <-). split; [|apply not_elem_of_nil].
    apply list_elem_of_In, in_map. by apply list_elem_of_In.
Qed.

Lemma find_key matched k :
  k ∈ keys_of matched ->
  exists m, List.find (fun m => (m_key m =? k)%string) matched = Some m /\ m ∈ matched /\ m_key m = k.
Proof.
  intros (m & Hm & Hk)%keys_of_in.
  destruct (List.find _ matched) as [m'|] eqn:Hf.
  - apply List.find_some in Hf as [Hin Heq]. apply String.eqb_eq in Heq.
    exists m'. by rewrite list_elem_of_In.
  - apply list_elem_of_In, (List.find_none _ _ Hf) in Hm. by rewrite Hk, String.eqb_refl in Hm.
Qed.

Section Accounting.
Context {St : Type} `{BudgetStoreLaws St} {Err Resp : Type}.
Variable others : Moment -> St -> St.
Variable i : string.

(** Code of other calls: it holds nothing under this call's id. *)
Definition never_holds (id : string) (f : St -> St) : Prop :=
  forall s k, holds k id (f s) -> holds k id s.

Hypothesis others_hold : forall t, never_holds i (others t).

Lemma release_holds id est l s k :
  holds k i (release others id est l s) ->
  holds k i s /\ (i = id -> forall m, m ∈ l -> m_key (s_matched m) <> k).
Proof.
  revert s. unfold release. induction l as [|x l IH]; intros s Hin; simpl in *.
  - split; [done|]. intros _ m. by intros ?%elem_of_nil.
  - apply IH in Hin as [Hin Hl]. apply law_settle in Hin as [Hin%others_hold Hx].
    split; [done|]. intros Hi m [->|Hm]%elem_of_cons; [|by apply Hl].
    intros Hk. by apply Hx.
Qed.

Lemma settle_all_holds id est matched actual s k :
  holds k i (settle_all others id est matched actual s) ->
  holds k i s /\ (i = id -> k ∉ keys_of matched).
Proof.
  unfold settle_all.
  assert (Hgen : forall l s, (forall q, q ∈ l -> q ∈ keys_of matched) ->
    holds k i (fold_left (fun s key =>
      match List.find (fun m => (m_key m =? key)%string) matched with
      | Some m => settle_one others key id est (default est actual) (m_ttlSeconds m) s
      | None => s
      end) l s) -> holds k i s /\ (i = id -> k ∉ l)).
  { induction l as [|x l IH]; intros s0 Hl Hin; simpl in *.
    - split; [done|]. intros _. apply not_elem_of_nil.
    - apply IH in Hin as [Hin Hni]; [|set_solver].
      destruct (find_key matched x) as (m & Hf & _ & _); [set_solver|]. rewrite Hf in Hin.
      apply law_settle in Hin as [Hin%others_hold Hx]. split; [done|].
      intros Hi. apply not_elem_of_cons. split; [|by apply Hni]. intros ->. by apply Hx. }
  intros Hin. by apply (Hgen (keys_of matched) s) in Hin.
Qed.

Lemma on_key_head statuses key :
  key ∈ map (fun s => m_key (s_matched s)) statuses ->
  exists m, take 1 (on_key key statuses) = [m] /\ m_key (s_matched m) = key.
Proof.
  intros Hin. unfold on_key. induction statuses as [|s l IH]; simpl in *; [by apply elem_of_nil in Hin|].
  destruct (String.eqb_spec (m_key (s_matched s)) key) as [Heq|Hne].
  - by exists s.
  - apply IH. apply elem_of_cons in Hin as [->|Hin]; done.
Qed.

Lemma reserve_loop_sub rt id est now statuses keys reserved_ s adm reserved' s' :
  reserve_loop others rt id est now statuses keys reserved_ s = (adm, reserved', s') ->
  forall x, x ∈ reserved' -> x ∈ reserved_ \/ x ∈ statuses.
Proof.
  revert reserved_ s. induction keys as [|key keys IH]; intros reserved_ s Hloop x Hx;
    simpl in Hloop; [injection Hloop as _ <- _; by left|].
  destruct (store_reserve _ _) as [[r|e] s1].
  - destruct (rr_ok r).
    + destruct (IH _ _ Hloop x Hx) as [Hin|?]; [|by right].
      apply elem_of_app in Hin as [?|Hin]; [by left|right].
      assert (Hon : x ∈ on_key key statuses).
      { destruct (on_key key statuses) as [|y ys]; simpl in Hin; [by apply elem_of_nil in Hin|].
        apply list_elem_of_singleton in Hin as ->. by left. }
      by apply filter_elem in Hon as [Hon _].
    + destruct (tightest key statuses); [injection Hloop as _ <- _; by left|by eapply IH].
  - destruct (bc_onStoreError (rt_config rt)), (tightest key statuses);
      try (by eapply IH). injection Hloop as _ <- _. by left.
Qed.

(** Reservations held under [i] are those of the keys in [reserved_]. *)
Lemma reserve_loop_holds rt est now statuses keys reserved_ s adm reserved' s' :
  (forall q, q ∈ keys -> q ∈ map (fun s => m_key (s_matched s)) statuses) ->
  (forall k, holds k i s -> exists m, m ∈ reserved_ /\ m_key (s_matched m) = k) ->
  reserve_loop others rt i est now statuses keys reserved_ s = (adm, reserved', s') ->
  (forall k, holds k i s' -> match adm with
     | Granted => exists m, m ∈ reserved' /\ m_key (s_matched m) = k
     | _ => False end).
Proof.
  revert reserved_ s. induction keys as [|key keys IH]; intros reserved_ s Hkeys Hinv Hloop k Hk;
    simpl in Hloop.
  { injection Hloop as <- <- <-. by apply Hinv. }
  destruct (store_reserve _ _) as [r s1] eqn:Hr.
  assert (Hrest : forall q, q ∈ keys -> q ∈ map (fun s => m_key (s_matched s)) statuses)
    by set_solver.
  assert (Hrel : forall s0, (forall k, holds k i s0 ->
      exists m, m ∈ reserved_ /\ m_key (s_matched m) = k) ->
      forall k, ~ holds k i (release others i est reserved_ s0)).
  { intros s0 Hs0 q Hq. apply release_holds in Hq as [Hq Hno].
    destruct (Hs0 q Hq) as (m & Hm & Hmk). by apply (Hno eq_refl m Hm). }
  destruct r as [r|e].
  - assert (Hs1 : forall q, holds q i s1 -> holds q i s \/ rr_ok r = true /\ q = key).
    { intros q Hq. destruct (law_reserve _ _ _ _ _ _ Hr Hq) as [?%others_hold|(? & ? & _)]; [by left|by right]. }
    destruct (rr_ok r) eqn:Hok.
    + refine (IH _ _ Hrest _ Hloop k Hk). intros q Hq.
      destruct (Hs1 q Hq) as [Hq'|[_ ->]].
      * destruct (Hinv q Hq') as (m & Hm & Hmk). exists m. set_solver.
      * destruct (on_key_head statuses key) as (m & -> & Hmk); [set_solver|].
        exists m. set_solver.
    + assert (Hinv1 : forall q, holds q i s1 ->
        exists m, m ∈ reserved_ /\ m_key (s_matched m) = q).
      { intros q Hq. destruct (Hs1 q Hq) as [Hq'|[? _]]; [by apply Hinv|done]. }
      destruct (tightest key statuses) as [b|].
      * injection Hloop as <- <- <-. by apply (Hrel _ Hinv1) in Hk.
      * refine (IH _ _ Hrest _ Hloop k Hk). intros q Hq.
        by apply (Hrel _ Hinv1) in Hq.
  - assert (Hinv1 : forall q, holds q i s1 ->
        exists m, m ∈ reserved_ /\ m_key (s_matched m) = q).
    { intros q Hq. apply Hinv, (others_hold (before_reserve key)). by eapply law_reserve_throw. }
    destruct (bc_onStoreError (rt_config rt)), (tightest key statuses) as [b|];
      try (by refine (IH _ _ Hrest Hinv1 Hloop k Hk)).
    injection Hloop as <- <- <-. by apply (Hrel _ Hinv1) in Hk.
Qed.
End Accounting.

(** ** Properties: the handler *)

Section Properties.
Context {St : Type} `{BudgetStoreLaws St} {Err Resp : Type}.
Variable urlOrigin : string -> option string.
Variable scan : any -> list string.
Variable estimateCost : string -> string -> num -> any -> option num.
Variable stringify_length : any -> Z.
Variable JSON_parse : string -> option json.
Variable providerOf : obj string -> option string.

Definition handle (next : any -> option PSRoute -> St -> result Err Resp * St)
    (others : Moment -> St -> St) (drain : Resp -> St -> St) (free_of_charge : Resp -> bool)
    (actualCost : option PSRoute -> Resp -> option num) :=
  psBudget urlOrigin scan estimateCost stringify_length JSON_parse providerOf
    next others drain free_of_charge actualCost.

Lemma read_used_holds keys now s used s' id k :
  read_used keys now s = (used, s') -> holds k id s' -> holds k id s.
Proof.
  unfold read_used. destruct (store_read keys (num_of_Z now) s) as [us s1] eqn:Hr.
  destruct us; intros [= _ <-]; by eapply law_read.
Qed.

Lemma statuses_keys matched used :
  map (fun s => m_key (s_matched s)) (statuses_of matched used) = map m_key matched.
Proof. unfold statuses_of. by rewrite map_map. Qed.

(** Nothing is held under an id. *)
Definition holds_none (id : string) (s : St) : Prop := forall k, ~ holds k id s.

(** What the reservations of an admitted call hold, and that they are on counters
    of its budgets; a call that is not admitted holds nothing. *)
Lemma reserved_cover others rt id est now matched used s adm reserved_ s' :
  (forall t, never_holds id (others t)) -> holds_none id s ->
  match used with
  | Some _ => reserve_loop others rt id est now (statuses_of matched used) (keys_of matched) [] s
  | None => (Granted, [], s)
  end = (adm, reserved_, s') ->
  (forall k, holds k id s' -> match adm with
     | Granted => exists m, m ∈ reserved_ /\ m_key (s_matched m) = k | _ => False end) /\
  (adm = Granted -> forall x, x ∈ reserved_ -> m_key (s_matched x) ∈ keys_of matched).
Proof.
  intros Hoth Hs Hadm. destruct used as [used|].
  2: { injection Hadm as <- <- <-. split; [intros k Hk; by apply Hs in Hk|].
       intros _ x Hx. by apply elem_of_nil in Hx. }
  split.
  - eapply reserve_loop_holds; [exact Hoth| | |exact Hadm].
    + intros q Hq. rewrite statuses_keys. apply keys_of_in in Hq as (x & Hx & <-).
      apply list_elem_of_In, in_map. by apply list_elem_of_In.
    + intros k Hk. by apply Hs in Hk.
  - intros -> x Hx. apply keys_of_in.
    destruct (reserve_loop_sub _ _ _ _ _ _ _ _ _ _ _ _ Hadm x Hx) as [Hn|Hn];
      [by apply elem_of_nil in Hn|].
    unfold statuses_of in Hn. apply list_elem_of_In, in_map_iff in Hn as (y & <- & Hy).
    exists y. by rewrite list_elem_of_In.
Qed.

(** The call itself settles or releases whatever was reserved for it. *)
Lemma run_call_leaves next others drain free_of_charge actualCost c sh d matched reserved_ s out s' :
  (forall body route, never_holds (bq_reservationId c) (fun s => (next body route s).2)) ->
  (forall t, never_holds (bq_reservationId c) (others t)) ->
  (forall resp, never_holds (bq_reservationId c) (drain resp)) ->
  (forall k, holds k (bq_reservationId c) s -> exists m, m ∈ reserved_ /\ m_key (s_matched m) = k) ->
  (forall x, x ∈ reserved_ -> m_key (s_matched x) ∈ keys_of matched) ->
  run_call (Err := Err) (Resp := Resp) next others drain free_of_charge actualCost c sh d matched reserved_ s = (out, s') ->
  holds_none (bq_reservationId c) s'.
Proof.
  intros Hnext Hoth Hdrain Hs Hsub. unfold run_call.
  destruct (next _ _ s) as [res s4] eqn:Hn. intros [= _ <-] k Hk.
  assert (Hs4 : forall k, holds k (bq_reservationId c) s4 -> holds k (bq_reservationId c) s).
  { intros q Hq. eapply Hnext. by rewrite Hn. }
  destruct res as [resp|e].
  - assert (Hfin : forall a s5, (forall k, holds k (bq_reservationId c) s5 ->
        holds k (bq_reservationId c) s4) ->
        ~ holds k (bq_reservationId c)
            (settle_all others (bq_reservationId c) (sh_estimate sh) matched a s5)).
    { intros a s5 H5 Hq. apply settle_all_holds in Hq as [Hq Hno]; [|exact Hoth].
      destruct (Hs k) as (x & Hx & <-); [by apply Hs4, H5|].
      apply Hno; [done|]. by apply Hsub. }
    destruct (free_of_charge resp); [by apply (Hfin _ s4) in Hk|].
    apply (Hfin _ (drain resp s4)) in Hk; [done|]. intros q Hq. by eapply Hdrain.
  - apply release_holds in Hk as [Hk Hno]; [|exact Hoth]. apply Hs4, Hs in Hk as (x & Hx & Hk).
    by apply (Hno eq_refl x Hx).
Qed.

(** [C29] No call leaves a reservation behind: whichever way it ends (not
    matched, refused by the decision, refused by a reservation another replica
    won, store failure, failing or served call, stream), nothing is held under
    its id afterwards, for every store that keeps the laws and whatever other
    calls do to the store meanwhile. *)
Theorem no_reservation_leaks next others drain free_of_charge actualCost rt policy c s out s' :
  (forall body route, never_holds (bq_reservationId c) (fun s => (next body route s).2)) ->
  (forall t, never_holds (bq_reservationId c) (others t)) ->
  (forall resp, never_holds (bq_reservationId c) (drain resp)) ->
  (forall k, ~ holds k (bq_reservationId c) s) ->
  handle next others drain free_of_charge actualCost rt policy c s = (out, s') ->
  forall k, ~ holds k (bq_reservationId c) s'.
Proof.
  intros Hnext Hoth Hdrain Hs. unfold handle, psBudget.
  assert (Hskip : forall o s0 s1, holds_none (bq_reservationId c) s0 ->
      (let '(res, s) := next (bq_body c) (bq_route c) s0 in (Unbudgeted res, s)) = (o, s1) ->
      holds_none (bq_reservationId c) s1).
  { intros o s0 s1 Hs0. destruct (next _ _ s0) as [r s2] eqn:Hn. intros [= _ <-] k Hk.
    apply (Hs0 k), (Hnext (bq_body c) (bq_route c)). by rewrite Hn. }
  destruct (negb _); [by apply Hskip|]. destruct (_ || _); [by apply Hskip|].
  destruct rt as [rt|]; [|by apply Hskip].
  destruct (matchBudgets _ _ _) as [|m matched]; [by apply Hskip|].
  unfold budgeted. destruct (read_used _ _ s) as [used s1] eqn:Hread.
  assert (Hs1 : holds_none (bq_reservationId c) s1)
    by (intros k Hk; eapply (Hs k), read_used_holds; eauto).
  destruct (decide_budgets _ _) as [d|]; [|by apply Hskip].
  destruct (d_blockedBy d) as [b|]; [by intros [= _ <-]|].
  destruct (match used with Some _ => _ | None => _ end) as [[adm reserved_] s3] eqn:Hadm.
  apply reserved_cover in Hadm as [Hs3 Hsub]; [|exact Hoth|exact Hs1].
  destruct adm; [|intros [= _ <-] k Hk; by apply Hs3 in Hk..].
  eapply run_call_leaves; eauto.
Qed.
End Properties.

Module SampleHandler.
Definition runtime : BudgetRuntime := mkRuntime SampleBudgets.config (num_of_Z 900000).
(** A call of the support bot, which has a daily budget of its own. *)
Definition call : BudgetCall :=
  mkBudgetCall "POST" "/v1/chat/completions" [("x-ps-use-case", "support-bot")]
    (Some (JObj [("model", JStr "eu-large"); ("messages", JArr [SampleDowngrade.message])]))
    None None None "mistral-ai" 1793966400000 "call-1".
Definition empty : MemoryStore := mkMemory [] [] (num_of_Z 1793966400000).
Definition next (body : any) (route : option PSRoute) (s : MemoryStore)
    : result string unit * MemoryStore := (Ok tt, s).
Definition run (s : MemoryStore) : BudgetOutcome string unit * MemoryStore :=
  handle (fun _ => None) (fun _ => []) (fun _ _ _ _ => None) (fun _ => 0%Z) (fun _ => None)
    (fun _ => Some "mistral-ai") next (fun _ s => s) (fun _ s => s) (fun _ => false)
    (fun _ _ => Some (num_of_Q 1 4)) (Some runtime) Sample.policy call s.

Lemma empty_holds k : ~ holds k "call-1" empty.
Proof. by intros ?%elem_of_nil. Qed.
End SampleHandler.

Lemma no_reservation_leaks_witness :
  exists out s', SampleHandler.run SampleHandler.empty = (out, s') /\
    forall k, ~ holds k "call-1" s'.
Proof.
  destruct (SampleHandler.run SampleHandler.empty) as [out s'] eqn:E. exists out, s'.
  split; [reflexivity|].
  apply (no_reservation_leaks (fun _ => None) (fun _ => []) (fun _ _ _ _ => None) (fun _ => 0%Z)
    (fun _ => None) (fun _ => Some "mistral-ai") SampleHandler.next (fun _ s => s) (fun _ s => s)
    (fun _ => false) (fun _ _ => Some (num_of_Q 1 4)) (Some SampleHandler.runtime) Sample.policy
    SampleHandler.call SampleHandler.empty out s').
  - intros body route s k Hk. exact Hk.
  - intros t s k Hk. exact Hk.
  - intros resp s k Hk. exact Hk.
  - exact SampleHandler.empty_holds.
  - exact E.
Defined.

Definition refused {Err Resp} (out : BudgetOutcome Err Resp) : bool :=
  match out with Refused _ | Unavailable _ => true | _ => false end.

(** A refused call is refused before it is sent: whether it is refused, with
    which budget, reset time and status, and what the store holds then, do not
    depend on what sending it would do, in any store. *)
Theorem refused_before_sent {St} `{BudgetStore St} {Err Resp}
    (next next' : any -> option PSRoute -> St -> result Err Resp * St)
    urlOrigin scan estimateCost stringify_length JSON_parse providerOf others drain
    free_of_charge actualCost rt policy c s out s' :
  handle urlOrigin scan estimateCost stringify_length JSON_parse providerOf
    next others drain free_of_charge actualCost rt policy c s = (out, s') ->
  refused out = true ->
  handle urlOrigin scan estimateCost stringify_length JSON_parse providerOf
    next' others drain free_of_charge actualCost rt policy c s = (out, s').
Proof.
  unfold handle, psBudget.
  destruct (negb _); [by destruct (next _ _ s); intros [= <- _]|].
  destruct (_ || _); [by destruct (next _ _ s); intros [= <- _]|].
  destruct rt as [rt|]; [|by destruct (next _ _ s); intros [= <- _]].
  destruct (matchBudgets _ _ _); [by destruct (next _ _ s); intros [= <- _]|].
  unfold budgeted. destruct (read_used _ _ s) as [used s1].
  destruct (decide_budgets _ _) as [d|]; [|by destruct (next _ _ s1); intros [= <- _]].
  destruct (d_blockedBy d); [done|].
  destruct (match used with Some _ => _ | None => _ end) as [[adm reserved_] s3].
  destruct adm; [|done|done].
  unfold run_call. by destruct (next _ _ s3) as [res s4]; intros [= <- _].
Qed.

Module SampleRefused.
(** The month's counter of the global block budget is used up. *)
Definition full : MemoryStore :=
  mkMemory [("ps:budget:v1:acme:global:_:month:2026-11",
             mkCounter (num_of_Z 500) (num_of_Z 1800000000000))] [] (num_of_Z 1793966400000).
Definition crash (body : any) (route : option PSRoute) (s : MemoryStore)
    : result string unit * MemoryStore := (Throw "sent", s).
End SampleRefused.

Lemma refused_before_sent_witness :
  exists out s', SampleHandler.run SampleRefused.full = (out, s') /\
    handle (fun _ => None) (fun _ => []) (fun _ _ _ _ => None) (fun _ => 0%Z) (fun _ => None)
      (fun _ => Some "mistral-ai") SampleRefused.crash (fun _ s => s) (fun _ s => s)
      (fun _ => false) (fun _ _ => Some (num_of_Q 1 4)) (Some SampleHandler.runtime)
      Sample.policy SampleHandler.call SampleRefused.full = (out, s').
Proof.
  destruct (SampleHandler.run SampleRefused.full) as [out s'] eqn:E. exists out, s'.
  split; [reflexivity|].
  apply (refused_before_sent SampleHandler.next).
  - exact E.
  - vm_compute in E. injection E as <- _. reflexivity.
Defined.

(** ** Block budgets and spend in the memory store *)

Lemma live_idem now res : live now (live now res) = live now res.
Proof.
  unfold live. induction res as [|p res IH]; simpl; [done|].
  destruct (negb (expired (r_expiresAt p.2) now)) eqn:Hp; simpl; [by rewrite Hp, IH|done].
Qed.

(** A reservation on one key leaves the usage of the others as it was. *)
Lemma reserve_other_usage a s r s' k :
  memory_wf s -> memory_reserve a s = (r, s') -> k <> ra_key a ->
  usage_of k (ra_nowMs a) s' = usage_of k (ra_nowMs a) s.
Proof.
  intros Hwf Hr Hk. pose proof (reserve_spec _ _ _ _ Hwf Hr) as (_ & _ & _ & _ & Hsp & Hh).
  unfold usage_of. destruct (Hsp k) as [-> _]. rewrite Hh.
  by destruct (String.eqb_spec k (ra_key a)).
Qed.

Lemma tighter_fold l first :
  is_nan (b_limitUsd (s_budget first)) = false ->
  Forall (fun s => is_nan (b_limitUsd (s_budget s)) = false) l ->
  let t := fold_left tighter l first in
  is_nan (b_limitUsd (s_budget t)) = false /\
  forall s, s ∈ first :: l -> nleb (b_limitUsd (s_budget t)) (b_limitUsd (s_budget s)) = true.
Proof.
  revert first. induction l as [|x l IH]; intros first Hf Hl; simpl.
  - split; [done|]. intros s ->%list_elem_of_singleton. by apply nleb_refl.
  - apply Forall_cons in Hl as [Hx Hl].
    assert (Ht : is_nan (b_limitUsd (s_budget (tighter first x))) = false /\
      nleb (b_limitUsd (s_budget (tighter first x))) (b_limitUsd (s_budget first)) = true /\
      nleb (b_limitUsd (s_budget (tighter first x))) (b_limitUsd (s_budget x)) = true).
    { unfold tighter. destruct (nltb _ _) eqn:Hlt; (split; [done|]).
      - split; [by apply nltb_nleb|by apply nleb_refl].
      - split; [by apply nleb_refl|]. rewrite nleb_negb by done. by rewrite Hlt. }
    destruct Ht as (Hn & Hle1 & Hle2). destruct (IH _ Hn Hl) as [Hnt Hall].
    split; [done|]. intros s Hs. apply elem_of_cons in Hs as [->|[->|Hs]%elem_of_cons].
    + eapply nleb_trans; [apply Hall; left|done].
    + eapply nleb_trans; [apply Hall; left|done].
    + apply Hall. by right.
Qed.

Definition limits_known (statuses : list Status) : Prop :=
  Forall (fun s => is_nan (b_limitUsd (s_budget s)) = false) statuses.

Lemma tightest_least key statuses s :
  limits_known statuses -> s ∈ statuses -> is_block s = true -> m_key (s_matched s) = key ->
  exists t, tightest key statuses = Some t /\
    nleb (b_limitUsd (s_budget t)) (b_limitUsd (s_budget s)) = true.
Proof.
  intros Hk Hin Hb Hkey. unfold tightest.
  assert (Hs : s ∈ List.filter is_block (on_key key statuses)).
  { apply filter_elem. split; [|done]. apply filter_elem. split; [done|].
    by rewrite Hkey, String.eqb_refl. }
  assert (Hf : Forall (fun s => is_nan (b_limitUsd (s_budget s)) = false)
    (List.filter is_block (on_key key statuses))).
  { apply Forall_forall. intros x Hx. unfold limits_known in Hk. rewrite Forall_forall in Hk.
    apply Hk. apply filter_elem in Hx as [Hx _]. by apply filter_elem in Hx as [Hx _]. }
  destruct (List.filter is_block _) as [|f l]; [by apply elem_of_nil in Hs|].
  apply Forall_cons in Hf as [Hf Hl]. exists (fold_left tighter l f). split; [done|].
  by apply tighter_fold.
Qed.

Lemma over_limit_mono l l' u :
  nleb l l' = true -> over_limit (Some l) u = false -> over_limit (Some l') u = false.
Proof.
  simpl. intros Hle Ho. destruct (nleb l' _) eqn:Hl'; [|done].
  by rewrite (nleb_trans _ _ _ Hle Hl') in Ho.
Qed.

(** The request of a call's reservation on a counter. *)
Definition reserve_args (rt : BudgetRuntime) (id : string) (est : num) (now : Z) (statuses : list Status)
    (key : string) : ReserveArgs :=
  mkReserve key id est (num_of_Z now) (rt_reservationTtlMs rt) (b_limitUsd ∘ s_budget <$> tightest key statuses).

(** The memory store that the reservation of [key] finds: the call's reservations of
    the keys before it were made, and other calls ran before each. *)
Fixpoint store_at (others : Moment -> MemoryStore -> MemoryStore) (args : string -> ReserveArgs)
    (keys : list string) (key : string) (s : MemoryStore) : MemoryStore :=
  match keys with
  | [] => s
  | k :: rest =>
      let found := others (before_reserve k) s in
      if (k =? key)%string then found
      else store_at others args rest key (memory_reserve (args k) found).2
  end.

Lemma reserve_loop_admits others rt id est now statuses keys reserved_ s reserved' s' :
  (forall t x, memory_wf x -> memory_wf (others t x)) ->
  memory_wf s -> limits_known statuses ->
  reserve_loop others rt id est now statuses keys reserved_ s = (Granted, reserved', s') ->
  forall st, st ∈ statuses -> is_block st = true -> m_key (s_matched st) ∈ keys ->
    over_limit (Some (b_limitUsd (s_budget st)))
      (usage_of (m_key (s_matched st)) (num_of_Z now)
         (store_at others (reserve_args rt id est now statuses) keys (m_key (s_matched st)) s)) = false.
Proof.
  intros Hoth Hwf Hk. revert reserved_ s Hwf.
  induction keys as [|key keys IH]; intros reserved_ s Hwf Hloop st Hst Hb Hin;
    [by apply elem_of_nil in Hin|].
  cbn [reserve_loop store_reserve MemoryBudgetStore] in Hloop. cbn [store_at].
  fold (reserve_args rt id est now statuses key) in Hloop. set (a := reserve_args _ _ _ _ _ key) in *.
  pose proof (Hoth (before_reserve key) s Hwf) as Hwf0.
  destruct (memory_reserve a (others (before_reserve key) s)) as [r s1] eqn:Hr.
  pose proof (reserve_spec _ _ _ _ Hwf0 Hr) as (Hwf1 & _ & _ & Hok & _ & _).
  destruct (rr_ok r) eqn:Hrok.
  - destruct (String.eqb_spec key (m_key (s_matched st))) as [Hkey|Hne].
    + destruct (tightest_least key statuses st Hk Hst Hb (eq_sym Hkey)) as (t & Ht & Hle).
      symmetry in Hok. apply negb_true_iff in Hok. subst a. unfold reserve_args in Hok.
      cbn [ra_limit ra_key ra_nowMs] in Hok.
      rewrite Ht in Hok. simpl in Hok. rewrite <- Hkey. by eapply over_limit_mono.
    + apply elem_of_cons in Hin as [Hkey|Hin]; [by destruct Hne|]. by eapply (IH _ _ Hwf1).
  - destruct (tightest key statuses) as [t|] eqn:Ht; [by injection Hloop|].
    subst a. unfold reserve_args in Hok. rewrite Ht in Hok. simpl in Hok. discriminate Hok.
Qed.

Lemma matchBudgets_in config attributes now m :
  m ∈ matchBudgets config attributes now -> m_budget m ∈ bc_budgets config.
Proof.
  unfold matchBudgets. intros (b & Hb & Hm)%list_elem_of_omap.
  destruct (subject_of attributes b); [|done]. by injection Hm as <-.
Qed.

Lemma memory_read_length keys now s : length (memory_read keys now s).1 = length keys.
Proof.
  revert s. induction keys as [|k keys IH]; intros s; simpl; [done|].
  destruct (usage k now s) as [u s1]. specialize (IH s1).
  destruct (memory_read keys now s1) as [us s2]. simpl in *. by rewrite IH.
Qed.

Lemma memory_read_wf keys now s us s' :
  memory_wf s -> memory_read keys now s = (us, s') -> memory_wf s'.
Proof.
  revert s us. induction keys as [|k keys IH]; intros s us Hwf; simpl; [by intros [= _ <-]|].
  destruct (usage k now s) as [u s1] eqn:Hu. pose proof (usage_spec _ _ _ _ _ Hwf Hu) as (_ & Hwf1 & _).
  destruct (memory_read keys now s1) as [us' s2] eqn:Hr. intros [= _ <-]. by eapply IH.
Qed.

(** The memory store always answers, with a usage per key. *)
Lemma memory_read_used keys now (s : MemoryStore) :
  memory_wf s -> exists used s', read_used keys now s = (Some used, s') /\ memory_wf s'.
Proof.
  intros Hwf. unfold read_used. cbn [store_read MemoryBudgetStore].
  pose proof (memory_read_length keys (num_of_Z now) s) as Hlen.
  destruct (memory_read keys (num_of_Z now) s) as [us s1] eqn:Hr.
  unfold used_of. simpl in Hlen. rewrite Hlen, Nat.leb_refl. eexists _, _. split; [done|].
  by eapply memory_read_wf.
Qed.

Definition is_served {Err Resp} (out : BudgetOutcome Err Resp) : bool :=
  match out with Served _ _ _ _ => true | _ => false end.

(** [C36] With the memory store, no call passes an exhausted block budget, even when
    other calls spend between the decision and the reservations and between one
    reservation and the next: a call the store lets through had, at the moment each of
    its reservations was made, settled spend plus live reservations under the limit of
    every block budget on that counter, however many budgets share it.  (A store that
    cannot be read lets calls pass unchecked when [on_store_error] is open.) *)
Theorem served_under_every_block_limit {Err Resp}
    (next : any -> option PSRoute -> MemoryStore -> result Err Resp * MemoryStore)
    urlOrigin scan estimateCost stringify_length JSON_parse providerOf others drain
    free_of_charge actualCost rt policy c s out s' :
  ValidConfig (rt_config rt) -> memory_wf s -> (forall t x, memory_wf x -> memory_wf (others t x)) ->
  handle urlOrigin scan estimateCost stringify_length JSON_parse providerOf
    next others drain free_of_charge actualCost (Some rt) policy c s = (out, s') ->
  is_served out = true ->
  let matched := matchBudgets (rt_config rt)
    (attributesOf (bq_headers c) (bq_verifiedOwner c)) (bq_nowMs c) in
  exists used s1 d,
    read_used (keys_of matched) (bq_nowMs c) s = (Some used, s1) /\
    decide_budgets (statuses_of matched (Some used)) (bc_onStoreError (rt_config rt)) = Some d /\
    let estimate := sh_estimate (shape urlOrigin scan estimateCost stringify_length JSON_parse providerOf
                                   policy c (d_ceilingUsd d)) in
    let at_reserve key := store_at others
      (reserve_args rt (bq_reservationId c) estimate (bq_nowMs c) (statuses_of matched (Some used)))
      (keys_of matched) key s1 in
    forall m, m ∈ matched -> b_mode (m_budget m) = block ->
      over_limit (Some (b_limitUsd (m_budget m)))
        (usage_of (m_key m) (num_of_Z (bq_nowMs c)) (at_reserve (m_key m))) = false.
Proof.
  intros Hvalid Hwf Hoth Hrun Hserved matched.
  unfold handle, psBudget in Hrun.
  destruct (negb _); [destruct (next _ _ s); by injection Hrun as <- _|].
  destruct (_ || _); [destruct (next _ _ s); by injection Hrun as <- _|].
  fold matched in Hrun.
  destruct (decide (matched = [])) as [Hm|Hm].
  { rewrite Hm in Hrun. destruct (next _ _ s); by injection Hrun as <- _. }
  assert (Hrun' : budgeted urlOrigin scan estimateCost stringify_length JSON_parse providerOf
    next others drain free_of_charge actualCost rt policy c matched s = (out, s')).
  { by destruct matched. }
  clear Hrun. unfold budgeted in Hrun'.
  destruct (memory_read_used (keys_of matched) (bq_nowMs c) s Hwf) as (used & s1 & Hread & Hwf1).
  rewrite Hread in Hrun'.
  set (statuses := statuses_of matched (Some used)) in *.
  destruct (decide_budgets statuses _) as [d|] eqn:Hd; [|destruct (next _ _ s1); by injection Hrun' as <- _].
  exists used, s1, d. split; [done|]. split; [done|].
  destruct (d_blockedBy d) as [b|].
  { injection Hrun' as <- _. by destruct (s_spent b). }
  destruct (reserve_loop _ _ _ _ _ _ _ _ s1) as [[adm reserved_] s3] eqn:Hloop.
  destruct adm; [|by injection Hrun' as <- _..].
  cbv zeta. intros m Hin Hmode.
  assert (Hlim : limits_known statuses).
  { unfold limits_known, statuses, statuses_of. apply Forall_map, Forall_forall. intros x Hx.
    apply matchBudgets_in in Hx. destruct Hvalid as [_ Hb _]. rewrite Forall_forall in Hb.
    destruct (Hb _ Hx). by apply finite_not_nan. }
  set (st := mkStatus m (Some (default nzero (own used (m_key m))))
    (budgetState (m_budget m) (Some (default nzero (own used (m_key m)))))).
  apply (reserve_loop_admits _ _ _ _ _ _ _ _ _ _ _ Hoth Hwf1 Hlim Hloop st).
  - unfold statuses, statuses_of. apply list_elem_of_In, in_map_iff. exists m.
    split; [done|]. by apply list_elem_of_In.
  - unfold is_block, s_budget. simpl. by rewrite Hmode.
  - apply keys_of_in. by exists m.
Qed.

(** A store whose counters cannot be read. *)
#[export] Instance UnreadableStore : BudgetStore unit := {|
  store_read _ _ s := (Throw "down", s);
  store_reserve _ s := (Throw "down", s);
  store_settle _ _ _ _ _ s := (Throw "down", s)
|}.

(** Under [on_store_error: open] a call is then served without a check, also under a
    block budget. *)
Example unreadable_store_lets_pass :
  let open_config := mkBudgetConfig (bc_namespace SampleBudgets.config) open_ (bc_budgets SampleBudgets.config) in
  is_served (handle (fun _ => None) (fun _ => []) (fun _ _ _ _ => None) (fun _ => 0%Z) (fun _ => None)
    (fun _ => Some "mistral-ai") (fun _ _ s => (Ok (E := string) tt, s)) (fun _ s => s) (fun _ s => s)
    (fun _ => false) (fun _ _ => None)
    (Some (mkRuntime open_config (num_of_Z 900000))) Sample.policy SampleHandler.call tt).1 = true.
Proof. vm_compute. reflexivity. Qed.

Lemma served_under_every_block_limit_witness :
  let key := "ps:budget:v1:acme:global:_:month:2026-11" in
  exists out s', SampleHandler.run SampleHandler.empty = (out, s') /\ is_served out = true /\
    exists args, over_limit (Some (num_of_Z 500)) (usage_of key (num_of_Z 1793966400000)
      (let keys := keys_of (matchBudgets SampleBudgets.config
         (attributesOf (bq_headers SampleHandler.call) None) 1793966400000) in
       store_at (fun _ s => s) args keys key
         (read_used keys 1793966400000 SampleHandler.empty).2)) = false.
Proof.
  cbv zeta. destruct (SampleHandler.run SampleHandler.empty) as [out s'] eqn:E. exists out, s'.
  assert (Hs : is_served out = true) by (vm_compute in E; injection E as <- _; reflexivity).
  split; [reflexivity|]. split; [exact Hs|].
  pose (m := mkMatched SampleBudgets.everyone "_" "ps:budget:v1:acme:global:_:month:2026-11"
    2203200 1796083200000).
  assert (Hw : memory_wf SampleHandler.empty).
  { split; [constructor|]. split; [constructor|]. intros key res Hres. discriminate Hres. }
  destruct (served_under_every_block_limit SampleHandler.next _ _ _ _ _ _ _ _ _ _
    SampleHandler.runtime _ _ _ _ _ SampleBudgets.valid
    Hw (fun t x Hx => Hx) E Hs) as (used & s1 & d & Hread & _ & H).
  change (attributesOf (bq_headers SampleHandler.call) (bq_verifiedOwner SampleHandler.call))
    with (attributesOf (bq_headers SampleHandler.call) None) in *.
  eexists. cbv zeta. apply (f_equal snd) in Hread. cbn [snd] in Hread. subst s1. apply (H m); [vm_compute; right; left|reflexivity].
Defined.

Lemma settle_other key id amount actual ttl s k :
  memory_wf s -> k <> key ->
  let s' := memory_settle key id amount actual ttl s in
  memory_wf s' /\ own (counters s') k = own (counters s) k /\ ms_clock s' = ms_clock s.
Proof.
  intros Hwf Hk s'. pose proof (settle_spec key id amount actual ttl s Hwf) as (Hwf' & _).
  split; [done|]. subst s'. unfold memory_settle.
  destruct (drop_reservation_spec key id s Hwf) as (Hwf1 & Hc & Hck & _).
  destruct (negb _); [by rewrite Hc, Hck|]. unfold add_spent. simpl. rewrite own_put.
  destruct (String.eqb_spec k key) as [|_]; [done|]. rewrite usage_counters.
  split.
  - unfold drop_counter. rewrite <- Hc. destruct (own (counters (drop_reservation key id s)) key); [|done].
    destruct (expired _ _); [|done]. simpl. by rewrite own_map_delete.
  - destruct (usage key nzero (drop_reservation key id s)) as [u s2] eqn:Hu.
    pose proof (usage_spec _ _ _ _ _ Hwf1 Hu) as (_ & _ & Hck2 & _). simpl. by rewrite Hck2.
Qed.

Definition charge (matched : list Matched) (id : string) (est : num) (actual : option num)
    (s : MemoryStore) (key : string) : MemoryStore :=
  match List.find (fun m => (m_key m =? key)%string) matched with
  | Some m => settle_one (fun _ s => s) key id est (default est actual) (m_ttlSeconds m) s
  | None => s
  end.

Lemma charge_fold matched id est actual keys s :
  memory_wf s -> NoDup keys -> (forall k, k ∈ keys -> k ∈ keys_of matched) ->
  let s' := fold_left (charge matched id est actual) keys s in
  memory_wf s' /\ ms_clock s' = ms_clock s /\
  (forall k, k ∉ keys -> own (counters s') k = own (counters s) k) /\
  (nltb nzero (default est actual) = true -> forall k, k ∈ keys ->
    exists m, m ∈ matched /\ m_key m = k /\
      own (counters s') k = Some (counter_after k (default est actual) (m_ttlSeconds m) s)).
Proof.
  intros Hwf Hnd Hsub. revert s Hwf. induction keys as [|key keys IH]; intros s Hwf; simpl.
  { split; [done|]. split; [done|]. split; [done|]. intros _ k Hk. by apply elem_of_nil in Hk. }
  apply NoDup_cons in Hnd as [Hni Hnd].
  destruct (find_key matched key) as (m & Hf & Hm & Hmk); [apply Hsub; by left|].
  assert (Hch : charge matched id est actual s key =
    memory_settle key id est (default est actual) (m_ttlSeconds m) s)
    by (unfold charge; by rewrite Hf).
  rewrite Hch. set (s1 := memory_settle _ _ _ _ _ _).
  pose proof (settle_spec key id est (default est actual) (m_ttlSeconds m) s Hwf)
    as (Hwf1 & _ & _ & Hpos). fold s1 in Hwf1, Hpos.
  assert (Hck : ms_clock s1 = ms_clock s).
  { destruct (settle_other key id est (default est actual) (m_ttlSeconds m) s (key +:+ "'") Hwf)
      as (_ & _ & ?); [|done]. clear. induction key as [|x key IH]; [done|]. intros [= Hx]. by apply IH. }
  assert (Hoth : forall k, k <> key -> own (counters s1) k = own (counters s) k).
  { intros k Hk. by destruct (settle_other key id est (default est actual) (m_ttlSeconds m) s k Hwf Hk)
      as (_ & ? & _). }
  destruct (IH Hnd ltac:(intros k Hk; apply Hsub; by right) s1 Hwf1) as (Hwf2 & Hck2 & Hrest & Hin).
  split; [done|]. split; [congruence|]. split.
  - intros k [Hne Hk]%not_elem_of_cons. rewrite Hrest by done. by apply Hoth.
  - intros Hp k [->|Hk]%elem_of_cons.
    + exists m. split; [done|]. split; [done|]. rewrite Hrest by done. by destruct (Hpos Hp).
    + assert (k <> key) by (by intros ->).
      destruct (Hin Hp k Hk) as (m' & Hm' & Hk' & Ho). exists m'. split; [done|]. split; [done|].
      rewrite Ho. unfold counter_after, expiry_of, spent_of. by rewrite Hoth, Hck.
Qed.

(** Settling charges every distinct counter exactly once, whatever number of
    matching budgets share it, and no other: each matched counter is afterwards
    what one addition of the cost (the estimate when the call is unpriced) makes
    of it, and counters of keys no budget matched are as they were. *)
Theorem each_counter_charged_once matched id est actual s :
  memory_wf s ->
  let cost := default est actual in
  let s' := settle_all (fun _ s => s) id est matched actual s in
  (forall k, (forall m, m ∈ matched -> m_key m <> k) ->
     own (counters s') k = own (counters s) k) /\
  (nltb nzero cost = true -> forall m, m ∈ matched ->
     exists m', m' ∈ matched /\ m_key m' = m_key m /\
       own (counters s') (m_key m) = Some (counter_after (m_key m) cost (m_ttlSeconds m') s)).
Proof.
  intros Hwf cost s'.
  destruct (charge_fold matched id est actual (keys_of matched) s Hwf (dedup_NoDup _ _))
    as (_ & _ & Hrest & Hin); [done|].
  split.
  - intros k Hk. apply Hrest. intros (m & Hm & Hmk)%keys_of_in. by apply (Hk m).
  - intros Hp m Hm. destruct (Hin Hp (m_key m)) as (m' & ? & ? & ?); [|by exists m'].
    apply keys_of_in. by exists m.
Qed.

Lemma each_counter_charged_once_witness :
  let matched := matchBudgets SampleBudgets.config
    (attributesOf (bq_headers SampleHandler.call) None) 1793966400000 in
  exists m', m' ∈ matched /\
    own (counters (settle_all (fun _ s => s) "call-1" (num_of_Z 1) matched (Some (num_of_Z 2)) SampleRefused.full))
      "ps:budget:v1:acme:global:_:month:2026-11" =
    Some (counter_after "ps:budget:v1:acme:global:_:month:2026-11" (num_of_Z 2)
            (m_ttlSeconds m') SampleRefused.full).
Proof.
  intros matched.
  destruct (each_counter_charged_once matched "call-1" (num_of_Z 1) (Some (num_of_Z 2))
    SampleRefused.full) as [_ H].
  - split; [apply NoDup_singleton|]. split; [constructor|]. intros key res Hres. discriminate Hres.
  - destruct (H ltac:(vm_compute; reflexivity)
      (mkMatched SampleBudgets.everyone "_" "ps:budget:v1:acme:global:_:month:2026-11"
        2203200 1796083200000)) as (m' & Hm' & _ & Ho).
    + vm_compute. right. left.
    + exists m'. split; [exact Hm'|exact Ho].
Defined.
