(* ===== verification/MemoryCache.v ===== *)
(** * The in-process cache

    Models [src/gateway/src/shared/services/cache/backends/memory.ts]: the
    [Map] of entries in insertion order, expiry, the eviction of the oldest
    tenth, namespaces, and the statistics.  Every operation takes the value of
    [Date.now()]; times are integer milliseconds.  The timer that calls
    [cleanup] and the log lines are not modelled: [cleanup] may come between
    any two operations. *)

From Stdlib Require Import ZArith Lia ZifyBool Ascii Floats.SpecFloat Sorting.Sorted.
From stdpp Require Import base strings option sets list.
From S2P Require Import Prelude JsValue.

#[local] Open Scope string_scope.
#[local] Open Scope list_scope.
#[local] Open Scope Z_scope.

Section MemoryCache.
Context {V : Type}.

Record CacheEntry := mkEntry {
  ce_value : V;
  ce_createdAt : Z;
  ce_expiresAt : option Z;
  ce_metadata : any
}.

Record CacheOptions := mkOptions {
  co_ttl : option Z;
  co_namespace : option string;
  co_metadata : any
}.

Record CacheStats := mkStats {
  cs_hits : Z;
  cs_misses : Z;
  cs_sets : Z;
  cs_deletes : Z;
  cs_size : Z;
  cs_expired : Z
}.

Record MemoryCache := mkCache {
  mc_cache : obj CacheEntry;
  mc_stats : CacheStats;
  mc_maxSize : Z
}.

Definition DEFAULT_MAX_SIZE : Z := 10000.

Definition new_cache (maxSize : Z) : MemoryCache := mkCache [] (mkStats 0 0 0 0 0 0) maxSize.

(** [this.cache.size] *)
Definition size_of (m : obj CacheEntry) : Z := Z.of_nat (length m).

Definition getFullKey (key : string) (namespace : option string) : string :=
  match namespace with
  | Some ns => if truthy_string ns then ns +:+ ":" +:+ key else key
  | None => key
  end.

Definition isExpired (now : Z) (e : CacheEntry) : bool :=
  match ce_expiresAt e with Some t => t <=? now | None => false end.

(** [entries.sort((a, b) => a[1].createdAt - b[1].createdAt)]: stable. *)
Fixpoint insert_oldest (p : string * CacheEntry) (l : obj CacheEntry) : obj CacheEntry :=
  match l with
  | [] => [p]
  | q :: r => if ce_createdAt p.2 <=? ce_createdAt q.2 then p :: l else q :: insert_oldest p r
  end.

Fixpoint sort_oldest (l : obj CacheEntry) : obj CacheEntry :=
  match l with [] => [] | p :: r => insert_oldest p (sort_oldest r) end.

(** [Math.floor(this.maxSize * 0.1)] *)
Definition evict_count (maxSize : Z) : nat :=
  Z.to_nat (floor_Z (nmul (num_of_Z maxSize) (num_of_Q 1 10))).

Definition delete_all (m : obj CacheEntry) (ks : list string) : obj CacheEntry :=
  foldl map_delete m ks.

(** The keys [evictIfNeeded] deletes. *)
Definition evicted (c : MemoryCache) : list string :=
  if mc_maxSize c <=? size_of (mc_cache c)
  then obj_keys (take (evict_count (mc_maxSize c)) (sort_oldest (mc_cache c)))
  else [].

Definition evictIfNeeded (c : MemoryCache) : MemoryCache :=
  mkCache (delete_all (mc_cache c) (evicted c)) (mc_stats c) (mc_maxSize c).

(** ** Statistics *)

Definition count_hit (s : CacheStats) : CacheStats :=
  mkStats (cs_hits s + 1) (cs_misses s) (cs_sets s) (cs_deletes s) (cs_size s) (cs_expired s).
Definition count_miss (s : CacheStats) : CacheStats :=
  mkStats (cs_hits s) (cs_misses s + 1) (cs_sets s) (cs_deletes s) (cs_size s) (cs_expired s).
Definition count_expired (n : Z) (s : CacheStats) : CacheStats :=
  mkStats (cs_hits s) (cs_misses s) (cs_sets s) (cs_deletes s) (cs_size s) (cs_expired s + n).
Definition count_set (s : CacheStats) : CacheStats :=
  mkStats (cs_hits s) (cs_misses s) (cs_sets s + 1) (cs_deletes s) (cs_size s) (cs_expired s).
Definition count_deletes (n : Z) (s : CacheStats) : CacheStats :=
  mkStats (cs_hits s) (cs_misses s) (cs_sets s) (cs_deletes s + n) (cs_size s) (cs_expired s).
Definition with_size (n : Z) (s : CacheStats) : CacheStats :=
  mkStats (cs_hits s) (cs_misses s) (cs_sets s) (cs_deletes s) n (cs_expired s).

Definition with_cache (c : MemoryCache) (m : obj CacheEntry) (s : CacheStats) : MemoryCache :=
  mkCache m s (mc_maxSize c).

(** ** Operations *)

Definition get (now : Z) (key : string) (namespace : option string) (c : MemoryCache)
    : option CacheEntry * MemoryCache :=
  let fullKey := getFullKey key namespace in
  match own (mc_cache c) fullKey with
  | None => (None, with_cache c (mc_cache c) (count_miss (mc_stats c)))
  | Some entry =>
      if isExpired now entry
      then (None, with_cache c (map_delete (mc_cache c) fullKey)
                    (count_miss (count_expired 1 (mc_stats c))))
      else (Some entry, with_cache c (mc_cache c) (count_hit (mc_stats c)))
  end.

(** [options.ttl ? now + options.ttl : undefined] *)
Definition expiry (now : Z) (ttl : option Z) : option Z :=
  match ttl with Some t => if t =? 0 then None else Some (now + t) | None => None end.

Definition new_entry (now : Z) (value : V) (options : CacheOptions) : CacheEntry :=
  mkEntry value now (expiry now (co_ttl options)) (co_metadata options).

Definition set (now : Z) (key : string) (value : V) (options : CacheOptions)
    (c : MemoryCache) : MemoryCache :=
  let fullKey := getFullKey key (co_namespace options) in
  let c := evictIfNeeded c in
  let m := obj_put (mc_cache c) fullKey (new_entry now value options) in
  with_cache c m (with_size (size_of m) (count_set (mc_stats c))).

Definition delete (key : string) (namespace : option string) (c : MemoryCache)
    : bool * MemoryCache :=
  let fullKey := getFullKey key namespace in
  if hasOwn (mc_cache c) fullKey then
    let m := map_delete (mc_cache c) fullKey in
    (true, with_cache c m (with_size (size_of m) (count_deletes 1 (mc_stats c))))
  else (false, c).

Definition in_namespace (ns key : string) : bool := startsWith key (ns +:+ ":").

Definition clear (namespace : option string) (c : MemoryCache) : MemoryCache :=
  if truthy_opt namespace then
    let keysToDelete :=
      List.filter (in_namespace (default "" namespace)) (obj_keys (mc_cache c)) in
    let m := delete_all (mc_cache c) keysToDelete in
    with_cache c m (with_size (size_of m)
      (count_deletes (Z.of_nat (length keysToDelete)) (mc_stats c)))
  else
    with_cache c [] (with_size 0 (count_deletes (size_of (mc_cache c)) (mc_stats c))).

Definition has (now : Z) (key : string) (namespace : option string) (c : MemoryCache)
    : bool * MemoryCache :=
  let fullKey := getFullKey key namespace in
  match own (mc_cache c) fullKey with
  | None => (false, c)
  | Some entry =>
      if isExpired now entry
      then (false, with_cache c (map_delete (mc_cache c) fullKey)
                     (count_expired 1 (mc_stats c)))
      else (true, c)
  end.

(** [key.substring(prefix.length)] *)
Fixpoint substring_from (n : nat) (s : string) : string :=
  match n, s with
  | O, _ => s
  | S n, String _ r => substring_from n r
  | S _, EmptyString => EmptyString
  end.

Definition keys (namespace : option string) (c : MemoryCache) : list string :=
  let allKeys := obj_keys (mc_cache c) in
  if truthy_opt namespace then
    let ns := default "" namespace in
    map (substring_from (String.length (ns +:+ ":"))) (List.filter (in_namespace ns) allKeys)
  else allKeys.

Definition getStats (now : Z) (namespace : option string) (c : MemoryCache) : CacheStats :=
  if truthy_opt namespace then
    let entries := List.filter (fun p => in_namespace (default "" namespace) p.1) (mc_cache c) in
    let expired := List.filter (fun p => isExpired now p.2) entries in
    let s := mc_stats c in
    mkStats (cs_hits s) (cs_misses s) (cs_sets s) (cs_deletes s) (size_of entries)
      (size_of expired)
  else mc_stats c.

Definition cleanup (now : Z) (c : MemoryCache) : MemoryCache :=
  let expired := List.filter (fun p => isExpired now p.2) (mc_cache c) in
  let m := List.filter (fun p => negb (isExpired now p.2)) (mc_cache c) in
  if 0 <? size_of expired
  then with_cache c m (with_size (size_of m) (count_expired (size_of expired) (mc_stats c)))
  else with_cache c m (mc_stats c).

Definition close (c : MemoryCache) : MemoryCache := with_cache c [] (mc_stats c).

(** An operation of the backend, and its effect on the cache. *)
Inductive CacheOp :=
| OpGet (key : string) (namespace : option string)
| OpSet (key : string) (value : V) (options : CacheOptions)
| OpDelete (key : string) (namespace : option string)
| OpClear (namespace : option string)
| OpHas (key : string) (namespace : option string)
| OpCleanup
| OpClose.

Definition run_op (c : MemoryCache) (op : Z * CacheOp) : MemoryCache :=
  let now := op.1 in
  match op.2 with
  | OpGet k ns => (get now k ns c).2
  | OpSet k v o => set now k v o c
  | OpDelete k ns => (delete k ns c).2
  | OpClear ns => clear ns c
  | OpHas k ns => (has now k ns c).2
  | OpCleanup => cleanup now c
  | OpClose => close c
  end.

Definition run_ops (c : MemoryCache) (ops : list (Z * CacheOp)) : MemoryCache := foldl run_op c ops.
End MemoryCache.
Arguments CacheEntry : clear implicits.
Arguments MemoryCache : clear implicits.
Arguments CacheOp : clear implicits.

Section Theory.
Context {V : Type}.
Implicit Types (c : MemoryCache V) (m : obj (CacheEntry V)) (e : CacheEntry V).

(** ** Deletion and eviction *)

Lemma elem_take_drop {A} n (l : list A) x : x ∈ l <-> x ∈ take n l \/ x ∈ drop n l.
Proof. by rewrite <- elem_of_app, take_drop. Qed.

Lemma own_delete_all m ks q :
  own (delete_all m ks) q = if mem_string q ks then None else own m q.
Proof.
  unfold delete_all. revert m. induction ks as [|k ks IH]; intros m; simpl; [done|].
  rewrite IH. destruct (String.eqb_spec q k) as [->|Hne]; simpl.
  - rewrite own_map_delete_eq. by destruct (mem_string k ks).
  - by rewrite own_map_delete.
Qed.

Lemma NoDup_delete_all m ks : NoDup (obj_keys m) -> NoDup (obj_keys (delete_all m ks)).
Proof.
  unfold delete_all. revert m. induction ks as [|k ks IH]; intros m Hm; simpl; [done|].
  by apply IH, NoDup_map_delete.
Qed.

Lemma map_delete_le m k : size_of (map_delete m k) <= size_of m.
Proof. unfold size_of, map_delete. pose proof (length_filter_bool (fun p => negb (k =? p.1)%string) m). lia. Qed.

Lemma delete_all_le m ks : size_of (delete_all m ks) <= size_of m.
Proof.
  unfold delete_all. revert m. induction ks as [|k ks IH]; intros m; simpl; [lia|].
  pose proof (IH (map_delete m k)). pose proof (map_delete_le m k). lia.
Qed.

Lemma delete_all_lt m k ks :
  NoDup (obj_keys m) -> k ∈ obj_keys m -> size_of (delete_all m (k :: ks)) < size_of m.
Proof.
  intros Hm Hk. simpl. pose proof (delete_all_le (map_delete m k) ks) as H.
  assert (is_Some (own m k)) as Hown.
  { destruct (own m k) as [e|] eqn:He; [by eexists|]. by apply own_None in He. }
  pose proof (map_delete_length m k Hm Hown). unfold delete_all, size_of in *. simpl in *. lia.
Qed.

Lemma insert_oldest_perm p m : insert_oldest p m ≡ₚ p :: m.
Proof.
  induction m as [|q m IH]; simpl; [done|]. destruct (_ <=? _); [done|].
  rewrite IH. apply Permutation_swap.
Qed.

Lemma sort_oldest_perm m : sort_oldest m ≡ₚ m.
Proof. induction m as [|p m IH]; simpl; [done|]. by rewrite insert_oldest_perm, IH. Qed.

(** Not created after. *)
Definition older (p q : string * CacheEntry V) : Prop := ce_createdAt p.2 <= ce_createdAt q.2.

Lemma insert_oldest_sorted p m :
  StronglySorted older m -> StronglySorted older (insert_oldest p m).
Proof.
  induction 1 as [|q m Hm IH Hq]; simpl; [by repeat constructor|].
  destruct (Z.leb_spec (ce_createdAt p.2) (ce_createdAt q.2)) as [Hle|Hlt].
  - constructor; [by constructor|]. constructor; [done|].
    eapply Forall_impl; [done|]. unfold older. simpl. lia.
  - constructor; [done|]. rewrite insert_oldest_perm. constructor; [unfold older; lia|done].
Qed.

Lemma sort_oldest_sorted m : StronglySorted older (sort_oldest m).
Proof. induction m; simpl; [constructor|by apply insert_oldest_sorted]. Qed.

Lemma sorted_split n m p q :
  StronglySorted older m -> p ∈ take n m -> q ∈ drop n m -> older p q.
Proof.
  revert m. induction n as [|n IH]; intros [|x m] Hs Hp Hq; simpl in *;
    try (by apply elem_of_nil in Hp); try (by apply elem_of_nil in Hq).
  apply StronglySorted_inv in Hs as [Hs Hx]. apply elem_of_cons in Hp as [->|Hp]; [|by apply (IH m)].
  rewrite Forall_forall in Hx. apply Hx. apply (elem_take_drop n). by right.
Qed.

Lemma evicted_in c k : k ∈ evicted c -> k ∈ obj_keys (mc_cache c).
Proof.
  unfold evicted. destruct (_ <=? _); [|by intros ?%elem_of_nil]. unfold obj_keys.
  rewrite !list_elem_of_fmap. intros (p & -> & Hp). exists p. split; [done|].
  rewrite <- sort_oldest_perm. apply (elem_take_drop (evict_count (mc_maxSize c))). by left.
Qed.

(** What eviction takes is no newer than what it leaves. *)
Lemma evicted_oldest c k e q e' :
  NoDup (obj_keys (mc_cache c)) ->
  k ∈ evicted c -> own (mc_cache c) k = Some e ->
  q ∉ evicted c -> own (mc_cache c) q = Some e' -> ce_createdAt e <= ce_createdAt e'.
Proof.
  intros Hnd Hk He Hq He'. unfold evicted in *. destruct (_ <=? _); [|by apply elem_of_nil in Hk].
  set (n := evict_count _) in *. set (l := sort_oldest (mc_cache c)) in *.
  assert (Hl : NoDup (obj_keys l)).
  { unfold l, obj_keys. by rewrite sort_oldest_perm. }
  apply (sorted_split n l (k, e) (q, e')).
  - apply sort_oldest_sorted.
  - apply list_elem_of_fmap in Hk as ([k' e''] & -> & Hin). simpl in *.
    assert (own l k' = Some e'') as Hown by (apply own_of_In; [done|apply (elem_take_drop n); by left]).
    assert (own l k' = Some e) as Hown2.
    { apply own_of_In; [done|]. unfold l. rewrite sort_oldest_perm. by apply own_In. }
    congruence.
  - assert (Hin : (q, e') ∈ take n l ++ drop n l).
    { rewrite take_drop. unfold l. rewrite sort_oldest_perm. by apply own_In. }
    apply elem_of_app in Hin as [Hin|Hin]; [|done]. exfalso. apply Hq.
    apply list_elem_of_fmap. by exists (q, e').
Qed.

Lemma evictIfNeeded_le c : size_of (mc_cache (evictIfNeeded c)) <= size_of (mc_cache c).
Proof. apply delete_all_le. Qed.

(** A full cache loses an entry when a tenth of it is one at least. *)
Lemma evictIfNeeded_room c :
  (0 < evict_count (mc_maxSize c))%nat -> 1 <= mc_maxSize c ->
  NoDup (obj_keys (mc_cache c)) -> size_of (mc_cache c) <= mc_maxSize c ->
  size_of (mc_cache (evictIfNeeded c)) < mc_maxSize c.
Proof.
  intros Hn Hmax Hnd Hle. unfold evictIfNeeded, evicted. simpl.
  destruct (Z.leb_spec (mc_maxSize c) (size_of (mc_cache c))); [|simpl; lia].
  destruct (sort_oldest (mc_cache c)) as [|p l] eqn:Hs.
  { pose proof (sort_oldest_perm (mc_cache c)) as Hp. rewrite Hs in Hp.
    apply Permutation_length in Hp. unfold size_of in *. simpl in Hp. lia. }
  destruct (evict_count (mc_maxSize c)) as [|n]; [lia|]. simpl.
  eapply Z.lt_le_trans; [|exact Hle].
  apply (delete_all_lt (mc_cache c) p.1 (obj_keys (take n l)) Hnd).
  unfold obj_keys. apply list_elem_of_fmap. exists p. split; [done|].
  rewrite <- sort_oldest_perm, Hs. by left.
Qed.

Lemma size_put m k e :
  size_of (obj_put m k e) = if hasOwn m k then size_of m else size_of m + 1.
Proof.
  unfold size_of. rewrite <- (obj_keys_length (obj_put m k e)), obj_put_keys.
  destruct (hasOwn m k); [by rewrite obj_keys_length|]. rewrite length_app, obj_keys_length. simpl. lia.
Qed.

(** ** The invariant of a reachable cache *)

Definition cache_ok (maxSize : Z) c : Prop :=
  mc_maxSize c = maxSize /\ NoDup (obj_keys (mc_cache c)).

Definition bounded c : Prop := size_of (mc_cache c) <= mc_maxSize c.

Lemma run_op_ok maxSize c op : cache_ok maxSize c -> cache_ok maxSize (run_op c op).
Proof.
  intros [Hm Hnd]. destruct op as [now [k ns|k v o|k ns|ns|k ns| |]]; unfold run_op, cache_ok; simpl.
  - unfold get. destruct (own _ _) as [e|]; [|done]. destruct (isExpired now e); [|done].
    split; [done|by apply NoDup_map_delete].
  - split; [done|]. apply NoDup_obj_put. by apply NoDup_delete_all.
  - unfold delete. destruct (hasOwn _ _); [|done]. split; [done|by apply NoDup_map_delete].
  - unfold clear. destruct (truthy_opt ns); simpl; [|by split; [|constructor]].
    split; [done|by apply NoDup_delete_all].
  - unfold has. destruct (own _ _) as [e|]; [|done]. destruct (isExpired now e); [|done].
    split; [done|by apply NoDup_map_delete].
  - unfold cleanup. destruct (0 <? _); (split; [done|]); by apply obj_keys_filter.
  - split; [done|constructor].
Qed.

Lemma run_op_bounded maxSize c op :
  (0 < evict_count maxSize)%nat -> 1 <= maxSize ->
  cache_ok maxSize c -> bounded c -> bounded (run_op c op).
Proof.
  intros Hn Hmax [Hm Hnd] Hb. unfold bounded in *.
  destruct op as [now [k ns|k v o|k ns|ns|k ns| |]]; unfold run_op; simpl.
  - unfold get. destruct (own _ _) as [e|]; [|done]. destruct (isExpired now e); [|done].
    simpl. pose proof (map_delete_le (mc_cache c) (getFullKey k ns)). lia.
  - rewrite size_put. subst maxSize.
    pose proof (evictIfNeeded_room c Hn Hmax Hnd Hb) as Hr. simpl in Hr. destruct (hasOwn _ _); lia.
  - unfold delete. destruct (hasOwn _ _); [|done]. simpl.
    pose proof (map_delete_le (mc_cache c) (getFullKey k ns)). lia.
  - unfold clear. destruct (truthy_opt ns); simpl; [|unfold size_of; simpl; lia].
    etransitivity; [apply delete_all_le|done].
  - unfold has. destruct (own _ _) as [e|]; [|done]. destruct (isExpired now e); [|done].
    simpl. pose proof (map_delete_le (mc_cache c) (getFullKey k ns)). lia.
  - unfold cleanup, size_of in *. pose proof (length_filter_bool
      (fun p => negb (isExpired now p.2)) (mc_cache c)). destruct (0 <? _); simpl; lia.
  - unfold size_of. simpl. lia.
Qed.

Lemma run_ops_ok maxSize ops c : cache_ok maxSize c -> cache_ok maxSize (run_ops c ops).
Proof.
  revert c. induction ops as [|op ops IH]; intros c Hc; simpl; [done|]. by apply IH, run_op_ok.
Qed.

Lemma new_cache_ok maxSize : cache_ok maxSize (new_cache maxSize).
Proof. split; [done|constructor]. Qed.

(** ** What callers see *)

(** The entry of a key at a time: expired entries are not there. *)
Definition live c (now : Z) (k : string) : option (CacheEntry V) :=
  match own (mc_cache c) k with
  | Some e => if isExpired now e then None else Some e
  | None => None
  end.

Lemma isExpired_later e now t : now <= t -> isExpired now e = true -> isExpired t e = true.
Proof. unfold isExpired. destruct (ce_expiresAt e); [lia|done]. Qed.

(** Deleting an expired entry changes nothing from then on. *)
Lemma live_delete_expired c k e s now t q :
  own (mc_cache c) k = Some e -> isExpired now e = true -> now <= t ->
  live (with_cache c (map_delete (mc_cache c) k) s) t q = live c t q.
Proof.
  intros He Hx Ht. unfold live. simpl. destruct (decide (q = k)) as [->|Hne].
  - by rewrite own_map_delete_eq, He, (isExpired_later e now t).
  - by rewrite own_map_delete.
Qed.

Lemma live_cleanup c now t q :
  NoDup (obj_keys (mc_cache c)) -> now <= t -> live (cleanup now c) t q = live c t q.
Proof.
  intros Hnd Ht.
  transitivity (live (with_cache c
    (List.filter (fun p => negb (isExpired now p.2)) (mc_cache c)) (mc_stats c)) t q).
  { unfold cleanup. by destruct (0 <? _). }
  unfold live. simpl. rewrite (own_filter (fun e => negb (isExpired now e))) by done.
  destruct (own (mc_cache c) q) as [e|]; [|done].
  destruct (isExpired now e) eqn:Hx; simpl; [|done]. by rewrite (isExpired_later e now t).
Qed.

Lemma mem_string_filter P q ks :
  mem_string q (List.filter P ks) = mem_string q ks && P q.
Proof.
  induction ks as [|k ks IH]; simpl; [done|].
  destruct (P k) eqn:HP; simpl; rewrite IH; destruct (String.eqb_spec q k) as [->|]; simpl;
    rewrite ?HP; try done. by rewrite andb_false_r.
Qed.

Lemma mem_own {A} (o : obj A) q : mem_string q (obj_keys o) = hasOwn o q.
Proof.
  unfold hasOwn. induction o as [|[k v] o IH]; simpl; [done|].
  by destruct (String.eqb_spec q k).
Qed.

Lemma live_clear ns c t q :
  live (clear ns c) t q =
    if truthy_opt ns && negb (in_namespace (default "" ns) q) then live c t q else None.
Proof.
  unfold live, clear. destruct (truthy_opt ns); simpl; [|done].
  rewrite own_delete_all, mem_string_filter, mem_own. unfold hasOwn.
  destruct (own (mc_cache c) q); simpl; by destruct (in_namespace _ q).
Qed.

(** Reading, probing, deleting and sweeping a cache reached by any
    operations behave as on the table of live entries: [get] and [has] answer
    from it and, like [cleanup], change no key's answer now or later; [delete]
    reports whether the key was stored and removes that key only; clearing a
    namespace removes exactly the keys under its prefix. *)
Theorem operations_follow_live_entries maxSize ops now t k ns :
  let c := run_ops (new_cache maxSize) ops in
  let key := getFullKey k ns in
  now <= t ->
  (get now k ns c).1 = live c now key /\
  (has now k ns c).1 = bool_decide (is_Some (live c now key)) /\
  (delete k ns c).1 = hasOwn (mc_cache c) key /\
  (forall q, live (get now k ns c).2 t q = live c t q /\
             live (has now k ns c).2 t q = live c t q /\
             live (cleanup now c) t q = live c t q /\
             live (delete k ns c).2 t q = (if (q =? key)%string then None else live c t q) /\
             live (clear ns c) t q =
               if truthy_opt ns && negb (in_namespace (default "" ns) q)
               then live c t q else None).
Proof.
  intros c key Ht. destruct (run_ops_ok maxSize ops _ (new_cache_ok maxSize)) as [_ Hnd].
  fold c in Hnd. unfold get, has, delete. fold key. unfold hasOwn.
  destruct (own (mc_cache c) key) as [e|] eqn:He.
  - split; [unfold live; rewrite He; by destruct (isExpired now e)|].
    split; [unfold live; rewrite He; by destruct (isExpired now e)|]. split; [done|].
    intros q. split; [|split; [|split; [by apply live_cleanup|split]]].
    + destruct (isExpired now e) eqn:Hx; [by eapply live_delete_expired|done].
    + destruct (isExpired now e) eqn:Hx; [by eapply live_delete_expired|done].
    + unfold live. simpl. destruct (String.eqb_spec q key) as [->|Hne];
        [by rewrite own_map_delete_eq|by rewrite own_map_delete].
    + apply live_clear.
  - split; [unfold live; by rewrite He|]. split; [unfold live; by rewrite He|]. split; [done|].
    intros q. split; [done|split; [done|split; [by apply live_cleanup|split; [|apply live_clear]]]].
    simpl. destruct (String.eqb_spec q key) as [->|Hne]; [|done]. unfold live. by rewrite He.
Qed.

(** Storing a value in a reachable cache makes it the key's entry until
    its time to live passes (a time to live of zero is none); every other key
    keeps its answer, unless it is evicted; only a full cache evicts, and no
    entry it evicts is newer than one it keeps. *)
Theorem set_stores_and_evicts_oldest maxSize ops now k v o t :
  let c := run_ops (new_cache maxSize) ops in
  let key := getFullKey k (co_namespace o) in
  let c' := set now k v o c in
  let e := new_entry now v o in
  live c' t key = (if isExpired t e then None else Some e) /\
  (forall q, q <> key -> live c' t q = if mem_string q (evicted c) then None else live c t q) /\
  (evicted c <> [] -> maxSize <= size_of (mc_cache c)) /\
  (forall q x r y, q ∈ evicted c -> own (mc_cache c) q = Some x ->
     r ∉ evicted c -> own (mc_cache c) r = Some y -> ce_createdAt x <= ce_createdAt y).
Proof.
  intros c key c' e. destruct (run_ops_ok maxSize ops _ (new_cache_ok maxSize)) as [Hmax Hnd].
  fold c in Hmax, Hnd. split; [|split; [|split]].
  - unfold live, c', set. simpl. rewrite own_put. fold key. by rewrite String.eqb_refl.
  - intros q Hq. unfold live, c', set. simpl. rewrite own_put. fold key.
    destruct (String.eqb_spec q key); [done|]. rewrite own_delete_all.
    by destruct (mem_string q (evicted c)).
  - unfold evicted. rewrite Hmax. destruct (Z.leb_spec maxSize (size_of (mc_cache c))); done.
  - intros q x r y Hq Hx Hr Hy. by apply (evicted_oldest c q x r y).
Qed.

(** A cache whose tenth is at least one entry never holds more than its
    maximum, whatever the operations. *)
Theorem cache_stays_bounded maxSize ops :
  (0 < evict_count maxSize)%nat -> 1 <= maxSize ->
  size_of (mc_cache (run_ops (new_cache (V := V) maxSize) ops)) <= maxSize.
Proof.
  intros Hn Hmax.
  assert (Hstep : forall c, cache_ok maxSize c -> bounded c -> bounded (run_ops c ops)).
  { induction ops as [|op ops' IH]; intros c Hc Hb; simpl; [done|].
    apply IH; [by apply run_op_ok|by apply (run_op_bounded maxSize)]. }
  pose proof (Hstep _ (new_cache_ok maxSize)) as H. unfold bounded in H.
  destruct (run_ops_ok maxSize ops _ (new_cache_ok maxSize)) as [Hm _]. rewrite Hm in H.
  apply H. unfold size_of. simpl. lia.
Qed.

(** The key of [n] times the letter [a]. *)
Fixpoint numbered (n : nat) : string :=
  match n with O => EmptyString | S n => String "a" (numbered n) end.

Lemma numbered_inj i j : numbered i = numbered j -> i = j.
Proof. revert j. induction i; intros [|j]; simpl; [done..|]. intros [= H]. f_equal. auto. Qed.

Definition fill (v : V) (n : nat) : list (Z * CacheOp V) :=
  map (fun i => (0, OpSet (numbered i) v (mkOptions None None None))) (seq 0 n).

(** A cache whose tenth rounds down to no entry evicts nothing: it grows
    past any size. *)
Theorem small_cache_grows maxSize (v : V) n :
  evict_count maxSize = O ->
  size_of (mc_cache (run_ops (new_cache maxSize) (fill v n))) = Z.of_nat n.
Proof.
  intros Hev.
  enough (H : let c := run_ops (new_cache maxSize) (fill v n) in
    mc_maxSize c = maxSize /\ obj_keys (mc_cache c) = map numbered (seq 0 n)).
  { destruct H as [_ H]. unfold size_of. by rewrite <- obj_keys_length, H, length_map, length_seq. }
  induction n as [|n IH]; [done|]. unfold fill, run_ops in *.
  rewrite seq_S, map_app, foldl_app. simpl. destruct IH as [Hm Hk].
  set (c := foldl _ _ _) in *. split; [done|].
  assert (Hnone : evicted c = []).
  { unfold evicted. rewrite Hm, Hev. simpl. by destruct (_ <=? _). }
  rewrite Hnone. simpl. rewrite obj_put_keys, Hk, map_app. unfold hasOwn.
  replace (own (mc_cache c) (numbered n)) with (@None (CacheEntry V)); [done|].
  symmetry. apply own_None. rewrite Hk, list_elem_of_fmap. intros (i & Hi%numbered_inj & Hin).
  apply elem_of_seq in Hin. lia.
Qed.
End Theory.

(** The maximum a cache has when none is configured evicts a thousand entries,
    the configured ones a hundred and ten, and a maximum of nine none. *)
Example evict_counts : map evict_count [DEFAULT_MAX_SIZE; 1000; 100; 10; 9] = [1000; 100; 10; 1; 0]%nat.
Proof. vm_compute. reflexivity. Qed.

Lemma operations_follow_live_entries_witness :
  let c := run_ops (new_cache 10) [(0, OpSet "k" 1%nat (mkOptions (Some 5) (Some "n") None))] in
  (get 4 "k" (Some "n") c).1 = live c 4 "n:k" /\ live (cleanup 4 c) 6 "n:k" = None.
Proof.
  destruct (operations_follow_live_entries 10
    [(0, OpSet "k" 1%nat (mkOptions (Some 5) (Some "n") None))] 4 6 "k" (Some "n"))
    as (H & _ & _ & Hq); [lia|]. split; [exact H|].
  destruct (Hq "n:k") as (_ & _ & -> & _). vm_compute. reflexivity.
Defined.

Lemma cache_stays_bounded_witness :
  size_of (mc_cache (run_ops (new_cache 10) (fill true 25))) <= 10.
Proof. apply cache_stays_bounded; [|lia]. vm_compute. lia. Defined.

Lemma small_cache_grows_witness :
  size_of (mc_cache (run_ops (new_cache 5) (fill true 20))) = 20.
Proof. apply (small_cache_grows 5 true 20). vm_compute. reflexivity. Defined.
