(* ===== verification/JsText.v ===== *)
(** * More of the language's strings and values

    [parseFloat], [===] against a JSON value, property access by a computed name
    (with the elements and the length of arrays and strings), [split('.')] and
    [endsWith], the media type of a header: what several components use of JavaScript beyond [JsValue].
    Nothing here models a file of the repository.  Properties that objects
    inherit (functions) are read as [undefined]. *)

From Stdlib Require Import ZArith Lia ZifyBool Ascii Floats.SpecFloat.
From stdpp Require Import base strings option sets list.
From S2P Require Import Prelude JsValue BudgetKeys.

#[local] Open Scope string_scope.
#[local] Open Scope list_scope.
#[local] Arguments num_of_Z : simpl never.

(** The exponent at the start of [s], 0 when there is none. *)
Definition exponent_prefix (s : string) : Z :=
  match s with
  | EmptyString => 0
  | String c r =>
      if (code c =? 101)%N || (code c =? 69)%N then
        let '(neg, t) := match r with
          | String d t => if (code d =? 45)%N then (true, t)
                          else if (code d =? 43)%N then (false, t) else (false, r)
          | EmptyString => (false, r) end in
        let ds := take_while is_digit t in
        if neg then (- digits_val ds 0)%Z else digits_val ds 0
      else 0
  end.

(** The longest decimal literal at the start of [s]. *)
Definition decimal_prefix (neg : bool) (s : string) : num :=
  if startsWith s "Infinity" then S754_infinity neg else
  let ip := take_while is_digit s in
  let r1 := drop_while is_digit s in
  let '(fp, r2) := match r1 with
    | String c t => if (code c =? 46)%N then (take_while is_digit t, drop_while is_digit t)
                    else ("", r1)
    | EmptyString => ("", r1) end in
  let digits := (ip ++ fp)%string in
  if negb (truthy_string digits) then NaN
  else scale10 neg (digits_val digits 0) (exponent_prefix r2 - Z.of_nat (String.length fp))
         (Z.of_nat (String.length digits)).

Definition parse_float (s : string) : num :=
  match drop_while is_space s with
  | String c r =>
      if (code c =? 43)%N then decimal_prefix false r
      else if (code c =? 45)%N then decimal_prefix true r
      else decimal_prefix false (String c r)
  | EmptyString => NaN
  end.

(** [parseFloat(v)]: the text of an array starts with its first element's. *)
Fixpoint parseFloat_json (v : json) : num :=
  match v with
  | JNum n => n
  | JStr s => parse_float s
  | JArr (x :: _) => parseFloat_json x
  | _ => NaN
  end.

Definition parseFloat (v : any) : num :=
  match v with Some j => parseFloat_json j | None => NaN end.

(** [a === b] for a JSON value [b] of the config. *)
Definition strict_eq (a : any) (b : json) : bool :=
  match a, b with
  | Some JNull, JNull => true
  | Some (JBool x), JBool y => Bool.eqb x y
  | Some (JNum x), JNum y => neqb x y
  | Some (JStr x), JStr y => (x =? y)%string
  | _, _ => false
  end.

Definition index_name (i : nat) : string := String_of (Z.of_nat i).

(** [v?.[k]], with the elements and the length of arrays and strings. *)
Definition property (v : any) (k : string) : any :=
  match v with
  | Some (JObj o) => own o k
  | Some (JArr l) =>
      if (k =? "length")%string then Some (JNum (num_of_Z (Z.of_nat (length l))))
      else snd <$> List.find (fun p => (index_name p.1 =? k)%string) (zip (seq 0 (length l)) l)
  | Some (JStr s) =>
      if (k =? "length")%string then Some (JNum (num_of_Z (Z.of_nat (String.length s))))
      else (fun p => JStr (String p.2 EmptyString)) <$>
           List.find (fun p => (index_name p.1 =? k)%string)
             (zip (seq 0 (String.length s)) (String.list_ascii_of_string s))
  | _ => None
  end.

(** [s.split('.')] *)
Fixpoint split_dot (s : string) : list string :=
  match s with
  | EmptyString => [EmptyString]
  | String c r =>
      if Ascii.eqb c "."%char then EmptyString :: split_dot r
      else match split_dot r with
           | x :: xs => String c x :: xs
           | [] => [String c EmptyString]
           end
  end.

(** [s.endsWith('*')] with [s.slice(0, -1)]: the text before a final star. *)
Fixpoint before_star (s : string) : option string :=
  match s with
  | EmptyString => None
  | String c EmptyString => if Ascii.eqb c "*"%char then Some EmptyString else None
  | String c r => String c <$> before_star r
  end.

Lemma before_star_Some s p : before_star s = Some p <-> s = (p +:+ "*")%string.
Proof.
  revert p. induction s as [|c s IH]; intros p; cbn [before_star].
  { split; [done|]. by destruct p. }
  destruct s as [|d s].
  - split.
    + destruct (Ascii.eqb_spec c "*") as [->|]; [|done]. by intros [= <-].
    + destruct p as [|x p]; [by intros [= ->]|]. intros [= -> H]. by destruct p.
  - split.
    + destruct (before_star (String d s)) as [q|] eqn:Hq; [|done]. intros [= <-].
      destruct (IH q) as [H _]. by rewrite (H eq_refl).
    + destruct p as [|x p]; [done|]. intros [= -> H].
      destruct (IH p) as [_ H']. by rewrite (H' H).
Qed.

(** [JSON.stringify] of a string of code units below 256. *)
Definition hex_digit (n : N) : ascii := ascii_of_N (if (n <? 10)%N then 48 + n else 87 + n).

Definition json_char (c : ascii) : string :=
  let esc d := String "\"%char (String (ascii_of_N d) EmptyString) in
  let n := code c in
  if (n =? 34)%N then esc 34%N
  else if (n =? 92)%N then esc 92%N
  else if (n =? 8)%N then esc 98%N
  else if (n =? 9)%N then esc 116%N
  else if (n =? 10)%N then esc 110%N
  else if (n =? 12)%N then esc 102%N
  else if (n =? 13)%N then esc 114%N
  else if (n <? 32)%N
  then String "\"%char (String "u"%char (String "0"%char (String "0"%char
         (String (hex_digit (n / 16)) (String (hex_digit (n mod 16)) EmptyString)))))
  else String c EmptyString.

Fixpoint json_chars (s : string) : string :=
  match s with
  | EmptyString => EmptyString
  | String c r => (json_char c ++ json_chars r)%string
  end.

Definition dquote : string := String (ascii_of_N 34) EmptyString.

Definition json_quote (s : string) : string := (dquote ++ json_chars s ++ dquote)%string.

(** [(value ?? '').split(';')[0].trim().toLowerCase()]: the media type of a header. *)
Definition mime_of (value : option string) : string :=
  toLowerCase (trim (take_while (fun c => negb (code c =? 59)%N) (default "" value))).

Example parse_floats :
  map (fun v => parseFloat (Some v))
    [JStr " 12 seats"; JStr "-1.5e2x"; JStr ".5."; JArr [JStr "7"; JNull]; JStr "e1"]
  = [num_of_Z 12; num_of_Z (-150); num_of_Q 1 2; num_of_Z 7; NaN].
Proof. vm_compute. reflexivity. Qed.
