(* ===== verification/CacheKey.v ===== *)
(** * Cache keys and the caller's scope

    Models [middlewares/cache/hash.ts], [isSensitiveKey] of [utils/redact.ts]
    and the key part of [middlewares/cache/index.ts]: which provider options
    and headers identify a caller, the canonical JSON text of them, its digest
    (the scope), and the key of a request body under a scope.

    SHA-256 is Web Crypto's: [SHA_256] gives the bytes of a digest, [sha256Hex]
    prints them as the code does.  The text of a number is a parameter; text is
    code units below 256.  What the theorems show: two keys are equal only if
    the texts hashed are, and the text of a scope determines every identity
    field, so equal keys mean equal credentials ([same_key_same_caller]). *)

From Stdlib Require Import ZArith Lia ZifyBool Ascii Floats.SpecFloat.
From stdpp Require Import base strings option sets list.
From S2P Require Import Prelude JsValue Sorting JsText.

#[local] Open Scope string_scope.
#[local] Open Scope list_scope.

(** ** [utils/redact.ts]: credential-like names *)

(** [l[-_]?r] anywhere in [s]. *)
Definition includes_joined (s l r : string) : bool :=
  includes s (l +:+ r) || includes s (l +:+ "-" +:+ r) || includes s (l +:+ "_" +:+ r).

Definition SENSITIVE_KEY (s : string) : bool :=
  includes s "authorization" || includes_joined s "api" "key" || includes s "secret" ||
  includes s "token" || includes s "password" || includes s "passwd" ||
  includes s "credential" || includes s "signature" || includes s "cookie" ||
  includes_joined s "session" "id" || includes_joined s "private" "key" ||
  includes_joined s "access" "key".

Definition isSensitiveKey (key : string) : bool := SENSITIVE_KEY (toLowerCase key).

(** ** Identity fields *)

Definition IDENTITY_KEY (s : string) : bool :=
  includes_joined s "virtual" "key" || includes s "auth" || includes s "passphrase" ||
  includes s "fingerprint" || includes s "tenan" || includes s "organisation" ||
  includes s "organization" || includes s "project" || includes s "account" ||
  includes_joined s "role" "arn" || includes_joined s "external" "id" ||
  includes_joined s "client" "id" || includes s "workspace" || includes_joined s "oracle" "user".

Definition isIdentityKey (key : string) : bool :=
  isSensitiveKey key || IDENTITY_KEY (toLowerCase key).

Definition GATEWAY_DERIVED_AWS_KEYS : list string :=
  ["awsAccessKeyId"; "awsSecretAccessKey"; "awsSessionToken"].

Definition VOLATILE_FORWARDED_HEADERS : list string :=
  ["accept-encoding"; "baggage"; "cdn-loop"; "connection"; "content-length"; "date"; "host";
   "sentry-trace"; "traceparent"; "tracestate"; "x-amzn-trace-id"; "x-correlation-id";
   "x-forwarded-for"; "x-forwarded-host"; "x-forwarded-port"; "x-forwarded-proto";
   "x-real-ip"; "x-request-id"].

(** [v !== undefined && v !== null && v !== '']: a property that is there. *)
Definition given (v : json) : bool :=
  match v with JNull => false | JStr s => truthy_string s | _ => true end.

(** [a > b] on strings. *)
Definition string_gt (a b : string) : bool := negb (String.leb a b).

Record CacheScopeInput := mkScopeInput {
  si_provider : option string;
  si_providerOption : option (obj json);
  si_requestHeaders : option (obj string);
  si_endpoint : option string;
  si_requestURL : option string;
  si_forwardHeaders : option (list string)
}.

(** A request body: a JSON value, or a form, a stream or bytes. *)
Inductive request_body :=
| JsonBody (v : json)
| OtherBody.

Definition isCacheableBody (body : option request_body) : bool :=
  match body with
  | Some (JsonBody (JArr _)) | Some (JsonBody (JObj _)) => true
  | _ => false
  end.

Section CacheKey.
(** [JSON.stringify] of a finite number, and the digest of a text's UTF-8. *)
Variable number_text : num -> string.
Variable SHA_256 : string -> list ascii.

(** ** [hash.ts] *)

Definition hex_byte (b : ascii) : string :=
  String (hex_digit (code b / 16)) (String (hex_digit (code b mod 16)) "").

Fixpoint hex_text (l : list ascii) : string :=
  match l with [] => "" | b :: r => hex_byte b +:+ hex_text r end.

Definition sha256Hex (value : string) : string := hex_text (SHA_256 value).

Definition json_number (n : num) : string := if is_finite_num n then number_text n else "null".

Definition member_text (p : string * string) : string := json_quote p.1 +:+ ":" +:+ p.2.

Fixpoint canonicalJSON (value : json) : string :=
  match value with
  | JNull => "null"
  | JBool b => if b then "true" else "false"
  | JNum n => json_number n
  | JStr s => json_quote s
  | JArr l => "[" +:+ String.concat "," (map canonicalJSON l) +:+ "]"
  | JObj o =>
      "{" +:+ String.concat ","
                (map member_text
                   (stable_sort (fun p q => string_gt p.1 q.1)
                      (map (fun p => (p.1, canonicalJSON p.2)) o))) +:+ "}"
  end.

(** [JSON.stringify(v)] *)
Fixpoint JSON_stringify (value : json) : string :=
  match value with
  | JNull => "null"
  | JBool b => if b then "true" else "false"
  | JNum n => json_number n
  | JStr s => json_quote s
  | JArr l => "[" +:+ String.concat "," (map JSON_stringify l) +:+ "]"
  | JObj o =>
      "{" +:+ String.concat "," (map member_text (map (fun p => (p.1, JSON_stringify p.2)) o)) +:+ "}"
  end.

(** ** [index.ts] *)

Definition key_gt (p q : string * string) : bool := string_gt p.1 q.1.

Definition pickIdentity (record : option (obj json)) (skip : list string) : list (string * string) :=
  stable_sort key_gt
    (map (fun p => (toLowerCase p.1, canonicalJSON p.2))
       (List.filter (fun p => isIdentityKey p.1 && negb (mem_string p.1 skip) && given p.2)
          (default [] record))).

Definition forwarded_name (endpoint : option string) (forwarded : list string) (k : string) : bool :=
  (mem_string k forwarded ||
   match endpoint with
   | Some e => (e =? "proxy")%string && negb (startsWith k "x-portkey-")
   | None => false
   end) &&
  negb (mem_string k VOLATILE_FORWARDED_HEADERS) && negb (startsWith k "cf-").

Definition entry_gt (p q : string * string) : bool :=
  string_gt p.1 q.1 || ((p.1 =? q.1)%string && string_gt p.2 q.2).

Definition pickForwarded (requestHeaders : option (obj string)) (endpoint : option string)
    (forwardHeaders : option (list string)) : list (string * string) :=
  let forwarded := map (fun h => toLowerCase (trim h)) (default [] forwardHeaders) in
  stable_sort entry_gt
    (List.filter (fun p => forwarded_name endpoint forwarded p.1)
       (map (fun p => (toLowerCase p.1, p.2)) (default [] requestHeaders))).

(** [providerOption?.provider], and whether AWS credentials are the gateway's own. *)
Definition option_of (o : option (obj json)) (k : string) : any :=
  match o with Some r => own r k | None => None end.

Definition ambientAws (o : option (obj json)) : bool :=
  match as_string (option_of o "awsAuthType") with
  | Some t => mem_string t ["assumedRole"; "serviceRole"]
  | None => false
  end.

Definition scope_provider (i : CacheScopeInput) : json :=
  if truthy_opt (si_provider i) then JStr (default "" (si_provider i))
  else match option_of (si_providerOption i) "provider" with
       | Some v => if truthy (Some v) then v else JStr ""
       | None => JStr ""
       end.

Definition scope_options (i : CacheScopeInput) : list (string * string) :=
  pickIdentity (si_providerOption i)
    (if ambientAws (si_providerOption i) then GATEWAY_DERIVED_AWS_KEYS else []).

Definition scope_headers (i : CacheScopeInput) : list (string * string) :=
  pickIdentity (obj_map JStr <$> si_requestHeaders i) [].

Definition scope_forwarded (i : CacheScopeInput) : list (string * string) :=
  pickForwarded (si_requestHeaders i) (si_endpoint i) (si_forwardHeaders i).

Definition pair_json (p : string * string) : json := JArr [JStr p.1; JStr p.2].

(** The object whose text is hashed. *)
Definition scope_object (i : CacheScopeInput) : json :=
  JObj [("v", JNum (num_of_Z 1));
        ("provider", scope_provider i);
        ("options", JArr (map pair_json (scope_options i)));
        ("headers", JArr (map pair_json (scope_headers i)));
        ("forwarded", JArr (map pair_json (scope_forwarded i)));
        ("upstream", JStr (default "" (si_requestURL i)))].

Definition computeCacheScope (i : CacheScopeInput) : string :=
  sha256Hex (canonicalJSON (scope_object i)).

Definition key_text (requestBody : json) (url scope : string) : string :=
  JSON_stringify requestBody +:+ "-" +:+ url +:+ "-" +:+ scope.

Definition getCacheKey (requestBody : json) (url scope : string) : string :=
  sha256Hex (key_text requestBody url scope).
End CacheKey.

(** ** Texts that end where they end *)

(** The text of a value is never the start of the text of another one, so what
    follows it can be told apart. *)
Class Delimited {A} (f : A -> string) : Prop :=
  delimited x y r r' : f x +:+ r = f y +:+ r' -> x = y /\ r = r'.

#[local] Arguments String.append : simpl nomatch.

Lemma delimited_inj {A} (f : A -> string) `{!Delimited f} x y : f x = f y -> x = y.
Proof. intros H. by apply (delimited x y "" ""); rewrite !sapp_nil_r. Qed.

(** Reads the first unit of the inside of a JSON string. *)
Definition hex_value (c : ascii) : N := if (code c <? 58)%N then code c - 48 else code c - 87.

Definition unescape (e : ascii) : ascii :=
  let n := code e in
  ascii_of_N (if (n =? 98)%N then 8 else if (n =? 116)%N then 9 else if (n =? 110)%N then 10
              else if (n =? 102)%N then 12 else if (n =? 114)%N then 13 else n)%N.

Definition read_unit (s : string) : option (ascii * string) :=
  match s with
  | EmptyString => None
  | String a t =>
      if (code a =? 34)%N then None
      else if (code a =? 92)%N then
        match t with
        | String e r =>
            if (code e =? 117)%N then
              match r with
              | String _ (String _ (String h (String l r'))) =>
                  Some (ascii_of_N (16 * hex_value h + hex_value l), r')
              | _ => None
              end
            else Some (unescape e, r)
        | EmptyString => None
        end
      else Some (a, t)
  end.

Lemma read_json_char c r : read_unit (json_char c +:+ r) = Some (c, r).
Proof. destruct c as [[] [] [] [] [] [] [] []]; reflexivity. Qed.

Lemma json_chars_delimited s s' r r' :
  json_chars s +:+ (dquote +:+ r) = json_chars s' +:+ (dquote +:+ r') -> s = s' /\ r = r'.
Proof.
  revert s'. induction s as [|c s IH]; intros [|c' s']; simpl; intros H.
  - by injection H as [= ->].
  - apply (f_equal read_unit) in H. by rewrite sapp_assoc, read_json_char in H.
  - apply (f_equal read_unit) in H. by rewrite sapp_assoc, read_json_char in H.
  - apply (f_equal read_unit) in H. rewrite !sapp_assoc, !read_json_char in H.
    injection H as [= -> H]. by apply IH in H as [-> ->].
Qed.

#[export] Instance json_quote_delimited : Delimited json_quote.
Proof.
  intros s s' r r'. unfold json_quote. rewrite !sapp_assoc. intros H%sapp_inv_head.
  by apply json_chars_delimited.
Qed.

(** A text in brackets, and the comma-separated items inside. *)
Definition bracketed (l : list string) : string := "[" +:+ String.concat "," l +:+ "]".

Definition opens (c : ascii) (s : string) : Prop := exists r, s = String c r.

Section Items.
Context {A : Type} (f : A -> string) `{!Delimited f} (first : ascii).
Hypothesis f_opens : forall x, opens first (f x).
Hypothesis first_ok : first <> "]"%char.

Lemma concat_cons x l : String.concat "," (f x :: map f l) =
  f x +:+ match l with [] => "" | _ => "," +:+ String.concat "," (map f l) end.
Proof. destruct l; simpl; [by rewrite sapp_nil_r|done]. Qed.

Lemma items_delimited l l' r r' :
  String.concat "," (map f l) +:+ ("]" +:+ r) = String.concat "," (map f l') +:+ ("]" +:+ r') ->
  l = l' /\ r = r'.
Proof.
  revert l'. induction l as [|x l IH]; intros [|y l']; cbn [map].
  - by intros [= ->].
  - rewrite concat_cons, sapp_assoc. destruct (f_opens y) as [t ->]. intros [= H _]. by symmetry in H.
  - rewrite concat_cons, sapp_assoc. destruct (f_opens x) as [t ->]. intros [= H _]. done.
  - rewrite !concat_cons, !sapp_assoc. intros [-> H]%delimited.
    destruct l as [|x2 l]; destruct l' as [|y2 l']; try done.
    + by injection H as [= ->].
    + injection H as [= H]. by apply (IH (y2 :: l')) in H as [-> ->].
Qed.

Lemma bracketed_delimited : Delimited (fun l => bracketed (map f l)).
Proof.
  intros l l' r r'. unfold bracketed. rewrite !sapp_assoc. intros H%sapp_inv_head.
  by apply items_delimited.
Qed.
End Items.

(** Digests: two hexadecimal digits a byte. *)
#[export] Instance hex_byte_delimited : Delimited hex_byte.
Proof.
  assert (Hrt : forall c, ascii_of_N (16 * hex_value (hex_digit (code c / 16)) +
    hex_value (hex_digit (code c mod 16))) = c)
    by (intros c; destruct c as [[] [] [] [] [] [] [] []]; reflexivity).
  intros b b' r r' H. injection H as [= H1 H2 ->]. split; [|done].
  by rewrite <- (Hrt b), <- (Hrt b'), H1, H2.
Qed.

Lemma hex_text_inj l l' : hex_text l = hex_text l' -> l = l'.
Proof.
  revert l'. induction l as [|b l IH]; intros [|b' l']; try done.
  cbn [hex_text]. intros [-> ->%IH]%delimited. done.
Qed.

(** The last character of a class splits a text in one way. *)
Lemma split_last (P : ascii -> bool) a a' c c' b b' :
  a +:+ String c b = a' +:+ String c' b' -> P c = true -> P c' = true ->
  sforallb (fun x => negb (P x)) b = true -> sforallb (fun x => negb (P x)) b' = true ->
  a = a' /\ c = c' /\ b = b'.
Proof.
  assert (Hno : forall d t s, P d = true -> sforallb (fun x => negb (P x)) (t +:+ String d s) = false).
  { intros d t s Hd. induction t as [|x t IH]; simpl; [by rewrite Hd|].
    destruct (P x); [done|]. exact IH. }
  intros H Hc Hc' Hb Hb'. revert a' H. induction a as [|x a IH]; intros [|y a']; simpl.
  - by intros [= -> ->].
  - intros [= -> ->]. by rewrite Hno in Hb.
  - intros [= -> <-]. by rewrite Hno in Hb'.
  - intros [= -> (-> & -> & ->)%IH]. done.
Qed.

(** ** Where a JSON text ends

    [cut] reads a text up to the first comma or closing bracket outside its
    strings and brackets.  The text of a value is read to its end, so a value
    can be told from what follows a separator. *)

Inductive Mode := Outside | Inside | Escaped.

Definition is_open (c : ascii) : bool := Ascii.eqb c "[" || Ascii.eqb c "{".
Definition is_close (c : ascii) : bool := Ascii.eqb c "]" || Ascii.eqb c "}".
Definition is_dash (c : ascii) : bool := Ascii.eqb c "-".
Definition is_quote (c : ascii) : bool := (code c =? 34)%N.

Fixpoint cut (depth : nat) (m : Mode) (s : string) : string * string :=
  match s with
  | EmptyString => (EmptyString, EmptyString)
  | String c r =>
      let keep d m' := let '(p, q) := cut d m' r in (String c p, q) in
      match m with
      | Escaped => keep depth Inside
      | Inside => keep depth (if is_quote c then Outside else if Ascii.eqb c "\" then Escaped else Inside)
      | Outside =>
          if is_quote c then keep depth Inside
          else if is_open c then keep (S depth) Outside
          else match depth with
               | O => if is_close c || Ascii.eqb c "," then (EmptyString, s) else keep O Outside
               | S d => keep (if is_close c then d else depth) Outside
               end
      end
  end.

Definition before (t : string) (pq : string * string) : string * string := (t +:+ pq.1, pq.2).

(** [t] is read as a whole, from one depth to another. *)
Definition passes (d : nat) (m : Mode) (d' : nat) (m' : Mode) (t : string) : Prop :=
  forall r, cut d m (t +:+ r) = before t (cut d' m' r).

Lemma passes_app d m d1 m1 d2 m2 t u :
  passes d m d1 m1 t -> passes d1 m1 d2 m2 u -> passes d m d2 m2 (t +:+ u).
Proof.
  intros Ht Hu r. rewrite sapp_assoc, Ht, Hu. unfold before. simpl. by rewrite sapp_assoc.
Qed.

Lemma passes_nil d m : passes d m d m "".
Proof. intros r. unfold before. simpl. by destruct (cut d m r). Qed.

Ltac pass_char := intros r; unfold before; simpl; match goal with |- context [cut ?d ?m r] => destruct (cut d m r) end; reflexivity.

Lemma passes_unit d c : passes d Inside d Inside (json_char c).
Proof. destruct c as [[] [] [] [] [] [] [] []]; pass_char. Qed.

Lemma passes_quote d s : passes d Outside d Outside (json_quote s).
Proof.
  unfold json_quote. apply (passes_app _ _ d Inside); [pass_char|].
  apply (passes_app _ _ d Inside); [|pass_char].
  induction s as [|c s IH]; [apply passes_nil|]. cbn [json_chars].
  by apply (passes_app _ _ d Inside); [apply passes_unit|].
Qed.

(** Neither quotes nor brackets nor commas: numbers, [true], [null]. *)
Definition plain_char (c : ascii) : bool :=
  negb (is_quote c || is_open c || is_close c || Ascii.eqb c ",").

Lemma passes_plain d t : sforallb plain_char t = true -> passes d Outside d Outside t.
Proof.
  induction t as [|c t IH]; intros H; [apply passes_nil|].
  cbn [sforallb] in H. apply andb_prop in H as [Hc Ht].
  apply (passes_app d Outside d Outside d Outside (String c "") t); [|by apply IH].
  unfold plain_char in Hc. apply negb_true_iff in Hc. repeat rewrite orb_false_iff in Hc.
  destruct Hc as [[[H1 H2] H3] H4]. intros r. unfold before. simpl. rewrite H1, H2.
  destruct d; rewrite ?H3, ?H4; simpl; by destruct (cut _ _ r).
Qed.

Lemma passes_open d c : is_open c = true -> passes d Outside (S d) Outside (String c "").
Proof.
  intros H. assert (Hc : c = "["%char \/ c = "{"%char).
  { unfold is_open in H. apply orb_prop in H as [?%Ascii.eqb_eq|?%Ascii.eqb_eq]; auto. }
  destruct Hc as [-> | ->]; pass_char.
Qed.

Lemma passes_close d c : is_close c = true -> passes (S d) Outside d Outside (String c "").
Proof.
  intros H. assert (Hc : c = "]"%char \/ c = "}"%char).
  { unfold is_close in H. apply orb_prop in H as [?%Ascii.eqb_eq|?%Ascii.eqb_eq]; auto. }
  destruct Hc as [-> | ->]; pass_char.
Qed.

Lemma passes_items d l : Forall (passes (S d) Outside (S d) Outside) l ->
  passes (S d) Outside (S d) Outside (String.concat "," l).
Proof.
  induction 1 as [|t l Ht Hl IH]; [apply passes_nil|]. destruct l as [|u l]; [done|].
  change (String.concat "," (t :: u :: l)) with (t +:+ ("," +:+ String.concat "," (u :: l))).
  apply (passes_app _ _ (S d) Outside); [done|].
  apply (passes_app _ _ (S d) Outside); [pass_char|done].
Qed.

Lemma passes_enclosed d a b l : is_open a = true -> is_close b = true ->
  (forall d', Forall (passes d' Outside d' Outside) l) ->
  passes d Outside d Outside (String a "" +:+ String.concat "," l +:+ String b "").
Proof.
  intros Ha Hb Hl. apply (passes_app _ _ (S d) Outside); [by apply passes_open|].
  apply (passes_app _ _ (S d) Outside); [by apply passes_items|by apply passes_close].
Qed.

Lemma passes_member d k t : passes d Outside d Outside t ->
  passes d Outside d Outside (member_text (k, t)).
Proof.
  intros Ht. unfold member_text. apply (passes_app _ _ d Outside); [apply passes_quote|].
  apply (passes_app _ _ d Outside); [by apply passes_plain|done].
Qed.

Section Cut.
Variable number_text : num -> string.
Hypothesis number_plain : forall n, sforallb plain_char (number_text n) = true.

Lemma passes_canonical v d : passes d Outside d Outside (canonicalJSON number_text v).
Proof.
  revert d. induction v as [|b|n|s|l IH|o IH] using json_rect'; intros d; cbn [canonicalJSON].
  - by apply passes_plain.
  - by destruct b; apply passes_plain.
  - unfold json_number. case_match; by apply passes_plain.
  - apply passes_quote.
  - apply passes_enclosed; [done..|]. intros d'. apply Forall_forall. intros t Ht.
    apply list_elem_of_fmap in Ht as (x & -> & Hx). rewrite Forall_forall in IH. by apply IH.
  - apply passes_enclosed; [done..|]. intros d'. apply Forall_forall. intros t Ht.
    apply list_elem_of_fmap in Ht as ([k u] & -> & Hx). apply passes_member.
    apply elem_of_stable_sort, list_elem_of_fmap in Hx as ([k' x] & [= -> ->] & Hx).
    rewrite Forall_forall in IH. apply (IH (k', x)). done.
Qed.

Definition separator (c : ascii) : bool := is_close c || Ascii.eqb c ",".

Lemma cut_separator c r : separator c = true -> cut 0 Outside (String c r) = ("", String c r).
Proof.
  unfold separator. intros H. simpl. rewrite H.
  assert (Hc : c = "]"%char \/ c = "}"%char \/ c = ","%char).
  { unfold is_close in H. repeat (apply orb_prop in H as [H|H]); apply Ascii.eqb_eq in H; auto. }
  by destruct Hc as [-> | [-> | ->]].
Qed.

(** A value's text before a separator. *)
Lemma value_before_separator v v' c c' r r' : separator c = true -> separator c' = true ->
  canonicalJSON number_text v +:+ String c r = canonicalJSON number_text v' +:+ String c' r' ->
  canonicalJSON number_text v = canonicalJSON number_text v' /\ String c r = String c' r'.
Proof.
  intros Hc Hc' H. apply (f_equal (cut 0 Outside)) in H.
  rewrite !passes_canonical, !cut_separator in H by done. unfold before in H. simpl in H.
  rewrite !sapp_nil_r in H. by injection H as [= -> -> ->].
Qed.

Lemma value_before_comma v v' r r' :
  canonicalJSON number_text v +:+ ("," +:+ r) = canonicalJSON number_text v' +:+ ("," +:+ r') ->
  canonicalJSON number_text v = canonicalJSON number_text v' /\ r = r'.
Proof. intros H. by apply (value_before_separator _ _ "," "," r r') in H as [-> [= ->]]. Qed.
End Cut.

(** ** What equal texts say *)

Section Keys.
Variable number_text : num -> string.
Variable SHA_256 : string -> list ascii.
Hypothesis number_plain : forall n, sforallb plain_char (number_text n) = true.

#[local] Abbreviation canonical := (canonicalJSON number_text).
#[local] Abbreviation scope_of := (computeCacheScope number_text SHA_256).
#[local] Abbreviation key_of := (getCacheKey number_text SHA_256).
#[local] Abbreviation scope_text i := (canonical (scope_object number_text i)).

(** No collision of the digest among two texts. *)
Definition collision_free (x y : string) : Prop := SHA_256 x = SHA_256 y -> x = y.

Lemma sha256Hex_inj x y : collision_free x y -> sha256Hex SHA_256 x = sha256Hex SHA_256 y -> x = y.
Proof. intros Hc H%hex_text_inj. by apply Hc. Qed.

Lemma hex_has_no_dash l : sforallb (fun c => negb (is_dash c)) (hex_text l) = true.
Proof.
  induction l as [|b l IH]; [done|]. cbn [hex_text].
  replace (hex_byte b +:+ hex_text l) with
    (String (hex_digit (code b / 16)) (String (hex_digit (code b mod 16)) (hex_text l))) by done.
  cbn [sforallb]. rewrite IH. destruct b as [[] [] [] [] [] [] [] []]; reflexivity.
Qed.

Lemma cacheable_text_closes v : isCacheableBody (Some (JsonBody v)) = true ->
  exists j c, JSON_stringify number_text v = j +:+ String c "" /\ is_close c = true.
Proof.
  destruct v as [| | | |l|o]; try done; intros _; cbn [JSON_stringify].
  - eexists ("[" +:+ _), "]"%char. split; [by rewrite sapp_assoc|done].
  - eexists ("{" +:+ _), "}"%char. split; [by rewrite sapp_assoc|done].
Qed.

Lemma key_text_inv v v' u u' s s' :
  isCacheableBody (Some (JsonBody v)) = true -> isCacheableBody (Some (JsonBody v')) = true ->
  sforallb (fun c => negb (is_close c)) u = true -> sforallb (fun c => negb (is_close c)) u' = true ->
  sforallb (fun c => negb (is_dash c)) s = true -> sforallb (fun c => negb (is_dash c)) s' = true ->
  key_text number_text v u s = key_text number_text v' u' s' ->
  JSON_stringify number_text v = JSON_stringify number_text v' /\ u = u' /\ s = s'.
Proof.
  intros Hv Hv' Hu Hu' Hs Hs'. unfold key_text.
  destruct (cacheable_text_closes _ Hv) as (j & c & -> & Hc).
  destruct (cacheable_text_closes _ Hv') as (j' & c' & -> & Hc').
  assert (Hd : forall a b t : string, a +:+ ("-" +:+ (b +:+ ("-" +:+ t))) = (a +:+ ("-" +:+ b)) +:+ String "-" t)
    by (intros; by rewrite !sapp_assoc).
  rewrite !Hd. intros H. apply (split_last is_dash) in H as (H & _ & <-); try done.
  rewrite !sapp_assoc in H.
  apply (split_last is_close) in H as (<- & <- & H); [|done|done|by simpl; rewrite Hu|by simpl; rewrite Hu'].
  by injection H as [= <-].
Qed.

Lemma pair_text_shape p :
  canonical (pair_json p) = "[" +:+ (json_quote p.1 +:+ ("," +:+ (json_quote p.2 +:+ "]"))).
Proof. cbn [pair_json canonicalJSON map String.concat]. by rewrite !sapp_assoc. Qed.

#[local] Instance pair_text_delimited : Delimited (fun p => canonical (pair_json p)).
Proof.
  intros [a b] [a' b'] r r'. rewrite !pair_text_shape, !sapp_assoc. cbn [fst snd].
  intros H%sapp_inv_head. apply delimited in H as [-> H]. apply sapp_inv_head in H.
  apply delimited in H as [-> H]. by apply sapp_inv_head in H as ->.
Qed.

#[local] Instance pairs_text_delimited : Delimited (fun l => canonical (JArr (map pair_json l))).
Proof.
  intros l l' r r'. cbn [canonicalJSON]. rewrite !map_map.
  apply (bracketed_delimited (fun p => canonical (pair_json p)) "["%char); [|done].
  intros p. rewrite pair_text_shape. by eexists.
Qed.

Lemma scope_members a b c d e f :
  stable_sort (fun p q : string * string => string_gt p.1 q.1)
    [("v", a); ("provider", b); ("options", c); ("headers", d); ("forwarded", e); ("upstream", f)] =
  [("forwarded", e); ("headers", d); ("options", c); ("provider", b); ("upstream", f); ("v", a)].
Proof. reflexivity. Qed.

(** The text of a scope determines what was put into it. *)
Lemma scope_text_inv i i' : scope_text i = scope_text i' ->
  scope_forwarded i = scope_forwarded i' /\ scope_headers number_text i = scope_headers number_text i' /\
  scope_options number_text i = scope_options number_text i' /\
  canonical (scope_provider i) = canonical (scope_provider i') /\
  default "" (si_requestURL i) = default "" (si_requestURL i').
Proof.
  unfold scope_object. cbn [canonicalJSON]. cbn [map fst snd]. rewrite !scope_members.
  cbn [map String.concat]. unfold member_text. cbn [fst snd]. rewrite !sapp_assoc.
  intros H. do 3 apply sapp_inv_head in H.
  apply (delimited (f := fun l => canonical (JArr (map pair_json l)))) in H as [<- H].
  do 3 apply sapp_inv_head in H.
  apply (delimited (f := fun l => canonical (JArr (map pair_json l)))) in H as [<- H].
  do 3 apply sapp_inv_head in H.
  apply (delimited (f := fun l => canonical (JArr (map pair_json l)))) in H as [<- H].
  do 3 apply sapp_inv_head in H. apply value_before_comma in H as [-> H]; [|done].
  do 2 apply sapp_inv_head in H. cbn [canonicalJSON] in H.
  by apply delimited in H as [<- _].
Qed.

Lemma pickIdentity_elem o skip k t : (k, t) ∈ pickIdentity number_text o skip <->
  exists k0 v, (k0, v) ∈ default [] o /\ isIdentityKey k0 = true /\ k0 ∉ skip /\ given v = true /\
    k = toLowerCase k0 /\ t = canonical v.
Proof.
  unfold pickIdentity. rewrite elem_of_stable_sort, list_elem_of_fmap. split.
  - intros ([k0 v] & [= -> ->] & H). apply filter_elem in H as [Hin Hk]. cbn [fst snd] in *.
    split_bool. exists k0, v. by rewrite <- mem_string_false.
  - intros (k0 & v & Hin & Hid & Hs & Hg & -> & ->). exists (k0, v). split; [done|].
    apply filter_elem. split; [done|]. cbn [fst snd]. apply mem_string_false in Hs. by rewrite Hid, Hs, Hg.
Qed.

(** A credential header of one caller is a header of the other, with its value. *)
Definition carries (h h' : obj string) : Prop :=
  forall k v, (k, v) ∈ h -> isIdentityKey k = true -> v <> "" ->
    exists k', (k', v) ∈ h' /\ toLowerCase k' = toLowerCase k.

Lemma scope_headers_carries i i' :
  scope_headers number_text i = scope_headers number_text i' ->
  carries (default [] (si_requestHeaders i)) (default [] (si_requestHeaders i')).
Proof.
  intros H k v Hin Hid Hv.
  assert (Hel : (toLowerCase k, json_quote v) ∈ scope_headers number_text i).
  { apply pickIdentity_elem. exists k, (JStr v). split_and!; [|done|apply not_elem_of_nil| |done..].
    - destruct (si_requestHeaders i) as [h|]; [|by apply elem_of_nil in Hin]. cbn. unfold obj_map.
      apply list_elem_of_fmap. by exists (k, v).
    - by apply negb_true_iff, String.eqb_neq. }
  rewrite H in Hel. apply pickIdentity_elem in Hel as (k' & w & Hin' & _ & _ & _ & Hk & Ht).
  exists k'. split; [|done].
  destruct (si_requestHeaders i') as [h|]; [|by apply elem_of_nil in Hin']. cbn in *.
  apply list_elem_of_fmap in Hin' as ([k2 v2] & [= -> ->] & Hin2). cbn [canonicalJSON snd] in Ht.
  by apply (delimited_inj json_quote) in Ht as ->.
Qed.

(** Who the cache thinks is calling. *)
Record same_caller (i i' : CacheScopeInput) : Prop := mkSameCaller {
  sc_headers : carries (default [] (si_requestHeaders i)) (default [] (si_requestHeaders i'));
  sc_options : scope_options number_text i = scope_options number_text i';
  sc_forwarded : scope_forwarded i = scope_forwarded i';
  sc_provider : canonical (scope_provider i) = canonical (scope_provider i');
  sc_upstream : default "" (si_requestURL i) = default "" (si_requestURL i')
}.

Lemma same_key_same_caller v v' u u' i i' :
  isCacheableBody (Some (JsonBody v)) = true -> isCacheableBody (Some (JsonBody v')) = true ->
  sforallb (fun c => negb (is_close c)) u = true -> sforallb (fun c => negb (is_close c)) u' = true ->
  collision_free (key_text number_text v u (scope_of i)) (key_text number_text v' u' (scope_of i')) ->
  collision_free (scope_text i) (scope_text i') ->
  key_of v u (scope_of i) = key_of v' u' (scope_of i') ->
  JSON_stringify number_text v = JSON_stringify number_text v' /\ u = u' /\ same_caller i i'.
Proof.
  intros Hv Hv' Hu Hu' Hck Hcs Hk. apply sha256Hex_inj in Hk; [|done].
  apply key_text_inv in Hk as (Hj & <- & Hs); try done; try apply hex_has_no_dash.
  apply sha256Hex_inj in Hs; [|done]. apply scope_text_inv in Hs as (Hf & Hh & Ho & Hp & Hu2).
  split_and!; [done..|]. constructor; [by apply scope_headers_carries|done..].
Qed.
End Keys.

(** Two tenants with the same body: the scopes name their keys. *)
Definition tenant (key : string) : CacheScopeInput :=
  mkScopeInput (Some "openai") (Some [("provider", JStr "openai"); ("apiKey", JStr key)])
    (Some [("authorization", "Bearer " +:+ key); ("x-portkey-trace-id", "t1")])
    (Some "chatComplete") (Some "https://api.openai.com/v1/chat/completions") None.

Example scope_texts :
  let text k := canonicalJSON (fun _ => "1") (scope_object (fun _ => "1") (tenant k)) in
  (includes (text "sk-a") "sk-a", text "sk-a" =? text "sk-b", includes (text "sk-a") "t1")%string =
  (true, false, false).
Proof. vm_compute. reflexivity. Qed.
