(* ===== verification/ConditionalRouter.v ===== *)
(** * The conditional target router

    Models [src/gateway/src/services/conditionalRouter.ts]: a config's
    conditions are queries over the request's metadata, parameters and path,
    and the first query that holds names the target.  A query is a JSON value;
    every error the code throws is a value of [RouterError].

    [RegExp] is a parameter ([regex_test]: [None] when the constructor throws).
    Objects and arrays of a query are never the same reference as those of the
    request, so [===] between them is false. *)

From Stdlib Require Import ZArith Lia ZifyBool Ascii Floats.SpecFloat.
From stdpp Require Import base strings option sets list.
From S2P Require Import Prelude JsValue BudgetKeys JsText.

#[local] Open Scope string_scope.
#[local] Open Scope list_scope.
#[local] Arguments num_of_Z : simpl never.

(** ** Data *)

Record RouterContext := mkContext {
  rc_metadata : any;
  rc_params : any;
  rc_pathname : string
}.

Record Condition := mkCondition { cd_query : json; cd_then : string }.

Record Strategy := mkStrategy {
  sg_mode : string;
  sg_conditions : option (list Condition);
  sg_default : option string
}.

Record Targets := mkTargets {
  tg_strategy : option Strategy;
  tg_targets : option (list (obj json))
}.

Inductive RouterError :=
| UnsupportedMode
| NoConditions
| UnsupportedOperator (op : string)
| NotResolved
| InvalidTargetName (name : string)
| QueryTypeError.

Definition CONDITIONAL : string := "conditional".

Definition logical_keys : list string := ["$or"; "$and"].

(** ** Evaluation *)

Section Evaluate.
Variable regex_test : json -> any -> option bool.
Variable context : RouterContext.

Definition context_value : json :=
  JObj (match rc_metadata context with Some m => [("metadata", m)] | None => [] end ++
        match rc_params context with Some p => [("params", p)] | None => [] end ++
        [("url", JObj [("pathname", JStr (rc_pathname context))])]).

(** [value[parts[0]]?.[parts[1]]] *)
Definition getContextValue (key : string) : any :=
  match split_dot key with
  | [] => None
  | [p] => property (property (Some context_value) p) "undefined"
  | p :: q :: _ => property (property (Some context_value) p) q
  end.

(** What one operator says: go on, return a value, or throw. *)
Inductive Verdict := Goes_on | Returns (b : bool) | Throws (e : RouterError).

Definition expects (b : bool) : Verdict := if b then Goes_on else Returns false.

Definition operator_verdict (op : string) (compareValue : json) (value : any) : Verdict :=
  let x := parseFloat value in
  let y := parseFloat (Some compareValue) in
  if (op =? "$eq")%string then expects (strict_eq value compareValue)
  else if (op =? "$ne")%string then expects (negb (strict_eq value compareValue))
  else if (op =? "$gt")%string then expects (nltb y x)
  else if (op =? "$gte")%string then expects (nleb y x)
  else if (op =? "$lt")%string then expects (nltb x y)
  else if (op =? "$lte")%string then expects (nleb x y)
  else if (op =? "$in")%string then
    expects (match compareValue with JArr l => existsb (strict_eq value) l | _ => false end)
  else if (op =? "$nin")%string then
    expects (match compareValue with JArr l => negb (existsb (strict_eq value) l) | _ => false end)
  else if (op =? "$regex")%string then
    Returns (default false (regex_test compareValue value))
  else Throws (UnsupportedOperator op).

Fixpoint evaluate_operators (ops : obj json) (value : any) : result RouterError bool :=
  match ops with
  | [] => Ok true
  | (op, compareValue) :: rest =>
      match operator_verdict op compareValue value with
      | Goes_on => evaluate_operators rest value
      | Returns b => Ok b
      | Throws e => Throw e
      end
  end.

(** [Object.entries] of an array. *)
Definition indexed (l : list json) : obj json :=
  zip (map index_name (seq 0 (length l))) l.

Definition evaluateOperator (operator : json) (value : any) : result RouterError bool :=
  match operator with
  | JObj ops => evaluate_operators ops value
  | JArr l => evaluate_operators (indexed l) value
  | _ => Ok true
  end.

(** An entry that is not a logical operator. *)
Definition entry_holds (key : string) (value : json) : result RouterError bool :=
  let contextValue := getContextValue key in
  match value with
  | JObj _ | JArr _ => evaluateOperator value contextValue
  | _ => Ok (strict_eq contextValue value)
  end.

(** The entries of a query that has no logical operator. *)
Fixpoint plain_entries (l : obj json) : result RouterError bool :=
  match l with
  | [] => Ok true
  | (key, value) :: rest =>
      let* b := entry_holds key value in
      if b then plain_entries rest else Ok false
  end.

(** [subs.some(f)] and [subs.every(f)] for a callback that may throw. *)
Definition some_throw {A} (f : A -> result RouterError bool) : list A -> result RouterError bool :=
  fix go l := match l with
  | [] => Ok false
  | x :: r => let* b := f x in if b then Ok true else go r
  end.

Definition every_throw {A} (f : A -> result RouterError bool) : list A -> result RouterError bool :=
  fix go l := match l with
  | [] => Ok true
  | x :: r => let* b := f x in if b then go r else Ok false
  end.

Fixpoint evaluateQuery (query : json) : result RouterError bool :=
  match query with
  | JObj entries =>
      (fix go (l : list (string * json)) : result RouterError bool :=
        match l with
        | [] => Ok true
        | (key, value) :: rest =>
            match value with
            | JArr subs =>
                if (key =? "$or")%string then some_throw evaluateQuery subs
                else if (key =? "$and")%string then every_throw evaluateQuery subs
                else let* b := entry_holds key value in if b then go rest else Ok false
            | _ => let* b := entry_holds key value in if b then go rest else Ok false
            end
        end) entries
  | JArr l => plain_entries (indexed l)
  | JStr s =>
      plain_entries (indexed (map (fun c => JStr (String c EmptyString)) (String.list_ascii_of_string s)))
  | JNull => Throw QueryTypeError
  | _ => Ok true
  end.

Fixpoint find_index {A} (p : A -> bool) (l : list A) : option nat :=
  match l with
  | [] => None
  | x :: r => if p x then Some O else S <$> find_index p r
  end.

Definition has_name (name : string) (target : obj json) : bool :=
  strict_eq (own target "name") (JStr name).

Definition findTarget (config : Targets) (name : string) : result RouterError (obj json) :=
  let targets := default [] (tg_targets config) in
  match find_index (has_name name) targets with
  | None => Throw (InvalidTargetName name)
  | Some index =>
      Ok (obj_put (default [] (targets !! index)) "index"
            (JNum (num_of_Z (Z.of_nat index))))
  end.

(** The target name of the first condition that holds. *)
Fixpoint first_condition (conditions : list Condition) : result RouterError (option string) :=
  match conditions with
  | [] => Ok None
  | cd :: rest =>
      let* b := evaluateQuery (cd_query cd) in
      if b then Ok (Some (cd_then cd)) else first_condition rest
  end.

Definition resolveTarget (config : Targets) : result RouterError (obj json) :=
  match tg_strategy config with
  | Some (mkStrategy _ (Some conditions) default_) =>
      let* found := first_condition conditions in
      match found with
      | Some name => findTarget config name
      | None =>
          match default_ with
          | Some name => if truthy_string name then findTarget config name else Throw NotResolved
          | None => Throw NotResolved
          end
      end
  | _ => Throw NoConditions
  end.

(** [new ConditionalRouter(config, context).resolveTarget()] *)
Definition route_conditionally (config : Targets) : result RouterError (obj json) :=
  match tg_strategy config with
  | Some s => if (sg_mode s =? CONDITIONAL)%string then resolveTarget config
              else Throw UnsupportedMode
  | None => Throw UnsupportedMode
  end.
End Evaluate.

Section Theory.
Variable regex_test : json -> any -> option bool.
Variable context : RouterContext.

Abbreviation evaluate := (evaluateQuery regex_test context).
Abbreviation holds_entry := (entry_holds regex_test context).

(** ** The entries of a query *)

(** What a logical operator over a list evaluates to. *)
Definition logical_result (key : string) (value : json) : option (result RouterError bool) :=
  match value with
  | JArr subs =>
      if (key =? "$or")%string then Some (some_throw evaluate subs)
      else if (key =? "$and")%string then Some (every_throw evaluate subs)
      else None
  | _ => None
  end.

Fixpoint query_entries (l : obj json) : result RouterError bool :=
  match l with
  | [] => Ok true
  | (key, value) :: rest =>
      match logical_result key value with
      | Some r => r
      | None => let* b := holds_entry key value in if b then query_entries rest else Ok false
      end
  end.

Lemma evaluateQuery_entries l : evaluate (JObj l) = query_entries l.
Proof.
  induction l as [|[key value] rest IH]; [done|]. simpl. simpl in IH. rewrite <- IH.
  unfold logical_result. destruct value as [| | | |subs|]; try done.
  destruct (key =? "$or")%string; [done|]. by destruct (key =? "$and")%string.
Qed.

(** A list under [$or] or [$and] ends the evaluation of its query: the
    entries written after it are never looked at. *)
Theorem entries_after_logical_ignored pre key subs rest :
  key ∈ logical_keys ->
  evaluate (JObj (pre ++ (key, JArr subs) :: rest)) = evaluate (JObj (pre ++ [(key, JArr subs)])).
Proof.
  intros Hkey. rewrite !evaluateQuery_entries.
  assert (Hlog : exists r, logical_result key (JArr subs) = Some r).
  { apply elem_of_cons in Hkey as [->|Hkey]; [by eexists|].
    apply list_elem_of_singleton in Hkey as ->. by eexists. }
  destruct Hlog as [r Hr].
  induction pre as [|[k v] pre IH]; cbn [app query_entries]; [by rewrite Hr|].
  by rewrite IH.
Qed.

(** ** Queries as conjunctions *)

Definition known_operators : list string :=
  ["$eq"; "$ne"; "$gt"; "$gte"; "$lt"; "$lte"; "$in"; "$nin"; "$regex"].

(** Known operators, a [$regex] only in the last place. *)
Fixpoint wf_operators (ops : obj json) : bool :=
  match ops with
  | [] => true
  | (op, _) :: rest =>
      mem_string op known_operators &&
      (negb (op =? "$regex")%string || match rest with [] => true | _ => false end) &&
      wf_operators rest
  end.

(** Objects whose values are scalars, operator objects, or, in the last place,
    a list under a logical operator. *)
Fixpoint wf_query (q : json) : bool :=
  match q with
  | JObj entries =>
      (fix go (l : list (string * json)) : bool :=
        match l with
        | [] => true
        | (key, value) :: rest =>
            match value with
            | JArr subs =>
                mem_string key logical_keys && forallb wf_query subs &&
                match rest with [] => true | _ => false end
            | JObj ops => wf_operators ops && go rest
            | _ => go rest
            end
        end) entries
  | _ => false
  end.

Definition operator_sem (op : string) (compareValue : json) (value : any) : bool :=
  match operator_verdict regex_test op compareValue value with
  | Goes_on => true | Returns b => b | Throws _ => false end.

Definition entry_sem (key : string) (value : json) : bool :=
  let contextValue := getContextValue context key in
  match value with
  | JObj ops => forallb (fun p => operator_sem p.1 p.2 contextValue) ops
  | _ => strict_eq contextValue value
  end.

(** The meaning of a query: every entry holds. *)
Fixpoint query_sem (q : json) : bool :=
  match q with
  | JObj entries =>
      (fix go (l : list (string * json)) : bool :=
        match l with
        | [] => true
        | (key, value) :: rest =>
            match value with
            | JArr subs =>
                if (key =? "$or")%string then existsb query_sem subs else forallb query_sem subs
            | _ => entry_sem key value
            end && go rest
        end) entries
  | _ => false
  end.

Lemma operators_conjunction ops value :
  wf_operators ops = true ->
  evaluate_operators regex_test ops value =
    Ok (forallb (fun p => operator_sem p.1 p.2 value) ops).
Proof.
  induction ops as [|[op cv] ops IH]; [done|]. cbn [wf_operators evaluate_operators forallb fst snd].
  intros Hw. apply andb_true_iff in Hw as [Hw Hrest]. apply andb_true_iff in Hw as [Hknown Hlast].
  unfold operator_sem at 1.
  destruct (operator_verdict regex_test op cv value) as [|b|e] eqn:Hv; simpl.
  - by apply IH.
  - destruct b; [|done]. destruct ops as [|p ops]; [done|]. exfalso. revert Hv Hlast.
    unfold operator_verdict, expects.
    repeat (destruct (op =? _)%string; [repeat case_match; done|]). done.
  - exfalso. revert Hv Hknown. unfold operator_verdict, expects. simpl.
    repeat (destruct (op =? _)%string; [repeat case_match; done|]). done.
Qed.

Lemma some_throw_Ok {A} (f : A -> result RouterError bool) (g : A -> bool) l :
  Forall (fun x => f x = Ok (g x)) l -> some_throw f l = Ok (existsb g l).
Proof. induction 1 as [|x l Hx _ IH]; simpl; [done|]. rewrite Hx. by destruct (g x). Qed.

Lemma every_throw_Ok {A} (f : A -> result RouterError bool) (g : A -> bool) l :
  Forall (fun x => f x = Ok (g x)) l -> every_throw f l = Ok (forallb g l).
Proof. induction 1 as [|x l Hx _ IH]; simpl; [done|]. rewrite Hx. by destruct (g x). Qed.

(** The hypothesis the induction over a query needs: about the value, and
    about the queries of a list. *)
Definition agrees (q : json) : Prop := wf_query q = true -> evaluate q = Ok (query_sem q).
Definition agrees_within (q : json) : Prop :=
  agrees q /\ match q with JArr subs => Forall agrees subs | _ => True end.

Lemma agrees_all (q : json) : agrees_within q.
Proof.
  induction q as [|b|n|s|l IH|o IH] using json_rect'; try (split; [by intros ?|done]).
  - split; [by intros ?|]. eapply Forall_impl; [exact IH|]. by intros x [? _].
  - split; [|done]. intros Hw. rewrite evaluateQuery_entries. simpl in Hw. simpl.
    induction IH as [|[key value] rest [Hv Hsubs] _ IHrest]; [done|].
    simpl in Hv, Hsubs. cbn [query_entries].
    destruct value as [|b|n|s|subs|ops]; simpl;
      try (destruct (strict_eq _ _); [by apply IHrest|done]).
    + apply andb_true_iff in Hw as [Hw Hlast]. apply andb_true_iff in Hw as [Hkey Hwf].
      destruct rest; [|done]. rewrite andb_true_r.
      assert (Hall : Forall (fun x => evaluate x = Ok (query_sem x)) subs).
      { rewrite Forall_forall in Hsubs |- *. rewrite forallb_forall in Hwf. intros x Hx.
        apply Hsubs; [done|]. apply Hwf. by apply list_elem_of_In. }
      destruct (key =? "$or")%string; [by apply some_throw_Ok|].
      destruct (key =? "$and")%string; [by apply every_throw_Ok|done].
    + apply andb_true_iff in Hw as [Hops Hw]. rewrite (operators_conjunction ops) by done.
      destruct (forallb _ ops); [by apply IHrest|done].
Qed.

(** A query of known operators, with [$regex] last among the operators of
    a value and a logical operator last among the entries of a query, never
    throws, and evaluates to the conjunction of all its entries: [$or] to the
    disjunction and [$and] to the conjunction of the queries in its list. *)
Theorem well_formed_query_is_conjunction q :
  wf_query q = true -> evaluate q = Ok (query_sem q).
Proof. apply (agrees_all q). Qed.

(** ** Resolution *)

Lemma find_index_iff {A} (p : A -> bool) l i :
  find_index p l = Some i <->
  (exists x, l !! i = Some x /\ p x = true) /\ (forall j x, (j < i)%nat -> l !! j = Some x -> p x = false).
Proof.
  revert i. induction l as [|y l IH]; intros i; simpl.
  { split; [done|]. by intros [(x & Hx & _) _]. }
  destruct (p y) eqn:Hy.
  - split.
    + intros [= <-]. split; [by exists y|]. intros j x Hj. lia.
    + intros [(x & Hx & Hpx) Hbefore]. destruct i as [|i]; [done|].
      specialize (Hbefore O y). rewrite Hbefore in Hy; [done|lia|done].
  - destruct i as [|i].
    + split; [by destruct (find_index p l)|]. intros [(x & [= <-] & Hpx) _]. congruence.
    + transitivity (find_index p l = Some i).
      { destruct (find_index p l); simpl; [split; intros [= ->]; done|done]. }
      rewrite IH. split.
      * intros [Hx Hbefore]. split; [done|]. intros [|j] x Hj; simpl; [by intros [= <-]|].
        apply Hbefore. lia.
      * intros [Hx Hbefore]. split; [done|]. intros j x Hj. apply (Hbefore (S j)). lia.
Qed.

(** The first condition that holds, those before it being false. *)
Definition selects (conditions : list Condition) (default_ : option string) (name : string) : Prop :=
  (exists pre cd post, conditions = pre ++ cd :: post /\
     Forall (fun c => evaluate (cd_query c) = Ok false) pre /\
     evaluate (cd_query cd) = Ok true /\ cd_then cd = name) \/
  (Forall (fun c => evaluate (cd_query c) = Ok false) conditions /\
   default_ = Some name /\ name <> "").

Lemma first_condition_None conditions :
  first_condition regex_test context conditions = Ok None <->
  Forall (fun c => evaluate (cd_query c) = Ok false) conditions.
Proof.
  induction conditions as [|c l IH]; simpl; [split; [by constructor|done]|].
  rewrite Forall_cons, <- IH. destruct (evaluate (cd_query c)) as [[]|]; naive_solver.
Qed.

Lemma first_condition_Some conditions name :
  first_condition regex_test context conditions = Ok (Some name) <->
  exists pre cd post, conditions = pre ++ cd :: post /\
    Forall (fun c => evaluate (cd_query c) = Ok false) pre /\
    evaluate (cd_query cd) = Ok true /\ cd_then cd = name.
Proof.
  split.
  - induction conditions as [|c l IH]; simpl; [done|].
    destruct (evaluate (cd_query c)) as [[]|] eqn:Hc; [|intros H|done].
    + intros [= <-]. exists [], c, l. by repeat split; [constructor|..].
    + destruct (IH H) as (pre & cd & post & -> & Hpre & ? & ?).
      exists (c :: pre), cd, post. repeat split; try done. by constructor.
  - intros (pre & cd & post & -> & Hpre & Hcd & <-).
    induction Hpre as [|c pre Hc _ IH]; simpl; [by rewrite Hcd|by rewrite Hc].
Qed.

Lemma findTarget_iff config name t :
  findTarget config name = Ok t <->
  exists i target, default [] (tg_targets config) !! i = Some target /\
    has_name name target = true /\
    (forall j x, (j < i)%nat -> default [] (tg_targets config) !! j = Some x ->
       has_name name x = false) /\
    t = obj_put target "index" (JNum (num_of_Z (Z.of_nat i))).
Proof.
  unfold findTarget. split.
  - destruct (find_index _ _) as [i|] eqn:Hi; [|done]. intros [= <-].
    apply find_index_iff in Hi as [(x & Hx & Hname) Hbefore]. exists i, x. by rewrite Hx.
  - intros (i & target & Hi & Hname & Hbefore & ->).
    assert (find_index (has_name name) (default [] (tg_targets config)) = Some i) as ->.
    { apply find_index_iff. split; [by exists target|done]. }
    by rewrite Hi.
Qed.

(** A conditional config routes to [t] exactly when its mode is
    [conditional], it lists conditions, and [t] is the first target of the
    selected name with its position added; the selected name is that of the
    first condition whose query holds, every query before it having evaluated
    to false, or the default when every query evaluates to false. *)
Theorem routes_to_first_match config t :
  route_conditionally regex_test context config = Ok t <->
  exists conditions default_ name i target,
    tg_strategy config = Some (mkStrategy CONDITIONAL (Some conditions) default_) /\
    selects conditions default_ name /\
    default [] (tg_targets config) !! i = Some target /\ has_name name target = true /\
    (forall j x, (j < i)%nat -> default [] (tg_targets config) !! j = Some x ->
       has_name name x = false) /\
    t = obj_put target "index" (JNum (num_of_Z (Z.of_nat i))).
Proof.
  unfold route_conditionally, resolveTarget. split.
  - destruct (tg_strategy config) as [[mode [conditions|] default_]|]; try done; simpl;
      destruct (String.eqb_spec mode CONDITIONAL) as [->|]; try done.
    destruct (first_condition _ _ conditions) as [[name|]|] eqn:Hfirst; [| |done].
    + intros (i & target & H)%findTarget_iff. exists conditions, default_, name, i, target.
      split; [done|]. split; [|done]. left. by apply first_condition_Some.
    + destruct default_ as [name|]; [|done]. destruct (truthy_string name) eqn:Hname; [|done].
      intros (i & target & H)%findTarget_iff. exists conditions, (Some name), name, i, target.
      split; [done|]. split; [|done]. right. split; [by apply first_condition_None|].
      split; [done|]. by intros ->.
  - intros (conditions & default_ & name & i & target & -> & Hsel & H). simpl.
    assert (Hfind : findTarget config name = Ok t) by (apply findTarget_iff; eauto).
    destruct Hsel as [Hsel%first_condition_Some|(Hnone%first_condition_None & -> & Hname)].
    + by rewrite Hsel.
    + rewrite Hnone. unfold truthy_string. by destruct (String.eqb_spec name "").
Qed.
End Theory.

(** ** A concrete request *)

Definition example_regex (pattern : json) (value : any) : option bool :=
  match pattern, value with
  | JStr p, Some (JStr s) => Some (includes s p)
  | JStr _, _ => Some false
  | _, _ => None
  end.

Definition example_context : RouterContext :=
  mkContext (Some (JObj [("plan", JStr "free"); ("seats", JStr "12 seats")]))
    (Some (JObj [("model", JStr "gpt-large")])) "/v1/chat/completions".

Definition example_query : json :=
  JObj [("metadata.seats", JObj [("$gte", JNum (num_of_Z 10))]);
        ("params.model", JObj [("$ne", JStr "x"); ("$regex", JStr "gpt")]);
        ("$or", JArr [JObj [("metadata.plan", JStr "paid")];
                      JObj [("metadata.plan", JObj [("$in", JArr [JStr "free"])])]])].

Lemma well_formed_query_is_conjunction_witness :
  evaluateQuery example_regex example_context example_query = Ok true.
Proof.
  rewrite (well_formed_query_is_conjunction example_regex example_context example_query);
    [|vm_compute; reflexivity].
  vm_compute. reflexivity.
Defined.

(** The path condition after [$or] is false and the query still holds. *)
Lemma entries_after_logical_ignored_witness :
  evaluateQuery example_regex example_context
    (JObj [("$or", JArr [JObj [("metadata.plan", JStr "free")]]);
           ("url.pathname", JStr "/elsewhere")]) = Ok true.
Proof.
  etransitivity; [apply (entries_after_logical_ignored example_regex example_context [] "$or" _ _);
    by left|].
  vm_compute. reflexivity.
Defined.

(** A config the example request is routed by. *)
Example routes_example :
  route_conditionally example_regex example_context
    (mkTargets (Some (mkStrategy CONDITIONAL
       (Some [mkCondition (JObj [("metadata.plan", JStr "paid")]) "a";
              mkCondition example_query "b"]) (Some "a")))
     (Some [[("name", JStr "a")]; [("name", JStr "b")]]))
  = Ok [("name", JStr "b"); ("index", JNum (num_of_Z 1))].
Proof. vm_compute. reflexivity. Qed.
