(* ===== verification/GroupPolicy.v ===== *)
(** * Group policy of authenticated users

    Models [src/gateway/src/middlewares/psOidc/policy.ts]: the groups of a
    token, the policy entry that applies, the provider and model allowlists,
    and the per-minute rate limit over the [Map] of buckets (insertion order,
    bounded).  [Date.now()] is an argument, in integer milliseconds.  The
    pseudonym of a subject ([subjectHash], Web Crypto) is an argument of the
    rate limit and not modelled. *)

From Stdlib Require Import ZArith Lia ZifyBool Ascii Floats.SpecFloat Sorting.Sorted.
From stdpp Require Import base strings option sets list.
From S2P Require Import Prelude JsValue JsText.

#[local] Open Scope string_scope.
#[local] Open Scope list_scope.
#[local] Open Scope Z_scope.

Inductive RateLimitPer := per_user | per_group.

Record RateLimitRule := mkLimit { rl_requestsPerMinute : Z; rl_per : RateLimitPer }.

Record McpGroupToolRule := mkToolRule {
  mg_allow : option (list string);
  mg_denyLower : option (list string)
}.

Record PolicyGroup := mkGroup {
  pg_name : string;
  pg_match : list string;
  pg_providers : option (list string);
  pg_models : option (list string);
  pg_rateLimit : option RateLimitRule;
  pg_mcp : option (obj McpGroupToolRule)
}.

Inductive DefaultAction := deny | allow.

Record OidcPolicy := mkOidcPolicy { op_defaultAction : DefaultAction; op_groups : list PolicyGroup }.

Inductive PolicyDenyReason :=
| no_matching_group
| provider_not_allowed
| model_not_allowed
| mcp_server_not_allowed
| mcp_tool_not_allowed.

(** ** Groups of a token *)

Definition is_object_type (v : any) : bool :=
  match v with Some (JObj _) | Some (JArr _) => true | _ => false end.

(** The value at a dotted path; [None] where the loop returns early. *)
Fixpoint claim_value (value : any) (parts : list string) : option any :=
  match parts with
  | [] => Some value
  | part :: rest =>
      if is_object_type value then claim_value (property value part) rest else None
  end.

Definition groupsFromClaims (payload : json) (claimPath : string) : list string :=
  match claim_value (Some payload) (split_dot claimPath) with
  | Some (Some (JStr s)) => [s]
  | Some (Some (JArr l)) => take 1000 (omap (fun v => as_string (Some v)) l)
  | _ => []
  end.

Definition hasGroupsOverage (payload : json) (claimPath : string) : bool :=
  let names := property (Some payload) "_claim_names" in
  is_object_type names && match property names claimPath with Some _ => true | None => false end.

Definition matchGroup (policy : OidcPolicy) (groups : list string) : option PolicyGroup :=
  List.find (fun g => existsb (fun m => mem_string m groups) (pg_match g)) (op_groups policy).

(** ** Allowlists *)

Definition pattern_allows (model p : string) : bool :=
  match before_star p with
  | Some prefix => startsWith model prefix
  | None => (p =? model)%string
  end.

Definition modelAllowed (patterns : list string) (model : string) : bool :=
  existsb (pattern_allows model) patterns.

Definition provider_allowed (providers : list string) (provider : option string) : bool :=
  match provider with
  | Some p => truthy_string p && mem_string (toLowerCase p) providers
  | None => false
  end.

Definition checkTarget (group : option PolicyGroup) (provider model : option string)
    : option PolicyDenyReason :=
  match group with
  | None => None
  | Some g =>
      if match pg_providers g with Some ps => negb (provider_allowed ps provider) | None => false end
      then Some provider_not_allowed
      else
        match pg_models g, model with
        | Some ms, Some m =>
            if truthy_string m && negb (modelAllowed ms m) then Some model_not_allowed else None
        | _, _ => None
        end
  end.

(** ** Rate limits *)

Definition WINDOW_MS : Z := 60000.
Definition MAX_BUCKETS : Z := 50000.

Record Bucket := mkBucket { bk_windowStart : Z; bk_count : Z }.

Abbreviation Buckets := (obj Bucket).

Definition newline : string := String (ascii_of_N 10) EmptyString.

(** The bucket a call counts in. *)
Definition bucket_key (g : PolicyGroup) (rule : RateLimitRule) (subjectHash : string) : string :=
  match rl_per rule with
  | per_group => "g" +:+ newline +:+ pg_name g
  | per_user => "u" +:+ newline +:+ pg_name g +:+ newline +:+ subjectHash
  end.

Definition windowStart_of (t : Z) : Z := t - Z.rem t WINDOW_MS.

(** Makes room: drops the buckets of other windows, then, when the map is
    still full, its oldest tenth. *)
Definition prune (max_buckets windowStart : Z) (buckets : Buckets) : Buckets :=
  let current := List.filter (fun p => bk_windowStart p.2 =? windowStart) buckets in
  if max_buckets <=? Z.of_nat (length current)
  then drop (Z.to_nat (- (- max_buckets / 10))) current
  else current.

(** The bucket of a key for the window, made anew when there is none. *)
Definition open_bucket (max_buckets : Z) (key : string) (windowStart : Z) (buckets : Buckets)
    : Bucket * Buckets :=
  let fresh := mkBucket windowStart 0 in
  match own buckets key with
  | Some b =>
      if bk_windowStart b =? windowStart then (b, buckets) else (fresh, obj_put buckets key fresh)
  | None =>
      let buckets := if max_buckets <=? Z.of_nat (length buckets)
                     then prune max_buckets windowStart buckets else buckets in
      (fresh, obj_put buckets key fresh)
  end.

Definition take_with (max_buckets : Z) (t : Z) (group : PolicyGroup) (subjectHash : string)
    (buckets : Buckets) : option Z * Buckets :=
  match pg_rateLimit group with
  | None => (None, buckets)
  | Some rule =>
      let key := bucket_key group rule subjectHash in
      let windowStart := windowStart_of t in
      let '(bucket, buckets) := open_bucket max_buckets key windowStart buckets in
      if rl_requestsPerMinute rule <=? bk_count bucket
      then (Some (Z.max 1 (- (- (windowStart + WINDOW_MS - t) / 1000))), buckets)
      else (None, obj_put buckets key (mkBucket (bk_windowStart bucket) (bk_count bucket + 1)))
  end.

(** Seconds until the window resets when over the limit, else [None]. *)
Definition takeRateLimit : Z -> PolicyGroup -> string -> Buckets -> option Z * Buckets :=
  take_with MAX_BUCKETS.

(** ** Allowlist theorems *)

(** A target the group's allowlists permit: the provider, when there is a
    provider list, is named and on it whatever its case; the model, when there
    is a model list and a model, is a listed name or starts with a listed
    prefix. *)
Definition permitted (g : PolicyGroup) (provider model : option string) : Prop :=
  (forall ps, pg_providers g = Some ps ->
     exists p, provider = Some p /\ p <> "" /\ toLowerCase p ∈ ps) /\
  (forall ms m, pg_models g = Some ms -> model = Some m -> m <> "" ->
     (m ∈ ms /\ before_star m = None) \/
     exists prefix, (prefix +:+ "*") ∈ ms /\ startsWith m prefix = true).

Lemma provider_allowed_iff ps provider :
  provider_allowed ps provider = true <->
  exists p, provider = Some p /\ p <> "" /\ toLowerCase p ∈ ps.
Proof.
  unfold provider_allowed, truthy_string. destruct provider as [p|].
  - rewrite andb_true_iff, mem_string_In, negb_true_iff, String.eqb_neq. naive_solver.
  - split; [done|]. by intros (p & ? & _).
Qed.

Lemma modelAllowed_iff ms m :
  modelAllowed ms m = true <->
  (m ∈ ms /\ before_star m = None) \/
  exists prefix, (prefix +:+ "*") ∈ ms /\ startsWith m prefix = true.
Proof.
  unfold modelAllowed. rewrite existsb_exists. unfold pattern_allows. split.
  - intros (p & Hp%list_elem_of_In & Hm). destruct (before_star p) as [prefix|] eqn:Hs.
    + right. exists prefix. split; [|done]. apply before_star_Some in Hs. by rewrite <- Hs.
    + apply String.eqb_eq in Hm as ->. by left.
  - intros [[Hm Hs]|(prefix & Hp & Hm)].
    + exists m. split; [by apply list_elem_of_In|]. by rewrite Hs, String.eqb_refl.
    + exists (prefix +:+ "*"). split; [by apply list_elem_of_In|].
      by rewrite (proj2 (before_star_Some _ prefix) eq_refl).
Qed.

(** A user in a policy group may call exactly the targets its allowlists
    permit: [checkTarget] answers nothing for those, and otherwise denies for
    the provider first and for the model only when the provider is allowed. *)
Theorem checkTarget_exact g provider model :
  (checkTarget (Some g) provider model = None <-> permitted g provider model) /\
  (checkTarget (Some g) provider model = Some provider_not_allowed <->
     exists ps, pg_providers g = Some ps /\ provider_allowed ps provider = false) /\
  checkTarget (Some g) provider model <> Some no_matching_group.
Proof.
  unfold permitted, checkTarget.
  assert (Hp : match pg_providers g with Some ps => negb (provider_allowed ps provider)
    | None => false end = false <-> (forall ps, pg_providers g = Some ps ->
     exists p, provider = Some p /\ p <> "" /\ toLowerCase p ∈ ps)).
  { destruct (pg_providers g) as [ps|]; [|naive_solver].
    rewrite negb_false_iff, provider_allowed_iff. naive_solver. }
  assert (Hm : match pg_models g, model with
    | Some ms, Some m => if truthy_string m && negb (modelAllowed ms m)
                         then Some model_not_allowed else None
    | _, _ => None end = None <-> (forall ms m, pg_models g = Some ms -> model = Some m -> m <> "" ->
     (m ∈ ms /\ before_star m = None) \/
     exists prefix, (prefix +:+ "*") ∈ ms /\ startsWith m prefix = true)).
  { destruct (pg_models g) as [ms|], model as [m|]; [|naive_solver..].
    transitivity (m <> "" -> modelAllowed ms m = true).
    - unfold truthy_string. destruct (String.eqb_spec m "") as [->|Hne]; [naive_solver|].
      destruct (modelAllowed ms m); naive_solver.
    - rewrite modelAllowed_iff. naive_solver. }
  rewrite <- Hp, <- Hm. clear Hp Hm.
  assert (Hbad : match pg_providers g with Some ps => negb (provider_allowed ps provider)
    | None => false end = true <->
    exists ps, pg_providers g = Some ps /\ provider_allowed ps provider = false).
  { destruct (pg_providers g) as [ps|]; [rewrite negb_true_iff|]; naive_solver. }
  rewrite <- Hbad. clear Hbad.
  destruct (match pg_providers g with Some _ => _ | None => _ end); [naive_solver|].
  destruct (pg_models g) as [ms|], model as [m|]; try naive_solver.
  destruct (truthy_string m && _); naive_solver.
Qed.

(** ** Rate limit theorems *)

Lemma windowStart_spec t : 0 <= t -> windowStart_of t = WINDOW_MS * (t / WINDOW_MS).
Proof.
  intros Ht. unfold windowStart_of, WINDOW_MS. rewrite Z.rem_mod_nonneg by lia.
  pose proof (Z.div_mod t 60000). lia.
Qed.

Lemma windowStart_mono t t' : 0 <= t -> t <= t' -> windowStart_of t <= windowStart_of t'.
Proof.
  intros Ht Hle. rewrite !windowStart_spec by lia. unfold WINDOW_MS.
  pose proof (Z.div_le_mono t t' 60000). lia.
Qed.

Lemma windowStart_bounds t : 0 <= t -> windowStart_of t <= t < windowStart_of t + WINDOW_MS.
Proof.
  intros Ht. rewrite windowStart_spec by done. unfold WINDOW_MS.
  pose proof (Z.div_mod t 60000). pose proof (Z.mod_pos_bound t 60000). lia.
Qed.

(** A refused call is told to wait between one second and a minute, and
    waiting that long, but not a second less than it, takes it into a later
    window. *)
Theorem refusal_waits_for_window max t g subject buckets s :
  0 <= t -> (take_with max t g subject buckets).1 = Some s ->
  1 <= s <= 60 /\ windowStart_of t < windowStart_of (t + 1000 * s) /\
  (1 < s -> windowStart_of (t + 1000 * (s - 1)) = windowStart_of t).
Proof.
  intros Ht. unfold take_with. destruct (pg_rateLimit g) as [rule|]; [|done].
  destruct (open_bucket _ _ _ _) as [b m]. destruct (_ <=? bk_count b); [|done].
  simpl. intros [= Hs]. pose proof (windowStart_bounds t Ht) as Hb.
  set (w := windowStart_of t) in *. unfold WINDOW_MS in *.
  pose proof (Z.div_mod (- (w + 60000 - t)) 1000). pose proof (Z.mod_pos_bound (- (w + 60000 - t)) 1000).
  assert (Hw : w = 60000 * (t / 60000)) by (unfold w; by rewrite windowStart_spec).
  split; [lia|]. split.
  - rewrite windowStart_spec by lia. unfold WINDOW_MS.
    assert (w / 60000 + 1 <= (t + 1000 * s) / 60000).
    { rewrite Hw, (Z.mul_comm 60000), Z.div_mul by lia. apply Z.div_le_lower_bound; lia. }
    rewrite Hw, (Z.mul_comm 60000 (t / 60000)), Z.div_mul in * by lia. lia.
  - intros H1. rewrite windowStart_spec by lia. unfold WINDOW_MS.
    rewrite Hw. f_equal. symmetry. apply Z.div_unique with (r := t + 1000 * (s - 1) - w); lia.
Qed.

Record Call := mkCall { ca_time : Z; ca_group : PolicyGroup; ca_subject : string }.

Definition call_key (c : Call) : option string :=
  (fun rule => bucket_key (ca_group c) rule (ca_subject c)) <$> pg_rateLimit (ca_group c).

Definition call_limit (c : Call) : option Z :=
  rl_requestsPerMinute <$> pg_rateLimit (ca_group c).

Definition take_call (max : Z) (c : Call) (buckets : Buckets) : option Z * Buckets :=
  take_with max (ca_time c) (ca_group c) (ca_subject c) buckets.

(** Whether a call counts for a key and a window. *)
Definition counts_for (K : string) (w : Z) (c : Call) : bool :=
  bool_decide (call_key c = Some K) && (windowStart_of (ca_time c) =? w).

(** The calls of a key granted in a window. *)
Fixpoint granted (max : Z) (K : string) (w : Z) (calls : list Call) (buckets : Buckets) : Z :=
  match calls with
  | [] => 0
  | c :: rest =>
      let r := take_call max c buckets in
      (match r.1 with None => if counts_for K w c then 1 else 0 | Some _ => 0 end) +
      granted max K w rest r.2
  end.

(** The clock never goes back. *)
Fixpoint chronological (t : Z) (calls : list Call) : Prop :=
  match calls with
  | [] => True
  | c :: rest => t <= ca_time c /\ chronological (ca_time c) rest
  end.

(** The buckets are of the keys [ks]. *)
Definition buckets_of (ks : list string) (m : Buckets) : Prop :=
  NoDup (obj_keys m) /\ (forall k, k ∈ obj_keys m -> k ∈ ks).

Lemma buckets_put ks m k b : k ∈ ks -> buckets_of ks m -> buckets_of ks (obj_put m k b).
Proof.
  intros Hk [Hnd Hin]. split; [by apply NoDup_obj_put|]. intros q.
  rewrite obj_put_keys. destruct (hasOwn m k); [by apply Hin|].
  rewrite elem_of_app, list_elem_of_singleton. intros [Hq| ->]; [by apply Hin|done].
Qed.

(** A key without a bucket leaves room for one. *)
Lemma room_for_new ks m k :
  buckets_of ks m -> k ∈ ks -> own m k = None -> (length m < length ks)%nat.
Proof.
  intros [Hnd Hin] Hk Hnone. apply own_None in Hnone.
  assert (Hsub : k :: obj_keys m ⊆+ ks).
  { apply NoDup_submseteq; [by constructor|]. intros q [->|Hq]%elem_of_cons; auto. }
  apply submseteq_length in Hsub. simpl in Hsub. rewrite obj_keys_length in Hsub. lia.
Qed.

Lemma open_bucket_room max ks m k w b m' :
  Z.of_nat (length ks) <= max -> buckets_of ks m -> k ∈ ks ->
  open_bucket max k w m = (b, m') ->
  buckets_of ks m' /\ own m' k = Some b /\ bk_windowStart b = w /\
  (forall q, q <> k -> own m' q = own m q) /\
  match own m k with
  | Some b0 => if bk_windowStart b0 =? w then b = b0 else bk_count b = 0
  | None => bk_count b = 0
  end.
Proof.
  intros Hmax Hm Hk. unfold open_bucket. destruct (own m k) as [b0|] eqn:Hown.
  - destruct (Z.eqb_spec (bk_windowStart b0) w) as [Hw|Hw]; intros [= <- <-]; [done|].
    split; [by apply buckets_put|]. rewrite own_put, String.eqb_refl. repeat split.
    intros q Hq. rewrite own_put. by destruct (String.eqb_spec q k).
  - pose proof (room_for_new ks m k Hm Hk Hown) as Hroom.
    destruct (Z.leb_spec max (Z.of_nat (length m))); [lia|]. intros [= <- <-].
    split; [by apply buckets_put|]. rewrite own_put, String.eqb_refl. repeat split.
    intros q Hq. rewrite own_put. by destruct (String.eqb_spec q k).
Qed.

(** The count [cnt] of granted calls per window agrees with the bucket of [K]
    at time [t]: windows after the bucket's have none. *)
Definition counted (K : string) (r t : Z) (m : Buckets) (cnt : Z -> Z) : Prop :=
  (forall w, cnt w <= r) /\
  match own m K with
  | Some b => bk_windowStart b <= windowStart_of t /\ cnt (bk_windowStart b) = bk_count b /\
              (forall w, bk_windowStart b < w -> cnt w = 0)
  | None => forall w, cnt w = 0
  end.

(** What is counted for the window of the bucket just opened. *)
Lemma counted_open max ks K r t w m cnt b m' :
  Z.of_nat (length ks) <= max -> buckets_of ks m -> K ∈ ks -> windowStart_of t <= w ->
  counted K r t m cnt -> open_bucket max K w m = (b, m') ->
  cnt w = bk_count b /\ (forall w', w < w' -> cnt w' = 0).
Proof.
  intros Hmax Hm HK Hw [_ Hcnt] Hopen.
  destruct (open_bucket_room max ks m K w b m' Hmax Hm HK Hopen) as (_ & _ & _ & _ & Hb).
  destruct (own m K) as [b0|].
  - destruct Hcnt as (Hle & Hcount & Hlater).
    destruct (Z.eqb_spec (bk_windowStart b0) w) as [<-|Hne].
    + subst b. split; [done|]. intros w' Hw'. by apply Hlater.
    + rewrite Hb. split; [apply Hlater; lia|]. intros w' Hw'. apply Hlater. lia.
  - rewrite Hb. split; [done|]. intros w' _. apply Hcnt.
Qed.

(** A call that counts for another key leaves the count of [K] alone. *)
Lemma counted_other K r t t' m m' cnt d :
  windowStart_of t <= windowStart_of t' -> own m' K = own m K -> (forall w, d w = 0) ->
  counted K r t m cnt -> counted K r t' m' (fun w => cnt w + d w).
Proof.
  intros Hmono Hown Hd [Hle Hcnt]. split; [intros w; rewrite Hd, Z.add_0_r; apply Hle|].
  rewrite Hown. destruct (own m K) as [b|].
  - destruct Hcnt as (H1 & H2 & H3). rewrite Hd. split; [lia|]. split; [lia|].
    intros w Hw. rewrite Hd, H3 by done. done.
  - intros w. by rewrite Hd, Hcnt.
Qed.

Lemma take_counted max ks K r t m cnt c :
  Z.of_nat (length ks) <= max -> buckets_of ks m -> 0 <= t <= ca_time c ->
  (forall k, call_key c = Some k -> k ∈ ks) ->
  (call_key c = Some K -> call_limit c = Some r) ->
  counted K r t m cnt ->
  buckets_of ks (take_call max c m).2 /\
  counted K r (ca_time c) (take_call max c m).2
    (fun w => cnt w + match (take_call max c m).1 with
                      | None => if counts_for K w c then 1 else 0 | Some _ => 0 end).
Proof.
  intros Hmax Hm Ht Hkeys Hlimit Hcnt.
  assert (Hmono : windowStart_of t <= windowStart_of (ca_time c)) by (apply windowStart_mono; lia).
  unfold take_call, take_with, call_key, call_limit, counts_for, call_key in *.
  destruct (pg_rateLimit (ca_group c)) as [rule|]; cbn [fmap option_fmap option_map fst snd] in *.
  2:{ split; [done|]. eapply counted_other; try done. }
  set (key := bucket_key _ _ _) in *. set (w0 := windowStart_of (ca_time c)) in *.
  assert (Hin : key ∈ ks) by (by apply Hkeys).
  destruct (open_bucket max key w0 m) as [b m1] eqn:Hopen.
  destruct (open_bucket_room max ks m key w0 b m1 Hmax Hm Hin Hopen) as (Hm1 & Hb & Hw & Hother & _).
  destruct (String.eqb_spec key K) as [HK|HK].
  - clearbody key. subst key. rewrite bool_decide_eq_true_2 by done.
    destruct (counted_open max ks K r t w0 m cnt b m1 Hmax Hm Hin Hmono Hcnt Hopen) as [Hc Hlater].
    specialize (Hlimit eq_refl). injection Hlimit as ->. destruct Hcnt as [Hle _].
    destruct (Z.leb_spec r (bk_count b)) as [Hover|Hunder]; cbn [fst snd].
    + split; [done|]. split; [intros w; pose proof (Hle w); lia|]. rewrite Hb, Hw.
      split; [lia|]. split; [lia|]. intros w Hww. rewrite Hlater by done. done.
    + split; [by apply buckets_put|]. split.
      * intros w. simpl. pose proof (Hle w). destruct (Z.eqb_spec w0 w) as [<-|]; lia.
      * rewrite own_put, String.eqb_refl. cbn [bk_windowStart bk_count]. rewrite Hw, Z.eqb_refl.
        split; [lia|]. split; [simpl; lia|]. intros w Hww. rewrite Hlater by done.
        simpl. destruct (Z.eqb_spec w0 w); lia.
  - rewrite bool_decide_eq_false_2 by congruence. cbn [andb].
    destruct (_ <=? bk_count b); cbn [fst snd].
    + split; [done|]. eapply counted_other; [exact Hmono|by apply Hother| |exact Hcnt]. done.
    + split; [by apply buckets_put|].
      eapply counted_other; [exact Hmono| | |exact Hcnt]; [|done].
      rewrite own_put. destruct (String.eqb_spec K key); [congruence|by apply Hother].
Qed.

Lemma granted_bounded max ks K r calls w :
  Z.of_nat (length ks) <= max ->
  forall t m cnt, buckets_of ks m -> 0 <= t -> chronological t calls ->
  (forall c k, c ∈ calls -> call_key c = Some k -> k ∈ ks) ->
  (forall c, c ∈ calls -> call_key c = Some K -> call_limit c = Some r) ->
  counted K r t m cnt -> cnt w + granted max K w calls m <= r.
Proof.
  intros Hmax. induction calls as [|c calls IH]; intros t m cnt Hm Ht Hchron Hkeys Hlimit Hcnt.
  { simpl. destruct Hcnt as [Hle _]. specialize (Hle w). lia. }
  destruct Hchron as [Hle Hchron]. simpl.
  destruct (take_counted max ks K r t m cnt c) as [Hm' Hcnt']; try done.
  { intros k. apply Hkeys. by left. }
  { apply Hlimit. by left. }
  pose proof (IH (ca_time c) _ _ Hm' ltac:(lia) Hchron
    (fun c' k Hc' => Hkeys c' k (list_elem_of_further _ _ _ Hc'))
    (fun c' Hc' => Hlimit c' (list_elem_of_further _ _ _ Hc')) Hcnt') as H.
  cbn beta in H. lia.
Qed.

(** The rate limit holds: over any sequence of calls of any users and
    groups, with a clock that does not go back and at most as many keys as
    there may be buckets, no key is granted more calls in a window than its
    rule allows per minute. *)
Theorem rate_limit_enforced ks K r calls w :
  Z.of_nat (length ks) <= MAX_BUCKETS -> 0 <= r -> chronological 0 calls ->
  (forall c k, c ∈ calls -> call_key c = Some k -> k ∈ ks) ->
  (forall c, c ∈ calls -> call_key c = Some K -> call_limit c = Some r) ->
  granted MAX_BUCKETS K w calls [] <= r.
Proof.
  intros Hmax Hr Hchron Hkeys Hlimit.
  pose proof (granted_bounded MAX_BUCKETS ks K r calls w Hmax 0 [] (fun _ => 0)) as H. simpl in H.
  apply H; try done.
  split; [constructor|]. intros k Hk. by apply elem_of_nil in Hk.
Qed.

(** ** A concrete group *)

Definition example_group : PolicyGroup :=
  mkGroup "eng" ["engineering"] (Some ["openai"]) (Some ["gpt-*"; "o3"])
    (Some (mkLimit 2 per_user)) None.

Definition example_calls : list Call :=
  map (fun t => mkCall t example_group "u1") [1000; 2000; 3000; 59999; 60000].

(** Two of the four calls of the first minute are granted, and the call of the
    next one. *)
Example granted_example :
  let K := bucket_key example_group (mkLimit 2 per_user) "u1" in
  (granted MAX_BUCKETS K 0 example_calls [], granted MAX_BUCKETS K 60000 example_calls []) = (2, 1).
Proof. vm_compute. reflexivity. Qed.

Lemma rate_limit_enforced_witness :
  granted MAX_BUCKETS (bucket_key example_group (mkLimit 2 per_user) "u1") 0 example_calls [] <= 2.
Proof.
  apply (rate_limit_enforced [bucket_key example_group (mkLimit 2 per_user) "u1"]).
  - vm_compute. discriminate.
  - lia.
  - simpl. lia.
  - intros c k Hc. repeat (apply elem_of_cons in Hc as [->|Hc]; [intros [= <-]; by left|]).
    by apply elem_of_nil in Hc.
  - intros c Hc. repeat (apply elem_of_cons in Hc as [->|Hc]; [done|]).
    by apply elem_of_nil in Hc.
Defined.

Lemma refusal_waits_for_window_witness :
  let m := (takeRateLimit 2000 example_group "u1" (takeRateLimit 1000 example_group "u1" []).2).2 in
  1 <= 57 <= 60 /\ windowStart_of 3000 < windowStart_of (3000 + 1000 * 57) /\
  (1 < 57 -> windowStart_of (3000 + 1000 * (57 - 1)) = windowStart_of 3000).
Proof.
  apply (refusal_waits_for_window MAX_BUCKETS 3000 example_group "u1"
    (takeRateLimit 2000 example_group "u1" (takeRateLimit 1000 example_group "u1" []).2).2);
    [lia|vm_compute; reflexivity].
Defined.

Example check_example :
  map (fun p => checkTarget (Some example_group) p.1 p.2)
    [(Some "OpenAI", Some "gpt-4o"); (Some "openai", Some "o3-mini"); (None, None)]
  = [None; Some model_not_allowed; Some provider_not_allowed].
Proof. vm_compute. reflexivity. Qed.
