(* ===== verification/AccessPolicy.v ===== *)
(** * The access policy document

    Models [parsePolicy] and [parseMcpGroupPolicy] of
    [src/gateway/src/middlewares/psOidc/config.ts]: the validation of an access
    policy (the value of [PS_OIDC_POLICY] or a central [access] section) into
    the [OidcPolicy] of file GroupPolicy.  Each [fail] is an error value; a
    group's errors carry its position instead of a text.  A [Set] of tool names
    is the list of its names in the order they were first added.

    [parsed_access_policy_valid]: an accepted document is well formed.
    [access_policy_limits_calls]: the rate limits hold while the calls have at most as
    many buckets as the map holds; [full_map_forgets] shows what happens beyond. *)

From Stdlib Require Import ZArith Lia ZifyBool Ascii Floats.SpecFloat.
From stdpp Require Import base strings option sets list.
From S2P Require Import Prelude JsValue BudgetKeys JsText GroupPolicy.

#[local] Open Scope string_scope.
#[local] Open Scope list_scope.
#[local] Arguments num_of_Z : simpl never.

Inductive AccessError :=
| policy_not_object
| policy_unknown_key (k : string)
| bad_default
| groups_not_array
| group_not_object (i : nat)
| group_unknown_key (i : nat) (k : string)
| bad_group_name (i : nat)
| group_name_twice (i : nat) (name : string)
| bad_string_list (i : nat) (field : string)
| bad_requests_per_minute (i : nat)
| bad_per (i : nat)
| mcp_not_object (i : nat)
| mcp_unknown_key (i : nat) (k : string)
| servers_not_object (i : nat)
| bad_server_id (i : nat) (id : string)
| server_not_object (i : nat) (id : string)
| server_unknown_key (i : nat) (id k : string)
| tools_not_object (i : nat) (id : string)
| tools_unknown_key (i : nat) (id k : string)
| bad_tool_names (i : nat) (id field : string).

(** ** Names *)

Definition is_alnum (c : ascii) : bool := is_lower c || is_upper c || is_digit c.
Definition is_one_of (s : string) (c : ascii) : bool := negb (sforallb (fun d => negb (Ascii.eqb c d)) s).

Definition sized (lo hi : nat) (s : string) : bool :=
  (lo <=? String.length s)%nat && (String.length s <=? hi)%nat.

(** [/^[A-Za-z0-9_.:-]{1,64}$/] *)
Definition is_group_name (s : string) : bool :=
  sized 1 64 s && sforallb (fun c => is_alnum c || is_one_of "_.:-" c) s.

(** [MCP_TOOL_NAME_RE] *)
Definition is_tool_name (s : string) : bool :=
  sized 1 128 s && sforallb (fun c => is_alnum c || is_one_of "_.-" c) s.

(** [MCP_SERVER_ID_RE] *)
Definition is_server_id (s : string) : bool :=
  sized 1 63 s &&
  match s with
  | String c r => (is_lower c || is_digit c) &&
                  sforallb (fun c => is_lower c || is_digit c || is_one_of "_-" c) r
  | EmptyString => false
  end.

(** ** Lists of strings *)

(** Every element as a string, when all are. *)
Fixpoint all_strings (l : list json) : option (list string) :=
  match l with
  | [] => Some []
  | JStr s :: r => cons s <$> all_strings r
  | _ => None
  end.

Definition stringList (v : any) (e : AccessError) : result AccessError (list string) :=
  match v with
  | Some (JArr ((_ :: _) as l)) =>
      let* ss := required (all_strings l) e in
      check (forallb (fun s => truthy_string (trim s)) ss) else e in
      Ok (map trim ss)
  | _ => Throw e
  end.

Definition toolNames (v : any) (e : AccessError) : result AccessError (list string) :=
  match v with
  | Some (JArr l) =>
      let* ss := required (all_strings l) e in
      check (forallb is_tool_name ss) else e in Ok ss
  | _ => Throw e
  end.

(** [new Set(l)] *)
Fixpoint set_add (acc : list string) (l : list string) : list string :=
  match l with
  | [] => acc
  | x :: r => set_add (if mem_string x acc then acc else acc ++ [x]) r
  end.

Definition set_of (l : list string) : list string := set_add [] l.

(** [if (v !== undefined) ... = f(v)] *)
Definition when_present {A} (v : any) (f : any -> result AccessError A)
    : result AccessError (option A) :=
  match v with Some _ => let* a := f v in Ok (Some a) | None => Ok None end.

(** ** MCP servers *)

Definition parse_tools (i : nat) (id : string) (v : any)
    : result AccessError McpGroupToolRule :=
  let* tools := required (object_of v) (tools_not_object i id) in
  let* _ := known_fields ["allow"; "deny"] tools (tools_unknown_key i id) in
  let* allow := when_present (own tools "allow")
                  (fun v => toolNames v (bad_tool_names i id "allow")) in
  let* deny := when_present (own tools "deny")
                 (fun v => toolNames v (bad_tool_names i id "deny")) in
  Ok (mkToolRule (set_of <$> allow) ((fun l => set_of (map toLowerCase l)) <$> deny)).

Definition parse_server (i : nat) (id : string) (rule : json)
    : result AccessError McpGroupToolRule :=
  check (is_server_id id) else bad_server_id i id in
  let* o := required (object_of (Some rule)) (server_not_object i id) in
  let* _ := known_fields ["tools"] o (server_unknown_key i id) in
  match own o "tools" with
  | Some tools => parse_tools i id (Some tools)
  | None => Ok (mkToolRule None None)
  end.

Fixpoint parse_servers (i : nat) (entries : obj json) (servers : obj McpGroupToolRule)
    : result AccessError (obj McpGroupToolRule) :=
  match entries with
  | [] => Ok servers
  | (id, rule) :: rest =>
      let* out := parse_server i id rule in
      parse_servers i rest (obj_put servers id out)
  end.

Definition parseMcpGroupPolicy (i : nat) (raw : any)
    : result AccessError (obj McpGroupToolRule) :=
  let* m := required (object_of raw) (mcp_not_object i) in
  let* _ := known_fields ["servers"] m (mcp_unknown_key i) in
  let* servers := required (object_of (own m "servers")) (servers_not_object i) in
  parse_servers i servers [].

(** ** Groups *)

Definition GROUP_KEYS : list string :=
  ["name"; "match"; "providers"; "models"; "rate_limit"; "mcp"].

Definition parse_per (v : any) : option RateLimitPer :=
  match nullish v (Some (JStr "user")) with
  | Some (JStr s) =>
      if (s =? "user")%string then Some per_user
      else if (s =? "group")%string then Some per_group else None
  | _ => None
  end.

Definition positive_integer (v : any) : option Z :=
  match v with
  | Some (JNum n) => if is_integer_num n && negb (nltb n (num_of_Z 1)) then Some (floor_Z n) else None
  | _ => None
  end.

Definition parse_rate_limit (i : nat) (rl : any) : result AccessError RateLimitRule :=
  let* rpm := required (positive_integer (prop rl "requests_per_minute"))
                (bad_requests_per_minute i) in
  let* per := required (parse_per (prop rl "per")) (bad_per i) in
  Ok (mkLimit rpm per).

(** One element of [groups]; [names] are those of the groups before it. *)
Definition parse_group (i : nat) (names : list string) (v : json)
    : result AccessError PolicyGroup :=
  let* g := required (object_of (Some v)) (group_not_object i) in
  let* _ := known_fields GROUP_KEYS g (group_unknown_key i) in
  let* name := required (as_string (own g "name")) (bad_group_name i) in
  check (is_group_name name) else bad_group_name i in
  check (negb (mem_string name names)) else group_name_twice i name in
  let* match_ := stringList (own g "match") (bad_string_list i "match") in
  let* providers := when_present (own g "providers")
                      (fun v => stringList v (bad_string_list i "providers")) in
  let* models := when_present (own g "models")
                   (fun v => stringList v (bad_string_list i "models")) in
  let* rate_limit := when_present (own g "rate_limit") (parse_rate_limit i) in
  let* mcp := when_present (own g "mcp") (parseMcpGroupPolicy i) in
  Ok (mkGroup name match_ (map toLowerCase <$> providers) models rate_limit mcp).

Fixpoint parse_groups (i : nat) (names : list string) (l : list json)
    : result AccessError (list PolicyGroup) :=
  match l with
  | [] => Ok []
  | v :: r =>
      let* g := parse_group i names v in
      let* gs := parse_groups (S i) (pg_name g :: names) r in
      Ok (g :: gs)
  end.

Definition parse_default (v : any) : option DefaultAction :=
  match nullish v (Some (JStr "deny")) with
  | Some (JStr s) =>
      if (s =? "deny")%string then Some deny
      else if (s =? "allow")%string then Some allow else None
  | _ => None
  end.

Definition parsePolicy (raw : any) : result AccessError OidcPolicy :=
  let* p := required (object_of raw) policy_not_object in
  let* _ := known_fields ["default"; "groups"] p policy_unknown_key in
  let* defaultAction := required (parse_default (own p "default")) bad_default in
  let* groups := required (match own p "groups" with Some (JArr l) => Some l | _ => None end)
                   groups_not_array in
  let* gs := parse_groups 0 [] groups in
  Ok (mkOidcPolicy defaultAction gs).

(** ** What an accepted policy guarantees *)

Definition non_blank (s : string) : Prop := s <> "".

Record ValidTools (r : McpGroupToolRule) : Prop := {
  vt_allow : forall l, mg_allow r = Some l -> NoDup l /\ Forall (fun s => is_tool_name s = true) l;
  vt_deny : forall l, mg_denyLower r = Some l -> NoDup l /\ Forall (fun s => toLowerCase s = s) l
}.

Record ValidGroup (g : PolicyGroup) : Prop := {
  vg_name : is_group_name (pg_name g) = true;
  vg_match : pg_match g <> [] /\ Forall non_blank (pg_match g);
  vg_providers : forall l, pg_providers g = Some l -> l <> [] /\ Forall (fun s => toLowerCase s = s) l;
  vg_models : forall l, pg_models g = Some l -> l <> [] /\ Forall non_blank l;
  vg_rate : forall r, pg_rateLimit g = Some r -> (1 <= rl_requestsPerMinute r)%Z;
  vg_mcp : forall m, pg_mcp g = Some m ->
    Forall (fun p => is_server_id p.1 = true /\ ValidTools p.2) m
}.

Record ValidPolicy (p : OidcPolicy) : Prop := {
  vp_groups : Forall ValidGroup (op_groups p);
  vp_names : NoDup (map pg_name (op_groups p))
}.

Lemma lower_char_idem c : lower_char (lower_char c) = lower_char c.
Proof. by destruct c as [[] [] [] [] [] [] [] []]. Qed.

Lemma toLowerCase_idem s : toLowerCase (toLowerCase s) = toLowerCase s.
Proof. unfold toLowerCase. induction s as [|c s IH]; simpl; [done|]. by rewrite lower_char_idem, IH. Qed.

Lemma lower_list l : Forall (fun s => toLowerCase s = s) (map toLowerCase l).
Proof. induction l; simpl; constructor; auto using toLowerCase_idem. Qed.

Lemma stringList_Ok v e l : stringList v e = Ok l -> l <> [] /\ Forall non_blank l.
Proof.
  unfold stringList. intros H. destruct v as [[| | | |[|x xs]|]|]; try done. run_ok.
  injection H as <-. split.
  - destruct x; try done. simpl in *. by destruct (all_strings xs); simplify_eq/=.
  - rewrite forallb_forall in *. apply Forall_forall. intros s Hs.
    apply list_elem_of_fmap in Hs as (t & -> & Ht%list_elem_of_In).
    match goal with H : forall x, In x _ -> _ |- _ => specialize (H t Ht) end.
    unfold truthy_string in *. split_bool. done.
Qed.

Lemma toolNames_Ok v e l : toolNames v e = Ok l -> Forall (fun s => is_tool_name s = true) l.
Proof.
  unfold toolNames. intros H. destruct v as [[]|]; try done. run_ok. injection H as <-.
  rewrite forallb_forall in *. apply Forall_forall. intros s Hs%list_elem_of_In. auto.
Qed.

Lemma set_add_ok (P : string -> Prop) acc l :
  NoDup acc -> Forall P acc -> Forall P l -> NoDup (set_add acc l) /\ Forall P (set_add acc l).
Proof.
  revert acc. induction l as [|x l IH]; intros acc Hnd Hacc Hl; simpl; [done|].
  apply Forall_cons in Hl as [Hx Hl].
  destruct (mem_string x acc) eqn:Hin; apply IH; try done.
  - apply NoDup_app. split; [done|]. split; [|apply NoDup_singleton].
    intros y Hy Hyx. apply list_elem_of_singleton in Hyx as ->. by apply mem_string_false in Hin.
  - apply Forall_app. by split; [|repeat constructor].
Qed.

Lemma set_of_ok (P : string -> Prop) l : Forall P l -> NoDup (set_of l) /\ Forall P (set_of l).
Proof. intros Hl. apply set_add_ok; [constructor|constructor|done]. Qed.

Lemma when_present_Ok {A} v (f : any -> result AccessError A) o :
  when_present v f = Ok o -> forall a, o = Some a -> f v = Ok a.
Proof.
  unfold when_present. intros H a ->. destruct v; [|done].
  destruct (f _); [|done]. by injection H as ->.
Qed.

Lemma parse_tools_valid i id v r : parse_tools i id v = Ok r -> ValidTools r.
Proof.
  unfold parse_tools. intros H. run_ok. injection H as <-.
  repeat match goal with H : when_present _ _ = Ok _ |- _ =>
    pose proof (when_present_Ok _ _ _ H); clear H end.
  split; simpl; intros l Hl; apply fmap_Some in Hl as (l' & -> & ->).
  - apply set_of_ok. eauto using toolNames_Ok.
  - apply set_of_ok, lower_list.
Qed.

Lemma parse_server_valid i id rule r :
  parse_server i id rule = Ok r -> is_server_id id = true /\ ValidTools r.
Proof.
  unfold parse_server. intros H. destruct (is_server_id id); [|done]. split; [done|]. run_ok.
  destruct (own _ "tools"); [by eapply parse_tools_valid|]. by injection H as <-.
Qed.

Lemma Forall_obj_put {A} (P : string * A -> Prop) (o : obj A) k v :
  Forall P o -> P (k, v) -> Forall P (obj_put o k v).
Proof.
  intros Ho Hv. induction Ho as [|[k' v'] o Hp Ho IH]; simpl; [by repeat constructor|].
  destruct (String.eqb_spec k k') as [->|]; by constructor.
Qed.

Lemma parse_servers_valid i entries servers m :
  Forall (fun p => is_server_id p.1 = true /\ ValidTools p.2) servers ->
  parse_servers i entries servers = Ok m ->
  Forall (fun p => is_server_id p.1 = true /\ ValidTools p.2) m.
Proof.
  revert servers. induction entries as [|[id rule] rest IH]; intros servers Hs; simpl.
  { by intros [= <-]. }
  intros H. run_ok. eapply IH; [|done]. apply Forall_obj_put; [done|].
  by eapply parse_server_valid.
Qed.

Lemma positive_integer_ge v z : positive_integer v = Some z -> (1 <= z)%Z.
Proof.
  unfold positive_integer. destruct v as [[| |n| | |]|]; try done.
  destruct (is_integer_num n) eqn:Hi; [|done]. destruct (nltb n (num_of_Z 1)) eqn:Hn; [done|].
  intros [= <-]. destruct n as [s|s| |[] m e]; try done.
  revert Hi. unfold is_integer_num, ceil_Z, floor_Z. cbn [negb].
  destruct (Z.leb_spec 0 e) as [He|He]; intros Hi; [nia|].
  apply Z.eqb_eq in Hi. assert (Hpow : (0 < 2 ^ (- e))%Z) by (apply Z.pow_pos_nonneg; lia).
  set (d := (2 ^ (- e))%Z) in *. clearbody d.
  pose proof (Z.div_mod (Zpos m) d ltac:(lia)). pose proof (Z.mod_pos_bound (Zpos m) d Hpow).
  pose proof (Z.div_mod (Zneg m) d ltac:(lia)). pose proof (Z.mod_pos_bound (Zneg m) d Hpow).
  nia.
Qed.

Lemma parse_rate_limit_valid i v r : parse_rate_limit i v = Ok r -> (1 <= rl_requestsPerMinute r)%Z.
Proof.
  unfold parse_rate_limit. intros H. run_ok. injection H as <-. simpl.
  eauto using positive_integer_ge.
Qed.

Lemma parse_group_valid i names v g :
  parse_group i names v = Ok g -> ValidGroup g /\ pg_name g ∉ names.
Proof.
  unfold parse_group. intros H. run_ok. injection H as <-.
  repeat match goal with H : when_present _ _ = Ok _ |- _ =>
    pose proof (when_present_Ok _ _ _ H); clear H end.
  split; [split; simpl|simpl; by apply mem_string_false, negb_true_iff].
  - done.
  - eauto using stringList_Ok.
  - intros l Hl. apply fmap_Some in Hl as (l' & -> & ->).
    assert (Hl' : l' <> [] /\ Forall non_blank l') by eauto using stringList_Ok.
    split; [by destruct l', Hl'|apply lower_list].
  - eauto using stringList_Ok.
  - eauto using parse_rate_limit_valid.
  - intros m Hm. subst. match goal with H : forall a, Some m = Some a -> _ |- _ =>
      specialize (H m eq_refl); revert H end.
    unfold parseMcpGroupPolicy. intros H. run_ok. eapply parse_servers_valid; [|done].
    constructor.
Qed.

Lemma parse_groups_valid i names l gs :
  parse_groups i names l = Ok gs ->
  Forall ValidGroup gs /\ NoDup (map pg_name gs) /\ (forall x, x ∈ map pg_name gs -> x ∉ names).
Proof.
  revert i names gs. induction l as [|v l IH]; intros i names gs; simpl.
  { intros [= <-]. split; [constructor|]. split; [constructor|]. by intros x Hx%elem_of_nil. }
  intros H. run_ok. injection H as <-.
  destruct (parse_group_valid _ _ _ _ Heqr) as [Hg Hname].
  destruct (IH _ _ _ Heqr0) as (Hgs & Hnd & Hnames). simpl. split; [by constructor|]. split.
  - constructor; [|done]. intros Hin. apply (Hnames _ Hin). by left.
  - intros x [->|Hx]%elem_of_cons; [done|]. intros Hin. apply (Hnames x Hx). by right.
Qed.

Lemma parsePolicy_valid raw p : parsePolicy raw = Ok p -> ValidPolicy p.
Proof.
  unfold parsePolicy. intros H. run_ok. injection H as <-.
  match goal with H : parse_groups _ _ _ = Ok _ |- _ => apply parse_groups_valid in H as (? & ? & _) end.
  by split.
Qed.

(** ** Buckets of a valid policy *)

Lemma group_name_lacks_newline s : is_group_name s = true -> lacks (ascii_of_N 10) s = true.
Proof.
  unfold is_group_name. intros [_ Hs]%andb_true_iff. by apply (forall_lacks _ _ _ Hs).
Qed.

Lemma same_name_same_group (p : OidcPolicy) g h :
  ValidPolicy p -> g ∈ op_groups p -> h ∈ op_groups p -> pg_name g = pg_name h -> g = h.
Proof.
  intros [_ Hnd] (i & Hi)%list_elem_of_lookup (j & Hj)%list_elem_of_lookup Hname.
  assert (i = j) as ->; [|congruence].
  eapply (NoDup_lookup (map pg_name (op_groups p))); [done| |];
    rewrite list_lookup_fmap; [by rewrite Hi|by rewrite Hj, Hname].
Qed.

(** A bucket belongs to one group, and under a per-user limit to one user. *)
Lemma bucket_key_inj (p : OidcPolicy) g h r r' s s' :
  ValidPolicy p -> g ∈ op_groups p -> h ∈ op_groups p ->
  pg_rateLimit g = Some r -> pg_rateLimit h = Some r' ->
  bucket_key g r s = bucket_key h r' s' -> g = h /\ (rl_per r = per_user -> s = s').
Proof.
  intros Hp Hg Hh Hr Hr' Hkey.
  pose proof (vp_groups _ Hp) as Hall. rewrite Forall_forall in Hall.
  pose proof (group_name_lacks_newline _ (vg_name _ (Hall g Hg))) as Hlg.
  pose proof (group_name_lacks_newline _ (vg_name _ (Hall h Hh))) as Hlh.
  unfold bucket_key, newline in Hkey. destruct (rl_per r) eqn:Hper, (rl_per r'); simpl in Hkey; try done.
  - injection Hkey as Hkey. destruct (split_at_sep _ _ _ _ _ Hlg Hlh Hkey) as [Hname ->].
    split; [by apply (same_name_same_group p)|done].
  - apply append_cancel, append_cancel in Hkey as Hname. split; [by apply (same_name_same_group p)|done].
Qed.

Lemma matchGroup_elem p gs g : matchGroup p gs = Some g -> g ∈ op_groups p.
Proof. unfold matchGroup. intros [H _]%find_some. by apply list_elem_of_In. Qed.

(** ** Properties *)

(** Every accepted access policy is well formed: groups have distinct
    names of the allowed characters, at least one match value, allowlists that
    are not empty, providers in lower case, a limit of at least one call per
    minute, and MCP rules with valid server ids and tool names. *)
Theorem parsed_access_policy_valid raw p : parsePolicy raw = Ok p -> ValidPolicy p.
Proof. apply parsePolicy_valid. Qed.

(** [C37] Under an accepted policy the rate limit holds for every group and
    user: whatever calls users matched to its groups make, in whatever order, as long
    as the clock does not go back and all the calls together have at most
    [MAX_BUCKETS] (50,000) distinct buckets, a group's per-user limit bounds each
    user's calls in a window and a shared limit bounds the group's.  (With more
    buckets than the map holds, live ones are forgotten: [full_map_forgets].) *)
Theorem access_policy_limits_calls raw p g rule subject ks calls w :
  parsePolicy raw = Ok p ->
  g ∈ op_groups p -> pg_rateLimit g = Some rule ->
  (Z.of_nat (length ks) <= MAX_BUCKETS)%Z -> chronological 0 calls ->
  (forall c, c ∈ calls -> exists groups, matchGroup p groups = Some (ca_group c)) ->
  (forall c k, c ∈ calls -> call_key c = Some k -> k ∈ ks) ->
  (granted MAX_BUCKETS (bucket_key g rule subject) w calls [] <= rl_requestsPerMinute rule)%Z.
Proof.
  intros Hp%parsePolicy_valid Hg Hrule Hks Hchron Hcalls Hkeys.
  pose proof (vp_groups _ Hp) as Hall. rewrite Forall_forall in Hall.
  pose proof (vg_rate _ (Hall g Hg) rule Hrule) as Hpos.
  pose proof (granted_bounded MAX_BUCKETS ks (bucket_key g rule subject)
    (rl_requestsPerMinute rule) calls w Hks 0%Z [] (fun _ => 0%Z)) as H.
  apply H; try done.
  - split; [constructor|]. by intros k Hk%elem_of_nil.
  - intros c Hc Hkey. destruct (Hcalls c Hc) as (groups & Hin%matchGroup_elem).
    unfold call_key, call_limit in *. apply fmap_Some in Hkey as (r' & Hr' & Hkey).
    destruct (bucket_key_inj p g (ca_group c) rule r' subject (ca_subject c) Hp Hg Hin Hrule Hr' Hkey)
      as [Heq _]. by rewrite <- Heq, Hrule.
  - split; [intros; lia|]. by intros.
Qed.

(** ** A concrete policy *)

Definition sample_raw : any :=
  Some (JObj [("groups", JArr [
    JObj [("name", JStr "eng"); ("match", JArr [JStr " engineering "]);
          ("providers", JArr [JStr "OpenAI"]); ("models", JArr [JStr "gpt-*"]);
          ("rate_limit", JObj [("requests_per_minute", JNum (num_of_Z 2))]);
          ("mcp", JObj [("servers", JObj [("docs", JObj [("tools",
             JObj [("allow", JArr [JStr "search"; JStr "search"]); ("deny", JArr [JStr "Drop"])])])])])];
    JObj [("name", JStr "all"); ("match", JArr [JStr "everyone"])]])]).

Definition sample_group : PolicyGroup :=
  mkGroup "eng" ["engineering"] (Some ["openai"]) (Some ["gpt-*"]) (Some (mkLimit 2 per_user))
    (Some [("docs", mkToolRule (Some ["search"]) (Some ["drop"]))]).

Definition sample_policy : OidcPolicy :=
  mkOidcPolicy deny [sample_group; mkGroup "all" ["everyone"] None None None None].

Example parse_sample : parsePolicy sample_raw = Ok sample_policy.
Proof. vm_compute. reflexivity. Qed.

Example parse_twice :
  parsePolicy (Some (JObj [("groups", JArr [
    JObj [("name", JStr "a"); ("match", JArr [JStr "x"])];
    JObj [("name", JStr "a"); ("match", JArr [JStr "y"])]])])) = Throw (group_name_twice 1 "a").
Proof. vm_compute. reflexivity. Qed.

Lemma parsed_access_policy_valid_witness : ValidPolicy sample_policy.
Proof. apply (parsed_access_policy_valid sample_raw). vm_compute. reflexivity. Defined.

Lemma access_policy_limits_calls_witness :
  (granted MAX_BUCKETS (bucket_key sample_group (mkLimit 2 per_user) "u1") 0
     (map (fun t => mkCall t sample_group "u1") [1000; 2000; 3000]%Z) [] <= 2)%Z.
Proof.
  apply (access_policy_limits_calls sample_raw sample_policy sample_group (mkLimit 2 per_user) "u1"
    [bucket_key sample_group (mkLimit 2 per_user) "u1"]).
  - vm_compute. reflexivity.
  - by left.
  - reflexivity.
  - vm_compute. discriminate.
  - simpl. lia.
  - intros c Hc. exists ["engineering"].
    repeat (apply elem_of_cons in Hc as [->|Hc]; [vm_compute; reflexivity|]).
    by apply elem_of_nil in Hc.
  - intros c k Hc. repeat (apply elem_of_cons in Hc as [->|Hc]; [intros [= <-]; by left|]).
    by apply elem_of_nil in Hc.
Defined.

(** A full map forgets its oldest buckets, those of the window included: the call of
    another user lets the first one start again (here with a map of one bucket). *)
Example full_map_forgets :
  granted 1 (bucket_key sample_group (mkLimit 2 per_user) "u1") 0
    (map (mkCall 1000 sample_group) ["u1"; "u1"; "u1"; "u2"; "u1"; "u1"]) [] = 4%Z.
Proof. vm_compute. reflexivity. Qed.
