(* ===== verification/PolicyBundle.v ===== *)
(** * The central policy bundle

    Models [src/gateway/src/middlewares/policyPull/state.ts]: the validation of a
    ps-policy-bundle.v1 document into the central policy, all or nothing, and
    which route policy and version are in force.  An error of a section carries
    the section's own error.  [ENFORCED_SECTIONS] is an ordinary object, so a
    section named like a property every object inherits is not unknown: looking
    up its versions runs into a [TypeError] ([inherited_section]). *)

From Stdlib Require Import ZArith Lia ZifyBool Ascii Floats.SpecFloat.
From stdpp Require Import base strings option sets list.
From S2P Require Import Prelude JsValue RoutePolicy Constraints JsonSchema PolicyDoc.
From S2P Require Import GroupPolicy AccessPolicy.

#[local] Open Scope string_scope.
#[local] Open Scope list_scope.
#[local] Arguments num_of_Z : simpl never.

Inductive SectionError :=
| route_error (e : PolicyError)
| access_error (e : AccessError).

Inductive BundleError :=
| bad_schema
| effective_not_object (at_ : Path)
| bad_version (at_ : Path)
| sections_not_object (at_ : Path)
| unsupported_version (at_ : Path) (section : string)
| invalid_section (at_ : Path) (section : string) (e : SectionError)
| inherited_section (at_ : Path) (section : string)
| entries_not_object (key : string).

Record ParsedSections := mkSections {
  ps_route : option RoutePolicy;
  ps_access : option OidcPolicy;
  ps_ignored : list string
}.

Record CentralPolicy := mkCentral {
  cp_version : option string;
  cp_etag : option string;
  cp_route : option RoutePolicy;
  cp_access : option OidcPolicy;
  cp_ignored : list string;
  cp_teams : nat;
  cp_projects : nat
}.

Definition BUNDLE_SCHEMA : string := "ps-policy-bundle.v1".

Definition ENFORCED_SECTIONS : list string := ["route"; "access"].

(** The names [Object.prototype] gives every object. *)
Definition OBJECT_PROTOTYPE_NAMES : list string :=
  ["constructor"; "hasOwnProperty"; "isPrototypeOf"; "propertyIsEnumerable"; "toLocaleString";
   "toString"; "valueOf"; "__proto__"; "__defineGetter__"; "__defineSetter__";
   "__lookupGetter__"; "__lookupSetter__"].

(** [isObject(body) && [1].includes(body.version)] *)
Definition supported_version (body : json) : bool :=
  match body with
  | JObj o => match own o "version" with Some (JNum n) => neqb n (num_of_Z 1) | _ => false end
  | _ => false
  end.

Definition with_version (version : option string) (p : RoutePolicy) : RoutePolicy :=
  if truthy_opt version then
    mkPolicy version (rp_defaultGroup p) (rp_groups p) (rp_qualityToGroup p) (rp_groupOrder p)
      (rp_strategy p) (rp_sensitivity p) (rp_dataPolicy p) (rp_useCases p)
  else p.

(** [const { version: _v, ...rest } = body] *)
Definition without_version (body : json) : json :=
  match body with JObj o => JObj (map_delete o "version") | _ => body end.

Definition parse_section (at_ : Path) (version : option string) (out : ParsedSections)
    (name : string) (body : json) : result BundleError ParsedSections :=
  if negb (mem_string name ENFORCED_SECTIONS) then
    if mem_string name OBJECT_PROTOTYPE_NAMES then Throw (inherited_section at_ name)
    else Ok (mkSections (ps_route out) (ps_access out) (ps_ignored out ++ [name]))
  else
  check (supported_version body) else unsupported_version at_ name in
  if (name =? "route")%string then
    match parseRoutePolicyDoc (prop (Some body) "policy") with
    | Ok route => Ok (mkSections (Some (with_version version route)) (ps_access out) (ps_ignored out))
    | Throw e => Throw (invalid_section at_ name (route_error e))
    end
  else
    match parsePolicy (Some (without_version body)) with
    | Ok access => Ok (mkSections (ps_route out) (Some access) (ps_ignored out))
    | Throw e => Throw (invalid_section at_ name (access_error e))
    end.

Fixpoint parse_sections (at_ : Path) (version : option string) (out : ParsedSections)
    (sections : obj json) : result BundleError ParsedSections :=
  match sections with
  | [] => Ok out
  | (name, body) :: rest =>
      let* out := parse_section at_ version out name body in
      parse_sections at_ version out rest
  end.

(** A version is a string, null or missing. *)
Definition version_of (v : any) : option (option string) :=
  match v with
  | None | Some JNull => Some None
  | Some (JStr s) => Some (Some s)
  | _ => None
  end.

Definition parseEffective (at_ : Path) (raw : any) : result BundleError ParsedSections :=
  check is_object raw else effective_not_object at_ in
  let* version := required (version_of (prop raw "version")) (bad_version at_) in
  let* sections := required (object_of (prop raw "sections")) (sections_not_object at_) in
  parse_sections at_ version (mkSections None None []) sections.

Fixpoint parse_entries (key : string) (entries : obj json) : result BundleError nat :=
  match entries with
  | [] => Ok O
  | (id, eff) :: rest =>
      let* _ := parseEffective [Key key; Key id] (Some eff) in
      let* n := parse_entries key rest in
      Ok (S n)
  end.

(** [raw[key] ?? {}] *)
Definition scope_entries (raw : any) (key : string) : any := nullish (prop raw key) (Some (JObj [])).

Definition parse_scope (raw : any) (key : string) : result BundleError nat :=
  let* entries := required (object_of (scope_entries raw key)) (entries_not_object key) in
  parse_entries key entries.

Definition parsePolicyBundle (raw : any) (etag : option string) : result BundleError CentralPolicy :=
  check is_object raw else bad_schema in
  check (bool_decide (as_string (prop raw "schema") = Some BUNDLE_SCHEMA)) else bad_schema in
  let* tenant := parseEffective [Key "tenant"] (prop raw "tenant") in
  let* teams := parse_scope raw "teams" in
  let* projects := parse_scope raw "projects" in
  Ok (mkCentral (as_string (prop (prop raw "tenant") "version")) etag (ps_route tenant)
        (ps_access tenant) (ps_ignored tenant) teams projects).

(** ** The policy in force *)

Definition activeRoutePolicy (active : option CentralPolicy) (loaded : option RoutePolicy)
    : option RoutePolicy :=
  match active with
  | Some c => match cp_route c with Some r => Some r | None => loaded end
  | None => loaded
  end.

Definition activePolicyVersion (active : option CentralPolicy) (loaded : option RoutePolicy)
    : option string :=
  match active with
  | Some c => match cp_version c with Some v => Some v | None => p ← loaded; rp_policyVersion p end
  | None => p ← loaded; rp_policyVersion p
  end.

Definition centralAccessPolicy (active : option CentralPolicy) : option OidcPolicy :=
  c ← active; cp_access c.

(** ** Theorems *)

(** The sections taken from an entry are valid policies; a non-empty version
    names the route policy. *)
Definition sections_ok (version : option string) (s : ParsedSections) : Prop :=
  (forall r, ps_route s = Some r -> policy_ok r /\
     (truthy_opt version = true -> rp_policyVersion r = version)) /\
  (forall a, ps_access s = Some a -> ValidPolicy a).

(** An enforced section that validates. *)
Definition section_valid (name : string) (body : json) : Prop :=
  supported_version body = true /\
  (name = "route" -> exists r, parseRoutePolicyDoc (prop (Some body) "policy") = Ok r) /\
  (name = "access" -> exists a, parsePolicy (Some (without_version body)) = Ok a).

Lemma with_version_ok version p :
  policy_ok p -> policy_ok (with_version version p) /\
    (truthy_opt version = true -> rp_policyVersion (with_version version p) = version).
Proof.
  unfold with_version. intros Hp. destruct (truthy_opt version); [|done].
  split; [|done]. by destruct Hp.
Qed.

Lemma parse_policy_ok doc p : parseRoutePolicyDoc doc = Ok p -> policy_ok p.
Proof. intros (o & _ & Hdoc & Hcross)%parse_Ok. by apply (consistent_policy_ok (JObj o)). Qed.

Lemma parse_section_ok at_ version out name body s :
  sections_ok version out -> parse_section at_ version out name body = Ok s ->
  sections_ok version s /\ (name ∈ ENFORCED_SECTIONS -> section_valid name body).
Proof.
  unfold parse_section. intros [Hroute Haccess].
  destruct (mem_string name ENFORCED_SECTIONS) eqn:Hname; cbn [negb].
  2:{ destruct (mem_string name OBJECT_PROTOTYPE_NAMES); [done|]. intros Hs. injection Hs as <-.
      split; [done|]. intros H%mem_string_In. congruence. }
  destruct (supported_version body) eqn:Hv; [|done].
  apply mem_string_In in Hname. destruct (String.eqb_spec name "route") as [->|Hne].
  - destruct (parseRoutePolicyDoc _) as [r|] eqn:Hr; [|done]. intros [= <-].
    split; [|intros _; split; [done|]; by split; [eexists|]].
    split; simpl; [|done]. intros r' [= <-]. by apply with_version_ok, (parse_policy_ok _ _ Hr).
  - destruct (parsePolicy _) as [a|] eqn:Ha; [|done]. intros [= <-].
    split; [|intros _; split; [done|]; by split; [|eexists]].
    split; simpl; [done|]. intros a' [= <-]. by apply (parsePolicy_valid _ _ Ha).
Qed.

Lemma parse_sections_ok at_ version out sections s :
  sections_ok version out -> parse_sections at_ version out sections = Ok s ->
  sections_ok version s /\
  (forall name body, (name, body) ∈ sections -> name ∈ ENFORCED_SECTIONS -> section_valid name body).
Proof.
  revert out. induction sections as [|[name body] rest IH]; intros out Hout; simpl.
  { intros [= <-]. split; [done|]. by intros ? ? ?%elem_of_nil. }
  destruct (parse_section at_ version out name body) as [out'|] eqn:Hsec; [|done]. intros Hrest.
  destruct (parse_section_ok _ _ _ _ _ _ Hout Hsec) as [Hout' Hvalid].
  destruct (IH out' Hout' Hrest) as [Hs Hall]. split; [done|].
  intros n b [[= -> ->]|Hin]%elem_of_cons; [done|]. by apply Hall.
Qed.

(** An effective policy that validates: every enforced section of it does. *)
Definition effective_valid (eff : any) : Prop :=
  exists sections, prop eff "sections" = Some (JObj sections) /\
    forall name body, (name, body) ∈ sections -> name ∈ ENFORCED_SECTIONS -> section_valid name body.

Lemma parseEffective_ok at_ raw s :
  parseEffective at_ raw = Ok s ->
  effective_valid raw /\ sections_ok (as_string (prop raw "version")) s.
Proof.
  unfold parseEffective. destruct (is_object raw); [|done]. intros H. run_ok.
  destruct (prop raw "sections") as [[| | | | |o]|] eqn:Hsec; try done.
  match goal with H : object_of _ = Some _ |- _ => injection H as <- end.
  apply parse_sections_ok in H as [Hs Hall]; [|by split].
  split; [by exists o|]. unfold version_of in *.
  destruct (prop raw "version") as [[]|]; simplify_eq/=; done.
Qed.

Lemma parse_entries_ok key entries n :
  parse_entries key entries = Ok n ->
  n = length entries /\ forall id eff, (id, eff) ∈ entries -> effective_valid (Some eff).
Proof.
  revert n. induction entries as [|[id eff] rest IH]; intros n; simpl.
  { intros [= <-]. split; [done|]. by intros ? ? ?%elem_of_nil. }
  intros H. run_ok. injection H as <-. destruct (IH _ eq_refl) as [-> Hall]. split; [done|].
  intros i e [[= -> ->]|Hin]%elem_of_cons; [|by eapply Hall].
  by eapply parseEffective_ok.
Qed.

Lemma parse_scope_ok raw key n :
  parse_scope raw key = Ok n ->
  n = length (entries_of (prop raw key)) /\
  forall id eff, (id, eff) ∈ entries_of (prop raw key) -> effective_valid (Some eff).
Proof.
  unfold parse_scope, scope_entries. intros H. run_ok. apply parse_entries_ok in H.
  destruct (prop raw key) as [[]|]; simplify_eq/=; done.
Qed.

(** A bundle is accepted all or nothing: when one is, its route policy is
    one the router can rely on and carries the tenant's version, its access
    policy is valid, and every enforced section of the tenant, of every team
    and of every project is of a supported version and validates on its own;
    the counts are those of the document. *)
Theorem bundle_all_or_nothing raw etag c :
  parsePolicyBundle raw etag = Ok c ->
  (forall r, cp_route c = Some r ->
     policy_ok r /\ (truthy_opt (cp_version c) = true -> rp_policyVersion r = cp_version c)) /\
  (forall a, cp_access c = Some a -> ValidPolicy a) /\
  effective_valid (prop raw "tenant") /\
  (forall key id eff, key ∈ ["teams"; "projects"] -> (id, eff) ∈ entries_of (prop raw key) ->
     effective_valid (Some eff)) /\
  cp_teams c = length (entries_of (prop raw "teams")) /\
  cp_projects c = length (entries_of (prop raw "projects")).
Proof.
  unfold parsePolicyBundle. intros H. run_ok. injection H as <-. simpl.
  match goal with H : parseEffective _ _ = Ok _ |- _ => apply parseEffective_ok in H as [? [? ?]] end.
  repeat match goal with H : parse_scope _ _ = Ok _ |- _ => apply parse_scope_ok in H as [-> ?] end.
  repeat (split; [done|]). split; [|done].
  intros key id eff [->|Hkey]%elem_of_cons Hin; [eauto|].
  apply list_elem_of_singleton in Hkey as ->. eauto.
Qed.

(** The route policy in force can be relied on whatever bundle and file
    were accepted: a central route section wins over the file, and without one
    the file's policy stays in force. *)
Theorem active_route_policy_ok raw etag c doc file p :
  parsePolicyBundle raw etag = Ok c -> parseRoutePolicyDoc doc = Ok file ->
  activeRoutePolicy (Some c) (Some file) = Some p ->
  policy_ok p /\ (cp_route c = Some p \/ (cp_route c = None /\ p = file)).
Proof.
  intros Hc Hfile%parse_policy_ok. unfold activeRoutePolicy. revert Hc.
  unfold parsePolicyBundle. intros H. run_ok. injection H as <-. simpl.
  match goal with H : parseEffective _ _ = Ok _ |- _ => apply parseEffective_ok in H as [_ [Hroute _]] end.
  destruct (ps_route _) as [r|]; intros [= <-]; [|naive_solver].
  split; [by apply Hroute|by left].
Qed.

(** ** A concrete bundle *)

Definition sample_bundle : json :=
  JObj [("schema", JStr BUNDLE_SCHEMA);
    ("tenant", JObj [("version", JStr "default@3"); ("sections", JObj [
      ("route", JObj [("version", JNum (num_of_Z 1)); ("policy", example_doc)]);
      ("access", JObj [("version", JNum (num_of_Z 1)); ("groups", JArr [])]);
      ("retention", JObj [])])]);
    ("teams", JObj [("t1", JObj [("sections", JObj [])])])].

Definition sample_central : CentralPolicy :=
  mkCentral (Some "default@3") (Some "e1") (Some (with_version (Some "default@3") example_policy))
    (Some (mkOidcPolicy deny [])) ["retention"] 1 0.

Example parse_bundle : parsePolicyBundle (Some sample_bundle) (Some "e1") = Ok sample_central.
Proof. vm_compute. reflexivity. Qed.

(** A team's bad section refuses the whole bundle. *)
Example parse_bad_team :
  parsePolicyBundle (Some (JObj [("schema", JStr BUNDLE_SCHEMA);
    ("tenant", JObj [("sections", JObj [])]);
    ("teams", JObj [("t1", JObj [("sections", JObj [("access",
       JObj [("version", JNum (num_of_Z 2))])])])])])) None
  = Throw (unsupported_version [Key "teams"; Key "t1"] "access").
Proof. vm_compute. reflexivity. Qed.

Lemma bundle_all_or_nothing_witness :
  ValidPolicy (mkOidcPolicy deny []) /\ effective_valid (prop (Some sample_bundle) "tenant").
Proof.
  destruct (bundle_all_or_nothing (Some sample_bundle) (Some "e1") sample_central)
    as (_ & Haccess & Htenant & _); [vm_compute; reflexivity|].
  split; [by apply Haccess|exact Htenant].
Defined.

Lemma active_route_policy_ok_witness :
  policy_ok (with_version (Some "default@3") example_policy).
Proof.
  apply (active_route_policy_ok (Some sample_bundle) (Some "e1") sample_central (Some example_doc)
    example_policy (with_version (Some "default@3") example_policy)); vm_compute; reflexivity.
Defined.
