(* ===== verification/TelemetrySender.v ===== *)
(** * Delivery of telemetry events

    Models [src/gateway/src/middlewares/psTelemetrySender.ts]: the sender's
    fields, the batch bodies and their loss accounting, retries, the back-off
    queue and its drain loop, and shutdown.

    The sender is a step system.  What one function runs between two awaits is
    one step, and the promises it waits for are the state of its continuation:
    [threads] holds, for every running [process(item)], what it waits for;
    [drain] holds the drain loop, with the items its workers are processing and
    the workers whose [process] call has returned.  A step takes the reading of
    the clock it makes and what the promise was settled with.  A timer may fire
    at any step: nothing proved depends on how long it took. *)

From Stdlib Require Import ZArith Lia ZifyBool Ascii Floats.SpecFloat Sorting.Sorted.
From stdpp Require Import base strings option gmap sets list.
From S2P Require Import Prelude Transitions JsValue BudgetKeys JsText.

#[local] Open Scope string_scope.
#[local] Open Scope list_scope.
#[local] Open Scope nat_scope.
#[local] Arguments num_of_Z : simpl never.

(** ** Constants and options *)

Inductive DropReason :=
| buffer_overflow | send_failed | rate_limited | server_skipped
| dropped_at_shutdown | serialization_failed.

#[export] Instance DropReason_eq_dec : EqDecision DropReason.
Proof. solve_decision. Defined.

Definition DROP_REASONS : list DropReason :=
  [buffer_overflow; send_failed; rate_limited; server_skipped; dropped_at_shutdown;
   serialization_failed].

Definition reason_name (r : DropReason) : string :=
  match r with
  | buffer_overflow => "buffer_overflow"
  | send_failed => "send_failed"
  | rate_limited => "rate_limited"
  | server_skipped => "server_skipped"
  | dropped_at_shutdown => "shutdown"
  | serialization_failed => "serialization_failed"
  end.

Definition SDK_NAME : string := "gateway".
Definition DEFAULT_MAX_PENDING : Z := 1000.
Definition DEFAULT_MAX_ATTEMPTS : Z := 3.
Definition DEFAULT_RETRY_BASE_MS : Z := 200.
Definition MAX_RETRY_AFTER_MS : Z := 300000.
Definition DEFAULT_RETRY_AFTER_MS : Z := 1000.
Definition DEFAULT_SHUTDOWN_TIMEOUT_MS : Z := 5000.
Definition DRAIN_CONCURRENCY : nat := 8.

(** [SenderOptions]; [fetch] and [sleep] are what the steps' promises are. *)
Record SenderOptions := mkOptions {
  url : string;
  apiKey : string;
  maxPending : Z;
  maxAttempts : Z;
  retryBaseMs : Z;
  shutdownTimeoutMs : Z
}.

(** The constructor: at least one attempt is made. *)
Definition constructor (url apiKey : string) (pending attempts base shutdown : option Z)
    : SenderOptions :=
  mkOptions url apiKey
    (default DEFAULT_MAX_PENDING pending)
    (Z.max 1 (default DEFAULT_MAX_ATTEMPTS attempts))
    (default DEFAULT_RETRY_BASE_MS base)
    (default DEFAULT_SHUTDOWN_TIMEOUT_MS shutdown).

(** The text of a decimal number without sign or exponent,
    [/^\d+(\.\d+)?$/]. *)
Definition decimal_text (s : string) : bool :=
  truthy_string (take_while is_digit s) &&
  match drop_while is_digit s with
  | EmptyString => true
  | String c t => Ascii.eqb c "."%char && truthy_string t && sforallb is_digit t
  end.

(** [Date.parse] is the language's; NaN when it cannot read the text. *)
Definition parseRetryAfterMs (date_parse : string -> num) (now : num) (value : option string)
    : option num :=
  match value with
  | None => None
  | Some v =>
      if truthy_string v then
        let trimmed := trim v in
        let clamp ms := nmin (nmax ms nzero) (num_of_Z MAX_RETRY_AFTER_MS) in
        if decimal_text trimmed
        then Some (clamp (nmul (parse_float trimmed) (num_of_Z 1000)))
        else let when := date_parse trimmed in
             if is_nan when then None else Some (clamp (nsub when now))
      else None
  end.

Definition to_number_opt (raw : option string) : num :=
  match raw with Some s => to_number s | None => NaN end.

Definition positiveInt (raw : option string) (fallback : Z) : Z :=
  let n := to_number_opt raw in
  if is_integer_num n && nltb nzero n then floor_Z n else fallback.

Definition nonNegativeInt (raw : option string) (fallback : Z) : Z :=
  match raw with
  | None => fallback
  | Some s =>
      if (trim s =? "")%string then fallback
      else let n := to_number s in
           if is_integer_num n && nleb nzero n then floor_Z n else fallback
  end.

(** [s.replace(/\/+$/, '')] *)
Definition strip_slashes (s : string) : string :=
  srev (drop_while (Ascii.eqb "/"%char) (srev s)).

Definition or_string (o : option string) (d : string) : string :=
  match o with Some s => if truthy_string s then s else d | None => d end.

Definition fromEnv (env : string -> option string) (path : string) : SenderOptions :=
  constructor
    (strip_slashes (or_string (env "PS_COLLECTOR_URL") "http://localhost:8000") +:+ path)
    (or_string (env "PS_API_KEY") "")
    (Some (positiveInt (env "PS_TELEMETRY_MAX_PENDING") DEFAULT_MAX_PENDING))
    (Some (positiveInt (env "PS_TELEMETRY_MAX_ATTEMPTS") DEFAULT_MAX_ATTEMPTS))
    (Some (positiveInt (env "PS_TELEMETRY_RETRY_BASE_MS") DEFAULT_RETRY_BASE_MS))
    (Some (nonNegativeInt (env "PS_TELEMETRY_SHUTDOWN_TIMEOUT_MS") DEFAULT_SHUTDOWN_TIMEOUT_MS)).

(** Rows a 2xx response says it skipped; [None] when its body is not JSON. *)
Definition skippedOf (body : option any) : nat :=
  match body with
  | None => 0
  | Some v =>
      match as_num (prop v "skipped") with
      | Some n => if is_integer_num n then Z.to_nat (Z.max 0 (Z.min (floor_Z n) 1)) else 0
      | None => 0
      end
  end.

Section Sender.
Context {event : Type}.

(** [JSON.stringify] of the body does not throw on this event. *)
Variable serializable : event -> bool.
Variable isSafeUpstreamURL : string -> bool.
Variable date_parse : string -> num.
Variable opts : SenderOptions.

(** ** State *)

Inductive Outcome :=
| Delivered (skipped : nat)
| Failed (reason : DropReason) (final : bool).

Record Pending := mkPending {
  it_event : event;
  it_attempts : nat;
  it_settled : bool
}.

(** What a running [process(item)] waits for: the response of its request, the
    response's body, the result of [attempt], or the retry delay. *)
Inductive Waits :=
| Fetching
| Reading
| Returned (o : Outcome)
| Sleeping (ms : Z).

(** The drain loop: not running; in [waitForResume] since [pauses] was [seen];
    or waiting for its workers. *)
Inductive Drain :=
| D_idle
| D_wait (seen : nat) (ms : num)
| D_work (busy : gset nat) (ready : nat).

(** The body of one request. *)
Record Batch := mkBatch {
  b_event : event;
  b_seq : nat;
  b_enqueued_total : nat;
  b_dropped : list (string * nat)
}.

Record sender := mkSender {
  seq_ : nat;
  enqueued : nat;
  sent : nat;
  dropped : DropReason -> nat;
  backlogReason : option DropReason;
  nextId : nat;
  live : gset nat;
  queue : list nat;
  paused : bool;
  resumeAt : num;
  pauses : nat;
  drain : Drain;
  closed : bool;
  shutdowns : nat;
  warnedUnsafe : bool;
  items : gmap nat Pending;
  threads : gmap nat Waits;
  requests : list Batch
}.

Definition eta (s : sender) : sender :=
  mkSender (seq_ s) (enqueued s) (sent s) (dropped s) (backlogReason s) (nextId s) (live s)
    (queue s) (paused s) (resumeAt s) (pauses s) (drain s) (closed s) (shutdowns s)
    (warnedUnsafe s) (items s) (threads s) (requests s).

Definition set_seq (v : nat) (s : sender) : sender := ltac:(set_field eta s seq_ v).
Definition set_enqueued (v : nat) (s : sender) : sender := ltac:(set_field eta s enqueued v).
Definition set_sent (v : nat) (s : sender) : sender := ltac:(set_field eta s sent v).
Definition set_dropped (v : DropReason -> nat) (s : sender) : sender :=
  ltac:(set_field eta s dropped v).
Definition set_backlog (v : option DropReason) (s : sender) : sender :=
  ltac:(set_field eta s backlogReason v).
Definition set_nextId (v : nat) (s : sender) : sender := ltac:(set_field eta s nextId v).
Definition set_live (v : gset nat) (s : sender) : sender := ltac:(set_field eta s live v).
Definition set_queue (v : list nat) (s : sender) : sender := ltac:(set_field eta s queue v).
Definition set_paused (v : bool) (s : sender) : sender := ltac:(set_field eta s paused v).
Definition set_resumeAt (v : num) (s : sender) : sender := ltac:(set_field eta s resumeAt v).
Definition set_pauses (v : nat) (s : sender) : sender := ltac:(set_field eta s pauses v).
Definition set_drain (v : Drain) (s : sender) : sender := ltac:(set_field eta s drain v).
Definition set_closed (v : bool) (s : sender) : sender := ltac:(set_field eta s closed v).
Definition set_shutdowns (v : nat) (s : sender) : sender := ltac:(set_field eta s shutdowns v).
Definition set_warned (v : bool) (s : sender) : sender := ltac:(set_field eta s warnedUnsafe v).
Definition set_items (v : gmap nat Pending) (s : sender) : sender := ltac:(set_field eta s items v).
Definition set_threads (v : gmap nat Waits) (s : sender) : sender :=
  ltac:(set_field eta s threads v).
Definition set_requests (v : list Batch) (s : sender) : sender :=
  ltac:(set_field eta s requests v).

Definition new_sender : sender :=
  mkSender 0 0 0 (fun _ => 0) None 0 ∅ [] false nzero 0 D_idle false 0 false ∅ ∅ [].

Definition dropped_total (s : sender) : nat := sum_list_with (dropped s) DROP_REASONS.

(** [stats()] *)
Record SenderStats := mkStats {
  st_enqueued : nat;
  st_sent : nat;
  st_pending : nat;
  st_queued : nat;
  st_retry_after_ms : num;
  st_dropped : DropReason -> nat;
  st_dropped_total : nat
}.

Definition stats (now : num) (s : sender) : SenderStats :=
  mkStats (enqueued s) (sent s) (size (live s)) (length (queue s))
    (if paused s then nmax nzero (nsub (resumeAt s) now) else nzero)
    (dropped s) (dropped_total s).

(** ** Private methods *)

Definition drop (reason : DropReason) (n : nat) (s : sender) : sender :=
  set_dropped (fun r => if decide (r = reason) then dropped s r + n else dropped s r) s.

Definition settled_of (s : sender) (id : nat) : bool :=
  match items s !! id with Some it => it_settled it | None => true end.

Definition mark_settled (it : Pending) : Pending := mkPending (it_event it) (it_attempts it) true.
Definition count_attempt (it : Pending) : Pending :=
  mkPending (it_event it) (S (it_attempts it)) (it_settled it).

Definition settle (id : nat) (s : sender) : sender :=
  if settled_of s id then s
  else set_live (live s ∖ {[id]}) (set_items (alter mark_settled id (items s)) s).

Definition pause (now delayMs : num) (s : sender) : sender :=
  set_resumeAt (nadd now delayMs) (set_pauses (S (pauses s)) (set_paused true s)).

(** [body([event])]: the next sequence number is taken only on success. *)
Definition body (e : event) (s : sender) : option Batch :=
  if serializable e then
    Some (mkBatch e (S (seq_ s)) (enqueued s)
      (map (fun r => (reason_name r, dropped s r))
        (List.filter (fun r => negb (dropped s r =? 0)) DROP_REASONS)))
  else None.

(** The part of [attempt] before the request is sent; [process] then waits. *)
Definition attempt (id : nat) (s : sender) : sender :=
  let wait w s := set_threads (<[id := w]> (threads s)) s in
  match items s !! id with
  | None => s
  | Some it =>
      if negb (isSafeUpstreamURL (url opts))
      then wait (Returned (Failed send_failed true)) (set_warned true s)
      else match body (it_event it) s with
           | None => wait (Returned (Failed serialization_failed true)) s
           | Some b => wait Fetching (set_requests (requests s ++ [b]) (set_seq (b_seq b) s))
           end
  end.

(** What the request of [attempt] is settled with. *)
Inductive Response :=
| Responded (ok : bool) (status : Z) (retry_after : option string)
| Rejected.

(** The part of [attempt] after the request. *)
Definition attempt_settled (now : num) (id : nat) (r : Response) (s : sender) : sender :=
  let wait w s := set_threads (<[id := w]> (threads s)) s in
  match r with
  | Responded true _ _ => wait Reading s
  | Responded false status retry_after =>
      if (status =? 429)%Z then
        wait (Returned (Failed rate_limited false))
          (pause now (default (num_of_Z DEFAULT_RETRY_AFTER_MS)
                        (parseRetryAfterMs date_parse now retry_after))
             (set_backlog (Some rate_limited) s))
      else wait (Returned (Failed send_failed false)) (set_backlog (Some send_failed) s)
  | Rejected => wait (Returned (Failed send_failed false)) (set_backlog (Some send_failed) s)
  end.

(** The queue with [id] behind the last smaller one. *)
Definition insert_id (id : nat) (q : list nat) : list nat :=
  let fix go (r : list nat) : list nat :=
    match r with
    | [] => [id]
    | x :: r' => if id <? x then x :: go r' else id :: r
    end in
  rev (go (rev q)).

(** [drainWorker] up to its first await: the item it is processing, if any. *)
Fixpoint drainWorker (q : list nat) (s : sender) : sender * option nat :=
  match q with
  | [] => (set_queue [] s, None)
  | id :: q' =>
      if paused s then (set_queue q s, None)
      else if settled_of s id then drainWorker q' s
      else (attempt id (set_queue q' s), Some id)
  end.

(** The workers the drain loop starts, at most [n]. *)
Fixpoint start_workers (n : nat) (busy : gset nat) (s : sender) : sender * gset nat :=
  match n with
  | O => (s, busy)
  | S n' =>
      match queue s with
      | [] => (s, busy)
      | _ =>
          let '(s1, w) := drainWorker (queue s) s in
          start_workers n' (match w with Some id => {[id]} ∪ busy | None => busy end) s1
      end
  end.

Definition wait_for_resume (now : num) (s : sender) : sender :=
  set_drain (D_wait (pauses s) (nmax nzero (nsub (resumeAt s) now))) s.

Definition send_queued (s : sender) : sender :=
  let '(s1, busy) := start_workers DRAIN_CONCURRENCY ∅ s in set_drain (D_work busy 0) s1.

(** The drain loop from the head of its outer [while] to the next await. *)
Definition drain_loop (now : num) (s : sender) : sender :=
  match queue s with
  | [] => set_drain D_idle s
  | _ => if paused s then wait_for_resume now s else send_queued s
  end.

Definition draining (s : sender) : bool :=
  match drain s with D_idle => false | _ => true end.

Definition requeue (now : num) (id : nat) (s : sender) : sender :=
  let s := set_queue (insert_id id (queue s)) s in
  if draining s then s else drain_loop now s.

(** [process(item)] runs again: it waits for nothing. *)
Definition resume (id : nat) (s : sender) : sender :=
  set_threads (delete id (threads s)) s.

(** [process(item)] returned: its worker, if one awaits it, goes on. *)
Definition finish (id : nat) (s : sender) : sender :=
  match drain s with
  | D_work busy ready =>
      if decide (id ∈ busy) then set_drain (D_work (busy ∖ {[id]}) (S ready)) s else s
  | _ => s
  end.

(** ** Steps *)

(** [send(event)] *)
Definition send (now : num) (e : event) (s : sender) : sender :=
  if negb (truthy_string (apiKey opts)) then s else
  let s := set_enqueued (S (enqueued s)) s in
  if closed s then drop dropped_at_shutdown 1 s
  else if (maxPending opts <=? Z.of_nat (size (live s)))%Z
  then drop (default buffer_overflow (backlogReason s)) 1 s
  else
    let id := nextId s in
    let s := set_live ({[id]} ∪ live s)
               (set_items (<[id := mkPending e 0 false]> (items s)) (set_nextId (S id) s)) in
    if paused s then requeue now id s else attempt id s.

(** [process] once [attempt] has returned. *)
Definition process_outcome (now : num) (id : nat) (o : Outcome) (s : sender) : sender :=
  if settled_of s id then finish id s else
  match o with
  | Delivered skipped =>
      let s := set_sent (sent s + (1 - skipped)) (set_backlog None s) in
      let s := if skipped =? 0 then s else drop server_skipped skipped s in
      finish id (settle id s)
  | Failed reason final =>
      let s := set_items (alter count_attempt id (items s)) s in
      let attempts := match items s !! id with Some it => it_attempts it | None => 0 end in
      if final || (maxAttempts opts <=? Z.of_nat attempts)%Z
      then finish id (settle id (drop reason 1 s))
      else if paused s then finish id (requeue now id s)
      else set_threads
             (<[id := Sleeping (retryBaseMs opts * 2 ^ (Z.of_nat attempts - 1))]> (threads s)) s
  end.

(** [process] after the retry delay, or when [sleep] throws. *)
Definition process_slept (now : num) (id : nat) (ok : bool) (s : sender) : sender :=
  if ok then
    if settled_of s id then finish id s
    else if paused s then finish id (requeue now id s)
    else attempt id s
  else if settled_of s id then finish id s
  else finish id (settle id (drop send_failed 1 s)).

(** The drain loop after [waitForResume]. *)
Definition drain_resumed (now : num) (seen : nat) (s : sender) : sender :=
  let s := if pauses s =? seen then set_paused false s else s in
  if paused s then wait_for_resume now s else send_queued s.

(** A worker of the drain loop after [process] returned. *)
Definition worker_next (busy : gset nat) (ready : nat) (s : sender) : sender :=
  let '(s1, w) := drainWorker (queue s) s in
  set_drain (D_work (match w with Some id => {[id]} ∪ busy | None => busy end) ready) s1.

(** [shutdown(timeoutMs)] up to its wait, and after it. *)
Definition shutdown (s : sender) : sender :=
  let s := set_closed true s in
  let s := if paused s then set_resumeAt nzero (set_paused false s) else s in
  if decide (live s = ∅) then s else set_shutdowns (S (shutdowns s)) s.

Definition shutdown_over (s : sender) : sender :=
  let left := elements (live s) in
  match left with
  | [] => s
  | _ => foldl (fun s id => settle id s)
           (drop dropped_at_shutdown (length left) (set_queue [] s)) left
  end.

Inductive label :=
| Send (now : num) (e : event)
| FetchSettled (now : num) (id : nat) (r : Response)
| BodyRead (id : nat) (b : option any)
| AttemptReturned (now : num) (id : nat)
| Slept (now : num) (id : nat) (ok : bool)
| Resumed (now : num)
| WorkerNext
| WorkersDone (now : num)
| Shutdown
| ShutdownOver.

(** One step, [None] where nothing waits for it. *)
Definition run_step (l : label) (s : sender) : option sender :=
  match l with
  | Send now e => Some (send now e s)
  | FetchSettled now id r =>
      match threads s !! id with
      | Some Fetching => Some (attempt_settled now id r s)
      | _ => None
      end
  | BodyRead id b =>
      match threads s !! id with
      | Some Reading => Some (set_threads (<[id := Returned (Delivered (skippedOf b))]> (threads s)) s)
      | _ => None
      end
  | AttemptReturned now id =>
      match threads s !! id with
      | Some (Returned o) => Some (process_outcome now id o (resume id s))
      | _ => None
      end
  | Slept now id ok =>
      match threads s !! id with
      | Some (Sleeping _) => Some (process_slept now id ok (resume id s))
      | _ => None
      end
  | Resumed now =>
      match drain s with D_wait seen _ => Some (drain_resumed now seen s) | _ => None end
  | WorkerNext =>
      match drain s with D_work busy (S ready) => Some (worker_next busy ready s) | _ => None end
  | WorkersDone now =>
      match drain s with
      | D_work busy 0 => if decide (busy = ∅) then Some (drain_loop now s) else None
      | _ => None
      end
  | Shutdown => Some (shutdown s)
  | ShutdownOver =>
      match shutdowns s with
      | S n => Some (shutdown_over (set_shutdowns n s))
      | O => None
      end
  end.

Definition sender_step (l : label) (s s' : sender) : Prop := run_step l s = Some s'.

Definition reachable (s : sender) : Prop := exists ls, run sender_step ls new_sender s.

(** The steps the sender takes by itself once its promises settle. *)
Definition internal (l : label) : Prop :=
  match l with Send _ _ | Shutdown => False | _ => True end.

(** ** Invariant *)

(** What holds of the items, apart from the one [out] whose [process] call is
    running: a live item is in the queue or waits for a promise, never both. *)
Record WF (out : option nat) (s : sender) : Prop := mkWF {
  wf_live id : settled_of s id = negb (bool_decide (id ∈ live s));
  wf_sorted : StronglySorted lt (queue s);
  wf_queue id : id ∈ queue s -> id ∈ live s /\ threads s !! id = None /\ out <> Some id;
  wf_cover id : id ∈ live s -> id ∈ queue s \/ is_Some (threads s !! id) \/ out = Some id;
  wf_out id : out = Some id -> threads s !! id = None /\ id ∈ live s;
  wf_dom id : is_Some (items s !! id) \/ is_Some (threads s !! id) -> id < nextId s;
  wf_attempts id it : items s !! id = Some it -> it_settled it = false ->
    (Z.of_nat (it_attempts it) < maxAttempts opts)%Z;
  wf_count : enqueued s = sent s + dropped_total s + size (live s);
  wf_seq : map b_seq (requests s) = seq 1 (seq_ s)
}.

Lemma dropped_total_drop r n (s : sender) : dropped_total (drop r n s) = dropped_total s + n.
Proof. unfold dropped_total. destruct r; simpl; lia. Qed.

Lemma set_queue_id (s : sender) : set_queue (queue s) s = s.
Proof. by destruct s. Qed.

Lemma live_settled out s id : WF out s -> id ∈ live s <-> settled_of s id = false.
Proof.
  intros H. rewrite (wf_live _ _ H). destruct (bool_decide_reflect (id ∈ live s)); naive_solver.
Qed.

Lemma live_item out s id :
  WF out s -> id ∈ live s -> exists it, items s !! id = Some it /\ it_settled it = false.
Proof.
  intros H Hl%(live_settled _ _ _ H). unfold settled_of in Hl.
  destruct (items s !! id) as [it|]; [by exists it|done].
Qed.

Lemma live_below out s id : WF out s -> id ∈ live s -> id < nextId s.
Proof.
  intros H Hl. destruct (live_item _ _ _ H Hl) as (it & Hit & _).
  apply (wf_dom _ _ H). left. by exists it.
Qed.

(** *** Preservation by the parts of a step *)

(** A running item that starts to wait. *)
Lemma WF_wait id w s : WF (Some id) s -> WF None (set_threads (<[id := w]> (threads s)) s).
Proof.
  intros H. destruct (wf_out _ _ H id eq_refl) as [Hno Hl]. split; simpl.
  - intros i. apply (wf_live _ _ H).
  - apply (wf_sorted _ _ H).
  - intros i Hi. destruct (wf_queue _ _ H i Hi) as (? & ? & Hne). split; [done|].
    split; [|done]. rewrite lookup_insert_ne; [done|]. congruence.
  - intros i Hi. destruct (decide (id = i)) as [->|Hne].
    + right. left. rewrite lookup_insert_eq. by eexists.
    + rewrite lookup_insert_ne by done. destruct (wf_cover _ _ H i Hi) as [?|[?|?]]; [by left|by right; left|].
      congruence.
  - done.
  - intros i [Hi|Hi]; [apply (wf_dom _ _ H); by left|].
    destruct (decide (id = i)) as [->|Hne]; [by eapply live_below|].
    rewrite lookup_insert_ne in Hi by done. apply (wf_dom _ _ H). by right.
  - apply (wf_attempts _ _ H).
  - apply (wf_count _ _ H).
  - apply (wf_seq _ _ H).
Qed.

(** Fields the invariant does not read. *)
Lemma WF_same out s s' :
  WF out s ->
  items s' = items s -> live s' = live s -> queue s' = queue s -> threads s' = threads s ->
  nextId s' = nextId s -> enqueued s' = enqueued s -> sent s' = sent s ->
  dropped s' = dropped s -> map b_seq (requests s') = seq 1 (seq_ s') -> WF out s'.
Proof.
  intros [? ? ? ? ? ? ? Hc ?] Hi Hl Hq Ht Hn He Hse Hd Hr.
  unfold dropped_total, settled_of in *.
  split; unfold settled_of, dropped_total; rewrite ?Hi, ?Hl, ?Hq, ?Ht, ?Hn, ?He, ?Hse, ?Hd; auto.
Qed.

Ltac wf_same H := eapply (WF_same _ _ _ H); try reflexivity; try apply (wf_seq _ _ H).

Lemma attempt_WF id s : WF (Some id) s -> WF None (attempt id s).
Proof.
  intros H. destruct (live_item _ _ _ H (proj2 (wf_out _ _ H id eq_refl))) as (it & Hit & _).
  unfold attempt. rewrite Hit.
  destruct (negb _).
  { apply (WF_wait id _ (set_warned true s)). wf_same H. }
  unfold body. destruct (serializable (it_event it)).
  - match goal with |- WF _ (set_threads _ ?s1) => apply (WF_wait id _ s1) end.
    wf_same H. simpl. by rewrite map_app, (wf_seq _ _ H), <- seq_S.
  - by apply WF_wait.
Qed.

Lemma attempt_thread id s :
  is_Some (items s !! id) -> is_Some (threads (attempt id s) !! id).
Proof.
  intros [it Hit]. unfold attempt. rewrite Hit. destruct (negb _); simpl.
  { rewrite lookup_insert_eq. by eexists. }
  destruct (body _ _); simpl; rewrite lookup_insert_eq; by eexists.
Qed.

(** What starting an attempt leaves alone. *)
Lemma attempt_frame id s :
  let s' := attempt id s in
  queue s' = queue s /\ live s' = live s /\ items s' = items s /\ paused s' = paused s /\
  pauses s' = pauses s /\ nextId s' = nextId s /\ drain s' = drain s /\
  shutdowns s' = shutdowns s /\ closed s' = closed s /\
  (forall i, i <> id -> threads s' !! i = threads s !! i) /\
  (forall w, threads s' !! id = Some w -> w = Fetching \/ (exists o, w = Returned o) \/
    threads s !! id = Some w).
Proof.
  unfold attempt. destruct (items s !! id) as [it|]; [|naive_solver].
  destruct (negb _); simpl.
  { split_and!; try done; intros; [by rewrite lookup_insert_ne|].
    rewrite lookup_insert_eq in *. naive_solver. }
  destruct (body _ _); simpl; split_and!; try done; intros;
    try (by rewrite lookup_insert_ne); rewrite lookup_insert_eq in *; naive_solver.
Qed.

(** The head of the queue is taken out to be processed. *)
Lemma WF_shift id q s : WF None s -> queue s = id :: q -> WF (Some id) (set_queue q s).
Proof.
  intros H Hq. pose proof (wf_sorted _ _ H) as Hs. rewrite Hq in Hs.
  apply StronglySorted_inv in Hs as [Hs Hall]. rewrite Forall_forall in Hall.
  assert (Hin : id ∈ queue s) by (rewrite Hq; by left).
  destruct (wf_queue _ _ H id Hin) as (Hl & Hno & _).
  split; simpl.
  - apply (wf_live _ _ H).
  - done.
  - intros i Hi. destruct (wf_queue _ _ H i) as (? & ? & _); [rewrite Hq; by right|].
    split; [done|]. split; [done|]. intros [= <-]. specialize (Hall id). apply list_elem_of_In in Hi.
    specialize (Hall ltac:(by apply list_elem_of_In)). lia.
  - intros i Hi. destruct (wf_cover _ _ H i Hi) as [Hiq|[?|?]]; [|by right; left|done].
    rewrite Hq in Hiq. apply elem_of_cons in Hiq as [->|?]; [by right; right|by left].
  - intros i [= <-]. done.
  - apply (wf_dom _ _ H).
  - apply (wf_attempts _ _ H).
  - apply (wf_count _ _ H).
  - apply (wf_seq _ _ H).
Qed.

(** A worker stops at an empty queue or a pause, and else takes the head. *)
Lemma drainWorker_spec s :
  WF None s ->
  (drainWorker (queue s) s = (s, None) /\ (queue s = [] \/ paused s = true)) \/
  (exists id q, queue s = id :: q /\ paused s = false /\
     drainWorker (queue s) s = (attempt id (set_queue q s), Some id)).
Proof.
  intros H. destruct (queue s) as [|id q] eqn:Hq; simpl.
  - left. rewrite <- Hq, set_queue_id. by auto.
  - destruct (paused s); [left; rewrite <- Hq, set_queue_id; by auto|].
    assert (Hl : id ∈ live s) by (apply (wf_queue _ _ H id); rewrite Hq; by left).
    apply (live_settled _ _ _ H) in Hl. rewrite Hl. right. by exists id, q.
Qed.

(** What starting workers leaves alone. *)
Record frame (s s' : sender) : Prop := mkFrame {
  fr_live : live s' = live s;
  fr_items : items s' = items s;
  fr_paused : paused s' = paused s;
  fr_pauses : pauses s' = pauses s;
  fr_next : nextId s' = nextId s;
  fr_shutdowns : shutdowns s' = shutdowns s;
  fr_threads id : is_Some (threads s !! id) -> is_Some (threads s' !! id)
}.

Lemma frame_refl s : frame s s.
Proof. by split. Qed.

Lemma frame_trans s s1 s' : frame s s1 -> frame s1 s' -> frame s s'.
Proof. intros [] []. split; [congruence..|]. eauto. Qed.

Lemma attempt_frame' id s : frame s (attempt id s).
Proof.
  destruct (attempt_frame id s) as (Hq & Hl & Hi & Hp & Hps & Hn & Hd & Hsh & Hc & Ht & _).
  split; try done. intros i Hs. destruct (decide (i = id)) as [->|Hne]; [|by rewrite Ht].
  destruct (items s !! id) eqn:Hit; [by apply attempt_thread|].
  unfold attempt. by rewrite Hit.
Qed.

Lemma start_workers_spec n busy s s' busy' :
  WF None s -> (forall id, id ∈ busy -> is_Some (threads s !! id)) ->
  start_workers n busy s = (s', busy') ->
  WF None s' /\ frame s s' /\ drain s' = drain s /\
  (forall id, id ∈ busy' -> is_Some (threads s' !! id)) /\
  (forall id, id ∈ queue s' -> id ∈ queue s).
Proof.
  revert busy s. induction n as [|n IH]; intros busy s H Hb Hrun; simpl in Hrun.
  { injection Hrun as <- <-. split_and!; auto using frame_refl. }
  assert (Hstop : start_workers n busy s = (s', busy') ->
    WF None s' /\ frame s s' /\ drain s' = drain s /\
    (forall id, id ∈ busy' -> is_Some (threads s' !! id)) /\
    (forall id, id ∈ queue s' -> id ∈ queue s)) by (intros; by apply IH with (busy := busy)).
  destruct (drainWorker_spec s H) as [[Hw _]|(id & q & Hq & Hp & Hw)].
  { rewrite Hw in Hrun. destruct (queue s) eqn:Hq; [|by apply Hstop].
    injection Hrun as <- <-. rewrite Hq. split_and!; auto using frame_refl. }
  rewrite Hw in Hrun. rewrite Hq in Hrun.
  pose proof (WF_shift _ _ _ H Hq) as Hs.
  destruct (live_item _ _ _ Hs (proj2 (wf_out _ _ Hs id eq_refl))) as (it & Hit & _).
  destruct (attempt_frame id (set_queue q s)) as (Hfq & _ & _ & _ & _ & _ & Hfd & _).
  pose proof (attempt_frame' id (set_queue q s)) as Hfr.
  destruct (IH ({[id]} ∪ busy) (attempt id (set_queue q s)) (attempt_WF _ _ Hs)) as (H' & Hf & Hd & Hb' & Hqs).
  - intros i [->%elem_of_singleton|Hi]%elem_of_union.
    + apply attempt_thread. by exists it.
    + by apply (fr_threads _ _ Hfr), Hb.
  - done.
  - split_and!; [done| |by rewrite Hd, Hfd|done|].
    + eapply frame_trans; [|apply Hf]. by apply (frame_trans _ (set_queue q s)).
    + intros i Hi. apply Hqs in Hi. rewrite Hfq in Hi. simpl in Hi. rewrite Hq. by right.
Qed.

(** The invariant between two steps: no queued event is stranded without a
    drain loop, and the drain loop waits only for calls that are running. *)
Record Inv (out running : option nat) (s : sender) : Prop := mkInv {
  inv_wf : WF out s;
  inv_drain : queue s <> [] -> drain s <> D_idle;
  inv_busy busy ready id : drain s = D_work busy ready -> id ∈ busy ->
    is_Some (threads s !! id) \/ running = Some id
}.

Lemma send_queued_Inv running s : WF None s -> Inv None running (send_queued s).
Proof.
  intros H. unfold send_queued. destruct (start_workers _ _ _) as [s' busy] eqn:Hrun.
  apply start_workers_spec in Hrun as (H' & _ & _ & Hb & _); [|done|set_solver].
  split; simpl.
  - wf_same H'.
  - done.
  - intros b r id [= <- <-] Hid. left. by apply Hb.
Qed.

Lemma wait_for_resume_Inv running now s : WF None s -> Inv None running (wait_for_resume now s).
Proof. intros H. split; [wf_same H|done|done]. Qed.

Lemma drain_loop_Inv running now s : WF None s -> Inv None running (drain_loop now s).
Proof.
  intros H. unfold drain_loop. destruct (queue s) as [|x q] eqn:Hq.
  { split; [wf_same H|simpl; by rewrite Hq|done]. }
  destruct (paused s); [by apply wait_for_resume_Inv|by apply send_queued_Inv].
Qed.

(** *** The queue is kept in enqueue order *)

Lemma insert_id_snoc id q x :
  insert_id id (q ++ [x]) = if id <? x then insert_id id q ++ [x] else q ++ [x; id].
Proof.
  unfold insert_id. rewrite rev_app_distr. simpl. destruct (id <? x); simpl; [done|].
  by rewrite rev_involutive, <- app_assoc.
Qed.

Lemma insert_id_elem id q x : x ∈ insert_id id q <-> x = id \/ x ∈ q.
Proof.
  induction q as [|y q IH] using rev_ind; [set_solver|].
  rewrite insert_id_snoc. destruct (id <? y); set_solver.
Qed.

Lemma StronglySorted_snoc (q : list nat) x :
  StronglySorted lt (q ++ [x]) <-> StronglySorted lt q /\ (forall y, y ∈ q -> y < x).
Proof.
  induction q as [|z q IH]; simpl.
  - split; [intros _; split; [constructor|set_solver]|]. intros _. repeat constructor.
  - split.
    + intros [Hs Hall]%StronglySorted_inv. apply IH in Hs as [Hs Hlt].
      rewrite Forall_forall in Hall. split.
      * constructor; [done|]. apply Forall_forall. intros y Hy. apply Hall, elem_of_app. by left.
      * intros y [->|Hy]%elem_of_cons; [|by apply Hlt]. apply Hall, elem_of_app. right. by left.
    + intros [[Hs Hall]%StronglySorted_inv Hlt]. constructor.
      * apply IH. split; [done|]. intros y Hy. apply Hlt. by right.
      * apply Forall_app. split; [done|]. repeat constructor. apply Hlt. by left.
Qed.

Lemma insert_id_sorted id q :
  StronglySorted lt q -> id ∉ q -> StronglySorted lt (insert_id id q).
Proof.
  induction q as [|x q IH] using rev_ind; intros Hs Hno; [repeat constructor|].
  rewrite insert_id_snoc. pose proof Hs as [Hq Hx]%StronglySorted_snoc.
  destruct (Nat.ltb_spec id x) as [Hlt|Hge].
  - apply StronglySorted_snoc. split; [apply IH; [done|set_solver]|].
    intros y [->|Hy]%insert_id_elem; [done|by apply Hx].
  - replace (q ++ [x; id]) with ((q ++ [x]) ++ [id]) by (by rewrite <- app_assoc).
    apply StronglySorted_snoc. split; [done|]. intros y Hy.
    assert (x <> id) by set_solver.
    apply elem_of_app in Hy as [Hy|Hy]; [apply Hx in Hy|apply list_elem_of_singleton in Hy]; lia.
Qed.

(** *** Preservation by the steps *)

Lemma running_not_queued id s : WF (Some id) s -> id ∉ queue s.
Proof. intros H Hq. by destruct (wf_queue _ _ H id Hq) as (_ & _ & ?). Qed.

Lemma WF_insert id s : WF (Some id) s -> WF None (set_queue (insert_id id (queue s)) s).
Proof.
  intros H. destruct (wf_out _ _ H id eq_refl) as [Hno Hl].
  pose proof (running_not_queued _ _ H) as Hnq. split; simpl.
  - apply (wf_live _ _ H).
  - by apply insert_id_sorted; [apply (wf_sorted _ _ H)|].
  - intros i [->|Hi]%insert_id_elem; [done|]. by destruct (wf_queue _ _ H i Hi) as (? & ? & _).
  - intros i Hi. destruct (wf_cover _ _ H i Hi) as [?|[?|[= <-]]];
      [left; apply insert_id_elem; by right|by right; left|left; apply insert_id_elem; by left].
  - done.
  - apply (wf_dom _ _ H).
  - apply (wf_attempts _ _ H).
  - apply (wf_count _ _ H).
  - apply (wf_seq _ _ H).
Qed.

(** Queued while sending is paused: [id] itself may be awaited by a worker. *)
Lemma requeue_Inv now id running s :
  Inv (Some id) running s -> paused s = true -> Inv None running (requeue now id s).
Proof.
  intros [H Hd Hb] Hp. pose proof (WF_insert _ _ H) as Hw. unfold requeue.
  change (draining (set_queue (insert_id id (queue s)) s)) with (draining s).
  unfold draining. destruct (drain s) eqn:Hdr; simpl.
  - by apply drain_loop_Inv.
  - split; [done|by simpl; rewrite Hdr|simpl; rewrite Hdr; done].
  - split; [done|by simpl; rewrite Hdr|]. simpl. rewrite Hdr. intros b r i [= <- <-] Hi.
    by apply (Hb _ _ i eq_refl).
Qed.

(** A running item is settled, once it is counted as sent or dropped. *)
Lemma WF_settle id s s1 :
  WF (Some id) s ->
  (forall i, i <> id -> items s1 !! i = items s !! i) -> settled_of s1 id = false ->
  live s1 = live s -> queue s1 = queue s -> threads s1 = threads s ->
  nextId s1 = nextId s -> enqueued s1 = enqueued s -> seq_ s1 = seq_ s -> requests s1 = requests s ->
  sent s1 + dropped_total s1 = S (sent s + dropped_total s) ->
  WF None (settle id s1).
Proof.
  intros H Hi Hns Hlv Hq Ht Hn He Hsq Hrq Hcount.
  destruct (wf_out _ _ H id eq_refl) as [Hno Hl].
  assert (Hsz : size (live s) = S (size (live s ∖ {[id]}))).
  { rewrite size_difference by set_solver. rewrite size_singleton.
    assert (0 < size (live s)); [|lia].
    destruct (decide (size (live s) = 0)) as [Hz%size_empty_inv|]; [set_solver|lia]. }
  assert (Hset : forall i, settled_of (settle id s1) i = negb (bool_decide (i ∈ live s ∖ {[id]}))).
  { intros i. unfold settle. rewrite Hns. unfold settled_of in *. simpl.
    destruct (decide (i = id)) as [->|Hne].
    - rewrite lookup_alter_eq. symmetry. destruct (items s1 !! id); [|done]. simpl.
      apply negb_true_iff, bool_decide_eq_false. set_solver.
    - rewrite lookup_alter_ne, Hi by done. fold (settled_of s i). rewrite (wf_live _ _ H). f_equal.
      apply bool_decide_ext. set_solver. }
  assert (Hitems : items (settle id s1) = alter mark_settled id (items s1))
    by (unfold settle; by rewrite Hns).
  unfold settle in *. rewrite Hns in *. unfold dropped_total in *.
  split; simpl; unfold dropped_total; simpl; rewrite ?Hlv, ?Hq, ?Ht, ?Hn, ?He, ?Hsq, ?Hrq.
  - intros i. rewrite <- Hset. unfold settled_of. simpl. by rewrite ?Hlv.
  - apply (wf_sorted _ _ H).
  - intros i Hx. destruct (wf_queue _ _ H i Hx) as (? & ? & ?). split_and!; [|done|done].
    apply elem_of_difference. split; [done|]. intros ->%elem_of_singleton. done.
  - intros i [Hx Hne]%elem_of_difference. destruct (wf_cover _ _ H i Hx) as [?|[?|[= <-]]]; auto.
    set_solver.
  - done.
  - intros i [Hx|Hx]; [|apply (wf_dom _ _ H); by right].
    destruct (decide (i = id)) as [->|Hne]; [by eapply live_below|].
    rewrite lookup_alter_ne, Hi in Hx by done. apply (wf_dom _ _ H). by left.
  - intros i it' Hi' Hs. destruct (decide (i = id)) as [->|Hne].
    + rewrite lookup_alter_eq in Hi'. destruct (items s1 !! id); simplify_eq/=.
    + rewrite lookup_alter_ne, Hi in Hi' by done. by apply (wf_attempts _ _ H i).
  - pose proof (wf_count _ _ H) as Hc. unfold dropped_total in Hc, Hcount. simpl in Hc, Hcount. lia.
  - apply (wf_seq _ _ H).
Qed.

(** The running item, if it is still live. *)
Definition live_or_none (id : nat) (s : sender) : option nat :=
  if settled_of s id then None else Some id.

Lemma resume_Inv id w s :
  Inv None None s -> threads s !! id = Some w ->
  Inv (live_or_none id s) (Some id) (resume id s).
Proof.
  intros [H Hd Hb] Hw. unfold live_or_none.
  assert (Hnq : id ∉ queue s) by (intros Hq; destruct (wf_queue _ _ H id Hq) as (_ & ? & _); congruence).
  assert (Hdel : forall i, i <> id -> delete id (threads s) !! i = threads s !! i)
    by (intros; by rewrite lookup_delete_ne).
  split; [|done|].
  - split; simpl.
    + apply (wf_live _ _ H).
    + apply (wf_sorted _ _ H).
    + intros i Hi. assert (i <> id) by congruence. rewrite Hdel by done.
      destruct (wf_queue _ _ H i Hi) as (? & ? & _). split_and!; [done..|]. by case_match; congruence.
    + intros i Hi. destruct (decide (i = id)) as [->|Hne].
      * right. right. apply (live_settled _ _ _ H) in Hi. by rewrite Hi.
      * rewrite Hdel by done. destruct (wf_cover _ _ H i Hi) as [?|[?|?]]; [by left|by right; left|done].
    + intros i. destruct (settled_of s id) eqn:Hset; [done|]. intros [= <-].
      rewrite lookup_delete_eq. split; [done|]. by apply (live_settled _ _ _ H).
    + intros i [Hi|Hi]; [apply (wf_dom _ _ H); by left|].
      destruct (decide (i = id)) as [->|Hne]; [apply (wf_dom _ _ H); right; by eexists|].
      rewrite Hdel in Hi by done. apply (wf_dom _ _ H). by right.
    + apply (wf_attempts _ _ H).
    + apply (wf_count _ _ H).
    + apply (wf_seq _ _ H).
  - simpl. intros b r i Hdr Hi. destruct (Hb _ _ i Hdr Hi) as [?|?]; [|done].
    destruct (decide (i = id)) as [->|Hne]; [by right|left]. by rewrite Hdel.
Qed.

Lemma finish_Inv id s : Inv None (Some id) s -> Inv None None (finish id s).
Proof.
  intros [H Hd Hb]. unfold finish. destruct (drain s) eqn:Hdr.
  - split; [done|by rewrite Hdr|by rewrite Hdr].
  - split; [done|by rewrite Hdr|by rewrite Hdr].
  - destruct (decide (id ∈ busy)) as [Hin|Hno].
    + split; simpl; [wf_same H|done|]. intros b r i [= <- <-] [Hi Hne]%elem_of_difference.
      destruct (Hb _ _ i eq_refl Hi) as [?|[= <-]]; [by left|set_solver].
    + split; [done|by rewrite Hdr|]. rewrite Hdr. intros b r i [= <- <-] Hi.
      destruct (Hb _ _ i eq_refl Hi) as [?|[= <-]]; [by left|done].
Qed.

(** Changes that only touch items, counters and threads keep the drain part. *)
Lemma Inv_frame out out' running s s' :
  Inv out running s -> WF out' s' -> drain s' = drain s -> queue s' = queue s ->
  (forall id, is_Some (threads s !! id) -> is_Some (threads s' !! id)) ->
  Inv out' running s'.
Proof.
  intros [H Hd Hb] H' Hdr Hq Ht. split; [done|by rewrite Hdr, Hq|].
  rewrite Hdr. intros b r i Hbr Hi. destruct (Hb _ _ i Hbr Hi); auto.
Qed.

Lemma settle_frame id s :
  drain (settle id s) = drain s /\ queue (settle id s) = queue s /\
  threads (settle id s) = threads s /\ paused (settle id s) = paused s /\
  nextId (settle id s) = nextId s /\ pauses (settle id s) = pauses s /\
  shutdowns (settle id s) = shutdowns s.
Proof. unfold settle. by destruct (settled_of s id). Qed.

(** A running item is counted, settled, and its call returns. *)
Lemma settle_finish_Inv id s s1 :
  Inv (Some id) (Some id) s ->
  (forall i, i <> id -> items s1 !! i = items s !! i) -> settled_of s1 id = false ->
  live s1 = live s -> queue s1 = queue s -> threads s1 = threads s ->
  nextId s1 = nextId s -> enqueued s1 = enqueued s -> seq_ s1 = seq_ s -> requests s1 = requests s ->
  drain s1 = drain s ->
  sent s1 + dropped_total s1 = S (sent s + dropped_total s) ->
  Inv None None (finish id (settle id s1)).
Proof.
  intros HI Hi Hns Hl Hq Ht Hn He Hs Hr Hdr Hc. apply finish_Inv.
  destruct (settle_frame id s1) as (Hd' & Hq' & Ht' & _).
  eapply (Inv_frame _ _ _ _ _ HI).
  - by eapply WF_settle; [apply HI|..].
  - congruence.
  - congruence.
  - intros i. by rewrite Ht', Ht.
Qed.

Lemma attempt_Inv id running s :
  Inv (Some id) running s -> Inv None running (attempt id s).
Proof.
  intros HI. destruct (attempt_frame id s) as (Hq & _ & _ & _ & _ & _ & Hd & _).
  eapply (Inv_frame _ _ _ _ _ HI); [by apply attempt_WF, HI|done|done|].
  apply (fr_threads _ _ (attempt_frame' id s)).
Qed.

(** The counted attempt of a running item. *)
Lemma WF_count id s :
  WF (Some id) s ->
  (forall it, items s !! id = Some it -> Z.of_nat (S (it_attempts it)) < maxAttempts opts)%Z ->
  WF (Some id) (set_items (alter count_attempt id (items s)) s).
Proof.
  intros H Hlt.
  assert (Hal : forall i, settled_of (set_items (alter count_attempt id (items s)) s) i = settled_of s i).
  { intros i. unfold settled_of. simpl. destruct (decide (i = id)) as [->|Hne].
    - rewrite lookup_alter_eq. by destruct (items s !! id).
    - by rewrite lookup_alter_ne. }
  split; simpl.
  - intros i. rewrite Hal. apply (wf_live _ _ H).
  - apply (wf_sorted _ _ H).
  - apply (wf_queue _ _ H).
  - apply (wf_cover _ _ H).
  - apply (wf_out _ _ H).
  - intros i [Hx|Hx]; apply (wf_dom _ _ H); [left|by right].
    destruct (decide (i = id)) as [->|Hne].
    + rewrite lookup_alter_eq in Hx. destruct (items s !! id); [by eexists|by destruct Hx].
    + by rewrite lookup_alter_ne in Hx.
  - intros i it Hi Hs. destruct (decide (i = id)) as [->|Hne].
    + rewrite lookup_alter_eq in Hi. destruct (items s !! id) as [it0|] eqn:Hit0; simplify_eq/=.
      by apply Hlt.
    + rewrite lookup_alter_ne in Hi by done. by apply (wf_attempts _ _ H i).
  - apply (wf_count _ _ H).
  - apply (wf_seq _ _ H).
Qed.

(** A running call that starts to wait: its worker goes on waiting for it. *)
Lemma waiting_Inv id s :
  Inv None (Some id) s -> is_Some (threads s !! id) -> Inv None None s.
Proof.
  intros [H Hd Hb] Ht. split; [done|done|]. intros b r i Hbr Hi.
  destruct (Hb _ _ i Hbr Hi) as [?|[= <-]]; by left.
Qed.

Lemma wait_Inv id w s :
  Inv (Some id) (Some id) s -> Inv None None (set_threads (<[id := w]> (threads s)) s).
Proof.
  intros HI. apply (waiting_Inv id); [|simpl; rewrite lookup_insert_eq; by eexists].
  eapply (Inv_frame _ _ _ _ _ HI); [by apply WF_wait, HI|done|done|]. simpl. intros i Hi.
  destruct (decide (i = id)) as [->|]; [rewrite lookup_insert_eq; by eexists|].
  by rewrite lookup_insert_ne.
Qed.

Lemma attempt_waiting_Inv id s : Inv (Some id) (Some id) s -> Inv None None (attempt id s).
Proof.
  intros HI. apply (waiting_Inv id); [by apply attempt_Inv|]. apply attempt_thread.
  destruct HI as [H _ _]. destruct (live_item _ _ _ H (proj2 (wf_out _ _ H id eq_refl))) as (it & Hit & _).
  by exists it.
Qed.

Lemma settled_of_count s id i :
  settled_of (set_items (alter count_attempt id (items s)) s) i = settled_of s i.
Proof.
  unfold settled_of. simpl. destruct (decide (i = id)) as [->|Hne].
  - rewrite lookup_alter_eq. by destruct (items s !! id).
  - by rewrite lookup_alter_ne.
Qed.

Lemma dropped_sum_drop r n (s s' : sender) :
  sent s' = sent s -> dropped s' = dropped s ->
  sent (drop r n s') + dropped_total (drop r n s') = sent s + dropped_total s + n.
Proof. intros Hs Hd. rewrite dropped_total_drop. unfold dropped_total. simpl. rewrite Hs, Hd. lia. Qed.

Lemma process_outcome_Inv now id o s :
  Inv (live_or_none id s) (Some id) s -> (forall r, o = Delivered r -> r <= 1) ->
  Inv None None (process_outcome now id o s).
Proof.
  intros HI Ho. unfold process_outcome, live_or_none in *.
  destruct (settled_of s id) eqn:Hset; [by apply finish_Inv|].
  destruct o as [skipped|reason final].
  - specialize (Ho _ eq_refl). set (s0 := set_sent _ _).
    assert (Hs0 : settled_of s0 id = false) by done.
    destruct (Nat.eqb_spec skipped 0) as [->|Hne].
    + eapply settle_finish_Inv; [done|done|done|..]; try done. unfold dropped_total. simpl. lia.
    + eapply settle_finish_Inv; [done|done|done|..]; try done. rewrite dropped_total_drop.
      unfold dropped_total. simpl. lia.
  - set (s0 := set_items _ s). set (n := match items s0 !! id with Some it => it_attempts it | None => 0 end).
    destruct (final || (maxAttempts opts <=? Z.of_nat n)%Z) eqn:Hlast.
    + eapply (settle_finish_Inv _ _ _ HI); try done.
      * intros i Hne. simpl. by rewrite lookup_alter_ne.
      * change (settled_of s0 id = false). unfold s0. by rewrite settled_of_count.
      * rewrite (dropped_sum_drop _ _ s s0) by done. lia.
    + apply orb_false_iff in Hlast as [_ Hlt%Z.leb_gt].
      assert (Hw : WF (Some id) s0).
      { apply WF_count; [apply HI|]. intros it Hit. subst n s0. simpl in Hlt.
        rewrite lookup_alter_eq, Hit in Hlt. simpl in Hlt. lia. }
      assert (HI0 : Inv (Some id) (Some id) s0) by (by eapply (Inv_frame _ _ _ _ _ HI)).
      destruct (paused s0) eqn:Hp.
      * by apply finish_Inv, requeue_Inv.
      * apply (wait_Inv id). exact HI0.
Qed.

Lemma process_slept_Inv now id ok s :
  Inv (live_or_none id s) (Some id) s ->
  Inv None None (process_slept now id ok s).
Proof.
  intros HI. unfold process_slept, live_or_none in *.
  destruct (settled_of s id) eqn:Hset; [destruct ok; by apply finish_Inv|]. destruct ok.
  - destruct (paused s) eqn:Hp; [by apply finish_Inv, requeue_Inv|by apply attempt_waiting_Inv].
  - eapply (settle_finish_Inv _ _ _ HI); try done. rewrite (dropped_sum_drop _ _ s s) by done. lia.
Qed.

Lemma drain_resumed_Inv now seen s : Inv None None s ->
  Inv None None (drain_resumed now seen s).
Proof.
  intros [H _ _]. unfold drain_resumed.
  assert (Hw : WF None (if pauses s =? seen then set_paused false s else s))
    by (case_match; [wf_same H|done]).
  set (s1 := if _ : bool then _ else _) in *.
  destruct (paused s1); [by apply wait_for_resume_Inv|by apply send_queued_Inv].
Qed.

Lemma worker_next_Inv busy ready s :
  Inv None None s -> drain s = D_work busy (S ready) ->
  Inv None None (worker_next busy ready s).
Proof.
  intros [H Hd Hb] Hdr. unfold worker_next.
  destruct (drainWorker_spec s H) as [[Hw _]|(id & q & Hq & Hp & Hw)]; rewrite Hw.
  - split; simpl; [wf_same H|done|]. intros b r i [= <- <-] Hi. by apply (Hb _ _ i Hdr).
  - pose proof (WF_shift _ _ _ H Hq) as Hs. pose proof (attempt_WF _ _ Hs) as Ha.
    destruct (live_item _ _ _ Hs (proj2 (wf_out _ _ Hs id eq_refl))) as (it & Hit & _).
    split; simpl; [wf_same Ha|done|]. intros b r i [= <- <-] Hi. left.
    apply elem_of_union in Hi as [->%elem_of_singleton|Hi].
    + apply attempt_thread. by exists it.
    + apply (fr_threads _ _ (attempt_frame' id (set_queue q s))).
      by destruct (Hb _ _ i Hdr Hi) as [?|?].
Qed.

(** A new item, live and not yet anywhere. *)
Lemma WF_new e s :
  WF None s -> (1 <= maxAttempts opts)%Z ->
  WF (Some (nextId s))
    (set_live ({[nextId s]} ∪ live s)
       (set_items (<[nextId s := mkPending e 0 false]> (items s))
          (set_nextId (S (nextId s)) (set_enqueued (S (enqueued s)) s)))).
Proof.
  intros H Hatt. set (id := nextId s).
  assert (Hfresh : id ∉ live s) by (intros Hl; apply (live_below _ _ _ H) in Hl; lia).
  assert (Hthread : threads s !! id = None).
  { destruct (threads s !! id) eqn:Ht; [|done].
    assert (id < nextId s) by (apply (wf_dom _ _ H); right; by eexists). lia. }
  split; simpl.
  - intros i. unfold settled_of. simpl. destruct (decide (i = id)) as [->|Hne].
    + rewrite lookup_insert_eq. simpl. symmetry. apply negb_false_iff, bool_decide_eq_true. set_solver.
    + rewrite lookup_insert_ne by done. fold (settled_of s i). rewrite (wf_live _ _ H). f_equal.
      apply bool_decide_ext. set_solver.
  - apply (wf_sorted _ _ H).
  - intros i Hi. destruct (wf_queue _ _ H i Hi) as (? & ? & _). split_and!; [set_solver|done|].
    intros [= <-]. done.
  - intros i [->%elem_of_singleton|Hi]%elem_of_union; [auto|].
    destruct (wf_cover _ _ H i Hi) as [?|[?|?]]; auto. done.
  - intros i [= <-]. split; [done|set_solver].
  - intros i [Hi|Hi].
    + destruct (decide (i = id)) as [->|Hne]; [unfold id; lia|]. rewrite lookup_insert_ne in Hi by done.
      assert (i < nextId s) by (apply (wf_dom _ _ H); by left). lia.
    + assert (i < nextId s) by (apply (wf_dom _ _ H); by right). lia.
  - intros i it Hi Hs. destruct (decide (i = id)) as [->|Hne].
    + rewrite lookup_insert_eq in Hi. simplify_eq/=. lia.
    + rewrite lookup_insert_ne in Hi by done. by apply (wf_attempts _ _ H i).
  - rewrite size_union by set_solver. rewrite size_singleton. pose proof (wf_count _ _ H).
    unfold dropped_total in *. simpl in *. lia.
  - apply (wf_seq _ _ H).
Qed.

Lemma WF_counted r s s' :
  WF None s -> items s' = items s -> live s' = live s -> queue s' = queue s ->
  threads s' = threads s -> nextId s' = nextId s -> dropped s' = dropped s ->
  sent s' = sent s -> seq_ s' = seq_ s -> requests s' = requests s ->
  enqueued s' = S (enqueued s) -> WF None (drop r 1 s').
Proof.
  intros H Hi Hl Hq Ht Hn Hd Hs Hsq Hr He.
  pose proof (dropped_sum_drop r 1 s s' Hs Hd) as Hsum.
  destruct H as [? ? ? ? ? ? ? Hc ?]. unfold settled_of in *.
  split; unfold settled_of; simpl in *; rewrite ?Hi, ?Hl, ?Hq, ?Ht, ?Hn, ?He, ?Hsq, ?Hr; auto. lia.
Qed.

Lemma send_Inv now e s : (1 <= maxAttempts opts)%Z -> Inv None None s ->
  Inv None None (send now e s).
Proof.
  intros Hatt HI. pose proof HI as [H Hd Hb]. unfold send. case_match; [done|].
  assert (Hdrop : forall r, Inv None None (drop r 1 (set_enqueued (S (enqueued s)) s))).
  { intros r. eapply (Inv_frame _ _ _ _ _ HI); try done. by apply (WF_counted r s). }
  simpl. case_match; [apply Hdrop|]. case_match; [apply Hdrop|].
  match goal with |- context [requeue now (nextId s) ?x] => set (s1 := x) end.
  assert (HI1 : Inv (Some (nextId s)) None s1)
    by (eapply (Inv_frame _ _ _ _ _ HI); [by apply WF_new|done..]).
  destruct (paused s) eqn:Hp; [by apply requeue_Inv|by apply attempt_Inv].
Qed.

(** *** Shutdown settles everything *)

Lemma settle_all_spec l s :
  NoDup l -> (forall i, i ∈ l -> settled_of s i = false) ->
  exists m, foldl (fun s id => settle id s) s l = set_live (live s ∖ list_to_set l) (set_items m s) /\
    forall i, m !! i = if decide (i ∈ l) then mark_settled <$> items s !! i else items s !! i.
Proof.
  revert s. induction l as [|x l IH]; intros s Hnd Hl; simpl.
  - exists (items s). split; [destruct s; unfold set_live, set_items; simpl; f_equal; set_solver|].
    intros i. destruct (decide (i ∈ [])); [set_solver|done].
  - apply NoDup_cons in Hnd as [Hx Hnd].
    assert (Hset : settle x s = set_live (live s ∖ {[x]}) (set_items (alter mark_settled x (items s)) s))
      by (unfold settle; by rewrite (Hl x) by set_solver).
    destruct (IH (settle x s)) as (m & Hm & Hmi); [done| |].
    { intros i Hi. rewrite Hset. unfold settled_of. simpl. assert (i <> x) by congruence.
      rewrite lookup_alter_ne by done. apply Hl. by right. }
    exists m. rewrite Hm, Hset. split.
    + unfold set_live, set_items. simpl. f_equal. set_solver.
    + intros i. rewrite Hmi, Hset. simpl.
      destruct (decide (i ∈ l)) as [Hi|Hi], (decide (i ∈ x :: l)) as [Hi'|Hi'].
      * by rewrite lookup_alter_ne by congruence.
      * exfalso. apply Hi'. by right.
      * apply elem_of_cons in Hi' as [->|?]; [by rewrite lookup_alter_eq|done].
      * rewrite lookup_alter_ne; [done|]. intros ->. apply Hi'. by left.
Qed.

(** [shutdown_over], computed. *)
Lemma shutdown_over_eq s :
  WF None s -> live s <> ∅ ->
  exists m, shutdown_over s =
      set_live ∅ (set_items m (drop dropped_at_shutdown (size (live s)) (set_queue [] s))) /\
    forall i, m !! i = if decide (i ∈ live s) then mark_settled <$> items s !! i else items s !! i.
Proof.
  intros H Hne. unfold shutdown_over. destruct (elements (live s)) as [|y l] eqn:Hel.
  { apply elements_empty_inv, leibniz_equiv in Hel. done. }
  rewrite <- Hel. set (s0 := drop _ _ _).
  destruct (settle_all_spec (elements (live s)) s0) as (m & -> & Hm).
  - apply NoDup_elements.
  - intros i Hi%elem_of_elements. by apply (live_settled _ _ _ H) in Hi.
  - exists m. split.
    + rewrite list_to_set_elements_L. unfold s0, set_live, set_items. simpl. by rewrite difference_diag_L.
    + intros i. rewrite Hm. simpl. destruct (decide (i ∈ live s)) as [Hi|Hi].
      * by rewrite decide_True by (by apply elem_of_elements).
      * by rewrite decide_False by (by rewrite elem_of_elements).
Qed.

Lemma shutdown_over_idle s : live s = ∅ -> shutdown_over s = s.
Proof. intros H. unfold shutdown_over. by rewrite H, elements_empty. Qed.

Lemma shutdown_over_Inv s : Inv None None s -> Inv None None (shutdown_over s).
Proof.
  intros HI. destruct (decide (live s = ∅)) as [He|Hne]; [by rewrite shutdown_over_idle|].
  pose proof HI as [H Hd Hb]. destruct (shutdown_over_eq s H Hne) as (m & -> & Hm).
  assert (Hc : enqueued s = sent s +
      dropped_total (drop dropped_at_shutdown (size (live s)) (set_queue [] s)) + size (∅ : gset nat)).
  { rewrite dropped_total_drop, size_empty. change (dropped_total (set_queue [] s)) with (dropped_total s).
    pose proof (wf_count _ _ H). lia. }
  split; [|done|done]. split; [..|exact Hc|]; simpl.
  - intros i. unfold settled_of. simpl. rewrite Hm. rewrite bool_decide_eq_false_2 by set_solver. simpl.
    destruct (decide (i ∈ live s)) as [Hi|Hi]; [by destruct (items s !! i)|].
    fold (settled_of s i). rewrite (wf_live _ _ H). by rewrite bool_decide_eq_false_2.
  - constructor.
  - intros i Hi. by apply elem_of_nil in Hi.
  - set_solver.
  - done.
  - intros i Hi. apply (wf_dom _ _ H). destruct Hi as [Hi|Hi]; [left|by right].
    rewrite Hm in Hi. case_decide; [|done]. by destruct (items s !! i).
  - intros i it Hi Hs. rewrite Hm in Hi. destruct (decide (i ∈ live s)) as [Hl|Hl].
    + destruct (items s !! i); simplify_eq/=.
    + by apply (wf_attempts _ _ H i).
  - apply (wf_seq _ _ H).
Qed.

(** *** A batch of one event reports at most one skipped row *)

Definition skips_one (w : Waits) : Prop :=
  match w with Returned (Delivered k) => k <= 1 | _ => True end.

Definition Skips (s : sender) : Prop := map_Forall (fun _ => skips_one) (threads s).

Lemma skippedOf_le b : skippedOf b <= 1.
Proof. unfold skippedOf. repeat case_match; lia. Qed.

Lemma Skips_insert id w s s' :
  Skips s -> threads s' = <[id := w]> (threads s) -> skips_one w -> Skips s'.
Proof. intros H Ht Hw. unfold Skips. rewrite Ht. by apply map_Forall_insert_2. Qed.

Lemma attempt_Skips id s : Skips s -> Skips (attempt id s).
Proof.
  intros H. unfold attempt. destruct (items s !! id); [|done]. destruct (negb _).
  { by eapply Skips_insert. }
  destruct (body _ _); by eapply Skips_insert.
Qed.

Lemma drainWorker_Skips q s : Skips s -> Skips (drainWorker q s).1.
Proof.
  revert s. induction q as [|id q IH]; intros s H; simpl; [done|].
  destruct (paused s); [done|]. destruct (settled_of s id); [by apply IH|]. by apply attempt_Skips.
Qed.

Lemma start_workers_Skips n busy s : Skips s -> Skips (start_workers n busy s).1.
Proof.
  revert busy s. induction n as [|n IH]; intros busy s H; simpl; [done|].
  destruct (queue s) as [|x q] eqn:Hq; [done|].
  pose proof (drainWorker_Skips (x :: q) s H) as Hw.
  destruct (drainWorker (x :: q) s) as [s1 w]. by apply IH.
Qed.

Lemma send_queued_Skips s : Skips s -> Skips (send_queued s).
Proof.
  intros H. unfold send_queued. pose proof (start_workers_Skips DRAIN_CONCURRENCY ∅ s H).
  by destruct (start_workers _ _ _).
Qed.

Lemma drain_loop_Skips now s : Skips s -> Skips (drain_loop now s).
Proof.
  intros H. unfold drain_loop. destruct (queue s); [done|].
  destruct (paused s); [done|by apply send_queued_Skips].
Qed.

Lemma requeue_Skips now id s : Skips s -> Skips (requeue now id s).
Proof. intros H. unfold requeue. case_match; [done|by apply drain_loop_Skips]. Qed.

Lemma finish_Skips id s : Skips s -> Skips (finish id s).
Proof. intros H. unfold finish. by repeat case_match. Qed.

Lemma settle_Skips id s : Skips s -> Skips (settle id s).
Proof. intros H. unfold settle. by case_match. Qed.

#[local] Hint Resolve attempt_Skips drainWorker_Skips send_queued_Skips drain_loop_Skips
  requeue_Skips finish_Skips settle_Skips : skips.

Lemma run_step_Skips l s s' : run_step l s = Some s' -> Skips s -> Skips s'.
Proof.
  intros Hs H.
  assert (Hres : forall id, Skips (resume id s)) by (intros; by apply map_Forall_delete).
  destruct l; simpl in Hs.
  - injection Hs as <-. unfold send. simpl. repeat case_match; try done; auto with skips.
  - destruct (threads s !! id) as [[]|]; try done. injection Hs as <-. unfold attempt_settled.
    repeat case_match; by eapply Skips_insert.
  - destruct (threads s !! id) as [[]|]; try done. injection Hs as <-.
    eapply Skips_insert; [done|done|]. apply skippedOf_le.
  - destruct (threads s !! id) as [[]|]; try done. injection Hs as <-. specialize (Hres id).
    unfold process_outcome. set (s0 := resume id s) in *. clearbody s0.
    destruct (settled_of _ _); [by auto with skips|]. destruct o as [k|r f]; simpl.
    + destruct (k =? 0); by apply finish_Skips, settle_Skips.
    + destruct (_ || _); [by apply finish_Skips, settle_Skips|]. destruct (paused s0).
      * by apply finish_Skips, requeue_Skips.
      * by eapply Skips_insert.
  - destruct (threads s !! id) as [[]|]; try done. injection Hs as <-. specialize (Hres id).
    unfold process_slept. repeat case_match; auto with skips.
  - destruct (drain s); try done. injection Hs as <-. unfold drain_resumed.
    repeat case_match; try done; by apply send_queued_Skips.
  - destruct (drain s) as [| |busy [|ready]]; try done. injection Hs as <-. unfold worker_next.
    pose proof (drainWorker_Skips (queue s) s H). by destruct (drainWorker _ _).
  - destruct (drain s) as [| |busy [|ready]]; try done. case_decide; [|done]. injection Hs as <-.
    by apply drain_loop_Skips.
  - injection Hs as <-. unfold shutdown. by repeat (case_decide || case_match).
  - destruct (shutdowns s) as [|n]; [done|]. injection Hs as <-. unfold shutdown_over.
    destruct (elements _); [done|]. set (s0 := drop _ _ _). assert (H0 : Skips s0) by done.
    clearbody s0. revert s0 H0. generalize (n0 :: l). clear. intros l. induction l as [|x l IH]; intros s0 H0; simpl; auto with skips.
Qed.

(** Every step keeps the invariant. *)
Lemma run_step_Inv l s s' :
  (1 <= maxAttempts opts)%Z -> Skips s -> Inv None None s -> run_step l s = Some s' ->
  Inv None None s'.
Proof.
  intros Hatt Hsk HI Hs.
  assert (Hwait : forall id w0 w s1, threads s !! id = Some w0 ->
    items s1 = items s -> live s1 = live s -> queue s1 = queue s -> threads s1 = threads s ->
    nextId s1 = nextId s -> enqueued s1 = enqueued s -> sent s1 = sent s -> dropped s1 = dropped s ->
    seq_ s1 = seq_ s -> requests s1 = requests s -> drain s1 = drain s ->
    Inv None None (set_threads (<[id := w]> (threads s1)) s1)).
  { intros id w0 w s1 Hw Hi Hl Hq Ht Hn He Hse Hd Hsq Hr Hdr. pose proof HI as [H Hdn Hb].
    assert (Hdom : forall i, is_Some (<[id := w]> (threads s) !! i) <-> is_Some (threads s !! i)).
    { intros i. destruct (decide (i = id)) as [->|]; [rewrite lookup_insert_eq, Hw|by rewrite lookup_insert_ne].
      split; intros _; by eexists. }
    rewrite Ht.
    eapply (Inv_frame _ _ _ _ _ HI); [|by simpl|by simpl|simpl; intros i Hi'; by apply Hdom].
    destruct H as [? ? Hwq Hcov ? Hwd ? Hc ?]. unfold settled_of, dropped_total in *.
    split; unfold settled_of, dropped_total; simpl in *; rewrite ?Hi, ?Hl, ?Hq, ?Hn, ?He, ?Hse, ?Hd, ?Hsq, ?Hr; auto.
    - intros i Hqi. destruct (Hwq i Hqi) as (? & Hno & _). split_and!; [done| |done].
      destruct (decide (i = id)) as [->|]; [congruence|by rewrite lookup_insert_ne].
    - intros i Hli. destruct (Hcov i Hli) as [?|[?|?]]; [by left|right; left; by apply Hdom|done].
    - done.
    - intros i Hii. apply Hwd. by rewrite Hdom in Hii. }
  destruct l; simpl in Hs.
  - injection Hs as <-. by apply send_Inv.
  - destruct (threads s !! id) as [w|] eqn:Hw; [|done]. destruct w; try done. injection Hs as <-.
    unfold attempt_settled. destruct r as [[] st ra|]; [by eapply Hwait| |by eapply Hwait].
    destruct (st =? 429)%Z; by eapply Hwait.
  - destruct (threads s !! id) as [w|] eqn:Hw; [|done]. destruct w; try done. injection Hs as <-.
    by eapply Hwait.
  - destruct (threads s !! id) as [w|] eqn:Hw; [|done]. destruct w; try done. injection Hs as <-.
    apply process_outcome_Inv; [exact (resume_Inv _ _ _ HI Hw)|]. intros k ->. apply (Hsk _ _ Hw).
  - destruct (threads s !! id) as [w|] eqn:Hw; [|done]. destruct w; try done. injection Hs as <-.
    apply process_slept_Inv. exact (resume_Inv _ _ _ HI Hw).
  - destruct (drain s) eqn:Hdr; try done. injection Hs as <-. by apply drain_resumed_Inv.
  - destruct (drain s) as [| |busy [|ready]] eqn:Hdr; try done. injection Hs as <-.
    by apply worker_next_Inv.
  - destruct (drain s) as [| |busy [|ready]] eqn:Hdr; try done. case_decide; [|done].
    injection Hs as <-. apply drain_loop_Inv, HI.
  - injection Hs as <-. unfold shutdown.
    assert (Hc : Inv None None (if paused (set_closed true s)
        then set_resumeAt nzero (set_paused false (set_closed true s)) else set_closed true s)).
    { destruct (paused _); eapply (Inv_frame _ _ _ _ _ HI); try done; destruct HI as [Hw _ _]; wf_same Hw. }
    set (s1 := if _ : bool then _ else _) in *. clearbody s1.
    case_decide; [done|]. eapply (Inv_frame _ _ _ _ _ Hc); try done. destruct Hc as [Hw _ _]. wf_same Hw.
  - destruct (shutdowns s) as [|n]; [done|]. injection Hs as <-. apply shutdown_over_Inv.
    eapply (Inv_frame _ _ _ _ _ HI); try done. destruct HI as [H _ _]. wf_same H.
Qed.

Lemma new_sender_Inv : Inv None None new_sender.
Proof.
  split; [|done|done]. split; simpl; try done; try set_solver.
  - constructor.
  - intros i [[? Hi]|[? Hi]]; by rewrite lookup_empty in Hi.
Qed.

Lemma reachable_Inv s : (1 <= maxAttempts opts)%Z -> reachable s -> Skips s /\ Inv None None s.
Proof.
  intros Hatt [ls Hr]. eapply (run_invariant _ (fun s => Skips s /\ Inv None None s)); [|exact Hr|].
  - intros l a b Hs [? ?]. split; [by eapply run_step_Skips|by eapply run_step_Inv].
  - split; [by intros ? ? ?|apply new_sender_Inv].
Qed.

(** ** Termination: the work left *)

Definition remaining (s : sender) (id : nat) : nat :=
  match items s !! id with
  | Some it => Z.to_nat (maxAttempts opts - Z.of_nat (it_attempts it))
  | None => 0
  end.

Definition phase (w : Waits) : nat :=
  match w with Sleeping _ => 5 | Fetching => 3 | Reading => 2 | Returned _ => 1 end.

(** What an item can still cost: eight steps for each attempt it has left, and
    those of the attempt it is in. *)
Definition weight (s : sender) (id : nat) : nat :=
  match threads s !! id with
  | Some w => 8 * remaining s id + phase w
  | None => if decide (id ∈ queue s) then 8 * remaining s id + 4 else 0
  end.

Definition drain_rank (s : sender) : nat :=
  match drain s with
  | D_idle => 0
  | D_wait seen _ =>
      (match queue s with [] => 2 | _ => 4 end) + (if pauses s =? seen then 0 else 1)
  | D_work _ ready => (match queue s with [] => 1 | _ => 6 end) + ready
  end.

Definition work (s : sender) : nat :=
  16 * sum_below (nextId s) (weight s) + drain_rank s + shutdowns s.

Lemma work_drop id s s' :
  id < nextId s -> nextId s' = nextId s -> shutdowns s' = shutdowns s ->
  (forall i, i <> id -> weight s' i <= weight s i) -> weight s' id < weight s id ->
  drain_rank s' < drain_rank s + 16 -> work s' < work s.
Proof.
  intros Hid Hn Hsh Ho Hd Hr. unfold work. rewrite Hn, Hsh.
  assert (sum_below (nextId s) (weight s') + 1 <= sum_below (nextId s) (weight s));
    [|lia].
  apply (sum_below_drop _ _ _ id); [done| |lia]. intros i _ Hne. by apply Ho.
Qed.

Lemma work_rank s s' :
  nextId s' = nextId s -> (forall i, weight s' i <= weight s i) ->
  drain_rank s' + shutdowns s' < drain_rank s + shutdowns s -> work s' < work s.
Proof.
  intros Hn Hw Hr. unfold work. rewrite Hn.
  assert (sum_below (nextId s) (weight s') <= sum_below (nextId s) (weight s))
    by (apply sum_below_le; auto). lia.
Qed.

Lemma weight_same s s' i :
  threads s' !! i = threads s !! i -> items s' !! i = items s !! i ->
  (i ∈ queue s' <-> i ∈ queue s) -> weight s' i = weight s i.
Proof.
  intros Ht Hi Hq. unfold weight, remaining. rewrite Ht, Hi.
  destruct (threads s !! i); [done|]. by destruct (decide (i ∈ queue s')), (decide (i ∈ queue s)); naive_solver.
Qed.

Lemma weight_thread s s' id w w' :
  threads s !! id = Some w -> threads s' !! id = Some w' -> remaining s' id = remaining s id ->
  phase w' < phase w -> weight s' id < weight s id.
Proof. intros Ht Ht' Hr Hp. unfold weight. rewrite Ht, Ht', Hr. lia. Qed.

Lemma remaining_same s s' id : items s' !! id = items s !! id -> remaining s' id = remaining s id.
Proof. intros H. unfold remaining. by rewrite H. Qed.

(** The head of the queue is attempted. *)
Lemma take_weight id q s :
  WF None s -> queue s = id :: q ->
  let s' := attempt id (set_queue q s) in
  (forall i, i <> id -> weight s' i <= weight s i) /\ weight s' id < weight s id /\
  id < nextId s.
Proof.
  intros H Hq s'. pose proof (WF_shift _ _ _ H Hq) as Hs.
  assert (Hin : id ∈ queue s) by (rewrite Hq; by left).
  destruct (wf_queue _ _ H id Hin) as (Hl & Hno & _).
  destruct (live_item _ _ _ H Hl) as (it & Hit & _).
  destruct (attempt_frame id (set_queue q s)) as (Hfq & _ & Hfi & _ & _ & _ & _ & _ & _ & Hft & Hfw).
  fold s' in Hfq, Hfi, Hft, Hfw. simpl in Hfi, Hft, Hfw, Hfq. split_and!.
  - intros i Hne. rewrite (weight_same s s' i); [done|by apply Hft|by rewrite Hfi|].
    rewrite Hfq, Hq. set_solver.
  - destruct (attempt_thread id (set_queue q s)) as [w Hw]; [by exists it|]. fold s' in Hw.
    unfold weight. rewrite Hw, Hno, decide_True by done.
    rewrite (remaining_same s s' id) by (by rewrite Hfi).
    destruct (Hfw w Hw) as [->|[[o ->]|Hw']]; simpl; [lia|lia|congruence].
  - by eapply live_below.
Qed.

Lemma start_workers_weight n busy s s' busy' :
  WF None s -> start_workers n busy s = (s', busy') -> forall i, weight s' i <= weight s i.
Proof.
  revert busy s. induction n as [|n IH]; intros busy s H Hrun i; simpl in Hrun.
  { by injection Hrun as <- <-. }
  destruct (drainWorker_spec s H) as [[Hw _]|(id & q & Hq & Hp & Hw)]; rewrite Hw in Hrun.
  - destruct (queue s) eqn:Hq; [by injection Hrun as <- <-|]. by apply (IH busy).
  - rewrite Hq in Hrun. destruct (take_weight id q s H Hq) as (Ho & Hd & _).
    pose proof (IH _ _ (attempt_WF _ _ (WF_shift _ _ _ H Hq)) Hrun i) as Hle.
    destruct (decide (i = id)) as [->|Hne]; [lia|]. specialize (Ho i Hne). lia.
Qed.

Lemma start_workers_head n busy id q s :
  WF None s -> paused s = false -> queue s = id :: q ->
  start_workers (S n) busy s = start_workers n ({[id]} ∪ busy) (attempt id (set_queue q s)).
Proof.
  intros H Hp Hq. simpl.
  destruct (drainWorker_spec s H) as [[_ [?|?]]|(id' & q' & Hq' & _ & Hw)]; [congruence..|].
  rewrite Hw. rewrite Hq in Hq'. injection Hq' as <- <-. by rewrite Hq.
Qed.

(** The workers send the head of a queue that is not paused. *)
Lemma send_queued_work s :
  WF None s -> paused s = false -> queue s <> [] -> work (send_queued s) < work s.
Proof.
  intros H Hp Hq. unfold send_queued. destruct (start_workers DRAIN_CONCURRENCY ∅ s) as [s' busy] eqn:Hrun.
  pose proof Hrun as Hspec. apply start_workers_spec in Hspec as (_ & Hf & _ & _ & _); [|done|set_solver].
  destruct (queue s) as [|id q] eqn:Hqs; [done|]. change DRAIN_CONCURRENCY with (S 7) in Hrun.
  rewrite (start_workers_head _ _ id q) in Hrun by done. destruct (take_weight id q s H Hqs) as (Ho & Hd & Hid).
  pose proof (start_workers_weight _ _ _ _ _ (attempt_WF _ _ (WF_shift _ _ _ H Hqs)) Hrun) as Hle.
  apply (work_drop id); simpl; [done|by apply Hf|by apply Hf| | |].
  - intros i Hne. change (weight s' i <= weight s i). specialize (Ho i Hne). specialize (Hle i). lia.
  - change (weight s' id < weight s id). specialize (Hle id). lia.
  - unfold drain_rank. simpl. destruct (queue s'); lia.
Qed.

Lemma drain_loop_work now busy s :
  WF None s -> drain s = D_work busy 0 -> work (drain_loop now s) < work s.
Proof.
  intros H Hdr. unfold drain_loop. destruct (queue s) as [|x q] eqn:Hq.
  - apply work_rank; [done|done|]. unfold drain_rank. simpl. rewrite Hdr, Hq. lia.
  - destruct (paused s) eqn:Hp.
    + apply work_rank; [done|done|]. unfold drain_rank. simpl.
      rewrite Hdr, Hq, Nat.eqb_refl. lia.
    + apply send_queued_work; [done|done|by rewrite Hq].
Qed.

Lemma drain_resumed_work now seen ms s :
  WF None s -> drain s = D_wait seen ms -> work (drain_resumed now seen s) < work s.
Proof.
  intros H Hdr. unfold drain_resumed.
  assert (Hgo : forall s1, WF None s1 -> paused s1 = false -> drain s1 = drain s -> queue s1 = queue s ->
    nextId s1 = nextId s -> pauses s1 = pauses s -> shutdowns s1 = shutdowns s ->
    (forall i, weight s1 i = weight s i) -> work (send_queued s1) < work s).
  { intros s1 H1 Hp Hd Hq Hn Hps Hsh Hw.
    assert (Hws : work s1 = work s).
    { unfold work, drain_rank. rewrite Hd, Hq, Hn, Hps, Hsh. f_equal. f_equal. f_equal.
      apply Nat.le_antisymm; apply sum_below_le; intros; by rewrite Hw. }
    rewrite <- Hws. destruct (queue s1) as [|x q] eqn:Hq1.
    - assert (Hnone : send_queued s1 = set_drain (D_work ∅ 0) s1)
        by (unfold send_queued; simpl; by rewrite Hq1).
      rewrite Hnone. apply work_rank; [done|done|]. unfold drain_rank. simpl. rewrite Hq1, Hd, Hdr. lia.
    - apply send_queued_work; [done|done|by rewrite Hq1]. }
  destruct (Nat.eqb_spec (pauses s) seen) as [Heq|Hne].
  - simpl. apply Hgo; try done. wf_same H.
  - destruct (paused s) eqn:Hp; [|by apply Hgo].
    apply work_rank; [done|done|]. unfold drain_rank. simpl. rewrite Hdr, Nat.eqb_refl.
    apply Nat.eqb_neq in Hne. rewrite Hne. destruct (queue s); lia.
Qed.

Lemma worker_next_work busy ready s :
  WF None s -> drain s = D_work busy (S ready) -> work (worker_next busy ready s) < work s.
Proof.
  intros H Hdr. unfold worker_next.
  destruct (drainWorker_spec s H) as [[Hw _]|(id & q & Hq & Hp & Hw)]; rewrite Hw.
  - apply work_rank; [done|done|]. unfold drain_rank. simpl. rewrite Hdr. destruct (queue s); lia.
  - destruct (take_weight id q s H Hq) as (Ho & Hd & Hid).
    destruct (attempt_frame id (set_queue q s)) as (_ & _ & _ & _ & _ & Hn & _ & Hsh & _).
    apply (work_drop id); try done. unfold drain_rank. simpl. rewrite Hdr, Hq.
    case_match; lia.
Qed.

Lemma finish_work id s :
  drain_rank (finish id s) <= drain_rank s + 1 /\
  nextId (finish id s) = nextId s /\ shutdowns (finish id s) = shutdowns s /\
  (forall i, weight (finish id s) i = weight s i).
Proof.
  unfold finish. destruct (drain s) eqn:Hd; [split_and!; auto; lia..|].
  case_decide; [|split_and!; auto; lia]. split_and!; auto. unfold drain_rank. simpl. rewrite Hd.
  case_match; lia.
Qed.

(** A running call returns, its item having lost weight. *)
Lemma work_finish id s s1 :
  id < nextId s -> nextId s1 = nextId s -> shutdowns s1 = shutdowns s ->
  (forall i, i <> id -> weight s1 i <= weight s i) -> weight s1 id < weight s id ->
  drain_rank s1 < drain_rank s + 15 -> work (finish id s1) < work s.
Proof.
  intros Hid Hn Hsh Ho Hd Hr. destruct (finish_work id s1) as (Hrf & Hnf & Hsf & Hwf).
  apply (work_drop id); [done|congruence|congruence| | |lia].
  - intros i Hne. rewrite Hwf. by apply Ho.
  - by rewrite Hwf.
Qed.

Lemma settle_weight id s i : weight (settle id s) i = weight s i.
Proof.
  unfold settle. case_match; [done|]. unfold weight, remaining. simpl.
  destruct (decide (i = id)) as [->|Hne]; [|by rewrite lookup_alter_ne].
  rewrite lookup_alter_eq. by destruct (items s !! id).
Qed.

Lemma settle_rank id s : drain_rank (settle id s) = drain_rank s.
Proof. unfold settle. by case_match. Qed.

(** A call that waited for a promise is running. *)
Lemma resume_weight id w s :
  WF None s -> threads s !! id = Some w ->
  weight (resume id s) id = 0 /\ (forall i, i <> id -> weight (resume id s) i = weight s i) /\
  8 * remaining s id + 1 <= weight s id /\ id < nextId s.
Proof.
  intros H Hw. split_and!.
  - unfold weight. simpl. rewrite lookup_delete_eq, decide_False; [done|].
    intros Hq. destruct (wf_queue _ _ H id Hq) as (_ & ? & _). congruence.
  - intros i Hne. apply weight_same; [simpl; by rewrite lookup_delete_ne|done|done].
  - unfold weight. rewrite Hw. destruct w; simpl; lia.
  - apply (wf_dom _ _ H). right. by eexists.
Qed.

Lemma settle_finish_work id w s s1 :
  WF None s -> threads s !! id = Some w ->
  threads s1 = threads (resume id s) -> (forall i, i <> id -> items s1 !! i = items s !! i) ->
  queue s1 = queue s -> nextId s1 = nextId s -> shutdowns s1 = shutdowns s ->
  drain s1 = drain s -> pauses s1 = pauses s ->
  work (finish id (settle id s1)) < work s.
Proof.
  intros H Hw Ht Hi Hq Hn Hsh Hdr Hp.
  destruct (resume_weight id w s H Hw) as (Hz & Ho & Hpos & Hid).
  destruct (settle_frame id s1) as (_ & _ & _ & _ & Hsn & _ & Hss).
  apply work_finish; [done|congruence|congruence| | |].
  - intros i Hne. rewrite settle_weight, <- (Ho i Hne). apply Nat.eq_le_incl, weight_same.
    + by rewrite Ht.
    + by apply Hi.
    + by rewrite Hq.
  - rewrite settle_weight. replace (weight s1 id) with 0; [lia|]. symmetry.
    rewrite <- Hz. unfold weight. rewrite Ht. simpl. rewrite lookup_delete_eq, Hq.
    destruct (decide (id ∈ queue s)) as [Hin|]; [|done].
    destruct (wf_queue _ _ H id Hin) as (_ & ? & _). congruence.
  - rewrite settle_rank. unfold drain_rank. rewrite Hdr, Hq, Hp. lia.
Qed.

Lemma zombie_work id w s :
  WF None s -> threads s !! id = Some w -> work (finish id (resume id s)) < work s.
Proof.
  intros H Hw. destruct (resume_weight id w s H Hw) as (Hz & Ho & Hpos & Hid).
  apply work_finish; try done; [intros i Hne; by rewrite Ho|lia|]. unfold drain_rank. simpl. lia.
Qed.

Lemma requeue_work now id s :
  paused s = true ->
  let s' := requeue now id s in
  threads s' = threads s /\ items s' = items s /\ queue s' = insert_id id (queue s) /\
  nextId s' = nextId s /\ shutdowns s' = shutdowns s /\ drain_rank s' <= drain_rank s + 5.
Proof.
  intros Hp. unfold requeue.
  change (draining (set_queue (insert_id id (queue s)) s)) with (draining s). unfold draining.
  assert (Hq : exists x q, insert_id id (queue s) = x :: q).
  { destruct (insert_id id (queue s)) as [|x q] eqn:E; [|by eexists _, _].
    assert (Hin : id ∈ insert_id id (queue s)) by (apply insert_id_elem; by left).
    rewrite E in Hin. by apply elem_of_nil in Hin. }
  destruct Hq as (x & q & Hq).
  destruct (drain s) eqn:Hd; simpl.
  - unfold drain_loop. simpl. rewrite Hq, Hp. simpl. split_and!; try done.
    unfold drain_rank. simpl. rewrite Hd, Nat.eqb_refl. lia.
  - split_and!; try done. unfold drain_rank. simpl. rewrite Hd, Hq. repeat case_match; lia.
  - split_and!; try done. unfold drain_rank. simpl. rewrite Hd, Hq. repeat case_match; lia.
Qed.

(** A running item goes to the queue, [s1] having counted its attempt or not. *)
Lemma requeue_finish_work now id w s s1 :
  WF None s -> threads s !! id = Some w ->
  threads s1 = threads (resume id s) -> (forall i, i <> id -> items s1 !! i = items s !! i) ->
  queue s1 = queue s -> nextId s1 = nextId s -> shutdowns s1 = shutdowns s ->
  drain s1 = drain s -> pauses s1 = pauses s -> paused s1 = true ->
  8 * remaining s1 id + 4 < weight s id ->
  work (finish id (requeue now id s1)) < work s.
Proof.
  intros H Hw Ht Hi Hq Hn Hsh Hdr Hps Hp Hlt.
  destruct (resume_weight id w s H Hw) as (Hz & Ho & Hpos & Hid).
  destruct (requeue_work now id s1 Hp) as (Hrt & Hri & Hrq & Hrn & Hrs & Hrr).
  apply work_finish; [done|congruence|congruence| | |].
  - intros i Hne. rewrite <- (Ho i Hne). apply Nat.eq_le_incl, weight_same.
    + by rewrite Hrt, Ht.
    + rewrite Hri. by apply Hi.
    + rewrite Hrq, insert_id_elem, Hq. simpl. naive_solver.
  - unfold weight at 1. rewrite Hrt, Ht. simpl. rewrite lookup_delete_eq, decide_True.
    + by rewrite (remaining_same s1) by (by rewrite Hri).
    + rewrite Hrq. apply insert_id_elem. by left.
  - replace (drain_rank s) with (drain_rank s1); [lia|]. unfold drain_rank. by rewrite Hdr, Hq, Hps.
Qed.

(** The call waits again. *)
Lemma wait_work id w w' s s1 :
  WF None s -> threads s !! id = Some w ->
  threads s1 = <[id := w']> (threads s) -> (forall i, i <> id -> items s1 !! i = items s !! i) ->
  queue s1 = queue s -> nextId s1 = nextId s -> shutdowns s1 = shutdowns s ->
  drain_rank s1 < drain_rank s + 16 ->
  8 * remaining s1 id + phase w' < 8 * remaining s id + phase w ->
  work s1 < work s.
Proof.
  intros H Hw Ht Hi Hq Hn Hsh Hr Hlt.
  destruct (resume_weight id w s H Hw) as (_ & _ & _ & Hid).
  apply (work_drop id); try done.
  - intros i Hne. apply Nat.eq_le_incl, weight_same; [|by apply Hi|by rewrite Hq].
    rewrite Ht. by rewrite lookup_insert_ne.
  - unfold weight. by rewrite Ht, Hw, lookup_insert_eq.
Qed.

Lemma process_outcome_work now id o s :
  WF None s -> threads s !! id = Some (Returned o) ->
  work (process_outcome now id o (resume id s)) < work s.
Proof.
  intros H Hw. unfold process_outcome. destruct (settled_of (resume id s) id) eqn:Hset.
  { by eapply zombie_work. }
  destruct o as [k|r f].
  { simpl. destruct (k =? 0); by eapply (settle_finish_work id). }
  change (settled_of s id = false) in Hset.
  assert (Hit : exists it, items s !! id = Some it /\ it_settled it = false)
    by (eapply live_item; [done|]; by apply (live_settled _ _ _ H)).
  destruct Hit as (it & Hit & Hns). pose proof (wf_attempts _ _ H id it Hit Hns) as Hatt.
  set (s0 := set_items _ (resume id s)).
  assert (Hi0 : forall i, i <> id -> items s0 !! i = items s !! i)
    by (intros i Hne; simpl; by rewrite lookup_alter_ne).
  assert (Hit0 : items s0 !! id = Some (count_attempt it))
    by (simpl; by rewrite lookup_alter_eq, Hit).
  assert (Hrem : remaining s id = S (remaining s0 id)).
  { unfold remaining. rewrite Hit, Hit0. simpl. lia. }
  rewrite Hit0. destruct (_ || _).
  { by eapply (settle_finish_work id). }
  destruct (paused s0) eqn:Hp.
  - eapply (requeue_finish_work now id); try done. unfold weight. rewrite Hw. simpl phase. lia.
  - eapply (wait_work id); [done|done|..]; try done.
    + simpl. by rewrite insert_delete_eq.
    + unfold drain_rank. simpl. lia.
    + match goal with |- context [remaining ?x id] => rewrite (remaining_same s0 x) by done end.
      rewrite Hrem. simpl. lia.
Qed.

Lemma process_slept_work now id ms ok s :
  WF None s -> threads s !! id = Some (Sleeping ms) ->
  work (process_slept now id ok (resume id s)) < work s.
Proof.
  intros H Hw. unfold process_slept. destruct ok.
  2: { destruct (settled_of _ _); [by eapply zombie_work|]. by eapply (settle_finish_work id). }
  destruct (settled_of (resume id s) id) eqn:Hset; [by eapply zombie_work|].
  destruct (paused (resume id s)) eqn:Hp.
  - eapply (requeue_finish_work now id); try done. unfold weight. rewrite Hw. simpl phase.
    rewrite (remaining_same s (resume id s)) by done. lia.
  - destruct (attempt_frame id (resume id s)) as (Hfq & _ & Hfi & _ & Hfp & Hfn & Hfd & Hfs & _ & Hft & Hfw).
    destruct (resume_weight id _ s H Hw) as (_ & Ho & _ & Hid).
    apply (work_drop id); [done|done|done| | |].
    + intros i Hne. rewrite <- (Ho i Hne). apply Nat.eq_le_incl, weight_same;
        [by apply Hft|by rewrite Hfi|by rewrite Hfq].
    + assert (Hit : is_Some (items (resume id s) !! id)).
      { unfold settled_of in Hset. destruct (items (resume id s) !! id); [by eexists|done]. }
      destruct (attempt_thread id _ Hit) as [w' Hw'].
      unfold weight. rewrite Hw', Hw. rewrite (remaining_same s) by (by rewrite Hfi).
      destruct (Hfw w' Hw') as [->|[[o ->]|Hx]]; simpl; [lia|lia|].
      simpl in Hx. by rewrite lookup_delete_eq in Hx.
    + unfold drain_rank. rewrite Hfd, Hfq, Hfp. simpl. lia.
Qed.

Lemma shutdown_over_work s n :
  WF None s -> shutdowns s = S n -> work (shutdown_over (set_shutdowns n s)) < work s.
Proof.
  intros H Hsh. set (s1 := set_shutdowns n s).
  assert (H1 : WF None s1) by wf_same H.
  destruct (decide (live s1 = ∅)) as [He|Hne].
  { rewrite shutdown_over_idle by done. apply work_rank; [done|done|]. unfold drain_rank. simpl. lia. }
  destruct (shutdown_over_eq s1 H1 Hne) as (m & -> & Hm).
  apply work_rank; [done| |].
  - intros i. unfold weight, remaining. simpl. rewrite Hm.
    assert (Hr : match (if decide (i ∈ live s1) then mark_settled <$> items s1 !! i else items s1 !! i) with
      | Some it => Z.to_nat (maxAttempts opts - Z.of_nat (it_attempts it)) | None => 0 end = remaining s i).
    { unfold remaining. simpl. case_decide; [by destruct (items s !! i)|done]. }
    rewrite Hr. destruct (threads s !! i); [done|]. lia.
  - unfold drain_rank. simpl. rewrite Hsh. repeat case_match; lia.
Qed.

Lemma internal_step_work l s s' :
  internal l -> Inv None None s -> run_step l s = Some s' -> work s' < work s.
Proof.
  intros Hint [H Hdn Hb] Hs. destruct l; simpl in Hs; try done.
  - destruct (threads s !! id) as [[]|] eqn:Hw; try done. injection Hs as <-.
    unfold attempt_settled. destruct r as [[] st ra|]; [|destruct (st =? 429)%Z|];
      (eapply (wait_work id); [done|done|..]; try done; simpl; rewrite ?(remaining_same s) by done; try lia;
       unfold drain_rank; simpl; repeat case_match; lia).
  - destruct (threads s !! id) as [[]|] eqn:Hw; try done. injection Hs as <-.
    eapply (wait_work id); [done|done|..]; try done; simpl; rewrite ?(remaining_same s) by done; try lia.
    unfold drain_rank; simpl; repeat case_match; lia.
  - destruct (threads s !! id) as [[]|] eqn:Hw; try done. injection Hs as <-. by apply process_outcome_work.
  - destruct (threads s !! id) as [[]|] eqn:Hw; try done. injection Hs as <-. by eapply process_slept_work.
  - destruct (drain s) eqn:Hdr; try done. injection Hs as <-. by eapply drain_resumed_work.
  - destruct (drain s) as [| |busy [|ready]] eqn:Hdr; try done. injection Hs as <-.
    by apply worker_next_work.
  - destruct (drain s) as [| |busy [|ready]] eqn:Hdr; try done. case_decide; [|done].
    injection Hs as <-. by eapply drain_loop_work.
  - destruct (shutdowns s) as [|n] eqn:Hsh; [done|]. injection Hs as <-. by apply shutdown_over_work.
Qed.

(** A sender with an unsettled event has a promise that can settle. *)
Lemma live_not_stuck s :
  Inv None None s -> live s <> ∅ -> exists l s', internal l /\ run_step l s = Some s'.
Proof.
  intros [H Hdn Hb] Hne. destruct (set_choose_L _ Hne) as [id Hl].
  assert (Hthread : forall i w, threads s !! i = Some w ->
    exists l s', internal l /\ run_step l s = Some s').
  { intros i [| |o|ms] Hw.
    - exists (FetchSettled nzero i Rejected). eexists. split; [done|]. simpl. by rewrite Hw.
    - exists (BodyRead i None). eexists. split; [done|]. simpl. by rewrite Hw.
    - exists (AttemptReturned nzero i). eexists. split; [done|]. simpl. by rewrite Hw.
    - exists (Slept nzero i true). eexists. split; [done|]. simpl. by rewrite Hw. }
  destruct (wf_cover _ _ H id Hl) as [Hq|[[w Hw]|?]]; [|by eapply Hthread|done].
  destruct (drain s) as [|seen ms|busy ready] eqn:Hdr.
  - exfalso. apply Hdn; [|done]. intros Hnil. rewrite Hnil in Hq. by apply elem_of_nil in Hq.
  - exists (Resumed nzero). eexists. split; [done|]. simpl. by rewrite Hdr.
  - destruct ready as [|ready].
    + destruct (decide (busy = ∅)) as [->|Hb'].
      * exists (WorkersDone nzero). eexists. split; [done|]. simpl. by rewrite Hdr, decide_True.
      * destruct (set_choose_L _ Hb') as [i Hi].
        destruct (Hb _ _ i eq_refl Hi) as [[w Hw]|?]; [by eapply Hthread|done].
    + exists WorkerNext. eexists. split; [done|]. simpl. by rewrite Hdr.
Qed.

(** ** Properties *)

(** [C30] Loss accounting: in every reachable state each enqueued event has been
    counted once, as sent, as dropped for one reason, or as pending; the
    back-off queue is in enqueue order; and the batches sent so far carry the
    sequence numbers 1, 2, 3... *)
Theorem events_are_accounted s :
  (1 <= maxAttempts opts)%Z -> reachable s ->
  enqueued s = sent s + dropped_total s + size (live s) /\
  StronglySorted lt (queue s) /\ (forall id, id ∈ queue s -> id ∈ live s) /\
  map b_seq (requests s) = seq 1 (length (requests s)).
Proof.
  intros Hatt Hr. destruct (reachable_Inv s Hatt Hr) as [_ [H _ _]]. split_and!.
  - apply (wf_count _ _ H).
  - apply (wf_sorted _ _ H).
  - intros id Hid. by apply (wf_queue _ _ H id).
  - pose proof (wf_seq _ _ H) as Hs. rewrite Hs. f_equal.
    apply (f_equal length) in Hs. by rewrite length_map, length_seq in Hs.
Qed.

(** The sender's own steps end: from a reachable state there is no
    infinite sequence of settled requests, delays and drain steps, whatever the
    collector answers, and [work] bounds their number. *)
Lemma delivery_terminates s :
  (1 <= maxAttempts opts)%Z -> reachable s ->
  Acc (fun b a => exists l, internal l /\ sender_step l a b) s /\
  (forall ls s', run sender_step ls s s' -> Forall internal ls -> length ls <= work s).
Proof.
  intros Hatt Hr. pose proof (reachable_Inv s Hatt Hr) as HI.
  assert (Hpres : forall l a b, sender_step l a b -> Skips a /\ Inv None None a -> Skips b /\ Inv None None b)
    by (intros l a b Hs [? ?]; split; [by eapply run_step_Skips|by eapply run_step_Inv]).
  assert (Hdec : forall l a b, internal l -> sender_step l a b -> Skips a /\ Inv None None a -> work b < work a)
    by (intros l a b Hl Hs [_ ?]; by eapply internal_step_work).
  split.
  - by apply (steps_well_founded sender_step (fun s => Skips s /\ Inv None None s) internal work).
  - intros ls s' Hrun Hall. pose proof (run_bounded sender_step (fun s => Skips s /\ Inv None None s) internal work ls s s' Hpres Hdec Hrun Hall HI). lia.
Qed.

(** [C39] Every event settles: from every reachable state the sender's own steps
    (answers, delays, the drain, the end of a shutdown) come to an end, whatever the
    collector answers: there is no infinite sequence of them and [work] bounds their
    number.  When none is left to take, no event is pending, each having been counted
    as sent or dropped; and such a state is reached. *)
Theorem every_event_settles s :
  (1 <= maxAttempts opts)%Z -> reachable s ->
  Acc (fun b a => exists l, internal l /\ sender_step l a b) s /\
  (forall ls s', run sender_step ls s s' -> Forall internal ls -> length ls <= work s) /\
  (forall ls s', run sender_step ls s s' -> stuck sender_step internal s' ->
     live s' = ∅ /\ enqueued s' = sent s' + dropped_total s' /\
     (forall id it, items s' !! id = Some it -> it_settled it = true)) /\
  (exists ls s', run sender_step ls s s' /\ Forall internal ls /\ live s' = ∅).
Proof.
  intros Hatt Hr. destruct (delivery_terminates s Hatt Hr) as [Hacc Hlen].
  split; [done|]. split; [done|]. clear Hacc Hlen. split.
  - intros ls s' Hrun Hstuck. destruct Hr as [ls0 Hr0].
    destruct (reachable_Inv s' Hatt) as [_ HI]; [exists (ls0 ++ ls); by eapply run_app|].
    assert (Hl : live s' = ∅).
    { destruct (decide (live s' = ∅)) as [|Hne]; [done|].
      destruct (live_not_stuck s' HI Hne) as (l & s2 & Hint & Hs). by destruct (Hstuck l s2 Hint). }
    pose proof (inv_wf _ _ _ HI) as H. split; [done|]. split.
    + rewrite (wf_count _ _ H), Hl, size_empty. lia.
    + intros id it Hit. pose proof (wf_live _ _ H id) as Hset. unfold settled_of in Hset.
      rewrite Hit, Hl, bool_decide_eq_false_2 in Hset by set_solver. done.
  - remember (work s) as k eqn:Hk. revert s Hk Hr. induction k as [k IH] using lt_wf_ind.
    intros s -> Hr. destruct (decide (live s = ∅)) as [Hl|Hne].
    { exists [], s. split_and!; [constructor|constructor|done]. }
    destruct (reachable_Inv s Hatt Hr) as [Hsk HI].
    destruct (live_not_stuck s HI Hne) as (l & s1 & Hint & Hs).
    destruct (IH (work s1)) with (s := s1) as (ls & s' & Hrun & Hall & Hl);
      [by eapply internal_step_work|done|..].
    + destruct Hr as [ls0 Hr0]. exists (ls0 ++ [l]). by eapply run_snoc.
    + exists (l :: ls), s'. split_and!; [by econstructor|by constructor|done].
Qed.

(** Nothing is sent while a 429 pauses sending: from a paused state, only
    the end of a wait that no later 429 extended can send a request. *)
Theorem paused_sends_nothing l s s' :
  (1 <= maxAttempts opts)%Z -> reachable s ->
  paused s = true -> sender_step l s s' ->
  (forall now seen ms, l = Resumed now -> drain s = D_wait seen ms -> seen <> pauses s) ->
  requests s' = requests s.
Proof.
  intros Hatt Hr Hp Hs Hnew. destruct (reachable_Inv s Hatt Hr) as [_ [H _ _]].
  assert (Hreq : forall now id s1, paused s1 = true -> requests (requeue now id s1) = requests s1).
  { intros now id s1 Hp1. unfold requeue. case_match; [done|]. unfold drain_loop.
    case_match; [done|]. simpl. by rewrite Hp1. }
  assert (Hfin : forall id s1, requests (finish id s1) = requests s1)
    by (intros; unfold finish; by repeat case_match).
  assert (Hset : forall id s1, requests (settle id s1) = requests s1)
    by (intros; unfold settle; by case_match).
  unfold sender_step in Hs. destruct l; simpl in Hs.
  - injection Hs as <-. unfold send. simpl. rewrite Hp. repeat case_match; try done. by rewrite Hreq.
  - destruct (threads s !! id) as [[]|]; try done. injection Hs as <-. unfold attempt_settled.
    by repeat case_match.
  - destruct (threads s !! id) as [[]|]; try done. by injection Hs as <-.
  - destruct (threads s !! id) as [[]|]; try done. injection Hs as <-. unfold process_outcome. simpl.
    rewrite Hp. case_match; [by rewrite Hfin|]. destruct o as [k|r f].
    + by destruct (k =? 0); rewrite Hfin, Hset.
    + destruct (_ || _); [by rewrite Hfin, Hset|]. by rewrite Hfin, Hreq.
  - destruct (threads s !! id) as [[]|]; try done. injection Hs as <-. unfold process_slept. simpl.
    rewrite Hp. destruct ok; case_match; rewrite ?Hfin, ?Hset, ?Hreq; done.
  - destruct (drain s) as [|seen ms|] eqn:Hdr; try done. injection Hs as <-. unfold drain_resumed.
    specialize (Hnew now seen ms eq_refl eq_refl).
    replace (pauses s =? seen) with false by (symmetry; apply Nat.eqb_neq; lia). by rewrite Hp.
  - destruct (drain s) as [| |busy [|ready]]; try done. injection Hs as <-. unfold worker_next.
    destruct (drainWorker_spec s H) as [[-> _]|(? & ? & _ & ? & _)]; [done|congruence].
  - destruct (drain s) as [| |busy [|ready]]; try done. case_decide; [|done]. injection Hs as <-.
    unfold drain_loop. rewrite Hp. by case_match.
  - injection Hs as <-. unfold shutdown. by repeat (case_decide || case_match).
  - destruct (shutdowns s) as [|n]; [done|]. injection Hs as <-.
    destruct (decide (live s = ∅)) as [He|Hne]; [by rewrite shutdown_over_idle|].
    destruct (shutdown_over_eq (set_shutdowns n s)) as (m & -> & _); [wf_same H|done|done].
Qed.

(** What a closed sender with nothing pending keeps. *)
Record Ended (s0 s : sender) : Prop := mkEnded {
  en_inv : Inv None None s;
  en_skips : Skips s;
  en_closed : closed s = true;
  en_live : live s = ∅;
  en_requests : requests s = requests s0;
  en_sent : sent s = sent s0
}.

Lemma finish_closed id s :
  closed (finish id s) = closed s /\ live (finish id s) = live s /\
  requests (finish id s) = requests s /\ sent (finish id s) = sent s.
Proof. unfold finish. by repeat case_match. Qed.

Lemma Ended_step l s0 s s' :
  (1 <= maxAttempts opts)%Z -> Ended s0 s -> sender_step l s s' -> Ended s0 s'.
Proof.
  intros Hatt [HI Hsk Hc Hl Hr Hse] Hs. pose proof (inv_wf _ _ _ HI) as H.
  assert (HI' : Inv None None s') by (by eapply run_step_Inv).
  assert (Hsk' : Skips s') by (by eapply run_step_Skips).
  assert (Hq : queue s = []).
  { destruct (queue s) as [|x q] eqn:Hq; [done|]. destruct (wf_queue _ _ H x) as [Hx _];
      [rewrite Hq; by left|]. rewrite Hl in Hx. set_solver. }
  assert (Hz : forall id, settled_of s id = true).
  { intros id. rewrite (wf_live _ _ H), Hl. by rewrite bool_decide_eq_false_2 by set_solver. }
  assert (Hres : forall id, settled_of (resume id s) id = true) by done.
  assert (Hsq : forall s1, queue s1 = [] -> send_queued s1 = set_drain (D_work ∅ 0) s1)
    by (intros s1 Hq1; unfold send_queued; simpl; by rewrite Hq1).
  enough (He : closed s' = closed s /\ live s' = live s /\ requests s' = requests s /\ sent s' = sent s).
  { destruct He as (? & ? & ? & ?). split; [done|done|congruence..]. }
  clear HI' Hsk'. unfold sender_step in Hs. destruct l; simpl in Hs.
  - injection Hs as <-. unfold send. simpl. rewrite Hc. by case_match.
  - destruct (threads s !! id) as [[]|]; try done. injection Hs as <-. unfold attempt_settled.
    by repeat case_match.
  - destruct (threads s !! id) as [[]|]; try done. by injection Hs as <-.
  - destruct (threads s !! id) as [[]|]; try done. injection Hs as <-. unfold process_outcome.
    rewrite Hres. exact (finish_closed id (resume id s)).
  - destruct (threads s !! id) as [[]|]; try done. injection Hs as <-. unfold process_slept.
    rewrite Hres. destruct ok; exact (finish_closed id (resume id s)).
  - destruct (drain s) as [|seen ms|]; try done. injection Hs as <-. unfold drain_resumed.
    destruct (_ =? _); simpl; [by rewrite Hsq|]. destruct (paused s); [done|by rewrite Hsq].
  - destruct (drain s) as [| |busy [|ready]]; try done. injection Hs as <-. unfold worker_next.
    by rewrite Hq.
  - destruct (drain s) as [| |busy [|ready]]; try done. case_decide; [|done]. injection Hs as <-.
    unfold drain_loop. by rewrite Hq.
  - injection Hs as <-. unfold shutdown. simpl. repeat case_match; simpl; rewrite ?decide_True by done; try done.
    all: case_decide; done.
  - destruct (shutdowns s) as [|n]; [done|]. injection Hs as <-.
    by rewrite shutdown_over_idle.
Qed.

(** Shutdown is final: when it is over nothing is pending, what was pending
    is counted as dropped at shutdown, and whatever happens afterwards sends no
    request and counts no event as sent. *)
Theorem shutdown_is_final s s1 :
  (1 <= maxAttempts opts)%Z -> reachable s -> closed s = true ->
  sender_step ShutdownOver s s1 ->
  dropped s1 dropped_at_shutdown = dropped s dropped_at_shutdown + size (live s) /\
  forall ls s', run sender_step ls s1 s' ->
    live s' = ∅ /\ requests s' = requests s /\ sent s' = sent s.
Proof.
  intros Hatt Hr Hc Hs. destruct (reachable_Inv s Hatt Hr) as [Hsk HI].
  pose proof (inv_wf _ _ _ HI) as H.
  assert (HI1 : Inv None None s1) by (by eapply run_step_Inv).
  assert (Hsk1 : Skips s1) by (by eapply run_step_Skips).
  assert (Hspec : dropped s1 dropped_at_shutdown = dropped s dropped_at_shutdown + size (live s) /\
    Ended s1 s1 /\ requests s1 = requests s /\ sent s1 = sent s).
  { unfold sender_step in Hs. simpl in Hs. destruct (shutdowns s) as [|n]; [done|]. injection Hs as Hs1.
    destruct (decide (live s = ∅)) as [He|Hne].
    - rewrite shutdown_over_idle in Hs1 by done. subst s1. simpl. rewrite He, size_empty.
      split_and!; [lia| |done|done]. by split.
    - destruct (shutdown_over_eq (set_shutdowns n s)) as (m & Heq & _); [wf_same H|done|].
      rewrite Heq in Hs1. subst s1. split_and!; [done| |done|done]. by split. }
  destruct Hspec as (Hd & He & Hrq & Hse). split; [done|]. intros ls s' Hrun.
  assert (Hend : Ended s1 s')
    by (eapply (run_invariant _ (Ended s1)); [|exact Hrun|exact He]; intros; by eapply Ended_step).
  destruct Hend as [_ _ _ ? ? ?]. split_and!; [done|congruence..].
Qed.

End Sender.

(** ** A concrete sender *)

Section Example.
#[local] Open Scope Z_scope.

Definition example_opts : SenderOptions :=
  constructor "https://collector.example" "ps_key" None (Some 2) None None.

#[local] Abbreviation step := (run_step (event := nat) (fun _ => true) (fun _ => true) (fun _ => NaN) example_opts).

Fixpoint exec (ls : list label) (s : sender) : option sender :=
  match ls with
  | [] => Some s
  | l :: r => match step l s with Some s1 => exec r s1 | None => None end
  end.

Definition state_after (ls : list label) : sender := default new_sender (exec ls new_sender).

#[local] Abbreviation steps := (sender_step (event := nat) (fun _ => true) (fun _ => true) (fun _ => NaN) example_opts).

Lemma exec_run ls s s' : exec ls s = Some s' -> run steps ls s s'.
Proof.
  revert s. induction ls as [|l ls IH]; simpl; intros s; [intros [= <-]; constructor|].
  destruct (step l s) as [s1|] eqn:Hs; [|done]. intros H. econstructor; [exact Hs|by apply IH].
Qed.

Lemma state_after_reachable ls :
  reachable (event := nat) (fun _ => true) (fun _ => true) (fun _ => NaN) example_opts (state_after ls).
Proof.
  unfold state_after. destruct (exec ls new_sender) as [s|] eqn:He; simpl; [|exists []; constructor].
  exists ls. by apply exec_run.
Qed.

(** Three events, the first answered with a 429, the second sent, the third
    sent to the queue behind the back-off. *)
Definition example_steps : list label :=
  [Send nzero 10%nat; Send nzero 11%nat;
   FetchSettled (num_of_Z 5) 0 (Responded false 429 (Some "2"));
   AttemptReturned (num_of_Z 5) 0; Send (num_of_Z 6) 12%nat;
   FetchSettled (num_of_Z 7) 1 (Responded true 200 None); BodyRead 1 None].

Example example_paused :
  let s := state_after example_steps in
  (paused s, queue s, size (live s), length (requests s)) = (true, [0; 2], 3, 2)%nat /\
  resumeAt s = num_of_Z 2005.
Proof. vm_compute. done. Qed.

Lemma events_are_accounted_witness :
  let s := state_after example_steps in
  enqueued s = (sent s + dropped_total s + size (live s))%nat /\ enqueued s = 3%nat.
Proof.
  split; [|vm_compute; reflexivity].
  apply (events_are_accounted (event := nat) (fun _ => true) (fun _ => true) (fun _ => NaN) example_opts);
    [vm_compute; discriminate|apply state_after_reachable].
Defined.

Lemma delivery_terminates_witness :
  size (live (state_after example_steps)) = 3%nat /\
  Acc (fun b a => exists l, internal l /\ steps l a b) (state_after example_steps).
Proof.
  split; [vm_compute; reflexivity|].
  apply (delivery_terminates (event := nat) (fun _ => true) (fun _ => true) (fun _ => NaN) example_opts);
    [vm_compute; discriminate|apply state_after_reachable].
Defined.

Lemma every_event_settles_witness :
  let s := state_after example_steps in
  size (live s) = 3%nat /\ Acc (fun b a => exists l, internal l /\ steps l a b) s /\
  exists ls s', run steps ls s s' /\ Forall internal ls /\ live s' = ∅.
Proof.
  destruct (every_event_settles (event := nat) (fun _ => true) (fun _ => true) (fun _ => NaN) example_opts
    (state_after example_steps)) as (Hacc & _ & _ & Hreach);
    [vm_compute; discriminate|apply state_after_reachable|].
  split; [vm_compute; reflexivity|]. split; [exact Hacc|exact Hreach].
Defined.

Lemma paused_sends_nothing_witness :
  let s := state_after example_steps in
  forall s', steps (AttemptReturned nzero 1) s s' -> requests s' = requests s.
Proof.
  intros s s' Hs. apply (paused_sends_nothing (event := nat) (fun _ => true) (fun _ => true) (fun _ => NaN)
    example_opts (AttemptReturned nzero 1) s s');
    [vm_compute; discriminate|apply state_after_reachable|vm_compute; reflexivity|exact Hs|discriminate].
Defined.

Lemma shutdown_is_final_witness :
  let s := state_after (example_steps ++ [Shutdown]) in
  forall s1, steps ShutdownOver s s1 -> dropped s1 dropped_at_shutdown = 3%nat.
Proof.
  intros s s1 Hs. destruct (shutdown_is_final (event := nat) (fun _ => true) (fun _ => true) (fun _ => NaN)
    example_opts s s1) as [-> _];
    [vm_compute; discriminate|apply state_after_reachable|vm_compute; reflexivity|exact Hs|].
  vm_compute. reflexivity.
Defined.
End Example.

(** The header's decimal seconds and the clamp to five minutes. *)
Example retry_after_texts :
  map (fun v => parseRetryAfterMs (fun _ => NaN) nzero (Some v)) ["1.5"; "9999"; "soon"; ""] =
  [Some (num_of_Z 1500); Some (num_of_Z 300000); None; None].
Proof. vm_compute. reflexivity. Qed.
