(* ===== verification/RetryHandler.v ===== *)
(** * Retries of an upstream call

    Models [src/gateway/src/handlers/retryHandler.ts] ([fetchWithTimeout],
    [retryRequest]), the redirect rule of [src/gateway/src/utils/fetch.ts], the
    attempt records of [src/gateway/src/middlewares/psAttempts.ts], the retry
    settings of [handlers/services/requestContext.ts] and the recursion of
    [recursiveAfterRequestHookHandler] in [handlers/handlerUtils.ts].

    The package async-retry is an interface, [AsyncRetry]: its documented loop
    over the backoff timeouts, for bodies that stop by themselves, with the pause
    before each retry.  The upstream call, and what is done to a response before it
    is judged again (size limit, mapping, hooks), are functions on a world.  The
    text of a body is its string, or the error that reading it throws.  The number
    of retries is any JavaScript number, as the config's schema has it; the theorems
    ask that it is finite.

    [retries_are_bounded]: the calls of one request and its waits; a negative wait
    of a provider lengthens what may be waited in all ([negative_wait_extends_limit]). *)

From Stdlib Require Import ZArith Lia ZifyBool Ascii Floats.SpecFloat.
From stdpp Require Import base strings option list.
From S2P Require Import Prelude JsValue BudgetKeys JsText.

#[local] Open Scope string_scope.
#[local] Open Scope list_scope.
#[local] Open Scope Z_scope.

(** ** Errors and responses *)

(** An [Error]: [status] is undefined unless the code set it. *)
Record error := mkError {
  e_message : string;
  e_name : string;
  e_status : option Z;
  e_headers : obj string;
  e_TypeError : bool;
  e_cause : option string;
  e_connect_timeout : bool
}.

Definition new_Error (message : string) : error := mkError message "Error" None [] false None false.
Definition new_TypeError (message : string) : error :=
  mkError message "TypeError" None [] true None false.

(** [Object.assign(new Error(message), {status, headers})] *)
Definition status_error (message : string) (status : Z) (headers : obj string) : error :=
  mkError message "Error" (Some status) headers false None false.

Record Response := mkResponse {
  r_status : Z;
  r_headers : obj string;
  r_text : result error string;
  r_opaque : bool
}.

(** [new Response(body, {status, headers})] with a string body: it throws for a
    status outside 200-599 and for the statuses that may not have a body. *)
Definition new_Response (body : string) (status : Z) (headers : obj string) : result error Response :=
  if (status <? 200) || (599 <? status)
  then Throw (mkError "init.status must be in the range of 200 to 599" "RangeError" None [] false None false)
  else if (status =? 204) || (status =? 205) || (status =? 304)
  then Throw (new_TypeError "Response with null body status cannot have body")
  else Ok (mkResponse status headers (Ok body) false).

(** [headers.get(name)]: an empty name is not a header name. *)
Definition headers_get (h : obj string) (name : string) : result error (option string) :=
  if (name =? "")%string then Throw (new_TypeError "Headers.get: name is an invalid header name")
  else Ok (own h name).

(** *** Text of a JSON object with string, number and null members *)

Definition quoted (s : string) : string := json_quote s.
Definition member (k v : string) : string := quoted k +:+ ":" +:+ v.

Definition error_body (message type : string) : string :=
  "{" +:+ member "error" ("{" +:+ member "message" (quoted message) +:+ "," +:+
    member "type" (quoted type) +:+ "," +:+ member "param" "null" +:+ "," +:+
    member "code" "null" +:+ "}") +:+ "}".

Definition json_headers : obj string := [("content-type", "application/json")].

(** ** Redirects *)

Definition isRedirectResponse (r : Response) : bool :=
  r_opaque r || ((300 <=? r_status r) && (r_status r <? 400) && negb (r_status r =? 304)).

Definition upstreamRedirectErrorResponse (status : Z) : Response :=
  mkResponse 502 json_headers
    (Ok (error_body ("The upstream answered with a redirect (" +:+
           (if status =? 0 then "opaque" else String_of status) +:+
           "), which the gateway does not follow") "upstream_redirect")) false.

Definition rejectUpstreamRedirect (r : Response) : Response :=
  if isRedirectResponse r then upstreamRedirectErrorResponse (r_status r) else r.

(** ** Attempt records *)

Record AttemptStatus := mkAttempt {
  at_status : option Z;
  at_latency_ms : Z;
  at_error_class : option string
}.

Record AttemptRecord := mkRecord {
  ar_attempt : Z;
  ar_latency_ms : Z;
  ar_provider : option string;
  ar_model : option string;
  ar_status : option Z;
  ar_error_class : option string
}.

Definition MAX_ATTEMPT_RECORDS : Z := 32.

Definition errorClassOf (status : option Z) (errorName : option string) : option string :=
  match status with
  | None =>
      Some (match errorName with
            | Some n => if (n =? "AbortError")%string then "timeout" else "network_error"
            | None => "network_error" end)
  | Some s =>
      if (200 <=? s) && (s <? 300) then None
      else if (s =? 408) || (s =? 504) then Some "timeout"
      else if s =? 429 then Some "rate_limited"
      else if 500 <=? s then Some "server_error"
      else if 400 <=? s then Some "client_error"
      else Some "unexpected_status"
  end.

(** The two context keys: the list of records and the count. *)
Record AttemptLog := mkLog {
  log_list : option (list AttemptRecord);
  log_count : option Z
}.

Definition slice (n : nat) (s : string) : string :=
  String.substring 0 n s.

(** [Number(x) || y] for a count. *)
Definition count_or (c : option Z) (d : Z) : Z :=
  match c with Some n => if n =? 0 then d else n | None => d end.

Definition recordAttempt (provider model : option string) (result : AttemptStatus)
    (l : AttemptLog) : AttemptLog :=
  let list := default [] (log_list l) in
  let count := count_or (log_count l) (Z.of_nat (length list)) + 1 in
  if MAX_ATTEMPT_RECORDS <=? Z.of_nat (length list) then mkLog (Some list) (Some count)
  else
    let record := mkRecord count (at_latency_ms result) (slice 128 <$> provider)
      (slice 256 <$> model) (at_status result)
      (match at_error_class result with
       | Some c => if truthy_string c then Some c else None | None => None end) in
    mkLog (Some (list ++ [record])) (Some count).

Definition attemptsOf (l : AttemptLog) : list AttemptRecord := default [] (log_list l).

Definition attemptCountOf (l : AttemptLog) : Z :=
  count_or (log_count l) (Z.of_nat (length (attemptsOf l))).

(** ** The async-retry package *)

(** How one call of the retried function ends: it returns, or it called
    [bail], or it throws. *)
Inductive Signal :=
| Returned
| Bailed (e : error)
| Threw (e : error).

Section Loop.
Context {S : Type}.
Variable body : nat -> list Z -> S -> Signal * list Z * S.
Variable onRetry : nat -> S -> S.
Variable wait : Z -> S -> S.
Variable mainError : list error -> error.

(** The documented loop: attempts are numbered from 1; an error with a timeout
    left is reported to [onRetry] and retried after that timeout, one without
    rejects with the operation's main error.  [body] also gives the operation's timeouts as it
    leaves them. *)
Fixpoint retry_loop (fuel attempt : nat) (timeouts : list Z) (errors : list error) (s : S)
    : option error * S :=
  match fuel with
  | O => (Some (mainError errors), s)
  | Datatypes.S f =>
      match body attempt timeouts s with
      | (Returned, _, s1) => (None, s1)
      | (Bailed e, _, s1) => (Some e, s1)
      | (Threw e, ts, s1) =>
          match ts with
          | [] => (Some (mainError (errors ++ [e])), s1)
          | t :: ts' =>
              retry_loop f (Datatypes.S attempt) ts' (errors ++ [e]) (wait t (onRetry attempt s1))
          end
      end
  end.

(** A body that has stopped by attempt [n]: it does not throw from then on. *)
Definition stops_by (n : nat) : Prop :=
  forall attempt ts s e ts' s', (n <= attempt)%nat -> body attempt ts s <> (Threw e, ts', s').
End Loop.

(** *** Counting up to a number *)

Definition one : num := num_of_Z 1.

(** [n >= x] for an integer: it is at least [x] when it is at least [x]'s ceiling. *)
Definition at_least (n : Z) (x : num) : bool :=
  match x with
  | S754_infinity s => s
  | S754_nan => false
  | _ => ceil_Z x <=? n
  end.

(** The first attempt that is at least the retries and one. *)
Definition most_attempts (retries : num) : nat := Z.to_nat (Z.max 1 (ceil_Z (nadd retries one))).

(** The package: the timeouts of an operation with so many retries (one for each
    integer from 0 below their number), its main error (one of the errors), and
    [retry(fn, {retries, onRetry})]: [None] when the promise is fulfilled, the
    error when it is rejected.  [wait] is the time that passes before a retry. *)
Class AsyncRetry := {
  backoff : num -> list Z;
  backoff_length n : is_finite_num n = true -> length (backoff n) = Z.to_nat (ceil_Z n);
  main_error : list error -> error;
  main_error_in l : l <> [] -> main_error l ∈ l;
  retry : forall S : Type, (nat -> list Z -> S -> Signal * list Z * S) -> (nat -> S -> S) ->
    (Z -> S -> S) -> num -> S -> option error * S;
  retry_documented (S : Type) body onRetry wait (retries : num) (s : S) :
    stops_by body (most_attempts retries) ->
    retry S body onRetry wait retries s =
      retry_loop body onRetry wait main_error (most_attempts retries) 1 (backoff retries) [] s
}.

(** ** retryRequest *)

Definition MAX_RETRY_LIMIT_MS : Z := 60 * 1000.
Definition POSSIBLE_RETRY_STATUS_HEADERS : list string :=
  ["retry-after-ms"; "x-ms-retry-after-ms"; "retry-after"].

(** [Number.parseInt(s)], [None] for NaN. *)
Definition parseInt (s : string) : option Z :=
  let s := drop_while is_space s in
  let '(neg, r) := match s with
    | String c t => if (code c =? 45)%N then (true, t)
                    else if (code c =? 43)%N then (false, t) else (false, s)
    | EmptyString => (false, s) end in
  let '(radix, ds) := match r with
    | String z (String x t) =>
        if (code z =? 48)%N && ((code x =? 120)%N || (code x =? 88)%N) then (16, t) else (10, r)
    | _ => (10, r) end in
  let digits := take_while (fun c => radix_digit c <? radix) ds in
  if truthy_string digits
  then let v := radix_val radix digits 0 in Some (if neg then - v else v)
  else None.

(** What sending the request gives: an answer or an error, and how long it
    took. *)
Record upstream := mkUpstream {
  u_answer : result error Response;
  u_latency : Z
}.

Record RetrySettings := mkRetry {
  attempts : num;
  onStatusCodes : list Z;
  useRetryAfterHeader : bool
}.

Definition RETRY_STATUS_CODES : list Z := [429; 500; 502; 503; 504].

(** The [retry] of a target's options, every member optional. *)
Record RetryOption := mkRetryOption {
  ro_attempts : option num;
  ro_onStatusCodes : option (list Z);
  ro_useRetryAfterHeader : option bool
}.

Definition normalizeRetryConfig (retry : option RetryOption) : RetrySettings :=
  let at_ := match retry with Some r => ro_attempts r | None => None end in
  mkRetry (default nzero at_)
    (if num_truthy (default nzero at_)
     then default RETRY_STATUS_CODES
            (match retry with Some r => ro_onStatusCodes r | None => None end)
     else [])
    (match retry with Some r => default false (ro_useRetryAfterHeader r) | None => false end).

Section RetryRequest.
Context {W : Type} `{AsyncRetry}.

(** Sending the request once: [fetch], or the provider's request handler. *)
Variable send : W -> upstream * W.
Variable onAttempt : option (AttemptStatus -> W -> W).
Variable retryCount : num.
Variable statusCodesToRetry : list Z.
Variable timeout : option Z.
Variable followProviderRetry : bool.

(** [fetchWithTimeout]: an aborted request becomes a 408. *)
Definition fetchWithTimeout (t : Z) (w : W) : upstream * W :=
  let '(u, w1) := send w in
  (match u_answer u with
   | Throw e =>
       if (e_name e =? "AbortError")%string
       then mkUpstream (Ok (mkResponse 408 json_headers
              (Ok (error_body ("Request exceeded the timeout sent in the request: " +:+
                     String_of t +:+ "ms") "timeout_error")) false)) (u_latency u)
       else u
   | Ok _ => u
   end, w1).

Definition send_once (w : W) : upstream * W :=
  match timeout with
  | Some t => if t =? 0 then send w else fetchWithTimeout t w
  | None => send w
  end.

(** The variables the attempts share; [asked] are the waits of the providers that
    were waited for and [paused] the timeouts of the package, the last one first. *)
Record vars := mkVars {
  lastResponse : option Response;
  lastAttempt : option nat;
  retrySkipped : bool;
  remainingRetryTimeout : Z;
  asked : list Z;
  paused : list Z;
  calls : nat;
  world : W
}.

Definition report (u : upstream) (status : option Z) (name : option string) (w : W) : W :=
  match onAttempt with
  | Some f => f (mkAttempt status (u_latency u) (errorClassOf status name)) w
  | None => w
  end.

(** The header of the provider's wait: [header] is the first of the list that
    is present and not empty. *)
Definition retry_header (h : obj string) : option string :=
  List.find (fun k => truthy_opt (own h k)) POSSIBLE_RETRY_STATUS_HEADERS.

(** A response whose status is to be retried: the wait the provider asks for,
    then the error is thrown.  Gives the timeouts of the operation. *)
Definition retry_after (attempt : nat) (ts : list Z) (e : error) (h : obj string) (v : vars)
    : error * list Z * vars :=
  let retryHeader := retry_header h in
  match headers_get h (default "" retryHeader) with
  | Throw e' => (e', ts, v)
  | Ok retryAfterValue =>
      if negb (truthy_opt retryAfterValue) then (e, ts, v) else
      let n := parseInt (trim (default "" retryAfterValue)) in
      let retryAfter := if decide (retryHeader = Some "retry-after")
                        then (fun z => z * 1000) <$> n else n in
      match retryAfter with
      | None => (e, ts, v)
      | Some ms =>
          if ms =? 0 then (e, ts, v)
          else if (MAX_RETRY_LIMIT_MS <=? ms) || (remainingRetryTimeout v <? ms)
          then (e, [], mkVars (lastResponse v) (lastAttempt v) true (remainingRetryTimeout v)
                         (asked v) (paused v) (calls v) (world v))
          else (e, repeat 0 (Z.to_nat (floor_Z
                     (nadd (nsub retryCount (num_of_Z (Z.of_nat attempt))) one))),
                mkVars (lastResponse v) (lastAttempt v) (retrySkipped v)
                  (remainingRetryTimeout v - ms) (ms :: asked v) (paused v) (calls v) (world v))
      end
  end.

(** The [catch] of the attempt. *)
Definition caught (attempt : nat) (ts : list Z) (e : error) (v : vars) : Signal * list Z * vars :=
  if at_least (Z.of_nat attempt) (nadd retryCount one) then (Bailed e, ts, v) else (Threw e, ts, v).

(** The function given to [retry]. *)
Definition attempt_body (attempt : nat) (ts : list Z) (v : vars) : Signal * list Z * vars :=
  let '(u, w) := send_once (world v) in
  let with_world w := mkVars (lastResponse v) (lastAttempt v) (retrySkipped v)
    (remainingRetryTimeout v) (asked v) (paused v) (Datatypes.S (calls v)) w in
  match u_answer u with
  | Throw e => caught attempt ts e (with_world (report u (e_status e) (Some (e_name e)) w))
  | Ok response =>
      let v := with_world (report u (Some (r_status response)) None w) in
      let skipped v := mkVars (lastResponse v) (lastAttempt v) true (remainingRetryTimeout v)
        (asked v) (paused v) (calls v) (world v) in
      if isRedirectResponse response then
        let blocked := rejectUpstreamRedirect response in
        match r_text blocked with
        | Ok text => (Bailed (status_error text (r_status blocked) (r_headers blocked)), ts, skipped v)
        | Throw e => caught attempt ts e (skipped v)
        end
      else
        let status := r_status response in
        if bool_decide (status ∈ statusCodesToRetry) then
          match r_text response with
          | Throw e => caught attempt ts e v
          | Ok text =>
              let errorObj := status_error text status (r_headers response) in
              if (status =? 429) && followProviderRetry then
                let '(e, ts', v') := retry_after attempt ts errorObj (r_headers response) v in
                caught attempt ts' e v'
              else caught attempt ts errorObj v
          end
        else if (200 <=? status) && (status <=? 204) then
          (Returned, ts, mkVars (Some response) (lastAttempt v) (retrySkipped v)
                           (remainingRetryTimeout v) (asked v) (paused v) (calls v) (world v))
        else
          match r_text response with
          | Throw e => caught attempt ts e v
          | Ok text => (Bailed (status_error text status (r_headers response)), ts, v)
          end
  end.

Definition onRetry (attempt : nat) (v : vars) : vars :=
  mkVars (lastResponse v) (Some attempt) (retrySkipped v) (remainingRetryTimeout v) (asked v) (paused v)
    (calls v) (world v).

Definition pause (ms : Z) (v : vars) : vars :=
  mkVars (lastResponse v) (lastAttempt v) (retrySkipped v) (remainingRetryTimeout v) (asked v)
    (ms :: paused v) (calls v) (world v).

(** The response of a rejected operation. *)
Definition error_response (e : error) : result error Response :=
  if e_TypeError e && e_connect_timeout e then new_Response (e_message e) 503 []
  else if (match e_status e with Some s => s =? 0 | None => true end) || e_TypeError e then
    new_Response ("Message: " +:+ e_message e +:+ " Cause: " +:+ default "NA" (e_cause e) +:+
      " Name: " +:+ e_name e) 500 []
  else new_Response (e_message e) (default 0 (e_status e)) (e_headers e).

Record RetryResult := mkResult {
  rr_response : option Response;
  rr_attempt : option nat;
  rr_skip : bool
}.

Definition start_vars (w : W) : vars := mkVars None None false MAX_RETRY_LIMIT_MS [] [] 0 w.

Definition retryRequest (w : W) : result error RetryResult * vars :=
  let '(settled, v) := retry vars attempt_body onRetry pause retryCount (start_vars w) in
  (match settled with
   | None => Ok (mkResult (lastResponse v) (lastAttempt v) (retrySkipped v))
   | Some e =>
       let* r := error_response e in Ok (mkResult (Some r) (lastAttempt v) (retrySkipped v))
   end, v).
End RetryRequest.

(** ** The recursion over hook outcomes *)

Section Recursive.
Context {W : Type} `{AsyncRetry}.
Variable send : W -> upstream * W.
Variable onAttempt : option (AttemptStatus -> W -> W).
Variable timeout : option Z.
Variable settings : RetrySettings.

(** What is done to the response before it is judged again: the size limit,
    the mapping to the gateway's format and the after-request hooks, given the
    retries made so far. *)
Variable handle : Response -> nat -> W -> result error Response * W.

Record HandlerResult := mkHandlerResult {
  mappedResponse : Response;
  retryCount_ : Z
}.

Definition retry_once (w : W) : result error RetryResult * vars (W := W) :=
  retryRequest send onAttempt (attempts settings) (onStatusCodes settings) timeout
    (useRetryAfterHeader settings) w.

(** [lastAttempt] as it is returned: -1 when every retry failed. *)
Definition final_count (rc made : nat) (skip retriable : bool) : Z :=
  let lastAttempt := (rc + made)%nat in
  if (neqb (num_of_Z (Z.of_nat lastAttempt)) (attempts settings) && retriable) || skip then -1
  else Z.of_nat lastAttempt.

(** [attempts - rc - made > 0]: the retries made are counts, the difference is
    positive when their sum is below the attempts. *)
Definition remaining (rc made : nat) : bool := negb (at_least (Z.of_nat (rc + made)) (attempts settings)).

(** [recursiveAfterRequestHookHandler], with the number of upstream calls made;
    [None] when the fuel runs out. *)
Fixpoint recursiveAfterRequestHookHandler (fuel made : nat) (w : W)
    : option (result error HandlerResult * nat * W) :=
  match fuel with
  | O => None
  | Datatypes.S f =>
      let '(res, v) := retry_once w in
      match res with
      | Throw e => Some (Throw e, calls v, world v)
      | Ok rr =>
          match rr_response rr with
          | None => Some (Throw (new_TypeError "response is undefined"), calls v, world v)
          | Some response =>
              let '(arh, w1) := handle response made (world v) in
              match arh with
              | Throw e => Some (Throw e, calls v, w1)
              | Ok arhResponse =>
                  let rc := default 0%nat (rr_attempt rr) in
                  let isRetriableStatusCode :=
                    bool_decide (r_status arhResponse ∈ onStatusCodes settings) in
                  if remaining rc made && negb (rr_skip rr) && isRetriableStatusCode
                  then match recursiveAfterRequestHookHandler f (rc + 1 + made) w1 with
                       | Some (out, n, w2) => Some (out, (calls v + n)%nat, w2)
                       | None => None
                       end
                  else Some (Ok (mkHandlerResult arhResponse
                         (final_count rc made (rr_skip rr) isRetriableStatusCode)), calls v, w1)
              end
          end
      end
  end.
End Recursive.

(** ** Theorems about retryRequest *)

Section Theory.
Context {W : Type} `{AsyncRetry}.
Variable send : W -> upstream * W.
Variable onAttempt : option (AttemptStatus -> W -> W).
Variable retryCount : num.
Variable codes : list Z.
Variable timeout : option Z.
Variable follow : bool.
Hypothesis retries_finite : is_finite_num (nadd retryCount one) = true.

#[local] Abbreviation most := (most_attempts retryCount).
#[local] Abbreviation body := (attempt_body send onAttempt retryCount codes timeout follow).
#[local] Abbreviation vars := (vars (W := W)).

Lemma bails n : at_least (Z.of_nat n) (nadd retryCount one) = (Z.to_nat (ceil_Z (nadd retryCount one)) <=? n)%nat.
Proof. revert retries_finite. destruct (nadd retryCount one); try done; intros _; unfold at_least; lia. Qed.

Lemma caught_spec attempt ts e (v : vars) sig ts' v' :
  caught retryCount attempt ts e v = (sig, ts', v') ->
  ts' = ts /\ v' = v /\ (sig = Bailed e \/ (sig = Threw e /\ (attempt < most)%nat)).
Proof.
  unfold caught. rewrite bails. unfold most_attempts.
  destruct (_ <=? _)%nat eqn:Hle; intros [= <- <- <-]; split_and!; auto. right. split; [done|]. lia.
Qed.

(** At most one wait of the provider is waited for, within what is left. *)
Definition waited_for (v v' : vars) : Prop :=
  (asked v' = asked v /\ remainingRetryTimeout v' = remainingRetryTimeout v) \/
  (exists ms, asked v' = ms :: asked v /\ ms <= remainingRetryTimeout v /\ ms <> 0 /\
     ms < MAX_RETRY_LIMIT_MS /\ remainingRetryTimeout v' = remainingRetryTimeout v - ms).

(** What one attempt may do to the timeouts and the shared variables. *)
Record attempted (ts ts' : list Z) (v v' : vars) : Prop := mkAttempted {
  at_calls : calls v' = Datatypes.S (calls v);
  at_last : lastAttempt v' = lastAttempt v;
  at_paused : paused v' = paused v;
  at_timeouts : ts' = ts \/ exists k, ts' = repeat 0 k;
  at_waits : waited_for v v'
}.

Lemma retry_after_spec attempt ts e h (v : vars) e' ts' v' :
  retry_after retryCount attempt ts e h v = (e', ts', v') ->
  calls v' = calls v /\ lastAttempt v' = lastAttempt v /\ lastResponse v' = lastResponse v /\
  paused v' = paused v /\ (ts' = ts \/ exists k, ts' = repeat 0 k) /\ waited_for v v' /\
  (e' = e \/ e_status e' = None).
Proof.
  unfold retry_after, headers_get, waited_for.
  destruct (default "" (retry_header h) =? "")%string; [intros [= <- <- <-]; naive_solver|].
  destruct (negb _); [intros [= <- <- <-]; naive_solver|].
  match goal with |- context [match ?x with None => _ | Some _ => _ end] => destruct x as [ms|] end;
    [|intros [= <- <- <-]; naive_solver].
  destruct (ms =? 0) eqn:H0; [intros [= <- <- <-]; naive_solver|].
  destruct (MAX_RETRY_LIMIT_MS <=? ms) eqn:Hmax; cbn [orb].
  { intros [= <- <- <-]. split_and!; try done; [by right; exists 0%nat|by left|by left]. }
  destruct (remainingRetryTimeout v <? ms) eqn:Hrem.
  { intros [= <- <- <-]. split_and!; try done; [by right; exists 0%nat|by left|by left]. }
  generalize (Z.to_nat (floor_Z (nadd (nsub retryCount (num_of_Z (Z.of_nat attempt))) one))). intros k.
  intros [= <- <- <-]. split_and!; try done; [right; by exists k| |by left].
  right. exists ms. split_and!; [done|lia|lia|lia|done].
Qed.

Lemma attempt_spec attempt ts v sig ts' v' :
  body attempt ts v = (sig, ts', v') ->
  attempted ts ts' v v' /\ (forall e, sig = Threw e -> (attempt < most)%nat).
Proof.
  unfold attempt_body. destruct (send_once _ _ _) as [u w].
  assert (Hc : forall ts1 e (v1 : vars), attempted ts ts1 v v1 ->
    caught retryCount attempt ts1 e v1 = (sig, ts', v') ->
    attempted ts ts' v v' /\ (forall e, sig = Threw e -> (attempt < most)%nat)).
  { intros ts0 e v1 Hv1 Hcaught. apply caught_spec in Hcaught as (-> & -> & [->|[-> ?]]); by split. }
  assert (Hat : forall v1 : vars, calls v1 = Datatypes.S (calls v) -> lastAttempt v1 = lastAttempt v ->
    paused v1 = paused v -> asked v1 = asked v -> remainingRetryTimeout v1 = remainingRetryTimeout v ->
    attempted ts ts v v1).
  { intros v1 ? ? ? ? ?. split; [done..|by left|by left]. }
  destruct (u_answer u) as [r|e].
  2: { apply Hc. by apply Hat. }
  destruct (isRedirectResponse r).
  { destruct (r_text _); [|apply Hc; by apply Hat].
    intros [= <- <- <-]. split; [by apply Hat|done]. }
  case_bool_decide.
  { destruct (r_text r) as [text|e]; [|apply Hc; by apply Hat].
    destruct (_ && _); [|apply Hc; by apply Hat].
    destruct (retry_after _ _ _ _ _) as [[e' ts1] v1] eqn:Hra.
    apply retry_after_spec in Hra as (Hca & Hl & _ & Hp & Hts & Hw & _). apply Hc. by split. }
  destruct (_ && _); [intros [= <- <- <-]; split; [by apply Hat|done]|].
  destruct (r_text r); [|apply Hc; by apply Hat].
  intros [= <- <- <-]; split; [by apply Hat|done].
Qed.

Lemma body_stops : stops_by body most.
Proof.
  intros attempt ts v e ts' v' Hn Hb. apply attempt_spec in Hb as [_ Ht].
  specialize (Ht e eq_refl). lia.
Qed.

(** [retryRequest] is the documented loop over its attempts. *)
Lemma retryRequest_loop w :
  retryRequest send onAttempt retryCount codes timeout follow w =
  let '(settled, v) := retry_loop body onRetry pause main_error most 1
                         (backoff retryCount) [] (start_vars w) in
  (match settled with
   | None => Ok (mkResult (lastResponse v) (lastAttempt v) (retrySkipped v))
   | Some e => let* r := error_response e in Ok (mkResult (Some r) (lastAttempt v) (retrySkipped v))
   end, v).
Proof. unfold retryRequest. by rewrite retry_documented by apply body_stops. Qed.

Lemma most_positive : (1 <= most)%nat.
Proof. unfold most_attempts. lia. Qed.

(** An induction over the attempts of the loop: [I] holds before each. *)
Lemma loop_ind (I : nat -> list Z -> vars -> list error -> Prop) (Q : option error -> vars -> Prop) :
  (forall n ts v errs sig ts' v', (1 <= n <= most)%nat ->
     I n ts v errs -> body n ts v = (sig, ts', v') ->
     match sig with
     | Returned => Q None v'
     | Bailed e => Q (Some e) v'
     | Threw e => Q (Some (main_error (errs ++ [e]))) v' /\
                  forall t ts'', ts' = t :: ts'' ->
                    I (Datatypes.S n) ts'' (pause t (onRetry n v')) (errs ++ [e])
     end) ->
  forall w, I 1%nat (backoff retryCount) (start_vars w) [] ->
    let '(settled, v') := retry_loop body onRetry pause main_error most 1 (backoff retryCount) []
                            (start_vars w) in Q settled v'.
Proof.
  intros Hstep w. pose proof most_positive as Hm.
  assert (Hgen : forall fuel n ts errs v, (n + fuel = most + 1)%nat -> (1 <= n <= most)%nat -> I n ts v errs ->
    let '(settled, v') := retry_loop body onRetry pause main_error fuel n ts errs v in Q settled v').
  2: { apply Hgen; lia. }
  induction fuel as [|f IH]; intros n ts errs v Hn Hb HI; [lia|]. simpl.
  destruct (body n ts v) as [[sig ts'] v'] eqn:Hbody.
  pose proof (Hstep _ _ _ _ _ _ _ Hb HI Hbody) as Hs. destruct sig as [|e|e]; [done|done|].
  destruct Hs as [Hq HI']. destruct ts' as [|t ts'']; [done|].
  pose proof (proj2 (attempt_spec _ _ _ _ _ _ Hbody) e eq_refl). apply IH; [lia|lia|by apply HI'].
Qed.

Definition sum_Z (l : list Z) : Z := foldr Z.add 0 l.

(** What the waits so far leave of the budget. *)
Definition waits_ok (v : vars) : Prop :=
  remainingRetryTimeout v + sum_Z (asked v) = MAX_RETRY_LIMIT_MS /\ 0 <= remainingRetryTimeout v /\
  Forall (fun ms => ms <> 0 /\ ms < MAX_RETRY_LIMIT_MS) (asked v).

Lemma waits_ok_attempted ts ts' (v v' : vars) : attempted ts ts' v v' -> waits_ok v -> waits_ok v'.
Proof.
  intros [_ _ _ _ [[Hs Hr]|(ms & Hs & Hle & H0 & Hlt & Hr)]] (Hsum & Hpos & Hall); unfold waits_ok; rewrite Hs, Hr.
  - done.
  - simpl. split_and!; [lia|lia|by constructor].
Qed.

(** The pauses so far are the first timeouts of the package, then none at all; [ts]
    are the timeouts left. *)
Definition pauses_ok (ts : list Z) (v : vars) : Prop :=
  exists l z, rev (paused v) = take l (backoff retryCount) ++ repeat 0 z /\
    ((z = 0%nat /\ ts = drop l (backoff retryCount)) \/ exists k, ts = repeat 0 k).

Lemma pauses_ok_attempted ts ts' (v v' : vars) : attempted ts ts' v v' -> pauses_ok ts v -> pauses_ok ts' v'.
Proof.
  intros [_ _ Hp [->|Hk] _] (l & z & Hr & Hts); unfold pauses_ok; rewrite Hp; exists l, z; auto.
Qed.

Lemma pauses_ok_next t ts n (v : vars) : pauses_ok (t :: ts) v -> pauses_ok ts (pause t (onRetry n v)).
Proof.
  intros (l & z & Hr & Hts). unfold pauses_ok. cbn [paused pause onRetry rev]. rewrite Hr.
  destruct Hts as [[-> Hd]|[[|k] Hk]]; [|done|].
  - exists (Datatypes.S l), 0%nat. cbn [repeat]. rewrite !app_nil_r.
    assert (Hl : backoff retryCount !! l = Some t)
      by (rewrite <- (Nat.add_0_r l), <- lookup_drop, <- Hd; done).
    split; [by rewrite (take_S_r _ _ t) by done|]. left. split; [done|].
    rewrite <- Nat.add_1_r, <- drop_drop, <- Hd. done.
  - injection Hk as -> ->. exists l, (z + 1)%nat. rewrite repeat_app, <- app_assoc. split; [done|].
    right. by exists k.
Qed.

(** The calls of one [retryRequest], the count it reports, what its waits leave of
    the budget, and its pauses. *)
Lemma retry_counts w :
  let '(res, v) := retryRequest send onAttempt retryCount codes timeout follow w in
  (1 <= calls v <= most)%nat /\
  (forall rr, res = Ok rr ->
     rr_attempt rr = if Nat.eqb (calls v) 1 then None else Some (calls v - 1)%nat) /\
  waits_ok v /\ length (paused v) = (calls v - 1)%nat /\ exists ts, pauses_ok ts v.
Proof.
  rewrite retryRequest_loop.
  set (last n := if Nat.eqb n 1 then None else Some (n - 1)%nat).
  assert (Hloop := loop_ind
    (fun n ts v _ => calls v = (n - 1)%nat /\ waits_ok v /\ lastAttempt v = last n /\
       length (paused v) = (n - 1)%nat /\ pauses_ok ts v)
    (fun _ v => exists n ts, (1 <= n <= most)%nat /\ calls v = n /\ waits_ok v /\ lastAttempt v = last n /\
       length (paused v) = (n - 1)%nat /\ pauses_ok ts v)).
  lapply Hloop; clear Hloop.
  2: { intros n ts v errs sig ts' v' Hn (Hc & Hw & Hl & Hp & Hts) Hb.
    destruct (attempt_spec _ _ _ _ _ _ Hb) as [Ha _].
    pose proof (waits_ok_attempted _ _ _ _ Ha Hw). pose proof (pauses_ok_attempted _ _ _ _ Ha Hts).
    destruct Ha as [Hc' Hl' Hp' _ _]. rewrite <- Hl' in Hl. rewrite <- Hp' in Hp.
    assert (calls v' = n) by lia.
    destruct sig as [|e|e]; [by exists n, ts'|by exists n, ts'|]. split; [by exists n, ts'|].
    intros t ts'' ->. split_and!; [cbn; lia|done|cbn; destruct n; [lia|simpl; f_equal; lia]|cbn; lia|].
    by apply pauses_ok_next. }
  intros Hloop. specialize (Hloop w). destruct (retry_loop _ _ _ _ _ _ _ _ _) as [settled v].
  destruct Hloop as (n & ts & Hn & Hc & Hw & Hl & Hp & Hts).
  { split_and!; [done| |done|done|].
    - split_and!; simpl; [done|unfold MAX_RETRY_LIMIT_MS; lia|constructor].
    - exists 0%nat, 0%nat. split; [done|]. left. by rewrite drop_0. }
  rewrite Hc. split; [lia|]. split; [|split_and!; [done|lia|by exists ts]].
  intros rr. destruct settled as [e|]; [|by intros [= <-]].
  destruct (error_response e); [by intros [= <-]|done].
Qed.

(** The time of a list of timers: one that is not positive takes a millisecond. *)
Definition waited (l : list Z) : Z := sum_Z (map (Z.max 1) l).

Lemma waited_positive l : Forall (fun ms => ms <> 0 /\ ms < MAX_RETRY_LIMIT_MS) l -> Forall (Z.le 0) l ->
  waited l = sum_Z l.
Proof.
  intros Hl Hp. induction Hl as [|ms l [H0 _] Hl IH]; [done|]. inversion Hp; subst. unfold waited in *.
  simpl. rewrite IH by done. lia.
Qed.

(** [C38] One [retryRequest] calls the upstream at least once and at most as often as
    the least integer that is at least its retries and one (once when they are
    negative), and says how many of its calls were retries, also when they all fail.
    Each wait of a provider that it waits for is below a minute; they add up to at most
    a minute, a negative one counted as such, and so does the time they take when none
    is negative.  Before its retries it pauses for the first timeouts of the package
    and, from the first wait of a provider on, for no further one. *)
Theorem retries_are_bounded w :
  let '(res, v) := retryRequest send onAttempt retryCount codes timeout follow w in
  (1 <= calls v <= most)%nat /\
  (forall rr, res = Ok rr ->
     rr_attempt rr = if Nat.eqb (calls v) 1 then None else Some (calls v - 1)%nat) /\
  Forall (fun ms => ms < MAX_RETRY_LIMIT_MS) (asked v) /\ sum_Z (asked v) <= MAX_RETRY_LIMIT_MS /\
  (Forall (Z.le 0) (asked v) -> waited (asked v) <= MAX_RETRY_LIMIT_MS) /\
  length (paused v) = (calls v - 1)%nat /\
  exists l z, rev (paused v) = take l (backoff retryCount) ++ repeat 0 z.
Proof.
  pose proof (retry_counts w) as Hcounts. destruct (retryRequest _ _ _ _ _ _ _) as [res v].
  destruct Hcounts as (Hc & Hr & (Hsum & Hpos & Hall) & Hp & ts & l & z & Hpa & _).
  split_and!; [lia|lia|done|by eapply Forall_impl; [exact Hall|intros ? []]|lia| |done|by exists l, z].
  intros Hnn. rewrite waited_positive by done. lia.
Qed.

(** Each upstream call is reported once, when it settles: a count that
    [onAttempt] increments and nothing else changes grows by the calls made. *)
Theorem attempts_are_reported (m : W -> nat) f w :
  onAttempt = Some f ->
  (forall a w, m (f a w) = Datatypes.S (m w)) -> (forall w, m (send w).2 = m w) ->
  let '(_, v) := retryRequest send onAttempt retryCount codes timeout follow w in
  m (world v) = (m w + calls v)%nat.
Proof.
  intros Hon Hf Hsend. rewrite retryRequest_loop.
  assert (Honce : forall w, m (send_once send timeout w).2 = m w).
  { intros w0. unfold send_once, fetchWithTimeout. destruct timeout as [t|]; [|apply Hsend].
    destruct (t =? 0); [apply Hsend|]. rewrite <- (Hsend w0). by destruct (send w0). }
  assert (Hrep : forall u st nm w0, m (report onAttempt u st nm w0) = Datatypes.S (m w0))
    by (intros; unfold report; by rewrite Hon).
  assert (Hbody : forall n ts v sig ts' v', body n ts v = (sig, ts', v') ->
    m (world v') = Datatypes.S (m (world v))).
  { intros n ts v sig ts' v'. unfold attempt_body. specialize (Honce (world v)).
    destruct (send_once _ _ _) as [u w1]. simpl in Honce. rewrite <- Honce.
    assert (Hcg : forall ts e v1, caught retryCount n ts e v1 = (sig, ts', v') ->
      m (world v1) = Datatypes.S (m w1) -> m (world v') = Datatypes.S (m w1))
      by (intros ? ? ? (_ & -> & _)%caught_spec; done).
    destruct (u_answer u) as [r|e]; [|intros Hc; eapply Hcg; [exact Hc|apply Hrep]].
    destruct (isRedirectResponse r).
    { destruct (r_text _); [intros [= <- <- <-]; apply Hrep|intros Hc; eapply Hcg; [exact Hc|apply Hrep]]. }
    case_bool_decide.
    { destruct (r_text r) as [text|e]; [|intros Hc; eapply Hcg; [exact Hc|apply Hrep]].
      destruct (_ && _); [|intros Hc; eapply Hcg; [exact Hc|apply Hrep]].
      destruct (retry_after _ _ _ _ _) as [[e' ts1] v1] eqn:Hra. intros Hc. eapply Hcg; [exact Hc|].
      replace (world v1) with (report onAttempt u (Some (r_status r)) None w1); [apply Hrep|].
      revert Hra. unfold retry_after. repeat case_match; by intros [= <- <- <-]. }
    destruct (_ && _); [intros [= <- <- <-]; apply Hrep|].
    destruct (r_text r); [intros [= <- <- <-]; apply Hrep|intros Hc; eapply Hcg; [exact Hc|apply Hrep]]. }
  assert (Hloop := loop_ind (fun _ _ v _ => m (world v) = (m w + calls v)%nat)
    (fun _ v => m (world v) = (m w + calls v)%nat)).
  specialize (Hloop ltac:(
    intros n ts v errs sig ts' v' _ HI Hb; cbv beta in HI; pose proof (Hbody _ _ _ _ _ _ Hb) as Hm;
    pose proof (at_calls _ _ _ _ (proj1 (attempt_spec _ _ _ _ _ _ Hb))) as Hc;
    assert (m (world v') = (m w + calls v')%nat) by lia; by destruct sig) w).
  destruct (retry_loop _ _ _ _ _ _ _ _ _) as [settled v]. apply Hloop; simpl; lia.
Qed.

(** A status that the client may be given as the upstream's. *)
Definition not_redirect_status (s : Z) : Prop := ~ (300 <= s < 400 /\ s <> 304).

Definition plain_error (e : error) : Prop :=
  forall s, e_status e = Some s -> not_redirect_status s.

(** An upstream answer that is a success: returned as it is. *)
Definition success (r : Response) : Prop :=
  isRedirectResponse r = false /\ 200 <= r_status r <= 204 /\ r_status r ∉ codes.

Lemma new_Response_Ok b s h r :
  new_Response b s h = Ok r -> not_redirect_status s -> isRedirectResponse r = false.
Proof.
  unfold new_Response. destruct (_ || (599 <? s)); [done|].
  destruct (_ || _ || (s =? 304)); [done|]. intros [= <-] Hs. unfold isRedirectResponse. simpl.
  apply not_true_iff_false. intros Hx. apply Hs. lia.
Qed.

Lemma error_response_status e r :
  error_response e = Ok r -> plain_error e -> isRedirectResponse r = false.
Proof.
  unfold error_response. intros He Hp.
  destruct (_ && _); [eapply new_Response_Ok; [exact He|unfold not_redirect_status; lia]|].
  destruct (_ || _); [eapply new_Response_Ok; [exact He|unfold not_redirect_status; lia]|].
  eapply new_Response_Ok; [exact He|]. destruct (e_status e) as [s|] eqn:Hes; [by apply Hp|].
  unfold not_redirect_status. simpl. lia.
Qed.

Lemma status_error_plain text r :
  isRedirectResponse r = false -> plain_error (status_error text (r_status r) (r_headers r)).
Proof.
  intros Hr s. simpl. intros [= <-] [Hs Hn]. unfold isRedirectResponse in Hr.
  apply orb_false_iff in Hr as [_ Hr]. destruct (300 <=? r_status r) eqn:?, (r_status r <? 400) eqn:?,
    (r_status r =? 304) eqn:?; simpl in *; try lia; try done.
Qed.

Section Outcome.
(** Requests and bodies that fail do so without a redirect status. *)
Hypothesis send_plain : forall w e, u_answer (send w).1 = Throw e -> plain_error e.
Hypothesis text_plain : forall w r e,
  u_answer (send w).1 = Ok r -> r_text r = Throw e -> plain_error e.

Lemma send_once_answer w :
  (forall e, u_answer (send_once send timeout w).1 = Throw e -> plain_error e) /\
  (forall r e, u_answer (send_once send timeout w).1 = Ok r -> r_text r = Throw e -> plain_error e).
Proof.
  assert (Hd : (forall e, u_answer (send w).1 = Throw e -> plain_error e) /\
    (forall r e, u_answer (send w).1 = Ok r -> r_text r = Throw e -> plain_error e)) by eauto.
  unfold send_once. destruct timeout as [t|]; [|done]. destruct (t =? 0); [done|].
  unfold fetchWithTimeout. destruct (send w) as [u w1]. simpl in *. destruct Hd as [H1 H2].
  destruct (u_answer u) as [r|e] eqn:Hu; simpl; rewrite ?Hu; [split; [done|exact H2]|].
  destruct (_ =? _)%string; simpl; rewrite ?Hu; [|split; [exact H1|done]].
  split; [done|]. intros r e' [= <-]. done.
Qed.

Lemma attempt_outcome n ts v sig ts' v' :
  body n ts v = (sig, ts', v') ->
  match sig with
  | Returned => exists r, lastResponse v' = Some r /\ success r
  | Bailed e | Threw e => plain_error e
  end.
Proof.
  unfold attempt_body. destruct (send_once_answer (world v)) as [Hse Hst].
  destruct (send_once _ _ _) as [u w1]. simpl in Hse, Hst.
  assert (Hcg : forall ts e v1, caught retryCount n ts e v1 = (sig, ts', v') -> plain_error e ->
    match sig with Returned => exists r, lastResponse v' = Some r /\ success r
    | Bailed e | Threw e => plain_error e end)
    by (intros ? ? ? (_ & _ & [->|[-> _]])%caught_spec ?; done).
  destruct (u_answer u) as [r|e]; [|intros Hc; eapply Hcg; [exact Hc|by apply Hse]].
  specialize (Hst r). destruct (isRedirectResponse r) eqn:Hred.
  { unfold rejectUpstreamRedirect. rewrite Hred. simpl. intros [= <- <- <-] s [= <-].
    unfold not_redirect_status. lia. }
  case_bool_decide as Hin.
  { destruct (r_text r) as [text|e]; [|intros Hc; eapply Hcg; [exact Hc|by apply Hst]].
    destruct (_ && _); [|intros Hc; eapply Hcg; [exact Hc|by apply status_error_plain]].
    destruct (retry_after _ _ _ _ _) as [[e' ts1] v1] eqn:Hra. intros Hc. eapply Hcg; [exact Hc|].
    apply retry_after_spec in Hra as (_ & _ & _ & _ & _ & _ & [->|He']); [by apply status_error_plain|].
    intros s. by rewrite He'. }
  destruct ((200 <=? r_status r) && (r_status r <=? 204)) eqn:Hok.
  { intros [= <- <- <-]. exists r. simpl. split; [done|]. split; [done|]. split; [lia|done]. }
  destruct (r_text r); [|intros Hc; eapply Hcg; [exact Hc|by apply Hst]].
  intros [= <- <- <-]. by apply status_error_plain.
Qed.

(** [retryRequest] either throws or gives a response, and the response is
    never a redirect: it is an upstream answer of 200-204 outside the codes to
    retry, or one made from an error. *)
Theorem response_is_never_a_redirect w :
  let '(res, v) := retryRequest send onAttempt retryCount codes timeout follow w in
  forall rr, res = Ok rr -> exists r, rr_response rr = Some r /\ isRedirectResponse r = false /\
    (success r \/ exists e, error_response e = Ok r).
Proof.
  rewrite retryRequest_loop.
  assert (Hloop := loop_ind (fun _ _ _ errs => Forall plain_error errs)
    (fun settled v => match settled with
       | None => exists r, lastResponse v = Some r /\ success r | Some e => plain_error e end)).
  specialize (Hloop ltac:(
    intros n ts v errs sig ts' v' _ HI Hb; cbv beta in HI;
    pose proof (attempt_outcome _ _ _ _ _ _ Hb) as Ho; destruct sig as [|e|e]; [done|done|];
    assert (Hall : Forall plain_error (errs ++ [e])) by (apply Forall_app; split; [done|by constructor]);
    split; [|done]; rewrite Forall_forall in Hall; apply Hall, main_error_in; by destruct errs) w).
  destruct (retry_loop _ _ _ _ _ _ _ _ _) as [settled v]. specialize (Hloop ltac:(done)).
  intros rr. destruct settled as [e|].
  - destruct (error_response e) as [r|] eqn:He; [|done]. intros [= <-]. exists r. split; [done|].
    split; [by eapply error_response_status|]. right. by exists e.
  - destruct Hloop as (r & Hr & Hs). intros [= <-]. exists r. split; [done|]. split; [apply Hs|by left].
Qed.
End Outcome.

(** *** A 429 without a wait *)

(** Every call is answered with a 429 that names no wait. *)
Definition always_429 : Prop := forall w, exists r text,
  u_answer (send w).1 = Ok r /\ r_opaque r = false /\ r_status r = 429 /\ r_text r = Ok text /\
  retry_header (r_headers r) = None.

Definition invalid_header : error := new_TypeError "Headers.get: name is an invalid header name".

Lemma always_429_body n ts v :
  always_429 -> timeout = None -> 429 ∈ codes ->
  exists e v', body n ts v = caught retryCount n ts e v' /\
    (if follow then e = invalid_header else e_status e = Some 429 /\ e_TypeError e = false).
Proof.
  intros Hall Ht Hin. destruct (Hall (world v)) as (r & text & Hu & Hop & Hst & Htx & Hh).
  unfold attempt_body, send_once. rewrite Ht. destruct (send (world v)) as [u w1]. simpl in Hu.
  rewrite Hu. unfold isRedirectResponse. rewrite Hop, Hst. simpl.
  rewrite bool_decide_eq_true_2 by done. rewrite Htx. destruct follow; simpl.
  - unfold retry_after. rewrite Hh. simpl. by eexists _, _.
  - by eexists _, _.
Qed.

(** With the provider's wait in use, a provider that answers 429 without
    naming one is reported to the client as an internal error 500 once the
    retries are used up; with the provider's wait not in use the client gets
    the 429.  (The lookup of a missing header asks for the empty name.) *)
Theorem unnamed_wait_becomes_500 w :
  always_429 -> timeout = None -> 429 ∈ codes ->
  let '(res, _) := retryRequest send onAttempt retryCount codes timeout follow w in
  exists rr r, res = Ok rr /\ rr_response rr = Some r /\ r_status r = if follow then 500 else 429.
Proof.
  intros Hall Ht Hin. rewrite retryRequest_loop.
  set (P e := if follow then e = invalid_header else e_status e = Some 429 /\ e_TypeError e = false).
  assert (Hloop := loop_ind (fun _ _ _ errs => Forall P errs)
    (fun settled _ => exists e, settled = Some e /\ P e)).
  lapply Hloop; clear Hloop.
  2: { intros n ts v errs sig ts' v' _ HI Hb.
    destruct (always_429_body n ts v Hall Ht Hin) as (e & v1 & Hb' & He). rewrite Hb in Hb'.
    symmetry in Hb'. apply caught_spec in Hb' as (_ & _ & [->|[-> _]]); [by exists e|].
    assert (Hf : Forall P (errs ++ [e])) by (apply Forall_app; split; [done|by constructor]).
    split; [|done]. exists (main_error (errs ++ [e])). split; [done|].
    rewrite Forall_forall in Hf. apply Hf, main_error_in. by destruct errs. }
  intros Hloop. specialize (Hloop w). destruct (retry_loop _ _ _ _ _ _ _ _ _) as [settled v].
  destruct Hloop as (e & -> & He); [done|]. subst P. cbv beta in He.
  unfold error_response. destruct follow.
  - subst e. simpl. by eexists _, _.
  - destruct He as [Hs HT]. rewrite Hs, HT. simpl. by eexists _, _.
Qed.
End Theory.

(** ** The recursion ends *)

Section RecursionTheory.
Context {W : Type} `{AsyncRetry}.
Variable send : W -> upstream * W.
Variable onAttempt : option (AttemptStatus -> W -> W).
Variable timeout : option Z.
Variable settings : RetrySettings.
Variable handle : Response -> nat -> W -> result error Response * W.
Hypothesis attempts_finite : is_finite_num (attempts settings) = true.
Hypothesis sum_finite : is_finite_num (nadd (attempts settings) one) = true.

(** The retries that fit the attempts, and the calls of one [retryRequest]. *)
#[local] Abbreviation retries := (Z.to_nat (ceil_Z (attempts settings))).
#[local] Abbreviation most := (most_attempts (attempts settings)).

#[local] Abbreviation recurse := (recursiveAfterRequestHookHandler send onAttempt timeout settings handle).

Lemma remaining_spec rc made : remaining settings rc made = true -> (rc + made < retries)%nat.
Proof.
  unfold remaining. revert attempts_finite. destruct (attempts settings); try done; intros _;
    unfold at_least; lia.
Qed.

Lemma recursion_bound fuel made w :
  (made <= retries)%nat -> (retries - made < fuel)%nat ->
  exists out n w', recurse fuel made w = Some (out, n, w') /\ (1 <= n <= retries - made + most)%nat.
Proof.
  revert made w. induction fuel as [|f IH]; intros made w Hm Hf; [lia|]. simpl.
  pose proof (retry_counts send onAttempt (attempts settings) (onStatusCodes settings) timeout
    (useRetryAfterHeader settings) sum_finite w) as Hb.
  unfold retry_once. destruct (retryRequest _ _ _ _ _ _ _) as [res v].
  destruct Hb as (Hc & Hrr & _).
  assert (Hn : (1 <= calls v <= retries - made + most)%nat) by lia.
  destruct res as [rr|e]; [|by eexists _, _, _]. specialize (Hrr rr eq_refl).
  destruct (rr_response rr) as [response|]; [|by eexists _, _, _].
  destruct (handle response made (world v)) as [arh w1]. destruct arh as [arhResponse|e]; [|by eexists _, _, _].
  destruct (_ && _ && _) eqn:Hgo; [|by eexists _, _, _].
  apply andb_true_iff in Hgo as [[Hrem%remaining_spec _]%andb_true_iff _].
  assert (Hrc : calls v = (default 0 (rr_attempt rr) + 1)%nat).
  { rewrite Hrr. destruct (Nat.eqb_spec (calls v) 1); simpl; lia. }
  destruct (IH (default 0 (rr_attempt rr) + 1 + made)%nat w1) as (out & n & w' & -> & Hn'); [lia|lia|].
  eexists _, _, _. split; [done|]. lia.
Qed.

(** The recursion over hook outcomes ends, whatever the upstream and the hooks
    answer: one level more than the retries is enough, and they make at most the
    retries and the calls of one [retryRequest] in all. *)
Theorem hook_retries_terminate w :
  exists out n w',
    recursiveAfterRequestHookHandler send onAttempt timeout settings handle (retries + 1) 0 w =
      Some (out, n, w') /\
    (1 <= n <= retries + most)%nat.
Proof.
  destruct (recursion_bound (retries + 1) 0 w) as (out & n & w' & Hr & Hn); [lia|lia|].
  exists out, n, w'. split; [done|lia].
Qed.
End RecursionTheory.

(** ** The records stay bounded *)

#[local] Arguments Nat.min : simpl never.
#[local] Arguments take : simpl never.

(** However many attempts a request makes, at most 32 are kept, the first
    ones in order and numbered from 1, and all of them are counted. *)
Theorem attempt_log_is_bounded (provider model : option string) (results : list AttemptStatus) :
  let l := foldl (fun l a => recordAttempt provider model a l) (mkLog None None) results in
  attemptCountOf l = Z.of_nat (length results) /\
  map ar_attempt (attemptsOf l) = map Z.of_nat (seq 1 (min 32 (length results))) /\
  map ar_status (attemptsOf l) = map at_status (take 32 results).
Proof.
  set (step := fun l a => recordAttempt provider model a l).
  induction results as [|a results IH] using rev_ind; [done|].
  rewrite foldl_app. simpl. set (l := foldl _ _ _) in *. destruct IH as (Hc & Hn & Hs).
  assert (Hlen : length (attemptsOf l) = min 32 (length results)).
  { apply (f_equal length) in Hn. by rewrite !length_map, length_seq in Hn. }
  assert (Hcount : count_or (log_count l) (Z.of_nat (length (attemptsOf l))) = Z.of_nat (length results)) by done.
  rewrite length_app. simpl. unfold step, recordAttempt. fold (attemptsOf l). rewrite Hcount, Hlen.
  unfold MAX_ATTEMPT_RECORDS. destruct (32 <=? Z.of_nat (min 32 (length results))) eqn:Hfull.
  - apply Z.leb_le in Hfull. assert (Hge : (32 <= length results)%nat) by lia.
    unfold attemptCountOf.
    match goal with |- context [mkLog (Some ?x) ?c] =>
      change (attemptsOf (mkLog (Some x) c)) with x end.
    simpl. split_and!.
    + unfold count_or. destruct (_ =? 0) eqn:E; lia.
    + replace (min 32 (length results + 1)) with (min 32 (length results)) by lia. exact Hn.
    + rewrite take_app_le by lia. exact Hs.
  - apply Z.leb_gt in Hfull. assert (Hlt : (length results < 32)%nat) by lia.
    unfold attemptCountOf.
    match goal with |- context [mkLog (Some ?x) ?c] =>
      change (attemptsOf (mkLog (Some x) c)) with x end.
    simpl. split_and!.
    + unfold count_or. destruct (_ =? 0) eqn:E; lia.
    + rewrite map_app, Hn. simpl. rewrite !Nat.min_r by lia.
      rewrite Nat.add_1_r, seq_S, map_app. simpl. f_equal. f_equal. lia.
    + rewrite map_app, Hs. simpl. rewrite (take_ge results) by lia.
      rewrite take_ge by (rewrite length_app; simpl; lia). by rewrite map_app.
Qed.

(** ** A concrete package and scripts of answers *)

(** The interface can be implemented: a loop with the documented fuel. *)
Definition doubling (retries : num) : list Z :=
  map (fun k => 1000 * 2 ^ Z.of_nat k) (seq 0 (Z.to_nat (ceil_Z retries))).

#[refine] Definition example_retry : AsyncRetry := {|
  backoff := doubling;
  main_error l := default (new_Error "") (last l);
  retry S body onRetry wait retries s :=
    retry_loop body onRetry wait (fun l => default (new_Error "") (last l)) (most_attempts retries) 1
      (doubling retries) [] s
|}.
Proof.
  - intros n _. unfold doubling. by rewrite length_map, length_seq.
  - intros l Hl. destruct (last l) as [e|] eqn:He; simpl.
    + apply last_Some in He as [l' ->]. apply elem_of_app. right. by left.
    + by apply last_None in He.
  - done.
Defined.

#[local] Existing Instance example_retry.

(** The answers to come; the last one is repeated. *)
Definition script : Type := list upstream.

Definition scripted (s : script) : upstream * script :=
  match s with
  | [] => (mkUpstream (Throw (new_TypeError "fetch failed")) 0, [])
  | [u] => (u, [u])
  | u :: r => (u, r)
  end.

Definition answer (status : Z) (headers : obj string) : upstream :=
  mkUpstream (Ok (mkResponse status headers (Ok "{}") false)) 5.

Definition outcome {W} (p : result error RetryResult * vars (W := W))
    : option Z * nat * list Z * list Z :=
  (match p.1 with Ok rr => r_status <$> rr_response rr | Throw _ => None end, calls p.2,
   rev (asked p.2), rev (paused p.2)).

Definition try_script (n : num) (s : script) : option Z * nat * list Z * list Z :=
  outcome (retryRequest scripted None n RETRY_STATUS_CODES None true s).

Definition two : num := num_of_Z 2.
Definition three : num := num_of_Z 3.

(** A redirect is answered with a 502 and not retried; a failure is retried after the
    package's timeout, one with a provider's wait (in seconds) after that wait; a wait
    of a minute ends the retries; the answer to the last attempt is waited for as well,
    though no attempt follows; a 304 cannot be answered at all; half a retry is one, and
    minus one retries is none. *)
Example scripts :
  try_script three [answer 302 [("location", "http://internal")]] = (Some 502, 1%nat, [], []) /\
  try_script three [answer 503 []; answer 503 []; answer 200 []] = (Some 200, 3%nat, [], [1000; 2000]) /\
  try_script three [answer 429 [("retry-after", "2")]; answer 200 []] = (Some 200, 2%nat, [2000], [0]) /\
  try_script three [answer 429 [("retry-after", "60")]; answer 200 []] = (Some 429, 1%nat, [], []) /\
  try_script one [answer 429 [("retry-after", "2")]] = (Some 429, 2%nat, [2000; 2000], [0]) /\
  try_script three [answer 304 []] = (None, 1%nat, [], []) /\
  try_script (ndiv one two) [answer 503 []] = (Some 503, 2%nat, [], [1000]) /\
  try_script (num_of_Z (-1)) [answer 503 []] = (Some 503, 1%nat, [], []).
Proof. vm_compute. done. Qed.

(** A negative wait is added to what is left of the minute: the waits that follow take
    almost two minutes. *)
Example negative_wait_extends_limit :
  let waits := (try_script three [answer 429 [("retry-after", "-59")]; answer 429 [("retry-after", "59")];
    answer 429 [("retry-after", "59")]; answer 200 []]).1.2 in
  waits = [-59000; 59000; 59000] /\ MAX_RETRY_LIMIT_MS < waited waits.
Proof. vm_compute. done. Qed.

Lemma retries_are_bounded_witness :
  let v := (retryRequest scripted None two RETRY_STATUS_CODES None true
              [answer 503 []; answer 429 [("retry-after", "2")]]).2 in
  (calls v <= 3)%nat /\ waited (asked v) <= MAX_RETRY_LIMIT_MS.
Proof.
  pose proof (retries_are_bounded scripted None two RETRY_STATUS_CODES None true eq_refl
    [answer 503 []; answer 429 [("retry-after", "2")]]) as H.
  assert (Ha : asked (retryRequest scripted None two RETRY_STATUS_CODES None true
    [answer 503 []; answer 429 [("retry-after", "2")]]).2 = [2000; 2000]) by (vm_compute; reflexivity).
  destruct (retryRequest _ _ _ _ _ _ _) as [res v]. cbn [snd] in Ha |- *.
  destruct H as (Hc & _ & _ & _ & Hw & _).
  split; [exact (proj2 Hc)|]. apply Hw. rewrite Ha. repeat constructor; discriminate.
Defined.

Lemma scripted_plain (s : script) e : u_answer (scripted s).1 = Throw e ->
  Forall (fun u => match u_answer u with Ok _ => True | Throw _ => False end) s -> plain_error e.
Proof.
  intros Hu Hall. destruct s as [|u [|u' r]]; simpl in Hu.
  - injection Hu as <-. by intros ?.
  - inversion Hall; subst. by rewrite Hu in *.
  - inversion Hall; subst. by rewrite Hu in *.
Qed.

(** A world that always gives the same answer. *)
Definition constantly (u : upstream) (_ : unit) : upstream * unit := (u, tt).

Lemma response_is_never_a_redirect_witness :
  let '(res, v) := retryRequest (constantly (answer 302 [])) None two RETRY_STATUS_CODES None true tt in
  forall rr, res = Ok rr -> exists r, rr_response rr = Some r /\ isRedirectResponse r = false.
Proof.
  pose proof (response_is_never_a_redirect (constantly (answer 302 [])) None two RETRY_STATUS_CODES None true eq_refl
    ltac:(intros w e; discriminate) ltac:(intros w r e [= <-]; discriminate) tt) as H.
  destruct (retryRequest _ _ _ _ _ _ _) as [res v]. intros rr Hrr.
  destruct (H rr Hrr) as (r & ? & ? & _). by exists r.
Defined.

Lemma unnamed_wait_becomes_500_witness :
  outcome (retryRequest (constantly (answer 429 [])) None two RETRY_STATUS_CODES None true tt)
    = (Some 500, 3%nat, [], [1000; 2000]) /\
  exists rr r, (retryRequest (constantly (answer 429 [])) None two RETRY_STATUS_CODES None true tt).1 = Ok rr /\
    rr_response rr = Some r /\ r_status r = 500.
Proof.
  split; [vm_compute; reflexivity|].
  pose proof (unnamed_wait_becomes_500 (constantly (answer 429 [])) None two RETRY_STATUS_CODES None true eq_refl tt) as H.
  destruct (retryRequest _ _ _ _ _ _ _) as [res v]. apply H.
  - intros w. by eexists _, _.
  - done.
  - vm_compute. by left.
Defined.

Lemma attempts_are_reported_witness :
  (retryRequest (fun n : nat => (answer 503 [], n)) (Some (fun _ => Datatypes.S)) two RETRY_STATUS_CODES
     None true 0%nat).2.(world) = 3%nat.
Proof.
  pose proof (attempts_are_reported (fun n : nat => (answer 503 [], n)) (Some (fun _ => Datatypes.S)) two
    RETRY_STATUS_CODES None true eq_refl (fun n => n) (fun _ => Datatypes.S) 0%nat eq_refl
    (fun _ _ => eq_refl) (fun _ => eq_refl)) as H.
  assert (Hc : calls (retryRequest (fun n : nat => (answer 503 [], n)) (Some (fun _ => Datatypes.S)) two
    RETRY_STATUS_CODES None true 0%nat).2 = 3%nat) by (vm_compute; reflexivity).
  destruct (retryRequest _ _ _ _ _ _ _) as [res v]. simpl in *. by rewrite H, Hc.
Defined.

(** The bound on the calls is reached: with one retry configured, a response
    the hooks turn into a retried status is fetched again, and that call is
    retried in its turn. *)
Example one_retry_three_calls :
  let hooked r (made : nat) (w : script) :=
    (Ok (if r_status r =? 200 then mkResponse 500 [] (Ok "hooks failed") false else r), w) in
  match recursiveAfterRequestHookHandler scripted None None (mkRetry one [500] false) hooked 2 0
          [answer 200 []; answer 500 []] with
  | Some (Ok r, n, _) => (r_status (mappedResponse r), retryCount_ r, n)
  | _ => (0, 0, 0%nat)
  end = (500, 2, 3%nat).
Proof. vm_compute. reflexivity. Qed.

Lemma hook_retries_terminate_witness :
  exists out n w', recursiveAfterRequestHookHandler scripted None None (mkRetry one [500] false)
    (fun r _ w => (Ok r, w)) 2 0 [answer 500 []] = Some (out, n, w') /\ (1 <= n <= 3)%nat.
Proof. apply (hook_retries_terminate scripted None None (mkRetry one [500] false)); reflexivity. Defined.
