(* ===== verification/TargetTree.v ===== *)
(** * The tree of targets of a config

    Models [tryTargetsRecursively] and [convertHooksShorthand] of
    [src/gateway/src/handlers/handlerUtils.ts] with [convertKeysToCamelCase] of
    [src/gateway/src/utils.ts]: the settings a target inherits, the filter of open
    targets, and the fallback, load balancing, conditional and single modes down
    to the call of a leaf.

    A target is its object (a config is checked against a schema before, so its
    weights are numbers and its targets objects).  An absent property and an
    undefined one are the same.  [tryPost], the circuit breaker callback, [Math.random]
    and the text of a value in a template are parameters; the conditional router is
    the component [ConditionalRouter].  The recursion takes fuel, and the depth of
    the config is enough. *)

From Stdlib Require Import ZArith Lia ZifyBool Ascii Floats.SpecFloat.
From stdpp Require Import base strings option list.
From S2P Require Import Prelude JsValue BudgetKeys JsText ConditionalRouter RetryHandler.

#[local] Open Scope string_scope.
#[local] Open Scope list_scope.
#[local] Arguments num_of_Z : simpl never.

(** ** Errors *)

Inductive TargetError :=
| RouterFailed (e : RouterError)
| NotIterable
| NotAnObject.

(** What [tryPost] may throw: an error of the gateway, or any other. *)
Inductive PostError :=
| GatewayError (message : string) (status : Z)
| OtherError.

(** ** Keys to camel case *)

Definition upper_char (c : ascii) : ascii :=
  if is_lower c then ascii_of_N (code c - 32) else c.

(** [\w] *)
Definition is_word (c : ascii) : bool :=
  is_digit c || is_upper c || is_lower c || (code c =? 95)%N.

Fixpoint toCamelCase (s : string) : string :=
  match s with
  | String u ((String c r) as t) =>
      if (code u =? 95)%N && is_word c then String (upper_char c) (toCamelCase r)
      else String u (toCamelCase t)
  | _ => s
  end.

Fixpoint convertKeysToCamelCase (preserve : list string) (v : json) : json :=
  match v with
  | JArr l => JArr (map (convertKeysToCamelCase preserve) l)
  | JObj o =>
      JObj ((fix go (o : list (string * json)) (acc : obj json) : obj json :=
        match o with
        | [] => acc
        | (k, x) :: r =>
            go r (obj_set acc (toCamelCase k)
                    (if mem_string k preserve then x else convertKeysToCamelCase preserve x))
        end) o [])
  | _ => v
  end.

(** ** Hook shorthand *)

Definition hook_keys : list string :=
  ["deny"; "on_fail"; "on_success"; "async"; "id"; "type"; "guardrail_version_id"; "sequential"].

(** A check is named by its [id], a string, or else by its key. *)
Definition hook_check (k : string) (v : json) : result TargetError json :=
  match v with
  | JNull => Throw NotAnObject
  | _ =>
      match nullish (prop (Some v) "id") (Some (JStr k)) with
      | Some (JStr id) =>
          Ok (JObj ([("id", JStr (if includes id "." then id else "default." +:+ id));
                     ("parameters", v)] ++
                    match prop (Some v) "is_enabled" with
                    | Some b => [("is_enabled", b)] | None => [] end))
      | _ => Throw NotAnObject
      end
  end.

(** The members [hasOwnProperty] and [Object.keys] see: null has none to ask, and
    an object may hide the method. *)
Definition hook_members (hook : json) : result TargetError (obj json) :=
  match hook with
  | JNull => Throw NotAnObject
  | JObj o => if hasOwn o "hasOwnProperty" then Throw NotAnObject else Ok o
  | JArr l => Ok (indexed l)
  | JStr s => Ok (indexed (map (fun c => JStr (String c EmptyString)) (String.list_ascii_of_string s)))
  | JBool _ | JNum _ => Ok []
  end.

(** One element of the shorthand; [suffix] is the random part of its id. *)
Definition convert_hook (type hookType suffix : string) (hook : json) : result TargetError json :=
  let* o := hook_members hook in
  let base : obj json := [("type", JStr hookType); ("id", JStr (type +:+ "_guardrail_" +:+ suffix))] in
  let picked := foldl (fun acc k => match own o k with
                                    | Some v => obj_put acc k v | None => acc end) base hook_keys in
  let rest := List.filter (fun p : string * json => negb (mem_string p.1 hook_keys)) o in
  let* checks := map_throw (fun p : string * json => hook_check p.1 p.2) rest in
  match convertKeysToCamelCase [] (JObj picked) with
  | JObj camel => Ok (JObj (obj_put camel "checks" (JArr checks)))
  | _ => Throw NotAnObject
  end.

Section Convert.
(** The random id of the hook at a position of a list. *)
Variable random_id : string -> nat -> string.

Definition convertHooksShorthand (hooksArr : any) (type hookType : string)
    : result TargetError (list json) :=
  match hooksArr with
  | Some (JArr l) =>
      map_throw (fun p : nat * json => convert_hook type hookType (random_id type p.1) p.2)
        (zip (seq 0 (length l)) l)
  | _ => Throw NotIterable
  end.

(** ** Inherited settings *)

(** [{...v}] *)
Definition spread (v : any) : obj json :=
  match v with
  | Some (JObj o) => o
  | Some (JArr l) => indexed l
  | Some (JStr s) => indexed (map (fun c => JStr (String c EmptyString)) (String.list_ascii_of_string s))
  | _ => []
  end.

(** [{...a, ...b}] *)
Definition merge (a b : obj json) : obj json := obj_spread a b.

(** [[...v]] *)
Definition spread_list (v : any) : result TargetError (list json) :=
  match v with
  | Some (JArr l) => Ok l
  | Some (JStr s) => Ok (map (fun c => JStr (String c EmptyString)) (String.list_ascii_of_string s))
  | _ => Throw NotIterable
  end.

(** [o[k] = v], where storing undefined leaves the property out. *)
Definition put_any (o : obj json) (k : string) (v : any) : obj json :=
  match v with Some x => obj_put o k x | None => map_delete o k end.

Definition or_any (a b : any) : any := if truthy a then a else b.

(** The pair being built: the current target and the config it passes on. *)
Definition pair : Type := (obj json * obj json)%type.

(** [if (typeof target[k] === 'boolean') ... else if (typeof inherited[k] ===
    'boolean') ...]; [back] also stores the inherited value in the target. *)
Definition is_bool (v : any) : bool := match v with Some (JBool _) => true | _ => false end.

Definition inherit_bool (k : string) (back : bool) (inherited : obj json) (p : pair) : pair :=
  let '(t, i) := p in
  if is_bool (own t k) then (t, put_any i k (own t k))
  else if is_bool (own inherited k)
  then (if back then put_any t k (own inherited k) else t, put_any i k (own inherited k))
  else p.

(** The target's value if it is truthy, else the inherited one, in both. *)
Definition inherit_value (k : string) (inherited : obj json) (p : pair) : pair :=
  let '(t, i) := p in
  if truthy (own t k) then (t, put_any i k (own t k))
  else if truthy (own inherited k) then (put_any t k (own inherited k), put_any i k (own inherited k))
  else p.

(** The same for a list, which is copied. *)
Definition inherit_list (k : string) (inherited : obj json) (p : pair) : result TargetError pair :=
  let '(t, i) := p in
  if truthy (own t k) then let* l := spread_list (own t k) in Ok (t, obj_put i k (JArr l))
  else if truthy (own inherited k) then
    let* l := spread_list (own inherited k) in Ok (obj_put t k (JArr l), obj_put i k (JArr l))
  else Ok p.

(** Guardrails or mutators of the target, appended to its hooks. *)
Definition add_hooks (shorthand hooks type hookType : string) (t : obj json)
    : result TargetError (obj json) :=
  if truthy (own t shorthand) then
    let* before := spread_list (or_any (own t hooks) (Some (JArr []))) in
    let* converted := convertHooksShorthand (own t shorthand) type hookType in
    Ok (obj_put t hooks (JArr (before ++ converted)))
  else Ok t.

(** Default guardrails, converted at the root of the tree only. *)
Definition default_hooks (k type : string) (t inherited i : obj json) : result TargetError (obj json) :=
  let i := put_any i k (own inherited k) in
  match inherited with
  | [] =>
      if truthy (own t k) then
        let* l := convertHooksShorthand (own t k) type "guardrail" in Ok (obj_put i k (JArr l))
      else Ok i
  | _ => Ok i
  end.

Definition object_settings (t inherited : obj json) : obj json :=
  let i := put_any [] "id" (or_any (own inherited "id") (own t "id")) in
  let i := obj_put i "overrideParams"
    (JObj (merge (spread (own inherited "overrideParams")) (spread (own t "overrideParams")))) in
  let i := obj_put i "retry"
    (JObj (spread (if truthy (own t "retry") then own t "retry" else own inherited "retry"))) in
  let i := obj_put i "cache"
    (JObj (spread (if truthy (own t "cache") then own t "cache" else own inherited "cache"))) in
  obj_put i "requestTimeout" JNull.

(** The merge of the inherited config and the target's own: the current target
    and what its children inherit. *)
Definition merge_config (t inherited : obj json) : result TargetError pair :=
  let i := object_settings t inherited in
  let* i := default_hooks "defaultInputGuardrails" "input" t inherited i in
  let* i := default_hooks "defaultOutputGuardrails" "output" t inherited i in
  let p := inherit_bool "strictOpenAiCompliance" false inherited (t, i) in
  let p := inherit_bool "messagesViaResponses" true inherited p in
  let* p := inherit_list "forwardHeaders" inherited p in
  let p := inherit_value "customHost" inherited p in
  let p := inherit_value "requestTimeout" inherited p in
  let '(t, i) := p in
  let* t := add_hooks "inputGuardrails" "beforeRequestHooks" "input" "guardrail" t in
  let* t := add_hooks "outputGuardrails" "afterRequestHooks" "output" "guardrail" t in
  let* t := add_hooks "inputMutators" "beforeRequestHooks" "input" "mutator" t in
  let* t := add_hooks "outputMutators" "afterRequestHooks" "output" "mutator" t in
  let* p := inherit_list "afterRequestHooks" inherited (t, i) in
  let* p := inherit_list "beforeRequestHooks" inherited p in
  let '(t, i) := p in
  let t := obj_put t "overrideParams" (JObj (spread (own i "overrideParams"))) in
  let t := obj_put t "retry" (JObj (spread (own i "retry"))) in
  let t := obj_put t "cache" (JObj (spread (own i "cache"))) in
  let* di := spread_list (own i "defaultInputGuardrails") in
  let* do_ := spread_list (own i "defaultOutputGuardrails") in
  Ok (obj_put (obj_put t "defaultInputGuardrails" (JArr di)) "defaultOutputGuardrails" (JArr do_), i).
End Convert.

(** ** Targets *)

Definition targets_of (t : obj json) : result TargetError (list (obj json)) :=
  match own t "targets" with
  | Some (JArr l) =>
      map_throw (fun x => match x with JObj o => Ok o | _ => Throw NotAnObject end) l
  | _ => Throw NotIterable
  end.

(** [(currentTarget.targets || []).map((t, index) => ({...t, originalIndex: index}))
    .filter((t) => !t.isOpen)] *)
Definition healthy_targets (t : obj json) : result TargetError (list (obj json)) :=
  if truthy (own t "targets") then
    let* l := targets_of t in
    Ok (List.filter (fun x => negb (truthy (own x "isOpen")))
          (map (fun p : nat * obj json => obj_put p.2 "originalIndex" (JNum (num_of_Z (Z.of_nat p.1))))
             (zip (seq 0 (length l)) l)))
  else Ok [].

Definition drop_open (t i : obj json) : result TargetError (obj json) :=
  if truthy (own i "id") then
    let* healthy := healthy_targets t in
    match healthy with
    | [] => Ok t
    | _ => Ok (obj_put t "targets" (JArr (map JObj healthy)))
    end
  else Ok t.

Definition response_ok (r : Response) : bool := ((200 <=? r_status r) && (r_status r <=? 299))%Z.

Definition gateway_exception (r : option Response) : bool :=
  match r with
  | Some r => match own (r_headers r) "x-portkey-gateway-exception" with
              | Some v => (v =? "true")%string | None => false end
  | None => false
  end.

(** [codes.includes(response?.status)] *)
Definition lists_status (codes : list json) (r : option Response) : bool :=
  match r with
  | Some r => existsb (strict_eq (Some (JNum (num_of_Z (r_status r))))) codes
  | None => false
  end.

(** The fallback goes no further. *)
Definition skips_fallback (codes : any) (r : option Response) : bool :=
  match codes with Some (JArr l) => negb (lists_status l r) | _ => false end ||
  (negb (truthy codes) && match r with Some r => response_ok r | None => false end) ||
  gateway_exception r.

(** The answer to an exception of [tryPost]. *)
Definition failure_response (e : PostError) : Response :=
  let '(message, status) := match e with
    | GatewayError m s => (m, s) | OtherError => ("Something went wrong", 500%Z) end in
  mkResponse status
    [("content-type", "application/json"); ("x-portkey-gateway-exception", "true")]
    (Ok ("{" +:+ member "status" (quoted "failure") +:+ "," +:+ member "message" (quoted message) +:+ "}"))
    false.

Definition weight_of (t : obj json) : num :=
  match own t "weight" with Some (JNum n) => n | _ => NaN end.

Definition with_weight (t : obj json) : obj json :=
  match own t "weight" with Some _ => t | None => obj_put t "weight" (JNum (num_of_Z 1)) end.

Definition totalWeight (ts : list (obj json)) : num :=
  foldl (fun sum t => nadd sum (weight_of t)) nzero ts.

(** The index and the target a random weight falls on. *)
Fixpoint pick_weight (index : nat) (r : num) (ts : list (obj json)) : option (nat * obj json) :=
  match ts with
  | [] => None
  | t :: rest =>
      if nltb r (weight_of t) then Some (index, t)
      else pick_weight (S index) (nsub r (weight_of t)) rest
  end.

(** [selectProviderByWeight]: the same choice with the index stored, an error
    when nothing is chosen. *)
Definition selectProviderByWeight (random : num) (providers : list (obj json)) : option (obj json) :=
  let providers := map (fun p => obj_put p "weight"
    (default JNull (nullish (own p "weight") (Some (JNum (num_of_Z 1)))))) providers in
  match pick_weight 0 (nmul random (totalWeight providers)) providers with
  | Some (index, p) => Some (obj_put p "index" (JNum (num_of_Z (Z.of_nat index))))
  | None => None
  end.

(** ** The conditional router's view of a target *)

Definition condition_of (v : json) : Condition :=
  mkCondition (default JNull (prop (Some v) "query"))
    (match prop (Some v) "then" with Some (JStr s) => s | _ => "undefined" end).

Definition strategy_of (t : obj json) : option Strategy :=
  match own t "strategy" with
  | Some (JObj s) =>
      Some (mkStrategy (match own s "mode" with Some (JStr m) => m | _ => "" end)
              (match own s "conditions" with Some (JArr l) => Some (map condition_of l) | _ => None end)
              (match own s "default" with Some (JStr d) => Some d | _ => None end))
  | _ => None
  end.

(** ** The recursion *)

Section Tree.
Context {W : Type}.
Variable random_id : string -> nat -> string.
Variable regex_test : json -> any -> option bool.
Variable context : RouterContext.
Variable to_text : json -> string.
Variable random : W -> num * W.

(** [tryPost] of a target at a path, and the circuit breaker's callback. *)
Variable tryPost : obj json -> string -> W -> result PostError Response * W.
Variable handleCircuitBreakerResponse :
  option (Response -> any -> any -> string -> W -> result PostError unit * W).

Definition Answer : Type := (result TargetError (option Response) * W)%type.

(** [target.originalIndex || index], as it appears in the path. *)
Definition index_text (t : obj json) (index : json) : string :=
  match own t "originalIndex" with
  | Some v => if truthy (Some v) then to_text v else to_text index
  | None => to_text index
  end.

Definition child_path (path : string) (t : obj json) (index : json) : string :=
  path +:+ ".targets[" +:+ index_text t index +:+ "]".

Definition index_json (i : nat) : json := JNum (num_of_Z (Z.of_nat i)).

Definition leaf (t : obj json) (path : string) (id : any) (w : W) : Response * W :=
  match tryPost t path w with
  | (Ok r, w1) =>
      if truthy id then
        match handleCircuitBreakerResponse with
        | Some f =>
            match f r id (own t "cbConfig") path w1 with
            | (Ok _, w2) => (r, w2)
            | (Throw e, w2) => (failure_response e, w2)
            end
        | None => (r, w1)
        end
      else (r, w1)
  | (Throw e, w1) => (failure_response e, w1)
  end.

(** The fallback loop over the targets from [index] on; [response] is the
    answer so far. *)
Fixpoint fallback_loop (try : obj json -> string -> W -> option Answer) (codes : any) (path : string)
    (index : nat) (ts : list (obj json)) (response : option Response) (w : W) : option Answer :=
  match ts with
  | [] => Some (Ok response, w)
  | t :: rest =>
      match try t (child_path path t (index_json index)) w with
      | Some (Ok r, w1) =>
          if skips_fallback codes r then Some (Ok r, w1)
          else fallback_loop try codes path (S index) rest r w1
      | other => other
      end
  end.

Definition lift {A} (r : result TargetError A) (w : W) (k : A -> option Answer) : option Answer :=
  match r with Ok x => k x | Throw e => Some (Throw e, w) end.

Fixpoint tryTargetsRecursively (fuel : nat) (target : obj json) (path : string) (inherited : obj json)
    (w : W) : option Answer :=
  match fuel with
  | O => None
  | S f =>
      lift (merge_config random_id target inherited) w (fun '(t, i) =>
      lift (drop_open t i) w (fun t =>
      let mode := prop (own target "strategy") "mode" in
      let try t path w := tryTargetsRecursively f t path i w in
      match mode with
      | Some (JStr m) =>
          if (m =? "fallback")%string then
            lift (targets_of t) w (fun ts =>
              fallback_loop try (prop (own t "strategy") "onStatusCodes") path 0 ts None w)
          else if (m =? "loadbalance")%string then
            lift (targets_of t) w (fun ts =>
              let ts := map with_weight ts in
              let '(r, w1) := random w in
              match pick_weight 0 (nmul r (totalWeight ts)) ts with
              | Some (index, p) => try p (child_path path p (index_json index)) w1
              | None => Some (Ok None, w1)
              end)
          else if (m =? "conditional")%string then
            lift (match own t "targets" with Some _ => targets_of t | None => Ok [] end) w (fun ts =>
              match route_conditionally regex_test context (mkTargets (strategy_of t) (Some ts)) with
              | Ok final => try final (child_path path final (default JNull (own final "index"))) w
              | Throw e => Some (Throw (RouterFailed e), w)
              end)
          else if (m =? "single")%string then
            lift (targets_of t) w (fun ts =>
              match ts with
              | first :: _ => try first (child_path path first (index_json 0)) w
              | [] => Some (Throw NotAnObject, w)
              end)
          else let '(r, w1) := leaf t path (own i "id") w in Some (Ok (Some r), w1)
      | _ => let '(r, w1) := leaf t path (own i "id") w in Some (Ok (Some r), w1)
      end))
  end.
End Tree.

(** ** Depth *)

(** Levels of arrays and objects. *)
Fixpoint json_depth (v : json) : nat :=
  match v with
  | JArr l => S (foldr (fun x n => Nat.max (json_depth x) n) 0 l)
  | JObj o => S (foldr (fun p n => Nat.max (json_depth p.2) n) 0 o)
  | _ => 0
  end.

Definition target_depth (t : obj json) : nat := json_depth (JObj t).

Lemma depth_member k (o : obj json) v : own o k = Some v -> json_depth v < target_depth o.
Proof.
  intros Ho. unfold target_depth. simpl. apply Nat.lt_succ_r.
  induction o as [|[k' x] o IH]; simpl in *; [done|]. destruct (k =? k')%string.
  - injection Ho as ->. lia.
  - specialize (IH Ho). lia.
Qed.

Lemma depth_element (l : list json) v : v ∈ l -> json_depth v < json_depth (JArr l).
Proof.
  intros Hv. simpl. apply Nat.lt_succ_r. induction Hv as [x l|x y l _ IH]; simpl; lia.
Qed.

(** Storing a value without parts makes an object no deeper. *)
Lemma depth_put_leaf (o : obj json) k v :
  json_depth v = 0 -> target_depth (obj_put o k v) <= target_depth o.
Proof.
  intros Hv. unfold target_depth. simpl. apply le_n_S.
  induction o as [|[k' x] o IH]; simpl; [lia|]. destruct (k =? k')%string; simpl; lia.
Qed.

(** ** The merge leaves the list of targets alone *)

Lemma own_put_ne {A} (o : obj A) k k' (v : A) : k' <> k -> own (obj_put o k v) k' = own o k'.
Proof. intros Hne. rewrite own_put. by destruct (String.eqb_spec k' k). Qed.

Lemma own_put_any_ne (o : obj json) k k' v : k' <> k -> own (put_any o k v) k' = own o k'.
Proof. intros Hne. destruct v; simpl; [by apply own_put_ne|by apply own_map_delete]. Qed.

Section Merge.
Variable random_id : string -> nat -> string.
Variable k' : string.

Lemma inherit_bool_keeps k back inh (t i : obj json) :
  k' <> k -> own (inherit_bool k back inh (t, i)).1 k' = own t k'.
Proof.
  intros Hne. unfold inherit_bool. destruct (is_bool _); [done|]. destruct (is_bool _); [|done].
  destruct back; [by apply own_put_any_ne|done].
Qed.

Lemma inherit_value_keeps k inh (t i : obj json) :
  k' <> k -> own (inherit_value k inh (t, i)).1 k' = own t k'.
Proof.
  intros Hne. unfold inherit_value. destruct (truthy _); [done|]. destruct (truthy _); [|done].
  by apply own_put_any_ne.
Qed.

Lemma inherit_list_keeps k inh (t i t2 i2 : obj json) :
  k' <> k -> inherit_list k inh (t, i) = Ok (t2, i2) -> own t2 k' = own t k'.
Proof.
  intros Hne. unfold inherit_list. destruct (truthy _).
  { destruct (spread_list _); [by intros [= <- _]|done]. }
  destruct (truthy _); [|by intros [= <- _]].
  destruct (spread_list _); [|done]. intros [= <- _]. by apply own_put_ne.
Qed.

Lemma add_hooks_keeps sh hooks type ht (t t2 : obj json) :
  k' <> hooks -> add_hooks random_id sh hooks type ht t = Ok t2 -> own t2 k' = own t k'.
Proof.
  intros Hne. unfold add_hooks. destruct (truthy _); [|by intros [= <-]].
  intros Hr. run_ok. injection Hr as <-. by apply own_put_ne.
Qed.

(** The properties [merge_config] may write in the target. *)
Definition written : list string :=
  ["messagesViaResponses"; "forwardHeaders"; "customHost"; "requestTimeout"; "beforeRequestHooks";
   "afterRequestHooks"; "overrideParams"; "retry"; "cache"; "defaultInputGuardrails";
   "defaultOutputGuardrails"; "strictOpenAiCompliance"].

Lemma merge_config_keeps t inh t2 i2 :
  k' ∉ written -> merge_config random_id t inh = Ok (t2, i2) -> own t2 k' = own t k'.
Proof.
  unfold written. rewrite !not_elem_of_cons. intros (N1 & N2 & N3 & N4 & N5 & N6 & N7 & N8 & N9 & N10 & N11 & N12 & _).
  unfold merge_config.
  destruct (default_hooks _ "defaultInputGuardrails" _ _ _ _) as [ia|]; [|done].
  destruct (default_hooks _ "defaultOutputGuardrails" _ _ _ _) as [ib|]; [|done].
  pose proof (inherit_bool_keeps "strictOpenAiCompliance" false inh t ib ltac:(done)) as H1.
  destruct (inherit_bool "strictOpenAiCompliance" _ _ _) as [t3 i3].
  pose proof (inherit_bool_keeps "messagesViaResponses" true inh t3 i3 ltac:(done)) as H4.
  destruct (inherit_bool "messagesViaResponses" _ _ _) as [t4 i4].
  destruct (inherit_list "forwardHeaders" _ _) as [[t5 i5]|] eqn:H5; [|done].
  apply inherit_list_keeps in H5; [|done].
  pose proof (inherit_value_keeps "customHost" inh t5 i5 ltac:(done)) as H6.
  destruct (inherit_value "customHost" _ _) as [t6 i6].
  pose proof (inherit_value_keeps "requestTimeout" inh t6 i6 ltac:(done)) as H7.
  destruct (inherit_value "requestTimeout" _ _) as [t7 i7].
  destruct (add_hooks _ "inputGuardrails" _ _ _ _) as [t8|] eqn:H8; [|done].
  destruct (add_hooks _ "outputGuardrails" _ _ _ _) as [t9|] eqn:H9; [|done].
  destruct (add_hooks _ "inputMutators" _ _ _ _) as [t10|] eqn:H10; [|done].
  destruct (add_hooks _ "outputMutators" _ _ _ _) as [t11|] eqn:H11; [|done].
  apply add_hooks_keeps in H8, H9, H10, H11; [|done..].
  destruct (inherit_list "afterRequestHooks" _ _) as [[t12 i12]|] eqn:H12; [|done].
  destruct (inherit_list "beforeRequestHooks" _ _) as [[t13 i13]|] eqn:H13; [|done].
  apply inherit_list_keeps in H12, H13; [|done..].
  destruct (spread_list _); [|done]. destruct (spread_list _); [|done]. intros [= <- _].
  simpl in *. rewrite !own_put_ne by done. congruence.
Qed.
End Merge.

(** ** The recursion is total *)

Lemma targets_of_spec (t : obj json) ts x :
  targets_of t = Ok ts -> x ∈ ts -> exists l, own t "targets" = Some (JArr l) /\ JObj x ∈ l.
Proof.
  unfold targets_of. destruct (own t "targets") as [[]|]; try done. intros Hm Hx.
  exists l. split; [done|]. apply map_throw_Ok in Hm.
  apply list_elem_of_lookup in Hx as [i Hi].
  destruct (Forall2_lookup_r _ _ _ _ _ Hm Hi) as (y & Hy & He). destruct y; simplify_eq.
  by eapply list_elem_of_lookup_2.
Qed.

Lemma targets_of_put (t : obj json) (ts : list (obj json)) :
  targets_of (obj_put t "targets" (JArr (map JObj ts))) = Ok ts.
Proof.
  unfold targets_of. rewrite own_put. simpl. apply map_throw_Ok.
  induction ts; simpl; constructor; auto.
Qed.

(** The targets a node goes on with are less deep than the node. *)
Lemma children_shallow (t0 t i t2 : obj json) ts x :
  own t "targets" = own t0 "targets" ->
  drop_open t i = Ok t2 -> targets_of t2 = Ok ts -> x ∈ ts -> target_depth x < target_depth t0.
Proof.
  intros H0.
  assert (Hd : forall ts x, targets_of t = Ok ts -> x ∈ ts -> target_depth x < target_depth t0).
  { intros ts0 x0 Ht Hx. destruct (targets_of_spec _ _ _ Ht Hx) as (l & Ho & Hl).
    rewrite H0 in Ho. apply depth_member in Ho. apply depth_element in Hl. unfold target_depth in *. lia. }
  unfold drop_open. destruct (truthy _); [|by intros [= <-]; apply Hd].
  destruct (healthy_targets t) as [h|] eqn:Hh; [|done]. destruct h as [|y h]; [by intros [= <-]; apply Hd|].
  intros [= <-] Hts. assert (ts = y :: h) as -> by (by injection (eq_trans (eq_sym Hts) (targets_of_put t (y :: h)))).
  intros Hx. revert Hh. unfold healthy_targets.
  destruct (truthy _); [|done]. destruct (targets_of t) as [l|] eqn:Ht; [|done]. intros [= Hf].
  rewrite <- Hf in Hx. apply filter_elem in Hx as [Hx _]. apply list_elem_of_fmap in Hx as ([j z] & -> & Hz).
  simpl. apply elem_of_zip_r in Hz. specialize (Hd l z eq_refl Hz).
  pose proof (depth_put_leaf z "originalIndex" (JNum (num_of_Z (Z.of_nat j))) eq_refl). lia.
Qed.

Lemma with_weight_depth t : target_depth (with_weight t) <= target_depth t.
Proof. unfold with_weight. destruct (own t "weight"); [done|]. by apply depth_put_leaf. Qed.

Lemma pick_weight_elem ts index r j p : pick_weight index r ts = Some (j, p) -> p ∈ ts.
Proof.
  revert index r. induction ts as [|t ts IH]; intros index r; simpl; [done|].
  destruct (nltb _ _); [intros [= _ <-]; by left|]. intros H. right. by eapply IH.
Qed.

Lemma findTarget_depth config name x :
  findTarget config name = Ok x ->
  exists y, y ∈ default [] (tg_targets config) /\ target_depth x <= target_depth y.
Proof.
  unfold findTarget. destruct (find_index _ _) as [j|] eqn:Hj; [|done]. intros [= <-].
  destruct (default [] (tg_targets config) !! j) as [y|] eqn:Hy.
  - exists y. split; [by eapply list_elem_of_lookup_2|]. by apply depth_put_leaf.
  - exfalso. apply lookup_ge_None in Hy. revert Hj Hy. generalize (default [] (tg_targets config)).
    intros l. revert j. induction l as [|z l IH]; intros j; simpl; [done|].
    destruct (has_name name z); [intros [= <-]; simpl; lia|].
    destruct (find_index _ l) as [j'|]; [|done]. intros [= <-] Hy. apply (IH j'); [done|lia].
Qed.

Section Total.
Context {W : Type}.
Variable random_id : string -> nat -> string.
Variable regex_test : json -> any -> option bool.
Variable context : RouterContext.
Variable to_text : json -> string.
Variable random : W -> num * W.
Variable tryPost : obj json -> string -> W -> result PostError Response * W.
Variable cb : option (Response -> any -> any -> string -> W -> result PostError unit * W).

#[local] Abbreviation try_targets :=
  (tryTargetsRecursively random_id regex_test context to_text random tryPost cb).

Lemma route_depth config x :
  route_conditionally regex_test context config = Ok x ->
  exists y, y ∈ default [] (tg_targets config) /\ target_depth x <= target_depth y.
Proof.
  unfold route_conditionally, resolveTarget. destruct (tg_strategy config) as [[m cs d]|]; [|done].
  destruct (_ =? _)%string; [|done]. destruct cs as [cs|]; [|done].
  destruct (first_condition _ _ _) as [[name|]|]; [apply findTarget_depth| |done].
  destruct d as [name|]; [|done]. destruct (truthy_string _); [apply findTarget_depth|done].
Qed.

Lemma fallback_total (try : obj json -> string -> W -> option Answer) codes path ts :
  (forall t p w, t ∈ ts -> try t p w <> None) ->
  forall index r w, fallback_loop to_text try codes path index ts r w <> None.
Proof.
  induction ts as [|t ts IH]; intros Ht index r w; simpl; [done|].
  destruct (try t _ w) as [[[r1|e] w1]|] eqn:E; [|done|by intros _; eapply (Ht t); [left|exact E]].
  destruct (skips_fallback _ _); [done|]. apply IH. intros. apply Ht. by right.
Qed.

(** [C34] The recursion over the targets of a config ends: fuel beyond the depth
    of the config always gives an answer or an error, in every mode, whatever
    the upstream answers and whichever target the weights and conditions
    choose. *)
Theorem target_search_terminates fuel target path inherited w :
  target_depth target < fuel -> is_Some (try_targets fuel target path inherited w).
Proof.
  rewrite <- not_eq_None_Some.
  revert target path inherited w. induction fuel as [|f IH]; intros target path inherited w Hf; [lia|].
  cbn [tryTargetsRecursively]. unfold lift.
  destruct (merge_config _ _ _) as [[t i]|e] eqn:Hm; [|done].
  assert (Hown : own t "targets" = own target "targets")
    by (eapply merge_config_keeps; [by apply (bool_decide_unpack _)|exact Hm]).
  destruct (drop_open t i) as [t2|e] eqn:Hdr; [|done].
  assert (Hch : forall ts x, targets_of t2 = Ok ts -> x ∈ ts -> target_depth x < f).
  { intros ts x Hts Hx. pose proof (children_shallow _ _ _ _ _ _ Hown Hdr Hts Hx). lia. }
  destruct (prop _ "mode") as [[| | |m| |]|]; try (by destruct (leaf _ _ _ _ _ _)).
  destruct (m =? "fallback")%string.
  { destruct (targets_of t2) as [ts|] eqn:Hts; [|done]. apply fallback_total. eauto. }
  destruct (m =? "loadbalance")%string.
  { destruct (targets_of t2) as [ts|] eqn:Hts; [|done]. destruct (random w) as [r w1].
    destruct (pick_weight _ _ _) as [[j p]|] eqn:Hp; [|done].
    apply pick_weight_elem, list_elem_of_fmap in Hp as (y & -> & Hy). apply IH.
    pose proof (with_weight_depth y). specialize (Hch _ _ eq_refl Hy). lia. }
  destruct (m =? "conditional")%string.
  { destruct (match own t2 "targets" with Some _ => _ | None => _ end) as [ts|] eqn:Hts; [|done].
    destruct (route_conditionally _ _ _) as [x|] eqn:Hr; [|done].
    destruct (route_depth _ _ Hr) as (y & Hy & Hxy). apply IH. simpl in Hy.
    assert (target_depth y < f); [|lia]. destruct (own t2 "targets"); simplify_eq; [eauto|].
    by apply elem_of_nil in Hy. }
  destruct (m =? "single")%string.
  { destruct (targets_of t2) as [[|y ts]|] eqn:Hts; [done| |done]. apply IH. eapply Hch; [done|by left]. }
  by destruct (leaf _ _ _ _ _ _).
Qed.
End Total.

(** ** What a fallback answers *)

Section Fallback.
Context {W : Type}.
Variable to_text : json -> string.
Variable codes : any.
Variable path : string.
Variable try : obj json -> string -> W -> option (Answer (W := W)).

(** The targets from an index on are tried in order, each in the world the one
    before left, with these answers. *)
Inductive tried : nat -> list (obj json) -> W -> list (option Response) -> W -> Prop :=
| tried_none index w : tried index [] w [] w
| tried_one index t ts w r w1 rs w2 :
    try t (child_path to_text path t (index_json index)) w = Some (Ok r, w1) ->
    tried (S index) ts w1 rs w2 ->
    tried index (t :: ts) w (r :: rs) w2.

(** The contract of the fallback: it tries a prefix of the targets, in
    order and each in the world the one before left, none of whose answers but
    the last one stops it; its answer is the last one tried, and that answer
    stops it unless every target was tried. *)
Theorem fallback_answers_last_tried index ts r0 w r w' :
  fallback_loop to_text try codes path index ts r0 w = Some (Ok r, w') ->
  (ts = [] /\ r = r0 /\ w' = w) \/
  exists front back rs,
    ts = front ++ back /\ tried index front w (rs ++ [r]) w' /\
    Forall (fun x => skips_fallback codes x = false) rs /\
    (skips_fallback codes r = true \/ back = []).
Proof.
  revert index r0 w. induction ts as [|t ts IH]; intros index r0 w; simpl.
  { intros [= <- <-]. by left. }
  destruct (try t _ w) as [[[r1|e] w1]|] eqn:E; [|done..]. intros H. right.
  destruct (skips_fallback codes r1) eqn:Hs.
  - injection H as <- <-. exists [t], ts, []. split; [done|]. split; [|by auto].
    econstructor; [exact E|constructor].
  - apply IH in H as [(-> & -> & ->)|(front & back & rs & -> & Ht & Hrs & Hend)].
    + exists [t], [], []. split; [done|]. split; [|by auto].
      econstructor; [exact E|constructor].
    + exists (t :: front), back, (r1 :: rs). split; [done|]. split; [|by auto].
      econstructor; [exact E|exact Ht].
Qed.
End Fallback.

Lemma failure_skips codes e : skips_fallback codes (Some (failure_response e)) = true.
Proof. unfold skips_fallback. destruct e; apply orb_true_r. Qed.

Section Leaves.
Context {W : Type}.
Variable random_id : string -> nat -> string.
Variable regex_test : json -> any -> option bool.
Variable context : RouterContext.
Variable to_text : json -> string.
Variable random : W -> num * W.
Variable tryPost : obj json -> string -> W -> result PostError Response * W.
Variable cb : option (Response -> any -> any -> string -> W -> result PostError unit * W).

#[local] Abbreviation try_targets :=
  (tryTargetsRecursively random_id regex_test context to_text random tryPost cb).

(** A target without a mode. *)
Lemma leaf_answer fuel t path inh w t2 i2 :
  prop (own t "strategy") "mode" = None -> own t "targets" = None ->
  merge_config random_id t inh = Ok (t2, i2) ->
  try_targets (S fuel) t path inh w =
    let '(r, w1) := leaf tryPost cb t2 path (own i2 "id") w in Some (Ok (Some r), w1).
Proof.
  intros Hmode Hts Hm. cbn [tryTargetsRecursively]. rewrite Hm, Hmode. simpl.
  assert (own t2 "targets" = None) as Hts2.
  { rewrite <- Hts. eapply merge_config_keeps; [by apply (bool_decide_unpack _)|exact Hm]. }
  unfold drop_open, healthy_targets. rewrite Hts2. simpl. by destruct (truthy (own i2 "id")).
Qed.

(** An exception of a target's request never leaves the recursion: it is
    answered with an error response marked as the gateway's own, and that
    response ends the enclosing fallback, whatever status codes the fallback
    goes on for: no later target is called. *)
Theorem exception_ends_fallback fuel t rest path inh codes index r0 w t2 i2 e w1 :
  prop (own t "strategy") "mode" = None -> own t "targets" = None ->
  merge_config random_id t inh = Ok (t2, i2) ->
  tryPost t2 (child_path to_text path t (index_json index)) w = (Throw e, w1) ->
  fallback_loop to_text (fun t p w => try_targets (S fuel) t p inh w) codes path index (t :: rest) r0 w =
    Some (Ok (Some (failure_response e)), w1).
Proof.
  intros Hmode Hts Hm Hp. cbn [fallback_loop]. rewrite (leaf_answer _ _ _ _ _ _ _ Hmode Hts Hm).
  unfold leaf. rewrite Hp. cbv beta iota. by rewrite failure_skips.
Qed.
End Leaves.

(** ** Settings are inherited from the nearest ancestor *)

Section Inherit.
Variable random_id : string -> nat -> string.

(** The merges on the way from the root of a tree to one of its leaves. *)
Fixpoint merge_chain (chain : list (obj json)) (inherited : obj json) : result TargetError pair :=
  match chain with
  | [] => Throw NotAnObject
  | [t] => merge_config random_id t inherited
  | t :: rest => let* p := merge_config random_id t inherited in merge_chain rest p.2
  end.

Lemma inherit_list_other k k' inh (t i t2 i2 : obj json) :
  k' <> k -> inherit_list k inh (t, i) = Ok (t2, i2) -> own i2 k' = own i k'.
Proof.
  intros Hne. unfold inherit_list. destruct (truthy _).
  { destruct (spread_list _); [|done]. intros [= _ <-]. by apply own_put_ne. }
  destruct (truthy _); [|by intros [= _ <-]].
  destruct (spread_list _); [|done]. intros [= _ <-]. by apply own_put_ne.
Qed.

Lemma inherit_value_other k k' inh (t i : obj json) :
  k' <> k -> own (inherit_value k inh (t, i)).2 k' = own i k'.
Proof.
  intros Hne. unfold inherit_value. destruct (truthy _); [by apply own_put_any_ne|].
  destruct (truthy _); [|done]. by apply own_put_any_ne.
Qed.

Lemma inherit_bool_other k back k' inh (t i : obj json) :
  k' <> k -> own (inherit_bool k back inh (t, i)).2 k' = own i k'.
Proof.
  intros Hne. unfold inherit_bool. destruct (is_bool _); [by apply own_put_any_ne|].
  destruct (is_bool _); [|done]. by apply own_put_any_ne.
Qed.

Lemma default_hooks_other k type k' t inh i i2 :
  k' <> k -> default_hooks random_id k type t inh i = Ok i2 -> own i2 k' = own i k'.
Proof.
  intros Hne. rewrite <- (own_put_any_ne i k k' (own inh k) Hne). unfold default_hooks.
  destruct inh; [|by intros [= <-]]. destruct (truthy _); [|by intros [= <-]].
  destruct (convertHooksShorthand _ _ _ _); [|done]. intros [= <-]. by apply own_put_ne.
Qed.

Lemma own_put_any (o : obj json) k v : own (put_any o k v) k = v.
Proof. destruct v; simpl; [by rewrite own_put, String.eqb_refl|apply own_map_delete_eq]. Qed.

Definition no_value (v : any) : any := or_any v None.

Lemma inherit_value_spec k inh (t i : obj json) :
  no_value (own i k) = None ->
  no_value (own (inherit_value k inh (t, i)).1 k) = or_any (own t k) (no_value (own inh k)) /\
  no_value (own (inherit_value k inh (t, i)).2 k) = or_any (own t k) (no_value (own inh k)).
Proof.
  intros Hi. unfold inherit_value, no_value, or_any in *.
  destruct (truthy (own t k)) eqn:Ht; simpl; [rewrite own_put_any, Ht; done|].
  destruct (truthy (own inh k)) eqn:Hn; simpl; [rewrite !own_put_any, Hn; done|].
  rewrite Ht. done.
Qed.

(** The settings a target takes from its nearest ancestor as they are. *)
Definition plain_setting (k : string) : Prop := k = "customHost" \/ k = "requestTimeout".

#[local] Ltac other Hk := intros ->; by destruct Hk.

Lemma inherit_plain k inh (t i : obj json) :
  plain_setting k -> no_value (own i k) = None ->
  let p := inherit_value "requestTimeout" inh (inherit_value "customHost" inh (t, i)) in
  no_value (own p.1 k) = or_any (own t k) (no_value (own inh k)) /\
  no_value (own p.2 k) = or_any (own t k) (no_value (own inh k)).
Proof.
  intros Hk Hi. destruct (inherit_value "customHost" inh (t, i)) as [t' i'] eqn:E. cbv zeta.
  destruct Hk as [-> | ->].
  - rewrite inherit_value_keeps, inherit_value_other by done.
    pose proof (inherit_value_spec "customHost" inh t i Hi) as H. by rewrite E in H.
  - pose proof (inherit_value_keeps "requestTimeout" "customHost" inh t i ltac:(done)) as Ht.
    pose proof (inherit_value_other "customHost" "requestTimeout" inh t i ltac:(done)) as Hi2.
    rewrite E in Ht, Hi2. simpl in *. rewrite <- Ht. apply inherit_value_spec. by rewrite Hi2.
Qed.

Lemma merge_config_value k t inh t2 i2 :
  plain_setting k -> merge_config random_id t inh = Ok (t2, i2) ->
  no_value (own t2 k) = or_any (own t k) (no_value (own inh k)) /\
  no_value (own i2 k) = or_any (own t k) (no_value (own inh k)).
Proof.
  intros Hk. unfold merge_config.
  destruct (default_hooks _ "defaultInputGuardrails" _ _ _ _) as [ia|] eqn:Ha; [|done].
  destruct (default_hooks _ "defaultOutputGuardrails" _ _ _ _) as [ib|] eqn:Hb; [|done].
  assert (Hib : no_value (own ib k) = None).
  { apply (default_hooks_other _ _ k) in Ha; [|other Hk]. apply (default_hooks_other _ _ k) in Hb; [|other Hk].
    rewrite Hb, Ha. unfold object_settings. destruct Hk as [-> | ->]; [|by rewrite own_put].
    rewrite !own_put_ne, own_put_any_ne by done. done. }
  pose proof (inherit_bool_keeps k "strictOpenAiCompliance" false inh t ib ltac:(other Hk)) as H1.
  pose proof (inherit_bool_other "strictOpenAiCompliance" false k inh t ib ltac:(other Hk)) as J1.
  destruct (inherit_bool "strictOpenAiCompliance" _ _ _) as [t3 i3].
  pose proof (inherit_bool_keeps k "messagesViaResponses" true inh t3 i3 ltac:(other Hk)) as H4.
  pose proof (inherit_bool_other "messagesViaResponses" true k inh t3 i3 ltac:(other Hk)) as J4.
  destruct (inherit_bool "messagesViaResponses" _ _ _) as [t4 i4].
  destruct (inherit_list "forwardHeaders" _ _) as [[t5 i5]|] eqn:H5; [|done].
  pose proof (inherit_list_other "forwardHeaders" k _ _ _ _ _ ltac:(other Hk) H5) as J5.
  apply (inherit_list_keeps k) in H5; [|other Hk]. cbn [fst snd] in *.
  pose proof (inherit_plain k inh t5 i5 Hk ltac:(congruence)) as [H7 J7].
  destruct (inherit_value "requestTimeout" _ _) as [t7 i7]. cbn [fst snd] in *.
  destruct (add_hooks _ "inputGuardrails" _ _ _ _) as [t8|] eqn:H8; [|done].
  destruct (add_hooks _ "outputGuardrails" _ _ _ _) as [t9|] eqn:H9; [|done].
  destruct (add_hooks _ "inputMutators" _ _ _ _) as [t10|] eqn:H10; [|done].
  destruct (add_hooks _ "outputMutators" _ _ _ _) as [t11|] eqn:H11; [|done].
  apply (add_hooks_keeps _ k) in H8, H9, H10, H11; [|other Hk..].
  destruct (inherit_list "afterRequestHooks" _ _) as [[t12 i12]|] eqn:H12; [|done].
  destruct (inherit_list "beforeRequestHooks" _ _) as [[t13 i13]|] eqn:H13; [|done].
  pose proof (inherit_list_other "afterRequestHooks" k _ _ _ _ _ ltac:(other Hk) H12) as J12.
  pose proof (inherit_list_other "beforeRequestHooks" k _ _ _ _ _ ltac:(other Hk) H13) as J13.
  apply (inherit_list_keeps k) in H12, H13; [|other Hk..].
  destruct (spread_list _); [|done]. destruct (spread_list _); [|done]. intros [= <- <-].
  rewrite !own_put_ne by (other Hk). split; congruence.
Qed.

(** Down any path of the tree, the target at its end is called with the
    custom host and the request timeout of the nearest target of the path that
    sets one, itself included, and with none when no target of the path does. *)
Theorem nearest_setting_wins k chain inh t i :
  plain_setting k -> merge_chain chain inh = Ok (t, i) ->
  no_value (own t k) = foldl (fun near x => or_any (own x k) near) (no_value (own inh k)) chain.
Proof.
  intros Hk. revert inh. induction chain as [|x [|y chain] IH]; intros inh; [done| |].
  - intros Hm. by apply (merge_config_value k) in Hm as [H _].
  - cbn [merge_chain]. destruct (merge_config random_id x inh) as [[t1 i1]|] eqn:Hm; [|done].
    intros H. apply (merge_config_value k) in Hm as [_ Hi]; [|done]. simpl in H.
    rewrite (IH i1 H), Hi. done.
Qed.
End Inherit.

(** ** Open targets *)

Section Healthy.
Variable to_text : json -> string.

Lemma index_truthy j : (0 < j <= 1000)%nat -> num_truthy (num_of_Z (Z.of_nat j)) = true.
Proof.
  intros Hj. assert (H : forallb (fun j => num_truthy (num_of_Z (Z.of_nat j))) (seq 1 1000) = true)
    by (vm_compute; reflexivity).
  rewrite forallb_forall in H. apply H. apply in_seq. lia.
Qed.

Definition not_open (x : obj json) : bool := negb (truthy (own x "isOpen")).

Definition with_index (p : nat * obj json) : obj json :=
  obj_put p.2 "originalIndex" (JNum (num_of_Z (Z.of_nat p.1))).

(** The position of a target in a filtered list is not before its index, and
    is it when the index is zero. *)
Lemma filtered_position (l : list (obj json)) : forall from p x,
  List.filter not_open (map with_index (zip (seq from (length l)) l)) !! p = Some x ->
  exists j y, l !! j = Some y /\ x = with_index (from + j, y) /\ not_open y = true /\ p <= j.
Proof.
  induction l as [|y l IH]; intros from p x; [done|]. cbn [length seq zip_with map List.filter].
  assert (Hn : not_open (with_index (from, y)) = not_open y).
  { unfold not_open, with_index. cbn [fst snd]. by rewrite own_put_ne. }
  rewrite Hn. destruct (not_open y) eqn:Hy.
  - destruct p as [|p]; cbn [lookup list_lookup].
    + intros [= <-]. exists 0, y. rewrite Nat.add_0_r. eauto.
    + intros Hp. apply IH in Hp as (j & z & Hz & -> & Ho & Hle). exists (S j), z.
      rewrite Nat.add_succ_r. repeat split; [done..|lia].
  - intros Hp. apply IH in Hp as (j & z & Hz & -> & Ho & Hle). exists (S j), z.
    rewrite Nat.add_succ_r. repeat split; [done..|lia].
Qed.

Lemma filtered_nonempty (l : list (obj json)) from j y :
  l !! j = Some y -> not_open y = true ->
  List.filter not_open (map with_index (zip (seq from (length l)) l)) <> [].
Proof.
  revert from j. induction l as [|z l IH]; intros from j Hj Hy; [done|].
  cbn [length seq zip_with map List.filter].
  destruct j as [|j]; simpl in Hj; [injection Hj as ->|].
  - assert (not_open (with_index (from, y)) = true) as ->; [|discriminate].
    rewrite <- Hy. unfold not_open, with_index. cbn [fst snd]. by rewrite own_put_ne.
  - destruct (not_open (with_index (from, z))); [discriminate|]. by eapply IH.
Qed.

(** A node of a circuit-broken config goes on with targets whose breaker is
    closed only, as long as it has one, and reports each call under the target's
    position in the config, not its position among those left. *)
Theorem open_targets_are_skipped t i t2 ts0 ts p x :
  truthy (own i "id") = true -> targets_of t = Ok ts0 -> (length ts0 <= 1000)%nat ->
  Exists (fun y => not_open y = true) ts0 ->
  drop_open t i = Ok t2 -> targets_of t2 = Ok ts -> ts !! p = Some x ->
  not_open x = true /\
  exists j y, ts0 !! j = Some y /\ x = with_index (j, y) /\
    forall path, child_path to_text path x (index_json p) =
                 path +:+ ".targets[" +:+ to_text (index_json j) +:+ "]".
Proof.
  intros Hid Ht Hlen Hex. unfold drop_open. rewrite Hid.
  assert (truthy (own t "targets") = true) as Htr.
  { revert Ht. unfold targets_of. by destruct (own t "targets") as [[]|]. }
  unfold healthy_targets. rewrite Htr, Ht.
  change (fun x : obj json => negb (truthy (own x "isOpen"))) with not_open.
  change (fun p : nat * obj json => obj_put p.2 "originalIndex" (JNum (num_of_Z (Z.of_nat p.1))))
    with with_index.
  destruct (List.filter not_open _) as [|h hs] eqn:Hh.
  { intros _ _ _. exfalso. apply Exists_exists in Hex as (y & Hy & Ho).
    apply list_elem_of_lookup in Hy as [j Hj]. eapply (filtered_nonempty ts0 0); eauto. }
  intros [= <-] Hts. assert (ts = h :: hs) as ->
    by (by injection (eq_trans (eq_sym Hts) (targets_of_put t (h :: hs)))).
  intros Hp. rewrite <- Hh in Hp. apply filtered_position in Hp as (j & y & Hj & -> & Ho & Hle).
  split; [unfold not_open, with_index; cbn [fst snd]; by rewrite own_put_ne|].
  exists j, y. split; [done|]. split; [done|]. intros path. unfold child_path, index_text, with_index.
  cbn [fst snd Nat.add]. rewrite own_put, String.eqb_refl. unfold truthy.
  destruct j as [|j]; [by replace p with 0 by lia|].
  apply lookup_lt_Some in Hj. by rewrite index_truthy by lia.
Qed.
End Healthy.

(** ** A load balancer that chooses nobody *)

Definition weighted (s : string) : json := JObj [("weight", JNum (parseFloat (Some (JStr s))))].

Definition balanced : obj json :=
  [("strategy", JObj [("mode", JStr "loadbalance")]);
   ("targets", JArr [weighted "0.1"; weighted "0.2"; weighted "0.3"]);
   ("defaultInputGuardrails", JArr []); ("defaultOutputGuardrails", JArr [])].

(** The largest value of [Math.random]. *)
Definition largest_random : num := nsub (num_of_Z 1) (ndiv (num_of_Z 1) (num_of_Z (2 ^ 53))).

(** Subtracting binary64 weights one by one does not end at the last
    target: there are three positive weights and a value of [Math.random] below
    one for which no target is called and the answer is undefined.
    [selectProviderByWeight] throws an error there; the recursion does not. *)
Theorem load_balance_may_call_nobody {W} random_id regex_test context to_text
    (tryPost : obj json -> string -> W -> result PostError Response * W) cb w :
  (nleb nzero largest_random && nltb largest_random (num_of_Z 1) = true) /\
  tryTargetsRecursively random_id regex_test context to_text (fun w => (largest_random, w))
    tryPost cb 1 balanced "config" [] w = Some (Ok None, w) /\
  selectProviderByWeight largest_random
    [[("weight", JNum (parseFloat (Some (JStr "0.1"))))]; [("weight", JNum (parseFloat (Some (JStr "0.2"))))];
     [("weight", JNum (parseFloat (Some (JStr "0.3"))))]] = None.
Proof. repeat split; vm_compute; reflexivity. Qed.

(** ** Concrete runs *)

Module Samples.
Definition ids (type : string) (n : nat) : string := "x".
Definition no_regex (v : json) (x : any) : option bool := Some false.
Definition ctx : RouterContext := mkContext None None "/v1".
Definition show (v : json) : string :=
  match v with JNum n => if neqb n nzero then "0" else if neqb n (num_of_Z 1) then "1" else "2" | _ => "?" end.

(** The world records the paths called; the upstream at the first path fails. *)
Definition post (t : obj json) (path : string) (w : list string) : result PostError Response * list string :=
  (match own t "fails" with
   | Some (JStr s) => if (s =? "status")%string then Ok (mkResponse 500 [] (Ok "") false)
                      else Throw (GatewayError s 502)
   | _ => Ok (mkResponse 200 [] (Ok "done") false)
   end, w ++ [path]).

Definition half (w : list string) : num * list string := (ndiv (num_of_Z 1) (num_of_Z 2), w).

Definition run_tree (fuel : nat) (t : obj json) : option (Answer (W := list string)) :=
  tryTargetsRecursively ids no_regex ctx show half post None fuel t "config" [] [].

Definition root (mode : string) (more : obj json) (ts : list (obj json)) : obj json :=
  [("strategy", JObj [("mode", JStr mode)]); ("targets", JArr (map JObj ts));
   ("defaultInputGuardrails", JArr []); ("defaultOutputGuardrails", JArr [])] ++ more.

Definition failing : obj json := [("fails", JStr "status")].
Definition throwing : obj json := [("fails", JStr "no route")].
Definition good : obj json := [("provider", JStr "openai")].
Definition opened : obj json := [("isOpen", JBool true)].

Definition paths (a : option (Answer (W := list string))) : option (option Z * list string) :=
  match a with
  | Some (Ok r, w) => Some (r_status <$> r, w)
  | _ => None
  end.

Example runs :
  map (fun t => paths (run_tree 3 t))
    [root "fallback" [] [failing; good; good];
     root "fallback" [] [failing; throwing; good];
     root "fallback" [] [];
     root "loadbalance" [] [good; good; good];
     root "single" [] [root "fallback" [] [failing; good]; good];
     root "fallback" [("id", JStr "c")] [opened; failing; good]] =
  [Some (Some 200%Z, ["config.targets[0]"; "config.targets[1]"]);
   Some (Some 502%Z, ["config.targets[0]"; "config.targets[1]"]);
   Some (None, []);
   Some (Some 200%Z, ["config.targets[1]"]);
   Some (Some 200%Z, ["config.targets[0].targets[0]"; "config.targets[0].targets[1]"]);
   Some (Some 200%Z, ["config.targets[1]"; "config.targets[2]"])].
Proof. vm_compute. reflexivity. Qed.

Definition nested : obj json := root "single" [] [root "fallback" [] [failing; good]; good].

Lemma target_search_terminates_witness : is_Some (run_tree 8 nested).
Proof. apply target_search_terminates. vm_compute. lia. Defined.

Definition level (f : obj json -> string -> list string -> option (Answer (W := list string)))
    (ts : list (obj json)) := fallback_loop show f None "config" 0 ts None [].

Definition inherited : obj json := [("defaultInputGuardrails", JArr []); ("defaultOutputGuardrails", JArr [])].

Definition child (t : obj json) (p : string) (w : list string) :=
  tryTargetsRecursively ids no_regex ctx show half post None 2 t p inherited w.

Lemma fallback_answers_last_tried_witness :
  exists front back rs, [failing; good; good] = front ++ back /\
    tried show "config" child 0 front [] (rs ++ [Some (mkResponse 200 [] (Ok "done") false)])
      ["config.targets[0]"; "config.targets[1]"] /\
    Forall (fun x => skips_fallback None x = false) rs.
Proof.
  destruct (fallback_answers_last_tried show None "config" child 0 [failing; good; good] None []
              (Some (mkResponse 200 [] (Ok "done") false)) ["config.targets[0]"; "config.targets[1]"])
    as [(? & _)|(front & back & rs & H1 & H2 & H3 & _)].
  - vm_compute. reflexivity.
  - discriminate.
  - exists front, back, rs. auto.
Defined.

Lemma exception_ends_fallback_witness :
  level child [throwing; good] =
    Some (Ok (Some (failure_response (GatewayError "no route" 502))), ["config.targets[0]"]).
Proof.
  eapply (exception_ends_fallback ids no_regex ctx show half post None 1 throwing [good] "config" inherited None 0);
    vm_compute; reflexivity.
Defined.

Definition chain : list (obj json) :=
  [root "single" [("customHost", JStr "https://a"); ("requestTimeout", JNum (num_of_Z 5))] [];
   root "single" [("customHost", JStr "https://b")] []; good].

Lemma nearest_setting_wins_witness :
  exists p, merge_chain ids chain [] = Ok p /\ no_value (own p.1 "customHost") = Some (JStr "https://b") /\
            no_value (own p.1 "requestTimeout") = Some (JNum (num_of_Z 5)).
Proof.
  destruct (merge_chain ids chain []) as [[t i]|] eqn:E; [|vm_compute in E; discriminate].
  exists (t, i). split; [reflexivity|]. cbn [fst]. split.
  - rewrite (nearest_setting_wins ids "customHost" chain [] t i (or_introl eq_refl) E). vm_compute. reflexivity.
  - rewrite (nearest_setting_wins ids "requestTimeout" chain [] t i (or_intror eq_refl) E). vm_compute. reflexivity.
Defined.

Definition breaker : obj json := root "fallback" [("id", JStr "c")] [opened; failing; good].

Lemma open_targets_are_skipped_witness :
  not_open (with_index (1, failing)) = true.
Proof.
  refine (proj1 (open_targets_are_skipped show breaker [("id", JStr "c")]
    (obj_put breaker "targets" (JArr (map JObj [with_index (1, failing); with_index (2, good)])))
    [opened; failing; good] [with_index (1, failing); with_index (2, good)] 0 _ _ _ _ _ _ _ _));
    try (vm_compute; reflexivity).
  - simpl. lia.
  - apply Exists_cons_tl, Exists_cons_hd. reflexivity.
Defined.
End Samples.
