(* ===== verification/McpText.v ===== *)
(** * Text of MCP messages

    Models the text functions of [src/gateway/src/mcp/policy.ts]: tool names,
    [sanitizeText] with its invisible characters, and the decoding of mirrored
    header values ([atob] and the fatal UTF-8 decoder of the language's library).

    The text of an MCP message is any sequence of UTF-16 units, so a string of this
    component and of the ones built on it stands for its units, each below 2^16 and
    written in one to three bytes ([units], [text_of]); ASCII text is itself. *)

From Stdlib Require Import ZArith Lia ZifyBool ZifyN ZifyNat Ascii.
From stdpp Require Import base strings option list.
From S2P Require Import Prelude JsValue JsText.

#[local] Open Scope string_scope.
#[local] Open Scope list_scope.
#[local] Open Scope N_scope.
#[local] Arguments String.append : simpl nomatch.

(** ** UTF-16 units *)

(** The units a string stands for. *)
Fixpoint units (s : string) : list N :=
  match s with
  | EmptyString => []
  | String a r =>
      if code a <? 192 then code a :: units r
      else match r with
           | EmptyString => []
           | String b r2 =>
               if code a <? 224 then ((code a - 192) * 64 + (code b - 128)) :: units r2
               else match r2 with
                    | EmptyString => []
                    | String c r3 =>
                        ((code a - 224) * 4096 + (code b - 128) * 64 + (code c - 128)) :: units r3
                    end
           end
  end.

Definition unit_text (u : N) (rest : string) : string :=
  if u <? 128 then String (ascii_of_N u) rest
  else if u <? 2048
  then String (ascii_of_N (192 + u / 64)) (String (ascii_of_N (128 + u mod 64)) rest)
  else String (ascii_of_N (224 + u / 4096))
         (String (ascii_of_N (128 + u / 64 mod 64)) (String (ascii_of_N (128 + u mod 64)) rest)).

Fixpoint text_of (l : list N) : string :=
  match l with
  | [] => EmptyString
  | u :: r => unit_text u (text_of r)
  end.

(** White space and line terminators: [\s], and what [trim] removes. *)
Definition is_space_unit (u : N) : bool :=
  (9 <=? u) && (u <=? 13) || (8192 <=? u) && (u <=? 8202) ||
  existsb (N.eqb u) [32; 160; 5760; 8232; 8233; 8239; 8287; 12288; 65279].

Fixpoint take_units (f : N -> bool) (l : list N) : list N :=
  match l with
  | [] => []
  | u :: r => if f u then u :: take_units f r else []
  end.

Fixpoint drop_units (f : N -> bool) (l : list N) : list N :=
  match l with
  | [] => []
  | u :: r => if f u then drop_units f r else l
  end.

(** [s.trim()] *)
Definition trim_text (s : string) : string :=
  text_of (rev (drop_units is_space_unit (rev (drop_units is_space_unit (units s))))).

Definition is_high (u : N) : bool := (55296 <=? u) && (u <=? 56319).
Definition is_low (u : N) : bool := (56320 <=? u) && (u <=? 57343).

(** No half of a surrogate pair stands alone. *)
Fixpoint well_formed (l : list N) : bool :=
  match l with
  | [] => true
  | u :: r =>
      if is_high u then match r with v :: r2 => is_low v && well_formed r2 | [] => false end
      else negb (is_low u) && well_formed r
  end.

(** ** Tool names *)

(** [/^[A-Za-z0-9_.-]{1,128}$/] *)
Definition name_char (c : ascii) : bool :=
  is_upper c || is_lower c || is_digit c || (code c =? 95) || (code c =? 46) || (code c =? 45).

Definition valid_name (s : string) : bool :=
  truthy_string s && (String.length s <=? 128)%nat && sforallb name_char s.

Definition isValidToolName (v : any) : bool :=
  match v with Some (JStr s) => valid_name s | _ => false end.

Definition displayToolName (v : any) : string :=
  match v with
  | Some (JStr s) => if valid_name s then s else "<invalid tool name>"
  | _ => "<invalid tool name>"
  end.

(** ** Invisible characters *)

Definition between (a u b : N) : bool := (a <=? u) && (u <=? b).

(** The character class of [INVISIBLE_RE]. *)
Definition invisible (u : N) : bool :=
  between 0 u 8 || (u =? 11) || (u =? 12) || between 14 u 31 || between 127 u 159 ||
  between 8203 u 8207 || between 8234 u 8238 || between 8288 u 8292 || between 8294 u 8297 ||
  (u =? 65279).

(** Its alternative, a Unicode tag character. *)
Definition tag_pair (u v : N) : bool := (u =? 56128) && between 56320 v 56447.

(** [value.replace(INVISIBLE_RE, '')]: one pass from left to right. *)
Fixpoint strip (l : list N) : list N :=
  match l with
  | [] => []
  | u :: r =>
      if invisible u then strip r
      else match r with
           | v :: r2 => if tag_pair u v then strip r2 else u :: strip r
           | [] => [u]
           end
  end.

Definition ends_high (l : list N) : bool :=
  match last l with Some u => is_high u | None => false end.

(** The text cut at [max] units, without half a pair at its end. *)
Definition cut (l : list N) (max : nat) : list N :=
  let t := firstn max l in if ends_high t then removelast t else t.

Definition ellipsis : N := 8230.

Definition sanitize_units (l : list N) (max : nat) : list N :=
  let text := strip l in
  if (max <? length text)%nat then cut text max ++ [ellipsis] else text.

Definition sanitizeText (value : string) (max : nat) : string :=
  text_of (sanitize_units (units value) max).

(** ** Header values *)

(** [/^[\x20-\x7E\t]*$/] *)
Definition header_char (c : ascii) : bool := between 32 (code c) 126 || (code c =? 9).

Definition base64_value (c : ascii) : option N :=
  if is_upper c then Some (code c - 65)
  else if is_lower c then Some (code c - 71)
  else if is_digit c then Some (code c + 4)
  else if code c =? 43 then Some 62
  else if code c =? 47 then Some 63
  else None.

Fixpoint base64_values (s : string) : option (list N) :=
  match s with
  | EmptyString => Some []
  | String c r =>
      match base64_value c, base64_values r with
      | Some v, Some l => Some (v :: l)
      | _, _ => None
      end
  end.

(** The bytes of groups of four six-bit values; the bits left over are dropped. *)
Fixpoint sextet_bytes (l : list N) : option (list N) :=
  match l with
  | [] => Some []
  | [_] => None
  | [a; b] => Some [a * 4 + b / 16]
  | [a; b; c] => Some [a * 4 + b / 16; b mod 16 * 16 + c / 4]
  | a :: b :: c :: d :: r =>
      (fun bs => a * 4 + b / 16 :: b mod 16 * 16 + c / 4 :: c mod 4 * 64 + d :: bs) <$> sextet_bytes r
  end.

(** [s] without up to [n] equal signs at its end. *)
Fixpoint drop_pad (n : nat) (rev : list ascii) : list ascii :=
  match n, rev with
  | S n, c :: r => if code c =? 61 then drop_pad n r else rev
  | _, _ => rev
  end.

Definition unpadded (n : nat) (s : string) : string :=
  String.string_of_list_ascii (List.rev (drop_pad n (List.rev (String.list_ascii_of_string s)))).

(** [atob] of a text without white space. *)
Definition atob (s : string) : option (list N) :=
  let t := if (String.length s mod 4 =? 0)%nat then unpadded 2 s else s in
  match base64_values t with Some l => sextet_bytes l | None => None end.

Definition continuation (b : N) : bool := between 128 b 191.

(** The units of the code points of UTF-8 bytes, [None] on the first error. *)
Fixpoint utf8_units (l : list N) : option (list N) :=
  match l with
  | [] => Some []
  | a :: r =>
      if a <? 128 then cons a <$> utf8_units r
      else match r with
      | [] => None
      | b :: r2 =>
          if between 194 a 223 then
            if continuation b then cons ((a - 192) * 64 + (b - 128)) <$> utf8_units r2 else None
          else match r2 with
          | [] => None
          | c :: r3 =>
              if between 224 a 239 then
                if between (if a =? 224 then 160 else 128) b (if a =? 237 then 159 else 191) && continuation c
                then cons ((a - 224) * 4096 + (b - 128) * 64 + (c - 128)) <$> utf8_units r3
                else None
              else match r3 with
              | [] => None
              | d :: r4 =>
                  if between 240 a 244 &&
                     between (if a =? 240 then 144 else 128) b (if a =? 244 then 143 else 191) &&
                     continuation c && continuation d
                  then
                    let p := (a - 240) * 262144 + (b - 128) * 4096 + (c - 128) * 64 + (d - 128) - 65536 in
                    (fun us => 55296 + p / 1024 :: 56320 + p mod 1024 :: us) <$> utf8_units r4
                  else None
              end
          end
      end
  end.

(** [new TextDecoder('utf-8', { fatal: true }).decode(bytes)]: a byte order mark
    at the start is dropped. *)
Definition has_bom (bytes : list N) : bool :=
  match bytes with
  | a :: b :: c :: _ => (a =? 239) && (b =? 187) && (c =? 191)
  | _ => false
  end.

Definition decode_utf8 (bytes : list N) : option (list N) :=
  utf8_units (if has_bom bytes then skipn 3 bytes else bytes).

Fixpoint strip_prefix (p s : string) : option string :=
  match p, s with
  | EmptyString, _ => Some s
  | String a p, String b s => if Ascii.eqb a b then strip_prefix p s else None
  | _, EmptyString => None
  end.

Definition strip_suffix (q s : string) : option string :=
  srev <$> strip_prefix (srev q) (srev s).

Definition sentinel_open : string := "=?base64?".
Definition sentinel_close : string := "?=".

(** [[A-Za-z0-9+/]*={0,2}] *)
Definition base64_shape (s : string) : bool :=
  match base64_values (unpadded 2 s) with Some _ => true | None => false end.

(** [SENTINEL_RE.exec(raw)], its first group. *)
Definition sentinel (raw : string) : option string :=
  match strip_prefix sentinel_open raw with
  | Some r =>
      match strip_suffix sentinel_close r with
      | Some x => if base64_shape x then Some x else None
      | None => None
      end
  | None => None
  end.

Definition decodeHeaderValue (raw : string) : option string :=
  if negb (sforallb header_char raw) then None else
  match sentinel raw with
  | None =>
      match strip_prefix sentinel_open raw, strip_suffix sentinel_close raw with
      | Some _, Some _ => None
      | _, _ => Some raw
      end
  | Some x =>
      match atob x with
      | Some bytes => text_of <$> decode_utf8 bytes
      | None => None
      end
  end.

Example decodes :
  map decodeHeaderValue
    ["plain name"; "=?base64?Y2Fmw6k=?="; "=?base64?Y2Fmw6k?="; "=?base64?Y2F?x?="; "=?base64?=";
     "=?base64?gA==?="; "=?base64??="; "=?base64?8J+Ygg==?="; "=?base64?Y2Fmw6k==?="] =
  [Some "plain name"; Some (text_of [99; 97; 102; 233]); Some (text_of [99; 97; 102; 233]); None; None;
   None; Some ""; Some (text_of [55357; 56834]); None].
Proof. vm_compute. reflexivity. Qed.

(** ** Units and text *)

Definition is_unit (u : N) : Prop := u < 65536.

Lemma code_ascii n : n < 256 -> code (ascii_of_N n) = n.
Proof. intros H. unfold code. by apply N_ascii_embedding. Qed.

Lemma units_cons u r : is_unit u -> units (unit_text u r) = u :: units r.
Proof.
  unfold is_unit. intros Hu. unfold unit_text.
  assert (Hm : u mod 64 < 64) by (apply N.mod_lt; lia).
  assert (Hd : u = 64 * (u / 64) + u mod 64) by (apply N.div_mod; lia).
  destruct (u <? 128) eqn:H1.
  { cbn [units]. rewrite code_ascii by lia. by rewrite (proj2 (N.ltb_lt u 192)) by lia. }
  destruct (u <? 2048) eqn:H2; cbn [units].
  - rewrite !code_ascii by lia. rewrite (proj2 (N.ltb_ge _ 192)), (proj2 (N.ltb_lt _ 224)) by lia.
    f_equal. lia.
  - assert (Hm2 : u / 64 mod 64 < 64) by (apply N.mod_lt; lia).
    assert (Hd2 : u / 64 = 64 * (u / 4096) + u / 64 mod 64).
    { replace 4096 with (64 * 64) by lia. rewrite <- N.Div0.div_div. apply N.div_mod. lia. }
    rewrite !code_ascii by lia. rewrite (proj2 (N.ltb_ge _ 192)), (proj2 (N.ltb_ge _ 224)) by lia.
    f_equal. lia.
Qed.

Lemma units_text_of l : Forall is_unit l -> units (text_of l) = l.
Proof. induction 1; simpl; [done|]. rewrite units_cons by done. congruence. Qed.

(** Induction over text whose surrogates are paired. *)
Lemma well_formed_ind (P : list N -> Prop) :
  P [] ->
  (forall u r, is_high u = false -> is_low u = false -> well_formed r = true -> P r -> P (u :: r)) ->
  (forall u v r, is_high u = true -> is_low v = true -> well_formed r = true -> P r -> P (u :: v :: r)) ->
  forall l, well_formed l = true -> P l.
Proof.
  intros H0 H1 H2 l. remember (length l) as n eqn:Hn. revert l Hn.
  induction n as [n IH] using lt_wf_ind. intros [|u r] -> Hw; [done|]. simpl in Hw.
  destruct (is_high u) eqn:Hu.
  - destruct r as [|v r]; [done|]. apply andb_true_iff in Hw as [Hv Hw].
    apply H2; auto. apply (IH (length r)); [simpl; lia|done|done].
  - apply andb_true_iff in Hw as [Hl%negb_true_iff Hw]. apply H1; auto. apply (IH (length r)); [simpl; lia|done|done].
Qed.

(** ** What sanitising leaves *)

(** No tag character: an adjacent pair of its units. *)
Fixpoint tag_free (l : list N) : bool :=
  match l with
  | u :: r => match r with v :: _ => negb (tag_pair u v) | [] => true end && tag_free r
  | [] => true
  end.

Definition visible (l : list N) : bool := forallb (fun u => negb (invisible u)) l && tag_free l.

Ltac unit_bounds :=
  unfold is_unit, is_high, is_low, tag_pair, invisible, between, ellipsis in *; lia.

Lemma high_not_low u : is_high u = true -> is_low u = false.
Proof. unit_bounds. Qed.

Lemma surrogate_visible u : is_high u || is_low u = true -> invisible u = false.
Proof. unit_bounds. Qed.

Lemma tag_pair_surrogates u v : tag_pair u v = true -> is_high u = true /\ is_low v = true.
Proof. unit_bounds. Qed.

Lemma strip_plain u r : is_high u = false -> strip (u :: r) = if invisible u then strip r else u :: strip r.
Proof.
  intros Hu. cbn [strip]. destruct (invisible u); [done|]. destruct r as [|v r]; [done|].
  destruct (tag_pair u v) eqn:Ht; [|done]. apply tag_pair_surrogates in Ht as [Ht _]. congruence.
Qed.

Lemma strip_cons u v r :
  strip (u :: v :: r) =
    if invisible u then strip (v :: r) else if tag_pair u v then strip r else u :: strip (v :: r).
Proof. done. Qed.

Lemma strip_pair u v r :
  is_high u = true -> is_low v = true ->
  strip (u :: v :: r) = if tag_pair u v then strip r else u :: v :: strip r.
Proof.
  intros Hu Hv. rewrite strip_cons, (surrogate_visible u) by (by rewrite Hu).
  destruct (tag_pair u v); [done|]. f_equal. rewrite strip_plain by unit_bounds.
  by rewrite (surrogate_visible v) by (rewrite Hv; apply orb_true_r).
Qed.

Lemma tag_free_plain u r : is_high u = false -> tag_free (u :: r) = tag_free r.
Proof.
  intros Hu. simpl. destruct r as [|v r]; [done|].
  destruct (tag_pair u v) eqn:Ht; [|done]. apply tag_pair_surrogates in Ht as [Ht _]. congruence.
Qed.

Lemma tag_free_pair u v r : is_low v = true -> tag_free (u :: v :: r) = negb (tag_pair u v) && tag_free r.
Proof. intros Hv. rewrite <- (tag_free_plain v r) by unit_bounds. done. Qed.

Lemma well_formed_plain u r : is_high u = false -> is_low u = false -> well_formed (u :: r) = well_formed r.
Proof. intros Hu Hl. simpl. by rewrite Hu, Hl. Qed.

Lemma well_formed_pair u v r :
  is_high u = true -> is_low v = true -> well_formed (u :: v :: r) = well_formed r.
Proof. intros Hu Hv. simpl. by rewrite Hu, Hv. Qed.

Lemma strip_spec l :
  well_formed l = true -> well_formed (strip l) = true /\ visible (strip l) = true /\
    (length (strip l) <= length l)%nat.
Proof.
  revert l. apply (well_formed_ind (fun l => well_formed (strip l) = true /\ visible (strip l) = true /\
    (length (strip l) <= length l)%nat)); [done| |].
  - intros u r Hu Hl _ (Hw & Hv & Hn). rewrite strip_plain by done.
    destruct (invisible u) eqn:Hi; [simpl; auto with lia|].
    rewrite well_formed_plain by done. split; [done|]. split; [|simpl; lia].
    unfold visible in *. rewrite tag_free_plain by done. simpl. by rewrite Hi.
  - intros u v r Hu Hl _ (Hw & Hv & Hn). rewrite strip_pair by done.
    destruct (tag_pair u v) eqn:Ht; [simpl; auto with lia|].
    rewrite well_formed_pair by done. split; [done|]. split; [|simpl; lia].
    unfold visible in *. rewrite tag_free_pair, Ht by done. simpl.
    by rewrite (surrogate_visible u), (surrogate_visible v) by (rewrite ?Hu, ?Hl; apply orb_true_r || done).
Qed.

(** Visible text is left alone. *)
Lemma strip_visible l : well_formed l = true -> visible l = true -> strip l = l.
Proof.
  revert l. apply (well_formed_ind (fun l => visible l = true -> strip l = l)); [done| |].
  - intros u r Hu Hl _ IH. unfold visible in *. rewrite tag_free_plain, strip_plain by done. simpl.
    rewrite !andb_true_iff, negb_true_iff. intros [[-> Ha] Ht]. rewrite IH; [done|].
    by rewrite Ha, Ht.
  - intros u v r Hu Hl _ IH. unfold visible in *. rewrite tag_free_pair, strip_pair by done. simpl.
    rewrite !andb_true_iff, !negb_true_iff. intros [(_ & _ & Ha) [-> Ht]]. rewrite IH; [done|].
    by rewrite Ha, Ht.
Qed.

Lemma cut_plain u r n : is_high u = false -> cut (u :: r) (S n) = u :: cut r n.
Proof.
  intros Hu. unfold cut, ends_high. cbn [firstn]. destruct (firstn n r) as [|w t] eqn:E.
  - simpl. by rewrite Hu.
  - change (last (u :: w :: t)) with (last (w :: t)). destruct (last (w :: t)) as [x|]; [|done].
    by destruct (is_high x).
Qed.

Lemma cut_pair u v r n :
  is_low v = true -> cut (u :: v :: r) (S (S n)) = u :: v :: cut r n.
Proof.
  intros Hv. assert (is_high v = false) by unit_bounds. unfold cut, ends_high. cbn [firstn].
  destruct (firstn n r) as [|w t] eqn:E.
  - simpl. by rewrite H.
  - change (last (u :: v :: w :: t)) with (last (w :: t)). destruct (last (w :: t)) as [x|]; [|done].
    by destruct (is_high x).
Qed.

Lemma cut_half u v r : is_high u = true -> cut (u :: v :: r) 1 = [].
Proof. intros Hu. unfold cut, ends_high. simpl. by rewrite Hu. Qed.

Lemma cut_spec l n :
  well_formed l = true -> visible l = true ->
  well_formed (cut l n ++ [ellipsis]) = true /\ visible (cut l n ++ [ellipsis]) = true /\
    (length (cut l n) <= n)%nat.
Proof.
  intros Hw. revert l Hw n. apply (well_formed_ind (fun l => forall n, visible l = true ->
    well_formed (cut l n ++ [ellipsis]) = true /\ visible (cut l n ++ [ellipsis]) = true /\
    (length (cut l n) <= n)%nat)).
  - intros n _. unfold cut. rewrite firstn_nil. repeat split. simpl. lia.
  - intros u r Hu Hl _ IH [|n] Hv; [by repeat split|]. rewrite cut_plain by done.
    unfold visible in *. rewrite tag_free_plain in Hv by done.
    apply andb_true_iff in Hv as [Hv Ht]. simpl in Hv. apply andb_true_iff in Hv as [Hi Hv].
    destruct (IH n ltac:(by rewrite Hv, Ht)) as (Hw & Hvis & Hn). rewrite <- app_comm_cons.
    rewrite well_formed_plain, tag_free_plain by done. simpl. rewrite Hi.
    split; [exact Hw|]. split; [exact Hvis|lia].
  - intros u v r Hu Hl _ IH [|[|n]] Hv; [by repeat split| |].
    { rewrite cut_half by done. repeat split. simpl. lia. }
    rewrite cut_pair by done.
    unfold visible in *. rewrite tag_free_pair in Hv by done.
    apply andb_true_iff in Hv as [Hv [Hnt Ht]%andb_true_iff]. simpl in Hv.
    apply andb_true_iff in Hv as [Hi Hv]. apply andb_true_iff in Hv as [Hj Hv].
    destruct (IH n ltac:(by rewrite Hv, Ht)) as (Hw & Hvis & Hn). rewrite <- !app_comm_cons.
    rewrite well_formed_pair, tag_free_pair by done. simpl. rewrite Hi, Hj, Hnt.
    split; [exact Hw|]. split; [exact Hvis|lia].
Qed.

(** A cut text and its ellipsis are cut to themselves. *)
Lemma cut_again l n :
  (n < length l)%nat ->
  (if (n <? length (cut l n) + 1)%nat then cut (cut l n ++ [ellipsis]) n ++ [ellipsis]
   else cut l n ++ [ellipsis]) = cut l n ++ [ellipsis].
Proof.
  intros Hn. destruct (Nat.ltb_spec n (length (cut l n) + 1)) as [Hlt|]; [|done]. f_equal.
  assert (Hc : cut l n = firstn n l).
  { revert Hlt. unfold cut. destruct (ends_high _) eqn:He; [|done].
    destruct (firstn n l) as [|x t] eqn:E using rev_ind; [done|]. rewrite removelast_last.
    pose proof (firstn_le_length n l) as Hf. rewrite E, length_app in Hf. simpl in Hf. lia. }
  assert (ends_high (firstn n l) = false) as He.
  { revert Hc. unfold cut. destruct (ends_high _) eqn:He; [|done]. intros Hr.
    destruct (firstn n l) as [|x t] eqn:E using rev_ind; [done|]. rewrite removelast_last in Hr.
    apply (f_equal length) in Hr. rewrite length_app in Hr. simpl in Hr. lia. }
  rewrite Hc. unfold cut. rewrite take_app_length'; [by rewrite He|].
  rewrite length_firstn. lia.
Qed.

(** Sanitised text is safe to show: when the upstream's text is well formed,
    the result holds no control, zero-width, bidirectional or tag character, has
    at most [max] units and the ellipsis, ends in no half of a surrogate pair,
    and is left alone by a second pass. *)
Theorem sanitized_text_is_visible l max :
  well_formed l = true ->
  let t := sanitize_units l max in
  visible t = true /\ well_formed t = true /\ (length t <= max + 1)%nat /\ sanitize_units t max = t.
Proof.
  intros Hl. unfold sanitize_units. destruct (strip_spec l Hl) as (Hw & Hv & _).
  destruct (Nat.ltb_spec max (length (strip l))) as [Hlt|Hge]; cbv zeta.
  - destruct (cut_spec (strip l) max Hw Hv) as (Hw2 & Hv2 & Hn).
    rewrite length_app. simpl. split; [done|]. split; [done|]. split; [lia|].
    rewrite (strip_visible _ Hw2 Hv2), length_app. simpl. by apply cut_again.
  - split; [done|]. split; [done|]. split; [lia|]. rewrite (strip_visible _ Hw Hv).
    by rewrite (proj2 (Nat.ltb_ge _ _)).
Qed.

(** Removing characters in one pass can bring the halves of a tag character
    together: this text, whose surrogates are not paired, holds no tag character,
    and sanitised it spells one, the letter A of an invisible text. *)
Theorem sanitizing_can_make_a_tag :
  let l := [56128; 8203; 56385] in
  tag_free l = true /\ well_formed l = false /\
  sanitize_units l 2048 = [56128; 56385] /\ well_formed (sanitize_units l 2048) = true /\
  visible (sanitize_units l 2048) = false.
Proof. vm_compute. repeat split. Qed.

(** ** Encoded header values *)

Lemma list_of_app a b :
  String.list_ascii_of_string (a +:+ b) = String.list_ascii_of_string a ++ String.list_ascii_of_string b.
Proof. induction a as [|x a IH]; simpl; [done|]. by rewrite IH. Qed.

Lemma string_of_app a b :
  String.string_of_list_ascii (a ++ b) = String.string_of_list_ascii a +:+ String.string_of_list_ascii b.
Proof. induction a as [|x a IH]; simpl; [done|]. by rewrite IH. Qed.

Lemma srev_onto_list s acc :
  srev_onto s acc = String.string_of_list_ascii (List.rev (String.list_ascii_of_string s)) +:+ acc.
Proof.
  revert acc. induction s as [|c s IH]; intros acc; [done|]. simpl. rewrite IH, string_of_app.
  simpl. by rewrite sapp_assoc.
Qed.

Lemma srev_list s : srev s = String.string_of_list_ascii (List.rev (String.list_ascii_of_string s)).
Proof. unfold srev. rewrite srev_onto_list. apply sapp_nil_r. Qed.

Lemma srev_app a b : srev (a +:+ b) = srev b +:+ srev a.
Proof. rewrite !srev_list, list_of_app, List.rev_app_distr. apply string_of_app. Qed.

Lemma srev_srev s : srev (srev s) = s.
Proof.
  rewrite !srev_list, String.list_ascii_of_string_of_list_ascii, List.rev_involutive.
  apply String.string_of_list_ascii_of_string.
Qed.

Lemma strip_prefix_app p s : strip_prefix p (p +:+ s) = Some s.
Proof. induction p as [|c p IH]; simpl; [done|]. by rewrite Ascii.eqb_refl. Qed.

Lemma strip_suffix_app q s : strip_suffix q (s +:+ q) = Some s.
Proof. unfold strip_suffix. rewrite srev_app, strip_prefix_app. simpl. by rewrite srev_srev. Qed.

(** Reference encoders. *)
Definition base64_char (v : N) : ascii :=
  ascii_of_N (if v <? 26 then v + 65 else if v <? 52 then v + 71 else if v <? 62 then v - 4
              else if v =? 62 then 43 else 47).

Fixpoint sextets (l : list N) : list N :=
  match l with
  | [] => []
  | [a] => [a / 4; a mod 4 * 16]
  | [a; b] => [a / 4; a mod 4 * 16 + b / 16; b mod 16 * 4]
  | a :: b :: c :: r =>
      a / 4 :: a mod 4 * 16 + b / 16 :: b mod 16 * 4 + c / 64 :: c mod 64 :: sextets r
  end.

Fixpoint padding (l : list N) : nat :=
  match l with
  | [] => 0
  | [_] => 2
  | [_; _] => 1
  | _ :: _ :: _ :: r => padding r
  end.

Definition base64 (l : list N) : string :=
  String.string_of_list_ascii (map base64_char (sextets l) ++ repeat "="%char (padding l)).

Fixpoint utf8 (l : list N) : list N :=
  match l with
  | [] => []
  | u :: r =>
      if u <? 128 then u :: utf8 r
      else if u <? 2048 then 192 + u / 64 :: 128 + u mod 64 :: utf8 r
      else if is_high u then
        match r with
        | v :: r2 =>
            let p := (u - 55296) * 1024 + (v - 56320) + 65536 in
            240 + p / 262144 :: 128 + p / 4096 mod 64 :: 128 + p / 64 mod 64 :: 128 + p mod 64 :: utf8 r2
        | [] => []
        end
      else 224 + u / 4096 :: 128 + u / 64 mod 64 :: 128 + u mod 64 :: utf8 r
  end.

Definition encodeHeaderValue (l : list N) : string :=
  sentinel_open +:+ base64 (utf8 l) +:+ sentinel_close.

(** Induction three bytes at a time. *)
Lemma triple_ind (P : list N -> Prop) :
  P [] -> (forall a, P [a]) -> (forall a b, P [a; b]) ->
  (forall a b c r, P r -> P (a :: b :: c :: r)) -> forall l, P l.
Proof.
  intros H0 H1 H2 H3. fix IH 1. intros [|a [|b [|c r]]]; [apply H0|apply H1|apply H2|].
  apply H3, IH.
Qed.

Definition is_byte (n : N) : Prop := n < 256.

Lemma sextets_small l : Forall is_byte l -> Forall (fun v => v < 64) (sextets l).
Proof.
  unfold is_byte. induction l as [|a|a b|a b c r IH] using triple_ind; intros H.
  - constructor.
  - inversion H as [|? ? Ha]; subst. repeat constructor; lia.
  - inversion H as [|? ? Ha H']; subst. inversion H' as [|? ? Hb]; subst. repeat constructor; lia.
  - inversion H as [|? ? Ha H']; subst. inversion H' as [|? ? Hb H'']; subst.
    inversion H'' as [|? ? Hc Hr]; subst. repeat (constructor; [lia|]). auto.
Qed.

Lemma sextet_round_trip l : Forall is_byte l -> sextet_bytes (sextets l) = Some l.
Proof.
  unfold is_byte. induction l as [|a|a b|a b c r IH] using triple_ind; intros H.
  - done.
  - inversion H as [|? ? Ha]; subst. simpl. do 2 f_equal. lia.
  - inversion H as [|? ? Ha H']; subst. inversion H' as [|? ? Hb]; subst. simpl.
    f_equal. f_equal; [lia|f_equal; lia].
  - inversion H as [|? ? Ha H']; subst. inversion H' as [|? ? Hb H'']; subst.
    inversion H'' as [|? ? Hc Hr]; subst. cbn [sextets sextet_bytes]. rewrite IH by done. simpl.
    f_equal. f_equal; [lia|f_equal; [lia|f_equal; lia]].
Qed.

Lemma base64_length l : exists k, (length (sextets l) + padding l = 4 * k)%nat.
Proof.
  induction l as [|a|a b|a b c r [k IH]] using triple_ind;
    [by exists 0%nat|by exists 1%nat|by exists 1%nat|exists (S k); simpl; lia].
Qed.

Lemma base64_char_spec v :
  v < 64 -> base64_value (base64_char v) = Some v /\ (code (base64_char v) =? 61) = false /\
    header_char (base64_char v) = true.
Proof.
  intros Hv.
  assert (H : forallb (fun n => match base64_value (base64_char (N.of_nat n)) with
      | Some w => (w =? N.of_nat n) && negb (code (base64_char (N.of_nat n)) =? 61) &&
                  header_char (base64_char (N.of_nat n))
      | None => false end) (seq 0 64) = true) by (vm_compute; reflexivity).
  rewrite forallb_forall in H. specialize (H (N.to_nat v)). rewrite N2Nat.id in H.
  specialize (H ltac:(apply in_seq; lia)). destruct (base64_value _) as [w|]; [|done].
  apply andb_true_iff in H as [[Hw He]%andb_true_iff Hh]. apply N.eqb_eq in Hw as ->.
  apply negb_true_iff in He. done.
Qed.

Lemma base64_values_round_trip l :
  Forall (fun v => v < 64) l ->
  base64_values (String.string_of_list_ascii (map base64_char l)) = Some l.
Proof.
  induction 1 as [|v l Hv _ IH]; simpl; [done|].
  destruct (base64_char_spec v Hv) as (-> & _). by rewrite IH.
Qed.

Lemma unpadded_round_trip l n :
  Forall (fun v => v < 64) l -> (n <= 2)%nat ->
  unpadded 2 (String.string_of_list_ascii (map base64_char l ++ repeat "="%char n)) =
    String.string_of_list_ascii (map base64_char l).
Proof.
  intros Hl Hn. unfold unpadded. rewrite String.list_ascii_of_string_of_list_ascii, List.rev_app_distr.
  f_equal. rewrite <- (List.rev_involutive (map base64_char l)) at 2. f_equal.
  assert (Hd : forall k, drop_pad k (List.rev (map base64_char l)) = List.rev (map base64_char l)).
  { intros [|k]; [done|]. destruct (List.rev _) as [|c r] eqn:E; [done|]. simpl.
    assert (In c (map base64_char l)) as Hc by (apply in_rev; rewrite E; by left).
    apply in_map_iff in Hc as (v & <- & Hv%list_elem_of_In). rewrite Forall_forall in Hl.
    by destruct (base64_char_spec v (Hl v Hv)) as (_ & -> & _). }
  destruct n as [|[|[|n]]]; [exact (Hd 2%nat)|exact (Hd 1%nat)|exact (Hd 0%nat)|lia].
Qed.

(** The cases of UTF-8, each on its own. *)
Lemma utf8_two u r :
  128 <= u -> u < 2048 -> utf8_units (192 + u / 64 :: 128 + u mod 64 :: r) = cons u <$> utf8_units r.
Proof.
  intros H1 H2. cbn [utf8_units]. rewrite (proj2 (N.ltb_ge _ 128)) by lia.
  replace (between 194 (192 + u / 64) 223) with true by (unfold between; lia).
  replace (continuation (128 + u mod 64)) with true by (unfold continuation, between; lia).
  replace ((192 + u / 64 - 192) * 64 + (128 + u mod 64 - 128)) with u by lia. done.
Qed.

Lemma utf8_three u r :
  2048 <= u -> u < 65536 -> is_high u = false -> is_low u = false ->
  utf8_units (224 + u / 4096 :: 128 + u / 64 mod 64 :: 128 + u mod 64 :: r) = cons u <$> utf8_units r.
Proof.
  intros H1 H2 Hh Hl. set (a := u / 4096). set (b := u / 64 mod 64). set (c := u mod 64).
  assert (Hu : u = a * 4096 + b * 64 + c /\ a < 16 /\ b < 64 /\ c < 64) by (subst a b c; lia).
  clearbody a b c. cbn [utf8_units].
  rewrite (proj2 (N.ltb_ge _ 128)) by lia.
  replace (between 194 (224 + a) 223) with false by (unfold between; lia).
  replace (between 224 (224 + a) 239) with true by (unfold between; lia).
  replace (continuation (128 + c)) with true by (unfold continuation, between; lia).
  replace (between (if 224 + a =? 224 then 160 else 128) (128 + b) (if 224 + a =? 237 then 159 else 191))
    with true.
  - simpl. by replace ((224 + a - 224) * 4096 + (128 + b - 128) * 64 + (128 + c - 128)) with u by lia.
  - symmetry. unfold between, is_high, is_low in *.
    destruct (N.eqb_spec (224 + a) 224), (N.eqb_spec (224 + a) 237); lia.
Qed.

Lemma utf8_pair u v r :
  is_high u = true -> is_low v = true ->
  let p := (u - 55296) * 1024 + (v - 56320) + 65536 in
  utf8_units (240 + p / 262144 :: 128 + p / 4096 mod 64 :: 128 + p / 64 mod 64 :: 128 + p mod 64 :: r) =
    (fun us => u :: v :: us) <$> utf8_units r.
Proof.
  intros Hu Hv. cbv zeta. set (p := (u - 55296) * 1024 + (v - 56320) + 65536).
  assert (Hp : u = 55296 + (p - 65536) / 1024 /\ v = 56320 + (p - 65536) mod 1024 /\
    65536 <= p < 1114112) by (unfold is_high, is_low in *; subst p; lia).
  clearbody p. destruct Hp as (Hu' & Hv' & Hp).
  set (a := p / 262144). set (b := p / 4096 mod 64). set (c := p / 64 mod 64). set (d := p mod 64).
  assert (Hd : p = a * 262144 + b * 4096 + c * 64 + d /\ a < 5 /\ b < 64 /\ c < 64 /\ d < 64)
    by (subst a b c d; lia).
  clearbody a b c d. cbn [utf8_units].
  rewrite (proj2 (N.ltb_ge _ 128)) by lia.
  replace (between 194 (240 + a) 223) with false by (unfold between; lia).
  replace (between 224 (240 + a) 239) with false by (unfold between; lia).
  replace (between 240 (240 + a) 244) with true by (unfold between; lia).
  replace (continuation (128 + c)) with true by (unfold continuation, between; lia).
  replace (continuation (128 + d)) with true by (unfold continuation, between; lia).
  replace (between (if 240 + a =? 240 then 144 else 128) (128 + b) (if 240 + a =? 244 then 143 else 191))
    with true.
  - simpl. replace ((240 + a - 240) * 262144 + (128 + b - 128) * 4096 + (128 + c - 128) * 64 + (128 + d - 128))
      with p by lia. rewrite Hu', Hv'. done.
  - symmetry. unfold between. destruct (N.eqb_spec (240 + a) 240), (N.eqb_spec (240 + a) 244); lia.
Qed.

Lemma utf8_round_trip l :
  well_formed l = true -> Forall is_unit l -> utf8_units (utf8 l) = Some l /\ Forall is_byte (utf8 l).
Proof.
  intros Hw. revert l Hw. apply (well_formed_ind (fun l => Forall is_unit l ->
    utf8_units (utf8 l) = Some l /\ Forall is_byte (utf8 l))).
  - by repeat constructor.
  - intros u r Hu Hl _ IH H. inversion H as [|? ? Hu' Hr]; subst. destruct (IH Hr) as [IH1 IH2].
    unfold is_unit in Hu'. cbn [utf8]. rewrite Hu.
    destruct (N.ltb_spec u 128); [|destruct (N.ltb_spec u 2048)].
    + split; [|constructor; [unfold is_byte; lia|done]]. cbn [utf8_units].
      by rewrite (proj2 (N.ltb_lt u 128)), IH1.
    + split; [by rewrite utf8_two, IH1|]. repeat (constructor; [unfold is_byte; lia|]). done.
    + split; [by rewrite utf8_three, IH1|]. repeat (constructor; [unfold is_byte; lia|]). done.
  - intros u v r Hu Hv _ IH H. inversion H as [|? ? _ H']; subst. inversion H' as [|? ? _ Hr]; subst.
    destruct (IH Hr) as [IH1 IH2]. cbn [utf8]. rewrite Hu.
    rewrite (proj2 (N.ltb_ge u 128)), (proj2 (N.ltb_ge u 2048)) by (unfold is_high in Hu; lia).
    split; [by rewrite utf8_pair, IH1|]. unfold is_high, is_low in *.
    repeat (constructor; [unfold is_byte; lia|]). done.
Qed.

Lemma forallb_header s t : sforallb header_char (s +:+ t) = sforallb header_char s && sforallb header_char t.
Proof. induction s as [|c s IH]; simpl; [done|]. by rewrite IH, andb_assoc. Qed.

Lemma base64_header l : Forall (fun v => v < 64) l -> forall n,
  sforallb header_char (String.string_of_list_ascii (map base64_char l ++ repeat "="%char n)) = true.
Proof.
  induction 1 as [|v l Hv _ IH]; intros n; simpl.
  - by induction n.
  - destruct (base64_char_spec v Hv) as (_ & _ & ->). apply IH.
Qed.

Lemma padding_small l : (padding l <= 2)%nat.
Proof. induction l using triple_ind; simpl; lia. Qed.

Lemma length_string_of l : String.length (String.string_of_list_ascii l) = length l.
Proof. induction l; simpl; auto. Qed.

(** Mirrored header values survive their encoding: the sentinel form of
    any well-formed text, its UTF-8 bytes in base64, decodes to that text, the
    byte order mark at its start excepted, which the decoder drops. *)
Theorem sentinel_round_trip l :
  well_formed l = true -> Forall is_unit l -> head l <> Some 65279 ->
  decodeHeaderValue (encodeHeaderValue l) = Some (text_of l).
Proof.
  intros Hw Hu Hbom. destruct (utf8_round_trip l Hw Hu) as [Hut Hb].
  pose proof (sextets_small _ Hb) as Hs. pose proof (padding_small (utf8 l)) as Hp.
  assert (Hx : unpadded 2 (base64 (utf8 l)) = String.string_of_list_ascii (map base64_char (sextets (utf8 l))))
    by (by apply unpadded_round_trip).
  assert (Hsent : sentinel (encodeHeaderValue l) = Some (base64 (utf8 l))).
  { unfold sentinel, encodeHeaderValue. rewrite strip_prefix_app, strip_suffix_app.
    unfold base64_shape. by rewrite Hx, base64_values_round_trip. }
  unfold decodeHeaderValue. rewrite Hsent.
  replace (sforallb header_char (encodeHeaderValue l)) with true.
  2:{ unfold encodeHeaderValue. rewrite !forallb_header. unfold base64. by rewrite base64_header. }
  cbn [negb]. unfold atob.
  assert (String.length (base64 (utf8 l)) mod 4 = 0)%nat as ->.
  { unfold base64. rewrite length_string_of, length_app, length_map, repeat_length.
    destruct (base64_length (utf8 l)) as [k ->]. lia. }
  cbn [Nat.eqb]. rewrite Hx, base64_values_round_trip, sextet_round_trip by done.
  unfold decode_utf8. destruct (has_bom (utf8 l)) eqn:Hbm; [|by rewrite Hut].
  exfalso. apply Hbom. destruct (utf8 l) as [|a [|b [|c r]]]; try done. simpl in Hbm.
  apply andb_true_iff in Hbm as [[Ha%N.eqb_eq Hb'%N.eqb_eq]%andb_true_iff Hc%N.eqb_eq]. subst a b c.
  change (cons 65279 <$> utf8_units r = Some l) in Hut.
  destruct (utf8_units r) as [us|]; [|done]. by injection Hut as <-.
Qed.

(** ** Names *)

Lemma valid_name_chars s :
  valid_name s = true <-> s <> "" /\ (String.length s <= 128)%nat /\ sforallb name_char s = true.
Proof.
  unfold valid_name, truthy_string. rewrite !andb_true_iff, negb_true_iff, String.eqb_neq, Nat.leb_le. tauto.
Qed.

(** What is shown of a name is always a valid name or the placeholder. *)
Lemma displayed_name v : valid_name (displayToolName v) = true \/ displayToolName v = "<invalid tool name>".
Proof.
  unfold displayToolName. destruct v as [[]|]; try by right. destruct (valid_name s) eqn:E; [left; exact E|by right].
Qed.

Lemma sanitized_text_is_visible_witness :
  visible (sanitize_units [72; 8203; 105; 55357; 56834; 7; 33] 3) = true.
Proof. apply (sanitized_text_is_visible [72; 8203; 105; 55357; 56834; 7; 33] 3). vm_compute. reflexivity. Defined.

Lemma sentinel_round_trip_witness :
  decodeHeaderValue (encodeHeaderValue [99; 97; 233; 55357; 56834]) = Some (text_of [99; 97; 233; 55357; 56834]).
Proof.
  apply sentinel_round_trip; [vm_compute; reflexivity| |discriminate].
  unfold is_unit. repeat (constructor; [lia|]). constructor.
Defined.
