(* ===== verification/McpPolicy.v ===== *)
(** * Tool policy of the MCP proxy

    Models [src/gateway/src/mcp/policy.ts] and [src/gateway/src/mcp/groupPolicy.ts]:
    the allow and deny lists, the definition pins, the filter of a [tools/list]
    result, the decision on a [tools/call], the [x-mcp-header] annotations of a
    tool's schema, the checks of the mirrored and parameter headers, and the
    tool rules of an OIDC group.

    Strings are read as in [McpText].  The maps kept per process ([drifted],
    [paramHeaders]) are a state passed along; [filterToolsList] awaits the digest of
    a pinned tool, and its loop body is a step of its own ([filter_tool]), so the
    invariants, which every step keeps, hold for interleaved listings too.
    SHA-256 and the text of a number are parameters. *)

From Stdlib Require Import ZArith Lia ZifyBool ZifyNat Ascii Floats.SpecFloat Sorting.Sorted.
From stdpp Require Import base strings option list gmap sets.
From S2P Require Import Prelude JsValue BudgetKeys JsText ConditionalRouter GroupPolicy McpText.

#[local] Open Scope string_scope.
#[local] Open Scope list_scope.
#[local] Arguments num_of_Z : simpl never.

(** ** Configuration of a server *)

Inductive ToolMode := allow_mode | deny_mode.
Inductive DescriptionChangeAction := block | flag.

Record ToolLists := mkLists { tl_mode : ToolMode; tl_names : gset string; tl_denyLower : gset string }.

Record McpServerConfig := mkServer {
  ms_id : string;
  ms_url : string;
  ms_authHeader : option (string * string);
  ms_tools : ToolLists;
  ms_pinnedTools : gmap string string;
  ms_onDescriptionChange : DescriptionChangeAction;
  ms_inputGuardrails : list json;
  ms_outputGuardrails : list json;
  ms_timeoutMs : Z;
  ms_maxRequestBytes : Z;
  ms_maxResponseBytes : Z;
  ms_maxDescriptionLength : Z;
  ms_owner : option string
}.

Definition toolAllowedByList (server : McpServerConfig) (name : string) : bool :=
  match tl_mode (ms_tools server) with
  | allow_mode => bool_decide (name ∈ tl_names (ms_tools server))
  | deny_mode => negb (bool_decide (toLowerCase name ∈ tl_denyLower (ms_tools server)))
  end.

Definition blocks (server : McpServerConfig) : bool :=
  match ms_onDescriptionChange server with block => true | flag => false end.

(** ** Canonical JSON and the hash of a definition *)

Section Hash.
Variable number_text : num -> string.
Variable sha256_hex : string -> string.

(** [keys.sort()]: by code units, which the encoding of text keeps in order. *)
Fixpoint insert_member {A} (p : string * A) (l : list (string * A)) : list (string * A) :=
  match l with
  | [] => [p]
  | q :: r => if String.leb p.1 q.1 then p :: l else q :: insert_member p r
  end.

Fixpoint sort_members {A} (l : list (string * A)) : list (string * A) :=
  match l with
  | [] => []
  | p :: r => insert_member p (sort_members r)
  end.

Fixpoint join_comma (l : list string) : string :=
  match l with
  | [] => ""
  | [x] => x
  | x :: r => x +:+ "," +:+ join_comma r
  end.

(** [JSON.stringify] of a string: a half of a surrogate pair that stands alone is
    escaped, everything else as in [json_quote]. *)
Definition hex4 (u : N) : string :=
  String (hex_digit (u / 4096)) (String (hex_digit (u / 256 mod 16))
    (String (hex_digit (u / 16 mod 16)) (String (hex_digit (u mod 16)) EmptyString))).

Fixpoint quoted_units (l : list N) : string :=
  match l with
  | [] => EmptyString
  | u :: r =>
      if (u <? 128)%N then json_char (ascii_of_N u) +:+ quoted_units r
      else match r with
           | v :: r2 =>
               if is_high u && is_low v then unit_text u (unit_text v (quoted_units r2))
               else if is_high u || is_low u then "\u" +:+ hex4 u +:+ quoted_units r
               else unit_text u (quoted_units r)
           | [] => if is_high u || is_low u then "\u" +:+ hex4 u else unit_text u ""
           end
  end.

Definition quote_text (s : string) : string := dquote +:+ quoted_units (units s) +:+ dquote.

Fixpoint canonicalJson (value : json) : string :=
  match value with
  | JNull => "null"
  | JBool b => if b then "true" else "false"
  | JNum n => number_text n
  | JStr s => quote_text s
  | JArr l => "[" +:+ join_comma (map canonicalJson l) +:+ "]"
  | JObj o =>
      "{" +:+ join_comma (map (fun p => quote_text p.1 +:+ ":" +:+ p.2)
                (sort_members (map (fun p => (p.1, canonicalJson p.2)) o))) +:+ "}"
  end.

Definition toolDefinitionHash (tool : json) : string :=
  sha256_hex (canonicalJson (JObj (match tool with JObj o => map_delete o "_meta" | _ => [] end))).
End Hash.

(** ** Annotations of a schema *)

Record ParamHeader := mkParam { ph_name : string; ph_path : list string }.

(** [/^[A-Za-z0-9!#$%&'*+.^_`|~-]{1,64}$/] *)
Definition token_char (c : ascii) : bool :=
  is_upper c || is_lower c || is_digit c ||
  existsb (N.eqb (code c)) [33; 35; 36; 37; 38; 39; 42; 43; 45; 46; 94; 95; 96; 124; 126]%N.

Definition is_token (s : string) : bool :=
  truthy_string s && (String.length s <=? 64)%nat && sforallb token_char s.

Definition HEADER_TYPES : list string := ["string"; "integer"; "boolean"].
Definition DATA_KEYWORDS : list string := ["const"; "default"; "enum"; "examples"; "example"].
Definition MAX_PARAM_HEADERS : nat := 64.

Definition header_type (t : any) : bool :=
  match t with Some (JStr s) => mem_string s HEADER_TYPES | _ => false end.

(** The annotation of a node, added to the ones found; the names seen are the
    names found.  [None] once an annotation is invalid. *)
Definition annotate (o : obj json) (path : list string) (reachable : bool) (found : list ParamHeader)
    : option (list ParamHeader) :=
  match own o "x-mcp-header" with
  | None => Some found
  | Some name =>
      match name with
      | JStr s =>
          if negb reachable || match path with [] => true | _ => false end || negb (is_token s) ||
             mem_string (toLowerCase s) (map ph_name found) || negb (header_type (own o "type")) ||
             (MAX_PARAM_HEADERS <=? length found)%nat
          then None else Some (found ++ [mkParam (toLowerCase s) path])
      | _ => None
      end
  end.

Definition skipped_key (k : string) : bool := (k =? "x-mcp-header")%string || mem_string k DATA_KEYWORDS.

Fixpoint visit (node : json) (path : list string) (reachable : bool) (depth : nat)
    (st : option (list ParamHeader)) : option (list ParamHeader) :=
  match st with
  | None => None
  | Some found =>
      if (64 <? depth)%nat then None else
      match node with
      | JArr l => List.fold_left (fun st x => visit x path false (S depth) st) l st
      | JObj o =>
          List.fold_left (fun st p =>
              if skipped_key p.1 then st
              else if (p.1 =? "properties")%string then
                match p.2 with
                | JObj props =>
                    List.fold_left (fun st q => visit q.2 (path ++ [q.1]) reachable (S depth) st) props st
                | _ => visit p.2 path false (S depth) st
                end
              else visit p.2 path false (S depth) st)
            o (annotate o path reachable found)
      | _ => st
      end
  end.

(** [None] is the result ['invalid']. *)
Definition paramHeadersOf (schema : any) : option (list ParamHeader) :=
  match schema with Some v => visit v [] true 0 (Some []) | None => Some [] end.

(** ** The state of the process *)

(** [headers]: the annotations of a tool, [None] when they are invalid. *)
Record PolicyState := mkPolicy {
  drifted : gmap string (gset string);
  paramHeaders : gmap string (gmap string (option (list ParamHeader)))
}.

Definition drift_of (st : PolicyState) (server : string) : gset string := default ∅ (drifted st !! server).
Definition headers_of (st : PolicyState) (server : string) : gmap string (option (list ParamHeader)) :=
  default ∅ (paramHeaders st !! server).

Definition set_drift (server : string) (d : gset string) (st : PolicyState) : PolicyState :=
  mkPolicy (<[server := d]> (drifted st)) (paramHeaders st).
Definition set_headers (server : string) (h : gmap string (option (list ParamHeader))) (st : PolicyState)
    : PolicyState := mkPolicy (drifted st) (<[server := h]> (paramHeaders st)).

(** ** Calls *)

Inductive DenyReason := invalid_name | policy | pin | invalid_header | duplicate | group.

(** [None] is [{ allowed: true }]. *)
Definition ToolDecision : Type := option DenyReason.

Definition toolCallDecision (st : PolicyState) (server : McpServerConfig) (name : any) : ToolDecision :=
  match name with
  | Some (JStr n) =>
      if negb (valid_name n) then Some invalid_name
      else if negb (toolAllowedByList server n) then Some policy
      else if blocks server && bool_decide (n ∈ drift_of st (ms_id server)) then Some pin
      else match headers_of st (ms_id server) !! n with
           | Some None => Some invalid_header
           | _ => None
           end
  | _ => Some invalid_name
  end.

(** ** Listings *)

Record Removed := mkRemoved { rm_name : string; rm_reason : DenyReason; rm_hash : option string }.

Record FilteredList := mkFiltered {
  fl_result : json;
  fl_removed : list Removed;
  fl_flagged : list (string * string)
}.

Definition MAX_TITLE_LENGTH : nat := 256.

Fixpoint sanitizeSchema (value : json) (max : nat) (depth : nat) : json :=
  if (64 <? depth)%nat then value else
  match value with
  | JArr l => JArr (map (fun v => sanitizeSchema v max (S depth)) l)
  | JObj o =>
      JObj (map (fun p =>
        (p.1, if (p.1 =? "description")%string || (p.1 =? "title")%string
              then match p.2 with
                   | JStr s => JStr (sanitizeText s max)
                   | _ => sanitizeSchema p.2 max (S depth)
                   end
              else sanitizeSchema p.2 max (S depth))) o)
  | _ => value
  end.

(** A string property sanitised, anything else under its name removed. *)
Definition clean_text (k : string) (max : nat) (o : obj json) : obj json :=
  match own o k with
  | Some (JStr s) => obj_put o k (JStr (sanitizeText s max))
  | _ => map_delete o k
  end.

Definition clean_schema (k : string) (max : nat) (o : obj json) : obj json :=
  match own o k with Some v => obj_put o k (sanitizeSchema v max 0) | None => o end.

Definition clean_tool (server : McpServerConfig) (o : obj json) : obj json :=
  let max := Z.to_nat (ms_maxDescriptionLength server) in
  clean_schema "outputSchema" max (clean_schema "inputSchema" max
    (clean_text "title" MAX_TITLE_LENGTH (clean_text "description" max o))).

Section Filter.
Variable number_text : num -> string.
Variable sha256_hex : string -> string.
Variable server : McpServerConfig.
Variable groupAllows : string -> bool.

(** The locals of the loop over the tools. *)
Record Listing := mkListing {
  seen : gset string;
  kept : list json;
  removed : list Removed;
  flagged : list (string * string)
}.

Definition remove (r : Removed) (l : Listing) : Listing :=
  mkListing (seen l) (kept l) (removed l ++ [r]) (flagged l).
Definition keep (t : json) (l : Listing) : Listing :=
  mkListing (seen l) (kept l ++ [t]) (removed l) (flagged l).
Definition see (n : string) (l : Listing) : Listing :=
  mkListing ({[n]} ∪ seen l) (kept l) (removed l) (flagged l).
Definition add_flag (n h : string) (l : Listing) : Listing :=
  mkListing (seen l) (kept l) (removed l) (flagged l ++ [(n, h)]).

(** The check of the pin: the drift it records, and whether the tool is removed. *)
Definition check_pin (n : string) (tool : json) (st : PolicyState) (l : Listing)
    : PolicyState * Listing * bool :=
  match ms_pinnedTools server !! n with
  | Some p =>
      if truthy_string p then
        let hash := toolDefinitionHash number_text sha256_hex tool in
        let drift := drift_of st (ms_id server) in
        if (hash =? p)%string then (set_drift (ms_id server) (drift ∖ {[n]}) st, l, false)
        else
          let st := set_drift (ms_id server) ({[n]} ∪ drift) st in
          if blocks server then (st, remove (mkRemoved n pin (Some hash)) l, true)
          else (st, add_flag n hash l, false)
      else (st, l, false)
  | None => (st, l, false)
  end.

(** The rest of a tool's checks, once its name is new and allowed. *)
Definition check_definition (n : string) (o : obj json) (st : PolicyState) (l : Listing)
    : PolicyState * Listing :=
  let '(st, l, dropped) := check_pin n (JObj o) st l in
  if dropped then (st, l) else
  let headers := headers_of st (ms_id server) in
  match paramHeadersOf (own o "inputSchema") with
  | None =>
      (set_headers (ms_id server) (<[n := None]> headers) st, remove (mkRemoved n invalid_header None) l)
  | Some annotations =>
      let st := set_headers (ms_id server)
                  (match annotations with [] => delete n headers | _ => <[n := Some annotations]> headers end) st in
      if groupAllows n then (st, keep (JObj (clean_tool server o)) l)
      else (st, remove (mkRemoved n group None) l)
  end.

(** One tool of the list. *)
Definition filter_tool (tool : json) (p : PolicyState * Listing) : PolicyState * Listing :=
  let '(st, l) := p in
  match tool with
  | JObj o =>
      match own o "name" with
      | Some (JStr n) =>
          if negb (valid_name n) then (st, remove (mkRemoved (displayToolName (own o "name")) invalid_name None) l)
          else if bool_decide (n ∈ seen l) then (st, remove (mkRemoved n duplicate None) l)
          else
            let l := see n l in
            if negb (toolAllowedByList server n) then (st, remove (mkRemoved n policy None) l)
            else check_definition n o st l
      | v => (st, remove (mkRemoved (displayToolName v) invalid_name None) l)
      end
  | _ => (st, remove (mkRemoved (displayToolName None) invalid_name None) l)
  end.

Definition filter_tools (tools : list json) (p : PolicyState * Listing) : PolicyState * Listing :=
  foldl (fun p tool => filter_tool tool p) p tools.

Definition filterToolsList (result : any) (st : PolicyState) : FilteredList * PolicyState :=
  match result with
  | Some (JObj o) =>
      match own o "tools" with
      | Some (JArr tools) =>
          let st := set_drift (ms_id server) (drift_of st (ms_id server)) st in
          let st := set_headers (ms_id server) (headers_of st (ms_id server)) st in
          let '(st, l) := filter_tools tools (st, mkListing ∅ [] [] []) in
          (mkFiltered (JObj (obj_put o "tools" (JArr (kept l)))) (removed l) (flagged l), st)
      | _ => (mkFiltered (JObj (obj_put o "tools" (JArr []))) [] [], st)
      end
  | Some (JArr l) => (mkFiltered (JObj (obj_put (indexed l) "tools" (JArr []))) [] [], st)
  | _ => (mkFiltered (JObj [("tools", JArr [])]) [] [], st)
  end.
End Filter.

(** ** Parameter headers *)

(** What follows the digits of [s], when there is one at least. *)
Definition digits_rest (s : string) : option string :=
  if truthy_string (take_while is_digit s) then Some (drop_while is_digit s) else None.

Definition drop_sign (s : string) : string :=
  match s with
  | String c r => if (code c =? 43)%N || (code c =? 45)%N then r else s
  | EmptyString => s
  end.

(** [/^[+-]?\d+(\.\d+)?([eE][+-]?\d+)?$/] *)
Definition integer_text (s : string) : bool :=
  match digits_rest (drop_sign s) with
  | None => false
  | Some r =>
      match (match r with
             | String c t => if (code c =? 46)%N then digits_rest t else Some r
             | EmptyString => Some r end) with
      | None => false
      | Some EmptyString => true
      | Some (String c t) =>
          ((code c =? 101)%N || (code c =? 69)%N) &&
          match digits_rest (drop_sign t) with Some EmptyString => true | _ => false end
      end
  end.

Definition headerMatchesValue (header : string) (value : any) : bool :=
  match value with
  | Some (JStr s) => (header =? s)%string
  | Some (JBool b) => (header =? if b then "true" else "false")%string
  | Some (JNum n) => is_integer_num n && integer_text header && neqb (to_number header) n
  | _ => false
  end.

Fixpoint valueAt (value : any) (path : list string) : any :=
  match path with
  | [] => value
  | k :: r =>
      match value with
      | Some (JObj o) => match own o k with Some v => valueAt (Some v) r | None => None end
      | _ => None
      end
  end.

Definition HEADERS_REQUIRED_FROM : string := "2026-07-28".

(** [version !== null && version >= HEADERS_REQUIRED_FROM] *)
Definition headers_required (version : option string) : bool :=
  match version with Some v => String.leb HEADERS_REQUIRED_FROM v | None => false end.

(** One declared parameter: what is wrong with its header, if anything is. *)
Definition param_mismatch (required : bool) (headers : obj string) (message : json) (p : ParamHeader)
    : option string :=
  let label := "Mcp-Param-" +:+ ph_name p in
  let raw := own headers ("mcp-param-" +:+ ph_name p) in
  let value := valueAt (prop (prop (Some message) "params") "arguments") (ph_path p) in
  if is_null_or_undef value then
    match raw with Some _ => Some (label +:+ " header has no value in the body") | None => None end
  else match raw with
  | None => if required then Some (label +:+ " header is missing") else None
  | Some raw =>
      match decodeHeaderValue raw with
      | None => Some (label +:+ " header is malformed")
      | Some decoded =>
          if headerMatchesValue decoded value then None
          else Some (label +:+ " header does not match the body")
      end
  end.

Fixpoint first_some {A B} (f : A -> option B) (l : list A) : option B :=
  match l with
  | [] => None
  | x :: r => match f x with Some y => Some y | None => first_some f r end
  end.

(** The annotations in force for the tool a message names. *)
Definition declared_of (st : PolicyState) (server : McpServerConfig) (n : string) : list ParamHeader :=
  match headers_of st (ms_id server) !! n with Some (Some l) => l | _ => [] end.

Definition declared (st : PolicyState) (server : McpServerConfig) (message : json) : list ParamHeader :=
  match prop (prop (Some message) "params") "name" with
  | Some (JStr n) => declared_of st server n
  | _ => []
  end.

Definition paramHeaderMismatch (st : PolicyState) (server : McpServerConfig) (headers : obj string)
    (message : json) : option string :=
  first_some (param_mismatch (headers_required (own headers "mcp-protocol-version")) headers message)
    (declared st server message).

(** ** Mirrored headers *)

(** [/^\d{4}-\d{2}-\d{2}$/] *)
Definition protocol_version (s : string) : bool :=
  match String.list_ascii_of_string s with
  | [a; b; c; d; m; e; f; n; g; h] =>
      forallb is_digit [a; b; c; d; e; f; g; h] && (code m =? 45)%N && (code n =? 45)%N
  | _ => false
  end.

(** What a lookup in [NAMED_METHODS] finds under the name of a property of
    [Object.prototype], as a property key. *)
Definition inherited_key (m : string) : option string :=
  if (m =? "__proto__")%string then Some "[object Object]"
  else if (m =? "constructor")%string then Some "function Object() { [native code] }"
  else if mem_string m ["toString"; "toLocaleString"; "valueOf"; "hasOwnProperty"; "isPrototypeOf";
                        "propertyIsEnumerable"; "__defineGetter__"; "__defineSetter__";
                        "__lookupGetter__"; "__lookupSetter__"]
  then Some ("function " +:+ m +:+ "() { [native code] }")
  else None.

Definition named_field (method : any) : option string :=
  match method with
  | Some (JStr m) =>
      if (m =? "tools/call")%string || (m =? "prompts/get")%string then Some "name"
      else if (m =? "resources/read")%string then Some "uri"
      else inherited_key m
  | _ => None
  end.

Definition is_text (v : any) (s : string) : bool :=
  match v with Some (JStr t) => (t =? s)%string | _ => false end.

Definition name_mismatch (required : bool) (headers : obj string) (message : json) : option string :=
  match named_field (prop (Some message) "method"), own headers "mcp-name" with
  | None, Some _ => Some "Mcp-Name header is not expected for this method"
  | None, None => None
  | Some _, None => if required then Some "Mcp-Name header is missing" else None
  | Some field, Some raw =>
      match decodeHeaderValue raw with
      | None => Some "Mcp-Name header is malformed"
      | Some name =>
          if is_text (prop (prop (Some message) "params") field) name then None
          else Some "Mcp-Name header does not match the body"
      end
  end.

Definition headerMismatch (headers : obj string) (message : json) : option string :=
  let version := own headers "mcp-protocol-version" in
  if match version with Some v => negb (protocol_version v) | None => false end
  then Some "MCP-Protocol-Version is malformed"
  else
    let required := headers_required version in
    let bodyVersion := prop (prop (prop (Some message) "params") "_meta")
                            "io.modelcontextprotocol/protocolVersion" in
    if required && match bodyVersion with Some v => negb (is_text (Some v) (default "" version)) | None => false end
    then Some "MCP-Protocol-Version does not match the body"
    else
      match own headers "mcp-method" with
      | None => if required then Some "Mcp-Method header is missing" else name_mismatch required headers message
      | Some method =>
          if is_text (prop (Some message) "method") method then name_mismatch required headers message
          else Some "Mcp-Method header does not match the body"
      end.

(** ** Groups *)

Inductive GroupServerAccess :=
| unrestricted
| restricted (rule : option McpGroupToolRule).

(** [mcp]: the MCP entry of the group of the request's identity, when both are. *)
Definition groupServerAccess (mcp : option (obj McpGroupToolRule)) (serverId : string) : GroupServerAccess :=
  match mcp with None => unrestricted | Some servers => restricted (own servers serverId) end.

Definition groupToolAllowed (rule : option McpGroupToolRule) (name : string) : bool :=
  match rule with
  | None => true
  | Some r =>
      negb (match mg_denyLower r with Some d => mem_string (toLowerCase name) d | None => false end) &&
      match mg_allow r with Some a => mem_string name a | None => true end
  end.

(** ** The maps of the process *)

Lemma drift_set st s d : drift_of (set_drift s d st) s = d.
Proof. unfold drift_of, set_drift. simpl. by rewrite lookup_insert_eq. Qed.

Lemma drift_set_other st s d s' : s' <> s -> drift_of (set_drift s d st) s' = drift_of st s'.
Proof. intros. unfold drift_of, set_drift. simpl. by rewrite lookup_insert_ne. Qed.

Lemma drift_set_headers st s h s' : drift_of (set_headers s h st) s' = drift_of st s'.
Proof. done. Qed.

Lemma headers_set st s h : headers_of (set_headers s h st) s = h.
Proof. unfold headers_of, set_headers. simpl. by rewrite lookup_insert_eq. Qed.

Lemma headers_set_other st s h s' : s' <> s -> headers_of (set_headers s h st) s' = headers_of st s'.
Proof. intros. unfold headers_of, set_headers. simpl. by rewrite lookup_insert_ne. Qed.

Lemma headers_set_drift st s d s' : headers_of (set_drift s d st) s' = headers_of st s'.
Proof. done. Qed.

#[local] Hint Rewrite drift_set drift_set_headers headers_set headers_set_drift : policy_state.

(** ** Cleaning keeps the name *)

Lemma own_clean_text k max (o : obj json) k' : k' <> k -> own (clean_text k max o) k' = own o k'.
Proof.
  intros Hne. unfold clean_text.
  destruct (own o k) as [[]|]; try (by apply own_map_delete).
  rewrite own_put. by destruct (String.eqb_spec k' k).
Qed.

Lemma own_clean_schema k max (o : obj json) k' : k' <> k -> own (clean_schema k max o) k' = own o k'.
Proof.
  intros Hne. unfold clean_schema. destruct (own o k); [|done].
  rewrite own_put. by destruct (String.eqb_spec k' k).
Qed.

Lemma own_clean_tool server o k :
  k ∉ ["outputSchema"; "inputSchema"; "title"; "description"] -> own (clean_tool server o) k = own o k.
Proof.
  rewrite !not_elem_of_cons. intros (N1 & N2 & N3 & N4 & _). unfold clean_tool.
  by rewrite !own_clean_schema, !own_clean_text by done.
Qed.

Lemma own_clean_text_eq k max (o : obj json) :
  own (clean_text k max o) k =
    match own o k with Some (JStr s) => Some (JStr (sanitizeText s max)) | _ => None end.
Proof.
  unfold clean_text. destruct (own o k) as [[]|]; try apply own_map_delete_eq.
  by rewrite own_put, String.eqb_refl.
Qed.

#[local] Arguments toolCallDecision : simpl never.

Section Filtering.
Variable number_text : num -> string.
Variable sha256_hex : string -> string.
Variable server : McpServerConfig.
Variable groupAllows : string -> bool.

#[local] Abbreviation hash_of := (toolDefinitionHash number_text sha256_hex).
#[local] Abbreviation step := (filter_tool number_text sha256_hex server groupAllows).
#[local] Abbreviation id := (ms_id server).

(** The definition matches its pin, when it has one. *)
Definition pin_matches (n : string) (o : obj json) : bool :=
  match ms_pinnedTools server !! n with
  | Some p => negb (truthy_string p) || (hash_of (JObj o) =? p)%string
  | None => true
  end.

(** What the server's own policy says of a definition. *)
Definition verdict (n : string) (o : obj json) : ToolDecision :=
  if negb (toolAllowedByList server n) then Some policy
  else if blocks server && negb (pin_matches n o) then Some pin
  else match paramHeadersOf (own o "inputSchema") with None => Some invalid_header | Some _ => None end.

(** Only pinned tools are recorded as drifted. *)
Definition drift_pinned (st : PolicyState) : Prop :=
  forall n, n ∈ drift_of st id -> exists p, ms_pinnedTools server !! n = Some p /\ truthy_string p = true.

(** The drift recorded by the check of a pin. *)
Record pin_spec (n : string) (o : obj json) (st st' : PolicyState) (l l' : Listing) (dropped : bool) : Prop := {
  ps_headers : forall s, headers_of st' s = headers_of st s;
  ps_seen : seen l' = seen l;
  ps_kept : kept l' = kept l;
  ps_removed : length (removed l') = (length (removed l) + if dropped then 1 else 0)%nat;
  ps_dropped : dropped = blocks server && negb (pin_matches n o);
  ps_other : forall s, s <> id -> drift_of st' s = drift_of st s;
  ps_names : forall m, m <> n -> m ∈ drift_of st' id <-> m ∈ drift_of st id;
  ps_pinned : drift_pinned st -> drift_pinned st';
  ps_drift : drift_pinned st -> n ∈ drift_of st' id <-> pin_matches n o = false
}.

Lemma check_pin_spec n o st l st' l' dropped :
  check_pin number_text sha256_hex server n (JObj o) st l = (st', l', dropped) ->
  pin_spec n o st st' l l' dropped.
Proof.
  unfold check_pin. destruct (ms_pinnedTools server !! n) as [p|] eqn:Hp.
  2:{ intros [= <- <- <-]. split; try done; unfold pin_matches; rewrite Hp; [by destruct (blocks server)|].
      intros Hd. split; [|done]. intros (q & Hq & _)%Hd. congruence. }
  destruct (truthy_string p) eqn:Ht.
  2:{ intros [= <- <- <-]. split; try done; unfold pin_matches; rewrite Hp, Ht; [by destruct (blocks server)|].
      intros Hd. split; [|done]. intros (q & Hq & Hq')%Hd. congruence. }
  assert (Hset : forall d, drift_pinned st -> d ⊆ {[n]} ∪ drift_of st id -> drift_pinned (set_drift id d st)).
  { intros d Hd Hsub m. rewrite drift_set. intros Hm. destruct (decide (m = n)) as [->|]; [by exists p|].
    apply Hd. set_solver. }
  destruct (hash_of (JObj o) =? p)%string eqn:Hh.
  all: destruct (blocks server) eqn:Hb; intros [= <- <- <-];
    (split; unfold pin_matches; rewrite ?Hp, ?Ht, ?Hh, ?Hb, ?drift_set; try done;
     match goal with
     | |- length _ = _ => simpl; rewrite ?length_app; simpl; lia
     | |- forall s, s <> id -> _ => intros s Hs; by apply drift_set_other
     | |- drift_pinned _ -> drift_pinned _ => intros Hd; apply Hset; [done|set_solver]
     | |- _ => set_solver
     end).
Qed.

(** What one tool's checks do, name by name. *)
Record step_spec (n : string) (o : obj json) (st st' : PolicyState) (l l' : Listing) : Prop := {
  ss_count : (length (kept l') + length (removed l') = length (kept l) + length (removed l) + 1)%nat;
  ss_pinned : drift_pinned st -> drift_pinned st';
  ss_other : forall s, s <> id -> drift_of st' s = drift_of st s /\ headers_of st' s = headers_of st s;
  ss_names : forall m, m <> n ->
    toolCallDecision st' server (Some (JStr m)) = toolCallDecision st server (Some (JStr m));
  ss_seen : seen l' = seen l;
  ss_kept : kept l' = kept l ++ (if groupAllows n && match verdict n o with None => true | _ => false end
                                 then [JObj (clean_tool server o)] else []);
  ss_decision : valid_name n = true -> drift_pinned st ->
    toolCallDecision st' server (Some (JStr n)) = verdict n o;
  ss_headers : forall m, m <> n -> headers_of st' id !! m = headers_of st id !! m;
  ss_declared : verdict n o = None -> paramHeadersOf (own o "inputSchema") = Some (declared_of st' server n)
}.

Lemma decision_names st st' m :
  (m ∈ drift_of st' id <-> m ∈ drift_of st id) -> headers_of st' id !! m = headers_of st id !! m ->
  toolCallDecision st' server (Some (JStr m)) = toolCallDecision st server (Some (JStr m)).
Proof.
  intros Hd Hh. unfold toolCallDecision. rewrite Hh.
  by rewrite (bool_decide_ext (m ∈ drift_of st' id) (m ∈ drift_of st id)).
Qed.

Lemma check_definition_spec n o st l st' l' :
  toolAllowedByList server n = true ->
  check_definition number_text sha256_hex server groupAllows n o st l = (st', l') ->
  step_spec n o st st' l l'.
Proof.
  intros Hal. unfold check_definition.
  destruct (check_pin _ _ _ _ _ _ _) as [[st1 l1] dropped] eqn:Hc. apply check_pin_spec in Hc as [].
  assert (Hdec : forall st2 l2, seen l2 = seen l1 -> (forall s, drift_of st2 s = drift_of st1 s) ->
    (forall s, s <> id -> headers_of st2 s = headers_of st1 s) ->
    (forall m, m <> n -> headers_of st2 id !! m = headers_of st1 id !! m) ->
    (length (kept l2) + length (removed l2) = length (kept l) + length (removed l) + 1)%nat ->
    kept l2 = kept l ++ (if groupAllows n && match verdict n o with None => true | _ => false end
                                 then [JObj (clean_tool server o)] else []) ->
    (valid_name n = true -> drift_pinned st -> toolCallDecision st2 server (Some (JStr n)) = verdict n o) ->
    (verdict n o = None -> paramHeadersOf (own o "inputSchema") = Some (declared_of st2 server n)) ->
    step_spec n o st st2 l l2).
  { intros st2 l2 Hs Hd Hh Hm Hn Hk Hv Hdl. split; try done.
    - intros Hp m. rewrite Hd. by apply ps_pinned0.
    - intros s Hne. by rewrite Hd, Hh, ps_headers0, ps_other0.
    - intros m Hne. apply decision_names; [by rewrite Hd, ps_names0|by rewrite Hm, ps_headers0].
    - congruence.
    - intros m Hne. by rewrite Hm, ps_headers0. }
  assert (Hbd : drift_pinned st -> bool_decide (n ∈ drift_of st1 id) = negb (pin_matches n o)).
  { intros Hp. rewrite (bool_decide_ext _ _ (ps_drift0 Hp)). by destruct (pin_matches n o). }
  destruct dropped.
  { intros [= <- <-]. apply Hdec; try done.
    - rewrite ps_kept0. lia.
    - unfold verdict. rewrite Hal, <- ps_dropped0. simpl. by rewrite andb_false_r, app_nil_r.
    - intros Hv Hp. unfold toolCallDecision, verdict. by rewrite Hv, Hal, Hbd, <- ps_dropped0.
    - unfold verdict. by rewrite Hal, <- ps_dropped0. }
  assert (Hverd : verdict n o = match paramHeadersOf (own o "inputSchema") with
                                | None => Some invalid_header | Some _ => None end).
  { unfold verdict. by rewrite Hal, <- ps_dropped0. }
  assert (Hdecide : forall st2, drift_pinned st -> valid_name n = true -> drift_of st2 id = drift_of st1 id ->
    toolCallDecision st2 server (Some (JStr n)) =
      match headers_of st2 id !! n with Some None => Some invalid_header | _ => None end).
  { intros st2 Hp Hv Hd. unfold toolCallDecision. by rewrite Hv, Hal, Hd, Hbd, <- ps_dropped0. }
  destruct (paramHeadersOf (own o "inputSchema")) as [anns|] eqn:Ha.
  - set (st2 := set_headers id _ st1).
    assert (Hanns : headers_of st2 id !! n = match anns with [] => None | _ => Some (Some anns) end).
    { unfold st2. rewrite headers_set. destruct anns; [by rewrite lookup_delete_eq|by rewrite lookup_insert_eq]. }
    assert (H2 : forall m, m <> n -> headers_of st2 id !! m = headers_of st1 id !! m).
    { intros m Hm. unfold st2. rewrite headers_set.
      destruct anns; [by rewrite lookup_delete_ne|by rewrite lookup_insert_ne]. }
    destruct (groupAllows n) eqn:Hg; intros [= <- <-]; apply Hdec; try done;
      try (intros s Hs; by apply headers_set_other); rewrite ?Hverd; simpl;
      rewrite ?length_app, ?ps_kept0; simpl; try lia; try by rewrite ?app_nil_r.
    all: try (intros Hv Hp; rewrite Hdecide, Hanns by done; by destruct anns).
    all: intros _; unfold declared_of; rewrite Hanns; by destruct anns.
  - intros [= <- <-]. apply Hdec; try done.
    + intros s Hs. by apply headers_set_other.
    + intros m Hm. rewrite headers_set. by rewrite lookup_insert_ne.
    + simpl. rewrite length_app, ps_kept0. simpl. lia.
    + simpl. by rewrite Hverd, andb_false_r, app_nil_r.
    + intros Hv Hp. rewrite Hdecide by done. by rewrite headers_set, lookup_insert_eq, Hverd.
    + by rewrite Hverd.
Qed.

Definition named (n : string) (tool : json) : bool :=
  match tool with
  | JObj o => match own o "name" with Some (JStr m) => (m =? n)%string | _ => false end
  | _ => false
  end.

(** A tool is skipped for its name, or it is the first of its name. *)
Inductive step_case (tool : json) (st : PolicyState) (l : Listing) (st' : PolicyState) (l' : Listing) : Prop :=
| case_skipped :
    st' = st -> kept l' = kept l -> seen l' = seen l -> length (removed l') = S (length (removed l)) ->
    (forall n, valid_name n = true -> named n tool = true -> n ∈ seen l) ->
    step_case tool st l st' l'
| case_first n o :
    tool = JObj o -> own o "name" = Some (JStr n) -> valid_name n = true -> n ∉ seen l ->
    step_spec n o st st' (see n l) l' ->
    step_case tool st l st' l'.

Lemma filter_tool_case tool st l st' l' : step tool (st, l) = (st', l') -> step_case tool st l st' l'.
Proof.
  assert (Hskip : forall r, (forall n, valid_name n = true -> named n tool = true -> n ∈ seen l) ->
    step_case tool st l st (remove r l)).
  { intros r Hn. apply case_skipped; try done. simpl. rewrite length_app. simpl. lia. }
  unfold filter_tool. destruct tool as [| | | | |o]; try (intros [= <- <-]; by apply Hskip).
  unfold named in Hskip.
  destruct (own o "name") as [[| | |n| |]|] eqn:Hn; try (intros [= <- <-]; by apply Hskip).
  destruct (valid_name n) eqn:Hv; simpl.
  2:{ intros [= <- <-]. apply Hskip. intros m Hm ->%String.eqb_eq. congruence. }
  case_bool_decide as Hs.
  { intros [= <- <-]. apply Hskip. by intros m Hm ->%String.eqb_eq. }
  intros Hst. eapply case_first; try done. revert Hst.
  destruct (toolAllowedByList server n) eqn:Hal; simpl; [by apply check_definition_spec|].
  intros [= <- <-]. split; try done.
  - simpl. rewrite length_app. simpl. lia.
  - unfold verdict. rewrite Hal. simpl. by rewrite andb_false_r, app_nil_r.
  - intros Hv' _. unfold toolCallDecision, verdict. by rewrite Hv', Hal.
  - unfold verdict. by rewrite Hal.
Qed.

(** ** The loop *)

#[local] Abbreviation loop := (filter_tools number_text sha256_hex server groupAllows).

(** Induction over the loop: what every step keeps. *)
Lemma loop_keeps (P : PolicyState -> Listing -> Prop) tools st l :
  P st l ->
  (forall tool st l st' l', tool ∈ tools -> P st l -> step_case tool st l st' l' -> P st' l') ->
  P (loop tools (st, l)).1 (loop tools (st, l)).2.
Proof.
  revert st l. induction tools as [|t tools IH]; intros st l H0 Hs; [done|].
  unfold filter_tools. cbn [foldl]. destruct (step t (st, l)) as [st1 l1] eqn:E.
  apply (IH st1 l1); [|intros; eapply Hs; eauto; by right].
  eapply Hs; [by left|exact H0|by apply filter_tool_case].
Qed.

Lemma loop_drift tools st l : drift_pinned st -> drift_pinned (loop tools (st, l)).1.
Proof.
  intros H. apply (loop_keeps (fun st _ => drift_pinned st)); [done|].
  intros tool st1 l1 st2 l2 _ Hp [-> _ _ _ _|n o _ _ _ _ []]; [done|auto].
Qed.

(** A name that was seen keeps its decision. *)
Lemma loop_seen tools st l n :
  n ∈ seen l ->
  toolCallDecision (loop tools (st, l)).1 server (Some (JStr n)) = toolCallDecision st server (Some (JStr n)).
Proof.
  intros Hn.
  apply (loop_keeps (fun st' l' => n ∈ seen l' /\
    toolCallDecision st' server (Some (JStr n)) = toolCallDecision st server (Some (JStr n)))); [done|].
  intros tool st1 l1 st2 l2 _ [Hs Hd] [-> _ Hse _ _|m o _ _ _ Hm []]; [by rewrite Hse|].
  split; [rewrite ss_seen0; simpl; set_solver|]. rewrite ss_names0; [done|]. set_solver.
Qed.

Lemma decision_after tools st l n :
  drift_pinned st -> valid_name n = true -> n ∉ seen l ->
  toolCallDecision (loop tools (st, l)).1 server (Some (JStr n)) =
    match List.find (named n) tools with
    | Some (JObj o) => verdict n o
    | _ => toolCallDecision st server (Some (JStr n))
    end.
Proof.
  revert st l. induction tools as [|t tools IH]; intros st l Hp Hv Hn; [done|].
  unfold filter_tools. cbn [foldl List.find]. destruct (step t (st, l)) as [st1 l1] eqn:E.
  change (foldl _ (st1, l1) tools) with (loop tools (st1, l1)).
  apply filter_tool_case in E as [-> _ Hse _ Hna|m o -> Ho Hvm Hm Hst].
  - destruct (named n t) eqn:Hnt; [by apply Hna in Hnt|]. apply IH; [done..|]. by rewrite Hse.
  - unfold named. rewrite Ho. pose proof (ss_seen _ _ _ _ _ _ Hst) as Hse. simpl in Hse.
    destruct (String.eqb_spec m n) as [->|Hne].
    + rewrite loop_seen by set_solver. by apply Hst.
    + rewrite IH; [|by apply Hst|done|set_solver].
      destruct (List.find _ tools) as [[]|]; try done; by apply Hst.
Qed.

Definition tool_name (t : json) : any := prop (Some t) "name".

(** What the loop keeps, with the names it has seen. *)
Definition kept_ok (tools : list json) (l : Listing) : Prop :=
  Forall (fun t => exists o n, JObj o ∈ tools /\ t = JObj (clean_tool server o) /\
    own o "name" = Some (JStr n) /\ valid_name n = true /\ verdict n o = None /\ groupAllows n = true /\
    n ∈ seen l) (kept l) /\ NoDup (map tool_name (kept l)).

Lemma loop_kept tools st : kept_ok tools (loop tools (st, mkListing ∅ [] [] [])).2.
Proof.
  apply (loop_keeps (fun _ l => kept_ok tools l)); [by split; constructor|].
  intros tool st1 l1 st2 l2 Hin [Hf Hnd] [_ Hk Hse _ _|n o -> Ho Hv Hn Hst]; unfold kept_ok.
  { by rewrite Hk, Hse. }
  rewrite (ss_kept _ _ _ _ _ _ Hst), (ss_seen _ _ _ _ _ _ Hst). simpl.
  assert (Hf' : Forall (fun t => exists o n0, JObj o ∈ tools /\ t = JObj (clean_tool server o) /\
    own o "name" = Some (JStr n0) /\ valid_name n0 = true /\ verdict n0 o = None /\ groupAllows n0 = true /\
    n0 ∈ {[n]} ∪ seen l1) (kept l1)).
  { eapply Forall_impl; [exact Hf|]. intros t (o' & n' & ? & ? & ? & ? & ? & ? & ?).
    exists o', n'. repeat split; try done. set_solver. }
  destruct (groupAllows n) eqn:Hg; [|by rewrite app_nil_r].
  destruct (verdict n o) eqn:Hve; [by rewrite app_nil_r|]. simpl. split.
  - apply Forall_app. split; [done|]. constructor; [|done]. exists o, n. repeat split; try done. set_solver.
  - rewrite map_app. apply NoDup_app. split; [done|]. split; [|apply NoDup_singleton].
    intros x Hx ->%list_elem_of_singleton. apply list_elem_of_fmap in Hx as (t & Ht & Hkt).
    rewrite Forall_forall in Hf. destruct (Hf t Hkt) as (o' & n' & _ & -> & Hn' & _ & _ & _ & Hse').
    unfold tool_name in Ht. simpl in Ht.
    rewrite !own_clean_tool in Ht by (by apply (bool_decide_unpack _)). rewrite Ho, Hn' in Ht.
    injection Ht as ->. done.
Qed.

(** ** Properties of a listing *)

Definition tools_of (result : json) : list json :=
  match prop (Some result) "tools" with Some (JArr l) => l | _ => [] end.

#[local] Abbreviation filter := (filterToolsList number_text sha256_hex server groupAllows).

(** The tools of an upstream result, none when it cannot be read as a list. *)
Definition listed (result : any) : list json :=
  match result with
  | Some (JObj o) => match own o "tools" with Some (JArr ts) => ts | _ => [] end
  | _ => []
  end.

Definition prepared (st : PolicyState) : PolicyState :=
  let st := set_drift id (drift_of st id) st in set_headers id (headers_of st id) st.

Lemma prepared_drift st : drift_pinned st -> drift_pinned (prepared st).
Proof. unfold drift_pinned, prepared. by rewrite drift_set_headers, drift_set. Qed.

Lemma filter_tools_shape result st :
  let '(fl, st') := filter result st in
  let '(st1, l) := loop (listed result) (prepared st, mkListing ∅ [] [] []) in
  tools_of (fl_result fl) = kept l /\ fl_removed fl = removed l /\ (listed result <> [] -> st' = st1).
Proof.
  unfold filterToolsList.
  assert (Hn : forall (o : obj json) l, tools_of (JObj (obj_put o "tools" (JArr l))) = l).
  { intros o l. unfold tools_of. simpl. by rewrite own_put. }
  destruct result as [[| | | |ts|o]|]; simpl; rewrite ?Hn; try done.
  destruct (own o "tools") as [[| | | |ts|]|]; simpl; rewrite ?Hn; try done.
  change (set_headers id (headers_of (set_drift id (drift_of st id) st) id) (set_drift id (drift_of st id) st))
    with (prepared st).
  destruct (loop ts _) as [st1 l]. simpl. by rewrite Hn.
Qed.

Lemma loop_count tools st l :
  let '(_, l') := loop tools (st, l) in
  (length (kept l') + length (removed l') = length (kept l) + length (removed l) + length tools)%nat.
Proof.
  revert st l. induction tools as [|t tools IH]; intros st l; [simpl; lia|].
  unfold filter_tools. cbn [foldl]. destruct (step t (st, l)) as [st1 l1] eqn:E.
  specialize (IH st1 l1). change (foldl _ (st1, l1) tools) with (loop tools (st1, l1)).
  destruct (loop tools (st1, l1)) as [st2 l2]. cbn [length].
  apply filter_tool_case in E as [_ Hk _ Hr _|n o _ _ _ _ [Hc _ _ _ _ _ _]]; [rewrite Hk in IH; lia|].
  simpl in Hc. lia.
Qed.

(** A tool a listing may show: the clean copy of one that was sent. *)
Definition shown (sent : list json) (t : json) : Prop :=
  exists o n, JObj o ∈ sent /\ t = JObj (clean_tool server o) /\
    own o "name" = Some (JStr n) /\ valid_name n = true /\ toolAllowedByList server n = true /\
    groupAllows n = true /\ (blocks server = true -> pin_matches n o = true) /\
    paramHeadersOf (own o "inputSchema") <> None.

Lemma listing_shows result st : Forall (shown (listed result)) (tools_of (fl_result (filter result st).1)).
Proof.
  pose proof (filter_tools_shape result st) as H.
  pose proof (loop_kept (listed result) (prepared st)) as [Hf _].
  destruct (filter result st) as [fl st']. destruct (loop _ _) as [st1 l].
  destruct H as (Hk & _). cbn [fst snd] in *. rewrite Hk. eapply Forall_impl; [exact Hf|].
  intros t (o & n & Hin & -> & Hn & Hv & Hve & Hg & _). exists o, n. revert Hve. unfold verdict.
  destruct (toolAllowedByList server n); [|done]. simpl.
  destruct (blocks server); simpl; [destruct (pin_matches n o); [simpl|done]|];
    (destruct (paramHeadersOf _) eqn:Ha; [|done]); intros _; repeat split; try done; congruence.
Qed.

(** A listing never shows a tool the policy refuses: every tool of the result
    is the cleaned copy of one the upstream sent, with a valid name, allowed by
    the server's lists and by the caller's group, matching its pin when changes
    are blocked, with valid header annotations, and under a name no other tool
    has; and each tool received is either shown or listed as removed. *)
Theorem listed_tools_obey_policy result st :
  let fl := (filter result st).1 in
  Forall (shown (listed result)) (tools_of (fl_result fl)) /\
  NoDup (map tool_name (tools_of (fl_result fl))) /\
  (length (tools_of (fl_result fl)) + length (fl_removed fl) = length (listed result))%nat.
Proof.
  pose proof (listing_shows result st) as Hs.
  pose proof (filter_tools_shape result st) as H.
  pose proof (loop_kept (listed result) (prepared st)) as [_ Hnd].
  pose proof (loop_count (listed result) (prepared st) (mkListing ∅ [] [] [])) as Hc.
  destruct (filter result st) as [fl st']. destruct (loop _ _) as [st1 l].
  destruct H as (Hk & Hr & _). cbv zeta. cbn [fst snd] in *. rewrite Hk, Hr in *. by repeat split.
Qed.

Lemma loop_kept_seen tools st l n :
  n ∈ seen l ->
  Some (JStr n) ∈ map tool_name (kept (loop tools (st, l)).2) <-> Some (JStr n) ∈ map tool_name (kept l).
Proof.
  intros Hn.
  apply (loop_keeps (fun _ l' => n ∈ seen l' /\
    (Some (JStr n) ∈ map tool_name (kept l') <-> Some (JStr n) ∈ map tool_name (kept l)))); [done|].
  intros tool st1 l1 st2 l2 _ [Hs Hd] [_ Hk Hse _ _|m o _ Ho _ Hm Hst]; [by rewrite Hk, Hse|].
  rewrite (ss_kept _ _ _ _ _ _ Hst), (ss_seen _ _ _ _ _ _ Hst). simpl. split; [set_solver|].
  rewrite map_app, elem_of_app, Hd. destruct (groupAllows m && _); simpl; [|set_solver].
  rewrite list_elem_of_singleton. unfold tool_name. simpl.
  rewrite own_clean_tool, Ho by (by apply (bool_decide_unpack _)). split; [|by left].
  intros [?|[= ->]]; done.
Qed.

Lemma kept_after tools st l n :
  n ∉ seen l -> valid_name n = true ->
  Some (JStr n) ∈ map tool_name (kept (loop tools (st, l)).2) <->
    Some (JStr n) ∈ map tool_name (kept l) \/
    exists o, List.find (named n) tools = Some (JObj o) /\ verdict n o = None /\ groupAllows n = true.
Proof.
  intros Hn Hv. revert st l Hn. induction tools as [|t tools IH]; intros st l Hn.
  { simpl. split; [by left|]. by intros [?|(o & ? & _)]. }
  unfold filter_tools. cbn [foldl List.find]. destruct (step t (st, l)) as [st1 l1] eqn:E.
  change (foldl _ (st1, l1) tools) with (loop tools (st1, l1)).
  apply filter_tool_case in E as [-> Hk Hse _ Hna|m o -> Ho Hvm Hm Hst].
  - destruct (named n t) eqn:Hnt; [by apply Hna in Hnt|]. rewrite IH by (by rewrite Hse). by rewrite Hk.
  - pose proof (ss_seen _ _ _ _ _ _ Hst) as Hse. pose proof (ss_kept _ _ _ _ _ _ Hst) as Hk. simpl in Hse, Hk.
    assert (Hname : tool_name (JObj (clean_tool server o)) = Some (JStr m)).
    { unfold tool_name. simpl. by rewrite own_clean_tool by (by apply (bool_decide_unpack _)). }
    unfold named at 1. rewrite Ho. destruct (String.eqb_spec m n) as [->|Hne].
    + rewrite loop_kept_seen, Hk, map_app, elem_of_app by set_solver.
      destruct (groupAllows n) eqn:Hg; simpl.
      * destruct (verdict n o) eqn:Hve; simpl.
        -- split; [set_solver|]. intros [?|(o' & [= <-] & ? & _)]; [by left|congruence].
        -- rewrite list_elem_of_singleton, Hname. split; [|by auto]. intros _. right. by exists o.
      * split; [set_solver|]. intros [?|(o' & _ & _ & ?)]; [by left|done].
    + rewrite IH by set_solver. rewrite Hk, map_app, elem_of_app.
      destruct (groupAllows m && _); simpl; [|set_solver].
      rewrite list_elem_of_singleton, Hname. split; [|by intros [?|?]; [left; left|right]].
      intros [[?|[= ?]]|?]; [by left|congruence|by right].
Qed.

(** Listing and calling agree: after a listing, a tool the upstream sent is
    shown exactly when a call to it by the same caller would pass (the server's
    decision and the group's rule), and a refused call gives the reason the
    listing removed the tool for.  A tool listed twice is judged as it first
    appears. *)
Theorem list_and_call_agree result st n o :
  drift_pinned st -> valid_name n = true -> List.find (named n) (listed result) = Some (JObj o) ->
  let '(fl, st') := filter result st in
  toolCallDecision st' server (Some (JStr n)) = verdict n o /\
  (Some (JStr n) ∈ map tool_name (tools_of (fl_result fl)) <->
     toolCallDecision st' server (Some (JStr n)) = None /\ groupAllows n = true) /\
  drift_pinned st'.
Proof.
  intros Hd Hv Hf. pose proof (filter_tools_shape result st) as H.
  pose proof (decision_after (listed result) (prepared st) (mkListing ∅ [] [] []) n
    (prepared_drift st Hd) Hv ltac:(set_solver)) as Hdec.
  pose proof (kept_after (listed result) (prepared st) (mkListing ∅ [] [] []) n ltac:(set_solver) Hv) as Hk.
  pose proof (loop_drift (listed result) (prepared st) (mkListing ∅ [] [] []) (prepared_drift st Hd)) as Hd'.
  rewrite Hf in Hdec, Hk. destruct (filter result st) as [fl st']. destruct (loop _ _) as [st1 l].
  cbn [fst snd] in *. destruct H as (Ht & _ & ->); [|by intros E; rewrite E in Hf].
  rewrite Ht, Hdec, Hk. split; [done|]. split; [|done]. simpl. split.
  - intros [?%elem_of_nil|(o' & [= <-] & ? & ?)]; [done|by split].
  - intros [? ?]. right. by exists o.
Qed.

Lemma loop_seen_headers tools st l n :
  n ∈ seen l -> headers_of (loop tools (st, l)).1 id !! n = headers_of st id !! n.
Proof.
  intros Hn.
  apply (loop_keeps (fun st' l' => n ∈ seen l' /\ headers_of st' id !! n = headers_of st id !! n)); [done|].
  intros tool st1 l1 st2 l2 _ [Hs Hd] [-> _ Hse _ _|m o _ _ _ Hm []]; [by rewrite Hse|].
  split; [rewrite ss_seen0; simpl; set_solver|]. rewrite ss_headers0; [done|]. set_solver.
Qed.

(** The annotations in force are those of the definition that was kept. *)
Lemma declared_after tools st l n o :
  n ∉ seen l -> valid_name n = true -> List.find (named n) tools = Some (JObj o) -> verdict n o = None ->
  paramHeadersOf (own o "inputSchema") = Some (declared_of (loop tools (st, l)).1 server n).
Proof.
  intros Hn Hv Hf Hve. revert st l Hn Hf. induction tools as [|t tools IH]; intros st l Hn; [done|].
  unfold filter_tools. cbn [foldl List.find]. destruct (step t (st, l)) as [st1 l1] eqn:E.
  change (foldl _ (st1, l1) tools) with (loop tools (st1, l1)).
  apply filter_tool_case in E as [-> _ Hse _ Hna|m o' -> Ho Hvm Hm Hst].
  - destruct (named n t) eqn:Hnt; [by apply Hna in Hnt|]. apply IH. by rewrite Hse.
  - pose proof (ss_seen _ _ _ _ _ _ Hst) as Hse. simpl in Hse.
    unfold named at 1. rewrite Ho. destruct (String.eqb_spec m n) as [->|Hne].
    + intros [= ->]. unfold declared_of. rewrite loop_seen_headers by set_solver.
      by apply Hst.
    + apply IH. set_solver.
Qed.
End Filtering.

(** ** Canonical JSON does not depend on the order of properties *)

Lemma ascii_compare a b : Ascii.compare a b = N.compare (N_of_ascii a) (N_of_ascii b).
Proof. done. Qed.

Lemma leb_trans a b c : String.leb a b = true -> String.leb b c = true -> String.leb a c = true.
Proof.
  unfold String.leb. revert b c. induction a as [|x a IH]; intros [|y b] [|z c]; simpl; try done.
  rewrite !ascii_compare. intros H1 H2.
  destruct (N.compare_spec (N_of_ascii x) (N_of_ascii y)) as [E1|L1|G1]; [|
    destruct (N.compare_spec (N_of_ascii y) (N_of_ascii z)) as [E2|L2|G2];
      [rewrite <- E2|rewrite (proj2 (N.compare_lt_iff _ _)) by lia|]; done || by rewrite (proj2 (N.compare_lt_iff _ _)) by lia |done].
  rewrite E1. destruct (N.compare_spec (N_of_ascii y) (N_of_ascii z)); [|done|done]. by eapply IH.
Qed.

Section Canonical.
Variable number_text : num -> string.

#[local] Abbreviation canonical := (canonicalJson number_text).

(** Equal but for the order of the properties of objects, at any depth. *)
Inductive same_json : json -> json -> Prop :=
| same_value v : same_json v v
| same_array l l' : Forall2 same_json l l' -> same_json (JArr l) (JArr l')
| same_object o o1 o' :
    NoDup (map fst o) ->
    Forall2 (fun p q : string * json => p.1 = q.1 /\ same_json p.2 q.2) o o1 -> Permutation o1 o' ->
    same_json (JObj o) (JObj o').

Lemma insert_swap {A} (p q : string * A) l :
  p.1 <> q.1 -> insert_member p (insert_member q l) = insert_member q (insert_member p l).
Proof.
  intros Hne.
  assert (Hpq : String.leb p.1 q.1 = true -> String.leb q.1 p.1 = false).
  { intros H. destruct (String.leb q.1 p.1) eqn:E; [|done]. exfalso. apply Hne.
    by apply String.leb_antisym. }
  assert (Hqp : String.leb p.1 q.1 = false -> String.leb q.1 p.1 = true).
  { intros H. destruct (String.leb_total p.1 q.1); congruence. }
  induction l as [|z l IH]; simpl.
  - destruct (String.leb p.1 q.1) eqn:E; [by rewrite (Hpq eq_refl)|by rewrite (Hqp eq_refl)].
  - destruct (String.leb q.1 z.1) eqn:Eq, (String.leb p.1 z.1) eqn:Ep; simpl; rewrite ?Eq, ?Ep.
    + destruct (String.leb p.1 q.1) eqn:E; [by rewrite (Hpq eq_refl)|by rewrite (Hqp eq_refl)].
    + assert (String.leb p.1 q.1 = false) as ->; [|done].
      destruct (String.leb p.1 q.1) eqn:E; [|done]. by rewrite (leb_trans _ _ _ E Eq) in Ep.
    + assert (String.leb q.1 p.1 = false) as ->; [|done].
      destruct (String.leb q.1 p.1) eqn:E; [|done]. by rewrite (leb_trans _ _ _ E Ep) in Eq.
    + by rewrite IH.
Qed.

Lemma sort_permutation {A} (l l' : list (string * A)) :
  NoDup (map fst l) -> Permutation l l' -> sort_members l = sort_members l'.
Proof.
  intros Hnd Hp. induction Hp as [|x l l' Hp IH|x y l|l l1 l2 H1 IH1 H2 IH2]; simpl in *.
  - done.
  - apply NoDup_cons in Hnd as [_ Hnd]. by rewrite IH.
  - apply NoDup_cons in Hnd as [Hy _]. apply insert_swap. set_solver.
  - rewrite IH1 by done. apply IH2. by rewrite <- H1.
Qed.

(** Equal definitions have equal hashes: two definitions that differ only in
    the order of their properties, at any depth, have one canonical text. *)
Theorem canonical_ignores_order v w : same_json v w -> canonical v = canonical w.
Proof.
  revert w. induction v as [| | | |l IH|o IH] using json_rect'; intros w Hs;
    inversion Hs as [|l1 l2 Hl|o1 o2 o3 Hnd Ho Hp]; subst; try done.
  - cbn [canonicalJson]. do 3 f_equal. clear Hs. induction Hl as [|x y l l2 Hxy Hl IHl]; [done|].
    inversion IH; subst. simpl. f_equal; auto.
  - cbn [canonicalJson]. do 4 f_equal. clear Hs.
    assert (map (fun p => (p.1, canonical p.2)) o = map (fun p => (p.1, canonical p.2)) o2) as ->.
    { clear Hp Hnd. induction Ho as [|x y o o2 [Hk Hxy] Ho IHo]; [done|].
      inversion IH; subst. simpl. rewrite Hk. f_equal; [f_equal; auto|auto]. }
    apply sort_permutation; [|by apply Permutation_map].
    rewrite map_map. simpl. clear - Hnd Ho. revert Hnd.
    assert (map fst o = map (fun x : string * json => x.1) o2) as ->; [|done].
    induction Ho as [|x y o o2 [Hk _] Ho IHo]; [done|]. simpl. congruence.
Qed.
End Canonical.

(** ** The annotations of a schema *)

(** A node reached from another through [properties] keys alone. *)
Inductive at_path : json -> list string -> json -> Prop :=
| at_here v : at_path v [] v
| at_below o props k sub r v :
    ("properties", JObj props) ∈ o -> (k, sub) ∈ props -> at_path sub r v ->
    at_path (JObj o) (k :: r) v.

(** The node declares a header of this name. *)
Definition annotated (v : json) (name : string) : Prop :=
  exists o s, v = JObj o /\ own o "x-mcp-header" = Some (JStr s) /\ name = toLowerCase s /\
    is_token s = true /\ header_type (own o "type") = true.

Definition good_headers (l : list ParamHeader) : Prop :=
  NoDup (map ph_name l) /\ (length l <= MAX_PARAM_HEADERS)%nat /\ Forall (fun p => ph_path p <> []) l.

(** The annotations found grow by ones with a property. *)
Definition grows (Q : ParamHeader -> Prop) (s s' : list ParamHeader) : Prop :=
  exists new, s' = s ++ new /\ Forall Q new /\ (good_headers s -> good_headers s').

Lemma grows_refl Q s : grows Q s s.
Proof. exists []. by rewrite app_nil_r. Qed.

Lemma grows_trans Q s1 s2 s3 : grows Q s1 s2 -> grows Q s2 s3 -> grows Q s1 s3.
Proof.
  intros (n1 & -> & H1 & G1) (n2 & -> & H2 & G2). exists (n1 ++ n2). rewrite app_assoc.
  split; [done|]. split; [by apply Forall_app|auto].
Qed.

Lemma grows_impl (Q Q' : ParamHeader -> Prop) s s' : (forall p, Q p -> Q' p) -> grows Q s s' -> grows Q' s s'.
Proof. intros H (n & -> & Hn & G). exists n. split; [done|]. split; [by eapply Forall_impl|done]. Qed.

Section Fold.
Context {A : Type}.
Variable f : option (list ParamHeader) -> A -> option (list ParamHeader).
Hypothesis f_None : forall x, f None x = None.

Lemma fold_None l : List.fold_left f l None = None.
Proof. induction l; simpl; [done|]. by rewrite f_None. Qed.

Lemma fold_grows Q l s s' :
  (forall x a b, x ∈ l -> f (Some a) x = Some b -> grows Q a b) ->
  List.fold_left f l (Some s) = Some s' -> grows Q s s'.
Proof.
  revert s. induction l as [|x l IH]; intros s Hf; simpl; [intros [= <-]; apply grows_refl|].
  destruct (f (Some s) x) as [b|] eqn:E; [|by rewrite fold_None].
  intros H. eapply grows_trans; [eapply Hf; [by left|exact E]|].
  apply IH; [|done]. intros y a c Hy. apply Hf. by right.
Qed.

(** Every element is visited in the course of the fold. *)
Lemma fold_visits Q l s s' x :
  (forall x a b, x ∈ l -> f (Some a) x = Some b -> grows Q a b) ->
  List.fold_left f l (Some s) = Some s' -> x ∈ l ->
  exists a b, f (Some a) x = Some b /\ grows Q b s'.
Proof.
  revert s. induction l as [|y l IH]; intros s Hf; simpl; [by intros _ ?%elem_of_nil|].
  destruct (f (Some s) y) as [b|] eqn:E; [|by rewrite fold_None].
  assert (Hf' : forall x a b, x ∈ l -> f (Some a) x = Some b -> grows Q a b).
  { intros z a c Hz. apply Hf. by right. }
  intros H [->|Hx]%elem_of_cons; [|by eapply IH].
  exists s, b. split; [done|]. by eapply fold_grows.
Qed.
End Fold.

Lemma visit_None node path reachable depth : visit node path reachable depth None = None.
Proof. by destruct node. Qed.

(** What one visit finds. *)
Definition found_at (node : json) (path : list string) (reachable : bool) (p : ParamHeader) : Prop :=
  reachable = true /\ exists suffix v,
    ph_path p = path ++ suffix /\ at_path node suffix v /\ annotated v (ph_name p).

Lemma annotate_grows o path reachable s s' :
  annotate o path reachable s = Some s' -> grows (found_at (JObj o) path reachable) s s'.
Proof.
  unfold annotate. destruct (own o "x-mcp-header") as [[| | |t| |]|] eqn:Ho; try done;
    [|by intros [= <-]; apply grows_refl].
  destruct (_ || _) eqn:Hbad; [done|]. intros [= <-].
  apply orb_false_iff in Hbad as [Hbad Hlen]. apply orb_false_iff in Hbad as [Hbad Hty].
  apply orb_false_iff in Hbad as [Hbad Hseen]. apply orb_false_iff in Hbad as [Hbad Htok].
  apply orb_false_iff in Hbad as [Hr Hpath]. apply negb_false_iff in Hr, Htok, Hty.
  exists [mkParam (toLowerCase t) path]. split; [done|]. split.
  - constructor; [|done]. split; [done|]. exists [], (JObj o). rewrite app_nil_r.
    split; [done|]. split; [constructor|]. by exists o, t.
  - intros (Hnd & Hl & Hp). unfold good_headers. rewrite map_app, length_app. split_and!.
    + apply NoDup_app. split; [done|]. split; [|apply NoDup_singleton].
      intros x Hx ->%list_elem_of_singleton. by apply mem_string_false in Hseen.
    + simpl. lia.
    + apply Forall_app. split; [done|]. constructor; [|done]. by destruct path.
Qed.

Definition visit_claim (node : json) : Prop := forall path reachable depth s s',
  visit node path reachable depth (Some s) = Some s' -> grows (found_at node path reachable) s s'.

(** The visit of one member of an object. *)
Definition visit_member (path : list string) (reachable : bool) (depth : nat)
    (st : option (list ParamHeader)) (p : string * json) : option (list ParamHeader) :=
  if skipped_key p.1 then st
  else if (p.1 =? "properties")%string then
    match p.2 with
    | JObj props => List.fold_left (fun st q => visit q.2 (path ++ [q.1]) reachable (S depth) st) props st
    | _ => visit p.2 path false (S depth) st
    end
  else visit p.2 path false (S depth) st.

Lemma visit_object o path reachable depth s s' :
  visit (JObj o) path reachable depth (Some s) = Some s' ->
  exists s1, annotate o path reachable s = Some s1 /\
    List.fold_left (visit_member path reachable depth) o (Some s1) = Some s'.
Proof.
  cbn [visit]. destruct (64 <? depth)%nat; [done|].
  change (List.fold_left _ o (annotate o path reachable s)) with
    (List.fold_left (visit_member path reachable depth) o (annotate o path reachable s)).
  intros H. destruct (annotate o path reachable s) as [s1|] eqn:E; [by exists s1|].
  rewrite fold_None in H; [done|]. intros [k v]. unfold visit_member.
  destruct (skipped_key _); [done|]. destruct (_ =? _)%string; [|apply visit_None].
  destruct v; try apply visit_None. apply fold_None. intros q. apply visit_None.
Qed.

Lemma visit_member_None path reachable depth p : visit_member path reachable depth None p = None.
Proof.
  destruct p as [k v]. unfold visit_member. destruct (skipped_key _); [done|].
  destruct (_ =? _)%string; [|apply visit_None]. destruct v; try apply visit_None.
  apply fold_None. intros q. apply visit_None.
Qed.

(** Below a node that is not reachable nothing may be annotated. *)
Lemma unreachable_grows Q node path s s' : grows (found_at node path false) s s' -> grows Q s s'.
Proof. apply grows_impl. by intros p [? _]. Qed.

Lemma visit_member_grows o path reachable depth k v a b :
  (k, v) ∈ o -> visit_claim v -> (forall props q, v = JObj props -> q ∈ props -> visit_claim q.2) ->
  visit_member path reachable depth (Some a) (k, v) = Some b ->
  grows (found_at (JObj o) path reachable) a b.
Proof.
  intros Hin Hv Hsub. unfold visit_member. simpl.
  destruct (skipped_key k); [intros [= <-]; apply grows_refl|].
  destruct (String.eqb_spec k "properties") as [->|]; [|by intros Hb%Hv; eapply unreachable_grows].
  destruct v as [| | | | |props]; try (by intros Hb%Hv; eapply unreachable_grows).
  apply fold_grows; [intros; apply visit_None|]. intros q c d Hq Hd.
  apply (Hsub props q eq_refl Hq) in Hd. eapply grows_impl; [|exact Hd].
  intros p (Hr & suffix & w & Hp & Hat & Han). split; [done|].
  exists (q.1 :: suffix), w. rewrite Hp, <- app_assoc. split; [done|]. split; [|done].
  eapply at_below; eauto. by destruct q.
Qed.

Lemma visit_grows node : visit_claim node /\ (forall props q, node = JObj props -> q ∈ props -> visit_claim q.2).
Proof.
  assert (Hleaf : forall v, (forall path reachable depth s, visit v path reachable depth (Some s) =
      if (64 <? depth)%nat then None else Some s) -> visit_claim v).
  { intros v Hv path reachable depth s s'. rewrite Hv. destruct (64 <? depth)%nat; [done|].
    intros [= <-]. apply grows_refl. }
  induction node as [| | | |l IH|o IH] using json_rect'; try (split; [by apply Hleaf|done]).
  - split; [|done]. intros path reachable depth s s'. cbn [visit].
    destruct (64 <? depth)%nat; [done|]. apply fold_grows; [intros; apply visit_None|].
    intros x a b Hx Hb. rewrite Forall_forall in IH. apply (IH x Hx) in Hb.
    by eapply unreachable_grows.
  - rewrite Forall_forall in IH. split.
    + intros path reachable depth s s' (s1 & Ha & Hf)%visit_object.
      eapply grows_trans; [by eapply annotate_grows|].
      eapply fold_grows; [apply visit_member_None| |exact Hf].
      intros [k v] a b Hin. specialize (IH (k, v) Hin) as [H1 H2]. by apply visit_member_grows.
    + intros props q [= <-] Hq. by apply (IH q Hq).
Qed.

Lemma grows_elem Q s s' p : grows Q s s' -> p ∈ s -> p ∈ s'.
Proof. intros (n & -> & _). set_solver. Qed.

(** No reachable annotation is missed. *)
Lemma visit_complete node suffix v :
  at_path node suffix v -> forall path depth s s' o x,
  visit node path true depth (Some s) = Some s' -> v = JObj o -> own o "x-mcp-header" = Some x ->
  exists t, x = JStr t /\ mkParam (toLowerCase t) (path ++ suffix) ∈ s'.
Proof.
  induction 1 as [v|o props k sub r v Hp Hk Hat IH]; intros path depth s s' o' x Hv Heq Hx.
  - subst v. rewrite app_nil_r. apply visit_object in Hv as (s1 & Ha & Hf).
    assert (exists t, x = JStr t /\ mkParam (toLowerCase t) path ∈ s1) as (t & -> & Ht).
    { unfold annotate in Ha. rewrite Hx in Ha. destruct x; try done. destruct (_ || _); [done|].
      injection Ha as <-. eexists. split; [done|]. set_solver. }
    exists t. split; [done|]. eapply grows_elem; [|exact Ht].
    eapply (fold_grows _ (visit_member_None path true depth)); [|exact Hf].
    intros [k w] a b Hin. apply visit_member_grows; [done|apply visit_grows|].
    intros props q -> Hq. apply (proj2 (visit_grows (JObj props)) props q eq_refl Hq).
  - apply visit_object in Hv as (s1 & Ha & Hf).
    assert (Hmem : forall y a b, y ∈ o -> visit_member path true depth (Some a) y = Some b ->
      grows (found_at (JObj o) path true) a b).
    { intros [k' w] a b Hin. apply visit_member_grows; [done|apply visit_grows|].
      intros props' q -> Hq. apply (proj2 (visit_grows (JObj props')) props' q eq_refl Hq). }
    destruct (fold_visits _ (visit_member_None path true depth) _ _ _ _ _ Hmem Hf Hp) as (a & b & Hb & Hg).
    unfold visit_member in Hb. simpl in Hb.
    assert (Hsub : forall y c d, y ∈ props -> visit y.2 (path ++ [y.1]) true (S depth) (Some c) = Some d ->
      grows (fun _ => True) c d).
    { intros y c d _ Hd. apply visit_grows in Hd. by eapply grows_impl; [|exact Hd]. }
    destruct (fold_visits (fun st q => visit q.2 (path ++ [q.1]) true (S depth) st)
      ltac:(intros; apply visit_None) _ _ _ _ _ Hsub Hb Hk) as (c & d & Hd & Hg2).
    simpl in Hd. destruct (IH _ _ _ _ _ _ Hd Heq Hx) as (t & -> & Ht). exists t. split; [done|].
    rewrite <- app_assoc in Ht. simpl in Ht. eapply grows_elem; [exact Hg|].
    by eapply grows_elem.
Qed.

(** What a valid schema declares. *)
Lemma declared_headers schema l :
  paramHeadersOf (Some schema) = Some l ->
  NoDup (map ph_name l) /\ (length l <= 64)%nat /\
  forall p, p ∈ l <-> ph_path p <> [] /\ exists v, at_path schema (ph_path p) v /\ annotated v (ph_name p).
Proof.
  unfold paramHeadersOf. intros H. pose proof H as Hg. apply visit_grows in Hg as (new & Hl & Hf & Hgood).
  simpl in Hl. subst new. destruct Hgood as (Hnd & Hlen & Hpath); [by repeat constructor|].
  split; [done|]. split; [done|]. intros p. rewrite Forall_forall in Hf, Hpath. split.
  - intros Hp. split; [by apply Hpath|]. destruct (Hf p Hp) as (_ & suffix & v & -> & Hat & Han).
    by exists v.
  - intros (_ & v & Hat & (o & s & -> & Ho & Hn & _)).
    destruct (visit_complete _ _ _ Hat _ _ _ _ _ _ H eq_refl Ho) as (t & [= <-] & Ht).
    destruct p as [n path]. simpl in *. by subst n.
Qed.

(** The parameter headers of a schema, when it is valid, are exactly the
    annotations reached from its root through [properties] keys: each has a token
    for a name, in lower case, and a primitive type; no two have one name, and
    there are at most 64. *)
Theorem parameter_headers_exact schema l :
  paramHeadersOf (Some schema) = Some l ->
  NoDup (map ph_name l) /\ (length l <= 64)%nat /\
  forall p, p ∈ l <-> ph_path p <> [] /\ exists v, at_path schema (ph_path p) v /\ annotated v (ph_name p).
Proof. apply declared_headers. Qed.

(** ** Checked headers *)

Lemma first_some_None {A B} (f : A -> option B) l : first_some f l = None <-> Forall (fun x => f x = None) l.
Proof.
  induction l as [|x l IH]; simpl; [by split; [constructor|]|]. destruct (f x) eqn:E.
  - split; [done|]. intros H. inversion H. congruence.
  - rewrite IH, Forall_cons. by rewrite E; split; [|intros [_ ?]].
Qed.

(** The header of a parameter agrees with its argument. *)
Definition header_agrees (required : bool) (headers : obj string) (name : string) (value : any) : Prop :=
  if is_null_or_undef value then own headers ("mcp-param-" +:+ name) = None
  else (own headers ("mcp-param-" +:+ name) = None /\ required = false) \/
       exists raw text, own headers ("mcp-param-" +:+ name) = Some raw /\
         decodeHeaderValue raw = Some text /\ headerMatchesValue text value = true.

Lemma param_mismatch_None required headers message p :
  param_mismatch required headers message p = None ->
  header_agrees required headers (ph_name p)
    (valueAt (prop (prop (Some message) "params") "arguments") (ph_path p)).
Proof.
  unfold param_mismatch, header_agrees. destruct (is_null_or_undef _); [by destruct (own headers _)|].
  destruct (own headers _) as [raw|]; [|destruct required; [done|by left]].
  destruct (decodeHeaderValue raw) as [text|] eqn:Hd; [|done].
  destruct (headerMatchesValue text _) eqn:Hm; [|done]. intros _. right. by exists raw, text.
Qed.

(** A call to a listed tool that passes the header check mirrors its
    arguments: for every parameter of the tool's schema that declares a header,
    an argument with a value has that header, well formed and equal to it after
    decoding, and one without a value has none, whatever else the client sent. *)
Theorem listed_call_mirrors_arguments number_text sha256_hex server groupAllows result st n o
    headers message version schema path name node :
  valid_name n = true -> List.find (named n) (listed result) = Some (JObj o) ->
  verdict number_text sha256_hex server n o = None ->
  prop (prop (Some message) "params") "name" = Some (JStr n) ->
  own headers "mcp-protocol-version" = Some version -> String.leb HEADERS_REQUIRED_FROM version = true ->
  paramHeaderMismatch (filterToolsList number_text sha256_hex server groupAllows result st).2 server
    headers message = None ->
  own o "inputSchema" = Some schema -> path <> [] -> at_path schema path node -> annotated node name ->
  header_agrees true headers name (valueAt (prop (prop (Some message) "params") "arguments") path).
Proof.
  intros Hv Hf Hve Hname Hver Hreq Hm Hsch Hpath Hat Han.
  pose proof (filter_tools_shape number_text sha256_hex server groupAllows result st) as Hs.
  pose proof (declared_after number_text sha256_hex server groupAllows (listed result) (prepared server st)
    (mkListing ∅ [] [] []) n o ltac:(set_solver) Hv Hf Hve) as Hd.
  destruct (filterToolsList _ _ _ _ _ _) as [fl st']. destruct (filter_tools _ _ _ _ _ _) as [st1 l].
  destruct Hs as (_ & _ & Hst). cbn [fst snd] in *.
  rewrite Hst in Hm by (intros E; by rewrite E in Hf). unfold paramHeaderMismatch, declared in Hm. rewrite Hname, Hver in Hm.
  rewrite first_some_None, Forall_forall in Hm. rewrite Hsch in Hd.
  destruct (declared_headers _ _ Hd) as (_ & _ & Hex).
  specialize (Hm (mkParam name path)). apply param_mismatch_None in Hm.
  - simpl in Hm. unfold headers_required in Hm. by rewrite Hreq in Hm.
  - apply Hex. split; [done|]. by exists node.
Qed.

(** From the revision that requires them, mirrored headers that pass say what
    the body says: the method, the protocol version when the body names one, and,
    for a call, a prompt or a resource, the name or the address. *)
Theorem mirrored_headers_match headers message version :
  own headers "mcp-protocol-version" = Some version -> String.leb HEADERS_REQUIRED_FROM version = true ->
  headerMismatch headers message = None ->
  protocol_version version = true /\
  (exists m, own headers "mcp-method" = Some m /\ prop (Some message) "method" = Some (JStr m)) /\
  (forall v, prop (prop (prop (Some message) "params") "_meta") "io.modelcontextprotocol/protocolVersion" = Some v ->
     v = JStr version) /\
  match named_field (prop (Some message) "method") with
  | Some field => exists raw text, own headers "mcp-name" = Some raw /\ decodeHeaderValue raw = Some text /\
      prop (prop (Some message) "params") field = Some (JStr text)
  | None => own headers "mcp-name" = None
  end.
Proof.
  intros Hver Hreq. unfold headerMismatch, headers_required. rewrite Hver, Hreq. cbn [default option_rect].
  assert (Htext : forall v s, is_text v s = true -> v = Some (JStr s)).
  { intros v s. unfold is_text. destruct v as [[]|]; try done. by intros ->%String.eqb_eq. }
  destruct (protocol_version version); [|done]. cbn [negb andb].
  destruct (match prop _ "io.modelcontextprotocol/protocolVersion" with Some _ => _ | None => _ end) eqn:Hb; [done|].
  destruct (own headers "mcp-method") as [m|]; [|done].
  destruct (is_text (prop (Some message) "method") m) eqn:Hm; [|done]. apply Htext in Hm. intros Hn.
  split; [done|]. split; [by exists m|]. split.
  - intros v Hbv. rewrite Hbv in Hb. apply negb_false_iff, Htext in Hb. injection Hb as ->. done.
  - revert Hn. unfold name_mismatch. destruct (named_field _) as [field|]; [|by destruct (own headers "mcp-name")].
    destruct (own headers "mcp-name") as [raw|]; [|done].
    destruct (decodeHeaderValue raw) as [text|] eqn:Hd; [|done].
    destruct (is_text _ text) eqn:Ht; [|done]. apply Htext in Ht. by exists raw, text.
Qed.

(** A method that is named like a property every object inherits is looked up as
    if its name were mirrored: a well-formed request is refused. *)
Example inherited_method_needs_a_name :
  let headers := [("mcp-protocol-version", "2026-07-28"); ("mcp-method", "toString")] in
  headerMismatch headers (JObj [("method", JStr "toString"); ("id", JNum (num_of_Z 1))]) =
    Some "Mcp-Name header is missing" /\
  headerMismatch [("mcp-protocol-version", "2026-07-28"); ("mcp-method", "ping")]
    (JObj [("method", JStr "ping"); ("id", JNum (num_of_Z 1))]) = None.
Proof. vm_compute. done. Qed.

(** ** Concrete runs *)

Module Samples.
Definition text (n : num) : string := "0".
Definition digest (s : string) : string := s.

Definition schema : json :=
  JObj [("type", JStr "object");
        ("properties", JObj [("city", JObj [("type", JStr "string"); ("x-mcp-header", JStr "City");
                                            ("description", JStr "The city")])])].

Definition tool (n : string) (more : obj json) : obj json := [("name", JStr n); ("inputSchema", schema)] ++ more.
Definition pinned_digest : string := canonicalJson text (JObj (tool "weather" [])).

Definition server : McpServerConfig :=
  mkServer "s" "https://mcp.test" None (mkLists deny_mode {["drop"]} {["drop"]})
    {[ "weather" := pinned_digest ]} block [] [] 30000 1048576 8388608 2048 None.

Definition bad_schema : json := JObj [("x-mcp-header", JStr "City"); ("type", JStr "string")].

Definition sent : json :=
  JObj [("tools", JArr [JObj (tool "weather" []); JObj (tool "DROP" []); JObj (tool "weather" [("title", JNull)]);
                        JObj (tool "bad name" []); JNull; JObj (tool "hidden" []);
                        JObj [("name", JStr "odd"); ("inputSchema", bad_schema)]])].

Definition allows (n : string) : bool := negb (n =? "hidden")%string.
Definition start : PolicyState := mkPolicy ∅ ∅.
Definition run := filterToolsList text digest server allows (Some sent) start.

Example a_listing :
  (map tool_name (tools_of (fl_result run.1)),
   map (fun r => (rm_name r, rm_reason r)) (fl_removed run.1),
   map (fun n => toolCallDecision run.2 server (Some (JStr n))) ["weather"; "Drop"; "odd"; "hidden"]) =
  ([Some (JStr "weather")],
   [("DROP", policy); ("weather", duplicate); ("<invalid tool name>", invalid_name);
    ("<invalid tool name>", invalid_name); ("hidden", group); ("odd", invalid_header)],
   [None; Some policy; Some invalid_header; None]).
Proof. vm_compute. reflexivity. Qed.

(** The same tool with another definition drifts from its pin. *)
Example a_drift :
  let changed := JObj [("tools", JArr [JObj (tool "weather" [("description", JStr "new")])])] in
  let r := filterToolsList text digest server allows (Some changed) run.2 in
  (map rm_reason (fl_removed r.1), toolCallDecision r.2 server (Some (JStr "weather"))) = ([pin], Some pin).
Proof. vm_compute. reflexivity. Qed.

Lemma start_pinned : drift_pinned server start.
Proof. intros n. set_solver. Qed.

Lemma list_and_call_agree_witness :
  let '(fl, st') := filterToolsList text digest server allows (Some sent) start in
  toolCallDecision st' server (Some (JStr "weather")) =
    verdict text digest server "weather" (tool "weather" []).
Proof.
  pose proof (list_and_call_agree text digest server allows (Some sent) start "weather" (tool "weather" [])
    start_pinned) as H.
  destruct (filterToolsList text digest server allows (Some sent) start) as [fl st'].
  destruct H as (H & _); [vm_compute; reflexivity|vm_compute; reflexivity|exact H].
Defined.

Lemma canonical_ignores_order_witness :
  canonicalJson text (JObj [("b", JNull); ("a", JBool true)]) = canonicalJson text (JObj [("a", JBool true); ("b", JNull)]).
Proof.
  apply canonical_ignores_order. apply (same_object _ [("b", JNull); ("a", JBool true)]).
  - apply (bool_decide_unpack _). vm_compute. exact I.
  - repeat constructor.
  - apply Permutation_swap.
Defined.

Lemma parameter_headers_exact_witness : NoDup (map ph_name [mkParam "city" ["city"]]).
Proof. apply (parameter_headers_exact schema). vm_compute. reflexivity. Defined.

Definition call : json :=
  JObj [("method", JStr "tools/call");
        ("params", JObj [("name", JStr "weather"); ("arguments", JObj [("city", JStr "Oslo")])])].

Definition call_headers : obj string :=
  [("mcp-protocol-version", "2026-07-28"); ("mcp-method", "tools/call"); ("mcp-name", "weather");
   ("mcp-param-city", "=?base64?T3Nsbw==?=")].

Lemma listed_call_mirrors_arguments_witness :
  header_agrees true call_headers "city" (Some (JStr "Oslo")).
Proof.
  apply (listed_call_mirrors_arguments text digest server allows (Some sent) start "weather" (tool "weather" [])
    call_headers call "2026-07-28" schema ["city"] "city"
    (JObj [("type", JStr "string"); ("x-mcp-header", JStr "City"); ("description", JStr "The city")]));
    try (vm_compute; reflexivity).
  - discriminate.
  - eapply at_below; [right; left|left|constructor].
  - eexists _, _. repeat split.
Defined.

Lemma mirrored_headers_match_witness :
  exists m, own call_headers "mcp-method" = Some m /\ prop (Some call) "method" = Some (JStr m).
Proof.
  apply (mirrored_headers_match call_headers call "2026-07-28"); vm_compute; reflexivity.
Defined.
End Samples.
