(* ===== verification/McpSse.v ===== *)
(** * The filter of upstream event streams

    Models [src/gateway/src/mcp/sse.ts]: the stream of a POST or GET of the MCP
    proxy, event by event, as it passes the gateway.

    A stream is the texts its chunks decode to, and the text the decoder gives when
    it ends; strings are read as in [McpText].  [onResponse], [tooLarge] and [onEnd]
    are functions of a world, and [JSON.parse] and [JSON.stringify] are parameters,
    with the documented facts a theorem needs among its hypotheses.  The loop over
    the lines of a chunk takes fuel, and one more than the length of the buffer is
    enough ([drain_complete]). *)

From Stdlib Require Import ZArith Lia ZifyBool ZifyNat Ascii.
From stdpp Require Import base strings option list.
From S2P Require Import Prelude JsValue JsText McpText McpPolicy.

#[local] Open Scope string_scope.
#[local] Open Scope list_scope.
#[local] Arguments String.append : simpl nomatch.

Definition LF : ascii := ascii_of_N 10.
Definition CR : ascii := ascii_of_N 13.
Definition is_lf (c : ascii) : bool := (code c =? 10)%N.
Definition is_cr (c : ascii) : bool := (code c =? 13)%N.
Definition lf : string := String LF "".

(** [s.length] *)
Definition text_length (s : string) : nat := length (units s).

(** [/\r\n|\r|\n/.exec(s)]: the line, the terminator and what follows. *)
Fixpoint split_line (s : string) : option (string * string * string) :=
  match s with
  | EmptyString => None
  | String c r =>
      if is_lf c then Some ("", String c "", r)
      else if is_cr c then
        match r with
        | String d r2 => if is_lf d then Some ("", String c (String d ""), r2) else Some ("", String c "", r)
        | EmptyString => Some ("", String c "", r)
        end
      else (fun x => (String c x.1.1, x.1.2, x.2)) <$> split_line r
  end.

(** ** Events and messages *)

Definition isDataLine (line : string) : bool := (line =? "data")%string || startsWith line "data:".

(** The value of a data line. *)
Definition data_value (line : string) : option string :=
  if (line =? "data")%string then Some ""
  else match strip_prefix "data:" line with
       | Some (String c r) => Some (if (code c =? 32)%N then r else String c r)
       | Some EmptyString => Some ""
       | None => None
       end.

Fixpoint join_lf (l : list string) : string :=
  match l with
  | [] => ""
  | [x] => x
  | x :: r => x +:+ String LF (join_lf r)
  end.

Definition eventData (lines : list string) : option string :=
  match omap data_value lines with
  | [] => None
  | data => Some (join_lf data)
  end.

Definition hasProperty (v : json) (k : string) : bool :=
  match v with JObj o => hasOwn o k | _ => false end.

Definition isMessageObject (v : json) : bool := match v with JObj _ => true | _ => false end.

Definition isResponse (message : json) : bool :=
  isMessageObject message && (hasProperty message "result" || hasProperty message "error").

(** [message.id === id] for the id of a request, a string or a finite number. *)
Definition same_id (message id : json) : bool := strict_eq (prop (Some message) "id") id.

Definition isResponseTo (message : any) (id : json) : bool :=
  match message with Some m => isResponse m && same_id m id | None => false end.

Section Filter.
Context {W : Type}.
Variable JSON_parse : string -> option json.
Variable JSON_stringify : json -> string.

Definition parseMessage (data : string) : option json :=
  match JSON_parse data with
  | Some message =>
      if negb (isMessageObject message) || negb (strict_eq (prop (Some message) "jsonrpc") (JStr "2.0"))
      then None
      else if negb (isResponse message) &&
              match prop (Some message) "method" with Some (JStr _) => false | _ => true end
      then None
      else Some message
  | None => None
  end.

Record SseFilterOptions := mkOptions {
  requestId : option json;
  maxEventBytes : nat;
  onResponse : option (json -> W -> option json * W);
  tooLarge : option (W -> json * W);
  onEnd : option (W -> W)
}.

Variable opts : SseFilterOptions.

Definition sseEvent (message : json) : string :=
  "event: message" +:+ lf +:+ "data: " +:+ JSON_stringify message +:+ lf +:+ lf.

Definition rebuilt (fields : list string) (message : json) : string :=
  join_lf (fields ++ ["data: " +:+ JSON_stringify message; ""; ""]).

(** The variables of the stream, the chunks sent so far and the world. *)
Record Stream := mkStream {
  buffer : string;
  raw : string;
  lines : list string;
  failed : bool;
  sent : list string;
  world : W
}.

Definition enqueue (t : string) (s : Stream) : Stream :=
  mkStream (buffer s) (raw s) (lines s) (failed s) (sent s ++ [t]) (world s).

Definition set_world (w : W) (s : Stream) : Stream :=
  mkStream (buffer s) (raw s) (lines s) (failed s) (sent s) w.

Definition fail (s : Stream) : Stream :=
  let s := mkStream (buffer s) (raw s) (lines s) true (sent s) (world s) in
  match tooLarge opts with
  | Some f => let '(m, w) := f (world s) in enqueue (sseEvent m) (set_world w s)
  | None => s
  end.

Definition dispatch (s : Stream) : Stream :=
  let text := raw s in
  let eventLines := lines s in
  let s := mkStream (buffer s) "" [] (failed s) (sent s) (world s) in
  match eventData eventLines with
  | None => if truthy_string text then enqueue text s else s
  | Some data =>
      if negb (truthy_string data) then (if truthy_string text then enqueue text s else s)
      else match parseMessage data with
      | None => s
      | Some message =>
          let fields := List.filter (fun l => negb (isDataLine l)) eventLines in
          if negb (isResponse message) then enqueue (rebuilt fields message) s
          else match requestId opts with
          | None => s
          | Some id =>
              if negb (same_id message id) then s
              else match onResponse opts with
              | Some f =>
                  let '(replacement, w) := f message (world s) in
                  enqueue (rebuilt fields (default message replacement)) (set_world w s)
              | None => enqueue (rebuilt fields message) s
              end
          end
      end
  end.

(** A line is ready, unless its terminator may be the first half of one. *)
Definition ready (final : bool) (sep rest : string) : bool :=
  final || negb ((sep =? String CR "")%string && (rest =? "")%string).

Definition take_line (line sep rest : string) (s : Stream) : Stream :=
  let s := mkStream rest (raw s +:+ line +:+ sep) (lines s) (failed s) (sent s) (world s) in
  if (line =? "")%string then dispatch s
  else mkStream (buffer s) (raw s) (lines s ++ [line]) (failed s) (sent s) (world s).

(** The loop of [consume]. *)
Fixpoint drain (fuel : nat) (final : bool) (s : Stream) : Stream :=
  match fuel with
  | O => s
  | S f =>
      match split_line (buffer s) with
      | Some (line, sep, rest) =>
          if ready final sep rest then drain f final (take_line line sep rest s) else s
      | None => s
      end
  end.

Definition drain_all (final : bool) (s : Stream) : Stream := drain (S (String.length (buffer s))) final s.

Definition consume (final : bool) (s : Stream) : Stream :=
  let s := drain_all final s in
  if (maxEventBytes opts <? text_length (raw s) + text_length (buffer s))%nat then fail s else s.

Definition append (t : string) (s : Stream) : Stream :=
  mkStream (buffer s +:+ t) (raw s) (lines s) (failed s) (sent s) (world s).

Definition transform (chunk : string) (s : Stream) : Stream :=
  if failed s then s else consume false (append chunk s).

(** What the end of the stream adds: an incomplete event is checked too. *)
Definition last_event (s : Stream) : Stream :=
  let s := if truthy_string (buffer s)
           then mkStream "" (raw s +:+ buffer s) (lines s ++ [buffer s]) (failed s) (sent s) (world s)
           else s in
  if truthy_string (raw s) then dispatch s else s.

Definition flush (rest : string) (s : Stream) : Stream :=
  if failed s then s else
  let s := consume true (append rest s) in
  if failed s then s else
  let s := last_event s in
  match onEnd opts with Some f => set_world (f (world s)) s | None => s end.

Definition start (w : W) : Stream := mkStream "" "" [] false [] w.

Definition filterSseStream (chunks : list string) (rest : string) (w : W) : Stream :=
  flush rest (foldl (fun s c => transform c s) (start w) chunks).
End Filter.

(** ** A client of the stream

    Reads text character by character, as the event stream format says: the
    lines of the current event, and the events that a blank line ended. *)

Record Reader := mkReader { after_cr : bool; current : string; event : list string; events : list (list string) }.

Definition end_line (cr : bool) (r : Reader) : Reader :=
  if (current r =? "")%string then mkReader cr "" [] (events r ++ [event r])
  else mkReader cr "" (event r ++ [current r]) (events r).

Definition read_char (r : Reader) (c : ascii) : Reader :=
  if is_lf c then (if after_cr r then mkReader false (current r) (event r) (events r) else end_line false r)
  else if is_cr c then end_line true r
  else mkReader false (current r +:+ String c "") (event r) (events r).

Fixpoint read (r : Reader) (s : string) : Reader :=
  match s with
  | EmptyString => r
  | String c t => read (read_char r c) t
  end.

Definition reader : Reader := mkReader false "" [] [].

(** Every event a client may act on, an unfinished one at the end included. *)
Definition all_events (r : Reader) : list (list string) :=
  events r ++ [event r ++ if (current r =? "")%string then [] else [current r]].

Fixpoint concat (l : list string) : string :=
  match l with [] => "" | x :: r => x +:+ concat r end.

(** U+FEFF. *)
Definition BOM : string := text_of [65279%N].

(** The events of a response body: a byte order mark at its start is dropped. *)
Definition client_events (body : string) : list (list string) :=
  all_events (read reader (match strip_prefix BOM body with Some r => r | None => body end)).

Lemma read_app r a b : read r (a +:+ b) = read (read r a) b.
Proof. revert r. induction a as [|c a IH]; intros r; simpl; [done|]. apply IH. Qed.

Lemma concat_snoc l x : concat (l ++ [x]) = concat l +:+ x.
Proof.
  induction l as [|y l IH]; simpl; [by rewrite sapp_nil_r|]. by rewrite IH, sapp_assoc.
Qed.

(** Text without line terminators. *)
Definition plain (s : string) : bool := sforallb (fun c => negb (is_lf c || is_cr c)) s.

Lemma read_plain s r :
  plain s = true -> s <> "" ->
  read r s = mkReader false (current r +:+ s) (event r) (events r).
Proof.
  revert r. induction s as [|c s IH]; intros r Hp Hs; [done|]. cbn [plain sforallb] in Hp.
  apply andb_true_iff in Hp as [Hc Hp]. apply negb_true_iff, orb_false_iff in Hc as [Hlf Hcr].
  cbn [read]. unfold read_char. rewrite Hlf, Hcr. destruct s as [|d s]; [done|].
  rewrite IH by done. simpl. by rewrite sapp_assoc.
Qed.

(** One of the three terminators. *)
Inductive terminator : string -> Prop :=
| term_lf : terminator (String LF "")
| term_cr : terminator (String CR "")
| term_crlf : terminator (String CR (String LF "")).

Definition is_cr_only (sep : string) : bool := (sep =? String CR "")%string.

Lemma split_line_spec s line sep rest :
  split_line s = Some (line, sep, rest) ->
  s = line +:+ sep +:+ rest /\ plain line = true /\ terminator sep /\
  (is_cr_only sep = true -> match rest with String c _ => is_lf c = false | EmptyString => True end).
Proof.
  assert (Hlf : forall c, is_lf c = true -> c = LF).
  { intros c Hc%N.eqb_eq. unfold LF. rewrite <- Hc. symmetry. apply ascii_N_embedding. }
  assert (Hcr : forall c, is_cr c = true -> c = CR).
  { intros c Hc%N.eqb_eq. unfold CR. rewrite <- Hc. symmetry. apply ascii_N_embedding. }
  revert line sep rest. induction s as [|c s IH]; intros line sep rest; simpl; [done|].
  destruct (is_lf c) eqn:El.
  { intros [= <- <- <-]. apply Hlf in El as ->. by split_and!; [| |constructor|]. }
  destruct (is_cr c) eqn:Ec.
  { apply Hcr in Ec as ->. destruct s as [|d s].
    - intros [= <- <- <-]. by split_and!; [| |constructor|].
    - destruct (is_lf d) eqn:Ed; intros [= <- <- <-].
      + apply Hlf in Ed as ->. by split_and!; [| |constructor|].
      + by split_and!; [| |constructor|]. }
  destruct (split_line s) as [[[l2 s2] r2]|]; [|done]. intros [= <- <- <-].
  destruct (IH l2 s2 r2 eq_refl) as (-> & Hp & Ht & Hr). split; [done|]. split; [|done].
  cbn [plain sforallb]. by rewrite El, Ec.
Qed.

Lemma split_line_None s : split_line s = None -> plain s = true.
Proof.
  induction s as [|c s IH]; simpl; [done|]. destruct (is_lf c) eqn:El; [done|].
  destruct (is_cr c) eqn:Ec; [destruct s as [|d s]; [done|by destruct (is_lf d)]|].
  intros H. cbn [plain sforallb]. rewrite El, Ec. apply IH. by destruct (split_line s).
Qed.

(** A client that is not in the middle of a line reads a line and its end. *)
Lemma read_line r line sep :
  current r = "" -> plain line = true -> terminator sep -> line <> "" ->
  read r (line +:+ sep) = mkReader (is_cr_only sep) "" (event r ++ [line]) (events r).
Proof.
  intros Hc Hp Ht Hl. rewrite read_app, (read_plain line) by done. rewrite Hc. cbn [String.append].
  apply String.eqb_neq in Hl.
  destruct Ht; cbn [read]; unfold read_char, end_line; cbn -[String.eqb]. all: by rewrite Hl.
Qed.

Lemma read_blank r sep :
  current r = "" -> terminator sep -> (after_cr r = true -> event r = [] \/ sep <> String LF "") ->
  let r' := read r sep in
  current r' = "" /\ event r' = [] /\ after_cr r' = is_cr_only sep /\
    (events r' = events r ++ [event r] \/ (event r = [] /\ events r' = events r)).
Proof.
  intros Hc Ht Hcr. destruct r as [cr cur ev evs]. simpl in *. subst cur.
  destruct Ht; cbn [read]; unfold read_char, end_line; simpl.
  - destruct cr; simpl; [|by repeat split; left]. destruct (Hcr eq_refl) as [->|]; [|done]. by repeat split; right.
  - by repeat split; left.
  - by repeat split; left.
Qed.

Section Checked.
Context {W : Type}.
Variable JSON_parse : string -> option json.
Variable JSON_stringify : json -> string.
Variable opts : SseFilterOptions (W := W).

(** A message is written on one line, and not as nothing. *)
Hypothesis stringify_plain : forall v, plain (JSON_stringify v) = true.

(** What the gateway may release: a message that is not a response, the response
    to the request once it is checked, and its own error. *)
Definition released (m : json) : Prop :=
  isResponse m = false \/
  (exists m0 id, isResponse m0 = true /\ requestId opts = Some id /\ same_id m0 id = true /\
     match onResponse opts with
     | None => m = m0
     | Some f => exists w, m = default m0 (f m0 w).1
     end) \/
  (exists f w, tooLarge opts = Some f /\ m = (f w).1).

(** An event that says nothing, or a released message. *)
Definition harmless (ev : list string) : Prop :=
  eventData ev = None \/ eventData ev = Some "" \/
  exists m, eventData ev = Some (JSON_stringify m) /\ released m.

(** The state of the stream as its client sees it: what was sent so far read, the
    event being collected would be read as its lines. *)
Record follows (final : bool) (s : Stream (W := W)) : Prop := {
  fo_current : current (read reader (concat (sent s))) = "";
  fo_event : event (read reader (concat (sent s))) = [];
  fo_events : Forall harmless (events (read reader (concat (sent s))));
  fo_raw : forall r, current r = "" -> event r = [] ->
    current (read r (raw s)) = "" /\ event (read r (raw s)) = lines s /\ events (read r (raw s)) = events r /\
    (lines s <> [] -> after_cr (read r (raw s)) = true ->
       match buffer s with String c _ => is_lf c = false | EmptyString => final = true end);
  fo_lines : Forall (fun l => plain l = true /\ l <> "") (lines s);
  fo_empty : lines s = [] -> raw s = ""
}.

#[local] Abbreviation dispatched := (dispatch JSON_parse JSON_stringify opts).

Definition solid (l : string) : Prop := plain l = true /\ l <> "".

Lemma plain_app a b : plain (a +:+ b) = plain a && plain b.
Proof. unfold plain. induction a as [|c a IH]; simpl; [done|]. by rewrite IH, andb_assoc. Qed.

Lemma read_lines ls r :
  current r = "" -> Forall solid ls ->
  let r' := read r (concat (map (fun x => x +:+ lf) ls)) in
  current r' = "" /\ event r' = event r ++ ls /\ events r' = events r /\ (ls <> [] -> after_cr r' = false).
Proof.
  revert r. induction ls as [|l ls IH]; intros r Hc H; [by rewrite app_nil_r|].
  apply Forall_cons in H as [[Hp Hl] Hr]. cbn [map concat]. cbv zeta. rewrite read_app.
  rewrite (read_line r l lf) by (done || apply term_lf).
  destruct (IH (mkReader (is_cr_only lf) "" (event r ++ [l]) (events r)) eq_refl Hr)
    as (H1 & H2 & H3 & H4). cbn [event events] in *.
  split_and!; [done|by rewrite H2, <- app_assoc|done|]. intros _.
  destruct ls as [|l2 ls]; [done|by apply H4].
Qed.

Lemma read_block ls r :
  current r = "" -> event r = [] -> Forall solid ls -> ls <> [] ->
  let r' := read r (concat (map (fun x => x +:+ lf) ls) +:+ lf) in
  current r' = "" /\ event r' = [] /\ events r' = events r ++ [ls].
Proof.
  intros Hc He Hs Hl. cbv zeta. rewrite read_app.
  destruct (read_lines ls r Hc Hs) as (H1 & H2 & H3 & H4). specialize (H4 Hl).
  rewrite He in H2. simpl in H2.
  destruct (read_blank (read r (concat (map (fun x => x +:+ lf) ls))) lf H1 ltac:(constructor))
    as (B1 & B2 & _ & [B3|[B3 _]]); [by rewrite H4| |congruence].
  split_and!; [done|done|]. by rewrite B3, H2, H3.
Qed.

Lemma join_block fields d :
  join_lf (fields ++ [d; ""; ""]) = concat (map (fun x => x +:+ lf) (fields ++ [d])) +:+ lf.
Proof.
  assert (Hcons : forall x l, l <> [] -> join_lf (x :: l) = x +:+ lf +:+ join_lf l) by (by intros x []).
  induction fields as [|x fields IH].
  - simpl. by rewrite sapp_nil_r, sapp_assoc.
  - cbn [app map concat]. rewrite Hcons, IH by (by destruct fields). by rewrite !sapp_assoc.
Qed.

Lemma data_value_other l : isDataLine l = false -> data_value l = None.
Proof.
  unfold isDataLine, data_value, startsWith. intros [-> Hp]%orb_false_iff.
  destruct (strip_prefix "data:" l) as [r|] eqn:E; [|done]. exfalso.
  assert (Hsp : forall p s r, strip_prefix p s = Some r -> String.prefix p s = true).
  { clear. induction p as [|a p IH]; intros [|b s] r; simpl; try done.
    destruct (Ascii.eqb_spec a b) as [->|]; [|done]. destruct (ascii_dec b b); [|done]. apply IH. }
  by rewrite (Hsp _ _ _ E) in Hp.
Qed.

Lemma data_of_block fields x :
  Forall (fun l => isDataLine l = false) fields -> eventData (fields ++ ["data: " +:+ x]) = Some x.
Proof.
  intros Hf. unfold eventData. rewrite omap_app.
  assert (omap data_value fields = []) as ->; [|done].
  induction Hf as [|l fields Hl Hf IH]; [done|]. simpl. by rewrite data_value_other.
Qed.

Lemma data_line_solid x : plain x = true -> solid ("data: " +:+ x).
Proof. intros Hx. split; [by rewrite plain_app, Hx|done]. Qed.

(** A block that carries a message is read as one event with its data. *)
Lemma read_message fields m r :
  current r = "" -> event r = [] -> Forall solid fields -> Forall (fun l => isDataLine l = false) fields ->
  let r' := read r (rebuilt JSON_stringify fields m) in
  current r' = "" /\ event r' = [] /\ exists ev, events r' = events r ++ [ev] /\
    eventData ev = Some (JSON_stringify m).
Proof.
  intros Hc He Hs Hd. unfold rebuilt. rewrite join_block.
  destruct (read_block (fields ++ ["data: " +:+ JSON_stringify m]) r Hc He) as (H1 & H2 & H3).
  - apply Forall_app. split; [done|]. constructor; [|done]. apply data_line_solid, stringify_plain.
  - by destruct fields.
  - split_and!; [done|done|]. eexists. split; [exact H3|]. by apply data_of_block.
Qed.

Lemma sseEvent_rebuilt m : sseEvent JSON_stringify m = rebuilt JSON_stringify ["event: message"] m.
Proof.
  reflexivity.
Qed.

(** What one dispatch sends. *)
Lemma dispatch_spec (s : Stream) :
  exists w, (dispatched s = mkStream (buffer s) "" [] (failed s) (sent s) w) \/
    (dispatched s = mkStream (buffer s) "" [] (failed s) (sent s ++ [raw s]) w /\
       (eventData (lines s) = None \/ eventData (lines s) = Some "")) \/
    exists m, dispatched s = mkStream (buffer s) "" [] (failed s)
        (sent s ++ [rebuilt JSON_stringify (List.filter (fun l => negb (isDataLine l)) (lines s)) m]) w /\ released m.
Proof.
  unfold dispatch. destruct (eventData (lines s)) as [data|] eqn:Hd.
  2:{ exists (world s). destruct (truthy_string (raw s)); [right; left|by left]. by split; [|left]. }
  destruct (truthy_string data) eqn:Ht; simpl.
  2:{ exists (world s). destruct (truthy_string (raw s)); [right; left|by left]. split; [done|right].
      by destruct data. }
  destruct (parseMessage JSON_parse data) as [m0|]; [|exists (world s); by left].
  destruct (isResponse m0) eqn:Hr; simpl.
  2:{ exists (world s). right; right. exists m0. split; [done|by left]. }
  destruct (requestId opts) as [id|] eqn:Hid; [|exists (world s); by left].
  destruct (same_id m0 id) eqn:Hs; simpl; [|exists (world s); by left].
  destruct (onResponse opts) as [f|] eqn:Hf.
  - destruct (f m0 (world s)) as [rep w] eqn:Hw. exists w. right; right. exists (default m0 rep). split; [done|].
    right; left. exists m0, id. rewrite Hf. repeat split; try done. exists (world s). by rewrite Hw.
  - exists (world s). right; right. exists m0. split; [done|]. right; left. exists m0, id. by rewrite Hf.
Qed.

(** Sending a message keeps the client between two events. *)
Lemma follows_message final (s s' : Stream (W := W)) fields m :
  follows final s -> sent s' = sent s ++ [rebuilt JSON_stringify fields m] ->
  Forall solid fields -> Forall (fun l => isDataLine l = false) fields -> released m ->
  current (read reader (concat (sent s'))) = "" /\ event (read reader (concat (sent s'))) = [] /\
  Forall harmless (events (read reader (concat (sent s')))).
Proof.
  intros [Hc He Hev _ _ _] -> Hs Hd Hm. rewrite concat_snoc, read_app.
  destruct (read_message fields m _ Hc He Hs Hd) as (H1 & H2 & ev & H3 & H4).
  split_and!; [done|done|]. rewrite H3. apply Forall_app. split; [done|]. constructor; [|done].
  right; right. by exists m.
Qed.

Lemma fields_ok ls : Forall solid ls ->
  Forall solid (List.filter (fun l => negb (isDataLine l)) ls) /\
  Forall (fun l => isDataLine l = false) (List.filter (fun l => negb (isDataLine l)) ls).
Proof.
  rewrite !Forall_forall. intros H. split; intros l [Hl Hn]%filter_elem; [by apply H|]. by apply negb_true_iff in Hn.
Qed.

Lemma follows_dispatch final s line sep rest :
  follows final s -> buffer s = line +:+ sep +:+ rest -> line = "" -> terminator sep ->
  follows final (dispatched (mkStream rest (raw s +:+ line +:+ sep) (lines s) (failed s) (sent s) (world s))).
Proof.
  intros Hs Hb -> Ht. pose proof Hs as [Hc He Hev Hraw Hl Hempty]. cbn [String.append] in *.
  set (s1 := mkStream rest (raw s +:+ sep) (lines s) (failed s) (sent s) (world s)).
  assert (Hread : forall r, current r = "" -> event r = [] ->
    current (read r (raw s1)) = "" /\ event (read r (raw s1)) = [] /\
    (events (read r (raw s1)) = events r ++ [lines s] \/ (lines s = [] /\ events (read r (raw s1)) = events r))).
  { intros r Hrc Hre. destruct (Hraw r Hrc Hre) as (H1 & H2 & H3 & H4). unfold s1. simpl. rewrite read_app.
    destruct (read_blank (read r (raw s)) sep H1 Ht) as (B1 & B2 & _ & B3).
    - intros Hcr. rewrite H2. destruct (lines s) as [|l ls]; [by left|right]. specialize (H4 ltac:(done) Hcr).
      intros ->. rewrite Hb in H4. done.
    - split_and!; [done|done|]. rewrite H2, H3 in B3. exact B3. }
  assert (Hrest : forall w snt, current (read reader (concat snt)) = "" -> event (read reader (concat snt)) = [] ->
    Forall harmless (events (read reader (concat snt))) ->
    follows final (mkStream rest "" [] (failed s) snt w)).
  { intros w snt H1 H2 H3. by split. }
  unfold s1 in Hread. cbn [raw] in Hread.
  destruct (dispatch_spec s1) as (w & [->|[[-> Hd]|(m & -> & Hm)]]); simpl.
  - by apply Hrest.
  - destruct (Hread _ Hc He) as (H1 & H2 & H3). apply Hrest; rewrite concat_snoc, read_app; try done.
    destruct H3 as [->|[_ ->]]; [|done]. apply Forall_app. split; [done|]. constructor; [|done].
    destruct Hd as [Hd|Hd]; [by left|by right; left].
  - destruct (fields_ok (lines s) Hl) as [F1 F2].
    destruct (follows_message final s (mkStream rest "" [] (failed s) (sent s ++ [rebuilt JSON_stringify _ m]) w)
      _ m Hs eq_refl F1 F2 Hm) as (H1 & H2 & H3). by apply Hrest.
Qed.

Lemma follows_take final s line sep rest :
  follows final s -> split_line (buffer s) = Some (line, sep, rest) -> ready final sep rest = true ->
  follows final (take_line JSON_parse JSON_stringify opts line sep rest s).
Proof.
  intros Hs Hsp Hrd. destruct (split_line_spec _ _ _ _ Hsp) as (Hb & Hp & Ht & Hnl). unfold take_line.
  destruct (String.eqb_spec line "") as [->|Hne]; [by eapply follows_dispatch|].
  destruct Hs as [Hc He Hev Hraw Hl Hempty].
  split; cbn [sent raw lines buffer]; try done.
  - intros r Hrc Hre. destruct (Hraw r Hrc Hre) as (H1 & H2 & H3 & _). rewrite read_app, read_line by done.
    rewrite H2, H3. split_and!; try done. intros _ Hcr. specialize (Hnl Hcr).
    destruct rest as [|c rest]; [|done]. unfold ready in Hrd. destruct final; [done|].
    unfold is_cr_only in Hcr. simpl in Hcr. rewrite Hcr in Hrd. done.
  - apply Forall_app. split; [done|]. by repeat constructor.
  - by destruct (lines s).
Qed.

Lemma follows_drain fuel final s : follows final s -> follows final (drain JSON_parse JSON_stringify opts fuel final s).
Proof.
  revert s. induction fuel as [|f IH]; intros s Hs; simpl; [done|].
  destruct (split_line (buffer s)) as [[[line sep] rest]|] eqn:E; [|done].
  destruct (ready final sep rest) eqn:Hr; [|done]. apply IH. by apply follows_take.
Qed.

Lemma follows_fail final s : follows final s -> follows final (fail JSON_stringify opts s).
Proof.
  intros Hs. unfold fail. destruct (tooLarge opts) as [f|] eqn:Hf.
  - cbn [world]. destruct (f (world s)) as [m w] eqn:Hw. rewrite sseEvent_rebuilt.
    destruct (follows_message final s (mkStream (buffer s) (raw s) (lines s) true
        (sent s ++ [rebuilt JSON_stringify ["event: message"] m]) w) ["event: message"] m Hs eq_refl) as (H1 & H2 & H3).
    + by repeat constructor.
    + by repeat constructor.
    + right; right. exists f, (world s). by rewrite Hw.
    + destruct Hs. by split.
  - destruct Hs. by split.
Qed.

Lemma follows_consume final s : follows final s -> follows final (consume JSON_parse JSON_stringify opts final s).
Proof.
  intros Hs. unfold consume, drain_all. destruct (_ <? _)%nat; [apply follows_fail|]; by apply follows_drain.
Qed.

Lemma follows_append final s t : follows false s -> follows final (append t s).
Proof.
  intros [Hc He Hev Hraw Hl Hempty]. split; try done. cbn [raw lines buffer append].
  intros r Hrc Hre. destruct (Hraw r Hrc Hre) as (H1 & H2 & H3 & H4). split_and!; try done.
  intros Hn Hcr. specialize (H4 Hn Hcr). by destruct (buffer s) as [|c b].
Qed.

Lemma buffer_dispatch s : buffer (dispatched s) = buffer s.
Proof. by destruct (dispatch_spec s) as (w & [->|[[-> _]|(m & -> & _)]]). Qed.

Lemma buffer_take line sep rest s :
  buffer (take_line JSON_parse JSON_stringify opts line sep rest s) = rest.
Proof. unfold take_line. destruct (line =? "")%string; [apply buffer_dispatch|done]. Qed.

(** The fuel of the loop is enough: no line that is ready is left. *)
Lemma drain_complete final s :
  match split_line (buffer (drain_all JSON_parse JSON_stringify opts final s)) with
  | Some (_, sep, rest) => ready final sep rest = false
  | None => True
  end.
Proof.
  unfold drain_all. assert (Hlen : (String.length (buffer s) < S (String.length (buffer s)))%nat) by lia.
  revert Hlen. generalize (S (String.length (buffer s))) as n. intros n. revert s.
  induction n as [|n IH]; intros s Hlen; [lia|]. simpl.
  destruct (split_line (buffer s)) as [[[line sep] rest]|] eqn:E; [|by rewrite E].
  destruct (ready final sep rest) eqn:Hr; [|by rewrite E]. apply IH. rewrite buffer_take.
  destruct (split_line_spec _ _ _ _ E) as (Hb & _ & Ht & _). rewrite Hb, !slength_app in Hlen.
  destruct Ht; simpl in Hlen; lia.
Qed.

Lemma drained_plain s : plain (buffer (drain_all JSON_parse JSON_stringify opts true s)) = true.
Proof.
  pose proof (drain_complete true s) as H. destruct (split_line _) as [[[l sep] rest]|] eqn:E; [done|].
  by apply split_line_None.
Qed.

Lemma boundary_harmless (r : Reader) :
  current r = "" -> event r = [] -> Forall harmless (events r) -> Forall harmless (all_events r).
Proof.
  intros Hc He Hev. unfold all_events. rewrite Hc, He. apply Forall_app. split; [done|].
  constructor; [by left|done].
Qed.

Lemma follows_harmless final s :
  follows final s -> Forall harmless (all_events (read reader (concat (sent s)))).
Proof. intros []. by apply boundary_harmless. Qed.

(** The event at the end of the stream. *)
Lemma last_event_harmless s :
  follows true s -> plain (buffer s) = true ->
  Forall harmless (all_events (read reader (concat (sent (last_event JSON_parse JSON_stringify opts s))))).
Proof.
  intros Hs Hp. pose proof Hs as [Hc He Hev Hraw Hl Hempty]. unfold last_event.
  set (s1 := if truthy_string (buffer s) then _ else s).
  assert (H1 : sent s1 = sent s /\ Forall solid (lines s1) /\
    forall r, current r = "" -> event r = [] ->
      all_events (read r (raw s1)) = events r ++ [lines s1]).
  { unfold s1, truthy_string. destruct (String.eqb_spec (buffer s) "") as [Hb|Hb]; simpl.
    - split_and!; [done|done|]. intros r Hrc Hre. destruct (Hraw r Hrc Hre) as (R1 & R2 & R3 & _).
      unfold all_events. rewrite R1, R2, R3. by rewrite app_nil_r.
    - split_and!; [done|apply Forall_app; split; [done|by repeat constructor]|].
      intros r Hrc Hre. destruct (Hraw r Hrc Hre) as (R1 & R2 & R3 & _).
      rewrite read_app, (read_plain (buffer s)) by done. unfold all_events. simpl. rewrite R1, R2, R3. simpl.
      by destruct (String.eqb_spec (buffer s) ""). }
  destruct H1 as (Hsent & Hlines & Hread).
  assert (Hsame : Forall harmless (all_events (read reader (concat (sent s1))))).
  { rewrite Hsent. by apply boundary_harmless. }
  destruct (truthy_string (raw s1)); [|done].
  destruct (dispatch_spec s1) as (w & [->|[[-> Hd]|(m & -> & Hm)]]); cbn [sent].
  - done.
  - rewrite Hsent, concat_snoc, read_app, (Hread _ Hc He). apply Forall_app. split; [done|].
    constructor; [|done]. destruct Hd as [Hd|Hd]; [by left|by right; left].
  - destruct (fields_ok (lines s1) Hlines) as [F1 F2]. rewrite Hsent.
    destruct (follows_message true s (mkStream (buffer s) "" [] (failed s)
      (sent s ++ [rebuilt JSON_stringify _ m]) w) _ m Hs eq_refl F1 F2 Hm) as (H1 & H2 & H3).
    by apply boundary_harmless.
Qed.

Lemma buffer_fail (s : Stream (W := W)) : failed (fail JSON_stringify opts s) = true.
Proof. unfold fail. destruct (tooLarge opts); [|done]. by destruct (_ (world _)). Qed.

Lemma flush_harmless rest s :
  follows false s ->
  Forall harmless (all_events (read reader (concat (sent (flush JSON_parse JSON_stringify opts rest s))))).
Proof.
  intros Hs. unfold flush. destruct (failed s); [by eapply follows_harmless|].
  pose proof (follows_append true s rest Hs) as Ha.
  pose proof (follows_consume true _ Ha) as Hc. unfold consume in *.
  set (d := drain_all _ _ _ _ _) in *.
  destruct (_ <? _)%nat.
  { rewrite buffer_fail. by eapply follows_harmless. }
  destruct (failed d); [by eapply follows_harmless|].
  assert (Hl : Forall harmless (all_events (read reader
    (concat (sent (last_event JSON_parse JSON_stringify opts d)))))).
  { apply last_event_harmless; [done|apply drained_plain]. }
  destruct (onEnd opts); exact Hl.
Qed.

(** What a client reads of a filtered stream. *)
Lemma stream_harmless chunks rest w :
  let body := concat (sent (filterSseStream JSON_parse JSON_stringify opts chunks rest w)) in
  strip_prefix BOM body = None -> Forall harmless (client_events body).
Proof.
  cbv zeta. unfold client_events. intros ->. unfold filterSseStream. apply flush_harmless.
  assert (H : follows false (start w)).
  { by split. }
  revert H. generalize (start w) as s. induction chunks as [|c chunks IH]; intros s Hs; [done|].
  simpl. apply IH. unfold transform. destruct (failed s); [done|].
  by apply follows_consume, follows_append.
Qed.

(** [C25] A client reads only what the gateway checked: whatever an upstream sends
    and however it is cut into chunks, each event a client finds in the body, read
    by the rules of the format, has no data, or its data is one message the
    gateway wrote that is not a response, is the checked response to the client's
    own request, or is the gateway's own error; on a stream without a request no
    response is read at all.  The body must not begin with a byte order mark. *)
Theorem client_reads_only_checked chunks rest w :
  let body := concat (sent (filterSseStream JSON_parse JSON_stringify opts chunks rest w)) in
  strip_prefix BOM body = None -> Forall harmless (client_events body).
Proof. apply stream_harmless. Qed.
End Checked.

(** ** Chunks *)

Section Chunks.
Context {W : Type}.
Variable JSON_parse : string -> option json.
Variable JSON_stringify : json -> string.
Variable opts : SseFilterOptions (W := W).

#[local] Abbreviation take := (take_line JSON_parse JSON_stringify opts).
#[local] Abbreviation drained := (drain_all JSON_parse JSON_stringify opts).

Lemma drain_fuel final n m s :
  (String.length (buffer s) < n)%nat -> (String.length (buffer s) < m)%nat ->
  drain JSON_parse JSON_stringify opts n final s = drain JSON_parse JSON_stringify opts m final s.
Proof.
  revert m s. induction n as [|n IH]; intros [|m] s Hn Hm; try lia. simpl.
  destruct (split_line (buffer s)) as [[[line sep] rest]|] eqn:E; [|done].
  destruct (ready final sep rest); [|done].
  destruct (split_line_spec _ _ _ _ E) as (Hb & _ & Ht & _). rewrite Hb, !slength_app in Hn, Hm.
  apply IH; rewrite buffer_take; destruct Ht; simpl in *; lia.
Qed.

Lemma drained_step final s line sep rest :
  split_line (buffer s) = Some (line, sep, rest) -> ready final sep rest = true ->
  drained final s = drained final (take line sep rest s).
Proof.
  intros E Hr. unfold drain_all at 1. simpl. rewrite E, Hr. unfold drain_all. apply drain_fuel; [|lia].
  destruct (split_line_spec _ _ _ _ E) as (Hb & _ & Ht & _).
  rewrite buffer_take, Hb, !slength_app. destruct Ht; simpl; lia.
Qed.

Lemma drained_stop final s :
  match split_line (buffer s) with Some (_, sep, rest) => ready final sep rest = false | None => True end ->
  drained final s = s.
Proof.
  unfold drain_all. simpl. destruct (split_line (buffer s)) as [[[line sep] rest]|]; [|done]. by intros ->.
Qed.

Lemma split_line_append s t line sep rest :
  split_line s = Some (line, sep, rest) -> ready false sep rest = true ->
  split_line (s +:+ t) = Some (line, sep, rest +:+ t).
Proof.
  revert line sep rest. induction s as [|c s IH]; intros line sep rest; [done|]. cbn [split_line String.append].
  destruct (is_lf c); [by intros [= <- <- <-]|].
  destruct (is_cr c) eqn:Ec.
  - destruct s as [|d s]; cbn [String.append].
    + intros [= <- <- <-]. unfold ready. apply N.eqb_eq in Ec. unfold CR. rewrite <- Ec.
      replace (ascii_of_N (code c)) with c by (symmetry; apply ascii_N_embedding).
      by rewrite String.eqb_refl.
    + by destruct (is_lf d); intros [= <- <- <-].
  - destruct (split_line s) as [[[l2 s2] r2]|]; [|done]. intros [= <- <- <-] Hr.
    by rewrite (IH l2 s2 r2 eq_refl Hr).
Qed.

Lemma append_take t line sep rest s :
  append t (take line sep rest s) = take line sep (rest +:+ t) (append t s).
Proof.
  unfold take_line, append. cbn [raw lines failed sent world buffer].
  destruct (line =? "")%string; [|done]. unfold dispatch. cbn [raw lines failed sent world buffer].
  destruct (eventData (lines s)) as [data|]; [|by destruct (truthy_string _)].
  destruct (truthy_string data); cbn [negb]; [|by destruct (truthy_string (_ +:+ _))].
  destruct (parseMessage JSON_parse data) as [m|]; [|done]. destruct (isResponse m); [|done].
  destruct (requestId opts) as [id|]; [|done]. cbn [negb]. destruct (same_id m id); [|done]. cbn [negb].
  destruct (onResponse opts) as [f|]; [|done]. by destruct (f m (world s)).
Qed.

Lemma drained_append final t s : drained final (append t (drained false s)) = drained final (append t s).
Proof.
  assert (Hlen : exists n, String.length (buffer s) = n) by eauto. destruct Hlen as [n Hn]. revert s Hn.
  induction n as [n IH] using lt_wf_ind. intros s Hn.
  destruct (split_line (buffer s)) as [[[line sep] rest]|] eqn:E; [|by rewrite (drained_stop false s) by (by rewrite E)].
  destruct (ready false sep rest) eqn:Hr; [|by rewrite (drained_stop false s) by (by rewrite E)].
  rewrite (drained_step false s _ _ _ E Hr).
  destruct (split_line_spec _ _ _ _ E) as (Hb & _ & Ht & _).
  rewrite (IH (String.length rest)); [| |by rewrite buffer_take].
  2:{ rewrite <- Hn, Hb, !slength_app. destruct Ht; simpl; lia. }
  rewrite append_take. symmetry. apply drained_step; [by apply split_line_append|].
  unfold ready in *. destruct final; [done|]. simpl in *. apply negb_true_iff in Hr. apply negb_true_iff.
  destruct (sep =? String CR "")%string; [|done]. simpl in *. destruct rest; [done|]. done.
Qed.

Lemma append_append a b (s : Stream (W := W)) : append b (append a s) = append (a +:+ b) s.
Proof. unfold append. simpl. by rewrite sapp_assoc. Qed.

#[local] Abbreviation pass := (fun s c => transform JSON_parse JSON_stringify opts c s).

Lemma failed_drain n final s : failed (drain JSON_parse JSON_stringify opts n final s) = failed s.
Proof.
  revert s. induction n as [|n IH]; intros s; simpl; [done|].
  destruct (split_line (buffer s)) as [[[line sep] rest]|]; [|done]. destruct (ready final sep rest); [|done].
  rewrite IH. unfold take_line. destruct (line =? "")%string; [|done].
  by destruct (dispatch_spec JSON_parse JSON_stringify opts
    (mkStream rest (raw s +:+ line +:+ sep) (lines s) (failed s) (sent s) (world s)))
    as (w & [->|[[-> _]|(m & -> & _)]]).
Qed.

Lemma failed_consume final s :
  failed (consume JSON_parse JSON_stringify opts final s) = false ->
  consume JSON_parse JSON_stringify opts final s = drained final s /\ failed s = false.
Proof.
  unfold consume. destruct (_ <? _)%nat; [by rewrite buffer_fail|]. unfold drain_all. by rewrite failed_drain.
Qed.

Lemma failed_pass chunks s : failed s = true -> foldl pass s chunks = s.
Proof.
  intros Hf. induction chunks as [|c chunks IH]; simpl; [done|]. unfold transform at 2. by rewrite Hf.
Qed.

Lemma pass_chunks chunks s :
  failed (foldl pass s chunks) = false -> drained false s = s ->
  foldl pass s chunks = drained false (append (concat chunks) s) /\ failed s = false.
Proof.
  revert s. induction chunks as [|c chunks IH]; intros s Hf Hd; simpl in *.
  { unfold append. rewrite sapp_nil_r. by destruct s. }
  unfold transform at 2 in Hf. unfold transform at 2.
  destruct (failed s) eqn:Hs; [rewrite failed_pass in Hf; congruence|].
  set (s1 := consume _ _ _ false _) in *.
  destruct (failed s1) eqn:H1; [rewrite failed_pass in Hf; congruence|].
  destruct (failed_consume false (append c s) H1) as [Hc _]. fold s1 in Hc.
  destruct (IH s1 Hf) as [-> _].
  { rewrite Hc. apply drained_stop. apply drain_complete. }
  split; [|done]. by rewrite Hc, drained_append, append_append.
Qed.

(** The result of a stream that did not grow too large. *)
Definition whole (text : string) (w : W) : Stream (W := W) :=
  let s := last_event JSON_parse JSON_stringify opts (drained true (append text (start w))) in
  match onEnd opts with Some f => set_world (f (world s)) s | None => s end.

Lemma filter_whole chunks rest w :
  failed (filterSseStream JSON_parse JSON_stringify opts chunks rest w) = false ->
  filterSseStream JSON_parse JSON_stringify opts chunks rest w = whole (concat chunks +:+ rest) w.
Proof.
  unfold filterSseStream, flush, whole. destruct (failed (foldl pass (start w) chunks)) eqn:Hf; [congruence|].
  destruct (pass_chunks chunks (start w) Hf) as [-> _]; [done|].
  destruct (failed (consume _ _ _ true _)) eqn:Hc; [congruence|]. intros _.
  destruct (failed_consume true _ Hc) as [-> _]. by rewrite drained_append, append_append.
Qed.

(** How a stream is cut into chunks does not matter: two streams of the same
    text, neither of which grew too large, send a client the same chunks and
    leave the world the same, wherever the cuts fall, between the halves of a
    line terminator included. *)
Theorem chunks_do_not_matter chunks1 rest1 chunks2 rest2 w :
  let s1 := filterSseStream JSON_parse JSON_stringify opts chunks1 rest1 w in
  let s2 := filterSseStream JSON_parse JSON_stringify opts chunks2 rest2 w in
  (concat chunks1 +:+ rest1 = concat chunks2 +:+ rest2)%string ->
  failed s1 = false -> failed s2 = false ->
  sent s1 = sent s2 /\ world s1 = world s2.
Proof.
  cbv zeta. intros Heq H1 H2. by rewrite (filter_whole _ _ _ H1), (filter_whole _ _ _ H2), Heq.
Qed.
End Chunks.

(** ** The world *)

Section World.
Context {W : Type}.
Variable JSON_parse : string -> option json.
Variable JSON_stringify : json -> string.
Variable opts : SseFilterOptions (W := W).
Variable I : W -> Prop.
Hypothesis keeps_response : forall f m w, onResponse opts = Some f -> I w -> I (f m w).2.
Hypothesis keeps_too_large : forall f w, tooLarge opts = Some f -> I w -> I (f w).2.
Hypothesis keeps_end : forall f w, onEnd opts = Some f -> I w -> I (f w).

Lemma dispatch_keeps s : I (world s) -> I (world (dispatch JSON_parse JSON_stringify opts s)).
Proof.
  intros Hw. unfold dispatch. cbn [world]. destruct (eventData (lines s)) as [data|]; [|by destruct (truthy_string _)].
  destruct (truthy_string data); cbn [negb]; [|by destruct (truthy_string _)].
  destruct (parseMessage JSON_parse data) as [m|]; [|done]. destruct (isResponse m); [|done]. cbn [negb].
  destruct (requestId opts) as [id|]; [|done]. destruct (same_id m id); [|done]. cbn [negb].
  destruct (onResponse opts) as [f|] eqn:Hf; [|done].
  pose proof (keeps_response f m (world s) eq_refl Hw) as H. by destruct (f m (world s)).
Qed.

Lemma drain_keeps n final s : I (world s) -> I (world (drain JSON_parse JSON_stringify opts n final s)).
Proof.
  revert s. induction n as [|n IH]; intros s Hw; simpl; [done|].
  destruct (split_line (buffer s)) as [[[line sep] rest]|]; [|done]. destruct (ready final sep rest); [|done].
  apply IH. unfold take_line. by destruct (line =? "")%string; [apply dispatch_keeps|].
Qed.

Lemma consume_keeps final s : I (world s) -> I (world (consume JSON_parse JSON_stringify opts final s)).
Proof.
  intros Hw. unfold consume, drain_all. pose proof (drain_keeps (S (String.length (buffer s))) final s Hw) as Hd.
  destruct (_ <? _)%nat; [|done]. unfold fail. destruct (tooLarge opts) as [f|] eqn:Hf; [|done]. cbn [world].
  pose proof (keeps_too_large f _ eq_refl Hd) as H. by destruct (f _).
Qed.

(** What the callbacks keep, the stream keeps. *)
Lemma world_invariant chunks rest w :
  I w -> I (world (filterSseStream JSON_parse JSON_stringify opts chunks rest w)).
Proof.
  intros Hw. unfold filterSseStream.
  assert (Hs : I (world (foldl (fun s c => transform JSON_parse JSON_stringify opts c s) (start w) chunks))).
  { assert (H0 : I (world (start w))) by done. revert H0. generalize (start w) as s.
    induction chunks as [|c chunks IH]; intros s Hs; [done|]. simpl. apply IH.
    unfold transform. destruct (failed s); [done|]. by apply consume_keeps. }
  revert Hs. generalize (foldl (fun s c => transform JSON_parse JSON_stringify opts c s) (start w) chunks) as s.
  intros s Hs. unfold flush. destruct (failed s); [done|].
  pose proof (consume_keeps true (append rest s) Hs) as Hc. destruct (failed (consume _ _ _ _ _)); [done|].
  assert (Hl : I (world (last_event JSON_parse JSON_stringify opts
    (consume JSON_parse JSON_stringify opts true (append rest s))))).
  { unfold last_event. destruct (truthy_string (buffer _)); cbn [raw];
      (destruct (truthy_string _); [by apply dispatch_keeps|done]). }
  destruct (onEnd opts) as [f|] eqn:Hf; [|done]. by apply (keeps_end f).
Qed.
End World.

(** ** Concrete runs *)

Module Samples.
Definition nl : string := lf.
Definition one : json := JNum (num_of_Z 1).
Definition answer (id : json) : json := JObj [("jsonrpc", JStr "2.0"); ("id", id); ("result", JNull)].
Definition note : json := JObj [("jsonrpc", JStr "2.0"); ("method", JStr "notifications/progress")].
Definition blocked : json := JObj [("jsonrpc", JStr "2.0"); ("id", one); ("error", JNull)].

(** A language of three messages. *)
Definition parse (s : string) : option json :=
  if (s =? "answer")%string then Some (answer one)
  else if (s =? "other")%string then Some (answer (JStr "x"))
  else if (s =? "note")%string then Some note else None.

Definition print (v : json) : string :=
  if hasProperty v "error" then "blocked" else if hasProperty v "method" then "note" else "answer".

Lemma print_plain v : plain (print v) = true.
Proof. unfold print. by destruct (hasProperty v "error"), (hasProperty v "method"). Qed.

(** Every response is replaced, and counted. *)
Definition options : SseFilterOptions (W := nat) :=
  mkOptions (Some one) 100 (Some (fun m n => (Some blocked, S n))) (Some (fun n => (note, n))) None.

Definition get : SseFilterOptions (W := nat) := mkOptions None 100 None None None.

Definition run (opts : SseFilterOptions (W := nat)) (chunks : list string) :=
  let s := filterSseStream parse print opts chunks "" 0 in (sent s, world s, failed s).

Example an_answer :
  run options ["id: 7" +:+ nl +:+ "data: ans"; "wer" +:+ nl +:+ nl +:+ ": ping" +:+ nl; nl +:+ "data: other" +:+ nl +:+ nl] =
  (["id: 7" +:+ nl +:+ "data: blocked" +:+ nl +:+ nl; ": ping" +:+ nl +:+ nl], 1, false).
Proof. vm_compute. reflexivity. Qed.

Example a_get_stream :
  run get ["data: answer" +:+ nl +:+ nl +:+ "data: note" +:+ nl +:+ nl] =
  (["data: note" +:+ nl +:+ nl], 0, false).
Proof. vm_compute. reflexivity. Qed.

Definition smuggled : list string :=
  ["data: x" +:+ nl +:+ nl; BOM +:+ "data: answer" +:+ nl +:+ nl].

(** A byte order mark smuggles a response past the filter: after an event that
    is dropped, a line that begins with the mark is no data line to the gateway
    and passes as it is, at the start of the body, where a client drops the mark
    and reads the response; this is a GET stream, which releases none. *)
Theorem mark_smuggles_response :
  let body := concat (sent (filterSseStream parse print get smuggled "" 0)) in
  client_events body = [["data: answer"]; []] /\ eventData ["data: answer"] = Some "answer" /\
  parseMessage parse "answer" = Some (answer one) /\ isResponse (answer one) = true.
Proof. vm_compute. repeat split. Qed.

(** The size of an event is checked when its chunk is done: one that comes whole
    in a chunk is not too large. *)
Example a_large_event :
  let small := mkOptions (W := nat) None 8 None None None in
  (run small ["data: note" +:+ nl +:+ nl], (run small ["data: not"; "e" +:+ nl +:+ nl]).2) =
  ((["data: note" +:+ nl +:+ nl], 0, false), true).
Proof. vm_compute. reflexivity. Qed.

Lemma client_reads_only_checked_witness :
  Forall (harmless print options)
    (client_events (concat (sent (filterSseStream parse print options ["data: answer" +:+ nl +:+ nl] "" 0)))).
Proof. apply client_reads_only_checked; [apply print_plain|]. vm_compute. reflexivity. Defined.

Lemma chunks_do_not_matter_witness :
  sent (filterSseStream parse print options ["data: no"; "te" +:+ String CR ""; nl +:+ nl] "" 0) =
  sent (filterSseStream parse print options ["data: note" +:+ String CR nl +:+ nl] "" 0).
Proof. apply chunks_do_not_matter; vm_compute; reflexivity. Defined.
End Samples.
