(* ===== verification/McpGuards.v ===== *)
(** * Authentication and guardrails of the MCP proxy

    Models [src/gateway/src/mcp/auth.ts] (the static bearer token, compared in
    constant time) and [src/gateway/src/mcp/guardrails.ts] (the text of a call or a
    result that the checks see, and the verdict on their results).

    Strings are read as in [McpText].  The hooks manager runs plugins: it is a
    function of a world, and fails where the code would throw.  [JSON.stringify] is
    a parameter. *)

From Stdlib Require Import ZArith Lia ZifyBool ZifyNat Ascii.
From stdpp Require Import base strings option list sets.
From S2P Require Import Prelude JsValue JsText ConditionalRouter McpText.

#[local] Open Scope string_scope.
#[local] Open Scope list_scope.
#[local] Arguments String.append : simpl nomatch.

(** ** Authentication *)

(** [new TextEncoder().encode(s)] *)
Definition encode (s : string) : list N := utf8 (units s).

Definition byteLength (s : string) : nat := length (encode s).

(** The loop over the expected bytes. *)
Fixpoint byte_diff (a b : list N) (diff : N) : N :=
  match b with
  | [] => diff
  | y :: b =>
      byte_diff (match a with [] => [] | _ :: a => a end) b
        (N.lor diff (N.lxor (match a with [] => 0%N | x :: _ => x end) y))
  end.

Definition tokensMatch (candidate expected : string) : bool :=
  let a := encode candidate in
  let b := encode expected in
  (byte_diff a b (N.lxor (N.of_nat (length a)) (N.of_nat (length b))) =? 0)%N.

Definition MIN_TOKEN_LENGTH : nat := 16.

Inductive McpAuthResult :=
| auth_ok
| auth_failed (status : Z) (message : string).

(** [header.split(/\s+/, 2)] of a trimmed text: the first two words. *)
Definition two_words (s : string) : string * option string :=
  let word := fun u => negb (is_space_unit u) in
  (text_of (take_units word (units s)),
   match drop_units word (units s) with
   | [] => None
   | r => Some (text_of (take_units word (drop_units is_space_unit r)))
   end).

Record AuthRequest := mkAuth {
  au_identity : bool;
  au_token : option string;
  au_allow_unauthenticated : option string;
  au_header : option string
}.

(** The result, and the reason of the security event a refusal records. *)
Definition checkMcpClient (r : AuthRequest) : McpAuthResult * option string :=
  if au_identity r then (auth_ok, None) else
  let token := default "" (trim_text <$> au_token r) in
  if (length (units token) <? MIN_TOKEN_LENGTH)%nat then
    if match au_allow_unauthenticated r with Some v => (v =? "true")%string | None => false end
    then (auth_ok, None)
    else (auth_failed 503 "The MCP proxy needs PS_MCP_TOKEN (at least 16 characters).", None)
  else
    let header := default "" (trim_text <$> au_header r) in
    let '(scheme, value) := two_words header in
    if (toLowerCase scheme =? "bearer")%string &&
       match value with Some v => truthy_string v && tokensMatch v token | None => false end
    then (auth_ok, None)
    else (auth_failed 401 "MCP proxy authentication required: Authorization: Bearer <token>.",
          Some (if truthy_string header then "invalid_credentials" else "missing_credentials")).

(** ** The text of a call and of a result *)

Definition word_char (c : ascii) : bool :=
  is_upper c || is_lower c || is_digit c || (code c =? 95)%N.

(** One of the keywords with a word boundary after it. *)
Definition text_keyword (s : string) : bool :=
  existsb (fun k => match strip_prefix k s with
                    | Some EmptyString => true
                    | Some (String c _) => negb (word_char c)
                    | None => false end)
    ["json"; "xml"; "yaml"; "javascript"; "x-sh"].

(** [([\w.+-]*\+)?(json|...)\b]: the keyword, or one after a plus sign. *)
Fixpoint after_plus (s : string) : bool :=
  match s with
  | EmptyString => false
  | String c r =>
      if (code c =? 43)%N then text_keyword r || after_plus r
      else if word_char c || (code c =? 46)%N || (code c =? 45)%N then after_plus r else false
  end.

Definition isTextMimeType (mime : any) : bool :=
  match mime with
  | Some (JStr m) =>
      let m := toLowerCase (trim_text m) in
      startsWith m "text/" ||
      match strip_prefix "application/" m with
      | Some r => text_keyword r || after_plus r
      | None => false
      end
  | _ => false
  end.

(** The units of UTF-8 bytes, U+FFFD in place of what cannot be decoded. *)
Definition replacement : N := 65533.

Fixpoint utf8_lossy (l : list N) : list N :=
  match l with
  | [] => []
  | a :: r =>
      if (a <? 128)%N then a :: utf8_lossy r
      else if between 194 a 223 then
        match r with
        | b :: r2 => if continuation b then ((a - 192) * 64 + (b - 128))%N :: utf8_lossy r2
                     else replacement :: utf8_lossy r
        | [] => [replacement]
        end
      else if between 224 a 239 then
        match r with
        | b :: r2 =>
            if between (if (a =? 224)%N then 160 else 128) b (if (a =? 237)%N then 159 else 191) then
              match r2 with
              | c :: r3 =>
                  if continuation c
                  then ((a - 224) * 4096 + (b - 128) * 64 + (c - 128))%N :: utf8_lossy r3
                  else replacement :: utf8_lossy r2
              | [] => [replacement]
              end
            else replacement :: utf8_lossy r
        | [] => [replacement]
        end
      else if between 240 a 244 then
        match r with
        | b :: r2 =>
            if between (if (a =? 240)%N then 144 else 128) b (if (a =? 244)%N then 143 else 191) then
              match r2 with
              | c :: r3 =>
                  if continuation c then
                    match r3 with
                    | d :: r4 =>
                        if continuation d then
                          let p := ((a - 240) * 262144 + (b - 128) * 4096 + (c - 128) * 64 + (d - 128) - 65536)%N in
                          (55296 + p / 1024)%N :: (56320 + p mod 1024)%N :: utf8_lossy r4
                        else replacement :: utf8_lossy r3
                    | [] => [replacement]
                    end
                  else replacement :: utf8_lossy r2
              | [] => [replacement]
              end
            else replacement :: utf8_lossy r
        | [] => [replacement]
        end
      else replacement :: utf8_lossy r
  end.

Definition decode_lossy (bytes : list N) : list N :=
  utf8_lossy (if has_bom bytes then skipn 3 bytes else bytes).

Definition decodeBase64Text (blob : string) : string :=
  match atob (text_of (List.filter (fun u => negb (is_space_unit u)) (units blob))) with
  | Some bytes => text_of (decode_lossy bytes)
  | None => blob
  end.

Fixpoint join_newline (l : list string) : string :=
  match l with
  | [] => ""
  | [x] => x
  | x :: r => x +:+ String (ascii_of_N 10) (join_newline r)
  end.

Section Texts.
Variable JSON_stringify : json -> string.

(** [JSON.stringify(v)] of a present value. *)
Definition json_of (v : any) : list string := match v with Some x => [JSON_stringify x] | None => [] end.

Definition toolCallInputText (params : any) : string :=
  join_newline
    (JSON_stringify (default (JObj []) (prop params "arguments")) :: json_of (prop params "inputResponses")).

Definition is_text_value (v : any) : list string := match v with Some (JStr s) => [s] | _ => [] end.

(** [{ ...o, k: undefined }] as it is written out. *)
Definition without (ks : list string) (o : obj json) : obj json := foldl map_delete o ks.

Definition media (v : any) : bool :=
  match v with Some (JStr t) => mem_string t ["text"; "image"; "audio"] | _ => false end.

(** The texts of one item of a result's content. *)
Definition item_texts (item : json) : list string :=
  match item with
  | JObj o =>
      let resource := own o "resource" in
      is_text_value (own o "text") ++
      match resource with
      | Some (JObj r) =>
          match own r "text" with
          | Some (JStr s) => [s]
          | _ => match own r "blob" with
                 | Some (JStr b) => if isTextMimeType (own r "mimeType") then [decodeBase64Text b] else []
                 | _ => []
                 end
          end
      | _ => []
      end ++
      (if media (own o "type") then [] else
       let o1 := without ["text"; "data"] o in
       [JSON_stringify (JObj (match resource with
          | Some (JObj r) => obj_put o1 "resource" (JObj (without ["text"; "blob"] r))
          | Some (JArr l) => obj_put o1 "resource" (JObj (without ["text"; "blob"] (indexed l)))
          | _ => o1 end))])
  | JArr l => [JSON_stringify (JObj (indexed l))]
  | _ => []
  end.

(** The texts of a result. *)
Definition result_texts (result : json) : list string :=
  match result with
  | JObj o =>
      match own o "content" with Some (JArr items) => concat (map item_texts items) | _ => [] end ++
      json_of (own o "structuredContent") ++ json_of (own o "inputRequests")
  | _ => []
  end.

Definition toolResultText (message : json) : string :=
  let error := prop (Some message) "error" in
  if truthy error then
    join_newline (List.filter truthy_string
      [match prop error "message" with Some (JStr s) => s | _ => "" end;
       match prop error "data" with Some d => JSON_stringify d | None => "" end])
  else match prop (Some message) "result" with
       | Some r => join_newline (result_texts r)
       | None => ""
       end.
End Texts.

(** ** The verdict *)

Record HookResult := mkHookResult { hr_verdict : bool; hr_skipped : bool; hr_check_errors : bool }.

(** [None] for a missing result; a hook that is [deny] is one whose [deny] is true. *)
Definition result_blocks (p : json * option HookResult) : bool :=
  match p.2 with
  | None => true
  | Some r =>
      hr_skipped r ||
      (truthy (prop (Some p.1) "deny") && (negb (hr_verdict r) || hr_check_errors r))
  end.

Definition isBlocked (hooks : list json) (results : list (option HookResult)) : bool :=
  negb (length results =? length hooks)%nat || existsb result_blocks (zip hooks results).

Inductive GuardrailStage := input | output.

Section Block.
Context {W : Type}.

(** [manager.executeHooks] on the text, when there is a manager; [None] where
    creating the span or running the hooks throws. *)
Variable executeHooks : option (list json -> GuardrailStage -> string -> W -> option (list (option HookResult)) * W).

Definition mcpGuardrailsBlock (hooks : list json) (stage : GuardrailStage) (text : string) (w : W) : bool * W :=
  match hooks with
  | [] => (false, w)
  | _ =>
      match executeHooks with
      | None => (true, w)
      | Some run =>
          match run hooks stage text w with
          | (Some results, w1) => (isBlocked hooks results, w1)
          | (None, w1) => (true, w1)
          end
      end
  end.

(** A call that is not blocked ran every hook, and no deny hook failed. *)
Definition passed (hooks : list json) (stage : GuardrailStage) (text : string) (w : W) : Prop :=
  hooks = [] \/
  exists run results, executeHooks = Some run /\ (run hooks stage text w).1 = Some results /\
    Forall2 (fun h r => exists x, r = Some x /\ hr_skipped x = false /\
      (truthy (prop (Some h) "deny") = true -> hr_verdict x = true /\ hr_check_errors x = false)) hooks results.

(** What passes the guardrails. *)
Lemma block_passed hooks stage text w :
  (mcpGuardrailsBlock hooks stage text w).1 = false <-> passed hooks stage text w.
Proof.
  unfold mcpGuardrailsBlock, passed. destruct hooks as [|h hooks]; [split; [by left|done]|].
  destruct executeHooks as [run|]; [|by split; [|intros [?|(? & ? & ? & _)]]].
  assert (Hb : forall hs rs, isBlocked hs rs = false <-> Forall2 (fun h r => exists x, r = Some x /\
      hr_skipped x = false /\
      (truthy (prop (Some h) "deny") = true -> hr_verdict x = true /\ hr_check_errors x = false)) hs rs).
  { clear. unfold isBlocked. induction hs as [|h hs IH]; intros [|r rs]; cbn [length zip_with existsb Nat.eqb].
    - by split; [constructor|].
    - split; [done|by inversion 1].
    - split; [done|by inversion 1].
    - destruct (IH rs) as [I1 I2]. rewrite orb_false_iff, negb_false_iff in I1, I2 |- *.
      rewrite orb_false_iff. split.
      + intros (Hl & Hr & Hrs). constructor; [|by apply I1].
        destruct r as [x|]; [|done]. exists x. unfold result_blocks in Hr. cbn [fst snd] in Hr.
        apply orb_false_iff in Hr as [-> Hd]. split; [done|]. split; [done|]. intros Hdeny. rewrite Hdeny in Hd.
        by destruct (hr_verdict x), (hr_check_errors x).
      + inversion 1 as [|? ? ? ? (x & -> & Hs & Hd) Hrs]; subst. apply I2 in Hrs as [Hl Hrs].
        split_and!; [done| |done]. unfold result_blocks. cbn [fst snd]. rewrite Hs. cbn [orb].
        destruct (truthy _); [|done]. by destruct (Hd eq_refl) as [-> ->]. }
  destruct (run (h :: hooks) stage text w) as [[rs|] w1] eqn:Hr; cbn [fst].
  - rewrite Hb. split.
    + intros H. right. exists run, rs. by rewrite Hr.
    + intros [?|(run' & rs' & [= <-] & Hrs & H)]; [done|]. rewrite Hr in Hrs. by injection Hrs as ->.
  - split; [done|]. intros [?|(run' & rs' & [= <-] & Hrs & _)]; [done|]. by rewrite Hr in Hrs.
Qed.

(** Guardrails fail closed: a text passes only when there are no guardrails,
    or when the hooks manager ran every one of them to a result, skipped none,
    and every guardrail that denies passed with no check in error. *)
Theorem guardrails_fail_closed hooks stage text w :
  (mcpGuardrailsBlock hooks stage text w).1 = false <-> passed hooks stage text w.
Proof. apply block_passed. Qed.
End Block.

(** ** The comparison of tokens *)

Lemma lor_zero a b : N.lor a b = 0%N <-> a = 0%N /\ b = 0%N.
Proof. apply N.lor_eq_0_iff. Qed.

Lemma byte_diff_zero a b diff :
  length a = length b -> byte_diff a b diff = 0%N <-> diff = 0%N /\ a = b.
Proof.
  revert a diff. induction b as [|y b IH]; intros [|x a] diff Hl; simpl in *; try done; [tauto|].
  rewrite IH by lia. rewrite lor_zero, N.lxor_eq_0_iff. split; [intros [[-> ->] ->]|intros [-> [= -> ->]]]; done.
Qed.

Lemma byte_diff_grows a b diff : byte_diff a b diff = 0%N -> diff = 0%N.
Proof.
  revert a diff. induction b as [|y b IH]; intros a diff; simpl; [done|]. intros H%IH.
  by apply lor_zero in H as [H _].
Qed.

(** The constant-time comparison is equality of the encoded tokens: it takes
    the same steps whatever the candidate, one per byte of the token, and accepts
    exactly the token, for well-formed texts. *)
Theorem tokensMatch_exact a b :
  well_formed (units a) = true -> well_formed (units b) = true ->
  Forall is_unit (units a) -> Forall is_unit (units b) ->
  tokensMatch a b = true <-> units a = units b.
Proof.
  intros Ha Hb Hua Hub. unfold tokensMatch, encode. rewrite N.eqb_eq. split.
  - intros H. pose proof (byte_diff_grows _ _ _ H) as Hl. apply N.lxor_eq_0_iff, Nat2N.inj in Hl.
    apply byte_diff_zero in H as [_ H]; [|done].
    destruct (utf8_round_trip _ Ha Hua) as [Ra _]. destruct (utf8_round_trip _ Hb Hub) as [Rb _]. congruence.
  - intros ->. apply byte_diff_zero; [done|]. split; [|done]. apply N.lxor_nilpotent.
Qed.

Lemma tokensMatch_refl s : tokensMatch s s = true.
Proof.
  unfold tokensMatch. rewrite N.eqb_eq. apply byte_diff_zero; [done|]. split; [|done]. apply N.lxor_nilpotent.
Qed.

(** Without a verified identity, the proxy lets a client in only with the
    configured token, of 16 characters at least, as a bearer token, or when the
    operator opened it explicitly and set no such token. *)
Theorem proxy_is_closed_by_default r :
  (checkMcpClient r).1 = auth_ok -> au_identity r = false ->
  let token := default "" (trim_text <$> au_token r) in
  ((length (units token) < 16)%nat /\ au_allow_unauthenticated r = Some "true") \/
  ((16 <= length (units token))%nat /\
   exists header scheme value, au_header r = Some header /\ two_words (trim_text header) = (scheme, Some value) /\
     toLowerCase scheme = "bearer" /\ tokensMatch value token = true).
Proof.
  unfold checkMcpClient. intros H Hid. rewrite Hid in H. cbv zeta. set (token := default "" _) in *.
  unfold MIN_TOKEN_LENGTH in H. destruct (Nat.ltb_spec (length (units token)) 16) as [Hlt|Hge].
  - left. split; [done|]. destruct (au_allow_unauthenticated r) as [v|]; [|done].
    destruct (v =? "true")%string eqn:E; [|done]. apply String.eqb_eq in E. by subst.
  - right. split; [done|]. destruct (au_header r) as [header|]; cbn [fmap option_fmap option_map default] in H;
      unfold id in H.
    + destruct (two_words (trim_text header)) as [scheme value] eqn:Hw.
      destruct (_ && _) eqn:E; [|done]. apply andb_true_iff in E as [Hs Hv]. apply String.eqb_eq in Hs.
      destruct value as [v|]; [|done]. apply andb_true_iff in Hv as [_ Hv]. by exists header, scheme, v.
    + exfalso. revert H. vm_compute. done.
Qed.

(** ** What is checked of a result *)

Section Checked.
Variable JSON_stringify : json -> string.

(** Every text of an item that a client shows as such is among the checked ones. *)
Lemma item_text_checked o s : own o "text" = Some (JStr s) -> s ∈ item_texts JSON_stringify (JObj o).
Proof. intros H. unfold item_texts. rewrite H. simpl. by left. Qed.

Lemma resource_text_checked o r s :
  own o "resource" = Some (JObj r) -> own r "text" = Some (JStr s) -> s ∈ item_texts JSON_stringify (JObj o).
Proof. intros H Hr. unfold item_texts. rewrite H, Hr. set_solver. Qed.

(** Nothing textual escapes the output checks: every text item of a tool's
    result, every text resource, sent as text or as base64 with a text type, and
    the whole of any item of another kind but its binary data, is part of what
    the guardrails are given. *)
Theorem result_texts_are_checked o items x ox :
  own o "content" = Some (JArr items) -> x ∈ items -> x = JObj ox ->
  let checked := result_texts JSON_stringify (JObj o) in
  (forall s, own ox "text" = Some (JStr s) -> s ∈ checked) /\
  (forall r s, own ox "resource" = Some (JObj r) -> own r "text" = Some (JStr s) -> s ∈ checked) /\
  (forall r b, own ox "resource" = Some (JObj r) -> own r "text" = None -> own r "blob" = Some (JStr b) ->
     isTextMimeType (own r "mimeType") = true -> decodeBase64Text b ∈ checked) /\
  (media (own ox "type") = false -> is_object (own ox "resource") = false ->
     match own ox "resource" with Some (JArr _) => False | _ => True end ->
     JSON_stringify (JObj (without ["text"; "data"] ox)) ∈ checked).
Proof.
  intros Hc Hx ->. cbv zeta.
  assert (Hin : forall s, s ∈ item_texts JSON_stringify (JObj ox) -> s ∈ result_texts JSON_stringify (JObj o)).
  { intros s Hs. unfold result_texts. rewrite Hc. apply elem_of_app. left.
    apply list_elem_of_In, in_concat. exists (item_texts JSON_stringify (JObj ox)).
    split; [by apply in_map, list_elem_of_In|by apply list_elem_of_In]. }
  split_and!.
  - intros s Hs. apply Hin. by apply item_text_checked.
  - intros r s Hr Hs. apply Hin. by eapply resource_text_checked.
  - intros r b Hr Ht Hb Hm. apply Hin. unfold item_texts. rewrite Hr, Ht, Hb, Hm. set_solver.
  - intros Hm Ho Ha. apply Hin. unfold item_texts. rewrite Hm.
    destruct (own ox "resource") as [[]|]; try done; set_solver.
Qed.
End Checked.

Module Samples.
Definition guard : json := JObj [("deny", JBool true)].
Definition manager (verdict : bool) (hooks : list json) (stage : GuardrailStage) (text : string) (w : nat) :=
  (Some (map (fun _ => Some (mkHookResult verdict false false)) hooks), S w).

Lemma guardrails_fail_closed_witness : passed (Some (manager true)) [guard] input "text" 0.
Proof. apply guardrails_fail_closed. reflexivity. Defined.

Example blocked_calls :
  (mcpGuardrailsBlock (Some (manager false)) [guard] input "text" 0,
   mcpGuardrailsBlock (W := nat) None [guard] input "text" 0,
   mcpGuardrailsBlock (Some (manager false)) [JObj [("deny", JBool false)]] output "text" 0) =
  ((true, 1), (true, 0), (false, 1)).
Proof. vm_compute. reflexivity. Qed.

Lemma ascii_units s : forallb (fun u => (u <? 128)%N) (units s) = true ->
  well_formed (units s) = true /\ Forall is_unit (units s).
Proof.
  induction (units s) as [|u l IH]; cbn [forallb]; [by split; [|constructor]|].
  intros [Hu Hl]%andb_true_iff. destruct (IH Hl) as [H1 H2]. apply N.ltb_lt in Hu. split.
  - rewrite well_formed_plain; [done|unfold is_high; lia|unfold is_low; lia].
  - constructor; [unfold is_unit; lia|done].
Qed.

Definition secret : string := "0123456789abcdef".

Lemma tokensMatch_exact_witness : tokensMatch secret secret = true.
Proof.
  apply tokensMatch_exact; try reflexivity; apply ascii_units; vm_compute; reflexivity.
Defined.

Definition request : AuthRequest := mkAuth false (Some secret) None (Some "Bearer 0123456789abcdef").

Lemma proxy_is_closed_by_default_witness :
  exists header, au_header request = Some header.
Proof.
  destruct (proxy_is_closed_by_default request) as [[H _]|(_ & header & scheme & value & H & _)].
  - vm_compute. reflexivity.
  - reflexivity.
  - vm_compute in H. lia.
  - exists header. exact H.
Defined.

Definition text_item : json := JObj [("type", JStr "text"); ("text", JStr "hello")].

Lemma result_texts_are_checked_witness :
  "hello" ∈ result_texts (fun _ => "") (JObj [("content", JArr [text_item])]).
Proof.
  apply (result_texts_are_checked (fun _ => "") [("content", JArr [text_item])] [text_item] text_item
    [("type", JStr "text"); ("text", JStr "hello")]); [reflexivity|by left|reflexivity|reflexivity].
Defined.

Example texts :
  toolResultText (fun _ => "{}") (JObj [("result", JObj [("content", JArr
    [text_item; JObj [("type", JStr "resource"); ("resource", JObj [("blob", JStr "aGkg 8J+Ygg"); ("mimeType", JStr "application/ld+json")])];
     JObj [("type", JStr "image"); ("data", JStr "x")]])])]) =
  join_newline ["hello"; text_of [104; 105; 32; 55357; 56834]%N; "{}"].
Proof. vm_compute. reflexivity. Qed.
End Samples.
