(* ===== verification/McpHandler.v ===== *)
(** * The MCP proxy

    Models [src/gateway/src/mcp/handler.ts], from the request to the response:
    authentication, the group's access, the checks of the message, the tool policy
    and the guardrails, the call of the upstream with its own headers, and what is
    released of its answer, over the components [McpGuards], [McpPolicy] and
    [McpSse].

    A request body, and an upstream's, is the text its chunks decode to, with its
    size in bytes and whether reading it fails or takes too long.  The state is the
    policy maps, the calls and records made so far, and the world of the upstream
    and of the guardrails.  [upstreamFetch] behind its redirect check, the hooks
    manager, [isSafeUpstreamURL], SHA-256, [JSON.parse] and [JSON.stringify] are
    parameters; the telemetry values computed for spans ([McpCallState]) and log
    lines are not modelled. *)

From Stdlib Require Import ZArith Lia ZifyBool ZifyNat Ascii Floats.SpecFloat.
From stdpp Require Import base strings option list gmap sets.
From S2P Require Import Prelude JsValue BudgetKeys JsText GroupPolicy McpText McpPolicy McpSse McpGuards.

#[local] Open Scope string_scope.
#[local] Open Scope list_scope.
#[local] Arguments num_of_Z : simpl never.

(** ** JSON-RPC *)

Definition PARSE_ERROR : Z := -32700.
Definition INVALID_REQUEST : Z := -32600.
Definition TOOL_DENIED : Z := -32010.
Definition GUARDRAIL_BLOCKED : Z := -32011.
Definition TOOL_DEFINITION_CHANGED : Z := -32012.
Definition UPSTREAM_ERROR : Z := -32013.
Definition UNAUTHORIZED : Z := -32014.
Definition UNKNOWN_SERVER : Z := -32015.
Definition SERVER_DENIED : Z := -32016.
Definition HEADER_MISMATCH : Z := -32020.

Definition JSON_TYPE : string := "application/json".
Definition SSE_TYPE : string := "text/event-stream".

Definition errorMessage (id : json) (code : Z) (message : string) : json :=
  JObj [("jsonrpc", JStr "2.0"); ("id", id);
        ("error", JObj [("code", JNum (num_of_Z code)); ("message", JStr message)])].

Definition is_finite (n : num) : bool :=
  match n with S754_finite _ _ _ | S754_zero _ => true | _ => false end.

Definition isRpcId (v : any) : bool :=
  match v with Some (JStr _) => true | Some (JNum n) => is_finite n | _ => false end.

(** ** Requests, upstream answers and responses *)

Record Body := mkBody { b_chunks : list string; b_rest : string; b_size : Z; b_fails : bool }.

Definition body_text (b : Body) : string := (McpSse.concat (b_chunks b) +:+ b_rest b)%string.

Record Request := mkRequest {
  rq_method : string;
  rq_server : string;
  rq_headers : obj string;
  rq_body : Body;
  (** An earlier middleware read the body. *)
  rq_cached : bool;
  rq_identity : bool;
  (** The MCP entry of the group of the identity. *)
  rq_group : option (obj McpGroupToolRule);
  rq_token : option string;
  rq_allow_unauthenticated : option string
}.

Record Upstream := mkUpstream { up_status : Z; up_headers : obj string; up_body : option Body }.

Definition up_ok (u : Upstream) : bool := ((200 <=? up_status u) && (up_status u <=? 299))%Z.

Inductive ResponseBody :=
| Empty
| Text (t : string)
| Streamed (chunks : list string).

Record Response := mkResponse { rs_status : Z; rs_headers : obj string; rs_body : ResponseBody }.

Inductive CallError := unsafe | timeout | unreachable.

(** The members of [McpOutcome], prefixed. *)
Inductive McpOutcome := out_ok | out_error | out_denied | out_blocked | out_invalid | out_upstream_error.

(** What the proxy does besides answering. *)
Inductive Event :=
| RequestRecorded (server : string) (method : any) (outcome : McpOutcome)
| ToolCallRecorded (server : string) (tool : any) (outcome : McpOutcome)
| AuthFailure (reason : string)
| PolicyDenied (reason : PolicyDenyReason) (server : string) (tool : option string)
| Forwarded (server method : string) (headers : obj string) (body : option string).

(** ** Headers *)

Definition FORWARDED_REQUEST_HEADERS : list string :=
  ["accept"; "mcp-protocol-version"; "mcp-session-id"; "mcp-method"; "mcp-name"; "last-event-id"].

(** [/^mcp-param-[A-Za-z0-9!#$%&'*+.^_`|~-]{1,64}$/i]; header names are in lower case. *)
Definition mcp_param_header (name : string) : bool :=
  match strip_prefix "mcp-param-" name with Some r => is_token r | None => false end.

Definition copy_header (from : obj string) (out : obj string) (name : string) : obj string :=
  match own from name with Some v => obj_put out name v | None => out end.

Definition upstreamHeaders (headers : obj string) (server : McpServerConfig) (hasBody : bool) : obj string :=
  let out := foldl (copy_header headers) [] FORWARDED_REQUEST_HEADERS in
  let out := foldl (fun out p => if mcp_param_header p.1 then obj_put out p.1 p.2 else out) out headers in
  let out := if hasOwn out "accept" then out else obj_put out "accept" (JSON_TYPE +:+ ", " +:+ SSE_TYPE) in
  let out := if hasBody then obj_put out "content-type" JSON_TYPE else out in
  match ms_authHeader server with Some (n, v) => obj_put out n v | None => out end.

(** [/^[\x21-\x7E]{1,256}$/] *)
Definition safe_header_value (s : string) : bool :=
  truthy_string s && (String.length s <=? 256)%nat && sforallb (fun c => between 33 (code c) 126) s.

Definition FORWARDED_RESPONSE_HEADERS : list string := ["content-type"; "mcp-session-id"; "retry-after"].

Definition copy_response_header (from : obj string) (out : obj string) (name : string) : obj string :=
  match own from name with
  | Some v => if negb (name =? "content-type")%string && negb (safe_header_value v) then out
              else obj_put out name v
  | None => out
  end.

Definition clientHeaders (u : Upstream) (streaming : bool) : obj string :=
  let out := foldl (copy_response_header (up_headers u)) [] FORWARDED_RESPONSE_HEADERS in
  if streaming then obj_put (obj_put out "cache-control" "no-cache") "x-accel-buffering" "no" else out.

Definition contentTypeOf (u : Upstream) : string := mime_of (own (up_headers u) "content-type").

(** ** Bodies *)

(** The text, unless reading fails or takes too long, or it is larger than [max]. *)
Definition readLimited (body : option Body) (max : Z) : option string :=
  match body with
  | None => Some ""
  | Some b => if b_fails b || (max <? b_size b)%Z then None else Some (body_text b)
  end.

Definition readRequestBody (r : Request) (max : Z) : option string :=
  if rq_cached r then
    let text := body_text (rq_body r) in
    if (max <? Z.of_nat (byteLength text))%Z then None else Some text
  else readLimited (Some (rq_body r)) max.

Section Handler.
Context {W : Type}.
Variable JSON_parse : string -> option json.
Variable JSON_stringify : json -> string.
Variable number_text : num -> string.
Variable sha256_hex : string -> string.
Variable isSafeUpstreamURL : string -> bool.

(** [fetch] of the configured URL; a failure says whether the timer ended it. *)
Variable fetch : McpServerConfig -> string -> obj string -> option string -> W -> result bool Upstream * W.
Variable executeHooks : option (list json -> GuardrailStage -> string -> W -> option (list (option HookResult)) * W).

(** The servers configured. *)
Variable servers : obj McpServerConfig.

Record State := mkState { s_policy : PolicyState; s_events : list Event; s_world : W }.

Definition record (e : Event) (s : State) : State := mkState (s_policy s) (s_events s ++ [e]) (s_world s).
Definition set_policy (p : PolicyState) (s : State) : State := mkState p (s_events s) (s_world s).
Definition set_w (w : W) (s : State) : State := mkState (s_policy s) (s_events s) w.

Definition rpcError (status : Z) (id : json) (code : Z) (message : string) : Response :=
  mkResponse status [("content-type", JSON_TYPE)] (Text (JSON_stringify (errorMessage id code message))).

Definition jsonResponse (message : json) (status : Z) (u : Upstream) : Response :=
  mkResponse status (clientHeaders u false) (Text (JSON_stringify message)).

Definition withoutBody (u : Upstream) : Response :=
  mkResponse (up_status u) (map_delete (clientHeaders u false) "content-type") Empty.

(** [upstreamFetch]: an answer that redirects becomes a 502. *)
Definition redirect_body (status : Z) : json :=
  JObj [("error", JObj [("message", JStr ("The upstream answered with a redirect (" +:+ String_of status +:+ "), which the gateway does not follow"));
                        ("type", JStr "upstream_redirect"); ("param", JNull); ("code", JNull)])].

Definition rejectUpstreamRedirect (u : Upstream) : Upstream :=
  if ((300 <=? up_status u) && (up_status u <? 400) && negb (up_status u =? 304))%Z
  then mkUpstream 502 [("content-type", JSON_TYPE)]
         (Some (let t := JSON_stringify (redirect_body (up_status u)) in mkBody [t] "" (Z.of_nat (byteLength t)) false))
  else u.

Definition callUpstream (r : Request) (server : McpServerConfig) (method : string) (body : option string) (s : State)
    : result CallError Upstream * State :=
  if negb (isSafeUpstreamURL (ms_url server)) then (Throw unsafe, s)
  else
    let headers := upstreamHeaders (rq_headers r) server (match body with Some _ => true | None => false end) in
    let s := record (Forwarded (ms_id server) method headers body) s in
    match fetch server method headers body (s_world s) with
    | (Ok u, w) => (Ok (rejectUpstreamRedirect u), set_w w s)
    | (Throw timedOut, w) => (Throw (if timedOut then timeout else unreachable), set_w w s)
    end.

Definition upstreamFailure (id : json) (e : CallError) : Response :=
  match e with
  | timeout => rpcError 504 id UPSTREAM_ERROR "The MCP server did not answer in time"
  | unsafe => rpcError 502 id UPSTREAM_ERROR "The MCP server URL is not an allowed upstream"
  | unreachable => rpcError 502 id UPSTREAM_ERROR "The MCP server could not be reached"
  end.

Definition credentialRejection (u : Upstream) (id : json) : option Response :=
  if (up_status u =? 401)%Z || (up_status u =? 403)%Z
  then Some (rpcError 502 id UPSTREAM_ERROR "The MCP server rejected the gateway credentials")
  else None.

Definition isErrorObject (e : any) : bool :=
  match e with
  | Some (JObj o) =>
      match own o "code", own o "message" with
      | Some (JNum n), Some (JStr _) => is_integer_num n
      | _, _ => false
      end
  | _ => false
  end.

Definition parsed (t : option string) : option json :=
  match t with Some t => JSON_parse t | None => None end.

(** The JSON-RPC error in the body of an HTTP error, with the request's id. *)
Definition upstreamErrorMessage (u : Upstream) (server : McpServerConfig) (id : json) : option json :=
  if negb (contentTypeOf u =? JSON_TYPE)%string then None
  else match parsed (readLimited (up_body u) (ms_maxResponseBytes server)) with
  | Some (JObj o) =>
      if hasOwn o "result" || negb (isErrorObject (own o "error")) ||
         negb (strict_eq (own o "id") id || match own o "id" with Some JNull => true | _ => false end)
      then None
      else
        let e := own o "error" in
        Some (JObj [("jsonrpc", JStr "2.0"); ("id", id);
          ("error", JObj (match prop e "code" with Some c => [("code", c)] | None => [] end ++
                          match prop e "message" with Some m => [("message", m)] | None => [] end ++
                          match prop e "data" with Some d => [("data", d)] | None => [] end))])
  | _ => None
  end.

(** ** Refusals before the upstream *)

Definition startsWith_any (v : any) (p : string) : bool :=
  match v with Some (JStr s) => startsWith s p | _ => false end.

Definition is_string (v : any) : bool := match v with Some (JStr _) => true | _ => false end.

Definition rpc_id (message : json) : json :=
  let id := prop (Some message) "id" in if isRpcId id then default JNull id else JNull.

(** The message is malformed as a request or notification. *)
Definition bad_request (message : json) : bool :=
  let method := prop (Some message) "method" in
  let isNotification := negb (hasProperty message "id") in
  negb (is_string method) ||
  (isNotification && negb (startsWith_any method "notifications/")) ||
  (negb isNotification && negb (isRpcId (prop (Some message) "id"))) ||
  match prop (Some message) "params" with
  | None | Some (JObj _) | Some (JArr _) => false
  | Some _ => true
  end.

Definition isToolCall (message : json) : bool := is_text (prop (Some message) "method") "tools/call".

Definition uses_tasks (message : json) : bool :=
  startsWith_any (prop (Some message) "method") "tasks/" ||
  (isToolCall message && match prop (prop (Some message) "params") "task" with Some _ => true | None => false end).

Definition tool_of (message : json) : any := prop (prop (Some message) "params") "name".
Definition method_of (message : json) : any := prop (Some message) "method".

Definition tool_label (tool : any) : string := displayToolName tool.

(** One refusal: what is recorded and answered. *)
Record Refusal := mkRefusal { rf_events : list Event; rf_response : Response }.

Definition refuse (server : McpServerConfig) (method : any) (outcome : McpOutcome) (more : list Event)
    (status : Z) (id : json) (code : Z) (message : string) : Refusal :=
  mkRefusal (RequestRecorded (ms_id server) method outcome :: more) (rpcError status id code message).

(** The message itself: its shape and its mirrored headers. *)
Definition check_message (r : Request) (server : McpServerConfig) (message : json) : option Refusal :=
  let id := rpc_id message in
  let method := method_of message in
  match method with
  | Some _ =>
      if bad_request message
      then Some (refuse server method out_invalid [] 400 id INVALID_REQUEST "Invalid JSON-RPC request")
      else match headerMismatch (rq_headers r) message with
           | Some m => Some (refuse server method out_invalid [] 400 id HEADER_MISMATCH ("Header mismatch: " +:+ m))
           | None => None
           end
  | None =>
      if isResponse message then None
      else Some (refuse server None out_invalid [] 400 id INVALID_REQUEST "Invalid JSON-RPC message")
  end.

(** A tool call: the server's policy, the group's, the parameter headers. *)
Definition check_tool (r : Request) (server : McpServerConfig) (rule : option McpGroupToolRule)
    (message : json) (p : PolicyState) : option Refusal :=
  let id := rpc_id message in
  let method := method_of message in
  let tool := tool_of message in
  match toolCallDecision p server tool with
  | Some pin => Some (refuse server method out_denied [] 200 id TOOL_DEFINITION_CHANGED
                        ("Tool " +:+ tool_label tool +:+ " changed since it was approved"))
  | Some invalid_header => Some (refuse server method out_denied [] 200 id TOOL_DENIED
                        ("Tool " +:+ tool_label tool +:+ " has an invalid x-mcp-header annotation"))
  | Some _ => Some (refuse server method out_denied [] 200 id TOOL_DENIED
                        ("Tool " +:+ tool_label tool +:+ " is not allowed on this server"))
  | None =>
      let name := match tool with Some (JStr n) => n | _ => "" end in
      if negb (groupToolAllowed rule name)
      then Some (refuse server method out_denied [PolicyDenied mcp_tool_not_allowed (ms_id server) (Some name)]
                   200 id TOOL_DENIED ("Tool " +:+ tool_label tool +:+ " is not allowed for your group"))
      else match paramHeaderMismatch p server (rq_headers r) message with
           | Some m => Some (refuse server method out_invalid [] 400 id HEADER_MISMATCH ("Header mismatch: " +:+ m))
           | None => None
           end
  end.

Definition finish (server : McpServerConfig) (message : json) (outcome : McpOutcome) (s : State) : State :=
  let s := record (RequestRecorded (ms_id server) (method_of message) outcome) s in
  if isToolCall message && match outcome with out_denied | out_invalid => false | _ => true end
  then record (ToolCallRecorded (ms_id server) (tool_of message) outcome) s else s.

(** ** The answer *)

Definition groupAllows (rule : option McpGroupToolRule) (name : string) : bool := groupToolAllowed rule name.

(** The check of a response to [tools/list] or [tools/call]: its replacement. *)
Definition onResponse (server : McpServerConfig) (rule : option McpGroupToolRule) (message response : json)
    (s : State) : option json * State :=
  if is_text (method_of message) "tools/list" then
    if truthy (prop (Some response) "error") then (None, finish server message out_error s)
    else
      let '(fl, p) := filterToolsList number_text sha256_hex server (groupAllows rule)
                        (prop (Some response) "result") (s_policy s) in
      (Some (JObj (obj_put (match response with JObj o => o | _ => [] end) "result" (fl_result fl))),
       finish server message out_ok (set_policy p s))
  else
    let '(blocked, w) := mcpGuardrailsBlock executeHooks (ms_outputGuardrails server) output
                           (toolResultText JSON_stringify response) (s_world s) in
    let s := set_w w s in
    if blocked
    then (Some (errorMessage (rpc_id message) GUARDRAIL_BLOCKED "The tool result was blocked by a guardrail"),
          finish server message out_blocked s)
    else
      let failed := truthy (prop (Some response) "error") ||
                    match prop (prop (Some response) "result") "isError" with Some (JBool b) => b | _ => false end in
      (None, finish server message (if failed then out_error else out_ok) s).

Definition inspect (message : json) : bool :=
  is_text (method_of message) "tools/list" || isToolCall message.

Definition stream_options (server : McpServerConfig) (rule : option McpGroupToolRule) (message : json)
    : SseFilterOptions (W := State * bool) :=
  let missing (s : State) (answered : bool) :=
    if inspect message && negb answered then finish server message out_upstream_error s else s in
  mkOptions (Some (rpc_id message)) (Z.to_nat (ms_maxResponseBytes server))
    (if inspect message
     then Some (fun m x => let '(rep, s) := onResponse server rule message m x.1 in (rep, (s, true))) else None)
    (Some (fun x => (errorMessage (rpc_id message) UPSTREAM_ERROR "The MCP server response is too large",
                     (missing x.1 x.2, true))))
    (Some (fun x => (missing x.1 x.2, x.2))).

(** What is released of the upstream's answer to a request. *)
Definition release (server : McpServerConfig) (rule : option McpGroupToolRule) (message : json)
    (u : Upstream) (s : State) : Response * State :=
  let id := rpc_id message in
  if negb (up_ok u) then
    match upstreamErrorMessage u server id with
    | None =>
        (rpcError (up_status u) id UPSTREAM_ERROR ("The MCP server answered with HTTP " +:+ String_of (up_status u)),
         finish server message out_error s)
    | Some e =>
        let '(replacement, s) := if inspect message then onResponse server rule message e s
                                 else (None, finish server message out_error s) in
        (jsonResponse (default e replacement) (up_status u) u, s)
    end
  else if (contentTypeOf u =? SSE_TYPE)%string && match up_body u with Some _ => true | None => false end then
    let s := if inspect message then s else finish server message out_ok s in
    let b := default (mkBody [] "" 0 false) (up_body u) in
    let st := filterSseStream JSON_parse JSON_stringify (stream_options server rule message)
                (b_chunks b) (b_rest b) (s, false) in
    (mkResponse (up_status u) (clientHeaders u true) (Streamed (sent st)), (world st).1)
  else if (contentTypeOf u =? JSON_TYPE)%string then
    let raw := readLimited (up_body u) (ms_maxResponseBytes server) in
    match parsed raw with
    | Some response =>
        if isResponse response && same_id response id then
          let '(replacement, s) := if inspect message then onResponse server rule message response s
            else (None, finish server message (if truthy (prop (Some response) "error") then out_error else out_ok) s) in
          (jsonResponse (default response replacement) (up_status u) u, s)
        else (rpcError 502 id UPSTREAM_ERROR "The MCP server sent an invalid response",
              finish server message out_upstream_error s)
    | None =>
        (rpcError 502 id UPSTREAM_ERROR
           (match raw with None => "The MCP server response is too large or too slow"
            | Some _ => "The MCP server sent an invalid response" end),
         finish server message out_upstream_error s)
    end
  else (rpcError 502 id UPSTREAM_ERROR "The MCP server sent an unsupported response type",
        finish server message out_upstream_error s).

(** The answer to what was forwarded. *)
Definition answer (server : McpServerConfig) (rule : option McpGroupToolRule) (message : json)
    (u : Upstream) (s : State) : Response * State :=
  let id := rpc_id message in
  match credentialRejection u id with
  | Some rejected => (rejected, finish server message out_upstream_error s)
  | None =>
      if match method_of message with None => true | _ => false end ||
         match id with JNull => true | _ => false end
      then (withoutBody u, finish server message (if up_ok u then out_ok else out_error) s)
      else if (up_status u =? 202)%Z
      then (rpcError 502 id UPSTREAM_ERROR "The MCP server sent no response", finish server message out_upstream_error s)
      else release server rule message u s
  end.

(** ** The handler *)

Definition apply_refusal (rf : Refusal) (s : State) : Response * State :=
  (rf_response rf, foldl (fun s e => record e s) s (rf_events rf)).

Definition forward (r : Request) (server : McpServerConfig) (rule : option McpGroupToolRule)
    (message : json) (s : State) : Response * State :=
  match callUpstream r server "POST" (Some (JSON_stringify message)) s with
  | (Throw e, s) => (upstreamFailure (rpc_id message) e, finish server message out_upstream_error s)
  | (Ok u, s) => answer server rule message u s
  end.

(** A parsed message, from its checks on. *)
Definition handle_message (r : Request) (server : McpServerConfig) (rule : option McpGroupToolRule)
    (message : json) (s : State) : Response * State :=
  let id := rpc_id message in
  let method := method_of message in
  match check_message r server message with
  | Some rf => apply_refusal rf s
  | None =>
  if uses_tasks message
  then apply_refusal (refuse server method out_denied [] 200 id TOOL_DENIED
                        "Tasks are not supported by the MCP proxy") s
  else if isToolCall message then
    match check_tool r server rule message (s_policy s) with
    | Some rf => apply_refusal rf s
    | None =>
        let '(blocked, w) := mcpGuardrailsBlock executeHooks (ms_inputGuardrails server) input
          (toolCallInputText JSON_stringify (prop (Some message) "params")) (s_world s) in
        let s := set_w w s in
        if blocked
        then apply_refusal (refuse server method out_blocked
               [ToolCallRecorded (ms_id server) (tool_of message) out_blocked]
               200 id GUARDRAIL_BLOCKED "The tool call was blocked by a guardrail") s
        else forward r server rule message s
    end
  else forward r server rule message s
  end.

Definition is_message (v : json) : bool :=
  match v with JObj _ => strict_eq (prop (Some v) "jsonrpc") (JStr "2.0") | _ => false end.

Definition declared_size (headers : obj string) : num :=
  match own headers "content-length" with Some v => to_number v | None => NaN end.

(** A POST: its body read and parsed. *)
Definition handle_post (r : Request) (server : McpServerConfig) (rule : option McpGroupToolRule) (s : State)
    : Response * State :=
  let bad status code text := apply_refusal (refuse server None out_invalid [] status JNull code text) s in
  if negb (mime_of (own (rq_headers r) "content-type") =? JSON_TYPE)%string
  then bad 415%Z INVALID_REQUEST "Content-Type must be application/json"
  else
    let size := declared_size (rq_headers r) in
    if is_finite size && nltb (num_of_Z (ms_maxRequestBytes server)) size
    then bad 413%Z INVALID_REQUEST "The request body is too large"
    else match readRequestBody r (ms_maxRequestBytes server) with
    | None => bad 413%Z INVALID_REQUEST "The request body is too large"
    | Some text =>
        match JSON_parse text with
        | None => bad 400%Z PARSE_ERROR "The body is not valid JSON"
        | Some message =>
            if negb (is_message message)
            then bad 400%Z INVALID_REQUEST
                   (match message with JArr _ => "JSON-RPC batches are not supported"
                    | _ => "The body must be one JSON-RPC 2.0 message" end)
            else handle_message r server rule message s
        end
    end.

(** GET and DELETE. *)
Definition handle_other (r : Request) (server : McpServerConfig) (s : State) : Response * State :=
  let recorded o s := record (RequestRecorded (ms_id server) (Some (JStr (rq_method r))) o) s in
  match callUpstream r server (rq_method r) None s with
  | (Throw e, s) => (upstreamFailure JNull e, recorded out_upstream_error s)
  | (Ok u, s) =>
      let s := recorded (if up_ok u then out_ok else out_error) s in
      match credentialRejection u JNull with
      | Some rejected => (rejected, s)
      | None =>
          match up_body u with
          | Some b =>
              if (rq_method r =? "GET")%string && up_ok u && (contentTypeOf u =? SSE_TYPE)%string
              then let st := filterSseStream JSON_parse JSON_stringify
                     (mkOptions None (Z.to_nat (ms_maxResponseBytes server)) None None None)
                     (b_chunks b) (b_rest b) tt in
                   (mkResponse (up_status u) (clientHeaders u true) (Streamed (sent st)), s)
              else (withoutBody u, s)
          | None => (withoutBody u, s)
          end
      end
  end.

Definition auth_request (r : Request) : AuthRequest :=
  mkAuth (rq_identity r) (rq_token r) (rq_allow_unauthenticated r) (own (rq_headers r) "authorization").

Definition unknown (outcome : McpOutcome) (s : State) : State := record (RequestRecorded "unknown" None outcome) s.

Definition mcpHandler (r : Request) (s : State) : Response * State :=
  match checkMcpClient (auth_request r) with
  | (auth_failed status message, reason) =>
      let s := match reason with Some x => record (AuthFailure x) s | None => s end in
      (rpcError status JNull UNAUTHORIZED message, unknown out_invalid s)
  | (auth_ok, _) =>
      let access := groupServerAccess (rq_group r) (rq_server r) in
      match access with
      | restricted None =>
          (rpcError 403 JNull SERVER_DENIED
             "Forbidden by gateway policy: this MCP server is not allowed for your group",
           record (PolicyDenied mcp_server_not_allowed (rq_server r) None) (unknown out_denied s))
      | _ =>
          let rule := match access with restricted rule => rule | unrestricted => None end in
          match own servers (rq_server r) with
          | None => (rpcError 404 JNull UNKNOWN_SERVER "Unknown MCP server", unknown out_invalid s)
          | Some server =>
              if negb (rq_method r =? "POST")%string then handle_other r server s
              else handle_post r server rule s
          end
      end
  end.
End Handler.

(** ** What is recorded *)

Definition is_forward (e : Event) : bool := match e with Forwarded _ _ _ _ => true | _ => false end.

Section Records.
Context {W : Type}.
Variable JSON_parse : string -> option json.
Variable JSON_stringify : json -> string.
Variable number_text : num -> string.
Variable sha256_hex : string -> string.
Variable isSafeUpstreamURL : string -> bool.
Variable fetch : McpServerConfig -> string -> obj string -> option string -> W -> result bool Upstream * W.
Variable executeHooks : option (list json -> GuardrailStage -> string -> W -> option (list (option HookResult)) * W).
Variable servers : obj McpServerConfig.

#[local] Abbreviation State := (State (W := W)).
#[local] Abbreviation handler := (mcpHandler JSON_parse JSON_stringify number_text sha256_hex isSafeUpstreamURL
  fetch executeHooks servers).

(** Nothing was forwarded on the way from a state to another. *)
Definition quiet (s s' : State) : Prop :=
  exists new, s_events s' = s_events s ++ new /\ Forall (fun e => is_forward e = false) new.

Lemma quiet_refl s : quiet s s.
Proof. exists []. by rewrite app_nil_r. Qed.

Lemma quiet_trans s1 s2 s3 : quiet s1 s2 -> quiet s2 s3 -> quiet s1 s3.
Proof.
  intros (n1 & H1 & F1) (n2 & H2 & F2). exists (n1 ++ n2). rewrite H2, H1, app_assoc.
  split; [done|]. by apply Forall_app.
Qed.

Lemma quiet_record e s : is_forward e = false -> quiet s (record e s).
Proof. intros He. exists [e]. split; [done|]. by constructor. Qed.

Lemma quiet_set_w w s : quiet s (set_w w s).
Proof. exists []. by rewrite app_nil_r. Qed.

Lemma quiet_finish server message outcome s : quiet s (finish server message outcome s).
Proof.
  unfold finish. destruct (_ && _); [|by apply quiet_record].
  eapply quiet_trans; by apply quiet_record.
Qed.

Lemma quiet_onResponse server rule message response s :
  quiet s (onResponse JSON_stringify number_text sha256_hex executeHooks server rule message response s).2.
Proof.
  unfold onResponse. destruct (is_text _ _).
  - destruct (truthy _); [apply quiet_finish|]. destruct (filterToolsList _ _ _ _ _ _) as [fl p].
    eapply quiet_trans; [|apply quiet_finish]. exists []. by rewrite app_nil_r.
  - destruct (mcpGuardrailsBlock _ _ _ _ _) as [b w].
    destruct b; (eapply quiet_trans; [apply quiet_set_w|apply quiet_finish]).
Qed.

Lemma quiet_stream server rule message chunks rest s :
  quiet s (world (filterSseStream JSON_parse JSON_stringify
    (stream_options JSON_stringify number_text sha256_hex executeHooks server rule message) chunks rest (s, false))).1.
Proof.
  apply (world_invariant _ _ _ (fun x => quiet s x.1)); [| | |apply quiet_refl]; unfold stream_options; simpl.
  - intros f m [s1 a] Hf Hq. destruct (inspect message); [|done]. injection Hf as <-. cbn [fst].
    pose proof (quiet_onResponse server rule message m s1) as Ho. destruct (onResponse _ _ _ _ _ _ _ _ _) as [rep s2].
    by eapply quiet_trans.
  - intros f [s1 a] [= <-] Hq. cbn [fst snd] in *. destruct (_ && _); [|done].
    eapply quiet_trans; [done|apply quiet_finish].
  - intros f [s1 a] [= <-] Hq. cbn [fst snd] in *. destruct (_ && _); [|done].
    eapply quiet_trans; [done|apply quiet_finish].
Qed.

Lemma quiet_release server rule message u s :
  quiet s (release JSON_parse JSON_stringify number_text sha256_hex executeHooks server rule message u s).2.
Proof.
  unfold release. destruct (negb (up_ok u)).
  { destruct (upstreamErrorMessage _ _ _ _) as [e|]; [|apply quiet_finish].
    pose proof (quiet_onResponse server rule message e s) as Ho.
    destruct (inspect message); [|apply quiet_finish]. by destruct (onResponse _ _ _ _ _ _ _ _ _). }
  destruct (_ && _).
  { destruct (inspect message); [apply quiet_stream|].
    eapply quiet_trans; [apply quiet_finish|apply quiet_stream]. }
  destruct (_ =? _)%string; [|apply quiet_finish].
  destruct (parsed _ _) as [response|]; [|apply quiet_finish].
  destruct (_ && _); [|apply quiet_finish].
  pose proof (quiet_onResponse server rule message response s) as Ho.
  destruct (inspect message); [|apply quiet_finish]. by destruct (onResponse _ _ _ _ _ _ _ _ _).
Qed.

Lemma quiet_answer server rule message u s :
  quiet s (answer JSON_parse JSON_stringify number_text sha256_hex executeHooks server rule message u s).2.
Proof.
  unfold answer. destruct (credentialRejection _ _ _); [apply quiet_finish|].
  destruct (_ || _); [apply quiet_finish|]. destruct (_ =? _)%Z; [apply quiet_finish|apply quiet_release].
Qed.

Definition quiet_events (l : list Event) : Prop := Forall (fun e => is_forward e = false) l.

Lemma quiet_refusal rf s : quiet_events (rf_events rf) -> quiet s (apply_refusal rf s).2.
Proof.
  unfold apply_refusal, quiet_events. cbn [snd]. generalize (rf_events rf) as l. intros l. revert s.
  induction l as [|e l IH]; intros s H; simpl; [apply quiet_refl|].
  inversion H; subst. eapply quiet_trans; [by apply quiet_record|by apply IH].
Qed.

(** ** What a forwarded message went through *)

(** The caller may use the server, with these tool rules. *)
Definition group_admits (r : Request) (rule : option McpGroupToolRule) : Prop :=
  (rq_group r = None /\ rule = None) \/
  exists groups x, rq_group r = Some groups /\ own groups (rq_server r) = Some x /\ rule = Some x.

(** A call of a tool that every check let through, in the state it was checked. *)
Definition call_admitted (r : Request) (server : McpServerConfig) (rule : option McpGroupToolRule)
    (message : json) (s : State) : Prop :=
  exists n, tool_of message = Some (JStr n) /\ valid_name n = true /\
    toolAllowedByList server n = true /\ groupToolAllowed rule n = true /\
    toolCallDecision (s_policy s) server (Some (JStr n)) = None /\
    paramHeaderMismatch (s_policy s) server (rq_headers r) message = None /\
    passed executeHooks (ms_inputGuardrails server) input
      (toolCallInputText JSON_stringify (prop (Some message) "params")) (s_world s).

(** A JSON-RPC 2.0 message a client may send: a request with an id, a notification
    without one, or the response to a request of the server. *)
Definition well_formed (message : json) : Prop :=
  is_object (Some message) = true /\ prop (Some message) "jsonrpc" = Some (JStr "2.0") /\
  ((exists m, method_of message = Some (JStr m) /\
      (hasProperty message "id" = true /\ isRpcId (prop (Some message) "id") = true \/
       hasProperty message "id" = false /\ startsWith m "notifications/" = true) /\
      (forall params, prop (Some message) "params" = Some params ->
         (exists l, params = JArr l) \/ exists o, params = JObj o)) \/
   (method_of message = None /\ isResponse message = true)).

Definition admitted (r : Request) (s : State) (e : Event) : Prop :=
  (checkMcpClient (auth_request r)).1 = auth_ok /\
  exists server rule, own servers (rq_server r) = Some server /\ group_admits r rule /\
    isSafeUpstreamURL (ms_url server) = true /\
    ((rq_method r <> "POST" /\
      e = Forwarded (ms_id server) (rq_method r) (upstreamHeaders (rq_headers r) server false) None) \/
     (rq_method r = "POST" /\ exists text message,
        readRequestBody r (ms_maxRequestBytes server) = Some text /\ JSON_parse text = Some message /\
        e = Forwarded (ms_id server) "POST" (upstreamHeaders (rq_headers r) server true) (Some (JSON_stringify message)) /\
        mime_of (own (rq_headers r) "content-type") = JSON_TYPE /\ well_formed message /\
        (method_of message <> None -> headerMismatch (rq_headers r) message = None) /\
        uses_tasks message = false /\
        (isToolCall message = true -> call_admitted r server rule message s))).

(** The forwarded events of a run have a property. *)
Definition forwards (P : Event -> Prop) (s s' : State) : Prop :=
  exists new, s_events s' = s_events s ++ new /\ Forall (fun e => is_forward e = true -> P e) new.

Lemma quiet_forwards P s s' : quiet s s' -> forwards P s s'.
Proof. intros (new & H & F). exists new. split; [done|]. eapply Forall_impl; [exact F|]. simpl. congruence. Qed.

Lemma forwards_trans P s1 s2 s3 : forwards P s1 s2 -> forwards P s2 s3 -> forwards P s1 s3.
Proof.
  intros (n1 & H1 & F1) (n2 & H2 & F2). exists (n1 ++ n2). rewrite H2, H1, app_assoc.
  split; [done|]. by apply Forall_app.
Qed.

Lemma forwards_call (P : Event -> Prop) r server method body s :
  (isSafeUpstreamURL (ms_url server) = true ->
   P (Forwarded (ms_id server) method
        (upstreamHeaders (rq_headers r) server (match body with Some _ => true | None => false end)) body)) ->
  forwards P s (callUpstream JSON_stringify isSafeUpstreamURL fetch r server method body s).2.
Proof.
  intros HP. unfold callUpstream. destruct (isSafeUpstreamURL _) eqn:Hsafe; cbn [negb].
  2:{ apply quiet_forwards, quiet_refl. }
  destruct (fetch _ _ _ _ _) as [[u|t] w]; cbn [snd]; eexists [_]; (split; [done|]); constructor; auto.
Qed.

Lemma forwards_forward (P : Event -> Prop) r server rule message s :
  (isSafeUpstreamURL (ms_url server) = true ->
   P (Forwarded (ms_id server) "POST" (upstreamHeaders (rq_headers r) server true) (Some (JSON_stringify message)))) ->
  forwards P s (forward JSON_parse JSON_stringify number_text sha256_hex isSafeUpstreamURL fetch executeHooks
                  r server rule message s).2.
Proof.
  intros HP. unfold forward.
  pose proof (forwards_call P r server "POST" (Some (JSON_stringify message)) s HP) as Hc.
  destruct (callUpstream _ _ _ _ _ _ _ _) as [[u|e] s1]; cbn [snd] in *;
    (eapply forwards_trans; [exact Hc|apply quiet_forwards]); [apply quiet_answer|apply quiet_finish].
Qed.

Lemma good_request message m :
  method_of message = Some m -> bad_request message = false ->
  exists n, m = JStr n /\
    (hasProperty message "id" = true /\ isRpcId (prop (Some message) "id") = true \/
     hasProperty message "id" = false /\ startsWith n "notifications/" = true) /\
    (forall params, prop (Some message) "params" = Some params ->
       (exists l, params = JArr l) \/ exists o, params = JObj o).
Proof.
  unfold method_of, bad_request. intros -> H. cbv zeta in H.
  apply orb_false_iff in H as [H Hp]. apply orb_false_iff in H as [H Hid]. apply orb_false_iff in H as [Hm Hn].
  destruct m as [| | |n| |]; try done. exists n. split; [done|]. cbn [startsWith_any] in Hn. split.
  - destruct (hasProperty message "id"); cbn [negb andb] in Hn, Hid; [left|right]; split; try done.
    + by apply negb_false_iff in Hid.
    + by apply negb_false_iff in Hn.
  - intros params E. rewrite E in Hp. destruct params as [| | | |l|o]; try done; [left; by exists l|]. right. by exists o.
Qed.

Lemma check_message_None r server message :
  check_message JSON_stringify r server message = None -> is_message message = true ->
  well_formed message /\ (method_of message <> None -> headerMismatch (rq_headers r) message = None).
Proof.
  unfold check_message, is_message. intros Hc Hm.
  destruct message as [| | | | |o] eqn:Eo; try done. rewrite <- Eo in *.
  assert (Hj : is_object (Some message) = true /\ prop (Some message) "jsonrpc" = Some (JStr "2.0")).
  { split; [by rewrite Eo|]. unfold strict_eq in Hm. destruct (prop (Some message) "jsonrpc") as [[]|]; try done.
    apply String.eqb_eq in Hm. by subst. }
  destruct (method_of message) as [m|] eqn:Em.
  - destruct (bad_request message) eqn:Hb; [done|]. destruct (headerMismatch _ _) eqn:Hh; [done|].
    destruct (good_request _ _ Em Hb) as (n & -> & Hid & Hp).
    split; [|done]. split; [apply Hj|]. split; [apply Hj|]. left. by exists n.
  - destruct (isResponse message) eqn:Er; [|done]. split; [|done].
    split; [apply Hj|]. split; [apply Hj|]. by right.
Qed.

Lemma refusal_quiet r server message : match check_message JSON_stringify r server message with
  | Some rf => quiet_events (rf_events rf) | None => True end.
Proof.
  unfold check_message. destruct (method_of message).
  - destruct (bad_request _); [by repeat constructor|]. destruct (headerMismatch _ _); by repeat constructor.
  - destruct (isResponse _); by repeat constructor.
Qed.

Lemma tool_refusal_quiet r server rule message p : match check_tool JSON_stringify r server rule message p with
  | Some rf => quiet_events (rf_events rf) | None => True end.
Proof.
  unfold check_tool. destruct (toolCallDecision _ _ _) as [[]|]; try by repeat constructor.
  destruct (negb _); [by repeat constructor|]. destruct (paramHeaderMismatch _ _ _ _); by repeat constructor.
Qed.

Lemma check_tool_None r server rule message p :
  check_tool JSON_stringify r server rule message p = None ->
  exists n, tool_of message = Some (JStr n) /\ valid_name n = true /\ toolAllowedByList server n = true /\
    groupToolAllowed rule n = true /\ toolCallDecision p server (Some (JStr n)) = None /\
    paramHeaderMismatch p server (rq_headers r) message = None.
Proof.
  unfold check_tool. destruct (toolCallDecision p server (tool_of message)) as [[]|] eqn:Hd; try done.
  pose proof Hd as Hd'. unfold toolCallDecision in Hd'.
  destruct (tool_of message) as [[| | |n| |]|]; try done.
  destruct (valid_name n) eqn:Hv; [|done]. destruct (toolAllowedByList server n) eqn:Hl; [|done].
  destruct (groupToolAllowed rule n) eqn:Hg; [|done]. cbn [negb].
  destruct (paramHeaderMismatch _ _ _ _) eqn:Hp; [done|]. intros _. by exists n.
Qed.

Lemma handle_message_forwards r server rule text message s :
  (checkMcpClient (auth_request r)).1 = auth_ok -> own servers (rq_server r) = Some server ->
  group_admits r rule -> rq_method r = "POST" ->
  readRequestBody r (ms_maxRequestBytes server) = Some text -> JSON_parse text = Some message ->
  mime_of (own (rq_headers r) "content-type") = JSON_TYPE -> is_message message = true ->
  forwards (admitted r s) s (handle_message JSON_parse JSON_stringify number_text sha256_hex isSafeUpstreamURL fetch
                               executeHooks r server rule message s).2.
Proof.
  intros Hauth Hserver Hgroup Hpost Htext Hparse Hmime Hmsg. unfold handle_message.
  pose proof (refusal_quiet r server message) as Hq1.
  destruct (check_message JSON_stringify r server message) eqn:Hc; [by apply quiet_forwards, quiet_refusal|].
  destruct (uses_tasks message) eqn:Ht; [apply quiet_forwards, quiet_refusal; by repeat constructor|].
  assert (Hadm : forall tool, (isToolCall message = true -> tool) -> (tool -> call_admitted r server rule message s) ->
    isSafeUpstreamURL (ms_url server) = true ->
    admitted r s (Forwarded (ms_id server) "POST" (upstreamHeaders (rq_headers r) server true)
      (Some (JSON_stringify message)))).
  { intros tool H1 H2 Hsafe. split; [done|]. exists server, rule. repeat split; try done. right. split; [done|].
    destruct (check_message_None r server message Hc Hmsg) as [Hwf Hmir].
    exists text, message. split_and!; try done. auto. }
  destruct (isToolCall message) eqn:Htc.
  2:{ apply forwards_forward. apply (Hadm False); [done|by intros []]. }
  pose proof (tool_refusal_quiet r server rule message (s_policy s)) as Hq2.
  destruct (check_tool _ _ _ _ _ _) eqn:Hct; [by apply quiet_forwards, quiet_refusal|].
  destruct (check_tool_None _ _ _ _ _ Hct) as (n & Hn & Hv & Hl & Hg & Hd & Hp).
  pose proof (block_passed executeHooks (ms_inputGuardrails server) input
    (toolCallInputText JSON_stringify (prop (Some message) "params")) (s_world s)) as Hgr.
  destruct (mcpGuardrailsBlock _ _ _ _ _) as [blocked w]. cbn [fst] in Hgr.
  eapply forwards_trans; [apply quiet_forwards, (quiet_set_w w)|].
  destruct blocked; [apply quiet_forwards, quiet_refusal; by repeat constructor|].
  apply forwards_forward. apply (Hadm True); [done|]. intros _. exists n.
  repeat split; try done. by apply Hgr.
Qed.

(** [C4] Nothing reaches an upstream unchecked: whatever the client sends, a
    request forwarded goes to the configured server of the path, at an address
    that is safe, for an authenticated client whose group may use it, with the
    server's headers; a POST of JSON carries the message that was checked, written
    anew: one well formed JSON-RPC 2.0 request, notification or response, with matching
    mirrored headers and no task; and a tool call names a tool that
    the server's lists, its pin and the group's rule allow, whose parameter
    headers match and whose text every input guardrail let pass. *)
Theorem forwarded_requests_are_checked r s :
  forwards (admitted r s) s (handler r s).2.
Proof.
  unfold mcpHandler. destruct (checkMcpClient (auth_request r)) as [[|status message] reason] eqn:Ha.
  2:{ apply quiet_forwards. destruct reason; cbn [snd];
        [eapply quiet_trans; [|by apply quiet_record]|]; by apply quiet_record. }
  assert (Hauth : (checkMcpClient (auth_request r)).1 = auth_ok) by (by rewrite Ha).
  assert (Hmain : forall rule, group_admits r rule -> forwards (admitted r s) s
    (match own servers (rq_server r) with
     | None => (rpcError JSON_stringify 404 JNull UNKNOWN_SERVER "Unknown MCP server", unknown out_invalid s)
     | Some server =>
         if negb (rq_method r =? "POST")%string
         then handle_other JSON_parse JSON_stringify isSafeUpstreamURL fetch r server s
         else handle_post JSON_parse JSON_stringify number_text sha256_hex isSafeUpstreamURL fetch executeHooks
                r server rule s
     end).2).
  { intros rule Hg. destruct (own servers (rq_server r)) as [server|] eqn:Hs.
    2:{ apply quiet_forwards. by apply quiet_record. }
    destruct (String.eqb_spec (rq_method r) "POST") as [Hm|Hm]; cbn [negb].
    - unfold handle_post.
      destruct (String.eqb_spec (mime_of (own (rq_headers r) "content-type")) JSON_TYPE) as [Hmime|];
        cbn [negb]; [|by apply quiet_forwards, quiet_refusal; repeat constructor].
      destruct (_ && _); [by apply quiet_forwards, quiet_refusal; repeat constructor|].
      destruct (readRequestBody _ _) as [text|] eqn:Ht; [|by apply quiet_forwards, quiet_refusal; repeat constructor].
      destruct (JSON_parse text) as [message|] eqn:Hp; [|by apply quiet_forwards, quiet_refusal; repeat constructor].
      destruct (is_message message) eqn:Hmsg; cbn [negb]; [|by apply quiet_forwards, quiet_refusal; repeat constructor].
      by eapply handle_message_forwards.
    - unfold handle_other.
      pose proof (forwards_call (admitted r s) r server (rq_method r) None s) as Hc.
      assert (Hadm : isSafeUpstreamURL (ms_url server) = true -> admitted r s
        (Forwarded (ms_id server) (rq_method r) (upstreamHeaders (rq_headers r) server false) None)).
      { intros Hsafe. split; [done|]. exists server, rule. repeat split; try done. by left. }
      specialize (Hc Hadm). destruct (callUpstream _ _ _ _ _ _ _ _) as [[u|e] s1]; cbn [snd] in *.
      + eapply forwards_trans; [exact Hc|]. apply quiet_forwards.
        destruct (credentialRejection _ _ _); [by apply quiet_record|].
        destruct (up_body u); [|by apply quiet_record]. destruct (_ && _); by apply quiet_record.
      + eapply forwards_trans; [exact Hc|]. apply quiet_forwards. by apply quiet_record. }
  unfold groupServerAccess. destruct (rq_group r) as [groups|] eqn:Hgr.
  - destruct (own groups (rq_server r)) as [x|] eqn:Hx.
    + apply (Hmain (Some x)). right. by exists groups, x.
    + apply quiet_forwards. eapply quiet_trans; [|by apply quiet_record]. by apply quiet_record.
  - apply (Hmain None). by left.
Qed.
End Records.

(** ** The headers of an upstream request *)

(** Where a header of an upstream request comes from. *)
Definition header_source (headers : obj string) (server : McpServerConfig) (k v : string) : Prop :=
  (k ∈ FORWARDED_REQUEST_HEADERS /\ own headers k = Some v) \/
  (mcp_param_header k = true /\ (k, v) ∈ headers) \/
  (k = "accept" /\ v = JSON_TYPE +:+ ", " +:+ SSE_TYPE) \/ (k = "content-type" /\ v = JSON_TYPE) \/
  ms_authHeader server = Some (k, v).

(** The client's credentials stay at the gateway: every header of an upstream
    request is one of a fixed list or a parameter header, copied from the client,
    the gateway's own accept or content type, or the credential configured for the
    server; so an [authorization] header, a cookie or any other header of the
    client never reaches an upstream. *)
Theorem client_headers_stay headers server hasBody k v :
  own (upstreamHeaders headers server hasBody) k = Some v -> header_source headers server k v.
Proof.
  assert (Hput : forall (o : obj string) k v, (forall k v, own o k = Some v -> header_source headers server k v) ->
    header_source headers server k v ->
    forall k' v', own (obj_put o k v) k' = Some v' -> header_source headers server k' v').
  { intros o k0 v0 Ho H0 k' v'. rewrite own_put. destruct (String.eqb_spec k' k0) as [->|]; [by intros [= <-]|apply Ho]. }
  assert (H1 : forall l (o : obj string), (forall x, x ∈ l -> x ∈ FORWARDED_REQUEST_HEADERS) ->
    (forall k v, own o k = Some v -> header_source headers server k v) ->
    forall k v, own (foldl (copy_header headers) o l) k = Some v -> header_source headers server k v).
  { induction l as [|x l IH]; intros o Hl Ho; simpl; [done|]. apply IH; [intros; apply Hl; by right|].
    unfold copy_header. destruct (own headers x) as [w|] eqn:Hx; [|done]. apply Hput; [done|]. left.
    split; [apply Hl; by left|done]. }
  assert (H2 : forall l (o : obj string), (forall p, p ∈ l -> p ∈ headers) ->
    (forall k v, own o k = Some v -> header_source headers server k v) ->
    forall k v, own (foldl (fun out p => if mcp_param_header p.1 then obj_put out p.1 p.2 else out) o l) k = Some v ->
      header_source headers server k v).
  { induction l as [|x l IH]; intros o Hl Ho; simpl; [done|]. apply IH; [intros; apply Hl; by right|].
    destruct (mcp_param_header x.1) eqn:Hx; [|done]. apply Hput; [done|]. right; left.
    split; [done|]. apply Hl. destruct x. by left. }
  revert k v. unfold upstreamHeaders.
  pose proof (H1 FORWARDED_REQUEST_HEADERS [] ltac:(done) ltac:(done)) as Ha.
  pose proof (H2 headers _ ltac:(done) Ha) as Hb. revert Hb.
  generalize (foldl (fun out p => if mcp_param_header p.1 then obj_put out p.1 p.2 else out)
    (foldl (copy_header headers) [] FORWARDED_REQUEST_HEADERS) headers) as o. intros o Ho.
  assert (Hc : forall k v, own (if hasOwn o "accept" then o else obj_put o "accept" (JSON_TYPE +:+ ", " +:+ SSE_TYPE)) k
    = Some v -> header_source headers server k v).
  { destruct (hasOwn o "accept"); [done|]. apply Hput; [done|]. by right; right; left. }
  revert Hc. generalize (if hasOwn o "accept" then o else obj_put o "accept" (JSON_TYPE +:+ ", " +:+ SSE_TYPE)) as o2.
  intros o2 Hc.
  assert (Hd : forall k v, own (if hasBody then obj_put o2 "content-type" JSON_TYPE else o2) k = Some v ->
    header_source headers server k v).
  { destruct hasBody; [|done]. apply Hput; [done|]. by right; right; right; left. }
  destruct (ms_authHeader server) as [[n w]|] eqn:Hs; [|done]. apply Hput; [done|]. by right; right; right; right.
Qed.

(** ** What is released of a listing *)

Section Released.
Context {W : Type}.
Variable JSON_parse : string -> option json.
Variable JSON_stringify : json -> string.
Variable number_text : num -> string.
Variable sha256_hex : string -> string.
Variable executeHooks : option (list json -> GuardrailStage -> string -> W -> option (list (option HookResult)) * W).
Variable server : McpServerConfig.
Variable rule : option McpGroupToolRule.

Hypothesis stringify_plain : forall v, plain (JSON_stringify v) = true.

(** A message of a listing a client may see: unless it is an error, its tools are ones
    that the policy of the server and of the group show. *)
Definition listing_safe (m : json) : Prop :=
  truthy (prop (Some m) "error") = false ->
  exists sent, Forall (shown number_text sha256_hex server (groupAllows rule) sent)
    (match prop (Some m) "result" with Some r => tools_of r | None => [] end).

#[local] Abbreviation checked := (onResponse JSON_stringify number_text sha256_hex executeHooks server rule).

Lemma checked_listing message response s :
  is_text (method_of message) "tools/list" = true -> is_object (Some response) = true ->
  listing_safe (default response (checked message response s).1).
Proof.
  intros Hm Ho. unfold onResponse. rewrite Hm. destruct (truthy (prop (Some response) "error")) eqn:He.
  { intros H. cbn [fst default] in H. by rewrite He in H. }
  destruct response as [| | | | |o]; try done. set (res := prop (Some (JObj o)) "result").
  pose proof (listing_shows number_text sha256_hex server (groupAllows rule) res (s_policy s)) as Hs.
  destruct (filterToolsList _ _ _ _ _ _) as [fl p]. cbn [fst] in *. intros _. exists (listed res). simpl.
  by rewrite own_put.
Qed.

Lemma error_is_safe id code text : listing_safe (errorMessage id code text).
Proof. done. Qed.

Lemma response_object m : isResponse m = true -> is_object (Some m) = true.
Proof. unfold isResponse. by destruct m. Qed.

(** What a response body says to a client of a listing. *)
Definition body_safe (b : ResponseBody) : Prop :=
  match b with
  | Empty => True
  | Text t => exists m, t = JSON_stringify m /\ listing_safe m
  | Streamed chunks =>
      strip_prefix BOM (McpSse.concat chunks) = None ->
      Forall (fun ev => eventData ev = None \/ eventData ev = Some "" \/
        exists m, eventData ev = Some (JSON_stringify m) /\ (isResponse m = false \/ listing_safe m))
        (client_events (McpSse.concat chunks))
  end.

(** [C27] Whatever an upstream answers to [tools/list], as JSON, as an HTTP error or as
    an event stream, each message the client can read in the response is not a
    response, or is one with an error, or lists only clean copies of tools that the
    server's policy and the group's rule show.  A response with an error is released as
    it is, also when it holds a result ([error_releases_hidden_tools]); and a stream
    must not begin with a byte order mark ([mark_smuggles_response]). *)
Theorem released_listing_is_filtered message u s :
  is_text (method_of message) "tools/list" = true ->
  body_safe (rs_body (release JSON_parse JSON_stringify number_text sha256_hex executeHooks
                        server rule message u s).1).
Proof.
  intros Hm. assert (Hinspect : inspect message = true) by (unfold inspect; by rewrite Hm).
  assert (Herr : forall st id code text, body_safe (rs_body (rpcError JSON_stringify st id code text))).
  { intros. eexists. split; [done|apply error_is_safe]. }
  unfold release. destruct (negb (up_ok u)).
  { destruct (upstreamErrorMessage _ _ _ _) as [e|] eqn:He; [|apply Herr]. rewrite Hinspect.
    assert (Hobj : is_object (Some e) = true).
    { revert He. unfold upstreamErrorMessage. destruct (negb _); [done|].
      destruct (parsed _ _) as [[]|]; try done. destruct (_ || _); [done|]. by intros [= <-]. }
    pose proof (checked_listing message e s Hm Hobj) as Hs.
    destruct (onResponse _ _ _ _ _ _ _ _ _) as [rep s']. eexists. split; [done|exact Hs]. }
  destruct (_ && _).
  - cbn [fst rs_body body_safe]. intros Hbom.
    pose proof (stream_harmless JSON_parse JSON_stringify
      (stream_options JSON_stringify number_text sha256_hex executeHooks server rule message) stringify_plain
      (b_chunks (default (mkBody [] "" 0 false) (up_body u)))
      (b_rest (default (mkBody [] "" 0 false) (up_body u)))
      ((if inspect message then s else finish server message out_ok s), false) Hbom) as Hh.
    eapply Forall_impl; [exact Hh|]. intros ev [H|[H|(m & H & Hrel)]]; [by left|by right; left|].
    right; right. exists m. split; [done|].
    destruct Hrel as [Hr|[(m0 & id & Hr & _ & _ & Hf)|(f & w & Hf & ->)]].
    + by left.
    + right. unfold stream_options in Hf. cbn [McpSse.onResponse] in Hf. rewrite Hinspect in Hf.
      destruct Hf as [[s0 a] ->]. cbn [fst].
      pose proof (checked_listing message m0 s0 Hm (response_object _ Hr)) as Hs.
      by destruct (onResponse _ _ _ _ _ _ _ _ _).
    + right. injection Hf as <-. apply error_is_safe.
  - destruct (_ =? _)%string; [|apply Herr]. destruct (parsed _ _) as [response|]; [|apply Herr].
    destruct (isResponse response && _) eqn:Hr; [|apply Herr]. rewrite Hinspect.
    apply andb_true_iff in Hr as [Hr _].
    pose proof (checked_listing message response s Hm (response_object _ Hr)) as Hs.
    destruct (onResponse _ _ _ _ _ _ _ _ _) as [rep s']. eexists. split; [done|exact Hs].
Qed.
End Released.

(** ** Concrete runs *)

Module Samples.
Definition one : json := JNum (num_of_Z 1).
Definition print (v : json) : string := if hasProperty v "error" then "error" else "message".
Definition list_request : json :=
  JObj [("jsonrpc", JStr "2.0"); ("id", one); ("method", JStr "tools/list")].
Definition call_request : json :=
  JObj [("jsonrpc", JStr "2.0"); ("id", one); ("method", JStr "tools/call");
        ("params", JObj [("name", JStr "weather"); ("arguments", JObj [])])].

Definition tool (n : string) : json := JObj [("name", JStr n)].
Definition tools : json := JObj [("tools", JArr [tool "weather"; tool "shell"])].
Definition listing : json := JObj [("jsonrpc", JStr "2.0"); ("id", one); ("result", tools)].
Definition both : json :=
  JObj [("jsonrpc", JStr "2.0"); ("id", one); ("error", JObj [("code", one)]); ("result", tools)].

Definition parse (s : string) : option json :=
  if (s =? "list")%string then Some list_request
  else if (s =? "call")%string then Some call_request
  else if (s =? "listing")%string then Some listing
  else if (s =? "both")%string then Some both else None.

Definition text (n : num) : string := "0".
Definition digest (s : string) : string := s.

Definition server : McpServerConfig :=
  mkServer "s" "https://mcp.test" (Some ("authorization", "Bearer upstream"))
    (mkLists allow_mode {["weather"]} ∅) ∅ block [] [] 30000 1048576 8388608 2048 None.

(** The upstream answers with a text. *)
Definition upstream (t : string) : Upstream :=
  mkUpstream 200 [("content-type", "application/json")] (Some (mkBody [t] "" 10 false)).

Definition fetch (t : string) (sv : McpServerConfig) (method : string) (h : obj string) (b : option string) (w : nat)
    : result bool Upstream * nat := (Ok (upstream t), S w).

Definition request (body : string) (headers : obj string) : Request :=
  mkRequest "POST" "s" (("content-type", "application/json") :: headers) (mkBody [body] "" 10 false) false
    false None (Some "0123456789abcdef") None.

Definition token : obj string := [("authorization", "Bearer 0123456789abcdef")].
Definition start : State (W := nat) := mkState (mkPolicy ∅ ∅) [] 0.

Definition handle (answer : string) (r : Request) : Response * State (W := nat) :=
  mcpHandler parse print text digest (fun _ => true) (fetch answer) None [("s", server)] r start.

Definition outcomes (s : State (W := nat)) : list McpOutcome :=
  omap (fun e => match e with RequestRecorded _ _ o => Some o | _ => None end) (s_events s).

Example a_call :
  let '(resp, s) := handle "listing" (request "call" token) in
  (rs_status resp, outcomes s, s_world s) = (200%Z, [out_ok], 1).
Proof. vm_compute. reflexivity. Qed.

Example without_a_token :
  let '(resp, s) := handle "listing" (request "call" []) in
  (rs_status resp, outcomes s, s_world s) = (401%Z, [out_invalid], 0).
Proof. vm_compute. reflexivity. Qed.

(** The tools a client would see of what is released. *)
Definition released_tools (answer : string) : list any :=
  match parse answer with
  | Some response =>
      map tool_name (match prop (Some (default response
        (onResponse print text digest (W := nat) None server None list_request response start).1)) "result" with
        Some r => tools_of r | None => [] end)
  | None => []
  end.

(** An answer to [tools/list] that carries both an error and a result is released
    as it is, with the tools the policy hides: the filter is skipped for an error,
    and nothing drops the result. *)
Theorem error_releases_hidden_tools :
  released_tools "listing" = [Some (JStr "weather")] /\
  released_tools "both" = [Some (JStr "weather"); Some (JStr "shell")] /\
  toolAllowedByList server "shell" = false /\
  rs_body (handle "both" (request "list" token)).1 = Text (print both).
Proof. vm_compute. repeat split. Qed.

(** A stream that repeats the response of a request records its outcome twice. *)
Example an_outcome_twice :
  let ev := "data: listing" +:+ lf +:+ lf in
  let u := mkUpstream 200 [("content-type", SSE_TYPE)] (Some (mkBody [ev; ev] "" 40 false)) in
  outcomes (release parse print text digest None server None list_request u start).2 = [out_ok; out_ok].
Proof. vm_compute. reflexivity. Qed.

Lemma client_headers_stay_witness :
  header_source token server "authorization" "Bearer upstream".
Proof. apply (client_headers_stay token server true). vm_compute. reflexivity. Defined.

Lemma printed_plain v : plain (print v) = true.
Proof. unfold print. by destruct (hasProperty v "error"). Qed.

Lemma released_listing_is_filtered_witness :
  body_safe print text digest server None
    (rs_body (release parse print text digest (W := nat) None server None list_request (upstream "listing") start).1).
Proof. apply released_listing_is_filtered; [apply printed_plain|]. vm_compute. reflexivity. Defined.
End Samples.
