(* ===== verification/Doubles.v ===== *)
(** * Integers in binary64

    A JavaScript number that holds an integer below [2^53] in absolute value is
    exact: this file gives the normal form of such a number, its order and its
    sum, so that the components that count, mask or compare whole numbers can
    be proved on integers. *)

From Stdlib Require Import ZArith Lia Floats.SpecFloat.
From stdpp Require Import base option list.
From S2P Require Import Prelude.

Set Default Goal Selector "!".

#[local] Open Scope Z_scope.

(** ** The digits of a mantissa *)

Definition ndigits (p : positive) : Z := Zpos (digits2_pos p).

Lemma ndigits_pos p : 1 <= ndigits p.
Proof. unfold ndigits. lia. Qed.

Lemma ndigits_bounds p : 2 ^ (ndigits p - 1) <= Zpos p < 2 ^ ndigits p.
Proof.
  unfold ndigits. induction p as [p IH|p IH|]; simpl digits2_pos; [..|by vm_compute].
  - rewrite Pos2Z.inj_succ, Z.pow_succ_r by lia.
    replace (Z.succ (Zpos (digits2_pos p)) - 1) with (Z.succ (Zpos (digits2_pos p) - 1)) by lia.
    rewrite Z.pow_succ_r by lia. lia.
  - rewrite Pos2Z.inj_succ, Z.pow_succ_r by lia.
    replace (Z.succ (Zpos (digits2_pos p)) - 1) with (Z.succ (Zpos (digits2_pos p) - 1)) by lia.
    rewrite Z.pow_succ_r by lia. lia.
Qed.

Lemma ndigits_unique p d : 0 <= d -> 2 ^ (d - 1) <= Zpos p < 2 ^ d -> ndigits p = d.
Proof.
  intros Hd [H1 H2]. pose proof (ndigits_bounds p) as [H3 H4].
  pose proof (ndigits_pos p). destruct (Z.lt_trichotomy (ndigits p) d) as [Hlt|[?|Hgt]]; [|done|].
  - assert (2 ^ ndigits p <= 2 ^ (d - 1)) by (apply Z.pow_le_mono_r; lia). lia.
  - assert (2 ^ d <= 2 ^ (ndigits p - 1)) by (apply Z.pow_le_mono_r; lia). lia.
Qed.

Lemma ndigits_mul p q k : 0 <= k -> Zpos q = Zpos p * 2 ^ k -> ndigits q = ndigits p + k.
Proof.
  intros Hk Hq. pose proof (ndigits_bounds p) as [H1 H2]. pose proof (ndigits_pos p).
  apply ndigits_unique; [lia|]. rewrite Hq.
  replace (ndigits p + k - 1) with ((ndigits p - 1) + k) by lia.
  rewrite !Z.pow_add_r by lia. pose proof (Z.pow_pos_nonneg 2 k ltac:(lia) Hk). nia.
Qed.

(** ** Shifts that lose nothing *)

Lemma iter_xO m d : Zpos (Pos.iter xO m d) = Zpos m * 2 ^ Zpos d.
Proof.
  induction d as [|d IH] using Pos.peano_ind; simpl; [lia|].
  rewrite Pos.iter_succ, Pos2Z.inj_succ, Z.pow_succ_r by lia. lia.
Qed.

Lemma iter_pos_nat {A} (f : A -> A) n x : SpecFloat.iter_pos f n x = Nat.iter (Pos.to_nat n) f x.
Proof.
  revert x. induction n as [n IH|n IH|]; intros x; [..|done]; cbn [SpecFloat.iter_pos]; rewrite !IH.
  - change (f x) with (Nat.iter 1 f x). rewrite <- !Nat.iter_add. f_equal. lia.
  - rewrite <- Nat.iter_add. f_equal. lia.
Qed.

Lemma shr_exact n p q k :
  Pos.to_nat n = k -> Zpos q = Zpos p * 2 ^ Z.of_nat k ->
  SpecFloat.iter_pos shr_1 n (Build_shr_record (Zpos q) false false) = Build_shr_record (Zpos p) false false.
Proof.
  intros Hn Hq. rewrite iter_pos_nat, Hn. clear n Hn. revert q Hq.
  induction k as [|k IH]; intros q Hq.
  - simpl in *. by replace q with p by lia.
  - assert (Hk : 0 < 2 ^ Z.of_nat k) by (apply Z.pow_pos_nonneg; lia).
    rewrite Nat2Z.inj_succ, Z.pow_succ_r in Hq by lia.
    set (r := Z.to_pos (Zpos p * 2 ^ Z.of_nat k)).
    assert (Hr : Zpos r = Zpos p * 2 ^ Z.of_nat k) by (unfold r; rewrite Z2Pos.id; lia).
    assert (Hx : q = xO r) by lia. rewrite Hx.
    rewrite Nat.iter_succ_r. by apply IH.
Qed.

(** The rounding step of an exact mantissa of 53 digits followed by zeros. *)
Lemma shr_fexp_exact p q e j :
  ndigits p = 53 -> 0 <= j -> -1074 <= e + j -> Zpos q = Zpos p * 2 ^ j ->
  shr_fexp 53 1024 (Zpos q) e loc_Exact = (Build_shr_record (Zpos p) false false, e + j).
Proof.
  intros Hp Hj He Hq. pose proof (ndigits_mul p q j Hj Hq) as Hd.
  unfold shr_fexp, fexp, emin. cbn [Zdigits2 shr_record_of_loc].
  change (Zpos (digits2_pos q)) with (ndigits q).
  replace (Z.max (ndigits q + e - 53) (3 - 1024 - 53) - e) with j by lia.
  destruct j as [|n|n]; [| |lia]; cbn [shr].
  - f_equal; [|lia]. f_equal. lia.
  - f_equal. apply (shr_exact n p q (Pos.to_nat n)); [done|]. by rewrite positive_nat_Z.
Qed.

(** ** The number an integer denotes *)

(** The 53-digit mantissa of an integer below [2^53]. *)
Definition mantissa (p : positive) : positive := Z.to_pos (Zpos p * 2 ^ (53 - ndigits p)).

Definition int_num (s : bool) (p : positive) : num := S754_finite s (mantissa p) (ndigits p - 53).

Lemma ndigits_small p : Zpos p < 2 ^ 53 -> ndigits p <= 53.
Proof.
  intros H. pose proof (ndigits_bounds p) as [H1 _].
  destruct (Z.le_gt_cases (ndigits p) 53) as [|Hgt]; [done|].
  assert (2 ^ 53 <= 2 ^ (ndigits p - 1)) by (apply Z.pow_le_mono_r; lia). lia.
Qed.

Lemma mantissa_eq p : Zpos p < 2 ^ 53 -> Zpos (mantissa p) = Zpos p * 2 ^ (53 - ndigits p).
Proof.
  intros H. pose proof (ndigits_small p H). unfold mantissa. rewrite Z2Pos.id; [done|].
  pose proof (Z.pow_pos_nonneg 2 (53 - ndigits p)). nia.
Qed.

Lemma ndigits_mantissa p : Zpos p < 2 ^ 53 -> ndigits (mantissa p) = 53.
Proof.
  intros H. pose proof (ndigits_small p H).
  rewrite (ndigits_mul p (mantissa p) (53 - ndigits p)); [lia..|]. by apply mantissa_eq.
Qed.

Lemma binary_round_aux_exact s p q e j :
  ndigits p = 53 -> 0 <= j -> -1074 <= e + j <= 0 -> Zpos q = Zpos p * 2 ^ j ->
  binary_round_aux 53 1024 s (Zpos q) e loc_Exact = S754_finite s p (e + j).
Proof.
  intros Hp Hj He Hq. unfold binary_round_aux.
  rewrite (shr_fexp_exact p q e j) by (done || lia). cbn [shr_m loc_of_shr_record round_nearest_even].
  rewrite (shr_fexp_exact p p (e + j) 0) by (done || lia). cbn [shr_m].
  rewrite Z.add_0_r. destruct (Z.leb_spec (e + j) (1024 - 53)); [done|lia].
Qed.

(** [a * 2^k * 2^(-k)] rounds to the number [a] denotes. *)
Lemma binary_round_int s a q k :
  Zpos a < 2 ^ 53 -> 0 <= k -> Zpos q = Zpos a * 2 ^ k ->
  binary_round 53 1024 s q (- k) = int_num s a.
Proof.
  intros Ha Hk Hq. pose proof (ndigits_small a Ha) as Hd. pose proof (ndigits_pos a).
  pose proof (ndigits_mul a q k Hk Hq) as Hdq.
  unfold binary_round, fexp, emin. change (Zpos (digits2_pos q)) with (ndigits q).
  replace (Z.max (ndigits q + - k - 53) (3 - 1024 - 53)) with (ndigits a - 53) by lia.
  unfold shl_align. pose proof (ndigits_mantissa a Ha) as Hm. pose proof (mantissa_eq a Ha) as Hme.
  destruct (ndigits a - 53 - - k) as [|d|d] eqn:Hdiff.
  - rewrite (binary_round_aux_exact s (mantissa a) q (- k) 0); [|done|lia..|].
    + unfold int_num. f_equal. lia.
    + rewrite Hq, Hme, Z.pow_0_r, Z.mul_1_r. f_equal. f_equal. lia.
  - rewrite (binary_round_aux_exact s (mantissa a) q (- k) (Zpos d)); [|done|lia..|].
    + unfold int_num. f_equal. lia.
    + rewrite Hq, Hme, <- Z.mul_assoc, <- Z.pow_add_r by lia. f_equal. f_equal. lia.
  - rewrite (binary_round_aux_exact s (mantissa a) _ (ndigits a - 53) 0); [|done|lia..|].
    + unfold int_num. f_equal. lia.
    + rewrite iter_xO, Hq, Hme, <- Z.mul_assoc, <- Z.pow_add_r by lia.
      rewrite Z.pow_0_r, Z.mul_1_r. f_equal. f_equal. lia.
Qed.

Lemma num_of_pos p : Zpos p < 2 ^ 53 -> num_of_Z (Zpos p) = int_num false p.
Proof.
  intros Hp. change (binary_round 53 1024 false p (- 0) = int_num false p).
  apply binary_round_int; [done|lia|]. lia.
Qed.

Lemma num_of_0 : num_of_Z 0 = nzero.
Proof. done. Qed.

(** ** Order and sum of integers *)

Lemma pos_compare_mantissa p q :
  Zpos p < 2 ^ 53 -> Zpos q < 2 ^ 53 ->
  match Z.compare (ndigits p - 53) (ndigits q - 53) with
  | Lt => Lt | Gt => Gt | Eq => Pos.compare_cont Eq (mantissa p) (mantissa q) end = Z.compare (Zpos p) (Zpos q).
Proof.
  intros Hp Hq. pose proof (ndigits_bounds p) as [? Hp2]. pose proof (ndigits_bounds q) as [? Hq2].
  pose proof (ndigits_small p Hp). pose proof (ndigits_small q Hq).
  destruct (Z.compare_spec (ndigits p - 53) (ndigits q - 53)) as [Heq|Hlt|Hgt].
  - change (Z.compare (Zpos (mantissa p)) (Zpos (mantissa q)) = Z.compare (Zpos p) (Zpos q)).
    rewrite !mantissa_eq by done. replace (ndigits q) with (ndigits p) by lia.
    pose proof (Z.pow_pos_nonneg 2 (53 - ndigits p) ltac:(lia) ltac:(lia)).
    by rewrite <- Zmult_compare_compat_r by lia.
  - symmetry. apply Z.compare_lt_iff.
    assert (2 ^ ndigits p <= 2 ^ (ndigits q - 1)) by (apply Z.pow_le_mono_r; lia). lia.
  - symmetry. apply Z.compare_gt_iff.
    assert (2 ^ ndigits q <= 2 ^ (ndigits p - 1)) by (apply Z.pow_le_mono_r; lia). lia.
Qed.

Lemma compare_ints a b :
  0 <= a < 2 ^ 53 -> 0 <= b < 2 ^ 53 -> SFcompare (num_of_Z a) (num_of_Z b) = Some (Z.compare a b).
Proof.
  intros Ha Hb. destruct a as [|p|p], b as [|q|q]; try lia; rewrite ?num_of_0, ?num_of_pos by lia; [done..|].
  cbn [SFcompare int_num]. f_equal. apply pos_compare_mantissa; lia.
Qed.

Lemma nleb_ints a b :
  0 <= a < 2 ^ 53 -> 0 <= b < 2 ^ 53 -> nleb (num_of_Z a) (num_of_Z b) = (a <=? b).
Proof.
  intros Ha Hb. unfold nleb, SFleb. rewrite compare_ints by done. unfold Z.leb. by case_match.
Qed.

Lemma nltb_ints a b :
  0 <= a < 2 ^ 53 -> 0 <= b < 2 ^ 53 -> nltb (num_of_Z a) (num_of_Z b) = (a <? b).
Proof.
  intros Ha Hb. unfold nltb, SFltb. rewrite compare_ints by done. unfold Z.ltb. by case_match.
Qed.

Lemma neqb_ints a b :
  0 <= a < 2 ^ 53 -> 0 <= b < 2 ^ 53 -> neqb (num_of_Z a) (num_of_Z b) = (a =? b).
Proof.
  intros Ha Hb. unfold neqb, SFeqb. rewrite compare_ints by done. rewrite Z.eqb_compare.
  by case_match.
Qed.

Lemma align_int p e :
  Zpos p < 2 ^ 53 -> e <= ndigits p - 53 ->
  Zpos (shl_align (mantissa p) (ndigits p - 53) e).1 = Zpos p * 2 ^ (- e).
Proof.
  intros Hp He. pose proof (ndigits_small p Hp). unfold shl_align.
  destruct (e - (ndigits p - 53)) as [|d|d] eqn:Hd; [|lia|]; cbn [fst].
  - rewrite mantissa_eq by done. f_equal. f_equal. lia.
  - rewrite iter_xO, mantissa_eq, <- Z.mul_assoc, <- Z.pow_add_r by (done || lia). f_equal. f_equal. lia.
Qed.

(** A sum of non-negative integers that stays below [2^53] is exact. *)
Lemma nadd_ints a b :
  0 <= a -> 0 <= b -> a + b < 2 ^ 53 -> nadd (num_of_Z a) (num_of_Z b) = num_of_Z (a + b).
Proof.
  intros Ha Hb Hab. destruct a as [|p|p], b as [|q|q]; try lia.
  - done.
  - rewrite num_of_0, Z.add_0_l, num_of_pos by lia. done.
  - rewrite num_of_0, Z.add_0_r, num_of_pos by lia. done.
  - rewrite !num_of_pos by lia. unfold nadd, int_num, SFadd. cbn [cond_Zopp].
    set (e := Z.min (ndigits p - 53) (ndigits q - 53)).
    pose proof (ndigits_small p ltac:(lia)). pose proof (ndigits_small q ltac:(lia)).
    rewrite !align_int by lia. rewrite <- Z.mul_add_distr_r.
    assert (Hk : 0 < 2 ^ (- e)) by (apply Z.pow_pos_nonneg; lia).
    destruct ((Zpos p + Zpos q) * 2 ^ (- e)) as [|m|m] eqn:Hm; [nia| |nia].
    change (Zpos p + Zpos q) with (Zpos (p + q)) in *. rewrite num_of_pos by done.
    cbn [binary_normalize]. replace e with (- - e) by lia. apply binary_round_int; [done|lia|]. lia.
Qed.

#[export] Hint Rewrite compare_ints nleb_ints nltb_ints neqb_ints nadd_ints using lia : ints.

(** ** Division by a power of two *)

Lemma ndigits_pow2 k : 0 <= k -> ndigits (Z.to_pos (2 ^ k)) = k + 1.
Proof.
  intros Hk. assert (0 < 2 ^ k) by (apply Z.pow_pos_nonneg; lia).
  apply ndigits_unique; [lia|]. rewrite Z2Pos.id by done. rewrite Z.add_simpl_r.
  split; [done|]. apply Z.pow_lt_mono_r; lia.
Qed.

Lemma mantissa_pow2 k : 0 <= k < 53 -> Zpos (mantissa (Z.to_pos (2 ^ k))) = 2 ^ 52.
Proof.
  intros Hk. assert (0 < 2 ^ k < 2 ^ 53) by (split; [apply Z.pow_pos_nonneg|apply Z.pow_lt_mono_r]; lia).
  rewrite mantissa_eq, ndigits_pow2, Z2Pos.id by (rewrite ?Z2Pos.id; lia).
  rewrite <- Z.pow_add_r by lia. f_equal. lia.
Qed.

(** Only the exponent changes. *)
Lemma ndiv_pow2 p k : Zpos p < 2 ^ 53 -> 0 <= k < 53 ->
  ndiv (num_of_Z (Zpos p)) (num_of_Z (2 ^ k)) = S754_finite false (mantissa p) (ndigits p - 53 - k).
Proof.
  intros Hp Hk. pose proof (ndigits_small p Hp). pose proof (ndigits_pos p).
  assert (Hpow : 0 < 2 ^ k < 2 ^ 53) by (split; [apply Z.pow_pos_nonneg|apply Z.pow_lt_mono_r]; lia).
  replace (2 ^ k) with (Zpos (Z.to_pos (2 ^ k))) by (rewrite Z2Pos.id; lia).
  rewrite !num_of_pos by (rewrite ?Z2Pos.id; lia). unfold ndiv, int_num, SFdiv, SFdiv_core_binary.
  cbn [Zdigits2 xorb].
  change (Zpos (digits2_pos (mantissa p))) with (ndigits (mantissa p)).
  change (Zpos (digits2_pos (mantissa (Z.to_pos (2 ^ k))))) with (ndigits (mantissa (Z.to_pos (2 ^ k)))).
  rewrite !ndigits_mantissa by (rewrite ?Z2Pos.id; lia). rewrite ndigits_pow2, mantissa_pow2 by lia.
  unfold fexp, emin.
  replace (Z.min _ _) with (ndigits p - 53 - (k + 1 - 53) - 53) by lia.
  replace (ndigits p - 53 - (k + 1 - 53) - (ndigits p - 53 - (k + 1 - 53) - 53)) with 53 by lia.
  rewrite Z.shiftl_mul_pow2 by lia.
  replace (Zpos (mantissa p) * 2 ^ 53) with (2 * Zpos (mantissa p) * 2 ^ 52) by lia.
  pose proof (Z.div_eucl_eq (2 * Zpos (mantissa p) * 2 ^ 52) (2 ^ 52) ltac:(lia)) as Heq.
  pose proof (Z_mod_mult (2 * Zpos (mantissa p)) (2 ^ 52)) as Hr.
  unfold Z.modulo in Hr. destruct (Z.div_eucl _ _) as [q r]. subst r.
  assert (Hq : q = Zpos (xO (mantissa p))) by lia. rewrite Hq.
  change (new_location (2 ^ 52) 0) with loc_Exact.
  rewrite (binary_round_aux_exact false (mantissa p) (xO (mantissa p)) _ 1);
    [f_equal; lia|by apply ndigits_mantissa|lia..].
Qed.

(** A whole number against a number of units of [2^k]. *)
Lemma nltb_scaled n l k : 0 <= n < 2 ^ 53 -> 0 <= k < 53 -> 0 <= l -> l * 2 ^ k < 2 ^ 53 ->
  nltb (num_of_Z l) (ndiv (num_of_Z n) (num_of_Z (2 ^ k))) = (l * 2 ^ k <? n).
Proof.
  intros Hn Hk Hl Hlk. assert (Hpow : 0 < 2 ^ k) by (apply Z.pow_pos_nonneg; lia).
  destruct n as [|p|p]; [|rewrite ndiv_pow2 by lia|lia].
  - assert (H0 : ndiv (num_of_Z 0) (num_of_Z (2 ^ k)) = num_of_Z 0).
    { replace (2 ^ k) with (Zpos (Z.to_pos (2 ^ k))) by (rewrite Z2Pos.id; lia).
      rewrite num_of_pos; [done|]. rewrite Z2Pos.id by lia. apply Z.pow_lt_mono_r; lia. }
    rewrite H0, nltb_ints by nia. lia.
  - destruct l as [|q|q]; [done| |lia].
    set (r := Z.to_pos (Zpos q * 2 ^ k)).
    assert (Hr : Zpos r = Zpos q * 2 ^ k) by (unfold r; rewrite Z2Pos.id; lia).
    pose proof (ndigits_mul q r k ltac:(lia) Hr) as Hd.
    assert (Hm : mantissa r = mantissa q).
    { unfold mantissa. rewrite Hr, Hd, <- Z.mul_assoc, <- Z.pow_add_r; [do 3 f_equal; lia|lia|].
      pose proof (ndigits_small r ltac:(lia)). lia. }
    assert (Hq : Zpos q < 2 ^ 53) by nia. rewrite num_of_pos by done. rewrite <- Hr.
    rewrite <- (nltb_ints (Zpos r) (Zpos p)), !num_of_pos by lia.
    unfold nltb, SFltb, int_num. cbn [SFcompare]. rewrite Hm, Hd.
    replace (ndigits q - 53 ?= ndigits p - 53 - k) with (ndigits q + k - 53 ?= ndigits p - 53); [done|].
    rewrite (Z.compare_sub (ndigits q + k - 53)), (Z.compare_sub (ndigits q - 53)). f_equal. lia.
Qed.
