(* ===== verification/UrlGuard.v ===== *)
(** * The hosts the gateway may call

    Models the URL checks of [src/gateway/src/middlewares/requestValidator/index.ts]:
    [isSafeUpstreamURL], [isSafePluginEgressURL], [isValidCustomHost] and every
    helper they use, down to the 32-bit shifts and the double additions of
    [ipv4ToInt].  The URL parser is a parameter; a string it rejects makes the
    check throw, which each check answers with [false].  Regular expressions are
    their meaning on code units. *)

From Stdlib Require Import ZArith Lia ZifyBool Ascii Floats.SpecFloat.
From stdpp Require Import base strings option list sets.
From S2P Require Import Prelude Doubles JsValue JsText BudgetKeys.

Set Default Goal Selector "!".

#[local] Open Scope string_scope.
#[local] Open Scope list_scope.
#[local] Arguments num_of_Z : simpl never.

(** ** Strings *)

(** [s.endsWith(p)] *)
Definition endsWith (s p : string) : bool := startsWith (srev s) (srev p).

(** [s.split(c)] *)
Fixpoint split_on (c : ascii) (s : string) : list string :=
  match s with
  | EmptyString => [EmptyString]
  | String d r =>
      if Ascii.eqb d c then EmptyString :: split_on c r
      else match split_on c r with
           | x :: xs => String d x :: xs
           | [] => [String d EmptyString]
           end
  end.

Fixpoint sexistsb (f : ascii -> bool) (s : string) : bool :=
  match s with
  | EmptyString => false
  | String c r => f c || sexistsb f r
  end.

(** [parseInt(s, 10)] and [parseInt(s, 16)]: [None] is NaN. *)
Definition parseInt_in (radix : Z) (s : string) : option Z :=
  let s := drop_while is_space s in
  let '(neg, r) := match s with
    | String c t => if (code c =? 45)%N then (true, t)
                    else if (code c =? 43)%N then (false, t) else (false, s)
    | EmptyString => (false, s) end in
  let ds := match r with
    | String z (String x t) =>
        if (radix =? 16)%Z && (code z =? 48)%N && ((code x =? 120)%N || (code x =? 88)%N) then t else r
    | _ => r end in
  let digits := take_while (fun c => (radix_digit c <? radix)%Z) ds in
  if truthy_string digits
  then let v := radix_val radix digits 0 in Some (if neg then (- v)%Z else v)
  else None.

(** ** VALIDATION_PATTERNS *)

Definition is_control (c : ascii) : bool := ((code c <=? 31) || (code c =? 127))%N.

Definition CONTROL_CHARS (s : string) : bool := sexistsb is_control s.

Definition suspicious_char (c : ascii) : bool :=
  is_space c || mem_string (String c EmptyString) ["<"; ">"; "{"; "}"; "|"; "\"; "^"; "`"].

Definition SUSPICIOUS_CHARS (s : string) : bool := sexistsb suspicious_char s.

Definition digits_between (a b : nat) (s : string) : bool :=
  (a <=? String.length s)%nat && (String.length s <=? b)%nat && sforallb is_digit s.

Definition DIGITS_1_3 (s : string) : bool := digits_between 1 3 s.
Definition DIGITS_1_10 (s : string) : bool := digits_between 1 10 s.
Definition DIGITS_ONLY (s : string) : bool := truthy_string s && sforallb is_digit s.

Definition is_hex (c : ascii) : bool := (radix_digit c <? 16)%Z.

Definition HEX_IP (s : string) : bool :=
  match s with
  | String z (String x t) =>
      (code z =? 48)%N && ((code x =? 120)%N || (code x =? 88)%N) &&
      (1 <=? String.length t)%nat && (String.length t <=? 8)%nat && sforallb is_hex t
  | _ => false
  end.

Definition ALTERNATIVE_IP_PART (s : string) : bool :=
  match s with
  | String z (String x _) => (code z =? 48)%N && (is_hex x || (code x =? 120)%N || (code x =? 88)%N)
  | _ => false
  end.

(** [\d{1,3}(?:\.\d{1,3}){3}] as the whole of a string. *)
Definition dotted_digits (s : string) : bool :=
  let parts := split_dot s in (length parts =? 4)%nat && forallb DIGITS_1_3 parts.

(** The group of a match of [prefix(\d{1,3}(?:\.\d{1,3}){3})$]. *)
Fixpoint ipv4_after (prefix s : string) : option string :=
  let rest := String.substring (String.length prefix) (String.length s) s in
  if startsWith s prefix && dotted_digits rest then Some rest
  else match s with
       | EmptyString => None
       | String _ r => ipv4_after prefix r
       end.

Definition IPV6_MAPPED_IPV4 (s : string) : option string := ipv4_after "::ffff:" (toLowerCase s).
Definition IPV6_EMBEDDED_IPV4 (s : string) : option string := ipv4_after "::" s.

Definition homograph_char (c : ascii) : bool :=
  is_lower c || is_digit c || (code c =? 46)%N || (code c =? 45)%N.

Definition HOMOGRAPH_ATTACK (s : string) : bool := truthy_string s && sforallb homograph_char s.

(** [/^[a-z0-9.:-]+$/] *)
Definition BARE_HOST (s : string) : bool :=
  truthy_string s && sforallb (fun c => homograph_char c || (code c =? 58)%N) s.

(** ** Lists of hosts *)

Definition DISALLOWED_SCHEMES : list string := ["file://"; "data:"; "gopher:"; "ftp://"; "ftps://"].

Definition BLOCKED_HOSTS : list string :=
  ["0.0.0.0"; "169.254.169.254"; "metadata.google.internal"; "metadata"; "metadata.azure.com";
   "instance-data"].

Definition BLOCKED_TLDS : list string :=
  [".local"; ".localdomain"; ".internal"; ".intranet"; ".lan"; ".home"; ".corp"; ".test"; ".invalid";
   ".onion"; ".localhost"].

(** ** Trusted hosts *)

(** The environment as its variables. *)
Definition Env : Type := string -> any.

Definition configuredTrustedCustomHosts (env : Env) : list string :=
  match env "TRUSTED_CUSTOM_HOSTS" with
  | Some (JStr s) =>
      if truthy_string s
      then List.filter (fun h => (1 <=? String.length h)%nat && negb (h =? "none")%string)
             (map (fun h => toLowerCase (trim h)) (split_on ","%char s))
      else []
  | _ => []
  end.

Definition TRUSTED_CUSTOM_HOSTS (env : Env) : list string :=
  if truthy (env "TRUSTED_CUSTOM_HOSTS") then configuredTrustedCustomHosts env
  else ["localhost"; "127.0.0.1"; "::1"; "host.docker.internal"].

(** ** IPv4 addresses *)

(** ToInt32 and ToUint32 of a number: the integer part modulo [2^32]. *)
Definition trunc_Z (n : num) : Z :=
  match n with S754_finite true _ _ => ceil_Z n | _ => floor_Z n end.

Definition wrap32 (z : Z) : Z := ((z + 2 ^ 31) mod 2 ^ 32 - 2 ^ 31)%Z.
Definition to_int32 (n : num) : Z := wrap32 (trunc_Z n).
Definition uint32 (z : Z) : Z := (z mod 2 ^ 32)%Z.

(** [n << k] and [z >>> k] *)
Definition shl32 (n : num) (k : Z) : Z := wrap32 (Z.shiftl (to_int32 n) k).
Definition ushr32 (z : Z) (k : Z) : Z := Z.shiftr (uint32 z) k.

(** A missing part is undefined, which counts as NaN. *)
Definition nth_num (l : list num) (i : nat) : num := default NaN (l !! i).

Definition ipv4ToInt (ip : string) : num :=
  let n := map to_number (split_dot ip) in
  nadd (nadd (nadd (num_of_Z (ushr32 (shl32 (nth_num n 0) 24) 0)) (num_of_Z (shl32 (nth_num n 1) 16)))
             (num_of_Z (shl32 (nth_num n 2) 8)))
       (nth_num n 3).

Definition intToIPv4 (z : Z) : string :=
  String_of (Z.land (ushr32 z 24) 255) +:+ "." +:+ String_of (Z.land (ushr32 z 16) 255) +:+ "." +:+
  String_of (Z.land (ushr32 z 8) 255) +:+ "." +:+ String_of (Z.land z 255).

Definition range (start stop : string) : num * num := (ipv4ToInt start, ipv4ToInt stop).

Definition PRIVATE : list (num * num) :=
  [range "10.0.0.0" "10.255.255.255"; range "172.16.0.0" "172.31.255.255";
   range "192.168.0.0" "192.168.255.255"].

Definition RESERVED : list (num * num) :=
  [range "127.0.0.0" "127.255.255.255"; range "169.254.0.0" "169.254.255.255";
   range "100.64.0.0" "100.127.255.255"; range "0.0.0.0" "0.255.255.255";
   range "224.0.0.0" "255.255.255.255"].

Definition in_ranges (ranges : list (num * num)) (n : num) : bool :=
  existsb (fun r => nleb r.1 n && nleb n r.2) ranges.

Definition isPrivateIPv4 (ip : string) : bool := in_ranges PRIVATE (ipv4ToInt ip).
Definition isReservedIPv4 (ip : string) : bool := in_ranges RESERVED (ipv4ToInt ip).

Definition ipv4_part (part : string) : bool :=
  DIGITS_1_3 part &&
  (let n := to_number part in negb (nltb n nzero || nltb (num_of_Z 255) n)) &&
  negb ((1 <? String.length part)%nat && startsWith part "0").

Definition isIPv4 (parts : list string) : bool :=
  (length parts =? 4)%nat && forallb ipv4_part parts.

Definition isAlternativeIPRepresentation (host : string) (parts : list string) : bool :=
  (DIGITS_1_10 host &&
   match parseInt_in 10 host with
   | Some n =>
       (0 <=? n)%Z && (n <=? 4294967295)%Z &&
       (let ip := intToIPv4 n in if isPrivateIPv4 ip || isReservedIPv4 ip then true else true)
   | None => false
   end) ||
  (HEX_IP host &&
   match parseInt_in 16 host with
   | Some n => (0 <=? n)%Z && (n <=? 4294967295)%Z
   | None => false
   end) ||
  ((length parts =? 4)%nat && existsb ALTERNATIVE_IP_PART parts) ||
  ((2 <=? length parts)%nat && (length parts <? 4)%nat &&
   forallb (fun p => DIGITS_ONLY p && nleb (to_number p) (num_of_Z 255)) parts).

Definition isLocalOrPrivateIPv6 (host : string) : bool :=
  let h := toLowerCase host in
  (h =? "::1")%string || (h =? "::")%string || startsWith h "fc" || startsWith h "fd" ||
  startsWith h "fe80" || startsWith h "fec0".

Definition isValidPort (port : string) : bool :=
  match parseInt_in 10 port with
  | Some p => (0 <? p)%Z && (p <=? 65535)%Z
  | None => false
  end.

(** ** URLs *)

Record URL := mkURL {
  protocol : string;
  username : string;
  password : string;
  hostname : string;
  port : string
}.

(** [s.replace(/^\[|\]$/g, '')] *)
Definition drop_open (s : string) : string :=
  match s with String c r => if (code c =? 91)%N then r else s | EmptyString => s end.

Definition drop_close (s : string) : string :=
  match srev s with String c r => if (code c =? 93)%N then srev r else s | EmptyString => s end.

Definition bare (host : string) : string := drop_close (drop_open host).

Definition is_trusted (trusted : list string) (host : string) : bool :=
  mem_string host trusted || (mem_string "localhost" trusted && endsWith host ".localhost").

Definition is_http (u : URL) : bool :=
  (protocol u =? "http:")%string || (protocol u =? "https:")%string.

Definition port_ok (u : URL) : bool := negb (truthy_string (port u)) || isValidPort (port u).

Definition has_credentials (u : URL) : bool := truthy_string (username u) || truthy_string (password u).

Section UrlGuard.
(** [new URL(s)], [None] when it throws. *)
Variable parse_url : string -> option URL.

Definition blocked_address (host : string) : bool :=
  let parts := split_dot host in
  (isIPv4 parts && (isPrivateIPv4 host || isReservedIPv4 host)) ||
  isAlternativeIPRepresentation host parts.

Definition isSafeURLForTrustedHosts (rawUrl : string) (trusted : list string) : bool :=
  if CONTROL_CHARS rawUrl then false else
  match parse_url rawUrl with
  | None => false
  | Some u =>
      if negb (is_http u) then false else
      if has_credentials u then false else
      let host := toLowerCase (hostname u) in
      if negb (truthy_string host) || includes host "%" || endsWith host "." then false else
      let bareHost := bare host in
      if negb (BARE_HOST bareHost) then false else
      if negb (port_ok u) then false else
      if is_trusted trusted bareHost then true else
      if mem_string bareHost BLOCKED_HOSTS then false else
      if (bareHost =? "localhost")%string || endsWith bareHost ".localhost" then false else
      if startsWith bareHost "169.254.169." || startsWith bareHost "fd00:ec2::" then false else
      if blocked_address bareHost then false else
      if includes bareHost ":" then false else true
  end.

Definition isSafeUpstreamURL (env : Env) (rawUrl : string) : bool :=
  isSafeURLForTrustedHosts rawUrl (TRUSTED_CUSTOM_HOSTS env).

Definition isSafePluginEgressURL (env : Env) (rawUrl : string) : bool :=
  let trusted := configuredTrustedCustomHosts env in
  if negb (isSafeURLForTrustedHosts rawUrl trusted) then false else
  match parse_url rawUrl with
  | None => false
  | Some u =>
      let host := bare (toLowerCase (hostname u)) in
      if is_trusted trusted host then true else
      if negb (includes host ".") || endsWith host ".svc" then false else
      negb (existsb (endsWith host) BLOCKED_TLDS)
  end.

Definition isValidCustomHost (env : Env) (customHost : string) : bool :=
  let value := toLowerCase (trim customHost) in
  if negb (truthy_string value) then false else
  if CONTROL_CHARS customHost then false else
  if includes value "api.portkey" then false else
  if existsb (startsWith value) DISALLOWED_SCHEMES then false else
  match parse_url customHost with
  | None => false
  | Some u =>
      if negb (is_http u) then false else
      if has_credentials u then false else
      if includes customHost "@" then false else
      let host := hostname u in
      if negb (truthy_string host) then false else
      if includes host "%" then false else
      if SUSPICIOUS_CHARS host then false else
      if negb (HOMOGRAPH_ATTACK host) then false else
      if endsWith host "." then false else
      let parts := split_dot host in
      if (10 <? length parts)%nat then false else
      if is_trusted (TRUSTED_CUSTOM_HOSTS env) host then port_ok u else
      if mem_string host BLOCKED_HOSTS then false else
      if startsWith host "169.254.169." || startsWith host "fd00:ec2::" then false else
      if existsb (fun tld => endsWith host tld && negb (host =? "localhost")%string) BLOCKED_TLDS
      then false else
      if isIPv4 parts && (isPrivateIPv4 host || isReservedIPv4 host) then false else
      if isAlternativeIPRepresentation host parts then false else
      if includes host ":" &&
         (isLocalOrPrivateIPv6 host ||
          match (match IPV6_MAPPED_IPV4 host with
                 | Some ip => Some ip | None => IPV6_EMBEDDED_IPV4 host end) with
          | Some ip4 => isPrivateIPv4 ip4 || isReservedIPv4 ip4
          | None => false
          end)
      then false else
      port_ok u
  end.
End UrlGuard.

(** ** Characters *)

(** What holds of each of the 256 code units. *)
Lemma each_char (P : ascii -> bool) :
  forallb P (map (fun n => ascii_of_nat n) (seq 0 256)) = true -> forall c, P c = true.
Proof.
  intros H c. rewrite forallb_forall in H. apply H, in_map_iff.
  exists (nat_of_ascii c). split; [apply ascii_nat_embedding|].
  apply in_seq. pose proof (nat_ascii_bounded c). lia.
Qed.

Lemma homograph_lower c : homograph_char c = true -> lower_char c = c.
Proof.
  intros H. apply Ascii.eqb_eq. revert H. apply implb_true_iff.
  revert c. apply each_char. by vm_compute.
Qed.

Lemma homograph_plain c :
  homograph_char c = true -> (code c =? 91)%N = false /\ (code c =? 93)%N = false.
Proof.
  intros H. assert (Hc : negb (code c =? 91)%N && negb (code c =? 93)%N = true).
  - revert H. apply implb_true_iff. revert c. apply each_char. by vm_compute.
  - by apply andb_true_iff in Hc as [?%negb_true_iff ?%negb_true_iff].
Qed.

Lemma toLowerCase_plain s : sforallb homograph_char s = true -> toLowerCase s = s.
Proof.
  unfold toLowerCase. induction s as [|c s IH]; cbn [sforallb smap]; [done|].
  intros [Hc Hs]%andb_true_iff. by rewrite homograph_lower, IH.
Qed.

Lemma bare_plain s : sforallb homograph_char s = true -> bare s = s.
Proof.
  intros Hs. unfold bare.
  assert (Ho : drop_open s = s).
  { destruct s as [|c s]; [done|]. cbn in Hs. apply andb_true_iff in Hs as [Hc _].
    cbn. by destruct (homograph_plain c Hc) as [-> _]. }
  rewrite Ho. unfold drop_close. destruct (srev s) as [|c r] eqn:Hr; [done|].
  assert (Hc : homograph_char c && sforallb homograph_char r = true).
  { change (sforallb homograph_char (String c r) = true). by rewrite <- Hr, sforallb_srev. }
  apply andb_true_iff in Hc as [Hc _]. by destruct (homograph_plain c Hc) as [_ ->].
Qed.

Lemma includes_char (c : ascii) s :
  includes s (String c EmptyString) = sexistsb (fun d => Ascii.eqb d c) s.
Proof.
  induction s as [|d s IH]; [done|]. cbn [includes sexistsb]. rewrite IH. f_equal.
  unfold startsWith. cbn. destruct (ascii_dec c d) as [->|Hne].
  - rewrite Ascii.eqb_refl. by destruct s.
  - symmetry. apply Ascii.eqb_neq. congruence.
Qed.

Lemma sexistsb_none (f g : ascii -> bool) s :
  (forall c, f c = true -> g c = false) -> sforallb f s = true -> sexistsb g s = false.
Proof.
  intros Hfg. induction s as [|c s IH]; cbn; [done|].
  intros [Hc Hs]%andb_true_iff. by rewrite Hfg, IH.
Qed.

(** ** The address of a dotted host *)

(** An octet and its decimal digits. *)
Definition octet_ok (n : Z) : bool :=
  let s := String_of n in
  ipv4_part s && sforallb is_digit s && negb (ALTERNATIVE_IP_PART s) &&
  SFeqb (to_number s) (num_of_Z n) && (to_int32 (to_number s) =? n)%Z &&
  match to_number s, num_of_Z n with
  | S754_zero a, S754_zero b => Bool.eqb a b
  | S754_finite a m e, S754_finite b m' e' => Bool.eqb a b && (m =? m')%positive && (e =? e')%Z
  | _, _ => false
  end.

Lemma octets_ok : forallb (fun n => octet_ok (Z.of_nat n)) (seq 0 256) = true.
Proof. by vm_compute. Qed.

Lemma octet_facts n :
  (0 <= n < 256)%Z ->
  ipv4_part (String_of n) = true /\ sforallb is_digit (String_of n) = true /\
  to_number (String_of n) = num_of_Z n /\ to_int32 (num_of_Z n) = n /\
  ALTERNATIVE_IP_PART (String_of n) = false.
Proof.
  intros Hn. assert (H : octet_ok n = true).
  { pose proof octets_ok as H. rewrite forallb_forall in H.
    rewrite <- (Z2Nat.id n) by lia. apply H, in_seq. lia. }
  unfold octet_ok in H. cbv zeta in H. rewrite !andb_true_iff in H.
  destruct H as [[[[[H1 H2] H3] _] H4] H5]. apply negb_true_iff in H3. apply Z.eqb_eq in H4.
  assert (Heq : to_number (String_of n) = num_of_Z n).
  { destruct (to_number (String_of n)), (num_of_Z n); try done.
    - by apply Bool.eqb_prop in H5 as ->.
    - rewrite !andb_true_iff in H5. destruct H5 as [[->%Bool.eqb_prop ->%Pos.eqb_eq] ->%Z.eqb_eq]. done. }
  rewrite Heq in H4. done.
Qed.

Lemma split_dot_digits s t :
  sforallb is_digit s = true -> split_dot (s +:+ "." +:+ t) = s :: split_dot t.
Proof.
  induction s as [|c s IH]; intros H; [done|]. cbn in H. apply andb_true_iff in H as [Hc Hs].
  change (split_dot (String c (s +:+ "." +:+ t)) = String c s :: split_dot t).
  cbn [split_dot]. destruct (Ascii.eqb_spec c "."%char) as [->|_]; [done|]. by rewrite IH.
Qed.

Lemma split_dot_last s : sforallb is_digit s = true -> split_dot s = [s].
Proof.
  induction s as [|c s IH]; intros H; [done|]. cbn in H. apply andb_true_iff in H as [Hc Hs].
  cbn [split_dot]. destruct (Ascii.eqb_spec c "."%char) as [->|_]; [done|]. by rewrite IH.
Qed.

(** The octets of an address. *)
Definition octet (z k : Z) : Z := Z.land (ushr32 z k) 255.

Lemma octet_div z k : (0 <= z < 2 ^ 32)%Z -> (0 <= k)%Z -> octet z k = ((z / 2 ^ k) mod 256)%Z.
Proof.
  intros Hz Hk. unfold octet, ushr32, uint32. rewrite (Z.mod_small z) by lia.
  rewrite Z.shiftr_div_pow2 by done. change 255%Z with (Z.ones 8). by rewrite Z.land_ones by lia.
Qed.

Lemma octet_range z k : (0 <= z < 2 ^ 32)%Z -> (0 <= k)%Z -> (0 <= octet z k < 256)%Z.
Proof. intros Hz Hk. rewrite octet_div by done. apply Z.mod_pos_bound. lia. Qed.

Lemma intToIPv4_octets z :
  (0 <= z < 2 ^ 32)%Z ->
  intToIPv4 z = String_of (octet z 24) +:+ "." +:+ String_of (octet z 16) +:+ "." +:+
                String_of (octet z 8) +:+ "." +:+ String_of (octet z 0).
Proof.
  intros Hz. unfold intToIPv4, octet. do 6 f_equal. f_equal. unfold ushr32, uint32.
  rewrite Z.mod_small by lia. by rewrite Z.shiftr_0_r.
Qed.

Lemma split_intToIPv4 z :
  (0 <= z < 2 ^ 32)%Z ->
  split_dot (intToIPv4 z) =
    [String_of (octet z 24); String_of (octet z 16); String_of (octet z 8); String_of (octet z 0)].
Proof.
  intros Hz. rewrite intToIPv4_octets by done.
  pose proof (fun k Hk => octet_facts (octet z k) (octet_range z k Hz Hk)) as H.
  rewrite !split_dot_digits, split_dot_last; [done|..]; by apply H.
Qed.

Lemma isIPv4_intToIPv4 z : (0 <= z < 2 ^ 32)%Z -> isIPv4 (split_dot (intToIPv4 z)) = true.
Proof.
  intros Hz. rewrite split_intToIPv4 by done. unfold isIPv4. cbn [length Nat.eqb andb forallb].
  pose proof (fun k Hk => octet_facts (octet z k) (octet_range z k Hz Hk)) as H.
  destruct (H 24%Z) as [-> _]; [done|]. destruct (H 16%Z) as [-> _]; [done|].
  destruct (H 8%Z) as [-> _]; [done|]. by destruct (H 0%Z) as [-> _].
Qed.

Lemma shl32_octet n k :
  (0 <= n < 256)%Z -> to_int32 (num_of_Z n) = n -> (0 <= k <= 16)%Z -> shl32 (num_of_Z n) k = (n * 2 ^ k)%Z.
Proof.
  intros Hn Ht Hk. unfold shl32. rewrite Ht, Z.shiftl_mul_pow2 by lia. unfold wrap32.
  assert (2 ^ k <= 2 ^ 16)%Z by (apply Z.pow_le_mono_r; lia).
  pose proof (Z.pow_pos_nonneg 2 k). rewrite Z.mod_small; nia.
Qed.

Lemma top_octet n :
  (0 <= n < 256)%Z -> to_int32 (num_of_Z n) = n ->
  ushr32 (shl32 (num_of_Z n) 24) 0 = (n * 2 ^ 24)%Z.
Proof.
  intros Hn Ht. unfold shl32, ushr32, uint32. rewrite Ht, Z.shiftl_mul_pow2, Z.shiftr_0_r by lia.
  unfold wrap32. rewrite Zminus_mod_idemp_l. rewrite Z.mod_small; lia.
Qed.

Lemma octets_sum z :
  (0 <= z < 2 ^ 32)%Z ->
  (octet z 24 * 2 ^ 24 + octet z 16 * 2 ^ 16 + octet z 8 * 2 ^ 8 + octet z 0 = z)%Z.
Proof.
  intros Hz. rewrite !octet_div by lia.
  change (2 ^ 24)%Z with 16777216%Z. change (2 ^ 16)%Z with 65536%Z. change (2 ^ 8)%Z with 256%Z.
  change (2 ^ 0)%Z with 1%Z. change (2 ^ 32)%Z with 4294967296%Z in Hz.
  Z.div_mod_to_equations. lia.
Qed.

Lemma ipv4ToInt_intToIPv4 z : (0 <= z < 2 ^ 32)%Z -> ipv4ToInt (intToIPv4 z) = num_of_Z z.
Proof.
  intros Hz. unfold ipv4ToInt. rewrite split_intToIPv4 by done. cbn [map nth_num lookup list_lookup default].
  pose proof (fun k Hk => octet_facts (octet z k) (octet_range z k Hz Hk)) as H.
  pose proof (fun k Hk => octet_range z k Hz Hk) as Hr.
  destruct (H 24%Z ltac:(lia)) as (_ & _ & Ha & Ta & _). destruct (H 16%Z ltac:(lia)) as (_ & _ & Hb & Tb & _).
  destruct (H 8%Z ltac:(lia)) as (_ & _ & Hc & Tc & _). destruct (H 0%Z ltac:(lia)) as (_ & _ & Hd & _ & _).
  unfold nth_num. cbn [lookup list_lookup default]. rewrite Ha, Hb, Hc, Hd.
  pose proof (octets_sum z Hz). pose proof (Hr 24%Z ltac:(lia)). pose proof (Hr 16%Z ltac:(lia)).
  pose proof (Hr 8%Z ltac:(lia)). pose proof (Hr 0%Z ltac:(lia)).
  cbn [id]. rewrite top_octet, !shl32_octet by (done || lia).
  rewrite !nadd_ints by lia. f_equal. lia.
Qed.

(** ** What a host may not reach *)

(** A block of addresses in the notation of the code's comments. *)
Definition in_block (z : Z) (block : Z * Z) : bool :=
  (Z.shiftr z (32 - block.2) =? Z.shiftr block.1 (32 - block.2))%Z.

Definition addr (a b c d : Z) : Z := (a * 2 ^ 24 + b * 2 ^ 16 + c * 2 ^ 8 + d)%Z.

(** Private networks, loopback, link-local, carrier NAT, this network, multicast
    and reserved addresses. *)
Definition internal_blocks : list (Z * Z) :=
  [(addr 10 0 0 0, 8%Z); (addr 172 16 0 0, 12%Z); (addr 192 168 0 0, 16%Z);
   (addr 127 0 0 0, 8%Z); (addr 169 254 0 0, 16%Z); (addr 100 64 0 0, 10%Z);
   (addr 0 0 0 0, 8%Z); (addr 224 0 0 0, 3%Z)].

Definition internal (z : Z) : bool := existsb (in_block z) internal_blocks.

Definition int_ranges (l : list (Z * Z)) : list (num * num) :=
  map (fun r => (num_of_Z r.1, num_of_Z r.2)) l.

Definition private_intervals : list (Z * Z) :=
  [(167772160, 184549375); (2886729728, 2887778303); (3232235520, 3232301055)]%Z.

Definition reserved_intervals : list (Z * Z) :=
  [(2130706432, 2147483647); (2851995648, 2852061183); (1681915904, 1686110207);
   (0, 16777215); (3758096384, 4294967295)]%Z.

Lemma PRIVATE_ints : PRIVATE = int_ranges private_intervals.
Proof. by vm_compute. Qed.

Lemma RESERVED_ints : RESERVED = int_ranges reserved_intervals.
Proof. by vm_compute. Qed.

Lemma in_int_ranges l z :
  (0 <= z < 2 ^ 32)%Z -> Forall (fun r => 0 <= r.1 < 2 ^ 32 /\ 0 <= r.2 < 2 ^ 32)%Z l ->
  in_ranges (int_ranges l) (num_of_Z z) = existsb (fun r => (r.1 <=? z) && (z <=? r.2))%Z l.
Proof.
  intros Hz. induction 1 as [|[a b] l [Ha Hb] _ IH]; [done|].
  cbn [int_ranges map in_ranges existsb fst snd] in *. unfold in_ranges in IH. rewrite <- IH.
  by rewrite !nleb_ints by lia.
Qed.

(** A block is the interval of its first and last address. *)
Lemma in_block_range z net bits lo hi :
  (0 <= 32 - bits)%Z -> lo = (Z.shiftr net (32 - bits) * 2 ^ (32 - bits))%Z ->
  hi = (lo + 2 ^ (32 - bits) - 1)%Z ->
  in_block z (net, bits) = ((lo <=? z) && (z <=? hi))%Z.
Proof.
  intros Hk -> ->. unfold in_block. cbn [fst snd].
  rewrite (Z.shiftr_div_pow2 z) by done. set (n := Z.shiftr net (32 - bits)).
  pose proof (Z.pow_pos_nonneg 2 (32 - bits) ltac:(lia) Hk) as Hp.
  set (p := (2 ^ (32 - bits))%Z) in *. pose proof (Z.div_mod z p ltac:(lia)).
  pose proof (Z.mod_pos_bound z p Hp).
  destruct (Z.eqb_spec (z / p) n) as [<-|Hne]; [lia|].
  destruct (Z.lt_ge_cases (z / p) n); nia.
Qed.

Lemma internal_intervals z :
  internal z = existsb (fun r => (r.1 <=? z) && (z <=? r.2))%Z (private_intervals ++ reserved_intervals).
Proof.
  unfold internal, internal_blocks, private_intervals, reserved_intervals. cbn [existsb app fst snd].
  do 7 (apply f_equal2; [by apply in_block_range|]). apply f_equal2; [by apply in_block_range|done].
Qed.

(** The double comparisons of the code are membership in these blocks. *)
Lemma private_or_reserved z :
  (0 <= z < 2 ^ 32)%Z ->
  isPrivateIPv4 (intToIPv4 z) || isReservedIPv4 (intToIPv4 z) = internal z.
Proof.
  intros Hz. unfold isPrivateIPv4, isReservedIPv4. rewrite ipv4ToInt_intToIPv4 by done.
  rewrite PRIVATE_ints, RESERVED_ints, !in_int_ranges, <- existsb_app, internal_intervals;
    [done|done|repeat constructor; cbn; lia..].
Qed.

(** ** The address a resolver reads in a host name

    [inet_aton]: one to four numbers in decimal, octal or hexadecimal, the last
    one filling the bytes that are left. *)

Definition c_number (s : string) : option Z :=
  let digits radix t :=
    if truthy_string t && sforallb (fun c => (radix_digit c <? radix)%Z) t
    then Some (radix_val radix t 0) else None in
  match s with
  | String z (String x t as r) =>
      if (code z =? 48)%N
      then if (code x =? 120)%N || (code x =? 88)%N then digits 16%Z t else digits 8%Z r
      else digits 10%Z s
  | _ => digits 10%Z s
  end.

Definition below (bound : Z) (z : Z) : option Z :=
  if (0 <=? z)%Z && (z <? bound)%Z then Some z else None.

Definition inet_aton (host : string) : option Z :=
  match map c_number (split_dot host) with
  | [Some a] => below (2 ^ 32) a
  | [Some a; Some b] =>
      a ← below 256 a; b ← below (2 ^ 24) b; Some (a * 2 ^ 24 + b)%Z
  | [Some a; Some b; Some c] =>
      a ← below 256 a; b ← below 256 b; c ← below (2 ^ 16) c; Some (a * 2 ^ 24 + b * 2 ^ 16 + c)%Z
  | [Some a; Some b; Some c; Some d] =>
      a ← below 256 a; b ← below 256 b; c ← below 256 c; d ← below 256 d; Some (addr a b c d)
  | _ => None
  end.

Example short_form : inet_aton "127.1" = Some (addr 127 0 0 1).
Proof. by vm_compute. Qed.
Example octal_form : inet_aton "0251.0xfe.43518" = Some (addr 169 254 169 254).
Proof. by vm_compute. Qed.
Example decimal_form : inet_aton "2130706433" = Some (addr 127 0 0 1).
Proof. by vm_compute. Qed.

Lemma below_Some b x y : below b x = Some y -> (y = x /\ 0 <= x < b)%Z.
Proof. unfold below. case_match; [|done]. intros [= <-]. split; [done|lia]. Qed.

Lemma inet_aton_range host z : inet_aton host = Some z -> (0 <= z < 2 ^ 32)%Z.
Proof.
  unfold inet_aton. intros Hz; repeat (case_match; try done);
    repeat match goal with
    | H : _ ≫= _ = Some _ |- _ => apply bind_Some in H as (? & ?%below_Some & ?)
    | H : below _ _ = Some _ |- _ => apply below_Some in H
    | H : Some _ = Some _ |- _ => injection H as <-
    end; unfold addr; lia.
Qed.

(** ** Monotone trust *)

Lemma is_trusted_mono t t' host :
  t ⊆ t' -> is_trusted t host = true -> is_trusted t' host = true.
Proof.
  unfold is_trusted. rewrite !orb_true_iff, !andb_true_iff, !mem_string_In. set_solver.
Qed.

Lemma configured_trusted env : configuredTrustedCustomHosts env ⊆ TRUSTED_CUSTOM_HOSTS env.
Proof.
  unfold TRUSTED_CUSTOM_HOSTS. destruct (truthy (env "TRUSTED_CUSTOM_HOSTS")) eqn:Ht; [done|].
  unfold configuredTrustedCustomHosts.
  destruct (env "TRUSTED_CUSTOM_HOSTS") as [[]|] eqn:Hv; try apply list_subseteq_nil.
  cbn in Ht. rewrite Ht. apply list_subseteq_nil.
Qed.

Section Guarantees.
Variable parse_url : string -> option URL.

#[local] Abbreviation safe := (isSafeURLForTrustedHosts parse_url).

(** What an accepted URL is, whoever is trusted. *)
Lemma safe_inv raw trusted :
  safe raw trusted = true ->
  CONTROL_CHARS raw = false /\
  exists u, parse_url raw = Some u /\ is_http u = true /\ has_credentials u = false /\ port_ok u = true /\
    truthy_string (toLowerCase (hostname u)) = true /\
    includes (toLowerCase (hostname u)) "%" = false /\ endsWith (toLowerCase (hostname u)) "." = false /\
    BARE_HOST (bare (toLowerCase (hostname u))) = true /\
    (is_trusted trusted (bare (toLowerCase (hostname u))) = true \/
     let h := bare (toLowerCase (hostname u)) in
     mem_string h BLOCKED_HOSTS = false /\ (h =? "localhost")%string = false /\
     endsWith h ".localhost" = false /\ startsWith h "169.254.169." = false /\
     startsWith h "fd00:ec2::" = false /\ blocked_address h = false /\ includes h ":" = false).
Proof.
  unfold isSafeURLForTrustedHosts. destruct (CONTROL_CHARS raw); [done|].
  destruct (parse_url raw) as [u|]; [|done]. cbv zeta. set (h := bare (toLowerCase (hostname u))).
  intros H. split; [done|]. exists u.
  repeat match type of H with (if ?b then _ else _) = true => destruct b eqn:?; try done end;
    split_bool; repeat split; (done || (by left) || (right; repeat split; first [done|by apply String.eqb_neq])).
Qed.

Lemma safe_intro raw trusted u :
  CONTROL_CHARS raw = false -> parse_url raw = Some u -> is_http u = true -> has_credentials u = false ->
  port_ok u = true -> truthy_string (toLowerCase (hostname u)) = true ->
  includes (toLowerCase (hostname u)) "%" = false -> endsWith (toLowerCase (hostname u)) "." = false ->
  BARE_HOST (bare (toLowerCase (hostname u))) = true ->
  (is_trusted trusted (bare (toLowerCase (hostname u))) = true \/
     let h := bare (toLowerCase (hostname u)) in
     mem_string h BLOCKED_HOSTS = false /\ (h =? "localhost")%string = false /\
     endsWith h ".localhost" = false /\ startsWith h "169.254.169." = false /\
     startsWith h "fd00:ec2::" = false /\ blocked_address h = false /\ includes h ":" = false) ->
  safe raw trusted = true.
Proof.
  intros H1 H2 H3 H4 H5 H6 H7 H8 H9 H10. unfold isSafeURLForTrustedHosts.
  rewrite H1, H2, H3, H4. cbv zeta. rewrite H6, H7, H8, H9, H5. cbn [negb orb].
  destruct (is_trusted trusted _); [done|]. destruct H10 as [?|(-> & -> & -> & -> & -> & -> & ->)]; done.
Qed.

Lemma safe_mono raw t t' : t ⊆ t' -> safe raw t = true -> safe raw t' = true.
Proof.
  intros Hs (H1 & u & H2 & H3 & H4 & H5 & H6 & H7 & H8 & H9 & H10)%safe_inv.
  apply (safe_intro raw t' u); try done. destruct H10 as [H10|H10]; [left|by right].
  by apply (is_trusted_mono t).
Qed.
End Guarantees.

(** ** Theorems *)

(** The range checks on doubles are exactly membership in the private,
    loopback, link-local, shared, multicast and reserved blocks of IPv4. *)
Theorem ipv4_checks_are_cidr_blocks z :
  (0 <= z < 2 ^ 32)%Z ->
  isIPv4 (split_dot (intToIPv4 z)) = true /\
  isPrivateIPv4 (intToIPv4 z) || isReservedIPv4 (intToIPv4 z) = internal z.
Proof. split; [by apply isIPv4_intToIPv4|by apply private_or_reserved]. Qed.

Lemma dotted_plain z : (0 <= z < 2 ^ 32)%Z -> sforallb homograph_char (intToIPv4 z) = true.
Proof.
  intros Hz. rewrite intToIPv4_octets by done. rewrite !sforallb_append.
  assert (H : forall k, (0 <= k)%Z -> sforallb homograph_char (String_of (octet z k)) = true).
  { intros k Hk. destruct (octet_facts (octet z k) (octet_range z k Hz Hk)) as (_ & Hd & _).
    revert Hd. apply sforallb_impl. intros c Hc. unfold homograph_char. rewrite Hc.
    by rewrite orb_true_r. }
  by rewrite !H by done.
Qed.

Lemma blocked_dotted z :
  (0 <= z < 2 ^ 32)%Z -> internal z = true -> blocked_address (intToIPv4 z) = true.
Proof.
  intros Hz Hi. unfold blocked_address. cbv zeta.
  by rewrite isIPv4_intToIPv4, private_or_reserved, Hi by done.
Qed.

Lemma plain_is_ascii_host host :
  HOMOGRAPH_ATTACK host = true ->
  toLowerCase host = host /\ bare host = host /\ BARE_HOST host = true /\ includes host ":" = false.
Proof.
  unfold HOMOGRAPH_ATTACK, BARE_HOST. intros [Ht Hs]%andb_true_iff.
  rewrite toLowerCase_plain, bare_plain by done. repeat split.
  - rewrite Ht. cbn. revert Hs. apply sforallb_impl. by intros c ->.
  - rewrite includes_char. apply (sexistsb_none homograph_char); [|done].
    intros c Hc. apply negb_true_iff. revert Hc. apply implb_true_iff. revert c.
    apply each_char. by vm_compute.
Qed.

Section Theorems.
Variable parse_url : string -> option URL.
Variable env : Env.

(** [C13] An upstream URL that is accepted is an http URL without credentials and
    with a usable port, and its host is either one the operator trusts or a name
    that no resolver reads as an internal address in any of the number forms,
    that is not on the block list and not an IPv6 address.  The URL parser is
    relied on for one thing: a host that is a number comes out in dotted decimal. *)
Theorem accepted_host_is_public raw :
  (forall u z, parse_url raw = Some u -> inet_aton (hostname u) = Some z -> hostname u = intToIPv4 z) ->
  isSafeUpstreamURL parse_url env raw = true ->
  exists u, parse_url raw = Some u /\ is_http u = true /\ has_credentials u = false /\ port_ok u = true /\
    (is_trusted (TRUSTED_CUSTOM_HOSTS env) (bare (toLowerCase (hostname u))) = true \/
     ((forall z, inet_aton (hostname u) = Some z -> internal z = false) /\
      bare (toLowerCase (hostname u)) ∉ BLOCKED_HOSTS /\
      includes (bare (toLowerCase (hostname u))) ":" = false)).
Proof.
  intros Hparser (_ & u & Hu & Hh & Hc & Hp & _ & _ & _ & _ & Ht)%safe_inv.
  exists u. do 4 (split; [done|]). destruct Ht as [Ht|(Hb & _ & _ & _ & _ & Ha & H6)]; [by left|].
  right. split; [|split; [by apply mem_string_false|done]].
  intros z Hz. specialize (Hparser u z Hu Hz). pose proof (inet_aton_range _ _ Hz) as Hr.
  rewrite Hparser, toLowerCase_plain, bare_plain in Ha by (by apply dotted_plain).
  destruct (internal z) eqn:Hi; [|done]. by rewrite (blocked_dotted z Hr Hi) in Ha.
Qed.

(** Plugin egress is stricter than the upstream check: every URL it accepts
    passes that check too, and its host is one the operator listed or a dotted
    name outside the internal domains. *)
Theorem plugin_egress_is_stricter raw :
  isSafePluginEgressURL parse_url env raw = true ->
  isSafeUpstreamURL parse_url env raw = true /\
  exists u, parse_url raw = Some u /\
    let host := bare (toLowerCase (hostname u)) in
    is_trusted (configuredTrustedCustomHosts env) host = true \/
    (includes host "." = true /\ endsWith host ".svc" = false /\
     forall tld, tld ∈ BLOCKED_TLDS -> endsWith host tld = false).
Proof.
  unfold isSafePluginEgressURL. cbv zeta.
  destruct (isSafeURLForTrustedHosts parse_url raw (configuredTrustedCustomHosts env)) eqn:Hs; [|done].
  cbn [negb]. destruct (parse_url raw) as [u|] eqn:Hu; [|done]. intros H. split.
  - apply (safe_mono parse_url raw (configuredTrustedCustomHosts env)); [|done].
    apply configured_trusted.
  - exists u. split; [done|]. cbv zeta.
    destruct (is_trusted (configuredTrustedCustomHosts env) (bare (toLowerCase (hostname u)))); [by left|].
    right. destruct (includes _ "."); [|done]. destruct (endsWith _ ".svc"); [done|]. cbn [negb orb] in H.
    split; [done|]. split; [done|]. intros tld Htld. apply negb_true_iff in H.
    destruct (endsWith _ tld) eqn:He; [|done]. rewrite <- H. symmetry. apply existsb_exists.
    exists tld. split; [by apply list_elem_of_In|done].
Qed.

(** A custom host that is accepted passes the upstream check, except
    [localhost] when it is not trusted. *)
Theorem custom_host_is_upstream_safe host :
  isValidCustomHost parse_url env host = true ->
  exists u, parse_url host = Some u /\ includes (hostname u) ":" = false /\
    (isSafeUpstreamURL parse_url env host = true \/
     (hostname u = "localhost" /\ "localhost" ∉ TRUSTED_CUSTOM_HOSTS env)).
Proof.
  unfold isValidCustomHost. cbv zeta.
  destruct (negb _); [done|]. destruct (CONTROL_CHARS host) eqn:Hcc; [done|].
  destruct (includes _ "api.portkey"); [done|]. destruct (existsb _ _); [done|].
  destruct (parse_url host) as [u|] eqn:Hu; [|done]. intros H. exists u. split; [done|].
  set (T := TRUSTED_CUSTOM_HOSTS env) in *.
  repeat match type of H with (if ?b then false else _) = true => destruct b eqn:?; [done|] end.
  destruct (HOMOGRAPH_ATTACK (hostname u)) eqn:Hhom; [|done].
  destruct (plain_is_ascii_host _ Hhom) as (Hl & Hb & Hbare & Hcolon). split; [done|].
  assert (Hgo : port_ok u = true ->
    (is_trusted T (hostname u) = true \/
     mem_string (hostname u) BLOCKED_HOSTS = false /\ (hostname u =? "localhost")%string = false /\
     endsWith (hostname u) ".localhost" = false /\ startsWith (hostname u) "169.254.169." = false /\
     startsWith (hostname u) "fd00:ec2::" = false /\ blocked_address (hostname u) = false /\
     includes (hostname u) ":" = false) -> isSafeUpstreamURL parse_url env host = true).
  { intros Hp Hor. split_bool. apply (safe_intro _ _ _ u); rewrite ?Hl, ?Hb; done. }
  destruct (is_trusted T (hostname u)) eqn:Htr; [left; apply Hgo; [done|by left]|].
  repeat match type of H with (if ?b then false else _) = true => destruct b eqn:?; [done|] end.
  destruct (String.eqb_spec (hostname u) "localhost") as [Hlo|Hlo].
  - right. split; [done|]. rewrite <- Hlo. apply mem_string_false.
    unfold is_trusted in Htr. by apply orb_false_iff in Htr as [? _].
  - left. apply Hgo; [done|]. right. split_bool. repeat split; try done.
    + match goal with He : existsb _ BLOCKED_TLDS = false |- _ => rename He into Htld end.
      destruct (endsWith (hostname u) ".localhost") eqn:He; [|done].
      rewrite <- Htld. symmetry. apply existsb_exists. exists ".localhost".
      split; [by apply list_elem_of_In, (bool_decide_unpack _)|]. by rewrite He.
    + unfold blocked_address. cbv zeta. by apply orb_false_iff.
Qed.
End Theorems.

(** ** Samples *)

Module Samples.

Definition url (host port : string) : URL := mkURL "https:" "" "" host port.

(** A parser that knows a few addresses, numbers in dotted decimal. *)
Definition parse (raw : string) : option URL :=
  own [("https://api.openai.com/v1", url "api.openai.com" "");
       ("https://2130706433", url "127.0.0.1" "");
       ("https://8.8.8.8:8443", url "8.8.8.8" "8443");
       ("https://169.254.169.254/latest", url "169.254.169.254" "");
       ("https://[::1]:8080", url "[::1]" "8080");
       ("https://redis.internal", url "redis.internal" "");
       ("https://localhost:11434", url "localhost" "11434")] raw.

Definition unset : Env := fun _ => None.
Definition none : Env := fun _ => Some (JStr "none").
Definition listed : Env := fun _ => Some (JStr " Redis.internal, localhost").

Example public_is_safe : isSafeUpstreamURL parse none "https://8.8.8.8:8443" = true.
Proof. by vm_compute. Qed.
Example metadata_is_unsafe : isSafeUpstreamURL parse unset "https://169.254.169.254/latest" = false.
Proof. by vm_compute. Qed.
Example loopback_number_is_unsafe : isSafeUpstreamURL parse none "https://2130706433" = false.
Proof. by vm_compute. Qed.
Example trusted_by_default : isSafeUpstreamURL parse unset "https://[::1]:8080" = true.
Proof. by vm_compute. Qed.
Example internal_name_refused_to_plugins : isSafePluginEgressURL parse unset "https://redis.internal" = false.
Proof. by vm_compute. Qed.
Example listed_name_allowed_to_plugins : isSafePluginEgressURL parse listed "https://redis.internal" = true.
Proof. by vm_compute. Qed.

(** The entry [none] is meant to trust no host; a custom host [localhost] passes
    all the same (the upstream check refuses it). *)
Lemma none_still_admits_localhost :
  TRUSTED_CUSTOM_HOSTS none = [] /\
  isValidCustomHost parse none "https://localhost:11434" = true /\
  isSafeUpstreamURL parse none "https://localhost:11434" = false.
Proof. by vm_compute. Qed.

(** An IPv6 address is trusted by default but is never a valid custom host. *)
Example ipv6_is_no_custom_host : isValidCustomHost parse unset "https://[::1]:8080" = false.
Proof. by vm_compute. Qed.

Lemma ipv4_checks_are_cidr_blocks_witness : internal (addr 192 168 7 1) = true.
Proof.
  destruct (ipv4_checks_are_cidr_blocks (addr 192 168 7 1)) as [_ H].
  - split; [vm_compute; discriminate|vm_compute; reflexivity].
  - apply (eq_trans (eq_sym H)). vm_compute. reflexivity.
Defined.

Lemma parser_is_canonical u z raw :
  parse raw = Some u -> inet_aton (hostname u) = Some z -> hostname u = intToIPv4 z.
Proof.
  unfold parse. cbn [own].
  repeat match goal with |- context [(raw =? ?k)%string] => destruct (raw =? k)%string end;
    try done; intros [= <-] Hz; vm_compute in Hz; (discriminate Hz || (injection Hz as <-; by vm_compute)).
Qed.

Lemma accepted_host_is_public_witness :
  exists u, parse "https://8.8.8.8:8443" = Some u /\ is_http u = true.
Proof.
  destruct (accepted_host_is_public parse none "https://8.8.8.8:8443") as (u & Hu & Hh & _).
  - intros u z. apply parser_is_canonical.
  - vm_compute. reflexivity.
  - exists u. split; [exact Hu|exact Hh].
Defined.

Lemma plugin_egress_is_stricter_witness :
  isSafeUpstreamURL parse listed "https://redis.internal" = true.
Proof.
  destruct (plugin_egress_is_stricter parse listed "https://redis.internal") as [H _].
  - vm_compute. reflexivity.
  - exact H.
Defined.

Lemma custom_host_is_upstream_safe_witness :
  exists u, parse "https://api.openai.com/v1" = Some u /\ includes (hostname u) ":" = false.
Proof.
  destruct (custom_host_is_upstream_safe parse none "https://api.openai.com/v1") as (u & Hu & Hc & _).
  - vm_compute. reflexivity.
  - exists u. split; [exact Hu|exact Hc].
Defined.

End Samples.
