(* ===== verification/RequestValidator.v ===== *)
(** * Request validation

    Models [requestValidator] and [checkConfigFanOut] of
    [src/gateway/src/middlewares/requestValidator/index.ts], the custom-host
    refinement of [schema/config.ts], and the path from an accepted config to the
    host that is called: the camel-cased config of [handlerUtils.ts], the
    [customHost] of [requestContext.ts] and the check of the upstream URL.

    [JSON.parse], the URL parser and the config schema (a zod object: only its
    refinements are code of the gateway) are parameters.  Responses are named by
    the reason of the refusal; all are 400. *)

From Stdlib Require Import ZArith Lia ZifyBool Ascii Floats.SpecFloat.
From stdpp Require Import base strings option list.
From S2P Require Import Prelude JsValue JsText TargetTree UrlGuard.

Set Default Goal Selector "!".

#[local] Open Scope string_scope.
#[local] Open Scope list_scope.
#[local] Open Scope Z_scope.
#[local] Arguments num_of_Z : simpl never.

(** ** Fan-out *)

Definition DEFAULT_MAX_ROOT_CONFIG_TARGETS : Z := 100.
Definition DEFAULT_MAX_CONDITIONAL_ROOT_CONFIG_TARGETS : Z := 1000.
Definition DEFAULT_MAX_NESTED_CONFIG_TARGETS : Z := 50.

(** A positive whole number is kept as the integer it denotes. *)
Definition positiveIntFromEnv (raw : any) (fallback : Z) : Z :=
  let n := ToNumber raw in
  if is_integer_num n && nltb nzero n then floor_Z n else fallback.

(** [Array.isArray(t?.targets)] and then [t.targets]. *)
Definition targets_of (t : any) : list json :=
  match prop t "targets" with Some (JArr l) => l | _ => [] end.

(** The targets below a value, at any depth. *)
Fixpoint nested (v : json) : nat :=
  match v with
  | JObj o =>
      (fix find (o : list (string * json)) : nat :=
         match o with
         | [] => 0%nat
         | (k, x) :: r =>
             if ("targets" =? k)%string
             then match x with
                  | JArr l =>
                      (fix sum (l : list json) : nat :=
                         match l with [] => 0%nat | t :: r => S (nested t + sum r) end) l
                  | _ => 0%nat
                  end
             else find r
         end) o
  | _ => 0%nat
  end.

Definition all_targets (l : list json) : nat := sum_list (map (fun t => S (nested t)) l).

(** The walk; the top of the stack comes first.  [None]: out of fuel. *)
Fixpoint count_loop (fuel : nat) (budget : Z) (stack : list json) (count : Z) : option Z :=
  match stack with
  | [] => Some count
  | t :: rest =>
      match fuel with
      | O => None
      | S fuel =>
          let count := count + 1 in
          if budget <? count then Some count
          else count_loop fuel budget (rev (targets_of (Some t)) ++ rest) count
      end
  end.

Definition countNestedTargets (target : json) (budget : Z) : Z :=
  default 0 (count_loop (nested target) budget (rev (targets_of (Some target))) 0).

Inductive FanOut :=
| root_targets (n limit : Z)
| nested_targets (i : nat) (limit : Z).

Fixpoint first_wide (maxNested : Z) (i : nat) (l : list json) : option FanOut :=
  match l with
  | [] => None
  | t :: r =>
      if maxNested <? countNestedTargets t maxNested then Some (nested_targets i maxNested)
      else first_wide maxNested (S i) r
  end.

Definition max_root (env : Env) (config : any) : Z :=
  if strict_eq (prop (prop config "strategy") "mode") (JStr "conditional")
  then positiveIntFromEnv (env "MAX_CONDITIONAL_ROOT_CONFIG_TARGETS") DEFAULT_MAX_CONDITIONAL_ROOT_CONFIG_TARGETS
  else positiveIntFromEnv (env "MAX_ROOT_CONFIG_TARGETS") DEFAULT_MAX_ROOT_CONFIG_TARGETS.

Definition max_nested (env : Env) : Z :=
  positiveIntFromEnv (env "MAX_NESTED_CONFIG_TARGETS") DEFAULT_MAX_NESTED_CONFIG_TARGETS.

Definition checkConfigFanOut (env : Env) (config : any) : option FanOut :=
  match prop config "targets" with
  | Some (JArr targets) =>
      let n := Z.of_nat (length targets) in
      if max_root env config <? n then Some (root_targets n (max_root env config))
      else first_wide (max_nested env) 0 targets
  | _ => None
  end.

(** ** The validator *)

Definition APPLICATION_JSON : string := "application/json".
Definition MULTIPART_FORM_DATA : string := "multipart/form-data".
Definition GENERIC_AUDIO_PATTERN : string := "audio".
Definition FORWARD_HEADERS : string := "x-portkey-forward-headers".

Definition VALID_PROVIDERS : list string :=
  ["anthropic"; "anyscale"; "azure-openai"; "cohere"; "google"; "vertex-ai"; "mistral-ai";
   "openai"; "palm"; "perplexity-ai"; "reka-ai"; "together-ai"; "deepinfra"; "ncompass";
   "stability-ai"; "nomic"; "ollama"; "ai21"; "bedrock"; "groq"; "segmind"; "jina"; "fireworks-ai";
   "workers-ai"; "moonshot"; "openrouter"; "lingyi"; "zhipu"; "novita-ai"; "monsterapi";
   "deepseek"; "predibase"; "triton"; "voyage"; "azure-ai"; "github"; "deepbricks"; "siliconflow";
   "huggingface"; "cerebras"; "inference-net"; "sambanova"; "lemonfox-ai"; "upstage"; "lambda";
   "dashscope"; "x-ai"; "cortex"; "sagemaker"; "nebius"; "recraft-ai"; "milvus"; "replicate";
   "portkey"; "lepton"; "kluster-ai"; "nscale"; "hyperbolic"; "bytez"; "featherless-ai"; "krutrim";
   "qdrant"; "302ai"; "cometapi"; "matterai"; "meshy"; "tripo3d"; "nextbit"; "modal"; "z-ai";
   "oracle"; "iointelligence"; "aibadgr"; "ovhcloud"; "latitude"; "databricks"; "pinecone";
   "elevenlabs"; "deepgram"; "minimax"; "byteplus"; "lightning-ai"; "berget"; "scaleway"; "regolo";
   "ionos"; "stackit"; "infercom"; "meta"; "scx-ai"; "claude-platform-aws"; "bedrock-mantle";
   "fal-ai"; "meta-model-api"].

Inductive Reason :=
| invalid_content_type
| provider_or_config_required
| invalid_provider
| invalid_custom_host
| config_without_provider
| invalid_config (issues : list string)
| too_many_targets (e : FanOut)
| old_config
| invalid_json
| forwards_itself.

(** The request's headers by lower-case name; [requestHeaders[name]] is empty
    when absent. *)
Definition header (headers : obj string) (name : string) : string := default "" (own headers name).

Definition mime (contentType : string) : string := hd "" (split_on ";"%char contentType).

Definition bad_content_type (headers : obj string) : bool :=
  let contentType := header headers "content-type" in
  truthy_string contentType &&
  negb (mem_string (mime contentType) [APPLICATION_JSON; MULTIPART_FORM_DATA]) &&
  negb (startsWith (mime contentType) GENERIC_AUDIO_PATTERN).

(** [custom_host] of [configSchema], refined without the request's context. *)
Definition custom_host_refine (parse_url : string -> option URL) (env : Env) (value : json) : bool :=
  match prop (Some value) "custom_host" with
  | Some (JStr h) => negb (truthy_string h && negb (isValidCustomHost parse_url env h))
  | _ => true
  end.

Section Validator.
Variable parse_json : string -> option json.
Variable parse_url : string -> option URL.
(** [configSchema.safeParse]: the issues of a config it refuses. *)
Variable safeParse : json -> option (list string).
Variable env : Env.

(** The [try] block: [None] when nothing in it answers. A config that is null
    throws where a property of it is read. *)
Definition check_config (hasProvider : bool) (text : string) : option Reason :=
  match parse_json text with
  | None => Some invalid_json
  | Some config =>
      if negb hasProvider && is_null_or_undef (Some config) then Some invalid_json else
      if negb hasProvider && negb (truthy (prop (Some config) "provider") || truthy (prop (Some config) "targets"))
      then Some config_without_provider else
      match safeParse config with
      | Some (i :: rest) => Some (invalid_config (i :: rest))
      | _ =>
          match checkConfigFanOut env (Some config) with
          | Some e => Some (too_many_targets e)
          | None =>
              if is_null_or_undef (Some config) then Some invalid_json else
              if truthy (prop (Some config) "options") then Some old_config else None
          end
      end
  end.

Definition forwards_its_header (headers : obj string) : bool :=
  truthy_string (header headers FORWARD_HEADERS) &&
  existsb (fun h => (toLowerCase (trim h) =? FORWARD_HEADERS)%string)
    (split_on ","%char (header headers FORWARD_HEADERS)).

(** [None] is [next()]. *)
Definition requestValidator (headers : obj string) : option Reason :=
  let config := header headers "x-portkey-config" in
  let provider := header headers "x-portkey-provider" in
  let customHost := header headers "x-portkey-custom-host" in
  if bad_content_type headers then Some invalid_content_type else
  if negb (truthy_string config || truthy_string provider) then Some provider_or_config_required else
  if truthy_string provider && negb (mem_string provider VALID_PROVIDERS) then Some invalid_provider else
  if truthy_string customHost && negb (isValidCustomHost parse_url env customHost)
  then Some invalid_custom_host else
  match (if truthy_string config then check_config (truthy_string provider) config else None) with
  | Some r => Some r
  | None => if forwards_its_header headers then Some forwards_itself else None
  end.
End Validator.

(** ** The host an accepted request calls *)

(** The keys whose values keep their spelling. *)
Definition preserved_keys : list string :=
  ["override_params"; "params"; "checks"; "vertex_service_account_json"; "vertexServiceAccountJson";
   "conditions"; "input_guardrails"; "output_guardrails"; "default_input_guardrails";
   "default_output_guardrails"; "integrationModelDetails"; "integrationDetails"; "virtualKeyDetails";
   "cb_config"].

Definition camel_config (config : json) : json := convertKeysToCamelCase preserved_keys config.

(** [requestContext.customHost]. *)
Definition customHost (headers : obj string) (providerOption : json) : any :=
  let h := header headers "x-portkey-custom-host" in
  if truthy_string h then Some (JStr h) else
  let p := prop (Some providerOption) "customHost" in
  if truthy p then p else Some (JStr "").

(** [tryPost] throws before calling the upstream. *)
Definition refuses_upstream (parse_url : string -> option URL) (env : Env) (customHost : any)
    (hasRequestHandler : bool) (requestURL : string) : bool :=
  negb (truthy customHost) && negb hasRequestHandler && negb (isSafeUpstreamURL parse_url env requestURL).

(** ** Counting *)

Lemma nested_targets_of v : nested v = all_targets (targets_of (Some v)).
Proof.
  destruct v as [| | | | |o]; try done. unfold targets_of, prop. cbn [nested].
  induction o as [|[k x] o IH]; [done|]. cbn [own].
  destruct ("targets" =? k)%string; [|done].
  destruct x as [| | | |l|]; try done. clear.
  induction l as [|t l IH]; [done|]. unfold all_targets. cbn [map sum_list]. by rewrite IH.
Qed.

Lemma sum_list_app l k : sum_list (l ++ k) = (sum_list l + sum_list k)%nat.
Proof. induction l as [|x l IH]; cbn; [done|]. rewrite IH. lia. Qed.

Lemma all_targets_app l k : all_targets (l ++ k) = (all_targets l + all_targets k)%nat.
Proof. unfold all_targets. by rewrite map_app, sum_list_app. Qed.

Lemma all_targets_cons t l : all_targets (t :: l) = (S (nested t) + all_targets l)%nat.
Proof. done. Qed.

Lemma all_targets_rev l : all_targets (rev l) = all_targets l.
Proof.
  induction l as [|t l IH]; [done|]. cbn [rev].
  rewrite all_targets_app, IH, !all_targets_cons. unfold all_targets at 2. cbn. lia.
Qed.

(** The walk ends, with the exact count when it fits the budget. *)
Lemma count_loop_exact fuel budget stack count :
  (all_targets stack <= fuel)%nat -> count <= budget ->
  count_loop fuel budget stack count =
    Some (Z.min (count + Z.of_nat (all_targets stack)) (budget + 1)).
Proof.
  revert stack count. induction fuel as [|fuel IH]; intros [|t rest] count Hf Hc; cbn [count_loop].
  1, 3: unfold all_targets; cbn; f_equal; lia.
  { rewrite all_targets_cons in Hf. lia. }
  rewrite all_targets_cons in *. destruct (Z.ltb_spec budget (count + 1)).
  - f_equal. lia.
  - rewrite IH, all_targets_app, all_targets_rev, <- nested_targets_of; [f_equal; lia| |lia].
    rewrite all_targets_app, all_targets_rev, <- nested_targets_of. lia.
Qed.

Lemma countNestedTargets_exact target budget :
  0 <= budget -> countNestedTargets target budget = Z.min (Z.of_nat (nested target)) (budget + 1).
Proof.
  intros Hb. unfold countNestedTargets.
  rewrite count_loop_exact; rewrite ?all_targets_rev, <- ?nested_targets_of; [|lia..].
  cbn [default]. unfold id. f_equal; lia.
Qed.

Lemma floor_pos n : is_integer_num n = true -> nltb nzero n = true -> 0 < floor_Z n.
Proof.
  destruct n as [[]|[]| |[] m e]; try done.
  cbn -[Z.mul Z.pow Z.div Z.opp Z.eqb]. intros Hi _.
  destruct (Z.leb_spec 0 e) as [He|He]; [pose proof (Z.pow_pos_nonneg 2 e); lia|].
  apply Z.eqb_eq in Hi. pose proof (Z.pow_pos_nonneg 2 (- e) ltac:(lia) ltac:(lia)) as Hp.
  change (Zneg m) with (- Zpos m) in Hi.
  destruct (Z.lt_ge_cases (Zpos m) (2 ^ (- e))) as [Hlt|Hge].
  - rewrite (Z.div_small (Zpos m)) in Hi by lia.
    assert (- Zpos m / 2 ^ (- e) < 0) by (apply Z.div_lt_upper_bound; lia). lia.
  - apply Z.div_str_pos. lia.
Qed.

Lemma positiveIntFromEnv_pos raw fallback : 0 < fallback -> 0 < positiveIntFromEnv raw fallback.
Proof.
  intros Hf. unfold positiveIntFromEnv. cbv zeta.
  destruct (is_integer_num (ToNumber raw)) eqn:Hi; [|done].
  destruct (nltb nzero (ToNumber raw)) eqn:Hn; [|done]. by apply floor_pos.
Qed.

Lemma max_nested_pos env : 0 < max_nested env.
Proof. by apply positiveIntFromEnv_pos. Qed.

Lemma first_wide_None m i l :
  0 <= m -> first_wide m i l = None <-> Forall (fun t => Z.of_nat (nested t) <= m) l.
Proof.
  intros Hm. revert i. induction l as [|t l IH]; intros i; cbn [first_wide].
  - split; [constructor|done].
  - rewrite countNestedTargets_exact by done. rewrite Forall_cons.
    destruct (Z.ltb_spec m (Z.min (Z.of_nat (nested t)) (m + 1))).
    + split; [done|]. intros [Ht _]. lia.
    + rewrite IH. split; [intros Hl; split; [lia|done]|by intros [_ Hl]].
Qed.

Lemma fan_out_iff env config :
  checkConfigFanOut env config = None <->
  Z.of_nat (length (targets_of config)) <= max_root env config /\
  Forall (fun t => Z.of_nat (nested t) <= max_nested env) (targets_of config).
Proof.
  unfold checkConfigFanOut, targets_of at 1 2.
  assert (Hroot : 0 < max_root env config).
  { unfold max_root. case_match; by apply positiveIntFromEnv_pos. }
  pose proof (max_nested_pos env).
  destruct (prop config "targets") as [[| | | |l|]|];
    try (split; [intros _; split; [cbn; lia|constructor]|done]).
  destruct (Z.ltb_spec (max_root env config) (Z.of_nat (length l))).
  - split; [done|]. intros [Hl _]. lia.
  - rewrite first_wide_None by lia. naive_solver lia.
Qed.

Lemma all_targets_bound m l :
  Forall (fun t => Z.of_nat (nested t) <= m) l ->
  Z.of_nat (all_targets l) <= Z.of_nat (length l) * (1 + m).
Proof.
  induction 1 as [|t l Ht _ IH]; [done|]. rewrite all_targets_cons. cbn [length]. nia.
Qed.

Lemma fan_out_bound env config :
  checkConfigFanOut env (Some config) = None ->
  Z.of_nat (nested config) <= max_root env (Some config) * (1 + max_nested env).
Proof.
  intros [Hr Hn]%fan_out_iff. rewrite nested_targets_of.
  apply all_targets_bound in Hn. pose proof (max_nested_pos env). nia.
Qed.

(** The fan-out check ends for every config, accepts exactly the configs with
    at most the configured number of root targets, none of which holds more than
    the configured number of targets at any depth, and so bounds the targets of an
    accepted config by the product of the two limits. *)
Theorem fan_out_check_exact env config :
  (checkConfigFanOut env (Some config) = None <->
   Z.of_nat (length (targets_of (Some config))) <= max_root env (Some config) /\
   Forall (fun t => Z.of_nat (nested t) <= max_nested env) (targets_of (Some config))) /\
  (checkConfigFanOut env (Some config) = None ->
   Z.of_nat (nested config) <= max_root env (Some config) * (1 + max_nested env)).
Proof. split; [apply fan_out_iff|apply fan_out_bound]. Qed.

(** ** The host of an accepted config *)

Definition camel_value (k : string) (x : json) : json :=
  if mem_string k preserved_keys then x else camel_config x.

Lemma camel_config_obj o :
  camel_config (JObj o) =
  JObj (foldl (fun acc p => obj_set acc (toCamelCase p.1) (camel_value p.1 p.2)) [] o).
Proof.
  unfold camel_config. cbn [convertKeysToCamelCase]. f_equal. generalize (@nil (string * json)).
  induction o as [|[k x] o IH]; intros acc; [done|]. cbn [foldl fst snd]. apply IH.
Qed.

Section Called.
Variable parse_json : string -> option json.
Variable parse_url : string -> option URL.
Variable safeParse : json -> option (list string).
(** The environment of the request, and the one read without a request. *)
Variable env process_env : Env.

(** A config the schema lets through. *)
Definition accepts (config : json) : Prop := safeParse config = None \/ safeParse config = Some [].

(** What zod documents: a config without issues is an object and has passed the
    refinement, its [custom_host] is a string and its [targets] are configs without
    issues, when there are any. *)
Definition schema_refines : Prop :=
  forall config, accepts config ->
    is_object (Some config) = true /\ custom_host_refine parse_url process_env config = true /\
    match prop (Some config) "custom_host" with None | Some (JStr _) => True | _ => False end /\
    match prop (Some config) "targets" with
    | None => True
    | Some (JArr l) => Forall accepts l
    | _ => False
    end.

Lemma check_config_passes hasProvider text :
  check_config parse_json safeParse env hasProvider text = None ->
  exists config, parse_json text = Some config /\ accepts config /\
    checkConfigFanOut env (Some config) = None.
Proof.
  unfold check_config. destruct (parse_json text) as [config|]; [|done].
  do 2 (case_match; [done|]). intros Hc. exists config. split; [done|]. unfold accepts.
  destruct (safeParse config) as [[|i rest]|]; [..|done|]; destruct (checkConfigFanOut env (Some config));
    try done; auto.
Qed.

Lemma validator_passes headers :
  requestValidator parse_json parse_url safeParse env headers = None ->
  (truthy_string (header headers "x-portkey-custom-host") = true ->
   isValidCustomHost parse_url env (header headers "x-portkey-custom-host") = true) /\
  (truthy_string (header headers "x-portkey-config") = true ->
   check_config parse_json safeParse env (truthy_string (header headers "x-portkey-provider"))
     (header headers "x-portkey-config") = None).
Proof.
  unfold requestValidator. cbv zeta. do 3 (case_match; [done|]).
  destruct (truthy_string (header headers "x-portkey-custom-host"));
    destruct (isValidCustomHost parse_url env (header headers "x-portkey-custom-host")); try done;
    cbn [andb negb];
    destruct (truthy_string (header headers "x-portkey-config")); try done;
    destruct (check_config _ _ _ _ _); done.
Qed.

End Called.

(** ** Samples *)

Module Samples.

Definition parse_url (raw : string) : option URL :=
  own [("https://llm.example.com/v1", mkURL "https:" "" "" "llm.example.com" "");
       ("http://169.254.169.254/latest", mkURL "http:" "" "" "169.254.169.254" "")] raw.

(** A schema that only looks at the custom host. *)
Definition safeParse (config : json) : option (list string) :=
  if custom_host_refine parse_url UrlGuard.Samples.none config &&
     match prop (Some config) "custom_host" with None | Some (JStr _) => true | _ => false end
  then None else Some ["Invalid custom host"].

Definition leaf : json := JObj [("provider", JStr "openai")].
Definition documented : obj json :=
  [("provider", JStr "openai"); ("custom_host", JStr "https://llm.example.com/v1")].
Definition camel : obj json :=
  [("provider", JStr "openai"); ("customHost", JStr "http://169.254.169.254/latest")].

Definition parse_json (text : string) : option json :=
  own [("documented", JObj documented); ("camel", JObj camel);
       ("deep", JObj [("targets", JArr [JObj [("targets", JArr (repeat leaf 51))]])])] text.

Definition request (config : string) : obj string :=
  [("content-type", "application/json; charset=utf-8"); ("x-portkey-config", config)].

#[local] Abbreviation validate := (requestValidator parse_json parse_url safeParse UrlGuard.Samples.none).

Example documented_passes : validate (request "documented") = None.
Proof. by vm_compute. Qed.
Example wide_config_refused : validate (request "deep") = Some (too_many_targets (nested_targets 0 50)).
Proof. by vm_compute. Qed.
Example no_config_refused : validate [("content-type", "application/json")] = Some provider_or_config_required.
Proof. by vm_compute. Qed.

(** The config schema checks [custom_host]; the key [customHost] is read as the
    same setting afterwards but is not checked, and a request with a custom host
    skips the check of its URL: any address can be called. *)
Lemma camel_case_host_is_unchecked :
  validate (request "camel") = None /\
  customHost (request "camel") (camel_config (JObj camel)) = Some (JStr "http://169.254.169.254/latest") /\
  isValidCustomHost parse_url UrlGuard.Samples.none "http://169.254.169.254/latest" = false /\
  isSafeUpstreamURL parse_url UrlGuard.Samples.none "http://169.254.169.254/latest" = false /\
  refuses_upstream parse_url UrlGuard.Samples.none
    (customHost (request "camel") (camel_config (JObj camel))) false "http://169.254.169.254/latest" = false.
Proof. by vm_compute. Qed.

Lemma fan_out_check_exact_witness :
  Z.of_nat (nested (JObj [("targets", JArr [leaf; leaf])])) <= 100 * (1 + 50).
Proof.
  apply (proj2 (fan_out_check_exact UrlGuard.Samples.none (JObj [("targets", JArr [leaf; leaf])]))).
  vm_compute. reflexivity.
Defined.

End Samples.
