(* ===== verification/McpConfig.v ===== *)
(** * The configuration of MCP servers

    Models [src/gateway/src/mcp/config.ts]: how the [mcp_servers] object of the
    configuration file becomes the servers of the proxy, every refusal a value, and
    what that gives the tool policy ([McpPolicy]) and the proxy ([McpHandler]).

    Parameters: the URL parser, the fragment of a URL, the string of a value that is
    no string ([String(v)]), the random part of a guardrail's id, and the table of
    the guardrail plugins.  The configured map is one assignable variable. *)

From Stdlib Require Import ZArith Lia ZifyBool Ascii Floats.SpecFloat.
From stdpp Require Import base strings option list gmap sets.
From S2P Require Import Prelude JsValue JsText TargetTree McpText McpPolicy McpHandler UrlGuard RequestValidator.

Set Default Goal Selector "!".

#[local] Open Scope string_scope.
#[local] Open Scope list_scope.
#[local] Arguments num_of_Z : simpl never.

(** ** Refusals *)

Inductive Why :=
| bad_server_id
| not_an_object
| url_not_allowed
| url_not_https
| url_has_fragment
| tools_required
| tools_needs_one
| not_a_name_list (key : string)
| invalid_tool_name (key : string)
| pins_not_an_object
| invalid_pin (name : string)
| not_a_digest (name : string)
| bad_owner
| bad_change_action
| auth_required
| auth_names_no_variable (key : string)
| variable_not_set (name : string)
| not_a_header_value (name : string)
| header_not_allowed
| bad_auth_type
| not_an_array (key : string)
| no_checks (key : string)
| unknown_check (key : string)
| not_positive (key : string).

(** A [McpConfigError], or an error of the language. *)
Inductive ConfigError :=
| Refused (server : string) (why : Why)
| servers_not_an_object
| TypeError.

Definition fail {A} (server : string) (why : Why) : result ConfigError A := Throw (Refused server why).

(** [if (b) fail(...)] *)
Definition refuse_if (b : bool) (server : string) (why : Why) : result ConfigError unit :=
  if b then fail server why else Ok tt.

(** ** Patterns *)

Definition id_char (c : ascii) : bool :=
  is_lower c || is_digit c || (code c =? 95)%N || (code c =? 45)%N.

Definition SERVER_ID_RE (s : string) : bool :=
  match s with
  | String c r => (is_lower c || is_digit c) && (String.length r <=? 62)%nat && sforallb id_char r
  | EmptyString => false
  end.

Definition is_letter (c : ascii) : bool := is_upper c || is_lower c.

Definition local_char (c : ascii) : bool :=
  is_letter c || is_digit c || existsb (N.eqb (code c)) [46; 95; 37; 43; 45]%N.

Definition domain_char (c : ascii) : bool :=
  is_letter c || is_digit c || (code c =? 46)%N || (code c =? 45)%N.

(** Up to the last dot, and after it. *)
Fixpoint last_dot (s : string) : option (string * string) :=
  match s with
  | EmptyString => None
  | String c r =>
      match last_dot r with
      | Some (a, b) => Some (String c a, b)
      | None => if (code c =? 46)%N then Some (EmptyString, r) else None
      end
  end.

Definition sized (a b : nat) (f : ascii -> bool) (s : string) : bool :=
  (a <=? String.length s)%nat && (String.length s <=? b)%nat && sforallb f s.

Definition OWNER_RE (s : string) : bool :=
  match split_on "@"%char s with
  | [user; domain] =>
      sized 1 64 local_char user &&
      match last_dot domain with
      | Some (host, tld) => sized 1 187 domain_char host && sized 2 24 is_letter tld
      | None => false
      end
  | _ => false
  end.

Definition is_hex_digit (c : ascii) : bool := (radix_digit c <? 16)%Z.

(** [/^[0-9a-f]{64}$/i] *)
Definition is_digest (s : string) : bool := sized 64 64 is_hex_digit s.

Definition RESERVED_HEADERS : list string :=
  ["host"; "content-length"; "content-type"; "accept"; "connection"; "transfer-encoding";
   "mcp-protocol-version"; "mcp-session-id"; "mcp-method"; "mcp-name"; "last-event-id"].

(** [/[\r\n\0]/] *)
Definition breaks_header (s : string) : bool :=
  sexistsb (fun c => (code c =? 13)%N || (code c =? 10)%N || (code c =? 0)%N) s.

Definition DEFAULT_TIMEOUT_MS : Z := 30000.
Definition DEFAULT_MAX_REQUEST_BYTES : Z := 1024 * 1024.
Definition DEFAULT_MAX_RESPONSE_BYTES : Z := 8 * 1024 * 1024.
Definition DEFAULT_MAX_DESCRIPTION_LENGTH : Z := 2048.

(** ** Parts of a server *)

Definition positiveInt (server key : string) (raw : any) (fallback : Z) : result ConfigError Z :=
  match raw with
  | None => Ok fallback
  | Some (JNum n) =>
      if is_integer_num n && nltb nzero n then Ok (floor_Z n) else fail server (not_positive key)
  | _ => fail server (not_positive key)
  end.

Definition json_text (v : json) : option string := match v with JStr s => Some s | _ => None end.

Definition stringList (server key : string) (raw : any) : result ConfigError (list string) :=
  match raw with
  | Some (JArr l) =>
      match mapM json_text l with
      | Some names =>
          if forallb valid_name names then Ok names else fail server (invalid_tool_name key)
      | None => fail server (not_a_name_list key)
      end
  | _ => fail server (not_a_name_list key)
  end.

Section Parse.
Variable parse_url : string -> option URL.
Variable url_hash : string -> string.
(** [String(v)] of a value that is no string. *)
Variable to_text : json -> string.
Variable random_id : string -> nat -> string.
(** [plugins[source]?.[fn]] is truthy. *)
Variable known_check : string -> string -> bool.
(** The variables of the process, and what [isSafeUpstreamURL] reads of them. *)
Variable env : string -> option string.
Variable process_env : Env.

(** [v === undefined] *)
Definition is_undefined (v : any) : bool := match v with None => true | Some _ => false end.

Definition is_object_type (v : any) : bool :=
  match v with Some (JObj _) | Some (JArr _) => true | _ => false end.

Definition fromEnv (id : string) (raw : any) (key : string) : result ConfigError string :=
  match prop raw key with
  | Some (JStr name) =>
      if negb (truthy_string name) then fail id (auth_names_no_variable key) else
      match env name with
      | Some value =>
          let value := trim_text value in
          if negb (truthy_string value) then fail id (variable_not_set name)
          else if breaks_header value then fail id (not_a_header_value name)
          else Ok value
      | None => fail id (variable_not_set name)
      end
  | _ => fail id (auth_names_no_variable key)
  end.

Definition header_name (v : any) : string :=
  toLowerCase (match nullish v (Some (JStr "")) with
               | Some (JStr s) => s | Some x => to_text x | None => "" end).

Definition parseAuth (id : string) (raw : any) : result ConfigError (option (string * string)) :=
  if negb (is_object_type raw) then fail id auth_required else
  match prop raw "type" with
  | Some (JStr type) =>
      if (type =? "none")%string then Ok None
      else if (type =? "bearer")%string then
        let* token := fromEnv id raw "token_env" in
        Ok (Some ("authorization", "Bearer " +:+ token))
      else if (type =? "header")%string then
        let name := header_name (prop raw "header") in
        if negb (is_token name) || mem_string name RESERVED_HEADERS then fail id header_not_allowed else
        let* value := fromEnv id raw "value_env" in
        Ok (Some (name, value))
      else fail id bad_auth_type
  | _ => fail id bad_auth_type
  end.

(** Is the check one of the table?  Its id is a string ([hook_check]). *)
Definition check_known (c : json) : bool :=
  match prop (Some c) "id" with
  | Some (JStr id) =>
      match split_dot id with
      | [source; fn] => known_check source fn
      | [source] => known_check source "undefined"
      | _ => false
      end
  | _ => false
  end.

Definition input_key (key : string) : bool := startsWith key "input".

Definition guardrail (id key : string) (hook : json) : result ConfigError json :=
  match hook with
  | JObj h =>
      match own h "checks" with
      | Some (JArr (c :: cs)) =>
          if forallb check_known (c :: cs) then
            let deny := match own h "deny" with Some (JBool false) => false | _ => true end in
            let h := obj_put h "type" (JStr "guardrail") in
            let h := obj_put h "deny" (JBool deny) in
            let h := obj_put h "async" (JBool false) in
            Ok (JObj (obj_put h "eventType"
                  (JStr (if input_key key then "beforeRequestHook" else "afterRequestHook"))))
          else fail id (unknown_check key)
      | _ => fail id (no_checks key)
      end
  | _ => fail id (no_checks key)
  end.

Definition parseGuardrails (id key : string) (raw : any) : result ConfigError (list json) :=
  match raw with
  | None => Ok []
  | Some (JArr l) =>
      match convertHooksShorthand random_id (Some (JArr l)) (if input_key key then "input" else "output")
              "guardrail" with
      | Ok hooks => map_throw (guardrail id key) hooks
      | Throw _ => Throw TypeError
      end
  | _ => fail id (not_an_array key)
  end.

Definition parse_pin (id : string) (p : string * json) : result ConfigError (string * string) :=
  match p with
  | (name, JStr hash) =>
      if negb (valid_name name) then fail id (invalid_pin name)
      else if negb (is_digest hash) then fail id (not_a_digest name)
      else Ok (name, toLowerCase hash)
  | (name, _) => fail id (invalid_pin name)
  end.

Definition parse_pins (id : string) (raw : any) : result ConfigError (gmap string string) :=
  match raw with
  | None => Ok ∅
  | Some (JObj o) => let* l := map_throw (parse_pin id) o in Ok (list_to_map l)
  | Some JNull => Throw TypeError
  | _ => fail id pins_not_an_object
  end.

Definition parse_tools (id : string) (tools : any) : result ConfigError ToolLists :=
  let* _ := refuse_if (negb (is_object_type tools)) id tools_required in
  let allow := prop tools "allow" in
  let deny := prop tools "deny" in
  let* _ := refuse_if (Bool.eqb (is_undefined allow) (is_undefined deny)) id tools_needs_one in
  match allow with
  | Some _ => let* names := stringList id "tools.allow" allow in
              Ok (mkLists allow_mode (list_to_set names) ∅)
  | None => let* names := stringList id "tools.deny" deny in
            Ok (mkLists deny_mode (list_to_set names) (list_to_set (map toLowerCase names)))
  end.

Definition parse_owner (id : string) (raw : any) : result ConfigError (option string) :=
  match raw with
  | None => Ok None
  | Some (JStr s) => if OWNER_RE s then Ok (Some s) else fail id bad_owner
  | _ => fail id bad_owner
  end.

Definition parse_change (id : string) (raw : any) : result ConfigError DescriptionChangeAction :=
  match nullish raw (Some (JStr "block")) with
  | Some (JStr s) =>
      if (s =? "block")%string then Ok block else if (s =? "flag")%string then Ok flag
      else fail id bad_change_action
  | _ => fail id bad_change_action
  end.

Definition parse_address (id : string) (raw : any) : result ConfigError string :=
  match prop raw "url" with
  | Some (JStr url) =>
      let* _ := refuse_if (negb (isSafeUpstreamURL parse_url process_env url)) id url_not_allowed in
      match parse_url url with
      | Some u =>
          let* _ := refuse_if (negb (protocol u =? "https:")%string &&
                               negb (match prop raw "allow_http" with Some (JBool b) => b | _ => false end))
                      id url_not_https in
          let* _ := refuse_if (truthy_string (url_hash url)) id url_has_fragment in
          Ok url
      | None => Throw TypeError
      end
  | _ => fail id url_not_allowed
  end.

Definition parseServer (id : string) (raw : any) : result ConfigError McpServerConfig :=
  let* _ := refuse_if (negb (SERVER_ID_RE id)) id bad_server_id in
  let* _ := refuse_if (negb (is_object_type raw)) id not_an_object in
  let* url := parse_address id raw in
  let* tools := parse_tools id (prop raw "tools") in
  let* pinned := parse_pins id (prop raw "pinned_tools") in
  let* owner := parse_owner id (prop raw "owner") in
  let* onChange := parse_change id (prop raw "on_description_change") in
  let* authHeader := parseAuth id (prop raw "auth") in
  let* inputs := parseGuardrails id "input_guardrails" (prop raw "input_guardrails") in
  let* outputs := parseGuardrails id "output_guardrails" (prop raw "output_guardrails") in
  let* timeoutMs := positiveInt id "timeout_ms" (prop raw "timeout_ms") DEFAULT_TIMEOUT_MS in
  let* maxRequest := positiveInt id "max_request_bytes" (prop raw "max_request_bytes") DEFAULT_MAX_REQUEST_BYTES in
  let* maxResponse := positiveInt id "max_response_bytes" (prop raw "max_response_bytes") DEFAULT_MAX_RESPONSE_BYTES in
  let* maxDescription := positiveInt id "max_description_length" (prop raw "max_description_length")
                           DEFAULT_MAX_DESCRIPTION_LENGTH in
  Ok (mkServer id url authHeader tools pinned onChange inputs outputs timeoutMs maxRequest maxResponse
        maxDescription owner).

(** Every server of the object, in its order, or the first error. *)
Definition parse_entry (p : string * json) : result ConfigError (string * McpServerConfig) :=
  let* s := parseServer p.1 (Some p.2) in Ok (p.1, s).

Definition parseMcpServers (raw : any) : result ConfigError (obj McpServerConfig) :=
  match raw with
  | None | Some JNull => Ok []
  | Some (JObj o) => map_throw parse_entry o
  | _ => Throw servers_not_an_object
  end.
End Parse.

(** ** What a parsed server is *)

(** A guardrail as the proxy runs it: it has checks, all known, it runs in the
    foreground, and it denies unless the configuration says not to. *)
Definition guardrail_ok (known : string -> string -> bool) (stage : string) (hook : json) : Prop :=
  exists h c cs, hook = JObj h /\ own h "checks" = Some (JArr (c :: cs)) /\
    forallb (check_known known) (c :: cs) = true /\
    own h "async" = Some (JBool false) /\ own h "type" = Some (JStr "guardrail") /\
    own h "eventType" = Some (JStr stage) /\ exists b, own h "deny" = Some (JBool b).

Definition header_ok (p : string * string) : Prop :=
  is_token p.1 = true /\ p.1 ∉ RESERVED_HEADERS /\ breaks_header p.2 = false.

Definition lists_ok (t : ToolLists) : Prop :=
  (forall n, n ∈ tl_names t -> valid_name n = true) /\
  (tl_mode t = deny_mode -> forall n, n ∈ tl_names t -> toLowerCase n ∈ tl_denyLower t).

Record server_ok (parse_url : string -> option URL) (known : string -> string -> bool) (env : Env)
    (s : McpServerConfig) : Prop := {
  so_id : SERVER_ID_RE (ms_id s) = true;
  so_url : isSafeUpstreamURL parse_url env (ms_url s) = true;
  so_auth p : ms_authHeader s = Some p -> header_ok p;
  so_tools : lists_ok (ms_tools s);
  so_pins n h : ms_pinnedTools s !! n = Some h -> valid_name n = true /\ is_digest h = true;
  so_inputs : Forall (guardrail_ok known "beforeRequestHook") (ms_inputGuardrails s);
  so_outputs : Forall (guardrail_ok known "afterRequestHook") (ms_outputGuardrails s);
  so_limits : (0 < ms_timeoutMs s /\ 0 < ms_maxRequestBytes s /\ 0 < ms_maxResponseBytes s /\
               0 < ms_maxDescriptionLength s)%Z;
  so_owner o : ms_owner s = Some o -> OWNER_RE o = true
}.

(** ** Parts *)

Lemma refuse_if_Ok b id why u : refuse_if b id why = Ok u -> b = false.
Proof. by destruct b. Qed.

Lemma positiveInt_pos id key raw d z : (0 < d)%Z -> positiveInt id key raw d = Ok z -> (0 < z)%Z.
Proof.
  unfold positiveInt. intros Hd. destruct raw as [[| |n| | |]|]; try done; [|by intros [= <-]].
  destruct (is_integer_num n) eqn:Hi; [|done]. destruct (nltb nzero n) eqn:Hn; [|done].
  intros [= <-]. by apply floor_pos.
Qed.

Lemma stringList_valid id key raw names :
  stringList id key raw = Ok names -> forallb valid_name names = true.
Proof.
  unfold stringList. destruct raw as [[| | | |l|]|]; try done.
  destruct (mapM json_text l); [|done]. destruct (forallb valid_name l0) eqn:Hv; [|done].
  by intros [= <-].
Qed.

Lemma parse_tools_ok id raw t : parse_tools id raw = Ok t -> lists_ok t.
Proof.
  unfold parse_tools. intros H. run_ok.
  assert (Hv : forall names, forallb valid_name names = true -> forall n, n ∈ names -> valid_name n = true).
  { intros names Hn n Hin. rewrite forallb_forall in Hn. by apply Hn, list_elem_of_In. }
  destruct (prop raw "allow") as [allowed|]; run_ok; injection H as <-;
    match goal with Hs : stringList _ _ _ = Ok _ |- _ => apply stringList_valid in Hs end; split; cbn.
  - intros n. rewrite elem_of_list_to_set. by apply Hv.
  - done.
  - intros n. rewrite elem_of_list_to_set. by apply Hv.
  - intros _ n. rewrite !elem_of_list_to_set. intros Hn. apply list_elem_of_fmap. by exists n.
Qed.

Lemma lower_hex c : is_hex_digit c = true -> is_hex_digit (lower_char c) = true.
Proof.
  intros H. revert H. apply implb_true_iff. revert c. apply each_char. by vm_compute.
Qed.

Lemma length_smap f s : String.length (smap f s) = String.length s.
Proof. induction s as [|c s IH]; cbn; [done|]. by rewrite IH. Qed.

Lemma is_digest_lower s : is_digest s = true -> is_digest (toLowerCase s) = true.
Proof.
  unfold is_digest, sized, toLowerCase. rewrite !andb_true_iff, length_smap. intros [Hl Hs].
  split; [done|]. clear Hl. induction s as [|c s IH]; cbn in *; [done|].
  apply andb_true_iff in Hs as [Hc Hs]. rewrite lower_hex by done. auto.
Qed.

Lemma parse_pins_ok id raw m n h :
  parse_pins id raw = Ok m -> m !! n = Some h -> valid_name n = true /\ is_digest h = true.
Proof.
  unfold parse_pins. destruct raw as [[| | | | |o]|]; try done; [|intros [= <-]; by rewrite lookup_empty].
  intros H. run_ok. injection H as <-. intros Hn%elem_of_list_to_map_2.
  match goal with Hm : map_throw _ _ = Ok _ |- _ => rename Hm into Hpins end.
  apply map_throw_Ok in Hpins. apply list_elem_of_lookup in Hn as [i Hi].
  destruct (Forall2_lookup_r _ _ _ _ _ Hpins Hi) as ([k v] & _ & Hp). revert Hp. unfold parse_pin.
  destruct v; try done. destruct (valid_name k) eqn:Hk; [|done].
  destruct (is_digest s) eqn:Hs; [|done]. intros [= -> <-]. split; [done|by apply is_digest_lower].
Qed.

Section Parts.
Variable to_text : json -> string.
Variable random_id : string -> nat -> string.
Variable known_check : string -> string -> bool.
Variable env : string -> option string.

Lemma fromEnv_ok id raw key v : fromEnv env id raw key = Ok v -> breaks_header v = false.
Proof.
  unfold fromEnv. destruct (prop raw key) as [[| | |name| |]|]; try done.
  destruct (negb _); [done|]. destruct (env name) as [value|]; [|done]. cbv zeta.
  destruct (negb _); [done|]. destruct (breaks_header (trim_text value)) eqn:Hb; [done|].
  by intros [= <-].
Qed.

Lemma parseAuth_ok id raw p : parseAuth to_text env id raw = Ok (Some p) -> header_ok p.
Proof.
  unfold parseAuth. destruct (negb _); [done|].
  destruct (prop raw "type") as [[| | |type| |]|]; try done.
  destruct (type =? "none")%string; [done|]. destruct (type =? "bearer")%string.
  { intros H. run_ok. injection H as <-.
    match goal with Hf : fromEnv _ _ _ _ = Ok _ |- _ => apply fromEnv_ok in Hf; rename Hf into Hv end.
    split; [done|]. split; [by apply mem_string_false|]. exact Hv. }
  destruct (type =? "header")%string; [|done]. cbv zeta.
  destruct (is_token (header_name to_text (prop raw "header"))) eqn:Ht; [|done].
  destruct (mem_string (header_name to_text (prop raw "header")) RESERVED_HEADERS) eqn:Hr; [done|].
  cbn [negb orb]. intros H. run_ok. injection H as <-.
  match goal with Hf : fromEnv _ _ _ _ = Ok _ |- _ => apply fromEnv_ok in Hf; rename Hf into Hv end.
  split; [done|]. split; [by apply mem_string_false|]. exact Hv.
Qed.

Lemma guardrail_sound id key hook h :
  guardrail known_check id key hook = Ok h ->
  guardrail_ok known_check (if input_key key then "beforeRequestHook" else "afterRequestHook") h.
Proof.
  unfold guardrail. destruct hook as [| | | | |o]; try done.
  destruct (own o "checks") as [[| | | |[|c cs]|]|] eqn:Hc; try done.
  destruct (forallb (check_known known_check) (c :: cs)) eqn:Hk; [|done]. cbv zeta. intros [= <-].
  eexists _, c, cs. split; [done|]. rewrite !own_put. cbn [String.eqb Ascii.eqb Bool.eqb].
  repeat split; try done. by eexists.
Qed.

Lemma parseGuardrails_ok id key raw hooks :
  parseGuardrails random_id known_check id key raw = Ok hooks ->
  Forall (guardrail_ok known_check (if input_key key then "beforeRequestHook" else "afterRequestHook")) hooks.
Proof.
  unfold parseGuardrails. destruct raw as [[| | | |l|]|]; try done; [|intros [= <-]; constructor].
  destruct (convertHooksShorthand _ _ _ _) as [converted|]; [|done].
  intros Hm%map_throw_Ok. induction Hm as [|x y xs ys Hxy _ IH]; constructor; [|done].
  by apply guardrail_sound in Hxy.
Qed.
End Parts.

(** ** Theorems *)

Section Theorems.
Variable parse_url : string -> option URL.
Variable url_hash : string -> string.
Variable to_text : json -> string.
Variable random_id : string -> nat -> string.
Variable known_check : string -> string -> bool.
Variable env : string -> option string.
Variable process_env : Env.

#[local] Abbreviation parse_server := (parseServer parse_url url_hash to_text random_id known_check env process_env).
#[local] Abbreviation parse_servers :=
  (parseMcpServers parse_url url_hash to_text random_id known_check env process_env).

Lemma parse_address_ok id raw url :
  parse_address parse_url url_hash process_env id raw = Ok url ->
  isSafeUpstreamURL parse_url process_env url = true.
Proof.
  unfold parse_address. destruct (prop raw "url") as [[| | |u| |]|]; try done.
  intros H. run_ok. destruct (parse_url u); [|done]. run_ok. injection H as <-.
  match goal with Hr : refuse_if (negb (isSafeUpstreamURL _ _ _)) _ _ = Ok _ |- _ =>
    apply refuse_if_Ok, negb_false_iff in Hr; exact Hr end.
Qed.

Lemma parse_owner_ok id raw ow o : parse_owner id raw = Ok ow -> ow = Some o -> OWNER_RE o = true.
Proof.
  unfold parse_owner. destruct raw as [[| | |s| |]|]; try done; [|by intros [= <-]].
  destruct (OWNER_RE s) eqn:Hs; [|done]. by intros [= <-] [= <-].
Qed.

Lemma parseServer_sound id raw s :
  parse_server id raw = Ok s -> ms_id s = id /\ server_ok parse_url known_check process_env s /\
  exists tools, parse_tools id (prop raw "tools") = Ok tools /\ ms_tools s = tools.
Proof.
  unfold parseServer. intros H. run_ok. injection H as <-. split; [done|].
  split; [|by eexists]. split; cbn [ms_id ms_url ms_authHeader ms_tools ms_pinnedTools ms_inputGuardrails
    ms_outputGuardrails ms_timeoutMs ms_maxRequestBytes ms_maxResponseBytes ms_maxDescriptionLength ms_owner].
  - match goal with Hr : refuse_if (negb (SERVER_ID_RE _)) _ _ = Ok _ |- _ =>
      by apply refuse_if_Ok, negb_false_iff in Hr end.
  - by eapply parse_address_ok.
  - intros p ->. by eapply parseAuth_ok.
  - by eapply parse_tools_ok.
  - intros n h. by eapply parse_pins_ok.
  - match goal with Hg : parseGuardrails _ _ _ "input_guardrails" _ = Ok _ |- _ =>
      by apply parseGuardrails_ok in Hg end.
  - match goal with Hg : parseGuardrails _ _ _ "output_guardrails" _ = Ok _ |- _ =>
      by apply parseGuardrails_ok in Hg end.
  - repeat split; (eapply positiveInt_pos; [|eassumption]; done).
  - intros o Ho. by eapply parse_owner_ok.
Qed.

(** An accepted configuration holds exactly the servers of the file, in its
    order and under their ids, and each of them is sound: its URL passes the
    upstream check, its credential is a header the gateway does not use itself and
    a value that cannot break out of it, its tool names, digests and limits are
    well formed, and its guardrails have known checks and run in the foreground. *)
Theorem accepted_servers_are_sound raw servers :
  parseMcpServers parse_url url_hash to_text random_id known_check env process_env (Some raw) = Ok servers ->
  match raw with
  | JNull => servers = []
  | JObj o => obj_keys servers = obj_keys o
  | _ => False
  end /\
  forall id s, (id, s) ∈ servers -> ms_id s = id /\ server_ok parse_url known_check process_env s.
Proof.
  unfold parseMcpServers. destruct raw as [| | | | |o]; try done.
  { intros [= <-]. split; [done|]. intros id s Hin. by apply elem_of_nil in Hin. }
  intros Hm%map_throw_Ok. induction Hm as [|[k v] [k' s'] xs ys Hp _ [IHk IH]].
  { split; [done|]. intros id s Hin. by apply elem_of_nil in Hin. }
  unfold parse_entry in Hp. cbn [fst snd] in Hp. run_ok. injection Hp as <- <-.
  split; [change (k :: obj_keys ys = k :: obj_keys xs); by rewrite IHk|]. intros id s [[= -> ->]|Hin]%elem_of_cons; [|by apply IH].
  match goal with Hs : parse_server _ _ = Ok _ |- _ => apply parseServer_sound in Hs as (? & ? & _) end.
  done.
Qed.

Lemma json_texts_elem l names n : mapM json_text l = Some names -> JStr n ∈ l <-> n ∈ names.
Proof.
  intros Hm%mapM_Some. induction Hm as [|x y xs ys Hxy _ IH].
  - by rewrite !elem_of_nil.
  - destruct x; try done. cbn in Hxy. injection Hxy as ->. rewrite !elem_of_cons, IH. naive_solver.
Qed.

Lemma stringList_elem id key l names n :
  stringList id key (Some (JArr l)) = Ok names -> JStr n ∈ l <-> n ∈ names.
Proof.
  unfold stringList. destruct (mapM json_text l) as [xs|] eqn:Hm; [|done].
  destruct (forallb valid_name xs); [|done]. intros [= <-]. by apply json_texts_elem.
Qed.

Lemma stringList_array id key raw names :
  stringList id key raw = Ok names -> exists l, raw = Some (JArr l).
Proof. unfold stringList. destruct raw as [[]|]; try done. by eexists. Qed.

(** The tool lists of the file are what the policy enforces: a tool the file
    denies is refused under every spelling of its case, and where the file allows
    tools, only those are ever admitted. *)
Theorem tool_lists_are_enforced id raw s st m :
  parseServer parse_url url_hash to_text random_id known_check env process_env id raw = Ok s ->
  toolCallDecision st s (Some (JStr m)) = None ->
  match prop (prop raw "tools") "allow", prop (prop raw "tools") "deny" with
  | Some (JArr l), None => JStr m ∈ l
  | None, Some (JArr l) => forall n, JStr n ∈ l -> toLowerCase n <> toLowerCase m
  | _, _ => False
  end.
Proof.
  intros (_ & _ & tools & Ht & Hs)%parseServer_sound Hd.
  assert (Hlist : toolAllowedByList s m = true).
  { unfold toolCallDecision in Hd. destruct (valid_name m); [|done]. cbn [negb] in Hd.
    by destruct (toolAllowedByList s m). }
  unfold toolAllowedByList in Hlist. rewrite Hs in Hlist. unfold parse_tools in Ht. run_ok.
  match goal with Hr : refuse_if (Bool.eqb _ _) _ _ = Ok _ |- _ => apply refuse_if_Ok in Hr; rename Hr into Hone end.
  destruct (prop (prop raw "tools") "allow") as [allowed|] eqn:Ha;
    destruct (prop (prop raw "tools") "deny") as [denied|] eqn:Hde;
    try done; run_ok;
    injection Ht as <-;
    match goal with Hl : stringList _ _ _ = Ok _ |- _ => rename Hl into Hlst end;
    destruct (stringList_array _ _ _ _ Hlst) as [l [= ->]]; cbn in Hlist.
  - apply bool_decide_eq_true in Hlist. rewrite elem_of_list_to_set in Hlist.
    by eapply stringList_elem.
  - intros n Hn Heq. apply negb_true_iff, bool_decide_eq_false in Hlist. apply Hlist.
    rewrite elem_of_list_to_set, <- Heq. apply list_elem_of_fmap. exists n. split; [done|].
    by eapply stringList_elem in Hlst; apply Hlst.
Qed.
End Theorems.

(** A server that needs no credential. *)
Definition no_auth (s : McpServerConfig) : McpServerConfig :=
  mkServer (ms_id s) (ms_url s) None (ms_tools s) (ms_pinnedTools s) (ms_onDescriptionChange s)
    (ms_inputGuardrails s) (ms_outputGuardrails s) (ms_timeoutMs s) (ms_maxRequestBytes s)
    (ms_maxResponseBytes s) (ms_maxDescriptionLength s) (ms_owner s).

(** Every call of a configured server carries the operator's credential,
    whatever headers the client sent, and the credential takes the place of none
    of the headers the protocol uses. *)
Theorem operator_credential_is_sent parse_url url_hash to_text random_id known_check env process_env
    id raw s n v headers hasBody :
  parseServer parse_url url_hash to_text random_id known_check env process_env id raw = Ok s ->
  ms_authHeader s = Some (n, v) ->
  own (upstreamHeaders headers s hasBody) n = Some v /\
  forall k, k ∈ RESERVED_HEADERS ->
    own (upstreamHeaders headers s hasBody) k = own (upstreamHeaders headers (no_auth s) hasBody) k.
Proof.
  intros (_ & Hok & _)%parseServer_sound Ha. destruct (so_auth _ _ _ _ Hok _ Ha) as (_ & Hr & _).
  unfold upstreamHeaders. rewrite Ha. cbn [ms_authHeader no_auth].
  split; [by rewrite own_put, String.eqb_refl|].
  intros k Hk. rewrite own_put. destruct (String.eqb_spec k n) as [->|]; done.
Qed.

(** ** Samples *)

Module Samples.

Definition parse_url (raw : string) : option URL :=
  own [("https://mcp.example.com/", mkURL "https:" "" "" "mcp.example.com" "");
       ("http://mcp.example.com/", mkURL "http:" "" "" "mcp.example.com" "")] raw.
Definition known (source fn : string) : bool := (source =? "default")%string && (fn =? "regexMatch")%string.
Definition env (name : string) : option string := own [("TOKEN", " s3cret "); ("BAD", String (ascii_of_N 0) "x")] name.

#[local] Abbreviation parse_server :=
  (parseServer parse_url (fun _ => "") (fun _ => "") (fun _ _ => "abc") known env UrlGuard.Samples.none).
#[local] Abbreviation parse_servers :=
  (parseMcpServers parse_url (fun _ => "") (fun _ => "") (fun _ _ => "abc") known env UrlGuard.Samples.none).

Definition bearer : json := JObj [("type", JStr "bearer"); ("token_env", JStr "TOKEN")].
Definition denying : json := JObj [("deny", JArr [JStr "Delete_Repo"])].
Definition chk : json := JObj [("default.regexMatch", JObj [("rule", JStr "x")])].
Definition with_fields (more : obj json) : json :=
  JObj ([("url", JStr "https://mcp.example.com/"); ("auth", bearer); ("tools", denying)] ++ more).
Definition github : json := with_fields [("input_guardrails", JArr [chk])].
Definition file : json := JObj [("github", github)].

Definition parsed : McpServerConfig :=
  match parse_server "github" (Some github) with
  | Ok s => s | Throw _ => mkServer "" "" None (mkLists allow_mode ∅ ∅) ∅ block [] [] 0 0 0 0 None end.

Example github_parses : parse_server "github" (Some github) = Ok parsed.
Proof. by vm_compute. Qed.
Example credential : ms_authHeader parsed = Some ("authorization", "Bearer s3cret").
Proof. by vm_compute. Qed.
Example delete_refused : toolCallDecision (mkPolicy ∅ ∅) parsed (Some (JStr "DELETE_REPO")) = Some policy.
Proof. by vm_compute. Qed.
Example plain_http_refused :
  parse_server "a" (Some (JObj [("url", JStr "http://mcp.example.com/")])) = Throw (Refused "a" url_not_https).
Proof. by vm_compute. Qed.
Example unknown_check_refused :
  parse_server "a" (Some (with_fields [("input_guardrails", JArr [JObj [("nope", JObj [])]])])) =
  Throw (Refused "a" (unknown_check "input_guardrails")).
Proof. by vm_compute. Qed.
Example bad_variable_refused :
  parse_server "a" (Some (JObj [("url", JStr "https://mcp.example.com/"); ("tools", denying);
    ("auth", JObj [("type", JStr "bearer"); ("token_env", JStr "BAD")])])) =
  Throw (Refused "a" (not_a_header_value "BAD")).
Proof. by vm_compute. Qed.

(** A null map of pins, or a null guardrail, is no [McpConfigError] that names the
    server but an error of the language. *)
Lemma null_settings_throw_type_errors :
  parse_servers (Some (JObj [("a", with_fields [("pinned_tools", JNull)])])) = Throw TypeError /\
  parse_servers (Some (JObj [("a", with_fields [("input_guardrails", JArr [JNull])])])) = Throw TypeError.
Proof. by vm_compute. Qed.

Lemma accepted_servers_are_sound_witness :
  exists servers, obj_keys servers = obj_keys [("github", github)] /\
    forall id s, (id, s) ∈ servers -> ms_id s = id.
Proof.
  exists [("github", parsed)].
  destruct (accepted_servers_are_sound parse_url (fun _ => "") (fun _ => "") (fun _ _ => "abc") known env
    UrlGuard.Samples.none file [("github", parsed)]) as [H1 H2].
  - vm_compute. reflexivity.
  - split; [exact H1|]. intros id s Hin. exact (proj1 (H2 id s Hin)).
Defined.

Lemma tool_lists_are_enforced_witness :
  (toLowerCase "Delete_Repo" =? toLowerCase "get_issue")%string = false.
Proof.
  apply String.eqb_neq.
  apply (tool_lists_are_enforced parse_url (fun _ => "") (fun _ => "") (fun _ _ => "abc") known env
    UrlGuard.Samples.none "github" (Some github) parsed (mkPolicy ∅ ∅) "get_issue").
  - vm_compute. reflexivity.
  - vm_compute. reflexivity.
  - left.
Defined.

Lemma operator_credential_is_sent_witness :
  own (upstreamHeaders [("authorization", "Bearer mine")] parsed true) "authorization" = Some "Bearer s3cret".
Proof.
  apply (operator_credential_is_sent parse_url (fun _ => "") (fun _ => "") (fun _ _ => "abc") known env
    UrlGuard.Samples.none "github" (Some github) parsed).
  - vm_compute. reflexivity.
  - vm_compute. reflexivity.
Defined.

End Samples.
