(* ===== verification/SemanticStore.v ===== *)
(** * The semantic cache's store

    Models [middlewares/cache/semanticStore.ts]: entries in least-recently-used
    order, the partitions' sets of ids, the byte count, the lookup of the most
    similar live entry of one partition, the insertion with its caps, and the
    unit vectors they compare ([normalize], [dot], with the rounding to
    binary32 of a [Float32Array]).

    A [Map] and a [Set] are lists in insertion order.  Byte counts are integers;
    the limits and times are binary64 and compared as such.  A value that is no
    number in an embedding is read as NaN.  The theorems: the two maps agree and
    the caps hold after any operations ([store_invariant]), a lookup answers the
    best live entry of its own partition ([lookup_answers_best]), and an insert
    keeps what it stored ([insert_keeps_newest]). *)

From Stdlib Require Import ZArith Lia ZifyBool Ascii Floats.SpecFloat.
From stdpp Require Import base strings option sets list.
From S2P Require Import Prelude JsValue Doubles.

#[local] Open Scope string_scope.
#[local] Open Scope list_scope.
#[local] Arguments num_of_Z : simpl never.

Record SemanticStoreOptions := mkStoreOptions {
  so_maxEntries : num;
  so_maxBytes : num;
  so_maxPerPartition : num
}.

Record SemanticEntry := mkSemanticEntry {
  se_id : nat;
  se_partition : string;
  se_vector : list num;
  se_responseBody : string;
  se_expiresAt : num;
  se_bytes : Z
}.

Record SemanticMatch := mkSemanticMatch { sm_responseBody : string; sm_similarity : num }.

Record SemanticStore := mkSemanticStore {
  ss_entries : list SemanticEntry;
  ss_partitions : obj (list nat);
  ss_totalBytes : Z;
  ss_seq : nat;
  ss_maxEntries : num;
  ss_maxBytes : num;
  ss_maxPerPartition : num
}.

(** ** Vectors *)

(** The nearest binary32, as storing into a [Float32Array] rounds. *)
Definition to_float32 (x : num) : num :=
  match x with
  | S754_finite s m e => binary_normalize 24 128 (cond_Zopp s (Zpos m)) e s
  | _ => x
  end.

Definition nsqrt (x : num) : num := SFsqrt 53 1024 x.

(** The sum of squares; [None] at an element that is not finite. *)
Fixpoint norm_loop (v : list num) (norm : num) : option num :=
  match v with
  | [] => Some norm
  | x :: r => if is_finite_num x then norm_loop r (nadd norm (nmul x x)) else None
  end.

Definition normalize (v : list num) : option (list num) :=
  match norm_loop v nzero with
  | None => None
  | Some norm =>
      if bool_decide (v = []) || neqb norm nzero then None
      else let inv := ndiv (num_of_Z 1) (nsqrt norm) in
           Some (map (fun x => to_float32 (nmul x inv)) v)
  end.

Definition dot (a b : list num) : num :=
  foldl (fun s p => nadd s (nmul p.1 p.2)) nzero (zip a b).

(** 0.9999 *)
Definition DUPLICATE_SIMILARITY : num := num_of_Q 9999 10000.
Definition ENTRY_OVERHEAD_BYTES : Z := 256.

(** ** The store *)

Definition new_store (opts : SemanticStoreOptions) : SemanticStore :=
  mkSemanticStore [] [] 0 0
    (nmax (num_of_Z 1) (so_maxEntries opts)) (nmax (num_of_Z 1) (so_maxBytes opts))
    (nmax (num_of_Z 1) (so_maxPerPartition opts)).

Definition with_maps (entries : list SemanticEntry) (partitions : obj (list nat)) (totalBytes : Z)
    (s : SemanticStore) : SemanticStore :=
  mkSemanticStore entries partitions totalBytes (ss_seq s)
    (ss_maxEntries s) (ss_maxBytes s) (ss_maxPerPartition s).

Definition size (s : SemanticStore) : num := num_of_Z (Z.of_nat (length (ss_entries s))).
Definition bytes (s : SemanticStore) : num := num_of_Z (ss_totalBytes s).

(** [this.entries.get(id)], [delete(id)] *)
Definition entry (s : SemanticStore) (id : nat) : option SemanticEntry :=
  List.find (fun e => Nat.eqb (se_id e) id) (ss_entries s).

Definition drop_entry (id : nat) (l : list SemanticEntry) : list SemanticEntry :=
  List.filter (fun e => negb (Nat.eqb (se_id e) id)) l.

Definition drop_id (id : nat) (l : list nat) : list nat :=
  List.filter (fun i => negb (Nat.eqb i id)) l.

(** [ids.delete(id)]; an empty set's partition goes. *)
Definition drop_from_partition (p : string) (id : nat) (parts : obj (list nat)) : obj (list nat) :=
  match own parts p with
  | None => parts
  | Some ids =>
      match drop_id id ids with
      | [] => map_delete parts p
      | rest => obj_put parts p rest
      end
  end.

Definition remove (e : SemanticEntry) (s : SemanticStore) : SemanticStore :=
  match entry s (se_id e) with
  | None => s
  | Some _ =>
      with_maps (drop_entry (se_id e) (ss_entries s))
        (drop_from_partition (se_partition e) (se_id e) (ss_partitions s))
        (ss_totalBytes s - se_bytes e) s
  end.

(** [a.length === b.length] *)
Definition same_length (a b : list num) : bool := Nat.eqb (length a) (length b).

(** The scan of a partition: the best entry so far and its similarity. *)
Definition lookup_step (now : num) (vector : list num)
    (acc : SemanticStore * option SemanticEntry * num) (id : nat)
    : SemanticStore * option SemanticEntry * num :=
  let '(s, best, bestSim) := acc in
  match entry s id with
  | None => acc
  | Some e =>
      if nleb (se_expiresAt e) now then (remove e s, best, bestSim)
      else if negb (same_length (se_vector e) vector) then acc
      else let sim := dot (se_vector e) vector in
           if nltb bestSim sim then (s, Some e, sim) else acc
  end.

Definition touch (e : SemanticEntry) (s : SemanticStore) : SemanticStore :=
  with_maps (drop_entry (se_id e) (ss_entries s) ++ [e]) (ss_partitions s) (ss_totalBytes s) s.

Definition lookup (now : num) (partition : string) (vector : list num) (threshold : num)
    (s : SemanticStore) : option SemanticMatch * SemanticStore :=
  match own (ss_partitions s) partition with
  | None => (None, s)
  | Some ids =>
      let '(s1, best, bestSim) :=
        foldl (lookup_step now vector) (s, None, S754_infinity true) ids in
      match best with
      | None => (None, s1)
      | Some e =>
          if nltb bestSim threshold then (None, s1)
          else (Some (mkSemanticMatch (se_responseBody e) bestSim), touch e s1)
      end
  end.

Definition entry_bytes (partition : string) (vector : list num) (responseBody : string) : Z :=
  Z.of_nat (String.length responseBody) * 2 + Z.of_nat (length vector) * 4 +
  Z.of_nat (String.length partition) * 2 + ENTRY_OVERHEAD_BYTES.

(** An insert this close to an entry replaces it. *)
Definition duplicate_step (vector : list num) (s : SemanticStore) (id : nat) : SemanticStore :=
  match entry s id with
  | Some e => if same_length (se_vector e) vector &&
                 nleb DUPLICATE_SIMILARITY (dot (se_vector e) vector)
              then remove e s else s
  | None => s
  end.

Definition add_entry (e : SemanticEntry) (s : SemanticStore) : SemanticStore :=
  mkSemanticStore (ss_entries s ++ [e])
    (obj_put (ss_partitions s) (se_partition e)
       (default [] (own (ss_partitions s) (se_partition e)) ++ [se_id e]))
    (ss_totalBytes s + se_bytes e) (se_id e)
    (ss_maxEntries s) (ss_maxBytes s) (ss_maxPerPartition s).

(** The partition's cap: a round per id at most. *)
Fixpoint cap_partition (fuel : nat) (partition : string) (s : SemanticStore) : SemanticStore :=
  match fuel with
  | O => s
  | S n =>
      let ids := default [] (own (ss_partitions s) partition) in
      if nltb (ss_maxPerPartition s) (num_of_Z (Z.of_nat (length ids))) then
        match head ids with
        | Some id => match entry s id with
                     | Some oldest => cap_partition n partition (remove oldest s)
                     | None => s
                     end
        | None => s
        end
      else s
  end.

(** The global caps: a round per entry at most. *)
Fixpoint cap_store (fuel : nat) (s : SemanticStore) : SemanticStore :=
  match fuel with
  | O => s
  | S n =>
      if nltb (ss_maxEntries s) (size s) || nltb (ss_maxBytes s) (bytes s) then
        match head (ss_entries s) with
        | Some oldest => cap_store n (remove oldest s)
        | None => s
        end
      else s
  end.

(** What an accepted insert does. *)
Definition store_entry (partition : string) (vector : list num) (responseBody : string)
    (expiresAt : num) (s : SemanticStore) : SemanticStore * nat :=
  let s1 := foldl (duplicate_step vector) s (default [] (own (ss_partitions s) partition)) in
  let e := mkSemanticEntry (S (ss_seq s1)) partition vector responseBody expiresAt
             (entry_bytes partition vector responseBody) in
  let s2 := add_entry e s1 in
  let s3 := cap_partition (length (default [] (own (ss_partitions s2) partition))) partition s2 in
  (cap_store (length (ss_entries s3)) s3, se_id e).

Definition insert (now : num) (partition : string) (vector : list num) (responseBody : string)
    (expiresAt : num) (s : SemanticStore) : bool * SemanticStore :=
  if nltb (ss_maxBytes s) (num_of_Z (entry_bytes partition vector responseBody)) ||
     nleb expiresAt now
  then (false, s)
  else let '(s1, id) := store_entry partition vector responseBody expiresAt s in
       (match entry s1 id with Some _ => true | None => false end, s1).

Definition clear (s : SemanticStore) : SemanticStore := with_maps [] [] 0 s.

(** A small store: two partitions with one vector, the second out of date. *)
Example lookups :
  let v := [num_of_Z 3; num_of_Z 4] in
  match normalize v with
  | Some u =>
      let s0 := new_store (mkStoreOptions (num_of_Z 2) (num_of_Z 10000) (num_of_Z 5)) in
      let '(a, s1) := insert (num_of_Z 0) "p" u "one" (num_of_Z 10) s0 in
      let '(b, s2) := insert (num_of_Z 0) "q" u "two" (num_of_Z 5) s1 in
      let th := num_of_Q 95 100 in
      (a && b,
       sm_responseBody <$> (lookup (num_of_Z 6) "p" u th s2).1,
       sm_responseBody <$> (lookup (num_of_Z 6) "q" u th s2).1,
       length (ss_entries (lookup (num_of_Z 6) "q" u th s2).2)) =
      (true, Some "one", None, 1%nat)
  | None => False
  end.
Proof. vm_compute. done. Qed.

(** ** The invariant *)

Definition ids_of (s : SemanticStore) (p : string) : list nat := default [] (own (ss_partitions s) p).

Definition total (l : list SemanticEntry) : Z := foldr (fun e n => se_bytes e + n)%Z 0%Z l.

(** The two maps hold the same entries. *)
Record Inv (s : SemanticStore) : Prop := mkInv {
  inv_ids : NoDup (map se_id (ss_entries s));
  inv_seq : forall e, e ∈ ss_entries s -> (se_id e <= ss_seq s)%nat;
  inv_keys : NoDup (obj_keys (ss_partitions s));
  inv_sets : forall p ids, own (ss_partitions s) p = Some ids -> ids <> [] /\ NoDup ids;
  inv_agree : forall p i,
    i ∈ ids_of s p <-> exists e, e ∈ ss_entries s /\ se_id e = i /\ se_partition e = p;
  inv_bytes : ss_totalBytes s = total (ss_entries s);
  inv_size : forall e, e ∈ ss_entries s ->
    se_bytes e = entry_bytes (se_partition e) (se_vector e) (se_responseBody e)
}.

Lemma find_by_id l i e : NoDup (map se_id l) ->
  List.find (fun x => Nat.eqb (se_id x) i) l = Some e <-> e ∈ l /\ se_id e = i.
Proof.
  induction l as [|x l IH]; simpl; intros Hnd.
  { split; [done|]. by intros [?%elem_of_nil _]. }
  apply NoDup_cons in Hnd as [Hx Hnd]. rewrite elem_of_cons.
  destruct (Nat.eqb_spec (se_id x) i) as [Hi|Hi].
  - split; [intros [= <-]; by split; [left|]|]. intros [[->|Hin] He]; [done|].
    exfalso. apply Hx. rewrite Hi, <- He. by apply list_elem_of_fmap_2.
  - rewrite IH by done. naive_solver.
Qed.

Lemma entry_Some s i e : Inv s -> entry s i = Some e <-> e ∈ ss_entries s /\ se_id e = i.
Proof. intros HI. apply find_by_id, HI. Qed.

Lemma same_id s e e' : Inv s -> e ∈ ss_entries s -> e' ∈ ss_entries s -> se_id e = se_id e' -> e = e'.
Proof.
  intros HI He He' Hid.
  assert (H1 : entry s (se_id e) = Some e) by by apply entry_Some.
  assert (H2 : entry s (se_id e) = Some e') by by apply entry_Some. congruence.
Qed.

Lemma elem_drop_entry i l e : e ∈ drop_entry i l <-> e ∈ l /\ se_id e <> i.
Proof. unfold drop_entry. rewrite filter_elem, negb_true_iff, Nat.eqb_neq. done. Qed.

Lemma elem_drop_id i l j : j ∈ drop_id i l <-> j ∈ l /\ j <> i.
Proof. unfold drop_id. rewrite filter_elem, negb_true_iff, Nat.eqb_neq. done. Qed.

Lemma drop_entry_ids i l : map se_id (drop_entry i l) = drop_id i (map se_id l).
Proof.
  induction l as [|e l IH]; [done|]. simpl. destruct (Nat.eqb (se_id e) i); simpl; by rewrite IH.
Qed.

Lemma drop_entry_fresh i l : i ∉ map se_id l -> drop_entry i l = l.
Proof.
  intros Hi. apply filter_bool_id. intros e He. apply negb_true_iff, Nat.eqb_neq. intros <-.
  apply Hi. by apply list_elem_of_fmap_2.
Qed.

Lemma total_drop e l : NoDup (map se_id l) -> e ∈ l ->
  total (drop_entry (se_id e) l) = (total l - se_bytes e)%Z.
Proof.
  induction l as [|x l IH]; intros Hnd He; [by apply elem_of_nil in He|].
  cbn [map] in Hnd. apply NoDup_cons in Hnd as [Hx Hnd]. apply elem_of_cons in He as [->|He]; simpl.
  - rewrite Nat.eqb_refl. simpl. fold (drop_entry (se_id x) l). rewrite drop_entry_fresh by done. lia.
  - destruct (Nat.eqb_spec (se_id x) (se_id e)) as [Hi|Hi]; simpl.
    + exfalso. apply Hx. rewrite Hi. by apply list_elem_of_fmap_2.
    + fold (drop_entry (se_id e) l). rewrite IH by done. lia.
Qed.

Lemma length_drop_entry e l : NoDup (map se_id l) -> e ∈ l ->
  length l = S (length (drop_entry (se_id e) l)).
Proof.
  induction l as [|x l IH]; intros Hnd He; [by apply elem_of_nil in He|].
  cbn [map] in Hnd. apply NoDup_cons in Hnd as [Hx Hnd]. apply elem_of_cons in He as [->|He]; simpl.
  - rewrite Nat.eqb_refl. simpl. fold (drop_entry (se_id x) l). by rewrite drop_entry_fresh.
  - destruct (Nat.eqb_spec (se_id x) (se_id e)) as [Hi|Hi]; simpl.
    + exfalso. apply Hx. rewrite Hi. by apply list_elem_of_fmap_2.
    + fold (drop_entry (se_id e) l). by rewrite <- IH.
Qed.

Lemma NoDup_drop_id i l : NoDup l -> NoDup (drop_id i l).
Proof. apply NoDup_filter_bool. Qed.

(** *** Removing an entry *)

Lemma ids_of_drop p i parts q : NoDup (obj_keys parts) ->
  default [] (own (drop_from_partition p i parts) q) =
  if (q =? p)%string then drop_id i (default [] (own parts p)) else default [] (own parts q).
Proof.
  intros Hnd. unfold drop_from_partition. destruct (own parts p) as [ids|] eqn:Hp; simpl.
  - destruct (drop_id i ids) as [|j rest] eqn:Hd.
    + destruct (String.eqb_spec q p) as [->|Hne]; [by rewrite own_map_delete_eq|by rewrite own_map_delete].
    + rewrite own_put. by destruct (String.eqb_spec q p) as [->|].
  - destruct (String.eqb_spec q p) as [->|]; [by rewrite Hp|done].
Qed.

Lemma drop_from_sets p i parts :
  NoDup (obj_keys parts) -> (forall q ids, own parts q = Some ids -> ids <> [] /\ NoDup ids) ->
  NoDup (obj_keys (drop_from_partition p i parts)) /\
  forall q ids, own (drop_from_partition p i parts) q = Some ids -> ids <> [] /\ NoDup ids.
Proof.
  intros Hnd Hs. unfold drop_from_partition. destruct (own parts p) as [ids|] eqn:Hp; [|done].
  destruct (drop_id i ids) as [|j rest] eqn:Hd.
  - split; [by apply NoDup_map_delete|]. intros q ids' Hq. destruct (String.eqb_spec q p) as [->|Hne].
    + by rewrite own_map_delete_eq in Hq.
    + rewrite own_map_delete in Hq by done. by apply Hs in Hq.
  - split; [by apply NoDup_obj_put|]. intros q ids'. rewrite own_put.
    destruct (String.eqb_spec q p) as [->|Hne]; [|by apply Hs]. intros [= <-]. split; [done|].
    rewrite <- Hd. apply NoDup_drop_id. by eapply Hs.
Qed.

Definition same_limits (s s' : SemanticStore) : Prop :=
  ss_maxEntries s' = ss_maxEntries s /\ ss_maxBytes s' = ss_maxBytes s /\
  ss_maxPerPartition s' = ss_maxPerPartition s.

Lemma remove_eq s e : Inv s -> e ∈ ss_entries s ->
  remove e s = with_maps (drop_entry (se_id e) (ss_entries s))
    (drop_from_partition (se_partition e) (se_id e) (ss_partitions s)) (ss_totalBytes s - se_bytes e) s.
Proof.
  intros HI He. unfold remove. replace (entry s (se_id e)) with (Some e); [done|].
  symmetry. by apply entry_Some.
Qed.

Lemma remove_ids s e q : Inv s -> e ∈ ss_entries s ->
  ids_of (remove e s) q = if (q =? se_partition e)%string then drop_id (se_id e) (ids_of s q) else ids_of s q.
Proof.
  intros HI He. rewrite remove_eq by done. unfold ids_of at 1. simpl. rewrite ids_of_drop by apply HI.
  destruct (String.eqb_spec q (se_partition e)) as [->|]; done.
Qed.

Lemma remove_Inv s e : Inv s -> e ∈ ss_entries s -> Inv (remove e s).
Proof.
  intros HI He. pose proof (remove_ids s e) as Hids. rewrite remove_eq in * by done.
  destruct (drop_from_sets (se_partition e) (se_id e) _ (inv_keys _ HI) (inv_sets _ HI)) as [Hk Hs].
  constructor; simpl; [| |done|done| | |].
  - rewrite drop_entry_ids. apply NoDup_drop_id, HI.
  - intros x Hx. apply elem_drop_entry in Hx as [Hx _]. by apply (inv_seq _ HI).
  - intros p i. rewrite Hids by done.
    assert (Hiff : i ∈ ids_of s p <-> exists x, x ∈ ss_entries s /\ se_id x = i /\ se_partition x = p)
      by apply HI.
    setoid_rewrite elem_drop_entry.
    destruct (String.eqb_spec p (se_partition e)) as [->|Hne]; [rewrite elem_drop_id|]; rewrite Hiff; split.
    + intros [(x & Hx & <- & Hp) Hi]. eauto.
    + intros (x & [Hx Hi] & <- & Hp). eauto.
    + intros (x & Hx & <- & <-). exists x. split_and!; [done| |done..]. intros Hid.
      by rewrite (same_id s x e) in Hne.
    + intros (x & [Hx Hi] & <- & Hp). eauto.
  - rewrite (inv_bytes _ HI). symmetry. apply total_drop; [apply HI|done].
  - intros x Hx. apply elem_drop_entry in Hx as [Hx _]. by apply (inv_size _ HI).
Qed.

Lemma remove_entries s e x : Inv s -> e ∈ ss_entries s ->
  x ∈ ss_entries (remove e s) <-> x ∈ ss_entries s /\ se_id x <> se_id e.
Proof. intros HI He. rewrite remove_eq by done. simpl. apply elem_drop_entry. Qed.

Lemma remove_limits s e : same_limits s (remove e s).
Proof. unfold remove. by destruct (entry s (se_id e)). Qed.

Lemma remove_shrinks s e : Inv s -> e ∈ ss_entries s ->
  length (ss_entries s) = S (length (ss_entries (remove e s))) /\
  ss_totalBytes (remove e s) = (ss_totalBytes s - se_bytes e)%Z.
Proof.
  intros HI He. rewrite remove_eq by done. simpl. split; [|done].
  apply length_drop_entry; [apply HI|done].
Qed.

Lemma same_limits_refl s : same_limits s s.
Proof. done. Qed.

Lemma same_limits_trans s1 s2 s3 : same_limits s1 s2 -> same_limits s2 s3 -> same_limits s1 s3.
Proof. unfold same_limits. intros (-> & -> & ->) (-> & -> & ->). done. Qed.

(** [s'] keeps part of [s]. *)
Record shrinks (s s' : SemanticStore) : Prop := mkShrinks {
  sh_limits : same_limits s s';
  sh_seq : ss_seq s' = ss_seq s;
  sh_sub : forall e, e ∈ ss_entries s' -> e ∈ ss_entries s;
  sh_ids : forall p, (length (ids_of s' p) <= length (ids_of s p))%nat;
  sh_length : (length (ss_entries s') <= length (ss_entries s))%nat;
  sh_bytes : (ss_totalBytes s' <= ss_totalBytes s)%Z
}.

Lemma shrinks_refl s : shrinks s s.
Proof. by constructor. Qed.

Lemma shrinks_trans s1 s2 s3 : shrinks s1 s2 -> shrinks s2 s3 -> shrinks s1 s3.
Proof.
  intros [L1 S1 U1 I1 N1 B1] [L2 S2 U2 I2 N2 B2]. constructor; [|congruence|by eauto| |lia..].
  - by eapply same_limits_trans.
  - intros p. specialize (I1 p). specialize (I2 p). lia.
Qed.

Lemma entry_bytes_pos p v b : (256 <= entry_bytes p v b)%Z.
Proof. unfold entry_bytes, ENTRY_OVERHEAD_BYTES. lia. Qed.

Lemma remove_shrink s e : Inv s -> e ∈ ss_entries s -> shrinks s (remove e s).
Proof.
  intros HI He. destruct (remove_shrinks s e HI He) as [Hlen Htot].
  pose proof (inv_size _ HI e He) as Hb. pose proof (entry_bytes_pos (se_partition e) (se_vector e) (se_responseBody e)).
  constructor; [apply remove_limits| | | |lia..].
  - rewrite remove_eq by done. done.
  - intros x Hx. by apply remove_entries in Hx as [Hx _].
  - intros p. rewrite remove_ids by done. case_match; [apply length_filter_bool|done].
Qed.

(** ** Lookups *)

Definition live (now : num) (e : SemanticEntry) : bool := negb (nleb (se_expiresAt e) now).

(** An entry the lookup may answer: of this partition, in date, of this length. *)
Definition comparable (now : num) (partition : string) (vector : list num) (s : SemanticStore)
    (e : SemanticEntry) : Prop :=
  e ∈ ss_entries s /\ se_partition e = partition /\ live now e = true /\
  same_length (se_vector e) vector = true.

(** After the ids [seen]: what left was out of date, and the best is the best. *)
Record Scan (now : num) (p : string) (v : list num) (s0 s : SemanticStore) (best : option SemanticEntry)
    (bestSim : num) (seen : nat -> Prop) : Prop := mkScan {
  sc_inv : Inv s;
  sc_shrinks : shrinks s0 s;
  sc_live : forall e, e ∈ ss_entries s0 -> live now e = true -> e ∈ ss_entries s;
  sc_best : match best with
            | Some e => comparable now p v s0 e /\ bestSim = dot (se_vector e) v
            | None => bestSim = S754_infinity true end;
  sc_nan : is_nan bestSim = false;
  sc_max : forall e, comparable now p v s0 e -> seen (se_id e) -> nltb bestSim (dot (se_vector e) v) = false
}.

Lemma lookup_step_scan now p v s0 s best bestSim (seen : nat -> Prop) i :
  Inv s0 -> i ∈ ids_of s0 p ->
  Scan now p v s0 s best bestSim seen ->
  let '(s', best', bestSim') := lookup_step now v (s, best, bestSim) i in
  Scan now p v s0 s' best' bestSim' (fun j => seen j \/ j = i).
Proof.
  intros HI0 Hi [HI Hsh Hlive Hb Hn Hmax]. simpl. pose proof (sh_sub _ _ Hsh) as Hsub.
  destruct (entry s i) as [e|] eqn:He.
  2:{ constructor; try done. intros x Hx [Hs|Hs]; [by apply Hmax|]. exfalso.
      destruct Hx as (Hx & _ & Hl & _). pose proof (Hlive _ Hx Hl) as Hin.
      assert (entry s i = Some x) by by apply entry_Some. congruence. }
  apply entry_Some in He as [Hin Hid]; [|done].
  assert (Hsame : forall x, comparable now p v s0 x -> se_id x = i -> x = e).
  { intros x Hx Hxi. apply (same_id s0); [done|by destruct Hx|by apply Hsub|congruence]. }
  destruct (nleb (se_expiresAt e) now) eqn:Hexp.
  { pose proof (remove_entries s e) as Hr. constructor; try done.
    - by apply remove_Inv.
    - eapply shrinks_trans; [done|by apply remove_shrink].
    - intros x Hx Hl. apply Hr; [done..|]. split; [by apply Hlive|]. intros Hxe.
      rewrite (same_id s0 x e) in Hl; [|done..|by apply Hsub|done]. unfold live in Hl. by rewrite Hexp in Hl.
    - intros x Hx [Hs|Hs]; [by apply Hmax|]. rewrite (Hsame x Hx Hs) in Hx.
      destruct Hx as (_ & _ & Hl & _). unfold live in Hl. by rewrite Hexp in Hl. }
  destruct (same_length (se_vector e) v) eqn:Hlen; simpl.
  2:{ constructor; try done. intros x Hx [Hs|Hs]; [by apply Hmax|]. rewrite (Hsame x Hx Hs) in Hx.
      destruct Hx as (_ & _ & _ & Hl). congruence. }
  assert (Hpart : se_partition e = p).
  { apply (inv_agree _ HI0) in Hi as (x & Hx & Hxi & Hxp).
    rewrite <- (same_id s0 x e); [done..|by apply Hsub|congruence]. }
  destruct (nltb bestSim (dot (se_vector e) v)) eqn:Hbetter; constructor; try done.
  - split; [|done]. split_and!; [by apply Hsub|done|by unfold live; rewrite Hexp|done].
  - num_order.
  - intros x Hx [Hs|Hs].
    + specialize (Hmax x Hx Hs). num_order.
    + rewrite (Hsame x Hx Hs). apply nltb_irrefl.
  - intros x Hx [Hs|Hs]; [by apply Hmax|]. by rewrite (Hsame x Hx Hs).
Qed.

Lemma lookup_scan now p v s0 ids s best bestSim seen s' best' bestSim' :
  Inv s0 -> (forall i, i ∈ ids -> i ∈ ids_of s0 p) ->
  Scan now p v s0 s best bestSim seen ->
  foldl (lookup_step now v) (s, best, bestSim) ids = (s', best', bestSim') ->
  Scan now p v s0 s' best' bestSim' (fun j => seen j \/ j ∈ ids).
Proof.
  intros HI0. revert s best bestSim seen. induction ids as [|i ids IH]; intros s best bestSim seen Hids H.
  - intros [= <- <- <-]. destruct H. constructor; try done. intros x Hx [?|?%elem_of_nil]; [|done]. naive_solver.
  - cbn [foldl]. pose proof (lookup_step_scan now p v s0 s best bestSim seen i HI0 (Hids i ltac:(left)) H) as Hst.
    destruct (lookup_step now v (s, best, bestSim) i) as [[s1 b1] m1]. intros Hf.
    assert (Hr : Scan now p v s0 s' best' bestSim' (fun j => (seen j \/ j = i) \/ j ∈ ids)).
    { apply (IH s1 b1 m1); [|done..]. intros j Hj. apply Hids. by right. }
    destruct Hr. constructor; try done. intros x Hx Hs. apply sc_max0; [done|].
    destruct Hs as [?|[?|?]%elem_of_cons]; tauto.
Qed.

Lemma perm_touch l e : NoDup (map se_id l) -> e ∈ l -> drop_entry (se_id e) l ++ [e] ≡ₚ l.
Proof.
  induction l as [|x l IH]; intros Hnd He; [by apply elem_of_nil in He|].
  cbn [map] in Hnd. apply NoDup_cons in Hnd as [Hx Hnd]. apply elem_of_cons in He as [->|He]; simpl.
  - rewrite Nat.eqb_refl. simpl. fold (drop_entry (se_id x) l). rewrite drop_entry_fresh by done.
    by rewrite Permutation_app_comm.
  - destruct (Nat.eqb_spec (se_id x) (se_id e)) as [Hi|Hi]; simpl.
    + exfalso. apply Hx. rewrite Hi. by apply list_elem_of_fmap_2.
    + fold (drop_entry (se_id e) l). by rewrite IH.
Qed.

Lemma total_perm l l' : l ≡ₚ l' -> total l = total l'.
Proof. induction 1; simpl; lia. Qed.

Lemma Inv_perm s l : Inv s -> l ≡ₚ ss_entries s -> Inv (with_maps l (ss_partitions s) (ss_totalBytes s) s).
Proof.
  intros HI Hp. constructor; simpl; [| | | |intros p i| |].
  - rewrite Hp. apply HI.
  - intros e. rewrite Hp. apply HI.
  - apply HI.
  - apply HI.
  - change (ids_of _ p) with (ids_of s p). rewrite (inv_agree _ HI). by setoid_rewrite Hp.
  - rewrite (inv_bytes _ HI). by apply total_perm.
  - intros e. rewrite Hp. apply (inv_size _ HI).
Qed.

(** What a lookup promises of its answer. *)
Definition answers (now : num) (p : string) (v : list num) (threshold : num) (s : SemanticStore)
    (m : option SemanticMatch) : Prop :=
  match m with
  | Some r =>
      exists e, comparable now p v s e /\ r = mkSemanticMatch (se_responseBody e) (dot (se_vector e) v) /\
        nltb (dot (se_vector e) v) threshold = false /\
        forall e', comparable now p v s e' -> nltb (dot (se_vector e) v) (dot (se_vector e') v) = false
  | None =>
      forall e, comparable now p v s e -> nltb (S754_infinity true) (dot (se_vector e) v) = true ->
        nltb (dot (se_vector e) v) threshold = true
  end.

(** The similarity of an answer is a number. *)
Lemma scan_is_number now v ids acc :
  (is_Some acc.1.2 -> is_nan acc.2 = false) ->
  is_Some (foldl (lookup_step now v) acc ids).1.2 -> is_nan (foldl (lookup_step now v) acc ids).2 = false.
Proof.
  revert acc. induction ids as [|id ids IH]; intros acc Hacc; cbn [foldl]; [done|]. apply IH.
  destruct acc as [[s best] sim]. unfold lookup_step. destruct (entry s id) as [e|]; [|done].
  destruct (nleb _ _); [done|]. destruct (negb _); [done|]. cbv zeta.
  destruct (nltb sim (dot (se_vector e) v)) eqn:E; [|done]. intros _. cbn [fst snd].
  destruct (dot (se_vector e) v) as [[]|[]| |[] m x]; try done. by destruct sim as [[]|[]| |[] ? ?].
Qed.

Lemma answer_is_number now p v th s m s' : lookup now p v th s = (Some m, s') -> is_nan (sm_similarity m) = false.
Proof.
  unfold lookup. destruct (own (ss_partitions s) p) as [ids|]; [|done].
  pose proof (scan_is_number now v ids (s, None, S754_infinity true)) as H.
  destruct (foldl _ _ _) as [[s1 best] sim]. cbn [fst snd] in H.
  destruct best as [e|]; [|done]. destruct (nltb sim th); [done|]. intros [= <- _]. cbn [sm_similarity].
  by apply H; [intros [x Hx]|exists e].
Qed.

(** What the store becomes: only entries out of date left it. *)
Definition pruned (now : num) (s s' : SemanticStore) : Prop :=
  Inv s' /\ shrinks s s' /\
  (forall e, e ∈ ss_entries s -> live now e = true -> e ∈ ss_entries s').

Lemma lookup_spec now p v th s m s' :
  Inv s -> lookup now p v th s = (m, s') -> answers now p v th s m /\ pruned now s s'.
Proof.
  intros HI. unfold lookup. destruct (own (ss_partitions s) p) as [ids|] eqn:Hp.
  2:{ intros [= <- <-]. split; [|split_and!; [done|apply shrinks_refl|done]]. intros e (He & Hep & _).
      assert (Hin : se_id e ∈ ids_of s p) by (apply (inv_agree _ HI); eauto).
      unfold ids_of in Hin. rewrite Hp in Hin. by apply elem_of_nil in Hin. }
  destruct (foldl _ _ _) as [[s1 best] bestSim] eqn:Hf.
  assert (Hids : ids_of s p = ids) by (unfold ids_of; by rewrite Hp).
  apply (lookup_scan now p v s ids s None (S754_infinity true) (fun _ => False)) in Hf as
    [HI1 Hsh Hlive Hb Hn Hmax]; [|done|by rewrite Hids|constructor; try done; apply shrinks_refl].
  assert (Hall : forall e, comparable now p v s e -> nltb bestSim (dot (se_vector e) v) = false).
  { intros e He. apply Hmax; [done|]. right. rewrite <- Hids. apply (inv_agree _ HI).
    destruct He as (He & Hep & _). eauto. }
  assert (Hpr : pruned now s s1) by by split_and!.
  destruct best as [e|].
  - destruct Hb as [Hcomp ->]. destruct (nltb _ th) eqn:Hth; intros [= <- <-].
    + split; [|done]. intros x Hx Hnan. specialize (Hall x Hx). num_order.
    + split; [by exists e|]. assert (He1 : e ∈ ss_entries s1) by (destruct Hcomp as (? & _ & ? & _); by apply Hlive).
      pose proof (perm_touch _ _ (inv_ids _ HI1) He1) as Hperm. split_and!.
      * by apply Inv_perm.
      * eapply shrinks_trans; [done|]. constructor; simpl; [done|done| |done|by rewrite Hperm|done].
        intros x. by rewrite Hperm.
      * intros x. simpl. rewrite Hperm. apply Hlive.
  - subst bestSim. intros [= <- <-]. split; [|done]. intros x Hx Hnan. specialize (Hall x Hx). congruence.
Qed.

(** ** Inserts *)

Lemma duplicates_removed v ids s : Inv s ->
  Inv (foldl (duplicate_step v) s ids) /\ shrinks s (foldl (duplicate_step v) s ids).
Proof.
  revert s. induction ids as [|i ids IH]; intros s HI; [by split; [|apply shrinks_refl]|]. cbn [foldl].
  assert (Hst : Inv (duplicate_step v s i) /\ shrinks s (duplicate_step v s i)).
  { unfold duplicate_step. destruct (entry s i) as [e|] eqn:He; [|by split; [|apply shrinks_refl]].
    apply entry_Some in He as [He _]; [|done]. case_match; [|by split; [|apply shrinks_refl]].
    split; [by apply remove_Inv|by apply remove_shrink]. }
  destruct Hst as [HI1 Hsh]. destruct (IH _ HI1) as [HI2 Hsh2]. split; [done|by eapply shrinks_trans].
Qed.

Lemma total_snoc l e : total (l ++ [e]) = (total l + se_bytes e)%Z.
Proof. induction l as [|x l IH]; simpl; [lia|]. unfold total in *. simpl. lia. Qed.

Lemma add_ids s e p : ids_of (add_entry e s) p =
  if (p =? se_partition e)%string then ids_of s p ++ [se_id e] else ids_of s p.
Proof.
  unfold ids_of, add_entry. simpl. rewrite own_put. by destruct (String.eqb_spec p (se_partition e)) as [->|].
Qed.

Lemma add_Inv s e : Inv s -> se_id e = S (ss_seq s) ->
  se_bytes e = entry_bytes (se_partition e) (se_vector e) (se_responseBody e) -> Inv (add_entry e s).
Proof.
  intros HI Hid Hb.
  assert (Hfresh : forall x, x ∈ ss_entries s -> se_id x <> se_id e).
  { intros x Hx. pose proof (inv_seq _ HI x Hx). lia. }
  constructor.
  - simpl. rewrite map_app. apply NoDup_app. split; [apply HI|]. split; [|apply NoDup_singleton].
    intros i Hi ->%list_elem_of_singleton. apply list_elem_of_fmap in Hi as (x & Hx & Hin).
    by apply (Hfresh x).
  - simpl. intros x [Hx| ->%list_elem_of_singleton]%elem_of_app; [|done].
    pose proof (inv_seq _ HI x Hx). lia.
  - simpl. apply NoDup_obj_put, HI.
  - simpl. intros p ids. rewrite own_put. destruct (String.eqb_spec p (se_partition e)) as [->|]; [|apply HI].
    intros [= <-]. split; [by intros [_ ?]%app_eq_nil|]. apply NoDup_app. split_and!.
    + destruct (own (ss_partitions s) (se_partition e)) as [l|] eqn:Hl; simpl; [|constructor].
      by apply (inv_sets _ HI _ _ Hl).
    + intros i Hi ->%list_elem_of_singleton. fold (ids_of s (se_partition e)) in Hi.
      apply (inv_agree _ HI) in Hi as (x & Hx & Hxi & _). by apply (Hfresh x).
    + apply NoDup_singleton.
  - intros p i. rewrite add_ids. simpl. setoid_rewrite elem_of_app. setoid_rewrite list_elem_of_singleton.
    destruct (String.eqb_spec p (se_partition e)) as [->|Hne].
    + rewrite elem_of_app, list_elem_of_singleton, (inv_agree _ HI). naive_solver.
    + rewrite (inv_agree _ HI). naive_solver.
  - simpl. rewrite total_snoc, (inv_bytes _ HI). done.
  - simpl. intros x [Hx| ->%list_elem_of_singleton]%elem_of_app; [by apply (inv_size _ HI)|done].
Qed.

(** The newest entry is last in both orders, so the caps take others first. *)
Record Newest (e : SemanticEntry) (s : SemanticStore) : Prop := mkNewest {
  nw_inv : Inv s;
  nw_entries : exists l, ss_entries s = l ++ [e];
  nw_ids : exists l, ids_of s (se_partition e) = l ++ [se_id e]
}.

Lemma newest_in e s : Newest e s -> e ∈ ss_entries s.
Proof. intros [_ [l ->] _]. apply elem_of_app. right. by apply list_elem_of_singleton. Qed.

Lemma add_newest s e : Inv s -> se_id e = S (ss_seq s) ->
  se_bytes e = entry_bytes (se_partition e) (se_vector e) (se_responseBody e) -> Newest e (add_entry e s).
Proof.
  intros HI Hid Hb. constructor; [by apply add_Inv|by eexists|]. rewrite add_ids, String.eqb_refl. by eexists.
Qed.

Lemma remove_newest e s x : Newest e s -> x ∈ ss_entries s -> se_id x <> se_id e -> Newest e (remove x s).
Proof.
  intros [HI [l Hl] [k Hk]] Hx Hne. constructor; [by apply remove_Inv| |].
  - rewrite remove_eq by done. simpl. rewrite Hl. unfold drop_entry. rewrite List.filter_app. simpl.
    destruct (Nat.eqb_spec (se_id e) (se_id x)) as [H|_]; [by rewrite H in Hne|]. by eexists.
  - rewrite remove_ids by done. case_match; [|by eexists]. rewrite Hk. unfold drop_id. rewrite List.filter_app.
    simpl. destruct (Nat.eqb_spec (se_id e) (se_id x)) as [H'|_]; [by rewrite H' in Hne|]. by eexists.
Qed.

(** *** The caps *)

Section Caps.
#[local] Open Scope Z_scope.
Context (E B P : Z) (HE : 1 <= E < 2 ^ 52) (HB : 1 <= B < 2 ^ 52) (HP : 1 <= P < 2 ^ 52).

Definition limits (s : SemanticStore) : Prop :=
  ss_maxEntries s = num_of_Z E /\ ss_maxBytes s = num_of_Z B /\ ss_maxPerPartition s = num_of_Z P.

Record Capped (s : SemanticStore) : Prop := mkCapped {
  cp_limits : limits s;
  cp_entries : Z.of_nat (length (ss_entries s)) <= E;
  cp_bytes : ss_totalBytes s <= B;
  cp_ids : forall p, Z.of_nat (length (ids_of s p)) <= P
}.

Lemma shrinks_limits s s' : shrinks s s' -> limits s -> limits s'.
Proof. intros [(H1 & H2 & H3) _ _ _ _ _]. unfold limits. rewrite H1, H2, H3. done. Qed.

Lemma shrinks_capped s s' : shrinks s s' -> Capped s -> Capped s'.
Proof.
  intros Hsh [Hl He Hb Hi]. constructor; [by eapply shrinks_limits|destruct Hsh; lia..|].
  intros p. specialize (Hi p). pose proof (sh_ids _ _ Hsh p). lia.
Qed.

Lemma ids_entry s p i : Inv s -> i ∈ ids_of s p -> exists x, entry s i = Some x /\ se_partition x = p.
Proof.
  intros HI Hi. apply (inv_agree _ HI) in Hi as (x & Hx & <- & Hp). exists x. by rewrite entry_Some.
Qed.

Lemma cap_partition_spec fuel e s :
  Newest e s -> limits s -> Z.of_nat (length (ids_of s (se_partition e))) < 2 ^ 53 ->
  (length (ids_of s (se_partition e)) <= fuel)%nat ->
  let s' := cap_partition fuel (se_partition e) s in
  Newest e s' /\ shrinks s s' /\ Z.of_nat (length (ids_of s' (se_partition e))) <= P.
Proof.
  revert s. induction fuel as [|fuel IH]; intros s Hn Hlim Hlt Hfuel; cbn [cap_partition].
  { simpl. split_and!; [done|apply shrinks_refl|lia]. }
  fold (ids_of s (se_partition e)). destruct Hlim as (HmE & HmB & HmP). rewrite HmP, nltb_ints by lia.
  destruct (Z.ltb_spec P (Z.of_nat (length (ids_of s (se_partition e))))) as [Hgt|Hle];
    [|by split_and!; [|apply shrinks_refl|]].
  destruct (nw_ids _ _ Hn) as [k Hk]. destruct k as [|i k].
  { exfalso. rewrite Hk in Hgt. simpl in Hgt. lia. }
  assert (Hi : i ∈ ids_of s (se_partition e)) by (rewrite Hk; left).
  destruct (ids_entry s _ i (nw_inv _ _ Hn) Hi) as (x & Hx & Hxp).
  rewrite Hk. cbn [app head]. rewrite Hx. apply entry_Some in Hx as [Hx Hxi]; [|apply Hn].
  assert (Hne : se_id x <> se_id e).
  { intros Heq. destruct (own (ss_partitions s) (se_partition e)) as [ids|] eqn:Ho;
      unfold ids_of in Hk; rewrite Ho in Hk; simpl in Hk; [|done]. subst ids.
    apply (inv_sets _ (nw_inv _ _ Hn)) in Ho as [_ Hnd]. apply NoDup_cons in Hnd as [Hnd _].
    apply Hnd, elem_of_app. right. apply list_elem_of_singleton. congruence. }
  pose proof (remove_newest _ _ _ Hn Hx Hne) as Hn1.
  pose proof (remove_shrink s x (nw_inv _ _ Hn) Hx) as Hsh.
  assert (Hdec : (length (ids_of (remove x s) (se_partition e)) < length (ids_of s (se_partition e)))%nat).
  { rewrite remove_ids by (done || apply Hn). rewrite Hxp, String.eqb_refl, Hk, Hxi. unfold drop_id. simpl.
    rewrite Nat.eqb_refl. simpl. apply Nat.lt_succ_r, length_filter_bool. }
  destruct (IH (remove x s)) as (Hn2 & Hsh2 & Hle2); [done|by eapply shrinks_limits|lia|lia|].
  split_and!; [done|by eapply shrinks_trans|done].
Qed.

Lemma bytes_nonneg s x : Inv s -> x ∈ ss_entries s -> 256 <= se_bytes x.
Proof. intros HI Hx. rewrite (inv_size _ HI x Hx). apply entry_bytes_pos. Qed.

Lemma total_nonneg s l : Inv s -> (forall x, x ∈ l -> x ∈ ss_entries s) -> 0 <= total l.
Proof.
  intros HI Hl. induction l as [|x l IH]; simpl; [lia|].
  pose proof (bytes_nonneg s x HI (Hl x ltac:(left))).
  specialize (IH ltac:(intros; apply Hl; by right)). unfold total in *. lia.
Qed.

Lemma cap_store_spec fuel e s :
  Newest e s -> limits s -> se_bytes e <= B -> Z.of_nat (length (ss_entries s)) < 2 ^ 53 ->
  ss_totalBytes s < 2 ^ 53 -> (length (ss_entries s) <= fuel)%nat ->
  let s' := cap_store fuel s in
  Newest e s' /\ shrinks s s' /\ Z.of_nat (length (ss_entries s')) <= E /\ ss_totalBytes s' <= B.
Proof.
  revert s. induction fuel as [|fuel IH]; intros s Hn Hlim Hbe Hlt Hbt Hfuel; cbn [cap_store].
  { destruct (nw_entries _ _ Hn) as [l Hl]. rewrite Hl, length_app in Hfuel. simpl in Hfuel. lia. }
  destruct (nw_entries _ _ Hn) as [l Hl]. pose proof (nw_inv _ _ Hn) as HI.
  assert (Htot : ss_totalBytes s = total l + se_bytes e) by (by rewrite (inv_bytes _ HI), Hl, total_snoc).
  assert (Hpos : 0 <= total l) by (apply (total_nonneg s); [done|]; rewrite Hl; intros; apply elem_of_app; by left).
  assert (Hebp : 0 <= se_bytes e) by (pose proof (bytes_nonneg s e HI (newest_in _ _ Hn)); lia).
  destruct Hlim as (HmE & HmB & HmP). unfold size, bytes. rewrite HmE, HmB, !nltb_ints by lia.
  destruct (Z.ltb_spec E (Z.of_nat (length (ss_entries s)))) as [Hgt|Hle];
    [|destruct (Z.ltb_spec B (ss_totalBytes s)) as [Hgt|Hle2]; [|by split_and!; [|apply shrinks_refl|..]]].
  all: simpl; destruct l as [|x l]; [exfalso; rewrite Hl in *; simpl in *; lia|].
  all: rewrite Hl; cbn [app head].
  all: assert (Hx : x ∈ ss_entries s) by (rewrite Hl; left).
  all: assert (Hne : se_id x <> se_id e)
    by (intros Heq; pose proof (inv_ids _ HI) as Hnd; rewrite Hl, map_app in Hnd;
        simpl in Hnd; apply NoDup_cons in Hnd as [Hnd _]; apply Hnd, elem_of_app; right;
        apply list_elem_of_singleton; done).
  all: pose proof (remove_newest _ _ _ Hn Hx Hne) as Hn1; pose proof (remove_shrink s x HI Hx) as Hsh.
  all: destruct (remove_shrinks s x HI Hx) as [Hlen _].
  all: destruct (IH (remove x s)) as (Hn2 & Hsh2 & Hle3 & Hle4);
    [done|by eapply shrinks_limits|done|lia|destruct Hsh; lia|lia|].
  all: split_and!; [done|by eapply shrinks_trans|done..].
Qed.

Lemma add_limits s e : limits s -> limits (add_entry e s).
Proof. done. Qed.

(** What [store_entry] leaves: the caps hold, the entry is there, and nothing
    else is new. *)
Lemma store_entry_spec p v body exp s s' id :
  Inv s -> Capped s -> entry_bytes p v body <= B ->
  store_entry p v body exp s = (s', id) ->
  Inv s' /\ Capped s' /\
  (exists e, entry s' id = Some e /\ se_partition e = p /\ se_vector e = v /\ se_responseBody e = body /\
     se_expiresAt e = exp) /\
  forall x, x ∈ ss_entries s' -> x ∈ ss_entries s \/
    (se_partition x = p /\ se_vector x = v /\ se_responseBody x = body /\ se_expiresAt x = exp).
Proof.
  intros HI HC Hfit. unfold store_entry. fold (ids_of s p).
  destruct (duplicates_removed v (ids_of s p) s HI) as [HI1 Hsh1].
  set (s1 := foldl _ s _) in *. set (e := mkSemanticEntry _ _ _ _ _ _).
  pose proof (shrinks_capped _ _ Hsh1 HC) as HC1.
  pose proof (add_newest s1 e HI1 eq_refl eq_refl) as Hn2. pose proof (add_ids s1 e) as Hids.
  set (s2 := add_entry e s1) in *. intros [= <- <-]. fold (ids_of s2 p).
  pose proof (cp_ids _ HC1 p) as Hip. pose proof (cp_entries _ HC1) as Hie. pose proof (cp_bytes _ HC1) as Hib.
  destruct (cap_partition_spec (length (ids_of s2 p)) e s2) as (Hn3 & Hsh3 & Hp3);
    [done|apply HC1|rewrite Hids, String.eqb_refl, length_app; simpl; change (se_partition e) with p; lia|done|].
  change (se_partition e) with p in *. set (s3 := cap_partition _ p s2) in *.
  assert (He2 : Z.of_nat (length (ss_entries s2)) <= E + 1) by (unfold s2; simpl; rewrite length_app; simpl; lia).
  assert (Hb2 : ss_totalBytes s2 <= B + B) by (unfold s2; simpl; lia).
  destruct (cap_store_spec (length (ss_entries s3)) e s3) as (Hn4 & Hsh4 & He4 & Hb4);
    [done|eapply shrinks_limits; [done|apply HC1]|done|destruct Hsh3; lia|destruct Hsh3; lia|done|].
  pose proof (shrinks_trans _ _ _ Hsh3 Hsh4) as Hsh.
  split; [apply Hn4|]. split; [|split].
  - constructor; [eapply shrinks_limits; [done|apply HC1]|done|done|]. intros q.
    pose proof (sh_ids _ _ Hsh4 q). pose proof (sh_ids _ _ Hsh3 q) as Hq.
    destruct (String.eqb_spec q p) as [->|Hne]; [lia|].
    rewrite Hids in Hq. apply String.eqb_neq in Hne. change (se_partition e) with p in Hq. rewrite Hne in Hq.
    pose proof (cp_ids _ HC1 q). lia.
  - exists e. split_and!; [|done..]. apply entry_Some; [apply Hn4|]. split; [|done]. by apply newest_in.
  - intros x Hx. apply (sh_sub _ _ Hsh) in Hx. unfold s2 in Hx. simpl in Hx.
    apply elem_of_app in Hx as [Hx| ->%list_elem_of_singleton]; [left|by right].
    by apply (sh_sub _ _ Hsh1).
Qed.

Definition fits (p : string) (v : list num) (body : string) : bool := entry_bytes p v body <=? B.

(** An insert answers true exactly for an entry that fits and is not late, and
    then the entry is in the store. *)
Lemma insert_keeps_newest now p v body exp s ok s' :
  Inv s -> Capped s -> entry_bytes p v body < 2 ^ 53 -> insert now p v body exp s = (ok, s') ->
  ok = fits p v body && negb (nleb exp now) /\ Inv s' /\ Capped s' /\
  (ok = true -> exists e, e ∈ ss_entries s' /\ se_partition e = p /\ se_vector e = v /\
     se_responseBody e = body /\ se_expiresAt e = exp) /\
  forall x, x ∈ ss_entries s' -> x ∈ ss_entries s \/
    (se_partition x = p /\ se_vector x = v /\ se_responseBody x = body /\ se_expiresAt x = exp).
Proof.
  intros HI HC Hsmall. pose proof (entry_bytes_pos p v body) as Hpos. unfold insert, fits.
  destruct (cp_limits _ HC) as (_ & HmB & _). rewrite HmB, nltb_ints by lia.
  destruct (Z.ltb_spec B (entry_bytes p v body)) as [Hgt|Hle]; cbn [orb].
  { intros [= <- <-]. split_and!; [|done|done|done|by left]. by replace (_ <=? _) with false by lia. }
  replace (entry_bytes p v body <=? B) with true by lia.
  destruct (nleb exp now) eqn:Hlate; cbn [negb andb]; [intros [= <- <-]; split_and!; [done..|by left]|].
  destruct (store_entry p v body exp s) as [s1 id] eqn:Hst. intros [= <- <-].
  apply store_entry_spec in Hst as (HI1 & HC1 & (e & He & Hp) & Hnew); [|done..]. rewrite He.
  split_and!; [done..| |done]. intros _. exists e. split; [|done]. by apply entry_Some in He as [? _].
Qed.
End Caps.

(** ** Sequences of operations *)

Inductive Op :=
| Insert (now : num) (partition : string) (vector : list num) (responseBody : string) (expiresAt : num)
| Lookup (now : num) (partition : string) (vector : list num) (threshold : num)
| Clear.

Definition run_op (s : SemanticStore) (op : Op) : SemanticStore :=
  match op with
  | Insert now p v body exp => (insert now p v body exp s).2
  | Lookup now p v th => (lookup now p v th s).2
  | Clear => clear s
  end.

Definition run_ops (ops : list Op) (s : SemanticStore) : SemanticStore := foldl run_op s ops.

(** The texts of an insert are shorter than the language's limit. *)
Definition op_ok (op : Op) : bool :=
  match op with Insert _ p v body _ => (entry_bytes p v body <? 2 ^ 53)%Z | _ => true end.

(** The store of three whole limits. *)
Definition int_store (E B P : Z) : SemanticStore :=
  new_store (mkStoreOptions (num_of_Z E) (num_of_Z B) (num_of_Z P)).

Section Runs.
#[local] Open Scope Z_scope.
Context (E B P : Z) (HE : 1 <= E < 2 ^ 52) (HB : 1 <= B < 2 ^ 52) (HP : 1 <= P < 2 ^ 52).

#[local] Abbreviation capped := (Capped E B P).

(** What is in the store was put there by an insert. *)
Definition sourced (ops : list Op) (s : SemanticStore) : Prop :=
  forall e, e ∈ ss_entries s ->
    exists now, Insert now (se_partition e) (se_vector e) (se_responseBody e) (se_expiresAt e) ∈ ops.

Lemma clear_ok s : Inv s -> capped s -> Inv (clear s) /\ capped (clear s).
Proof.
  intros HI HC. split.
  - constructor; simpl; [constructor|by intros e ?%elem_of_nil|constructor|done| |done|by intros e ?%elem_of_nil].
    intros p i. unfold ids_of. simpl. split; [by intros ?%elem_of_nil|]. by intros (e & ?%elem_of_nil & _).
  - destruct HC. constructor; simpl; try done; lia.
Qed.

Lemma store_op_ok s op ops :
  op_ok op = true -> Inv s -> capped s -> sourced ops s ->
  Inv (run_op s op) /\ capped (run_op s op) /\ sourced (ops ++ [op]) (run_op s op).
Proof.
  intros Hok HI HC Hsrc.
  assert (Hmono : forall s', (forall x, x ∈ ss_entries s' -> x ∈ ss_entries s) -> sourced (ops ++ [op]) s').
  { intros s' Hsub e He. apply Hsub in He. destruct (Hsrc e He) as [t Ht]. exists t. apply elem_of_app. by left. }
  destruct op as [now p v body exp|now p v th|]; simpl.
  - destruct (insert now p v body exp s) as [ok s'] eqn:Hins. simpl.
    apply (insert_keeps_newest E B P) in Hins as (_ & HI' & HC' & _ & Hnew); [|done..|simpl in Hok; lia].
    split_and!; [done..|]. intros e He. apply Hnew in He as [He|(<- & <- & <- & <-)].
    + destruct (Hsrc e He) as [t Ht]. exists t. apply elem_of_app. by left.
    + exists now. apply elem_of_app. right. by apply list_elem_of_singleton.
  - destruct (lookup now p v th s) as [m s'] eqn:Hl. simpl.
    apply lookup_spec in Hl as [_ (HI' & Hsh & _)]; [|done]. split_and!; [done| |].
    + by eapply shrinks_capped.
    + apply Hmono, Hsh.
  - destruct (clear_ok s HI HC). split_and!; [done..|]. apply Hmono. by intros x ?%elem_of_nil.
Qed.

Lemma nmax_one z : 1 <= z < 2 ^ 52 -> nmax (num_of_Z 1) (num_of_Z z) = num_of_Z z.
Proof.
  intros Hz. unfold nmax. rewrite !nltb_ints by lia.
  assert (Hn : forall k, 0 <= k < 2 ^ 53 -> is_nan (num_of_Z k) = false).
  { intros k Hk. apply binary_normalize_not_nan. }
  rewrite !Hn by lia. simpl. destruct (Z.ltb_spec 1 z); [done|]. destruct (Z.ltb_spec z 1); [lia|].
  by replace z with 1 by lia.
Qed.

Lemma int_store_ok : Inv (int_store E B P) /\ capped (int_store E B P) /\ sourced [] (int_store E B P).
Proof.
  split_and!.
  - constructor; simpl; [constructor|by intros e ?%elem_of_nil|constructor|done| |done|by intros e ?%elem_of_nil].
    intros p i. unfold ids_of. simpl. split; [by intros ?%elem_of_nil|]. by intros (e & ?%elem_of_nil & _).
  - constructor; simpl; [|lia..|intros; simpl; lia]. unfold limits. simpl. by rewrite !nmax_one by done.
  - by intros e ?%elem_of_nil.
Qed.

Lemma store_ops_ok ops : forallb op_ok ops = true ->
  let s := run_ops ops (int_store E B P) in Inv s /\ capped s /\ sourced ops s.
Proof.
  unfold run_ops. intros Hok. induction ops as [|op ops IH] using rev_ind; [apply int_store_ok|].
  rewrite forallb_app in Hok. simpl in Hok. split_bool. rewrite foldl_app. simpl.
  destruct IH as (HI & HC & Hs); [done|]. by apply store_op_ok.
Qed.

(** Whatever is looked up and inserted, the partitions' sets hold exactly
    the ids of the entries, the byte count is their sum, and no limit is passed:
    entries, bytes, entries of one partition. *)
Theorem store_invariant ops : forallb op_ok ops = true ->
  let s := run_ops ops (int_store E B P) in
  Inv s /\ Z.of_nat (length (ss_entries s)) <= E /\ ss_totalBytes s <= B /\
  forall p, Z.of_nat (length (ids_of s p)) <= P.
Proof.
  intros Hok s. destruct (store_ops_ok ops Hok) as (HI & [] & _). done.
Qed.

(** A semantic hit answers from its own partition: the body was inserted
    under the same partition key, is in date, is at least as similar as the
    threshold asks, and no entry of the partition that could be compared is more
    similar. *)
Theorem hit_is_best_of_own_partition ops now p v th r s' :
  forallb op_ok ops = true ->
  lookup now p v th (run_ops ops (int_store E B P)) = (Some r, s') ->
  exists t u exp, Insert t p u (sm_responseBody r) exp ∈ ops /\ nleb exp now = false /\
    length u = length v /\ sm_similarity r = dot u v /\ nltb (sm_similarity r) th = false /\
    forall e, comparable now p v (run_ops ops (int_store E B P)) e ->
      nltb (sm_similarity r) (dot (se_vector e) v) = false.
Proof.
  intros Hok Hl. destruct (store_ops_ok ops Hok) as (HI & _ & Hsrc).
  apply lookup_spec in Hl as [(e & (He & <- & Hlive & Hlen) & -> & Hth & Hmax) _]; [|done].
  destruct (Hsrc e He) as [t Ht]. exists t, (se_vector e), (se_expiresAt e). simpl.
  split_and!; [done|by apply negb_true_iff|by apply Nat.eqb_eq|done..].
Qed.
End Runs.

(** ** Examples *)

Section Samples.
#[local] Open Scope Z_scope.

Definition axis : list num := [num_of_Z 1; nzero].

Definition sample_ops : list Op :=
  [Insert (num_of_Z 0) "tenant a" axis "answer a" (num_of_Z 100);
   Insert (num_of_Z 1) "tenant b" axis "answer b" (num_of_Z 100);
   Insert (num_of_Z 2) "tenant a" [nzero; num_of_Z 1] "other a" (num_of_Z 100)].

Lemma store_invariant_witness :
  Inv (run_ops sample_ops (int_store 2 4000 8)) /\
  length (ss_entries (run_ops sample_ops (int_store 2 4000 8))) = 2%nat.
Proof.
  split; [|vm_compute; reflexivity].
  apply (store_invariant 2 4000 8 ltac:(lia) ltac:(lia) ltac:(lia) sample_ops). vm_compute. reflexivity.
Defined.

Lemma hit_is_best_of_own_partition_witness :
  let s := run_ops sample_ops (int_store 10 4000 8) in
  let r := mkSemanticMatch "answer b" (num_of_Z 1) in
  fst (lookup (num_of_Z 3) "tenant b" axis (num_of_Q 95 100) s) = Some r /\
  exists t u exp, Insert t "tenant b" u (sm_responseBody r) exp ∈ sample_ops.
Proof.
  split; [vm_compute; reflexivity|].
  destruct (hit_is_best_of_own_partition 10 4000 8 ltac:(lia) ltac:(lia) ltac:(lia) sample_ops
    (num_of_Z 3) "tenant b" axis (num_of_Q 95 100) (mkSemanticMatch "answer b" (num_of_Z 1))
    (lookup (num_of_Z 3) "tenant b" axis (num_of_Q 95 100) (run_ops sample_ops (int_store 10 4000 8))).2)
    as (t & u & exp & Hin & _); [vm_compute; reflexivity..|]. by exists t, u, exp.
Defined.
End Samples.
