(* ===== verification/SemanticCache.v ===== *)
(** * The semantic cache

    Models [middlewares/cache/semantic.ts] over [SemanticStore]: its settings
    and embedders, the split of a prompt into the text that is compared and the
    rest, the sensitivity check, whether an embedder may see a call's text, the
    partition key, the lookup and the write of an answer.

    Calling an embedder is a parameter ([embed]), and [semanticLookup] also
    returns the call it made, so that theorems can speak of the text that leaves
    the gateway.  The PII scan, the canonical text of a policy, SHA-256 and the
    URL check are parameters too.  Context keys other modules set are the fields
    of [Ctx].  Metrics and log lines are left out.

    [embedder_sees_only_allowed_text]: the conditions under which text is sent.
    [semantic_hit_is_same_question]: a hit was written for the same scope,
    principal, use case, level, policy, model, endpoint and conversation, for a text at
    least as similar as the threshold, and has not expired. *)

From Stdlib Require Import ZArith Lia ZifyBool Ascii Floats.SpecFloat.
From stdpp Require Import base strings option sets list.
From S2P Require Import Prelude JsValue Sorting RoutePolicy Constraints Router RouterMiddleware.
From S2P Require Import JsText CacheKey SemanticStore.

#[local] Open Scope string_scope.
#[local] Open Scope list_scope.
#[local] Arguments num_of_Z : simpl never.

Module SEMANTIC_STATUS.
Definition HIT : string := "SEMANTIC HIT".
Definition MISS : string := "SEMANTIC MISS".
Definition BYPASS : string := "SEMANTIC BYPASS".
Definition REFRESH : string := "REFRESH".
End SEMANTIC_STATUS.

Definition SEMANTIC_ENDPOINTS : list string := ["chatComplete"; "messages"].

(** ** Settings *)

Abbreviation Env := (obj string).

Definition env_num (raw : option string) (fallback min : num) : num :=
  match raw with
  | Some r =>
      let n := to_number r in
      if truthy_string r && is_finite_num n && nleb min n then n else fallback
  | None => fallback
  end.

Record SemanticConfig := mkSemanticConfig {
  cf_threshold : num;
  cf_ttlSeconds : num;
  cf_maxInputChars : num;
  cf_maxSensitivity : option string;
  cf_allowPii : bool;
  cf_sharePrincipals : bool
}.

Definition is_set (env : Env) (name : string) : bool :=
  match own env name with Some v => (v =? "true")%string | None => false end.

Definition trimmed (o : option string) : option string := truthy_header (trim <$> o).

Definition semanticConfig (env : Env) : SemanticConfig :=
  let default_threshold := num_of_Q 95 100 in
  let threshold := env_num (own env "PS_SEMANTIC_CACHE_THRESHOLD") default_threshold nzero in
  mkSemanticConfig
    (if nltb nzero threshold && nleb threshold (num_of_Z 1) then threshold else default_threshold)
    (env_num (own env "PS_SEMANTIC_CACHE_TTL_SECONDS") (num_of_Z 3600) (num_of_Z 1))
    (env_num (own env "PS_SEMANTIC_CACHE_MAX_INPUT_CHARS") (num_of_Z 4000) (num_of_Z 1))
    (trimmed (own env "PS_SEMANTIC_CACHE_MAX_SENSITIVITY"))
    (is_set env "PS_SEMANTIC_CACHE_ALLOW_PII")
    (is_set env "PS_SEMANTIC_CACHE_SHARE_PRINCIPALS").

(** ** Embedders *)

Record Embedder := mkEmbedder {
  em_id : string;
  em_local : bool;
  em_model : string;
  em_url : option string;
  em_facts : option ModelTier
}.

Definition text_flag (o : option string) : option bool :=
  match o with
  | Some "true" => Some true
  | Some "false" => Some false
  | _ => None
  end.

Definition httpEmbedder (env : Env) : option Embedder :=
  match trimmed (own env "PS_SEMANTIC_CACHE_EMBEDDING_URL"),
        trimmed (own env "PS_SEMANTIC_CACHE_EMBEDDING_MODEL") with
  | Some url, Some model =>
      let facts := mkTier model "" nzero nzero
        (truthy_header (own env "PS_SEMANTIC_CACHE_EMBEDDING_PROVIDER"))
        (truthy_header (own env "PS_SEMANTIC_CACHE_EMBEDDING_JURISDICTION"))
        ((fun z => (z =? "true")%string) <$> own env "PS_SEMANTIC_CACHE_EMBEDDING_ZDR")
        (text_flag (own env "PS_SEMANTIC_CACHE_EMBEDDING_US_CLOUD_ACT_EXPOSURE")) in
      Some (mkEmbedder ("http:" +:+ url +:+ "#" +:+ model) false model (Some url) (Some facts))
  | _, _ => None
  end.

(** ** The prompt *)

Definition newline : string := String (ascii_of_N 10) "".

(** The texts of content parts that are all text. *)
Fixpoint texts_of (parts : list json) : option (list string) :=
  match parts with
  | [] => Some []
  | p :: r =>
      if strict_eq (prop (Some p) "type") (JStr "text") then
        match as_string (prop (Some p) "text"), texts_of r with
        | Some t, Some ts => Some (t :: ts)
        | _, _ => None
        end
      else None
  end.

Definition textOf (content : any) : option string :=
  match content with
  | Some (JStr s) => Some s
  | Some (JArr ((_ :: _) as parts)) => String.concat newline <$> texts_of parts
  | _ => None
  end.

Inductive Split :=
| SplitOk (text : string) (exact : json)
| NoSplit (reason : string).

(** [const { k: _, ...rest } = v] *)
Definition without (v : json) (k : string) : json :=
  match v with JObj o => JObj (map_delete o k) | _ => v end.

Definition splitPrompt (params : any) (maxInputChars : num) : Split :=
  match prop params "messages" with
  | Some (JArr ((m0 :: ms) as messages)) =>
      let lastm := List.last messages m0 in
      if negb (strict_eq (prop (Some lastm) "role") (JStr "user")) then NoSplit "last_not_user" else
      match textOf (prop (Some lastm) "content") with
      | None => NoSplit "non_text_content"
      | Some text =>
          if negb (truthy_string (trim text)) then NoSplit "empty_text"
          else if nltb maxInputChars (num_of_Z (Z.of_nat (String.length text))) then NoSplit "too_long"
          else SplitOk text
            (JObj [("params", without (default JNull params) "messages");
                   ("history", JArr (removelast messages));
                   ("last", without lastm "content")])
      end
  | _ => NoSplit "no_messages"
  end.

(** ** What the request's context holds *)

Record Pending := mkPending { pd_partition : string; pd_vector : list num; pd_expiresAt : num }.

Record Ctx := mkCtx {
  cx_gate : option DataPolicyGate;
  cx_route : option PSRoute;
  cx_routePolicy : option RoutePolicy;
  cx_subjectHash : option string;
  cx_pending : obj Pending
}.

Inductive Sensitivity :=
| SensitivityOk (level : string) (policy : option RoutePolicy) (gate : option DataPolicyGate)
| TooSensitive (reason : string).

Record SemanticLookupInput := mkLookupInput {
  li_endpoint : string;
  li_params : any;
  li_requestHeaders : obj string;
  li_index : string;
  li_cacheScope : string;
  li_maxAge : option num;
  li_forceRefresh : bool
}.

Record SemanticResult := mkSemanticResult {
  sr_status : string;
  sr_responseBody : option string;
  sr_key : option string;
  sr_similarity : option num;
  sr_reason : option string
}.

Definition policy_levels (policy : option RoutePolicy) : list string :=
  match policy with
  | Some p => match rp_sensitivity p with Some s => levels_of s | None => DEFAULT_LEVELS end
  | None => DEFAULT_LEVELS
  end.

(** The highest rank that may use the cache. *)
Definition max_rank (levels : list string) (cfg : SemanticConfig) : Z :=
  match cf_maxSensitivity cfg with
  | Some m => rank levels m
  | None => if (0 <? rank levels "confidential")%Z then (rank levels "confidential" - 1)%Z else 0%Z
  end.

Definition declares_facts (f : ModelTier) : bool :=
  match mt_provider f, mt_jurisdiction f, mt_zdr f, mt_usCloudActExposure f with
  | None, None, None, None => false
  | _, _, _, _ => true
  end.

(** [modelComplies] with every tier of the policy. *)
Definition embedderAllowed (embedder : Embedder) (gate : option DataPolicyGate) : bool :=
  match gate with
  | None => true
  | Some g =>
      match dg_rule g with
      | None => true
      | Some _ =>
          if em_local embedder then true
          else match em_facts embedder with
               | Some f =>
                   if declares_facts f then tierComplies f (dg_rule g)
                   else modelComplies (dg_policy g) (Some (em_model embedder)) (dg_rule g) (fun _ => true)
               | None => modelComplies (dg_policy g) (Some (em_model embedder)) (dg_rule g) (fun _ => true)
               end
      end
  end.

Section Semantic.
Variable number_text : num -> string.
Variable SHA_256 : string -> list ascii.
(** [canonicalJSON] of a policy object, and the scan of a request body. *)
Variable policy_text : RoutePolicy -> string.
Variable scanRequestBody : any -> list string.
(** [isSafeUpstreamURL(url, c)], and [embedder.embed]: [None] when it throws. *)
Variable isSafeUpstreamURL : string -> bool.
Variable embed : Embedder -> string -> option (list num).
Variable PS_API_KEY : option string.

#[local] Abbreviation sha := (sha256Hex SHA_256).

Definition local_dims (dims : num) : num := nmax (num_of_Z 16) (nfloor dims).

Definition localHashEmbedder (dims : num) : Embedder :=
  mkEmbedder ("local-hash-v1:" +:+ number_text (local_dims dims)) true "local-hash-v1" None None.

Definition configuredEmbedder (env : Env) : option Embedder :=
  let kind := toLowerCase (trim (default "" (own env "PS_SEMANTIC_CACHE_EMBEDDER"))) in
  if (kind =? "local")%string then
    Some (localHashEmbedder (env_num (own env "PS_SEMANTIC_CACHE_LOCAL_DIMS") (num_of_Z 512) (num_of_Z 16)))
  else if (kind =? "http")%string then httpEmbedder env
  else None.

Definition active_policy (c : Ctx) : option RoutePolicy :=
  match cx_gate c with Some g => Some (dg_policy g) | None => cx_routePolicy c end.

(** The call's level: the gate's, else the router's, else the declared one. *)
Definition call_level (c : Ctx) (headers : obj string) (pii : list string) : option string :=
  match (match cx_gate c with Some g => dg_level g | None => None end) with
  | Some l => Some l
  | None =>
      match (match cx_route c with Some r => ps_sensitivityLevel r | None => None end) with
      | Some l => Some l
      | None =>
          let declared := ph_dataClassification (parseRouteHeaders headers) in
          match active_policy c with
          | Some p => (classifySensitivity p declared pii).1
          | None => declared
          end
      end
  end.

Definition sensitivityAllows (c : Ctx) (params : any) (headers : obj string) (cfg : SemanticConfig)
    : Sensitivity :=
  let policy := active_policy c in
  let pii := scanRequestBody params in
  if negb (bool_decide (pii = [])) && negb (cf_allowPii cfg) then TooSensitive "pii" else
  let levels := policy_levels policy in
  match call_level c headers pii with
  | None => SensitivityOk "unclassified" policy (cx_gate c)
  | Some l =>
      let r := rank levels l in
      if (r <? 0)%Z then TooSensitive "unknown_sensitivity" else
      let max := max_rank levels cfg in
      if ((max <? 0) || (max <? r))%Z then TooSensitive "sensitivity"
      else SensitivityOk l policy (cx_gate c)
  end.

Definition policyVersionOf (policy : option RoutePolicy) : string :=
  match policy with
  | None => "none"
  | Some p =>
      if truthy_opt (rp_policyVersion p) then "v:" +:+ default "" (rp_policyVersion p)
      else "sha256:" +:+ sha (policy_text p)
  end.

Definition tenant_of : string :=
  if truthy_opt PS_API_KEY then sha ("ps-tenant" +:+ newline +:+ default "" PS_API_KEY) else "".

(** The object whose text is hashed into the partition key. *)
Definition partition_object (c : Ctx) (input : SemanticLookupInput) (exact : json) (level : string)
    (policy : option RoutePolicy) (embedder : Embedder) (cfg : SemanticConfig) : json :=
  JObj [("v", JNum (num_of_Z 1));
        ("scope", JStr (li_cacheScope input));
        ("tenant", JStr tenant_of);
        ("principal", JStr (if cf_sharePrincipals cfg then "" else default "" (cx_subjectHash c)));
        ("use_case", JStr (default "" (ph_useCase (parseRouteHeaders (li_requestHeaders input)))));
        ("model", default (JStr "") (nullish (prop (li_params input) "model") (Some (JStr ""))));
        ("policy_version", JStr (policyVersionOf policy));
        ("sensitivity", JStr level);
        ("endpoint", JStr (li_endpoint input));
        ("embedder", JStr (em_id embedder));
        ("exact", exact)].

Definition partition_text c input exact level policy embedder cfg : string :=
  canonicalJSON number_text (partition_object c input exact level policy embedder cfg).

Definition partitionKey c input exact level policy embedder cfg : string :=
  sha (partition_text c input exact level policy embedder cfg).

Definition bypass (reason : string) : SemanticResult :=
  mkSemanticResult SEMANTIC_STATUS.BYPASS None None None (Some reason).

(** What a lookup answers, sends to an embedder, and leaves. *)
Record Looked := mkLooked {
  lk_result : SemanticResult;
  lk_sent : option (Embedder * string);
  lk_store : SemanticStore;
  lk_pending : obj Pending
}.

(** [Math.min(a, b)] of the age asked for and the setting. *)
Definition ttl_of (maxAge : option num) (ttlSeconds : num) : num :=
  match maxAge with
  | Some m => if num_truthy m && nltb nzero m then nmin m ttlSeconds else nmin ttlSeconds ttlSeconds
  | None => nmin ttlSeconds ttlSeconds
  end.

Definition expiry_of (now : num) (input : SemanticLookupInput) (cfg : SemanticConfig) : num :=
  nadd now (nmul (ttl_of (li_maxAge input) (cf_ttlSeconds cfg)) (num_of_Z 1000)).

(** The checks before the embedder is called. *)
Inductive Admission :=
| Proceed (embedder : Embedder) (text : string) (exact : json) (level : string) (policy : option RoutePolicy)
| Bypassed (reason : string).

Definition admit_lookup (c : Ctx) (input : SemanticLookupInput) (env : Env) : Admission :=
  let cfg := semanticConfig env in
  if negb (truthy_string (li_cacheScope input)) then Bypassed "no_scope"
  else if negb (mem_string (li_endpoint input) SEMANTIC_ENDPOINTS) then Bypassed "endpoint"
  else if strict_eq (prop (li_params input) "stream") (JBool true) then Bypassed "stream"
  else match configuredEmbedder env with
  | None => Bypassed "no_embedder"
  | Some embedder =>
      match splitPrompt (li_params input) (cf_maxInputChars cfg) with
      | NoSplit reason => Bypassed reason
      | SplitOk text exact =>
          match sensitivityAllows c (li_params input) (li_requestHeaders input) cfg with
          | TooSensitive reason => Bypassed reason
          | SensitivityOk level policy gate =>
              if negb (embedderAllowed embedder gate) then Bypassed "embedder_not_allowed"
              else if negb (em_local embedder) &&
                      negb (truthy_opt (em_url embedder) &&
                            isSafeUpstreamURL (default "" (em_url embedder)))
              then Bypassed "embedder_unsafe_url"
              else Proceed embedder text exact level policy
          end
      end
  end.

Definition semanticLookup (c : Ctx) (input : SemanticLookupInput) (env : Env) (now1 now2 : num)
    (store : SemanticStore) : Looked :=
  let cfg := semanticConfig env in
  match admit_lookup c input env with
  | Bypassed reason => mkLooked (bypass reason) None store (cx_pending c)
  | Proceed embedder text exact level policy =>
      let sent := Some (embedder, text) in
      match embed embedder text ≫= normalize with
      | None => mkLooked (bypass "embedding_error") sent store (cx_pending c)
      | Some vector =>
          let partition := partitionKey c input exact level policy embedder cfg in
          let pending := mkPending partition vector (expiry_of now1 input cfg) in
          let remembered := obj_put (cx_pending c) (li_index input) pending in
          if li_forceRefresh input then
            mkLooked (mkSemanticResult SEMANTIC_STATUS.REFRESH None (Some partition) None None)
              sent store remembered
          else
            let '(m, store') := lookup now2 partition vector (cf_threshold cfg) store in
            match m with
            | Some r =>
                mkLooked (mkSemanticResult SEMANTIC_STATUS.HIT (Some (sm_responseBody r)) (Some partition)
                            (Some (sm_similarity r)) None) sent store' (cx_pending c)
            | None =>
                mkLooked (mkSemanticResult SEMANTIC_STATUS.MISS None (Some partition) None None)
                  sent store' remembered
            end
      end
  end.

Inductive StoreOutcome := Stored | TooLarge | NoLookup.

(** The write of a response for the target [index]. *)
Definition semanticStore (pending : obj Pending) (index : string) (responseBody : json) (now : num)
    (store : SemanticStore) : StoreOutcome * SemanticStore :=
  match own pending index with
  | None => (NoLookup, store)
  | Some p =>
      let '(ok, store') := insert now (pd_partition p) (pd_vector p) (JSON_stringify number_text responseBody)
                             (pd_expiresAt p) store in
      (if ok then Stored else TooLarge, store')
  end.
End Semantic.

(** ** What is sent to an embedder *)

Section Sent.
Variable number_text : num -> string.
Variable SHA_256 : string -> list ascii.
Variable policy_text : RoutePolicy -> string.
Variable scanRequestBody : any -> list string.
Variable isSafeUpstreamURL : string -> bool.
Variable embed : Embedder -> string -> option (list num).
Variable PS_API_KEY : option string.

#[local] Abbreviation look :=
  (semanticLookup number_text SHA_256 policy_text scanRequestBody isSafeUpstreamURL embed PS_API_KEY).
#[local] Abbreviation admit_ := (admit_lookup number_text scanRequestBody isSafeUpstreamURL).

(** The text of the last message, a user's. *)
Definition is_last_user_text (params : any) (text : string) : Prop :=
  exists ms m, prop params "messages" = Some (JArr (ms ++ [m])) /\
    prop (Some m) "role" = Some (JStr "user") /\ textOf (prop (Some m) "content") = Some text.

(** The data rule lets a remote embedder see text: by its declared facts, or by
    a tier of the policy, or as a model nothing is stated about. *)
Definition remote_complies (e : Embedder) (g : DataPolicyGate) (r : DataPolicyRule) : Prop :=
  exists t, tierComplies t (Some r) = true /\
    (em_facts e = Some t \/ (t ∈ all_tiers (dg_policy g) /\ mt_model t = em_model e) \/
     t = unlisted_tier (em_model e)).

Lemma strict_eq_str a s : strict_eq a (JStr s) = true -> a = Some (JStr s).
Proof. destruct a as [[| | |t| |]|]; try done. simpl. by intros ->%String.eqb_eq. Qed.

Lemma splitPrompt_text params n text exact :
  splitPrompt params n = SplitOk text exact -> is_last_user_text params text.
Proof.
  unfold splitPrompt. destruct (prop params "messages") as [[| | | |[|m0 ms]|]|] eqn:Hm; try done.
  destruct (strict_eq _ _) eqn:Hr; cbn [negb]; [|done]. destruct (textOf _) as [t|] eqn:Ht; [|done].
  destruct (negb (truthy_string (trim t))); [done|]. destruct (nltb _ _); [done|]. intros [= <- _].
  exists (removelast (m0 :: ms)), (List.last (m0 :: ms) m0). split_and!; [|by apply strict_eq_str|done].
  rewrite Hm. do 2 f_equal. by apply app_removelast_last.
Qed.

Lemma modelComplies_tier policy m r :
  modelComplies policy (Some m) (Some r) (fun _ => true) = true ->
  exists t, tierComplies t (Some r) = true /\
    ((t ∈ all_tiers policy /\ mt_model t = m) \/ t = unlisted_tier m).
Proof.
  unfold modelComplies. destruct (truthy_string m); [|intros H; by exists (unlisted_tier m); split; [|right]].
  destruct (List.filter _ _) as [|t ts] eqn:Hf; [intros H; by exists (unlisted_tier m); split; [|right]|].
  intros (x & Hx & Hc)%existsb_exists. exists x. split; [done|left].
  apply list_elem_of_In in Hx. rewrite <- Hf in Hx. apply filter_elem in Hx as [Hx Hm]. split_bool. done.
Qed.

Lemma embedderAllowed_remote e g r :
  dg_rule g = Some r -> em_local e = false -> embedderAllowed e (Some g) = true -> remote_complies e g r.
Proof.
  intros Hr Hl. unfold embedderAllowed. rewrite Hr, Hl.
  assert (Hm : modelComplies (dg_policy g) (Some (em_model e)) (Some r) (fun _ => true) = true ->
    remote_complies e g r).
  { intros (t & Ht & H)%modelComplies_tier. exists t. tauto. }
  destruct (em_facts e) as [f|] eqn:Hf; [|done]. destruct (declares_facts f); [|done].
  intros H. exists f. by split; [|left].
Qed.

Lemma admit_lookup_spec c input env e text exact level policy :
  admit_ c input env = Proceed e text exact level policy ->
  configuredEmbedder number_text env = Some e /\
  splitPrompt (li_params input) (cf_maxInputChars (semanticConfig env)) = SplitOk text exact /\
  (exists gate, sensitivityAllows scanRequestBody c (li_params input) (li_requestHeaders input)
    (semanticConfig env) = SensitivityOk level policy gate /\ embedderAllowed e gate = true) /\
  (em_local e = false -> exists url, em_url e = Some url /\ isSafeUpstreamURL url = true).
Proof.
  unfold admit_lookup. destruct (negb (truthy_string _)); [done|]. destruct (negb (mem_string _ _)); [done|].
  destruct (strict_eq _ _); [done|]. destruct (configuredEmbedder _ _) as [em|]; [|done].
  destruct (splitPrompt _ _) as [t x|]; [|done].
  destruct (sensitivityAllows _ _ _ _ _) as [l p gate|] eqn:Hs; [|done].
  destruct (embedderAllowed em gate) eqn:Hal; cbn [negb]; [|done].
  destruct (negb (em_local em) && _) eqn:Hurl; [done|]. intros [= -> -> -> -> ->].
  split_and!; [done..|by exists gate|]. intros Hl. rewrite Hl in Hurl. cbn [negb andb] in Hurl.
  apply negb_false_iff, andb_prop in Hurl as [Hu Hsafe].
  destruct (em_url e) as [url|]; [by exists url|done].
Qed.

(** [C17] A prompt's text leaves for an embedder only when the semantic cache may
    hold the call: it is the last user message's text, no personal data was
    detected (unless the operator allows it), the call's level is known and not
    above the highest allowed, a data rule is met by a remote embedder, and the
    embedder's URL passed the upstream check. *)
Theorem embedder_sees_only_allowed_text c input env now1 now2 store e text :
  lk_sent (look c input env now1 now2 store) = Some (e, text) ->
  let cfg := semanticConfig env in
  let pii := scanRequestBody (li_params input) in
  configuredEmbedder number_text env = Some e /\
  is_last_user_text (li_params input) text /\
  (cf_allowPii cfg = true \/ pii = []) /\
  (forall l, call_level c (li_requestHeaders input) pii = Some l ->
     let levels := policy_levels (active_policy c) in
     (0 <= rank levels l <= max_rank levels cfg)%Z) /\
  (forall g r, cx_gate c = Some g -> dg_rule g = Some r -> em_local e = false -> remote_complies e g r) /\
  (em_local e = false -> exists url, em_url e = Some url /\ isSafeUpstreamURL url = true).
Proof.
  intros Hs cfg pii.
  assert (Ha : exists exact level policy, admit_ c input env = Proceed e text exact level policy).
  { revert Hs. unfold semanticLookup. destruct (admit_ c input env) as [e' t' x l p|]; [|done].
    intros Hs. assert (Hst : Some (e', t') = Some (e, text)).
    { revert Hs. case_match; [|done]. case_match; [done|]. by destruct (lookup _ _ _ _ _) as [[m|] s']. }
    injection Hst as [= -> ->]. by exists x, l, p. }
  destruct Ha as (exact & level & policy & Ha).
  apply admit_lookup_spec in Ha as (Hc & Hsp & (gate & Hsens & Hal) & Hurl).
  split; [done|]. split; [by eapply splitPrompt_text|].
  revert Hsens. unfold sensitivityAllows. fold pii cfg.
  destruct (negb (bool_decide (pii = [])) && negb (cf_allowPii cfg)) eqn:Hpii; [done|]. intros Hsens.
  assert (Hg : gate = cx_gate c) by (repeat (case_match; try done); by injection Hsens as [= _ _ <-]).
  subst gate. split_and!; [| |intros g r Hg Hr Hl; rewrite Hg in Hal; by eapply embedderAllowed_remote|done].
  - destruct (bool_decide_reflect (pii = [])); [by right|]. destruct (cf_allowPii cfg); [by left|done].
  - intros l Hl. rewrite Hl in Hsens. repeat (case_match; try done). lia.
Qed.
End Sent.

(** ** Hits answer the same question *)

Section Isolation.
Variable number_text : num -> string.
Variable SHA_256 : string -> list ascii.
Variable policy_text : RoutePolicy -> string.
Variable scanRequestBody : any -> list string.
Variable isSafeUpstreamURL : string -> bool.
Variable embed : Embedder -> string -> option (list num).
Variable PS_API_KEY : option string.
Variable env : Env.
Hypothesis number_plain : forall n, sforallb plain_char (number_text n) = true.

#[local] Abbreviation look :=
  (semanticLookup number_text SHA_256 policy_text scanRequestBody isSafeUpstreamURL embed PS_API_KEY).
#[local] Abbreviation admit_ := (admit_lookup number_text scanRequestBody isSafeUpstreamURL).
#[local] Abbreviation ptext := (partition_text number_text SHA_256 policy_text PS_API_KEY).
#[local] Abbreviation pkey := (partitionKey number_text SHA_256 policy_text PS_API_KEY).
#[local] Abbreviation canonical := (canonicalJSON number_text).

Lemma partition_members (a b c d e f g h i j k : string) :
  stable_sort (fun p q : string * string => string_gt p.1 q.1)
    [("v", a); ("scope", b); ("tenant", c); ("principal", d); ("use_case", e); ("model", f);
     ("policy_version", g); ("sensitivity", h); ("endpoint", i); ("embedder", j); ("exact", k)] =
  [("embedder", j); ("endpoint", i); ("exact", k); ("model", f); ("policy_version", g);
   ("principal", d); ("scope", b); ("sensitivity", h); ("tenant", c); ("use_case", e); ("v", a)].
Proof. reflexivity. Qed.

Lemma canonical_str s : canonical (JStr s) = json_quote s.
Proof. done. Qed.

Definition principal_of (cfg : SemanticConfig) (c : Ctx) : string :=
  if cf_sharePrincipals cfg then "" else default "" (cx_subjectHash c).

Definition use_case_of (input : SemanticLookupInput) : string :=
  default "" (ph_useCase (parseRouteHeaders (li_requestHeaders input))).

Definition model_of (input : SemanticLookupInput) : json :=
  default (JStr "") (nullish (prop (li_params input) "model") (Some (JStr ""))).

(** What two lookups with the same partition key agree on. *)
Record same_question (c : Ctx) (i : SemanticLookupInput) (x : json) (l : string) (p : option RoutePolicy)
    (c' : Ctx) (i' : SemanticLookupInput) (x' : json) (l' : string) (p' : option RoutePolicy) : Prop :=
  mkSameQuestion {
  sq_scope : li_cacheScope i = li_cacheScope i';
  sq_principal : principal_of (semanticConfig env) c = principal_of (semanticConfig env) c';
  sq_use_case : use_case_of i = use_case_of i';
  sq_model : canonical (model_of i) = canonical (model_of i');
  sq_policy : policyVersionOf SHA_256 policy_text p = policyVersionOf SHA_256 policy_text p';
  sq_level : l = l';
  sq_endpoint : li_endpoint i = li_endpoint i';
  sq_exact : canonical x = canonical x'
}.

Lemma partition_text_inv c i x l p e c' i' x' l' p' e' :
  ptext c i x l p e (semanticConfig env) = ptext c' i' x' l' p' e' (semanticConfig env) ->
  em_id e = em_id e' /\ same_question c i x l p c' i' x' l' p'.
Proof.
  unfold partition_text, partition_object. cbn [canonicalJSON]. cbn [map fst snd].
  rewrite !partition_members. cbn [map String.concat]. unfold member_text. cbn [fst snd].
  rewrite !sapp_assoc, !canonical_str. intros H. do 3 apply sapp_inv_head in H.
  apply delimited in H as [He H]. do 3 apply sapp_inv_head in H.
  apply delimited in H as [Hend H]. do 3 apply sapp_inv_head in H.
  apply value_before_comma in H as [Hx H]; [|done]. do 2 apply sapp_inv_head in H.
  apply value_before_comma in H as [Hm H]; [|done]. do 2 apply sapp_inv_head in H.
  apply delimited in H as [Hp H]. do 3 apply sapp_inv_head in H.
  apply delimited in H as [Hpr H]. do 3 apply sapp_inv_head in H.
  apply delimited in H as [Hs H]. do 3 apply sapp_inv_head in H.
  apply delimited in H as [Hl H]. do 3 apply sapp_inv_head in H.
  apply delimited in H as [_ H]. do 3 apply sapp_inv_head in H.
  by apply delimited in H as [Hu _].
Qed.

(** *** The requests of a process

    A request's lookups and writes, each with its readings of the clock. *)

Inductive Event :=
| EvLookup (rid : nat) (input : SemanticLookupInput) (now1 now2 : num)
| EvWrite (rid : nat) (index : string) (responseBody : json) (now : num).

(** The store of the process, and each request's context. *)
Record Process := mkProcess { pr_store : SemanticStore; pr_ctx : nat -> Ctx }.

Definition set_pending (pending : obj Pending) (c : Ctx) : Ctx :=
  mkCtx (cx_gate c) (cx_route c) (cx_routePolicy c) (cx_subjectHash c) pending.

Definition update_ctx (rid : nat) (pending : obj Pending) (f : nat -> Ctx) : nat -> Ctx :=
  fun r => if Nat.eqb r rid then set_pending pending (f r) else f r.

Definition handle (s : Process) (ev : Event) : Process :=
  match ev with
  | EvLookup rid input now1 now2 =>
      let r := look (pr_ctx s rid) input env now1 now2 (pr_store s) in
      mkProcess (lk_store r) (update_ctx rid (lk_pending r) (pr_ctx s))
  | EvWrite rid index body now =>
      mkProcess (semanticStore number_text (cx_pending (pr_ctx s rid)) index body now (pr_store s)).2 (pr_ctx s)
  end.

Definition handle_all (evs : list Event) (s : Process) : Process := foldl handle s evs.

Variable ctx0 : nat -> Ctx.
Hypothesis no_pending : forall rid, cx_pending (ctx0 rid) = [].
Context (E B P : Z) (HE : (1 <= E < 2 ^ 52)%Z) (HB : (1 <= B < 2 ^ 52)%Z) (HP : (1 <= P < 2 ^ 52)%Z).

Definition start : Process := mkProcess (int_store E B P) ctx0.

(** The vector a text is compared by. *)
Definition vector_of (e : Embedder) (text : string) : option (list num) := embed e text ≫= normalize.

(** A lookup of the history with the partition key [k] and the vector [v], whose answer
    lasts until [exp]. *)
Definition asked (evs : list Event) (rid : nat) (input : SemanticLookupInput) (k : string) (v : list num) (exp : num)
    : Prop :=
  exists now1 now2 e text x l p, EvLookup rid input now1 now2 ∈ evs /\
    admit_ (ctx0 rid) input env = Proceed e text x l p /\
    k = pkey (ctx0 rid) input x l p e (semanticConfig env) /\ vector_of e text = Some v /\
    exp = expiry_of now1 input (semanticConfig env).

(** The texts written are shorter than the language's limit. *)
Definition event_ok (s : Process) (ev : Event) : bool :=
  match ev with
  | EvLookup _ _ _ _ => true
  | EvWrite rid index body _ =>
      match own (cx_pending (pr_ctx s rid)) index with
      | Some p => (entry_bytes (pd_partition p) (pd_vector p) (JSON_stringify number_text body) <? 2 ^ 53)%Z
      | None => true
      end
  end.

Fixpoint events_ok (evs : list Event) (s : Process) : bool :=
  match evs with
  | [] => true
  | ev :: r => event_ok s ev && events_ok r (handle s ev)
  end.

Record Hist (evs : list Event) (s : Process) : Prop := mkHist {
  hs_store : Inv (pr_store s) /\ Capped E B P (pr_store s);
  hs_ctx : forall rid, exists pending, pr_ctx s rid = set_pending pending (ctx0 rid);
  hs_pending : forall rid index p, own (cx_pending (pr_ctx s rid)) index = Some p ->
    exists input, li_index input = index /\ asked evs rid input (pd_partition p) (pd_vector p) (pd_expiresAt p);
  hs_entries : forall e, e ∈ ss_entries (pr_store s) ->
    exists rid input body now, asked evs rid input (se_partition e) (se_vector e) (se_expiresAt e) /\
      EvWrite rid (li_index input) body now ∈ evs /\ se_responseBody e = JSON_stringify number_text body
}.

Lemma asked_mono evs evs' rid input k v exp : asked evs rid input k v exp -> asked (evs ++ evs') rid input k v exp.
Proof.
  intros (n1 & n2 & e & t & x & l & p & Hin & H). exists n1, n2, e, t, x, l, p. split; [|done].
  apply elem_of_app. by left.
Qed.

Lemma set_pending_pending a b c : set_pending a (set_pending b c) = set_pending a c.
Proof. done. Qed.

Lemma admit_set_pending pending c input : admit_ (set_pending pending c) input env = admit_ c input env.
Proof. done. Qed.

(** What a lookup leaves in the store and the context. *)
Lemma look_spec c input now1 now2 s : Inv s -> Capped E B P s ->
  let r := look c input env now1 now2 s in
  Inv (lk_store r) /\ Capped E B P (lk_store r) /\
  (forall e, e ∈ ss_entries (lk_store r) -> e ∈ ss_entries s) /\
  (lk_pending r = cx_pending c \/
   exists e text x l p v, admit_ c input env = Proceed e text x l p /\ vector_of e text = Some v /\
     lk_pending r = obj_put (cx_pending c) (li_index input)
       (mkPending (pkey c input x l p e (semanticConfig env)) v (expiry_of now1 input (semanticConfig env)))).
Proof.
  intros HI HC. unfold semanticLookup. destruct (admit_ c input env) as [e text x l p|] eqn:Ha; [|simpl; tauto].
  fold (vector_of e text). destruct (vector_of e text) as [v|] eqn:Hv; [|simpl; tauto].
  destruct (li_forceRefresh input); [simpl; split_and!; [done..|right; by exists e, text, x, l, p, v]|].
  destruct (lookup _ _ _ _ s) as [m s'] eqn:Hl.
  apply lookup_spec in Hl as [_ (HI' & Hsh & _)]; [|done].
  assert (HC' : Capped E B P s') by by eapply shrinks_capped.
  destruct m; simpl; (split_and!; [done..|apply Hsh|]); [by left|right; by exists e, text, x, l, p, v].
Qed.

Lemma handle_Hist evs s ev : event_ok s ev = true -> Hist evs s -> Hist (evs ++ [ev]) (handle s ev).
Proof.
  intros Hok [[HI HC] Hctx Hpend Hent].
  assert (Hlast : ev ∈ evs ++ [ev]) by (apply elem_of_app; right; by apply list_elem_of_singleton).
  assert (Hent' : forall s', (forall e, e ∈ ss_entries s' -> e ∈ ss_entries (pr_store s)) ->
    forall e, e ∈ ss_entries s' -> exists rid input body now, asked (evs ++ [ev]) rid input (se_partition e) (se_vector e) (se_expiresAt e) /\
      EvWrite rid (li_index input) body now ∈ evs ++ [ev] /\ se_responseBody e = JSON_stringify number_text body).
  { intros s' Hsub e He. destruct (Hent e (Hsub e He)) as (rid & i & body & now & Ha & Hw & Hb).
    exists rid, i, body, now. split_and!; [by apply asked_mono|apply elem_of_app; by left|done]. }
  destruct ev as [rid input now1 now2|rid index body now]; cbn [handle].
  - destruct (look_spec (pr_ctx s rid) input now1 now2 (pr_store s) HI HC) as (HI' & HC' & Hsub & Hp).
    set (r := look _ _ _ _ _ _) in *. constructor; simpl; [done| | |by apply Hent'].
    + intros rid'. unfold update_ctx. destruct (Hctx rid') as [pd Hpd].
      destruct (Nat.eqb rid' rid); [|by exists pd]. exists (lk_pending r). by rewrite Hpd.
    + intros rid' index p. unfold update_ctx.
      assert (Hold : own (cx_pending (pr_ctx s rid')) index = Some p ->
        exists i, li_index i = index /\ asked (evs ++ [EvLookup rid input now1 now2]) rid' i (pd_partition p) (pd_vector p) (pd_expiresAt p)).
      { intros H. destruct (Hpend _ _ _ H) as (i & Hi & Ha). exists i. split; [done|by apply asked_mono]. }
      destruct (Nat.eqb_spec rid' rid) as [->|]; [|done]. simpl.
      destruct Hp as [-> |(e & t & x & l & pl & v & Ha & Hv & ->)]; [done|].
      rewrite own_put. destruct (String.eqb_spec index (li_index input)) as [->|]; [|done].
      intros [= <-]. exists input. split; [done|]. destruct (Hctx rid) as [pd Hpd].
      rewrite Hpd, admit_set_pending in Ha. exists now1, now2, e, t, x, l, pl. split_and!; [done|done| |done|done].
      simpl. by rewrite Hpd.
  - unfold semanticStore. simpl in Hok.
    destruct (own (cx_pending (pr_ctx s rid)) index) as [p|] eqn:Hp.
    2:{ constructor; simpl; [done..| |by apply Hent']. intros rid' i' p' H'.
        destruct (Hpend _ _ _ H') as (i & Hi & Ha). exists i. split; [done|by apply asked_mono]. }
    destruct (insert _ _ _ _ _ _) as [ok s'] eqn:Hins. simpl.
    apply (insert_keeps_newest E B P) in Hins as (_ & HI' & HC' & _ & Hnew); [|done..|lia].
    constructor; simpl; [done..| |].
    + intros rid' i' p' H'. destruct (Hpend _ _ _ H') as (i & Hi & Ha). exists i. split; [done|by apply asked_mono].
    + intros e He. apply Hnew in He as [He|(He1 & He2 & He3 & He4)]; [by apply (Hent' (pr_store s))|].
      destruct (Hpend _ _ _ Hp) as (i & <- & Ha). exists rid, i, body, now.
      split_and!; [rewrite He1, He2, He4; by apply asked_mono|done..].
Qed.

Lemma handle_all_Hist evs evs' s :
  events_ok evs' s = true -> Hist evs s -> Hist (evs ++ evs') (handle_all evs' s).
Proof.
  revert evs s. induction evs' as [|ev evs' IH]; intros evs s Hok HH; simpl.
  - by rewrite app_nil_r.
  - simpl in Hok. apply andb_prop in Hok as [H1 H2].
    replace (evs ++ ev :: evs') with ((evs ++ [ev]) ++ evs') by by rewrite <- app_assoc.
    apply IH; [done|by apply handle_Hist].
Qed.

Lemma start_Hist : Hist [] start.
Proof.
  destruct (int_store_ok E B P HE HB HP) as (HI & HC & _). constructor; [done| | |].
  - intros rid. exists []. simpl. rewrite <- (no_pending rid). by destruct (ctx0 rid).
  - intros rid index p. simpl. by rewrite no_pending.
  - by intros e ?%elem_of_nil.
Qed.

(** The text behind a lookup's partition key. *)
Definition question_text (rid : nat) (input : SemanticLookupInput) : option string :=
  match admit_ (ctx0 rid) input env with
  | Proceed e _ x l p => Some (ptext (ctx0 rid) input x l p e (semanticConfig env))
  | Bypassed _ => None
  end.

(** Two requests that ask the same apart from the text that is compared, and how similar
    these texts are, by the vectors the embedder gives them. *)
Definition asks_alike (rid : nat) (input : SemanticLookupInput) (rid' : nat) (input' : SemanticLookupInput)
    (similarity : num) : Prop :=
  exists e t x l p v e' t' x' l' p' v',
    admit_ (ctx0 rid) input env = Proceed e t x l p /\ admit_ (ctx0 rid') input' env = Proceed e' t' x' l' p' /\
    em_id e = em_id e' /\ same_question (ctx0 rid) input x l p (ctx0 rid') input' x' l' p' /\
    vector_of e t = Some v /\ vector_of e' t' = Some v' /\ length v' = length v /\ similarity = dot v' v.

Lemma threshold_is_number : is_nan (cf_threshold (semanticConfig env)) = false.
Proof.
  unfold semanticConfig. cbn [cf_threshold].
  destruct (nltb nzero _ && _) eqn:Hpos; [|by vm_compute]. apply andb_true_iff in Hpos as [Hpos _]. revert Hpos.
  generalize (env_num (own env "PS_SEMANTIC_CACHE_THRESHOLD") (num_of_Q 95 100) nzero). by intros [].
Qed.

(** [C16] A semantic hit was written for a similar question of the same caller: whatever
    requests a process served before, the body a lookup hits was stored for an earlier
    lookup with the same caller scope, principal, use case, model, policy version,
    sensitivity level, endpoint, embedder, parameters and conversation; only the last
    message's text may differ, and the vectors of the two texts are at least as similar
    as the threshold; and the answer has not expired. *)
Theorem semantic_hit_is_same_question evs rid input now1 now2 body :
  events_ok evs start = true ->
  let s := handle_all evs start in
  (forall rid' input' t t', question_text rid input = Some t -> question_text rid' input' = Some t' ->
     collision_free SHA_256 t t') ->
  let r := lk_result (look (pr_ctx s rid) input env now1 now2 (pr_store s)) in
  sr_responseBody r = Some body ->
  exists rid' input' value now1' now2' now' similarity,
    EvLookup rid' input' now1' now2' ∈ evs /\ EvWrite rid' (li_index input') value now' ∈ evs /\
    body = JSON_stringify number_text value /\
    asks_alike rid input rid' input' similarity /\
    nleb (cf_threshold (semanticConfig env)) similarity = true /\ sr_similarity r = Some similarity /\
    nleb (expiry_of now1' input' (semanticConfig env)) now2 = false.
Proof.
  intros Hok s Hfree. cbv zeta. destruct (handle_all_Hist [] evs start Hok start_Hist) as [[HI HC] Hctx _ Hent].
  fold s in HI, HC, Hctx, Hent. simpl in Hent. destruct (Hctx rid) as [pd Hpd].
  unfold semanticLookup. rewrite Hpd, admit_set_pending.
  destruct (admit_ (ctx0 rid) input env) as [e text x l p|] eqn:Ha; [|done].
  fold (vector_of e text). destruct (vector_of e text) as [v|] eqn:Hv; [|done].
  destruct (li_forceRefresh input); [done|].
  destruct (lookup _ _ _ _ _) as [[m|] s'] eqn:Hl; [|done]. cbn [lk_result sr_responseBody sr_similarity]. intros [= <-].
  pose proof (answer_is_number _ _ _ _ _ _ _ Hl) as Hnum.
  apply lookup_spec in Hl as [(x0 & (Hin & Hpart & Hlive & Hlen) & -> & Hth & _) _]; [|done]. cbn [sm_similarity sm_responseBody] in *.
  destruct (Hent x0 Hin) as
    (rid' & i' & value & now' & (n1 & n2 & e' & t' & x' & l' & p' & Hlk & Ha' & Hk & Hv' & Hexp) & Hw & Hb).
  exists rid', i', value, n1, n2, now', (dot (se_vector x0) v).
  split; [done|]. split; [done|]. split; [done|]. split; [|split; [|split; [done|]]].
  - exists e, text, x, l, p, v, e', t', x', l', p', (se_vector x0). split; [done|]. split; [done|].
    change (se_partition x0 = pkey (ctx0 rid) input x l p e (semanticConfig env)) in Hpart.
    rewrite Hk in Hpart. apply sha256Hex_inj in Hpart.
    + symmetry in Hpart. apply partition_text_inv in Hpart as [He Hsame]. split_and!; try done. by apply Nat.eqb_eq.
    + intros Heq. symmetry. eapply (Hfree rid' i').
      * unfold question_text. by rewrite Ha.
      * unfold question_text. by rewrite Ha'.
      * by symmetry.
  - pose proof threshold_is_number as Ht. num_order.
  - unfold live in Hlive. rewrite Hexp in Hlive. by apply negb_true_iff in Hlive.
Qed.
End Isolation.

(** ** Examples *)

Module Samples.
Definition number_text (n : num) : string := "1".
Definition SHA_256 (s : string) : list ascii := String.list_ascii_of_string s.
Definition policy_text (p : RoutePolicy) : string := rp_defaultGroup p.
Definition no_pii (v : any) : list string := [].
Definition safe (url : string) : bool := startsWith url "https://".
Definition unit_vector (e : Embedder) (text : string) : option (list num) := Some [num_of_Z 1; nzero].

Definition env : Env :=
  [("PS_SEMANTIC_CACHE_EMBEDDER", "http");
   ("PS_SEMANTIC_CACHE_EMBEDDING_URL", "https://embed.example/v1/embeddings");
   ("PS_SEMANTIC_CACHE_EMBEDDING_MODEL", "embed-1");
   ("PS_SEMANTIC_CACHE_EMBEDDING_JURISDICTION", "DE");
   ("PS_SEMANTIC_CACHE_EMBEDDING_ZDR", "true");
   ("PS_SEMANTIC_CACHE_EMBEDDING_US_CLOUD_ACT_EXPOSURE", "false");
   ("PS_SEMANTIC_CACHE_MAX_SENSITIVITY", "restricted")].

Definition message (role text : string) : json := JObj [("role", JStr role); ("content", JStr text)].

Definition body (text : string) : json :=
  JObj [("model", JStr "m"); ("messages", JArr [message "system" "be brief"; message "user" text])].

Definition ask (scope text : string) : SemanticLookupInput :=
  mkLookupInput "chatComplete" (Some (body text)) [("x-ps-data-classification", "internal")] "0" scope None false.

Definition gated : Ctx := mkCtx (Some SampleGate.gate) None None (Some "alice") [].

Definition look (c : Ctx) (i : SemanticLookupInput) (s : SemanticStore) : Looked :=
  semanticLookup number_text SHA_256 policy_text no_pii safe unit_vector None c i env nzero nzero s.

Definition sent_text (r : Looked) : option string := snd <$> lk_sent r.

Lemma embedder_sees_only_allowed_text_witness :
  sent_text (look gated (ask "s" "how are you") (int_store 10 10000 10)) = Some "how are you" /\
  exists e, remote_complies e SampleGate.gate Sample.eea_rule /\ em_local e = false.
Proof.
  split; [vm_compute; reflexivity|].
  destruct (lk_sent (look gated (ask "s" "how are you") (int_store 10 10000 10))) as [[e text]|] eqn:Hs;
    [|vm_compute in Hs; discriminate].
  pose proof (embedder_sees_only_allowed_text number_text SHA_256 policy_text no_pii safe unit_vector None
    gated (ask "s" "how are you") env nzero nzero (int_store 10 10000 10) e text Hs) as (_ & _ & _ & _ & H & _).
  assert (Hl : em_local e = false) by (vm_compute in Hs; by injection Hs as [= <- _]).
  exists e. split; [|done]. by apply (H SampleGate.gate Sample.eea_rule).
Defined.

Definition ctx0 (rid : nat) : Ctx := mkCtx None None None (Some "alice") [].

Definition history : list Event :=
  [EvLookup 0 (ask "scope a" "how are you") nzero nzero;
   EvWrite 0 "0" (JObj [("answer", JStr "fine")]) (num_of_Z 1)].

Definition served (rid : nat) (i : SemanticLookupInput) : option string :=
  let s := handle_all number_text SHA_256 policy_text no_pii safe unit_vector None env history
             (start ctx0 10 10000 10) in
  sr_responseBody (lk_result (look (pr_ctx s rid) i (pr_store s))).

(** The same caller gets the answer to a similar question, another does not. *)
Example served_to_own_scope :
  served 1 (ask "scope a" "how are you?") = Some (JSON_stringify number_text (JObj [("answer", JStr "fine")])) /\
  served 1 (ask "scope b" "how are you?") = None.
Proof. vm_compute. done. Qed.

Lemma SHA_256_inj a b : SHA_256 a = SHA_256 b -> a = b.
Proof.
  intros H. apply (f_equal String.string_of_list_ascii) in H. unfold SHA_256 in H.
  by rewrite !String.string_of_list_ascii_of_string in H.
Qed.

Lemma semantic_hit_is_same_question_witness :
  exists rid input similarity, rid = 0%nat /\
    asks_alike number_text SHA_256 policy_text no_pii safe unit_vector env ctx0
      1 (ask "scope a" "how are you?") rid input similarity /\
    nleb (num_of_Q 95 100) similarity = true.
Proof.
  destruct (semantic_hit_is_same_question number_text SHA_256 policy_text no_pii safe unit_vector None env
    ltac:(done) ctx0 ltac:(done) 10 10000 10 ltac:(lia) ltac:(lia) ltac:(lia) history
    1 (ask "scope a" "how are you?") nzero nzero
    (JSON_stringify number_text (JObj [("answer", JStr "fine")])))
    as (rid & input & value & n1 & n2 & n3 & similarity & Hin & _ & _ & Hask & Hth & _ & _); [vm_compute; reflexivity| | |].
  - intros rid' input' t t' _ _ H. by apply SHA_256_inj.
  - vm_compute. reflexivity.
  - exists rid, input, similarity. split; [|split; [exact Hask|exact Hth]]. unfold history in Hin.
    apply elem_of_cons in Hin as [[= -> _ _ _]|Hin]; [done|].
    apply elem_of_cons in Hin as [?|?%elem_of_nil]; done.
Defined.

(** Where [confidential] is the lowest level of a policy, the default maximum is
    that level: such calls use the semantic cache. *)
Definition confidential_first : RoutePolicy :=
  mkPolicy None "g" [("g", [])] [] None None
    (Some (mkSensitivity (Some ["confidential"; "restricted"]) "confidential" None)) None None.

Example confidential_is_cached :
  let c := mkCtx None None (Some confidential_first) None [] in
  let cfg := semanticConfig [] in
  sensitivityAllows no_pii c (Some (body "x")) [("x-ps-data-classification", "confidential")] cfg =
  SensitivityOk "confidential" (Some confidential_first) None.
Proof. vm_compute. reflexivity. Qed.
End Samples.
