(* ===== verification/ResponseCache.v ===== *)
(** * The response cache of the gateway

    Models [middlewares/cache/store.ts] (the exact-match store),
    [resolveMode.ts], the rest of [middlewares/cache/index.ts] ([getFromCache],
    [putInCache], which responses may be written, [memoryCache]),
    [handlers/services/cacheService.ts], the cache settings of
    [requestContext.ts], and the entry of the request log that
    [handlers/adapterUtils.ts] rewrites and [memoryCache] reads.

    A process is the two stores and what each request left on its context: the
    scope of each target and the pending semantic writes.  A [Map] is its entries
    in order.  Hashing and [JSON.parse] are parameters; numbers' text too.
    Metrics are the outcome [memoryCache] counts.  Bodies are JSON values
    without [undefined] members, or not JSON ([OtherBody]).

    [simple_hit_is_same_caller]: whatever a process served before, an exact hit
    was written for the same caller, body, endpoint and upstream, from a
    complete, successful answer that is no refusal. *)

From Stdlib Require Import ZArith Lia ZifyBool Ascii Floats.SpecFloat.
From stdpp Require Import base strings option sets list.
From S2P Require Import Prelude JsValue Sorting Doubles RoutePolicy Constraints Router RouterMiddleware.
From S2P Require Import JsText CacheKey RetryHandler SemanticStore SemanticCache.

#[local] Open Scope string_scope.
#[local] Open Scope list_scope.
#[local] Arguments num_of_Z : simpl never.

(** ** [store.ts] *)

Record CacheEntry := mkCacheEntry { ce_responseBody : string; ce_maxAge : option num }.

Record InMemoryLruStore := mkLru { lru_map : obj CacheEntry; lru_maxEntries : num }.

Definition new_lru (maxEntries : num) : InMemoryLruStore := mkLru [] (nmax (num_of_Z 1) maxEntries).

Definition with_map (m : obj CacheEntry) (s : InMemoryLruStore) : InMemoryLruStore :=
  mkLru m (lru_maxEntries s).

Definition expired (now : num) (e : CacheEntry) : bool :=
  match ce_maxAge e with Some t => num_truthy t && nltb t now | None => false end.

Definition lru_get (now : num) (key : string) (s : InMemoryLruStore)
    : option CacheEntry * InMemoryLruStore :=
  match own (lru_map s) key with
  | None => (None, s)
  | Some e =>
      if expired now e then (None, with_map (map_delete (lru_map s) key) s)
      else (Some e, with_map (map_touch (lru_map s) key e) s)
  end.

(** [while (this.map.size > this.maxEntries)] the oldest goes. *)
Fixpoint evict_oldest (maxEntries : num) (m : obj CacheEntry) : obj CacheEntry :=
  match m with
  | [] => []
  | _ :: r => if nltb maxEntries (num_of_Z (Z.of_nat (length m))) then evict_oldest maxEntries r else m
  end.

Definition lru_set (key : string) (value : CacheEntry) (s : InMemoryLruStore) : InMemoryLruStore :=
  with_map (evict_oldest (lru_maxEntries s) (map_touch (lru_map s) key value)) s.

Definition lru_delete (key : string) (s : InMemoryLruStore) : InMemoryLruStore :=
  with_map (map_delete (lru_map s) key) s.

Definition lru_clear (s : InMemoryLruStore) : InMemoryLruStore := with_map [] s.

(** ** [resolveMode.ts] and [requestContext.ts]: the mode of a call *)

Record ResolvedMode := mkMode { rm_mode : string; rm_forceRefresh : bool }.

Definition resolveCacheMode (headers : obj string) (PS_CACHE_DEFAULT : option string) : option ResolvedMode :=
  let raw := toLowerCase (trim (default "" (own headers "x-ps-cache"))) in
  let def := toLowerCase (trim (default "" PS_CACHE_DEFAULT)) in
  if (raw =? "on")%string then Some (mkMode "simple" false)
  else if (raw =? "semantic")%string then Some (mkMode "semantic" false)
  else if (raw =? "off")%string then Some (mkMode "DISABLED" false)
  else if (raw =? "refresh")%string
       then Some (mkMode (if (def =? "semantic")%string then "semantic" else "simple") true)
  else if (def =? "on")%string then Some (mkMode "simple" false)
  else if (def =? "semantic")%string then Some (mkMode "semantic" false)
  else if (def =? "off")%string then Some (mkMode "DISABLED" false)
  else None.

Record CacheSettings := mkSettings {
  cs_mode : string;
  cs_maxAge : option num;
  cs_forceRefresh : bool
}.

(** ** Which responses may be written *)

Module CACHE_STATUS.
Definition HIT : string := "HIT".
Definition MISS : string := "MISS".
Definition REFRESH : string := "REFRESH".
Definition DISABLED : string := "DISABLED".
End CACHE_STATUS.

(** A response of the log: its status, content type and parsed body ([None]
    where [json()] rejects). *)
Record LoggedResponse := mkLogged {
  lr_status : Z;
  lr_contentType : option string;
  lr_json : option json
}.

Definition isCacheableResponse (response : option LoggedResponse) : bool :=
  match response with
  | Some r => (lr_status r =? 200)%Z && includes (default "" (lr_contentType r)) "application/json"
  | None => false
  end.

Definition UNFINISHED_STATUSES : list string :=
  ["incomplete"; "failed"; "cancelled"; "queued"; "in_progress"].

Definition isCompleteResponseBody (body : json) : bool :=
  match body with
  | JObj o =>
      negb (truthy (own o "error")) && negb (strict_eq (own o "type") (JStr "error")) &&
      negb (match own o "status" with Some (JStr s) => mem_string s UNFINISHED_STATUSES | _ => false end)
  | _ => false
  end.

Definition is_refusal_part (p : json) : bool := strict_eq (prop (Some p) "type") (JStr "refusal").

Definition elements_of (v : any) : list json := match v with Some (JArr l) => l | _ => [] end.

Definition refused_choice (ch : json) : bool :=
  match prop (prop (Some ch) "message") "refusal" with
  | Some (JStr s) => truthy_string s
  | _ => false
  end || strict_eq (prop (Some ch) "finish_reason") (JStr "content_filter").

Definition refused_output (o : json) : bool :=
  is_refusal_part o || existsb is_refusal_part (elements_of (prop (Some o) "content")).

Definition isRefusalResponse (body : json) : bool :=
  match body with
  | JObj _ =>
      strict_eq (prop (Some body) "stop_reason") (JStr "refusal") ||
      existsb refused_choice (elements_of (prop (Some body) "choices")) ||
      existsb refused_output (elements_of (prop (Some body) "output")) ||
      existsb is_refusal_part (elements_of (prop (Some body) "content"))
  | _ => false
  end.

Definition DEFAULT_CACHE_TTL_MS : num := num_of_Z (24 * 60 * 60 * 1000).

Definition cacheExpiresAt (maxAgeSeconds : option num) (now : num) : num :=
  let seconds := default NaN maxAgeSeconds in
  if negb (is_finite_num seconds) || nleb seconds nzero then nadd now DEFAULT_CACHE_TTL_MS
  else nadd now (nmul seconds (num_of_Z 1000)).

(** ** The request log *)

Record RequestLog := mkLog {
  rl_body : option request_body;
  rl_response : option LoggedResponse;
  rl_cacheMode : option string;
  rl_cacheMaxAge : option num;
  rl_cacheStatus : option string;
  rl_index : string;
  rl_rubeusURL : string
}.

(** [adaptResponse] on the last entry: the response in the caller's format and
    the endpoint the caller used. *)
Definition adapt_log (newResponse : LoggedResponse) (originalFn : string) (l : RequestLog) : RequestLog :=
  mkLog (rl_body l) (Some newResponse) (rl_cacheMode l) (rl_cacheMaxAge l) (rl_cacheStatus l)
    (rl_index l) originalFn.

Definition body_prop (b : option request_body) (k : string) : any :=
  match b with Some (JsonBody v) => prop (Some v) k | _ => None end.

(** [String(status ?? '').endsWith('HIT')] *)
Definition is_hit (status : option string) : bool := startsWith (srev (default "" status)) "TIH".

(** ** Reading and writing *)

(** A target of a request, as [getCachedResponse] sees it. *)
Record Target := mkCacheTarget {
  tq_endpoint : string;
  tq_settings : CacheSettings;
  tq_provider : option string;
  tq_providerOption : option (obj json);
  tq_requestHeaders : obj string;
  tq_fetchHeaders : obj string;
  tq_requestURL : option string;
  tq_forwardHeaders : option (list string);
  tq_body : option request_body;
  tq_params : any;
  tq_index : string
}.

Definition scope_input (q : Target) : CacheScopeInput :=
  mkScopeInput (tq_provider q) (tq_providerOption q) (Some (tq_requestHeaders q)) (Some (tq_endpoint q))
    (tq_requestURL q) (tq_forwardHeaders q).

Definition NON_CACHE_ENDPOINTS : list string :=
  ["uploadFile"; "listFiles"; "retrieveFile"; "deleteFile"; "retrieveFileContent"; "createBatch";
   "retrieveBatch"; "cancelBatch"; "listBatches"; "getBatchOutput"; "listFinetunes"; "createFinetune";
   "retrieveFinetune"; "cancelFinetune"; "imageEdit"; "cancelModelResponse"].

Definition isEndpointCacheable (endpoint : string) : bool := negb (mem_string endpoint NON_CACHE_ENDPOINTS).

(** [[body, status, key]] *)
Record Found := mkFound { fd_body : option string; fd_status : string; fd_key : option string }.

Record CacheResponseObject := mkCacheResponse {
  cr_response : option (string * Z);
  cr_status : string;
  cr_key : option string
}.

Definition noCacheObject : CacheResponseObject := mkCacheResponse None CACHE_STATUS.DISABLED None.

(** The last entry of the log. *)
Definition last_log (logs : list RequestLog) : option RequestLog := last logs.

(** What [memoryCache] counts. *)
Inductive WriteOutcome := WroteStored | WroteTooLarge | WroteIncomplete | WroteRefusal | WroteError.

(** The stores of the process. *)
Record Stores := mkStores { st_simple : InMemoryLruStore; st_semantic : SemanticStore }.

Section ResponseCache.
Variable number_text : num -> string.
Variable SHA_256 : string -> list ascii.
Variable JSON_parse : string -> option json.
Variable PS_CACHE_DEFAULT : option string.

(** [parseInt(x.toString())] *)
Definition parse_max_age (v : json) : num :=
  match v with
  | JNum n => match parseInt (json_number number_text n) with Some z => num_of_Z z | None => NaN end
  | JStr s => match parseInt s with Some z => num_of_Z z | None => NaN end
  | _ => NaN
  end.

(** [get cacheConfig()] *)
Definition cacheConfig (headers : obj string) (cache : any) : CacheSettings :=
  match resolveCacheMode headers PS_CACHE_DEFAULT with
  | Some r => mkSettings (rm_mode r) None (rm_forceRefresh r)
  | None =>
      match cache with
      | Some (JObj o) =>
          match own o "mode" with
          | Some (JStr m) =>
              if truthy_string m
              then mkSettings m (if truthy (own o "maxAge") then parse_max_age <$> own o "maxAge" else None) false
              else mkSettings "DISABLED" None false
          | _ => mkSettings "DISABLED" None false
          end
      | Some (JStr m) => mkSettings m None false
      | _ => mkSettings "DISABLED" None false
      end
  end.

Definition FORCE_REFRESH : string := "x-portkey-cache-force-refresh".

Definition getFromCache (requestHeaders : obj string) (requestBody : option request_body) (url : string)
    (cacheScope : string) (now : num) (s : InMemoryLruStore) : Found * InMemoryLruStore :=
  if negb (truthy_string cacheScope) then (mkFound None CACHE_STATUS.DISABLED None, s)
  else if hasOwn requestHeaders FORCE_REFRESH then (mkFound None CACHE_STATUS.REFRESH None, s)
  else if negb (isCacheableBody requestBody) then (mkFound None CACHE_STATUS.DISABLED None, s)
  else match requestBody with
       | Some (JsonBody v) =>
           let cacheKey := getCacheKey number_text SHA_256 v url cacheScope in
           let '(entry, s') := lru_get now cacheKey s in
           (match entry with
            | Some e => mkFound (Some (ce_responseBody e)) CACHE_STATUS.HIT (Some cacheKey)
            | None => mkFound None CACHE_STATUS.MISS None
            end, s')
       | _ => (mkFound None CACHE_STATUS.DISABLED None, s)
       end.

Definition putInCache (requestBody : option request_body) (responseBody : json) (url : string)
    (cacheMaxAge : num) (cacheScope : string) (s : InMemoryLruStore) : InMemoryLruStore :=
  if negb (truthy_string cacheScope) then s
  else if negb (isCacheableBody requestBody) || strict_eq (body_prop requestBody "stream") (JBool true) then s
  else match requestBody with
       | Some (JsonBody v) =>
           lru_set (getCacheKey number_text SHA_256 v url cacheScope)
             (mkCacheEntry (JSON_stringify number_text responseBody) (Some cacheMaxAge)) s
       | _ => s
       end.

(** [memoryCache] after the handler: [now] is read for the expiry, [now2] by the
    semantic store. *)
Definition memoryCache (logs : list RequestLog) (scopes : obj string) (pending : obj Pending)
    (now now2 : num) (s : Stores) : option WriteOutcome * Stores :=
  match last_log logs with
  | None => (None, s)
  | Some l =>
      let mode := default "" (rl_cacheMode l) in
      if strict_eq (body_prop (rl_body l) "stream") (JBool true) ||
         (negb (mode =? "simple")%string && negb (mode =? "semantic")%string) ||
         negb (isCacheableResponse (rl_response l))
      then (None, s)
      else
        let cacheScope := default "" (own scopes (rl_index l)) in
        if negb (truthy_string cacheScope) then (None, s) else
        match (match rl_response l with Some r => lr_json r | None => None end) with
        | None => (Some WroteError, s)
        | Some parsed =>
            if negb (isCompleteResponseBody parsed) then (Some WroteIncomplete, s)
            else if isRefusalResponse parsed then (Some WroteRefusal, s)
            else if (mode =? "semantic")%string then
              let '(outcome, store) := semanticStore number_text pending (rl_index l) parsed now2 (st_semantic s) in
              (match outcome with
               | Stored => Some WroteStored
               | TooLarge => Some WroteTooLarge
               | NoLookup => None
               end, mkStores (st_simple s) store)
            else
              (if is_hit (rl_cacheStatus l) then None else Some WroteStored,
               mkStores (putInCache (rl_body l) parsed (rl_rubeusURL l) (cacheExpiresAt (rl_cacheMaxAge l) now)
                           cacheScope (st_simple s)) (st_semantic s))
        end
  end.

(** [getCachedResponse]: the simple or the semantic read, the results of the
    before-request hooks merged into a hit.  [semantic] is the lookup of
    [SemanticCache]. *)
Variable semantic : Target -> string -> SemanticStore -> SemanticResult * SemanticStore.

Definition hook_merged (body : string) (brhResults : list json) : option string :=
  match JSON_parse body with
  | Some (JObj o) =>
      Some (JSON_stringify number_text
        (JObj (obj_put o "hook_results" (JObj [("before_request_hooks", JArr brhResults)]))))
  | _ => None
  end.

Definition read_cache (q : Target) (cacheScope : string) (now : num) (s : Stores) : Found * Stores :=
  let cfg := tq_settings q in
  if (cs_mode cfg =? "semantic")%string then
    let '(r, store) := semantic q cacheScope (st_semantic s) in
    (mkFound (sr_responseBody r) (sr_status r) (sr_key r), mkStores (st_simple s) store)
  else
    let headers := obj_spread (tq_requestHeaders q)
      (obj_spread (tq_fetchHeaders q) (if cs_forceRefresh cfg then [(FORCE_REFRESH, "true")] else [])) in
    let '(f, store) := getFromCache headers (tq_body q) (tq_endpoint q) cacheScope now (st_simple s) in
    (f, mkStores store (st_semantic s)).

Definition getCachedResponse (q : Target) (brhResults : list json) (failedHooks : bool) (now : num)
    (scopes : obj string) (s : Stores) : option CacheResponseObject * obj string * Stores :=
  let cfg := tq_settings q in
  if negb (isEndpointCacheable (tq_endpoint q)) || negb (truthy_string (cs_mode cfg)) ||
     (cs_mode cfg =? "DISABLED")%string
  then (Some noCacheObject, scopes, s)
  else
    let cacheScope := computeCacheScope number_text SHA_256 (scope_input q) in
    let scopes := obj_put scopes (tq_index q) cacheScope in
    let '(f, s) := read_cache q cacheScope now s in
    if negb (truthy_opt (fd_body f)) then
      (Some (mkCacheResponse None
               (if truthy_string (fd_status f) then fd_status f else CACHE_STATUS.DISABLED)
               (if truthy_opt (fd_key f) then fd_key f else None)), scopes, s)
    else
      let body := default "" (fd_body f) in
      match brhResults with
      | [] => (Some (mkCacheResponse (Some (body, 200%Z)) (fd_status f) (fd_key f)), scopes, s)
      | _ =>
          (match hook_merged body brhResults with
           | Some merged =>
               Some (mkCacheResponse (Some (merged, if failedHooks then 246%Z else 200%Z)) (fd_status f) (fd_key f))
           | None => None
           end, scopes, s)
      end.
End ResponseCache.

(** ** The exact-match store *)

Section Lru.

Lemma evict_oldest_suffix n m : exists pre, m = pre ++ evict_oldest n m.
Proof.
  induction m as [|p m IH]; [by exists []|]. cbn [evict_oldest].
  case_match; [|by exists []]. destruct IH as [pre IH]. exists (p :: pre). simpl. by rewrite <- IH.
Qed.

Lemma evict_oldest_elem n m p : p ∈ evict_oldest n m -> p ∈ m.
Proof.
  destruct (evict_oldest_suffix n m) as [pre Hm]. intros Hp. rewrite Hm. apply elem_of_app. by right.
Qed.

Lemma map_touch_elem {A} (m : obj A) k v p : p ∈ map_touch m k v -> p ∈ m \/ p = (k, v).
Proof.
  unfold map_touch, map_delete. intros [[H _]%filter_elem|H%list_elem_of_singleton]%elem_of_app; auto.
Qed.

Lemma lru_get_elem now k s p : p ∈ lru_map (lru_get now k s).2 -> p ∈ lru_map s.
Proof.
  unfold lru_get. destruct (own (lru_map s) k) as [e|] eqn:He; [|done].
  destruct (expired now e); simpl.
  - unfold map_delete. by intros [? _]%filter_elem.
  - intros [?| ->]%map_touch_elem; [done|]. by apply own_In.
Qed.

Lemma lru_set_elem k v s p : p ∈ lru_map (lru_set k v s) -> p ∈ lru_map s \/ p = (k, v).
Proof. intros H%evict_oldest_elem. by apply map_touch_elem. Qed.

Lemma lru_get_Some now k s e s' : lru_get now k s = (Some e, s') -> (k, e) ∈ lru_map s /\ expired now e = false.
Proof.
  unfold lru_get. destruct (own (lru_map s) k) as [x|] eqn:He; [|done].
  destruct (expired now x) eqn:Hx; [done|]. intros [= <- _]. split; [by apply own_In|done].
Qed.

Lemma evict_keeps_last m p N : (1 <= N < 2 ^ 53)%Z -> (Z.of_nat (length (m ++ [p])) < 2 ^ 53)%Z ->
  (Z.of_nat (length (evict_oldest (num_of_Z N) (m ++ [p]))) <= N)%Z /\
  exists l, evict_oldest (num_of_Z N) (m ++ [p]) = l ++ [p].
Proof.
  intros HN. induction m as [|x m IH]; intros Hl; cbn [app evict_oldest].
  - change (Z.of_nat (length [p])) with 1%Z. rewrite nltb_ints by lia.
    replace (N <? 1)%Z with false by lia. split; [simpl; lia|by exists []].
  - change (x :: m ++ [p]) with ((x :: m) ++ [p]). rewrite nltb_ints by lia.
    destruct (Z.ltb_spec N (Z.of_nat (length ((x :: m) ++ [p])))); [|split; [done|by exists (x :: m)]].
    apply IH. simpl in Hl. lia.
Qed.

(** The store is a bounded map with expiry: keys stay unique, a written
    entry is found until its expiry, a read takes nothing else away, and after a
    write there are no more entries than the limit, unless the limit is not a
    number, when nothing is ever evicted. *)
Theorem lru_operations s k v (N : Z) :
  NoDup (obj_keys (lru_map s)) -> (1 <= N < 2 ^ 53)%Z -> (Z.of_nat (length (lru_map s)) < 2 ^ 53 - 1)%Z ->
  lru_maxEntries s = num_of_Z N ->
  let s1 := lru_set k v s in
  NoDup (obj_keys (lru_map s1)) /\ (Z.of_nat (length (lru_map s1)) <= N)%Z /\
  own (lru_map s1) k = Some v /\
  (forall now, (lru_get now k s1).1 = if expired now v then None else Some v) /\
  (forall now q, q <> k -> own (lru_map (lru_get now k s1).2) q = own (lru_map s1) q).
Proof.
  intros Hnd HN Hlen HmN s1.
  assert (Hdel : NoDup (obj_keys (map_delete (lru_map s) k))) by by apply NoDup_map_delete.
  assert (Hdl : (length (map_delete (lru_map s) k) <= length (lru_map s))%nat) by apply length_filter_bool.
  destruct (evict_keeps_last (map_delete (lru_map s) k) (k, v) N) as [Hbound [l Hl]];
    [done|rewrite length_app; simpl; lia|].
  assert (Hs1 : lru_map s1 = l ++ [(k, v)]) by (unfold s1, lru_set; simpl; by rewrite HmN).
  assert (Hnd1 : NoDup (obj_keys (lru_map s1))).
  { rewrite Hs1. pose proof (NoDup_map_touch (lru_map s) k v Hnd) as Ht.
    destruct (evict_oldest_suffix (num_of_Z N) (map_touch (lru_map s) k v)) as [pre Hpre].
    unfold map_touch in Hpre at 2. rewrite Hl in Hpre. rewrite Hpre in Ht.
    unfold obj_keys in Ht. rewrite map_app in Ht. by apply NoDup_app in Ht as (_ & _ & ?). }
  assert (Hown : own (lru_map s1) k = Some v).
  { apply own_of_In; [done|]. rewrite Hs1. apply elem_of_app. right. by apply list_elem_of_singleton. }
  split_and!; [done|rewrite Hs1, <- Hl; done|done| |].
  - intros now. unfold lru_get. rewrite Hown. by destruct (expired now v).
  - intros now q Hq. unfold lru_get. rewrite Hown. destruct (expired now v); simpl.
    + by apply own_map_delete.
    + rewrite own_map_touch. apply String.eqb_neq in Hq. by rewrite Hq.
Qed.
End Lru.

(** A limit that is not a number (an unreadable PS_CACHE_MAX_ENTRIES) never
    evicts: the store grows with every new key. *)
Lemma unreadable_limit_never_evicts m : evict_oldest (lru_maxEntries (new_lru NaN)) m = m.
Proof. by destruct m. Qed.

(** ** A process *)

Section Process.
Variable number_text : num -> string.
Variable SHA_256 : string -> list ascii.
Variable JSON_parse : string -> option json.
Variable semantic : Target -> string -> SemanticStore -> SemanticResult * SemanticStore.
Hypothesis number_plain : forall n, sforallb plain_char (number_text n) = true.

#[local] Abbreviation get_cached := (getCachedResponse number_text SHA_256 JSON_parse semantic).
#[local] Abbreviation scope_of q := (computeCacheScope number_text SHA_256 (scope_input q)).
#[local] Abbreviation scope_text q := (canonicalJSON number_text (scope_object number_text (scope_input q))).
#[local] Abbreviation key_of := (getCacheKey number_text SHA_256).

(** A request reads the cache for a target, or has been answered. *)
Inductive Event :=
| EvTarget (rid : nat) (q : Target) (brhResults : list json) (failedHooks : bool) (now : num)
| EvDone (rid : nat) (logs : list RequestLog) (pending : obj Pending) (now now2 : num).

Record Process := mkProcess { pr_stores : Stores; pr_scopes : nat -> obj string }.

Definition set_scopes (rid : nat) (scopes : obj string) (f : nat -> obj string) : nat -> obj string :=
  fun r => if Nat.eqb r rid then scopes else f r.

Definition handle (s : Process) (ev : Event) : Process :=
  match ev with
  | EvTarget rid q brh failed now =>
      let '(_, scopes, stores) := get_cached q brh failed now (pr_scopes s rid) (pr_stores s) in
      mkProcess stores (set_scopes rid scopes (pr_scopes s))
  | EvDone rid logs pending now now2 =>
      mkProcess (memoryCache number_text SHA_256 logs (pr_scopes s rid) pending now now2 (pr_stores s)).2 (pr_scopes s)
  end.

Definition handle_all (evs : list Event) (s : Process) : Process := foldl handle s evs.

Definition start (maxEntries : num) (store : SemanticStore) : Process :=
  mkProcess (mkStores (new_lru maxEntries) store) (fun _ => []).

(** A target of the request [rid], and its log. *)
Definition targeted (evs : list Event) (rid : nat) (q : Target) : Prop :=
  exists brh failed now, EvTarget rid q brh failed now ∈ evs.

Definition finished (evs : list Event) (rid : nat) (l : RequestLog) : Prop :=
  exists logs pending now now2, EvDone rid logs pending now now2 ∈ evs /\ last_log logs = Some l.

(** The answer in a log that may be stored: a 200 in JSON that is complete and
    no refusal. *)
Record storable (l : RequestLog) (value : json) : Prop := mkStorable {
  so_response : exists r, rl_response l = Some r /\ lr_status r = 200%Z /\ lr_json r = Some value;
  so_complete : isCompleteResponseBody value = true;
  so_no_refusal : isRefusalResponse value = false
}.

(** What an entry of the exact store comes from. *)
Definition entry_source (evs : list Event) (k : string) (e : CacheEntry) : Prop :=
  exists rid l value v q, finished evs rid l /\ storable l value /\ rl_body l = Some (JsonBody v) /\
    isCacheableBody (rl_body l) = true /\ targeted evs rid q /\ tq_index q = rl_index l /\
    k = key_of v (rl_rubeusURL l) (scope_of q) /\ ce_responseBody e = JSON_stringify number_text value.

Record Hist (evs : list Event) (s : Process) : Prop := mkHist {
  hs_scopes : forall rid index sc, own (pr_scopes s rid) index = Some sc ->
    exists q, targeted evs rid q /\ tq_index q = index /\ sc = scope_of q;
  hs_entries : forall k e, (k, e) ∈ lru_map (st_simple (pr_stores s)) -> entry_source evs k e
}.

Lemma targeted_more evs evs' rid q : targeted evs rid q -> targeted (evs ++ evs') rid q.
Proof. intros (b & f & n & H). exists b, f, n. apply elem_of_app. by left. Qed.

Lemma entry_source_mono evs evs' k e : entry_source evs k e -> entry_source (evs ++ evs') k e.
Proof.
  intros (rid & l & value & v & q & (lg & pd & n & n2 & Hin & Hl) & H1 & H2 & H3 & Ht & H4 & H5 & H6).
  exists rid, l, value, v, q. split_and!; try done; [|by apply targeted_more].
  exists lg, pd, n, n2. split; [apply elem_of_app; by left|done].
Qed.

Lemma getFromCache_elem headers body url scope now s p :
  p ∈ lru_map (getFromCache number_text SHA_256 headers body url scope now s).2 -> p ∈ lru_map s.
Proof.
  unfold getFromCache. destruct (negb (truthy_string scope)); [done|].
  destruct (hasOwn _ _); [done|]. destruct (negb (isCacheableBody body)); [done|].
  destruct body as [[v|]|]; [|done..].
  pose proof (lru_get_elem now (key_of v url scope) s p) as H. by destruct (lru_get _ _ _) as [[e|] s'].
Qed.

Lemma read_cache_elem q scope now s p :
  p ∈ lru_map (st_simple (read_cache number_text SHA_256 semantic q scope now s).2) ->
  p ∈ lru_map (st_simple s).
Proof.
  unfold read_cache. destruct (_ =? _)%string; [by destruct (semantic _ _ _)|].
  set (hd := obj_spread _ _).
  pose proof (getFromCache_elem hd (tq_body q) (tq_endpoint q) scope now (st_simple s) p) as H.
  by destruct (getFromCache _ _ _ _ _ _ _ _) as [f s'].
Qed.

(** Reading keeps the entries and records the target's scope. *)
Lemma get_cached_spec q brh failed now scopes s r scopes' s' :
  get_cached q brh failed now scopes s = (r, scopes', s') ->
  (forall p, p ∈ lru_map (st_simple s') -> p ∈ lru_map (st_simple s)) /\
  (scopes' = scopes \/ scopes' = obj_put scopes (tq_index q) (scope_of q)).
Proof.
  unfold getCachedResponse. destruct (_ || _); [intros [= _ <- <-]; tauto|].
  pose proof (read_cache_elem q (scope_of q) now s) as Hsub.
  destruct (read_cache _ _ _ q _ now s) as [f s1]. simpl in Hsub. intros Hres.
  assert (Hs : scopes' = obj_put scopes (tq_index q) (scope_of q) /\ s' = s1).
  { destruct (negb (truthy_opt (fd_body f))); [by injection Hres as [= _ <- <-]|].
    destruct brh; by injection Hres as [= _ <- <-]. }
  destruct Hs as [-> ->]. split; [done|by right].
Qed.

(** What is written comes from the log's answer. *)
Lemma memoryCache_elem logs scopes pending now now2 s k e :
  (k, e) ∈ lru_map (st_simple (memoryCache number_text SHA_256 logs scopes pending now now2 s).2) ->
  (k, e) ∈ lru_map (st_simple s) \/
  exists l value v sc, last_log logs = Some l /\ storable l value /\ rl_body l = Some (JsonBody v) /\
    isCacheableBody (rl_body l) = true /\ own scopes (rl_index l) = Some sc /\
    k = key_of v (rl_rubeusURL l) sc /\ ce_responseBody e = JSON_stringify number_text value.
Proof.
  unfold memoryCache. destruct (last_log logs) as [l|]; [|by left].
  destruct (_ || negb (isCacheableResponse _)) eqn:Hc; [by left|].
  apply orb_false_iff in Hc as [_ Hc]. apply negb_false_iff in Hc.
  destruct (negb (truthy_string _)) eqn:Hsc; [by left|].
  destruct (own scopes (rl_index l)) as [sc|] eqn:Hown; [|done]. simpl in *.
  destruct (rl_response l) as [r|] eqn:Hr; [|by left]. destruct (lr_json r) as [value|] eqn:Hj; [|by left].
  destruct (isCompleteResponseBody value) eqn:Hcomp; simpl; [|by left].
  destruct (isRefusalResponse value) eqn:Href; simpl; [by left|].
  destruct (_ =? "semantic")%string; [destruct (semanticStore _ _ _ _ _ _); by left|]. simpl.
  unfold putInCache. destruct (negb (truthy_string sc)); [by left|].
  destruct (negb (isCacheableBody (rl_body l))) eqn:Hb; [by left|]. simpl.
  destruct (strict_eq _ _); [by left|]. apply negb_false_iff in Hb.
  destruct (rl_body l) as [[v|]|] eqn:Hbody; [|by left..].
  intros [?|[= -> ->]]%lru_set_elem; [by left|right]. exists l, value, v, sc.
  simpl in Hc. apply andb_prop in Hc as [Hst _]. apply Z.eqb_eq in Hst.
  split_and!; try done; try (by rewrite Hbody). constructor; [by exists r|done..].
Qed.

Lemma handle_history evs s ev : Hist evs s -> Hist (evs ++ [ev]) (handle s ev).
Proof.
  intros [Hsc Hent].
  assert (Hlast : ev ∈ evs ++ [ev]) by (apply elem_of_app; right; by apply list_elem_of_singleton).
  assert (Hsc' : forall rid index sc, own (pr_scopes s rid) index = Some sc ->
    exists q, targeted (evs ++ [ev]) rid q /\ tq_index q = index /\ sc = scope_of q).
  { intros rid index sc H. destruct (Hsc _ _ _ H) as (q & Hq & H'). exists q. split; [by apply targeted_more|done]. }
  destruct ev as [rid q brh failed now|rid logs pending now now2]; cbn [handle].
  - destruct (get_cached q brh failed now (pr_scopes s rid) (pr_stores s)) as [[r scopes'] s'] eqn:Hg.
    apply get_cached_spec in Hg as [Hsub Hscopes]. constructor; simpl.
    + intros rid' index sc. unfold set_scopes. destruct (Nat.eqb_spec rid' rid) as [->|]; [|by apply Hsc'].
      destruct Hscopes as [-> | ->]; [by apply Hsc'|]. rewrite own_put.
      destruct (String.eqb_spec index (tq_index q)) as [->|]; [|by apply Hsc'].
      intros [= <-]. exists q. split; [by exists brh, failed, now|done].
    + intros k e He%Hsub. by apply entry_source_mono, Hent.
  - constructor; simpl; [done|]. intros k e He.
    apply memoryCache_elem in He as [He|(l & value & v & sc & Hl & Hst & Hb & Hcb & Hsc2 & Hk & Hbody)];
      [by apply entry_source_mono, Hent|].
    destruct (Hsc' _ _ _ Hsc2) as (q & Hq & Hi & ->). exists rid, l, value, v, q.
    split_and!; try done. by exists logs, pending, now, now2.
Qed.

Lemma process_history evs n store : Hist evs (handle_all evs (start n store)).
Proof.
  unfold handle_all. induction evs as [|ev evs IH] using rev_ind.
  - constructor; simpl; [done|]. by intros k e ?%elem_of_nil.
  - rewrite foldl_app. by apply handle_history.
Qed.

(** The texts hashed by a process and by one more read. *)
Inductive hashed (evs : list Event) (q : Target) : string -> Prop :=
| hashed_scope rid q' : q' = q \/ targeted evs rid q' -> hashed evs q (scope_text q')
| hashed_read v : tq_body q = Some (JsonBody v) ->
    hashed evs q (key_text number_text v (tq_endpoint q) (scope_of q))
| hashed_write rid q' l v : targeted evs rid q' -> finished evs rid l -> rl_body l = Some (JsonBody v) ->
    hashed evs q (key_text number_text v (rl_rubeusURL l) (scope_of q')).

Definition plain_endpoint (u : string) : bool := sforallb (fun c => negb (is_close c)) u.

(** Endpoint names have no closing brackets. *)
Definition event_ok (ev : Event) : bool :=
  match ev with
  | EvTarget _ _ _ _ _ => true
  | EvDone _ logs _ _ _ => forallb (fun l => plain_endpoint (rl_rubeusURL l)) logs
  end.

Lemma finished_plain evs rid l : forallb event_ok evs = true -> finished evs rid l ->
  plain_endpoint (rl_rubeusURL l) = true.
Proof.
  intros Hok (logs & pd & n & n2 & Hin & Hl). rewrite forallb_forall in Hok.
  specialize (Hok _ (proj1 (list_elem_of_In _ _) Hin)). simpl in Hok. rewrite forallb_forall in Hok.
  apply Hok. apply last_Some_elem_of in Hl. by apply list_elem_of_In.
Qed.

(** A hit of the exact cache for the target [q]. *)
Definition simple_hit (s : Process) (q : Target) (now : num) (body : string) : Prop :=
  (cs_mode (tq_settings q) =? "semantic")%string = false /\
  fd_body (read_cache number_text SHA_256 semantic q (scope_of q) now (pr_stores s)).1 = Some body.

(** [C15] An exact hit belongs to its caller: whatever requests a process served
    before, the body a target hits was the complete, successful, non-refusing
    answer of an earlier request with the same body, endpoint and upstream URL,
    whose credential headers, identity options and forwarded headers are the
    same.  The digest is assumed not to collide on the texts hashed. *)
Theorem simple_hit_is_same_caller evs n store q now body :
  forallb event_ok evs = true -> plain_endpoint (tq_endpoint q) = true ->
  (forall a b, hashed evs q a -> hashed evs q b -> collision_free SHA_256 a b) ->
  simple_hit (handle_all evs (start n store)) q now body ->
  exists rid q' l value v v', targeted evs rid q' /\ finished evs rid l /\ tq_index q' = rl_index l /\
    storable l value /\ body = JSON_stringify number_text value /\
    tq_body q = Some (JsonBody v) /\ rl_body l = Some (JsonBody v') /\
    JSON_stringify number_text v = JSON_stringify number_text v' /\ tq_endpoint q = rl_rubeusURL l /\
    same_caller number_text (scope_input q) (scope_input q').
Proof.
  intros Hok Hplain Hfree [Hmode Hhit].
  destruct (process_history evs n store) as [_ Hent]. set (s := handle_all evs (start n store)) in *.
  revert Hhit. unfold read_cache. rewrite Hmode. set (hd := obj_spread _ _). unfold getFromCache.
  destruct (negb (truthy_string _)); [done|]. destruct (hasOwn _ _); [done|].
  destruct (isCacheableBody (tq_body q)) eqn:Hcb; simpl; [|done].
  destruct (tq_body q) as [[v|]|] eqn:Hb; [|done..].
  destruct (lru_get now _ _) as [[e|] s'] eqn:Hg; [|done]. simpl. intros [= <-].
  apply lru_get_Some in Hg as [Hin _]. destruct (Hent _ _ Hin) as
    (rid & l & value & v' & q' & Hfin & Hst & Hb' & Hcb' & Ht & Hi & Hk & ->).
  rewrite Hb' in Hcb'. apply same_key_same_caller in Hk as (Hj & Hu & Hsame); try done.
  - exists rid, q', l, value, v, v'. by split_and!.
  - by eapply finished_plain.
  - apply Hfree; [by constructor|by econstructor].
  - apply Hfree; econstructor; [by left|by right].
  Unshelve. all: exact 0%nat.
Qed.
End Process.

(** ** Examples *)

Module Samples.
Definition number_text (n : num) : string := "1".
Definition SHA_256 (s : string) : list ascii := String.list_ascii_of_string s.
Definition JSON_parse (s : string) : option json := None.
Definition no_semantic (q : Target) (scope : string) (s : SemanticStore) : SemanticResult * SemanticStore :=
  (bypass "no_embedder", s).

Definition chat_body : json := JObj [("model", JStr "gpt-4o"); ("input", JStr "hi")].

Definition target (mode apiKey : string) : Target :=
  mkCacheTarget "chatComplete" (mkSettings mode None false) (Some "openai")
    (Some [("provider", JStr "openai"); ("apiKey", JStr apiKey)])
    [("authorization", "Bearer " +:+ apiKey)] [] (Some "https://api.openai.com/v1/chat/completions") None
    (Some (JsonBody chat_body)) (Some chat_body) "0".

Definition answer : json := JObj [("id", JStr "1"); ("choices", JArr [])].

Definition log_of (mode : string) (value : json) : RequestLog :=
  mkLog (Some (JsonBody chat_body)) (Some (mkLogged 200 (Some "application/json") (Some value)))
    (Some mode) None (Some "MISS") "0" "chatComplete".

Definition events : list Event :=
  [EvTarget 0 (target "simple" "key-a") [] false (num_of_Z 1);
   EvDone 0 [log_of "simple" answer] [] (num_of_Z 2) (num_of_Z 2)].

Definition served : Process :=
  handle_all number_text SHA_256 JSON_parse no_semantic events (start (num_of_Z 10) (int_store 1 1 1)).

Definition read (q : Target) : option string :=
  fd_body (read_cache number_text SHA_256 no_semantic q
             (computeCacheScope number_text SHA_256 (scope_input q)) (num_of_Z 3) (pr_stores served)).1.

Example hit_and_miss :
  read (target "simple" "key-a") = Some (JSON_stringify number_text answer) /\
  read (target "simple" "key-b") = None.
Proof. vm_compute. done. Qed.

Lemma text_digest_inj a b : SHA_256 a = SHA_256 b -> a = b.
Proof.
  intros H. apply (f_equal String.string_of_list_ascii) in H. unfold SHA_256 in H.
  by rewrite !String.string_of_list_ascii_of_string in H.
Qed.

Lemma simple_hit_is_same_caller_witness :
  exists rid q', targeted events rid q' /\
    same_caller number_text (scope_input (target "simple" "key-a")) (scope_input q').
Proof.
  destruct (simple_hit_is_same_caller number_text SHA_256 JSON_parse no_semantic ltac:(done)
    events (num_of_Z 10) (int_store 1 1 1) (target "simple" "key-a") (num_of_Z 3)
    (JSON_stringify number_text answer)) as (rid & q' & l & value & v & v' & Ht & H);
    [vm_compute; reflexivity|vm_compute; reflexivity| | |].
  - intros a b _ _ H. by apply text_digest_inj.
  - split; [reflexivity|vm_compute; reflexivity].
  - exists rid, q'. split; [done|apply H].
Defined.

Lemma lru_operations_witness :
  own (lru_map (lru_set "b" (mkCacheEntry "y" None)
                  (lru_set "a" (mkCacheEntry "x" None) (new_lru (num_of_Z 1))))) "b" =
    Some (mkCacheEntry "y" None) /\
  length (lru_map (lru_set "b" (mkCacheEntry "y" None)
                     (lru_set "a" (mkCacheEntry "x" None) (new_lru (num_of_Z 1))))) = 1%nat.
Proof.
  split; [|vm_compute; reflexivity].
  apply (lru_operations (lru_set "a" (mkCacheEntry "x" None) (new_lru (num_of_Z 1))) "b"
    (mkCacheEntry "y" None) 1); [apply (bool_decide_unpack _); vm_compute; done|lia|vm_compute; done|reflexivity].
Defined.

(** *** A Messages request served through chat completions

    [adaptResponse] puts the answer in the Messages format into the log, with
    the caller's endpoint, before [memoryCache] reads it. *)
Definition messages_answer : json := JObj [("type", JStr "message"); ("role", JStr "assistant")].

Definition adapted (mode : string) : RequestLog :=
  adapt_log (mkLogged 200 (Some "application/json") (Some messages_answer)) "messages" (log_of mode answer).

(** The exact cache writes it under the caller's endpoint, where the adapted
    request never looks. *)
Example adapted_answer_is_never_hit :
  let s := handle_all number_text SHA_256 JSON_parse no_semantic
    [EvTarget 0 (target "simple" "key-a") [] false (num_of_Z 1);
     EvDone 0 [adapted "simple"] [] (num_of_Z 2) (num_of_Z 2)]
    (start (num_of_Z 10) (int_store 1 1 1)) in
  let q := target "simple" "key-a" in
  length (lru_map (st_simple (pr_stores s))) = 1%nat /\
  fd_body (read_cache number_text SHA_256 no_semantic q
    (computeCacheScope number_text SHA_256 (scope_input q)) (num_of_Z 3) (pr_stores s)).1 = None.
Proof. vm_compute. done. Qed.

(** The semantic cache writes it to the partition of the endpoint that was
    called, so the next chat completion hits a Messages body. *)
Definition first_look : Looked :=
  SemanticCache.Samples.look (mkCtx None None None None []) (SemanticCache.Samples.ask "scope" "hi")
    (int_store 10 10000 10).

Definition after_write : Stores :=
  (memoryCache number_text SHA_256 [adapted "semantic"] [("0", "scope")] (lk_pending first_look)
     (num_of_Z 1) (num_of_Z 1) (mkStores (new_lru (num_of_Z 10)) (lk_store first_look))).2.

Lemma adapted_answer_served_as_chat :
  sr_status (lk_result first_look) = SEMANTIC_STATUS.MISS /\
  sr_responseBody (lk_result (SemanticCache.Samples.look (mkCtx None None None None [])
    (SemanticCache.Samples.ask "scope" "hi") (st_semantic after_write))) =
  Some (JSON_stringify number_text messages_answer).
Proof. vm_compute. done. Qed.
End Samples.
