(* ===== verification/Hooks.v ===== *)
(** * Guardrail hooks

    Models [middlewares/hooks/index.ts] ([HookSpan], [HooksManager]),
    [hooks/types.ts], [hooks/globals.ts], and what the handlers make of the
    outcome: [beforeRequestHookHandler] ([handlers/handlerUtils.ts]) and
    [afterRequestHookHandler] ([handlers/responseHandlers.ts]).

    A check calls a plugin and waits.  [executeHooks] starts every hook, then
    each answer of a plugin is one step ([settle]): it may come for any check
    that is running, in any order, and its value is the environment's choice
    ([Outcome], thrown errors included), so nothing is assumed about what a
    plugin reads of the shared context meanwhile.  A step runs the hook on to its
    next wait or to its end.  Times and log lines are left out.

    [hooks_answer_outcomes]: the results and the decision depend only on the
    checks' outcomes, not on their order, and are those of a sequential reference;
    an exception outside a check makes the whole call answer "no denial".
    [denied_iff_a_check_fails]: when a request is denied, exactly.
    [hooks_terminate]: a run ends, and cannot get stuck before the answer. *)

From Stdlib Require Import ZArith Lia ZifyBool Ascii Floats.SpecFloat.
From stdpp Require Import base strings option sets list.
From S2P Require Import Prelude Transitions JsValue JsText.

#[local] Open Scope string_scope.
#[local] Open Scope list_scope.

(** ** Data ([types.ts]) *)

(** [None] is an id that is no string: a hook of the config is any object. *)
Record Check := mkCheck {
  ck_id : option string;
  ck_parameters : any;
  ck_is_enabled : option bool
}.

Inductive EventType := beforeRequestHook | afterRequestHook.

#[export] Instance EventType_eq_dec : EqDecision EventType.
Proof. solve_decision. Defined.

Module HookType.
Definition GUARDRAIL : string := "guardrail".
Definition MUTATOR : string := "mutator".
End HookType.

Record GuardrailFeedback := mkFeedback {
  fb_value : any;
  fb_weight : any;
  fb_metadata : obj json
}.

Record HookObject := mkHook {
  ho_type : string;
  ho_id : string;
  ho_checks : option (list Check);
  ho_async : bool;
  ho_sequential : bool;
  ho_onFail : option GuardrailFeedback;
  ho_onSuccess : option GuardrailFeedback;
  ho_deny : bool;
  ho_eventType : EventType
}.

Record ContextRequest := mkCtxRequest {
  cq_text : any;
  cq_json : any;
  cq_isStreamingRequest : bool;
  cq_isTransformed : bool;
  cq_headers : obj string
}.

Record ContextResponse := mkCtxResponse {
  cs_text : any;
  cs_json : any;
  cs_statusCode : option Z;
  cs_isTransformed : bool
}.

Record HookSpanContext := mkCtx {
  hc_request : ContextRequest;
  hc_response : ContextResponse;
  hc_provider : string;
  hc_requestType : string;
  hc_metadata : obj string
}.

Record CheckError := mkCheckError { ce_name : any; ce_message : any }.

Record GuardrailCheckResult := mkCheckResult {
  cr_id : string;
  cr_verdict : option bool;
  cr_error : option CheckError;
  cr_data : any;
  cr_log : any;
  cr_transformed : bool;
  cr_fail_on_error : bool;
  cr_transformedData : any
}.

Record HookResult := mkHookResult {
  hr_id : string;
  hr_type : string;
  hr_verdict : bool;
  hr_transformed : bool;
  hr_checks : list GuardrailCheckResult;
  hr_feedback : option GuardrailFeedback;
  hr_async : bool;
  hr_deny : bool;
  hr_skipped : bool
}.

(** What a plugin gives: an exception, or a result. *)
Record PluginHandlerResponse := mkPluginResponse {
  pr_error : option CheckError;
  pr_verdict : option bool;
  pr_data : any;
  pr_transformedData : any;
  pr_transformed : bool;
  pr_log : any
}.

Inductive Outcome := Threw | Returned (r : PluginHandlerResponse).

Module HOOKS_EVENT_TYPE_PRESETS.
Definition SYNC_BEFORE_REQUEST_HOOK : string := "syncBeforeRequestHook".
Definition ASYNC_BEFORE_REQUEST_HOOK : string := "asyncBeforeRequestHook".
Definition SYNC_AFTER_REQUEST_HOOK : string := "syncAfterRequestHook".
Definition ASYNC_AFTER_REQUEST_HOOK : string := "asyncAfterRequestHook".
End HOOKS_EVENT_TYPE_PRESETS.

(** ** The texts a plugin reads

    [None] where the code throws (a field of [null] or [undefined]). *)

Definition newline : string := String (ascii_of_N 10) "".

(** [v.k] *)
Definition field (v : any) (k : string) : option any :=
  if is_null_or_undef v then None else Some (prop v k).

(** [a || b] *)
Definition js_or (a b : any) : any := if truthy a then a else b.

Fixpoint map_fields (k : string) (l : list json) : option (list any) :=
  match l with
  | [] => Some []
  | x :: r =>
      match field (Some x) k, map_fields k r with
      | Some v, Some vs => Some (v :: vs)
      | _, _ => None
      end
  end.

Section Texts.
(** [String(v)] of a value that is no string, within [join]. *)
Variable to_text : json -> string.

Definition joined (l : list any) : any :=
  Some (JStr (String.concat newline
    (map (fun v => match v with
                   | Some (JStr s) => s
                   | None | Some JNull => ""
                   | Some x => to_text x
                   end) l))).

Definition has_type (v : json) (types : list string) : bool :=
  match prop (Some v) "type" with Some (JStr t) => mem_string t types | _ => false end.

Definition extractResponsesApiInputText (item : json) : any :=
  let content := prop (Some item) "content" in
  let rest :=
    if has_type item ["function_call_output"]
    then match prop (Some item) "output" with Some (JStr s) => Some (JStr s) | _ => Some (JStr "") end
    else Some (JStr "") in
  if has_type item ["message"] || truthy (prop (Some item) "role") then
    match content with
    | Some (JStr s) => Some (JStr s)
    | Some (JArr l) =>
        joined (List.filter truthy
          (map (fun c => js_or (prop (Some c) "text") (Some (JStr "")))
             (List.filter (fun c => has_type c ["input_text"; "text"]) l)))
    | _ => rest
    end
  else rest.

Definition input_item_text (item : json) : any :=
  match item with JStr s => Some (JStr s) | _ => extractResponsesApiInputText item end.

(** The last message of a non-empty array, or the last character of a text. *)
Definition last_message (messages : any) : option json :=
  match messages with
  | Some (JArr ((_ :: _) as l)) => last l
  | Some (JStr (String _ _ as s)) =>
      (fun c => JStr (String c "")) <$> last (String.list_ascii_of_string s)
  | _ => None
  end.

Definition message_text (lastMessage : json) : option any :=
  match field (Some lastMessage) "content" with
  | None => None
  | Some content =>
      match content with
      | Some (JArr parts) =>
          match map_fields "text" parts with
          | Some texts => Some (js_or (joined texts) content)
          | None => None
          end
      | _ => Some content
      end
  end.

Definition extractRequestText (requestParams : any) : option any :=
  let prompt := prop requestParams "prompt" in
  let input := prop requestParams "input" in
  if truthy prompt then Some prompt
  else match last_message (prop requestParams "messages") with
       | Some m => message_text m
       | None =>
           if truthy input then
             match input with
             | Some (JArr l) => Some (joined (List.filter truthy (map input_item_text l)))
             | _ => Some input
             end
           else Some (Some (JStr ""))
       end.

(** [item.content || []] within [flatMap]. *)
Definition flat_content (item : json) : list json :=
  match prop (Some item) "content" with
  | Some (JArr l) => l
  | Some v => if truthy (Some v) then [v] else []
  | None => []
  end.

Definition output_text (c : json) : any :=
  if has_type c ["output_text"; "text"] then prop (Some c) "text"
  else if has_type c ["refusal"] then prop (Some c) "refusal"
  else Some (JStr "").

Definition responses_text (responseJSON : any) : any :=
  match prop responseJSON "output" with
  | Some (JArr l) =>
      joined (List.filter truthy
        (map output_text
           (List.concat (map flat_content (List.filter (fun i => has_type i ["message"]) l)))))
  | _ => Some (JStr "")
  end.

Definition extractResponseText (responseJSON : any) : option any :=
  match prop responseJSON "choices" with
  | Some (JArr (choice :: _)) =>
      match field (Some choice) "text" with
      | None => None
      | Some text =>
          if truthy text then Some text
          else let content := prop (prop (Some choice) "message") "content" in
               if truthy content then Some (js_or (prop content "text") content)
               else Some (responses_text responseJSON)
      end
  | _ => Some (responses_text responseJSON)
  end.

(** ** The span's context *)

Definition createContext (requestParams : any) (metadata : obj string) (provider : string)
    (isStreamingRequest : bool) (requestType : string) (requestHeaders : obj string)
    : option HookSpanContext :=
  match extractRequestText requestParams with
  | None => None
  | Some requestText =>
      Some (mkCtx (mkCtxRequest requestText requestParams isStreamingRequest false requestHeaders)
              (mkCtxResponse (Some (JStr "")) (Some (JObj [])) None false)
              provider requestType metadata)
  end.

Definition with_response (r : ContextResponse) (c : HookSpanContext) : HookSpanContext :=
  mkCtx (hc_request c) r (hc_provider c) (hc_requestType c) (hc_metadata c).

Definition with_request (r : ContextRequest) (c : HookSpanContext) : HookSpanContext :=
  mkCtx r (hc_response c) (hc_provider c) (hc_requestType c) (hc_metadata c).

Definition setContextResponse (responseJSON : any) (responseStatus : Z) (c : HookSpanContext)
    : option HookSpanContext :=
  match extractResponseText responseJSON with
  | None => None
  | Some text =>
      Some (with_response
              (mkCtxResponse text responseJSON (Some responseStatus) (cs_isTransformed (hc_response c))) c)
  end.

(** The context after a transformation, and whether the code got through. *)
Definition transform_response (responseJson : any) (c : HookSpanContext) : HookSpanContext * bool :=
  let r := hc_response c in
  if truthy responseJson then
    match extractResponseText responseJson with
    | Some text => (with_response (mkCtxResponse text responseJson (cs_statusCode r) true) c, true)
    | None =>
        (with_response (mkCtxResponse (cs_text r) responseJson (cs_statusCode r) (cs_isTransformed r)) c, false)
    end
  else (c, true).

Definition transform_request (requestJson : any) (c : HookSpanContext) : HookSpanContext * bool :=
  let r := hc_request c in
  if truthy requestJson then
    match extractRequestText requestJson with
    | Some text =>
        (with_request (mkCtxRequest text requestJson (cq_isStreamingRequest r) true (cq_headers r)) c, true)
    | None =>
        (with_request (mkCtxRequest (cq_text r) requestJson (cq_isStreamingRequest r) (cq_isTransformed r)
                         (cq_headers r)) c, false)
    end
  else (c, true).

Definition setContextAfterTransform (responseJson requestJson : any) (c : HookSpanContext)
    : HookSpanContext * bool :=
  let '(c, ok) := transform_response responseJson c in
  if ok then transform_request requestJson c else (c, false).

(** What is done with a result's [transformedData]. *)
Definition apply_transformed (transformedData : any) (c : HookSpanContext) : HookSpanContext * bool :=
  if negb (truthy transformedData) then (c, true) else
  match field (prop transformedData "response") "json" with
  | None => (c, false)
  | Some responseJson =>
      match field (prop transformedData "request") "json" with
      | None => (c, false)
      | Some requestJson =>
          if truthy responseJson || truthy requestJson
          then setContextAfterTransform responseJson requestJson c
          else (c, true)
      end
  end.
End Texts.

(** ** One check and one hook *)

Definition failOnError (ck : Check) : bool := truthy (prop (ck_parameters ck) "failOnError").

Definition json_or_null (v : any) : any := if truthy v then v else Some JNull.

(** [check.id.split] is outside the [try]: without a string the call is rejected. *)
Definition readable (ck : Check) : bool := match ck_id ck with Some _ => true | None => false end.

Definition id_of (ck : Check) : string := default "" (ck_id ck).

(** [executeFunction], for the outcome of its plugin. *)
Definition executeFunction (ck : Check) (outcome : Outcome) : GuardrailCheckResult :=
  match outcome with
  | Threw =>
      mkCheckResult (id_of ck) (Some false)
        (Some (mkCheckError (Some (JStr "Check error")) (Some (JStr "Error executing check"))))
        (Some JNull) None false (failOnError ck) None
  | Returned r =>
      mkCheckResult (id_of ck)
        (match pr_error r with Some _ => Some false | None => pr_verdict r end)
        (pr_error r) (json_or_null (pr_data r)) (json_or_null (pr_log r)) (pr_transformed r)
        (failOnError ck) (pr_transformedData r)
  end.

(** [delete result.transformedData] *)
Definition without_data (r : GuardrailCheckResult) : GuardrailCheckResult :=
  mkCheckResult (cr_id r) (cr_verdict r) (cr_error r) (cr_data r) (cr_log r) (cr_transformed r)
    (cr_fail_on_error r) None.

Definition is_true (o : option bool) : bool := match o with Some b => b | None => false end.
Definition has_error (r : GuardrailCheckResult) : bool :=
  match cr_error r with Some _ => true | None => false end.

(** [result.verdict || (result.error && !result.fail_on_error)] *)
Definition check_passes (r : GuardrailCheckResult) : bool :=
  is_true (cr_verdict r) || (has_error r && negb (cr_fail_on_error r)).

(** The ids of the checks that succeeded, failed or errored. *)
Definition is_false (o : option bool) : bool := match o with Some b => negb b | None => false end.

Definition in_group (successful errored : bool) (r : GuardrailCheckResult) : bool :=
  if successful then is_true (cr_verdict r) else is_false (cr_verdict r) && Bool.eqb errored (has_error r).

Definition getCheckIds (results : list GuardrailCheckResult) (successful errored : bool) : string :=
  String.concat ", " (map cr_id (List.filter (in_group successful errored) results)).

Definition createFeedbackObject (results : list GuardrailCheckResult)
    (onFail onSuccess : option GuardrailFeedback) : option GuardrailFeedback :=
  let verdict := forallb (fun r => is_true (cr_verdict r) || has_error r) results in
  match (if verdict then onSuccess else onFail) with
  | None => None
  | Some feedbackConfig =>
      Some (mkFeedback (fb_value feedbackConfig) (fb_weight feedbackConfig)
              (obj_put (obj_put (obj_put (fb_metadata feedbackConfig)
                 "successfulChecks" (JStr (getCheckIds results true false)))
                 "failedChecks" (JStr (getCheckIds results false false)))
                 "erroredChecks" (JStr (getCheckIds results false true))))
  end.

(** The result of a hook whose checks gave [results]. *)
Definition hook_result (hook : HookObject) (results : list GuardrailCheckResult) : HookResult :=
  let verdict := forallb check_passes results in
  mkHookResult (ho_id hook) (ho_type hook) verdict (existsb cr_transformed results) results
    (createFeedbackObject results (ho_onFail hook) (ho_onSuccess hook))
    (ho_async hook) (ho_deny hook && negb verdict) false.

(** [{ id, type, skipped: true }]: it has no verdict. *)
Definition skipped_result (hook : HookObject) : HookResult :=
  mkHookResult (ho_id hook) (ho_type hook) false false [] None false false true.

Definition RUN_TYPES : list string :=
  ["chatComplete"; "complete"; "embed"; "messages"; "createModelResponse"].

Definition is_mutator (hook : HookObject) : bool := (ho_type hook =? HookType.MUTATOR)%string.
Definition is_guardrail (hook : HookObject) : bool := (ho_type hook =? HookType.GUARDRAIL)%string.

Definition shouldSkipHook (context : HookSpanContext) (parentHookSpanId : option string)
    (hook : HookObject) : bool :=
  let embed := (hc_requestType context =? "embed")%string in
  negb (mem_string (hc_requestType context) RUN_TYPES) ||
  (embed && negb (bool_decide (ho_eventType hook = beforeRequestHook))) ||
  (embed && is_mutator hook) ||
  (bool_decide (ho_eventType hook = afterRequestHook) &&
   negb (bool_decide (cs_statusCode (hc_response context) = Some 200%Z))) ||
  (bool_decide (ho_eventType hook = beforeRequestHook) &&
   match parentHookSpanId with Some _ => true | None => false end) ||
  (is_mutator hook && ho_async hook).

(** [check.is_enabled !== false] *)
Definition enabled (ck : Check) : bool :=
  match ck_is_enabled ck with Some b => b | None => true end.

(** The checks a hook runs, in order. *)
Definition run_checks (hook : HookObject) : list Check :=
  let checks := default [] (ho_checks hook) in
  if is_mutator hook then checks
  else if is_guardrail hook then List.filter enabled checks
  else [].

(** One check after the other, the context updated after each. *)
Definition one_by_one (hook : HookObject) : bool := is_mutator hook || ho_sequential hook.

(** ** A span and its hooks *)

Definition initializeHooks (hooks : list HookObject) (eventType : EventType) : list HookObject :=
  map (fun h => mkHook (ho_type h) (ho_id h) (ho_checks h) (ho_async h) (ho_sequential h) (ho_onFail h)
                  (ho_onSuccess h) (ho_deny h) eventType) hooks.

Record HookSpan := mkSpan {
  sp_context : HookSpanContext;
  sp_beforeRequestHooks : list HookObject;
  sp_afterRequestHooks : list HookObject;
  sp_beforeRequestHooksResult : list HookResult;
  sp_afterRequestHooksResult : list HookResult;
  sp_parentHookSpanId : option string
}.

Definition with_context (c : HookSpanContext) (s : HookSpan) : HookSpan :=
  mkSpan c (sp_beforeRequestHooks s) (sp_afterRequestHooks s) (sp_beforeRequestHooksResult s)
    (sp_afterRequestHooksResult s) (sp_parentHookSpanId s).

Definition with_results (before after : list HookResult) (s : HookSpan) : HookSpan :=
  mkSpan (sp_context s) (sp_beforeRequestHooks s) (sp_afterRequestHooks s) before after
    (sp_parentHookSpanId s).

Definition addHookResult (eventType : EventType) (result : HookResult) (s : HookSpan) : HookSpan :=
  match eventType with
  | beforeRequestHook =>
      with_results (sp_beforeRequestHooksResult s ++ [result]) (sp_afterRequestHooksResult s) s
  | afterRequestHook =>
      with_results (sp_beforeRequestHooksResult s) (sp_afterRequestHooksResult s ++ [result]) s
  end.

Definition resetHookResult (eventType : EventType) (s : HookSpan) : HookSpan :=
  match eventType with
  | beforeRequestHook => with_results [] (sp_afterRequestHooksResult s) s
  | afterRequestHook => with_results (sp_beforeRequestHooksResult s) [] s
  end.

(** [createSpan]; the id of the new span is not modelled. *)
Definition createSpan (to_text : json -> string) (requestParams : any) (metadata : obj string)
    (provider : string) (isStreamingRequest : bool) (beforeRequestHooks afterRequestHooks : list HookObject)
    (parentHookSpanId : option string) (requestType : string) (requestHeaders : obj string)
    : option HookSpan :=
  (fun c => mkSpan c (initializeHooks beforeRequestHooks beforeRequestHook)
              (initializeHooks afterRequestHooks afterRequestHook) [] [] parentHookSpanId)
  <$> createContext to_text requestParams metadata provider isStreamingRequest requestType requestHeaders.

Definition getHooksToExecute (span : HookSpan) (presets : list string) : list HookObject :=
  let pick (preset : string) (hooks : list HookObject) (p : HookObject -> bool) :=
    if mem_string preset presets then List.filter p hooks else [] in
  pick HOOKS_EVENT_TYPE_PRESETS.ASYNC_BEFORE_REQUEST_HOOK (sp_beforeRequestHooks span) ho_async ++
  pick HOOKS_EVENT_TYPE_PRESETS.SYNC_BEFORE_REQUEST_HOOK (sp_beforeRequestHooks span)
    (fun h => negb (ho_async h)) ++
  pick HOOKS_EVENT_TYPE_PRESETS.ASYNC_AFTER_REQUEST_HOOK (sp_afterRequestHooks span) ho_async ++
  pick HOOKS_EVENT_TYPE_PRESETS.SYNC_AFTER_REQUEST_HOOK (sp_afterRequestHooks span)
    (fun h => negb (ho_async h)).

(** ** Running hooks side by side *)

(** Where a hook's call is: waiting for the first of [pending], waiting for
    every empty slot, ended with a result, or rejected. *)
Inductive Thread :=
| Sequential (pending : list Check) (results : list GuardrailCheckResult)
| Parallel (slots : list (Check * option GuardrailCheckResult))
| Ended (r : HookResult)
| Rejected.

Record Run := mkRun {
  rn_span : HookSpan;
  rn_hooks : list HookObject;
  rn_threads : list Thread
}.

(** A plugin's promise settles: the [check]-th check of the [hook]-th hook. *)
Inductive label := Settle (hook ck : nat) (outcome : Outcome).

(** The end of a hook's call. *)
Definition finish (hook : HookObject) (results : list GuardrailCheckResult) (s : HookSpan)
    : Thread * HookSpan :=
  let r := hook_result hook results in
  (Ended r, addHookResult (ho_eventType hook) r s).

(** [executeEachHook] up to its first wait. *)
Definition start_hook (hook : HookObject) (s : HookSpan) : Thread * HookSpan :=
  if shouldSkipHook (sp_context s) (sp_parentHookSpanId s) hook then (Ended (skipped_result hook), s)
  else match run_checks hook with
       | [] => finish hook [] s
       | (c :: _) as checks =>
           if one_by_one hook then (if readable c then Sequential checks [] else Rejected, s)
           else if forallb readable checks then (Parallel (map (fun c => (c, None)) checks), s)
           else (Rejected, s)
       end.

Fixpoint start_hooks (hooks : list HookObject) (s : HookSpan) : list Thread * HookSpan :=
  match hooks with
  | [] => ([], s)
  | h :: r =>
      let '(t, s1) := start_hook h s in
      let '(ts, s2) := start_hooks r s1 in (t :: ts, s2)
  end.

Definition start (hooks : list HookObject) (s : HookSpan) : Run :=
  let '(ts, s') := start_hooks hooks s in mkRun s' hooks ts.

Section Run.
Variable to_text : json -> string.

(** The transformations of parallel checks, in the order of the checks. *)
Fixpoint apply_all (results : list GuardrailCheckResult) (c : HookSpanContext) : HookSpanContext * bool :=
  match results with
  | [] => (c, true)
  | r :: rest =>
      let '(c1, ok) := apply_transformed to_text (cr_transformedData r) c in
      if ok then apply_all rest c1 else (c1, false)
  end.

(** Every slot's result, when there are no empty ones. *)
Fixpoint all_settled (slots : list (Check * option GuardrailCheckResult))
    : option (list GuardrailCheckResult) :=
  match slots with
  | [] => Some []
  | (_, Some r) :: rest => match all_settled rest with Some rs => Some (r :: rs) | None => None end
  | (_, None) :: _ => None
  end.

(** A hook goes on after the answer of its [check]-th check. *)
Definition settle_thread (hook : HookObject) (ck : nat) (outcome : Outcome) (t : Thread) (s : HookSpan)
    : option (Thread * HookSpan) :=
  match t with
  | Sequential (c :: pending) results =>
      if Nat.eqb ck (length results) then
        let r := executeFunction c outcome in
        let '(ctx, ok) := apply_transformed to_text (cr_transformedData r) (sp_context s) in
        let s := with_context ctx s in
        if ok then
          let results := results ++ [without_data r] in
          Some (match pending with
                | [] => finish hook results s
                | next :: _ => (if readable next then Sequential pending results else Rejected, s)
                end)
        else Some (Rejected, s)
      else None
  | Parallel slots =>
      match slots !! ck with
      | Some (c, None) =>
          let slots := <[ck := (c, Some (executeFunction c outcome))]> slots in
          match all_settled slots with
          | None => Some (Parallel slots, s)
          | Some results =>
              let '(ctx, ok) := apply_all results (sp_context s) in
              let s := with_context ctx s in
              Some (if ok then finish hook (map without_data results) s else (Rejected, s))
          end
      | _ => None
      end
  | _ => None
  end.

Definition settle (l : label) (s : Run) : option Run :=
  let '(Settle i ck outcome) := l in
  match rn_hooks s !! i, rn_threads s !! i with
  | Some hook, Some t =>
      match settle_thread hook ck outcome t (rn_span s) with
      | Some (t', span) => Some (mkRun span (rn_hooks s) (<[i := t']> (rn_threads s)))
      | None => None
      end
  | _, _ => None
  end.

Definition step (l : label) (s s' : Run) : Prop := settle l s = Some s'.

(** [{ results, shouldDeny }], once there is one: [Promise.all] rejects as soon
    as a hook does. *)
Definition is_rejected (t : Thread) : bool := match t with Rejected => true | _ => false end.

Fixpoint results_of (ts : list Thread) : option (list HookResult) :=
  match ts with
  | [] => Some []
  | Ended r :: rest => match results_of rest with Some rs => Some (r :: rs) | None => None end
  | _ => None
  end.

Definition denies (p : HookObject * HookResult) : bool :=
  negb (hr_verdict p.2) && ho_deny p.1 && negb (hr_skipped p.2).

Definition shouldDeny (hooks : list HookObject) (results : list HookResult) : bool :=
  existsb denies (zip hooks results).

Definition answer (s : Run) : option (list HookResult * bool) :=
  match rn_hooks s with
  | [] => Some ([], false)
  | _ =>
      if existsb is_rejected (rn_threads s) then Some ([], false)
      else (fun rs => (rs, shouldDeny (rn_hooks s) rs)) <$> results_of (rn_threads s)
  end.

(** ** What the handlers make of it *)

(** [beforeRequestHookHandler]: the 446 response with the results, or the body
    the provider is called with. *)
Inductive BeforeOutcome :=
| Denied446 (before_request_hooks : list HookResult)
| Proceed (transformedBody : any).

Definition beforeRequestHookHandler (s : Run) (a : list HookResult * bool) : BeforeOutcome :=
  if a.2 then Denied446 a.1
  else let r := hc_request (sp_context (rn_span s)) in
       Proceed (if cq_isTransformed r then cq_json r else Some JNull).

(** The span before the after-request hooks run: [None] where the code throws,
    and the provider's response is passed on unchecked. *)
Definition prepareAfterRequest (responseJSON : any) (status : Z) (retryAttemptsMade : Z) (s : HookSpan)
    : option HookSpan :=
  match setContextResponse to_text responseJSON status (sp_context s) with
  | None => None
  | Some c =>
      let s := with_context c s in
      Some (if (0 <? retryAttemptsMade)%Z then resetHookResult afterRequestHook s else s)
  end.

(** [afterRequestHookHandler]: its response's status, and its data: what the
    provider answered, the transformed body, or an error. *)
Inductive AfterData := FromProvider | Transformed (body : any) | ForcedError.

Definition afterRequestHookHandler (s : Run) (a : list HookResult * bool) (responseJSON : any)
    (status : Z) : Z * AfterData :=
  let failed := existsb (fun r => negb (hr_verdict r))
    (sp_beforeRequestHooksResult (rn_span s) ++ sp_afterRequestHooksResult (rn_span s)) in
  let outcome := if failed && (status =? 200)%Z then 246%Z else status in
  if negb (truthy responseJSON) then (outcome, FromProvider)
  else if a.2 then (446%Z, ForcedError)
  else let r := hc_response (sp_context (rn_span s)) in
       (outcome, if cs_isTransformed r then Transformed (cs_json r) else FromProvider).
End Run.

(** ** The sequential reference *)

(** The results of checks whose plugins gave [outs]. *)
Definition check_results (checks : list Check) (outs : nat -> Outcome) : list GuardrailCheckResult :=
  imap (fun j c => without_data (executeFunction c (outs j))) checks.

Definition reference_result (skip : bool) (hook : HookObject) (outs : nat -> Outcome) : HookResult :=
  if skip then skipped_result hook else hook_result hook (check_results (run_checks hook) outs).

(** A check that counts against its hook: it said no (or nothing), or it failed
    to run and [failOnError] is set. *)
Definition fails (c : Check) (o : Outcome) : bool :=
  match o with
  | Threw => failOnError c
  | Returned r =>
      match pr_error r with
      | Some _ => failOnError c
      | None => negb (is_true (pr_verdict r))
      end
  end.

Lemma fails_result c o : check_passes (without_data (executeFunction c o)) = negb (fails c o).
Proof.
  destruct o as [|r]; unfold check_passes; simpl; [done|].
  destruct (pr_error r); simpl; [done|]. by rewrite orb_false_r, negb_involutive.
Qed.

Lemma reference_verdict hook outs :
  hr_verdict (hook_result hook (check_results (run_checks hook) outs)) = false <->
  exists j c, run_checks hook !! j = Some c /\ fails c (outs j) = true.
Proof.
  simpl. unfold check_results. split.
  - intros H. apply not_true_iff_false in H.
    destruct (decide (Exists (fun r => check_passes r = false)
      (imap (fun j c => without_data (executeFunction c (outs j))) (run_checks hook)))) as [He|Hne].
    + apply list.Exists_exists in He as (r & Hr & Hf). apply list_elem_of_lookup in Hr as [j Hj].
      rewrite list_lookup_imap in Hj. destruct (run_checks hook !! j) as [c|] eqn:Hc; [|done].
      injection Hj as [= <-]. rewrite fails_result in Hf. exists j, c. split; [done|by apply negb_false_iff].
    + exfalso. apply H, forallb_forall. intros r Hr. apply not_false_iff_true. intros Hf. apply Hne.
      apply list.Exists_exists. exists r. split; [by apply list_elem_of_In|done].
  - intros (j & c & Hc & Hf). apply not_true_iff_false. rewrite forallb_forall. intros Hall.
    assert (Hr : imap (fun j c => without_data (executeFunction c (outs j))) (run_checks hook) !! j =
      Some (without_data (executeFunction c (outs j)))) by (rewrite list_lookup_imap, Hc; done).
    apply list_elem_of_lookup_2, list_elem_of_In, Hall in Hr. rewrite fails_result, Hf in Hr. done.
Qed.

(** ** Runs follow the reference *)

Section Runs.
Variable to_text : json -> string.
Variable span0 : HookSpan.
Variable hooks : list HookObject.

#[local] Abbreviation skips h := (shouldSkipHook (sp_context span0) (sp_parentHookSpanId span0) h).

(** Where a hook can be when its checks' outcomes are [outs]. *)
Definition thread_ok (outs : nat -> Outcome) (hook : HookObject) (t : Thread) : Prop :=
  match t with
  | Sequential pending results =>
      skips hook = false /\ pending <> [] /\
      exists done, run_checks hook = done ++ pending /\ results = check_results done outs
  | Parallel slots =>
      skips hook = false /\ map fst slots = run_checks hook /\ all_settled slots = None /\
      forall j c r, slots !! j = Some (c, Some r) -> r = executeFunction c (outs j)
  | Ended r => r = reference_result (skips hook) hook outs
  | Rejected => True
  end.

(** What starting a hook reads of the span. *)
Definition same_start (s : HookSpan) : Prop :=
  sp_context s = sp_context span0 /\ sp_parentHookSpanId s = sp_parentHookSpanId span0.

Lemma start_hook_ok outs hook s t s' :
  same_start s -> start_hook hook s = (t, s') -> thread_ok outs hook t /\ same_start s'.
Proof.
  intros [Hc Hp]. unfold start_hook. rewrite Hc, Hp. destruct (skips hook) eqn:Hs.
  { intros [= <- <-]. split; [|done]. simpl. unfold reference_result. by rewrite Hs. }
  destruct (run_checks hook) as [|c cs] eqn:Hrun.
  { intros [= <- <-]. split; [|by destruct (ho_eventType hook)].
    simpl. unfold reference_result. by rewrite Hs, Hrun. }
  destruct (one_by_one hook); [|destruct (forallb readable _); [|by intros [= <- <-]]];
    intros [= <- <-]; (split; [|done]).
  - destruct (readable c); [|done]. split_and!; [done..|]. by exists [].
  - split_and!; [done| |done|].
    + rewrite Hrun. simpl. f_equal. rewrite map_map. apply map_id.
    + intros j c' r Hj.
      change (((fun c => (c, @None GuardrailCheckResult)) <$> (c :: cs)) !! j = Some (c', Some r)) in Hj.
      rewrite list_lookup_fmap in Hj. by destruct ((c :: cs) !! j).
Qed.

Lemma start_hooks_ok (outs : nat -> nat -> Outcome) k hs s ts s' :
  same_start s -> start_hooks hs s = (ts, s') ->
  length ts = length hs /\
  forall i h t, hs !! i = Some h -> ts !! i = Some t -> thread_ok (outs (k + i)) h t.
Proof.
  revert k s ts s'. induction hs as [|h hs IH]; intros k s ts s' Hss; cbn [start_hooks].
  { intros [= <- <-]. by split. }
  destruct (start_hook h s) as [t s1] eqn:Hst. destruct (start_hooks hs s1) as [ts1 s2] eqn:Hsts.
  intros [= <- <-]. destruct (start_hook_ok (outs k) _ _ _ _ Hss Hst) as [Ht Hss1].
  destruct (IH (S k) _ _ _ Hss1 Hsts) as [Hlen Hrest]. split; [by simpl; rewrite Hlen|].
  intros [|i] h' t' Hh Ht'; simpl in *.
  - simplify_eq. by rewrite Nat.add_0_r.
  - rewrite <- Nat.add_succ_comm. by apply Hrest.
Qed.

Lemma all_settled_Some slots rs : all_settled slots = Some rs ->
  map snd slots = map Some rs.
Proof.
  revert rs. induction slots as [|[c [r|]] slots IH]; intros rs; simpl; [by intros [= <-]| |done].
  destruct (all_settled slots); [|done]. intros [= <-]. simpl. f_equal. by apply IH.
Qed.

Lemma settled_results outs hook slots rs :
  map fst slots = run_checks hook -> all_settled slots = Some rs ->
  (forall j c r, slots !! j = Some (c, Some r) -> r = executeFunction c (outs j)) ->
  map without_data rs = check_results (run_checks hook) outs.
Proof.
  intros Hf Hs Hr. apply all_settled_Some in Hs. apply list_eq. intros j. unfold check_results.
  rewrite list_lookup_imap, <- Hf.
  change (map without_data rs !! j) with ((without_data <$> rs) !! j).
  change (map fst slots !! j) with ((fst <$> slots) !! j). rewrite !list_lookup_fmap.
  assert (Hj : map Some rs !! j = map snd slots !! j) by by rewrite Hs.
  change ((Some <$> rs) !! j = (snd <$> slots) !! j) in Hj.
  rewrite !list_lookup_fmap in Hj. destruct (slots !! j) as [[c o]|] eqn:Hsl; simpl in *.
  - destruct (rs !! j) as [r|]; [|done]. simpl in *. injection Hj as [= <-].
    by rewrite (Hr _ _ _ Hsl).
  - by destruct (rs !! j).
Qed.

Lemma check_results_snoc checks c outs :
  check_results (checks ++ [c]) outs =
  check_results checks outs ++ [without_data (executeFunction c (outs (length checks)))].
Proof. unfold check_results. rewrite imap_app. simpl. by rewrite Nat.add_0_r. Qed.

Lemma length_check_results checks outs : length (check_results checks outs) = length checks.
Proof. apply length_imap. Qed.

Lemma settle_thread_ok outs hook j o t s t' s' :
  thread_ok outs hook t -> o = outs j ->
  settle_thread to_text hook j o t s = Some (t', s') -> thread_ok outs hook t'.
Proof.
  intros Ht ->. destruct t as [[|c pending] results|slots|r|]; simpl; try done.
  - destruct Ht as (Hskip & _ & prev & Hrun & ->). rewrite length_check_results.
    destruct (Nat.eqb_spec j (length prev)) as [->|]; [|done].
    destruct (apply_transformed _ _ _) as [ctx [|]]; [|by intros [= <- _]].
    rewrite <- check_results_snoc. destruct pending as [|c2 pending].
    + unfold finish. intros [= <- _]. simpl. unfold reference_result. by rewrite Hskip, Hrun.
    + intros [= <- _]. destruct (readable c2); [|done]. split_and!; [done..|].
      exists (prev ++ [c]). by rewrite <- app_assoc.
  - destruct Ht as (Hskip & Hf & Hnone & Hr).
    destruct (slots !! j) as [[c [r|]]|] eqn:Hsl; try done.
    set (slots' := <[j := (c, Some (executeFunction c (outs j)))]> slots).
    assert (Hf' : map fst slots' = run_checks hook).
    { rewrite <- Hf. apply list_eq. intros k.
      change ((fst <$> slots') !! k = (fst <$> slots) !! k). rewrite !list_lookup_fmap. unfold slots'.
      destruct (decide (k = j)) as [->|]; [|by rewrite list_lookup_insert_ne].
      by rewrite list_lookup_insert_eq, Hsl by (by eapply lookup_lt_Some). }
    assert (Hr' : forall k c' r, slots' !! k = Some (c', Some r) -> r = executeFunction c' (outs k)).
    { intros k c' r. unfold slots'. destruct (decide (k = j)) as [->|]; [|rewrite list_lookup_insert_ne by done; by apply Hr].
      rewrite list_lookup_insert_eq by (by eapply lookup_lt_Some). by intros [= <- <-]. }
    destruct (all_settled slots') as [rs|] eqn:Hall; [|by intros [= <- _]].
    destruct (apply_all _ _ _) as [ctx [|]]; [|by intros [= <- _]].
    unfold finish. intros [= <- _]. simpl. unfold reference_result. rewrite Hskip.
    by rewrite (settled_results outs hook slots' rs).
Qed.

#[local] Abbreviation reachable ls s := (run (step to_text) ls (start hooks span0) s).

(** The labels of a run give each check the outcome [outs] says. *)
Definition labelled (outs : nat -> nat -> Outcome) (ls : list label) : Prop :=
  Forall (fun '(Settle i j o) => o = outs i j) ls.

Record RunOk (outs : nat -> nat -> Outcome) (s : Run) : Prop := mkRunOk {
  ro_hooks : rn_hooks s = hooks;
  ro_length : length (rn_threads s) = length hooks;
  ro_threads : forall i h t, hooks !! i = Some h -> rn_threads s !! i = Some t -> thread_ok (outs i) h t
}.

Lemma start_RunOk outs : RunOk outs (start hooks span0).
Proof.
  unfold start. destruct (start_hooks hooks span0) as [ts s'] eqn:Hs.
  destruct (start_hooks_ok outs 0 hooks span0 ts s' ltac:(done) Hs) as [Hlen Hok]. by constructor.
Qed.

Lemma settle_inv i j o s s' : settle to_text (Settle i j o) s = Some s' ->
  exists h t t' span, rn_hooks s !! i = Some h /\ rn_threads s !! i = Some t /\
    settle_thread to_text h j o t (rn_span s) = Some (t', span) /\
    s' = mkRun span (rn_hooks s) (<[i := t']> (rn_threads s)).
Proof.
  unfold settle. destruct (rn_hooks s !! i) as [h|]; [|done]. destruct (rn_threads s !! i) as [t|]; [|done].
  destruct (settle_thread _ _ _ _ _ _) as [[t' span]|] eqn:Ht; [|done]. intros [= <-]. by exists h, t, t', span.
Qed.

Lemma step_RunOk outs i j s s' : step to_text (Settle i j (outs i j)) s s' -> RunOk outs s -> RunOk outs s'.
Proof.
  intros (h & t & t' & span & Hh & Ht & Hst & ->)%settle_inv [Hhk Hlen Hok].
  rewrite Hhk in Hh. constructor; simpl; [done|by rewrite length_insert|].
  intros i' h' t2 Hh'. destruct (decide (i' = i)) as [->|Hne].
  - rewrite list_lookup_insert_eq by (by eapply lookup_lt_Some). intros [= <-]. simplify_eq.
    eapply settle_thread_ok; [by eapply Hok|done|done].
  - rewrite list_lookup_insert_ne by done. by apply Hok.
Qed.

Lemma run_RunOk outs ls s s' : run (step to_text) ls s s' -> labelled outs ls -> RunOk outs s -> RunOk outs s'.
Proof.
  induction 1 as [|[i j o] ls s s1 s' Hs Hr IH]; [done|]. unfold labelled. rewrite Forall_cons.
  intros [-> Hl] Hok. apply IH; [done|]. by eapply step_RunOk.
Qed.

(** The results of the reference. *)
Definition reference_results (outs : nat -> nat -> Outcome) : list HookResult :=
  imap (fun i h => reference_result (skips h) h (outs i)) hooks.

Lemma results_of_Ended ts rs : results_of ts = Some rs -> ts = map Ended rs.
Proof.
  revert rs. induction ts as [|t ts IH]; intros rs; simpl; [by intros [= <-]|].
  destruct t; try done. destruct (results_of ts); [|done]. intros [= <-]. simpl. f_equal. by apply IH.
Qed.

Lemma ended_results outs s rs : RunOk outs s -> results_of (rn_threads s) = Some rs ->
  rs = reference_results outs.
Proof.
  intros [_ Hlen Hok] Hrs%results_of_Ended. rewrite Hrs in *. apply list_eq. intros i.
  unfold reference_results. rewrite list_lookup_imap. rewrite length_map in Hlen.
  destruct (rs !! i) as [r|] eqn:Hr; destruct (hooks !! i) as [h|] eqn:Hh; simpl; try done.
  - f_equal. apply (Hok i h (Ended r) Hh).
    change ((Ended <$> rs) !! i = Some (Ended r)). by rewrite list_lookup_fmap, Hr.
  - apply lookup_lt_Some in Hr. apply lookup_ge_None in Hh. lia.
  - apply lookup_lt_Some in Hh. apply lookup_ge_None in Hr. lia.
Qed.

Lemma answer_cases outs s a : RunOk outs s -> answer s = Some a ->
  if existsb is_rejected (rn_threads s) then a = ([], false)
  else a = (reference_results outs, shouldDeny hooks (reference_results outs)).
Proof.
  intros Hok. unfold answer. rewrite (ro_hooks _ _ Hok). destruct hooks as [|h hs] eqn:Hh.
  - intros [= <-]. pose proof (ro_length _ _ Hok) as Hlen. rewrite Hh in Hlen.
    destruct (rn_threads s); [|done]. simpl. unfold reference_results. by rewrite Hh.
  - rewrite <- Hh in *. destruct (existsb is_rejected (rn_threads s)); [by intros [= <-]|].
    destruct (results_of (rn_threads s)) as [rs|] eqn:Hrs; [|done]. intros [= <-].
    by rewrite (ended_results outs s rs).
Qed.

(** Whatever order the checks answer in, the results of the hooks and the
    decision are those of running every hook by itself on the outcomes of its
    checks; and when the code fails outside a check, the answer is no result and
    no denial. *)
Theorem hooks_answer_outcomes outs ls s a :
  reachable ls s -> labelled outs ls -> answer s = Some a ->
  if existsb is_rejected (rn_threads s) then a = ([], false)
  else a = (reference_results outs, shouldDeny hooks (reference_results outs)).
Proof.
  intros Hr Hl. apply answer_cases. eapply run_RunOk; [done..|]. apply start_RunOk.
Qed.

(** [C6] When a request is denied: a hook that may deny was not skipped and one
    of the checks it ran said no, or failed to run with [failOnError] set, and no
    hook's call was rejected. *)
Theorem denied_iff_a_check_fails outs ls s results deny :
  reachable ls s -> labelled outs ls -> answer s = Some (results, deny) ->
  deny = true <->
  existsb is_rejected (rn_threads s) = false /\
  exists i h j c, hooks !! i = Some h /\ ho_deny h = true /\ skips h = false /\
    run_checks h !! j = Some c /\ fails c (outs i j) = true.
Proof.
  intros Hr Hl Ha. apply (answer_cases outs) in Ha; [|eapply run_RunOk; [done..|]; apply start_RunOk].
  destruct (existsb is_rejected (rn_threads s)); injection Ha as [= -> ->].
  { split; [done|]. by intros [? _]. }
  unfold shouldDeny. rewrite existsb_exists. split.
  - intros ([h r] & Hin & Hd). split; [done|]. apply list_elem_of_In, list_elem_of_lookup in Hin as [i Hi].
    apply lookup_zip_with_Some in Hi as (h' & r' & [= -> ->] & Hh & Hres).
    unfold reference_results in Hres. rewrite list_lookup_imap, Hh in Hres. injection Hres as [= <-].
    unfold denies, reference_result in Hd. cbn [fst snd] in Hd.
    destruct (skips h') eqn:Hs; [simpl in Hd; by rewrite andb_false_r in Hd|].
    apply andb_prop in Hd as [[Hv Hd]%andb_prop _]. apply negb_true_iff in Hv.
    apply reference_verdict in Hv as (j & c & Hc & Hf). by exists i, h', j, c.
  - intros (_ & i & h & j & c & Hh & Hd & Hs & Hc & Hf).
    exists (h, reference_result (skips h) h (outs i)). split.
    + apply list_elem_of_In, list_elem_of_lookup. exists i. apply lookup_zip_with_Some.
      exists h, (reference_result (skips h) h (outs i)). split_and!; [done..|].
      unfold reference_results. by rewrite list_lookup_imap, Hh.
    + unfold denies, reference_result. cbn [fst snd]. rewrite Hs, Hd.
      rewrite (proj2 (reference_verdict h (outs i))); [done|]. by exists j, c.
Qed.
End Runs.

(** ** Runs end *)

Section Termination.
Variable to_text : json -> string.

(** The answers a hook still waits for. *)
Definition waits (t : Thread) : nat :=
  match t with
  | Sequential pending _ => length pending
  | Parallel slots => length (List.filter (fun p => match p.2 with None => true | Some _ => false end) slots)
  | Ended _ | Rejected => 0
  end.

Definition remaining (s : Run) : nat := sum_list_with waits (rn_threads s).

Lemma fill_slot slots j c r : slots !! j = Some (c, None) ->
  length (List.filter (fun p => match p.2 with None => true | Some _ => false end) slots) =
  S (length (List.filter (fun p : Check * option GuardrailCheckResult =>
    match p.2 with None => true | Some _ => false end) (<[j := (c, Some r)]> slots))).
Proof.
  revert j. induction slots as [|[c' o] slots IH]; intros [|j] Hj; simpl in *; try done.
  - by injection Hj as [= -> ->].
  - destruct o; simpl; by rewrite (IH j).
Qed.

Lemma settle_thread_waits h j o t s t' s' :
  settle_thread to_text h j o t s = Some (t', s') -> waits t' < waits t.
Proof.
  destruct t as [[|c pending] results|slots|r|]; simpl; try done.
  - destruct (Nat.eqb j (length results)); [|done]. destruct (apply_transformed _ _ _) as [ctx [|]].
    + destruct pending as [|c2 pending]; unfold finish; intros [= <- _]; [simpl; lia|].
      destruct (readable c2); simpl; lia.
    + intros [= <- _]. simpl. lia.
  - destruct (slots !! j) as [[c [r|]]|] eqn:Hj; try done.
    pose proof (fill_slot slots j c (executeFunction c o) Hj) as Hfill.
    destruct (all_settled _) as [rs|].
    + destruct (apply_all _ _ _) as [ctx [|]]; unfold finish; intros [= <- _]; simpl; lia.
    + intros [= <- _]. simpl. lia.
Qed.

Lemma sum_insert (ts : list Thread) i t t' : ts !! i = Some t ->
  sum_list_with waits (<[i := t']> ts) + waits t = sum_list_with waits ts + waits t'.
Proof.
  revert i. induction ts as [|x ts IH]; intros [|i] Hi; simpl in *; try done.
  - injection Hi as [= ->]. lia.
  - specialize (IH i Hi). lia.
Qed.

Lemma step_remaining l s s' : step to_text l s s' -> remaining s' < remaining s.
Proof.
  destruct l as [i j o]. intros (h & t & t' & span & _ & Ht & Hst & ->)%settle_inv.
  apply settle_thread_waits in Hst. unfold remaining. simpl.
  pose proof (sum_insert _ _ _ t' Ht). lia.
Qed.

(** A hook that has not ended waits for something. *)
Definition waiting (t : Thread) : Prop :=
  match t with
  | Sequential pending _ => pending <> []
  | Parallel slots => all_settled slots = None
  | Ended _ | Rejected => True
  end.

Definition run_waiting (s : Run) : Prop :=
  length (rn_threads s) = length (rn_hooks s) /\ Forall waiting (rn_threads s).

Lemma start_waiting hooks span : run_waiting (start hooks span).
Proof.
  unfold start, run_waiting. destruct (start_hooks hooks span) as [ts s'] eqn:Hs. simpl.
  revert span ts s' Hs. induction hooks as [|h hooks IH]; intros span ts s'; cbn [start_hooks]; [by intros [= <- <-]|].
  destruct (start_hook h span) as [t s1] eqn:Ht. destruct (start_hooks hooks s1) as [ts1 s2] eqn:Hts.
  intros [= <- <-]. destruct (IH _ _ _ Hts) as [Hlen Hw]. split; [by simpl; rewrite Hlen|]. constructor; [|done].
  revert Ht. unfold start_hook. destruct (shouldSkipHook _ _ _); [by intros [= <- _]|].
  destruct (run_checks h); [unfold finish; by intros [= <- _]|]. destruct (one_by_one h); [destruct (readable _)|destruct (forallb readable _)]; by intros [= <- _].
Qed.

Lemma settle_waiting h j o t s t' s' : settle_thread to_text h j o t s = Some (t', s') -> waiting t'.
Proof.
  destruct t as [[|c pending] results|slots|r|]; simpl; try done.
  - destruct (Nat.eqb j (length results)); [|done]. destruct (apply_transformed _ _ _) as [ctx [|]]; [|by intros [= <- _]].
    destruct pending as [|c2 pending]; unfold finish; [by intros [= <- _]|]. destruct (readable c2); by intros [= <- _].
  - destruct (slots !! j) as [[c [r|]]|]; try done. destruct (all_settled _) as [rs|] eqn:Hall; [|by intros [= <- _]].
    destruct (apply_all _ _ _) as [ctx [|]]; unfold finish; by intros [= <- _].
Qed.

Lemma step_waiting l s s' : step to_text l s s' -> run_waiting s -> run_waiting s'.
Proof.
  destruct l as [i j o]. intros (h & t & t' & span & _ & _ & Hst & ->)%settle_inv [Hlen Hw].
  split; simpl; [by rewrite length_insert|]. apply Forall_insert; [done|]. by eapply settle_waiting.
Qed.

Lemma waiting_thread_steps h t s : waiting t -> (forall r, t <> Ended r) -> t <> Rejected ->
  exists j, forall o, is_Some (settle_thread to_text h j o t s).
Proof.
  destruct t as [[|c pending] results|slots|r|]; simpl; intros Hok Hend Hrej; [done| | |by destruct (Hend r)|done].
  - exists (length results). intros o. rewrite Nat.eqb_refl.
    destruct (apply_transformed _ _ _) as [ctx [|]]; by eexists.
  - assert (Hslot : exists j c, slots !! j = Some (c, None)).
    { clear -Hok. induction slots as [|[c [r|]] slots IH]; simpl in Hok; [done| |by exists 0, c].
      destruct (all_settled slots); [done|]. destruct (IH eq_refl) as (j & c' & Hj). by exists (S j), c'. }
    destruct Hslot as (j & c & Hj). exists j. intros o. rewrite Hj. cbv zeta. destruct (all_settled (<[_:=_]> _)); [|by eexists].
    destruct (apply_all _ _ _) as [ctx [|]]; by eexists.
Qed.

Lemma unfinished_thread ts : existsb is_rejected ts = false -> results_of ts = None ->
  exists i t, ts !! i = Some t /\ (forall r, t <> Ended r) /\ t <> Rejected.
Proof.
  induction ts as [|t ts IH]; simpl; [done|]. intros [Hrej Hrest]%orb_false_iff Hres.
  destruct t as [p rs|sl|r|]; [by exists 0, (Sequential p rs)|by exists 0, (Parallel sl)| |done].
  destruct (results_of ts); [done|]. destruct (IH Hrest eq_refl) as (i & t & Ht & H). by exists (S i), t.
Qed.

(** The hooks of a request end: at most one step per check that has to
    answer, and until there is an answer some check can go on, whatever its
    plugin gives. *)
Theorem hooks_terminate hooks span0 ls s :
  run (step to_text) ls (start hooks span0) s ->
  length ls + remaining s <= remaining (start hooks span0) /\
  (answer s = None -> exists i j, forall o, exists s', step to_text (Settle i j o) s s').
Proof.
  intros Hr. split.
  - apply (run_bounded (step to_text) (fun _ => True) (fun _ => True) remaining ls); try done.
    + intros l a b _ Hs _. by apply step_remaining in Hs.
    + by apply Forall_true.
  - assert (Hw : run_waiting s).
    { apply (run_invariant (step to_text) run_waiting ls (start hooks span0)); [|done|apply start_waiting].
      intros l a b. apply step_waiting. }
    destruct Hw as [Hlen Hw]. unfold answer. destruct (rn_hooks s) as [|h0 hs] eqn:Hh; [done|].
    destruct (existsb is_rejected (rn_threads s)) eqn:Hrej; [done|].
    destruct (results_of (rn_threads s)) eqn:Hres; [done|]. intros _.
    destruct (unfinished_thread _ Hrej Hres) as (i & t & Ht & Hend & Hnr).
    destruct (lookup_lt_is_Some_2 (rn_hooks s) i) as [h Hi].
    { rewrite Hh, <- Hlen. by eapply lookup_lt_Some. }
    destruct (waiting_thread_steps h t (rn_span s)) as [j Hj]; [by eapply Forall_lookup_1|done..|].
    exists i, j. intros o. destruct (Hj o) as [[t' span] Hst]. unfold step, settle.
    rewrite Hi, Ht, Hst. by eexists.
Qed.
End Termination.

(** ** Feedback and reports *)

(** Every check with a verdict is named in exactly one of the three lists. *)
Lemma check_ids_partition r b : cr_verdict r = Some b ->
  (in_group true false r, in_group false false r, in_group false true r) =
  (b, negb b && negb (has_error r), negb b && has_error r).
Proof.
  unfold in_group. intros ->. destruct b; simpl; [done|by destruct (has_error r)].
Qed.

(** A check that could not run, with [failOnError], fails its hook, but the
    feedback sent is the one for success. *)
Lemma failed_hook_sends_success_feedback hook c :
  failOnError c = true ->
  let r := hook_result hook (check_results [c] (fun _ => Threw)) in
  hr_verdict r = false /\ hr_feedback r = createFeedbackObject (hr_checks r) None (ho_onSuccess hook).
Proof. intros Hf. unfold check_results, hook_result, createFeedbackObject. simpl. by rewrite Hf. Qed.

(** ** Examples *)

Module Samples.
Definition to_text (v : json) : string := "".

Definition check_of (id : string) (fail_on_error : bool) : Check :=
  mkCheck (Some id) (Some (JObj [("failOnError", JBool fail_on_error)])) None.

Definition guardrail (id : string) (checks : list Check) (deny sequential : bool) : HookObject :=
  mkHook HookType.GUARDRAIL id (Some checks) false sequential None None deny beforeRequestHook.

Definition hooks : list HookObject :=
  [guardrail "pii" [check_of "default.pii" true; check_of "default.regex" false] true false;
   guardrail "tone" [check_of "default.tone" false] false true].

Definition body (text : string) : json :=
  JObj [("messages", JArr [JObj [("role", JStr "user"); ("content", JStr text)]])].

Definition span (hs : list HookObject) : HookSpan :=
  default (mkSpan (mkCtx (mkCtxRequest None None false false []) (mkCtxResponse None None None false) "" "" [])
             [] [] [] [] None)
    (createSpan to_text (Some (body "my card")) [] "openai" false hs [] None "chatComplete" []).

Definition says (b : bool) : Outcome := Returned (mkPluginResponse None (Some b) None None false None).

Definition replaces (text : string) : Outcome :=
  Returned (mkPluginResponse None (Some true) None
    (Some (JObj [("request", JObj [("json", body text)]); ("response", JObj [("json", JNull)])])) true None).

Definition outs (i j : nat) : Outcome :=
  match i, j with
  | 0, 0 => Threw
  | 0, _ => says true
  | _, _ => replaces "[masked]"
  end.

Fixpoint exec (ls : list label) (s : Run) : option Run :=
  match ls with
  | [] => Some s
  | l :: r => match settle to_text l s with Some s1 => exec r s1 | None => None end
  end.

Lemma exec_runs ls s s' : exec ls s = Some s' -> run (step to_text) ls s s'.
Proof.
  revert s. induction ls as [|l ls IH]; intros s; simpl; [by intros [= <-]; constructor|].
  destruct (settle to_text l s) as [s1|] eqn:Hs; [|done]. intros H. econstructor; [exact Hs|by apply IH].
Qed.

Definition labels : list label :=
  [Settle 1 0 (outs 1 0); Settle 0 1 (outs 0 1); Settle 0 0 (outs 0 0)].

Definition final : Run := default (start hooks (span hooks)) (exec labels (start hooks (span hooks))).

(** The PII check could not run, so the request is denied; the masking of the
    other hook is in the context. *)
Example final_answer :
  snd <$> answer final = Some true /\
  cq_text (hc_request (sp_context (rn_span final))) = Some (JStr "[masked]").
Proof. vm_compute. done. Qed.

Lemma final_reachable : run (step to_text) labels (start hooks (span hooks)) final.
Proof. apply exec_runs. vm_compute. reflexivity. Qed.

Lemma labels_labelled : labelled outs labels.
Proof. repeat constructor. Qed.

Lemma hooks_answer_outcomes_witness :
  answer final = Some (reference_results (span hooks) hooks outs, true).
Proof.
  destruct (answer final) as [a|] eqn:Ha; [|vm_compute in Ha; discriminate].
  pose proof (hooks_answer_outcomes to_text (span hooks) hooks outs labels final a
    final_reachable labels_labelled Ha) as H.
  assert (Hrej : existsb is_rejected (rn_threads final) = false) by (vm_compute; reflexivity).
  rewrite Hrej in H. rewrite H. vm_compute. reflexivity.
Defined.

Lemma denied_iff_a_check_fails_witness :
  exists i h j c, hooks !! i = Some h /\ run_checks h !! j = Some c /\ fails c (outs i j) = true.
Proof.
  destruct (answer final) as [[rs deny]|] eqn:Ha; [|vm_compute in Ha; discriminate].
  assert (Hd : deny = true) by (apply (f_equal (fmap snd)) in Ha; vm_compute in Ha; by injection Ha as [= <-]).
  destruct (proj1 (denied_iff_a_check_fails to_text (span hooks) hooks outs labels final rs deny
    final_reachable labels_labelled Ha) Hd) as (_ & i & h & j & c & Hh & _ & _ & Hc & Hf).
  by exists i, h, j, c.
Defined.

Lemma hooks_terminate_witness :
  (length labels + remaining final <= remaining (start hooks (span hooks)))%nat /\
  remaining (start hooks (span hooks)) = 3%nat.
Proof.
  split; [|vm_compute; reflexivity].
  apply (hooks_terminate to_text hooks (span hooks) labels final final_reachable).
Defined.

(** A hook of the config whose check has no id: the denial of the other hook is
    lost, and the request goes on. *)
Definition with_broken_hook : list HookObject :=
  hooks ++ [guardrail "typo" [mkCheck None None None] true false].

Lemma broken_hook_opens_every_guardrail :
  denies (guardrail "pii" [check_of "default.pii" true] true false,
          hook_result (guardrail "pii" [check_of "default.pii" true] true false)
            (check_results [check_of "default.pii" true] (fun _ => says false))) = true /\
  let s := start with_broken_hook (span with_broken_hook) in
  answer s = Some ([], false) /\ beforeRequestHookHandler s ([], false) = Proceed (Some JNull).
Proof. vm_compute. done. Qed.

(** [is_enabled: false] stops a guardrail's check, not a mutator's. *)
Lemma disabled_mutator_checks_run :
  let c := mkCheck (Some "default.mask") None (Some false) in
  run_checks (guardrail "g" [c] false false) = [] /\
  run_checks (mkHook HookType.MUTATOR "m" (Some [c]) false false None None false beforeRequestHook) = [c].
Proof. done. Qed.
End Samples.
