(* ===== verification/PayloadSize.v ===== *)
(** * Payload size check

    Models [middlewares/payloadSizeValidator.ts]: the limits on JSON bodies and on
    form uploads, read per request from two variables of the environment and
    compared with the declared [content-length], in binary64.

    [size_refusals_exact]: for whole limits, the answer is the one whole numbers
    give: a body of exactly the limit passes, one more byte is refused; while
    uploads are limited, a form without a usable length is refused with 411. *)

From Stdlib Require Import ZArith Lia ZifyBool Ascii Floats.SpecFloat.
From stdpp Require Import base strings option list.
From S2P Require Import Prelude JsValue BudgetKeys JsText Doubles.

#[local] Open Scope string_scope.
#[local] Open Scope Z_scope.
#[local] Arguments num_of_Z : simpl never.

Definition BYTES_PER_MB : Z := 1048576.

(** The two variables, as the environment has them. *)
Record SizeVars := mkVars {
  MAX_JSON_PAYLOAD_SIZE_IN_MB : option string;
  MAX_FILE_PAYLOAD_SIZE_IN_MB : option string
}.

(** The refusals, with the limit their message names. *)
Inductive SizeRefusal :=
| JsonTooLarge (limitMb : num)
| LengthRequired
| UploadTooLarge (limitMb : num).

Definition refusal_status (r : SizeRefusal) : Z :=
  match r with LengthRequired => 411 | _ => 413 end.

(** The reason recorded as a [payload.rejected] event. *)
Definition refusal_reason (r : SizeRefusal) : string :=
  match r with LengthRequired => "length_required" | _ => "payload_too_large" end.

(** [Number(raw)] *)
Definition number_of (raw : option string) : num := ToNumber (JStr <$> raw).

Definition megabytes (bytes : num) : num := ndiv bytes (num_of_Z BYTES_PER_MB).

Definition json_refusal (limitMb : num) (declared : option string) : option SizeRefusal :=
  let bytes := match declared with Some s => to_number s | None => nzero end in
  if nltb limitMb (megabytes bytes) then Some (JsonTooLarge limitMb) else None.

Definition FORM_TYPES : list string :=
  ["multipart/form-data"; "application/x-www-form-urlencoded"].

(** [declared?.trim() ? Number(declared) : NaN] *)
Definition declared_bytes (declared : option string) : num :=
  match declared with
  | Some s => if truthy_string (trim s) then to_number s else NaN
  | None => NaN
  end.

Definition upload_refusal (fileLimitMb : num) (declared : option string) : option SizeRefusal :=
  let bytes := declared_bytes declared in
  if negb (is_finite_num bytes) || nltb bytes nzero then Some LengthRequired
  else if nltb fileLimitMb (megabytes bytes) then Some (UploadTooLarge fileLimitMb)
  else None.

(** [None]: the next handler runs. *)
Definition payloadSizeValidator (vars : SizeVars) (content_type content_length : option string)
    : option SizeRefusal :=
  let contentType := mime_of content_type in
  let limitMb := number_of (MAX_JSON_PAYLOAD_SIZE_IN_MB vars) in
  let json :=
    if nltb nzero limitMb && (contentType =? "application/json")%string
    then json_refusal limitMb content_length else None in
  match json with
  | Some r => Some r
  | None =>
      let fileLimitMb := number_of (MAX_FILE_PAYLOAD_SIZE_IN_MB vars) in
      if nltb nzero fileLimitMb && mem_string contentType FORM_TYPES
      then upload_refusal fileLimitMb content_length else None
  end.

(** ** Whole limits *)

(** What a [content-length] says: a number of bytes, infinity, or nothing an
    upload could be admitted with. *)
Inductive Length := Unusable | Endless | Bytes (n : Z).

Definition says (declared : option string) (l : Length) : Prop :=
  match l, declared with
  | Bytes n, Some s => 0 <= n < 2 ^ 53 /\ truthy_string (trim s) = true /\ to_number s = num_of_Z n
  | Endless, Some s => truthy_string (trim s) = true /\ to_number s = Infinity
  | Unusable, Some s => trim s = "" /\ to_number s = nzero \/ to_number s = NaN \/ nltb (to_number s) nzero = true
  | Unusable, None => True
  | _, None => False
  end.

(** A limit of [l] megabytes; zero is no limit. *)
Definition limit_of (raw : option string) (l : Z) : Prop :=
  0 <= l /\ l * BYTES_PER_MB < 2 ^ 53 /\
  (number_of raw = num_of_Z l \/ (l = 0 /\ nltb nzero (number_of raw) = false)).

(** The limits in whole bytes. *)
Definition over (l n : Z) : bool := (0 <? l) && (l * BYTES_PER_MB <? n).

Definition refused_status (json file : Z) (contentType : string) (length : Length) : option Z :=
  if (contentType =? "application/json")%string then
    match length with
    | Bytes n => if over json n then Some 413 else None
    | Endless => if 0 <? json then Some 413 else None
    | Unusable => None
    end
  else if mem_string contentType FORM_TYPES then
    match length with
    | Bytes n => if over file n then Some 413 else None
    | Endless | Unusable => if 0 <? file then Some 411 else None
    end
  else None.

Lemma megabytes_over l n : 0 <= n < 2 ^ 53 -> 0 <= l -> l * BYTES_PER_MB < 2 ^ 53 ->
  nltb (num_of_Z l) (megabytes (num_of_Z n)) = (l * BYTES_PER_MB <? n).
Proof. intros Hn Hl Hlk. apply (nltb_scaled n l 20); done || lia. Qed.

(** Whether a limit is on, and that it is then a whole number. *)
Lemma limit_cases raw l : limit_of raw l ->
  nltb nzero (number_of raw) = (0 <? l) /\ (0 < l -> number_of raw = num_of_Z l).
Proof.
  intros (Hl & Hb & [Hn | [-> Hoff]]); [|split; [done|lia]].
  split; [|done]. rewrite Hn. unfold BYTES_PER_MB in Hb. change nzero with (num_of_Z 0). apply nltb_ints; lia.
Qed.

Lemma whole_not_negative n : 0 <= n < 2 ^ 53 ->
  is_finite_num (num_of_Z n) = true /\ nltb (num_of_Z n) nzero = false.
Proof.
  intros Hn. split.
  - destruct n as [|p|p]; [done| |lia]. rewrite num_of_pos by lia. done.
  - change nzero with (num_of_Z 0). rewrite nltb_ints by lia. lia.
Qed.

Lemma round_keeps_sign s m e l :
  match binary_round_aux 53 1024 s m e l with
  | S754_zero b | S754_infinity b | S754_finite b _ _ => b = s
  | S754_nan => True
  end.
Proof.
  unfold binary_round_aux. destruct (shr_fexp _ _ _ _ _) as [mrs e1]. destruct (shr_fexp _ _ _ _ _) as [mrs' e2].
  destruct (shr_m mrs') as [|q|q]; [done| |done]. by destruct (e2 <=? _).
Qed.

(** A negative number, an unreadable one or none at all is over no limit. *)
Lemma unusable_under l x : 0 < l < 2 ^ 53 -> x = NaN \/ x = nzero \/ nltb x nzero = true ->
  nltb (num_of_Z l) (megabytes x) = false.
Proof.
  intros Hl Hx. destruct l as [|p|p]; [lia| |lia]. rewrite num_of_pos by lia.
  unfold megabytes.
  replace (num_of_Z BYTES_PER_MB) with (int_num false 1048576) by (symmetry; apply num_of_pos; done).
  destruct Hx as [-> | [-> | Hx]]; [done..|].
  destruct x as [[|]|[|]| |[|] m e]; try done. unfold ndiv, int_num, SFdiv.
  destruct (SFdiv_core_binary _ _ _ _ _) as [[q e'] l]. cbn [xorb].
  pose proof (round_keeps_sign true q e' l) as Hs.
  by destruct (binary_round_aux _ _ _ _ _ _) as [b|b| |b m' e'']; subst.
Qed.

Lemma json_status l declared len : 0 < l -> l * BYTES_PER_MB < 2 ^ 53 -> says declared len ->
  refusal_status <$> json_refusal (num_of_Z l) declared =
  match len with
  | Bytes n => if over l n then Some 413 else None
  | Endless => Some 413
  | Unusable => None
  end.
Proof.
  intros Hl Hb Hs. unfold json_refusal, over. rewrite (proj2 (Z.ltb_lt 0 l) Hl).
  assert (Hl53 : 0 < l < 2 ^ 53) by (unfold BYTES_PER_MB in Hb; lia).
  destruct len as [| |n], declared as [s|]; simpl in Hs; try done.
  - rewrite unusable_under; [done..|]. destruct Hs as [[_ ->] | [-> | Hn]]; auto.
  - rewrite unusable_under; auto.
  - destruct Hs as [_ ->]. destruct l as [|p|p]; [lia| |lia]. by rewrite num_of_pos by lia.
  - destruct Hs as (Hn & _ & ->). rewrite megabytes_over by (done || lia). by destruct (_ <? n).
Qed.

Lemma upload_status l declared len : 0 < l -> l * BYTES_PER_MB < 2 ^ 53 -> says declared len ->
  refusal_status <$> upload_refusal (num_of_Z l) declared =
  match len with
  | Bytes n => if over l n then Some 413 else None
  | Endless | Unusable => Some 411
  end.
Proof.
  intros Hl Hb Hs. unfold upload_refusal, declared_bytes, over. rewrite (proj2 (Z.ltb_lt 0 l) Hl).
  destruct len as [| |n], declared as [s|]; simpl in Hs; try done.
  - destruct Hs as [[-> _] | [-> | Hn]]; [done|by destruct (truthy_string _)|].
    destruct (truthy_string _); [|done]. by rewrite Hn, orb_true_r.
  - by destruct Hs as [-> ->].
  - destruct Hs as (Hn & -> & ->). destruct (whole_not_negative n Hn) as [-> ->]. simpl.
    rewrite megabytes_over by (done || lia). by destruct (_ <? n).
Qed.

(** With whole limits the check refuses exactly as whole numbers say: a JSON
    body or a form of more bytes than its limit with 413, a form without a usable
    length with 411 while uploads are limited, and nothing else. *)
Theorem size_refusals_exact vars json file content_type declared len :
  limit_of (MAX_JSON_PAYLOAD_SIZE_IN_MB vars) json ->
  limit_of (MAX_FILE_PAYLOAD_SIZE_IN_MB vars) file ->
  says declared len ->
  refusal_status <$> payloadSizeValidator vars content_type declared =
  refused_status json file (mime_of content_type) len.
Proof.
  intros Hj Hf Hs. destruct (limit_cases _ _ Hj) as [Hj1 Hj2]. destruct (limit_cases _ _ Hf) as [Hf1 Hf2].
  destruct Hj as (Hj0 & Hjb & _), Hf as (Hf0 & Hfb & _). unfold payloadSizeValidator, refused_status.
  rewrite Hj1, Hf1. destruct (mime_of content_type =? "application/json")%string eqn:Ht.
  - apply String.eqb_eq in Ht. rewrite Ht, andb_true_r. change (mem_string "application/json" FORM_TYPES) with false.
    rewrite andb_false_r. destruct (Z.ltb_spec 0 json) as [Hp|Hz].
    + rewrite Hj2 by done. transitivity (refusal_status <$> json_refusal (num_of_Z json) declared).
      * by destruct (json_refusal _ _).
      * rewrite (json_status json declared len) by done. by destruct len.
    + by destruct len; unfold over; rewrite ?(proj2 (Z.ltb_ge 0 json) Hz).
  - rewrite andb_false_r. destruct (mem_string _ FORM_TYPES); [|by rewrite andb_false_r].
    rewrite andb_true_r. destruct (Z.ltb_spec 0 file) as [Hp|Hz].
    + rewrite Hf2 by done. rewrite (upload_status file declared len) by done. by destruct len.
    + by destruct len; unfold over; rewrite ?(proj2 (Z.ltb_ge 0 file) Hz).
Qed.

Module Samples.
Definition vars : SizeVars := mkVars (Some "1") (Some "25").

(** One byte over 25 megabytes. *)
Lemma size_refusals_exact_witness :
  refusal_status <$> payloadSizeValidator vars (Some "Multipart/Form-Data; boundary=x") (Some "26214401") =
  refused_status 1 25 "multipart/form-data" (Bytes 26214401).
Proof.
  apply (size_refusals_exact vars 1 25 (Some "Multipart/Form-Data; boundary=x") (Some "26214401") (Bytes 26214401)).
  - split; [lia|]. split; [unfold BYTES_PER_MB; lia|]. left. vm_compute. reflexivity.
  - split; [lia|]. split; [unfold BYTES_PER_MB; lia|]. left. vm_compute. reflexivity.
  - split; [lia|]. split; vm_compute; reflexivity.
Defined.

Example at_the_limit :
  map (fun n => refusal_status <$> payloadSizeValidator vars (Some "multipart/form-data") n)
    [Some "26214400"; Some "26214401"; Some "abc"; None] = [None; Some 413; Some 411; Some 411].
Proof. vm_compute. reflexivity. Qed.

(** A JSON body without a length, or with an unreadable one, passes. *)
Example unread_json_lengths :
  map (payloadSizeValidator vars (Some "application/json")) [None; Some "abc"; Some "-1"] = [None; None; None].
Proof. vm_compute. reflexivity. Qed.
End Samples.
