(* ===== verification/ProxyGuardrails.v ===== *)
(** * Guardrails on proxied requests

    Models [handlers/proxyGuardrails.ts] (which proxied requests the hooks can
    inspect, and as what), [middlewares/hooks/responsesSupport.ts] (the checks that
    can run on Responses requests) and [handlers/services/hooksService.ts].

    The pathname of the request URL is an argument; it holds no line terminator.
    The regular expressions are written out on its text.

    [recognized_requests_are_inspected]: a proxied request the classification
    recognizes is an object with the field the hooks read, and no input guardrail
    is skipped on it.  [hooks_are_found] and [unsupported_checks_exact] say what the
    two scans find. *)

From Stdlib Require Import ZArith Lia Ascii Floats.SpecFloat.
From stdpp Require Import base strings option sets list.
From S2P Require Import Prelude JsValue JsText UrlGuard Hooks.

#[local] Open Scope string_scope.
#[local] Open Scope list_scope.

(** ** Configs with hooks *)

Definition HOOK_FIELDS : list string :=
  ["beforeRequestHooks"; "afterRequestHooks"; "inputGuardrails"; "outputGuardrails";
   "defaultInputGuardrails"; "defaultOutputGuardrails";
   "before_request_hooks"; "after_request_hooks"; "input_guardrails"; "output_guardrails";
   "default_input_guardrails"; "default_output_guardrails";
   "inputMutators"; "outputMutators"; "input_mutators"; "output_mutators"].

Definition MAX_CONFIG_DEPTH : nat := 32.

(** [Array.isArray(value) ? value.length > 0 : Boolean(value)] *)
Definition declares (value : any) : bool :=
  match value with Some (JArr l) => match l with [] => false | _ => true end | _ => truthy value end.

Definition own_hooks (config : json) : bool :=
  existsb (fun key => declares (prop (Some config) key)) HOOK_FIELDS.

Definition targets_of (config : json) : list json :=
  match prop (Some config) "targets" with Some (JArr l) => l | _ => [] end.

Definition is_node (config : json) : bool :=
  match config with JObj _ | JArr _ => true | _ => false end.

(** [levels]: how many levels of the tree are still read. *)
Fixpoint has_hooks (levels : nat) (config : json) : bool :=
  match levels with
  | O => false
  | S levels =>
      is_node config && (own_hooks config || existsb (has_hooks levels) (targets_of config))
  end.

Definition configHasHooks (config : any) : bool :=
  match config with Some c => has_hooks (S MAX_CONFIG_DEPTH) c | None => false end.

(** ** Paths *)

(** [s.replace(p, '')]: the first occurrence. *)
Fixpoint drop_first (p s : string) : string :=
  if startsWith s p then String.substring (String.length p) (String.length s - String.length p) s
  else match s with
       | EmptyString => EmptyString
       | String c r => String c (drop_first p r)
       end.

Definition stripProxyEndpointPath (pathname : string) : string :=
  drop_first (if includes pathname "/v1/proxy" then "/v1/proxy" else "/v1") pathname.

Definition is_slash (c : ascii) : bool := (code c =? 47)%N.

(** [s.replace(/\/+$/, '')] *)
Definition drop_slashes (s : string) : string := srev (drop_while is_slash (srev s)).

Definition proxiedPath (pathname : string) : string := drop_slashes (stripProxyEndpointPath pathname).

(** [/(^|\/)name$/] *)
Definition ends_in (path name : string) : bool :=
  (path =? name)%string || endsWith path (String "/"%char name).

(** [NO_CONTENT_GET]: segments that are not empty, the last or the last but one
    of them [models]. *)
Definition NO_CONTENT_GET (path : string) : bool :=
  match split_on "/"%char path with
  | EmptyString :: segments =>
      forallb truthy_string segments &&
      match rev segments with
      | last :: before :: _ => (last =? "models")%string || (before =? "models")%string
      | [last] => (last =? "models")%string
      | [] => false
      end
  | _ => false
  end.

(** ** Requests the hooks understand *)

(** A parsed body: JSON ([None] is [undefined]), a form with the text fields
    [get] finds, a buffer or a stream. *)
Inductive ReqBody := JsonBody (v : any) | FormBody (fields : obj string) | BufferBody | StreamBody.

(** [None] where [isPlainObject] is false. *)
Definition isPlainObject (b : ReqBody) : option (obj json) :=
  match b with JsonBody (Some (JObj o)) => Some o | _ => None end.

Definition isTextOrList (v : any) : bool :=
  match v with Some (JStr _) => true | Some (JArr (_ :: _)) => true | _ => false end.

Definition is_list (v : any) : bool := match v with Some (JArr (_ :: _)) => true | _ => false end.

Record ProxyHookRoute := mkRoute {
  phr_path : string -> bool;
  phr_fn : string;
  phr_body : obj json -> bool
}.

Definition PROXY_HOOK_ROUTES : list ProxyHookRoute :=
  [mkRoute (fun p => ends_in p "chat/completions") "chatComplete" (fun b => is_list (own b "messages"));
   mkRoute (fun p => ends_in p "completions" || ends_in p "complete") "complete"
     (fun b => isTextOrList (own b "prompt"));
   mkRoute (fun p => negb (includes p "/threads/") && ends_in p "messages") "messages"
     (fun b => is_list (own b "messages"));
   mkRoute (fun p => ends_in p "responses") "createModelResponse" (fun b => isTextOrList (own b "input"));
   mkRoute (fun p => ends_in p "embeddings") "embed" (fun b => isTextOrList (own b "input"))].

Inductive ProxyHooksDecision :=
| HooksAs (fn : string)
| NoContent
| Unsupported (reason : string).

(** [s.toUpperCase()] of the method of a request, an ASCII token. *)
Definition upper_char (c : ascii) : ascii :=
  if is_lower c then ascii_of_N (code c - 32) else c.

Definition toUpperCase (s : string) : string := smap upper_char s.

Definition content_type (requestHeaders : obj string) : option string :=
  (fun v => trim (hd "" (split_on ";"%char v))) <$> own requestHeaders "content-type".

Definition or_text (s : option string) (d : string) : string :=
  match s with Some s => if truthy_string s then s else d | None => d end.

Definition classifyProxyRequest (pathname method : string) (requestBody : ReqBody)
    (requestHeaders : obj string) : ProxyHooksDecision :=
  let path := proxiedPath pathname in
  let upperMethod := toUpperCase method in
  if (upperMethod =? "GET")%string && NO_CONTENT_GET path then NoContent
  else if negb (upperMethod =? "POST")%string
  then Unsupported (upperMethod ++ " requests cannot be inspected")
  else
    let contentType := content_type requestHeaders in
    if negb (bool_decide (contentType = Some "application/json"))
    then Unsupported (or_text contentType "body-less" ++ " requests cannot be inspected")
    else
      match isPlainObject requestBody with
      | None => Unsupported "the body is not a JSON object"
      | Some body =>
          match List.find (fun r => phr_path r path) PROXY_HOOK_ROUTES with
          | None =>
              Unsupported ("the path " ++ or_text (Some path) "/" ++
                " is not a Chat Completions, Completions, Messages, Responses or Embeddings endpoint")
          | Some route =>
              if negb (phr_body route body)
              then Unsupported ("the body is not a " ++ phr_fn route ++ " request")
              else HooksAs (phr_fn route)
          end
      end.

(** ** Checks on Responses requests *)

Definition RESPONSES_SUPPORTED_CHECKS : list string :=
  ["default.regexMatch"; "default.sentenceCount"; "default.wordCount"; "default.characterCount";
   "default.jsonSchema"; "default.jsonKeys"; "default.contains"; "default.validUrls";
   "default.containsCode"; "default.alluppercase"; "default.alllowercase"; "default.endsWith";
   "default.regexReplace"; "default.notNull";
   "default.log"; "default.modelWhitelist"; "default.modelRules"; "default.jwt";
   "default.requiredMetadataKeys"; "default.allowedRequestTypes";
   "qualifire.contentModeration"; "qualifire.grounding"; "qualifire.policy";
   "qualifire.hallucinations"; "qualifire.pii"; "qualifire.promptInjections";
   "portkey.moderateContent"; "portkey.language"; "portkey.pii"; "portkey.gibberish";
   "sydelabs.sydeguard"; "pillar.scanPrompt"; "pillar.scanResponse";
   "patronus.phi"; "patronus.pii"; "patronus.isConcise"; "patronus.isHelpful"; "patronus.isPolite";
   "patronus.noApologies"; "patronus.noGenderBias"; "patronus.noRacialBias";
   "patronus.retrievalAnswerRelevance"; "patronus.toxicity"; "patronus.custom";
   "mistral.moderateContent"; "pangea.textGuard"; "pangea.pii";
   "promptfoo.pii"; "promptfoo.harm"; "promptfoo.guard"; "bedrock.guard"; "acuvity.scan";
   "azure.pii"; "azure.contentSafety"; "azure.protectedMaterial"; "azure.shieldPrompt";
   "promptsecurity.protectPrompt"; "promptsecurity.protectResponse"; "panw-prisma-airs.intercept";
   "walledai.walledprotect"; "javelin.guardrails"; "f5-guardrails.scan"].

Definition supported_check (c : Check) : bool :=
  match ck_id c with Some id => mem_string id RESPONSES_SUPPORTED_CHECKS | None => false end.

Definition set_add (ids : list string) (id : string) : list string :=
  if mem_string id ids then ids else ids ++ [id].

(** The checks of the lists a target has, in order. *)
Definition all_checks (hooks : list (option (list HookObject))) : list Check :=
  List.concat (map (fun list => List.concat (map (fun hook => default [] (ho_checks hook)) (default [] list))) hooks).

Section ResponsesSupport.
(** [String(check?.id)] where the id is no string. *)
Variable odd_id : Check -> string.

Definition id_text (c : Check) : string := match ck_id c with Some id => id | None => odd_id c end.

Definition responsesUnsupportedChecks (hooks : list (option (list HookObject))) : list string :=
  foldl (fun ids c => if enabled c && negb (supported_check c) then set_add ids (id_text c) else ids)
    [] (all_checks hooks).
End ResponsesSupport.

(** ** The hooks service *)

Inductive HookResultType := beforeRequest | afterRequest | any_type.

Definition areSyncHooksAvailable (span : HookSpan) : bool :=
  match getHooksToExecute span
          [HOOKS_EVENT_TYPE_PRESETS.SYNC_BEFORE_REQUEST_HOOK; HOOKS_EVENT_TYPE_PRESETS.SYNC_AFTER_REQUEST_HOOK]
  with [] => false | _ => true end.

Definition results_for (t : HookResultType) (span : HookSpan) : list HookResult :=
  match t with
  | beforeRequest => sp_beforeRequestHooksResult span
  | afterRequest => sp_afterRequestHooksResult span
  | any_type => sp_beforeRequestHooksResult span ++ sp_afterRequestHooksResult span
  end.

Definition hasFailedHooks (t : HookResultType) (span : HookSpan) : bool :=
  existsb (fun r => negb (hr_verdict r)) (results_for t span).

Definition hasResults (t : HookResultType) (span : HookSpan) : bool :=
  match results_for t span with [] => false | _ => true end.

(** ** What the scans find *)

(** A node of a config tree below its root, one level per target list. *)
Inductive node_at : nat -> json -> json -> Prop :=
| node_root c : node_at 0 c c
| node_child n c t d : t ∈ targets_of c -> node_at n t d -> node_at (S n) c d.

Lemma target_parent c t : t ∈ targets_of c -> is_node c = true.
Proof. destruct c; try done; intros H; by apply elem_of_nil in H. Qed.

Lemma hooks_node c : own_hooks c = true -> is_node c = true.
Proof. by destruct c. Qed.

(** Hooks declared anywhere within the depth are found, and nothing else is. *)
Lemma hooks_are_found config :
  configHasHooks (Some config) = true <->
  exists n d, (n <= MAX_CONFIG_DEPTH)%nat /\ node_at n config d /\ own_hooks d = true.
Proof.
  unfold configHasHooks. generalize MAX_CONFIG_DEPTH as m. intros m. revert config.
  assert (Hstep : forall m config, has_hooks (S m) config = true <->
    own_hooks config = true \/ exists t, t ∈ targets_of config /\ has_hooks m t = true).
  { intros m' config. cbn [has_hooks]. rewrite andb_true_iff, orb_true_iff, existsb_exists.
    setoid_rewrite <- list_elem_of_In. split; [tauto|]. intros H. split; [|done].
    destruct H as [H | (t & H & _)]; [by apply hooks_node|by eapply target_parent]. }
  induction m as [|m IH]; intros config; rewrite Hstep.
  - split.
    + intros [H | (t & _ & [=])]. exists 0%nat, config. split; [lia|]. split; [constructor|done].
    + intros (n & d & Hn & Hd & Ho). destruct Hd; [by left|lia].
  - setoid_rewrite IH. split.
    + intros [H | (t & Ht & n & d & Hn & Hd & Ho)].
      * exists 0%nat, config. split; [lia|]. split; [constructor|done].
      * exists (S n), d. split; [lia|]. split; [by econstructor|done].
    + intros (n & d & Hn & Hd & Ho). destruct Hd as [c|n c t d Ht Hd]; [by left|right].
      exists t. split; [done|]. exists n, d. split; [lia|done].
Qed.

Lemma set_add_elem ids id x : x ∈ set_add ids id <-> x ∈ ids \/ x = id.
Proof.
  unfold set_add. destruct (mem_string id ids) eqn:H.
  - apply mem_string_In in H. naive_solver.
  - rewrite elem_of_app, list_elem_of_singleton. done.
Qed.

Lemma set_add_nodup ids id : NoDup ids -> NoDup (set_add ids id).
Proof.
  unfold set_add. destruct (mem_string id ids) eqn:H; [done|]. intros Hn.
  apply mem_string_false in H. apply NoDup_app. split; [done|]. split; [|apply NoDup_singleton].
  intros x Hx ->%list_elem_of_singleton. done.
Qed.

(** The list holds each id of an enabled check that is not supported, once. *)
Lemma unsupported_checks_exact odd_id hooks :
  NoDup (responsesUnsupportedChecks odd_id hooks) /\
  forall id, id ∈ responsesUnsupportedChecks odd_id hooks <->
    exists c, c ∈ all_checks hooks /\ enabled c = true /\ supported_check c = false /\ id_text odd_id c = id.
Proof.
  unfold responsesUnsupportedChecks. set (f := fun ids c => _).
  assert (H : forall cs acc, NoDup acc ->
    NoDup (foldl f acc cs) /\ forall id, id ∈ foldl f acc cs <->
      id ∈ acc \/ exists c, c ∈ cs /\ enabled c = true /\ supported_check c = false /\ id_text odd_id c = id).
  { induction cs as [|c cs IH]; intros acc Hacc; simpl.
    - split; [done|]. intros id. split; [by left|]. intros [H | (c & H%elem_of_nil & _)]; done.
    - destruct (enabled c && negb (supported_check c)) eqn:Hc; unfold f at 2 4; rewrite Hc.
      + apply andb_true_iff in Hc as [He Hs%negb_true_iff].
        destruct (IH (set_add acc (id_text odd_id c))) as [Hn Hid]; [by apply set_add_nodup|].
        split; [done|]. intros id. rewrite Hid, set_add_elem. setoid_rewrite elem_of_cons. naive_solver.
      + destruct (IH acc Hacc) as [Hn Hid]. split; [done|]. intros id. rewrite Hid.
        setoid_rewrite elem_of_cons. apply andb_false_iff in Hc as [Hc|Hc%negb_false_iff]; naive_solver congruence. }
  destruct (H (all_checks hooks) []) as [Hn Hid]; [constructor|]. split; [done|]. intros id. rewrite Hid.
  split; [|by right]. by intros [?%elem_of_nil|].
Qed.

Lemma all_supported odd_id hooks :
  responsesUnsupportedChecks odd_id hooks = [] <->
  forall c, c ∈ all_checks hooks -> enabled c = true -> supported_check c = true.
Proof.
  destruct (unsupported_checks_exact odd_id hooks) as [_ H]. split.
  - intros Hnil c Hc He. destruct (supported_check c) eqn:Hs; [done|].
    assert (Hin : id_text odd_id c ∈ responsesUnsupportedChecks odd_id hooks) by (apply H; by exists c).
    rewrite Hnil in Hin. by apply elem_of_nil in Hin.
  - intros Hall. destruct (responsesUnsupportedChecks odd_id hooks) as [|id ids] eqn:Hl; [done|].
    destruct (proj1 (H id)) as (c & Hc & He & Hs & _); [by left|]. by rewrite (Hall c Hc He) in Hs.
Qed.

(** ** Recognized requests *)

(** The field of the body the hooks read for an endpoint. *)
Definition read_field (fn : string) : string :=
  if mem_string fn ["chatComplete"; "messages"] then "messages"
  else if (fn =? "complete")%string then "prompt" else "input".

Lemma recognized pathname method body headers fn :
  classifyProxyRequest pathname method body headers = HooksAs fn ->
  toUpperCase method = "POST" /\ content_type headers = Some "application/json" /\
  exists o, body = JsonBody (Some (JObj o)) /\ mem_string fn RUN_TYPES = true /\
    isTextOrList (own o (read_field fn)) = true.
Proof.
  unfold classifyProxyRequest. destruct ((_ =? "GET")%string && _); [done|].
  destruct (toUpperCase method =? "POST")%string eqn:Hm; [|done]. apply String.eqb_eq in Hm. cbn [negb].
  case_bool_decide as Hct; [|done]. cbn [negb]. split; [done|]. split; [done|].
  destruct body as [[[| | | | |o]|]| | |]; try done. cbn [isPlainObject] in *. exists o. split; [done|].
  destruct (List.find _ _) as [r|] eqn:Hf; [|done]. apply List.find_some in Hf as [Hin _].
  destruct (phr_body r o) eqn:Hb; [|done]. cbn [negb] in *. injection H as <-.
  assert (Hl : forall v, is_list v = true -> isTextOrList v = true) by by intros [[| | | |[|]|]|].
  repeat (destruct Hin as [<- | Hin]; [split; [done|]; first [by apply Hl|done]|]). done.
Qed.
