(* ===== verification/AdapterRouting.v ===== *)
(** * How a request reaches a provider's API

    Models the routing decisions of the Messages and Responses adapters: which
    providers speak the requested API ([adapters/messages/index.ts],
    [adapters/responses/index.ts], [adapters/messagesViaResponses/index.ts]), the
    request side of [handlers/adapterUtils.ts], and the two functions that take the
    gateway's own reasoning out of a body ([stripIssuedReasoning],
    [stripIssuedThinking]).

    The translations between the formats and the provider tables are parameters: a
    translation answers, refuses with a message, or throws. *)

From Stdlib Require Import ZArith Lia Ascii Floats.SpecFloat.
From stdpp Require Import base strings option list.
From S2P Require Import Prelude JsValue JsText UrlGuard Hooks ProxyGuardrails TargetTree.

#[local] Open Scope string_scope.
#[local] Open Scope list_scope.

(** ** Providers and models *)

Definition OPEN_AI : string := "openai".

Definition PROVIDERS_THAT_HANDLE_MESSAGES_FOR_ALL_MODELS : list string :=
  ["anthropic"; "bedrock"; "claude-platform-aws"; "meta-model-api"].

Definition PROVIDERS_THAT_HANDLE_MESSAGES_FOR_ANTHROPIC_MODELS : list string :=
  ["vertex-ai"; "azure-ai"; "bedrock-mantle"].

(** [model.includes('claude')]: a text or, element by element, a list; [None]
    where there is no such method. *)
Definition includes_claude (model : any) : option bool :=
  match model with
  | Some (JStr s) => Some (includes s "claude")
  | Some (JArr l) => Some (existsb (fun v => match v with JStr s => (s =? "claude")%string | _ => false end) l)
  | _ => None
  end.

(** [None]: it throws. *)
Definition supportsMessagesApiNatively (provider : string) (model : any) : option bool :=
  let everywhere := mem_string (toLowerCase provider) PROVIDERS_THAT_HANDLE_MESSAGES_FOR_ALL_MODELS in
  if mem_string (toLowerCase provider) PROVIDERS_THAT_HANDLE_MESSAGES_FOR_ANTHROPIC_MODELS
  then (fun b => b || everywhere) <$> includes_claude model
  else Some everywhere.

Definition NATIVE_PROVIDERS : list string :=
  ["openai"; "azure-openai"; "groq"; "iointelligence"; "bedrock-mantle"; "meta-model-api"].

Definition supportsResponsesApiNatively (provider : string) : bool :=
  mem_string (toLowerCase provider) NATIVE_PROVIDERS.

Definition VIA_RESPONSES_PROVIDERS : list string := ["openai"; "azure-openai"].

(** [(-|$)] *)
Definition at_end_or_dash (s : string) : bool :=
  match s with EmptyString => true | String c _ => (code c =? 45)%N end.

(** What follows [p] in [s]. *)
Definition after_prefix (p s : string) : option string :=
  if startsWith s p then Some (String.substring (String.length p) (String.length s - String.length p) s)
  else None.

(** [gpt-5(\.\d+)?-pro], then [-] or the end. *)
Definition gpt5_pro (s : string) : bool :=
  match after_prefix "gpt-5" s with
  | None => false
  | Some r =>
      let tail r := match after_prefix "-pro" r with Some t => at_end_or_dash t | None => false end in
      tail r ||
      match r with
      | String "."%char d =>
          match take_while is_digit d with EmptyString => false | _ => tail (drop_while is_digit d) end
      | _ => false
      end
  end.

Definition RESPONSES_ONLY_MODEL (id : string) : bool :=
  includes id "codex" ||
  existsb (fun p => match after_prefix p id with Some t => at_end_or_dash t | None => false end)
    ["o1-pro"; "o3-pro"; "o3-deep-research"; "o4-mini-deep-research"] ||
  gpt5_pro id.

(** [id.toLowerCase().split('/').pop()] *)
Definition last_segment (model : string) : string :=
  List.last (split_on "/"%char (toLowerCase model)) "".

(** [None]: it throws, on a model that is no text. *)
Definition routesMessagesViaResponses (provider : string) (model : any) (override : option bool)
    : option bool :=
  if negb (mem_string (toLowerCase provider) VIA_RESPONSES_PROVIDERS) then Some false
  else match override, model with
       | Some b, _ => Some b
       | None, Some (JStr m) => Some (RESPONSES_ONLY_MODEL (last_segment m))
       | None, _ => None
       end.

Definition messagesViaResponsesOverride (targetSetting : any) (headerValue : option string)
    (targetHasHooks : bool) : option bool :=
  match targetSetting with
  | Some (JBool b) => Some b
  | _ =>
      let h := toLowerCase (trim (default "" headerValue)) in
      if (h =? "true")%string then (if targetHasHooks then None else Some true)
      else if (h =? "false")%string then Some false else None
  end.

(** ** Reasoning the gateway issued *)

Definition has_prefix (p : string) (v : any) : bool :=
  match v with Some (JStr s) => startsWith s p | _ => false end.

Definition isIssued (v : any) : bool := has_prefix "ps-rsn1:" v.
Definition isIssuedThinking (v : any) : bool := has_prefix "ps-thk1:" v.

Definition has_tag (v : json) (t : string) : bool :=
  match prop (Some v) "type" with Some (JStr s) => (s =? t)%string | _ => false end.

Definition issued_block (b : json) : bool :=
  (has_tag b "thinking" && isIssued (prop (Some b) "signature")) ||
  (has_tag b "redacted_thinking" && isIssued (prop (Some b) "data")).

(** The content of an assistant turn that is a list. *)
Definition assistant_blocks (m : json) : option (list json) :=
  match prop (Some m) "role", prop (Some m) "content" with
  | Some (JStr "assistant"), Some (JArr l) => Some l
  | _, _ => None
  end.

Definition kept_blocks (l : list json) : list json := List.filter (fun b => negb (issued_block b)) l.

Definition strip_message (m : json) : list json :=
  match assistant_blocks m with
  | None => [m]
  | Some l =>
      let content := kept_blocks l in
      if Nat.eqb (length content) (length l) then [m]
      else match content with
           | [] => []
           | _ => [JObj (obj_put (spread (Some m)) "content" (JArr content))]
           end
  end.

Definition changes (m : json) : bool :=
  match assistant_blocks m with
  | None => false
  | Some l => negb (Nat.eqb (length (kept_blocks l)) (length l))
  end.

Definition stripIssuedReasoning (body : any) : any :=
  match prop body "messages" with
  | Some (JArr messages) =>
      if existsb changes messages
      then Some (JObj (obj_put (spread body) "messages" (JArr (List.concat (map strip_message messages)))))
      else body
  | _ => body
  end.

Definition issued_item (item : json) : bool :=
  has_tag item "reasoning" && isIssuedThinking (prop (Some item) "encrypted_content").

Definition stripIssuedThinking (body : any) : any :=
  match prop body "input" with
  | Some (JArr input) =>
      let out := List.filter (fun i => negb (issued_item i)) input in
      if Nat.eqb (length out) (length input) then body
      else Some (JObj (obj_put (spread body) "input" (JArr out)))
  | _ => body
  end.

(** ** The request side of the adapters *)

Record AdapterContext := mkAdapter {
  ac_originalFn : string;
  ac_originalRequest : obj json;
  ac_provider : string;
  ac_viaResponses : bool
}.

(** Answers given without calling a provider. *)
Inductive LocalAnswer :=
| EstimatedMessages
| EstimatedResponses
| InvalidMessages (message : string)
| UnsupportedParameter (message : string) (param : any)
| NativeOnly (method : string)
| UnsupportedOperation (method route provider : string)
| CountUnsupported (provider : string).

Definition local_status (a : LocalAnswer) : Z :=
  match a with EstimatedMessages | EstimatedResponses => 200 | _ => 400 end.

Inductive AdapterResult :=
| NoAdapter
| Answer (a : LocalAnswer)
| Adapted (ctx : AdapterContext) (requestBody : obj json) (fn : string)
| AdapterThrew.

(** What a translation gives: the translated body, the refusal the adapter turns
    into an answer, or any other exception. *)
Inductive Translated :=
| Translation (body : obj json)
| Refused (message : string) (param : any)
| TranslationThrew.

Definition RESPONSES_PROVIDER_OPERATIONS (fn : string) : option (string * list string) :=
  if (fn =? "cancelModelResponse")%string
  then Some ("/v1/responses/{id}/cancel", ["openai"; "azure-openai"])
  else if (fn =? "countResponseInputTokens")%string then Some ("/v1/responses/input_tokens", ["openai"])
  else None.

Definition READ_OPERATIONS : list string :=
  ["getModelResponse"; "deleteModelResponse"; "listResponseInputItems"].

(** [requestBody instanceof ReadableStream || requestBody instanceof FormData ? {} : { ...requestBody }] *)
Definition original_request (requestBody : ReqBody) : obj json :=
  match requestBody with JsonBody v => spread v | _ => [] end.

Section Adapters.
Variable transformMessagesToResponses : any -> string -> Translated.
Variable transformMessagesToChatCompletions : any -> Translated.
Variable transformResponsesToChatCompletions : any -> string -> Translated.
(** The names in the provider's chat configuration, when it has one for these
    parameters. *)
Variable chat_config : string -> obj json -> option (list string).
(** [Boolean(providerFnConfig(provider, fn, params))] *)
Variable providerFnConfig : string -> string -> any -> bool.

Definition normalizeTokenLimitForProvider (params : obj json) (provider : string) : obj json :=
  match own params "max_completion_tokens", chat_config provider params with
  | Some limit, Some names =>
      if mem_string "max_completion_tokens" names || negb (mem_string "max_tokens" names) then params
      else obj_put (map_delete params "max_completion_tokens") "max_tokens" limit
  | _, _ => params
  end.

(** [params.model || ''] *)
Definition model_or_empty (params : any) : any := js_or (prop params "model") (Some (JStr "")).

Definition via_responses (params : any) (provider : string) : AdapterResult :=
  match transformMessagesToResponses params provider with
  | Translation p => Adapted (mkAdapter "messages" [] provider true) p "createModelResponse"
  | Refused message _ => Answer (InvalidMessages message)
  | TranslationThrew => AdapterThrew
  end.

Definition via_chat (fn : string) (requestBody : ReqBody) (provider : string) (t : Translated) : AdapterResult :=
  match t with
  | Translation p =>
      Adapted (mkAdapter fn (original_request requestBody) provider false)
        (normalizeTokenLimitForProvider p provider) "chatComplete"
  | Refused message param =>
      if (fn =? "messages")%string then AdapterThrew else Answer (UnsupportedParameter message param)
  | TranslationThrew => AdapterThrew
  end.

Definition messages_route (provider : string) (params : any) (requestBody : ReqBody)
    (messagesViaResponses : option bool) : AdapterResult :=
  match routesMessagesViaResponses provider (model_or_empty params) messagesViaResponses with
  | None => AdapterThrew
  | Some true => via_responses params provider
  | Some false =>
      match supportsMessagesApiNatively provider (model_or_empty params) with
      | None => AdapterThrew
      | Some true => NoAdapter
      | Some false => via_chat "messages" requestBody provider (transformMessagesToChatCompletions params)
      end
  end.

Definition applyAdapterRequestTransform (fn provider : string) (params : any) (requestBody : ReqBody)
    (method : string) (messagesViaResponses : option bool) : AdapterResult :=
  if negb (truthy_string provider) then NoAdapter
  else if (fn =? "messages")%string then messages_route provider params requestBody messagesViaResponses
  else if (fn =? "createModelResponse")%string && negb (supportsResponsesApiNatively provider)
  then via_chat fn requestBody provider (transformResponsesToChatCompletions params provider)
  else if mem_string fn READ_OPERATIONS && negb (supportsResponsesApiNatively provider)
  then Answer (NativeOnly method)
  else match RESPONSES_PROVIDER_OPERATIONS fn with
       | Some (route, providers) =>
           if mem_string provider providers then NoAdapter
           else Answer (UnsupportedOperation method route provider)
       | None => NoAdapter
       end.

(** The generation-only fields have no place in a count. *)
Definition count_params (responsesParams : obj json) : obj json :=
  map_delete (map_delete (map_delete responsesParams "store") "stream") "max_output_tokens".

Definition messagesCountTokensRoute (provider : string) (params : any) (customHost : option string)
    (targetHasHooks : bool) : AdapterResult :=
  let nativeCount := providerFnConfig provider "messagesCountTokens" params in
  let speaks := providerFnConfig provider "chatComplete" params || providerFnConfig provider "messages" params in
  if targetHasHooks && (nativeCount || (provider =? OPEN_AI)%string || speaks) then Answer EstimatedMessages
  else if nativeCount then NoAdapter
  else if (provider =? OPEN_AI)%string && negb (truthy_opt customHost) then
    match transformMessagesToResponses params provider with
    | Translation p =>
        Adapted (mkAdapter "messagesCountTokens" [] provider true) (count_params p) "countResponseInputTokens"
    | Refused _ _ => Answer EstimatedMessages
    | TranslationThrew => AdapterThrew
    end
  else if speaks then Answer EstimatedMessages
  else Answer (CountUnsupported provider).
End Adapters.

(** ** What reaches a native provider *)

Lemma filter_length_id {A} (f : A -> bool) l : length (List.filter f l) = length l -> List.filter f l = l.
Proof.
  induction l as [|x l IH]; simpl; [done|]. destruct (f x); simpl; intros H; [by f_equal; apply IH; lia|].
  pose proof (List.filter_length_le f l). lia.
Qed.

(** No assistant turn keeps a block the gateway issued. *)
Definition free_of_issued (m : json) : Prop :=
  forall l b, assistant_blocks m = Some l -> b ∈ l -> issued_block b = false.

Lemma kept_free l b : b ∈ kept_blocks l -> issued_block b = false.
Proof. intros [_ H%negb_true_iff]%filter_elem. done. Qed.

Lemma own_obj_put_same {A} (o : obj A) k v : own (obj_put o k v) k = Some v.
Proof. rewrite own_put. by rewrite String.eqb_refl. Qed.

Lemma unchanged_free m : changes m = false -> free_of_issued m.
Proof.
  unfold changes, free_of_issued. intros Hc l b Hl Hb. rewrite Hl in Hc.
  apply negb_false_iff, Nat.eqb_eq, filter_length_id in Hc. apply (kept_free l). unfold kept_blocks. by rewrite Hc.
Qed.

Lemma strip_message_free m m' : m' ∈ strip_message m -> free_of_issued m'.
Proof.
  unfold strip_message. destruct (assistant_blocks m) as [l|] eqn:Hm.
  2: { intros ->%list_elem_of_singleton l b Hl. by rewrite Hm in Hl. }
  destruct (Nat.eqb _ _) eqn:Hlen.
  - intros ->%list_elem_of_singleton. apply unchanged_free. unfold changes. by rewrite Hm, Hlen.
  - destruct (kept_blocks l) as [|b0 bs] eqn:Hk; [by intros ?%elem_of_nil|].
    intros ->%list_elem_of_singleton l' b Hl' Hb. apply (kept_free l). rewrite Hk.
    unfold assistant_blocks in Hl'. cbn [prop] in Hl'. rewrite own_obj_put_same in Hl'.
    destruct (own _ "role") as [[| | |r| |]|]; try done.
    by repeat (destruct r as [|[[] [] [] [] [] [] [] []] r]; try done); injection Hl' as <-.
Qed.

(** A native Messages target is sent no reasoning the gateway issued. *)
Lemma stripped_reasoning body l m :
  prop (stripIssuedReasoning body) "messages" = Some (JArr l) -> m ∈ l -> free_of_issued m.
Proof.
  unfold stripIssuedReasoning. destruct (prop body "messages") as [v|] eqn:Hv; [|by rewrite Hv].
  destruct v as [| | | |messages|]; try by rewrite Hv.
  destruct (existsb changes messages) eqn:Hc.
  - cbn [prop]. rewrite own_obj_put_same. intros [= <-] Hm.
    apply list_elem_of_In, in_concat in Hm as (ms & (m0 & <- & _)%in_map_iff & Hm).
    apply (strip_message_free m0). by apply list_elem_of_In.
  - rewrite Hv. intros [= <-] Hm. apply unchanged_free. rewrite <- not_true_iff_false in *.
    intros Hch. apply Hc, existsb_exists. exists m. split; [by apply list_elem_of_In|done].
Qed.

(** A native Responses target is sent no thinking the gateway issued. *)
Lemma stripped_thinking body l i :
  prop (stripIssuedThinking body) "input" = Some (JArr l) -> i ∈ l -> issued_item i = false.
Proof.
  unfold stripIssuedThinking. destruct (prop body "input") as [v|] eqn:Hv; [|by rewrite Hv].
  destruct v as [| | | |input|]; try by rewrite Hv.
  destruct (Nat.eqb _ _) eqn:Hlen.
  - apply Nat.eqb_eq, filter_length_id in Hlen. rewrite Hv. intros [= <-] Hi.
    rewrite <- Hlen in Hi. by apply filter_elem in Hi as [_ ?%negb_true_iff].
  - cbn [prop]. rewrite own_obj_put_same. intros [= <-] [_ ?%negb_true_iff]%filter_elem. done.
Qed.

Lemma put_keeps body key v w k : prop body key = Some w -> k <> key ->
  prop (Some (JObj (obj_put (spread body) key v))) k = prop body k.
Proof.
  destruct body as [[| | | | |o]|]; try done. intros _ Hk. cbn [prop spread]. rewrite own_put.
  by destruct (String.eqb_spec k key).
Qed.

(** Neither touches the other fields. *)
Lemma stripped_keeps body k :
  (k <> "messages" -> prop (stripIssuedReasoning body) k = prop body k) /\
  (k <> "input" -> prop (stripIssuedThinking body) k = prop body k).
Proof.
  unfold stripIssuedReasoning, stripIssuedThinking. split; intros Hk.
  - destruct (prop body "messages") as [[| | | |l|]|] eqn:Hv; try done.
    destruct (existsb changes l); [by eapply put_keeps|done].
  - destruct (prop body "input") as [[| | | |l|]|] eqn:Hv; try done.
    destruct (Nat.eqb _ _); [done|by eapply put_keeps].
Qed.
