(* ===== verification/TryPost.v ===== *)
(** * The call of one target

    Models [tryPost] ([handlers/handlerUtils.ts]): the group policy
    ([middlewares/psOidc/identity.ts]) and the data policy of the target, the
    guardrails on proxied and Responses requests, the choice of an adapter, and what
    is handed to [tryPostToProvider]; and the order of the steps of
    [tryPostToProvider] up to the upstream call.  The body a target is sent is
    [RequestContext.params] ([handlers/services/requestContext.ts]).

    [called_target_passed_the_gates]: a call that is made complies with both
    policies for the models [targetModels] names, and a model that is sent as a
    text in JSON is one of them.  [guarded_call_is_inspected]: a target with hooks
    is called only with a request its checks can read.  The [Samples] show the two
    ways a model is sent that was not checked. *)

From Stdlib Require Import ZArith Lia Ascii Floats.SpecFloat.
From stdpp Require Import base strings option sets list.
From S2P Require Import Prelude JsValue RoutePolicy Constraints RouterMiddleware JsText GroupPolicy TargetTree.
From S2P Require Import UrlGuard Hooks ProxyGuardrails AdapterRouting.

#[local] Open Scope string_scope.
#[local] Open Scope list_scope.

(** ** A target and its body *)

(** The options of a target [tryPost] reads. *)
Record Options := mkOptions {
  op_provider : option string;
  op_overrideParams : any;
  op_deploymentId : any;
  op_azureDeploymentName : any;
  op_customHost : option string;
  op_messagesViaResponses : any;
  op_strictOpenAiCompliance : any;
  op_beforeRequestHooks : option (list HookObject);
  op_afterRequestHooks : option (list HookObject);
  op_defaultInputGuardrails : option (list HookObject);
  op_defaultOutputGuardrails : option (list HookObject)
}.

Definition not_strict (o : Options) : Options :=
  mkOptions (op_provider o) (op_overrideParams o) (op_deploymentId o) (op_azureDeploymentName o)
    (op_customHost o) (op_messagesViaResponses o) (Some (JBool false)) (op_beforeRequestHooks o)
    (op_afterRequestHooks o) (op_defaultInputGuardrails o) (op_defaultOutputGuardrails o).

Definition targetHooks (o : Options) : list (option (list HookObject)) :=
  [op_beforeRequestHooks o; op_afterRequestHooks o; op_defaultInputGuardrails o; op_defaultOutputGuardrails o].

Definition targetHasHooks (o : Options) : bool :=
  existsb (fun h => match h with Some (_ :: _) => true | _ => false end) (targetHooks o).

Definition requestModel (body : ReqBody) : option string :=
  match body with
  | FormBody fields => as_string (own fields "model" ≫= fun s => Some (JStr s))
  | JsonBody v => as_string (prop v "model")
  | BufferBody | StreamBody => None
  end.

Definition override_model (o : Options) : option string :=
  match prop (op_overrideParams o) "model" with
  | Some (JStr s) => if truthy_string s then Some s else None
  | _ => None
  end.

Definition deployments (o : Options) : list any :=
  (if bool_decide (op_provider o = Some "azure-openai") then [op_deploymentId o] else []) ++
  (if bool_decide (op_provider o = Some "azure-ai") then [op_azureDeploymentName o] else []).

Definition targetModels (o : Options) (body : ReqBody) : list string :=
  List.filter (fun m => truthy_string (trim m))
    (omap as_string
       (match override_model o with
        | Some m => Some (JStr m)
        | None => JStr <$> requestModel body
        end :: deployments o)).

(** [RequestContext.params] before a hook changes it. *)
Definition params (o : Options) (body : ReqBody) : obj json :=
  match body with
  | JsonBody v => if truthy v then merge (spread v) (spread (op_overrideParams o)) else []
  | BufferBody => merge [] (spread (op_overrideParams o))
  | FormBody _ | StreamBody => []
  end.

Definition isRawBody (body : ReqBody) : bool := match body with JsonBody _ => false | _ => true end.

Definition MODEL_ENDPOINTS : list string :=
  ["complete"; "chatComplete"; "stream-complete"; "stream-chatComplete"; "stream-messages"; "messages";
   "messagesCountTokens"; "createModelResponse"; "countResponseInputTokens"; "embed"; "rerank"; "moderate";
   "imageGenerate"; "imageEdit"; "createSpeech"; "createTranscription"; "createTranslation"; "ocr"].

(** ** The policy of the caller's group *)

Fixpoint first_denied (group : PolicyGroup) (provider : option string) (names : list string)
    : option (PolicyDenyReason * option string) :=
  match names with
  | [] => None
  | m :: rest =>
      match checkTarget (Some group) provider (Some m) with
      | Some reason => Some (reason, Some m)
      | None => first_denied group provider rest
      end
  end.

(** The denial of a target, with the model it names; [group]: of the identity. *)
Definition oidcTargetDenied (group : option PolicyGroup) (provider : option string) (models : list string)
    (requireModel : bool) : option (PolicyDenyReason * option string) :=
  match group with
  | None => None
  | Some g =>
      match List.filter truthy_string models with
      | [] =>
          match checkTarget (Some g) provider None with
          | Some reason => Some (reason, None)
          | None =>
              if requireModel && match pg_models g with Some _ => true | None => false end
              then Some (model_not_allowed, None) else None
          end
      | names => first_denied g provider names
      end
  end.

(** ** [tryPost] *)

(** What [tryPostToProvider] is called with. *)
Record Sent := mkSent {
  se_options : Options;
  se_body : ReqBody;
  se_fn : string;
  se_hooksEndpoint : option string
}.

Inductive PostOutcome :=
| GroupDenied (reason : PolicyDenyReason) (model : option string)
| DataDenied (d : Denied)
| GuardrailUnsupported (reason : string)
| ChecksUnsupported (fn : string) (checks : list string)
| Answered (a : LocalAnswer)
| PostThrew
| Call (s : Sent) (adapter : option AdapterContext).

Definition CUSTOM_HOST : string := "x-portkey-custom-host".
Definition MESSAGES_VIA_RESPONSES_HEADER : string := "x-portkey-messages-via-responses".

(** [requestHeaders[CUSTOM_HOST] || providerOption.customHost] *)
Definition host_of (requestHeaders : obj string) (o : Options) : option string :=
  if truthy_opt (own requestHeaders CUSTOM_HOST) then own requestHeaders CUSTOM_HOST else op_customHost o.

Section TryPost.
Variable urlOrigin : string -> option string.
Variable odd_id : Check -> string.
Variable transformMessagesToResponses : any -> string -> Translated.
Variable transformMessagesToChatCompletions : any -> Translated.
Variable transformResponsesToChatCompletions : any -> string -> Translated.
Variable chat_config : string -> obj json -> option (list string).
Variable providerFnConfig : string -> string -> any -> bool.

Definition proxied_call (o : Options) (pathname method : string) (body : ReqBody) (headers : obj string)
    : PostOutcome :=
  match classifyProxyRequest pathname method body headers with
  | Unsupported reason => GuardrailUnsupported reason
  | NoContent => Call (mkSent o body "proxy" None) None
  | HooksAs f =>
      match (if (f =? "createModelResponse")%string then responsesUnsupportedChecks odd_id (targetHooks o) else [])
      with
      | [] => Call (mkSent o body "proxy" (Some f)) None
      | unsupported => ChecksUnsupported f unsupported
      end
  end.

(** The body's parameters with the target's model. *)
Definition routing_params (o : Options) (body : ReqBody) : any :=
  match body, override_model o with
  | JsonBody v, Some m => Some (JObj (obj_put (spread v) "model" (JStr m)))
  | JsonBody v, None => v
  | _, _ => Some (JObj [])
  end.

Definition native_body (fn : string) (body : ReqBody) : ReqBody :=
  match body with
  | JsonBody v =>
      JsonBody
        (if mem_string fn ["messages"; "messagesCountTokens"] then stripIssuedReasoning v
         else if mem_string fn ["createModelResponse"; "countResponseInputTokens"] then stripIssuedThinking v
         else v)
  | _ => body
  end.

Definition counts_locally (o : Options) (fn : string) (body : ReqBody) : bool :=
  (fn =? "countResponseInputTokens")%string && targetHasHooks o && negb (isRawBody body) &&
  match RESPONSES_PROVIDER_OPERATIONS fn with
  | Some (_, providers) => mem_string (default "" (op_provider o)) providers
  | None => false
  end.

Definition choose_adapter (o : Options) (fn method : string) (body : ReqBody) (headers : obj string)
    : AdapterResult :=
  let provider := default "" (op_provider o) in
  if (fn =? "messagesCountTokens")%string && negb (isRawBody body)
  then messagesCountTokensRoute transformMessagesToResponses providerFnConfig provider (routing_params o body)
         (host_of headers o) (targetHasHooks o)
  else if match body with JsonBody v => is_null_or_undef v | _ => false end then AdapterThrew
  else applyAdapterRequestTransform transformMessagesToResponses transformMessagesToChatCompletions
         transformResponsesToChatCompletions chat_config fn provider (routing_params o body) body method
         (messagesViaResponsesOverride (op_messagesViaResponses o)
            (own headers MESSAGES_VIA_RESPONSES_HEADER) (targetHasHooks o)).

(** The target is called with endpoint [f], unless its checks cannot run there. *)
Definition checked_call (o : Options) (fn f : string) (s : Sent) (adapter : option AdapterContext)
    : PostOutcome :=
  match (if (f =? "createModelResponse")%string then responsesUnsupportedChecks odd_id (targetHooks o) else [])
  with
  | [] => Call s adapter
  | unsupported => ChecksUnsupported fn unsupported
  end.

Definition api_call (o : Options) (fn method : string) (body : ReqBody) (headers : obj string) : PostOutcome :=
  if counts_locally o fn body then Answered EstimatedResponses else
  match choose_adapter o fn method body headers with
  | AdapterThrew => PostThrew
  | Answer a => Answered a
  | NoAdapter => checked_call o fn fn (mkSent o (native_body fn body) fn None) None
  | Adapted ctx p f => checked_call o fn f (mkSent (not_strict o) (JsonBody (Some (JObj p))) f None) (Some ctx)
  end.

Definition tryPost (group : option PolicyGroup) (gate : option DataPolicyGate) (o : Options)
    (pathname : string) (body : ReqBody) (headers : obj string) (fn method : string) : PostOutcome :=
  let models := targetModels o body in
  let requireModel := mem_string fn MODEL_ENDPOINTS in
  match oidcTargetDenied group (op_provider o) models requireModel with
  | Some (reason, model) => GroupDenied reason model
  | None =>
      match dataPolicyTargetDenied urlOrigin gate (op_provider o) models requireModel (host_of headers o) with
      | Some d => DataDenied d
      | None =>
          if (fn =? "proxy")%string && targetHasHooks o
          then proxied_call o pathname method body headers
          else api_call o fn method body headers
      end
  end.
End TryPost.

(** ** The two policies *)

Lemma first_denied_None g provider names :
  first_denied g provider names = None <-> forall m, m ∈ names -> checkTarget (Some g) provider (Some m) = None.
Proof.
  induction names as [|m names IH]; cbn [first_denied].
  - split; [|done]. by intros _ m ?%elem_of_nil.
  - setoid_rewrite elem_of_cons. destruct (checkTarget _ _ _) eqn:Hc; [|rewrite IH; naive_solver].
    split; [done|]. intros H. specialize (H m (or_introl eq_refl)). congruence.
Qed.

Lemma checkTarget_no_model g provider m : checkTarget (Some g) provider (Some m) = None ->
  checkTarget (Some g) provider None = None.
Proof. unfold checkTarget. case_match; [done|]. by destruct (pg_models g). Qed.

(** The target, whatever its models, is one the group may call. *)
Definition group_admits (g : PolicyGroup) (provider : option string) (models : list string) (requireModel : bool)
    : Prop :=
  permitted g provider None /\ (forall m, m ∈ models -> permitted g provider (Some m)) /\
  (requireModel = true -> pg_models g <> None -> models <> []).

Lemma oidc_admits g provider models requireModel :
  Forall (fun m => truthy_string m = true) models ->
  oidcTargetDenied (Some g) provider models requireModel = None -> group_admits g provider models requireModel.
Proof.
  intros Hm. unfold oidcTargetDenied, group_admits.
  assert (Hf : List.filter truthy_string models = models).
  { apply filter_bool_id. by apply Forall_forall. }
  rewrite Hf. setoid_rewrite <- (fun m => proj1 (checkTarget_exact g provider m)).
  destruct models as [|m0 ms].
  - destruct (checkTarget _ _ None); [done|]. intros Hr. split; [done|]. split; [by intros m ?%elem_of_nil|].
    intros -> Hpg. by destruct (pg_models g).
  - rewrite first_denied_None. intros H. split; [apply (checkTarget_no_model g provider m0), H; by left|done].
Qed.

Definition gate_admits (urlOrigin : string -> option string) (gate : DataPolicyGate)
    (provider host : option string) (models : list string) (requireModel : bool) : Prop :=
  (forall m, m ∈ models -> target_complies urlOrigin gate provider host (Some m) = true) /\
  (requireModel = true -> models = [] -> target_complies urlOrigin gate provider host None = true).

Lemma gate_open urlOrigin gt r provider host models requireModel :
  Forall (fun m => truthy_string m = true) models -> dg_rule gt = Some r ->
  dataPolicyTargetDenied urlOrigin (Some gt) provider models requireModel host = None ->
  gate_admits urlOrigin gt provider host models requireModel.
Proof.
  intros Hm Hr. unfold dataPolicyTargetDenied. rewrite Hr.
  destruct (List.find _ _) eqn:Hf; [done|]. intros _.
  assert (Hok : forall m, m ∈ models_to_check models requireModel ->
    target_complies urlOrigin gt provider host m = true).
  { intros m Hin. apply negb_false_iff. by apply (List.find_none _ _ Hf), list_elem_of_In. }
  assert (Hfilter : List.filter truthy_string models = models).
  { apply filter_bool_id. by apply Forall_forall. }
  unfold models_to_check in Hok. rewrite Hfilter in Hok. split.
  - intros m Hin. apply Hok. destruct models as [|m0 ms]; [by apply elem_of_nil in Hin|].
    by apply list_elem_of_fmap_2.
  - intros -> ->. apply Hok. by left.
Qed.

Lemma trimmed_truthy m : truthy_string (trim m) = true -> truthy_string m = true.
Proof. by destruct m. Qed.

Lemma models_truthy o body : Forall (fun m => truthy_string m = true) (targetModels o body).
Proof. apply Forall_forall. intros m [_ Hm]%filter_elem. by apply trimmed_truthy. Qed.

(** ** The model that is sent *)

Lemma own_merge a b k : NoDup (obj_keys b) ->
  own (merge a b) k = match own b k with Some v => Some v | None => own a k end.
Proof. apply own_spread. Qed.

(** A translation keeps the model of the request. *)
Definition keeps_model (t : any -> Translated) : Prop :=
  forall q p, t q = Translation p -> own p "model" = prop q "model".

Lemma own_delete_other (o : obj json) k : k <> "model" -> own (map_delete o k) "model" = own o "model".
Proof. intros H. apply own_map_delete. congruence. Qed.

Lemma normalize_keeps_model chat_config p provider :
  own (normalizeTokenLimitForProvider chat_config p provider) "model" = own p "model".
Proof.
  unfold normalizeTokenLimitForProvider. destruct (own p _) as [limit|]; [|done].
  destruct (chat_config _ _) as [names|]; [|done]. destruct (_ || _); [done|].
  rewrite own_put. cbn [String.eqb Ascii.eqb Bool.eqb]. by apply own_delete_other.
Qed.

Lemma count_keeps_model p : own (count_params p) "model" = own p "model".
Proof. unfold count_params. by rewrite !own_delete_other. Qed.

Section Adapted.
Variable toResponses : any -> string -> Translated.
Variable toChat : any -> Translated.
Variable fromResponses : any -> string -> Translated.
Variable chat_config : string -> obj json -> option (list string).
Variable providerFnConfig : string -> string -> any -> bool.
Variable to_responses_model : forall provider, keeps_model (fun q => toResponses q provider).
Variable to_chat_model : keeps_model toChat.
Variable from_responses_model : forall provider, keeps_model (fun q => fromResponses q provider).

Lemma via_chat_model fn body provider t q ctx p f :
  (forall b, t = Translation b -> own b "model" = prop q "model") ->
  via_chat chat_config fn body provider t = Adapted ctx p f -> own p "model" = prop q "model".
Proof.
  intros Ht. unfold via_chat. destruct t as [b|m e|]; [|by case_match|done].
  intros [= _ <- _]. rewrite normalize_keeps_model. by apply Ht.
Qed.

Lemma adapted_model o fn method body headers ctx p f :
  choose_adapter toResponses toChat fromResponses chat_config providerFnConfig o fn method body headers
    = Adapted ctx p f -> own p "model" = prop (routing_params o body) "model".
Proof.
  unfold choose_adapter. destruct (_ && _).
  - unfold messagesCountTokensRoute. repeat (case_match; try done). intros [= _ <- _].
    rewrite count_keeps_model. by eapply to_responses_model.
  - destruct (match body with JsonBody v => _ | _ => _ end); [done|].
    unfold applyAdapterRequestTransform. destruct (negb _); [done|]. destruct (fn =? "messages")%string.
    + unfold messages_route. destruct (routesMessagesViaResponses _ _ _) as [[|]|]; [| |done].
      * unfold via_responses. destruct (toResponses _ _) eqn:Ht; try done. intros [= _ <- _].
        by eapply to_responses_model.
      * destruct (supportsMessagesApiNatively _ _) as [[|]|]; try done.
        apply via_chat_model. intros b Hb. by apply to_chat_model.
    + destruct (_ && _).
      * apply via_chat_model. intros b Hb. by eapply from_responses_model.
      * repeat (case_match; try done).
Qed.
End Adapted.

(** The options of a target with keys that occur once, as objects have them. *)
Definition once (o : Options) : Prop := NoDup (obj_keys (spread (op_overrideParams o))).

Lemma override_own o : prop (op_overrideParams o) "model" =
  match op_overrideParams o with Some (JObj x) => own x "model" | _ => None end.
Proof. by destruct (op_overrideParams o) as [[]|]. Qed.

(** The model [params] has: the override's, or the body's. *)
Lemma params_model o b : once o -> is_Some (object_of (op_overrideParams o)) \/ op_overrideParams o = None ->
  own (params o (JsonBody (Some (JObj b)))) "model" =
  match prop (op_overrideParams o) "model" with Some v => Some v | None => own b "model" end.
Proof.
  intros Ho Hobj. unfold params. cbn [truthy]. rewrite own_merge by done. rewrite override_own.
  by destruct Hobj as [[x Hx]| ->]; [destruct (op_overrideParams o) as [[]|]|].
Qed.

Lemma named_model o body m : trim m <> "" ->
  override_model o = Some m \/ override_model o = None /\ requestModel body = Some m -> m ∈ targetModels o body.
Proof.
  intros Hm H. unfold targetModels. apply filter_elem. split.
  - apply list_elem_of_omap. destruct H as [-> | [-> ->]]; exists (Some (JStr m)); (split; [by left|done]).
  - unfold truthy_string. by apply negb_true_iff, String.eqb_neq.
Qed.

Lemma override_text o m : prop (op_overrideParams o) "model" = Some (JStr m) -> trim m <> "" ->
  override_model o = Some m.
Proof.
  unfold override_model. intros -> Hm. by destruct m.
Qed.

Lemma no_override o : prop (op_overrideParams o) "model" = None -> override_model o = None.
Proof. unfold override_model. by intros ->. Qed.

Lemma routing_model o b : prop (routing_params o (JsonBody (Some (JObj b)))) "model" =
  match override_model o with Some m => Some (JStr m) | None => own b "model" end.
Proof.
  unfold routing_params. destruct (override_model o) as [m|]; [|done]. cbn [prop spread].
  by rewrite own_obj_put_same.
Qed.

Lemma request_model b m : own b "model" = Some (JStr m) -> requestModel (JsonBody (Some (JObj b))) = Some m.
Proof. intros H. unfold requestModel. cbn [prop]. by rewrite H. Qed.

(** Whatever text the target is sent as its model is one of [targetModels]. *)
Lemma sent_model_named o b p m :
  once o -> is_Some (object_of (op_overrideParams o)) \/ op_overrideParams o = None ->
  own p "model" = own b "model" \/ own p "model" = prop (routing_params o (JsonBody (Some (JObj b)))) "model" ->
  own (params o (JsonBody (Some (JObj p)))) "model" = Some (JStr m) -> trim m <> "" ->
  m ∈ targetModels o (JsonBody (Some (JObj b))).
Proof.
  intros Ho Hobj Hp Hm Ht. rewrite params_model in Hm by done. apply named_model; [done|].
  destruct (prop (op_overrideParams o) "model") as [v|] eqn:Hv.
  - injection Hm as ->. left. by apply override_text.
  - right. apply no_override in Hv. split; [done|]. apply request_model.
    destruct Hp as [Hp|Hp]; rewrite Hp in Hm; [done|]. rewrite routing_model, Hv in Hm. done.
Qed.

Lemma native_body_object fn b : exists p, native_body fn (JsonBody (Some (JObj b))) = JsonBody (Some (JObj p)) /\
  own p "model" = own b "model".
Proof.
  unfold native_body. set (v := Some (JObj b)).
  assert (Hr : exists p, stripIssuedReasoning v = Some (JObj p)).
  { unfold stripIssuedReasoning. repeat (case_match; try by eexists). }
  assert (Ht : exists p, stripIssuedThinking v = Some (JObj p)).
  { unfold stripIssuedThinking. repeat (case_match; try by eexists). }
  destruct (mem_string fn _); [|destruct (mem_string fn _); [|by exists b]].
  - destruct Hr as [p Hp]. exists p. rewrite Hp. split; [done|].
    change (prop (Some (JObj p)) "model" = prop v "model"). rewrite <- Hp. by apply stripped_keeps.
  - destruct Ht as [p Hp]. exists p. rewrite Hp. split; [done|].
    change (prop (Some (JObj p)) "model" = prop v "model"). rewrite <- Hp. by apply stripped_keeps.
Qed.

Lemma not_strict_params o body : params (not_strict o) body = params o body.
Proof. done. Qed.

Section Gates.
Variable urlOrigin : string -> option string.
Variable odd_id : Check -> string.
Variable toResponses : any -> string -> Translated.
Variable toChat : any -> Translated.
Variable fromResponses : any -> string -> Translated.
Variable chat_config : string -> obj json -> option (list string).
Variable providerFnConfig : string -> string -> any -> bool.

Abbreviation post := (tryPost urlOrigin odd_id toResponses toChat fromResponses chat_config providerFnConfig).

(** The ways a target is called. *)
Lemma call_cases group gate o pathname body headers fn method s ad :
  post group gate o pathname body headers fn method = Call s ad ->
  oidcTargetDenied group (op_provider o) (targetModels o body) (mem_string fn MODEL_ENDPOINTS) = None /\
  dataPolicyTargetDenied urlOrigin gate (op_provider o) (targetModels o body) (mem_string fn MODEL_ENDPOINTS)
    (host_of headers o) = None /\
  (fn = "proxy" /\ targetHasHooks o = true /\
     proxied_call odd_id o pathname method body headers = Call s ad \/
   (fn = "proxy" -> targetHasHooks o = false) /\ counts_locally o fn body = false /\
     (choose_adapter toResponses toChat fromResponses chat_config providerFnConfig o fn method body headers = NoAdapter /\
        checked_call odd_id o fn fn (mkSent o (native_body fn body) fn None) None = Call s ad \/
      exists ctx p f,
        choose_adapter toResponses toChat fromResponses chat_config providerFnConfig o fn method body headers =
          Adapted ctx p f /\
        checked_call odd_id o fn f (mkSent (not_strict o) (JsonBody (Some (JObj p))) f None) (Some ctx) = Call s ad)).
Proof.
  unfold tryPost. cbv zeta. destruct (oidcTargetDenied _ _ _ _) as [[]|]; [done|].
  destruct (dataPolicyTargetDenied _ _ _ _ _ _); [done|].
  destruct (String.eqb_spec fn "proxy") as [->|Hfn]; [destruct (targetHasHooks o) eqn:Hh|]; cbn [andb].
  - intros H. split; [done|]. split; [done|]. by left.
  - unfold api_call. destruct (counts_locally _ _ _) eqn:Hl; [done|]. intros H.
    split; [done|]. split; [done|]. right. split; [done|]. split; [done|].
    destruct (choose_adapter _ _ _ _ _ _ _ _ _ _) as [|a|ctx p f|] eqn:Hc; try done; [by left|right].
    by exists ctx, p, f.
  - unfold api_call. destruct (counts_locally _ _ _) eqn:Hl; [done|]. intros H.
    split; [done|]. split; [done|]. right. split; [done|]. split; [done|].
    destruct (choose_adapter _ _ _ _ _ _ _ _ _ _) as [|a|ctx p f|] eqn:Hc; try done; [by left|right].
    by exists ctx, p, f.
Qed.

Lemma checked_call_Call o fn f s ad s' ad' : checked_call odd_id o fn f s ad = Call s' ad' ->
  s' = s /\ ad' = ad /\ (f = "createModelResponse" -> responsesUnsupportedChecks odd_id (targetHooks o) = []).
Proof.
  unfold checked_call. destruct (String.eqb_spec f "createModelResponse") as [->|Hf].
  - destruct (responsesUnsupportedChecks _ _); [|done]. by intros [= -> ->].
  - intros [= -> ->]. done.
Qed.

Lemma proxied_call_Call o pathname method body headers s ad :
  proxied_call odd_id o pathname method body headers = Call s ad ->
  ad = None /\ se_options s = o /\ se_body s = body /\ se_fn s = "proxy" /\
  (classifyProxyRequest pathname method body headers = NoContent /\ se_hooksEndpoint s = None \/
   exists f, classifyProxyRequest pathname method body headers = HooksAs f /\ se_hooksEndpoint s = Some f /\
     (f = "createModelResponse" -> responsesUnsupportedChecks odd_id (targetHooks o) = [])).
Proof.
  unfold proxied_call. destruct (classifyProxyRequest _ _ _ _) as [f| |r] eqn:Hc; [| |done].
  - destruct (String.eqb_spec f "createModelResponse") as [->|Hf].
    + destruct (responsesUnsupportedChecks _ _); [|done]. intros [= <- <-]. do 4 (split; [done|]). right. by eexists.
    + intros [= <- <-]. do 4 (split; [done|]). right. by eexists.
  - intros [= <- <-]. do 4 (split; [done|]). by left.
Qed.

(** The endpoint type the hooks run as. *)
Definition hook_type (s : Sent) : string := default (se_fn s) (se_hooksEndpoint s).

Lemma guardrail_not_skipped f h ctx :
  mem_string f RUN_TYPES = true -> hc_requestType ctx = f -> is_guardrail h = true ->
  ho_eventType h = beforeRequestHook -> shouldSkipHook ctx None h = false.
Proof.
  intros Hf Hctx Hg He. unfold shouldSkipHook. rewrite Hctx, Hf, He.
  assert (Hm : is_mutator h = false).
  { unfold is_mutator, is_guardrail in *. apply String.eqb_eq in Hg. by rewrite Hg. }
  rewrite Hm, andb_false_r. by destruct (f =? "embed")%string.
Qed.

Lemma counts_are_answered o fn method body headers :
  targetHasHooks o = true -> isRawBody body = false -> counts_locally o fn body = false ->
  fn = "messagesCountTokens" \/ fn = "countResponseInputTokens" /\ truthy_opt (op_provider o) = true ->
  match choose_adapter toResponses toChat fromResponses chat_config providerFnConfig o fn method body headers with
  | NoAdapter | Adapted _ _ _ => False
  | _ => True
  end.
Proof.
  intros Hh Hraw Hl [-> | [-> Hp]]; unfold choose_adapter; rewrite Hraw.
  - cbn [String.eqb Ascii.eqb Bool.eqb andb negb]. unfold messagesCountTokensRoute. rewrite Hh. cbn [andb].
    destruct (providerFnConfig _ "messagesCountTokens" _); [done|]. destruct (_ =? OPEN_AI)%string; [done|].
    cbn [orb andb]. by destruct (_ || _).
  - cbn [String.eqb Ascii.eqb Bool.eqb andb negb]. destruct body as [v| | |]; try done.
    destruct (is_null_or_undef v); [done|]. unfold counts_locally in Hl. rewrite Hh in Hl.
    unfold applyAdapterRequestTransform. destruct (op_provider o) as [p|]; [|done].
    change (default "" (Some p)) with p in *. cbn [truthy_opt] in Hp. rewrite Hp.
    cbn -[mem_string] in *. by destruct (mem_string p ["openai"]).
Qed.

(** [C5] A target with hooks is called only with a request its checks can read:
    on a Responses call every enabled check is one that supports it; a proxied
    request is either the listing of models or an object with the field the hooks
    read, run as an endpoint on which no input guardrail is skipped; and tokens are
    counted without calling the provider. *)
Theorem guarded_call_is_inspected group gate o pathname body headers fn method s ad :
  post group gate o pathname body headers fn method = Call s ad ->
  targetHasHooks o = true ->
  (hook_type s = "createModelResponse" -> forall c, c ∈ all_checks (targetHooks o) -> enabled c = true ->
     supported_check c = true) /\
  (fn = "proxy" ->
     se_hooksEndpoint s = None /\ toUpperCase method = "GET" /\ NO_CONTENT_GET (proxiedPath pathname) = true \/
     exists f b, se_hooksEndpoint s = Some f /\ body = JsonBody (Some (JObj b)) /\
       isTextOrList (own b (read_field f)) = true /\
       forall h ctx, hc_requestType ctx = f -> is_guardrail h = true -> ho_eventType h = beforeRequestHook ->
         shouldSkipHook ctx None h = false) /\
  (isRawBody body = false -> fn <> "messagesCountTokens" /\
     (fn = "countResponseInputTokens" -> truthy_opt (op_provider o) = false)).
Proof.
  intros H Hh. apply call_cases in H as (_ & _ & [(-> & _ & H)|(Hfn & Hl & H)]).
  - apply proxied_call_Call in H as (_ & _ & _ & Hf & Hc). unfold hook_type. rewrite Hf.
    split; [|split; [intros _|done]].
    + destruct Hc as [[_ ->] | (f & _ & -> & Hs)]; [done|]. intros Hcm. apply (proj1 (all_supported odd_id _)). by apply Hs.
    + destruct Hc as [[Hn He] | (f & Hk & He & _)].
      * left. split; [done|]. revert Hn. unfold classifyProxyRequest.
        destruct (String.eqb_spec (toUpperCase method) "GET"); [|repeat case_match; done].
        destruct (NO_CONTENT_GET _); [done|]. cbn [andb]. by repeat case_match.
      * right. apply recognized in Hk as (_ & _ & b & -> & Hrun & Hread). exists f, b. do 3 (split; [done|]).
        intros h ctx. by apply guardrail_not_skipped.
  - assert (Hp : fn <> "proxy") by (intros ->; by rewrite Hfn in Hh).
    split; [|split; [done|]].
    + destruct H as [[_ H]|(ctx & p & f & _ & H)]; apply checked_call_Call in H as (-> & _ & Hs);
        unfold hook_type; cbn [se_hooksEndpoint se_fn default]; intros Hc;
        apply (proj1 (all_supported odd_id _)); by apply Hs.
    + intros Hraw. pose proof (counts_are_answered o fn method body headers Hh Hraw Hl) as Hcount.
      assert (Hno : ~ (fn = "messagesCountTokens" \/ fn = "countResponseInputTokens" /\ truthy_opt (op_provider o) = true)).
      { intros Hc. specialize (Hcount Hc). destruct H as [[Ha _]|(ctx & p & f & Ha & _)]; by rewrite Ha in Hcount. }
      split; [naive_solver|]. intros ->. destruct (truthy_opt _) eqn:Ht; [|done]. exfalso. naive_solver.
Qed.

Variable to_responses_model : forall provider, keeps_model (fun q => toResponses q provider).
Variable to_chat_model : keeps_model toChat.
Variable from_responses_model : forall provider, keeps_model (fun q => fromResponses q provider).

(** [C2] A call that is made complies with both policies of the caller: its
    provider and every model [targetModels] names are admitted by the group's
    allowlists and by the data policy for the target's host, and where the
    endpoint needs a model the group with a model list names one; and whatever
    text a JSON request is sent with as its model, adapted or not, is one of the
    names that were checked. *)
Theorem called_target_passed_the_gates group gate o pathname body headers fn method s ad :
  post group gate o pathname body headers fn method = Call s ad ->
  let models := targetModels o body in
  let required := mem_string fn MODEL_ENDPOINTS in
  (forall g, group = Some g -> group_admits g (op_provider o) models required) /\
  (forall gt r, gate = Some gt -> dg_rule gt = Some r ->
     gate_admits urlOrigin gt (op_provider o) (host_of headers o) models required) /\
  (forall b m, body = JsonBody (Some (JObj b)) -> once o ->
     is_Some (object_of (op_overrideParams o)) \/ op_overrideParams o = None ->
     own (params (se_options s) (se_body s)) "model" = Some (JStr m) -> trim m <> "" -> m ∈ models).
Proof.
  intros H models required. apply call_cases in H as (Ho & Hd & H). split; [|split].
  - intros g ->. by apply oidc_admits; [apply models_truthy|].
  - intros gt r -> Hr. by eapply gate_open; [apply models_truthy|..].
  - intros b m -> Hon Hobj Hm Ht. destruct H as [(_ & _ & H)|(_ & _ & [[Hc H]|(ctx & p & f & Hc & H)])].
    + apply proxied_call_Call in H as (_ & Hs & Hb & _). rewrite Hs, Hb in Hm.
      by apply (sent_model_named o b b m); [..|left| |].
    + apply checked_call_Call in H as (-> & _). destruct (native_body_object fn b) as (p & Hp & Hpm).
      cbn [se_options se_body] in Hm. rewrite Hp in Hm. by apply (sent_model_named o b p m); [..|left| |].
    + apply checked_call_Call in H as (-> & _). cbn [se_options se_body] in Hm. rewrite not_strict_params in Hm.
      apply (sent_model_named o b p m); [done..|right|done|done]. eapply adapted_model; [..|exact Hc]; done.
Qed.
End Gates.

(** ** Up to the upstream call *)

(** What answers a call that was handed to [tryPostToProvider]. *)
Inductive ProviderOutcome (A : Type) :=
| InvalidUpstream
| HooksDenied (before_request_hooks : list HookResult)
| FromCache (a : A)
| FromValidator (a : A)
| CallsUpstream (params : any).
Arguments InvalidUpstream {A}.
Arguments HooksDenied {A} before_request_hooks.
Arguments FromCache {A} a.
Arguments FromValidator {A} a.
Arguments CallsUpstream {A} params.

(** [refused]: the URL is not safe; [before]: what the input hooks gave. *)
Definition tryPostToProvider {A} (refused : bool) (before : BeforeOutcome) (cached validated : option A) (s : Sent)
    : ProviderOutcome A :=
  if refused then InvalidUpstream
  else match before with
       | Denied446 results => HooksDenied results
       | Proceed transformedBody =>
           let p := if truthy transformedBody then transformedBody
                    else Some (JObj (params (se_options s) (se_body s))) in
           match cached, validated with
           | Some a, _ => FromCache a
           | None, Some a => FromValidator a
           | None, None => CallsUpstream p
           end
       end.

(** A request whose input hooks deny it reaches neither the cache nor the provider,
    and neither does one to an unsafe URL. *)
Lemma upstream_passed_hooks {A} refused r a (cached validated : option A) s :
  tryPostToProvider refused (beforeRequestHookHandler r a) cached validated s <> InvalidUpstream ->
  a.2 = true ->
  tryPostToProvider refused (beforeRequestHookHandler r a) cached validated s = HooksDenied a.1.
Proof.
  unfold tryPostToProvider, beforeRequestHookHandler. intros H ->. by destruct refused.
Qed.

(** ** Examples *)

Module Samples.
Definition toResponses (q : any) (provider : string) : Translated := TranslationThrew.
Definition toChat (q : any) : Translated :=
  match q with Some (JObj o) => Translation o | _ => TranslationThrew end.
Definition chat_config (provider : string) (p : obj json) : option (list string) := None.
Definition table (provider fn : string) (p : any) : bool := false.
Definition odd_id (c : Check) : string := "undefined".
Definition origin (s : string) : option string := Some s.

Abbreviation post := (tryPost origin odd_id toResponses toChat toResponses chat_config table).

Definition target (provider : string) (override : any) (hooks : option (list HookObject)) : Options :=
  mkOptions (Some provider) override None None None None None hooks None None None.

Definition group : PolicyGroup :=
  mkGroup "eng" ["eng"] (Some ["google"; "openai"; "mistral-ai"]) (Some ["gpt-4o"; "whisper-1"; "eu-*"]) None None.

Definition chat (model : json) : ReqBody :=
  JsonBody (Some (JObj [("model", model); ("messages", JArr [JObj [("content", JStr "hi")]])])).

Lemma to_chat_model : keeps_model toChat.
Proof. intros [[| | | | |o]|] p; try done. by intros [= ->]. Qed.

Lemma to_responses_model provider : keeps_model (fun q => toResponses q provider).
Proof. by intros q p. Qed.

(** A Messages call of a listed European model, through the adapter. *)
Definition mistral : Options := target "mistral-ai" (Some (JObj [("temperature", JNum nzero)])) None.

Definition mistral_call : PostOutcome :=
  post (Some group) (Some SampleGate.gate) mistral "/v1/messages" (chat (JStr "eu-small")) [] "messages" "POST".

Lemma called_target_passed_the_gates_witness :
  permitted group (Some "mistral-ai") (Some "eu-small") /\
  target_complies origin SampleGate.gate (Some "mistral-ai") None (Some "eu-small") = true /\
  "eu-small" ∈ targetModels mistral (chat (JStr "eu-small")).
Proof.
  destruct mistral_call as [| | | | | |s ad] eqn:Hs; try (vm_compute in Hs; discriminate).
  destruct (called_target_passed_the_gates origin odd_id toResponses toChat toResponses chat_config table
    to_responses_model to_chat_model to_responses_model (Some group) (Some SampleGate.gate) mistral "/v1/messages"
    (chat (JStr "eu-small")) [] "messages" "POST" s ad Hs) as (Hg & Hd & Hm).
  assert (Hin : "eu-small" ∈ targetModels mistral (chat (JStr "eu-small"))).
  { eapply Hm.
    - reflexivity.
    - apply (bool_decide_unpack _). vm_compute. exact I.
    - left. vm_compute. by eexists.
    - vm_compute in Hs. injection Hs as <- <-. vm_compute. reflexivity.
    - done. }
  split; [|split; [|exact Hin]].
  - destruct (Hg group eq_refl) as (_ & Hp & _). by apply Hp.
  - destruct (Hd SampleGate.gate Sample.eea_rule eq_refl) as [Hc _]; [reflexivity|]. by apply Hc.
Defined.

(** A proxied chat completion with a guardrail. *)
Definition pii_check : Check := mkCheck (Some "default.regexMatch") None None.
Definition pii_hook : HookObject :=
  mkHook HookType.GUARDRAIL "pii" (Some [pii_check]) false false None None true beforeRequestHook.
Definition guarded : Options := target "openai" None (Some [pii_hook]).
Definition json_headers : obj string := [("content-type", "application/json; charset=utf-8")].

Definition guarded_call : PostOutcome :=
  post None None guarded "/v1/proxy/v1/chat/completions/" (chat (JStr "gpt-4o")) json_headers "proxy" "POST".

Lemma guarded_call_is_inspected_witness :
  guarded_call = Call (mkSent guarded (chat (JStr "gpt-4o")) "proxy" (Some "chatComplete")) None /\
  forall ctx, hc_requestType ctx = "chatComplete" -> shouldSkipHook ctx None pii_hook = false.
Proof.
  assert (Hs : guarded_call = Call (mkSent guarded (chat (JStr "gpt-4o")) "proxy" (Some "chatComplete")) None)
    by (vm_compute; reflexivity).
  split; [exact Hs|]. intros ctx Hctx.
  destruct (guarded_call_is_inspected origin odd_id toResponses toChat toResponses chat_config table None None guarded
    "/v1/proxy/v1/chat/completions/" (chat (JStr "gpt-4o")) json_headers "proxy" "POST" _ _ Hs) as (_ & Hp & _).
  - reflexivity.
  - destruct (Hp eq_refl) as [(He & _)|(f & b & He & _ & _ & Hskip)]; [discriminate|].
    injection He as <-. by apply Hskip.
Defined.

(** Refusals: a path the hooks cannot read, a check that cannot run on Responses. *)
Example refusals :
  post None None guarded "/v1/proxy/v1/files" (chat (JStr "gpt-4o")) json_headers "proxy" "POST" =
    GuardrailUnsupported "the path /v1/files is not a Chat Completions, Completions, Messages, Responses or Embeddings endpoint" /\
  post None None (target "openai" None (Some [mkHook HookType.GUARDRAIL "w"
      (Some [mkCheck (Some "default.webhook") None None]) false false None None true beforeRequestHook]))
    "/v1/responses" (JsonBody (Some (JObj [("input", JStr "hi")]))) json_headers "createModelResponse" "POST" =
    ChecksUnsupported "createModelResponse" ["default.webhook"].
Proof. vm_compute. done. Qed.

(** An override that is no text is not among the checked models, but is sent: a
    list of one name is that name in the URL of a provider. *)
Lemma list_override_is_unchecked :
  let o := target "google" (Some (JObj [("model", JArr [JStr "gemini-3-pro"])])) None in
  targetModels o (chat (JStr "gpt-4o")) = ["gpt-4o"] /\
  exists s, post (Some group) None o "/v1/chat/completions" (chat (JStr "gpt-4o")) [] "chatComplete" "POST" = Call s None /\
    own (params (se_options s) (se_body s)) "model" = Some (JArr [JStr "gemini-3-pro"]) /\
    checkTarget (Some group) (Some "google") (Some "gemini-3-pro") = Some model_not_allowed.
Proof. vm_compute. split; [reflexivity|]. by eexists. Qed.

(** A form is sent as it came, its model included, but the override's model is the
    one that is checked. *)
Lemma form_override_is_unchecked :
  let o := target "openai" (Some (JObj [("model", JStr "whisper-1")])) None in
  let form := FormBody [("model", "gpt-4o-transcribe")] in
  targetModels o form = ["whisper-1"] /\
  post (Some group) None o "/v1/audio/transcriptions" form [] "createTranscription" "POST" =
    Call (mkSent o form "createTranscription" None) None /\
  checkTarget (Some group) (Some "openai") (Some "gpt-4o-transcribe") = Some model_not_allowed.
Proof. vm_compute. done. Qed.

(** The hooks' text of a chat completion that also has a prompt is the prompt. *)
Lemma decoy_prompt_hides_messages to_text :
  let body := JObj [("prompt", JStr "hello"); ("messages", JArr [JObj [("content", JStr "my card is 4111")]])] in
  classifyProxyRequest "/v1/proxy/v1/chat/completions" "POST" (JsonBody (Some body)) json_headers =
    HooksAs "chatComplete" /\
  extractRequestText to_text (Some body) = Some (Some (JStr "hello")).
Proof. vm_compute. done. Qed.
End Samples.
