(* ===== verification/UpstreamRequest.v ===== *)
(** * The request a provider is sent

    Models what [handlers/handlerUtils.ts] builds for the upstream call
    ([constructRequestHeaders], [constructRequestBody], [constructRequest]), the
    credential test of [utils/redact.ts], [utils/psInternalHeaders.ts], and the URL
    of the call: [handlers/services/providerContext.ts] with the parts of
    [RequestContext] it reads.

    The provider's own headers, base URL and endpoint path are arguments (its table
    is not modelled), and so is the URL parser.

    [upstream_headers_sound]: the headers of the call are the provider's and the
    ones asked to be forwarded, the provider's credentials win, and no header that
    is internal to the gateway leaves it.  [url_keeps_origin]: a caller chooses
    neither host nor scheme nor port of the URL. *)

From Stdlib Require Import ZArith Lia Ascii Floats.SpecFloat.
From stdpp Require Import base strings option sets list.
From S2P Require Import Prelude JsValue JsText CacheKey TargetTree UrlGuard ProxyGuardrails.

#[local] Open Scope string_scope.
#[local] Open Scope list_scope.

(** ** Credentials and internal headers *)

(** [/^(bearer|basic)$/i] and [/(^|\s)(undefined|null)$/] on a trimmed text *)
Definition bare_scheme (v : string) : bool := mem_string (toLowerCase v) ["bearer"; "basic"].

Definition ends_with_word (v word : string) : bool :=
  endsWith v word &&
  match srev (String.substring 0 (String.length v - String.length word) v) with
  | EmptyString => true
  | String c _ => is_space c
  end.

Definition isMeaningfulCredential (value : string) : bool :=
  let v := trim value in
  truthy_string v && negb (bare_scheme v) && negb (ends_with_word v "undefined" || ends_with_word v "null").

Definition pickCredentialHeaders (headers : obj string) : obj string :=
  List.filter (fun p => isSensitiveKey p.1 && isMeaningfulCredential p.2) headers.

Definition PS_INTERNAL_HEADER_PREFIX : string := "x-ps-".

Definition isPSInternalHeader (name : string) : bool := startsWith (toLowerCase name) PS_INTERNAL_HEADER_PREFIX.

Definition stripPSInternalHeaders {A} (headers : obj A) : obj A :=
  List.filter (fun p => negb (isPSInternalHeader p.1)) headers.

(** ** Headers *)

(** What of the request the headers are built from. *)
Record HeaderInput := mkHeaderInput {
  hi_method : string;
  hi_forwardHeaders : list string;
  hi_requestHeaders : obj string;
  hi_endpoint : string;
  hi_customHeadersToIgnore : list string
}.

(** [RequestContext.forwardHeaders] *)
Definition forwardHeaders (requestHeaders : obj string) (ofTarget : option (list string)) : list string :=
  match own requestHeaders "x-portkey-forward-headers" with
  | Some v => map trim (split_on ","%char v)
  | None => default [] ofTarget
  end.

Definition is_proxy (h : HeaderInput) : bool := (hi_endpoint h =? "proxy")%string.

Definition headersToIgnore (h : HeaderInput) : list string :=
  hi_customHeadersToIgnore h ++ ["expect"; "content-length"].

Definition proxyHeaders (h : HeaderInput) : obj string :=
  if is_proxy h
  then List.filter (fun p => negb (mem_string p.1 (headersToIgnore h)) && negb (startsWith p.1 "x-portkey-"))
         (hi_requestHeaders h)
  else [].

Definition baseHeaders : obj string := [("content-type", "application/json")].

Definition lower_names (headers : obj string) : obj string :=
  foldl (fun o p => obj_put o (toLowerCase p.1) p.2) [] headers.

Definition forward_one (requestHeaders : obj string) (out : obj string) (name : string) : obj string :=
  let key := toLowerCase name in
  match own requestHeaders key with
  | Some v => if truthy_string v then obj_put out key v else out
  | None => out
  end.

Definition forwardHeadersMap (h : HeaderInput) : obj string :=
  foldl (forward_one (hi_requestHeaders h)) [] (hi_forwardHeaders h).

(** The headers before the content type is adjusted. *)
Definition merged_headers (h : HeaderInput) (providerConfigMappedHeaders : obj string) : obj string :=
  let headers := lower_names providerConfigMappedHeaders in
  obj_spread (obj_spread (obj_spread (obj_spread baseHeaders headers) (forwardHeadersMap h)) (proxyHeaders h))
    (pickCredentialHeaders headers).

(** A missing content type is sent as that word. *)
Definition upload_headers (h : HeaderInput) (headers : obj string) : obj string :=
  let headers := obj_put headers "Content-Type" (default "undefined" (own (hi_requestHeaders h) "content-type")) in
  match own (hi_requestHeaders h) "x-portkey-file-purpose" with
  | Some purpose => if truthy_string purpose then obj_put headers "x-portkey-file-purpose" purpose else headers
  | None => headers
  end.

Definition constructRequestHeaders (h : HeaderInput) (providerConfigMappedHeaders : obj string) : obj string :=
  let headers := merged_headers h providerConfigMappedHeaders in
  let contentType := (fun v => hd "" (split_on ";"%char v)) <$> own headers "content-type" in
  let headers :=
    if (hi_method h =? "GET")%string || bool_decide (contentType = Some "multipart/form-data") then
      let headers := map_delete headers "content-type" in
      if (hi_endpoint h =? "uploadFile")%string then upload_headers h headers else headers
    else headers in
  stripPSInternalHeaders headers.

(** ** Body *)

(** [None]: the call has no body; a JSON text of the transformed body, the
    transformed body itself, or the incoming stream. *)
Inductive BodyInit := JsonText | TransformedBody | RequestStream.

Definition constructRequestBody (providerHeaders requestHeaders : obj string) (endpoint method : string)
    (requestBody : ReqBody) : option BodyInit :=
  let headerContentType := own providerHeaders "Content-Type" in
  let requestContentType := hd "" (split_on ";"%char (default "" (own requestHeaders "content-type"))) in
  let proxied := (endpoint =? "proxy")%string in
  let body :=
    if bool_decide (headerContentType = Some "multipart/form-data") ||
       (proxied && (requestContentType =? "multipart/form-data")%string) then Some TransformedBody
    else match requestBody with
         | StreamBody => Some RequestStream
         | _ =>
             if proxied && startsWith requestContentType "audio" then Some TransformedBody
             else if truthy_string requestContentType then Some JsonText else None
         end in
  if mem_string method ["GET"; "DELETE"] then None else body.

Record FetchOptions := mkFetch {
  fo_method : string;
  fo_headers : obj string;
  fo_redirect : string;
  fo_half_duplex : bool;
  fo_body : option BodyInit
}.

Definition constructRequest (h : HeaderInput) (providerMappedHeaders : obj string) (requestBody : ReqBody)
    : FetchOptions :=
  mkFetch (hi_method h) (constructRequestHeaders h providerMappedHeaders) "manual"
    (hi_endpoint h =? "uploadFile")%string
    (constructRequestBody providerMappedHeaders (hi_requestHeaders h) (hi_endpoint h) (hi_method h) requestBody).

(** ** The URL of the call *)

Definition URLS : list string := ["http:"; "https:"; "ws:"; "wss:"; "ftp:"].

Definition host (u : URL) : string :=
  if truthy_string (port u) then hostname u ++ ":" ++ port u else hostname u.

(** [url.origin]: of a scheme with hosts; the others have the opaque one. *)
Definition origin (u : URL) : string :=
  if mem_string (protocol u) URLS then protocol u ++ "//" ++ host u else "null".

(** The messages of the [GatewayError]s, with status 400. *)
Inductive UrlError := InvalidProxyPath | InvalidUpstreamURL.

(** What a provider's table gives for a call, and the request's own URL. *)
Record UrlInput := mkUrlInput {
  ui_provider : string;
  ui_endpoint : string;
  ui_customHost : string;
  ui_baseURL : string;
  ui_endpointPath : string;
  ui_getProxyEndpoint : option (string -> string -> string);
  ui_hasRequestHandler : bool;
  ui_pathname : string;
  ui_search : string
}.

(** [s.replace('/v1/v1/', '/v1/')] *)
Fixpoint replace_first (p by_text s : string) : string :=
  if startsWith s p
  then by_text ++ String.substring (String.length p) (String.length s - String.length p) s
  else match s with
       | EmptyString => EmptyString
       | String c r => String c (replace_first p by_text r)
       end.

Section Urls.
(** [new URL(s)], [None] when it throws. *)
Variable parse_url : string -> option URL.

Definition proxyBaseHost (baseURL : string) : string :=
  match parse_url baseURL with
  | Some u => if is_http u && negb (has_credentials u) then toLowerCase (host u) else ""
  | None => ""
  end.

(** Whether [assertProxyURLOrigin] returns. *)
Definition assertProxyURLOrigin (proxyURL baseURL : string) : bool :=
  match parse_url proxyURL, parse_url baseURL with
  | Some target, Some base =>
      truthy_string (proxyBaseHost baseURL) && negb (has_credentials target) && (origin target =? origin base)%string
  | _, _ => false
  end.

Definition getProxyPath (i : UrlInput) (baseURL : string) : result UrlError string :=
  let reqPath := stripProxyEndpointPath (ui_pathname i) in
  if truthy_string reqPath && negb (startsWith reqPath "/") then Throw InvalidProxyPath
  else if (ui_provider i =? "azure-openai")%string && includes reqPath ".openai.azure.com" then
    let h := proxyBaseHost baseURL in
    let firstSegment := toLowerCase (hd "" (split_on "/"%char (String.substring 1 (String.length reqPath - 1) reqPath))) in
    if negb (truthy_string h) || negb (firstSegment =? h)%string then Throw InvalidProxyPath
    else Ok ("https:/" ++ reqPath ++ ui_search i)%string
  else match ui_getProxyEndpoint i with
       | Some f => Ok (baseURL ++ f reqPath (ui_search i))%string
       | None =>
           let proxyPath := (baseURL ++ reqPath ++ ui_search i)%string in
           Ok (if (ui_provider i =? "anthropic")%string then replace_first "/v1/v1/" "/v1/" proxyPath else proxyPath)
       end.

Definition base_of (i : UrlInput) : string :=
  if truthy_string (ui_customHost i) then ui_customHost i else ui_baseURL i.

Definition getFullURL (i : UrlInput) : result UrlError string :=
  let baseURL := base_of i in
  if (ui_endpoint i =? "proxy")%string then
    let* url := getProxyPath i baseURL in
    if assertProxyURLOrigin url baseURL then Ok url else Throw InvalidProxyPath
  else
    let url := (baseURL ++ ui_endpointPath i)%string in
    if truthy_string baseURL && negb (ui_hasRequestHandler i) && negb (assertProxyURLOrigin url baseURL)
    then Throw InvalidUpstreamURL else Ok url.

Lemma assert_origin url base : assertProxyURLOrigin url base = true ->
  exists t b, parse_url url = Some t /\ parse_url base = Some b /\ is_http b = true /\
    has_credentials b = false /\ has_credentials t = false /\ origin t = origin b.
Proof.
  unfold assertProxyURLOrigin, proxyBaseHost. destruct (parse_url url) as [t|]; [|done].
  destruct (parse_url base) as [b|] eqn:Hb; [|done].
  destruct (is_http b) eqn:Hh; [|done]. destruct (has_credentials b) eqn:Hc; [done|]. cbn [negb andb].
  intros [[_ Ht%negb_true_iff]%andb_true_iff Ho%String.eqb_eq]%andb_true_iff. by exists t, b.
Qed.

(** The URL of a call without a request handler has the origin of the provider's
    base URL (or of the custom host), an http(s) URL, and carries no user
    information: the path, the query and the fields of the request choose none of
    it. *)
Lemma url_keeps_origin i url :
  getFullURL i = Ok url -> ui_endpoint i = "proxy" \/ ui_hasRequestHandler i = false /\ base_of i <> "" ->
  exists t b, parse_url url = Some t /\ parse_url (base_of i) = Some b /\ is_http b = true /\
    has_credentials b = false /\ has_credentials t = false /\ origin t = origin b.
Proof.
  unfold getFullURL. destruct (String.eqb_spec (ui_endpoint i) "proxy") as [He|He].
  - destruct (getProxyPath i (base_of i)) as [u|e]; [|done].
    destruct (assertProxyURLOrigin u (base_of i)) eqn:Ha; [|done]. intros [= <-] _. by apply assert_origin.
  - intros H [|[Hh Hb]]; [done|]. rewrite Hh in H.
    assert (Ht : truthy_string (base_of i) = true) by (by apply negb_true_iff, String.eqb_neq). rewrite Ht in H.
    destruct (assertProxyURLOrigin _ _) eqn:Ha; [|done]. cbn [andb negb] in H. injection H as <-. by apply assert_origin.
Qed.
End Urls.

(** ** The headers of the call *)

Lemma NoDup_lower headers : NoDup (obj_keys (lower_names headers)).
Proof.
  unfold lower_names. assert (H : NoDup (obj_keys (@nil (string * string)))) by constructor. revert H.
  generalize (@nil (string * string)) as o. induction headers as [|p headers IH]; intros o Ho; [done|].
  by apply IH, NoDup_obj_put.
Qed.

Lemma NoDup_forward names req : NoDup (obj_keys (foldl (forward_one req) [] names)).
Proof.
  assert (H : NoDup (obj_keys (@nil (string * string)))) by constructor. revert H.
  generalize (@nil (string * string)) as o. induction names as [|n names IH]; intros o Ho; [done|]. apply IH.
  unfold forward_one. case_match; [|done]. case_match; [by apply NoDup_obj_put|done].
Qed.

Lemma own_forward names req k v : own (foldl (forward_one req) [] names) k = Some v ->
  k ∈ map toLowerCase names /\ own req k = Some v.
Proof.
  assert (H : forall o, own (foldl (forward_one req) o names) k = Some v ->
    own o k = Some v \/ k ∈ map toLowerCase names /\ own req k = Some v).
  { induction names as [|n names IH]; intros o; [by left|]. cbn [foldl map]. intros [H|[Hk Hr]]%IH.
    - unfold forward_one in H. destruct (own req (toLowerCase n)) as [w|] eqn:Hw; [|by left].
      destruct (truthy_string w); [|by left]. rewrite own_put in H.
      destruct (String.eqb_spec k (toLowerCase n)) as [->|]; [|by left].
      injection H as ->. right. split; [by left|done].
    - right. split; [by right|done]. }
  intros [Hk|]%H; [done|done].
Qed.

(** Object well-formedness the merge needs. *)
Lemma own_merged h prov k : NoDup (obj_keys (hi_requestHeaders h)) ->
  own (merged_headers h prov) k =
  match own (pickCredentialHeaders (lower_names prov)) k with
  | Some v => Some v
  | None =>
      match own (proxyHeaders h) k with
      | Some v => Some v
      | None =>
          match own (forwardHeadersMap h) k with
          | Some v => Some v
          | None => match own (lower_names prov) k with Some v => Some v | None => own baseHeaders k end
          end
      end
  end.
Proof.
  intros Hn. unfold merged_headers. rewrite !own_spread; [done|apply NoDup_lower|apply NoDup_forward| |].
  - unfold proxyHeaders. destruct (is_proxy h); [|constructor].
    by apply obj_keys_filter.
  - apply obj_keys_filter, NoDup_lower.
Qed.

(** The adjustment of the content type touches only these names. *)
Definition content_names : list string := ["content-type"; "Content-Type"; "x-portkey-file-purpose"].

Lemma own_upload h headers k : k ∉ content_names -> own (upload_headers h headers) k = own headers k.
Proof.
  intros Hk. unfold upload_headers.
  assert (Hne : forall x (o : obj string) v, x ∈ content_names -> own (obj_put o x v) k = own o k).
  { intros x o v Hx. rewrite own_put. destruct (String.eqb_spec k x); [by subst|done]. }
  case_match; [case_match|]; rewrite ?Hne; done || (unfold content_names; set_solver).
Qed.

Lemma own_adjusted h headers (b : bool) k : k ∉ content_names ->
  own (if b then let hs := map_delete headers "content-type" in
                 if (hi_endpoint h =? "uploadFile")%string then upload_headers h hs else hs
       else headers) k = own headers k.
Proof.
  intros Hk. destruct b; [|done]. cbv zeta.
  assert (Hd : own (map_delete headers "content-type") k = own headers k).
  { apply own_map_delete. intros ->. apply Hk. by left. }
  destruct (_ =? _)%string; [by rewrite own_upload|done].
Qed.

Lemma NoDup_adjusted h headers (b : bool) : NoDup (obj_keys headers) ->
  NoDup (obj_keys (if b then let hs := map_delete headers "content-type" in
                 if (hi_endpoint h =? "uploadFile")%string then upload_headers h hs else hs
       else headers)).
Proof.
  intros Hn. destruct b; [|done]. cbv zeta. assert (Hd := NoDup_map_delete headers "content-type" Hn).
  destruct (_ =? _)%string; [|done]. unfold upload_headers.
  repeat case_match; repeat apply NoDup_obj_put; done.
Qed.

Lemma own_constructed h prov k : k ∉ content_names -> NoDup (obj_keys (hi_requestHeaders h)) ->
  own (constructRequestHeaders h prov) k =
  if isPSInternalHeader k then None else own (merged_headers h prov) k.
Proof.
  intros Hk Hn. unfold constructRequestHeaders, stripPSInternalHeaders. cbv zeta.
  rewrite own_filter_entry.
  - rewrite own_adjusted by done. cbn [fst]. by destruct (own _ k), (isPSInternalHeader k).
  - apply NoDup_adjusted. unfold merged_headers. repeat apply NoDup_obj_spread. by repeat constructor; set_solver.
Qed.

(** Where a header that reaches the provider comes from, apart from the content type
    and the purpose of an upload. *)
Inductive header_source (h : HeaderInput) (prov : obj string) (k v : string) : Prop :=
| from_provider : own (lower_names prov) k = Some v -> header_source h prov k v
| from_forwarding :
    k ∈ map toLowerCase (hi_forwardHeaders h) -> own (hi_requestHeaders h) k = Some v -> header_source h prov k v
| from_proxied :
    hi_endpoint h = "proxy" -> own (hi_requestHeaders h) k = Some v -> startsWith k "x-portkey-" = false ->
    k ∉ headersToIgnore h -> header_source h prov k v.

(** [C23] A header of the upstream call, content type and upload purpose aside, is
    one the provider's configuration made, one the caller asked to be forwarded
    or, on a proxied request, one of the caller's own that is not the gateway's;
    none is internal metadata ([x-ps-]), in any case; and a credential the
    configuration made is sent as it is, whatever the caller forwards or proxies. *)
Theorem upstream_headers_sound h prov k :
  NoDup (obj_keys (hi_requestHeaders h)) -> k ∉ content_names ->
  (forall v, own (constructRequestHeaders h prov) k = Some v ->
     isPSInternalHeader k = false /\ header_source h prov k v) /\
  (forall v, own (lower_names prov) k = Some v -> isSensitiveKey k = true -> isMeaningfulCredential v = true ->
     isPSInternalHeader k = false -> own (constructRequestHeaders h prov) k = Some v).
Proof.
  intros Hn Hk. rewrite own_constructed by done. rewrite own_merged by done.
  unfold pickCredentialHeaders. rewrite own_filter_entry by apply NoDup_lower. split.
  - intros v. destruct (isPSInternalHeader k); [done|]. intros H. split; [done|].
    assert (Hp : own (proxyHeaders h) k = Some v -> header_source h prov k v).
    { unfold proxyHeaders. destruct (is_proxy h) eqn:Hpx; [|done]. rewrite own_filter_entry by done.
      apply String.eqb_eq in Hpx. destruct (own (hi_requestHeaders h) k) as [w|] eqn:Hw; [|by intros ?]. cbn [fst].
      destruct (mem_string k _) eqn:Hm; [done|]. destruct (startsWith k _) eqn:Hs; [done|]. cbn [negb andb].
      intros [= ->]. apply from_proxied; [done..|]. by apply mem_string_false. }
    assert (Hf : own (forwardHeadersMap h) k = Some v -> header_source h prov k v).
    { intros [Hin Hr]%own_forward. by apply from_forwarding. }
    assert (Hb : own baseHeaders k = None).
    { apply own_None. intros Hin. apply Hk. by apply list_elem_of_singleton in Hin as ->; left. }
    rewrite Hb in H.
    destruct (own (lower_names prov) k) as [w|] eqn:Hw.
    + destruct (_ && _); [injection H as ->; by apply from_provider|].
      destruct (own (proxyHeaders h) k); [by apply Hp|].
      destruct (own (forwardHeadersMap h) k); [by apply Hf|]. injection H as ->. by apply from_provider.
    + destruct (own (proxyHeaders h) k); [by apply Hp|]. destruct (own (forwardHeadersMap h) k); [by apply Hf|done].
  - intros v -> Hs Hm ->. cbn [fst snd]. rewrite Hs, Hm. done.
Qed.

Module Samples.
Definition request : HeaderInput :=
  mkHeaderInput "POST" ["Authorization"; "X-PS-Owner"; "x-team"]
    [("authorization", "Bearer caller"); ("x-ps-owner", "alice"); ("x-team", "search");
     ("x-portkey-api-key", "gateway-key"); ("content-length", "12")] "proxy" [].

Definition provider_headers : obj string := [("Authorization", "Bearer provider-key"); ("OpenAI-Project", "p1")].

Example sent_headers :
  constructRequestHeaders request provider_headers =
  [("content-type", "application/json"); ("authorization", "Bearer provider-key"); ("openai-project", "p1");
   ("x-team", "search")].
Proof. vm_compute. reflexivity. Qed.

Lemma upstream_headers_sound_witness :
  own (constructRequestHeaders request provider_headers) "authorization" = Some "Bearer provider-key" /\
  header_source request provider_headers "x-team" "search".
Proof.
  assert (Hn : NoDup (obj_keys (hi_requestHeaders request))) by (apply (bool_decide_unpack _); vm_compute; exact I).
  split.
  - destruct (upstream_headers_sound request provider_headers "authorization" Hn) as [_ H].
    + apply (bool_decide_unpack _). vm_compute. exact I.
    + apply H; vm_compute; reflexivity.
  - destruct (upstream_headers_sound request provider_headers "x-team" Hn) as [H _].
    + apply (bool_decide_unpack _). vm_compute. exact I.
    + apply H. vm_compute. reflexivity.
Defined.

(** With no key configured the placeholder does not displace the caller's own. *)
Example placeholder_gives_way :
  own (constructRequestHeaders request [("Authorization", "Bearer undefined")]) "authorization" = Some "Bearer caller".
Proof. vm_compute. reflexivity. Qed.

(** A proxied path cannot leave the provider's host. *)
Definition parse_url (s : string) : option URL :=
  if startsWith s "https://fal.run.evil.com/" then Some (mkURL "https:" "" "" "fal.run.evil.com" "")
  else if startsWith s "https://fal.run" then Some (mkURL "https:" "" "" "fal.run" "") else None.

Definition call (pathname : string) : UrlInput :=
  mkUrlInput "fal" "proxy" "" "https://fal.run" "" None false pathname "".

Example proxied_urls :
  map (fun p => getFullURL parse_url (call p)) ["/v1/proxy/flux"; "/v1/proxy.evil.com/x"] =
  [Ok "https://fal.run/flux"; Throw InvalidProxyPath].
Proof. vm_compute. reflexivity. Qed.
End Samples.
