(* ===== verification/HeaderConfig.v ===== *)
(** * The targets of a request and the hosts they call

    Models [constructConfigFromRequestHeaders] ([src/gateway/src/handlers/handlerUtils.ts]):
    the options of a request, read from its config header or from its provider
    headers, with the settings each provider takes from headers of its own.  With
    [RequestValidator] (what is accepted), [TargetTree] (which targets are tried) and
    [UrlGuard] (which hosts are valid) it closes the path from the headers of a request
    to the hosts that are called.

    A member that is undefined is [None] while the options are built ([obj any]) and
    absent in the result.  [JSON.parse] is a parameter.  The schema only lets objects
    through as a config; [None] stands for the error a request without usable JSON ends
    with, and for a config that is no object.

    [every_called_host_was_checked]: whatever targets the search tries, at any depth and
    in any mode, each has a custom host that passed the host check, or none, and is then
    only called at a URL that passes the check of upstream URLs. *)

From Stdlib Require Import ZArith Lia Ascii.
From stdpp Require Import base strings option sets list.
From S2P Require Import Prelude JsValue JsText UrlGuard RequestValidator UpstreamRequest ConditionalRouter RetryHandler TargetTree.

Set Default Goal Selector "!".

#[local] Open Scope string_scope.
#[local] Open Scope list_scope.

(** ** Settings that providers take from headers

    A key and the headers it is read from: the first that is not empty, else the last. *)

Definition azureConfig : list (string * list string) :=
  [("resourceName", ["x-portkey-azure-resource-name"]);
   ("deploymentId", ["x-portkey-azure-deployment-id"]);
   ("apiVersion", ["x-portkey-azure-api-version"]);
   ("azureAdToken", ["x-portkey-azure-ad-token"]);
   ("azureAuthMode", ["x-portkey-azure-auth-mode"]);
   ("azureManagedClientId", ["x-portkey-azure-managed-client-id"]);
   ("azureWorkloadClientId", ["x-portkey-azure-workload-client-id"]);
   ("azureEntraClientId", ["x-portkey-azure-entra-client-id"]);
   ("azureEntraClientSecret", ["x-portkey-azure-entra-client-secret"]);
   ("azureEntraTenantId", ["x-portkey-azure-entra-tenant-id"]);
   ("azureModelName", ["x-portkey-azure-model-name"]);
   ("openaiBeta", ["x-portkey-openai-beta"; "openai-beta"]);
   ("azureEntraScope", ["x-portkey-azure-entra-scope"])].

Definition stabilityAiConfig : list (string * list string) :=
  [("stabilityClientId", ["x-portkey-stability-client-id"]);
   ("stabilityClientUserId", ["x-portkey-stability-client-user-id"]);
   ("stabilityClientVersion", ["x-portkey-stability-client-version"])].

Definition azureAiInferenceConfig : list (string * list string) :=
  [("azureApiVersion", ["x-portkey-azure-api-version"]);
   ("azureEndpointName", ["x-portkey-azure-endpoint-name"]);
   ("azureFoundryUrl", ["x-portkey-azure-foundry-url"]);
   ("azureAdToken", ["x-portkey-azure-ad-token"]);
   ("azureAuthMode", ["x-portkey-azure-auth-mode"]);
   ("azureManagedClientId", ["x-portkey-azure-managed-client-id"]);
   ("azureEntraClientId", ["x-portkey-azure-entra-client-id"]);
   ("azureEntraClientSecret", ["x-portkey-azure-entra-client-secret"]);
   ("azureEntraTenantId", ["x-portkey-azure-entra-tenant-id"]);
   ("azureEntraScope", ["x-portkey-azure-entra-scope"]);
   ("azureExtraParameters", ["x-portkey-azure-extra-params"]);
   ("anthropicVersion", ["x-portkey-anthropic-version"])].

Definition oauthClientCredentialsConfig : list (string * list string) :=
  [("oauthTokenUrl", ["x-portkey-oauth-token-url"]);
   ("oauthClientId", ["x-portkey-oauth-client-id"]);
   ("oauthClientSecret", ["x-portkey-oauth-client-secret"]);
   ("oauthScope", ["x-portkey-oauth-scope"]); ("oauthAudience", ["x-portkey-oauth-audience"])].

Definition awsConfig : list (string * list string) :=
  oauthClientCredentialsConfig ++
  [("awsAccessKeyId", ["x-portkey-aws-access-key-id"]);
   ("awsSecretAccessKey", ["x-portkey-aws-secret-access-key"]);
   ("awsSessionToken", ["x-portkey-aws-session-token"]);
   ("awsRegion", ["x-portkey-aws-region"]); ("awsRoleArn", ["x-portkey-aws-role-arn"]);
   ("awsAuthType", ["x-portkey-aws-auth-type"]);
   ("awsExternalId", ["x-portkey-aws-external-id"]);
   ("awsS3Bucket", ["x-portkey-aws-s3-bucket"]);
   ("awsS3ObjectKey", ["x-portkey-aws-s3-object-key"; "x-portkey-provider-file-name"]);
   ("awsBedrockModel", ["x-portkey-aws-bedrock-model"; "x-portkey-provider-model"]);
   ("awsServerSideEncryption", ["x-portkey-amz-server-side-encryption"]);
   ("awsServerSideEncryptionKMSKeyId", ["x-portkey-amz-server-side-encryption-aws-kms-key-id"]);
   ("anthropicBeta", ["x-portkey-anthropic-beta"; "anthropic-beta"]);
   ("anthropicVersion", ["x-portkey-anthropic-version"; "anthropic-version"])].

Definition claudePlatformAwsConfig : list (string * list string) :=
  awsConfig ++
  [("anthropicAwsWorkspaceId", ["x-portkey-anthropic-aws-workspace-id"; "anthropic-workspace-id"])].

Definition bedrockMantleConfig : list (string * list string) :=
  awsConfig ++
  [("bedrockMantleApiPath", ["x-portkey-bedrock-mantle-api-path"])].

Definition sagemakerConfig : list (string * list string) :=
  [("amznSagemakerCustomAttributes", ["x-portkey-amzn-sagemaker-custom-attributes"]);
   ("amznSagemakerTargetModel", ["x-portkey-amzn-sagemaker-target-model"]);
   ("amznSagemakerTargetVariant", ["x-portkey-amzn-sagemaker-target-variant"]);
   ("amznSagemakerTargetContainerHostname", ["x-portkey-amzn-sagemaker-target-container-hostname"]);
   ("amznSagemakerInferenceId", ["x-portkey-amzn-sagemaker-inference-id"]);
   ("amznSagemakerEnableExplanations", ["x-portkey-amzn-sagemaker-enable-explanations"]);
   ("amznSagemakerInferenceComponent", ["x-portkey-amzn-sagemaker-inference-component"]);
   ("amznSagemakerSessionId", ["x-portkey-amzn-sagemaker-session-id"]);
   ("amznSagemakerModelName", ["x-portkey-amzn-sagemaker-model-name"])].

Definition workersAiConfig : list (string * list string) :=
  [("workersAiAccountId", ["x-portkey-workers-ai-account-id"])].

Definition openAiConfig : list (string * list string) :=
  oauthClientCredentialsConfig ++
  [("openaiAuthType", ["x-portkey-openai-auth-type"]);
   ("openaiOrganization", ["x-portkey-openai-organization"]);
   ("openaiProject", ["x-portkey-openai-project"]);
   ("openaiBeta", ["x-portkey-openai-beta"; "openai-beta"])].

Definition huggingfaceConfig : list (string * list string) :=
  [("huggingfaceBaseUrl", ["x-portkey-huggingface-base-url"])].

Definition vertexConfig : list (string * list string) :=
  [("vertexProjectId", ["x-portkey-vertex-project-id"]);
   ("vertexRegion", ["x-portkey-vertex-region"]);
   ("vertexAuthType", ["x-portkey-vertex-auth-type"]);
   ("vertexStorageBucketName", ["x-portkey-vertex-storage-bucket-name"]);
   ("filename", ["x-portkey-provider-file-name"]);
   ("vertexModelName", ["x-portkey-provider-model"]);
   ("vertexBatchEndpoint", ["x-portkey-provider-batch-endpoint"]);
   ("anthropicBeta", ["x-portkey-anthropic-beta"; "anthropic-beta"]);
   ("anthropicVersion", ["x-portkey-anthropic-version"; "anthropic-version"])].

Definition fireworksConfig : list (string * list string) :=
  [("fireworksAccountId", ["x-portkey-fireworks-account-id"]);
   ("fireworksFileLength", ["x-portkey-file-upload-size"])].

Definition anthropicConfig : list (string * list string) :=
  [("anthropicBeta", ["x-portkey-anthropic-beta"; "anthropic-beta"]);
   ("anthropicVersion", ["x-portkey-anthropic-version"; "anthropic-version"]);
   ("anthropicApiKey", ["x-api-key"]); ("anthropicAuthType", ["x-portkey-anthropic-auth-type"])].

Definition cortexConfig : list (string * list string) :=
  [("snowflakeAccount", ["x-portkey-snowflake-account"])].

Definition oracleConfig : list (string * list string) :=
  [("oracleApiVersion", ["x-portkey-oracle-api-version"]);
   ("oracleRegion", ["x-portkey-oracle-region"]);
   ("oracleCompartmentId", ["x-portkey-oracle-compartment-id"]);
   ("oracleServingMode", ["x-portkey-oracle-serving-mode"]);
   ("oracleTenancy", ["x-portkey-oracle-tenancy"]); ("oracleUser", ["x-portkey-oracle-user"]);
   ("oracleFingerprint", ["x-portkey-oracle-fingerprint"]);
   ("oraclePrivateKey", ["x-portkey-oracle-private-key"]);
   ("oracleKeyPassphrase", ["x-portkey-oracle-key-passphrase"])].

Definition databricksConfig : list (string * list string) :=
  [("databricksWorkspace", ["x-portkey-databricks-workspace"])].

Section Headers.
Variable parse_json : string -> option json.
Variable headers : obj string.

(** [requestHeaders[a] || requestHeaders[b]] *)
Fixpoint header_or (names : list string) : option string :=
  match names with
  | [] => None
  | [n] => own headers n
  | n :: rest => if truthy_opt (own headers n) then own headers n else header_or rest
  end.

Definition header_members (table : list (string * list string)) : obj any :=
  map (fun p => (p.1, JStr <$> header_or p.2)) table.

Definition service_account : obj any :=
  let h := header headers "x-portkey-vertex-service-account-json" in
  if truthy_string h then [("vertexServiceAccountJson", Some (default JNull (parse_json h)))] else [].

(** What the options of a provider take from headers. *)
Definition provider_members (provider : string) : obj any :=
  match own [("azure-openai", azureConfig); ("bedrock", awsConfig); ("sagemaker", awsConfig ++ sagemakerConfig);
             ("claude-platform-aws", claudePlatformAwsConfig); ("bedrock-mantle", bedrockMantleConfig);
             ("workers-ai", workersAiConfig); ("openai", openAiConfig); ("huggingface", huggingfaceConfig);
             ("vertex-ai", vertexConfig); ("fireworks-ai", fireworksConfig); ("azure-ai", azureAiInferenceConfig);
             ("anthropic", anthropicConfig); ("stability-ai", stabilityAiConfig); ("cortex", cortexConfig);
             ("databricks", databricksConfig); ("oracle", oracleConfig)] provider with
  | Some table => header_members table
  | None => []
  end ++ (if (provider =? "vertex-ai")%string then service_account else []).

(** [requestHeaders['authorization']?.replace('Bearer ', '')] *)
Definition api_key : any := (fun a => JStr (replace_first "Bearer " "" a)) <$> own headers "authorization".

(** A list of default guardrails, or the error of [JSON.parse]. *)
Definition default_guardrails (name : string) : option json :=
  let h := header headers name in if truthy_string h then parse_json h else Some (JArr []).

(** The members that are not undefined. *)
Definition defined (o : obj any) : obj json := omap (fun p => (fun v => (p.1, v)) <$> p.2) o.

Definition members (o : obj json) : obj any := map (fun p => (p.1, Some p.2)) o.

(** [convertKeysToCamelCase] of an object that may have undefined members. *)
Definition camel_members (o : obj any) : obj json :=
  defined (foldl (fun acc p => obj_set acc (toCamelCase p.1) (camel_value p.1 <$> p.2)) [] o).

(** The parsed config with the defaults and, without a provider or targets of its own,
    the provider and the credentials of the headers. *)
Definition config_members (config : obj json) (ig og : json) : obj any :=
  let o := obj_put (obj_put (members config) "default_input_guardrails" (Some ig))
             "default_output_guardrails" (Some og) in
  if truthy (own config "provider") || truthy (own config "targets") then o
  else
    let provider := own headers "x-portkey-provider" in
    let o := obj_put (obj_put o "provider" (JStr <$> provider)) "api_key" api_key in
    obj_spread o (provider_members (default "" provider)).

(** The options of a request without a config. *)
Definition header_options (ig og : json) : obj any :=
  let provider := own headers "x-portkey-provider" in
  let o := [("provider", JStr <$> provider); ("apiKey", api_key);
            ("defaultInputGuardrails", Some ig); ("defaultOutputGuardrails", Some og)] in
  obj_put (obj_spread o (provider_members (default "" provider)))
    "mistralFimCompletion" (JStr <$> own headers "x-portkey-mistral-fim-completion").

Definition constructConfigFromRequestHeaders : option (obj json) :=
  match default_guardrails "x-portkey-default-input-guardrails",
        default_guardrails "x-portkey-default-output-guardrails" with
  | Some ig, Some og =>
      let config := header headers "x-portkey-config" in
      if truthy_string config then
        match parse_json config with
        | Some (JObj o) => Some (camel_members (config_members o ig og))
        | _ => None
        end
      else Some (defined (header_options ig og))
  | _, _ => None
  end.
End Headers.

(** ** Where a member of the options comes from *)

Lemma elem_of_obj_put {A} (o : obj A) k v p : p ∈ obj_put o k v -> p = (k, v) \/ p ∈ o.
Proof.
  induction o as [|[k' v'] o IH]; cbn; [set_solver|].
  destruct (k =? k')%string eqn:E.
  - apply String.eqb_eq in E as ->. set_solver.
  - rewrite !elem_of_cons. naive_solver.
Qed.

Lemma elem_of_obj_set {A} (o : obj A) k v p : p ∈ obj_set o k v -> p = (k, v) \/ p ∈ o.
Proof. unfold obj_set. destruct (_ =? _)%string; [by right|]. apply elem_of_obj_put. Qed.

Lemma elem_of_obj_spread {A} (a b : obj A) p : p ∈ obj_spread a b -> p ∈ a \/ p ∈ b.
Proof.
  unfold obj_spread. revert a. induction b as [|[k v] b IH]; intros a; cbn [foldl fst snd]; [by left|].
  intros [H|H]%IH; [|set_solver]. apply elem_of_obj_put in H as [->|H]; set_solver.
Qed.

Lemma elem_of_camel_fold {A} (f : string * A -> A) (l acc : obj A) p :
  p ∈ foldl (fun acc p => obj_set acc (toCamelCase p.1) (f p)) acc l ->
  p ∈ acc \/ exists q, q ∈ l /\ p = (toCamelCase q.1, f q).
Proof.
  revert acc. induction l as [|q l IH]; intros acc; cbn [foldl]; [by left|].
  intros [H|(q' & Hq & ->)]%IH; [|set_solver].
  apply elem_of_obj_set in H as [->|H]; [|by left]. right. exists q. set_solver.
Qed.

Lemma own_defined (o : obj any) k v : own (defined o) k = Some v -> (k, Some v) ∈ o.
Proof.
  intros H%own_In. apply list_elem_of_omap in H as ([k' v'] & Hin & He). cbn in He.
  destruct v' as [x|]; [|done]. by injection He as -> ->.
Qed.

(** The keys the gateway itself puts into the options. *)
Definition own_keys : list string :=
  ["default_input_guardrails"; "default_output_guardrails"; "provider"; "api_key"; "apiKey";
   "defaultInputGuardrails"; "defaultOutputGuardrails"; "mistralFimCompletion"; "vertexServiceAccountJson"] ++
  map fst (azureConfig ++ awsConfig ++ sagemakerConfig ++ claudePlatformAwsConfig ++ bedrockMantleConfig ++
           workersAiConfig ++ openAiConfig ++ huggingfaceConfig ++ vertexConfig ++ fireworksConfig ++
           azureAiInferenceConfig ++ anthropicConfig ++ stabilityAiConfig ++ cortexConfig ++ databricksConfig ++
           oracleConfig).

(** None of them is, or becomes, a custom host or the targets. *)
Lemma own_keys_harmless k : k ∈ own_keys -> toCamelCase k <> "customHost" /\ toCamelCase k <> "targets" /\ k <> "customHost" /\ k <> "targets".
Proof.
  assert (H : forallb (fun k => negb (mem_string (toCamelCase k) ["customHost"; "targets"]) &&
                                negb (mem_string k ["customHost"; "targets"])) own_keys = true) by (by vm_compute).
  rewrite forallb_forall in H. intros Hk%list_elem_of_In. specialize (H k Hk).
  apply andb_true_iff in H as [H1 H2]. apply negb_true_iff, mem_string_false in H1, H2.
  rewrite !not_elem_of_cons in H1, H2. clear Hk. naive_solver.
Qed.

Lemma provider_members_keys parse_json headers provider p :
  p ∈ provider_members parse_json headers provider -> p.1 ∈ own_keys.
Proof.
  unfold provider_members. rewrite elem_of_app. intros [H|H].
  - match type of H with context [own ?l provider] => set (tables := l) in H end.
    destruct (own tables provider) as [table|] eqn:Ht; [|by apply elem_of_nil in H].
    apply own_In in Ht. unfold header_members in H. apply list_elem_of_fmap in H as (q & -> & Hq). cbn [fst].
    assert (Hsub : forallb (fun t => forallb (fun q => mem_string q.1 own_keys) t.2) tables = true) by (by vm_compute).
    rewrite forallb_forall in Hsub. specialize (Hsub _ (proj1 (list_elem_of_In _ _) Ht)). cbn [snd] in Hsub.
    rewrite forallb_forall in Hsub. apply mem_string_In, Hsub. by apply list_elem_of_In.
  - destruct (provider =? "vertex-ai")%string; [|by apply elem_of_nil in H]. unfold service_account in H. cbv zeta in H.
    destruct (truthy_string _); [|by apply elem_of_nil in H]. apply list_elem_of_singleton in H as ->.
    apply mem_string_In. by vm_compute.
Qed.

Lemma config_members_from parse_json headers o ig og p :
  p ∈ config_members parse_json headers o ig og -> p.1 ∈ own_keys \/ exists v, p.2 = Some v /\ (p.1, v) ∈ o.
Proof.
  assert (Hk : forall k, mem_string k own_keys = true -> k ∈ own_keys) by (intros k; by rewrite mem_string_In).
  assert (Hbase : p ∈ obj_put (obj_put (members o) "default_input_guardrails" (Some ig))
      "default_output_guardrails" (Some og) -> p.1 ∈ own_keys \/ exists v, p.2 = Some v /\ (p.1, v) ∈ o).
  { intros [->|[->|H]%elem_of_obj_put]%elem_of_obj_put; [left; by apply Hk|left; by apply Hk|].
    unfold members in H. apply list_elem_of_fmap in H as ([k v] & -> & H). right. by exists v. }
  unfold config_members. cbv zeta. destruct (_ || _); [done|].
  intros [[->|[->|H]%elem_of_obj_put]%elem_of_obj_put|H]%elem_of_obj_spread;
    [left; by apply Hk|left; by apply Hk|by apply Hbase|left; by eapply provider_members_keys].
Qed.

Lemma header_options_keys parse_json headers ig og p : p ∈ header_options parse_json headers ig og -> p.1 ∈ own_keys.
Proof.
  assert (Hk : forall k, mem_string k own_keys = true -> k ∈ own_keys) by (intros k; by rewrite mem_string_In).
  unfold header_options. cbv zeta. intros [->|[H|H]%elem_of_obj_spread]%elem_of_obj_put; [by apply Hk| |by eapply provider_members_keys].
  repeat (apply elem_of_cons in H as [->|H]; [by apply Hk|]). by apply elem_of_nil in H.
Qed.

(** ** Targets whose hosts were checked *)

Section Checked.
(** The check a custom host of a config passed. *)
Variable good : string -> bool.

Definition host_ok (t : obj json) : Prop :=
  forall v, own t "customHost" = Some v -> truthy (Some v) = true -> exists h, v = JStr h /\ good h = true.

(** A target and every target below it. *)
Inductive CheckedTree : obj json -> Prop :=
| checked_tree t :
    host_ok t ->
    (forall l x, own t "targets" = Some (JArr l) -> JObj x ∈ l -> CheckedTree x) ->
    CheckedTree t.

(** The members the check looks at. *)
Definition same_node (x y : obj json) : Prop :=
  own x "customHost" = own y "customHost" /\ own x "targets" = own y "targets".

Lemma checked_same x y : same_node x y -> CheckedTree y -> CheckedTree x.
Proof.
  intros [Hh Ht] Hy. inversion Hy as [? H1 H2]; subst. constructor.
  - unfold host_ok. by rewrite Hh.
  - rewrite Ht. exact H2.
Qed.

Lemma tree_host_ok t : CheckedTree t -> host_ok t.
Proof. by intros []. Qed.

Lemma same_put (x : obj json) k v : k <> "customHost" -> k <> "targets" -> same_node (obj_put x k v) x.
Proof. intros H1 H2. split; apply own_put_ne; congruence. Qed.

(** ** The search *)

Section Search.
Context {W : Type}.
Variable random_id : string -> nat -> string.
Variable regex_test : json -> any -> option bool.
Variable context : RouterContext.
Variable to_text : json -> string.
Variable random : W -> num * W.
Variable tryPost : obj json -> string -> W -> result PostError Response * W.
Variable cb : option (Response -> any -> any -> string -> W -> result PostError unit * W).
(** What only calls of targets with a checked host keep. *)
Variable Inv : W -> Prop.

Hypothesis post_keeps : forall t p w, host_ok t -> Inv w -> Inv (tryPost t p w).2.
Hypothesis random_keeps : forall w, Inv w -> Inv (random w).2.
Hypothesis cb_keeps : forall f r a b p w, cb = Some f -> Inv w -> Inv (f r a b p w).2.

#[local] Abbreviation try_targets :=
  (tryTargetsRecursively random_id regex_test context to_text random tryPost cb).

Lemma merged_host t inh t2 i2 :
  host_ok t -> host_ok inh -> merge_config random_id t inh = Ok (t2, i2) -> host_ok t2 /\ host_ok i2.
Proof.
  intros Ht Hi Hm. apply (merge_config_value random_id "customHost") in Hm as [E2 Ei]; [|by left].
  assert (Hok : forall x, no_value (own x "customHost") = or_any (own t "customHost") (no_value (own inh "customHost")) ->
    host_ok x).
  { intros x E v Hv Htr. rewrite Hv in E. unfold no_value, or_any in E. rewrite Htr in E.
    destruct (truthy (own t "customHost")) eqn:E1; [by apply Ht|].
    destruct (truthy (own inh "customHost")) eqn:E3; [by apply Hi|done]. }
  split; by apply Hok.
Qed.

(** A child that is tried is one of the targets of the node. *)
Lemma children_of (t0 t i t2 : obj json) ts x :
  own t "targets" = own t0 "targets" -> drop_open t i = Ok t2 -> targets_of t2 = Ok ts -> x ∈ ts ->
  exists l y, own t0 "targets" = Some (JArr l) /\ JObj y ∈ l /\ same_node x y.
Proof.
  intros H0.
  assert (Hd : forall ts x, targets_of t = Ok ts -> x ∈ ts ->
    exists l y, own t0 "targets" = Some (JArr l) /\ JObj y ∈ l /\ same_node x y).
  { intros ts0 x0 Ht Hx. destruct (targets_of_spec _ _ _ Ht Hx) as (l & Ho & Hl).
    exists l, x0. rewrite <- H0. by split_and!. }
  unfold drop_open. destruct (truthy _); [|by intros [= <-]; apply Hd].
  destruct (healthy_targets t) as [h|] eqn:Hh; [|done]. destruct h as [|y h]; [by intros [= <-]; apply Hd|].
  intros [= <-] Hts. assert (ts = y :: h) as -> by (by injection (eq_trans (eq_sym Hts) (targets_of_put t (y :: h)))).
  intros Hx. revert Hh. unfold healthy_targets.
  destruct (truthy _); [|done]. destruct (targets_of t) as [l|] eqn:Ht; [|done]. intros [= Hf].
  rewrite <- Hf in Hx. apply filter_elem in Hx as [Hx _]. apply list_elem_of_fmap in Hx as ([j z] & -> & Hz).
  cbn [fst snd]. apply elem_of_zip_r in Hz. destruct (Hd l z eq_refl Hz) as (l' & y' & H1 & H2 & H3 & H4).
  exists l', y'. split; [done|]. split; [done|].
  destruct (same_put z "originalIndex" (JNum (num_of_Z (Z.of_nat j)))) as [E1 E2]; [done..|].
  split; congruence.
Qed.

Lemma routed_child config x :
  route_conditionally regex_test context config = Ok x ->
  exists y, y ∈ default [] (tg_targets config) /\ same_node x y.
Proof.
  assert (Hf : forall name, findTarget config name = Ok x -> exists y, y ∈ default [] (tg_targets config) /\ same_node x y).
  { intros name (i & y & Hy & _ & _ & ->)%findTarget_iff. exists y.
    split; [by eapply list_elem_of_lookup_2|]. by apply same_put. }
  unfold route_conditionally, resolveTarget. destruct (tg_strategy config) as [[m cs d]|]; [|done].
  destruct (_ =? _)%string; [|done]. destruct cs as [cs|]; [|done].
  destruct (first_condition _ _ _) as [[name|]|]; [apply Hf| |done].
  destruct d as [name|]; [|done]. destruct (truthy_string _); [apply Hf|done].
Qed.

Lemma fallback_keeps (try : obj json -> string -> W -> option Answer) codes path ts :
  (forall t p w a w', t ∈ ts -> Inv w -> try t p w = Some (a, w') -> Inv w') ->
  forall index r w a w', Inv w -> fallback_loop to_text try codes path index ts r w = Some (a, w') -> Inv w'.
Proof.
  induction ts as [|t ts IH]; intros Ht index r w a w' Hw; cbn [fallback_loop]; [by intros [= _ <-]|].
  destruct (try t _ w) as [[[r1|e] w1]|] eqn:E; [| |done].
  - assert (Inv w1) as Hw1 by (eapply Ht; [by left|exact Hw|exact E]).
    destruct (skips_fallback _ _); [by intros [= _ <-]|]. apply IH; [|done].
    intros t' p' w2 a' w2' Hin. apply Ht. by right.
  - intros [= _ <-]. eapply Ht; [by left|exact Hw|exact E].
Qed.

Lemma leaf_keeps t path id w : host_ok t -> Inv w -> Inv (leaf tryPost cb t path id w).2.
Proof.
  intros Ht Hw. unfold leaf. pose proof (post_keeps t path w Ht Hw) as H1.
  destruct (tryPost t path w) as [[r|e] w1]; cbn [snd] in *; [|done].
  destruct (truthy id); [|done]. destruct cb as [f|] eqn:Ef; [|done].
  pose proof (cb_keeps f r id (own t "cbConfig") path w1 eq_refl H1) as H2.
  by destruct (f r id (own t "cbConfig") path w1) as [[]].
Qed.

(** Only targets of the tree are called, with a host of their own or of a node above. *)
Lemma search_keeps fuel target path inherited w a w' :
  CheckedTree target -> host_ok inherited -> Inv w ->
  try_targets fuel target path inherited w = Some (a, w') -> Inv w'.
Proof.
  revert target path inherited w a w'. induction fuel as [|f IH]; intros target path inherited w a w' Htree Hinh Hw; [done|].
  cbn [tryTargetsRecursively]. unfold lift.
  destruct (merge_config random_id target inherited) as [[t i]|e] eqn:Hm; [|by intros [= _ <-]].
  destruct (merged_host _ _ _ _ (tree_host_ok _ Htree) Hinh Hm) as [Hht Hhi].
  assert (Hown : own t "targets" = own target "targets")
    by (eapply merge_config_keeps; [by apply (bool_decide_unpack _)|exact Hm]).
  destruct (drop_open t i) as [t2|e] eqn:Hdr; [|by intros [= _ <-]].
  assert (Ht2 : host_ok t2).
  { unfold drop_open in Hdr. destruct (truthy _); [|by injection Hdr as <-].
    destruct (healthy_targets t) as [[|y h]|]; [by injection Hdr as <-| |done]. injection Hdr as <-.
    unfold host_ok. rewrite own_put_ne by done. exact Hht. }
  assert (Hch : forall ts x, targets_of t2 = Ok ts -> x ∈ ts -> CheckedTree x).
  { intros ts x Hts Hx. destruct (children_of _ _ _ _ _ _ Hown Hdr Hts Hx) as (l & y & Hl & Hy & Hsame).
    inversion Htree as [? _ Hsub]; subst. eapply checked_same; [exact Hsame|]. by eapply Hsub. }
  assert (Hleaf : forall (a : result TargetError (option Response)) w', (let '(r, w1) := leaf tryPost cb t2 path (own i "id") w in Some (Ok (Some r), w1))
    = Some (a, w') -> Inv w').
  { intros a0 w0 E. pose proof (leaf_keeps t2 path (own i "id") w Ht2 Hw) as Hk.
    destruct (leaf _ _ _ _ _ _) as [r w1]. by injection E as _ <-. }
  assert (Hrec : forall ts x p w a w', targets_of t2 = Ok ts -> x ∈ ts -> Inv w ->
    try_targets f x p i w = Some (a, w') -> Inv w').
  { intros ts x p w1 a1 w1' Hts Hx Hw1. apply IH; [by eapply Hch|done|done]. }
  destruct (prop _ "mode") as [[| | |m| |]|]; try (by apply Hleaf).
  destruct (m =? "fallback")%string.
  { destruct (targets_of t2) as [ts|] eqn:Hts; [|by intros [= _ <-]]. apply fallback_keeps; [|done].
    intros x p w1 a1 w1' Hx Hw1. by eapply Hrec. }
  destruct (m =? "loadbalance")%string.
  { destruct (targets_of t2) as [ts|] eqn:Hts; [|by intros [= _ <-]]. pose proof (random_keeps w Hw) as Hw1.
    destruct (random w) as [r w1]. destruct (pick_weight _ _ _) as [[index p]|] eqn:Hp; [|by intros [= _ <-]].
    apply pick_weight_elem in Hp. apply list_elem_of_fmap in Hp as (x & -> & Hx). apply IH; [|done|done].
    apply (checked_same _ x); [|by eapply Hch]. unfold with_weight. destruct (own x "weight"); [done|]. by apply same_put. }
  destruct (m =? "conditional")%string.
  { destruct (match own t2 "targets" with Some _ => targets_of t2 | None => Ok [] end) as [ts|] eqn:Hts; [|by intros [= _ <-]].
    destruct (route_conditionally _ _ _) as [final|e] eqn:Hr; [|by intros [= _ <-]].
    apply routed_child in Hr as (y & Hy & Hsame). cbn [tg_targets default] in Hy. apply IH; [|done|done].
    eapply checked_same; [exact Hsame|]. destruct (own t2 "targets"); [by eapply Hch|].
    injection Hts as <-. by apply elem_of_nil in Hy. }
  destruct (m =? "single")%string; [|by apply Hleaf].
  destruct (targets_of t2) as [[|first rest]|] eqn:Hts; [by intros [= _ <-]| |by intros [= _ <-]].
  apply (Hrec _ _ _ _ _ _ eq_refl); [by left|done].
Qed.
End Search.
End Checked.

(** The calls a search makes, kept beside the state of the world. *)
Section Log.
Context {W : Type}.

Definition logged (tryPost : obj json -> string -> W -> result PostError Response * W)
    (t : obj json) (path : string) (w : W * list (obj json)) : result PostError Response * (W * list (obj json)) :=
  let '(r, w1) := tryPost t path w.1 in (r, (w1, w.2 ++ [t])).

Definition beside {A} (f : W -> A * W) (w : W * list (obj json)) : A * (W * list (obj json)) :=
  let '(a, w1) := f w.1 in (a, (w1, w.2)).

End Log.

(** ** From the headers to the targets *)

Section Called.
Variable parse_json : string -> option json.
Variable parse_url : string -> option URL.
Variable safeParse : json -> option (list string).
(** The environment of the request, and the one read without a request. *)
Variable env process_env : Env.

(** A config that spells the custom hosts and the targets of its nodes the documented
    way: no other key becomes one of them. *)
Inductive documented : json -> Prop :=
| documented_node o :
    NoDup (obj_keys o) ->
    (forall k, k ∈ obj_keys o -> toCamelCase k = "customHost" -> k = "custom_host") ->
    (forall k, k ∈ obj_keys o -> toCamelCase k = "targets" -> k = "targets") ->
    (forall l x, own o "targets" = Some (JArr l) -> x ∈ l -> documented x) ->
    documented (JObj o).

Definition checked_host (h : string) : bool := isValidCustomHost parse_url process_env h.

Lemma entry_own {A} (o : obj A) k v : NoDup (obj_keys o) -> (k, v) ∈ o -> own o k = Some v.
Proof.
  induction o as [|[k' v'] o IH]; cbn; intros Hn Hin; [by apply elem_of_nil in Hin|].
  apply NoDup_cons in Hn as [Hk Hn]. apply elem_of_cons in Hin as [[= <- <-]|Hin]; [by rewrite String.eqb_refl|].
  destruct (k =? k')%string eqn:E; [|by apply IH]. apply String.eqb_eq in E as ->. exfalso. apply Hk.
  unfold obj_keys. apply list_elem_of_fmap. by exists (k', v).
Qed.

(** Members that stand for a node of an accepted config. *)
Lemma node_checked o (t : obj json) :
  schema_refines parse_url safeParse process_env -> accepts safeParse (JObj o) -> documented (JObj o) ->
  (forall k v, own t k = Some v -> k = "customHost" \/ k = "targets" ->
     exists q x, toCamelCase q = k /\ (q, x) ∈ o /\ v = camel_value q x) ->
  (forall l x y, own o "targets" = Some (JArr l) -> x ∈ l -> camel_config x = JObj y -> CheckedTree checked_host y) ->
  CheckedTree checked_host t.
Proof.
  intros Hschema Hacc Hdoc Hfrom Hsub. inversion Hdoc as [? Hnd Hch Htg _]; subst.
  destruct (Hschema _ Hacc) as (_ & Href & Hty & Hts). cbn [prop] in *.
  assert (Hkey : forall (k : string) (x : json), (k, x) ∈ o -> k ∈ obj_keys o).
  { intros k x H. unfold obj_keys. apply list_elem_of_fmap. by exists (k, x). }
  constructor.
  - intros v Hv Htr. destruct (Hfrom _ _ Hv (or_introl eq_refl)) as (q & x & Hq & Hin & ->).
    apply Hch in Hq as ->; [|by eapply Hkey]. apply (entry_own _ _ _ Hnd) in Hin. rewrite Hin in Hty.
    unfold custom_host_refine in Href. cbn [prop] in Href. rewrite Hin in Href.
    destruct x as [| | |h| |]; try done. change (camel_value "custom_host" (JStr h)) with (JStr h) in *.
    exists h. split; [done|]. cbn [truthy] in Htr. rewrite Htr in Href. cbn [andb] in Href.
    unfold checked_host. by destruct (isValidCustomHost parse_url process_env h).
  - intros l y Hl Hy. destruct (Hfrom _ _ Hl (or_intror eq_refl)) as (q & x & Hq & Hin & He).
    apply Htg in Hq as ->; [|by eapply Hkey]. apply (entry_own _ _ _ Hnd) in Hin. rewrite Hin in Hts.
    destruct x as [| | | |l0|]; [by destruct Hts|by destruct Hts|by destruct Hts|by destruct Hts| |by destruct Hts].
    assert (He' : JArr l = JArr (map camel_config l0)) by exact He. injection He' as ->.
    apply list_elem_of_fmap in Hy as (x & Hx & Hin'). by eapply Hsub.
Qed.

Lemma camel_own o k v :
  own (match camel_config (JObj o) with JObj t => t | _ => [] end) k = Some v ->
  exists q x, toCamelCase q = k /\ (q, x) ∈ o /\ v = camel_value q x.
Proof.
  rewrite camel_config_obj. intros H%own_In.
  apply (elem_of_camel_fold (fun p => camel_value p.1 p.2)) in H as [H|([q x] & Hin & [= -> ->])];
    [by apply elem_of_nil in H|]. by exists q, x.
Qed.

(** A nested config, in camel case. *)
Lemma nested_checked config y :
  schema_refines parse_url safeParse process_env -> documented config -> accepts safeParse config ->
  camel_config config = JObj y -> CheckedTree checked_host y.
Proof.
  intros Hschema Hdoc. revert y. induction Hdoc as [o Hnd Hch Htg Hdoc IH]; intros y Hacc Hy.
  eapply (node_checked o); [done|done|by constructor| |].
  - intros k v Hv _. apply camel_own. by rewrite Hy.
  - intros l x z Hl Hx Hz. eapply IH; [exact Hl|exact Hx| |exact Hz].
    destruct (Hschema _ Hacc) as (_ & _ & _ & Hts). cbn [prop] in Hts. rewrite Hl in Hts.
    by eapply Forall_forall in Hts.
Qed.

(** The options a request starts the search with. *)
Lemma options_checked headers options :
  schema_refines parse_url safeParse process_env ->
  (forall config, truthy_string (header headers "x-portkey-config") = true ->
     parse_json (header headers "x-portkey-config") = Some config -> accepts safeParse config /\ documented config) ->
  constructConfigFromRequestHeaders parse_json headers = Some options ->
  CheckedTree checked_host options.
Proof.
  intros Hschema Hconf. unfold constructConfigFromRequestHeaders.
  destruct (default_guardrails _ _ "x-portkey-default-input-guardrails") as [ig|]; [|done].
  destruct (default_guardrails _ _ _) as [og|]; [|done]. cbv zeta.
  destruct (truthy_string (header headers "x-portkey-config")) eqn:Ht.
  - destruct (parse_json (header headers "x-portkey-config")) as [[| | | | |o]|] eqn:Hp;
      [done|done|done|done|done| |done].
    intros H. injection H as <-. destruct (Hconf _ eq_refl eq_refl) as [Hacc Hdoc].
    eapply (node_checked o); [done..| |].
    + intros k v Hv Hk. unfold camel_members in Hv. apply own_defined in Hv.
      apply (elem_of_camel_fold (fun p => camel_value p.1 <$> p.2)) in Hv as [H|([q x] & Hin & E)];
        [by apply elem_of_nil in H|]. cbn [fst snd] in E. injection E as -> E.
      apply config_members_from in Hin as [Hin|(j & Hj & Hin)]; cbn [fst snd] in *.
      * apply own_keys_harmless in Hin. destruct Hk as [Hk|Hk]; naive_solver.
      * subst x. injection E as ->. by exists q, j.
    + intros l x y Hl Hx. inversion Hdoc as [? _ _ _ Hd]; subst. eapply nested_checked; [done|by eapply Hd|].
      destruct (Hschema _ Hacc) as (_ & _ & _ & Hts). cbn [prop] in Hts. rewrite Hl in Hts.
      by eapply Forall_forall in Hts.
  - intros H. injection H as <-.
    assert (Hno : forall k v, own (defined (header_options parse_json headers ig og)) k = Some v ->
      k <> "customHost" /\ k <> "targets").
    { intros k v Hv. apply own_defined, header_options_keys, own_keys_harmless in Hv. cbn [fst] in Hv. naive_solver. }
    constructor.
    + intros v Hv. by destruct (Hno _ _ Hv).
    + intros l x Hv. by destruct (Hno _ _ Hv).
Qed.

(** A call of a target: its host was checked, or its URL has to be. *)
Definition host_was_checked (headers : obj string) (t : obj json) : Prop :=
  let host := customHost headers (JObj t) in
  (exists h, host = Some (JStr h) /\ truthy_string h = true /\
     (isValidCustomHost parse_url env h = true \/ isValidCustomHost parse_url process_env h = true)) \/
  (truthy host = false /\
   forall hasRequestHandler requestURL, refuses_upstream parse_url env host hasRequestHandler requestURL = false ->
     hasRequestHandler = true \/ isSafeUpstreamURL parse_url env requestURL = true).

Lemma call_checked headers t :
  (truthy_string (header headers "x-portkey-custom-host") = true ->
   isValidCustomHost parse_url env (header headers "x-portkey-custom-host") = true) ->
  host_ok checked_host t -> host_was_checked headers t.
Proof.
  intros Hh Ht. unfold host_was_checked, customHost. cbv zeta. cbn [prop].
  destruct (truthy_string (header headers "x-portkey-custom-host")) eqn:E.
  { left. exists (header headers "x-portkey-custom-host"). auto. }
  destruct (truthy (own t "customHost")) eqn:Eh.
  - left. destruct (own t "customHost") as [v|] eqn:Eo; [|done].
    destruct (Ht v Eo Eh) as (h & -> & Hg). exists h. auto.
  - right. split; [done|]. unfold refuses_upstream. intros [] u; [by left|]. cbn.
    intros Hu. right. by destruct (isSafeUpstreamURL parse_url env u).
Qed.
End Called.

Section Requests.
Context {W : Type}.
Variable parse_json : string -> option json.
Variable parse_url : string -> option URL.
Variable safeParse : json -> option (list string).
Variable env process_env : Env.
Variable random_id : string -> nat -> string.
Variable regex_test : json -> any -> option bool.
Variable context : RouterContext.
Variable to_text : json -> string.
Variable random : W -> num * W.
Variable tryPost : obj json -> string -> W -> result PostError Response * W.
Variable cb : option (Response -> any -> any -> string -> W -> result PostError unit * W).

(** The search over the targets of a request, with the targets it calls. *)
Definition search (fuel : nat) (options : obj json) (w : W) : option (Answer (W := W * list (obj json))) :=
  tryTargetsRecursively random_id regex_test context to_text (beside random) (logged tryPost)
    ((fun f r a b p => beside (f r a b p)) <$> cb) fuel options "config" [] (w, []).

(** [C14] Whatever targets the search tries for a request that was let through (by
    fallback, weights, conditions or none, at any depth of the config, or the one target
    of a request with provider headers only), each is called with a custom host that
    passed the check of custom hosts, from the header, the target or one above it, or
    with none, and then only at a URL that passes the check of upstream URLs, unless the
    provider builds its own requests.  The config spells [custom_host] and [targets] the
    documented way. *)
Theorem every_called_host_was_checked headers options fuel w a w' called :
  schema_refines parse_url safeParse process_env ->
  (truthy_string (header headers "x-portkey-config") = true ->
   forall config, parse_json (header headers "x-portkey-config") = Some config -> documented config) ->
  requestValidator parse_json parse_url safeParse env headers = None ->
  constructConfigFromRequestHeaders parse_json headers = Some options ->
  search fuel options w = Some (a, (w', called)) ->
  Forall (host_was_checked parse_url env process_env headers) called.
Proof.
  intros Hschema Hdoc [Hh Hc]%validator_passes Hopt Hs.
  assert (Htree : CheckedTree (checked_host parse_url process_env) options).
  { eapply options_checked; [exact Hschema| |exact Hopt]. intros config Ht Hp. split; [|by apply Hdoc].
    destruct (check_config_passes _ _ _ _ _ (Hc Ht)) as (config' & Hp' & Hok & _). congruence. }
  unfold search in Hs.
  apply (search_keeps (checked_host parse_url process_env) random_id regex_test context to_text (beside random)
    (logged tryPost) _ (fun w => Forall (host_was_checked parse_url env process_env headers) w.2)) in Hs;
    [exact Hs| | | |exact Htree|done|by apply Forall_nil_2].
  - intros t p [w0 l] Ht Hl. unfold logged. cbn [fst snd] in *. destruct (tryPost t p w0) as [r w1]. cbn [snd].
    apply Forall_app. split; [done|]. apply Forall_cons. split; [by apply call_checked|apply Forall_nil_2].
  - intros [w0 l] Hl. unfold beside. cbn [fst snd] in *. by destruct (random w0).
  - intros f r x y p [w0 l] Hf Hl. destruct cb as [f0|]; [|done]. injection Hf as <-. unfold beside. cbn [fst snd] in *.
    by destruct (f0 r x y p w0).
Qed.
End Requests.

(** ** Samples *)

Module Samples.

Definition valid_host : string := "https://llm.example.com/v1".
Definition parse_url : string -> option URL := RequestValidator.Samples.parse_url.
Definition env : Env := UrlGuard.Samples.none.

(** A schema that looks at the hosts and the targets, to a depth of four. *)
Fixpoint accepted (n : nat) (v : json) : bool :=
  match n with
  | O => false
  | S n =>
      is_object (Some v) && custom_host_refine parse_url env v &&
      match prop (Some v) "custom_host" with None | Some (JStr _) => true | _ => false end &&
      match prop (Some v) "targets" with
      | None => true
      | Some (JArr l) => forallb (accepted n) l
      | _ => false
      end
  end.

Definition safeParse (v : json) : option (list string) := if accepted 4 v then None else Some ["Invalid config"].

Lemma accepted_more n v : accepted n v = true -> accepted (S n) v = true.
Proof.
  revert v. induction n as [|n IH]; intros v; [done|]. intros H.
  change (accepted (S (S n)) v) with
    (is_object (Some v) && custom_host_refine parse_url env v &&
     match prop (Some v) "custom_host" with None | Some (JStr _) => true | _ => false end &&
     match prop (Some v) "targets" with None => true | Some (JArr l) => forallb (accepted (S n)) l | _ => false end).
  cbn [accepted] in H. apply andb_true_iff in H as [H1 H2]. rewrite H1. cbn [andb].
  destruct (prop (Some v) "targets") as [[| | | |l|]|]; try done.
  rewrite forallb_forall in *. intros x Hx. by apply IH, H2.
Qed.

Lemma schema_of_sample : schema_refines parse_url safeParse env.
Proof.
  intros v Hv. assert (H : accepted 4 v = true) by (unfold accepts, safeParse in Hv; destruct (accepted 4 v); naive_solver).
  cbn [accepted] in H. apply andb_true_iff in H as [H Ht]. apply andb_true_iff in H as [H Hs].
  apply andb_true_iff in H as [Ho Hr]. split; [done|]. split; [done|].
  split; [by destruct (prop (Some v) "custom_host") as [[]|]|].
  destruct (prop (Some v) "targets") as [[| | | |l|]|]; try done.
  apply Forall_forall. intros x Hx. left. unfold safeParse.
  rewrite (accepted_more 3); [done|]. rewrite forallb_forall in Ht. by apply Ht, list_elem_of_In.
Qed.

Definition mode (m : string) : string * json := ("strategy", JObj [("mode", JStr m)]).

(** The first target fails; the second is a group with a host of its own. *)
Definition leaf_target : json := JObj [("provider", JStr "openai"); ("api_key", JStr "k")].
Definition group : json := JObj [mode "single"; ("custom_host", JStr valid_host); ("targets", JArr [leaf_target])].
Definition tree : obj json :=
  [mode "fallback"; ("targets", JArr [JObj [("provider", JStr "openai"); ("fails", JStr "status")]; group])].

Definition parse_json (text : string) : option json := own [("config", JObj tree)] text.

Definition config_request : obj string := [("content-type", "application/json"); ("x-portkey-config", "config")].
Definition provider_request : obj string :=
  [("content-type", "application/json"); ("x-portkey-provider", "bedrock"); ("authorization", "Bearer k");
   ("x-portkey-aws-region", "us-east-1"); ("x-portkey-provider-model", "m")].

Definition run (headers : obj string) : option (list (any * any)) :=
  match constructConfigFromRequestHeaders parse_json headers with
  | Some options =>
      match search TargetTree.Samples.ids TargetTree.Samples.no_regex TargetTree.Samples.ctx TargetTree.Samples.show
              TargetTree.Samples.half TargetTree.Samples.post None 8 options [] with
      | Some (_, (_, called)) => Some (map (fun t => (own t "provider", own t "customHost")) called)
      | None => None
      end
  | None => None
  end.

Example provider_options :
  constructConfigFromRequestHeaders parse_json provider_request =
  Some [("provider", JStr "bedrock"); ("apiKey", JStr "k"); ("defaultInputGuardrails", JArr []);
        ("defaultOutputGuardrails", JArr []); ("awsRegion", JStr "us-east-1"); ("awsBedrockModel", JStr "m")].
Proof. vm_compute. reflexivity. Qed.

Example called_targets :
  map run [config_request; provider_request] =
  [Some [(Some (JStr "openai"), None); (Some (JStr "openai"), Some (JStr valid_host))]; Some [(Some (JStr "bedrock"), None)]].
Proof. vm_compute. reflexivity. Qed.

Lemma tree_documented : documented (JObj tree).
Proof.
  assert (Hkeys : forall o : obj json,
    forallb (fun k => negb (mem_string (toCamelCase k) ["customHost"; "targets"]) ||
                      mem_string k ["custom_host"; "targets"]) (obj_keys o) = true ->
    bool_decide (NoDup (obj_keys o)) = true ->
    (forall l x, own o "targets" = Some (JArr l) -> x ∈ l -> documented x) -> documented (JObj o)).
  { intros o Hk Hn Hsub. rewrite forallb_forall in Hk. constructor; [by apply bool_decide_eq_true in Hn| | |done];
      intros k Hin%list_elem_of_In Hc; specialize (Hk k Hin); rewrite Hc in Hk; cbn in Hk;
      destruct (k =? "custom_host")%string eqn:E1; destruct (k =? "targets")%string eqn:E2; cbn in Hk; try done;
      repeat match goal with H : (_ =? _)%string = true |- _ => apply String.eqb_eq in H end; subst; try done;
      vm_compute in Hc; discriminate. }
  assert (Hleaf : documented leaf_target) by (apply Hkeys; by vm_compute).
  apply Hkeys; [by vm_compute..|]. intros l x [= <-] Hx.
  apply elem_of_cons in Hx as [->|Hx]; [apply Hkeys; by vm_compute|]. apply list_elem_of_singleton in Hx as ->.
  apply Hkeys; [by vm_compute..|]. intros l x [= <-] ->%list_elem_of_singleton. exact Hleaf.
Qed.

Lemma every_called_host_was_checked_witness :
  match constructConfigFromRequestHeaders parse_json config_request with
  | Some options =>
      match search TargetTree.Samples.ids TargetTree.Samples.no_regex TargetTree.Samples.ctx TargetTree.Samples.show
              TargetTree.Samples.half TargetTree.Samples.post None 8 options [] with
      | Some (_, (_, called)) =>
          length called = 2%nat /\ Forall (host_was_checked parse_url env env config_request) called
      | None => False
      end
  | None => False
  end.
Proof.
  destruct (constructConfigFromRequestHeaders parse_json config_request) as [options|] eqn:Ho;
    [|by vm_compute in Ho].
  destruct (search TargetTree.Samples.ids _ _ _ _ _ _ 8 options []) as [[a [w' called]]|] eqn:Hs.
  - split.
    + vm_compute in Ho. injection Ho as <-. vm_compute in Hs. by injection Hs as _ _ <-.
    + eapply (every_called_host_was_checked parse_json parse_url safeParse env env); [exact schema_of_sample| | |exact Ho|exact Hs].
      * intros _ config Hp. injection Hp as <-. exact tree_documented.
      * vm_compute. reflexivity.
  - vm_compute in Ho. injection Ho as <-. by vm_compute in Hs.
Defined.

End Samples.
