(* ===== verification/ProviderTransform.v ===== *)
(** * Request parameters for a provider

    Models [services/transformToProviderRequest.ts]: a provider's configuration is a
    table from request parameters to paths of the provider's body, with defaults,
    bounds and transformations; the body is built by walking it.  The tables
    themselves and their transformations are data of the providers, arguments here.

    A body under construction is a tree ([val]) that can hold [undefined] and
    functions, which its JSON text leaves out.

    [parameter_value_in_bounds] and [transformed_request_exact]: what a body holds
    at every path of the table, whatever else the request says. *)

From Stdlib Require Import ZArith Lia Ascii Floats.SpecFloat.
From stdpp Require Import base strings option sets list.
From S2P Require Import Prelude JsValue JsText ProxyGuardrails.

#[local] Open Scope string_scope.
#[local] Open Scope list_scope.

(** ** Values of a body *)

Inductive val := VUndef | VFun | VAtom (v : json) | VObj (o : list (string * val)).

Fixpoint of_json (v : json) : val :=
  match v with
  | JObj o => VObj (map (fun p => (p.1, of_json p.2)) o)
  | _ => VAtom v
  end.

Definition of_any (v : any) : val := match v with Some j => of_json j | None => VUndef end.

Definition truthy_val (v : val) : bool :=
  match v with VUndef => false | VFun | VObj _ => true | VAtom j => truthy (Some j) end.

(** [current[k]] *)
Definition get (current : val) (k : string) : val :=
  match current with VObj o => default VUndef (own o k) | _ => VUndef end.

(** [current[k] = value]: on a list or a function it leaves no trace in the JSON text
    (no path names an index), on any other value it throws. *)
Definition assign (current : val) (k : string) (value : val) : option val :=
  match current with
  | VObj o => Some (VObj (obj_put o k value))
  | VFun | VAtom (JArr _) => Some current
  | _ => None
  end.

(** [None]: a TypeError. *)
Fixpoint set_parts (current : val) (parts : list string) (value : val) : option val :=
  match parts with
  | [] => Some current
  | [k] => assign current k value
  | k :: rest =>
      let child := if truthy_val (get current k) then get current k else VObj [] in
      match set_parts child rest value with
      | Some child => assign current k child
      | None => None
      end
  end.

Definition setNestedProperty (obj : val) (path : string) (value : val) : option val :=
  set_parts obj (split_dot path) value.

(** ** The tables *)

(** A default is a value or a function; a transformation may throw. *)
Inductive DefaultOf (O : Type) := DefaultValue (v : json) | DefaultFunction (f : obj json -> option O -> option any).
Arguments DefaultValue {O} v.
Arguments DefaultFunction {O} f.

Record ParameterConfig (O : Type) := mkParam {
  pc_param : string;
  pc_default : option (DefaultOf O);
  pc_min : option num;
  pc_max : option num;
  pc_required : bool;
  pc_transform : option (obj json -> O -> option any)
}.
Arguments mkParam {O}.
Arguments pc_param {O}.
Arguments pc_default {O}.
Arguments pc_min {O}.
Arguments pc_max {O}.
Arguments pc_required {O}.
Arguments pc_transform {O}.

(** A table, each name with its configurations. *)
Definition ProviderConfig (O : Type) : Type := obj (list (ParameterConfig O)).

Definition entries {O} (config : ProviderConfig O) : list (string * ParameterConfig O) :=
  List.concat (map (fun p => map (fun c => (p.1, c)) p.2) config).

Inductive TransformError := Unsupported (fn provider : string) | Thrown.

Section Transform.
Context {O : Type}.

(** A number is moved into the bounds. *)
Definition clamp (c : ParameterConfig O) (n : num) : num :=
  if match pc_min c with Some m => nltb n m | None => false end then default n (pc_min c)
  else if match pc_max c with Some m => nltb m n | None => false end then default n (pc_max c)
  else n.

Definition clamp_val (c : ParameterConfig O) (v : val) : val :=
  match v with VAtom (JNum n) => VAtom (JNum (clamp c n)) | _ => v end.

Definition default_val (d : DefaultOf O) : val :=
  match d with DefaultValue v => of_json v | DefaultFunction _ => VFun end.

(** [getValue]; [None]: the transformation throws. *)
Definition getValue (configParam : string) (params : obj json) (c : ParameterConfig O) (providerOptions : O)
    : option val :=
  match (match pc_transform c with
         | Some f => of_any <$> f params providerOptions
         | None => Some (of_any (own params configParam))
         end) with
  | None => None
  | Some value =>
      let value :=
        match value, pc_default c with
        | VAtom (JStr "portkey-default"), Some d => default_val d
        | _, _ => value
        end in
      Some (clamp_val c value)
  end.

(** The value a configuration writes, if it writes one: [Some None] when it throws.
    [options]: what a default function is given. *)
Definition written (params : obj json) (providerOptions : O) (options : option O)
    (e : string * ParameterConfig O) : option (option val) :=
  let '(configParam, c) := e in
  if hasOwn params configParam then Some (getValue configParam params c providerOptions)
  else if pc_required c then
    match pc_default c with
    | Some (DefaultValue v) => Some (Some (of_json v))
    | Some (DefaultFunction f) => Some (of_any <$> f params options)
    | None => None
    end
  else None.

Definition transform_step (params : obj json) (providerOptions : O) (request : option val)
    (e : string * ParameterConfig O) : option val :=
  match request, written params providerOptions (Some providerOptions) e with
  | None, _ => None
  | Some r, None => Some r
  | Some r, Some None => None
  | Some r, Some (Some v) => setNestedProperty r (pc_param e.2) v
  end.

Definition transformUsingProviderConfig (providerConfig : ProviderConfig O) (params : obj json)
    (providerOptions : O) : option val :=
  foldl (transform_step params providerOptions) (Some (VObj [])) (entries providerConfig).

Definition transformToProviderRequestJSON (config : option (ProviderConfig O)) (provider fn : string)
    (params : obj json) (providerOptions : O) : result TransformError val :=
  match config with
  | None => Throw (Unsupported fn provider)
  | Some c =>
      match transformUsingProviderConfig c params providerOptions with
      | Some v => Ok v
      | None => Throw Thrown
      end
  end.

(** The fields of a form; a default function is not given the options. *)
Definition transformToProviderRequestFormData (config : option (ProviderConfig O)) (params : obj json)
    (providerOptions : O) : option (list (string * val)) :=
  foldl (fun form e =>
    match form, written params providerOptions None e with
    | None, _ => None
    | Some f, None => Some f
    | Some f, Some None => None
    | Some f, Some (Some v) => Some (f ++ [(pc_param e.2, v)])
    end) (Some []) (entries (default [] config)).

(** What a provider's entry has for a request. *)
Record ProviderEntry := mkEntry {
  pe_config : string -> obj json -> option (ProviderConfig O);
  pe_transformToFormData : obj json -> bool;
  pe_imageEdit : bool
}.

Inductive Transformed :=
| TransformedJson (body : val)
| TransformedForm (fields : list (string * val))
| SameBody
| ProxiedParams (params : obj json)
| RequestTransform.

(** [transformToProviderRequest]; [RequestTransform]: the provider's own function of
    the stream or of a copy of the form. *)
Definition transformToProviderRequest (entry : ProviderEntry) (provider : string) (params : obj json)
    (requestBody : ReqBody) (fn : string) (providerOptions : O) : result TransformError Transformed :=
  if (fn =? "uploadFile")%string then Ok RequestTransform
  else if (fn =? "createFinetune")%string && mem_string provider ["azure-openai"; "fireworks-ai"]
  then Ok RequestTransform
  else
    match requestBody with
    | FormBody _ =>
        if (fn =? "imageEdit")%string && pe_imageEdit entry then Ok RequestTransform else Ok SameBody
    | BufferBody => Ok SameBody
    | _ =>
        if (fn =? "proxy")%string then Ok (ProxiedParams params)
        else if pe_transformToFormData entry params then
          match transformToProviderRequestFormData (pe_config entry fn params) params providerOptions with
          | Some f => Ok (TransformedForm f)
          | None => Throw Thrown
          end
        else
          let* body := transformToProviderRequestJSON (pe_config entry fn params) provider fn params providerOptions in
          Ok (TransformedJson body)
    end.
End Transform.

(** ** What a body holds at a path *)

Fixpoint get_path (v : val) (parts : list string) : val :=
  match parts with [] => v | k :: rest => get_path (get v k) rest end.

Definition is_obj (v : val) : Prop := exists o, v = VObj o.

(** The places on the way to a path are objects, or not there yet. *)
Fixpoint open_along (v : val) (parts : list string) : Prop :=
  match parts with
  | [] => True
  | k :: rest => is_obj v /\ match rest with [] => True | _ => get v k = VUndef \/ open_along (get v k) rest end
  end.

Lemma get_put o k v k' : get (VObj (obj_put o k v)) k' = if (k' =? k)%string then v else get (VObj o) k'.
Proof. unfold get. rewrite own_put. by destruct (k' =? k)%string. Qed.

Lemma get_undef parts : get_path VUndef parts = VUndef.
Proof. by induction parts. Qed.

Lemma get_empty k parts : get_path (VObj []) (k :: parts) = VUndef.
Proof. cbn [get_path]. apply get_undef. Qed.

Lemma open_child v k rest : rest <> [] -> get v k = VUndef \/ open_along (get v k) rest ->
  exists child, (if truthy_val (get v k) then get v k else VObj []) = child /\ open_along child rest /\
    (child = VObj [] /\ get v k = VUndef \/ child = get v k).
Proof.
  intros Hr [Hu|Ho].
  - exists (VObj []). rewrite Hu. split; [done|]. split; [|by left]. destruct rest as [|k2 rest]; [done|].
    split; [by eexists|]. by destruct rest; [|left].
  - exists (get v k). split; [|split; [done|by right]]. destruct rest as [|k2 rest]; [done|].
    by destruct Ho as [[o ->] _].
Qed.

Lemma set_cons v k k2 rest value :
  set_parts v (k :: k2 :: rest) value =
  match set_parts (if truthy_val (get v k) then get v k else VObj []) (k2 :: rest) value with
  | Some child => assign v k child
  | None => None
  end.
Proof. done. Qed.

Lemma set_open parts v value : parts <> [] -> open_along v parts ->
  exists v', set_parts v parts value = Some v' /\ is_obj v' /\ get_path v' parts = value.
Proof.
  revert v. induction parts as [|k rest IH]; intros v Hne Ho; [done|]. destruct rest as [|k2 rest].
  - destruct Ho as [[o ->] _]. exists (VObj (obj_put o k value)). split; [done|]. split; [by eexists|].
    cbn [get_path]. by rewrite get_put, String.eqb_refl.
  - destruct Ho as [[o ->] Hrest].
    destruct (open_child (VObj o) k (k2 :: rest)) as (child & Heq & Hc & _); [done|done|].
    destruct (IH child) as (c' & Hs & _ & Hg); [done|done|].
    exists (VObj (obj_put o k c')). split; [|split; [by eexists|]].
    + by rewrite set_cons, Heq, Hs.
    + cbn [get_path]. by rewrite get_put, String.eqb_refl.
Qed.

(** Two paths of which neither goes through the other. *)
Fixpoint apart (p q : list string) : Prop :=
  match p, q with
  | a :: p, b :: q => a <> b \/ apart p q
  | _, _ => False
  end.

Lemma set_apart parts v value v' q : open_along v parts -> apart parts q ->
  set_parts v parts value = Some v' -> get_path v' q = get_path v q.
Proof.
  revert v v' q. induction parts as [|k rest IH]; intros v v' q Ho Hq Hs; [done|].
  destruct q as [|b q]; [done|]. destruct Ho as [[o ->] Hrest]. destruct rest as [|k2 rest].
  - destruct Hq as [Hkb|Hq]; [|by destruct q]. injection Hs as <-. cbn [get_path]. rewrite get_put.
    by destruct (String.eqb_spec b k) as [->|].
  - destruct (open_child (VObj o) k (k2 :: rest)) as (child & Heq & Hc & Hcase); [done|done|].
    rewrite set_cons, Heq in Hs. destruct (set_parts child (k2 :: rest) value) as [c'|] eqn:Hc'; [|done].
    injection Hs as <-. cbn [get_path]. rewrite get_put.
    destruct (String.eqb_spec b k) as [->|]; [|done]. destruct Hq as [Hkb|Hq]; [done|].
    rewrite (IH child c' q Hc Hq Hc'). destruct Hcase as [[-> Hu]| ->]; [|done].
    rewrite Hu, get_undef. destruct q as [|b2 q]; [by destruct Hq|apply get_empty].
Qed.

(** A write leaves the way to every other path open. *)
Lemma set_keeps_open parts v value v' q : open_along v parts -> open_along v q -> parts = q \/ apart parts q ->
  set_parts v parts value = Some v' -> open_along v' q.
Proof.
  revert v v' q. induction parts as [|k rest IH]; intros v v' q Ho Hv Hq Hs; [by injection Hs as <-|].
  destruct q as [|b q]; [done|]. destruct Ho as [[o ->] Hrest]. destruct rest as [|k2 rest].
  - injection Hs as <-. split; [by eexists|]. destruct q as [|b2 q]; [done|].
    destruct Hv as [_ Hv]. rewrite get_put. destruct (String.eqb_spec b k) as [->|]; [|done].
    destruct Hq as [Hq|[Hkb|Hq]]; [done|done|by destruct Hq].
  - destruct (open_child (VObj o) k (k2 :: rest)) as (child & Heq & Hc & Hcase); [done|done|].
    rewrite set_cons, Heq in Hs. destruct (set_parts child (k2 :: rest) value) as [c'|] eqn:Hc'; [|done].
    injection Hs as <-. split; [by eexists|]. destruct q as [|b2 q]; [done|]. destruct Hv as [_ Hv].
    rewrite get_put. destruct (String.eqb_spec b k) as [->|]; [|done]. right.
    apply (IH child c' (b2 :: q)); [done| |naive_solver|done].
    destruct Hcase as [[-> Hu]| ->].
    + split; [by eexists|]. by destruct q; [|left].
    + destruct Hv as [Hv|Hv]; [|done]. destruct Hc as [[o' Ho'] _]. congruence.
Qed.

Lemma set_keys parts v value v' k : open_along v parts -> set_parts v parts value = Some v' ->
  get v' k <> VUndef -> get v k <> VUndef \/ hd_error parts = Some k.
Proof.
  intros Ho Hs Hk. destruct parts as [|a rest]; [injection Hs as <-; by left|].
  destruct (decide (a = k)) as [->|Hne]; [by right|left].
  pose proof (set_apart (a :: rest) v value v' [k] Ho (or_introl Hne) Hs) as H. cbn [get_path] in H. congruence.
Qed.

Lemma split_dot_nonempty s : split_dot s <> [].
Proof. destruct s as [|c s]; [done|]. cbn [split_dot]. case_match; [done|]. by case_match. Qed.

(** ** The body of a table *)

Section Exact.
Context {O : Type}.

Definition path_of (e : string * ParameterConfig O) : list string := split_dot (pc_param e.2).

(** No path of the table goes through another one; several names may share one. *)
Definition compatible (config : ProviderConfig O) : Prop :=
  forall e e', e ∈ entries config -> e' ∈ entries config -> path_of e = path_of e' \/ apart (path_of e) (path_of e').

(** The last value written at a path. *)
Definition last_written (params : obj json) (opts : O) (p : list string)
    (es : list (string * ParameterConfig O)) : val :=
  foldl (fun acc e =>
    match written params opts (Some opts) e with
    | Some (Some v) => if bool_decide (path_of e = p) then v else acc
    | _ => acc
    end) VUndef es.

(** No transformation or default function of the table throws on the request. *)
Definition nothing_throws (config : ProviderConfig O) (params : obj json) (opts : O) : Prop :=
  forall e, e ∈ entries config -> written params opts (Some opts) e <> Some None.

(** A body under construction, for the paths [ps] of its table. *)
Definition well_built (ps : list (list string)) (r : val) : Prop :=
  is_obj r /\ (forall p, p ∈ ps -> open_along r p) /\
  (forall k, get r k <> VUndef -> exists p, p ∈ ps /\ hd_error p = Some k).

Lemma open_empty p : open_along (VObj []) p.
Proof. destruct p as [|k rest]; [done|]. split; [by eexists|]. by destruct rest; [|left]. Qed.

Lemma build_step ps r p v :
  p ∈ ps -> p <> [] -> (forall q, q ∈ ps -> p = q \/ apart p q) -> well_built ps r ->
  exists r', set_parts r p v = Some r' /\ well_built ps r' /\
    forall q, q ∈ ps -> get_path r' q = if bool_decide (p = q) then v else get_path r q.
Proof.
  intros Hp Hne Hap (Hobj & Hopen & Hkeys).
  destruct (set_open p r v Hne (Hopen p Hp)) as (r' & Hs & Hobj' & Hg). exists r'. split; [done|]. split.
  - split; [done|]. split.
    + intros q Hq. eapply (set_keeps_open p r v r' q); eauto.
    + intros k Hk. destruct (set_keys p r v r' k (Hopen p Hp) Hs Hk) as [H|H]; [by apply Hkeys|by exists p].
  - intros q Hq. case_bool_decide as Heq; [by subst|].
    destruct (Hap q Hq) as [|Ha]; [done|]. by apply (set_apart p r v r' q); [apply Hopen|..].
Qed.

Lemma transform_exact ps params opts es r :
  well_built ps r ->
  (forall e, e ∈ es -> path_of e ∈ ps /\ (forall q, q ∈ ps -> path_of e = q \/ apart (path_of e) q)) ->
  (forall e, e ∈ es -> written params opts (Some opts) e <> Some None) ->
  exists r', foldl (transform_step params opts) (Some r) es = Some r' /\ well_built ps r' /\
    forall q, q ∈ ps -> get_path r' q =
      foldl (fun acc e => match written params opts (Some opts) e with
                          | Some (Some v) => if bool_decide (path_of e = q) then v else acc
                          | _ => acc end) (get_path r q) es.
Proof.
  revert r. induction es as [|e es IH]; intros r Hr Hps Hw; [by exists r|].
  destruct (Hps e ltac:(left)) as [Hin Hap]. pose proof (Hw e ltac:(left)) as Hwe.
  assert (Hrest : forall r1, well_built ps r1 -> exists r', foldl (transform_step params opts) (Some r1) es = Some r' /\
    well_built ps r' /\ forall q, q ∈ ps -> get_path r' q = foldl (fun acc e =>
      match written params opts (Some opts) e with
      | Some (Some v) => if bool_decide (path_of e = q) then v else acc
      | _ => acc end) (get_path r1 q) es).
  { intros r1 Hr1. apply IH; [done|..]; intros e' He'; [apply Hps|apply Hw]; by right. }
  cbn [foldl]. unfold transform_step at 2. destruct (written params opts (Some opts) e) as [[v|]|]; [|done|].
  - destruct (build_step ps r (path_of e) v) as (r1 & Hs & Hr1 & Hg); [done|apply split_dot_nonempty|done..|].
    unfold setNestedProperty. unfold path_of in Hs. rewrite Hs.
    destruct (Hrest r1 Hr1) as (r' & Hf & Hr' & Hq). exists r'. split; [done|]. split; [done|].
    intros q Hqs. rewrite (Hq q Hqs). f_equal. by apply Hg.
  - by apply Hrest.
Qed.

Lemma clamp_bounds (c : ParameterConfig O) n lo hi :
  is_nan n = false -> nleb lo hi = true -> pc_min c = Some lo -> pc_max c = Some hi ->
  nleb lo (clamp c n) = true /\ nleb (clamp c n) hi = true.
Proof.
  intros Hn Hlh Hlo Hhi. unfold clamp. rewrite Hlo, Hhi. cbn [default from_option].
  pose proof (nleb_refl lo) as Hl. pose proof (nleb_refl hi) as Hh.
  assert (Hnl : is_nan lo = false /\ is_nan hi = false).
  { revert Hlh. rewrite nleb_key. destruct (is_nan lo), (is_nan hi); by cbn. }
  destruct Hnl as [Hnl Hnh]. destruct (nltb n lo) eqn:H1.
  - split; [by apply Hl|done].
  - destruct (nltb hi n) eqn:H2; [by split; [|apply Hh]|].
    rewrite !nleb_negb by done. by rewrite H1, H2.
Qed.

(** Where no path of a provider's table goes through another and none of its
    functions throws, the body is built, and it holds at every path exactly the
    last value the table writes there: a parameter of the request (its default for
    the placeholder, a number moved into the bounds) or a required default; nothing
    else of the request reaches the provider; and a number of the request that is
    written lies within the bounds. *)
Theorem transformed_request_exact (config : ProviderConfig O) params opts :
  compatible config -> nothing_throws config params opts ->
  exists r, transformUsingProviderConfig config params opts = Some r /\
    (forall e, e ∈ entries config -> get_path r (path_of e) = last_written params opts (path_of e) (entries config)) /\
    (forall k, get r k <> VUndef -> exists e, e ∈ entries config /\ hd_error (path_of e) = Some k) /\
    (forall name c n lo hi, (name, c) ∈ entries config -> pc_transform c = None ->
       own params name = Some (JNum n) -> is_nan n = false ->
       pc_min c = Some lo -> pc_max c = Some hi -> nleb lo hi = true ->
       exists m, written params opts (Some opts) (name, c) = Some (Some (VAtom (JNum m))) /\
         nleb lo m = true /\ nleb m hi = true).
Proof.
  intros Hc Hw. set (ps := map path_of (entries config)).
  assert (Hempty : well_built ps (VObj [])).
  { split; [by eexists|]. split; [intros p _; apply open_empty|]. intros k Hk. by cbn in Hk. }
  destruct (transform_exact ps params opts (entries config) (VObj []) Hempty) as (r & Hr & (_ & _ & Hkeys) & Hq).
  { intros e He. split; [by apply list_elem_of_fmap_2|].
    intros q (e' & -> & He')%list_elem_of_fmap. by apply Hc. }
  { done. }
  exists r. split; [done|]. split; [|split].
  - intros e He. rewrite Hq by by apply list_elem_of_fmap_2. unfold last_written. f_equal.
    destruct (path_of e) as [|k rest] eqn:Hp; [by apply split_dot_nonempty in Hp|apply get_empty].
  - intros k Hk. destruct (Hkeys k Hk) as (p & (e & -> & He)%list_elem_of_fmap & Hp). by exists e.
  - intros name c n lo hi He Ht Hn Hnan Hlo Hhi Hlh. exists (clamp c n).
    split; [|by apply clamp_bounds]. unfold written, hasOwn, getValue. by rewrite Hn, Ht.
Qed.
End Exact.

Module Samples.
Definition table : ProviderConfig unit :=
  [("max_tokens", [mkParam "max_tokens" (Some (DefaultValue (JNum (num_of_Z 64000)))) None None true None]);
   ("max_completion_tokens", [mkParam "max_tokens" None None None false None]);
   ("temperature", [mkParam "options.temperature" (Some (DefaultValue (JNum (num_of_Z 1)))) (Some nzero)
      (Some (num_of_Z 1)) false None]);
   ("user", [mkParam "metadata.user_id" None None None false None])].

Definition request : obj json :=
  [("max_completion_tokens", JNum (num_of_Z 100)); ("temperature", JNum (num_of_Z 7));
   ("user", JStr "u1"); ("api_secret", JStr "s")].

(** The default gives way to the later name, the temperature is moved to its bound
    and the unknown parameter is left out. *)
Example transformed :
  transformUsingProviderConfig table request tt =
  Some (VObj [("max_tokens", VAtom (JNum (num_of_Z 100)));
              ("options", VObj [("temperature", VAtom (JNum (num_of_Z 1)))]);
              ("metadata", VObj [("user_id", VAtom (JStr "u1"))])]).
Proof. vm_compute. reflexivity. Qed.

Fixpoint apart_b (p q : list string) : bool :=
  match p, q with
  | a :: p, b :: q => negb (a =? b)%string || apart_b p q
  | _, _ => false
  end.

Lemma apart_b_ok p q : apart_b p q = true -> apart p q.
Proof.
  revert q. induction p as [|a p IH]; intros [|b q]; simpl; try done.
  intros [H%negb_true_iff%String.eqb_neq|H]%orb_true_iff; [by left|right; by apply IH].
Qed.

Lemma table_compatible : compatible table.
Proof.
  intros e e' He He'.
  assert (H : forallb (fun e => forallb (fun e' => bool_decide (path_of e = path_of e') || apart_b (path_of e) (path_of e'))
    (entries table)) (entries table) = true) by (vm_compute; reflexivity).
  rewrite forallb_forall in H. apply list_elem_of_In in He, He'. specialize (H e He).
  rewrite forallb_forall in H. specialize (H e' He').
  apply orb_true_iff in H as [H%bool_decide_eq_true|H]; [by left|right; by apply apart_b_ok].
Qed.

Lemma transformed_request_exact_witness :
  exists r, transformUsingProviderConfig table request tt = Some r /\
    get_path r ["options"; "temperature"] = VAtom (JNum (num_of_Z 1)).
Proof.
  destruct (transformed_request_exact table request tt table_compatible) as (r & Hr & Hg & _).
  - intros e He. apply list_elem_of_In in He. unfold entries, table in He. simpl in He.
    repeat (destruct He as [<-|He]; [vm_compute; discriminate|]). done.
  - exists r. split; [exact Hr|].
    specialize (Hg ("temperature", mkParam "options.temperature" (Some (DefaultValue (JNum (num_of_Z 1)))) (Some nzero)
      (Some (num_of_Z 1)) false None)). etransitivity; [apply Hg|vm_compute; reflexivity].
    unfold entries, table. simpl. by right; right; left.
Defined.

(** The placeholder takes a default function itself, which no JSON text holds. *)
Example placeholder_of_a_function :
  getValue "max_tokens" [("max_tokens", JStr "portkey-default")]
    (mkParam "max_tokens" (Some (DefaultFunction (fun _ _ => Some (Some (JNum (num_of_Z 5)))))) None None false None) tt
  = Some VFun.
Proof. reflexivity. Qed.
End Samples.
