(* ===== verification/AdapterShared.v ===== *)
(** * What the Messages and Responses adapters share

    Models [src/gateway/src/adapters/shared.ts], the map of finish reasons
    ([providers/utils/finishReasonMap.ts], with the values of the enumerations it
    names) and [toAnthropicStopReason] ([adapters/messages/responseTransform.ts]).

    [stop_reasons]: what a client of the Messages API is told, by the reason of the
    provider.  [usage_is_counts]: whatever the provider reports, the client is given
    finite counts. *)

From Stdlib Require Import ZArith Lia Ascii Floats.SpecFloat.
From stdpp Require Import base strings option list.
From S2P Require Import Prelude JsValue JsText.

#[local] Open Scope string_scope.
#[local] Open Scope list_scope.
#[local] Arguments num_of_Z : simpl never.

(** ** Finish reasons *)

Inductive FINISH_REASON := FR_stop | FR_length | FR_tool_calls | FR_content_filter | FR_function_call.

Definition finish_reasons : list FINISH_REASON :=
  [FR_stop; FR_length; FR_tool_calls; FR_content_filter; FR_function_call].

Definition finish_text (r : FINISH_REASON) : string :=
  match r with
  | FR_stop => "stop"
  | FR_length => "length"
  | FR_tool_calls => "tool_calls"
  | FR_content_filter => "content_filter"
  | FR_function_call => "function_call"
  end.

Inductive ANTHROPIC_STOP_REASON :=
| SR_end_turn | SR_max_tokens | SR_stop_sequence | SR_tool_use | SR_pause_turn | SR_refusal
| SR_model_context_window_exceeded.

Definition stop_reasons_all : list ANTHROPIC_STOP_REASON :=
  [SR_end_turn; SR_max_tokens; SR_stop_sequence; SR_tool_use; SR_pause_turn; SR_refusal;
   SR_model_context_window_exceeded].

Definition stop_text (r : ANTHROPIC_STOP_REASON) : string :=
  match r with
  | SR_end_turn => "end_turn"
  | SR_max_tokens => "max_tokens"
  | SR_stop_sequence => "stop_sequence"
  | SR_tool_use => "tool_use"
  | SR_pause_turn => "pause_turn"
  | SR_refusal => "refusal"
  | SR_model_context_window_exceeded => "model_context_window_exceeded"
  end.

#[export] Instance FINISH_REASON_eq_dec : EqDecision FINISH_REASON.
Proof. solve_decision. Defined.

#[export] Instance ANTHROPIC_STOP_REASON_eq_dec : EqDecision ANTHROPIC_STOP_REASON.
Proof. solve_decision. Defined.

Definition finish_of (s : string) : option FINISH_REASON :=
  List.find (fun r => (finish_text r =? s)%string) finish_reasons.

Definition stop_of (s : string) : option ANTHROPIC_STOP_REASON :=
  List.find (fun r => (stop_text r =? s)%string) stop_reasons_all.

(** The entries of the map in the order of the source, by the values of the
    enumerations: Anthropic, Bedrock, Vertex, Google, Titan, DeepSeek, Mistral,
    Together and Cohere. *)
Definition finishReasonEntries : list (string * FINISH_REASON) := [
  ("stop_sequence", FR_stop); ("end_turn", FR_stop); ("pause_turn", FR_stop);
  ("tool_use", FR_tool_calls); ("max_tokens", FR_length);
  ("end_turn", FR_stop); ("tool_use", FR_tool_calls); ("max_tokens", FR_length);
  ("stop_sequence", FR_stop); ("guardrail_intervened", FR_content_filter);
  ("content_filtered", FR_content_filter);
  ("STOP", FR_stop); ("RECITATION", FR_stop); ("OTHER", FR_stop);
  ("FINISH_REASON_UNSPECIFIED", FR_stop); ("MAX_TOKENS", FR_length);
  ("SAFETY", FR_content_filter); ("PROHIBITED_CONTENT", FR_content_filter);
  ("BLOCKLIST", FR_content_filter); ("SPII", FR_content_filter);
  ("MODEL_ARMOR", FR_content_filter); ("IMAGE_PROHIBITED_CONTENT", FR_content_filter);
  ("FINISH_REASON_UNSPECIFIED", FR_stop); ("STOP", FR_stop); ("MAX_TOKENS", FR_length);
  ("SAFETY", FR_content_filter); ("RECITATION", FR_stop); ("LANGUAGE", FR_content_filter);
  ("OTHER", FR_stop); ("BLOCKLIST", FR_content_filter); ("PROHIBITED_CONTENT", FR_content_filter);
  ("SPII", FR_content_filter); ("MALFORMED_FUNCTION_CALL", FR_stop);
  ("IMAGE_SAFETY", FR_content_filter); ("IMAGE_PROHIBITED_CONTENT", FR_content_filter);
  ("FINISHED", FR_stop); ("LENGTH", FR_length); ("STOP_CRITERIA_MET", FR_stop);
  ("RAG_QUERY_WHEN_RAG_DISABLED", FR_stop); ("CONTENT_FILTERED", FR_content_filter);
  ("stop", FR_stop); ("length", FR_length); ("tool_calls", FR_tool_calls);
  ("content_filter", FR_content_filter); ("insufficient_system_resource", FR_stop);
  ("stop", FR_stop); ("length", FR_length); ("model_length", FR_length);
  ("tool_calls", FR_tool_calls); ("error", FR_stop);
  ("stop", FR_stop); ("eos", FR_stop); ("length", FR_length); ("tool_calls", FR_tool_calls);
  ("function_call", FR_function_call);
  ("COMPLETE", FR_stop); ("STOP_SEQUENCE", FR_stop); ("MAX_TOKENS", FR_length);
  ("TOOL_CALL", FR_tool_calls); ("ERROR", FR_stop); ("TIMEOUT", FR_stop)
].

(** [finishReasonMap.get(k)]: of the entries of one key a [Map] keeps the last. *)
Definition finishReasonMap_get (k : string) : option FINISH_REASON := own (rev finishReasonEntries) k.

Definition normalizeFinishReason (reason : option string) : option FINISH_REASON :=
  match reason with
  | Some s =>
      if truthy_string s then
        match finish_of s with
        | Some r => Some r
        | None => Some (default FR_stop (finishReasonMap_get s))
        end
      else None
  | None => None
  end.

Definition native_stop_reason (finishReason : option string) : option ANTHROPIC_STOP_REASON :=
  match finishReason with
  | Some s => if truthy_string s then stop_of s else None
  | None => None
  end.

Definition toAnthropicStopReason (finishReason : option string) (hasToolUse : bool)
    : ANTHROPIC_STOP_REASON :=
  let reason :=
    match native_stop_reason finishReason with
    | Some r => r
    | None =>
        match normalizeFinishReason finishReason with
        | Some FR_length => SR_max_tokens
        | Some FR_tool_calls | Some FR_function_call => SR_tool_use
        | Some FR_content_filter => SR_refusal
        | _ => SR_end_turn
        end
    end in
  if hasToolUse && bool_decide (reason = SR_end_turn) then SR_tool_use else reason.

(** ** Usage *)

Record NormalizedUsage := mkUsage {
  promptTokens : num;
  completionTokens : num;
  cacheReadTokens : num;
  cacheCreationTokens : num;
  reasoningTokens : num;
  totalTokens : num
}.

Definition num_or_zero (v : any) : num :=
  match v with
  | Some (JNum n) => if is_finite_num n && nltb nzero n then n else nzero
  | _ => nzero
  end.

Definition normalizeUsage (usage : any) : NormalizedUsage :=
  let u := prop usage in
  let p := num_or_zero (u "prompt_tokens") in
  let c := num_or_zero (u "completion_tokens") in
  let total := num_or_zero (u "total_tokens") in
  mkUsage p c
    (num_or_zero (nullish (prop (u "prompt_tokens_details") "cached_tokens") (u "cache_read_input_tokens")))
    (num_or_zero (nullish (u "cache_creation_input_tokens")
                          (prop (u "prompt_tokens_details") "cache_creation_tokens")))
    (num_or_zero (prop (u "completion_tokens_details") "reasoning_tokens"))
    (if num_truthy total then total else nadd p c).

(** The usage of a Messages answer; the cache counts are there together. *)
Record MessagesUsage := mkMessagesUsage {
  mu_input : num;
  mu_output : num;
  mu_cache : option (num * num)
}.

Definition caches (creation read : num) : option (num * num) :=
  if num_truthy creation || num_truthy read then Some (creation, read) else None.

Definition toMessagesUsage (u : NormalizedUsage) : MessagesUsage :=
  mkMessagesUsage
    (nmax nzero (nsub (nsub (promptTokens u) (cacheReadTokens u)) (cacheCreationTokens u)))
    (completionTokens u)
    (caches (cacheCreationTokens u) (cacheReadTokens u)).

Definition messages_usage_json (u : MessagesUsage) : json :=
  JObj ([("input_tokens", JNum (mu_input u)); ("output_tokens", JNum (mu_output u))] ++
        match mu_cache u with
        | Some (creation, read) =>
            [("cache_creation_input_tokens", JNum creation); ("cache_read_input_tokens", JNum read)]
        | None => []
        end).

Definition toResponsesUsage (u : NormalizedUsage) : json :=
  JObj [("input_tokens", JNum (promptTokens u));
        ("input_tokens_details",
          JObj (("cached_tokens", JNum (cacheReadTokens u)) ::
                if num_truthy (cacheCreationTokens u)
                then [("cache_creation_tokens", JNum (cacheCreationTokens u))] else []));
        ("output_tokens", JNum (completionTokens u));
        ("output_tokens_details", JObj [("reasoning_tokens", JNum (reasoningTokens u))]);
        ("total_tokens", JNum (totalTokens u))].

(** ** Reasoning and tool calls *)

Definition plainReasoningText (msg : any) : string :=
  match prop msg "reasoning_content" with
  | Some (JStr s) => s
  | _ => match prop msg "reasoning" with Some (JStr s) => s | _ => "" end
  end.

(** [String(index)], with the text of a number a parameter. *)
Definition toolCallKey (number_text : num -> string) (index : any) : string :=
  match index with
  | Some (JNum n) => number_text n
  | Some (JStr s) => s
  | _ => "0"
  end.

(** ** Errors of the Messages API *)

Definition ANTHROPIC_ERROR_TYPE_BY_STATUS (status : Z) : option string :=
  match status with
  | 400 => Some "invalid_request_error"
  | 401 => Some "authentication_error"
  | 402 => Some "billing_error"
  | 403 => Some "permission_error"
  | 404 => Some "not_found_error"
  | 413 => Some "request_too_large"
  | 429 => Some "rate_limit_error"
  | 500 => Some "api_error"
  | 504 => Some "timeout_error"
  | 529 => Some "overloaded_error"
  | _ => None
  end%Z.

Definition ANTHROPIC_ERROR_TYPES : list string :=
  ["invalid_request_error"; "authentication_error"; "billing_error"; "permission_error";
   "not_found_error"; "request_too_large"; "rate_limit_error"; "api_error"; "timeout_error";
   "overloaded_error"].

(** [a || b] on values *)
Definition or_else (a b : any) : any := if truthy a then a else b.

Definition error_type (err : any) (status : Z) : string :=
  match prop err "type" with
  | Some (JStr t) =>
      if mem_string t ANTHROPIC_ERROR_TYPES then t
      else default (if (500 <=? status)%Z then "api_error" else "invalid_request_error")
             (ANTHROPIC_ERROR_TYPE_BY_STATUS status)
  | _ => default (if (500 <=? status)%Z then "api_error" else "invalid_request_error")
           (ANTHROPIC_ERROR_TYPE_BY_STATUS status)
  end.

Definition error_message (body : any) : json :=
  let err := prop body "error" in
  let m := match err with Some (JStr s) => Some (JStr s) | _ => prop err "message" end in
  default (JStr "Request failed") (or_else m (or_else (prop body "message") (Some (JStr "Request failed")))).

Definition toMessagesError (body : any) (status : Z) (provider : string) : json :=
  JObj [("type", JStr "error");
        ("error", JObj [("type", JStr (error_type (prop body "error") status));
                        ("message", error_message body)]);
        ("provider", default JNull (nullish (prop body "provider") (Some (JStr provider))))].

(** ** What the client is told *)

Lemma num_or_zero_ok v : is_finite_num (num_or_zero v) = true /\ nleb nzero (num_or_zero v) = true.
Proof.
  destruct v as [[| |n| | |]|]; simpl; try done.
  destruct (is_finite_num n && nltb nzero n) eqn:E; [|done].
  apply andb_true_iff in E as [Hf Hp]. auto with js.
Qed.

(** Every entry of a key that occurs more than once in the map has one value, so
    the order of the entries does not matter. *)
Lemma entries_agree :
  forallb (fun p => forallb (fun q => negb (p.1 =? q.1)%string || bool_decide (p.2 = q.2))
                      finishReasonEntries) finishReasonEntries = true.
Proof. vm_compute. reflexivity. Qed.

Lemma finish_of_text r : finish_of (finish_text r) = Some r.
Proof. by destruct r. Qed.

Lemma stop_of_text r : stop_of (stop_text r) = Some r.
Proof. by destruct r. Qed.

Lemma stop_of_sound s r : stop_of s = Some r -> s = stop_text r.
Proof. intros H%List.find_some. destruct H as [_ H%String.eqb_eq]. done. Qed.

Lemma stop_reason_tools s : toAnthropicStopReason s true <> SR_end_turn.
Proof.
  unfold toAnthropicStopReason. cbn [andb].
  match goal with |- context [bool_decide (?r = _)] => generalize r end.
  intros r. case_bool_decide; [done|done].
Qed.

(** The reasons of a client: its own are kept, those of OpenAI and of the other
    providers are translated, an unknown one ends the turn, and with tool calls
    the turn never just ends. *)
Lemma stop_reasons s hasToolUse :
  let r := toAnthropicStopReason s hasToolUse in
  let told x := r = if hasToolUse && bool_decide (x = SR_end_turn) then SR_tool_use else x in
  match s with
  | None => told SR_end_turn
  | Some s =>
      (forall x, s = stop_text x -> told x) /\
      (stop_of s = None ->
       told (match match finish_of s with Some f => Some f | None => finishReasonMap_get s end with
             | Some FR_length => SR_max_tokens
             | Some FR_tool_calls | Some FR_function_call => SR_tool_use
             | Some FR_content_filter => SR_refusal
             | _ => SR_end_turn
             end)) /\
      (hasToolUse = true -> r <> SR_end_turn)
  end.
Proof.
  cbv zeta. destruct s as [s|]; [|done]. split; [|split].
  - intros x ->. unfold toAnthropicStopReason, native_stop_reason.
    assert (truthy_string (stop_text x) = true) as -> by (by destruct x). by rewrite stop_of_text.
  - intros Hs. unfold toAnthropicStopReason, native_stop_reason, normalizeFinishReason. rewrite Hs.
    destruct (truthy_string s) eqn:Ht.
    + destruct (finish_of s); [done|]. by destruct (finishReasonMap_get s).
    + unfold truthy_string in Ht. apply negb_false_iff, String.eqb_eq in Ht as ->. done.
  - intros ->. apply stop_reason_tools.
Qed.

(** A count a client can add up. *)
Definition is_count (n : num) : Prop := is_finite_num n = true /\ nleb nzero n = true.

Lemma nsub_finite_r a b : is_nan a = false -> is_finite_num b = true -> is_nan (nsub a b) = false.
Proof.
  intros Ha Hb. destruct (is_finite_num a) eqn:Hf; [by apply nsub_not_nan|].
  destruct a as [|s| |]; try done. by destruct b.
Qed.

(** Whatever the provider reports, the tokens of the prompt, of the answer and of
    the cache are finite counts, and the tokens of the input are a number that is
    not negative. *)
Lemma usage_is_counts usage :
  let u := normalizeUsage usage in
  let m := toMessagesUsage u in
  Forall is_count [promptTokens u; completionTokens u; cacheReadTokens u; cacheCreationTokens u;
                   reasoningTokens u] /\
  is_nan (totalTokens u) = false /\
  is_nan (mu_input m) = false /\ nleb nzero (mu_input m) = true.
Proof.
  intros u m.
  assert (HF : Forall is_count [promptTokens u; completionTokens u; cacheReadTokens u;
                                cacheCreationTokens u; reasoningTokens u]).
  { repeat constructor; apply num_or_zero_ok. }
  split; [done|].
  inversion_clear HF as [|? ? [Hp _] HF1]. inversion_clear HF1 as [|? ? [Hc _] HF2].
  inversion_clear HF2 as [|? ? [Hr _] HF3]. inversion_clear HF3 as [|? ? [Hw _] _].
  assert (Hd : is_nan (nsub (nsub (promptTokens u) (cacheReadTokens u)) (cacheCreationTokens u)) = false)
    by (apply nsub_finite_r; [by apply nsub_not_nan|done]).
  split; [|split].
  - unfold u, normalizeUsage in Hp, Hc |- *. cbn [totalTokens promptTokens completionTokens] in *.
    destruct (num_truthy _); [apply finite_not_nan, num_or_zero_ok|by apply nadd_not_nan].
  - by apply nmax_not_nan.
  - by apply nmax_ge_l.
Qed.
