(* ===== verification/MessagesStream.v ===== *)
(** * A chat completion stream read as a Messages stream

    Models [src/gateway/src/adapters/messages/streamTransform.ts], and of
    [handlers/adapterUtils.ts] the reader of event streams ([readSSEStream]) and the
    loop of [adaptStreamingResponse] for the Messages API.

    Tool calls are shared: [toolBlocks] and [bufferedTools] name the same object,
    so the calls are kept in a store ([calls], in the order they were made) and both
    hold its places.  [randomUUID] is a stream of texts and the state counts the ones
    drawn; [JSON.parse] and the text of a number are parameters.  Events are kept as
    data; [sse] gives their text.

    The other half of the file is the protocol: a client of the Messages API reads
    events, and stops at one that is out of place ([client_step]).
    [client_accepts_stream]: however a stream is cut into reads, it accepts what the
    adapter writes for a provider whose stream ends once, ends with every block closed,
    and holds the text, the thoughts and the tool calls the provider sent.  [orderly_calls_arrive]: the arguments of a tool call arrive
    complete when the provider does not go back to text in the middle of one; the
    [Samples] show what is lost when it does, and what is written after the end.
    [reads_do_not_matter]: the events read do not depend on how the stream was cut
    into pieces. *)

From Stdlib Require Import ZArith Lia Ascii Floats.SpecFloat.
From stdpp Require Import base strings option list.
From S2P Require Import Prelude JsValue JsText CacheKey AdapterShared.

#[local] Open Scope string_scope.
#[local] Open Scope list_scope.
#[local] Arguments num_of_Z : simpl never.

(** ** Events *)

Inductive BlockType := BT_thinking | BT_text | BT_tool_use.

#[export] Instance BlockType_eq_dec : EqDecision BlockType.
Proof. solve_decision. Defined.

Inductive ContentBlock :=
| ThinkingBlock
| TextBlock
| ToolUseBlock (id name : string).

Definition block_type (b : ContentBlock) : BlockType :=
  match b with
  | ThinkingBlock => BT_thinking
  | TextBlock => BT_text
  | ToolUseBlock _ _ => BT_tool_use
  end.

Inductive Delta :=
| thinking_delta (s : string)
| signature_delta (s : string)
| text_delta (s : string)
| input_json_delta (s : string).

Inductive Event :=
| message_start (id model : string) (input_tokens : num)
| content_block_start (index : nat) (b : ContentBlock)
| content_block_delta (index : nat) (d : Delta)
| content_block_stop (index : nat)
| message_delta (stop_reason : ANTHROPIC_STOP_REASON) (usage : MessagesUsage)
| message_stop
| error (type message : string).

Definition block_json (b : ContentBlock) : json :=
  match b with
  | ThinkingBlock => JObj [("type", JStr "thinking"); ("thinking", JStr ""); ("signature", JStr "")]
  | TextBlock => JObj [("type", JStr "text"); ("text", JStr "")]
  | ToolUseBlock id name =>
      JObj [("type", JStr "tool_use"); ("id", JStr id); ("name", JStr name); ("input", JObj [])]
  end.

Definition delta_json (d : Delta) : json :=
  match d with
  | thinking_delta s => JObj [("type", JStr "thinking_delta"); ("thinking", JStr s)]
  | signature_delta s => JObj [("type", JStr "signature_delta"); ("signature", JStr s)]
  | text_delta s => JObj [("type", JStr "text_delta"); ("text", JStr s)]
  | input_json_delta s => JObj [("type", JStr "input_json_delta"); ("partial_json", JStr s)]
  end.

Definition index_json (i : nat) : json := JNum (num_of_Z (Z.of_nat i)).

(** The name of an event and its data without the [type]. *)
Definition event_data (e : Event) : string * list (string * json) :=
  match e with
  | message_start id model input_tokens =>
      ("message_start",
       [("message",
          JObj [("id", JStr id); ("type", JStr "message"); ("role", JStr "assistant");
                ("content", JArr []); ("model", JStr model); ("stop_reason", JNull);
                ("stop_sequence", JNull);
                ("usage", JObj [("input_tokens", JNum input_tokens); ("output_tokens", JNum nzero)])])])
  | content_block_start i b =>
      ("content_block_start", [("index", index_json i); ("content_block", block_json b)])
  | content_block_delta i d =>
      ("content_block_delta", [("index", index_json i); ("delta", delta_json d)])
  | content_block_stop i => ("content_block_stop", [("index", index_json i)])
  | message_delta r u =>
      ("message_delta",
       [("delta", JObj [("stop_reason", JStr (stop_text r)); ("stop_sequence", JNull)]);
        ("usage", messages_usage_json u)])
  | message_stop => ("message_stop", [])
  | error ty m => ("error", [("error", JObj [("type", JStr ty); ("message", JStr m)])])
  end.

Definition lf : string := String (ascii_of_N 10) "".

Definition sse (number_text : num -> string) (e : Event) : string :=
  let '(event, data) := event_data e in
  "event: " +:+ event +:+ lf +:+ "data: " +:+
  CacheKey.JSON_stringify number_text (JObj (("type", JStr event) :: data)) +:+ lf +:+ lf.

(** ** The state of a stream *)

Record ToolCall := mkCall {
  tc_id : string;
  tc_name : string;
  tc_index : option nat;
  tc_args : string
}.

Record StreamState := mkState {
  messageId : string;
  model : string;
  requestedModel : string;
  hasStarted : bool;
  completed : bool;
  inputTokens : num;
  outputTokens : num;
  cacheReads : num;
  cacheCreations : num;
  contentBlockIndex : nat;
  openedBlock : option (nat * BlockType);
  calls : list ToolCall;
  toolBlocks : obj nat;
  bufferedTools : list nat;
  hasToolUse : bool;
  finishReason : option string;
  stopReason : option ANTHROPIC_STOP_REASON;
  drawn : nat
}.

Definition eta (s : StreamState) : StreamState :=
  mkState (messageId s) (model s) (requestedModel s) (hasStarted s) (completed s) (inputTokens s)
    (outputTokens s) (cacheReads s) (cacheCreations s) (contentBlockIndex s) (openedBlock s)
    (calls s) (toolBlocks s) (bufferedTools s) (hasToolUse s) (finishReason s) (stopReason s) (drawn s).

Definition set_messageId v s : StreamState := ltac:(set_field eta s messageId v).
Definition set_model v s : StreamState := ltac:(set_field eta s model v).
Definition set_hasStarted v s : StreamState := ltac:(set_field eta s hasStarted v).
Definition set_completed v s : StreamState := ltac:(set_field eta s completed v).
Definition set_inputTokens v s : StreamState := ltac:(set_field eta s inputTokens v).
Definition set_outputTokens v s : StreamState := ltac:(set_field eta s outputTokens v).
Definition set_cacheReads v s : StreamState := ltac:(set_field eta s cacheReads v).
Definition set_cacheCreations v s : StreamState := ltac:(set_field eta s cacheCreations v).
Definition set_contentBlockIndex v s : StreamState := ltac:(set_field eta s contentBlockIndex v).
Definition set_openedBlock v s : StreamState := ltac:(set_field eta s openedBlock v).
Definition set_calls v s : StreamState := ltac:(set_field eta s calls v).
Definition set_toolBlocks v s : StreamState := ltac:(set_field eta s toolBlocks v).
Definition set_bufferedTools v s : StreamState := ltac:(set_field eta s bufferedTools v).
Definition set_hasToolUse v s : StreamState := ltac:(set_field eta s hasToolUse v).
Definition set_finishReason v s : StreamState := ltac:(set_field eta s finishReason v).
Definition set_stopReason v s : StreamState := ltac:(set_field eta s stopReason v).
Definition set_drawn v s : StreamState := ltac:(set_field eta s drawn v).

Definition createStreamState (requested : any) : StreamState :=
  mkState "" "" (default "" (as_string requested)) false false nzero nzero nzero nzero 0 None [] [] []
    false None None 0.

Definition upd_call (i : nat) (f : ToolCall -> ToolCall) (s : StreamState) : StreamState :=
  set_calls (alter f i (calls s)) s.

Definition with_index (i : nat) (c : ToolCall) : ToolCall :=
  mkCall (tc_id c) (tc_name c) (Some i) (tc_args c).

Definition add_args (a : string) (c : ToolCall) : ToolCall :=
  mkCall (tc_id c) (tc_name c) (tc_index c) (tc_args c +:+ a).

(** ** Blocks: the state and the events written so far *)

Record Run := mkRun { st : StreamState; events : list Event }.

Definition push (e : Event) (w : Run) : Run := mkRun (st w) (events w ++ [e]).
Definition upd (f : StreamState -> StreamState) (w : Run) : Run := mkRun (f (st w)) (events w).

Definition closeOpenBlock (w : Run) : Run :=
  match openedBlock (st w) with
  | None => w
  | Some (i, _) => upd (set_openedBlock None) (push (content_block_stop i) w)
  end.

Definition openBlock (b : ContentBlock) (w : Run) : nat * Run :=
  let w := closeOpenBlock w in
  let index := contentBlockIndex (st w) in
  (index,
   push (content_block_start index b)
     (upd (fun s => set_openedBlock (Some (index, block_type b)) (set_contentBlockIndex (S index) s)) w)).

Definition flush_one (w : Run) (i : nat) : Run :=
  match calls (st w) !! i with
  | None => w
  | Some call =>
      let '(index, w) := openBlock (ToolUseBlock (tc_id call) (tc_name call)) w in
      let w := upd (upd_call i (with_index index)) w in
      let w := if truthy_string (tc_args call)
               then push (content_block_delta index (input_json_delta (tc_args call))) w else w in
      closeOpenBlock w
  end.

Definition flushBufferedTools (w : Run) : Run :=
  upd (set_bufferedTools []) (foldl flush_one w (bufferedTools (st w))).

Definition ensureBlock (b : ContentBlock) (w : Run) : nat * Run :=
  match openedBlock (st w) with
  | Some (i, t) => if bool_decide (t = block_type b) then (i, w) else openBlock b w
  | None => openBlock b w
  end.

(** [ensureBlock] and the delta that is pushed to it. *)
Definition write_delta (b : ContentBlock) (d : Delta) (w : Run) : Run :=
  let '(index, w) := ensureBlock b w in push (content_block_delta index d) w.

Section Stream.
Variable JSON_parse : string -> option json.
Variable number_text : num -> string.
Variable randomUUID : nat -> string.

Definition DONE : string := "data: [DONE]".

Definition final_usage (s : StreamState) : MessagesUsage :=
  mkMessagesUsage (inputTokens s) (outputTokens s) (caches (cacheCreations s) (cacheReads s)).

Definition finish (w : Run) : Run :=
  if negb (hasStarted (st w)) || completed (st w) then w
  else
    let w := flushBufferedTools (closeOpenBlock (upd (set_completed true) w)) in
    let reason := toAnthropicStopReason (finishReason (st w)) (hasToolUse (st w)) in
    let w := upd (set_stopReason (Some reason)) w in
    push message_stop (push (message_delta reason (final_usage (st w))) w).

Definition nonempty (v : any) : option string :=
  match v with Some (JStr s) => if truthy_string s then Some s else None | _ => None end.

Definition error_event (err : any) : Event :=
  let message := match err with Some (JStr s) => Some (JStr s) | _ => prop err "message" end in
  error (default "api_error" (nonempty (prop err "type"))) (default "Stream error" (nonempty message)).

Definition track_usage (usage : any) (s : StreamState) : StreamState :=
  if truthy usage then
    let u := normalizeUsage usage in
    let s :=
      if num_truthy (promptTokens u) then
        set_cacheCreations (cacheCreationTokens u)
          (set_cacheReads (cacheReadTokens u) (set_inputTokens (mu_input (toMessagesUsage u)) s))
      else s in
    if num_truthy (completionTokens u) then set_outputTokens (completionTokens u) s else s
  else s.

Definition start (parsed : any) (w : Run) : Run :=
  if hasStarted (st w) then w
  else
    let id := "msg_" +:+ randomUUID (drawn (st w)) in
    let m := default (requestedModel (st w)) (nonempty (prop parsed "model")) in
    let w := upd (fun s => set_drawn (S (drawn s)) (set_model m (set_messageId id (set_hasStarted true s)))) w in
    push (message_start id m (inputTokens (st w))) w.

Definition record_of (v : any) : any := if is_object v then v else None.
Definition array_of (v : any) : list json := match v with Some (JArr l) => l | _ => [] end.

Definition first_choice (parsed : any) : any :=
  record_of (match prop parsed "choices" with Some (JArr (x :: _)) => Some x | _ => None end).
Definition delta_of (choice : any) : any := record_of (prop choice "delta").

(** One entry of [content_blocks]; the flag is [sawBlockThinking]. *)
Definition thinking_step (x : bool * Run) (block : json) : bool * Run :=
  if is_object (Some block) then
    let d := prop (Some block) "delta" in
    let x := match nonempty (prop d "thinking") with
             | Some s => (true, write_delta ThinkingBlock (thinking_delta s) x.2)
             | None => x
             end in
    match nonempty (prop d "signature") with
    | Some s => (true, write_delta ThinkingBlock (signature_delta s) x.2)
    | None => x
    end
  else x.

Definition write_thinking (delta : any) (w : Run) : Run :=
  let '(saw, w) := foldl thinking_step (false, w) (array_of (prop delta "content_blocks")) in
  if saw then w
  else
    let reasoning := plainReasoningText delta in
    if truthy_string reasoning then write_delta ThinkingBlock (thinking_delta reasoning) w else w.

Definition write_text (delta : any) (w : Run) : Run :=
  match nonempty (prop delta "content") with
  | Some s => write_delta TextBlock (text_delta s) w
  | None => w
  end.

(** What an entry of [tool_calls] says: its key, its id and name, and arguments. *)
Record CallDelta := mkCallDelta {
  cd_key : string;
  cd_id : string;
  cd_name : string;
  cd_args : string
}.

Definition call_delta (tc : json) : option CallDelta :=
  if is_object (Some tc) then
    let fn := prop (Some tc) "function" in
    Some (mkCallDelta (toolCallKey number_text (prop (Some tc) "index"))
            (default "" (as_string (prop (Some tc) "id")))
            (default "" (as_string (prop fn "name")))
            (default "" (as_string (prop fn "arguments"))))
  else None.

Definition blocks_are_busy (s : StreamState) : bool :=
  match openedBlock s with Some (_, BT_tool_use) => true | _ => false end ||
  match bufferedTools s with [] => false | _ => true end.

(** A call that is not known yet: its place in the store. *)
Definition new_call (d : CallDelta) (w : Run) : nat * Run :=
  let s := st w in
  let place := length (calls s) in
  let id := if truthy_string (cd_id d) then cd_id d else "toolu_" +:+ randomUUID (drawn s) in
  let w := upd (fun s =>
    set_hasToolUse true
      (set_toolBlocks (obj_put (toolBlocks s) (cd_key d) place)
        (set_drawn (if truthy_string (cd_id d) then drawn s else S (drawn s))
          (set_calls (calls s ++ [mkCall id (cd_name d) None ""]) s)))) w in
  (place,
   if blocks_are_busy (st w)
   then upd (fun s => set_bufferedTools (bufferedTools s ++ [place]) s) w
   else
     let '(index, w) := openBlock (ToolUseBlock id (cd_name d)) w in
     upd (upd_call place (with_index index)) w).

(** The place of the call an entry is about. *)
Definition known_call (d : CallDelta) (s : StreamState) : option nat :=
  match own (toolBlocks s) (cd_key d) with
  | Some place =>
      match calls s !! place with
      | Some call =>
          if truthy_string (cd_id d) && negb (cd_id d =? tc_id call)%string then None else Some place
      | None => None
      end
  | None => None
  end.

Definition write_args (place : nat) (args : string) (w : Run) : Run :=
  if truthy_string args then
    match calls (st w) !! place with
    | Some call =>
        match tc_index call with
        | None => upd (upd_call place (add_args args)) w
        | Some i =>
            match openedBlock (st w) with
            | Some (j, _) =>
                if (i =? j)%nat then push (content_block_delta i (input_json_delta args)) w else w
            | None => w
            end
        end
    | None => w
    end
  else w.

Definition tool_step (w : Run) (d : CallDelta) : Run :=
  let '(place, w) :=
    match known_call d (st w) with
    | Some place => (place, w)
    | None => new_call d w
    end in
  write_args place (cd_args d) w.

Definition call_deltas (delta : any) : list CallDelta :=
  omap call_delta (array_of (prop delta "tool_calls")).

Definition write_tools (delta : any) (w : Run) : Run := foldl tool_step w (call_deltas delta).

Definition track_finish (choice : any) (w : Run) : Run :=
  match nonempty (prop choice "finish_reason") with
  | Some r =>
      let w := upd (fun s => set_stopReason (Some (toAnthropicStopReason (Some r) (hasToolUse s)))
                               (set_finishReason (Some r) s)) w in
      flushBufferedTools (closeOpenBlock w)
  | None => w
  end.

Definition transform_data (parsed : any) (w : Run) : Run :=
  let choice := first_choice parsed in
  let delta := delta_of choice in
  track_finish choice
    (write_tools delta
      (write_text delta
        (write_thinking delta
          (start parsed
            (upd (track_usage (prop parsed "usage")) w))))).

(** What a chunk is: [DONE], an error, an object with data, or nothing. *)
Inductive Chunk :=
| C_done
| C_error (err : any)
| C_data (parsed : any)
| C_nothing.

Definition read_chunk (chunk : string) : Chunk :=
  let trimmed := trim chunk in
  if (trimmed =? DONE)%string then C_done
  else if negb (startsWith trimmed "data: ") then C_nothing
  else
    match JSON_parse (String.substring 6 (String.length trimmed - 6) trimmed) with
    | Some (JObj o) =>
        if truthy (own o "error") then C_error (own o "error") else C_data (Some (JObj o))
    | _ => C_nothing
    end.

(** [transformStreamChunk]: the new state and the events of the chunk, none of
    them for [undefined]. *)
Definition transformStreamChunk (chunk : string) (s : StreamState) : Run :=
  match read_chunk chunk with
  | C_done => finish (mkRun s [])
  | C_nothing => mkRun s []
  | C_error err =>
      if completed s then mkRun s [] else mkRun (set_completed true s) [error_event err]
  | C_data parsed => transform_data parsed (mkRun s [])
  end.

(** ** The loop of [adaptStreamingResponse] *)

Definition loop_step (w : Run) (chunk : string) : Run :=
  let w' := transformStreamChunk chunk (st w) in mkRun (st w') (events w ++ events w').

Definition adaptStream (requested : any) (chunks : list string) : Run :=
  loop_step (foldl loop_step (mkRun (createStreamState requested) []) chunks) DONE.

Definition body_text (w : Run) : string := String.concat "" (map (sse number_text) (events w)).

End Stream.

(** ** [readSSEStream]: the chunks of a stream, from the texts it is read in *)

(** The text before the first empty line, and what follows it. *)
Fixpoint split_break (s : string) : option (string * string) :=
  match s with
  | EmptyString => None
  | String c r =>
      match r with
      | String d r2 =>
          if ((code c =? 10) && (code d =? 10))%N then Some ("", r2)
          else (fun x => (String c x.1, x.2)) <$> split_break r
      | EmptyString => None
      end
  end.

Definition yielded (chunk : string) : list string := if truthy_string (trim chunk) then [chunk] else [].

(** The loop over the complete chunks of the buffer: what it yields, and what is
    left. Every round shortens the buffer. *)
Fixpoint drain (fuel : nat) (buffer : string) : list string * string :=
  match fuel with
  | O => ([], buffer)
  | S n =>
      match split_break buffer with
      | Some (chunk, rest) => let '(l, b) := drain n rest in (yielded chunk ++ l, b)
      | None => ([], buffer)
      end
  end.

Definition drain_all (buffer : string) : list string * string := drain (String.length buffer) buffer.

Fixpoint read_from (buffer : string) (texts : list string) : list string :=
  match texts with
  | [] => yielded buffer
  | t :: r => let '(l, b) := drain_all (buffer +:+ t) in l ++ read_from b r
  end.

Definition readSSEStream (texts : list string) : list string := read_from "" texts.

(** ** A client of the Messages API *)

(** A block of the message: its start and what its deltas add up to. *)
Record Block := mkBlock {
  b_start : ContentBlock;
  b_text : string;
  b_signature : string
}.

Inductive Ending :=
| Open
| Stopping (reason : ANTHROPIC_STOP_REASON) (usage : MessagesUsage)
| Stopped (reason : ANTHROPIC_STOP_REASON) (usage : MessagesUsage)
| Failed (type message : string).

Record Client := mkClient {
  c_started : bool;
  c_blocks : list Block;
  c_open : option Block;
  c_end : Ending
}.

Definition new_client : Client := mkClient false [] None Open.

(** A delta is read by a block of its type only. *)
Definition add_delta (b : Block) (d : Delta) : option Block :=
  match b_start b, d with
  | ThinkingBlock, thinking_delta s => Some (mkBlock (b_start b) (b_text b +:+ s) (b_signature b))
  | ThinkingBlock, signature_delta s => Some (mkBlock (b_start b) (b_text b) (b_signature b +:+ s))
  | TextBlock, text_delta s => Some (mkBlock (b_start b) (b_text b +:+ s) (b_signature b))
  | ToolUseBlock _ _, input_json_delta s => Some (mkBlock (b_start b) (b_text b +:+ s) (b_signature b))
  | _, _ => None
  end.

(** The next event of a stream: blocks are numbered from 0, one is open at a time,
    and the message stops once, with no block open. An error may come at any
    time before the end. *)
Definition client_step (c : Client) (e : Event) : option Client :=
  match c_end c, e with
  | Open, message_start _ _ _ =>
      if c_started c then None else Some (mkClient true [] None Open)
  | Open, content_block_start i b =>
      match c_open c with
      | None => if c_started c && (i =? length (c_blocks c))%nat
                then Some (mkClient true (c_blocks c) (Some (mkBlock b "" "")) Open) else None
      | Some _ => None
      end
  | Open, content_block_delta i d =>
      match c_open c with
      | Some b => if (i =? length (c_blocks c))%nat
                  then (fun b => mkClient (c_started c) (c_blocks c) (Some b) Open) <$> add_delta b d
                  else None
      | None => None
      end
  | Open, content_block_stop i =>
      match c_open c with
      | Some b => if (i =? length (c_blocks c))%nat
                  then Some (mkClient (c_started c) (c_blocks c ++ [b]) None Open) else None
      | None => None
      end
  | Open, message_delta r u =>
      match c_open c with
      | None => if c_started c then Some (mkClient true (c_blocks c) None (Stopping r u)) else None
      | Some _ => None
      end
  | Stopping r u, message_stop => Some (mkClient (c_started c) (c_blocks c) (c_open c) (Stopped r u))
  | Open, error ty m => Some (mkClient (c_started c) (c_blocks c) (c_open c) (Failed ty m))
  | _, _ => None
  end.

Fixpoint client_run (c : Client) (l : list Event) : option Client :=
  match l with
  | [] => Some c
  | e :: r => match client_step c e with Some c => client_run c r | None => None end
  end.

(** What the client holds: the blocks with the open one last. *)
Definition held (c : Client) : list Block :=
  c_blocks c ++ match c_open c with Some b => [b] | None => [] end.

Definition joined (p : Block -> bool) (f : Block -> string) (l : list Block) : string :=
  String.concat "" (map f (List.filter p l)).

Definition is_text (b : Block) : bool := match b_start b with TextBlock => true | _ => false end.
Definition is_thinking (b : Block) : bool := match b_start b with ThinkingBlock => true | _ => false end.

Definition texts (c : Client) : string := joined is_text b_text (held c).
Definition thoughts (c : Client) : string := joined is_thinking b_text (held c).
Definition signatures (c : Client) : string := joined is_thinking b_signature (held c).

Definition tool_of (b : Block) : option (string * string * string) :=
  match b_start b with ToolUseBlock id name => Some (id, name, b_text b) | _ => None end.

Definition tools (c : Client) : list (string * string * string) := omap tool_of (held c).

(** ** Reading in pieces *)

Lemma split_break_shorter s x r :
  split_break s = Some (x, r) -> (String.length r < String.length s)%nat.
Proof.
  revert x. induction s as [|c s IH]; intros x; [done|]. simpl.
  destruct s as [|d s']; [done|].
  destruct ((code c =? 10) && (code d =? 10))%N; [intros [= <- <-]; simpl; lia|].
  destruct (split_break (String d s')) as [[y r']|]; [|done].
  intros [= <- <-]. specialize (IH y eq_refl). simpl in *. lia.
Qed.

Lemma drain_enough n m s :
  (String.length s <= n)%nat -> (String.length s <= m)%nat -> drain n s = drain m s.
Proof.
  revert m s. induction n as [|n IH]; intros m s Hn Hm.
  - destruct s; [|simpl in Hn; lia]. by destruct m.
  - destruct m as [|m]; [destruct s; [done|simpl in Hm; lia]|]. simpl.
    destruct (split_break s) as [[x r]|] eqn:E; [|done].
    apply split_break_shorter in E. by rewrite (IH m) by lia.
Qed.

Lemma drain_all_unfold s :
  drain_all s = match split_break s with
                | Some (x, r) => let '(l, b) := drain_all r in (yielded x ++ l, b)
                | None => ([], s)
                end.
Proof.
  unfold drain_all. destruct (split_break s) as [[x r]|] eqn:E.
  - pose proof (split_break_shorter _ _ _ E). destruct s as [|c s]; [done|].
    cbn [String.length drain] in *. rewrite E. by rewrite (drain_enough _ (String.length r)) by lia.
  - destruct s as [|c s]; [done|]. cbn [String.length drain]. by rewrite E.
Qed.

Lemma split_break_app s t x r :
  split_break s = Some (x, r) -> split_break (s +:+ t) = Some (x, r +:+ t).
Proof.
  revert x. induction s as [|c s IH]; intros x; [done|]. simpl.
  destruct s as [|d s']; [done|]. simpl in *.
  destruct ((code c =? 10) && (code d =? 10))%N; [by intros [= <- <-]|].
  destruct (match s' with EmptyString => None | _ => _ end) as [[y r']|]; [|done].
  intros [= <- <-]. by rewrite (IH y eq_refl).
Qed.

Lemma drain_all_app s t :
  drain_all (s +:+ t) =
  let '(l, b) := drain_all s in let '(l', b') := drain_all (b +:+ t) in (l ++ l', b').
Proof.
  remember (String.length s) as n eqn:Hn. revert s Hn.
  induction n as [n IH] using lt_wf_ind. intros s ->.
  rewrite (drain_all_unfold s). destruct (split_break s) as [[x r]|] eqn:E.
  - rewrite (drain_all_unfold (s +:+ t)), (split_break_app _ _ _ _ E).
    rewrite (IH (String.length r)) by (eauto using split_break_shorter).
    destruct (drain_all r) as [l b]. destruct (drain_all (b +:+ t)) as [l' b'].
    by rewrite app_assoc.
  - by destruct (drain_all (s +:+ t)).
Qed.

Lemma drained_idle s : let '(_, b) := drain_all s in drain_all b = ([], b).
Proof.
  remember (String.length s) as n eqn:Hn. revert s Hn.
  induction n as [n IH] using lt_wf_ind. intros s ->.
  rewrite (drain_all_unfold s). destruct (split_break s) as [[x r]|] eqn:E.
  - specialize (IH _ (split_break_shorter _ _ _ E) r eq_refl).
    by destruct (drain_all r).
  - by rewrite drain_all_unfold, E.
Qed.

Lemma concat_empty_cons (t : string) ts : String.concat "" (t :: ts) = t +:+ String.concat "" ts.
Proof. destruct ts; simpl; [by rewrite sapp_nil_r|done]. Qed.

Lemma read_from_concat b ts :
  drain_all b = ([], b) ->
  read_from b ts = read_from b [String.concat "" ts].
Proof.
  revert b. induction ts as [|t ts IH]; intros b Hb.
  - cbn [read_from String.concat]. by rewrite sapp_nil_r, Hb.
  - rewrite concat_empty_cons. cbn [read_from]. rewrite <- sapp_assoc, (drain_all_app (b +:+ t)).
    pose proof (drained_idle (b +:+ t)) as Hi.
    destruct (drain_all (b +:+ t)) as [l b1]. rewrite (IH b1 Hi). cbn [read_from].
    destruct (drain_all (b1 +:+ String.concat "" ts)) as [l' b']. by rewrite app_assoc.
Qed.

Lemma pieces_joined (pieces : list string) : readSSEStream pieces = readSSEStream [String.concat "" pieces].
Proof. by apply read_from_concat. Qed.

(** The chunks of a stream do not depend on how the stream was cut into the texts it
    is read in: any two cuts of the same text give the same chunks. *)
Theorem reads_do_not_matter (pieces pieces' : list string) :
  String.concat "" pieces = String.concat "" pieces' -> readSSEStream pieces = readSSEStream pieces'.
Proof. intros H. by rewrite (pieces_joined pieces), (pieces_joined pieces'), H. Qed.

(** ** The client follows the stream *)

Lemma client_run_app c l l' :
  client_run c (l ++ l') =
  match client_run c l with Some c => client_run c l' | None => None end.
Proof.
  revert c. induction l as [|e l IH]; intros c; [done|]. simpl. by destruct (client_step c e).
Qed.

Section From.
(** The client before the events of the run. *)
Variable c0 : Client.

(** The client [c] that has read what is written agrees with the state. *)
Record Reads (w : Run) (c : Client) : Prop := {
  reads_run : client_run c0 (events w) = Some c;
  reads_started : c_started c = hasStarted (st w);
  reads_next : contentBlockIndex (st w) = length (held c);
  reads_open : openedBlock (st w) =
    (fun b => (length (c_blocks c), block_type (b_start b))) <$> c_open c;
  reads_fresh : hasStarted (st w) = false -> held c = [];
  reads_end : c_end c = Open
}.

(** A state without the two fields the blocks use. *)
Definition apart_from_blocks (s : StreamState) : StreamState :=
  set_openedBlock None (set_contentBlockIndex 0 s).

Lemma apart_f {A} (f : StreamState -> A) s s' :
  (forall s, f (apart_from_blocks s) = f s) ->
  apart_from_blocks s = apart_from_blocks s' -> f s = f s'.
Proof. intros Hf H. by rewrite <- (Hf s), H, Hf. Qed.

Lemma reads_push e w c c' :
  Reads w c -> client_step c e = Some c' -> client_run c0 (events (push e w)) = Some c'.
Proof. intros [H _ _ _ _ _] Hs. simpl. rewrite client_run_app, H. simpl. by rewrite Hs. Qed.

(** A change of the state the blocks do not use. *)
Lemma reads_upd f w c :
  Reads w c ->
  hasStarted (f (st w)) = hasStarted (st w) ->
  contentBlockIndex (f (st w)) = contentBlockIndex (st w) ->
  openedBlock (f (st w)) = openedBlock (st w) ->
  Reads (upd f w) c.
Proof. intros [] E1 E2 E3. constructor; simpl; rewrite ?E1, ?E2, ?E3; done. Qed.

Lemma close_apart w : apart_from_blocks (st (closeOpenBlock w)) = apart_from_blocks (st w).
Proof. unfold closeOpenBlock. by destruct (openedBlock (st w)) as [[]|]. Qed.

Lemma close_reads w c :
  Reads w c -> exists c', Reads (closeOpenBlock w) c' /\ held c' = held c /\ c_open c' = None.
Proof.
  intros H. pose proof H as [Hr Hs Hn Ho Hf He]. unfold closeOpenBlock.
  destruct c as [started blocks [b|] ending]; simpl in *; subst; rewrite Ho; simpl.
  - exists (mkClient (hasStarted (st w)) (blocks ++ [b]) None Open).
    assert (Hstep : client_step (mkClient (hasStarted (st w)) blocks (Some b) Open)
      (content_block_stop (length blocks)) =
      Some (mkClient (hasStarted (st w)) (blocks ++ [b]) None Open))
      by (cbn; by rewrite Nat.eqb_refl).
    split; [|by unfold held; simpl; rewrite app_nil_r].
    constructor; simpl; try done.
    + by apply (reads_push _ _ _ _ H).
    + by unfold held in Hn |- *; simpl in *; rewrite app_nil_r.
    + intros Hns. unfold held in *. simpl in *. by rewrite app_nil_r, (Hf Hns).
  - by exists (mkClient (hasStarted (st w)) blocks None Open).
Qed.

Lemma openBlock_apart b w : apart_from_blocks (st (openBlock b w).2) = apart_from_blocks (st w).
Proof. rewrite <- (close_apart w). done. Qed.

Lemma open_reads b w c :
  Reads w c -> hasStarted (st w) = true ->
  exists c', Reads (openBlock b w).2 c' /\ held c' = held c ++ [mkBlock b "" ""] /\
    c_open c' = Some (mkBlock b "" "") /\ c_blocks c' = held c /\ (openBlock b w).1 = length (held c).
Proof.
  intros H Hst. destruct (close_reads w c H) as (c1 & H1 & Hh & Hop).
  pose proof H1 as [Hr Hs Hn Ho Hf He].
  assert (hasStarted (st (closeOpenBlock w)) = true) as Hst1
    by (rewrite <- Hst; by apply (apart_f hasStarted), close_apart).
  remember (held c) as l eqn:El. clear El.
  destruct c1 as [started blocks op ending]. simpl in *. subst op ending.
  unfold held in Hh, Hn. simpl in Hh, Hn. rewrite app_nil_r in Hh, Hn. subst blocks.
  exists (mkClient true l (Some (mkBlock b "" "")) Open).
  assert (Hstep : client_step (mkClient started l None Open)
      (content_block_start (length l) b) =
      Some (mkClient true l (Some (mkBlock b "" "")) Open)).
  { cbn. by rewrite Hs, Hst1, Nat.eqb_refl. }
  split; [|split; [done|split; [done|split; [done|by unfold openBlock; simpl]]]].
  constructor; simpl; try done.
  - rewrite client_run_app, Hr, Hn. cbn [client_run]. by rewrite Hstep.
  - rewrite Hn. unfold held. simpl. rewrite length_app. simpl. lia.
  - by rewrite Hn.
  - by rewrite Hst1.
Qed.

(** The last block of the client, when it is open. *)
Definition fits (b : Block) (d : Delta) : bool :=
  match add_delta b d with Some _ => true | None => false end.

Lemma delta_reads w c b b' d :
  Reads w c -> c_open c = Some b -> add_delta b d = Some b' ->
  exists c', Reads (push (content_block_delta (length (c_blocks c)) d) w) c' /\
    c_open c' = Some b' /\ c_blocks c' = c_blocks c.
Proof.
  intros H Hb Hd. pose proof H as [Hr Hs Hn Ho Hf He].
  destruct c as [started blocks op ending]. simpl in *. subst.
  exists (mkClient (hasStarted (st w)) blocks (Some b') Open).
  assert (Hstep : client_step (mkClient (hasStarted (st w)) blocks (Some b) Open)
     (content_block_delta (length blocks) d) = Some (mkClient (hasStarted (st w)) blocks (Some b') Open)).
  { cbn. by rewrite Nat.eqb_refl, Hd. }
  assert (b_start b' = b_start b) as Hbs.
  { unfold add_delta in Hd. destruct (b_start b) eqn:E, d; try done; injection Hd as <-; done. }
  split; [|done]. constructor; simpl; try done.
  - by apply (reads_push _ _ _ _ H).
  - by rewrite Hn; unfold held; simpl; rewrite !length_app.
  - by rewrite Ho; simpl; rewrite Hbs.
  - intros Hns. specialize (Hf Hns). unfold held in Hf. simpl in Hf.
    by destruct blocks.
Qed.

(** What a list of blocks holds, and what a delta adds to it. *)
Record Content := mkContent {
  k_text : string;
  k_thoughts : string;
  k_signatures : string;
  k_tools : list (string * string * string)
}.

Definition content (l : list Block) : Content :=
  mkContent (joined is_text b_text l) (joined is_thinking b_text l) (joined is_thinking b_signature l)
    (omap tool_of l).

Definition gain (d : Delta) (k : Content) : Content :=
  match d with
  | thinking_delta s => mkContent (k_text k) (k_thoughts k +:+ s) (k_signatures k) (k_tools k)
  | signature_delta s => mkContent (k_text k) (k_thoughts k) (k_signatures k +:+ s) (k_tools k)
  | text_delta s => mkContent (k_text k +:+ s) (k_thoughts k) (k_signatures k) (k_tools k)
  | input_json_delta _ => k
  end.

(** The block a delta is written to, when it is not an argument of a tool call. *)
Definition home (d : Delta) : option ContentBlock :=
  match d with
  | thinking_delta _ | signature_delta _ => Some ThinkingBlock
  | text_delta _ => Some TextBlock
  | input_json_delta _ => None
  end.

Lemma joined_snoc p f l b :
  joined p f (l ++ [b]) = joined p f l +:+ (if p b then f b else "").
Proof.
  unfold joined. rewrite List.filter_app, map_app. simpl.
  induction (map f (List.filter p l)) as [|x r IH].
  - destruct (p b); simpl; done.
  - cbn [app]. rewrite !concat_empty_cons, IH. by rewrite sapp_assoc.
Qed.

Lemma content_snoc l b :
  content (l ++ [b]) =
  mkContent (k_text (content l) +:+ (if is_text b then b_text b else ""))
    (k_thoughts (content l) +:+ (if is_thinking b then b_text b else ""))
    (k_signatures (content l) +:+ (if is_thinking b then b_signature b else ""))
    (k_tools (content l) ++ match tool_of b with Some t => [t] | None => [] end).
Proof.
  unfold content. rewrite !joined_snoc, omap_app. simpl. by destruct (tool_of b).
Qed.

Lemma content_open l b :
  is_text b || is_thinking b = true -> b_text b = "" -> b_signature b = "" ->
  content (l ++ [b]) = content l.
Proof.
  intros Hb Ht Hs. rewrite content_snoc, Ht, Hs.
  assert (tool_of b = None) as -> by (unfold tool_of, is_text, is_thinking in *; by destruct (b_start b)).
  destruct (is_text b), (is_thinking b); rewrite ?sapp_nil_r, ?app_nil_r; by destruct (content l).
Qed.

Lemma content_gain l b b' d :
  home d <> None -> add_delta b d = Some b' -> content (l ++ [b']) = gain d (content (l ++ [b])).
Proof.
  intros Hd Ha. rewrite !content_snoc. unfold add_delta in Ha.
  destruct b as [start tx sg]. unfold is_text, is_thinking, tool_of in *. simpl in *.
  destruct start, d; try done; injection Ha as <-; simpl; by rewrite ?sapp_assoc.
Qed.

Lemma write_apart b d w : apart_from_blocks (st (write_delta b d w)) = apart_from_blocks (st w).
Proof.
  unfold write_delta, ensureBlock. pose proof (openBlock_apart b w) as Ho.
  destruct (openedBlock (st w)) as [[i t]|].
  - case_bool_decide; [done|]. by destruct (openBlock b w).
  - by destruct (openBlock b w).
Qed.

Lemma add_delta_start b d b' : add_delta b d = Some b' -> b_start b' = b_start b.
Proof. unfold add_delta. destruct (b_start b) eqn:E, d; try done; by intros [= <-]. Qed.

Definition starts (c : Client) : list ContentBlock := map b_start (held c).

(** A delta of text or of thinking adds what it says, and nothing else. *)
Lemma write_reads b d w c :
  Reads w c -> hasStarted (st w) = true -> home d = Some b ->
  exists c', Reads (write_delta b d w) c' /\ content (held c') = gain d (content (held c)) /\
    (starts c' = starts c \/ starts c' = starts c ++ [b]).
Proof.
  intros H Hst Hd.
  assert (Hopen : exists c',
    Reads (let '(index, w) := openBlock b w in push (content_block_delta index d) w) c' /\
    content (held c') = gain d (content (held c)) /\ (starts c' = starts c \/ starts c' = starts c ++ [b])).
  { destruct (open_reads b w c H Hst) as (c1 & H1 & Hh & Hop & Hbl & Hi).
    destruct (openBlock b w) as [i w']. cbn [fst snd] in H1, Hi.
    assert (exists b', add_delta (mkBlock b "" "") d = Some b') as [b' Hb']
      by (destruct d; try done; injection Hd as <-; by eexists).
    destruct (delta_reads _ _ _ _ _ H1 Hop Hb') as (c2 & H2 & Hop2 & Hbl2).
    rewrite Hbl, <- Hi in H2. exists c2. split; [done|]. split.
    2: { right. unfold starts. unfold held at 1. rewrite Hop2, Hbl2, Hbl, map_app. simpl.
         by rewrite (add_delta_start _ _ _ Hb'). }
    unfold held at 1. rewrite Hop2, Hbl2, Hbl.
    rewrite (content_gain _ (mkBlock b "" "") b' d) by (done || by rewrite Hd).
    rewrite content_open; [done| |done|done]. destruct d; try done; by injection Hd as <-. }
  pose proof (reads_open _ _ H) as Ho. unfold write_delta, ensureBlock. rewrite Ho.
  destruct (c_open c) as [b0|] eqn:Hc; cbn [fmap option_fmap option_map].
  - case_bool_decide as Ht; [|done].
    assert (exists b', add_delta b0 d = Some b') as [b' Hb'].
    { unfold add_delta. destruct (b_start b0), d; try done; try (by eexists);
        injection Hd as <-; done. }
    destruct (delta_reads _ _ _ _ _ H Hc Hb') as (c2 & H2 & Hop2 & Hbl2).
    exists c2. split; [done|]. unfold starts, held. rewrite Hop2, Hbl2, Hc, !map_app. simpl.
    rewrite (add_delta_start _ _ _ Hb'). split; [|by left].
    apply content_gain; [by rewrite Hd|done].
  - done.
Qed.

(** ** Tool calls *)

(** The calls of the provider as it makes them: id, name and all arguments. *)
Record ProviderCalls := mkCalls {
  r_calls : list (string * string * string);
  r_map : obj nat;
  r_drawn : nat
}.

Section Tools.
Variable randomUUID : nat -> string.

Definition provider_known (d : CallDelta) (r : ProviderCalls) : option nat :=
  match own (r_map r) (cd_key d) with
  | Some place =>
      match r_calls r !! place with
      | Some (id, _, _) =>
          if truthy_string (cd_id d) && negb (cd_id d =? id)%string then None else Some place
      | None => None
      end
  | None => None
  end.

Definition provider_new (d : CallDelta) (r : ProviderCalls) : ProviderCalls :=
  let id := if truthy_string (cd_id d) then cd_id d else "toolu_" +:+ randomUUID (r_drawn r) in
  mkCalls (r_calls r ++ [(id, cd_name d, "")]) (obj_put (r_map r) (cd_key d) (length (r_calls r)))
    (if truthy_string (cd_id d) then r_drawn r else S (r_drawn r)).

Definition provider_args (place : nat) (args : string) (r : ProviderCalls) : ProviderCalls :=
  mkCalls (alter (fun t => (t.1, t.2 +:+ args)) place (r_calls r)) (r_map r) (r_drawn r).

Definition provider_step (r : ProviderCalls) (d : CallDelta) : ProviderCalls :=
  match provider_known d r with
  | Some place => provider_args place (cd_args d) r
  | None => provider_args (length (r_calls r)) (cd_args d) (provider_new d r)
  end.

Definition call_key (c : ToolCall) : string * string := (tc_id c, tc_name c).
Definition call_start (c : ToolCall) : ContentBlock := ToolUseBlock (tc_id c) (tc_name c).
Definition is_tool (b : ContentBlock) : bool := match b with ToolUseBlock _ _ => true | _ => false end.

(** The store of the state is that of the provider, but for the arguments. *)
Record Tracks (s : StreamState) (r : ProviderCalls) : Prop := {
  tracks_calls : map call_key (calls s) = map fst (r_calls r);
  tracks_map : toolBlocks s = r_map r;
  tracks_drawn : drawn s = r_drawn r;
  tracks_use : hasToolUse s = negb (bool_decide (calls s = []))
}.

(** The first [k] calls have a block each, in the order of the store. *)
Record Placed (s : StreamState) (ss : list ContentBlock) (k : nat) : Prop := {
  placed_le : (k <= length (calls s))%nat;
  placed_index : forall j call, calls s !! j = Some call ->
    match tc_index call with
    | Some i => (j < k)%nat /\ ss !! i = Some (call_start call)
    | None => (k <= j)%nat
    end;
  placed_blocks : List.filter is_tool ss = map call_start (take k (calls s))
}.

Definition Buffered (s : StreamState) (k : nat) : Prop :=
  bufferedTools s = seq k (length (calls s) - k).

Lemma known_call_provider d s r :
  Tracks s r -> known_call d s = provider_known d r.
Proof.
  intros [Hc Hm _ _]. unfold known_call, provider_known. rewrite Hm.
  destruct (own (r_map r) (cd_key d)) as [p|]; [|done].
  apply (f_equal (.!! p)) in Hc. rewrite !list_lookup_fmap in Hc.
  destruct (calls s !! p) as [[id name ix args]|], (r_calls r !! p) as [[[id' name'] args']|]; try done.
  simpl in *. by injection Hc as -> ->.
Qed.

Lemma Tracks_apart s s' r : apart_from_blocks s = apart_from_blocks s' -> Tracks s r -> Tracks s' r.
Proof.
  intros H [Hc Hm Hd Hu]. constructor.
  - by rewrite <- (apart_f calls s s').
  - by rewrite <- (apart_f toolBlocks s s').
  - by rewrite <- (apart_f drawn s s').
  - by rewrite <- (apart_f hasToolUse s s'), <- (apart_f calls s s').
Qed.

(** Blocks that are not of tools may be added. *)
Lemma Placed_more s s' ss k b :
  apart_from_blocks s = apart_from_blocks s' -> is_tool b = false ->
  Placed s ss k -> Placed s' ss k /\ Placed s' (ss ++ [b]) k.
Proof.
  intros H Hb [Hk Hi Hbl]. rewrite (apart_f calls s s') in Hk, Hi, Hbl by done.
  split; constructor; try done.
  - intros j call Hj. specialize (Hi j call Hj). destruct (tc_index call); [|done].
    destruct Hi as [? Hl]. split; [done|]. by apply lookup_app_l_Some.
  - rewrite List.filter_app, Hbl. simpl. by rewrite Hb, app_nil_r.
Qed.

(** *** Sending the calls that were held back *)

Definition call_block (c : ToolCall) : Block := mkBlock (call_start c) (tc_args c) "".

Lemma flush_one_reads w c i call :
  Reads w c -> hasStarted (st w) = true -> calls (st w) !! i = Some call ->
  exists c', Reads (flush_one w i) c' /\ held c' = held c ++ [call_block call] /\ c_open c' = None /\
    apart_from_blocks (st (flush_one w i)) =
    apart_from_blocks (upd_call i (with_index (length (held c))) (st w)).
Proof.
  intros H Hst Hi. unfold flush_one. rewrite Hi.
  destruct (open_reads (call_start call) w c H Hst) as (c1 & H1 & Hh & Hop & Hbl & Hix).
  pose proof (openBlock_apart (call_start call) w) as Hap. fold (call_start call).
  destruct (openBlock (call_start call) w) as [index w1] eqn:E. cbn [fst snd] in *. subst index.
  set (n := length (held c)) in *.
  assert (H2 : Reads (upd (upd_call i (with_index n)) w1) c1) by (by apply reads_upd).
  assert (exists c2, Reads (if truthy_string (tc_args call)
      then push (content_block_delta n (input_json_delta (tc_args call))) (upd (upd_call i (with_index n)) w1)
      else upd (upd_call i (with_index n)) w1) c2 /\ held c2 = held c ++ [call_block call]) as (c2 & H3 & Hh2).
  { destruct (truthy_string (tc_args call)) eqn:Ht.
    - destruct (delta_reads _ _ _ (call_block call) (input_json_delta (tc_args call)) H2 Hop)
        as (c2 & H3 & Hop2 & Hbl2); [done|]. rewrite Hbl in H3. exists c2. split; [done|].
      unfold held at 1. by rewrite Hop2, Hbl2, Hbl.
    - exists c1. split; [done|]. rewrite Hh. unfold truthy_string in Ht.
      apply negb_false_iff, String.eqb_eq in Ht. unfold call_block. by rewrite Ht. }
  destruct (close_reads _ _ H3) as (c3 & H4 & Hh3 & Hop3). exists c3.
  split; [done|]. split; [by rewrite Hh3|]. split; [done|].
  rewrite close_apart. transitivity (apart_from_blocks (upd_call i (with_index n) (st w1))).
  - by destruct (truthy_string (tc_args call)).
  - pose proof (apart_f calls (st w1) (st w) (fun _ => eq_refl) Hap) as Hcalls.
    unfold upd_call. rewrite Hcalls.
    by apply (f_equal (set_calls (alter (with_index n) i (calls (st w))))) in Hap.
Qed.
End Tools.

(** The next call gets its block. *)
Lemma Placed_next s s' ss k call :
  Placed s ss k -> calls s !! k = Some call ->
  calls s' = alter (with_index (length ss)) k (calls s) ->
  Placed s' (ss ++ [call_start call]) (S k).
Proof.
  intros [Hk Hi Hbl] Hc Hs'. assert (k < length (calls s))%nat as Hlt by (by eapply lookup_lt_Some).
  assert (Htake : map call_start (take (S k) (calls s')) = map call_start (take k (calls s)) ++ [call_start call]).
  { rewrite Hs', (take_S_r _ _ (with_index (length ss) call)).
    - rewrite take_alter_ge by lia. by rewrite fmap_app.
    - by rewrite list_lookup_alter_eq, Hc. }
  constructor.
  - rewrite Hs', length_alter. lia.
  - intros j c Hj. rewrite Hs' in Hj. destruct (decide (j = k)) as [->|Hne].
    + rewrite list_lookup_alter_eq, Hc in Hj. injection Hj as <-. simpl.
      split; [lia|]. by apply list_lookup_middle.
    + rewrite list_lookup_alter_ne in Hj by done. specialize (Hi j c Hj).
      destruct (tc_index c); [|lia]. destruct Hi as [? Hl]. split; [lia|]. by apply lookup_app_l_Some.
  - by rewrite List.filter_app, Hbl, Htake.
Qed.

Lemma Tracks_index s r i n : Tracks s r -> Tracks (upd_call i (with_index n) s) r.
Proof.
  intros [Hc Hm Hd Hu]. constructor; simpl; try done.
  - rewrite <- Hc. apply list_eq. intros j. rewrite !list_lookup_fmap.
    destruct (decide (j = i)) as [->|Hne].
    + rewrite list_lookup_alter_eq. by destruct (calls s !! i).
    + by rewrite list_lookup_alter_ne.
  - rewrite Hu. f_equal. apply bool_decide_ext. rewrite <- !length_zero_iff_nil, length_alter. done.
Qed.

(** The calls sent have the arguments of the provider, those held back hold them. *)
Record Exact (s : StreamState) (c : Client) (r : ProviderCalls) (k : nat) : Prop := {
  exact_sent : k_tools (content (held c)) = take k (r_calls r);
  exact_held : forall j call, calls s !! j = Some call -> (k <= j)%nat ->
    r_calls r !! j = Some (call_key call, tc_args call)
}.

Lemma Exact_next s s' c c' r k call n :
  Exact s c r k -> calls s !! k = Some call ->
  calls s' = alter (with_index n) k (calls s) ->
  held c' = held c ++ [call_block call] -> Exact s' c' r (S k).
Proof.
  intros [Hs Hh] Hc Hs' Hh'. pose proof (Hh k call Hc (le_n k)) as Hr. constructor.
  - rewrite Hh', content_snoc. cbn [k_tools]. by rewrite Hs, (take_S_r _ _ _ Hr).
  - intros j d Hj Hk. rewrite Hs', list_lookup_alter_ne in Hj by lia. apply Hh; [done|lia].
Qed.

(** Everything but the blocks and the indexes of the calls. *)
Definition apart_from_calls (s : StreamState) : StreamState := set_calls [] (apart_from_blocks s).

(** Sending the calls from [k] on, one after another. *)
Lemma flush_loop r m : forall w c k,
  Reads w c -> hasStarted (st w) = true -> Tracks (st w) r -> Placed (st w) (starts c) k ->
  (k + m)%nat = length (calls (st w)) ->
  let w' := foldl flush_one w (seq k m) in
  exists c', Reads w' c' /\ Tracks (st w') r /\ Placed (st w') (starts c') (k + m) /\
    length (calls (st w')) = (k + m)%nat /\
    (exists l, content (held c') = mkContent (k_text (content (held c))) (k_thoughts (content (held c)))
                                     (k_signatures (content (held c))) l) /\
    (c_open c = None -> c_open c' = None) /\
    apart_from_calls (st w') = apart_from_calls (st w) /\
    (Exact (st w) c r k -> Exact (st w') c' r (k + m)).
Proof.
  induction m as [|m IH]; intros w c k H Hst Ht Hp Hlen w'.
  { exists c. rewrite Nat.add_0_r in *. split_and!; try done. by eexists. }
  destruct (lookup_lt_is_Some_2 (calls (st w)) k) as [call Hc]; [lia|].
  destruct (flush_one_reads w c k call H Hst Hc) as (c1 & H1 & Hh & Hop & Hap).
  pose proof (apart_f calls _ _ (fun _ => eq_refl) Hap) as Hcalls. cbn in Hcalls.
  assert (Hlen1 : length (starts c) = length (held c)) by apply length_map.
  assert (Hp1 : Placed (st (flush_one w k)) (starts c1) (S k)).
  { unfold starts. rewrite Hh, map_app. apply (Placed_next (st w)); [done|done|].
    unfold starts in Hlen1. by rewrite Hlen1, Hcalls. }
  assert (Ht1 : Tracks (st (flush_one w k)) r).
  { eapply Tracks_apart; [symmetry; exact Hap|]. by apply Tracks_index. }
  assert (Hst1 : hasStarted (st (flush_one w k)) = true).
  { by rewrite (apart_f hasStarted _ _ (fun _ => eq_refl) Hap). }
  destruct (IH (flush_one w k) c1 (S k)) as (c2 & H2 & Ht2 & Hp2 & Hl2 & [l Hk] & Hop2 & Hap2 & Hex); try done.
  { rewrite Hcalls, length_alter. lia. }
  subst w'. cbn [seq foldl]. rewrite <- (Nat.add_succ_comm k m). exists c2.
  split_and!; try done.
  - exists l. rewrite Hk, Hh, content_snoc. cbn. by rewrite !sapp_nil_r.
  - intros _. by apply Hop2.
  - rewrite Hap2. unfold apart_from_calls. by rewrite Hap.
  - intros He. apply Hex. by apply (Exact_next (st w) _ c _ _ _ call (length (held c))).
Qed.

(** All calls are sent when the buffer is flushed. *)
Lemma flush_reads w c r k :
  Reads w c -> hasStarted (st w) = true -> Tracks (st w) r -> Placed (st w) (starts c) k ->
  Buffered (st w) k ->
  let w' := flushBufferedTools w in
  exists c', Reads w' c' /\ Tracks (st w') r /\
    Placed (st w') (starts c') (length (calls (st w'))) /\ Buffered (st w') (length (calls (st w'))) /\
    (exists l, content (held c') = mkContent (k_text (content (held c))) (k_thoughts (content (held c)))
                                     (k_signatures (content (held c))) l) /\
    (c_open c = None -> c_open c' = None) /\
    set_bufferedTools [] (apart_from_calls (st w')) = set_bufferedTools [] (apart_from_calls (st w)) /\
    (Exact (st w) c r k -> Exact (st w') c' r (length (calls (st w')))).
Proof.
  intros H Hst Ht Hp Hb w'. pose proof (placed_le _ _ _ Hp) as Hle.
  destruct (flush_loop r (length (calls (st w)) - k) w c k) as
    (c1 & H1 & Ht1 & Hp1 & Hl1 & Hk & Hop & Hap & Hex); try done; [lia|].
  subst w'. unfold flushBufferedTools. rewrite Hb in *.
  set (w1 := foldl flush_one w _) in *. cbn [st upd].
  assert (Hcalls : calls (set_bufferedTools [] (st w1)) = calls (st w1)) by done. rewrite Hcalls, Hl1.
  exists c1. split_and!; try done.
  - by apply reads_upd.
  - by destruct Ht1.
  - by destruct Hp1.
  - unfold Buffered. cbn. by rewrite Hl1, Nat.sub_diag.
  - by apply (f_equal (set_bufferedTools [])) in Hap.
  - intros He. by destruct (Hex He).
Qed.

(** ** One entry of [tool_calls] *)

(** The fields that blocks and tool calls leave alone. *)
Definition apart_from_tools (s : StreamState) : StreamState :=
  set_toolBlocks [] (set_bufferedTools [] (set_hasToolUse false (set_drawn 0
    (set_calls [] (apart_from_blocks s))))).

(** What is said, without the tool calls. *)
Definition said_only (k : Content) : string * string * string := (k_text k, k_thoughts k, k_signatures k).

Record Follows (w : Run) (c : Client) (r : ProviderCalls) (k : nat) : Prop := {
  follows_reads : Reads w c;
  follows_started : hasStarted (st w) = true;
  follows_tracks : Tracks (st w) r;
  follows_placed : Placed (st w) (starts c) k;
  follows_buffered : Buffered (st w) k
}.

(** At most one call has a block, and it is open. *)
Definition Live (s : StreamState) (k : nat) : Prop :=
  calls s = [] \/
  k = 1 /\ exists call i, calls s !! 0 = Some call /\ tc_index call = Some i /\
    openedBlock s = Some (i, BT_tool_use).

Lemma Tracks_length s r : Tracks s r -> length (calls s) = length (r_calls r).
Proof. intros [H _ _ _]. apply (f_equal length) in H. by rewrite !length_map in H. Qed.

Lemma Placed_full s ss k : Placed s ss k -> Buffered s k -> bufferedTools s = [] -> k = length (calls s).
Proof.
  intros [Hk _ _] Hb Hn. unfold Buffered in Hb. rewrite Hn in Hb.
  apply (f_equal length) in Hb. rewrite length_seq in Hb. simpl in Hb. lia.
Qed.

(** A tool block is open only when a call has a block. *)
Lemma open_tool_placed w c r k i :
  Follows w c r k -> openedBlock (st w) = Some (i, BT_tool_use) -> (0 < k)%nat.
Proof.
  intros [[_ _ _ Ho _ _] _ _ [_ _ Hbl] _] Hi. rewrite Ho in Hi.
  destruct (c_open c) as [b|] eqn:Hc; [|done]. injection Hi as _ Ht.
  destruct k; [|lia]. exfalso. revert Hbl. unfold starts, held. rewrite Hc, map_app, List.filter_app. simpl.
  destruct (b_start b); try done. by destruct (List.filter is_tool _).
Qed.

Lemma not_busy s : blocks_are_busy s = false -> bufferedTools s = [].
Proof. unfold blocks_are_busy. intros [_ H]%orb_false_iff. by destruct (bufferedTools s). Qed.

Section Entries.
Variable randomUUID : nat -> string.

(** The store with a call made from [d]. *)
Definition add_call (d : CallDelta) (s : StreamState) : StreamState :=
  let id := if truthy_string (cd_id d) then cd_id d else "toolu_" +:+ randomUUID (drawn s) in
  set_hasToolUse true
    (set_toolBlocks (obj_put (toolBlocks s) (cd_key d) (length (calls s)))
      (set_drawn (if truthy_string (cd_id d) then drawn s else S (drawn s))
        (set_calls (calls s ++ [mkCall id (cd_name d) None ""]) s))).

Definition made (d : CallDelta) (s : StreamState) : ToolCall :=
  mkCall (if truthy_string (cd_id d) then cd_id d else "toolu_" +:+ randomUUID (drawn s)) (cd_name d) None "".

Lemma add_call_tracks d s r : Tracks s r -> Tracks (add_call d s) (provider_new randomUUID d r).
Proof.
  intros Ht. pose proof (Tracks_length _ _ Ht) as Hl. destruct Ht as [Hc Hm Hd _].
  constructor; simpl.
  - by rewrite !map_app, Hc, Hd.
  - by rewrite Hm, Hl.
  - by rewrite Hd.
  - symmetry. apply negb_true_iff, bool_decide_eq_false. by destruct (calls s).
Qed.

Lemma add_call_placed d s ss k : Placed s ss k -> Placed (add_call d s) ss k.
Proof.
  intros [Hk Hi Hbl]. constructor; simpl.
  - rewrite length_app. lia.
  - intros j call [Hj|[Hj Hc]]%lookup_app_Some; [by apply Hi|].
    apply list_lookup_singleton_Some in Hc as [? <-]. simpl. lia.
  - by rewrite take_app_le.
Qed.

Lemma add_call_exact d s c r k :
  Tracks s r -> (k <= length (calls s))%nat ->
  Exact s c r k -> Exact (add_call d s) c (provider_new randomUUID d r) k.
Proof.
  intros Ht Hk [Hs Hh]. pose proof (Tracks_length _ _ Ht) as Hl.
  assert (drawn s = r_drawn r) as Hd by by destruct Ht. constructor; simpl.
  - by rewrite take_app_le by lia.
  - intros j call [Hj|[Hj Hc]]%lookup_app_Some Hkj.
    + apply lookup_app_l_Some. by apply Hh.
    + rewrite lookup_app_r by lia. rewrite <- Hl.
      apply list_lookup_singleton_Some in Hc as [Hz <-]. rewrite Hz. simpl. by rewrite Hd.
Qed.

(** While another call is open, a new one is held back. *)
Lemma new_call_held d w c r k :
  Follows w c r k -> blocks_are_busy (st w) = true ->
  let w' := upd (fun s => set_bufferedTools (bufferedTools s ++ [length (calls (st w))]) s) (upd (add_call d) w) in
  Follows w' c (provider_new randomUUID d r) k /\
  (Live (st w) k -> Exact (st w) c r k -> Live (st w') k /\ Exact (st w') c (provider_new randomUUID d r) k).
Proof.
  intros HF Hbz w'. pose proof HF as [H Hst Ht Hp Hb]. pose proof (placed_le _ _ _ Hp) as Hk.
  pose proof (add_call_tracks d _ _ Ht) as Ht1. pose proof (add_call_placed d _ _ _ Hp) as Hp1.
  split.
  - constructor; try done.
    + by apply reads_upd; [apply reads_upd| | |].
    + by destruct Ht1.
    + by destruct Hp1.
    + unfold Buffered in Hb |- *. cbn. rewrite Hb, length_app. simpl.
      rewrite Nat.add_1_r, Nat.sub_succ_l, seq_S by lia. f_equal. f_equal. lia.
  - intros HL He. pose proof (add_call_exact d _ _ _ _ Ht Hk He) as He1. split; [|by destruct He1].
    destruct HL as [Hn|(-> & call & i & Hc & Hi & Ho)].
    + exfalso. unfold blocks_are_busy in Hbz. unfold Buffered in Hb. rewrite Hb, Hn in Hbz. simpl in Hbz.
      rewrite Hn in Hk. simpl in Hk.
      destruct (openedBlock (st w)) as [[i []]|] eqn:Ho; try done.
      pose proof (open_tool_placed _ _ _ _ _ HF Ho). lia.
    + right. split; [done|]. exists call, i. split_and!; try done. cbn. by apply lookup_app_l_Some.
Qed.

(** Otherwise its block is opened, and every call has one. *)
Lemma new_call_opened d w c r k :
  Follows w c r k -> blocks_are_busy (st w) = false ->
  let n := length (calls (st w)) in
  let x := openBlock (call_start (made d (st w))) (upd (add_call d) w) in
  let w' := upd (upd_call n (with_index x.1)) x.2 in
  exists c', Follows w' c' (provider_new randomUUID d r) (S n) /\
    held c' = held c ++ [mkBlock (call_start (made d (st w))) "" ""] /\
    apart_from_tools (st w') = apart_from_tools (st w) /\
    (Live (st w) k -> Exact (st w) c r k ->
     Live (st w') (S n) /\ Exact (st w') c' (provider_new randomUUID d r) (S n)).
Proof.
  intros HF Hbz n x. pose proof HF as [H Hst Ht Hp Hb]. pose proof (placed_le _ _ _ Hp) as Hk.
  pose proof (add_call_tracks d _ _ Ht) as Ht1. pose proof (add_call_placed d _ _ _ Hp) as Hp1.
  assert (H1 : Reads (upd (add_call d) w) c) by (by apply reads_upd).
  pose proof (Placed_full _ _ _ Hp Hb (not_busy _ Hbz)) as Hkn. fold n in Hkn. rewrite Hkn in *.
  destruct (open_reads (call_start (made d (st w))) _ _ H1 Hst) as (c1 & H2 & Hh & Hop & Hbl & Hix).
  pose proof (openBlock_apart (call_start (made d (st w))) (upd (add_call d) w)) as Hap.
  intros w'. subst x w'.
  destruct (openBlock (call_start (made d (st w))) (upd (add_call d) w)) as [index w1]. cbn [fst snd] in *.
  set (w' := upd (upd_call n (with_index index)) w1).
  pose proof (apart_f calls _ _ (fun _ => eq_refl) Hap) as Hcalls.
  assert (Hat : calls (add_call d (st w)) !! n = Some (made d (st w))) by (by apply list_lookup_middle).
  assert (Hlen : length (starts c) = length (held c)) by apply length_map.
  assert (Hc2 : calls (st w') = alter (with_index index) n (calls (add_call d (st w))))
    by (cbn; by rewrite Hcalls).
  exists c1. split_and!; [constructor|done| |].
  - by apply reads_upd.
  - cbn. by rewrite (apart_f hasStarted _ _ (fun _ => eq_refl) Hap).
  - apply Tracks_index. eapply Tracks_apart; [symmetry; exact Hap|]. done.
  - unfold starts. rewrite Hh, map_app. apply (Placed_next (add_call d (st w))); [done|done|].
    unfold starts in Hlen. by rewrite Hlen, <- Hix.
  - unfold Buffered. rewrite Hc2, length_alter.
    cbn. rewrite (apart_f bufferedTools _ _ (fun _ => eq_refl) Hap), length_app. cbn.
    rewrite (not_busy _ Hbz). fold n. by rewrite Nat.add_1_r, Nat.sub_diag.
  - exact (f_equal (fun s => set_toolBlocks [] (set_bufferedTools [] (set_hasToolUse false
      (set_drawn 0 (set_calls [] s))))) Hap).
  - intros HL He. pose proof (add_call_exact d _ _ _ _ Ht Hk He) as He1. split.
    + right. assert (calls (st w) = []) as Hn.
      { destruct HL as [Hn|(_ & call & i & _ & _ & Ho)]; [done|].
        unfold blocks_are_busy in Hbz. by rewrite Ho in Hbz. }
      assert (n = 0) as Hz by (unfold n; by rewrite Hn). split; [by rewrite Hz|].
      exists (with_index index (made d (st w))), index. rewrite Hc2, <- Hz, list_lookup_alter_eq, Hat.
      split_and!; try done. cbn. by rewrite (reads_open _ _ H2), Hop, Hbl, Hix.
    + by apply (Exact_next (add_call d (st w)) _ c _ _ _ (made d (st w)) index).
Qed.

Lemma new_call_follows d w c r k :
  Follows w c r k ->
  exists c' k', Follows (new_call randomUUID d w).2 c' (provider_new randomUUID d r) k' /\
    (new_call randomUUID d w).1 = length (r_calls r) /\
    said_only (content (held c')) = said_only (content (held c)) /\
    apart_from_tools (st (new_call randomUUID d w).2) = apart_from_tools (st w) /\
    (Live (st w) k -> Exact (st w) c r k ->
     Live (st (new_call randomUUID d w).2) k' /\
     Exact (st (new_call randomUUID d w).2) c' (provider_new randomUUID d r) k').
Proof.
  intros HF. pose proof (Tracks_length _ _ (follows_tracks _ _ _ _ HF)) as Hl.
  unfold new_call. fold (add_call d (st w)). change (upd _ w) with (upd (add_call d) w).
  assert (blocks_are_busy (st (upd (add_call d) w)) = blocks_are_busy (st w)) as -> by done.
  destruct (blocks_are_busy (st w)) eqn:Hbz; cbn [fst snd].
  - destruct (new_call_held d w c r k HF Hbz) as [HF1 HE1]. exists c, k. by split_and!.
  - destruct (new_call_opened d w c r k HF Hbz) as (c1 & HF1 & Hh & Ha & HE1).
    change (ToolUseBlock _ (cd_name d)) with (call_start (made d (st w))).
    destruct (openBlock (call_start (made d (st w))) (upd (add_call d) w)) as [index w1]. cbn [fst snd] in *.
    exists c1, (S (length (calls (st w)))). split_and!; try done.
    rewrite Hh, content_snoc. cbn. by rewrite !sapp_nil_r.
Qed.
End Entries.

(** *** Arguments *)

Lemma provider_args_tracks s r place a :
  Tracks s r -> Tracks s (provider_args place a r).
Proof.
  intros [Hc Hm Hd Hu]. constructor; simpl; try done. rewrite Hc.
  apply list_eq. intros j. rewrite !list_lookup_fmap. destruct (decide (j = place)) as [->|Hne].
  - rewrite list_lookup_alter_eq. by destruct (r_calls r !! place).
  - by rewrite list_lookup_alter_ne.
Qed.

Lemma add_args_tracks s r place a : Tracks s r -> Tracks (upd_call place (add_args a) s) r.
Proof.
  intros [Hc Hm Hd Hu]. constructor; simpl; try done.
  - rewrite <- Hc. apply list_eq. intros j. rewrite !list_lookup_fmap.
    destruct (decide (j = place)) as [->|Hne].
    + rewrite list_lookup_alter_eq. by destruct (calls s !! place).
    + by rewrite list_lookup_alter_ne.
  - rewrite Hu. f_equal. apply bool_decide_ext. rewrite <- !length_zero_iff_nil, length_alter. done.
Qed.

Lemma add_args_placed s ss k place a call :
  Placed s ss k -> calls s !! place = Some call -> tc_index call = None ->
  Placed (upd_call place (add_args a) s) ss k.
Proof.
  intros [Hk Hi Hbl] Hc Hn. pose proof (Hi _ _ Hc) as Hp. rewrite Hn in Hp. constructor; cbn.
  - by rewrite length_alter.
  - intros j d Hj. destruct (decide (j = place)) as [->|Hne].
    + rewrite list_lookup_alter_eq, Hc in Hj. injection Hj as <-. cbn. by rewrite Hn.
    + rewrite list_lookup_alter_ne in Hj by done. by apply Hi.
  - by rewrite take_alter_ge.
Qed.

Lemma add_args_exact s c r k place a call :
  Exact s c r k -> calls s !! place = Some call -> (k <= place)%nat ->
  Exact (upd_call place (add_args a) s) c (provider_args place a r) k.
Proof.
  intros [Hs Hh] Hc Hk. constructor; cbn.
  - by rewrite take_alter_ge.
  - intros j d Hj Hkj. destruct (decide (j = place)) as [->|Hne].
    + rewrite list_lookup_alter_eq, Hc in Hj. injection Hj as <-.
      by rewrite list_lookup_alter_eq, (Hh _ _ Hc Hk).
    + rewrite list_lookup_alter_ne in Hj by done.
      rewrite list_lookup_alter_ne by done. by apply Hh.
Qed.

(** Nothing is written, and nothing should have been. *)
Lemma no_args_exact s c r k place : Exact s c r k -> Exact s c (provider_args place "" r) k.
Proof.
  assert (r_calls (provider_args place "" r) = r_calls r) as E.
  { cbn. apply list_eq. intros j. destruct (decide (j = place)) as [->|Hne].
    - rewrite list_lookup_alter_eq. destruct (r_calls r !! place) as [[x t]|]; [|done]. cbn. by rewrite sapp_nil_r.
    - by rewrite list_lookup_alter_ne. }
  intros [Hs Hh]. constructor; rewrite E; done.
Qed.

Lemma add_args_live s k place a : Live s k -> Live (upd_call place (add_args a) s) k.
Proof.
  intros [Hn|(-> & call & i & Hc & Hi & Ho)]; [left; cbn; by rewrite Hn|]. right. split; [done|].
  destruct place as [|place]; cbn.
  - exists (add_args a call), i. by rewrite list_lookup_alter_eq, Hc.
  - exists call, i. by rewrite list_lookup_alter_ne.
Qed.

(** The open block, when it is that of a call. *)
Lemma open_call_block w c r k place call i t :
  Follows w c r k -> calls (st w) !! place = Some call -> tc_index call = Some i ->
  openedBlock (st w) = Some (i, t) ->
  exists b, c_open c = Some b /\ b_start b = call_start call /\ i = length (c_blocks c).
Proof.
  intros [[_ _ _ Ho _ _] _ _ [_ Hp _] _] Hc Hi Hop. specialize (Hp _ _ Hc). rewrite Hi in Hp.
  destruct Hp as [_ Hl]. rewrite Hop in Ho. destruct (c_open c) as [b|] eqn:Eo; [|done].
  injection Ho as -> ->. exists b. split_and!; try done.
  unfold starts, held in Hl. rewrite Eo, map_app in Hl. cbn [map] in Hl.
  rewrite list_lookup_middle in Hl by (by rewrite length_map). by injection Hl.
Qed.

Lemma live_args_exact w c c' r k place call b a i t :
  Follows w c r k -> Live (st w) k -> Exact (st w) c r k ->
  calls (st w) !! place = Some call -> tc_index call = Some i -> openedBlock (st w) = Some (i, t) ->
  c_open c = Some b -> b_start b = call_start call ->
  c_open c' = Some (mkBlock (call_start call) (b_text b +:+ a) (b_signature b)) -> c_blocks c' = c_blocks c ->
  Exact (st w) c' (provider_args place a r) k.
Proof.
  intros HF HL [Hs Hh] Hc Hi Ho Hop Hb Hop' Hbl.
  destruct (follows_placed _ _ _ _ HF) as [_ Hp _]. specialize (Hp _ _ Hc). rewrite Hi in Hp.
  destruct HL as [Hn|(-> & _)]; [by rewrite Hn in Hc|]. destruct Hp as [Hz _].
  assert (place = 0) as -> by lia.
  unfold held in Hs. rewrite Hop, content_snoc in Hs. cbn [k_tools] in Hs.
  assert (exists x, r_calls r !! 0 = Some x) as [x Hx].
  { pose proof (Tracks_length _ _ (follows_tracks _ _ _ _ HF)) as Hlen. apply lookup_lt_is_Some_2.
    rewrite <- Hlen. by eapply lookup_lt_Some. }
  rewrite (take_S_r _ _ _ Hx) in Hs. cbn [take app] in Hs.
  unfold tool_of in Hs. rewrite Hb in Hs. cbn [call_start] in Hs.
  destruct (k_tools (content (c_blocks c))) as [|y l] eqn:El; [|by destruct l].
  injection Hs as <-. constructor.
  - unfold held. rewrite Hop', Hbl, content_snoc. cbn [k_tools]. rewrite El.
    rewrite (take_S_r _ 0 (tc_id call, tc_name call, b_text b +:+ a)); [done|].
    cbn. by rewrite list_lookup_alter_eq, Hx.
  - intros j d Hj Hk. cbn. rewrite list_lookup_alter_ne by lia. by apply Hh.
Qed.

(** What writing the arguments of a call keeps. *)
Definition Wrote (place : nat) (a : string) (w w' : Run) (c : Client) (r : ProviderCalls) (k : nat) : Prop :=
  exists c', Follows w' c' (provider_args place a r) k /\
    said_only (content (held c')) = said_only (content (held c)) /\
    apart_from_tools (st w') = apart_from_tools (st w) /\
    (Live (st w) k -> Exact (st w) c r k ->
     Live (st w') k /\ Exact (st w') c' (provider_args place a r) k).

Lemma args_sent place a w c r k call i t :
  Follows w c r k -> calls (st w) !! place = Some call -> tc_index call = Some i ->
  openedBlock (st w) = Some (i, t) ->
  Wrote place a w (push (content_block_delta i (input_json_delta a)) w) c r k.
Proof.
  intros HF Hc Hi Ho. pose proof HF as [H Hst Ht Hp Hb].
  destruct (open_call_block _ _ _ _ _ _ _ _ HF Hc Hi Ho) as (b & Hop & Hbs & Hix).
  destruct (delta_reads w c b (mkBlock (call_start call) (b_text b +:+ a) (b_signature b))
              (input_json_delta a) H Hop) as (c' & H' & Hop' & Hbl').
  { unfold add_delta. by rewrite Hbs. }
  rewrite <- Hix in H'. exists c'. split_and!; try done.
  - constructor; try done; [by apply provider_args_tracks|].
    unfold starts, held in Hp |- *. rewrite Hop', Hbl'. rewrite Hop in Hp.
    rewrite map_app in Hp |- *. cbn in Hp |- *. by rewrite Hbs in Hp.
  - unfold held. rewrite Hop', Hbl', Hop, !content_snoc. cbn. unfold is_text, is_thinking. cbn.
    by rewrite Hbs.
  - intros HL He. split; [done|]. by apply (live_args_exact w c c' r k place call b a i t).
Qed.

Lemma args_held place a w c r k call :
  Follows w c r k -> calls (st w) !! place = Some call -> tc_index call = None ->
  Wrote place a w (upd (upd_call place (add_args a)) w) c r k.
Proof.
  intros [H Hst Ht Hp Hb] Hc Hi. pose proof (placed_index _ _ _ Hp _ _ Hc) as Hkp. rewrite Hi in Hkp.
  exists c. split_and!; try done.
  - constructor; cbn [st upd]; try done.
    + by apply reads_upd.
    + by apply add_args_tracks, provider_args_tracks.
    + by apply (add_args_placed _ _ _ _ _ call).
    + unfold Buffered in *. cbn. by rewrite length_alter.
  - intros HL He. split; [by apply add_args_live|by apply (add_args_exact _ _ _ _ _ _ call)].
Qed.

(** Arguments of a call whose block is not open are dropped: not of a live call. *)
Lemma args_dropped place a w c r k call i :
  Follows w c r k -> calls (st w) !! place = Some call -> tc_index call = Some i ->
  (forall t, openedBlock (st w) <> Some (i, t)) -> Wrote place a w w c r k.
Proof.
  intros HF Hc Hi Hne. pose proof HF as [H Hst Ht Hp Hb]. exists c. split_and!; try done.
  - constructor; try done. by apply provider_args_tracks.
  - intros [Hn|(-> & call' & i' & Hc' & Hi' & Ho')]; [by rewrite Hn in Hc|]. exfalso.
    pose proof (placed_index _ _ _ Hp _ _ Hc) as Hkp. rewrite Hi in Hkp. destruct Hkp as [Hkp _].
    assert (place = 0) as -> by lia. rewrite Hc in Hc'. injection Hc' as <-. rewrite Hi in Hi'.
    injection Hi' as <-. by apply (Hne BT_tool_use).
Qed.

Lemma write_args_follows place a w c r k :
  Follows w c r k -> (place < length (calls (st w)))%nat -> Wrote place a w (write_args place a w) c r k.
Proof.
  intros HF Hlt. unfold write_args. destruct (truthy_string a) eqn:Ha; cycle 1.
  { unfold truthy_string in Ha. apply negb_false_iff, String.eqb_eq in Ha as ->.
    pose proof HF as [H Hst Ht Hp Hb]. exists c. split_and!; try done.
    - constructor; try done. by apply provider_args_tracks.
    - intros HL He. split; [done|]. by apply no_args_exact. }
  destruct (lookup_lt_is_Some_2 _ _ Hlt) as [call Hc]. rewrite Hc.
  destruct (tc_index call) as [i|] eqn:Hi; [|by apply (args_held _ _ _ _ _ _ call)].
  destruct (openedBlock (st w)) as [[j t]|] eqn:Ho.
  - destruct (i =? j)%nat eqn:Hij.
    + apply Nat.eqb_eq in Hij as <-. by apply (args_sent _ _ _ _ _ _ call i t).
    + apply (args_dropped _ _ _ _ _ _ call i); try done. rewrite Ho. intros t' [= -> _].
      by rewrite Nat.eqb_refl in Hij.
  - apply (args_dropped _ _ _ _ _ _ call i); try done. by rewrite Ho.
Qed.

Lemma provider_new_length uuid d r :
  length (r_calls (provider_new uuid d r)) = S (length (r_calls r)).
Proof. cbn. rewrite length_app. simpl. lia. Qed.

Lemma known_in_range d s place : known_call d s = Some place -> (place < length (calls s))%nat.
Proof.
  unfold known_call. destruct (own (toolBlocks s) (cd_key d)) as [p|]; [|done].
  destruct (calls s !! p) eqn:E; [|done]. destruct (_ && _); [done|]. intros [= <-].
  by eapply lookup_lt_Some.
Qed.

Lemma tool_step_follows uuid d w c r k :
  Follows w c r k ->
  exists c' k', Follows (tool_step uuid w d) c' (provider_step uuid r d) k' /\
    said_only (content (held c')) = said_only (content (held c)) /\
    apart_from_tools (st (tool_step uuid w d)) = apart_from_tools (st w) /\
    (Live (st w) k -> Exact (st w) c r k ->
     Live (st (tool_step uuid w d)) k' /\ Exact (st (tool_step uuid w d)) c' (provider_step uuid r d) k').
Proof.
  intros HF. unfold tool_step, provider_step.
  rewrite <- (known_call_provider d (st w) r) by by destruct HF.
  destruct (known_call d (st w)) as [place|] eqn:Ek.
  - destruct (write_args_follows place (cd_args d) w c r k HF (known_in_range _ _ _ Ek)) as (c' & ?).
    by exists c', k.
  - destruct (new_call_follows uuid d w c r k HF) as (c1 & k1 & HF1 & Hpl & Hs1 & Ha1 & HE1).
    destruct (new_call uuid d w) as [place w1]. cbn [fst snd] in *. subst place.
    destruct (write_args_follows (length (r_calls r)) (cd_args d) w1 c1 _ k1 HF1) as (c2 & HF2 & Hs2 & Ha2 & HE2).
    { rewrite (Tracks_length _ _ (follows_tracks _ _ _ _ HF1)), provider_new_length. lia. }
    exists c2, k1. split_and!; [done|congruence|congruence|]. intros HL He.
    destruct (HE1 HL He) as [HL1 He1]. by apply HE2.
Qed.

(** All the entries of a chunk. *)
Lemma tools_follow uuid l : forall w c r k,
  Follows w c r k ->
  let w' := foldl (tool_step uuid) w l in
  exists c' k', Follows w' c' (foldl (provider_step uuid) r l) k' /\
    said_only (content (held c')) = said_only (content (held c)) /\
    apart_from_tools (st w') = apart_from_tools (st w) /\
    (Live (st w) k -> Exact (st w) c r k ->
     Live (st w') k' /\ Exact (st w') c' (foldl (provider_step uuid) r l) k').
Proof.
  induction l as [|d l IH]; intros w c r k HF w'; [by exists c, k|].
  destruct (tool_step_follows uuid d w c r k HF) as (c1 & k1 & HF1 & Hs1 & Ha1 & HE1).
  destruct (IH _ _ _ _ HF1) as (c2 & k2 & HF2 & Hs2 & Ha2 & HE2).
  exists c2, k2. subst w'. cbn [foldl]. split_and!; [done|congruence|congruence|].
  intros HL He. destruct (HE1 HL He) as [HL1 He1]. by apply HE2.
Qed.

(** ** One chunk of data *)

(** What a chunk says besides tool calls, as the deltas it is sent as. *)
Definition block_deltas (block : json) : list Delta :=
  if is_object (Some block) then
    let d := prop (Some block) "delta" in
    match nonempty (prop d "thinking") with Some s => [thinking_delta s] | None => [] end ++
    match nonempty (prop d "signature") with Some s => [signature_delta s] | None => [] end
  else [].

Definition said_thinking (delta : any) : list Delta :=
  match flat_map block_deltas (array_of (prop delta "content_blocks")) with
  | [] => if truthy_string (plainReasoningText delta) then [thinking_delta (plainReasoningText delta)] else []
  | l => l
  end.

Definition said_text (delta : any) : list Delta :=
  match nonempty (prop delta "content") with Some s => [text_delta s] | None => [] end.

Definition said (parsed : any) : list Delta :=
  let delta := delta_of (first_choice parsed) in said_thinking delta ++ said_text delta.

Definition write_all (b : ContentBlock) (w : Run) (l : list Delta) : Run :=
  foldl (fun w d => write_delta b d w) w l.

Lemma thinking_steps l : forall saw w,
  foldl thinking_step (saw, w) l =
  (saw || negb (bool_decide (flat_map block_deltas l = [])),
   write_all ThinkingBlock w (flat_map block_deltas l)).
Proof.
  induction l as [|b l IH]; intros saw w; [by rewrite orb_false_r|].
  cbn [foldl flat_map]. unfold write_all. rewrite foldl_app.
  assert (thinking_step (saw, w) b =
    (saw || negb (bool_decide (block_deltas b = [])), write_all ThinkingBlock w (block_deltas b))) as ->.
  { unfold thinking_step, block_deltas. destruct (is_object (Some b)); [|by rewrite orb_false_r].
    cbv zeta. destruct (nonempty _), (nonempty _); cbn; by rewrite ?orb_true_r, ?orb_false_r. }
  rewrite IH. f_equal. rewrite <- orb_assoc. f_equal. by destruct (block_deltas b).
Qed.

Lemma write_thinking_said delta w : write_thinking delta w = write_all ThinkingBlock w (said_thinking delta).
Proof.
  unfold write_thinking, said_thinking. rewrite thinking_steps. cbn [orb].
  destruct (flat_map block_deltas (array_of (prop delta "content_blocks"))) as [|d l] eqn:E; [|done].
  cbn. by destruct (truthy_string (plainReasoningText delta)).
Qed.

Lemma write_text_said delta w : write_text delta w = write_all TextBlock w (said_text delta).
Proof. unfold write_text, said_text. by destruct (nonempty (prop delta "content")). Qed.

Lemma said_thinking_home delta : Forall (fun d => home d = Some ThinkingBlock) (said_thinking delta).
Proof.
  unfold said_thinking.
  assert (Forall (fun d => home d = Some ThinkingBlock)
            (flat_map block_deltas (array_of (prop delta "content_blocks")))) as H.
  { induction (array_of _) as [|b l IH]; [constructor|]. cbn. apply Forall_app. split; [|done].
    unfold block_deltas. destruct (is_object _); [|constructor]. cbv zeta.
    destruct (nonempty _), (nonempty _); repeat constructor. }
  destruct (flat_map _ _); [|done]. destruct (truthy_string _); repeat constructor.
Qed.

Lemma said_text_home delta : Forall (fun d => home d = Some TextBlock) (said_text delta).
Proof. unfold said_text. destruct (nonempty _); repeat constructor. Qed.

Definition gains (k : Content) (l : list Delta) : Content := foldl (fun k d => gain d k) k l.

Lemma gains_tools l k : Forall (fun d => home d <> None) l -> k_tools (gains k l) = k_tools k.
Proof.
  revert k. induction l as [|d l IH]; intros k Hl; [done|]. inversion_clear Hl as [|? ? Hd Hl'].
  cbn. change (foldl _ (gain d k) l) with (gains (gain d k) l). rewrite IH by done. by destruct d.
Qed.

(** Text and thinking are added, and the calls are where they were. *)
Lemma said_follow b l : is_tool b = false -> Forall (fun d => home d = Some b) l -> forall w c r k,
  Follows w c r k ->
  exists c', Follows (write_all b w l) c' r k /\
    content (held c') = gains (content (held c)) l /\
    apart_from_blocks (st (write_all b w l)) = apart_from_blocks (st w).
Proof.
  intros Hb Hl. induction Hl as [|d l Hd Hl IH]; intros w c r k HF; [by exists c|].
  pose proof HF as [H Hst Ht Hp Hbf]. destruct (write_reads b d w c H Hst Hd) as (c1 & H1 & Hk1 & Hs1).
  pose proof (write_apart b d w) as Ha.
  destruct (IH (write_delta b d w) c1 r k) as (c2 & HF2 & Hk2 & Ha2).
  { pose proof (Placed_more _ _ _ _ b (eq_sym Ha) Hb Hp) as [Hp1 Hp2]. constructor; try done.
    - by rewrite (apart_f hasStarted _ _ (fun _ => eq_refl) Ha).
    - by apply (Tracks_apart (st w)).
    - by destruct Hs1 as [->| ->].
    - unfold Buffered in *.
      by rewrite (apart_f bufferedTools _ _ (fun _ => eq_refl) Ha), (apart_f calls _ _ (fun _ => eq_refl) Ha). }
  exists c2. split; [done|]. split; [|by rewrite <- Ha]. by rewrite Hk2, Hk1.
Qed.

Lemma Exact_apart s s' c c' r k :
  calls s' = calls s -> k_tools (content (held c')) = k_tools (content (held c)) ->
  Exact s c r k -> Exact s' c' r k.
Proof. intros Hc Hk [H1 H2]. constructor; [by rewrite Hk|by rewrite Hc]. Qed.

(** *** The calls of a chunk and its end *)

Definition finish_of_chunk (parsed : any) : option string := nonempty (prop (first_choice parsed) "finish_reason").

(** A block is closed and the calls held back are sent. *)
Lemma close_flush_follows w c r k :
  Follows w c r k ->
  let w' := flushBufferedTools (closeOpenBlock w) in
  exists c', Follows w' c' r (length (calls (st w'))) /\
    said_only (content (held c')) = said_only (content (held c)) /\
    c_open c' = None /\
    apart_from_tools (st w') = apart_from_tools (st w) /\
    (Exact (st w) c r k -> Exact (st w') c' r (length (calls (st w')))).
Proof.
  intros [H Hst Ht Hp Hb] w'. destruct (close_reads w c H) as (c1 & H1 & Hh1 & Hop1).
  pose proof (close_apart w) as Ha.
  pose proof (apart_f calls _ _ (fun _ => eq_refl) Ha) as Hcalls.
  assert (Hst1 : hasStarted (st (closeOpenBlock w)) = true)
    by by rewrite (apart_f hasStarted _ _ (fun _ => eq_refl) Ha).
  destruct (flush_reads (closeOpenBlock w) c1 r k H1 Hst1) as (c2 & H2 & Ht2 & Hp2 & Hb2 & [l Hk] & Hop2 & Ha2 & Hex).
  - by apply (Tracks_apart (st w)).
  - destruct (Placed_more _ (st (closeOpenBlock w)) _ _ TextBlock (eq_sym Ha) eq_refl Hp) as [Hp1 _].
    unfold starts. by rewrite Hh1.
  - unfold Buffered in *. by rewrite (apart_f bufferedTools _ _ (fun _ => eq_refl) Ha), Hcalls.
  - fold w' in Ht2, Hp2, Hb2, H2, Ha2, Hex, Hop2. exists c2. split_and!.
    + constructor; try done. exact (eq_trans (f_equal hasStarted Ha2) Hst1).
    + by rewrite Hk, Hh1.
    + by apply Hop2.
    + transitivity (apart_from_tools (st (closeOpenBlock w))).
      * exact (f_equal (fun s => set_toolBlocks [] (set_hasToolUse false (set_drawn 0 s))) Ha2).
      * exact (f_equal (fun s => set_toolBlocks [] (set_bufferedTools [] (set_hasToolUse false
          (set_drawn 0 (set_calls [] s))))) Ha).
    + intros He. apply Hex. by apply (Exact_apart (st w) _ c); [|rewrite Hh1|].
Qed.
End From.

(** ** The whole stream *)

Section Streams.
Variable JSON_parse : string -> option json.
Variable number_text : num -> string.
Variable randomUUID : nat -> string.
Variable requested : any.

Definition chunk_calls (parsed : any) : list CallDelta := call_deltas number_text (delta_of (first_choice parsed)).

(** What the provider sent: its calls, what it said, the reason it gave last, and
    the usage it reported. The first text of [randomUUID] is the id of the message. *)
Definition provider_calls (data : list any) : ProviderCalls :=
  foldl (provider_step randomUUID) (mkCalls [] [] 1) (flat_map chunk_calls data).

Definition spoken (data : list any) : list Delta := flat_map said data.

Definition last_finish (data : list any) : option string :=
  foldl (fun o p => match finish_of_chunk p with Some r => Some r | None => o end) None data.

Definition reported (data : list any) : StreamState :=
  foldl (fun s p => track_usage (prop p "usage") s) (createStreamState requested) data.

(** The order in which providers stream: text, then calls, then the reason. *)
Inductive Phase := Before | InCalls | After.

Definition is_nil {A} (l : list A) : bool := match l with [] => true | _ => false end.

Definition allowed (ph : Phase) (parsed : any) : bool :=
  match ph with
  | Before => true
  | InCalls => is_nil (said parsed)
  | After => is_nil (chunk_calls parsed)
  end.

Definition next_phase (ph : Phase) (parsed : any) : Phase :=
  match finish_of_chunk parsed with
  | Some _ => After
  | None => if is_nil (chunk_calls parsed) then ph else InCalls
  end.

Definition phase_after (data : list any) : Phase := foldl next_phase Before data.

Fixpoint orderly_from (ph : Phase) (data : list any) : bool :=
  match data with
  | [] => true
  | p :: r => allowed ph p && orderly_from (next_phase ph p) r
  end.

Definition orderly (data : list any) : bool := orderly_from Before data.

Definition same_usage (s s' : StreamState) : Prop :=
  inputTokens s = inputTokens s' /\ outputTokens s = outputTokens s' /\
  cacheReads s = cacheReads s' /\ cacheCreations s = cacheCreations s'.

Definition Settled (ph : Phase) (s : StreamState) (k : nat) : Prop :=
  match ph with
  | Before => calls s = []
  | InCalls => Live s k
  | After => k = length (calls s)
  end.

(** Where a stream is after some data. *)
Record Heard (data : list any) (s : StreamState) (c : Client) (k : nat) : Prop := {
  heard_follows : Follows c (mkRun s []) c (provider_calls data) k;
  heard_said : said_only (content (held c)) = said_only (gains (content []) (spoken data));
  heard_finish : finishReason s = last_finish data;
  heard_usage : same_usage s (reported data);
  heard_open : completed s = false;
  heard_exact : orderly data = true ->
    Settled (phase_after data) s k /\ Exact s c (provider_calls data) k
}.

Lemma rebase c0 w c r k : Follows c0 w c r k -> Follows c (mkRun (st w) []) c r k.
Proof. intros [[] ? ? ? ?]. by constructor; [constructor| | | |]. Qed.

Lemma track_usage_same u s s' : same_usage s s' -> same_usage (track_usage u s) (track_usage u s').
Proof.
  intros (H1 & H2 & H3 & H4). unfold track_usage. destruct (truthy u); [|done]. cbv zeta.
  destruct (num_truthy (promptTokens _)), (num_truthy (completionTokens _)); done.
Qed.

(** Usage and calls are apart. *)
Definition apart_from_usage (s : StreamState) : StreamState :=
  set_inputTokens nzero (set_outputTokens nzero (set_cacheReads nzero (set_cacheCreations nzero s))).

Lemma track_usage_apart u s : apart_from_usage (track_usage u s) = apart_from_usage s.
Proof.
  unfold track_usage. destruct (truthy u); [|done]. cbv zeta.
  by destruct (num_truthy (promptTokens _)), (num_truthy (completionTokens _)).
Qed.

Lemma usage_f {A} (f : StreamState -> A) u s :
  (forall s, f (apart_from_usage s) = f s) -> f (track_usage u s) = f s.
Proof. intros Hf. by rewrite <- (Hf (track_usage u s)), track_usage_apart, Hf. Qed.

Lemma usage_follows u c0 w c r k : Follows c0 w c r k -> Follows c0 (upd (track_usage u) w) c r k.
Proof.
  intros [H Hst Ht Hp Hb]. constructor.
  - by apply reads_upd; try done; cbn; apply (usage_f _ u).
  - cbn. by rewrite (usage_f hasStarted).
  - destruct Ht as [Hc Hm Hd Hu]. constructor; cbn [st upd].
    + by rewrite (usage_f calls).
    + by rewrite (usage_f toolBlocks).
    + by rewrite (usage_f drawn).
    + by rewrite (usage_f hasToolUse), (usage_f calls).
  - destruct Hp as [Hk Hi Hbl]. constructor; cbn [st upd]; by rewrite (usage_f calls).
  - unfold Buffered in *. cbn [st upd]. by rewrite (usage_f calls), (usage_f bufferedTools).
Qed.

(** The first chunk starts the message. *)
Lemma first_start u parsed :
  let w := start randomUUID parsed (upd (track_usage u) (mkRun (createStreamState requested) [])) in
  Follows new_client w (mkClient true [] None Open) (mkCalls [] [] 1) 0 /\
  same_usage (st w) (track_usage u (createStreamState requested)) /\
  finishReason (st w) = None /\ completed (st w) = false /\ calls (st w) = [].
Proof.
  intros w. subst w. unfold start. cbn [st upd]. rewrite (usage_f hasStarted) by done. cbn.
  split; [constructor|].
  - constructor; cbn; try done.
    + by rewrite (usage_f contentBlockIndex).
    + by rewrite (usage_f openedBlock).
  - done.
  - constructor; cbn; by rewrite ?(usage_f calls), ?(usage_f toolBlocks), ?(usage_f drawn), ?(usage_f hasToolUse).
  - constructor; cbn; rewrite ?(usage_f calls) by done; done.
  - unfold Buffered. cbn. by rewrite (usage_f calls), (usage_f bufferedTools).
  - cbn. split; [done|]. by rewrite (usage_f finishReason), (usage_f completed), (usage_f calls).
Qed.

(** *** A chunk *)

Lemma gains_said l k k' : said_only k = said_only k' -> said_only (gains k l) = said_only (gains k' l).
Proof.
  revert k k'. induction l as [|d l IH]; intros k k' H; [done|]. cbn. apply IH.
  destruct k, k'. unfold said_only in *. cbn in *. injection H as -> -> ->. by destruct d.
Qed.

Lemma gains_app k l l' : gains k (l ++ l') = gains (gains k l) l'.
Proof. unfold gains. by rewrite foldl_app. Qed.

Definition frame (s : StreamState) : num * num * num * num * bool * option string :=
  (inputTokens s, outputTokens s, cacheReads s, cacheCreations s, completed s, finishReason s).

(** What is said in a chunk is written before its calls. *)
Lemma said_chunk c0 p w c r k :
  Follows c0 w c r k ->
  let delta := delta_of (first_choice p) in
  let w' := write_text delta (write_thinking delta w) in
  exists c', Follows c0 w' c' r k /\
    content (held c') = gains (content (held c)) (said p) /\
    frame (st w') = frame (st w) /\
    (forall ph, allowed ph p = true -> Settled ph (st w) k -> Exact (st w) c r k ->
       Settled ph (st w') k /\ Exact (st w') c' r k).
Proof.
  intros HF delta w'. subst w'. rewrite write_text_said, write_thinking_said.
  destruct (said_follow c0 ThinkingBlock _ eq_refl (said_thinking_home delta) _ _ _ _ HF) as (c1 & HF1 & Hk1 & Ha1).
  destruct (said_follow c0 TextBlock _ eq_refl (said_text_home delta) _ _ _ _ HF1) as (c2 & HF2 & Hk2 & Ha2).
  rewrite Ha1 in Ha2. set (w2 := write_all TextBlock _ _) in *.
  assert (Hsaid : content (held c2) = gains (content (held c)) (said p))
    by (unfold said; fold delta; by rewrite gains_app, Hk2, Hk1).
  exists c2. split_and!; try done.
  - by apply (apart_f frame).
  - intros ph Hal HS He. pose proof (apart_f calls _ _ (fun _ => eq_refl) Ha2) as Hcalls. split.
    + destruct ph; cbn in *; [by rewrite Hcalls| |by rewrite Hcalls].
      unfold said in Hal. fold delta in Hal. subst w2.
      destruct (said_thinking delta); [|done]. by destruct (said_text delta).
    + apply (Exact_apart (st w) _ c); [done| |done]. rewrite Hsaid. apply gains_tools.
      unfold said. apply Forall_app. split.
      * eapply Forall_impl; [apply said_thinking_home|]. by intros d ->.
      * eapply Forall_impl; [apply said_text_home|]. by intros d ->.
Qed.

(** The calls of a chunk, and its end. *)
Lemma calls_chunk c0 p w c r k :
  Follows c0 w c r k ->
  let w' := write_tools number_text randomUUID (delta_of (first_choice p)) w in
  exists c' k', Follows c0 w' c' (foldl (provider_step randomUUID) r (chunk_calls p)) k' /\
    said_only (content (held c')) = said_only (content (held c)) /\
    frame (st w') = frame (st w) /\
    (forall ph, allowed ph p = true -> Settled ph (st w) k -> Exact (st w) c r k ->
       Settled (if is_nil (chunk_calls p) then ph else InCalls) (st w') k' /\
       Exact (st w') c' (foldl (provider_step randomUUID) r (chunk_calls p)) k').
Proof.
  intros HF w'. subst w'. unfold write_tools. fold (chunk_calls p).
  destruct (chunk_calls p) as [|d l] eqn:E; [by exists c, k|]. rewrite <- E in *.
  destruct (tools_follow c0 randomUUID (chunk_calls p) w c r k HF) as (c1 & k1 & HF1 & Hs1 & Ha1 & HE1).
  exists c1, k1. split_and!; try done.
  - exact (f_equal frame Ha1).
  - intros ph Hal HS He.
    assert (is_nil (chunk_calls p) = false) as Hn by (by rewrite E). rewrite Hn.
    apply HE1; [|done]. destruct ph; [by left|done|]. cbn in Hal. by rewrite Hn in Hal.
Qed.

Lemma finish_chunk c0 p w c r k :
  Follows c0 w c r k ->
  let w' := track_finish (first_choice p) w in
  exists c' k', Follows c0 w' c' r k' /\
    said_only (content (held c')) = said_only (content (held c)) /\
    same_usage (st w') (st w) /\ completed (st w') = completed (st w) /\
    finishReason (st w') = match finish_of_chunk p with Some x => Some x | None => finishReason (st w) end /\
    (forall ph, Settled ph (st w) k -> Exact (st w) c r k ->
       Settled (match finish_of_chunk p with Some _ => After | None => ph end) (st w') k' /\
       Exact (st w') c' r k').
Proof.
  intros HF w'. subst w'. unfold track_finish. fold (finish_of_chunk p).
  destruct (finish_of_chunk p) as [x|] eqn:E; [|by exists c, k].
  set (w1 := upd _ w).
  assert (HF1 : Follows c0 w1 c r k).
  { destruct HF as [H Hst [] [] Hb]. constructor; try done. by apply reads_upd. }
  destruct (close_flush_follows c0 w1 c r k HF1) as (c2 & HF2 & Hs2 & _ & Ha2 & He2).
  pose proof (f_equal frame Ha2) as Hf. injection Hf as Hi Ho Hcr Hcc Hco Hfi.
  exists c2, (length (calls (st (flushBufferedTools (closeOpenBlock w1))))).
  split_and!; try done. intros ph _ He. split; [done|]. apply He2. by destruct He.
Qed.

Lemma orderly_snoc l p : forall ph,
  orderly_from ph (l ++ [p]) = true ->
  orderly_from ph l = true /\ allowed (foldl next_phase ph l) p = true.
Proof.
  induction l as [|q l IH]; intros ph; cbn; [rewrite andb_true_r; by intros ->|].
  intros [-> Hr]%andb_true_iff. cbn. by apply IH.
Qed.

(** What a chunk does to a stream that has started. *)
Lemma chunk_heard c0 data p w c k :
  Follows c0 w c (provider_calls data) k ->
  said_only (content (held c)) = said_only (gains (content []) (spoken data)) ->
  finishReason (st w) = last_finish data -> same_usage (st w) (reported (data ++ [p])) ->
  completed (st w) = false ->
  (orderly data = true -> Settled (phase_after data) (st w) k /\ Exact (st w) c (provider_calls data) k) ->
  let delta := delta_of (first_choice p) in
  let w' := track_finish (first_choice p)
              (write_tools number_text randomUUID delta (write_text delta (write_thinking delta w))) in
  exists c' k', Follows c0 w' c' (provider_calls (data ++ [p])) k' /\ Heard (data ++ [p]) (st w') c' k'.
Proof.
  intros HF Hsd Hfi Hus Hco Hex delta w'.
  destruct (said_chunk c0 p _ _ _ _ HF) as (c1 & HF1 & Hk1 & Hf1 & He1).
  destruct (calls_chunk c0 p _ _ _ _ HF1) as (c2 & k2 & HF2 & Hs2 & Hf2 & He2).
  destruct (finish_chunk c0 p _ _ _ _ HF2) as (c3 & k3 & HF3 & Hs3 & Hu3 & Hc3 & Hr3 & He3).
  fold delta in Hf1, He1, HF2, Hf2, He2, HF3, Hu3, Hc3, Hr3, He3. fold w' in HF3, Hu3, Hc3, Hr3, He3.
  rewrite Hf1 in Hf2. injection Hf2 as Hi Ho Hcr Hcc Hco2 Hfi2.
  assert (Hcalls : provider_calls (data ++ [p]) =
    foldl (provider_step randomUUID) (provider_calls data) (chunk_calls p)).
  { unfold provider_calls. rewrite flat_map_app, foldl_app. cbn. by rewrite app_nil_r. }
  exists c3, k3. rewrite Hcalls. split; [done|]. constructor.
  - rewrite Hcalls. by apply (rebase c0).
  - rewrite Hs3, Hs2, Hk1. unfold spoken. rewrite flat_map_app, gains_app. cbn. rewrite app_nil_r.
    by apply gains_said.
  - rewrite Hr3. unfold last_finish. rewrite foldl_app. cbn. fold (last_finish data). by rewrite Hfi2, Hfi.
  - unfold same_usage in *. clearbody w'. intuition congruence.
  - by rewrite Hc3, Hco2.
  - intros Hor.
    destruct (orderly_snoc _ _ _ Hor) as [Hod Hal].
    destruct (Hex Hod) as [HS HE]. destruct (He1 _ Hal HS HE) as [HS1 HE1].
    destruct (He2 _ Hal HS1 HE1) as [HS2 HE2]. destruct (He3 _ HS2 HE2) as [HS3 HE3].
    rewrite Hcalls. split; [|done]. unfold phase_after. rewrite foldl_app. cbn. exact HS3.
Qed.

(** Where a stream is: nothing has come, or some data has. *)
Definition Where (data : list any) (s : StreamState) (c : Client) : Prop :=
  data = [] /\ s = createStreamState requested /\ c = new_client \/
  data <> [] /\ exists k, Heard data s c k.

Lemma data_heard data s c p :
  Where data s c ->
  let w := transform_data number_text randomUUID p (mkRun s []) in
  exists c' k, client_run c (events w) = Some c' /\ Heard (data ++ [p]) (st w) c' k.
Proof.
  intros HW w. subst w. unfold transform_data. cbv zeta.
  destruct HW as [(-> & -> & ->)|[_ [k [HF Hsd Hfi Hus Hco Hex]]]].
  - destruct (first_start (prop p "usage") p) as (HF & Hu & Hf & Hco & Hn).
    destruct (chunk_heard new_client [] p _ _ 0 HF) as (c1 & k1 & [H1 _ _ _ _] & HH); try done.
    { intros _. split; [done|]. constructor; [done|]. by rewrite Hn. }
    exists c1, k1. split; [by destruct H1|done].
  - assert (start randomUUID p (upd (track_usage (prop p "usage")) (mkRun s [])) =
            upd (track_usage (prop p "usage")) (mkRun s [])) as ->.
    { unfold start. cbn [st upd]. rewrite (usage_f hasStarted) by done.
      by rewrite (follows_started _ _ _ _ _ HF : hasStarted s = true). }
    set (u := prop p "usage").
    destruct (chunk_heard c data p (upd (track_usage u) (mkRun s [])) c k) as (c1 & k1 & [H1 _ _ _ _] & HH).
    + by apply usage_follows.
    + done.
    + cbn. by rewrite (usage_f finishReason).
    + unfold reported. rewrite foldl_app. by apply track_usage_same.
    + cbn. by rewrite (usage_f completed).
    + intros Ho. destruct (Hex Ho) as [HS [He1 He2]]. split.
      * unfold Settled, Live in *. cbn [st upd]. by rewrite (usage_f calls), (usage_f openedBlock).
      * constructor; [done|]. cbn [st upd]. by rewrite (usage_f calls).
    + exists c1, k1. split; [by destruct H1|done].
Qed.

(** *** The end of a stream *)

Lemma tools_of_starts l :
  List.filter is_tool (map b_start l) = map (fun t => ToolUseBlock t.1.1 t.1.2) (omap tool_of l).
Proof.
  induction l as [|b l IH]; [done|]. cbn. unfold tool_of at 1. rewrite IH.
  by destruct (b_start b).
Qed.

Lemma placed_tools s c :
  Placed s (starts c) (length (calls s)) -> map fst (tools c) = map call_key (calls s).
Proof.
  intros [_ _ H]. rewrite take_ge in H by done. unfold starts in H. rewrite tools_of_starts in H.
  fold (tools c) in H. revert H. generalize (tools c) as l, (calls s) as l'.
  induction l as [|[[a b] t] l IH]; intros [|x l']; try done. cbn. intros [= -> -> H].
  by rewrite (IH _ H).
Qed.

Definition final_reason (data : list any) : ANTHROPIC_STOP_REASON :=
  toAnthropicStopReason (last_finish data) (negb (is_nil (r_calls (provider_calls data)))).

Lemma finish_heard data s c k :
  Heard data s c k ->
  let w := finish (mkRun s []) in
  exists c', client_run c (events w) = Some c' /\ completed (st w) = true /\
    said_only (content (held c')) = said_only (content (held c)) /\
    c_open c' = None /\ c_end c' = Stopped (final_reason data) (final_usage (reported data)) /\
    map fst (tools c') = map fst (r_calls (provider_calls data)) /\
    (orderly data = true -> tools c' = r_calls (provider_calls data)).
Proof.
  intros [HF Hsd Hfi Hus Hco Hex] w. subst w. unfold finish. cbn [st].
  rewrite (follows_started _ _ _ _ _ HF : hasStarted s = true), Hco. cbn [negb orb].
  set (w0 := upd (set_completed true) (mkRun s [])).
  assert (HF0 : Follows c w0 c (provider_calls data) k).
  { destruct HF as [H Hst [] [] Hb]. constructor; try done. by apply reads_upd. }
  destruct (close_flush_follows c w0 c _ k HF0) as (c1 & HF1 & Hs1 & Hop & Ha & He).
  set (w1 := flushBufferedTools (closeOpenBlock w0)) in *. clearbody w1. cbn [st upd].
  pose proof (f_equal frame Ha) as Hf. injection Hf as Hi Ho Hcr Hcc Hc1 Hfi1.
  destruct HF1 as [H1 Hst1 Ht1 Hp1 Hb1].
  assert (Hreason : toAnthropicStopReason (finishReason (st w1)) (hasToolUse (st w1)) = final_reason data).
  { unfold final_reason. rewrite Hfi1, (tracks_use _ _ Ht1), Hfi. f_equal. f_equal.
    pose proof (Tracks_length _ _ Ht1) as Hl. by destruct (calls (st w1)), (r_calls (provider_calls data)). }
  assert (Husage : final_usage (set_stopReason (Some (final_reason data)) (st w1)) =
                   final_usage (reported data)).
  { unfold final_usage. cbn. rewrite Hi, Ho, Hcr, Hcc. by destruct Hus as (<- & <- & <- & <-). }
  cbv zeta. rewrite Hreason. cbn [st upd]. rewrite Husage.
  exists (mkClient true (c_blocks c1) None (Stopped (final_reason data) (final_usage (reported data)))).
  destruct H1 as [Hrun Hsta _ _ _ Hend]. split_and!; try done.
  - cbn [events push upd]. rewrite !client_run_app, Hrun. cbn [client_run].
    unfold client_step at 1. by rewrite Hend, Hop, Hsta, Hst1.
  - unfold held in Hs1 |- *. by rewrite Hop in Hs1.
  - rewrite <- (tracks_calls _ _ Ht1), <- (placed_tools _ _ Hp1). unfold tools, held. cbn. by rewrite Hop.
  - intros Hor. destruct (Hex Hor) as [_ HE].
    assert (Exact (st w0) c (provider_calls data) k) as HE0 by by destruct HE.
    destruct (He HE0) as [Hsent _]. rewrite (Tracks_length _ _ Ht1), take_ge in Hsent by done.
    rewrite <- Hsent. unfold tools, held. cbn. by rewrite Hop.
Qed.

(** *** Streams that end once *)

Fixpoint stream_data (l : list Chunk) : list any :=
  match l with
  | C_data p :: r => p :: stream_data r
  | C_nothing :: r => stream_data r
  | _ => []
  end.

(** The error a stream ends with. *)
Fixpoint stream_error (l : list Chunk) : option any :=
  match l with
  | C_data _ :: r | C_nothing :: r => stream_error r
  | C_error err :: _ => Some err
  | _ => None
  end.

Definition quiet (c : Chunk) : bool := match c with C_done | C_nothing => true | _ => false end.

(** Nothing comes after the end. *)
Fixpoint ends_once (l : list Chunk) : bool :=
  match l with
  | [] => true
  | C_done :: r | C_error _ :: r => forallb quiet r
  | _ :: r => ends_once r
  end.

#[local] Abbreviation transform := (transformStreamChunk JSON_parse number_text randomUUID).
#[local] Abbreviation read := (read_chunk JSON_parse).
#[local] Abbreviation loop := (foldl (loop_step JSON_parse number_text randomUUID)).

Lemma loop_events chunks w :
  loop w chunks = mkRun (st (loop (mkRun (st w) []) chunks)) (events w ++ events (loop (mkRun (st w) []) chunks)).
Proof.
  revert w. induction chunks as [|x l IH]; intros w; cbn.
  - rewrite app_nil_r. by destruct w.
  - rewrite IH. cbn. rewrite (IH (loop_step _ _ _ (mkRun (st w) []) x)). cbn. by rewrite app_assoc.
Qed.

(** Nothing is written any more. *)
Lemma quiet_loop s chunks :
  completed s = true \/ hasStarted s = false ->
  forallb quiet (map read chunks) = true -> loop (mkRun s []) chunks = mkRun s [].
Proof.
  intros Hs. induction chunks as [|x l IH]; cbn; [done|]. intros [Hx Hl]%andb_true_iff.
  assert (loop_step JSON_parse number_text randomUUID (mkRun s []) x = mkRun s []) as ->; [|by apply IH].
  unfold loop_step, transformStreamChunk. cbn [st].
  destruct (read x); try done. unfold finish. cbn [st].
  destruct Hs as [->| ->]; by rewrite ?orb_true_r.
Qed.

Definition text_of_delta (d : Delta) : option string := match d with text_delta s => Some s | _ => None end.
Definition thought_of_delta (d : Delta) : option string := match d with thinking_delta s => Some s | _ => None end.
Definition signature_of_delta (d : Delta) : option string :=
  match d with signature_delta s => Some s | _ => None end.

(** All the pieces of one kind, in order. *)
Definition pieces (f : Delta -> option string) (data : list any) : string :=
  String.concat "" (omap f (spoken data)).

Definition holds_said (data : list any) (c : Client) : Prop :=
  texts c = pieces text_of_delta data /\ thoughts c = pieces thought_of_delta data /\
  signatures c = pieces signature_of_delta data.

Lemma gains_pieces l k :
  said_only (gains k l) =
  (k_text k +:+ String.concat "" (omap text_of_delta l),
   k_thoughts k +:+ String.concat "" (omap thought_of_delta l),
   k_signatures k +:+ String.concat "" (omap signature_of_delta l)).
Proof.
  revert k. induction l as [|d l IH]; intros k.
  - cbn. by rewrite !sapp_nil_r.
  - cbn [gains foldl]. change (foldl _ (gain d k) l) with (gains (gain d k) l). rewrite IH.
    destruct d; cbn [gain omap list_omap text_of_delta thought_of_delta signature_of_delta k_text k_thoughts k_signatures];
      rewrite ?concat_empty_cons, ?sapp_assoc; done.
Qed.

Lemma holds_said_iff data c :
  said_only (content (held c)) = said_only (gains (content []) (spoken data)) -> holds_said data c.
Proof. rewrite gains_pieces. cbn. by intros [= H1 H2 H3]. Qed.

(** What a client has at the end. *)
Definition Ended (data : list any) (err : option any) (c : Client) : Prop :=
  holds_said data c /\
  match err with
  | Some e => exists ty m, error_event e = error ty m /\ c_end c = Failed ty m
  | None =>
      data = [] /\ c = new_client \/
      data <> [] /\ c_open c = None /\ c_end c = Stopped (final_reason data) (final_usage (reported data)) /\
      map fst (tools c) = map fst (r_calls (provider_calls data)) /\
      (orderly data = true -> tools c = r_calls (provider_calls data))
  end.

Lemma read_DONE : read DONE = C_done.
Proof. reflexivity. Qed.

Lemma Where_said data s c : Where data s c -> holds_said data c.
Proof. intros [(-> & _ & ->)|[_ [k HH]]]; [done|]. apply holds_said_iff, HH. Qed.

(** [DONE], and whatever comes after it. *)
Lemma done_ends data s c chunks :
  Where data s c -> forallb quiet (map read chunks) = true ->
  exists c', client_run c (events (loop (mkRun s []) (DONE :: chunks))) = Some c' /\ Ended data None c'.
Proof.
  intros HW Hq. cbn [foldl].
  assert (loop_step JSON_parse number_text randomUUID (mkRun s []) DONE = finish (mkRun s [])) as ->.
  { unfold loop_step, transformStreamChunk. rewrite read_DONE. cbn [st events].
    rewrite app_nil_l. by destruct (finish (mkRun s [])). }
  rewrite loop_events. destruct HW as [(-> & -> & ->)|[Hne [k HH]]].
  - cbn. rewrite quiet_loop by (by right || done). exists new_client. split; [done|]. split; [done|by left].
  - destruct (finish_heard data s c k HH) as (c1 & Hr & Hco & Hs & Hop & Hend & Ht & Ho).
    cbn [events]. rewrite quiet_loop by (by left || done). cbn [events]. rewrite app_nil_r.
    exists c1. split; [done|]. split; [|right; by split_and!].
    apply holds_said_iff. rewrite Hs. apply HH.
Qed.

Lemma quiet_done l : forallb quiet (map read l) = true -> forallb quiet (map read (l ++ [DONE])) = true.
Proof. intros H. rewrite map_app, forallb_app, H. cbn. by rewrite read_DONE. Qed.

(** An error, and whatever comes after it. *)
Lemma error_ends data s c chunks x err :
  Where data s c -> read x = C_error err -> forallb quiet (map read chunks) = true ->
  exists c', client_run c (events (loop (mkRun s []) (x :: chunks))) = Some c' /\ Ended data (Some err) c'.
Proof.
  intros HW Hx Hq. pose proof (Where_said _ _ _ HW) as Hs. cbn [foldl].
  assert (completed s = false /\ c_end c = Open) as [Hco Hend].
  { destruct HW as [(_ & -> & ->)|[_ [k HH]]]; [done|]. split; [apply HH|].
    destruct (heard_follows _ _ _ _ HH) as [[] _ _ _ _]. done. }
  assert (loop_step JSON_parse number_text randomUUID (mkRun s []) x =
          mkRun (set_completed true s) [error_event err]) as ->.
  { unfold loop_step, transformStreamChunk. cbn [st]. by rewrite Hx, Hco. }
  rewrite loop_events. cbn [st events]. rewrite quiet_loop by (by left || done).
  exists (mkClient (c_started c) (c_blocks c) (c_open c)
    (Failed (default "api_error" (nonempty (prop err "type")))
       (default "Stream error" (nonempty (match err with Some (JStr s) => Some (JStr s) | _ => prop err "message" end))))).
  split; [cbn; unfold client_step, error_event; by rewrite Hend|].
  split; [done|]. by eexists _, _.
Qed.

(** The adapter's loop over a stream that ends once, from any point. *)
Lemma stream_ends chunks : forall data s c,
  Where data s c -> ends_once (map read chunks) = true ->
  exists c', client_run c (events (loop (mkRun s []) (chunks ++ [DONE]))) = Some c' /\
    Ended (data ++ stream_data (map read chunks)) (stream_error (map read chunks)) c'.
Proof.
  induction chunks as [|x l IH]; intros data s c HW He.
  - cbn [app map stream_data stream_error]. rewrite app_nil_r. by apply done_ends.
  - cbn [map] in *. destruct (read x) as [|err|p|] eqn:Ex; cbn [stream_data stream_error ends_once] in *.
    + rewrite app_nil_r. destruct (done_ends data s c (l ++ [DONE]) HW (quiet_done _ He)) as (c1 & Hr & Hc1).
      exists c1. split; [|done]. rewrite <- Hr. cbn [app foldl].
      assert (loop_step JSON_parse number_text randomUUID (mkRun s []) x =
              loop_step JSON_parse number_text randomUUID (mkRun s []) DONE) as ->; [|done].
      unfold loop_step, transformStreamChunk. by rewrite Ex, read_DONE.
    + rewrite app_nil_r. by apply (error_ends _ _ _ _ _ _ HW Ex), quiet_done.
    + destruct (data_heard data s c p HW) as (c1 & k & Hr & HH).
      assert (HW1 : Where (data ++ [p]) (st (transform_data number_text randomUUID p (mkRun s []))) c1)
        by (right; split; [by destruct data|by exists k]).
      destruct (IH _ _ _ HW1 He) as (c2 & Hr2 & He2).
      exists c2. rewrite <- app_assoc in He2. split; [|done]. cbn [app foldl].
      assert (loop_step JSON_parse number_text randomUUID (mkRun s []) x =
              transform_data number_text randomUUID p (mkRun s [])) as ->.
      { unfold loop_step, transformStreamChunk. rewrite Ex. cbn [st events].
        rewrite app_nil_l. by destruct (transform_data _ _ _ _). }
      rewrite loop_events. cbn [events]. by rewrite client_run_app, Hr.
    + destruct (IH _ _ _ HW He) as (c2 & Hr2 & He2). exists c2. split; [|done].
      rewrite <- Hr2. cbn [app foldl].
      assert (loop_step JSON_parse number_text randomUUID (mkRun s []) x = mkRun s []) as ->; [|done].
      unfold loop_step, transformStreamChunk. by rewrite Ex.
Qed.

#[local] Abbreviation written chunks := (events (adaptStream JSON_parse number_text randomUUID requested chunks)).

Lemma stream_read chunks :
  ends_once (map read chunks) = true ->
  exists c, client_run new_client (written chunks) = Some c /\
    Ended (stream_data (map read chunks)) (stream_error (map read chunks)) c.
Proof.
  intros He. destruct (stream_ends chunks [] (createStreamState requested) new_client) as (c & Hc & HE);
    [by left|done|].
  exists c. split; [|done]. rewrite <- Hc. unfold adaptStream. by rewrite foldl_app.
Qed.


(** When the provider streams in the usual order (text, then tool calls, then
    the reason), every tool call arrives with all of its arguments, also when the
    arguments of parallel calls come interleaved. *)
Theorem orderly_calls_arrive (chunks : list string) :
  ends_once (map read chunks) = true -> stream_error (map read chunks) = None ->
  orderly (stream_data (map read chunks)) = true ->
  exists c, client_run new_client (written chunks) = Some c /\
    tools c = r_calls (provider_calls (stream_data (map read chunks))).
Proof.
  intros He Hn Ho. destruct (stream_read chunks He) as (c & Hc & _ & HE). exists c. split; [done|].
  rewrite Hn in HE. destruct HE as [[Hd ->]|(_ & _ & _ & _ & HE)]; [by rewrite Hd|by apply HE].
Qed.

End Streams.

(** ** The text of the events *)

Definition no_lf (s : string) : bool := sforallb (fun c => negb (code c =? 10)%N) s.

Section Framing.
Variable number_text : num -> string.
Hypothesis number_no_lf : forall n, no_lf (number_text n) = true.

Lemma no_lf_app a b : no_lf (a +:+ b) = no_lf a && no_lf b.
Proof. apply sforallb_append. Qed.

Lemma json_quote_no_lf s : no_lf (json_quote s) = true.
Proof.
  unfold json_quote. rewrite !no_lf_app.
  assert (no_lf (json_chars s) = true) as ->; [|done].
  induction s as [|c s IH]; [done|]. cbn [json_chars]. rewrite no_lf_app, IH, andb_true_r.
  destruct c as [[] [] [] [] [] [] [] []]; reflexivity.
Qed.

Lemma concat_no_lf l : Forall (fun s => no_lf s = true) l -> no_lf (String.concat "," l) = true.
Proof.
  induction 1 as [|x l Hx Hl IH]; [done|]. cbn [String.concat]. destruct l as [|y r]; [done|].
  by rewrite !no_lf_app, Hx, IH.
Qed.

(** [JSON.stringify] writes no line break. *)
Lemma stringify_no_lf v : no_lf (CacheKey.JSON_stringify number_text v) = true.
Proof.
  induction v as [|b|n|s|l IH|o IH] using json_rect'; cbn [CacheKey.JSON_stringify].
  - done.
  - by destruct b.
  - unfold json_number. by destruct (is_finite_num n).
  - apply json_quote_no_lf.
  - rewrite !no_lf_app, concat_no_lf; [done|]. by apply Forall_fmap.
  - rewrite !no_lf_app, concat_no_lf; [done|]. rewrite map_map. apply Forall_fmap.
    eapply Forall_impl; [exact IH|]. intros [k x] Hx. cbn [snd] in Hx.
    change (no_lf (json_quote k +:+ ":" +:+ CacheKey.JSON_stringify number_text x) = true).
    by rewrite !no_lf_app, json_quote_no_lf, Hx.
Qed.

(** The text of an event without the empty line that ends it. *)
Definition frame_text (e : Event) : string :=
  "event: " +:+ (event_data e).1 +:+ lf +:+ "data: " +:+
  CacheKey.JSON_stringify number_text (JObj (("type", JStr (event_data e).1) :: (event_data e).2)).

Lemma sse_frame e : sse number_text e = frame_text e +:+ lf +:+ lf.
Proof. unfold sse, frame_text. destruct (event_data e). by rewrite !sapp_assoc. Qed.

Definition starts_lf (s : string) : bool := match s with String d _ => (code d =? 10)%N | EmptyString => false end.

Lemma split_break_skip c s :
  ((code c =? 10)%N && starts_lf s) = false ->
  split_break (String c s) = (fun x => (String c x.1, x.2)) <$> split_break s.
Proof. destruct s as [|d t]; [done|]. cbn [starts_lf]. intros H. cbn [split_break]. by rewrite H. Qed.

(** The text before the empty line, when no line break but one is in it. *)
Lemma split_break_line s r :
  no_lf s = true -> s <> "" -> split_break (s +:+ lf +:+ lf +:+ r) = Some (s, r).
Proof.
  unfold no_lf. induction s as [|c s IH]; [done|]. cbn [sforallb]. intros [Hc Hs]%andb_true_iff _.
  apply negb_true_iff in Hc. rewrite sapp_cons, split_break_skip by by rewrite Hc.
  destruct s as [|d s]; [done|]. by rewrite IH.
Qed.

Lemma split_break_two a b r :
  no_lf a = true -> no_lf b = true -> b <> "" ->
  split_break ((a +:+ lf +:+ b) +:+ lf +:+ lf +:+ r) = Some (a +:+ lf +:+ b, r).
Proof.
  intros Ha Hb Hne. unfold no_lf in *. induction a as [|c a IH].
  - rewrite sapp_nil. unfold lf at 1 4. rewrite !sapp_cons, sapp_nil, split_break_skip.
    + by rewrite split_break_line.
    + destruct b as [|d b]; [done|]. cbn [sforallb] in Hb. apply andb_true_iff in Hb as [Hd _].
      apply negb_true_iff in Hd. rewrite sapp_cons. cbn [starts_lf]. by rewrite Hd, andb_false_r.
  - cbn [sforallb] in Ha. apply andb_true_iff in Ha as [Hc Ha]. apply negb_true_iff in Hc.
    rewrite !sapp_cons, split_break_skip by by rewrite Hc. by rewrite IH.
Qed.

Lemma split_frame e r : split_break (sse number_text e +:+ r) = Some (frame_text e, r).
Proof.
  set (a := "event: " +:+ (event_data e).1).
  set (v := CacheKey.JSON_stringify number_text (JObj (("type", JStr (event_data e).1) :: (event_data e).2))).
  assert (frame_text e = a +:+ lf +:+ ("data: " +:+ v)) as Hf by (unfold frame_text, a; by rewrite !sapp_assoc).
  rewrite sse_frame, Hf, (sapp_assoc (a +:+ _)), (sapp_assoc lf lf r).
  rewrite (split_break_two a ("data: " +:+ v) r); [done| | |done].
  - subst a. rewrite no_lf_app. by destruct e.
  - rewrite no_lf_app. unfold v. by rewrite stringify_no_lf.
Qed.

Lemma frame_yielded e : yielded (frame_text e) = [frame_text e].
Proof.
  unfold yielded. destruct (trim (frame_text e)) eqn:E; [|done]. exfalso.
  assert (sforallb is_space (trim (frame_text e)) = true) as H by by rewrite E.
  unfold trim in H, E. rewrite sforallb_srev in H.
  assert (Hdw : forall s, sforallb is_space (drop_while is_space s) = true -> sforallb is_space s = true).
  { induction s as [|c s IHs]; [done|]. cbn. destruct (is_space c) eqn:Ec; [done|]. cbn. by rewrite Ec. }
  apply Hdw in H. rewrite sforallb_srev in H. apply Hdw in H. done.
Qed.

(** No text of a provider can break the framing: what is written is read back
    as one chunk for each event, whatever the events hold. *)
Theorem events_are_framed (l : list Event) :
  readSSEStream [String.concat "" (map (sse number_text) l)] = map frame_text l.
Proof.
  unfold readSSEStream. cbn [read_from]. rewrite sapp_nil.
  induction l as [|e l IH]; [done|]. cbn [map]. rewrite concat_empty_cons, drain_all_unfold, split_frame.
  destruct (drain_all (String.concat "" (map (sse number_text) l))) as [x b].
  by rewrite frame_yielded, <- app_assoc, IH.
Qed.
End Framing.

(** ** Streams *)

Module Samples.

Definition choice (delta : list (string * json)) (finish : json) : json :=
  JObj [("model", JStr "m"); ("choices", JArr [JObj [("delta", JObj delta); ("finish_reason", finish)]])].

Definition call (index : Z) (id : string) (args : string) : json :=
  JObj [("index", JNum (num_of_Z index)); ("id", JStr id);
        ("function", JObj [("name", JStr "get"); ("arguments", JStr args)])].

(** The chunks [data: a] and so on. *)
Definition sample_parse (s : string) : option json :=
  own [("text", choice [("content", JStr "Hi")] JNull);
       ("think", choice [("reasoning_content", JStr "hm")] JNull);
       ("call0", choice [("tool_calls", JArr [call 0 "c0" "{"])] JNull);
       ("both", choice [("tool_calls", JArr [call 0 "" "1"; call 1 "c1" "["])] JNull);
       ("more0", choice [("tool_calls", JArr [call 0 "" "}"])] JNull);
       ("more1", choice [("tool_calls", JArr [call 1 "" "]"])] JNull);
       ("stop", choice [] (JStr "stop"));
       ("usage", JObj [("choices", JArr []); ("usage", JObj [("prompt_tokens", JNum (num_of_Z 7));
                        ("completion_tokens", JNum (num_of_Z 5))])]);
       ("failed", JObj [("error", JObj [("message", JStr "busy")])])] s.

Definition sample_number (n : num) : string := if neqb n (num_of_Z 1) then "1" else "0".
Definition sample_uuid (n : nat) : string := String (ascii_of_nat (97 + n)) "".

Definition data_chunk (s : string) : string := "data: " +:+ s.

Definition written (l : list string) : list Event :=
  events (adaptStream sample_parse sample_number sample_uuid (Some (JStr "asked")) (map data_chunk l)).

Definition outcome (l : list string) : option (string * string * list (string * string * string) * Ending) :=
  (fun c => (texts c, thoughts c, tools c, c_end c)) <$> client_run new_client (written l).

Definition usage_7_5 : MessagesUsage := mkMessagesUsage (num_of_Z 7) (num_of_Z 5) None.
Definition no_usage : MessagesUsage := mkMessagesUsage nzero nzero None.

Example parallel_calls :
  outcome ["think"; "text"; "call0"; "both"; "more1"; "more0"; "stop"; "usage"] =
  Some ("Hi", "hm", [("c0", "get", "{1}"); ("c1", "get", "[]")], Stopped SR_tool_use usage_7_5).
Proof. vm_compute. reflexivity. Qed.

Example failed_stream :
  outcome ["text"; "failed"] = Some ("Hi", "", [], Failed "api_error" "busy").
Proof. vm_compute. reflexivity. Qed.

(** Text in the middle of a call closes its block: the rest of its arguments is
    dropped, and the client is given half an object. *)
Example text_cuts_arguments :
  outcome ["call0"; "text"; "more0"; "stop"] =
  Some ("Hi", "", [("c0", "get", "{")], Stopped SR_tool_use no_usage).
Proof. vm_compute. reflexivity. Qed.

(** Data after [DONE] is still written, after the [message_stop]. *)
Example data_after_the_end :
  outcome ["text"; "[DONE]"; "text"] = None /\
  List.last (written ["text"; "[DONE]"; "text"]) message_stop = content_block_delta 1 (text_delta "Hi").
Proof. vm_compute. split; reflexivity. Qed.

(** And after an error, which should have been the last event. *)
Example data_after_an_error : outcome ["failed"; "text"] = None.
Proof. vm_compute. reflexivity. Qed.

Definition usual : list string :=
  map data_chunk ["text"; "call0"; "both"; "more1"; "more0"; "stop"; "usage"].

Definition end_of (l : list string) : option Ending :=
  c_end <$> client_run new_client
    (events (adaptStream sample_parse sample_number sample_uuid (Some (JStr "asked")) l)).



Lemma orderly_calls_arrive_witness :
  exists c, client_run new_client
    (events (adaptStream sample_parse sample_number sample_uuid (Some (JStr "asked")) usual)) = Some c /\
  tools c = [("c0", "get", "{1}"); ("c1", "get", "[]")].
Proof.
  destruct (orderly_calls_arrive sample_parse sample_number sample_uuid (Some (JStr "asked")) usual) as (c & Hc & Ht).
  - vm_compute. reflexivity.
  - vm_compute. reflexivity.
  - vm_compute. reflexivity.
  - exists c. split; [done|]. rewrite Ht. vm_compute. reflexivity.
Defined.

Lemma events_are_framed_witness :
  readSSEStream [String.concat "" (map (sse sample_number) [content_block_stop 0; message_stop])] =
  map (frame_text sample_number) [content_block_stop 0; message_stop].
Proof.
  apply (events_are_framed sample_number). intros n. unfold sample_number. by destruct (neqb n (num_of_Z 1)).
Defined.

End Samples.
