(* ===== verification/OidcConfig.v ===== *)
(** * The configuration of OIDC authentication

    Models the rest of [src/gateway/src/middlewares/psOidc/config.ts]: the
    environment read as issuer, audiences, algorithms, clock skew, groups claim,
    policy, telemetry mode and provider keys ([parsePolicy] is in [AccessPolicy]).
    [new URL], [JSON.parse] and [getValueOrFileContents] (which may read a file) are
    parameters.  The memo of [oidcSettings] holds one value per environment, so the
    settings are a function of the variables.

    [accepted_config_is_sound]: what every accepted configuration guarantees, and
    that an enabled gateway never falls back to no authentication. *)

From Stdlib Require Import ZArith Lia ZifyBool Ascii Floats.SpecFloat.
From stdpp Require Import base strings option list.
From S2P Require Import Prelude JsValue JsText GroupPolicy AccessPolicy UrlGuard.

#[local] Open Scope string_scope.
#[local] Open Scope list_scope.
#[local] Arguments num_of_Z : simpl never.

Definition ASYMMETRIC_ALGORITHMS : list string :=
  ["RS256"; "RS384"; "RS512"; "PS256"; "PS384"; "PS512"; "ES256"; "ES384"; "ES512"; "EdDSA"].

Definition DEFAULT_ALGORITHMS : list string :=
  List.filter (fun a => negb (a =? "EdDSA")%string) ASYMMETRIC_ALGORITHMS.

Definition DEFAULT_CLOCK_SKEW_SECONDS : num := num_of_Z 60.
Definition MAX_CLOCK_SKEW_SECONDS : num := num_of_Z 300.
Definition DEFAULT_GROUPS_CLAIM : string := "groups".

Inductive TelemetrySubjectMode := mode_hash | mode_raw | mode_off.

Record OidcConfig := mkOidcConfig {
  oc_issuer : string;
  oc_audiences : list string;
  oc_jwksUrl : option string;
  oc_algorithms : list string;
  oc_clockSkewSeconds : num;
  oc_groupsClaim : string;
  oc_policy : option OidcPolicy;
  oc_telemetrySubject : TelemetrySubjectMode;
  oc_subjectSalt : option string;
  oc_providerKeys : obj string
}.

Inductive ConfigError :=
| required_missing (name : string)
| not_a_url (name : string)
| not_https (name : string)
| algorithm_not_allowed (alg : string)
| bad_clock_skew
| bad_groups_claim
| not_json (name : string)
| bad_policy (e : AccessError)
| bad_telemetry_mode
| keys_not_object
| bad_provider_key (provider : string).

Inductive OidcSettings :=
| Disabled
| Enabled (config : OidcConfig)
| Misconfigured (error : ConfigError).

Definition isTrue (v : option string) : bool :=
  mem_string (toLowerCase (trim (default "" v))) ["true"; "1"; "yes"].

(** [list(v)] *)
Definition comma_list (v : option string) : list string :=
  List.filter truthy_string (map trim (split_on ","%char (default "" v))).

Definition claim_char (c : ascii) : bool := is_alnum c || is_one_of "_:/-" c.

Definition is_claim_path (s : string) : bool :=
  forallb (fun part => truthy_string part && sforallb claim_char part) (split_dot s).

Definition telemetry_mode (s : string) : option TelemetrySubjectMode :=
  if (s =? "hash")%string then Some mode_hash
  else if (s =? "raw")%string then Some mode_raw
  else if (s =? "off")%string then Some mode_off
  else None.

(** The trimmed variable, when there is something in it. *)
Definition given (v : option string) : option string :=
  match v with
  | Some s => if truthy_string (trim s) then Some (trim s) else None
  | None => None
  end.

Section OidcConfig.
Variable parse_url : string -> option URL.
Variable JSON_parse : string -> option json.
Variable getValueOrFileContents : string -> string.

(** [raw.NAME] *)
Variable raw : string -> option string.

Definition httpsUrl (name v : string) : result ConfigError string :=
  match parse_url v with
  | None => Throw (not_a_url name)
  | Some u => if (protocol u =? "https:")%string then Ok v else Throw (not_https name)
  end.

Definition valueOrFile (v : option string) : option string :=
  trim ∘ getValueOrFileContents <$> given v.

Definition parseJson (name s : string) : result ConfigError json :=
  match JSON_parse s with Some v => Ok v | None => Throw (not_json name) end.

Definition parse_algorithms : result ConfigError (list string) :=
  let algorithms := match given (raw "PS_OIDC_ALGORITHMS") with
                    | Some _ => comma_list (raw "PS_OIDC_ALGORITHMS")
                    | None => DEFAULT_ALGORITHMS
                    end in
  match List.find (fun a => negb (mem_string a ASYMMETRIC_ALGORITHMS)) algorithms with
  | Some a => Throw (algorithm_not_allowed a)
  | None => Ok algorithms
  end.

Definition parse_clock_skew : result ConfigError num :=
  match given (raw "PS_OIDC_CLOCK_SKEW_SECONDS") with
  | Some _ =>
      let n := to_number (default "" (raw "PS_OIDC_CLOCK_SKEW_SECONDS")) in
      if negb (is_integer_num n) || nltb n nzero || nltb MAX_CLOCK_SKEW_SECONDS n
      then Throw bad_clock_skew else Ok n
  | None => Ok DEFAULT_CLOCK_SKEW_SECONDS
  end.

Definition parse_policy : result ConfigError (option OidcPolicy) :=
  match valueOrFile (raw "PS_OIDC_POLICY") with
  | Some s =>
      if truthy_string s then
        let* v := parseJson "PS_OIDC_POLICY" s in
        match parsePolicy (Some v) with
        | Ok p => Ok (Some p)
        | Throw e => Throw (bad_policy e)
        end
      else Ok None
  | None => Ok None
  end.

Fixpoint provider_keys (entries : obj json) (acc : obj string) : result ConfigError (obj string) :=
  match entries with
  | [] => Ok acc
  | (provider, JStr key) :: rest =>
      if truthy_string (trim key) then
        provider_keys rest (obj_set acc (toLowerCase provider) (trim key))
      else Throw (bad_provider_key provider)
  | (provider, _) :: _ => Throw (bad_provider_key provider)
  end.

Definition parse_provider_keys : result ConfigError (obj string) :=
  match valueOrFile (raw "PS_OIDC_PROVIDER_KEYS") with
  | Some s =>
      if truthy_string s then
        let* v := parseJson "PS_OIDC_PROVIDER_KEYS" s in
        let* o := required (object_of (Some v)) keys_not_object in
        provider_keys o []
      else Ok []
  | None => Ok []
  end.

Definition parse_config : result ConfigError OidcConfig :=
  let* issuer := required (given (raw "PS_OIDC_ISSUER")) (required_missing "PS_OIDC_ISSUER") in
  let* _ := httpsUrl "PS_OIDC_ISSUER" issuer in
  let audiences := comma_list (raw "PS_OIDC_AUDIENCE") in
  check negb (bool_decide (audiences = [])) else required_missing "PS_OIDC_AUDIENCE" in
  let jwksUrl := given (raw "PS_OIDC_JWKS_URL") in
  let* _ := match jwksUrl with Some u => httpsUrl "PS_OIDC_JWKS_URL" u | None => Ok "" end in
  let* algorithms := parse_algorithms in
  let* clockSkewSeconds := parse_clock_skew in
  let groupsClaim := default DEFAULT_GROUPS_CLAIM (given (raw "PS_OIDC_GROUPS_CLAIM")) in
  check is_claim_path groupsClaim else bad_groups_claim in
  let* policy := parse_policy in
  let* mode := required
      (telemetry_mode (default "hash" (toLowerCase <$> given (raw "PS_OIDC_TELEMETRY_SUBJECT"))))
      bad_telemetry_mode in
  let* keys := parse_provider_keys in
  Ok (mkOidcConfig issuer audiences jwksUrl algorithms clockSkewSeconds groupsClaim policy mode
        (given (raw "PS_OIDC_SUBJECT_SALT")) keys).

Definition parseOidcConfig : OidcSettings :=
  if negb (isTrue (raw "PS_OIDC_ENABLED")) then Disabled
  else match parse_config with Ok c => Enabled c | Throw e => Misconfigured e end.
End OidcConfig.

(** ** What an accepted configuration guarantees *)

Section Guarantees.
Variable parse_url : string -> option URL.

Definition is_https (s : string) : Prop := exists u, parse_url s = Some u /\ protocol u = "https:".

Record ValidConfig (c : OidcConfig) : Prop := {
  vc_issuer : is_https (oc_issuer c);
  vc_audiences : oc_audiences c <> [] /\ Forall (fun a => a <> "") (oc_audiences c);
  vc_jwks : forall u, oc_jwksUrl c = Some u -> is_https u;
  vc_algorithms : oc_algorithms c ⊆ ASYMMETRIC_ALGORITHMS;
  vc_skew : is_integer_num (oc_clockSkewSeconds c) = true /\
    nltb (oc_clockSkewSeconds c) nzero = false /\
    nltb MAX_CLOCK_SKEW_SECONDS (oc_clockSkewSeconds c) = false;
  vc_claim : is_claim_path (oc_groupsClaim c) = true;
  vc_policy : forall p, oc_policy c = Some p -> ValidPolicy p;
  vc_keys : Forall (fun p => toLowerCase p.1 = p.1 /\ p.2 <> "") (oc_providerKeys c) /\
    NoDup (obj_keys (oc_providerKeys c))
}.

Variable JSON_parse : string -> option json.
Variable getValueOrFileContents : string -> string.
Variable raw : string -> option string.

Lemma httpsUrl_ok name v s : httpsUrl parse_url name v = Ok s -> is_https v.
Proof.
  unfold httpsUrl. destruct (parse_url v) as [u|] eqn:E; [|done].
  destruct (protocol u =? "https:")%string eqn:Hp; [|done]. intros _. exists u. split; [done|].
  by apply String.eqb_eq.
Qed.

Lemma comma_list_nonempty v : Forall (fun a => a <> "") (comma_list v).
Proof.
  apply Forall_forall. intros a [_ Ha]%filter_elem. intros ->. done.
Qed.

Lemma parse_algorithms_ok l : parse_algorithms raw = Ok l -> l ⊆ ASYMMETRIC_ALGORITHMS.
Proof.
  unfold parse_algorithms. set (algorithms := match given _ with Some _ => _ | None => _ end).
  destruct (List.find _ algorithms) eqn:E; [done|]. intros [= <-] a Ha.
  apply list_elem_of_In in Ha. pose proof (List.find_none _ _ E a Ha) as H.
  apply negb_false_iff, mem_string_In in H. done.
Qed.

Lemma parse_clock_skew_ok n :
  parse_clock_skew raw = Ok n ->
  is_integer_num n = true /\ nltb n nzero = false /\ nltb MAX_CLOCK_SKEW_SECONDS n = false.
Proof.
  unfold parse_clock_skew. destruct (given _).
  - destruct (_ || _) eqn:E; [done|]. intros [= <-]. by split_bool.
  - intros [= <-]. vm_compute. done.
Qed.

Lemma accepted_policy_ok o p :
  parse_policy JSON_parse getValueOrFileContents raw = Ok o -> o = Some p -> ValidPolicy p.
Proof.
  unfold parse_policy. destruct (valueOrFile _ _) as [s|]; [|by intros [= <-]].
  destruct (truthy_string s); [|by intros [= <-]].
  destruct (parseJson _ _ s) as [v|]; [|done]. destruct (parsePolicy (Some v)) as [q|] eqn:E; [|done].
  intros [= <-] [= ->]. by apply (parsePolicy_valid _ _ E).
Qed.

Definition keys_ok (keys : obj string) : Prop :=
  Forall (fun p => toLowerCase p.1 = p.1 /\ p.2 <> "") keys /\ NoDup (obj_keys keys).

Lemma obj_put_keys_ok keys k v :
  keys_ok keys -> toLowerCase k = k -> v <> "" -> keys_ok (obj_put keys k v).
Proof.
  intros [HF Hnd] Hk Hv. split; [|by apply NoDup_obj_put].
  clear Hnd. induction keys as [|[k' v'] keys IH]; cbn.
  - by repeat constructor.
  - inversion_clear HF as [|? ? Hp HF']. destruct (_ =? _)%string eqn:E.
    + apply String.eqb_eq in E. subst. by constructor.
    + constructor; [done|]. by apply IH.
Qed.

Lemma provider_keys_ok entries : forall acc keys,
  keys_ok acc -> provider_keys entries acc = Ok keys -> keys_ok keys.
Proof.
  induction entries as [|[k [| | |v| |]] entries IH]; intros acc keys Hacc; cbn; try done.
  - by intros [= <-].
  - destruct (truthy_string (trim v)) eqn:Hv; [|done].
    apply IH. unfold obj_set. destruct (_ =? "__proto__")%string; [done|].
    apply obj_put_keys_ok; [done|apply toLowerCase_idem|]. intros E. by rewrite E in Hv.
Qed.

Lemma parse_provider_keys_ok keys :
  parse_provider_keys JSON_parse getValueOrFileContents raw = Ok keys -> keys_ok keys.
Proof.
  assert (keys_ok []) as H0 by (split; constructor).
  unfold parse_provider_keys. destruct (valueOrFile _ _) as [s|]; [|by intros [= <-]].
  destruct (truthy_string s); [|by intros [= <-]].
  destruct (parseJson _ _ s) as [v|]; [|done]. destruct (required _ _) as [o|]; [|done].
  by apply provider_keys_ok.
Qed.

Lemma parse_config_valid c :
  parse_config parse_url JSON_parse getValueOrFileContents raw = Ok c -> ValidConfig c.
Proof.
  unfold parse_config.
  destruct (required _ _) as [issuer|] eqn:Ei; [|done].
  destruct (httpsUrl _ "PS_OIDC_ISSUER" _) eqn:Eh; [|done].
  destruct (negb _) eqn:Ea; [|done]. apply negb_true_iff, bool_decide_eq_false in Ea.
  destruct (match given (raw "PS_OIDC_JWKS_URL") with Some _ => _ | None => _ end) eqn:Ej; [|done].
  destruct (parse_algorithms raw) as [algs|] eqn:Eg; [|done].
  destruct (parse_clock_skew raw) as [skew|] eqn:Es; [|done].
  destruct (is_claim_path _) eqn:Ec; [|done].
  destruct (parse_policy _ _ _) as [policy|] eqn:Ep; [|done].
  destruct (required (telemetry_mode _) _) as [mode|]; [|done].
  destruct (parse_provider_keys _ _ _) as [keys|] eqn:Ek; [|done]. intros [= <-].
  constructor; cbn.
  - by apply (httpsUrl_ok _ _ _ Eh).
  - split; [done|apply comma_list_nonempty].
  - intros u Hu. rewrite Hu in Ej. by apply (httpsUrl_ok _ _ _ Ej).
  - by apply parse_algorithms_ok.
  - by apply parse_clock_skew_ok.
  - done.
  - intros p Hp. by apply (accepted_policy_ok policy).
  - by apply parse_provider_keys_ok.
Qed.

(** An enabled gateway either has a sound configuration (an https issuer, at
    least one audience, asymmetric algorithms only, a clock skew from 0 to 300
    seconds, a valid policy and one key per provider) or answers with an error:
    it is never open because its configuration is wrong. *)
Theorem accepted_config_is_sound :
  isTrue (raw "PS_OIDC_ENABLED") = true ->
  match parseOidcConfig parse_url JSON_parse getValueOrFileContents raw with
  | Enabled c => ValidConfig c
  | Misconfigured e => parse_config parse_url JSON_parse getValueOrFileContents raw = Throw e
  | Disabled => False
  end.
Proof.
  intros He. unfold parseOidcConfig. rewrite He. cbn [negb].
  destruct (parse_config _ _ _ _) as [c|e] eqn:E; [|done]. by apply parse_config_valid.
Qed.
End Guarantees.

Module Samples.

Definition sample_url (s : string) : option URL :=
  if startsWith s "https://" then Some (mkURL "https:" "" "" "idp.example.com" "")
  else if startsWith s "http://" then Some (mkURL "http:" "" "" "idp.example.com" "")
  else None.

Definition sample_env (algorithms : string) (name : string) : option string :=
  own [("PS_OIDC_ENABLED", " True "); ("PS_OIDC_ISSUER", "https://idp.example.com/"); ("PS_OIDC_AUDIENCE", "a, b,");
       ("PS_OIDC_ALGORITHMS", algorithms); ("PS_OIDC_PROVIDER_KEYS", "keys")] name.

Definition sample_json (s : string) : option json :=
  if (s =? "keys")%string then Some (JObj [("OpenAI", JStr " k "); ("openai", JStr "k2")]) else None.

Definition parsed (algorithms : string) : OidcSettings :=
  parseOidcConfig sample_url sample_json (fun s => s) (sample_env algorithms).

Example symmetric_refused : parsed "RS256,HS256" = Misconfigured (algorithm_not_allowed "HS256").
Proof. vm_compute. reflexivity. Qed.

Example accepted :
  match parsed "" with
  | Enabled c => (oc_audiences c, length (oc_algorithms c), oc_providerKeys c)
  | _ => ([], 0, [])
  end = (["a"; "b"], 9, [("openai", "k2")]).
Proof. vm_compute. reflexivity. Qed.

Lemma accepted_config_is_sound_witness :
  isTrue (sample_env "ES256" "PS_OIDC_ENABLED") = true /\
  match parseOidcConfig sample_url sample_json (fun s => s) (sample_env "ES256") with
  | Enabled c => ValidConfig sample_url c
  | Misconfigured e => parse_config sample_url sample_json (fun s => s) (sample_env "ES256") = Throw e
  | Disabled => False
  end.
Proof.
  split; [vm_compute; reflexivity|].
  apply (accepted_config_is_sound sample_url sample_json (fun s => s) (sample_env "ES256")).
  vm_compute. reflexivity.
Defined.
End Samples.
