(* ===== verification/Jwks.v ===== *)
(** * The signing keys of the identity provider

    Models [src/gateway/src/middlewares/psOidc/jwks.ts]: reading a document of the
    identity provider, the life time of its keys, the source of keys with its
    refreshes, and [verifyToken].

    The source is a state machine: requests call [refresh], which starts at most
    one download at a time, and the download ends later ([Refresh] and [Finish], in
    any order, [step]).  A key set carries the number of the download it came from,
    which stands for the identity of the object.  Times are integer milliseconds and
    [-Infinity] is [None].  [fetch], [new URL] and jose ([decodeProtectedHeader] and
    [jwtVerify]) are parameters; what the source is when an awaited refresh is over
    is an arbitrary function of it ([settled]), which stands for the other requests.

    [refreshes_are_rare]: however many requests there are, and whatever keys their
    tokens name, the identity provider is asked at most once per 30 seconds.
    [keys_are_kept]: keys, once there, are only ever replaced by newer usable ones.
    [Published]: keys read from a document at the configured address, or at the one
    the discovery document of the issuer names; what servers answered is a relation.
    [accepted_by] and [verify_with_keys_of]: what a token that is accepted went
    through, which [Oidc] uses. *)

From Stdlib Require Import ZArith Lia ZifyBool Ascii Floats.SpecFloat.
From stdpp Require Import base strings option list.
From S2P Require Import Prelude JsValue JsText GroupPolicy UrlGuard OidcConfig.

#[local] Open Scope string_scope.
#[local] Open Scope list_scope.
#[local] Open Scope Z_scope.
#[local] Arguments num_of_Z : simpl never.

Definition MIN_TTL_MS : Z := 60000.
Definition MAX_TTL_MS : Z := 24 * 60 * 60000.
Definition DEFAULT_TTL_MS : Z := 10 * 60000.
Definition REFRESH_COOLDOWN_MS : Z := 30000.
Definition MAX_DOCUMENT_BYTES : Z := 512 * 1024.
Definition MAX_TOKEN_LENGTH : nat := Z.to_nat (16 * 1024).

Inductive TokenFailure :=
| malformed | disallowed_alg | unknown_key | bad_signature | expired | not_yet_valid
| wrong_issuer | wrong_audience | invalid_claims | jwks_unavailable.

(** ** Documents *)

Definition word_char (c : ascii) : bool := is_digit c || is_upper c || is_lower c || (code c =? 95)%N.

(** [\b] after a word. *)
Definition word_ends (s : string) : bool := match s with String c _ => negb (word_char c) | EmptyString => true end.

Definition separator (c : ascii) : bool := (code c =? 44)%N || is_space c.

(** [(^|[,\s])(no-store|no-cache)\b]; the flag: a match may start here. *)
Fixpoint forbids_caching (at_start : bool) (s : string) : bool :=
  (at_start && ((startsWith s "no-store" && word_ends (String.substring 8 (String.length s - 8) s)) ||
                (startsWith s "no-cache" && word_ends (String.substring 8 (String.length s - 8) s)))) ||
  match s with
  | String c r => forbids_caching (separator c) r
  | EmptyString => false
  end.

(** The value of [max-age] at the start of a text: an equals sign between spaces,
    an optional quote, and digits. *)
Definition max_age_here (s : string) : option string :=
  if startsWith s "max-age" then
    match drop_while is_space (String.substring 7 (String.length s - 7) s) with
    | String c r =>
        if (code c =? 61)%N then
          let v := drop_while is_space r in
          let v := match v with String q t => if (code q =? 34)%N then t else v | EmptyString => v end in
          let digits := take_while is_digit v in
          if truthy_string digits then Some digits else None
        else None
    | EmptyString => None
    end
  else None.

Fixpoint max_age (at_start : bool) (s : string) : option string :=
  match (if at_start then max_age_here s else None) with
  | Some d => Some d
  | None => match s with String c r => max_age (separator c) r | EmptyString => None end
  end.

(** [Number(m[1]) * 1000] is clamped, so its rounding does not matter. *)
Definition ttlFromCacheControl (header : option string) : Z :=
  match header with
  | None => DEFAULT_TTL_MS
  | Some header =>
      if negb (truthy_string header) then DEFAULT_TTL_MS else
      let h := toLowerCase header in
      if forbids_caching true h then MIN_TTL_MS else
      match max_age true h with
      | None => DEFAULT_TTL_MS
      | Some d => Z.min MAX_TTL_MS (Z.max MIN_TTL_MS (digits_val d 0 * 1000))
      end
  end.

(** An answer of the identity provider: what [fetchDocument] reads of it. *)
Record Answer := mkAnswer {
  an_ok : bool;
  an_contentLength : option string;
  an_byteLength : Z;
  an_json : option json;
  an_cacheControl : option string
}.

(** Why a document could not be read. *)
Inductive FetchError :=
| refused_url (url : string)
| network_error
| bad_status
| too_large
| bad_json
| issuer_mismatch
| no_jwks_uri
| not_a_jwks
| no_usable_keys.

Section Documents.
Variable parse_url : string -> option URL.
Variable env : Env.

Definition isAllowedIdpUrl (url : string) : bool :=
  match parse_url url with
  | Some u => (protocol u =? "https:")%string && isSafeUpstreamURL parse_url env url
  | None => false
  end.

(** [Number(null)] is 0. *)
Definition declared_length (v : option string) : num :=
  match v with Some s => to_number s | None => nzero end.

(** [fetchDocument], for what [upstreamFetch] answers ([None]: it failed). *)
Definition fetchDocument (fetch : string -> option Answer) (url : string) : result FetchError (json * Z) :=
  check isAllowedIdpUrl url else refused_url url in
  let* a := required (fetch url) network_error in
  check an_ok a else bad_status in
  let declared := declared_length (an_contentLength a) in
  check negb (is_finite_num declared && nltb (num_of_Z MAX_DOCUMENT_BYTES) declared) else too_large in
  check an_byteLength a <=? MAX_DOCUMENT_BYTES else too_large in
  let* j := required (an_json a) bad_json in
  Ok (j, ttlFromCacheControl (an_cacheControl a)).

Definition usable_key (k : json) : bool :=
  match k with
  | JObj o =>
      match own o "kty" with
      | Some (JStr kty) => mem_string kty ["RSA"; "EC"; "OKP"]
      | _ => false
      end &&
      match own o "use" with
      | None => true
      | Some (JStr u) => (u =? "sig")%string
      | _ => false
      end && negb (hasOwn o "d")
  | _ => false
  end.

Definition usableKeys (jwks : json) : result FetchError (list json) :=
  match prop (Some jwks) "keys" with
  | Some (JArr l) => Ok (List.filter usable_key l)
  | _ => Throw not_a_jwks
  end.

(** ** The source *)

(** Keys and the download they came from. *)
Record KeySet := mkKeys { ks_download : nat; ks_keys : list json }.

Record JwksSource := mkSource {
  keys : option KeySet;
  expiresAt : Z;
  lastAttempt : option Z;
  inflight : bool;
  jwksUri : option string;
  lastError : option FetchError;
  downloads : nat
}.

Variable issuer : string.
Variable configuredJwksUrl : option string.

Definition new_source : JwksSource := mkSource None 0 None false configuredJwksUrl None 0.

(** [issuer.replace(/\/+$/, '')] *)
Definition without_slashes (s : string) : string :=
  srev (drop_while (fun c => (code c =? 47)%N) (srev s)).

(** [this.jwksUri], read from the discovery document when there is none. *)
Definition resolveJwksUri (fetch : string -> option Answer) (s : JwksSource) : result FetchError string :=
  match (if truthy_opt (jwksUri s) then jwksUri s else None) with
  | Some uri => Ok uri
  | None =>
      let* d := fetchDocument fetch (without_slashes issuer +:+ "/.well-known/openid-configuration") in
      check strict_eq (prop (Some d.1) "issuer") (JStr issuer) else issuer_mismatch in
      match prop (Some d.1) "jwks_uri" with
      | Some (JStr uri) => Ok uri
      | _ => Throw no_jwks_uri
      end
  end.

Definition download (fetch : string -> option Answer) (s : JwksSource)
    : result FetchError (string * list json * Z) :=
  let* uri := resolveJwksUri fetch s in
  let* d := fetchDocument fetch uri in
  let* ks := usableKeys d.1 in
  check negb (bool_decide (ks = [])) else no_usable_keys in
  Ok (uri, ks, d.2).

(** The synchronous part of [refresh]: whether a download starts. *)
Definition refresh (t : Z) (s : JwksSource) : bool * JwksSource :=
  if inflight s then (false, s)
  else if match lastAttempt s with Some a => t - a <? REFRESH_COOLDOWN_MS | None => false end
  then (false, s)
  else (true, mkSource (keys s) (expiresAt s) (Some t) true (jwksUri s) (lastError s) (S (downloads s))).

(** The end of the download that is running. *)
Definition finish (t : Z) (fetch : string -> option Answer) (s : JwksSource) : JwksSource :=
  match download fetch s with
  | Ok (uri, ks, ttlMs) =>
      mkSource (Some (mkKeys (downloads s) ks)) (t + ttlMs) (lastAttempt s) false (Some uri) None (downloads s)
  | Throw e =>
      mkSource (keys s) (expiresAt s) (lastAttempt s) false
        (if truthy_opt configuredJwksUrl then jwksUri s else None) (Some e) (downloads s)
  end.

Inductive Op :=
| Refresh (t : Z)
| Finish (t : Z) (fetch : string -> option Answer).

Definition op_time (o : Op) : Z := match o with Refresh t => t | Finish t _ => t end.

Definition step (s : JwksSource) (o : Op) : JwksSource :=
  match o with
  | Refresh t => (refresh t s).2
  | Finish t fetch => if inflight s then finish t fetch s else s
  end.

(** The times at which downloads start. *)
Fixpoint starts (s : JwksSource) (ops : list Op) : list Z :=
  match ops with
  | [] => []
  | o :: r =>
      match o with
      | Refresh t => if (refresh t s).1 then [t] else []
      | Finish _ _ => []
      end ++ starts (step s o) r
  end.

(** ** Tokens *)

Record JoseError := mkJoseError { je_code : string; je_claim : string }.

Definition failureOf (e : JoseError) : TokenFailure :=
  let c := je_code e in
  if (c =? "ERR_JWT_EXPIRED")%string then expired
  else if (c =? "ERR_JWT_CLAIM_VALIDATION_FAILED")%string then
    if (je_claim e =? "iss")%string then wrong_issuer
    else if (je_claim e =? "aud")%string then wrong_audience
    else if (je_claim e =? "nbf")%string then not_yet_valid
    else invalid_claims
  else if (c =? "ERR_JOSE_ALG_NOT_ALLOWED")%string || (c =? "ERR_JOSE_NOT_SUPPORTED")%string then disallowed_alg
  else if (c =? "ERR_JWKS_NO_MATCHING_KEY")%string || (c =? "ERR_JWKS_MULTIPLE_MATCHING_KEYS")%string
  then unknown_key
  else if (c =? "ERR_JWS_SIGNATURE_VERIFICATION_FAILED")%string then bad_signature
  else malformed.

Variable decodeProtectedHeader : string -> option json.
Variable jwtVerify : KeySet -> string -> OidcConfig -> result JoseError json.
(** The source when an awaited refresh is over. *)
Variable settled : JwksSource -> JwksSource.

Definition resolver (t : Z) (s : JwksSource) : result TokenFailure KeySet * JwksSource :=
  let s := if negb (bool_decide (is_Some (keys s))) || (expiresAt s <=? t)
           then settled (refresh t s).2 else s in
  (match keys s with Some k => Ok k | None => Throw jwks_unavailable end, s).

(** Whether the awaited refresh brought other keys. *)
Definition refreshForUnknownKey (t : Z) (s : JwksSource) : bool * JwksSource :=
  let s' := settled (refresh t s).2 in
  (negb (bool_decide (ks_download <$> keys s' = ks_download <$> keys s)), s').

Definition well_shaped (token : string) : bool :=
  truthy_string token && (String.length token <=? MAX_TOKEN_LENGTH)%nat &&
  (length (split_dot token) =? 3)%nat.

(** What is checked before any key is looked up. *)
Definition checked_header (token : string) (config : OidcConfig) : result TokenFailure unit :=
  check well_shaped token else malformed in
  let* header := required (decodeProtectedHeader token) malformed in
  match prop (Some header) "alg" with
  | Some (JStr alg) => check mem_string alg (oc_algorithms config) else disallowed_alg in Ok tt
  | _ => Throw disallowed_alg
  end.

Definition verified (ks : KeySet) (token : string) (config : OidcConfig) : result TokenFailure json :=
  match jwtVerify ks token config with Ok payload => Ok payload | Throw e => Throw (failureOf e) end.

(** The verification with the keys of the source. *)
Definition verify_with_keys (t : Z) (token : string) (config : OidcConfig) (s : JwksSource)
    : result TokenFailure json * JwksSource :=
  let '(k, s) := resolver t s in
  match k with
  | Throw e => (Throw e, s)
  | Ok ks =>
      match jwtVerify ks token config with
      | Ok payload => (Ok payload, s)
      | Throw e =>
          if (je_code e =? "ERR_JWKS_NO_MATCHING_KEY")%string then
            let '(renewed, s) := refreshForUnknownKey t s in
            if renewed then
              let '(k, s) := resolver t s in
              (match k with Ok ks => verified ks token config | Throw e => Throw e end, s)
            else (Throw (failureOf e), s)
          else (Throw (failureOf e), s)
      end
  end.

Definition verifyToken (t : Z) (token : string) (config : OidcConfig) (s : JwksSource)
    : result TokenFailure json * JwksSource :=
  match checked_header token config with
  | Throw e => (Throw e, s)
  | Ok _ => verify_with_keys t token config s
  end.
End Documents.

(** ** Refreshes *)

(** Every time is at least the cooldown after the one before. *)
Fixpoint spaced_from (lo : Z) (l : list Z) : Prop :=
  match l with
  | [] => True
  | t :: r => lo <= t /\ spaced_from (t + REFRESH_COOLDOWN_MS) r
  end.

Definition in_window (a b t : Z) : bool := (a <=? t) && (t <=? b).

(** What the cooldown allows in a window. *)
Definition room (lo b : Z) : Z := if lo <=? b then (b - lo) / REFRESH_COOLDOWN_MS + 1 else 0.

Lemma room_next a b lo t :
  lo <= t -> in_window a b t = true -> 1 + room (Z.max a (t + REFRESH_COOLDOWN_MS)) b <= room (Z.max a lo) b.
Proof.
  unfold in_window, room, REFRESH_COOLDOWN_MS. intros Hlo Hw. apply andb_true_iff in Hw as [Ha Hb].
  assert (a <= t <= b) as [Hat Htb] by lia.
  rewrite (Z.max_r a (t + 30000)) by lia. destruct (Z.max a lo <=? b) eqn:E1; [|lia].
  assert ((b - t) / 30000 <= (b - Z.max a lo) / 30000) by (apply Z.div_le_mono; lia).
  destruct (t + 30000 <=? b) eqn:E2.
  - replace (b - (t + 30000)) with (b - t + (-1) * 30000) by lia. rewrite Z.div_add by lia. lia.
  - assert (0 <= (b - Z.max a lo) / 30000) by (apply Z.div_pos; lia). lia.
Qed.

Lemma spaced_count a b l : forall lo,
  spaced_from lo l -> Z.of_nat (length (List.filter (in_window a b) l)) <= room (Z.max a lo) b.
Proof.
  induction l as [|t l IH]; intros lo; cbn [spaced_from List.filter].
  - intros _. unfold room, REFRESH_COOLDOWN_MS. cbn. destruct (_ <=? _) eqn:E; [|lia].
    assert (0 <= (b - Z.max a lo) / 30000) by (apply Z.div_pos; lia). lia.
  - intros [Hlo Hl]. specialize (IH _ Hl). destruct (in_window a b t) eqn:Hw.
    + pose proof (room_next a b lo t Hlo Hw). cbn [length]. lia.
    + assert (room (Z.max a (t + REFRESH_COOLDOWN_MS)) b <= room (Z.max a lo) b); [|lia].
      unfold room, REFRESH_COOLDOWN_MS. destruct (Z.max a (t + 30000) <=? b) eqn:E1.
      * assert (Z.max a lo <=? b = true) as -> by lia.
        assert ((b - Z.max a (t + 30000)) / 30000 <= (b - Z.max a lo) / 30000) by (apply Z.div_le_mono; lia).
        lia.
      * destruct (Z.max a lo <=? b) eqn:E2; [|lia].
        assert (0 <= (b - Z.max a lo) / 30000) by (apply Z.div_pos; lia). lia.
Qed.

Section Refreshes.
Variable parse_url : string -> option URL.
Variable env : Env.
Variable issuer : string.
Variable configuredJwksUrl : option string.

#[local] Abbreviation step' := (step parse_url env issuer configuredJwksUrl).
#[local] Abbreviation finish' := (finish parse_url env issuer configuredJwksUrl).
#[local] Abbreviation run := (foldl step').

Lemma finish_attempt t fetch s : lastAttempt (finish' t fetch s) = lastAttempt s.
Proof. unfold finish. by destruct (download _ _ _ _ _) as [[[uri ks] ttl]|e]. Qed.

#[local] Abbreviation starts' := (starts parse_url env issuer configuredJwksUrl).

Lemma starts_after ops : forall s a,
  lastAttempt s = Some a -> spaced_from (a + REFRESH_COOLDOWN_MS) (starts' s ops).
Proof.
  induction ops as [|o ops IH]; intros s a Ha; [done|]. cbn [starts].
  destruct o as [t|t fetch]; cbn [step].
  - unfold refresh. rewrite Ha. destruct (inflight s); cbn [fst snd app]; [by apply IH|].
    destruct (t - a <? REFRESH_COOLDOWN_MS) eqn:Hc; cbn [fst snd app]; [by apply IH|].
    cbn [spaced_from]. split; [lia|]. by apply IH.
  - cbn [app]. apply IH. destruct (inflight s); [by rewrite finish_attempt|done].
Qed.

Lemma starts_spaced ops : forall s, exists lo, spaced_from lo (starts' s ops).
Proof.
  induction ops as [|o ops IH]; intros s; [by exists 0|]. cbn [starts].
  destruct o as [t|t fetch]; [|apply IH].
  destruct (refresh t s) as [b s'] eqn:E. cbn [fst snd step]. rewrite E. cbn [snd].
  destruct b; [|apply IH]. exists t. cbn [app spaced_from]. split; [lia|]. apply starts_after.
  unfold refresh in E. destruct (inflight s); [done|].
  destruct (match lastAttempt s with Some a => _ | None => _ end); [done|]. by injection E as <-.
Qed.

(** Whatever requests call [refresh], whenever downloads end and whatever they
    give, the identity provider is asked for its keys at most once per 30 seconds:
    any window of [b - a] milliseconds has at most one download for each 30
    seconds in it and one more. *)
Theorem refreshes_are_rare (ops : list Op) (a b : Z) :
  Z.of_nat (length (List.filter (in_window a b)
    (starts parse_url env issuer configuredJwksUrl (new_source configuredJwksUrl) ops)))
  <= Z.max 0 (b - a) / REFRESH_COOLDOWN_MS + 1.
Proof.
  destruct (starts_spaced ops (new_source configuredJwksUrl)) as [lo H].
  apply (spaced_count a b) in H. unfold room, REFRESH_COOLDOWN_MS in *.
  destruct (Z.max a lo <=? b) eqn:E.
  - assert ((b - Z.max a lo) / 30000 <= Z.max 0 (b - a) / 30000) by (apply Z.div_le_mono; lia). lia.
  - assert (0 <= Z.max 0 (b - a) / 30000) by (apply Z.div_pos; lia). lia.
Qed.

(** ** Keys *)

(** The keys of a source are usable: there are some, and none is a shared secret
    or a private key. *)
Definition SourceOk (s : JwksSource) : Prop :=
  forall k, keys s = Some k ->
    ks_keys k <> [] /\ Forall (fun j => usable_key j = true) (ks_keys k) /\ (ks_download k <= downloads s)%nat.

Lemma download_usable fetch s uri ks ttl :
  download parse_url env issuer fetch s = Ok (uri, ks, ttl) ->
  ks <> [] /\ Forall (fun j => usable_key j = true) ks /\ MIN_TTL_MS <= ttl <= MAX_TTL_MS.
Proof.
  unfold download. destruct (resolveJwksUri _ _ _ _ _) as [u|]; [|done].
  destruct (fetchDocument _ _ _ u) as [[j t]|] eqn:Ef; [|done]. cbn [fst snd].
  destruct (usableKeys j) as [l|] eqn:Eu; [|done].
  destruct (bool_decide (l = [])) eqn:El; [done|]. cbn [negb]. intros [= <- <- <-].
  apply bool_decide_eq_false in El. split; [done|]. split.
  - unfold usableKeys in Eu. destruct (prop _ "keys") as [[| | | |ks|]|]; try done.
    injection Eu as <-. apply Forall_forall. by intros k [_ Hk]%filter_elem.
  - unfold fetchDocument in Ef. destruct (isAllowedIdpUrl _ _ _); [|done].
    destruct (required _ _) as [a|]; [|done]. destruct (an_ok a); [|done].
    destruct (negb _); [|done]. destruct (an_byteLength a <=? _); [|done].
    destruct (required (an_json a) _); [|done]. injection Ef as _ <-.
    unfold ttlFromCacheControl, MIN_TTL_MS, MAX_TTL_MS, DEFAULT_TTL_MS.
    destruct (an_cacheControl a) as [h|]; [|lia]. destruct (negb (truthy_string h)); [lia|]. cbv zeta.
    destruct (forbids_caching _ _); [lia|]. destruct (max_age _ _); lia.
Qed.

Lemma refresh_keys t s : keys (refresh t s).2 = keys s /\ (downloads s <= downloads (refresh t s).2)%nat.
Proof.
  unfold refresh. destruct (inflight s); cbn; [by split|].
  destruct (match lastAttempt s with Some a => _ | None => _ end); cbn; split; (done || lia).
Qed.

Lemma refresh_ok t s : SourceOk s -> SourceOk (refresh t s).2.
Proof.
  intros H k Hk. destruct (refresh_keys t s) as [E Hd]. rewrite E in Hk.
  destruct (H k Hk) as (? & ? & ?). split_and!; try done. lia.
Qed.

Lemma step_ok s o : SourceOk s -> SourceOk (step' s o).
Proof.
  intros H. destruct o as [t|t fetch]; cbn [step]; [by apply refresh_ok|].
  destruct (inflight s); [|done]. unfold finish.
  destruct (download _ _ _ _ _) as [[[uri ks] ttl]|e] eqn:E.
  - intros k [= <-]. destruct (download_usable _ _ _ _ _ E) as (? & ? & _). by split_and!.
  - intros k Hk. by apply H.
Qed.

Lemma step_keeps s o k :
  SourceOk s -> keys s = Some k ->
  exists k', keys (step' s o) = Some k' /\ (ks_download k <= ks_download k')%nat.
Proof.
  intros H Hk. destruct o as [t|t fetch]; cbn [step].
  - exists k. split; [|lia]. by rewrite (proj1 (refresh_keys t s)).
  - destruct (inflight s); [|by exists k]. unfold finish.
    destruct (download _ _ _ _ _) as [[[uri ks] ttl]|e]; [|by exists k].
    eexists. split; [done|]. cbn. by apply H.
Qed.

Lemma run_ok ops s : SourceOk s -> SourceOk (run s ops).
Proof. revert s. induction ops as [|o ops IH]; intros s H; [done|]. apply IH. by apply step_ok. Qed.

(** Once the gateway has keys it never loses them: whatever happens (failed
    downloads, answers that are no key sets, key sets without a usable key), every
    later state has keys that are the same or from a later download; and the keys
    of every state are public signing keys, at least one. *)
Theorem keys_are_kept (before after : list Op) :
  let s := run (new_source configuredJwksUrl) before in
  SourceOk s /\ SourceOk (run s after) /\
  match keys s with
  | Some k => exists k', keys (run s after) = Some k' /\ (ks_download k <= ks_download k')%nat
  | None => True
  end.
Proof.
  intros s. assert (Hs : SourceOk s) by (by apply run_ok).
  split; [done|]. split; [by apply run_ok|].
  destruct (keys s) as [k|] eqn:Hk; [|done]. revert k Hk Hs. generalize s. clear s.
  induction after as [|o l IH]; intros s k Hk Hs; [by exists k|]. cbn [foldl].
  destruct (step_keeps s o k Hs Hk) as (k1 & Hk1 & Hle1).
  destruct (IH _ k1 Hk1 (step_ok _ o Hs)) as (k2 & Hk2 & Hle2). exists k2. split; [done|]. lia.
Qed.
End Refreshes.

(** ** Where keys come from *)

(** [answers url a]: the server at [url] gave the answer [a] at some time. *)
Section Provenance.
Variable parse_url : string -> option URL.
Variable env : Env.
Variable answers : string -> Answer -> Prop.

Definition Honest (fetch : string -> option Answer) : Prop := forall url a, fetch url = Some a -> answers url a.

Definition honest_op (o : Op) : Prop := match o with Refresh _ => True | Finish _ fetch => Honest fetch end.

(** A document the server at an allowed https address gave. *)
Definition DocumentAt (url : string) (d : json) : Prop :=
  exists fetch ttl, Honest fetch /\ fetchDocument parse_url env fetch url = Ok (d, ttl).

(** The configured address of the keys, or else the one in the discovery document of
    the issuer, which names the issuer itself. *)
Definition KeyAddress (issuer : string) (configured : option string) (uri : string) : Prop :=
  if truthy_opt configured then configured = Some uri
  else exists d, DocumentAt (without_slashes issuer +:+ "/.well-known/openid-configuration") d /\
         prop (Some d) "issuer" = Some (JStr issuer) /\ prop (Some d) "jwks_uri" = Some (JStr uri).

(** The keys of a document at the address of the keys: the public signing keys in it,
    at least one. *)
Definition Published (issuer : string) (configured : option string) (ks : list json) : Prop :=
  exists uri d, KeyAddress issuer configured uri /\ DocumentAt uri d /\ usableKeys d = Ok ks /\ ks <> [].

(** A source of an issuer: its keys were published there. *)
Record SourceOf (issuer : string) (configured : option string) (s : JwksSource) : Prop := {
  so_keys : forall k, keys s = Some k -> Published issuer configured (ks_keys k);
  so_uri : forall uri, jwksUri s = Some uri -> truthy_string uri = true -> KeyAddress issuer configured uri;
  so_configured : truthy_opt configured = true -> jwksUri s = configured
}.

Lemma new_source_of issuer configured : SourceOf issuer configured (new_source configured).
Proof.
  constructor; [done| |done]. cbn. intros uri -> Hu. unfold KeyAddress. cbn. by rewrite Hu.
Qed.

Lemma published_usable issuer configured ks :
  Published issuer configured ks -> ks <> [] /\ Forall (fun j => usable_key j = true) ks.
Proof.
  intros (uri & d & _ & _ & Hu & Hn). split; [done|]. unfold usableKeys in Hu.
  destruct (prop _ "keys") as [[| | | |l|]|]; try done. injection Hu as <-.
  apply Forall_forall. by intros k [_ Hk]%filter_elem.
Qed.

Section Issuer.
Context (issuer : string) (configured : option string).
#[local] Abbreviation step' := (step parse_url env issuer configured).
#[local] Abbreviation SourceOf' := (SourceOf issuer configured).

Lemma resolved_address fetch s uri :
  Honest fetch -> SourceOf' s -> resolveJwksUri parse_url env issuer fetch s = Ok uri ->
  KeyAddress issuer configured uri.
Proof.
  intros Hf Hs. unfold resolveJwksUri. destruct (truthy_opt (jwksUri s)) eqn:Et.
  - destruct (jwksUri s) as [u|] eqn:Eu; [|done]. intros [= <-]. by apply (so_uri _ _ s Hs).
  - destruct (fetchDocument _ _ _ _) as [[d ttl]|e] eqn:Ef; [|done]. cbn [fst snd].
    destruct (strict_eq _ _) eqn:Ei; [|done].
    destruct (prop (Some d) "jwks_uri") as [[| | |u| |]|] eqn:Eu; try done. intros [= <-].
    unfold KeyAddress. destruct (truthy_opt configured) eqn:Ec.
    + rewrite (so_configured _ _ s Hs Ec) in Et. congruence.
    + exists d. split; [by exists fetch, ttl|]. split; [|done].
      unfold strict_eq in Ei. destruct (prop (Some d) "issuer") as [[]|]; try done.
      apply String.eqb_eq in Ei. by subst.
Qed.

Lemma downloaded_published fetch s uri ks ttl :
  Honest fetch -> SourceOf' s -> download parse_url env issuer fetch s = Ok (uri, ks, ttl) ->
  KeyAddress issuer configured uri /\ Published issuer configured ks.
Proof.
  intros Hf Hs. unfold download. destruct (resolveJwksUri _ _ _ _ _) as [u|] eqn:Er; [|done].
  apply resolved_address in Er; [|done..].
  destruct (fetchDocument _ _ _ u) as [[d t]|] eqn:Ef; [|done]. cbn [fst snd].
  destruct (usableKeys d) as [l|] eqn:Eu; [|done].
  destruct (bool_decide (l = [])) eqn:El; [done|]. cbn [negb]. intros [= <- <- <-].
  apply bool_decide_eq_false in El. split; [done|]. exists u, d. split_and!; try done. by exists fetch, t.
Qed.

Lemma refresh_of t s : SourceOf' s -> SourceOf' (refresh t s).2.
Proof.
  intros H. unfold refresh. destruct (inflight s); [done|].
  destruct (match lastAttempt s with Some a => _ | None => _ end); [done|].
  destruct H. by constructor.
Qed.

Lemma step_of s o : honest_op o -> SourceOf' s -> SourceOf' (step' s o).
Proof.
  intros Ho H. destruct o as [t|t fetch]; cbn [step]; [by apply refresh_of|].
  destruct (inflight s); [|done]. unfold finish.
  destruct (download _ _ _ _ _) as [[[uri ks] ttl]|e] eqn:E.
  - destruct (downloaded_published _ _ _ _ _ Ho H E) as [Ha Hp]. constructor; cbn.
    + by intros k [= <-].
    + by intros u [= <-].
    + intros Hc. unfold KeyAddress in Ha. by rewrite Hc in Ha.
  - destruct H as [Hk Hu Hc]. constructor; cbn; [done| |].
    + destruct (truthy_opt configured); [done|by intros].
    + intros Ht. rewrite Ht. by apply Hc.
Qed.

Lemma run_of ops s : Forall honest_op ops -> SourceOf' s -> SourceOf' (foldl step' s ops).
Proof.
  intros Ho. revert s. induction Ho as [|o ops Ho _ IH]; intros s H; [done|]. by apply IH, step_of.
Qed.
End Issuer.

(** ** Accepted tokens *)

Section Tokens.
Context (issuer : string) (configured : option string).
Variable decodeProtectedHeader : string -> option json.
Variable jwtVerify : KeySet -> string -> OidcConfig -> result JoseError json.
Variable settled : JwksSource -> JwksSource.

(** While a refresh is awaited the other requests refresh the source too, and downloads end. *)
Hypothesis settled_runs : forall s, exists ops,
  Forall honest_op ops /\ settled s = foldl (step parse_url env issuer configured) s ops.

#[local] Abbreviation verify := (verifyToken decodeProtectedHeader jwtVerify settled).
#[local] Abbreviation SourceOf' := (SourceOf issuer configured).

Lemma settled_of s : SourceOf' s -> SourceOf' (settled s).
Proof. destruct (settled_runs s) as (ops & Ho & ->). by apply run_of. Qed.

Lemma resolver_of t s k s' :
  SourceOf' s -> resolver settled t s = (k, s') ->
  SourceOf' s' /\ forall ks, k = Ok ks -> Published issuer configured (ks_keys ks).
Proof.
  unfold resolver. intros Hs.
  set (s1 := if _ || _ then settled (refresh t s).2 else s). intros [= <- <-].
  assert (SourceOf' s1) as H1 by (unfold s1; destruct (_ || _); [by apply settled_of, refresh_of|done]).
  split; [done|]. intros ks. destruct (keys s1) eqn:E; [|done]. intros [= ->]. by apply H1.
Qed.

(** What is known of a token that is accepted. *)
Definition accepted_by (token : string) (config : OidcConfig) (payload : json) : Prop :=
  well_shaped token = true /\
  (exists header alg, decodeProtectedHeader token = Some header /\
     prop (Some header) "alg" = Some (JStr alg) /\ alg ∈ oc_algorithms config) /\
  exists ks, jwtVerify ks token config = Ok payload /\ Published issuer configured (ks_keys ks).

Lemma checked_header_ok token config :
  checked_header decodeProtectedHeader token config = Ok tt ->
  well_shaped token = true /\
  exists header alg, decodeProtectedHeader token = Some header /\
     prop (Some header) "alg" = Some (JStr alg) /\ alg ∈ oc_algorithms config.
Proof.
  unfold checked_header. destruct (well_shaped token); [|done].
  destruct (decodeProtectedHeader token) as [header|]; [|done]. cbn [required].
  destruct (prop (Some header) "alg") as [[| | |alg| |]|] eqn:Ea; try done.
  destruct (mem_string alg (oc_algorithms config)) eqn:Em; [|done]. intros _. split; [done|].
  apply mem_string_In in Em. by exists header, alg.
Qed.

Lemma verify_with_keys_of t token config s r s' :
  SourceOf' s -> verify_with_keys jwtVerify settled t token config s = (r, s') ->
  SourceOf' s' /\
  forall payload, r = Ok payload ->
    exists ks, jwtVerify ks token config = Ok payload /\ Published issuer configured (ks_keys ks).
Proof.
  unfold verify_with_keys. intros Hs.
  destruct (resolver settled t s) as [k s1] eqn:Er. destruct (resolver_of _ _ _ _ Hs Er) as [Hs1 Hk1].
  destruct k as [ks|e]; [|by intros [= <- <-]].
  destruct (jwtVerify ks token config) as [p|e] eqn:Ev.
  { intros [= <- <-]. split; [done|]. intros payload [= ->]. exists ks. auto. }
  destruct (je_code e =? "ERR_JWKS_NO_MATCHING_KEY")%string; [|by intros [= <- <-]].
  unfold refreshForUnknownKey.
  assert (SourceOf' (settled (refresh t s1).2)) as Hs1' by (by apply settled_of, refresh_of).
  destruct (negb _); [|by intros [= <- <-]].
  destruct (resolver settled t (settled (refresh t s1).2)) as [k2 s2] eqn:Er2.
  destruct (resolver_of _ _ _ _ Hs1' Er2) as [Hs2 Hk2]. intros [= <- <-]. split; [done|].
  intros payload. destruct k2 as [ks2|e2]; [|done]. unfold verified.
  destruct (jwtVerify ks2 token config) as [p|e2] eqn:Ev2; [|done]. intros [= ->]. exists ks2. auto.
Qed.

(** A token that is refused by its header alone (a wrong shape, an algorithm that is
    not allowed such as none or a shared secret) leaves the keys alone. *)
Lemma bad_header_asks_nobody t token config s e :
  checked_header decodeProtectedHeader token config = Throw e ->
  verify t token config s = (Throw e, s).
Proof. intros H. unfold verifyToken. by rewrite H. Qed.
End Tokens.
End Provenance.

Module Samples.

Example ttls :
  map ttlFromCacheControl
    [None; Some "public, max-age=3600"; Some "max-age=1"; Some "no-cache, max-age=3600"; Some "s-max-age=9, no-storey";
     Some "max-age = x"; Some "MAX-AGE=99999999999999999999"] =
  [600000; 3600000; 60000; 60000; 600000; 600000; 86400000].
Proof. vm_compute. reflexivity. Qed.

End Samples.
