(* ===== verification/Oidc.v ===== *)
(** * Authentication of a request

    Models [psOidc] ([src/gateway/src/middlewares/psOidc/index.ts]) from the request
    to the request that is passed on: the bearer token, its verification ([Jwks]),
    the group policy and rate limit ([GroupPolicy]), the check of a realtime call,
    and the headers the next handler sees; with [jwksSourceFor] of [jwks.ts].

    [String(sub)], the pseudonym of the subject (Web Crypto) and
    [constructConfigFromRequestHeaders] are parameters, besides those of [Jwks].
    Headers are the pairs of a [Headers] object, with names in lower case.

    [passed_requests_are_authenticated]: what a request on a protected path went
    through before anything else sees it.  [idp_token_stays]: the credential of the
    user never goes further, the gateway's own key is only given to requests that
    cannot choose where it is sent, and identity headers cannot be forged. *)

From Stdlib Require Import ZArith Lia ZifyBool Ascii Floats.SpecFloat.
From stdpp Require Import base strings option list.
From S2P Require Import Prelude JsValue JsText RouterMiddleware GroupPolicy TargetTree UrlGuard ProxyGuardrails TryPost OidcConfig Jwks.

#[local] Open Scope string_scope.
#[local] Open Scope list_scope.
#[local] Open Scope Z_scope.

Definition SUBJECT_HEADER : string := "x-ps-auth-subject".
Definition GROUP_HEADER : string := "x-ps-auth-group".

Definition isProtectedPath (path : string) : bool :=
  startsWith path "/v1/" && negb (path =? "/v1/health")%string.

Definition NON_URL_HEADERS : list string :=
  ["x-portkey-provider"; "x-portkey-metadata"; "x-portkey-trace-id"; "x-portkey-forward-headers";
   "x-portkey-openai-beta"; "x-portkey-anthropic-beta"].

Definition plain_name_char (c : ascii) : bool :=
  is_digit c || is_upper c || is_lower c || (code c =? 46)%N || (code c =? 95)%N || (code c =? 45)%N.

Definition PLAIN_NAME (s : string) : bool := sforallb plain_name_char s.

Definition gatewayKeyAllowed (headers : obj string) : bool :=
  negb (hasOwn headers "x-portkey-config") && negb (hasOwn headers "x-portkey-custom-host") &&
  forallb (fun p => negb (startsWith p.1 "x-portkey-") || mem_string p.1 NON_URL_HEADERS ||
                    PLAIN_NAME (trim p.2)) headers.

(** [/^Bearer\s+(\S+)\s*$/i]. *)
Definition bearerToken (header : option string) : option string :=
  let h := default "" header in
  if (toLowerCase (String.substring 0 6 h) =? "bearer")%string then
    match String.substring 6 (String.length h - 6) h with
    | String c r =>
        let token := trim r in
        if is_space c && truthy_string token && sforallb (fun c => negb (is_space c)) token
        then Some token else None
    | EmptyString => None
    end
  else None.

(** ** [jwksSourceFor] *)

Definition MAX_SOURCES : nat := 16.

Definition source_key (config : OidcConfig) : string :=
  oc_issuer config +:+ newline +:+ default "" (oc_jwksUrl config).

Definition jwksSourceFor (config : OidcConfig) (sources : obj JwksSource) : JwksSource * obj JwksSource :=
  match own sources (source_key config) with
  | Some s => (s, sources)
  | None =>
      let sources := if (MAX_SOURCES <=? length sources)%nat then [] else sources in
      let s := new_source (oc_jwksUrl config) in
      (s, sources ++ [(source_key config, s)])
  end.

(** ** The middleware *)

Record OidcIdentity := mkIdentity {
  id_subjectHash : string;
  id_subject : string;
  id_group : option PolicyGroup;
  id_config : OidcConfig
}.

Record Request := mkRequest {
  rq_path : string;
  rq_headers : obj string;
  rq_queryModel : option string
}.

(** What the gateway keeps between requests. *)
Record World := mkWorld { w_sources : obj JwksSource; w_buckets : Buckets }.

Inductive Outcome :=
| Untouched
| MisconfiguredError (e : ConfigError)
| MissingToken
| KeysUnavailable
| InvalidToken (reason : TokenFailure)
| PolicyRefused (reason : PolicyDenyReason) (model : option string) (groupsOverage : bool)
| RateLimited (retryAfter : Z)
| Forwarded (headers : obj string) (identity : OidcIdentity).

Definition status (o : Outcome) : option Z :=
  match o with
  | Untouched | Forwarded _ _ => None
  | MisconfiguredError _ => Some 500
  | MissingToken | InvalidToken _ => Some 401
  | KeysUnavailable => Some 503
  | PolicyRefused _ _ _ => Some 403
  | RateLimited _ => Some 429
  end.

Definition delete_header (name : string) (h : obj string) : obj string :=
  List.filter (fun p => negb (p.1 =? name)%string) h.

(** The request without the credential of the user, with its identity. *)
Definition rebuilt_headers (identity : OidcIdentity) (headers : obj string) : obj string :=
  let config := id_config identity in
  let h := delete_header "authorization" headers in
  let h := List.filter (fun p => negb (startsWith p.1 "x-ps-auth-")) h in
  let h := obj_put h SUBJECT_HEADER (id_subjectHash identity) in
  let h := match id_group identity with Some g => obj_put h GROUP_HEADER (pg_name g) | None => h end in
  let provider := toLowerCase ∘ trim <$> own h "x-portkey-provider" in
  let providerKey := match provider with
                     | Some p => if truthy_string p then own (oc_providerKeys config) p else None
                     | None => None
                     end in
  match providerKey with
  | Some key =>
      if truthy_string key && gatewayKeyAllowed h then obj_put h "authorization" ("Bearer " +:+ key) else h
  | None => h
  end.

Section Oidc.
Variable decodeProtectedHeader : string -> option json.
Variable jwtVerify : KeySet -> string -> OidcConfig -> result JoseError json.
(** The source of a configuration when an awaited refresh is over. *)
Variable settled : OidcConfig -> JwksSource -> JwksSource.
Variable to_text : any -> string.
Variable subjectHash : OidcConfig -> string -> string.
(** The options of a realtime call, [None] when building them throws. *)
Variable constructConfigFromRequestHeaders : obj string -> option Options.
(** The access policy of the collector, when there is one. *)
Variable centralPolicy : option OidcPolicy.

(** [verifyToken] with the sources of the process. *)
Definition verify_request (t : Z) (token : string) (config : OidcConfig) (sources : obj JwksSource)
    : result TokenFailure json * obj JwksSource :=
  match checked_header decodeProtectedHeader token config with
  | Throw e => (Throw e, sources)
  | Ok _ =>
      let '(s, sources) := jwksSourceFor config sources in
      let '(r, s) := verify_with_keys jwtVerify (settled config) t token config s in
      (r, obj_put sources (source_key config) s)
  end.

Definition policy_in_force (config : OidcConfig) : option OidcPolicy :=
  match centralPolicy with Some p => Some p | None => oc_policy config end.

(** The group of a token: its entry, or a refusal. *)
Definition group_of (config : OidcConfig) (payload : json) : result Outcome (option PolicyGroup) :=
  match policy_in_force config with
  | None => Ok None
  | Some policy =>
      match matchGroup policy (groupsFromClaims payload (oc_groupsClaim config)) with
      | Some g => Ok (Some g)
      | None =>
          match op_defaultAction policy with
          | deny => Throw (PolicyRefused no_matching_group None (hasGroupsOverage payload (oc_groupsClaim config)))
          | allow => Ok None
          end
      end
  end.

(** The check of a realtime call, which never reaches [tryPost]. *)
Definition realtime_denied (group : option PolicyGroup) (r : Request) : option (PolicyDenyReason * option string) :=
  let options := constructConfigFromRequestHeaders (rq_headers r) in
  oidcTargetDenied group (options ≫= op_provider)
    (match rq_queryModel r with Some m => [m] | None => [] end ++
     match options with Some o => targetModels o (JsonBody None) | None => [] end) false.

Definition psOidc (settings : OidcSettings) (t : Z) (r : Request) (w : World) : Outcome * World :=
  match settings with
  | Disabled => (Untouched, w)
  | _ =>
      if negb (isProtectedPath (rq_path r)) then (Untouched, w) else
      match settings with
      | Misconfigured e => (MisconfiguredError e, w)
      | Disabled => (Untouched, w)
      | Enabled config =>
          match bearerToken (own (rq_headers r) "authorization") with
          | None => (MissingToken, w)
          | Some token =>
              let '(v, sources) := verify_request t token config (w_sources w) in
              let w := mkWorld sources (w_buckets w) in
              match v with
              | Throw jwks_unavailable => (KeysUnavailable, w)
              | Throw reason => (InvalidToken reason, w)
              | Ok payload =>
                  let subject := to_text (prop (Some payload) "sub") in
                  match group_of config payload with
                  | Throw o => (o, w)
                  | Ok group =>
                      let identity := mkIdentity (subjectHash config subject) subject group config in
                      match (if (rq_path r =? "/v1/realtime")%string then realtime_denied group r else None) with
                      | Some (reason, model) => (PolicyRefused reason model false, w)
                      | None =>
                          match group with
                          | None => (Forwarded (rebuilt_headers identity (rq_headers r)) identity, w)
                          | Some g =>
                              let '(retryAfter, buckets) := takeRateLimit t g (id_subjectHash identity) (w_buckets w) in
                              let w := mkWorld (w_sources w) buckets in
                              match retryAfter with
                              | Some s => (RateLimited s, w)
                              | None => (Forwarded (rebuilt_headers identity (rq_headers r)) identity, w)
                              end
                          end
                      end
                  end
              end
          end
      end
  end.
End Oidc.

(** ** The headers that are passed on *)

Lemma own_delete_header (h : obj string) name k :
  own (delete_header name h) k = if (k =? name)%string then None else own h k.
Proof.
  unfold delete_header. induction h as [|[k' v] h IH]; cbn; [by destruct (k =? name)%string|].
  destruct (k' =? name)%string eqn:E1; cbn.
  - rewrite IH. destruct (k =? name)%string eqn:E2; [done|]. apply String.eqb_eq in E1 as ->. by rewrite E2.
  - destruct (k =? k')%string eqn:E2; [|by rewrite IH].
    apply String.eqb_eq in E2 as ->. by rewrite E1.
Qed.

Lemma own_without (p : string -> bool) (h : obj string) k :
  own (List.filter (fun x => negb (p x.1)) h) k = if p k then None else own h k.
Proof.
  induction h as [|[k' v] h IH]; cbn; [by destruct (p k)|].
  destruct (p k') eqn:E1; cbn.
  - rewrite IH. destruct (p k) eqn:E2; [done|]. destruct (k =? k')%string eqn:E; [|done].
    apply String.eqb_eq in E as ->. congruence.
  - destruct (k =? k')%string eqn:E2; [|by rewrite IH].
    apply String.eqb_eq in E2 as ->. by rewrite E1.
Qed.

(** The headers before a key of the gateway is added. *)
Definition identity_headers (identity : OidcIdentity) (headers : obj string) : obj string :=
  let h := List.filter (fun p => negb (startsWith p.1 "x-ps-auth-")) (delete_header "authorization" headers) in
  let h := obj_put h SUBJECT_HEADER (id_subjectHash identity) in
  match id_group identity with Some g => obj_put h GROUP_HEADER (pg_name g) | None => h end.

Lemma own_identity_headers identity headers k :
  own (identity_headers identity headers) k =
  if (k =? GROUP_HEADER)%string then pg_name <$> id_group identity
  else if (k =? SUBJECT_HEADER)%string then Some (id_subjectHash identity)
  else if (k =? "authorization")%string || startsWith k "x-ps-auth-" then None
  else own headers k.
Proof.
  unfold identity_headers. cbv zeta.
  assert (Hb : own (List.filter (fun p => negb (startsWith p.1 "x-ps-auth-"))
      (delete_header "authorization" headers)) k =
      if (k =? "authorization")%string || startsWith k "x-ps-auth-" then None else own headers k).
  { rewrite (own_without (fun n => startsWith n "x-ps-auth-")), own_delete_header.
    by destruct (startsWith k "x-ps-auth-"), (k =? "authorization")%string. }
  destruct (k =? GROUP_HEADER)%string eqn:Eg.
  - apply String.eqb_eq in Eg as ->. destruct (id_group identity); rewrite !own_put; [done|].
    cbn. rewrite (own_without (fun n => startsWith n "x-ps-auth-")). done.
  - destruct (id_group identity); rewrite !own_put, ?Eg, Hb; done.
Qed.

(** When a key of the gateway is given: which provider the client asked for, and what
    its headers that could say where the request is sent look like. *)
Record KeyGiven (config : OidcConfig) (headers : obj string) (v : string) : Prop := {
  kg_key : exists asked key, own headers "x-portkey-provider" = Some asked /\
    own (oc_providerKeys config) (toLowerCase (trim asked)) = Some key /\ v = "Bearer " +:+ key;
  kg_config : own headers "x-portkey-config" = None;
  kg_host : own headers "x-portkey-custom-host" = None;
  kg_plain : forall k x, own headers k = Some x -> startsWith k "x-portkey-" = true -> k ∉ NON_URL_HEADERS ->
    PLAIN_NAME (trim x) = true
}.

Lemma hasOwn_false {A} (h : obj A) k : hasOwn h k = false -> own h k = None.
Proof. unfold hasOwn. by destruct (own h k). Qed.

Lemma gatewayKeyAllowed_inv h :
  gatewayKeyAllowed h = true ->
  own h "x-portkey-config" = None /\ own h "x-portkey-custom-host" = None /\
  forall k x, (k, x) ∈ h -> startsWith k "x-portkey-" = true -> k ∉ NON_URL_HEADERS ->
    PLAIN_NAME (trim x) = true.
Proof.
  unfold gatewayKeyAllowed. intros H. apply andb_true_iff in H as [H Hp]. split_bool.
  split; [by apply hasOwn_false|]. split; [by apply hasOwn_false|].
  intros k x Hin Hk Hn. rewrite forallb_forall in Hp.
  specialize (Hp (k, x) (proj1 (list_elem_of_In _ _) Hin)). cbn [fst snd] in Hp. rewrite Hk in Hp.
  destruct (mem_string k NON_URL_HEADERS) eqn:Em; [|done]. by apply mem_string_In in Em.
Qed.

(** The headers of the framework are the client's own but for the identity. *)
Lemma own_portkey identity headers k :
  startsWith k "x-portkey-" = true -> own (identity_headers identity headers) k = own headers k.
Proof.
  intros Hk. rewrite own_identity_headers.
  destruct (k =? GROUP_HEADER)%string eqn:E1; [apply String.eqb_eq in E1 as ->; vm_compute in Hk; discriminate|].
  destruct (k =? SUBJECT_HEADER)%string eqn:E2; [apply String.eqb_eq in E2 as ->; vm_compute in Hk; discriminate|].
  destruct (k =? "authorization")%string eqn:E3; [apply String.eqb_eq in E3 as ->; vm_compute in Hk; discriminate|].
  destruct (startsWith k "x-ps-auth-") eqn:E4; [|done]. exfalso.
  apply String.prefix_correct in Hk, E4. destruct k as [|a [|b [|c k]]]; try discriminate.
  cbn in Hk, E4. congruence.
Qed.

Lemma rebuilt_cases identity headers :
  rebuilt_headers identity headers = identity_headers identity headers \/
  exists v, rebuilt_headers identity headers = obj_put (identity_headers identity headers) "authorization" v /\
    KeyGiven (id_config identity) headers v.
Proof.
  unfold rebuilt_headers. fold (identity_headers identity headers). cbv zeta.
  rewrite own_portkey by reflexivity.
  destruct (own headers "x-portkey-provider") as [asked|] eqn:Ea; [|by left]. cbn [fmap option_fmap option_map].
  unfold compose. destruct (truthy_string (toLowerCase (trim asked))); [|by left].
  destruct (own (oc_providerKeys (id_config identity)) _) as [key|] eqn:Ek; [|by left].
  destruct (truthy_string key && gatewayKeyAllowed (identity_headers identity headers)) eqn:Eg; [|by left].
  apply andb_true_iff in Eg as [_ Hg]. destruct (gatewayKeyAllowed_inv _ Hg) as (Hc & Hh & Hp).
  rewrite own_portkey in Hc, Hh by reflexivity.
  right. exists ("Bearer " +:+ key). split; [done|]. constructor; [by exists asked, key|done|done|].
  intros k x Hk Hpre. apply Hp; [|done]. apply own_In. by rewrite own_portkey.
Qed.

(** The headers of a rebuilt request, name by name. *)
Lemma own_rebuilt identity headers k : k <> "authorization" ->
  own (rebuilt_headers identity headers) k =
  if (k =? GROUP_HEADER)%string then pg_name <$> id_group identity
  else if (k =? SUBJECT_HEADER)%string then Some (id_subjectHash identity)
  else if startsWith k "x-ps-auth-" then None else own headers k.
Proof.
  intros Hk. transitivity (own (identity_headers identity headers) k).
  - destruct (rebuilt_cases identity headers) as [->|(v & -> & _)]; [done|].
    rewrite own_put. by apply String.eqb_neq in Hk as ->.
  - rewrite own_identity_headers. by apply String.eqb_neq in Hk as ->.
Qed.

Lemma rebuilt_authorization identity headers v :
  own (rebuilt_headers identity headers) "authorization" = Some v -> KeyGiven (id_config identity) headers v.
Proof.
  destruct (rebuilt_cases identity headers) as [->|(x & -> & HK)].
  - by rewrite own_identity_headers.
  - rewrite own_put. cbn. by intros [= <-].
Qed.

(** ** The requests that are passed on *)

Section Authenticated.
Variable parse_url : string -> option URL.
Variable env : Env.
(** What the servers of the identity provider ever answered. *)
Variable answers : string -> Answer -> Prop.
Variable decodeProtectedHeader : string -> option json.
Variable jwtVerify : KeySet -> string -> OidcConfig -> result JoseError json.
Variable to_text : any -> string.
Variable subjectHash : OidcConfig -> string -> string.
Variable constructConfigFromRequestHeaders : obj string -> option Options.

(** A request, with the policy of the collector when it comes and what the other
    requests do to the sources while it waits. *)
Record Turn := mkTurn {
  tn_time : Z;
  tn_request : Request;
  tn_policy : option OidcPolicy;
  tn_settled : OidcConfig -> JwksSource -> JwksSource
}.

(** The others refresh the source and end downloads, with answers of the servers. *)
Definition turn_ok (n : Turn) : Prop := forall config s, exists ops,
  Forall (honest_op answers) ops /\
  tn_settled n config s = foldl (step parse_url env (oc_issuer config) (oc_jwksUrl config)) s ops.

Definition handle (settings : OidcSettings) (n : Turn) (w : World) : Outcome * World :=
  psOidc decodeProtectedHeader jwtVerify (tn_settled n) to_text subjectHash constructConfigFromRequestHeaders
    (tn_policy n) settings (tn_time n) (tn_request n) w.

(** A process serves requests from its start. *)
Definition serve (settings : OidcSettings) (history : list Turn) : World :=
  foldl (fun w n => (handle settings n w).2) (mkWorld [] []) history.

(** A token that was verified with keys published by the issuer of a configuration. *)
Definition accepted (config : OidcConfig) (token : string) (payload : json) : Prop :=
  accepted_by parse_url env answers (oc_issuer config) (oc_jwksUrl config) decodeProtectedHeader jwtVerify
    token config payload.

#[local] Abbreviation SourceOf' config :=
  (SourceOf parse_url env answers (oc_issuer config) (oc_jwksUrl config)).

(** The source a process keeps for a configuration is one of its issuer. *)
Definition sources_ok (config : OidcConfig) (sources : obj JwksSource) : Prop :=
  forall s, own sources (source_key config) = Some s -> SourceOf' config s.

Lemma jwksSourceFor_ok config sources s sources' :
  sources_ok config sources -> jwksSourceFor config sources = (s, sources') -> SourceOf' config s.
Proof.
  unfold jwksSourceFor. intros H. destruct (own sources (source_key config)) as [s1|] eqn:E; intros [= <- <-].
  - by apply H.
  - apply new_source_of.
Qed.

Lemma verify_request_ok n config token sources v sources' :
  turn_ok n -> sources_ok config sources ->
  verify_request decodeProtectedHeader jwtVerify (tn_settled n) (tn_time n) token config sources = (v, sources') ->
  sources_ok config sources' /\ forall payload, v = Ok payload -> accepted config token payload.
Proof.
  intros Hn H. unfold verify_request.
  destruct (checked_header decodeProtectedHeader token config) as [[]|e] eqn:Ec; [|by intros [= <- <-]].
  destruct (jwksSourceFor config sources) as [s sources1] eqn:Es.
  pose proof (jwksSourceFor_ok _ _ _ _ H Es) as Hs.
  destruct (verify_with_keys jwtVerify (tn_settled n config) (tn_time n) token config s) as [r s1] eqn:Ev.
  destruct (verify_with_keys_of parse_url env answers _ _ jwtVerify _ (Hn config) _ _ _ _ _ _ Hs Ev) as [Hs1 Hp].
  intros [= <- <-]. split.
  - intros s2. rewrite own_put, String.eqb_refl. by intros [= <-].
  - intros payload ->. destruct (checked_header_ok _ _ _ Ec) as [Hw Ha]. split; [done|]. split; [done|]. by apply Hp.
Qed.

(** The group the policy gives a token: a match, or none under a policy that allows. *)
Definition admitted (centralPolicy : option OidcPolicy) (config : OidcConfig) (payload : json)
    (group : option PolicyGroup) : Prop :=
  match policy_in_force centralPolicy config with
  | None => group = None
  | Some policy =>
      group = matchGroup policy (groupsFromClaims payload (oc_groupsClaim config)) /\
      (group = None -> op_defaultAction policy = allow)
  end.

Lemma group_of_ok centralPolicy config payload group :
  group_of centralPolicy config payload = Ok group -> admitted centralPolicy config payload group.
Proof.
  unfold group_of, admitted. destruct (policy_in_force centralPolicy config) as [policy|]; [|by intros [= <-]].
  destruct (matchGroup _ _) as [g|]; [by intros [= <-]|].
  destruct (op_defaultAction policy) eqn:E; [done|]. by intros [= <-].
Qed.

(** What a forwarded request went through. *)
Record Authenticated (settings : OidcSettings) (n : Turn) (w : World)
    (headers : obj string) (identity : OidcIdentity) : Prop := {
  au_settings : settings = Enabled (id_config identity);
  au_path : isProtectedPath (rq_path (tn_request n)) = true;
  au_token : exists token payload,
    bearerToken (own (rq_headers (tn_request n)) "authorization") = Some token /\
    accepted (id_config identity) token payload /\
    id_subject identity = to_text (prop (Some payload) "sub") /\
    admitted (tn_policy n) (id_config identity) payload (id_group identity);
  au_hash : id_subjectHash identity = subjectHash (id_config identity) (id_subject identity);
  au_realtime : rq_path (tn_request n) = "/v1/realtime" ->
    realtime_denied constructConfigFromRequestHeaders (id_group identity) (tn_request n) = None;
  au_limit : forall g, id_group identity = Some g ->
    (takeRateLimit (tn_time n) g (id_subjectHash identity) (w_buckets w)).1 = None;
  au_headers : headers = rebuilt_headers identity (rq_headers (tn_request n))
}.

(** What a request that is passed on went through, and the sources after a request. *)
Definition handled_well (settings : OidcSettings) (n : Turn) (w : World) (o : Outcome) : Prop :=
  match o with
  | Untouched => settings = Disabled \/ isProtectedPath (rq_path (tn_request n)) = false
  | Forwarded headers identity => Authenticated settings n w headers identity
  | _ => True
  end.

Definition world_ok (settings : OidcSettings) (w : World) : Prop :=
  forall config, settings = Enabled config -> sources_ok config (w_sources w).

Lemma handle_ok settings n w o w' :
  turn_ok n -> world_ok settings w -> handle settings n w = (o, w') ->
  world_ok settings w' /\ handled_well settings n w o.
Proof.
  intros Hn Hw. unfold handle, psOidc.
  destruct settings as [|config|e]; [by intros [= <- <-]; split; [|left]| |];
    (destruct (isProtectedPath (rq_path (tn_request n))) eqn:Ep; [|by intros [= <- <-]; split; [|right]]); cbn [negb];
    [|by intros [= <- <-]].
  destruct (bearerToken _) as [token|] eqn:Et; [|by intros [= <- <-]].
  destruct (verify_request _ _ _ _ _ _ _) as [v sources] eqn:Ev.
  destruct (verify_request_ok _ _ _ _ _ _ Hn (Hw config eq_refl) Ev) as [Hs Hacc].
  assert (Hs' : forall b, world_ok (Enabled config) (mkWorld sources b)) by (intros b c [= <-]; exact Hs).
  destruct v as [payload|reason]; [|by destruct reason; intros [= <- <-]; split].
  destruct (group_of (tn_policy n) config payload) as [group|o'] eqn:Eg; cycle 1.
  { intros [= <- <-]. split; [done|]. unfold group_of in Eg.
    destruct (policy_in_force (tn_policy n) config) as [policy|]; [|done].
    destruct (matchGroup _ _); [done|]. destruct (op_defaultAction policy); [|done].
    by injection Eg as <-. }
  set (subject := to_text (prop (Some payload) "sub")).
  set (identity := mkIdentity (subjectHash config subject) subject group config).
  destruct (if (rq_path (tn_request n) =? "/v1/realtime")%string then _ else None)
    as [[reason model]|] eqn:Er; [by intros [= <- <-]|].
  assert (Hau : (forall g, group = Some g ->
      (takeRateLimit (tn_time n) g (id_subjectHash identity) (w_buckets w)).1 = None) ->
    Authenticated (Enabled config) n w (rebuilt_headers identity (rq_headers (tn_request n))) identity).
  { intros Hl. constructor; try done.
    - exists token, payload. split_and!; [done|by apply Hacc|done|by apply group_of_ok].
    - intros Hp. by rewrite Hp in Er. }
  destruct group as [g|]; [|intros [= <- <-]; split; [done|by apply Hau]].
  cbn [w_buckets w_sources]. destruct (takeRateLimit _ g _ (w_buckets w)) as [retryAfter buckets] eqn:El.
  destruct retryAfter as [x|]; intros [= <- <-]; [done|]. split; [done|]. apply Hau.
  intros g' [= <-]. by rewrite El.
Qed.

Lemma serve_ok settings history : Forall turn_ok history -> world_ok settings (serve settings history).
Proof.
  intros H. unfold serve. assert (H0 : world_ok settings (mkWorld [] [])) by done. revert H0.
  generalize (mkWorld [] []). induction H as [|n history Hn _ IH]; intros w Hw; cbn [foldl]; [done|].
  apply IH. destruct (handle settings n w) as [o w'] eqn:E. by apply (handle_ok _ _ _ _ _ Hn Hw E).
Qed.

(** [C3] Whatever requests a process served before, with authentication on a request to
    a protected path is only passed on when its bearer token names an allowed algorithm
    and was verified with keys that were published at the configured address, or at the
    one the discovery document of the configured issuer names; the policy in force has
    a group for it or allows users without one, the group's rate limit has room, and a
    realtime call may reach its target; and it is passed on as the rebuilt request. *)
Theorem passed_requests_are_authenticated settings history n o w' :
  Forall turn_ok history -> turn_ok n ->
  handle settings n (serve settings history) = (o, w') ->
  match o with
  | Untouched => settings = Disabled \/ isProtectedPath (rq_path (tn_request n)) = false
  | Forwarded headers identity => Authenticated settings n (serve settings history) headers identity
  | _ => True
  end.
Proof. intros Hh Hn E. by apply (handle_ok _ _ _ _ _ Hn (serve_ok settings history Hh) E). Qed.

(** [C9] A request that is passed on carries the identity of its verified token and not
    the token: [x-ps-auth-subject] is the pseudonym of the token's subject,
    [x-ps-auth-group] the name of the group its claims are admitted with, and no other
    [x-ps-auth-] header is left; [authorization] is gone, or is the key the gateway
    keeps for the provider the client names, which is only given when no header of the
    client can move the upstream host.  Every other header is the client's own. *)
Theorem idp_token_stays settings history n headers identity w' :
  Forall turn_ok history -> turn_ok n ->
  handle settings n (serve settings history) = (Forwarded headers identity, w') ->
  exists config token payload group,
    settings = Enabled config /\
    bearerToken (own (rq_headers (tn_request n)) "authorization") = Some token /\
    accepted config token payload /\ admitted (tn_policy n) config payload group /\
    (forall v, own headers "authorization" = Some v -> KeyGiven config (rq_headers (tn_request n)) v) /\
    forall k, k <> "authorization" ->
      own headers k =
      if (k =? GROUP_HEADER)%string then pg_name <$> group
      else if (k =? SUBJECT_HEADER)%string then Some (subjectHash config (to_text (prop (Some payload) "sub")))
      else if startsWith k "x-ps-auth-" then None else own (rq_headers (tn_request n)) k.
Proof.
  intros Hh Hn E.
  destruct (handle_ok _ _ _ _ _ Hn (serve_ok settings history Hh) E) as [_ Ha]. cbn [handled_well] in Ha.
  destruct Ha as [Hs _ (token & payload & Ht & Hacc & Hsub & Hg) Hhash _ _ ->].
  exists (id_config identity), token, payload, (id_group identity). split_and!; [done..|apply rebuilt_authorization|].
  intros k Hk. rewrite <- Hsub, <- Hhash. by apply own_rebuilt.
Qed.

End Authenticated.

Module Samples.

Definition sample_config : OidcConfig :=
  mkOidcConfig "https://idp.example.com" ["a"] None ["ES256"] (num_of_Z 60) "groups" None mode_hash None
    [("openai", "sk-gateway")].

Definition discovery_url : string := "https://idp.example.com/.well-known/openid-configuration".
Definition keys_url : string := "https://keys.example.com/jwks".

Definition sample_parse (raw : string) : option URL :=
  own [(discovery_url, mkURL "https:" "" "" "idp.example.com" ""); (keys_url, mkURL "https:" "" "" "keys.example.com" "")] raw.
Definition sample_env : Env := fun _ => None.

Definition answer (d : json) : Answer := mkAnswer true None 100 (Some d) None.
Definition ec_key : json := JObj [("kty", JStr "EC")].

(** The identity provider of the sample: its discovery document and its keys. *)
Definition sample_fetch (url : string) : option Answer :=
  own [(discovery_url, answer (JObj [("issuer", JStr "https://idp.example.com"); ("jwks_uri", JStr keys_url)]));
       (keys_url, answer (JObj [("keys", JArr [ec_key; JObj [("kty", JStr "oct")]])]))] url.
Definition sample_answers (url : string) (a : Answer) : Prop := sample_fetch url = Some a.

Definition sample_header (token : string) : option json := Some (JObj [("alg", JStr "ES256")]).

(** Tokens are verified with the one key of the sample. *)
Definition sample_verify (ks : KeySet) (token : string) (config : OidcConfig) : result JoseError json :=
  if (token =? "a.b.c")%string && bool_decide (length (ks_keys ks) = 1%nat) then Ok (JObj [("sub", JStr "u")])
  else Throw (mkJoseError "ERR_JWS_SIGNATURE_VERIFICATION_FAILED" "").
Definition sample_text (v : any) : string := match v with Some (JStr s) => s | _ => "undefined" end.
Definition sample_hash (config : OidcConfig) (sub : string) : string := "h:" +:+ sub.

Definition request (authorization : string) (extra : obj string) : Request :=
  mkRequest "/v1/chat/completions"
    ([("authorization", authorization); ("x-portkey-provider", "OpenAI"); ("x-ps-auth-subject", "someone")] ++ extra)
    None.

(** While a request waits for a refresh, the download ends. *)
Definition download_ends (config : OidcConfig) (s : JwksSource) : JwksSource :=
  foldl (step sample_parse sample_env (oc_issuer config) (oc_jwksUrl config)) s [Finish 5 sample_fetch].

Definition turn (r : Request) : Turn := mkTurn 5 r None download_ends.

#[local] Abbreviation handle' := (handle sample_header sample_verify sample_text sample_hash (fun _ => None)).
#[local] Abbreviation serve' := (serve sample_header sample_verify sample_text sample_hash (fun _ => None)).

(** A first request is refused; its keys are there for the next. *)
Definition before : list Turn := [turn (request "Bearer x.y.z" [])].

Definition handled (r : Request) : Outcome * World :=
  handle' (Enabled sample_config) (turn r) (serve' (Enabled sample_config) before).

Definition headers_of (o : Outcome) : option (obj string) :=
  match o with Forwarded h _ => Some h | _ => None end.

Example user_gets_the_gateway_key :
  headers_of (handled (request "bearer  a.b.c " [])).1 =
  Some [("x-portkey-provider", "OpenAI"); ("x-ps-auth-subject", "h:u"); ("authorization", "Bearer sk-gateway")].
Proof. vm_compute. reflexivity. Qed.

Example url_header_gets_no_key :
  headers_of (handled (request "Bearer a.b.c" [("x-portkey-azure-foundry-url", "https://evil.example")])).1 =
  Some [("x-portkey-provider", "OpenAI"); ("x-portkey-azure-foundry-url", "https://evil.example");
        ("x-ps-auth-subject", "h:u")].
Proof. vm_compute. reflexivity. Qed.

Example unauthenticated_answers :
  map (fun a => status (handled (request a [])).1) ["Basic x"; "Bearer a b"; "Bearer x.y.z"; "Bearer xyz"] =
  [Some 401; Some 401; Some 401; Some 401].
Proof. vm_compute. reflexivity. Qed.

Lemma turns_ok r : turn_ok sample_parse sample_env sample_answers (turn r).
Proof.
  intros config s. exists [Finish 5 sample_fetch]. split; [|done].
  apply Forall_cons. split; [by intros url a|apply Forall_nil_2].
Qed.

Lemma passed_requests_are_authenticated_witness :
  exists headers identity, (handled (request "Bearer a.b.c" [])).1 = Forwarded headers identity /\
    id_subject identity = "u" /\
    exists ks, Published sample_parse sample_env sample_answers "https://idp.example.com" None ks /\ length ks = 1%nat.
Proof.
  destruct (handled (request "Bearer a.b.c" [])) as [o w'] eqn:E.
  assert (Hf : match o with Forwarded _ i => id_subject i = "u" /\ id_config i = sample_config | _ => False end).
  { replace o with (handled (request "Bearer a.b.c" [])).1 by (by rewrite E). by vm_compute. }
  pose proof (passed_requests_are_authenticated sample_parse sample_env sample_answers sample_header sample_verify
    sample_text sample_hash (fun _ => None) (Enabled sample_config) before (turn (request "Bearer a.b.c" [])) o w') as H.
  destruct o as [| | | | | | |headers identity]; try done. exists headers, identity. split; [done|].
  destruct Hf as [Hu Hc]. split; [done|].
  assert (Ha : Authenticated sample_parse sample_env sample_answers sample_header sample_verify sample_text sample_hash
    (fun _ => None) (Enabled sample_config) (turn (request "Bearer a.b.c" [])) (serve' (Enabled sample_config) before)
    headers identity).
  { apply H; [|apply turns_ok|exact E]. apply Forall_cons. split; [apply turns_ok|apply Forall_nil_2]. }
  destruct (au_token _ _ _ _ _ _ _ _ _ _ _ _ _ Ha) as (token & payload & _ & (_ & _ & ks & Hv & Hp) & _).
  rewrite Hc in Hv, Hp. exists (ks_keys ks). split; [exact Hp|].
  unfold sample_verify in Hv. destruct (token =? "a.b.c")%string; [|done]. by case_bool_decide.
Defined.

Lemma idp_token_stays_witness :
  exists headers identity, (handled (request "Bearer a.b.c" [])).1 = Forwarded headers identity /\
    own headers SUBJECT_HEADER = Some "h:u" /\ KeyGiven sample_config (rq_headers (request "Bearer a.b.c" [])) "Bearer sk-gateway".
Proof.
  destruct (handled (request "Bearer a.b.c" [])) as [o w'] eqn:E.
  assert (Hf : match o with Forwarded h _ => own h "authorization" = Some "Bearer sk-gateway" | _ => False end).
  { replace o with (handled (request "Bearer a.b.c" [])).1 by (by rewrite E). by vm_compute. }
  destruct o as [| | | | | | |headers identity]; try done.
  destruct (idp_token_stays sample_parse sample_env sample_answers sample_header sample_verify
    sample_text sample_hash (fun _ => None) (Enabled sample_config) before (turn (request "Bearer a.b.c" []))
    headers identity w') as (config & token & payload & group & Hs & Ht & (_ & _ & ks & Hv & _) & _ & Hauth & Hown);
    [|apply turns_ok|exact E|].
  { apply Forall_cons. split; [apply turns_ok|apply Forall_nil_2]. }
  injection Hs as <-. exists headers, identity. split; [done|]. split; [|by apply Hauth].
  rewrite Hown by done. unfold sample_verify in Hv. destruct (_ && _); [|done]. by injection Hv as <-.
Defined.
End Samples.
