(* ===== verification/PolicyPull.v ===== *)
(** * Pulling the central policy

    Models [src/gateway/src/middlewares/policyPull/puller.ts]: the settings of the
    pull with the transport it may use, and [pullOnce] with its state (the policy in
    force, what is failing, the last bundle that was refused) and the lines it logs.

    The network is a parameter: each pull has an answer ([Reply]).  [new URL],
    [JSON.parse] and [isSafeUpstreamURL] are parameters; the length of a text is in
    code units.  Timers only decide when a pull happens, and [pull] shares one that
    is running, so a puller is a sequence of pulls.

    [last_good_policy_stays]: the policy in force is always that of the last bundle
    that parsed, and is well formed.  [skipping_refused_bundles_is_sound]: not parsing
    again a bundle that was refused changes nothing, when a collector gives one text
    per ETag.  [pull_never_sends_key_in_clear]: the hosts the key goes to. *)

From Stdlib Require Import ZArith Lia ZifyBool Ascii Floats.SpecFloat.
From stdpp Require Import base strings option list.
From S2P Require Import Prelude JsValue JsText RoutePolicy PolicyDoc GroupPolicy AccessPolicy PolicyBundle UrlGuard.
From S2P Require Import OidcConfig.

#[local] Open Scope string_scope.
#[local] Open Scope list_scope.
#[local] Arguments num_of_Z : simpl never.

Definition DEFAULT_INTERVAL_SECONDS : num := num_of_Z 30.
Definition MIN_INTERVAL_SECONDS : num := num_of_Z 5.
Definition MAX_INTERVAL_SECONDS : num := num_of_Z 86400.
Definition MAX_BUNDLE_BYTES : nat := Z.to_nat (8 * 1024 * 1024).

(** ** Settings *)

Inductive PolicyPullConfigError :=
| bad_collector_url
| bad_protocol (p : string)
| needs_https (hostname : string)
| needs_key
| bad_interval.

Record PolicyPullConfig := mkPullConfig {
  pp_url : string;
  pp_apiKey : string;
  pp_intervalMs : num
}.

Definition IN_CLUSTER_SUFFIXES : list string := [".svc"; ".svc.cluster.local"; ".cluster.local"].

(** [s.replace(/\.$/, '')] *)
Definition drop_dot (s : string) : string :=
  match srev s with String c r => if (code c =? 46)%N then srev r else s | EmptyString => s end.

(** [/^127\.\d+\.\d+\.\d+$/] *)
Definition is_127 (host : string) : bool :=
  match split_dot host with
  | [a; b; c; d] =>
      (a =? "127")%string &&
      forallb (fun p => truthy_string p && sforallb is_digit p) [b; c; d]
  | _ => false
  end.

Definition digits_or_dots (host : string) : bool :=
  truthy_string host && sforallb (fun c => is_digit c || (code c =? 46)%N) host.

Definition bare_host (hostname : string) : string := drop_dot (bare (toLowerCase hostname)).

Definition isPlainHttpHostAllowed (hostname : string) : bool :=
  let host := bare_host hostname in
  if (host =? "localhost")%string || (host =? "::1")%string || is_127 host then true
  else if digits_or_dots host || includes host ":" then false
  else if negb (includes host ".") then true
  else existsb (endsWith host) IN_CLUSTER_SUFFIXES.

(** [Math.round(x)] of a number that is not negative. *)
Definition nround (x : num) : num :=
  let f := nfloor x in if nltb (nsub x f) (num_of_Q 1 2) then f else nadd f (num_of_Z 1).

Section Settings.
Variable parse_url : string -> option URL.
Variable env : string -> option string.

Definition checkTransport (base : string) (allowHttp : bool) : result PolicyPullConfigError unit :=
  let* url := required (parse_url base) bad_collector_url in
  if (protocol url =? "https:")%string then Ok tt
  else
    check (protocol url =? "http:")%string else bad_protocol (protocol url) in
    check allowHttp || isPlainHttpHostAllowed (hostname url) else needs_https (hostname url) in
    Ok tt.

(** [a || b] *)
Definition or_text (a b : option string) : option string := if truthy_opt a then a else b.

(** [undefined] when the pull is off. *)
Definition policyPullConfig : result PolicyPullConfigError (option PolicyPullConfig) :=
  if negb (isTrue (env "PS_POLICY_PULL_ENABLED")) then Ok None else
  let apiKey := trim (default "" (or_text (env "PS_POLICY_PULL_API_KEY") (env "PS_API_KEY"))) in
  check truthy_string apiKey else needs_key in
  let* seconds :=
    match given (env "PS_POLICY_PULL_INTERVAL_SECONDS") with
    | Some raw =>
        let n := to_number raw in
        check is_finite_num n && negb (nltb n MIN_INTERVAL_SECONDS) && negb (nltb MAX_INTERVAL_SECONDS n)
        else bad_interval in Ok n
    | None => Ok DEFAULT_INTERVAL_SECONDS
    end in
  let base := srev (drop_while (fun c => (code c =? 47)%N)
                (srev (default "http://localhost:8000" (or_text (env "PS_COLLECTOR_URL") None)))) in
  let* _ := checkTransport base (isTrue (env "PS_POLICY_PULL_ALLOW_HTTP")) in
  Ok (Some (mkPullConfig (base +:+ "/api/v1/policy/effective") apiKey
              (nround (nmul seconds (num_of_Z 1000))))).
End Settings.

(** ** One pull *)

Inductive PullOutcome := updated | unchanged | unreachable | rejected | refused.

Inductive PullError :=
| bundle_too_large
| bundle_not_json
| bundle_invalid (e : BundleError).

(** What the collector answers: a failed request with its reason, or a response. *)
Inductive Reply :=
| Failed (reason : string)
| Answered (status : Z) (etag : option string) (text : string).

(** The lines of the log; [keeping]: there is a policy to keep. *)
Inductive LogLine :=
| pull_failed (reason : string) (keeping : bool)
| pull_recovered
| bundle_refused (e : PullError) (keeping : bool)
| policy_applied
| access_needs_oidc.

Record Puller := mkPuller {
  central : option CentralPolicy;
  failing : option string;
  rejectedEtag : option string;
  warnedAccess : bool;
  log : list LogLine
}.

Definition new_puller (c : option CentralPolicy) : Puller := mkPuller c None None false [].

Definition has_policy (p : Puller) : bool := match central p with Some _ => true | None => false end.

Section Pull.
Variable JSON_parse : string -> option json.
(** [isSafeUpstreamURL(config.url)] when the pull is made. *)
Variable safe : bool.
Variable oidcEnabled : option bool.

Definition REFUSED_REASON : string := "the collector URL is not an allowed egress target; list private or loopback hosts in TRUSTED_CUSTOM_HOSTS".

Definition fail (outcome : PullOutcome) (reason : string) (p : Puller) : PullOutcome * Puller :=
  (outcome,
   if bool_decide (failing p = Some reason) then p
   else mkPuller (central p) (Some reason) (rejectedEtag p) (warnedAccess p)
          (log p ++ [pull_failed reason (has_policy p)])).

(** The bundle of a text. *)
Definition read_bundle (text : string) (etag : option string) : result PullError CentralPolicy :=
  check (String.length text <=? MAX_BUNDLE_BYTES)%nat else bundle_too_large in
  let* v := required (JSON_parse text) bundle_not_json in
  match parsePolicyBundle (Some v) etag with Ok c => Ok c | Throw e => Throw (bundle_invalid e) end.

Definition is_ok_status (status : Z) : bool := (200 <=? status)%Z && (status <=? 299)%Z.

Definition status_reason (number_text : Z -> string) (status : Z) : string := "HTTP " +:+ number_text status.

Variable number_text : Z -> string.

Definition apply_policy (next : CentralPolicy) (p : Puller) : Puller :=
  let warn := match cp_access next with Some _ => true | None => false end &&
              bool_decide (oidcEnabled = Some false) && negb (warnedAccess p) in
  mkPuller (Some next) None None (warn || warnedAccess p)
    (log p ++ policy_applied :: if warn then [access_needs_oidc] else []).

Definition pullOnce (reply : Reply) (p : Puller) : PullOutcome * Puller :=
  if negb safe then fail refused REFUSED_REASON p else
  match reply with
  | Failed reason => fail unreachable reason p
  | Answered status etag text =>
      if (status =? 304)%Z then
        (unchanged,
         mkPuller (central p) None (rejectedEtag p) (warnedAccess p)
           (log p ++ if truthy_opt (failing p) then [pull_recovered] else []))
      else if negb (is_ok_status status) then fail unreachable (status_reason number_text status) p
      else if truthy_opt etag && bool_decide (etag = rejectedEtag p) then (rejected, p)
      else
        match read_bundle text etag with
        | Throw e =>
            (rejected,
             mkPuller (central p) None etag (warnedAccess p) (log p ++ [bundle_refused e (has_policy p)]))
        | Ok next => (updated, apply_policy next p)
        end
  end.
End Pull.

(** ** The settings that are accepted *)

(** The key is only sent over https, to a loopback or in-cluster host, or where
    the operator said so; and the interval is from 5 seconds to a day. *)
Lemma pull_never_sends_key_in_clear parse_url env c :
  policyPullConfig parse_url env = Ok (Some c) ->
  truthy_string (pp_apiKey c) = true /\
  (exists base u, pp_url c = base +:+ "/api/v1/policy/effective" /\ parse_url base = Some u /\
     (protocol u = "https:" \/
      protocol u = "http:" /\
      (isTrue (env "PS_POLICY_PULL_ALLOW_HTTP") = true \/ isPlainHttpHostAllowed (hostname u) = true))) /\
  exists seconds, pp_intervalMs c = nround (nmul seconds (num_of_Z 1000)) /\
    nltb seconds MIN_INTERVAL_SECONDS = false /\ nltb MAX_INTERVAL_SECONDS seconds = false.
Proof.
  unfold policyPullConfig. destruct (isTrue (env "PS_POLICY_PULL_ENABLED")); [|done]. cbn [negb].
  destruct (truthy_string (trim _)) eqn:Ek; [|done].
  set (interval := match given _ with Some _ => _ | None => _ end).
  destruct interval as [seconds|] eqn:Ei; [|done]. set (base := srev _).
  destruct (checkTransport _ _ _) eqn:Et; [|done]. intros [= <-]. cbn.
  split; [done|]. split.
  - exists base. unfold checkTransport in Et. destruct (parse_url base) as [u|]; [|done]. cbn [required] in Et.
    exists u. split; [done|]. split; [done|].
    destruct (protocol u =? "https:")%string eqn:Ep; [left; by apply String.eqb_eq|].
    destruct (protocol u =? "http:")%string eqn:Eh; [|done].
    destruct (isTrue _ || _) eqn:Ea; [|done]. right. split; [by apply String.eqb_eq|].
    by apply orb_true_iff.
  - exists seconds. split; [done|]. subst interval. destruct (given _) as [raw|].
    + destruct (_ && _) eqn:E; [|done]. injection Ei as <-. by split_bool.
    + injection Ei as <-. vm_compute. done.
Qed.

(** ** Sequences of pulls *)

Section Pulls.
Variable JSON_parse : string -> option json.
Variable oidcEnabled : option bool.
Variable number_text : Z -> string.

(** A pull: whether the URL may be called then, and the answer. *)
Definition Pull : Type := bool * Reply.

Definition pull (p : Puller) (x : Pull) : Puller := (pullOnce JSON_parse x.1 oidcEnabled number_text x.2 p).2.

Definition outcome (p : Puller) (x : Pull) : PullOutcome :=
  (pullOnce JSON_parse x.1 oidcEnabled number_text x.2 p).1.

(** The text of an answer that holds a bundle. *)
Definition bundle_text (x : Pull) : option (option string * string) :=
  match x with
  | (true, Answered status etag text) =>
      if negb (status =? 304)%Z && is_ok_status status then Some (etag, text) else None
  | _ => None
  end.

(** The policy an answer brings, on its own. *)
Definition brings (x : Pull) : option CentralPolicy :=
  match bundle_text x with
  | Some (etag, text) => match read_bundle JSON_parse text etag with Ok c => Some c | Throw _ => None end
  | None => None
  end.

(** The reference: the policy of the last bundle that parses. *)
Definition last_good (c : option CentralPolicy) (pulls : list Pull) : option CentralPolicy :=
  foldl (fun c x => match brings x with Some n => Some n | None => c end) c pulls.

Definition well_formed (c : CentralPolicy) : Prop :=
  (forall r, cp_route c = Some r -> policy_ok r) /\ (forall a, cp_access c = Some a -> ValidPolicy a).

Lemma brings_well_formed x c : brings x = Some c -> well_formed c.
Proof.
  unfold brings. destruct (bundle_text x) as [[etag text]|]; [|done].
  unfold read_bundle. destruct (_ <=? _)%nat; [|done]. destruct (required _ _) as [v|]; [|done].
  destruct (parsePolicyBundle (Some v) etag) as [n|] eqn:E; [|done]. intros [= <-].
  destruct (bundle_all_or_nothing _ _ _ E) as (Hr & Ha & _). split; [|done].
  intros r H. by apply Hr.
Qed.

(** What one pull does to the policy in force and to the refused ETag. *)
Lemma pull_cases p x :
  match bundle_text x with
  | Some (etag, text) =>
      if truthy_opt etag && bool_decide (etag = rejectedEtag p) then pull p x = p /\ outcome p x = rejected
      else match read_bundle JSON_parse text etag with
           | Ok c => central (pull p x) = Some c /\ rejectedEtag (pull p x) = None /\ outcome p x = updated
           | Throw _ => central (pull p x) = central p /\ rejectedEtag (pull p x) = etag /\ outcome p x = rejected
           end
  | None => central (pull p x) = central p /\ rejectedEtag (pull p x) = rejectedEtag p /\ outcome p x <> updated
  end.
Proof.
  unfold pull, outcome, pullOnce, bundle_text.
  assert (Hfail : forall o r, o <> updated -> central (fail o r p).2 = central p /\
    rejectedEtag (fail o r p).2 = rejectedEtag p /\ (fail o r p).1 <> updated).
  { intros o r Ho. unfold fail. cbn. by case_bool_decide. }
  destruct x as [[] [reason|status etag text]]; cbn [fst snd negb]; try (by apply Hfail).
  destruct (status =? 304)%Z; cbn [negb andb fst snd]; [done|].
  destruct (is_ok_status status); cbn [negb andb]; [|by apply Hfail].
  destruct (truthy_opt etag && bool_decide (etag = rejectedEtag p)); [done|].
  by destruct (read_bundle JSON_parse text etag).
Qed.

Lemma pull_central p x :
  central (pull p x) = central p \/ exists c, brings x = Some c /\ central (pull p x) = Some c.
Proof.
  pose proof (pull_cases p x) as H. unfold brings. destruct (bundle_text x) as [[etag text]|].
  - destruct (truthy_opt etag && _); [left; by destruct H as [-> _]|].
    destruct (read_bundle JSON_parse text etag) as [c|]; [right; by exists c; destruct H|left; by destruct H].
  - left. by destruct H.
Qed.

Lemma pulls_stay_good l : forall q, (forall c, central q = Some c -> well_formed c) ->
  forall c, central (foldl pull q l) = Some c ->
  well_formed c /\ (central q = Some c \/ exists y, y ∈ l /\ brings y = Some c).
Proof.
  induction l as [|y l IH]; intros q Hq c Hc; [by split; [apply Hq|left]|].
  destruct (IH (pull q y)) with (c := c) as [Hw Hor]; [|done|].
  - intros c' Hc'. destruct (pull_central q y) as [E|(c1 & Hb & E)].
    + apply Hq. by rewrite <- E.
    + rewrite E in Hc'. injection Hc' as <-. by apply (brings_well_formed y).
  - split; [done|]. destruct Hor as [Hor|(z & Hz & Hb)]; [|right; exists z; split; [by right|done]].
    destruct (pull_central q y) as [E|(c1 & Hb & E)]; [left; congruence|].
    right. exists y. split; [by left|]. congruence.
Qed.

Lemma pulls_keep_none l : forall q, central (foldl pull q l) = None -> central q = None.
Proof.
  induction l as [|y l IH]; intros q Hq; [done|]. specialize (IH _ Hq).
  destruct (pull_central q y) as [E|(c1 & _ & E)]; congruence.
Qed.

(** [C32] Whatever the collector answers (nothing, errors, bundles that are not JSON,
    too large or malformed), the policy in force is the one the gateway started with
    or one that was accepted whole, and so is always well formed; a pull changes it
    only when it reports [updated]. *)
Theorem last_good_policy_stays (c0 : option CentralPolicy) (pulls : list Pull) (x : Pull) :
  (forall c, c0 = Some c -> well_formed c) ->
  let p := foldl pull (new_puller c0) pulls in
  (forall c, central p = Some c -> well_formed c /\ (c0 = Some c \/ exists y, y ∈ pulls /\ brings y = Some c)) /\
  (central p = None -> c0 = None) /\
  (outcome p x <> updated -> central (pull p x) = central p).
Proof.
  intros H0 p. split; [|split].
  - apply (pulls_stay_good pulls (new_puller c0) H0).
  - apply (pulls_keep_none pulls (new_puller c0)).
  - intros Ho. pose proof (pull_cases p x) as H. destruct (bundle_text x) as [[etag text]|].
    + destruct (truthy_opt etag && _); [by destruct H as [-> _]|].
      destruct (read_bundle JSON_parse text etag); destruct H as (Hc & _ & Hx); [by destruct Ho|done].
    + by destruct H.
Qed.

(** A collector that gives one text for each ETag. *)
Definition etags_name_texts (pulls : list Pull) : Prop :=
  forall x y e t t', x ∈ pulls -> y ∈ pulls ->
    bundle_text x = Some (Some e, t) -> bundle_text y = Some (Some e, t') -> t = t'.

Section Skipping.
Variable pulls : list Pull.
Hypothesis Hetag : etags_name_texts pulls.

(** The ETag kept is that of a pulled bundle that was refused. *)
Definition refused_before (before : list Pull) (q : Puller) : Prop :=
  forall e, rejectedEtag q = Some e ->
    exists y t err, y ∈ before /\ bundle_text y = Some (Some e, t) /\ read_bundle JSON_parse t (Some e) = Throw err.

Lemma follows_last_good l : forall before q, pulls = before ++ l -> refused_before before q ->
  central (foldl pull q l) = last_good (central q) l.
Proof.
  induction l as [|x l IH]; intros before q Hp Hrej; [done|]. cbn [foldl last_good].
  pose proof (pull_cases q x) as Hx. unfold last_good. cbn [foldl]. unfold brings at 2.
  assert (Hin : x ∈ pulls) by (rewrite Hp; apply elem_of_app; right; by left).
  assert (Hp' : pulls = (before ++ [x]) ++ l) by (by rewrite <- app_assoc).
  assert (Hold : forall q', (rejectedEtag q' = rejectedEtag q) ->
    central (foldl pull q' l) = last_good (central q') l).
  { intros q' Hq'. apply (IH (before ++ [x])); [done|]. intros e He. rewrite Hq' in He.
    destruct (Hrej e He) as (y & t & err & Hy & ?). exists y, t, err. split; [|done].
    apply elem_of_app. by left. }
  destruct (bundle_text x) as [[etag text]|] eqn:Ex; cycle 1.
  { destruct Hx as (Hc & Hr & _). rewrite (Hold _ Hr), Hc. done. }
  destruct (truthy_opt etag && bool_decide (etag = rejectedEtag q)) eqn:Es.
  - destruct Hx as [-> _]. apply andb_true_iff in Es as [Ht Hs]. apply bool_decide_eq_true in Hs.
    destruct etag as [e|]; [|done]. destruct (Hrej e (eq_sym Hs)) as (y & t & err & Hy & Hyt & Herr).
    assert (t = text) as <- by (apply (Hetag y x e); [rewrite Hp; apply elem_of_app; by left|done|done|done]).
    rewrite Herr. by apply Hold.
  - destruct (read_bundle JSON_parse text etag) as [c|err] eqn:Er.
    + destruct Hx as (Hc & Hr & _). rewrite (IH (before ++ [x])), Hc; [done|done|].
      intros e He. by rewrite Hr in He.
    + destruct Hx as (Hc & Hr & _). rewrite (IH (before ++ [x])), Hc; [done|done|].
      intros e He. rewrite Hr in He. rewrite He in Ex, Er. exists x, text, err. split; [|done].
      apply elem_of_app. right. by left.
Qed.
End Skipping.

(** Skipping a bundle that was refused under the same ETag changes nothing: for a
    collector whose ETags name its texts, the policy in force is that of the last
    bundle that parses, as if every bundle were read. *)
Theorem skipping_refused_bundles_is_sound (c0 : option CentralPolicy) (pulls : list Pull) :
  etags_name_texts pulls -> central (foldl pull (new_puller c0) pulls) = last_good c0 pulls.
Proof.
  intros Hetag.
  apply (follows_last_good pulls Hetag pulls [] (new_puller c0)); done.
Qed.
End Pulls.

Module Samples.

Definition sample_parse (s : string) : option json :=
  if (s =? "good")%string
  then Some (JObj [("schema", JStr "ps-policy-bundle.v1");
                   ("tenant", JObj [("version", JStr "7"); ("sections", JObj [])])])
  else if (s =? "bad")%string then Some (JObj []) else None.

Definition sample_number (z : Z) : string := if (z =? 500)%Z then "500" else "?".

Definition pulled (l : list Reply) : Puller :=
  foldl (pull sample_parse None sample_number) (new_puller None) (map (fun r => (true, r)) l).

Example good_then_bad :
  cp_version <$> central (pulled [Answered 200 (Some "e1") "good"; Answered 200 (Some "e2") "bad";
                                  Answered 500 None ""; Failed "timeout"]) = Some (Some "7").
Proof. vm_compute. reflexivity. Qed.

(** A failure is logged once, and so is a bundle that names itself; one without an
    ETag is logged on every pull. *)
Example logged_lines :
  log (pulled [Failed "timeout"; Failed "timeout"; Answered 304 None ""]) =
    [pull_failed "timeout" false; pull_recovered] /\
  log (pulled [Answered 200 (Some "e") "bad"; Answered 200 (Some "e") "bad"]) =
    [bundle_refused (bundle_invalid bad_schema) false] /\
  log (pulled [Answered 200 None "bad"; Answered 200 None "bad"]) =
    [bundle_refused (bundle_invalid bad_schema) false; bundle_refused (bundle_invalid bad_schema) false].
Proof. vm_compute. split_and!; reflexivity. Qed.

Definition sample_pulls : list Pull := [(true, Answered 200 (Some "e1") "good"); (true, Answered 200 (Some "e2") "bad")].

Lemma last_good_policy_stays_witness :
  let p := foldl (pull sample_parse None sample_number) (new_puller None) sample_pulls in
  (cp_version <$> central p = Some (Some "7")) /\
  (forall c, central p = Some c -> well_formed c) /\
  central (pull sample_parse None sample_number p (true, Failed "timeout")) = central p.
Proof.
  destruct (last_good_policy_stays sample_parse None sample_number None sample_pulls (true, Failed "timeout"))
    as (Hgood & _ & Hkept); [intros c Hc; discriminate Hc|].
  split; [vm_compute; reflexivity|]. split.
  - intros c Hc. apply (Hgood c Hc).
  - apply Hkept. vm_compute. discriminate.
Defined.

Lemma skipping_refused_bundles_is_sound_witness :
  central (foldl (pull sample_parse None sample_number) (new_puller None) sample_pulls) =
  last_good sample_parse None sample_pulls.
Proof.
  apply skipping_refused_bundles_is_sound. intros x y e t t' Hx Hy.
  unfold sample_pulls in *. rewrite !elem_of_cons in *. rewrite !elem_of_nil in *.
  destruct Hx as [->|[->|[]]], Hy as [->|[->|[]]]; cbn; congruence.
Defined.
End Samples.
