(* ===== verification/Regex.v ===== *)
(** * Regular expressions

    What the sources use of [RegExp], as lists of successes: [ways r s] lists where a
    match of [r] from the spot [s] may end, in the order in which the backtracking
    matcher of the language tries them, so a match ends at the first one.  A spot
    carries the text before it, reversed, and the text after it; [find] and [matches]
    are [exec] and the loop over [exec] with the flag g.

    Texts are sequences of Latin-1 code units, for which [\p{L}], [\p{N}], [\d] and
    [\s] are written out ([PiiPatterns]).  A body under a quantifier has to consume
    something, as the bodies of every pattern of the sources do ([eager]). *)

From Stdlib Require Import ZArith Lia Ascii.
From stdpp Require Import base strings option sets list.
From S2P Require Import Prelude JsValue.

#[local] Open Scope string_scope.
#[local] Open Scope list_scope.

Record Spot := mkSpot {
  before : string;
  after : string;
  groups : list (nat * string)
}.

(** [p]: a class of characters; [Behind], [Ahead]: assertions, negated or not. *)
Inductive re :=
| Eps
| Chr (p : ascii -> bool)
| Seq (a b : re)
| Alt (a b : re)
| Rep (lazy : bool) (lo : nat) (hi : option nat) (a : re)
| Group (n : nat) (a : re)
| Behind (negated : bool) (p : ascii -> bool)
| Ahead (negated : bool) (a : re).

Definition advance (s : Spot) (c : ascii) (r : string) : Spot := mkSpot (String c (before s)) r (groups s).

(** The text between two spots. *)
Definition between (s e : Spot) : string :=
  String.substring 0 (String.length (after s) - String.length (after e)) (after s).

(** The repetitions of [f]: at least [lo], at most [hi], as many as possible first,
    or as few when [lazy]. *)
Fixpoint iterate (f : Spot -> list Spot) (lazy : bool) (fuel lo : nat) (hi : option nat) (s : Spot) : list Spot :=
  let stop := match lo with O => [s] | S _ => [] end in
  match fuel, hi with
  | O, _ | _, Some O => stop
  | S n, _ =>
      let more := flat_map (iterate f lazy n (Nat.pred lo) (option_map Nat.pred hi)) (f s) in
      if lazy then stop ++ more else more ++ stop
  end.

Definition behind (p : ascii -> bool) (s : Spot) : bool :=
  match before s with String c _ => p c | EmptyString => false end.

Fixpoint ways (r : re) (s : Spot) : list Spot :=
  match r with
  | Eps => [s]
  | Chr p => match after s with String c t => if p c then [advance s c t] else [] | EmptyString => [] end
  | Seq a b => flat_map (ways b) (ways a s)
  | Alt a b => ways a s ++ ways b s
  | Rep lazy lo hi a => iterate (ways a) lazy (String.length (after s)) lo hi s
  | Group n a => map (fun e => mkSpot (before e) (after e) ((n, between s e) :: groups e)) (ways a s)
  | Behind negated p => if xorb negated (behind p s) then [s] else []
  | Ahead negated a =>
      match ways a s with
      | e :: _ => if negated then [] else [mkSpot (before s) (after s) (groups e)]
      | [] => if negated then [s] else []
      end
  end.

(** The match from a spot. *)
Definition match_at (r : re) (b a : string) : option Spot := hd_error (ways r (mkSpot b a [])).

(** The first match at a spot or after it: where it starts and ends. *)
Fixpoint find (r : re) (b a : string) : option (Spot * Spot) :=
  match match_at r b a with
  | Some e => Some (mkSpot b a [], e)
  | None => match a with String c t => find r (String c b) t | EmptyString => None end
  end.

Fixpoint find_all (fuel : nat) (r : re) (b a : string) : list (Spot * Spot) :=
  match fuel with
  | O => []
  | S n =>
      match find r b a with
      | None => []
      | Some (s, e) =>
          (s, e) ::
          if (String.length (after e) <? String.length (after s))%nat then find_all n r (before e) (after e)
          else match after e with String c t => find_all n r (String c (before e)) t | EmptyString => [] end
      end
  end.

Record Match := mkMatch {
  m_index : nat;
  m_text : string;
  m_groups : list (nat * string)
}.

Definition match_of (p : Spot * Spot) : Match :=
  mkMatch (String.length (before p.1)) (between p.1 p.2) (groups p.2).

Definition matches (r : re) (text : string) : list Match :=
  map match_of (find_all (S (String.length text)) r "" text).

(** [r.test(text)] *)
Definition test (r : re) (text : string) : bool :=
  match find r "" text with Some _ => true | None => false end.

(** [m[n]], the empty text when the group took no part. *)
Fixpoint group (n : nat) (g : list (nat * string)) : string :=
  match g with
  | [] => ""
  | (k, v) :: g => if (k =? n)%nat then v else group n g
  end.

Definition m_group (m : Match) (n : nat) : string := group n (m_groups m).

(** The quantified bodies consume something. *)
Fixpoint eats (r : re) : bool :=
  match r with
  | Chr _ => true
  | Seq a b => eats a || eats b
  | Alt a b => eats a && eats b
  | Rep _ lo _ a => negb (lo =? 0)%nat && eats a
  | Group _ a => eats a
  | Eps | Behind _ _ | Ahead _ _ => false
  end.

Fixpoint eager (r : re) : bool :=
  match r with
  | Seq a b | Alt a b => eager a && eager b
  | Rep _ _ _ a => eats a && eager a
  | Group _ a | Ahead _ a => eager a
  | Eps | Chr _ | Behind _ _ => true
  end.

(** A sequence of expressions, and a text. *)
Definition seqs (l : list re) : re := foldr Seq Eps l.
Definition eq_char (c : ascii) (x : ascii) : bool := (code x =? code c)%N.
Fixpoint lit (s : string) : re :=
  match s with EmptyString => Eps | String c r => Seq (Chr (eq_char c)) (lit r) end.

Definition opt (a : re) : re := Rep false 0 (Some 1) a.
Definition star (a : re) : re := Rep false 0 None a.
Definition plus (a : re) : re := Rep false 1 None a.
Definition times (n : nat) (a : re) : re := Rep false n (Some n) a.
Definition upto (lo hi : nat) (a : re) : re := Rep false lo (Some hi) a.

Lemma ways_seq a b s : ways (Seq a b) s = flat_map (ways b) (ways a s).
Proof. done. Qed.

Lemma ways_behind neg p s : ways (Behind neg p) s = if xorb neg (behind p s) then [s] else [].
Proof. done. Qed.

Lemma ways_chr p s :
  ways (Chr p) s = match after s with String c t => if p c then [advance s c t] else [] | EmptyString => [] end.
Proof. done. Qed.

(** ** Where matches end *)

(** [e] is [w] further than [s]. *)
Definition ahead_by (w : string) (s e : Spot) : Prop :=
  after s = w +:+ after e /\ before e = srev_onto w (before s).

Lemma spot_eq e s : before e = before s -> after e = after s -> groups e = groups s -> e = s.
Proof. destruct e, s. cbn. congruence. Qed.

Lemma ahead_refl s : ahead_by "" s s.
Proof. done. Qed.

Lemma sapp_inv_length a b c d : String.length a = String.length b -> a +:+ c = b +:+ d -> a = b /\ c = d.
Proof.
  revert b. induction a as [|x a IH]; intros [|y b] Hl; try done.
  rewrite !sapp_cons. intros [= -> H]. injection Hl as Hl. by destruct (IH b Hl H) as [-> ->].
Qed.

Lemma srev_onto_app a b c : srev_onto (a +:+ b) c = srev_onto b (srev_onto a c).
Proof. revert c. induction a as [|x a IH]; intros c; [done|]. cbn. apply IH. Qed.

Lemma ahead_trans w w' s e e' : ahead_by w s e -> ahead_by w' e e' -> ahead_by (w +:+ w') s e'.
Proof. intros [H1 H2] [H3 H4]. split; [by rewrite H1, H3, sapp_assoc|by rewrite H4, H2, srev_onto_app]. Qed.

Lemma ahead_length w s e :
  ahead_by w s e -> String.length (after s) = (String.length w + String.length (after e))%nat.
Proof. intros [H _]. rewrite H. apply slength_app. Qed.

Lemma elem_of_flat_map {A B} (f : A -> list B) l y : y ∈ flat_map f l <-> exists x, x ∈ l /\ y ∈ f x.
Proof.
  rewrite !list_elem_of_In, in_flat_map. split; intros (x & H1 & H2); exists x;
    rewrite ?list_elem_of_In in *; done.
Qed.

Lemma iterate_ahead f lazy : (forall s e, e ∈ f s -> exists w, ahead_by w s e) ->
  forall fuel lo hi s e, e ∈ iterate f lazy fuel lo hi s -> exists w, ahead_by w s e.
Proof.
  intros Hf. induction fuel as [|n IH]; intros lo hi s e He.
  - exists "". destruct lo; cbn in He; [|set_solver]. apply list_elem_of_singleton in He as ->. apply ahead_refl.
  - assert (Hstop : forall e, e ∈ match lo with O => [s] | S _ => [] end -> exists w, ahead_by w s e).
    { intros x Hx. exists "". destruct lo; [|set_solver]. apply list_elem_of_singleton in Hx as ->. apply ahead_refl. }
    assert (Hmore : e ∈ flat_map (iterate f lazy n (Nat.pred lo) (option_map Nat.pred hi)) (f s) ->
                    exists w, ahead_by w s e).
    { intros H. apply elem_of_flat_map in H as (x & Hx & H).
      destruct (Hf s x Hx) as [w Hw], (IH _ _ _ _ H) as [w' Hw']. exists (w +:+ w').
      by apply (ahead_trans w w' s x). }
    destruct hi as [[|h]|], lazy; cbn [iterate] in He; try (by apply Hstop);
      apply elem_of_app in He as [He|He]; auto.
Qed.

(** A match ends at its start or further. *)
Lemma ways_ahead r : forall s e, e ∈ ways r s -> exists w, ahead_by w s e.
Proof.
  induction r as [|p|a IHa b IHb|a IHa b IHb|lazy lo hi a IHa|n a IHa|neg p|neg a IHa]; intros s e He; cbn in He.
  - apply list_elem_of_singleton in He as ->. by exists "".
  - destruct (after s) as [|c t] eqn:Es; [set_solver|]. destruct (p c); [|set_solver].
    apply list_elem_of_singleton in He as ->. exists (String c ""). by split.
  - apply elem_of_flat_map in He as (x & Hx & He).
    destruct (IHa _ _ Hx) as [w Hw], (IHb _ _ He) as [w' Hw']. exists (w +:+ w'). by apply (ahead_trans w w' s x).
  - apply elem_of_app in He as [He|He]; eauto.
  - by apply (iterate_ahead _ _ IHa) in He.
  - apply list_elem_of_In, in_map_iff in He as (x & <- & Hx). apply list_elem_of_In in Hx.
    destruct (IHa _ _ Hx) as [w [Hw Hw']]. exists w. by split.
  - destruct (xorb _ _); [|set_solver]. apply list_elem_of_singleton in He as ->. by exists "".
  - exists "". destruct (ways a s), neg; cbn in He; try set_solver;
      apply list_elem_of_singleton in He as ->; by split.
Qed.

Lemma iterate_consumes f lazy :
  (forall s e, e ∈ f s -> (String.length (after e) < String.length (after s))%nat) ->
  forall fuel lo hi s e, lo <> O -> e ∈ iterate f lazy fuel lo hi s ->
  (String.length (after e) < String.length (after s))%nat.
Proof.
  intros Hf fuel lo hi s e Hlo.
  assert (Hall : forall fuel lo hi s e, e ∈ iterate f lazy fuel lo hi s ->
    (String.length (after e) <= String.length (after s))%nat /\
    (lo <> O -> (String.length (after e) < String.length (after s))%nat)).
  { clear -Hf. induction fuel as [|n IH]; intros lo hi s e He.
    - destruct lo; cbn in He; [|set_solver]. apply list_elem_of_singleton in He as ->. done.
    - assert (Hstop : e ∈ match lo with O => [s] | S _ => [] end ->
        (String.length (after e) <= String.length (after s))%nat /\
        (lo <> O -> (String.length (after e) < String.length (after s))%nat)).
      { intros Hx. destruct lo; [|set_solver]. apply list_elem_of_singleton in Hx as ->. done. }
      assert (Hmore : e ∈ flat_map (iterate f lazy n (Nat.pred lo) (option_map Nat.pred hi)) (f s) ->
        (String.length (after e) < String.length (after s))%nat).
      { intros H. apply elem_of_flat_map in H as (x & Hx & H). apply Hf in Hx. apply IH in H as [H _]. lia. }
      destruct hi as [[|h]|], lazy; cbn [iterate] in He; try (by apply Hstop);
        apply elem_of_app in He as [He|He]; auto; apply Hmore in He; split; lia. }
  intros He. by apply (Hall fuel lo hi s e).
Qed.

Lemma eats_consumes r : eats r = true ->
  forall s e, e ∈ ways r s -> (String.length (after e) < String.length (after s))%nat.
Proof.
  induction r as [|p|a IHa b IHb|a IHa b IHb|lazy lo hi a IHa|n a IHa|neg p|neg a IHa];
    cbn [eats]; intros Hr s e He; try done.
  - cbn in He. destruct (after s) as [|c t] eqn:Es; [set_solver|]. destruct (p c); [|set_solver].
    apply list_elem_of_singleton in He as ->. cbn. lia.
  - cbn in He. apply elem_of_flat_map in He as (x & Hx & He).
    destruct (ways_ahead _ _ _ Hx) as [w Hw], (ways_ahead _ _ _ He) as [w' Hw'].
    apply ahead_length in Hw, Hw'. apply orb_true_iff in Hr as [Hr|Hr].
    + pose proof (IHa Hr _ _ Hx). lia.
    + pose proof (IHb Hr _ _ He). lia.
  - apply andb_true_iff in Hr as [Ha Hb]. cbn in He. apply elem_of_app in He as [He|He]; eauto.
  - apply andb_true_iff in Hr as [Hlo Ha]. apply (iterate_consumes _ _ (IHa Ha)) in He; [done|].
    by destruct lo.
  - cbn in He. apply list_elem_of_In, in_map_iff in He as (x & <- & Hx). apply list_elem_of_In in Hx.
    cbn. apply (IHa Hr). done.
Qed.

Lemma iterate_fuel f lazy :
  (forall s e, e ∈ f s -> (String.length (after e) < String.length (after s))%nat) ->
  forall m n lo hi s, (String.length (after s) <= m)%nat -> (String.length (after s) <= n)%nat ->
  iterate f lazy m lo hi s = iterate f lazy n lo hi s.
Proof.
  intros Hf.
  assert (Hnil : forall s, String.length (after s) = O -> f s = []).
  { intros s Hs. destruct (f s) as [|e l] eqn:E; [done|]. assert (He : e ∈ f s) by (rewrite E; by left).
    apply Hf in He. lia. }
  assert (Hmore : forall m n lo hi s,
    (forall e, e ∈ f s -> iterate f lazy m lo hi e = iterate f lazy n lo hi e) ->
    flat_map (iterate f lazy m lo hi) (f s) = flat_map (iterate f lazy n lo hi) (f s)).
  { intros m n lo hi s H. induction (f s) as [|e l IH]; [done|]. cbn.
    rewrite H by (by left). f_equal. apply IH. intros x Hx. apply H. by right. }
  induction m as [|m IH]; intros [|n] lo hi s Hm Hn; [done| | |].
  - cbn [iterate]. rewrite Hnil by lia. destruct hi as [[]|], lazy; cbn; by rewrite ?app_nil_r.
  - cbn [iterate]. rewrite Hnil by lia. destruct hi as [[]|], lazy; cbn; by rewrite ?app_nil_r.
  - cbn [iterate]. rewrite (Hmore m n); [done|]. intros e He. apply Hf in He. apply IH; lia.
Qed.

(** A repetition, unfolded once. *)
Lemma ways_rep lazy lo hi a s : eats a = true ->
  ways (Rep lazy lo hi a) s =
  let stop := match lo with O => [s] | S _ => [] end in
  match hi with
  | Some O => stop
  | _ =>
      let more := flat_map (ways (Rep lazy (Nat.pred lo) (option_map Nat.pred hi) a)) (ways a s) in
      if lazy then stop ++ more else more ++ stop
  end.
Proof.
  intros Ha. pose proof (eats_consumes a Ha) as Hf. cbn [ways].
  assert (Hmore : forall n lo hi, (String.length (after s) <= S n)%nat ->
    flat_map (iterate (ways a) lazy n lo hi) (ways a s) =
    flat_map (fun e => iterate (ways a) lazy (String.length (after e)) lo hi e) (ways a s)).
  { intros n lo' hi' Hn. rewrite !flat_map_concat_map. f_equal. apply map_ext_in. intros e He.
    apply list_elem_of_In, Hf in He. apply iterate_fuel; [done|lia|lia]. }
  destruct (String.length (after s)) as [|n] eqn:En.
  - assert (ways a s = []) as ->.
    { destruct (ways a s) as [|e l] eqn:E; [done|]. assert (He : e ∈ ways a s) by (rewrite E; by left).
      apply Hf in He. lia. }
    cbn. destruct hi as [[]|], lazy; by rewrite ?app_nil_r.
  - cbn [iterate]. cbv zeta. rewrite Hmore by lia. done.
Qed.

(** ** Searching *)

Lemma srev_onto_srev b a : srev_onto b a = srev b +:+ a.
Proof.
  unfold srev. enough (H : forall acc, srev_onto b (acc +:+ a) = srev_onto b acc +:+ a) by apply (H "").
  induction b as [|c b IH]; intros acc; [done|]. cbn. rewrite <- sapp_cons. apply IH.
Qed.

Lemma srev_onto_twice b c : srev_onto (srev b) c = b +:+ c.
Proof.
  unfold srev. enough (H : forall acc, srev_onto (srev_onto b acc) c = srev_onto acc (b +:+ c)) by apply (H "").
  induction b as [|x b IH]; intros acc; [done|]. cbn. by rewrite IH.
Qed.

Lemma srev_onto_onto u b c : srev_onto (srev_onto u b) c = srev_onto b (u +:+ c).
Proof. revert b. induction u as [|x u IH]; intros b; [done|]. cbn [srev_onto]. rewrite IH. by rewrite sapp_cons. Qed.

Lemma srev_involutive b : srev (srev b) = b.
Proof. unfold srev at 1. rewrite srev_onto_twice. apply sapp_nil_r. Qed.

Lemma slength_srev_onto b a : String.length (srev_onto b a) = (String.length b + String.length a)%nat.
Proof. revert a. induction b as [|c b IH]; intros a; [done|]. cbn. rewrite IH. cbn. lia. Qed.

Lemma match_at_none r b a : match_at r b a = None <-> ways r (mkSpot b a []) = [].
Proof. unfold match_at. by destruct (ways r _). Qed.

(** What [find] answers: the first match. *)
Lemma find_some r a : forall b s e, find r b a = Some (s, e) ->
  exists w, a = w +:+ after s /\ before s = srev_onto w b /\ groups s = [] /\
    hd_error (ways r s) = Some e /\
    forall w' a', a = w' +:+ a' -> (String.length w' < String.length w)%nat ->
      ways r (mkSpot (srev_onto w' b) a' []) = [].
Proof.
  induction a as [|c t IH]; intros b s e; cbn [find].
  - destruct (match_at r b "") as [x|] eqn:E; [|done]. intros [= <- <-]. exists "". split_and!; try done.
    intros w' a' _ H. cbn in H. lia.
  - destruct (match_at r b (String c t)) as [x|] eqn:E.
    + intros [= <- <-]. exists "". split_and!; try done. intros w' a' _ H. cbn in H. lia.
    + intros H. destruct (IH _ _ _ H) as (w & -> & Hb & Hg & He & Hno). exists (String c w).
      split; [by rewrite sapp_cons|]. split_and!; [done..|]. intros [|x w'] a' Ha Hl.
      * rewrite sapp_nil in Ha. subst a'. by apply match_at_none.
      * rewrite sapp_cons in Ha. injection Ha as <- Ha. cbn in Hl. apply Hno; [done|lia].
Qed.

Lemma find_none r a : forall b, find r b a = None <->
  forall w a', a = w +:+ a' -> ways r (mkSpot (srev_onto w b) a' []) = [].
Proof.
  induction a as [|c t IH]; intros b; cbn [find].
  - split.
    + destruct (match_at r b "") eqn:E; [done|]. intros _ [|x w] a' Ha; [|by rewrite sapp_cons in Ha].
      rewrite sapp_nil in Ha. subst a'. by apply match_at_none.
    + intros H. pose proof (H "" "" eq_refl) as H0. apply match_at_none in H0. cbn in H0. by rewrite H0.
  - split.
    + destruct (match_at r b (String c t)) eqn:E; [done|]. intros H [|x w] a' Ha.
      * rewrite sapp_nil in Ha. subst a'. by apply match_at_none.
      * rewrite sapp_cons in Ha. injection Ha as <- Ha. by apply (proj1 (IH _) H w a').
    + intros H. pose proof (H "" _ eq_refl) as H0. apply match_at_none in H0. cbn in H0. rewrite H0.
      apply IH. intros w a' ->. apply (H (String c w)). by rewrite sapp_cons.
Qed.

(** [test] finds a match wherever there is one. *)
Lemma test_found r text : test r text = true <->
  exists b a, text = srev_onto b a /\ ways r (mkSpot b a []) <> [].
Proof.
  unfold test. destruct (find r "" text) as [[s e]|] eqn:E.
  - split; [intros _|done]. apply find_some in E as (w & -> & Hb & Hg & He & _).
    exists (before s), (after s). split; [rewrite Hb; symmetry; apply srev_onto_twice|].
    rewrite <- Hg. destruct s as [sb sa sg]. cbn in *. subst sg. by destruct (ways r _).
  - split; [done|]. intros (b & a & -> & H). destruct H.
    rewrite <- (sapp_nil_r b), <- srev_onto_twice. apply (proj1 (find_none r _ "") E).
    apply srev_onto_srev.
Qed.

Lemma test_matches r text : test r text = negb (bool_decide (matches r text = [])).
Proof. unfold test, matches. cbn. by destruct (find r "" text) as [[s e]|]. Qed.

(** *** Expressions that do not look back *)

Fixpoint free (r : re) : bool :=
  match r with
  | Eps | Chr _ => true
  | Seq a b | Alt a b => free a && free b
  | Rep _ _ _ a => free a
  | Group _ _ | Behind _ _ => false
  | Ahead _ a => free a
  end.

(** What comes before has no bearing on where a match ends. *)
Lemma iterate_free f lazy :
  (forall s s', after s = after s' -> map after (f s) = map after (f s')) ->
  forall fuel lo hi s s', after s = after s' ->
  map after (iterate f lazy fuel lo hi s) = map after (iterate f lazy fuel lo hi s').
Proof.
  intros Hf. induction fuel as [|n IH]; intros lo hi s s' Hs.
  - cbn. destruct lo; cbn; by rewrite ?Hs.
  - assert (Hmore : map after (flat_map (iterate f lazy n (Nat.pred lo) (option_map Nat.pred hi)) (f s)) =
                    map after (flat_map (iterate f lazy n (Nat.pred lo) (option_map Nat.pred hi)) (f s'))).
    { specialize (Hf s s' Hs). revert Hf. generalize (f s) (f s').
      induction l as [|x l IHl]; intros [|y l'] H; try done. cbn in H |- *. injection H as Hxy Hl.
      rewrite !map_app. f_equal; [by apply IH|by apply IHl]. }
    destruct hi as [[|h]|], lazy, lo; cbn [iterate]; rewrite ?map_app, ?Hmore; cbn; by rewrite ?Hs.
Qed.

Lemma ways_free r : free r = true -> forall s s', after s = after s' -> map after (ways r s) = map after (ways r s').
Proof.
  induction r as [|p|a IHa b IHb|a IHa b IHb|lazy lo hi a IHa|n a IHa|neg p|neg a IHa];
    cbn [free]; intros Hr s s' Hs; try done.
  - cbn. by rewrite Hs.
  - cbn. rewrite Hs. destruct (after s') as [|c t]; [done|]. by destruct (p c).
  - apply andb_true_iff in Hr as [Ha Hb]. cbn. specialize (IHa Ha s s' Hs). revert IHa.
    generalize (ways a s) (ways a s'). induction l as [|x l IHl]; intros [|y l'] H; try done.
    cbn in H |- *. injection H as Hxy Hl. rewrite !map_app. f_equal; [by apply IHb|by apply IHl].
  - apply andb_true_iff in Hr as [Ha Hb]. cbn. rewrite !map_app. f_equal; [by apply IHa|by apply IHb].
  - cbn. rewrite Hs. by apply iterate_free; [apply IHa|].
  - cbn. specialize (IHa Hr s s' Hs). destruct (ways a s), (ways a s'); try done; destruct neg; cbn; by rewrite ?Hs.
Qed.

Lemma free_nil r s s' : free r = true -> after s = after s' -> ways r s = [] -> ways r s' = [].
Proof.
  intros Hr Hs H. pose proof (ways_free r Hr s s' Hs) as Hm. rewrite H in Hm. by destruct (ways r s').
Qed.

(** Repetitions of a class. *)
Lemma ways_star_chr lazy p a : forall s, after s = a -> forall lo e,
  e ∈ ways (Rep lazy lo None (Chr p)) s <->
  exists w, sforallb p w = true /\ (lo <= String.length w)%nat /\ ahead_by w s e /\ groups e = groups s.
Proof.
  intros s. revert a s. induction a as [|c t IH]; intros s Hs lo e; rewrite ways_rep by done; cbn zeta.
  - assert (ways (Chr p) s = []) as -> by (cbn; by rewrite Hs). cbn [flat_map].
    rewrite app_nil_r, app_nil_l. assert (H : (if lazy then match lo with O => [s] | S _ => [] end
      else match lo with O => [s] | S _ => [] end) = match lo with O => [s] | S _ => [] end) by (by destruct lazy).
    rewrite H. split.
    + intros He. destruct lo; [|set_solver]. apply list_elem_of_singleton in He as ->. by exists "".
    + intros (w & Hw & Hl & [Ha Hb] & Hg). rewrite Hs in Ha. destruct w as [|x w]; [|done]. cbn in Ha, Hb, Hl.
      assert (lo = O) as -> by lia. apply list_elem_of_singleton. rewrite sapp_nil in Ha. apply spot_eq; congruence.
  - assert (Hstop : e ∈ match lo with O => [s] | S _ => [] end <-> lo = O /\ e = s).
    { destruct lo; [rewrite list_elem_of_singleton|]; [by split; [|intros [_ ?]]|]. split; [set_solver|by intros []]. }
    assert (Hmore : e ∈ flat_map (ways (Rep lazy (Nat.pred lo) None (Chr p))) (ways (Chr p) s) <->
      p c = true /\ exists w, sforallb p w = true /\ (lo <= S (String.length w))%nat /\
        ahead_by (String c w) s e /\ groups e = groups s).
    { rewrite elem_of_flat_map. cbn [ways]. rewrite Hs. destruct (p c).
      - split.
        + intros (x & Hx & He). apply list_elem_of_singleton in Hx as ->.
          apply IH in He as (w & Hw & Hl & [Ha Hb] & Hg); [|done]. split; [done|]. exists w. split; [done|]. split; [lia|]. split; [|done].
          split; [|done]. rewrite Hs, sapp_cons. by f_equal.
        + intros (_ & w & Hw & Hl & [Ha Hb] & Hg). eexists. split; [by apply list_elem_of_singleton|].
          apply IH; [done|]. exists w. rewrite Hs, sapp_cons in Ha. injection Ha as Ha. split; [done|]. split; [lia|]. by repeat split.
      - split; [intros (x & Hx & _); set_solver|by intros []]. }
    assert (Hboth : e ∈ (if lazy
        then match lo with O => [s] | S _ => [] end ++ flat_map (ways (Rep lazy (Nat.pred lo) None (Chr p))) (ways (Chr p) s)
        else flat_map (ways (Rep lazy (Nat.pred lo) None (Chr p))) (ways (Chr p) s) ++ match lo with O => [s] | S _ => [] end)
      <-> (lo = O /\ e = s) \/ (p c = true /\ exists w, sforallb p w = true /\ (lo <= S (String.length w))%nat /\
        ahead_by (String c w) s e /\ groups e = groups s)).
    { destruct lazy; rewrite elem_of_app, Hstop, Hmore; tauto. }
    cbn [option_map]. rewrite Hboth. clear Hboth Hstop Hmore. split.
    + intros [[-> ->]|(Hc & w & Hw & Hl & Ha & Hg)]; [by exists ""|].
      exists (String c w). cbn. rewrite Hc. by split_and!.
    + intros (w & Hw & Hl & [Ha Hb] & Hg). destruct w as [|x w].
      * left. cbn in Hl, Hb. split; [lia|]. rewrite sapp_nil in Ha. apply spot_eq; congruence.
      * right. rewrite Hs, sapp_cons in Ha. injection Ha as <- Ha. cbn in Hw, Hl, Hb.
        apply andb_true_iff in Hw as [Hc Hw]. split; [done|]. exists w. split; [done|]. split; [done|]. split; [|done].
        split; [by rewrite Hs, sapp_cons, Ha|done].
Qed.

(** *** Expressions without groups *)

Fixpoint groupless (r : re) : bool :=
  match r with
  | Eps | Chr _ | Behind _ _ => true
  | Seq a b | Alt a b => groupless a && groupless b
  | Rep _ _ _ a | Ahead _ a => groupless a
  | Group _ _ => false
  end.

Lemma iterate_groups f lazy : (forall s e, e ∈ f s -> groups e = groups s) ->
  forall fuel lo hi s e, e ∈ iterate f lazy fuel lo hi s -> groups e = groups s.
Proof.
  intros Hf. induction fuel as [|n IH]; intros lo hi s e He.
  - destruct lo; cbn in He; [|set_solver]. by apply list_elem_of_singleton in He as ->.
  - assert (Hstop : e ∈ match lo with O => [s] | S _ => [] end -> groups e = groups s).
    { intros Hx. destruct lo; [|set_solver]. by apply list_elem_of_singleton in Hx as ->. }
    assert (Hmore : e ∈ flat_map (iterate f lazy n (Nat.pred lo) (option_map Nat.pred hi)) (f s) -> groups e = groups s).
    { intros H. apply elem_of_flat_map in H as (x & Hx & H). rewrite (IH _ _ _ _ H). by apply Hf. }
    destruct hi as [[|h]|], lazy; cbn [iterate] in He; try (by apply Hstop);
      apply elem_of_app in He as [He|He]; auto.
Qed.

Lemma ways_groups r : groupless r = true -> forall s e, e ∈ ways r s -> groups e = groups s.
Proof.
  induction r as [|p|a IHa b IHb|a IHa b IHb|lazy lo hi a IHa|n a IHa|neg p|neg a IHa];
    cbn [groupless]; intros Hr s e He; try done; cbn in He.
  - by apply list_elem_of_singleton in He as ->.
  - destruct (after s) as [|c t]; [set_solver|]. destruct (p c); [|set_solver].
    by apply list_elem_of_singleton in He as ->.
  - apply andb_true_iff in Hr as [Ha Hb]. apply elem_of_flat_map in He as (x & Hx & He).
    rewrite (IHb Hb _ _ He). by apply IHa.
  - apply andb_true_iff in Hr as [Ha Hb]. apply elem_of_app in He as [He|He]; auto.
  - by apply (iterate_groups _ _ (IHa Hr)) in He.
  - destruct (xorb _ _); [|set_solver]. by apply list_elem_of_singleton in He as ->.
  - destruct (ways a s) as [|x l] eqn:E, neg; cbn in He; try (by apply not_elem_of_nil in He);
      apply list_elem_of_singleton in He as ->; try done. cbn. apply (IHa Hr). rewrite E. by left.
Qed.

(** ** All matches *)

Lemma between_ahead w s e : after s = w +:+ after e -> between s e = w.
Proof.
  intros H. unfold between. rewrite H, slength_app, Nat.add_sub.
  clear. induction w as [|c w IH]; [by destruct (after e)|]. rewrite sapp_cons. cbn. by rewrite IH.
Qed.

Lemma hd_error_elem {A} (l : list A) x : hd_error l = Some x -> x ∈ l.
Proof. destruct l as [|y l]; [done|]. intros [= ->]. by left. Qed.

(** The text around one match. *)
Lemma find_pieces r b a s e : find r b a = Some (s, e) ->
  exists w m, a = w +:+ m +:+ after e /\ after s = m +:+ after e /\
    before s = srev_onto w b /\ before e = srev_onto m (before s) /\
    between (mkSpot b a []) s = w /\ between s e = m /\ groups s = [] /\ e ∈ ways r s.
Proof.
  intros H. apply find_some in H as (w & Ha & Hb & Hg & He & _). apply hd_error_elem in He.
  destruct (ways_ahead _ _ _ He) as [m [Hm Hm']]. exists w, m.
  split_and!; try done; [by rewrite Ha, Hm|by apply between_ahead|by apply between_ahead].
Qed.

Lemma find_all_elem fuel r : forall b a s e, (s, e) ∈ find_all fuel r b a ->
  e ∈ ways r s /\ (String.length (before s) + String.length (after s) = String.length b + String.length a)%nat.
Proof.
  induction fuel as [|n IH]; intros b a s e; cbn [find_all]; [by intros H; apply not_elem_of_nil in H|].
  destruct (find r b a) as [[s0 e0]|] eqn:E; [|by intros H; apply not_elem_of_nil in H].
  apply find_pieces in E as (w & m & Ha & Hs & Hb & Hbe & _ & _ & _ & Hin).
  assert (Hlen : (String.length (before e0) + String.length (after e0) = String.length b + String.length a)%nat).
  { rewrite Hbe, Hb, Ha, !slength_srev_onto, !slength_app. lia. }
  intros [[= -> ->]|H]%elem_of_cons.
  - split; [done|]. rewrite Hb, Hs, Ha, slength_srev_onto, !slength_app. lia.
  - destruct (_ <? _)%nat; [apply IH in H as [? ->]; by split|].
    destruct (after e0) as [|c t]; [by apply not_elem_of_nil in H|]. apply IH in H as [? Hl]. split; [done|].
    rewrite Hl. cbn in *. lia.
Qed.

(** Matches of an expression that consumes are not empty, and lie in the text. *)
Lemma matches_nonempty r text m : eats r = true -> m ∈ matches r text ->
  (0 < String.length (m_text m))%nat /\ (m_index m + String.length (m_text m) <= String.length text)%nat.
Proof.
  intros Hr H. unfold matches in H. apply list_elem_of_fmap in H as ([s e] & -> & H).
  apply find_all_elem in H as [He Hl]. cbn [m_text m_index match_of fst snd] in *.
  pose proof (eats_consumes r Hr s e He). destruct (ways_ahead _ _ _ He) as [w Hw].
  pose proof (ahead_length _ _ _ Hw). destruct Hw as [Hw _]. rewrite (between_ahead w) by done.
  cbn in Hl. lia.
Qed.
