(* ===== verification/PiiPatterns.v ===== *)
(** * Patterns of personal data

    Models the patterns and validators of [src/gateway/src/middlewares/router/pii.ts]:
    e-mail addresses, phone numbers, social security numbers, addresses, IBANs with
    their mod-97 check, card numbers with the Luhn check, and the national numbers of
    Sweden, Norway, Denmark and Finland with their dates and check digits.  The
    regular expressions are terms of [Regex] over Latin-1 code units.

    [iban_prefix_exact]: what is taken for an IBAN is the longest prefix of whole
    groups that passes the ISO 7064 check, written down as one number modulo 97,
    though the code folds the remainders once for all prefixes.
    [anchored_email_same_answer]: the anchored e-mail pattern finds an address exactly
    when the pattern of the SDK, tried everywhere, finds one. *)

From Stdlib Require Import ZArith Lia Ascii.
From stdpp Require Import base strings option sets list.
From S2P Require Import Prelude JsValue AccessPolicy UrlGuard Regex.

#[local] Open Scope string_scope.
#[local] Open Scope list_scope.
#[local] Open Scope Z_scope.

(** ** Classes *)

(** [\p{L}], [\p{N}] and [\p{L}\p{N}_] below 256. *)
Definition is_letter (c : ascii) : bool :=
  let n := code c in
  is_upper c || is_lower c ||
  ((n =? 170) || (n =? 181) || (n =? 186) || ((192 <=? n) && (n <=? 214)) ||
   ((216 <=? n) && (n <=? 246)) || (248 <=? n))%N.

Definition is_number (c : ascii) : bool :=
  let n := code c in
  is_digit c || ((n =? 178) || (n =? 179) || (n =? 185) || ((188 <=? n) && (n <=? 190)))%N.

Definition is_word (c : ascii) : bool := is_letter c || is_number c || (code c =? 95)%N.

Definition is_alpha (c : ascii) : bool := is_upper c || is_lower c.
Definition local_char (c : ascii) : bool := is_alnum c || is_one_of "._%+-" c.
Definition domain_char (c : ascii) : bool := is_alnum c || is_one_of ".-" c.

(** [W], [B], [L] and [R] *)
Definition W : re := Chr is_word.
Definition B : re :=
  Alt (Seq (Behind false is_word) (Ahead true W)) (Seq (Behind true is_word) (Ahead false W)).
Definition L : re := Behind true (fun c => is_word c || is_one_of "+-" c).
Definition R : re := Seq (Ahead true W) (Ahead true (Seq (Chr (is_one_of "-.")) (Chr is_digit))).

Definition digit : re := Chr is_digit.
Definition sep_char (c : ascii) : bool := is_one_of " -" c.
Definition phone_sep : re := opt (Chr (fun c => is_one_of "-." c || is_space c)).

(** ** Patterns *)

Definition email_body : re :=
  seqs [plus (Chr local_char); lit "@"; plus (Chr domain_char); lit "."; Rep false 2 None (Chr is_alpha)].

Definition EMAIL : re := Seq (Behind true local_char) email_body.

Definition PHONE : re :=
  seqs [Behind true is_digit;
        opt (seqs [opt (lit "+"); upto 1 3 digit; phone_sep]);
        opt (lit "("); times 3 digit; opt (lit ")"); phone_sep; upto 3 4 digit; phone_sep; times 4 digit;
        Ahead true digit].

Definition SSN : re := seqs [B; times 3 digit; lit "-"; times 2 digit; lit "-"; times 4 digit; B].

Definition IP_ADDRESS : re := seqs [B; times 3 (seqs [upto 1 3 digit; lit "."]); upto 1 3 digit; B].

Definition PATTERNS : list (string * re) :=
  [("email", EMAIL); ("phone", PHONE); ("ssn", SSN); ("ip_address", IP_ADDRESS)].

Definition CARD_RUN_RE : re :=
  seqs [digit; Ahead false (times 12 (Seq (star (Chr sep_char)) digit)); star digit;
        star (Seq (plus (Chr sep_char)) (plus digit))].

Definition upper_alnum (c : ascii) : bool := is_upper c || is_digit c.

Definition IBAN_RE : re :=
  seqs [B; times 2 (Chr is_upper); times 2 digit;
        upto 2 7 (Seq (opt (lit " ")) (times 4 (Chr upper_alnum)));
        opt (Seq (opt (lit " ")) (upto 1 3 (Chr upper_alnum))); B].

Definition phone_char (c : ascii) : bool := is_digit c || is_one_of " ()./-" c.

Definition INTL_PHONE_RE : re :=
  seqs [Behind true (fun c => is_word c || is_one_of "+" c); lit "+"; digit;
        upto 6 20 (Chr phone_char); digit; Ahead true W].

Definition TRUNK_PHONE_RE : re :=
  seqs [Behind true (fun c => is_word c || is_one_of "+.,/-" c); opt (lit "("); lit "0"; digit;
        upto 6 16 (Chr phone_char); digit; Ahead true W].

Definition SE_RE : re :=
  seqs [L; Group 1 (opt (Alt (lit "18") (Alt (lit "19") (lit "20")))); Group 2 (times 2 digit);
        Group 3 (times 2 digit); Group 4 (times 2 digit); Group 5 (opt (Chr (is_one_of "-+")));
        Group 6 (times 3 digit); Group 7 digit; R].

Definition NO_RE : re :=
  seqs [L; Group 1 (times 6 digit); opt (lit " "); Group 2 (times 5 digit); R].

Definition DK_RE : re :=
  seqs [L; Group 1 (times 2 digit); Group 2 (times 2 digit); Group 3 (times 2 digit);
        Group 4 (opt (lit "-")); Group 5 (times 4 digit); R].

(** Without regard to case: the flag i. *)
Definition any_case (p : ascii -> bool) (c : ascii) : bool :=
  p c || (is_lower c && p (ascii_of_N (code c - 32))).

Definition FI_RE : re :=
  seqs [L; Group 1 (times 2 digit); Group 2 (times 2 digit); Group 3 (times 2 digit);
        Group 4 (Chr (any_case (is_one_of "-+ABCDEFUVWXY"))); Group 5 (times 3 digit);
        Group 6 (Chr (any_case (fun c => is_digit c || (is_upper c && negb (code c =? 90)%N)))); R].

(** ** Checksums *)

Definition digit_value (c : ascii) : Z := Z.of_N (code c) - 48.

(** [Number(s)] of digits. *)
Definition number (s : string) : Z := digits_val s 0.

(** [luhnRangeOk] and [luhnOk]: from the right, every second digit doubled. *)
Definition luhn_digit (double : bool) (d : Z) : Z :=
  if double then (if 9 <? d * 2 then d * 2 - 9 else d * 2) else d.

Fixpoint luhn_total (reversed : string) (double : bool) : Z :=
  match reversed with
  | EmptyString => 0
  | String c r =>
      if is_digit c then luhn_digit double (digit_value c) + luhn_total r (negb double)
      else luhn_total r double
  end.

Definition luhnRangeOk (s : string) (from to : nat) : bool :=
  luhn_total (srev (String.substring from (to - from) s)) false mod 10 =? 0.

Definition luhnOk (digits : string) : bool := luhn_total (srev digits) false mod 10 =? 0.

(** [parseInt(c, 36)] of a digit or a letter. *)
Definition base36 (c : ascii) : Z :=
  if is_digit c then digit_value c
  else if is_upper c then Z.of_N (code c) - 55 else Z.of_N (code c) - 87.

Definition mod97 (rest : Z) (c : ascii) : Z :=
  let v := base36 c in (rest * (if v <? 10 then 10 else 100) + v) mod 97.

(** [s.slice(0, n)] and [s.slice(n)] *)
Definition slice_to (n : nat) (s : string) : string := String.substring 0 n s.
Fixpoint slice_from (n : nat) (s : string) : string :=
  match n, s with
  | S n, String _ r => slice_from n r
  | _, _ => s
  end.

Definition chars (s : string) : list ascii := String.list_ascii_of_string s.

(** [body]: the remainders after every prefix of [compact.slice(4)]. *)
Fixpoint remainders (rest : Z) (l : list ascii) : list Z :=
  rest :: match l with [] => [] | c :: l => remainders (mod97 rest c) l end.

(** The loop over the groups, the last one first; [None] is -1. *)
Fixpoint drop_groups (compact : list ascii) (body : list Z) (reversed : list string) (nCompact nSpaced : nat)
    : option nat :=
  match reversed with
  | [] => None
  | g :: rest_groups =>
      if (15 <=? nCompact)%nat && (nCompact <=? 34)%nat &&
         (foldl mod97 (nth (nCompact - 4) body 0) (firstn 4 compact) =? 1)
      then Some nSpaced
      else drop_groups compact body rest_groups (nCompact - String.length g) (nSpaced - (String.length g + 1))
  end.

Definition ibanValidLength (m : string) : option nat :=
  let split := split_on " "%char m in
  let compact := chars (String.concat "" split) in
  drop_groups compact (remainders 0 (skipn 4 compact)) (rev split) (length compact) (String.length m).

Fixpoint spaces (n : nat) : string := match n with O => "" | S n => String " "%char (spaces n) end.

Definition maskIban (m : string) : string :=
  match ibanValidLength m with
  | Some n => spaces n +:+ slice_from n m
  | None => m
  end.

Fixpoint count (p : ascii -> bool) (s : string) : nat :=
  match s with
  | EmptyString => O
  | String c r => ((if p c then 1 else 0) + count p r)%nat
  end.

Fixpoint remove_chars (p : ascii -> bool) (s : string) : string :=
  match s with
  | EmptyString => ""
  | String c r => if p c then remove_chars p r else String c (remove_chars p r)
  end.

Definition phone_seps : re := plus (Chr (is_one_of " ./-")).

Definition phoneShapeOk (s : string) (min max : nat) : bool :=
  let digits := count is_digit s in
  if (digits <? min)%nat || (max <? digits)%nat then false else
  let seps := map m_text (matches phone_seps (remove_chars (is_one_of "()") s)) in
  if existsb (fun sep => (1 <? String.length sep)%nat) seps then false
  else match skipn 1 seps with
       | [] => true
       | sep :: l => forallb (String.eqb sep) l
       end.

Definition VALIDATED : list (string * re * (Match -> bool)) :=
  [("phone", INTL_PHONE_RE, fun m => phoneShapeOk (m_text m) 8 15);
   ("phone", TRUNK_PHONE_RE, fun m =>
      negb (sforallb (fun c => negb (is_one_of " ./-" c)) (m_text m)) && phoneShapeOk (m_text m) 9 12)].

(** ** National numbers *)

(** [new Date(Date.UTC(year, month, 0)).getUTCDate()]: a year below 100 is one of the
    twentieth century. *)
Definition leap_year (year : Z) : bool :=
  (year mod 4 =? 0) && (negb (year mod 100 =? 0) || (year mod 400 =? 0)).

Definition days_in_month (year month : Z) : Z :=
  let year := if (0 <=? year) && (year <=? 99) then 1900 + year else year in
  if month =? 2 then (if leap_year year then 29 else 28)
  else if existsb (Z.eqb month) [4; 6; 9; 11] then 30 else 31.

Definition validDate (year month day : Z) : bool :=
  if (month <? 1) || (12 <? month) || (day <? 1) then false else day <=? days_in_month year month.

Definition validSe (m : Match) : bool :=
  let century := m_group m 1 in
  if negb (truthy_string century) && negb (truthy_string (m_group m 5)) then false else
  let dd := number (m_group m 4) in
  let day := if 60 <? dd then dd - 60 else dd in
  let yy := m_group m 2 in
  let year := if truthy_string century then number (century +:+ yy) else 2000 + number yy in
  validDate year (number (m_group m 3)) day &&
  luhnOk (yy +:+ m_group m 3 +:+ m_group m 4 +:+ m_group m 6 +:+ m_group m 7).

Definition NO_W1 : list Z := [3; 7; 6; 1; 8; 9; 4; 5; 2].
Definition NO_W2 : list Z := [5; 4; 3; 2; 7; 6; 5; 4; 3; 2].

Definition weighted (digits : string) (weights : list Z) : Z :=
  foldr Z.add 0 (zip_with (fun w c => digit_value c * w) weights (chars digits)).

Definition mod11Check (digits : string) (weights : list Z) : option Z :=
  let rest := weighted digits weights mod 11 in
  let k := if rest =? 0 then 0 else 11 - rest in
  if k =? 10 then None else Some k.

Definition noYear (yy individual : Z) : option Z :=
  if individual <=? 499 then Some (1900 + yy)
  else if (individual <=? 749) && (54 <=? yy) then Some (1800 + yy)
  else if (500 <=? individual) && (yy <=? 39) then Some (2000 + yy)
  else if (900 <=? individual) && (40 <=? yy) then Some (1900 + yy)
  else None.

(** [digits.slice(a, b)] as a number. *)
Definition part (digits : string) (a b : nat) : Z := number (String.substring a (b - a) digits).

Definition is_check (k : option Z) (d : Z) : bool := match k with Some k => k =? d | None => false end.

Definition validNo (m : Match) : bool :=
  let digits := m_group m 1 +:+ m_group m 2 in
  let day := part digits 0 2 in
  let month := part digits 2 4 in
  let day := if 40 <? day then day - 40 else day in
  let month := if 80 <? month then month - 80 else if 40 <? month then month - 40 else month in
  match noYear (part digits 4 6) (part digits 6 9) with
  | None => false
  | Some year =>
      validDate year month day &&
      is_check (mod11Check (slice_to 9 digits) NO_W1) (part digits 9 10) &&
      is_check (mod11Check (slice_to 10 digits) NO_W2) (part digits 10 11)
  end.

Definition DK_W : list Z := [4; 3; 2; 7; 6; 5; 4; 3; 2; 1].

Definition dkYear (yy d7 : Z) : Z :=
  if d7 <=? 3 then 1900 + yy
  else if (d7 =? 4) || (d7 =? 9) then (if yy <=? 36 then 2000 + yy else 1900 + yy)
  else if yy <=? 57 then 2000 + yy else 1800 + yy.

Definition validDk (m : Match) : bool :=
  let dd := m_group m 1 in
  let mm := m_group m 2 in
  let yy := m_group m 3 in
  let serial := m_group m 5 in
  let year := dkYear (number yy) (part serial 0 1) in
  if negb (validDate year (number mm) (number dd)) then false
  else if truthy_string (m_group m 4) then true
  else weighted (dd +:+ mm +:+ yy +:+ serial) DK_W mod 11 =? 0.

Definition FI_CHECK : string := "0123456789ABCDEFHJKLMNPRSTUVWXY".

Definition upper_char (c : ascii) : ascii := if is_lower c then ascii_of_N (code c - 32) else c.
Definition upper (s : string) : string := smap upper_char s.

Definition FI_CENTURY (marker : string) : Z :=
  if (marker =? "+")%string then 1800
  else if (marker =? "-")%string then 1900
  else if mem_string marker ["U"; "V"; "W"; "X"; "Y"] then 1900
  else 2000.

Definition validFi (m : Match) : bool :=
  let dd := m_group m 1 in
  let mm := m_group m 2 in
  let yy := m_group m 3 in
  let individual := m_group m 5 in
  let year := FI_CENTURY (upper (m_group m 4)) + number yy in
  if negb (validDate year (number mm) (number dd)) then false
  else if number individual <? 2 then false
  else
    let i := Z.to_nat (number (dd +:+ mm +:+ yy +:+ individual) mod 31) in
    (String.substring i 1 FI_CHECK =? upper (m_group m 6))%string.

Definition DETECTORS : list (re * (Match -> bool)) :=
  [(SE_RE, validSe); (NO_RE, validNo); (DK_RE, validDk); (FI_RE, validFi)].

(** Every pattern consumes something in each repetition, so [Regex.ways] is what the
    matcher of the language does. *)
Lemma patterns_eager :
  forallb eager ([IBAN_RE; CARD_RUN_RE] ++ map snd PATTERNS ++ map (fun x => x.1.2) VALIDATED ++ map fst DETECTORS)
  = true.
Proof. vm_compute. reflexivity. Qed.

(** ** E-mail addresses *)

(** A local part may start further to the left, in characters it may hold. *)
Lemma local_part_grows u b a : sforallb local_char u = true ->
  ways email_body (mkSpot (srev_onto u b) a []) <> [] -> ways email_body (mkSpot b (u +:+ a) []) <> [].
Proof.
  intros Hu H. destruct (ways email_body (mkSpot (srev_onto u b) a [])) as [|e l] eqn:E; [done|]. clear H.
  assert (He : e ∈ ways email_body (mkSpot (srev_onto u b) a [])) by (rewrite E; by left). clear E l.
  unfold email_body, seqs in He |- *. cbn [foldr] in He |- *.
  set (rest := Seq (lit "@") _) in *. rewrite ways_seq in He |- *. apply elem_of_flat_map in He as (x & Hx & He).
  apply (ways_star_chr _ _ a) in Hx as (w & Hw & Hl & [Ha Hb] & Hg); [|done]. cbn in Ha, Hb, Hg.
  intros Hnil.
  assert (Hin : mkSpot (srev_onto (u +:+ w) b) (after x) [] ∈ ways (plus (Chr local_char)) (mkSpot b (u +:+ a) [])).
  { unfold plus. apply (ways_star_chr _ _ (u +:+ a)); [done|]. exists (u +:+ w). split; [by rewrite sforallb_append, Hu|].
    split; [rewrite slength_app; lia|]. split; [|done]. split; [|done]. cbn. by rewrite Ha, sapp_assoc. }
  assert (Hx' : ways rest (mkSpot (srev_onto (u +:+ w) b) (after x) []) = []).
  { apply elem_of_nil_inv. intros y Hy. eapply not_elem_of_nil. rewrite <- Hnil. apply elem_of_flat_map. by exists (mkSpot (srev_onto (u +:+ w) b) (after x) []). }
  apply (free_nil rest _ x) in Hx'; [|done|done]. rewrite Hx' in He. by apply not_elem_of_nil in He.
Qed.

(** The run of local characters that ends somewhere, and what is before it. *)
Lemma local_run b : exists u b', b = srev_onto u b' /\ sforallb local_char u = true /\
  behind local_char (mkSpot b' "" []) = false.
Proof.
  induction b as [|c b (u & b' & -> & Hu & Hb)].
  - by exists "", "".
  - destruct (local_char c) eqn:Ec; [|by exists "", (String c (srev_onto u b'))].
    exists (u +:+ String c ""), b'. rewrite srev_onto_app, sforallb_append. cbn. by rewrite Hu, Ec.
Qed.

(** The e-mail pattern, anchored so that a long run of letters is scanned once,
    answers what the pattern of the SDK answers when it is tried at every place. *)
Theorem anchored_email_same_answer (text : string) : test EMAIL text = test email_body text.
Proof.
  apply eq_bool_prop_intro. rewrite !Is_true_true, !test_found. split; intros (b & a & -> & H).
  - exists b, a. split; [done|]. unfold EMAIL in H. rewrite ways_seq, ways_behind in H.
    destruct (xorb _ _); cbn [flat_map] in H; [|done]. by rewrite app_nil_r in H.
  - destruct (local_run b) as (u & b' & -> & Hu & Hb).
    exists b', (u +:+ a). split; [apply srev_onto_onto|].
    unfold EMAIL. rewrite ways_seq, ways_behind. change (behind local_char _) with (behind local_char (mkSpot b' "" [])).
    rewrite Hb. cbn [xorb flat_map]. rewrite app_nil_r. by apply local_part_grows.
Qed.

(** ** IBANs *)

(** The number an IBAN is read as, with two digits for a letter. *)
Definition iban_number (l : list ascii) : Z :=
  foldl (fun n c => n * (if base36 c <? 10 then 10 else 100) + base36 c) 0 l.

(** The check of ISO 13616 on the first groups of a match. *)
Definition iban_ok (split : list string) : Prop :=
  let compact := chars (String.concat "" split) in
  (15 <= length compact <= 34)%nat /\ iban_number (skipn 4 compact ++ firstn 4 compact) mod 97 = 1.

Lemma foldl_mod97 l : forall n, foldl mod97 (n mod 97) l =
  foldl (fun n c => n * (if base36 c <? 10 then 10 else 100) + base36 c) n l mod 97.
Proof.
  induction l as [|c l IH]; intros n; [done|]. cbn [foldl]. rewrite <- IH. f_equal. unfold mod97. cbv zeta.
  rewrite Z.add_mod, Z.mul_mod_idemp_l, <- Z.add_mod by lia. done.
Qed.

Lemma nth_remainders l : forall r n d, (n <= length l)%nat -> nth n (remainders r l) d = foldl mod97 r (firstn n l).
Proof.
  induction l as [|c l IH]; intros r [|n] d Hn; cbn in *; try done; [lia|]. apply IH. lia.
Qed.

Lemma chars_app a b : chars (a +:+ b) = chars a ++ chars b.
Proof. induction a as [|c a IH]; [done|]. rewrite sapp_cons. cbn. f_equal. apply IH. Qed.

Lemma length_chars s : length (chars s) = String.length s.
Proof. induction s as [|c s IH]; [done|]. cbn. f_equal. apply IH. Qed.

Lemma join_snoc sep l g :
  String.concat sep (l ++ [g]) = String.concat sep l +:+ match l with [] => g | _ => sep +:+ g end.
Proof.
  induction l as [|x l IH]; [done|]. cbn [app]. destruct l as [|y l]; [done|].
  change (String.concat sep (x :: (y :: l) ++ [g])) with (x +:+ sep +:+ String.concat sep ((y :: l) ++ [g])).
  rewrite IH. change (String.concat sep (x :: y :: l)) with (x +:+ sep +:+ String.concat sep (y :: l)).
  by rewrite !sapp_assoc.
Qed.

Lemma concat_split_on c s : String.concat (String c "") (split_on c s) = s.
Proof.
  induction s as [|x s IH]; [done|]. cbn [split_on]. destruct (Ascii.eqb x c) eqn:E.
  - apply Ascii.eqb_eq in E as ->. destruct (split_on c s) as [|g l] eqn:Es; [by destruct s; cbn in Es; repeat case_match|].
    change (String.concat (String c "") ("" :: g :: l)) with ("" +:+ String c "" +:+ String.concat (String c "") (g :: l)).
    rewrite IH. by rewrite sapp_nil, sapp_cons, sapp_nil.
  - destruct (split_on c s) as [|g l] eqn:Es; cbn in IH |- *; [by rewrite <- IH|].
    rewrite <- IH. by destruct l.
Qed.

Lemma chars_concat l : chars (String.concat "" l) = concat (map chars l).
Proof.
  induction l as [|g l IH] using rev_ind; [done|]. rewrite join_snoc, chars_app, IH, map_app, concat_app.
  f_equal. destruct l; cbn; by rewrite app_nil_r.
Qed.

(** The check of the loop on the first groups is the check on their number. *)
Lemma folded_check split rest : let compact := chars (String.concat "" split) in
  let n := length compact in
  let whole := compact ++ rest in
  ((15 <=? n)%nat && (n <=? 34)%nat &&
   (foldl mod97 (nth (n - 4) (remainders 0 (skipn 4 whole)) 0) (firstn 4 whole) =? 1)) = true <-> iban_ok split.
Proof.
  intros compact n whole. unfold iban_ok. fold compact. fold n.
  rewrite !andb_true_iff, !Nat.leb_le, Z.eqb_eq.
  assert (H : (15 <= n)%nat -> foldl mod97 (nth (n - 4) (remainders 0 (skipn 4 whole)) 0) (firstn 4 whole) =
    iban_number (skipn 4 compact ++ firstn 4 compact) mod 97).
  { intros Hn. unfold whole. rewrite skipn_app, firstn_app. replace (4 - length compact)%nat with O by lia.
    cbn [skipn firstn]. rewrite app_nil_r, nth_remainders by (rewrite length_app, length_skipn; lia).
    rewrite firstn_app, length_skipn. replace (n - 4 - (length compact - 4))%nat with O by lia.
    cbn [firstn]. rewrite app_nil_r, firstn_all2 by (rewrite length_skipn; lia).
    unfold iban_number. rewrite foldl_app, <- !foldl_mod97. by rewrite Z.mod_0_l. }
  split; intros [Hl Hc]; split; [done| |done|]; [rewrite <- H by lia|rewrite H by lia]; done.
Qed.

Lemma iban_ok_nil : ~ iban_ok [].
Proof. intros [[H _] _]. unfold chars in H. cbn in H. lia. Qed.

(** The loop over the first [k] groups finds the most groups that pass. *)
Lemma drop_groups_spec compact k split : compact = chars (String.concat "" split) -> (k <= length split)%nat ->
  match drop_groups compact (remainders 0 (skipn 4 compact)) (rev (firstn k split))
          (length (chars (String.concat "" (firstn k split)))) (String.length (String.concat " " (firstn k split))) with
  | Some n => exists j, (0 < j <= k)%nat /\ n = String.length (String.concat " " (firstn j split)) /\
      iban_ok (firstn j split) /\ forall i, (j < i <= k)%nat -> ~ iban_ok (firstn i split)
  | None => forall i, (i <= k)%nat -> ~ iban_ok (firstn i split)
  end.
Proof.
  intros Hcompact. induction k as [|k IH]; intros Hk.
  { cbn. intros i Hi. replace i with O by lia. apply iban_ok_nil. }
  specialize (IH ltac:(lia)). destruct (lookup_lt_is_Some_2 split k) as [g Hg]; [lia|].
  pose proof (take_S_r _ _ _ Hg) as Htake. rewrite Htake, rev_app_distr. cbn [rev app drop_groups].
  rewrite <- Htake. set (n := length (chars (String.concat "" (firstn (S k) split)))).
  assert (Hwhole : compact = chars (String.concat "" (firstn (S k) split)) ++
                             chars (String.concat "" (skipn (S k) split))).
  { rewrite Hcompact, <- (firstn_skipn (S k) split) at 1. by rewrite !chars_concat, map_app, concat_app. }
  pose proof (folded_check (firstn (S k) split) (chars (String.concat "" (skipn (S k) split)))) as Hok.
  cbv zeta in Hok. rewrite <- Hwhole in Hok. fold n in Hok.
  destruct (_ && _) eqn:E.
  { exists (S k). split; [lia|]. split; [done|]. split; [by apply Hok|]. intros i Hi. lia. }
  assert (Hbad : ~ iban_ok (firstn (S k) split)) by (intros H; apply Hok in H; congruence).
  assert (Hn : (n - String.length g)%nat = length (chars (String.concat "" (firstn k split)))).
  { unfold n. rewrite Htake, join_snoc, chars_app, length_app. rewrite <- (length_chars g).
    destruct (firstn k split); rewrite ?sapp_nil; lia. }
  rewrite Hn. destruct k as [|k].
  { cbn. intros i Hi. destruct (decide (i = 1%nat)) as [->|]; [done|].
    replace i with O by lia. apply iban_ok_nil. }
  assert (Hs : (String.length (String.concat " " (firstn (S (S k)) split)) - (String.length g + 1))%nat =
               String.length (String.concat " " (firstn (S k) split))).
  { rewrite Htake, join_snoc, slength_app. destruct (firstn (S k) split) as [|x l] eqn:El.
    - destruct split; [cbn in Hk; lia|done].
    - rewrite slength_app. cbn. lia. }
  rewrite Hs. destruct (drop_groups _ _ _ _ _) as [m|].
  - destruct IH as (j & Hj & Hm & Hjok & Hno). exists j. split; [lia|]. split; [done|]. split; [done|].
    intros i Hi. destruct (decide (i = S (S k))) as [->|]; [done|]. apply Hno. lia.
  - intros i Hi. destruct (decide (i = S (S k))) as [->|]; [done|]. apply IH. lia.
Qed.

Lemma slice_to_app a b : slice_to (String.length a) (a +:+ b) = a.
Proof.
  unfold slice_to. induction a as [|c a IH]; [by destruct b|]. rewrite sapp_cons. cbn. by rewrite IH.
Qed.

Lemma concat_firstn sep k l : exists r, String.concat sep l = String.concat sep (firstn k l) +:+ r.
Proof.
  revert k. induction l as [|x l IH]; intros k; [by exists ""; destruct k|].
  destruct k as [|k]; [by exists (String.concat sep (x :: l))|]. destruct (IH k) as [r Hr].
  destruct l as [|y l]; [exists ""; destruct k; cbn; by rewrite sapp_nil_r|].
  change (String.concat sep (x :: y :: l)) with (x +:+ sep +:+ String.concat sep (y :: l)).
  destruct k as [|k].
  - by exists (sep +:+ String.concat sep (y :: l)).
  - cbn [firstn] in *. rewrite Hr. exists r.
    change (String.concat sep (x :: y :: firstn k l)) with (x +:+ sep +:+ String.concat sep (y :: firstn k l)).
    by rewrite !sapp_assoc.
Qed.

(** What [ibanValidLength] takes for an IBAN is the longest prefix of whole groups
    of the match that passes the check (15 to 34 characters, 1 modulo 97); it answers
    -1 exactly when no prefix passes. *)
Theorem iban_prefix_exact (m : string) :
  let split := split_on " "%char m in
  match ibanValidLength m with
  | Some n => exists k, (0 < k <= length split)%nat /\
      slice_to n m = String.concat " " (firstn k split) /\ iban_ok (firstn k split) /\
      forall j, (k < j <= length split)%nat -> ~ iban_ok (firstn j split)
  | None => forall k, (k <= length split)%nat -> ~ iban_ok (firstn k split)
  end.
Proof.
  intros split. pose proof (drop_groups_spec _ (length split) split eq_refl (le_n _)) as H.
  assert (Hm : String.concat " " split = m) by apply concat_split_on.
  rewrite firstn_all, Hm in H. unfold ibanValidLength. fold split.
  destruct (drop_groups _ _ _ _ _) as [n|]; [|done].
  destruct H as (k & Hk & -> & Hok & Hno). exists k. split; [done|]. split; [|by split].
  destruct (concat_firstn " " k split) as [r Hr]. rewrite Hm in Hr. etransitivity; [|apply (slice_to_app _ r)]. by rewrite <- Hr.
Qed.

Module Samples.

Definition found (r : re) (text : string) : list string := map m_text (matches r text).
Definition valid (r : re) (f : Match -> bool) (text : string) : list bool := map f (matches r text).

Example emails : found EMAIL "write to jane.doe+x@mail.example.com, or a@b" = ["jane.doe+x@mail.example.com"].
Proof. vm_compute. reflexivity. Qed.

Example phones :
  found PHONE "Tel:5551234567 (555) 123-4567x8 +1-555-123-4567" = ["5551234567"; "(555) 123-4567"; "+1-555-123-4567"] /\
  valid INTL_PHONE_RE (fun m => phoneShapeOk (m_text m) 8 15) "+46 70 174 06 12" = [true] /\
  valid TRUNK_PHONE_RE (fun m => phoneShapeOk (m_text m) 9 12) "05.03.2024 14.30" = [false].
Proof. vm_compute. split_and!; reflexivity. Qed.

Example numbers :
  found SSN "123-45-6789 1123-45-6789" = ["123-45-6789"] /\
  found IP_ADDRESS "at 10.0.0.255." = ["10.0.0.255"].
Proof. vm_compute. split_and!; reflexivity. Qed.

Example ibans :
  found IBAN_RE "SE45 5000 0000 0583 9825 7466 BIC" = ["SE45 5000 0000 0583 9825 7466 BIC"] /\
  ibanValidLength "SE45 5000 0000 0583 9825 7466 BIC" = Some 29%nat /\
  ibanValidLength "SE45 5000 0000 0583 9825 7467" = None /\
  maskIban "GB82WEST12345698765432" = spaces 22.
Proof. vm_compute. split_and!; reflexivity. Qed.

Example national_numbers :
  valid SE_RE validSe "811228-9874 19811228-9874 8112289874" = [true; true; false] /\
  valid NO_RE validNo "15108695088 15108695089" = [true; false] /\
  valid DK_RE validDk "070761-4285" = [true] /\
  valid FI_RE validFi "131052-308T 131052-308U 131052-308t" = [true; false; true].
Proof. vm_compute. split_and!; reflexivity. Qed.

Example cards : found CARD_RUN_RE "Ref 12 4111 1111 1111 1111 x 12 34" = ["12 4111 1111 1111 1111"].
Proof. vm_compute. reflexivity. Qed.
End Samples.
