(* ===== verification/PiiCards.v ===== *)
(** * Card numbers

    Models [hasCard] and [cardWindows] of
    [src/gateway/src/middlewares/router/pii.ts]: one scan over the runs of at least 13
    digits joined by spaces and dashes, with a moving window of groups.

    The reference is what the comment of the source promises ([retry_windows]): the
    pattern [\b(?:\d[ -]*?){13,19}\b] tried again from the start of every group of
    digits of the text, keeping the matches that pass the Luhn check.
    [card_scan_is_retry_loop]: the scan yields exactly these, in the same order. *)

From Stdlib Require Import ZArith Lia Ascii.
From stdpp Require Import base strings option sets list.
From S2P Require Import Prelude JsValue AccessPolicy Regex PiiPatterns.

#[local] Open Scope string_scope.
#[local] Open Scope list_scope.
#[local] Arguments Nat.leb : simpl never.
#[local] Arguments Nat.ltb : simpl never.
#[local] Arguments Nat.sub : simpl never.

(** ** The scan *)

(** The inner loop: the starts whose window ends with the group read last. *)
Fixpoint starts_ending (fuel : nat) (run : string) (may_end : bool) (from to cum : list nat) (e i : nat)
    : list (nat * nat) * nat :=
  match fuel with
  | O => ([], i)
  | S n =>
      let digits := (nth e cum 0 - nth i cum 0)%nat in
      if (i <? e)%nat && (13 <=? digits)%nat then
        let '(windows, j) := starts_ending n run may_end from to cum e (S i) in
        ((if (digits <=? 19)%nat && may_end && luhnRangeOk run (nth i from 0) (nth (e - 1) to 0)
          then [(nth i from 0, nth (e - 1) to 0)] else []) ++ windows, j)
      else ([], i)
  end.

Definition not_digit (c : ascii) : bool := negb (is_digit c).

(** The outer loop; [rest] is the run from [p] on. *)
Fixpoint scan_groups (fuel : nat) (run : string) (lastOk : bool) (rest : string) (p : nat)
    (from to cum : list nat) (i : nat) : list (nat * nat) :=
  match fuel, rest with
  | O, _ | _, EmptyString => []
  | S n, _ =>
      let q := (p + String.length (take_while is_digit rest))%nat in
      let rest := drop_while is_digit rest in
      let p' := (q + String.length (take_while not_digit rest))%nat in
      let rest := drop_while not_digit rest in
      let from := from ++ [p] in
      let to := to ++ [q] in
      let e := length to in
      let cum := cum ++ [(nth (e - 1) cum 0 + nth (e - 1) to 0 - nth (e - 1) from 0)%nat] in
      let '(windows, j) :=
        starts_ending (S e) run ((p' <? String.length run)%nat || lastOk) from to cum e i in
      windows ++ scan_groups n run lastOk rest p' from to cum j
  end.

Definition run_windows (x : Spot * Spot) : list (nat * nat) :=
  let '(s, e) := x in
  let run := between s e in
  let index := String.length (before s) in
  let lastOk := match after e with String c _ => negb (is_word c) | EmptyString => true end in
  map (fun w => (index + w.1, index + w.2)%nat)
    (scan_groups (String.length run) run lastOk run 0 [] [] [0%nat] (if behind is_word s then 1 else 0)%nat).

Definition cardWindows (text : string) : list (nat * nat) :=
  flat_map run_windows (find_all (S (String.length text)) CARD_RUN_RE "" text).

Definition hasCard (text : string) : bool := negb (bool_decide (cardWindows text = [])).

(** ** The retry loop *)

Definition card_digit : re := Seq digit (Rep true 0 None (Chr sep_char)).
Definition card_re : re := seqs [B; Rep false 13 (Some 19) card_digit; B].

(** The start of a group of digits. *)
Definition group_start (b a : string) : bool :=
  match a with String c _ => is_digit c | EmptyString => false end &&
  match b with String c _ => negb (is_digit c) | EmptyString => true end.

Definition tried (b a : string) : list (nat * nat) :=
  match match_at card_re b a with
  | Some e =>
      let m := between (mkSpot b a []) e in
      if luhnOk (remove_chars not_digit m)
      then [(String.length b, String.length b + String.length m)%nat] else []
  | None => []
  end.

Fixpoint retry (b a : string) : list (nat * nat) :=
  (if group_start b a then tried b a else []) ++
  match a with String c t => retry (String c b) t | EmptyString => [] end.

Definition retry_windows (text : string) : list (nat * nat) := retry "" text.

(** ** What the pattern matches *)

(** The characters a match takes after [k] digits: whole groups until there are 13
    digits, and then to the end of the group. *)
Fixpoint window (in_sep : bool) (k : nat) (a : string) : option nat :=
  match a with
  | EmptyString => if negb in_sep && (13 <=? k)%nat && (k <=? 19)%nat then Some O else None
  | String c r =>
      if is_digit c then S <$> window false (S k) r
      else if in_sep then (if sep_char c then S <$> window true k r else None)
      else if (13 <=? k)%nat then (if (k <=? 19)%nat && negb (is_word c) then Some O else None)
      else if sep_char c then S <$> window true k r else None
  end.

Fixpoint jump (n : nat) (s : Spot) : Spot :=
  match n, after s with
  | S n, String c r => jump n (advance s c r)
  | _, _ => s
  end.

Lemma digit_is_word c : is_digit c = true -> is_word c = true.
Proof. unfold is_word, is_number. intros ->. by rewrite !orb_true_r. Qed.

Lemma sep_not_word c : sep_char c = true -> is_word c = false /\ is_digit c = false.
Proof. destruct c as [[] [] [] [] [] [] [] []]; by vm_compute. Qed.

Lemma digit_not_sep c : is_digit c = true -> sep_char c = false.
Proof. intros H. destruct (sep_char c) eqn:E; [|done]. apply sep_not_word in E as [_ E]. congruence. Qed.

Lemma ways_digit s : ways digit s =
  match after s with String c r => if is_digit c then [advance s c r] else [] | EmptyString => [] end.
Proof. done. Qed.

Definition next_word (a : string) : bool := match a with String c _ => is_word c | EmptyString => false end.

Lemma ways_B s : ways B s = if xorb (behind is_word s) (next_word (after s)) then [s] else [].
Proof.
  unfold B. cbn [ways]. unfold next_word. destruct s as [b a g]. cbn [after].
  destruct (behind is_word _), a as [|c r]; cbn; try done; by destruct (is_word c).
Qed.

Lemma flat_map_flat_map {A B C} (f : B -> list C) (g : A -> list B) l :
  flat_map f (flat_map g l) = flat_map (fun x => flat_map f (g x)) l.
Proof. induction l as [|x l IH]; [done|]. cbn. by rewrite flat_map_app, IH. Qed.

Definition rest_re (k : nat) : re := Seq (Rep false (13 - k) (Some (19 - k)%nat) card_digit) B.

(** After a digit, where [B] is the end of a word. *)
Definition after_digit (s : Spot) : Prop := match before s with String c _ => is_digit c = true | EmptyString => False end.

Lemma B_after_digit s : after_digit s -> ways B s = if next_word (after s) then [] else [s].
Proof.
  intros H. rewrite ways_B. unfold after_digit in H. destruct s as [[|c b] a g]; [done|]. cbn in H |- *.
  rewrite digit_is_word by done. by destruct (next_word a).
Qed.

Lemma ways_rest k s : ways (rest_re k) s =
  match (19 - k)%nat with
  | O => []
  | S _ => flat_map (ways (rest_re (S k))) (ways card_digit s)
  end ++ (if (13 <=? k)%nat then ways B s else []).
Proof.
  unfold rest_re. rewrite ways_seq, ways_rep by done. cbv zeta.
  replace (Nat.pred (13 - k)) with (13 - S k)%nat by lia.
  assert (Hstop : flat_map (ways B) match (13 - k)%nat with O => [s] | S _ => [] end =
                  if (13 <=? k)%nat then ways B s else []).
  { destruct (13 <=? k)%nat eqn:E; [apply Nat.leb_le in E|apply Nat.leb_gt in E].
    - replace (13 - k)%nat with O by lia. cbn [flat_map]. apply app_nil_r.
    - by destruct (13 - k)%nat eqn:E'; [lia|]. }
  destruct (19 - k)%nat as [|h] eqn:Eh; [done|]. rewrite flat_map_app, Hstop. f_equal. cbn [option_map Nat.pred].
  replace h with (19 - S k)%nat by lia. rewrite flat_map_flat_map. apply flat_map_ext. intros x. done.
Qed.

Lemma ways_no_digit k s :
  match after s with String c _ => is_digit c = false | EmptyString => True end ->
  ways (rest_re k) s = if (13 <=? k)%nat then ways B s else [].
Proof.
  intros H. rewrite ways_rest. assert (ways card_digit s = []) as ->.
  { unfold card_digit. rewrite ways_seq, ways_digit. destruct (after s) as [|c r]; [done|]. by rewrite H. }
  by destruct (19 - k)%nat.
Qed.

Lemma window_too_long k a : (19 < k)%nat -> window false k a = None.
Proof.
  revert k. induction a as [|c r IH]; intros k Hk; cbn.
  - replace (k <=? 19)%nat with false by (symmetry; apply Nat.leb_gt; lia). by rewrite andb_false_r.
  - rewrite IH by lia. destruct (is_digit c); [done|].
    replace (13 <=? k)%nat with true by (symmetry; apply Nat.leb_le; lia).
    by replace (k <=? 19)%nat with false by (symmetry; apply Nat.leb_gt; lia).
Qed.

#[local] Arguments ways : simpl never.
#[local] Arguments rest_re : simpl never.
#[local] Arguments card_digit : simpl never.

Definition seps : re := Rep true 0 None (Chr sep_char).

Lemma ways_seps s : ways seps s =
  s :: match after s with
       | String c r => if sep_char c then ways seps (advance s c r) else []
       | EmptyString => []
       end.
Proof.
  unfold seps at 1. rewrite ways_rep by done. cbn. f_equal. rewrite ways_chr.
  destruct (after s) as [|c r]; [done|]. destruct (sep_char c); [|done]. apply app_nil_r.
Qed.

Lemma ways_card_digit s : ways card_digit s =
  match after s with
  | String c r => if is_digit c then ways seps (advance s c r) else []
  | EmptyString => []
  end.
Proof.
  unfold card_digit. rewrite ways_seq, ways_digit. destruct (after s) as [|c r]; [done|].
  destruct (is_digit c); [|done]. apply app_nil_r.
Qed.

Lemma leb_13_19 k : (k <= 19)%nat -> (k <=? 19)%nat = true.
Proof. intros. by apply Nat.leb_le. Qed.

(** [k] digits in: before a digit, before separators, and after a digit. *)
Definition at_digit (s : Spot) (k : nat) : Prop :=
  hd_error (ways (rest_re k) s) = (fun n => jump n s) <$> window false k (after s).
Definition at_seps (s : Spot) (k : nat) : Prop :=
  hd_error (flat_map (ways (rest_re k)) (ways seps s)) = (fun n => jump n s) <$> window true k (after s).
Definition past_digit (s : Spot) (k : nat) : Prop :=
  hd_error (flat_map (ways (rest_re k)) (ways seps s)) = (fun n => jump n s) <$> window false k (after s).

Definition digit_next (s : Spot) : Prop := match after s with String c _ => is_digit c = true | EmptyString => False end.

Lemma past_digit_ok s k : (0 < k <= 19)%nat -> after_digit s ->
  (digit_next s -> at_digit s k) ->
  (forall c r, after s = String c r -> (k < 13)%nat -> at_seps (advance s c r) k) -> past_digit s k.
Proof.
  intros Hk Hs Hd Hseps. unfold past_digit, at_digit, at_seps, digit_next in *. rewrite ways_seps. cbn [flat_map].
  destruct (after s) as [|c r] eqn:Ea.
  - rewrite ways_no_digit, B_after_digit by (rewrite ?Ea; done). rewrite Ea. cbn.
    rewrite leb_13_19 by lia. by destruct (13 <=? k)%nat.
  - destruct (is_digit c) eqn:Ec.
    + rewrite digit_not_sep by done. cbn [flat_map]. rewrite app_nil_r. by apply Hd.
    + rewrite ways_no_digit, B_after_digit by (rewrite ?Ea; done). rewrite Ea. cbn [window next_word]. rewrite Ec.
      rewrite leb_13_19 by lia. destruct (13 <=? k)%nat eqn:E13.
      * destruct (is_word c) eqn:Ew; [|done]. destruct (sep_char c) eqn:Es; [|done].
        apply sep_not_word in Es as [Es _]. congruence.
      * cbn [app]. apply Nat.leb_gt in E13. destruct (sep_char c) eqn:Es; [|done].
        rewrite Hseps by done. cbn [after advance]. destruct (window true k r); [|done]. cbn. by rewrite Ea.
Qed.

Lemma at_digit_ok s k c r : (k <= 19)%nat -> ((k < 13)%nat \/ after_digit s) -> after s = String c r ->
  is_digit c = true -> ((k < 19)%nat -> past_digit (advance s c r) (S k)) -> at_digit s k.
Proof.
  intros Hk Hs Ha Hc Hnext. unfold at_digit. rewrite ways_rest, ways_card_digit, Ha, Hc.
  assert (Hstop : (if (13 <=? k)%nat then ways B s else []) = []).
  { destruct (13 <=? k)%nat eqn:E; [|done]. apply Nat.leb_le in E. destruct Hs as [|Hs]; [lia|].
    rewrite B_after_digit, Ha by done. cbn. by rewrite digit_is_word. }
  rewrite Hstop, app_nil_r. cbn [window]. rewrite Hc. destruct (19 - k)%nat eqn:E.
  - rewrite window_too_long by lia. done.
  - unfold past_digit in Hnext. rewrite Hnext by lia. cbn [after advance]. destruct (window false (S k) r); [|done].
    cbn. by rewrite Ha.
Qed.

Lemma at_seps_ok s k : (k < 13)%nat -> (digit_next s -> at_digit s k) ->
  (forall c r, after s = String c r -> at_seps (advance s c r) k) -> at_seps s k.
Proof.
  intros Hk Hd Hseps. unfold at_seps, at_digit, digit_next in *. rewrite ways_seps. cbn [flat_map].
  assert (H13 : (13 <=? k)%nat = false) by (by apply Nat.leb_gt).
  destruct (after s) as [|c r] eqn:Ea; [rewrite ways_no_digit, H13 by (by rewrite Ea); done|].
  cbn [window]. destruct (is_digit c) eqn:Ec.
  - rewrite digit_not_sep by done. cbn [flat_map]. rewrite app_nil_r, Hd by done. cbn [window]. by rewrite Ec.
  - rewrite ways_no_digit, H13 by (by rewrite Ea). cbn [app]. destruct (sep_char c); [|done].
    rewrite Hseps by done. cbn [after advance]. destruct (window true k r); [|done]. cbn. by rewrite Ea.
Qed.

Lemma first_ways n : forall s k, (String.length (after s) <= n)%nat -> (k <= 19)%nat ->
  (digit_next s -> ((k < 13)%nat \/ after_digit s) -> at_digit s k) /\ ((k < 13)%nat -> at_seps s k).
Proof.
  induction n as [|n IH]; intros s k Hn Hk.
  { unfold digit_next. destruct (after s) as [|c r] eqn:Ea; [|cbn in Hn; lia].
    split; [done|]. intros H. apply at_seps_ok; [done| |by intros c r; rewrite Ea].
    unfold digit_next. by rewrite Ea. }
  assert (Hdigit : digit_next s -> ((k < 13)%nat \/ after_digit s) -> at_digit s k).
  { unfold digit_next. destruct (after s) as [|c r] eqn:Ea; [done|]. intros Hc Hs. cbn in Hn.
    apply (at_digit_ok s k c r); try done. intros Hlt. apply past_digit_ok; [lia|done| |].
    - intros Hd. by apply IH; [cbn; lia|lia|done|right].
    - intros d t Ht H13. apply IH; [cbn in *; subst r; cbn in Hn; lia|lia|done]. }
  split; [done|]. intros H13. apply at_seps_ok; [done|by intros; apply Hdigit; [|left]|].
  intros c r Ha. apply IH; [cbn in *; rewrite Ha in Hn; cbn in Hn; lia|done|done].
Qed.

(** The match of the pattern from the start of a group. *)
Lemma card_match b c r : is_digit c = true ->
  match_at card_re b (String c r) =
  if next_word b then None
  else (fun n => jump n (mkSpot b (String c r) [])) <$> window false 0 (String c r).
Proof.
  intros Hc. unfold match_at, card_re, seqs. cbn [foldr].
  set (s := mkSpot b (String c r) []). rewrite ways_seq, ways_B.
  assert (Hb : behind is_word s = next_word b) by (by destruct b). rewrite Hb. cbn [after s next_word].
  rewrite (digit_is_word c) by done. destruct (next_word b); [done|]. cbn [xorb flat_map]. rewrite app_nil_r.
  assert (Heq : ways (Seq (Rep false 13 (Some 19) card_digit) (Seq B Eps)) s = ways (rest_re 0) s).
  { unfold rest_re. rewrite !ways_seq. apply flat_map_ext. intros x. rewrite ways_seq.
    induction (ways B x) as [|y l IH]; [done|]. cbn. by rewrite IH. }
  rewrite Heq. by apply (first_ways (String.length (after s)) s 0%nat (le_n _)); [lia| |left; lia].
Qed.

(** ** Runs *)

(** A run as its groups of digits, each with the separators behind it. *)
Fixpoint run_text (gs : list (string * string)) : string :=
  match gs with
  | [] => ""
  | (d, sp) :: l => d +:+ sp +:+ run_text l
  end.

Definition is_group (d : string) : Prop := d <> "" /\ sforallb is_digit d = true.
Definition is_seps (sp : string) : Prop := sp <> "" /\ sforallb sep_char sp = true.

Fixpoint good_run (gs : list (string * string)) : Prop :=
  match gs with
  | [] => False
  | [(d, sp)] => is_group d /\ sp = ""
  | (d, sp) :: l => is_group d /\ is_seps sp /\ good_run l
  end.

Definition starts_digit (a : string) : bool := match a with String c _ => is_digit c | EmptyString => false end.

(** Nothing of a text belongs to the run before it. *)
Definition ends_run (tail : string) : Prop := starts_digit (drop_while sep_char tail) = false.

Lemma ends_run_head tail : ends_run tail -> starts_digit tail = false.
Proof.
  unfold ends_run. destruct tail as [|c r]; [done|]. cbn. destruct (sep_char c) eqn:E; [|done].
  intros _. by apply sep_not_word in E as [_ E].
Qed.

Lemma take_drop_while p a : a = take_while p a +:+ drop_while p a.
Proof. induction a as [|c r IH]; [done|]. cbn. destruct (p c); [|done]. by rewrite sapp_cons, <- IH. Qed.

Lemma take_while_all p a : sforallb p (take_while p a) = true.
Proof. induction a as [|c r IH]; [done|]. cbn. destruct (p c) eqn:E; [|done]. cbn. by rewrite E, IH. Qed.

Lemma drop_while_head p a : match drop_while p a with String c _ => p c = false | EmptyString => True end.
Proof. induction a as [|c r IH]; [done|]. cbn. by destruct (p c) eqn:E. Qed.

Lemma drop_while_app p w a : sforallb p w = true -> drop_while p (w +:+ a) = drop_while p a.
Proof.
  induction w as [|c w IH]; [done|]. rewrite sapp_cons. cbn. intros H. apply andb_true_iff in H as [-> H]. by apply IH.
Qed.

Lemma take_while_app p w a : sforallb p w = true ->
  match a with String c _ => p c = false | EmptyString => True end -> take_while p (w +:+ a) = w.
Proof.
  intros Hw Ha. induction w as [|c w IH].
  - rewrite sapp_nil. destruct a as [|c r]; [done|]. cbn. by rewrite Ha.
  - rewrite sapp_cons. cbn in Hw |- *. apply andb_true_iff in Hw as [-> Hw]. by rewrite IH.
Qed.

Lemma starts_digit_false a : starts_digit a = false <-> match a with String c _ => is_digit c = false | EmptyString => True end.
Proof. by destruct a. Qed.

(** A text that starts with a digit starts with a run. *)
Lemma run_exists n : forall a, (String.length a <= n)%nat -> starts_digit a = true ->
  exists gs tail, a = run_text gs +:+ tail /\ good_run gs /\ ends_run tail.
Proof.
  induction n as [|n IH]; intros a Hn Ha; [by destruct a; [|cbn in Hn; lia]|].
  set (d := take_while is_digit a). set (x := drop_while is_digit a).
  assert (Hax : a = d +:+ x) by apply take_drop_while.
  assert (Hd : is_group d).
  { split; [|apply take_while_all]. unfold d. destruct a as [|c r]; [done|]. cbn in Ha |- *. by rewrite Ha. }
  set (sp := take_while sep_char x). set (y := drop_while sep_char x).
  assert (Hxy : x = sp +:+ y) by apply take_drop_while.
  destruct (starts_digit y) eqn:Ey; cycle 1.
  { exists [(d, "")], x. cbn. rewrite sapp_nil, sapp_nil_r. split_and!; try done; apply Hd. }
  assert (Hsp : is_seps sp).
  { split; [|apply take_while_all]. intros Hsp. rewrite Hsp, sapp_nil in Hxy. subst y.
    pose proof (drop_while_head is_digit a) as Hh. fold x in Hh. rewrite <- Hxy in Ey.
    destruct x; [done|]. cbn in Ey. congruence. }
  destruct (IH y) as (gs & tail & Hy & Hgs & Htail); [|done|].
  { rewrite Hax, Hxy, !slength_app in Hn. destruct Hd as [Hd _]. destruct d; [done|]. cbn in Hn. lia. }
  exists ((d, sp) :: gs), tail. cbn [run_text]. split; [by rewrite Hax, Hxy, Hy, !sapp_assoc|]. split; [|done].
  cbn. destruct gs; [done|]. by split_and!.
Qed.

(** [window] on a run: the groups from a start. *)
Fixpoint gwindow (ok : bool) (k : nat) (gs : list (string * string)) : option nat :=
  match gs with
  | [] => None
  | (d, sp) :: l =>
      let k := (k + String.length d)%nat in
      if (13 <=? k)%nat
      then if (k <=? 19)%nat && (negb (bool_decide (l = [])) || ok) then Some (String.length d) else None
      else (fun n => String.length d + String.length sp + n)%nat <$> gwindow ok k l
  end.

Lemma window_digits d k a : sforallb is_digit d = true ->
  window false k (d +:+ a) = Nat.add (String.length d) <$> window false (k + String.length d) a.
Proof.
  revert k. induction d as [|c d IH]; intros k Hd.
  - rewrite sapp_nil. cbn. rewrite Nat.add_0_r. by destruct (window false k a).
  - rewrite sapp_cons. cbn in Hd |- *. apply andb_true_iff in Hd as [-> Hd]. rewrite IH by done.
    replace (S k + String.length d)%nat with (k + S (String.length d))%nat by lia. by destruct (window _ _ a).
Qed.

Lemma window_seps sp k a : sforallb sep_char sp = true ->
  window true k (sp +:+ a) = Nat.add (String.length sp) <$> window true k a.
Proof.
  induction sp as [|c sp IH]; intros Hsp.
  - rewrite sapp_nil. cbn. by destruct (window true k a).
  - rewrite sapp_cons. cbn in Hsp |- *. apply andb_true_iff in Hsp as [Hc Hsp]. rewrite Hc, IH by done.
    destruct (sep_not_word c Hc) as [_ ->]. by destruct (window _ _ a).
Qed.

Lemma window_no_more k tail : ends_run tail -> window true k tail = None.
Proof.
  unfold ends_run. induction tail as [|c r IH]; [done|]. cbn. destruct (sep_char c) eqn:E.
  - intros H. destruct (sep_not_word c E) as [_ ->]. by rewrite IH.
  - cbn. intros ->. done.
Qed.

Lemma window_tail k tail : ends_run tail ->
  window false k tail = if (13 <=? k)%nat && (k <=? 19)%nat && negb (next_word tail) then Some O else None.
Proof.
  intros H. pose proof (ends_run_head _ H) as Hd. destruct tail as [|c r]; cbn [window next_word negb].
  - by rewrite andb_true_r.
  - cbn in Hd. rewrite Hd. destruct (13 <=? k)%nat; [done|]. cbn [andb].
    pose proof (window_no_more k _ H) as Hn. cbn in Hn. rewrite Hd in Hn. done.
Qed.

Lemma window_run gs tail : forall k, good_run gs -> ends_run tail ->
  window false k (run_text gs +:+ tail) = gwindow (negb (next_word tail)) k gs.
Proof.
  induction gs as [|[d sp] l IH]; intros k Hg Ht; [done|]. cbn [run_text gwindow]. cbv zeta.
  assert (Hd : is_group d) by (destruct l; apply Hg). destruct Hd as [_ Hd].
  rewrite sapp_assoc, window_digits by done. set (k' := (k + String.length d)%nat).
  destruct l as [|g l].
  - destruct Hg as [_ ->]. cbn [run_text gwindow]. rewrite !sapp_nil, window_tail by done.
    rewrite bool_decide_eq_true_2 by done. cbn [negb orb].
    destruct (13 <=? k')%nat; [|done]. cbn [andb]. destruct (_ && _); [|done]. cbn. by rewrite Nat.add_0_r.
  - destruct Hg as (_ & [Hne Hsp] & Hl). rewrite bool_decide_eq_false_2 by done. cbn [negb orb]. rewrite andb_true_r.
    assert (Hx : window false k' ((sp +:+ run_text (g :: l)) +:+ tail) =
      if (13 <=? k')%nat then (if (k' <=? 19)%nat then Some O else None)
      else window true k' ((sp +:+ run_text (g :: l)) +:+ tail)).
    { destruct sp as [|c sp]; [done|]. rewrite !sapp_cons. cbn [window]. cbn in Hsp.
      apply andb_true_iff in Hsp as [Hc _]. destruct (sep_not_word c Hc) as [-> ->]. rewrite andb_true_r.
      by destruct (13 <=? k')%nat. }
    rewrite Hx. destruct (13 <=? k')%nat; [destruct (k' <=? 19)%nat; [|done]; cbn; by rewrite Nat.add_0_r|].
    rewrite sapp_assoc, window_seps by done. specialize (IH k' Hl Ht).
    assert (Hin : window true k' (run_text (g :: l) +:+ tail) = window false k' (run_text (g :: l) +:+ tail)).
    { destruct g as [d' sp']. assert (Hd' : is_group d') by (destruct l; apply Hl). destruct Hd' as [Hne' Hd'].
      destruct d' as [|c d']; [done|]. cbn [run_text]. rewrite !sapp_cons. cbn in Hd' |- *.
      by apply andb_true_iff in Hd' as [-> _]. }
    rewrite Hin, IH. destruct (gwindow _ k' (g :: l)); [|done]. cbn. f_equal. lia.
Qed.

(** ** What [CARD_RUN_RE] matches *)

Lemma jump_app w a : forall s, after s = w +:+ a ->
  jump (String.length w) s = mkSpot (srev_onto w (before s)) a (groups s).
Proof.
  induction w as [|c w IH]; intros s Hs.
  - rewrite sapp_nil in Hs. cbn. apply spot_eq; by rewrite ?Hs.
  - rewrite sapp_cons in Hs. cbn [String.length jump]. rewrite Hs. by rewrite IH.
Qed.

Lemma hd_flat_map {A B} (f : A -> list B) x l : f x <> [] -> hd_error (flat_map f (x :: l)) = hd_error (f x).
Proof. cbn. by destruct (f x). Qed.

(** A greedy class takes all it can. *)
Lemma star_class p a : forall s, after s = a -> exists l,
  ways (star (Chr p)) s =
  mkSpot (srev_onto (take_while p a) (before s)) (drop_while p a) (groups s) :: l.
Proof.
  induction a as [|c r IH]; intros s Hs; unfold star; rewrite ways_rep by done; cbn zeta; rewrite ways_chr, Hs; cbn.
  - exists []. f_equal. by apply spot_eq.
  - destruct (p c); cbn.
    + destruct (IH (advance s c r) eq_refl) as [l Hl]. unfold star in Hl. cbn [option_map]. rewrite Hl. cbn. by eexists.
    + exists []. f_equal. by apply spot_eq.
Qed.

Lemma plus_class p a : forall s, after s = a -> take_while p a <> "" -> exists l,
  ways (plus (Chr p)) s =
  mkSpot (srev_onto (take_while p a) (before s)) (drop_while p a) (groups s) :: l.
Proof.
  intros s Hs Hne. unfold plus. rewrite ways_rep by done. cbn zeta. rewrite ways_chr, Hs.
  destruct a as [|c r]; [done|]. cbn in Hne |- *. destruct (p c); [|done]. cbn.
  destruct (star_class p r (advance s c r) eq_refl) as [l Hl]. unfold star in Hl. rewrite Hl. cbn. by eexists.
Qed.

Lemma plus_class_none p s : match after s with String c _ => p c = false | EmptyString => True end ->
  ways (plus (Chr p)) s = [].
Proof.
  intros H. unfold plus. rewrite ways_rep by done. cbn zeta. rewrite ways_chr.
  destruct (after s) as [|c r]; [done|]. by rewrite H.
Qed.

(** The separators and the digits of one more group. *)
Definition more_re : re := Seq (plus (Chr sep_char)) (plus digit).

Lemma more_none s : ends_run (after s) -> ways more_re s = [].
Proof.
  intros H. unfold more_re. rewrite ways_seq. apply elem_of_nil_inv. intros y Hy.
  apply elem_of_flat_map in Hy as (x & Hx & Hy).
  apply (ways_star_chr _ _ _ _ eq_refl) in Hx as (w & Hw & _ & [Ha _] & _).
  unfold digit in Hy. rewrite plus_class_none in Hy; [by apply not_elem_of_nil in Hy|].
  unfold ends_run in H. rewrite Ha, drop_while_app in H by done.
  apply starts_digit_false. destruct (starts_digit (after x)) eqn:E; [|done].
  destruct (after x) as [|c r]; [done|]. cbn in E, H. rewrite digit_not_sep in H by done. cbn in H. congruence.
Qed.

Lemma more_first s sp d a : after s = sp +:+ d +:+ a -> is_seps sp -> is_group d -> starts_digit a = false ->
  exists l, ways more_re s = mkSpot (srev_onto (sp +:+ d) (before s)) a (groups s) :: l.
Proof.
  intros Hs [Hspne Hsp] [Hdne Hd] Ha. unfold more_re. rewrite ways_seq.
  assert (Hhead : match d +:+ a with String c _ => sep_char c = false | EmptyString => True end).
  { destruct d as [|c d]; [done|]. rewrite sapp_cons. cbn in Hd. apply andb_true_iff in Hd as [Hd _]. by apply digit_not_sep. }
  destruct (plus_class sep_char (after s) s eq_refl) as [l ->]; [by rewrite Hs, take_while_app|].
  rewrite Hs, take_while_app, drop_while_app by done. cbn [flat_map].
  set (x := mkSpot _ _ _). assert (Hx : after x = d +:+ a).
  { cbn. destruct d as [|c d]; [done|]. rewrite sapp_cons in Hhead |- *. cbn. by rewrite Hhead. }
  apply starts_digit_false in Ha.
  destruct (plus_class is_digit (after x) x eq_refl) as [l' Hl]; [by rewrite Hx, take_while_app|].
  unfold digit. rewrite Hl, Hx, take_while_app, drop_while_app by done. cbn. rewrite srev_onto_app.
  assert (drop_while is_digit a = a) as -> by (destruct a as [|c r]; [done|]; cbn; by rewrite Ha).
  by eexists.
Qed.

Lemma star_not_nil a s : ways (star a) s <> [].
Proof.
  unfold star. change (ways (Rep false 0 None a) s) with (iterate (ways a) false (String.length (after s)) 0 None s).
  destruct (String.length (after s)); cbn; [done|]. by destruct (flat_map _ _).
Qed.

(** The groups of a run but the first. *)
Lemma star_more gs : forall sp tail s,
  match gs with [] => sp = "" | _ => is_seps sp /\ good_run gs end -> ends_run tail ->
  after s = sp +:+ run_text gs +:+ tail ->
  exists l, ways (star more_re) s = mkSpot (srev_onto (sp +:+ run_text gs) (before s)) tail (groups s) :: l.
Proof.
  induction gs as [|[d sp'] gs IH]; intros sp tail s Hg Ht Hs; unfold star; rewrite ways_rep by done; cbn zeta.
  - subst sp. cbn [run_text] in Hs |- *. rewrite !sapp_nil in Hs |- *.
    rewrite more_none by (by rewrite Hs). exists []. cbn. f_equal. by apply spot_eq.
  - destruct Hg as [Hsp Hg]. assert (Hd : is_group d) by (destruct gs; apply Hg).
    cbn [run_text] in Hs. rewrite sapp_assoc in Hs. rewrite sapp_assoc in Hs.
    destruct (more_first s sp d (sp' +:+ run_text gs +:+ tail)) as [l Hl]; [done|done|done| |].
    { destruct gs as [|g gs].
      - destruct Hg as [_ ->]. rewrite sapp_nil. cbn. rewrite ?sapp_nil. by apply ends_run_head.
      - destruct Hg as (_ & [Hne Hall] & _). destruct sp' as [|c r]; [done|]. rewrite sapp_cons. cbn in Hall |- *.
        apply andb_true_iff in Hall as [Hc _]. by apply sep_not_word in Hc as [_ ->]. }
    rewrite Hl. cbn [flat_map option_map Nat.pred]. set (x := mkSpot _ _ _) in *.
    destruct (IH sp' tail x) as [l' Hl']; [destruct gs; [apply Hg|split; apply Hg]|done|done|].
    unfold star in Hl'. rewrite Hl'. cbn [app run_text before groups x]. rewrite !srev_onto_app. by eexists.
Qed.

(** *** The lookahead *)

(** The digits of the run that starts here. *)
Fixpoint avail (a : string) : nat :=
  match a with
  | String c r => if is_digit c then S (avail r) else if sep_char c then avail r else O
  | EmptyString => O
  end.

Definition next_digit_re : re := Seq (star (Chr sep_char)) digit.

Lemma avail_seps w a : sforallb sep_char w = true -> avail (w +:+ a) = avail a.
Proof.
  induction w as [|c w IH]; [done|]. rewrite sapp_cons. cbn. intros H. apply andb_true_iff in H as [Hc H].
  destruct (sep_not_word c Hc) as [_ ->]. rewrite Hc. by apply IH.
Qed.

Lemma next_digit_avail s y : y ∈ ways next_digit_re s -> avail (after s) = S (avail (after y)).
Proof.
  unfold next_digit_re. rewrite ways_seq. intros H. apply elem_of_flat_map in H as (x & Hx & Hy).
  apply (ways_star_chr _ _ _ _ eq_refl) in Hx as (w & Hw & _ & [Ha _] & _). rewrite Ha, avail_seps by done.
  rewrite ways_digit in Hy. destruct (after x) as [|c r]; [by apply not_elem_of_nil in Hy|].
  destruct (is_digit c) eqn:E; [|by apply not_elem_of_nil in Hy].
  apply list_elem_of_singleton in Hy as ->. cbn. by rewrite E.
Qed.

Lemma next_digit_exists s n : avail (after s) = S n -> exists y, y ∈ ways next_digit_re s.
Proof.
  intros H. unfold next_digit_re.
  assert (Hx : exists w c r, after s = w +:+ String c r /\ sforallb sep_char w = true /\ is_digit c = true).
  { revert H. generalize (after s). clear. intros a. induction a as [|c r IH]; [done|]. cbn.
    destruct (is_digit c) eqn:Ec; [by exists "", c, r|]. destruct (sep_char c) eqn:Es; [|done].
    intros H. destruct (IH H) as (w & d & t & -> & Hw & Hd). exists (String c w), d, t. rewrite sapp_cons. cbn.
    by rewrite Es. }
  destruct Hx as (w & c & r & Ha & Hw & Hc). set (x := mkSpot (srev_onto w (before s)) (String c r) (groups s)).
  exists (advance x c r). rewrite ways_seq. apply elem_of_flat_map. exists x. split.
  - apply (ways_star_chr _ _ _ _ eq_refl). exists w. split; [done|]. split; [lia|]. done.
  - rewrite ways_digit. cbn. rewrite Hc. by apply list_elem_of_singleton.
Qed.

Lemma times_avail n : forall s, ways (times n next_digit_re) s <> [] <-> (n <= avail (after s))%nat.
Proof.
  induction n as [|n IH]; intros s; unfold times; rewrite ways_rep by done; cbn zeta.
  { split; [lia|done]. }
  cbn [Nat.pred option_map]. rewrite app_nil_r. split.
  - intros H. destruct (flat_map _ _) as [|z l] eqn:E; [done|].
    assert (Hz : z ∈ flat_map (ways (times n next_digit_re)) (ways next_digit_re s)) by (unfold times; rewrite E; by left).
    apply elem_of_flat_map in Hz as (y & Hy & Hz). apply next_digit_avail in Hy. rewrite Hy.
    apply le_n_S, IH. intros Hn. rewrite Hn in Hz. by apply not_elem_of_nil in Hz.
  - intros H Hnil. destruct (avail (after s)) as [|m] eqn:Em; [lia|].
    destruct (next_digit_exists s m Em) as [y Hy]. pose proof (next_digit_avail s y Hy) as Hav.
    assert (Hne : ways (times n next_digit_re) y <> []) by (apply IH; lia).
    destruct (ways (times n next_digit_re) y) as [|z l] eqn:Ez; [done|].
    apply (not_elem_of_nil z). rewrite <- Hnil. apply elem_of_flat_map. exists y. split; [done|].
    unfold times in Ez. rewrite Ez. by left.
Qed.

(** The match is the whole run, when it has 13 digits. *)
Lemma run_match b gs tail : good_run gs -> ends_run tail ->
  match_at CARD_RUN_RE b (run_text gs +:+ tail) =
  if (13 <=? avail (run_text gs +:+ tail))%nat
  then Some (mkSpot (srev_onto (run_text gs) b) tail []) else None.
Proof.
  intros Hg Ht. destruct gs as [|[d sp] gs]; [done|]. assert (Hd : is_group d) by (destruct gs; apply Hg).
  unfold match_at, CARD_RUN_RE, seqs. cbn [foldr]. rewrite ways_seq, ways_digit. destruct Hd as [Hne Hd].
  destruct d as [|c d]; [done|]. cbn [run_text]. rewrite !sapp_cons. cbn [after]. cbn in Hd.
  apply andb_true_iff in Hd as [Hc Hd]. rewrite Hc. cbn [flat_map]. rewrite app_nil_r.
  cbn [avail]. rewrite Hc. set (s := advance _ c _). rewrite ways_seq.
  assert (Has : after s = d +:+ sp +:+ run_text gs +:+ tail) by (cbn; by rewrite !sapp_assoc).
  change (ways (Ahead false (times 12 (Seq (star (Chr sep_char)) digit))) s) with
    (match ways (times 12 next_digit_re) s with
     | e :: _ => [mkSpot (before s) (after s) (groups e)] | [] => [] end).
  pose proof (times_avail 12 s) as Hav.
  change (avail ((d +:+ sp +:+ run_text gs) +:+ tail)) with (avail (after s)).
  destruct (ways (times 12 next_digit_re) s) as [|e l] eqn:E.
  { cbn [flat_map hd_error]. destruct (13 <=? S (avail (after s)))%nat eqn:E13; [|done].
    apply Nat.leb_le in E13. by destruct (proj2 Hav ltac:(lia)). }
  assert (H12 : (12 <= avail (after s))%nat) by (by apply Hav).
  replace (13 <=? S (avail (after s)))%nat with true by (symmetry; apply Nat.leb_le; lia).
  assert (Hge : groups e = groups s) by (apply (ways_groups (times 12 next_digit_re)); [done|rewrite E; by left]).
  rewrite Hge. cbn [flat_map]. rewrite app_nil_r. replace (mkSpot (before s) (after s) (groups s)) with s by (by destruct s).
  rewrite ways_seq. change (star digit) with (star (Chr is_digit)). destruct (star_class is_digit (after s) s eq_refl) as [l' ->]. cbn [flat_map].
  rewrite ways_seq. set (x := mkSpot _ _ _).
  assert (Hafter : match sp +:+ run_text gs +:+ tail with String c _ => is_digit c = false | EmptyString => True end).
  { apply starts_digit_false. destruct gs as [|g gs].
    - destruct Hg as [_ ->]. cbn. by apply ends_run_head.
    - destruct Hg as (_ & [Hspne Hall] & _). destruct sp as [|k r]; [done|]. rewrite sapp_cons. cbn in Hall |- *.
      apply andb_true_iff in Hall as [Hk _]. by apply sep_not_word in Hk as [_ ->]. }
  destruct (star_more gs sp tail x) as [l'' Hl'']; [destruct gs; [apply Hg|split; apply Hg]|done| |].
  { assert (Hx : after x = drop_while is_digit (after s)) by done. rewrite Hx, Has, drop_while_app by done.
    revert Hafter. generalize (sp +:+ run_text gs +:+ tail). intros [|k r]; [done|]. cbn. by intros ->. }
  fold more_re. rewrite Hl''. cbn [flat_map app hd_error].
  assert (Hb : before x = srev_onto (take_while is_digit (after s)) (before s)) by done.
  rewrite Hb, Has, take_while_app, <- srev_onto_app by done. done.
Qed.

Lemma no_run_match b a : starts_digit a = false -> match_at CARD_RUN_RE b a = None.
Proof.
  intros H. unfold match_at, CARD_RUN_RE, seqs. cbn [foldr]. rewrite ways_seq, ways_digit. cbn [after].
  destruct a as [|c r]; [done|]. cbn in H. by rewrite H.
Qed.

(** ** The two pointers *)

Section TwoPointers.
Variable G : list (string * string).
Variable ok : bool.

Notation run := (run_text G).

Definition group_length (g : string * string) : nat := (String.length g.1 + String.length g.2)%nat.

(** Where a group starts and ends, and the digits before it. *)
Definition offset (j : nat) : nat := list_sum (map group_length (take j G)).
Definition digits_before (j : nat) : nat := list_sum (map (fun g => String.length g.1) (take j G)).
Definition group_end (j : nat) : nat := (offset j + String.length (nth j G ("", "")).1)%nat.

Lemma digits_before_S j g : G !! j = Some g -> digits_before (S j) = (digits_before j + String.length g.1)%nat.
Proof.
  intros H. unfold digits_before. rewrite (take_S_r _ _ _ H), map_app, list_sum_app. cbn. lia.
Qed.

Lemma offset_S j g : G !! j = Some g -> offset (S j) = (offset j + group_length g)%nat.
Proof. intros H. unfold offset. rewrite (take_S_r _ _ _ H), map_app, list_sum_app. cbn. lia. Qed.

Lemma digits_before_mono a b : (a <= b)%nat -> (digits_before a <= digits_before b)%nat.
Proof.
  intros H. unfold digits_before. replace b with (a + (b - a))%nat by lia.
  rewrite <- take_take_drop, map_app, list_sum_app. lia.
Qed.

(** The window of the group [j]: the fewest groups with 13 digits. *)
Lemma gwindow_end j e : (j < e <= length G)%nat -> (13 <= digits_before e - digits_before j)%nat ->
  (digits_before (e - 1) - digits_before j < 13)%nat ->
  gwindow ok 0 (drop j G) =
  if (digits_before e - digits_before j <=? 19)%nat && ((e <? length G)%nat || ok)
  then Some (group_end (e - 1) - offset j)%nat else None.
Proof.
  intros Hj H13 Hmin.
  enough (H : forall n m, (j <= m < e)%nat -> (e - m <= n)%nat ->
    gwindow ok (digits_before m - digits_before j) (drop m G) =
    if (digits_before e - digits_before j <=? 19)%nat && ((e <? length G)%nat || ok)
    then Some (group_end (e - 1) - offset m)%nat else None).
  { specialize (H (e - j)%nat j ltac:(lia) ltac:(lia)). by rewrite Nat.sub_diag in H. }
  induction n as [|n IH]; intros m Hm Hn; [lia|].
  destruct (lookup_lt_is_Some_2 G m) as [[d sp] Hg]; [lia|]. rewrite (drop_S _ _ _ Hg). cbn [gwindow]. cbv zeta.
  pose proof (digits_before_S _ _ Hg) as HS. cbn [fst] in HS.
  pose proof (digits_before_mono j m ltac:(lia)) as Hjm.
  replace (digits_before m - digits_before j + String.length d)%nat
    with (digits_before (S m) - digits_before j)%nat by lia.
  destruct (decide (S m = e)) as [<-|Hne].
  - replace (13 <=? _)%nat with true by (symmetry; apply Nat.leb_le; lia).
    assert (Hlast : negb (bool_decide (drop (S m) G = [])) = (S m <? length G)%nat).
    { destruct (decide (S m < length G)%nat) as [Hlt|Hge].
      - replace (S m <? length G)%nat with true by (symmetry; by apply Nat.ltb_lt).
        rewrite bool_decide_eq_false_2; [done|]. intros Hnil. apply (f_equal length) in Hnil.
        rewrite length_drop in Hnil. cbn in Hnil. lia.
      - replace (S m <? length G)%nat with false by (symmetry; apply Nat.ltb_ge; lia).
        rewrite bool_decide_eq_true_2; [done|]. apply drop_ge. lia. }
    rewrite Hlast. destruct (_ && _); [|done]. f_equal. unfold group_end.
    replace (S m - 1)%nat with m by lia. rewrite (nth_lookup_Some _ _ _ _ Hg). cbn. lia.
  - pose proof (digits_before_mono (S m) (e - 1) ltac:(lia)).
    replace (13 <=? _)%nat with false by (symmetry; apply Nat.leb_gt; lia).
    rewrite IH by lia. destruct (_ && _); [|done]. cbn. f_equal.
    pose proof (offset_S _ _ Hg) as Ho. unfold group_length in Ho. cbn in Ho.
    assert (Hle : (offset (S m) <= offset (e - 1))%nat).
    { unfold offset. replace (e - 1)%nat with (S m + (e - 1 - S m))%nat by lia.
      rewrite <- take_take_drop, map_app, list_sum_app. lia. }
    unfold group_end. lia.
Qed.

Lemma gwindow_none j : (digits_before (length G) - digits_before j < 13)%nat -> gwindow ok 0 (drop j G) = None.
Proof.
  intros H. enough (Hm : forall n m, (j <= m)%nat -> (length G - m <= n)%nat ->
    gwindow ok (digits_before m - digits_before j) (drop m G) = None).
  { specialize (Hm _ j (le_n _) (le_n _)). by rewrite Nat.sub_diag in Hm. }
  induction n as [|n IH]; intros m Hjm Hn; [by rewrite drop_ge by lia|].
  destruct (decide (m < length G)%nat) as [Hlt|]; [|by rewrite drop_ge by lia].
  destruct (lookup_lt_is_Some_2 G m Hlt) as [[d sp] Hg]. rewrite (drop_S _ _ _ Hg). cbn [gwindow]. cbv zeta.
  pose proof (digits_before_S _ _ Hg) as HS. cbn [fst] in HS.
  pose proof (digits_before_mono j m Hjm). pose proof (digits_before_mono (S m) (length G) ltac:(lia)).
  replace (digits_before m - digits_before j + String.length d)%nat
    with (digits_before (S m) - digits_before j)%nat by lia.
  replace (13 <=? _)%nat with false by (symmetry; apply Nat.leb_gt; lia).
  by rewrite IH by lia.
Qed.

(** The windows of one start. *)
Definition start_windows (j : nat) : list (nat * nat) :=
  match gwindow ok 0 (drop j G) with
  | Some n => if luhnRangeOk run (offset j) (offset j + n) then [(offset j, offset j + n)%nat] else []
  | None => []
  end.

(** The arrays after [e] groups. *)
Definition froms (e : nat) : list nat := map offset (seq 0 e).
Definition ends (e : nat) : list nat := map group_end (seq 0 e).
Definition cums (e : nat) : list nat := map digits_before (seq 0 (S e)).

Lemma nth_map_seq (f : nat -> nat) n i : (i < n)%nat -> nth i (map f (seq 0 n)) 0%nat = f i.
Proof.
  intros H. rewrite (nth_indep _ 0%nat (f 0%nat)) by (by rewrite length_map, length_seq).
  by rewrite map_nth, seq_nth.
Qed.

Lemma map_seq_S (f : nat -> nat) n : map f (seq 0 (S n)) = map f (seq 0 n) ++ [f n].
Proof. by rewrite seq_S, map_app. Qed.

(** The inner loop checks the starts whose window ends here. *)
Lemma starts_ending_spec e : (0 < e <= length G)%nat ->
  forall fuel i, (e - i < fuel)%nat ->
  (forall j, (i <= j < e)%nat -> (digits_before (e - 1) - digits_before j < 13)%nat) ->
  let '(windows, i') := starts_ending fuel run ((e <? length G)%nat || ok) (froms e) (ends e) (cums e) e i in
  (i <= i')%nat /\ windows = flat_map start_windows (seq i (i' - i)) /\
  (forall j, (i' <= j < e)%nat -> (digits_before e - digits_before j < 13)%nat) /\ (i' <= e \/ i' = i)%nat.
Proof.
  intros He. induction fuel as [|n IH]; intros i Hf Hmin; [lia|]. cbn [starts_ending]. cbv zeta.
  unfold cums, froms, ends. rewrite (nth_map_seq _ _ e) by lia.
  destruct (i <? e)%nat eqn:Ei; cbn [andb]; cycle 1.
  { apply Nat.ltb_ge in Ei. rewrite Nat.sub_diag. split_and!; [done|done|lia|by right]. }
  apply Nat.ltb_lt in Ei. rewrite (nth_map_seq _ _ i) by lia.
  destruct (13 <=? _)%nat eqn:E13; cycle 1.
  { apply Nat.leb_gt in E13. rewrite Nat.sub_diag. split_and!; [done|done| |by right].
    intros j Hj. pose proof (digits_before_mono i j ltac:(lia)). lia. }
  apply Nat.leb_le in E13. specialize (IH (S i)). unfold cums, froms, ends in IH.
  destruct (starts_ending n _ _ _ _ _ _ _) as [windows i'].
  destruct IH as (Hi & Hw & Hrest & Hor); [lia|intros j Hj; apply Hmin; lia|].
  split; [lia|]. split; [|split; [done|lia]].
  replace (i' - i)%nat with (S (i' - S i)) by lia. cbn [seq flat_map]. rewrite <- Hw. f_equal.
  rewrite !nth_map_seq by lia. unfold start_windows.
  rewrite (gwindow_end i e) by (try lia; apply Hmin; lia).
  destruct (digits_before e - digits_before i <=? 19)%nat; [|done]. cbn [andb].
  destruct (_ || ok); [|done]. cbn [andb].
  assert (Hle : (offset i <= group_end (e - 1))%nat).
  { assert (offset i <= offset (e - 1))%nat; [|unfold group_end; lia].
    unfold offset. replace (e - 1)%nat with (i + (e - 1 - i))%nat by lia.
    rewrite <- take_take_drop, map_app, list_sum_app. lia. }
  by replace (offset i + (group_end (e - 1) - offset i))%nat with (group_end (e - 1)) by lia.
Qed.
Lemma length_run_text gs : String.length (run_text gs) = list_sum (map group_length gs).
Proof.
  induction gs as [|[d sp] gs IH]; [done|]. cbn [run_text]. rewrite !slength_app, IH.
  change (list_sum (map group_length ((d, sp) :: gs)))
    with (String.length d + String.length sp + list_sum (map group_length gs))%nat. lia.
Qed.

Lemma good_run_lookup gs : good_run gs -> forall e d sp, gs !! e = Some (d, sp) ->
  is_group d /\ ((S e = length gs /\ sp = "") \/ ((S e < length gs)%nat /\ is_seps sp)).
Proof.
  induction gs as [|[d0 sp0] gs IH]; [done|]. intros Hg e d sp He. destruct e as [|e].
  - injection He as <- <-. destruct gs; [split; [apply Hg|left; split; [done|apply Hg]]|].
    split; [apply Hg|]. right. split; [cbn; lia|apply Hg].
  - cbn in He. destruct gs as [|g gs]; [done|]. destruct Hg as (_ & _ & Hg).
    destruct (IH Hg e d sp He) as [Hd Hor]. split; [done|]. cbn in *. destruct Hor as [[? ?]|[? ?]]; [left; split; [lia|done]|right; split; [lia|done]].
Qed.

Hypothesis Hgood : good_run G.

Lemma offset_total : offset (length G) = String.length run.
Proof. unfold offset. by rewrite firstn_all, length_run_text. Qed.

Lemma offset_before_end j : (j <= length G)%nat -> (offset j <? String.length run)%nat = (j <? length G)%nat.
Proof.
  intros Hj. rewrite <- offset_total. destruct (decide (j < length G)%nat) as [Hlt|].
  - replace (j <? length G)%nat with true by (symmetry; by apply Nat.ltb_lt). apply Nat.ltb_lt.
    destruct (lookup_lt_is_Some_2 G j Hlt) as [[d sp] Hg]. pose proof (offset_S _ _ Hg) as Ho.
    destruct (good_run_lookup G Hgood _ _ _ Hg) as [[Hne _] _]. unfold group_length in Ho. cbn in Ho.
    assert (String.length d <> O) by (by destruct d).
    assert (offset (S j) <= offset (length G))%nat; [|lia].
    unfold offset. replace (length G) with (S j + (length G - S j))%nat by lia.
    rewrite <- take_take_drop, map_app, list_sum_app. lia.
  - replace j with (length G) by lia. by rewrite !Nat.ltb_irrefl.
Qed.

(** The first group of what is left of a run. *)
Lemma rest_of_run e d sp : G !! e = Some (d, sp) ->
  let x := run_text (drop (S e) G) in
  run_text (drop e G) = d +:+ sp +:+ x /\
  take_while is_digit (d +:+ sp +:+ x) = d /\ drop_while is_digit (d +:+ sp +:+ x) = sp +:+ x /\
  take_while not_digit (sp +:+ x) = sp /\ drop_while not_digit (sp +:+ x) = x.
Proof.
  intros Hg x. destruct (good_run_lookup G Hgood _ _ _ Hg) as [[Hne Hd] Hor].
  rewrite (drop_S _ _ _ Hg). split; [done|].
  assert (Hx : match x with String c _ => is_digit c = true | EmptyString => True end).
  { unfold x. destruct (drop (S e) G) as [|[d' sp'] l] eqn:El; [done|].
    assert (Hg' : G !! S e = Some (d', sp')) by (by rewrite <- (Nat.add_0_r (S e)), <- lookup_drop, El).
    destruct (good_run_lookup G Hgood _ _ _ Hg') as [[Hne' Hd'] _]. destruct d' as [|c d']; [done|].
    cbn [run_text]. rewrite sapp_cons. cbn in Hd'. by apply andb_true_iff in Hd' as [-> _]. }
  assert (Hsp : sforallb not_digit sp = true).
  { destruct Hor as [[_ ->]|[_ [_ Hsp]]]; [done|]. clear -Hsp. induction sp as [|c sp IH]; [done|]. cbn in Hsp |- *.
    apply andb_true_iff in Hsp as [Hc Hsp]. unfold not_digit at 1. by rewrite (proj2 (sep_not_word c Hc)), IH. }
  assert (Hspx : match sp +:+ x with String c _ => is_digit c = false | EmptyString => True end).
  { destruct Hor as [[Hlast ->]|[_ [Hsne Hs]]].
    - unfold x. by rewrite drop_ge by lia.
    - destruct sp as [|c sp]; [done|]. rewrite sapp_cons. cbn in Hs. apply andb_true_iff in Hs as [Hc _].
      by apply sep_not_word. }
  rewrite (take_while_app is_digit), (drop_while_app is_digit) by done.
  rewrite (drop_while_app not_digit) by done. rewrite take_while_app; [|done|].
  - split; [done|]. split; [destruct (sp +:+ x) as [|c r]; [done|]; cbn; by rewrite Hspx|]. split; [done|].
    clearbody x. destruct x as [|c r]; [done|]. cbn. unfold not_digit. by rewrite Hx.
  - clearbody x. destruct x as [|c r]; [done|]. unfold not_digit. by rewrite Hx.
Qed.

(** The outer loop yields the windows of all starts, in order. *)
Lemma scan_groups_spec fuel : forall e i, (e <= length G)%nat -> (length G - e <= fuel)%nat ->
  (forall j, (i <= j < e)%nat -> (digits_before e - digits_before j < 13)%nat) ->
  scan_groups fuel run ok (run_text (drop e G)) (offset e) (froms e) (ends e) (cums e) i =
  flat_map start_windows (seq i (length G - i)).
Proof.
  assert (Hend : forall i, (forall j, (i <= j < length G)%nat -> (digits_before (length G) - digits_before j < 13)%nat) ->
    flat_map start_windows (seq i (length G - i)) = []).
  { intros i H. apply elem_of_nil_inv. intros x Hx. apply elem_of_flat_map in Hx as (j & Hj & Hx).
    apply elem_of_seq in Hj. unfold start_windows in Hx. rewrite gwindow_none in Hx by (apply H; lia).
    by apply not_elem_of_nil in Hx. }
  induction fuel as [|n IH]; intros e i He Hf Hinv.
  { replace e with (length G) in * by lia. rewrite drop_all, Hend by done. done. }
  destruct (decide (e = length G)) as [->|Hne]; [by rewrite drop_all, Hend|].
  destruct (lookup_lt_is_Some_2 G e) as [[d sp] Hg]; [lia|].
  destruct (rest_of_run e d sp Hg) as (Hrun & Htd & Hdd & Htn & Hdn).
  destruct (good_run_lookup G Hgood _ _ _ Hg) as [[Hdne _] _].
  assert (Hq : (offset e + String.length d)%nat = group_end e).
  { unfold group_end. by rewrite (nth_lookup_Some _ _ _ _ Hg). }
  pose proof (offset_S _ _ Hg) as Ho. unfold group_length in Ho. cbn [fst snd] in Ho.
  pose proof (digits_before_S _ _ Hg) as Hc. cbn [fst] in Hc.
  assert (Hfrom : froms e ++ [offset e] = froms (S e)) by (by unfold froms; rewrite map_seq_S).
  assert (Hto : ends e ++ [group_end e] = ends (S e)) by (by unfold ends; rewrite map_seq_S).
  assert (Hlen : length (ends (S e)) = S e) by (by unfold ends; rewrite length_map, length_seq).
  assert (Hcum : cums e ++ [(nth (S e - 1) (cums e) 0 + nth (S e - 1) (ends (S e)) 0 - nth (S e - 1) (froms (S e)) 0)%nat]
                 = cums (S e)).
  { replace (S e - 1)%nat with e by lia. unfold cums at 2, ends, froms. rewrite !nth_map_seq by lia.
    unfold cums. rewrite (map_seq_S _ (S e)), Hc. do 2 f_equal. lia. }
  rewrite Hrun. destruct d as [|c d]; [done|]. set (text := String c d +:+ _) in *.
  assert (Hscan : scan_groups (S n) run ok text (offset e) (froms e) (ends e) (cums e) i =
    (let '(windows, j) := starts_ending (S (S e)) run ((S e <? length G)%nat || ok) (froms (S e)) (ends (S e)) (cums (S e)) (S e) i in
     windows ++ scan_groups n run ok (run_text (drop (S e) G)) (offset (S e)) (froms (S e)) (ends (S e)) (cums (S e)) j)).
  { unfold text at 1. rewrite sapp_cons. cbn [scan_groups]. rewrite <- sapp_cons. fold text.
    cbv zeta. rewrite Htd, Hdd, Htn, Hdn, Hq, Hto, Hlen, Hfrom, Hcum.
    replace (group_end e + String.length sp)%nat with (offset (S e)) by lia.
    by rewrite offset_before_end by lia. }
  rewrite Hscan. pose proof (starts_ending_spec (S e) ltac:(lia) (S (S e)) i) as Hspec.
  destruct (starts_ending _ _ _ _ _ _ _ _) as [windows j].
  destruct Hspec as (Hij & -> & Hinv' & Hor); [lia| |].
  { replace (S e - 1)%nat with e by lia. intros j' Hj'. destruct (decide (j' = e)) as [->|]; [lia|]. apply Hinv. lia. }
  rewrite IH by (try done; lia). rewrite <- flat_map_app. f_equal.
  destruct (decide (i <= length G)%nat).
  - replace (length G - i)%nat with ((j - i) + (length G - j))%nat by lia. rewrite seq_app. do 2 f_equal. lia.
  - destruct Hor as [? | ->]; [lia|]. by rewrite Nat.sub_diag.
Qed.
End TwoPointers.

(** ** The texts of the windows *)

Lemma substring_0_app n : forall a b, (n <= String.length a)%nat -> String.substring 0 n (a +:+ b) = String.substring 0 n a.
Proof.
  induction n as [|n IH]; intros a b Hn; [by destruct a, b|]. destruct a as [|c a]; [cbn in Hn; lia|].
  rewrite sapp_cons. cbn. rewrite IH; [done|cbn in Hn; lia].
Qed.

Lemma substring_skip a n b : String.substring (String.length a) n (a +:+ b) = String.substring 0 n b.
Proof. induction a as [|c a IH]; [done|]. rewrite sapp_cons. cbn. apply IH. Qed.

Lemma after_jump n : forall s, (n <= String.length (after s))%nat ->
  String.length (after (jump n s)) = (String.length (after s) - n)%nat.
Proof.
  induction n as [|n IH]; intros s Hn; [cbn; lia|]. cbn [jump]. destruct (after s) as [|c r] eqn:E; [cbn in Hn; lia|].
  cbn in Hn. rewrite IH; cbn; lia.
Qed.

Lemma between_jump n s : (n <= String.length (after s))%nat -> between s (jump n s) = slice_to n (after s).
Proof.
  intros Hn. unfold between, slice_to. rewrite after_jump by done.
  by replace (String.length (after s) - (String.length (after s) - n))%nat with n by lia.
Qed.

Lemma slength_slice n s : (n <= String.length s)%nat -> String.length (slice_to n s) = n.
Proof.
  unfold slice_to. revert s. induction n as [|n IH]; intros [|c s] Hn; cbn in *; try lia. rewrite IH; lia.
Qed.

Lemma luhn_total_digits s : forall double, luhn_total (remove_chars not_digit s) double = luhn_total s double.
Proof.
  induction s as [|c s IH]; intros double; [done|]. cbn. unfold not_digit at 1.
  destruct (is_digit c) eqn:E; cbn; rewrite ?E, ?IH; done.
Qed.

Lemma remove_chars_app p a b : remove_chars p (a +:+ b) = remove_chars p a +:+ remove_chars p b.
Proof. induction a as [|c a IH]; [done|]. rewrite sapp_cons. cbn. rewrite IH. by destruct (p c). Qed.

Lemma remove_chars_srev p s : remove_chars p (srev s) = srev (remove_chars p s).
Proof.
  induction s as [|c s IH]; [done|].
  assert (Hs : srev (String c s) = srev s +:+ String c "") by apply (srev_onto_srev s (String c "")).
  rewrite Hs, remove_chars_app, IH. cbn. destruct (p c); [apply sapp_nil_r|].
  symmetry. apply (srev_onto_srev (remove_chars p s) (String c "")).
Qed.

Lemma luhn_of_digits s : luhnOk (remove_chars not_digit s) = luhnOk s.
Proof. unfold luhnOk. by rewrite <- remove_chars_srev, luhn_total_digits. Qed.

Lemma gwindow_bound ok gs : forall k n, gwindow ok k gs = Some n -> (n <= String.length (run_text gs))%nat.
Proof.
  induction gs as [|[d sp] gs IH]; intros k n; [done|]. cbn. rewrite !slength_app.
  destruct (13 <=? _)%nat.
  - destruct (_ && _); [|done]. intros [= <-]. lia.
  - destruct (gwindow _ _ gs) eqn:E; [|done]. intros [= <-]. apply IH in E. lia.
Qed.

Lemma run_text_app a b : run_text (a ++ b) = run_text a +:+ run_text b.
Proof. induction a as [|[d sp] a IH]; [done|]. cbn. by rewrite IH, !sapp_assoc. Qed.

Definition shift (n : nat) (w : nat * nat) : nat * nat := (n + w.1, n + w.2)%nat.

(** ** The retry loop on a run *)

Section RetryRun.
Variable G : list (string * string).
Variable tail : string.
Hypothesis Hgood : good_run G.
Hypothesis Htail : ends_run tail.

Notation ok := (negb (next_word tail)).
Notation windows := (start_windows G ok).

Lemma good_run_drop gs : good_run gs -> forall j, (j < length gs)%nat -> good_run (drop j gs).
Proof.
  induction gs as [|[d sp] gs IH]; [done|]. intros Hg [|j] Hj; [done|]. cbn in Hj |- *.
  destruct gs as [|g gs]; [cbn in Hj; lia|]. apply IH; [apply Hg|cbn in *; lia].
Qed.

Lemma tried_group base b j : (j < length G)%nat -> String.length b = (base + offset G j)%nat ->
  tried b (run_text (drop j G) +:+ tail) = if next_word b then [] else map (shift base) (windows j).
Proof.
  intros Hj Hb. pose proof (good_run_drop G Hgood j Hj) as Hg. set (gs := drop j G) in *.
  unfold tried, start_windows. fold gs.
  assert (Hrun : run_text G = run_text (take j G) +:+ run_text gs) by (unfold gs; by rewrite <- run_text_app, take_drop).
  assert (Hoff : String.length (run_text (take j G)) = offset G j) by apply length_run_text.
  destruct (run_text gs +:+ tail) as [|c r] eqn:Ea.
  { destruct gs as [|[[|x d] sp] gs']; [done| |done]. destruct gs'; by destruct Hg as [[? _] _]. }
  assert (Hc : is_digit c = true).
  { destruct gs as [|[[|x d] sp] gs']; [done|destruct gs'; by destruct Hg as [[? _] _]|].
    cbn [run_text] in Ea. rewrite !sapp_cons in Ea. injection Ea as -> _.
    assert (Hd : is_group (String c d)) by (destruct gs'; apply Hg). destruct Hd as [_ Hd]. cbn in Hd.
    by apply andb_true_iff in Hd as [-> _]. }
  rewrite card_match by done. destruct (next_word b); [done|]. rewrite <- Ea, window_run by done.
  destruct (gwindow ok 0 gs) as [n|] eqn:En; [|done]. cbn [option_fmap option_map fmap].
  apply gwindow_bound in En. set (s := mkSpot b _ _).
  assert (Hn : (n <= String.length (after s))%nat) by (cbn; rewrite slength_app; lia).
  rewrite between_jump, slength_slice by done. rewrite luhn_of_digits. cbn [after s].
  assert (Hslice : String.substring (offset G j) n (run_text G) = slice_to n (run_text gs +:+ tail)).
  { unfold slice_to. rewrite Hrun, <- Hoff, substring_skip, substring_0_app; done. }
  unfold luhnRangeOk, luhnOk. replace (offset G j + n - offset G j)%nat with n by lia. rewrite Hslice, Hb.
  destruct (_ =? 0)%Z; [|done]. cbn. unfold shift. cbn. do 2 f_equal. lia.
Qed.

Lemma retry_digits w : forall b a, starts_digit b = true -> sforallb is_digit w = true ->
  retry b (w +:+ a) = retry (srev_onto w b) a.
Proof.
  induction w as [|c w IH]; intros b a Hb Hw; [done|]. rewrite sapp_cons. cbn in Hw. apply andb_true_iff in Hw as [Hc Hw].
  cbn [retry srev_onto]. rewrite <- IH by done. unfold group_start. destruct b as [|x b]; [done|]. cbn in Hb.
  by rewrite Hb, andb_false_r.
Qed.

Lemma retry_seps w : forall b a, sforallb not_digit w = true -> retry b (w +:+ a) = retry (srev_onto w b) a.
Proof.
  induction w as [|c w IH]; intros b a Hw; [done|]. rewrite sapp_cons. cbn in Hw. apply andb_true_iff in Hw as [Hc Hw].
  cbn [retry srev_onto]. rewrite <- IH by done. unfold group_start. unfold not_digit in Hc. by destruct (is_digit c).
Qed.

Lemma next_word_seps sp b : is_seps sp -> next_word (srev_onto sp b) = false /\ starts_digit (srev_onto sp b) = false.
Proof.
  intros [Hne Hsp]. destruct (srev sp) as [|c r] eqn:E.
  { apply (f_equal srev) in E. rewrite srev_involutive in E. by subst sp. }
  assert (Hc : sep_char c = true).
  { pose proof (sforallb_srev sep_char sp) as H. rewrite E, Hsp in H. cbn in H. by apply andb_true_iff in H as [-> _]. }
  rewrite srev_onto_srev, E, sapp_cons. cbn. by apply sep_not_word.
Qed.

(** The starts of a run, one after the other. *)
Lemma retry_groups base n : forall b j, (j < length G)%nat -> (length G - j <= n)%nat ->
  starts_digit b = false -> String.length b = (base + offset G j)%nat ->
  retry b (run_text (drop j G) +:+ tail) =
  (if next_word b then [] else map (shift base) (windows j)) ++
  map (shift base) (flat_map windows (seq (S j) (length G - S j))) ++
  retry (srev_onto (run_text (drop j G)) b) tail.
Proof.
  induction n as [|n IH]; intros b j Hj Hn Hb Hlen; [lia|].
  pose proof (tried_group base b j Hj Hlen) as Htried.
  destruct (lookup_lt_is_Some_2 G j Hj) as [[d sp] Hg].
  destruct (good_run_lookup G Hgood _ _ _ Hg) as [[Hdne Hd] Hor].
  rewrite (drop_S _ _ _ Hg) in Htried |- *. cbn [run_text] in Htried |- *. set (x := run_text (drop (S j) G)) in *.
  destruct d as [|c d]; [done|]. rewrite !sapp_cons in Htried |- *. cbn [retry]. rewrite Htried.
  cbn in Hd. apply andb_true_iff in Hd as [Hc Hd].
  assert (Hstart : group_start b (String c ((d +:+ sp +:+ x) +:+ tail)) = true).
  { unfold group_start. rewrite Hc. destruct b as [|k b]; [done|]. cbn in Hb. by rewrite Hb. }
  rewrite Hstart. f_equal. rewrite !sapp_assoc, retry_digits by (cbn; done).
  assert (Hspn : sforallb not_digit sp = true).
  { destruct Hor as [[_ ->]|[_ [_ Hsp]]]; [done|]. clear -Hsp. induction sp as [|k sp IH]; [done|]. cbn in Hsp |- *.
    apply andb_true_iff in Hsp as [Hk Hsp]. unfold not_digit at 1. by rewrite (proj2 (sep_not_word k Hk)), IH. }
  rewrite retry_seps by done. cbn [srev_onto]. rewrite !srev_onto_app. set (b' := srev_onto sp _).
  destruct Hor as [[Hlast ->]|[Hmore Hsp]].
  - replace (length G - S j)%nat with O by lia. cbn [seq flat_map map app]. unfold x. by rewrite drop_ge by lia.
  - destruct (next_word_seps sp (srev_onto d (String c b)) Hsp) as [Hw Hs]. fold b' in Hw, Hs.
    unfold x. rewrite (IH b' (S j)); [|lia|lia|done|].
    + rewrite Hw. replace (length G - S j)%nat with (S (length G - S (S j))) by lia. cbn [seq flat_map].
      by rewrite map_app, <- app_assoc.
    + unfold b'. rewrite !slength_srev_onto. cbn. pose proof (offset_S G _ _ Hg) as Ho. unfold group_length in Ho.
      cbn in Ho. lia.
Qed.
End RetryRun.

(** ** The whole text *)

Lemma avail_tail tail : ends_run tail -> avail tail = O.
Proof.
  unfold ends_run. induction tail as [|c r IH]; [done|]. cbn. destruct (sep_char c) eqn:E.
  - destruct (sep_not_word c E) as [_ ->]. by rewrite ?E.
  - cbn. by intros ->.
Qed.

Lemma avail_digits d a : sforallb is_digit d = true -> avail (d +:+ a) = (String.length d + avail a)%nat.
Proof.
  induction d as [|c d IH]; [done|]. rewrite sapp_cons. cbn. intros H. apply andb_true_iff in H as [-> H].
  by rewrite IH.
Qed.

Lemma avail_run gs tail : good_run gs -> ends_run tail ->
  avail (run_text gs +:+ tail) = digits_before gs (length gs).
Proof.
  intros Hg Ht. unfold digits_before. rewrite firstn_all. revert Hg.
  induction gs as [|[d sp] gs IH]; [done|]. intros Hg. assert (Hd : is_group d) by (destruct gs; apply Hg).
  change (list_sum (map (fun g => String.length g.1) ((d, sp) :: gs)))
    with (String.length d + list_sum (map (fun g : string * string => String.length g.1) gs))%nat.
  cbn [run_text]. rewrite !sapp_assoc, avail_digits by apply Hd. f_equal. destruct gs as [|g gs].
  - destruct Hg as [_ ->]. cbn. by apply avail_tail.
  - destruct Hg as (_ & [_ Hsp] & Hg). by rewrite avail_seps, IH.
Qed.

Lemma short_run_no_match b a : (avail a < 13)%nat -> match_at CARD_RUN_RE b a = None.
Proof.
  intros H. destruct (starts_digit a) eqn:E; [|by apply no_run_match].
  destruct (run_exists _ a (le_n _) E) as (gs & tail & -> & Hg & Ht). rewrite run_match by done.
  by replace (13 <=? _)%nat with false by (symmetry; apply Nat.leb_gt; lia).
Qed.

Lemma find_all_skip n r b c t : match_at r b (String c t) = None ->
  find_all (S n) r b (String c t) = find_all (S n) r (String c b) t.
Proof. intros H. cbn [find_all]. cbn [find]. by rewrite H. Qed.

Definition run_char (c : ascii) : bool := is_digit c || sep_char c.

Lemma avail_grows c a : run_char c = true -> (avail a <= avail (String c a))%nat.
Proof. unfold run_char. cbn. destruct (is_digit c); [lia|]. cbn. by intros ->. Qed.

Lemma find_all_short_run n w : forall b a, sforallb run_char w = true -> (avail (w +:+ a) < 13)%nat ->
  find_all (S n) CARD_RUN_RE b (w +:+ a) = find_all (S n) CARD_RUN_RE (srev_onto w b) a.
Proof.
  induction w as [|c w IH]; intros b a Hw Ha; [done|]. rewrite sapp_cons in Ha |- *. cbn in Hw.
  apply andb_true_iff in Hw as [Hc Hw]. pose proof (avail_grows c (w +:+ a) Hc).
  rewrite find_all_skip by (by apply short_run_no_match). apply IH; [done|lia].
Qed.

Lemma run_chars gs : good_run gs -> sforallb run_char (run_text gs) = true.
Proof.
  induction gs as [|[d sp] gs IH]; [done|]. intros Hg. assert (Hd : is_group d) by (destruct gs; apply Hg).
  assert (Hmono : forall p w, (forall c, p c = true -> run_char c = true) -> sforallb p w = true -> sforallb run_char w = true).
  { intros p w Hp. induction w as [|c w IHw]; [done|]. cbn. intros H. apply andb_true_iff in H as [Hc H].
    by rewrite (Hp c Hc), IHw. }
  assert (Hd' : sforallb run_char d = true).
  { apply (Hmono is_digit); [|apply Hd]. unfold run_char. by intros c ->. }
  cbn [run_text]. rewrite !sforallb_append, Hd'. destruct gs as [|g gs]; [by destruct Hg as [_ ->]|].
  destruct Hg as (_ & [_ Hsp] & Hg). rewrite IH by done. rewrite (Hmono sep_char); [done| |done].
  unfold run_char. intros c ->. by rewrite orb_true_r.
Qed.

(** The windows of a run: from its first group, when that is a start, or its second. *)
Lemma run_windows_spec b gs tail : good_run gs -> ends_run tail ->
  run_windows (mkSpot b (run_text gs +:+ tail) [], mkSpot (srev_onto (run_text gs) b) tail []) =
  map (shift (String.length b))
    (flat_map (start_windows gs (negb (next_word tail)))
       (seq (if next_word b then 1 else 0) (length gs - if next_word b then 1 else 0))).
Proof.
  intros Hg Ht. unfold run_windows.
  assert (Hb : between (mkSpot b (run_text gs +:+ tail) []) (mkSpot (srev_onto (run_text gs) b) tail []) = run_text gs).
  { unfold between. cbn [after]. rewrite slength_app, Nat.add_sub. apply slice_to_app. }
  rewrite Hb. cbn [before after]. unfold behind. cbn [before]. fold (next_word b).
  assert (Hok : match tail with String c _ => negb (is_word c) | EmptyString => true end = negb (next_word tail))
    by (by destruct tail).
  rewrite Hok. set (i := if next_word b then 1%nat else 0%nat).
  pose proof (scan_groups_spec gs (negb (next_word tail)) Hg (String.length (run_text gs)) 0 i (Nat.le_0_l _)) as H.
  rewrite drop_0 in H. cbn [froms ends cums seq map] in H. unfold froms, ends, cums in H. cbn [seq map] in H.
  change (offset gs 0) with O in H. change (digits_before gs 0) with O in H.
  rewrite H; [done| |lia]. rewrite <- (offset_total gs), Nat.sub_0_r.
  assert (Hle : forall j, (j <= length gs)%nat -> (j <= offset gs j)%nat).
  { induction j as [|j IHj]; [lia|]. intros Hj. destruct (lookup_lt_is_Some_2 gs j) as [[d sp] Hl]; [lia|].
    rewrite (offset_S _ _ _ Hl). destruct (good_run_lookup gs Hg _ _ _ Hl) as [[Hne _] _].
    unfold group_length. cbn. destruct d; [done|]. cbn. specialize (IHj ltac:(lia)). lia. }
  by apply Hle.
Qed.

Lemma windows_of_short_run gs ok : (digits_before gs (length gs) < 13)%nat -> forall j, start_windows gs ok j = [].
Proof. intros H j. unfold start_windows. rewrite gwindow_none by lia. done. Qed.

(** A run, for both. *)
Lemma retry_of_run b gs tail : good_run gs -> ends_run tail -> starts_digit b = false ->
  retry b (run_text gs +:+ tail) =
  run_windows (mkSpot b (run_text gs +:+ tail) [], mkSpot (srev_onto (run_text gs) b) tail []) ++
  retry (srev_onto (run_text gs) b) tail.
Proof.
  intros Hg Ht Hb. rewrite run_windows_spec by done.
  assert (Hlen : (0 < length gs)%nat) by (destruct gs; [done|cbn; lia]).
  pose proof (retry_groups gs tail Hg Ht (String.length b) (length gs) b 0 Hlen ltac:(lia) Hb) as H.
  rewrite drop_0 in H. rewrite H by (change (offset gs 0) with O; lia). rewrite app_assoc. f_equal.
  destruct (next_word b); [done|]. replace (length gs - 0)%nat with (S (length gs - 1)) by lia.
  cbn [seq flat_map]. by rewrite map_app.
Qed.

Lemma scan_is_retry n : forall fuel b a, (String.length a <= n)%nat -> (n < fuel)%nat ->
  (starts_digit a = true -> starts_digit b = false) ->
  flat_map run_windows (find_all fuel CARD_RUN_RE b a) = retry b a.
Proof.
  induction n as [|n IH]; intros [|fuel] b a Hn Hf Hb; [lia| |lia|].
  { destruct a; [|cbn in Hn; lia]. cbn [find_all find]. by rewrite no_run_match. }
  destruct a as [|c r]; [cbn [find_all find]; by rewrite no_run_match|]. cbn in Hn.
  destruct (starts_digit (String c r)) eqn:Ed; cycle 1.
  { rewrite find_all_skip by (by apply no_run_match). cbn in Ed.
    rewrite (IH (S fuel) (String c b) r); [|lia|lia|done]. cbn [retry]. unfold group_start. by rewrite Ed. }
  destruct (run_exists _ _ (le_n _) Ed) as (gs & tail & Ha & Hg & Ht). rewrite Ha.
  assert (Hlt : (String.length tail <= String.length r)%nat).
  { apply (f_equal String.length) in Ha. rewrite slength_app in Ha. cbn in Ha.
    assert (String.length (run_text gs) <> O); [|lia].
    destruct gs as [|[d sp] gs]; [done|]. assert (Hd : is_group d) by (destruct gs; apply Hg).
    cbn [run_text]. rewrite slength_app. destruct Hd as [Hd _]. destruct d; [done|cbn; lia]. }
  rewrite (retry_of_run b gs tail Hg Ht) by (by apply Hb).
  assert (Htail : starts_digit tail = true -> starts_digit (srev_onto (run_text gs) b) = false).
  { rewrite (ends_run_head _ Ht). done. }
  destruct (13 <=? avail (run_text gs +:+ tail))%nat eqn:E.
  - pose proof (run_match b gs tail Hg Ht) as Hm. rewrite E in Hm.
    assert (Hfind : find CARD_RUN_RE b (run_text gs +:+ tail) =
      Some (mkSpot b (run_text gs +:+ tail) [], mkSpot (srev_onto (run_text gs) b) tail [])).
    { rewrite <- Ha in Hm |- *. cbn [find]. by rewrite Hm. }
    cbn [find_all]. rewrite Hfind. cbn [after before].
    replace (_ <? _)%nat with true; [|symmetry; apply Nat.ltb_lt; rewrite <- Ha; cbn; lia].
    cbn [flat_map]. f_equal. apply IH; [lia|lia|done].
  - apply Nat.leb_gt in E. rewrite find_all_short_run by (try done; by apply run_chars).
    rewrite (IH (S fuel)) by (try done; lia). rewrite run_windows_spec by done.
    assert (Hnil : forall l, flat_map (start_windows gs (negb (next_word tail))) l = []).
    { intros l. induction l as [|j l IHl]; [done|]. cbn. rewrite windows_of_short_run, IHl; [done|].
      by rewrite <- (avail_run gs tail). }
    by rewrite Hnil.
Qed.

Lemma retry_bounds a : forall b w, w ∈ retry b a -> (w.1 < w.2 <= String.length b + String.length a)%nat.
Proof.
  assert (Htried : forall b a w, w ∈ tried b a -> (w.1 < w.2 <= String.length b + String.length a)%nat).
  { intros b a' w. unfold tried, match_at. destruct (hd_error _) as [e|] eqn:E; [|by intros H; apply not_elem_of_nil in H].
    apply hd_error_elem in E. pose proof (eats_consumes card_re eq_refl _ _ E) as Hlt.
    destruct (ways_ahead _ _ _ E) as [m [Hm _]]. rewrite (between_ahead m) by done. cbn [after] in Hm, Hlt.
    rewrite Hm, slength_app in Hlt |- *. destruct (luhnOk _); [|by intros H; apply not_elem_of_nil in H].
    intros ->%list_elem_of_singleton. cbn. lia. }
  induction a as [|c r IH]; intros b w; cbn [retry]; intros [H|H]%elem_of_app.
  - destruct (group_start b ""); [by apply Htried|by apply not_elem_of_nil in H].
  - by apply not_elem_of_nil in H.
  - destruct (group_start b (String c r)); [by apply Htried|by apply not_elem_of_nil in H].
  - apply IH in H. cbn in *. lia.
Qed.

Lemma cardWindows_bounds text w : w ∈ cardWindows text -> (w.1 < w.2 <= String.length text)%nat.
Proof.
  unfold cardWindows. rewrite (scan_is_retry (String.length text)) by (done || lia). apply (retry_bounds text "").
Qed.

(** [C12] The scan for card numbers, which reads every run of digits once, yields
    exactly the windows of the loop that tries the card pattern again from the start
    of every group of digits and keeps the Luhn-valid matches, in the same order. *)
Theorem card_scan_is_retry_loop (text : string) : cardWindows text = retry_windows text.
Proof. apply (scan_is_retry (String.length text)); [done|lia|done]. Qed.

Module Samples.
Example card_windows :
  cardWindows "Ref 12 4111 1111 1111 1111, x4111111111111111 4111-1111-1111-1111" = [(7, 26); (46, 65)]%nat /\
  retry_windows "Ref 12 4111 1111 1111 1111, x4111111111111111 4111-1111-1111-1111" = [(7, 26); (46, 65)]%nat /\
  hasCard "4111 1111 1111 1112" = false.
Proof. vm_compute. split_and!; reflexivity. Qed.

Example overlapping_windows :
  cardWindows "0000 0000 0000 0 0000 0000 0" = retry_windows "0000 0000 0000 0 0000 0000 0".
Proof. vm_compute. reflexivity. Qed.
End Samples.
