(* ===== verification/Pii.v ===== *)
(** * Detection and redaction of personal data

    Models the rest of [src/gateway/src/middlewares/router/pii.ts]: the categories found
    in a text ([detectPiiCategories]), where they are ([findPiiSpans]), the text without
    them ([redactPii]), and the text of a request ([requestText]).

    [detected_is_redacted]: a value category is detected exactly when a match of it is
    reported, so what raises the sensitivity of a call is what the logs leave out.
    [redaction_exact]: the reported spans are in order and apart, they cover exactly the
    characters of the matches, and redaction replaces these characters and no others.
    [request_text_exact]: the text of a request is that of every string at an admitted
    path of its body. *)

From Stdlib Require Import ZArith Lia Ascii.
From stdpp Require Import base strings option sets list.
From S2P Require Import Prelude JsValue Sorting AccessPolicy UrlGuard CacheKey Regex PiiPatterns PiiCards.

#[local] Open Scope string_scope.
#[local] Open Scope list_scope.

(** ** Masking of IBANs *)

(** [text.replace(r, f)] for an expression with the flag g. *)
Fixpoint replace_all (fuel : nat) (r : re) (f : Match -> string) (b a : string) : string :=
  match fuel with
  | O => a
  | S n =>
      match find r b a with
      | None => a
      | Some (s, e) =>
          between (mkSpot b a []) s +:+ f (match_of (s, e)) +:+
          if (String.length (after e) <? String.length (after s))%nat then replace_all n r f (before e) (after e)
          else match after e with
               | String c t => String c (replace_all n r f (String c (before e)) t)
               | EmptyString => ""
               end
      end
  end.

Definition mask_ibans (text : string) : string :=
  replace_all (S (String.length text)) IBAN_RE (fun m => maskIban (m_text m)) "" text.

(** ** [detectPiiCategories] *)

Definition anyValid (r : re) (text : string) (validate : Match -> bool) : bool :=
  existsb validate (matches r text).

Definition containsNordicNationalId (text : string) : bool :=
  existsb (fun d => anyValid d.1 text d.2) DETECTORS.

Definition KEYWORD_CATEGORIES : list (string * list string) :=
  [("health_data", ["diagnosis"; "prescription"; "medication"; "patient id"; "medical record"; "icd-10";
                    "blood pressure"; "lab result"]);
   ("financial_data", ["account number"; "routing number"; "iban"; "swift code"; "tax id"; "vat number"])].

(** [found.add(x)] *)
Definition add_if (b : bool) (x : string) (found : list string) : list string :=
  if b && negb (mem_string x found) then found ++ [x] else found.

Definition value_categories (text : string) : list string :=
  let masked := mask_ibans text in
  let found := add_if (negb (masked =? text)%string) "iban" [] in
  let found := add_if (hasCard masked) "credit_card" found in
  let found := foldl (fun found p => add_if (test p.2 masked) p.1 found) found PATTERNS in
  let found := foldl (fun found '(name, r, validate) =>
                 if mem_string name found then found
                 else add_if (anyValid r masked validate) name found) found VALIDATED in
  add_if (containsNordicNationalId masked) "national_id" found.

Definition detectPiiCategories (text : option string) : list string :=
  match text with
  | None => []
  | Some text =>
      if negb (truthy_string text) then [] else
      let lower := toLowerCase text in
      let found := foldl (fun found c => add_if (existsb (includes lower) c.2) c.1 found)
                     (value_categories text) KEYWORD_CATEGORIES in
      stable_sort string_gt found
  end.

(** ** [findPiiSpans] *)

Record PiiSpan := mkSpan { start : nat; stop : nat; category : string }.

Definition SPAN_PRIORITY : list string :=
  ["iban"; "credit_card"; "national_id"; "ssn"; "email"; "ip_address"; "phone"].

Definition add_span (from to : nat) (c : string) : list PiiSpan :=
  if (from <? to)%nat then [mkSpan from to c] else [].

Definition match_span (c : string) (m : Match) : list PiiSpan :=
  add_span (m_index m) (m_index m + String.length (m_text m)) c.

Definition iban_spans (text : string) : list PiiSpan :=
  flat_map (fun m => match ibanValidLength (m_text m) with
                     | Some n => add_span (m_index m) (m_index m + n) "iban"
                     | None => []
                     end) (matches IBAN_RE text).

Definition validMatches (r : re) (text : string) (validate : Match -> bool) : list Match :=
  List.filter validate (matches r text).

Definition raw_spans (text : string) : list PiiSpan :=
  let masked := mask_ibans text in
  iban_spans text ++
  flat_map (fun w => add_span w.1 w.2 "credit_card") (cardWindows masked) ++
  flat_map (fun p => flat_map (match_span p.1) (matches p.2 masked)) PATTERNS ++
  flat_map (fun '(name, r, validate) => flat_map (match_span name) (validMatches r masked validate)) VALIDATED ++
  flat_map (fun d => flat_map (match_span "national_id") (validMatches d.1 masked d.2)) DETECTORS.

(** [a.start - b.start || b.end - a.end], as a comparison. *)
Definition span_gt (a b : PiiSpan) : bool :=
  (start b <? start a)%nat || ((start a =? start b)%nat && (stop a <? stop b)%nat).

Definition priority (c : string) : Z :=
  match indexOf c SPAN_PRIORITY with Some n => Z.of_nat n | None => (-1)%Z end.

(** One step of the merge; the spans merged so far, the last one first. *)
Definition merge_step (merged : list PiiSpan) (s : PiiSpan) : list PiiSpan :=
  match merged with
  | last :: l =>
      if (start s <? stop last)%nat
      then mkSpan (start last) (Nat.max (stop last) (stop s))
             (if (priority (category s) <? priority (category last))%Z then category s else category last) :: l
      else s :: merged
  | [] => [s]
  end.

Definition merge_spans (spans : list PiiSpan) : list PiiSpan := rev (foldl merge_step [] spans).

Definition findPiiSpans (text : string) : list PiiSpan :=
  if negb (truthy_string text) then [] else merge_spans (stable_sort span_gt (raw_spans text)).

(** ** [redactPii] *)

Definition piiPlaceholder (c : string) : string := "[" +:+ upper c +:+ "]".

(** [text.slice(a, b)] *)
Definition slice (a b : nat) (text : string) : string := String.substring a (b - a) text.

Fixpoint redact_from (text : string) (pos : nat) (spans : list PiiSpan) : string :=
  match spans with
  | [] => slice_from pos text
  | s :: l => slice pos (start s) text +:+ piiPlaceholder (category s) +:+ redact_from text (stop s) l
  end.

Definition redactPii (text : string) : string :=
  match findPiiSpans text with
  | [] => text
  | spans => redact_from text 0 spans
  end.

(** ** [requestText] *)

Definition TEXT_KEYS : list string :=
  ["content"; "text"; "input"; "prompt"; "instructions"; "system"; "arguments"; "output"; "query"; "documents"].
Definition ARG_KEYS : list string := ["input"; "arguments"; "args"].
Definition SKIP_KEYS : list string :=
  ["model"; "image_url"; "file"; "file_data"; "file_id"; "b64_json"; "data"; "audio"; "input_audio"; "source";
   "image"; "mask"; "url"; "tools"; "functions"; "tool_choice"; "response_format"; "metadata"].

(** [typeof v === 'object' && !Array.isArray(v)] *)
Definition object_like (v : json) : bool := match v with JObj _ | JNull => true | _ => false end.

Definition arg_value (k : string) (v : json) : bool := mem_string k ARG_KEYS && object_like v.

Definition MAX_DEPTH : nat := 64.

Fixpoint walk (v : json) (key : string) (all : bool) (depth : nat) : list string :=
  if (MAX_DEPTH <? depth)%nat then [] else
  match v with
  | JStr s => if all || mem_string key TEXT_KEYS then [s] else []
  | JArr l => flat_map (fun item => walk item key all (S depth)) l
  | JObj o =>
      flat_map (fun p => if mem_string p.1 SKIP_KEYS then []
                         else walk p.2 p.1 (all || arg_value p.1 p.2) (S depth)) o
  | _ => []
  end.

Definition requestText (body : json) : string := String.concat " " (walk body "" false 0).

Definition scanRequestBody (body : json) : list string := detectPiiCategories (Some (requestText body)).

(** ** Replacement *)

(** Replacements of the same length leave the text alone only when each of them does. *)
Lemma replace_all_same fuel r f : (forall m, String.length (f m) = String.length (m_text m)) ->
  forall b a, String.length (replace_all fuel r f b a) = String.length a /\
    (replace_all fuel r f b a = a <-> forall p, p ∈ find_all fuel r b a -> f (match_of p) = m_text (match_of p)).
Proof.
  intros Hf. induction fuel as [|n IH]; intros b a; cbn [replace_all find_all].
  { split; [done|]. split; [|done]. intros _ p Hp. by apply not_elem_of_nil in Hp. }
  destruct (find r b a) as [[s e]|] eqn:E.
  2: { split; [done|]. split; [|done]. intros _ p Hp. by apply not_elem_of_nil in Hp. }
  apply find_pieces in E as (w & m & Ha & Hs & _ & _ & Hw & Hm & _ & _). rewrite Hw.
  assert (Htext : m_text (match_of (s, e)) = m) by done.
  set (rest := if (_ <? _)%nat then replace_all n r f (before e) (after e) else _).
  set (later := if (_ <? _)%nat then find_all n r (before e) (after e) else _).
  assert (Hrest : String.length rest = String.length (after e) /\
    (rest = after e <-> forall p, p ∈ later -> f (match_of p) = m_text (match_of p))).
  { unfold rest, later. destruct (_ <? _)%nat; [apply IH|]. destruct (after e) as [|c t].
    - split; [done|]. split; [|done]. intros _ p Hp. by apply not_elem_of_nil in Hp.
    - destruct (IH (String c (before e)) t) as [Hl Hiff]. split; [cbn; by rewrite Hl|]. rewrite <- Hiff.
      split; [by intros [=]|by intros ->]. }
  clearbody rest later. destruct Hrest as [Hl Hiff]. split.
  { rewrite Ha, !slength_app, Hl, Hf, Htext. done. }
  rewrite Ha. split.
  - intros Heq p Hp. apply sapp_inv_head in Heq.
    assert (Hsame : f (match_of (s, e)) = m /\ rest = after e).
    { apply sapp_inv_length; [by rewrite Hf, Htext|done]. }
    destruct Hsame as [Hsame Hr]. apply elem_of_cons in Hp as [->|Hp]; [by rewrite Htext|by apply Hiff].
  - intros H. rewrite (H (s, e)) by (by left). rewrite Htext. rewrite (proj2 Hiff); [done|].
    intros p Hp. apply H. by right.
Qed.

(** ** Masking *)

Lemma drop_groups_bound compact body l : forall nCompact nSpaced n,
  drop_groups compact body l nCompact nSpaced = Some n -> (n <= nSpaced)%nat.
Proof.
  induction l as [|g l IH]; intros nc ns n; [done|]. cbn [drop_groups].
  destruct (_ && _); [by intros [= ->]|]. intros H. apply IH in H. lia.
Qed.

Lemma ibanValidLength_bound m n : ibanValidLength m = Some n -> (n <= String.length m)%nat.
Proof. apply drop_groups_bound. Qed.

Lemma slength_spaces n : String.length (spaces n) = n.
Proof. induction n as [|n IH]; [done|]. cbn. by rewrite IH. Qed.

Lemma slength_slice_from n s : String.length (slice_from n s) = (String.length s - n)%nat.
Proof. revert n. induction s as [|c s IH]; intros [|n]; try done. cbn [slice_from]. by rewrite IH. Qed.

Lemma slength_maskIban m : String.length (maskIban m) = String.length m.
Proof.
  unfold maskIban. destruct (ibanValidLength m) as [n|] eqn:E; [|done]. apply ibanValidLength_bound in E.
  rewrite slength_app, slength_spaces, slength_slice_from. lia.
Qed.

Lemma slength_mask_ibans text : String.length (mask_ibans text) = String.length text.
Proof. by apply replace_all_same; intros m; apply slength_maskIban. Qed.

(** An IBAN starts with a letter. *)
Lemma iban_match_head s e : e ∈ ways IBAN_RE s -> exists c r, between s e = String c r /\ is_upper c = true.
Proof.
  intros He. destruct (ways_ahead _ _ _ He) as [w [Hw _]].
  assert (Hx : exists c r, after s = String c r /\ is_upper c = true).
  { unfold IBAN_RE, seqs in He. cbn [foldr] in He. rewrite ways_seq, ways_B in He.
    destruct (xorb _ _); [|by apply not_elem_of_nil in He]. cbn [flat_map] in He. rewrite app_nil_r, ways_seq in He.
    apply elem_of_flat_map in He as (x & Hx & _). unfold times in Hx. rewrite ways_rep in Hx by done. cbn zeta in Hx.
    rewrite app_nil_r in Hx. apply elem_of_flat_map in Hx as (y & Hy & _). rewrite ways_chr in Hy.
    destruct (after s) as [|c r]; [by apply not_elem_of_nil in Hy|]. exists c, r. split; [done|].
    destruct (is_upper c); [done|by apply not_elem_of_nil in Hy]. }
  destruct Hx as (c & r & Hs & Hc). rewrite (between_ahead w s e Hw).
  pose proof (eats_consumes IBAN_RE eq_refl s e He) as Hlt. rewrite Hw, slength_app in Hlt.
  destruct w as [|d w]; [cbn in Hlt; lia|]. rewrite Hs, sapp_cons in Hw. injection Hw as <- _. by exists c, w.
Qed.

Lemma maskIban_same c r : is_upper c = true ->
  maskIban (String c r) = String c r <-> forall n, ibanValidLength (String c r) = Some n -> n = O.
Proof.
  intros Hc. unfold maskIban. destruct (ibanValidLength (String c r)) as [[|n]|].
  - cbn. split; [by intros _ n [= <-]|done].
  - cbn [spaces]. rewrite sapp_cons. split; [intros [= Hsp _]; by subst c|]. intros H. by specialize (H _ eq_refl).
  - by split.
Qed.

Lemma masked_iff_iban text : mask_ibans text = text <-> iban_spans text = [].
Proof.
  destruct (replace_all_same (S (String.length text)) IBAN_RE (fun m => maskIban (m_text m)) (fun m => slength_maskIban _) "" text)
    as [_ H]. fold (mask_ibans text) in H. rewrite H. clear H. unfold iban_spans, matches.
  assert (Hspan : forall p, p ∈ find_all (S (String.length text)) IBAN_RE "" text ->
    maskIban (m_text (match_of p)) = m_text (match_of p) <->
    match ibanValidLength (m_text (match_of p)) with
    | Some n => add_span (m_index (match_of p)) (m_index (match_of p) + n) "iban" | None => [] end = []).
  { intros [s e] Hp. apply find_all_elem in Hp as [He _]. destruct (iban_match_head s e He) as (c & r & Hm & Hc).
    change (m_text (match_of (s, e))) with (between s e). rewrite Hm, (maskIban_same c r Hc).
    unfold add_span. destruct (ibanValidLength _) as [n|]; [|done].
    destruct (_ <? _)%nat eqn:El; [apply Nat.ltb_lt in El|apply Nat.ltb_ge in El]; split; try done.
    - intros Hn. specialize (Hn n eq_refl). lia.
    - intros _ k [= <-]. lia. }
  revert Hspan. induction (find_all _ _ _ _) as [|p l IH]; intros Hspan; cbn [map flat_map].
  { split; [done|]. intros _ p Hp. by apply not_elem_of_nil in Hp. }
  rewrite app_nil, <- IH, <- Hspan by (try (by left); intros q Hq; apply Hspan; by right).
  split; [intros H; split; [apply H; by left|intros q Hq; apply H; by right]|].
  intros [Hp Hl] q [->|Hq]%elem_of_cons; [done|by apply Hl].
Qed.

(** ** What is detected *)

Lemma elem_add_if b x y l : y ∈ add_if b x l <-> y ∈ l \/ (b = true /\ y = x).
Proof.
  unfold add_if. destruct b; cbn [andb]; [|by split; [left|intros [?|[? _]]]].
  destruct (mem_string x l) eqn:E; cbn [negb].
  - apply mem_string_In in E. split; [by left|]. by intros [?|[_ ->]].
  - rewrite elem_of_app, list_elem_of_singleton. split; [intros [?|?]; [by left|by right]|intros [?|[_ ?]]; [by left|by right]].
Qed.

Lemma elem_fold_add {A} (f : A -> bool) (g : A -> string) l : forall acc y,
  y ∈ foldl (fun found p => add_if (f p) (g p) found) acc l <-> y ∈ acc \/ exists p, p ∈ l /\ f p = true /\ y = g p.
Proof.
  induction l as [|p l IH]; intros acc y; cbn [foldl].
  - split; [by left|]. intros [?|(p & Hp & _)]; [done|by apply not_elem_of_nil in Hp].
  - rewrite IH, elem_add_if. split.
    + intros [[?|[Hf ->]]|(q & Hq & Hf)]; [by left|right; exists p; split; [by left|done]|right; exists q; split; [by right|done]].
    + intros [?|(q & [->|Hq]%elem_of_cons & Hf)]; [by left; left|by left; right|right; by exists q].
Qed.

Lemma elem_fold_validated (any : re -> (Match -> bool) -> bool) l : forall acc y,
  y ∈ foldl (fun found '(name, r, validate) =>
        if mem_string name found then found else add_if (any r validate) name found) acc l <->
  y ∈ acc \/ exists p, p ∈ l /\ any p.1.2 p.2 = true /\ y = p.1.1.
Proof.
  induction l as [|[[name r] v] l IH]; intros acc y; cbn [foldl].
  - split; [by left|]. intros [?|(p & Hp & _)]; [done|by apply not_elem_of_nil in Hp].
  - assert (Hstep : y ∈ (if mem_string name acc then acc else add_if (any r v) name acc) <->
                    y ∈ acc \/ (any r v = true /\ y = name)).
    { destruct (mem_string name acc) eqn:E; [|apply elem_add_if]. apply mem_string_In in E.
      split; [by left|]. by intros [?|[_ ->]]. }
    rewrite IH, Hstep. split.
    + intros [[?|[Hf ->]]|(q & Hq & Hf)];
        [by left|right; exists (name, r, v); split; [by left|done]|right; exists q; split; [by right|done]].
    + intros [?|(q & [->|Hq]%elem_of_cons & Hf)]; [by left; left|by left; right|right; by exists q].
Qed.

Lemma elem_add_span from to c s : (from < to)%nat -> s ∈ add_span from to c <-> s = mkSpan from to c.
Proof. intros H. unfold add_span. replace (_ <? _)%nat with true by (symmetry; by apply Nat.ltb_lt). apply list_elem_of_singleton. Qed.

(** The spans of an expression: its name, for every match. *)
Lemma spans_of_matches c r text ms : eats r = true -> (forall m, m ∈ ms -> m ∈ matches r text) ->
  forall s, s ∈ flat_map (match_span c) ms <->
  exists m, m ∈ ms /\ s = mkSpan (m_index m) (m_index m + String.length (m_text m)) c.
Proof.
  intros Hr Hin s. rewrite elem_of_flat_map. apply exist_proper. intros m. unfold match_span.
  split; intros [Hm Hs]; (split; [done|]).
  - apply Hin in Hm. apply (matches_nonempty r text m Hr) in Hm. apply elem_add_span in Hs; [done|lia].
  - apply Hin in Hm. apply (matches_nonempty r text m Hr) in Hm. apply elem_add_span; [lia|done].
Qed.

Lemma any_elem {A} (f : A -> bool) l : existsb f l = true <-> exists x, x ∈ l /\ f x = true.
Proof. rewrite existsb_exists. by setoid_rewrite list_elem_of_In. Qed.

Lemma test_elem r text : test r text = true <-> exists m, m ∈ matches r text.
Proof.
  rewrite test_matches. destruct (matches r text) as [|m l].
  - rewrite bool_decide_eq_true_2 by done. split; [done|]. intros [m Hm]. by apply not_elem_of_nil in Hm.
  - rewrite bool_decide_eq_false_2 by done. split; [|done]. intros _. exists m. by left.
Qed.

Lemma patterns_eat :
  forallb eats (IBAN_RE :: map snd PATTERNS ++ map (fun x => x.1.2) VALIDATED ++ map fst DETECTORS) = true.
Proof. vm_compute. reflexivity. Qed.

Lemma pattern_eats r : r ∈ IBAN_RE :: map snd PATTERNS ++ map (fun x => x.1.2) VALIDATED ++ map fst DETECTORS -> eats r = true.
Proof. intros H. pose proof patterns_eat as Hall. rewrite forallb_forall in Hall. by apply Hall, list_elem_of_In. Qed.

(** A family of matches has spans of its category exactly when it has matches. *)
Lemma spans_some c r text ms x : eats r = true -> (forall m, m ∈ ms -> m ∈ matches r text) ->
  (exists s, s ∈ flat_map (match_span c) ms /\ category s = x) <-> (exists m, m ∈ ms) /\ x = c.
Proof.
  intros Hr Hin. setoid_rewrite (spans_of_matches c r text ms Hr Hin). split.
  - intros (s & (m & Hm & ->) & <-). split; [by exists m|done].
  - intros [[m Hm] ->]. eexists. split; [by exists m|done].
Qed.

Lemma in_validMatches r text f m : m ∈ validMatches r text f <-> m ∈ matches r text /\ f m = true.
Proof. unfold validMatches. by rewrite !list_elem_of_In, filter_In. Qed.

Lemma valid_match r text f m : m ∈ validMatches r text f -> m ∈ matches r text.
Proof. rewrite in_validMatches. by intros []. Qed.

Lemma anyValid_elem r text f : anyValid r text f = true <-> exists m, m ∈ validMatches r text f.
Proof. unfold anyValid. rewrite any_elem. by setoid_rewrite in_validMatches. Qed.

Lemma exists_app {A} (P : A -> Prop) a b : (exists x, x ∈ a ++ b /\ P x) <-> (exists x, x ∈ a /\ P x) \/ (exists x, x ∈ b /\ P x).
Proof. setoid_rewrite elem_of_app. naive_solver. Qed.

Lemma exists_flat {A B} (f : A -> list B) (P : B -> Prop) l :
  (exists y, y ∈ flat_map f l /\ P y) <-> exists x, x ∈ l /\ exists y, y ∈ f x /\ P y.
Proof. setoid_rewrite elem_of_flat_map. naive_solver. Qed.

Section Categories.
Variable text : string.
Notation masked := (mask_ibans text).

Lemma iban_category x : (exists s, s ∈ iban_spans text /\ category s = x) <-> masked <> text /\ x = "iban".
Proof.
  rewrite masked_iff_iban. split.
  - intros (s & Hs & <-). split; [intros H; rewrite H in Hs; by apply not_elem_of_nil in Hs|].
    unfold iban_spans in Hs. apply elem_of_flat_map in Hs as (m & _ & Hs).
    destruct (ibanValidLength _); [|by apply not_elem_of_nil in Hs]. unfold add_span in Hs.
    destruct (_ <? _)%nat; [|by apply not_elem_of_nil in Hs]. by apply list_elem_of_singleton in Hs as ->.
  - intros [H ->]. destruct (iban_spans text) as [|s l] eqn:E; [done|]. exists s. split; [by left|].
    assert (Hs : s ∈ iban_spans text) by (rewrite E; by left). unfold iban_spans in Hs.
    apply elem_of_flat_map in Hs as (m & _ & Hs).
    destruct (ibanValidLength _); [|by apply not_elem_of_nil in Hs]. unfold add_span in Hs.
    destruct (_ <? _)%nat; [|by apply not_elem_of_nil in Hs]. by apply list_elem_of_singleton in Hs as ->.
Qed.

Lemma card_category x :
  (exists s, s ∈ flat_map (fun w => add_span w.1 w.2 "credit_card") (cardWindows masked) /\ category s = x) <->
  hasCard masked = true /\ x = "credit_card".
Proof.
  rewrite exists_flat. unfold hasCard. rewrite negb_true_iff, bool_decide_eq_false. split.
  - intros (w & Hw & s & Hs & <-). pose proof (cardWindows_bounds _ _ Hw). apply elem_add_span in Hs as ->; [|lia].
    split; [intros Hnil; rewrite Hnil in Hw; by apply not_elem_of_nil in Hw|done].
  - intros [H ->]. destruct (cardWindows masked) as [|w l] eqn:E; [done|].
    assert (Hw : w ∈ cardWindows masked) by (rewrite E; by left). pose proof (cardWindows_bounds _ _ Hw).
    exists w. split; [by left|]. eexists. split; [apply elem_add_span; [lia|done]|done].
Qed.

Lemma pattern_category x :
  (exists s, s ∈ flat_map (fun p => flat_map (match_span p.1) (matches p.2 masked)) PATTERNS /\ category s = x) <->
  exists p, p ∈ PATTERNS /\ test p.2 masked = true /\ x = p.1.
Proof.
  rewrite exists_flat. split; intros (p & Hp & H); exists p; (split; [done|]).
  - apply (spans_some p.1 p.2 masked) in H; [by rewrite test_elem| |done].
    apply pattern_eats. right. apply elem_of_app. left. by apply list_elem_of_fmap_2.
  - apply (spans_some p.1 p.2 masked); [|done|by destruct H as [H ->]; split; [apply test_elem|]].
    apply pattern_eats. right. apply elem_of_app. left. by apply list_elem_of_fmap_2.
Qed.

Lemma validated_category x :
  (exists s, s ∈ flat_map (fun '(name, r, validate) => flat_map (match_span name) (validMatches r masked validate)) VALIDATED
     /\ category s = x) <->
  exists p, p ∈ VALIDATED /\ anyValid p.1.2 masked p.2 = true /\ x = p.1.1.
Proof.
  assert (Heat : forall p, p ∈ VALIDATED -> eats p.1.2 = true).
  { intros p Hp. apply pattern_eats. right. apply elem_of_app. right. apply elem_of_app. left.
    by apply (list_elem_of_fmap_2 (fun x => x.1.2)). }
  rewrite exists_flat. split; intros (p & Hp & H); exists p; (split; [done|]); pose proof (Heat p Hp) as Hr;
    destruct p as [[c r] f]; cbn [fst snd] in *; rewrite anyValid_elem in *.
  - apply (spans_some c r masked) in H; [done|done|]. apply valid_match.
  - apply (spans_some c r masked); [done| |done]. apply valid_match.
Qed.

Lemma national_category x :
  (exists s, s ∈ flat_map (fun d => flat_map (match_span "national_id") (validMatches d.1 masked d.2)) DETECTORS
     /\ category s = x) <->
  containsNordicNationalId masked = true /\ x = "national_id".
Proof.
  assert (Heat : forall p, p ∈ DETECTORS -> eats p.1 = true).
  { intros p Hp. apply pattern_eats. right. apply elem_of_app. right. apply elem_of_app. right. by apply list_elem_of_fmap_2. }
  rewrite exists_flat. unfold containsNordicNationalId. rewrite any_elem. split.
  - intros (d & Hd & H). apply (spans_some "national_id" d.1 masked) in H; [|by apply Heat|apply valid_match].
    destruct H as [H ->]. split; [|done]. exists d. split; [done|]. by apply anyValid_elem.
  - intros [(d & Hd & H) ->]. exists d. split; [done|].
    apply (spans_some "national_id" d.1 masked); [by apply Heat|apply valid_match|].
    split; [by apply anyValid_elem|done].
Qed.

(** The categories found are those of the matches. *)
Lemma value_iff_span x : x ∈ value_categories text <-> exists s, s ∈ raw_spans text /\ category s = x.
Proof.
  unfold value_categories, raw_spans. cbv zeta.
  rewrite elem_add_if, (elem_fold_validated (fun r f => anyValid r masked f)), elem_fold_add, !elem_add_if.
  rewrite !exists_app, iban_category, card_category, pattern_category, validated_category, national_category.
  rewrite negb_true_iff, String.eqb_neq.
  assert (Hnil : x ∈ [] <-> False) by (split; [apply not_elem_of_nil|done]). rewrite Hnil. tauto.
Qed.
End Categories.

(** ** Merging *)

(** The position [p] is in one of the spans. *)
Definition covered (p : nat) (l : list PiiSpan) : Prop := exists s, s ∈ l /\ (start s <= p < stop s)%nat.

(** Spans that are not empty, in order and apart, from [lo] on. *)
Fixpoint chained (lo : nat) (l : list PiiSpan) : Prop :=
  match l with
  | [] => True
  | s :: l => (lo <= start s)%nat /\ (start s < stop s)%nat /\ chained (stop s) l
  end.

Fixpoint end_of (lo : nat) (l : list PiiSpan) : nat :=
  match l with [] => lo | s :: l => end_of (stop s) l end.

Lemma chained_snoc l s : forall lo,
  chained lo (l ++ [s]) <-> chained lo l /\ (end_of lo l <= start s)%nat /\ (start s < stop s)%nat.
Proof. induction l as [|x l IH]; intros lo; cbn; [tauto|]. rewrite IH. tauto. Qed.

Fixpoint sorted_from (lo : nat) (l : list PiiSpan) : Prop :=
  match l with [] => True | s :: l => (lo <= start s)%nat /\ sorted_from (start s) l end.

Lemma ordered_sorted l : ordered span_gt l -> sorted_from 0 l.
Proof.
  destruct l as [|s l]; [done|]. intros H. split; [lia|]. revert s H.
  induction l as [|x l IH]; intros s; cbn; [done|]. intros [Hgt H]. split; [|by apply IH].
  unfold span_gt in Hgt. apply orb_false_iff in Hgt as [Hgt _]. by apply Nat.ltb_ge in Hgt.
Qed.

Lemma span_gt_asym a b : span_gt a b = true -> span_gt b a = false.
Proof.
  unfold span_gt. intros [H|H]%orb_true_iff; [apply Nat.ltb_lt in H|apply andb_true_iff in H as [H1 H2]; apply Nat.eqb_eq in H1; apply Nat.ltb_lt in H2];
    apply orb_false_iff; (split; [apply Nat.ltb_ge; lia|]); apply andb_false_iff;
    rewrite Nat.eqb_neq, Nat.ltb_ge; lia.
Qed.

Lemma covered_cons p s l : covered p (s :: l) <-> (start s <= p < stop s)%nat \/ covered p l.
Proof.
  unfold covered. setoid_rewrite elem_of_cons. split.
  - intros (x & [->|Hx] & H); [by left|right; by exists x].
  - intros [H|(x & Hx & H)]; [exists s; split; [by left|done]|exists x; split; [by right|done]].
Qed.

Lemma covered_rev p l : covered p (rev l) <-> covered p l.
Proof. unfold covered. setoid_rewrite list_elem_of_In. by setoid_rewrite <- in_rev. Qed.

(** One step of the merge keeps the spans apart and adds exactly the new one. *)
Lemma merge_step_ok acc s : (start s < stop s)%nat -> chained 0 (rev acc) ->
  (forall m, hd_error acc = Some m -> (start m <= start s)%nat) ->
  chained 0 (rev (merge_step acc s)) /\
  (forall p, covered p (merge_step acc s) <-> covered p acc \/ (start s <= p < stop s)%nat) /\
  (forall m, hd_error (merge_step acc s) = Some m -> (start m <= start s)%nat).
Proof.
  intros Hs Hacc Hhd. destruct acc as [|m acc]; cbn [merge_step].
  - cbn. split; [split; [lia|done]|]. split; [|by intros m [= <-]]. intros p. rewrite covered_cons. tauto.
  - specialize (Hhd m eq_refl). cbn [rev] in Hacc |- *. apply chained_snoc in Hacc as (Hl & Hend & Hm).
    destruct (_ <? _)%nat eqn:E; [apply Nat.ltb_lt in E|apply Nat.ltb_ge in E].
    + cbn [rev]. split; [apply chained_snoc; cbn; split_and!; [done|done|lia]|]. split.
      * intros p. rewrite !covered_cons. cbn [start stop]. split; [|intros [[?|?]|?]; [left|right|left]; try done; lia].
        intros [H|H]; [|by left; right]. destruct (decide (p < stop m)%nat); [left; left; lia|right; lia].
      * intros x [= <-]. done.
    + cbn [rev]. split; [|split; [|by intros x [= <-]]].
      * apply chained_snoc. split; [by apply chained_snoc|]. split; [|done].
        enough (H : end_of 0 (rev acc ++ [m]) = stop m) by (rewrite H; lia).
        clear. generalize 0%nat. induction (rev acc) as [|x l IH]; intros k; [done|]. apply IH.
      * intros p. rewrite (covered_cons p s). tauto.
Qed.

Lemma merge_fold_ok l : forall lo acc, sorted_from lo l -> (forall s, s ∈ l -> (start s < stop s)%nat) ->
  chained 0 (rev acc) -> (forall m, hd_error acc = Some m -> (start m <= lo)%nat) ->
  chained 0 (rev (foldl merge_step acc l)) /\
  forall p, covered p (foldl merge_step acc l) <-> covered p acc \/ covered p l.
Proof.
  induction l as [|s l IH]; intros lo acc Hl Hs Hacc Hhd; cbn [foldl].
  - split; [done|]. intros p. split; [by left|]. intros [H|(x & Hx & _)]; [done|by apply not_elem_of_nil in Hx].
  - destruct Hl as [Hlo Hl].
    destruct (merge_step_ok acc s) as (H1 & H2 & H3); [apply Hs; by left|done|intros m Hm; specialize (Hhd m Hm); lia|].
    destruct (IH (start s) (merge_step acc s) Hl) as [H4 H5]; [intros x Hx; apply Hs; by right|done|done|].
    split; [done|]. intros p. rewrite H5, H2, covered_cons. tauto.
Qed.

Lemma merge_categories l : forall acc s, s ∈ foldl merge_step acc l ->
  exists x, (x ∈ acc \/ x ∈ l) /\ category x = category s.
Proof.
  induction l as [|y l IH]; intros acc s; cbn [foldl]; [intros H; exists s; auto|].
  intros H. destruct (IH _ _ H) as (x & [Hx|Hx] & Hc); [|by exists x; split; [right; right|]].
  unfold merge_step in Hx. destruct acc as [|m acc].
  - apply list_elem_of_singleton in Hx as ->. exists y. split; [right; by left|done].
  - destruct (_ <? _)%nat.
    + apply elem_of_cons in Hx as [->|Hx]; [|by exists x; split; [left; right|]].
      cbn in Hc. destruct (_ <? _)%Z; [exists y|exists m]; (split; [|done]); [right; by left|left; by left].
    + apply elem_of_cons in Hx as [->|Hx]; [exists y; split; [right; by left|done]|by exists x; split; [left|]].
Qed.

(** ** Where the matches are *)

Lemma add_span_bounds n from to c s : (to <= n)%nat -> s ∈ add_span from to c -> (start s < stop s <= n)%nat.
Proof.
  intros Hn. unfold add_span. destruct (_ <? _)%nat eqn:E; [|by intros H; apply not_elem_of_nil in H].
  apply Nat.ltb_lt in E. intros ->%list_elem_of_singleton. cbn. lia.
Qed.

Lemma raw_span_bounds text s : s ∈ raw_spans text -> (start s < stop s <= String.length text)%nat.
Proof.
  assert (Hmatch : forall c r m, eats r = true -> m ∈ matches r (mask_ibans text) -> s ∈ match_span c m ->
    (start s < stop s <= String.length text)%nat).
  { intros c r m Hr Hm. apply (matches_nonempty r _ m Hr) in Hm. rewrite slength_mask_ibans in Hm.
    apply add_span_bounds. lia. }
  unfold raw_spans. cbv zeta. rewrite !elem_of_app, !elem_of_flat_map.
  intros [H|[(w & Hw & H)|[(p & Hp & H)|[([[c r] f] & Hp & H)|(d & Hd & H)]]]].
  - unfold iban_spans in H. apply elem_of_flat_map in H as (m & Hm & H).
    apply (matches_nonempty IBAN_RE text m eq_refl) in Hm.
    destruct (ibanValidLength _) as [n|] eqn:E; [|by apply not_elem_of_nil in H].
    apply ibanValidLength_bound in E. apply (add_span_bounds (String.length text)) in H; [done|lia].
  - apply cardWindows_bounds in Hw. rewrite slength_mask_ibans in Hw.
    apply (add_span_bounds (String.length text)) in H; [done|lia].
  - apply elem_of_flat_map in H as (m & Hm & H). apply (Hmatch p.1 p.2 m); [|done|done].
    apply pattern_eats. right. apply elem_of_app. left. by apply list_elem_of_fmap_2.
  - apply elem_of_flat_map in H as (m & Hm & H). apply (Hmatch c r m); [|by apply (valid_match r _ f)|done].
    apply pattern_eats. right. apply elem_of_app. right. apply elem_of_app. left.
    by apply (list_elem_of_fmap_2 (fun x => x.1.2) VALIDATED (c, r, f)).
  - apply elem_of_flat_map in H as (m & Hm & H). apply (Hmatch "national_id" d.1 m); [|by apply (valid_match d.1 _ d.2)|done].
    apply pattern_eats. right. apply elem_of_app. right. apply elem_of_app. right. by apply list_elem_of_fmap_2.
Qed.

Lemma raw_span_category text s : s ∈ raw_spans text -> category s ∈ SPAN_PRIORITY.
Proof.
  intros Hs. assert (H : category s ∈ value_categories text) by (apply value_iff_span; by exists s). revert H.
  unfold value_categories. cbv zeta.
  rewrite elem_add_if, (elem_fold_validated (fun r f => anyValid r (mask_ibans text) f)), elem_fold_add, !elem_add_if.
  intros [[[[[H|[_ ->]]|[_ ->]]|(p & Hp & _ & ->)]|(p & Hp & _ & ->)]|[_ ->]].
  - by apply not_elem_of_nil in H.
  - by apply mem_string_In.
  - by apply mem_string_In.
  - unfold PATTERNS in Hp. rewrite !elem_of_cons, elem_of_nil in Hp.
    destruct Hp as [->|[->|[->|[->|[]]]]]; by apply mem_string_In.
  - unfold VALIDATED in Hp. rewrite !elem_of_cons, elem_of_nil in Hp.
    destruct Hp as [->|[->|[]]]; by apply mem_string_In.
  - by apply mem_string_In.
Qed.

Lemma findPiiSpans_ok text :
  chained 0 (findPiiSpans text) /\ (forall p, covered p (findPiiSpans text) <-> covered p (raw_spans text)) /\
  forall s, s ∈ findPiiSpans text -> exists x, x ∈ raw_spans text /\ category x = category s.
Proof.
  unfold findPiiSpans. destruct text as [|c r]; [by vm_compute; split_and!; [done|done|intros s H; inversion H]|].
  set (text := String c r). cbn [truthy_string]. change (negb (truthy_string text)) with false. cbv iota.
  unfold merge_spans. set (l := stable_sort span_gt (raw_spans text)).
  assert (Hin : forall s, s ∈ l <-> s ∈ raw_spans text) by (intros s; apply elem_of_stable_sort).
  destruct (merge_fold_ok l 0 []) as [H1 H2].
  - apply ordered_sorted, stable_sort_ordered, span_gt_asym.
  - intros s Hs. apply Hin, raw_span_bounds in Hs. lia.
  - done.
  - done.
  - split; [done|]. split.
    + intros p. rewrite covered_rev, H2. split.
      * intros [(x & Hx & _)|(x & Hx & H)]; [by apply not_elem_of_nil in Hx|].
        exists x. split; [by apply Hin|done].
      * intros (x & Hx & H). right. exists x. split; [by apply Hin|done].
    + intros s Hs. rewrite list_elem_of_In, <- in_rev, <- list_elem_of_In in Hs.
      apply merge_categories in Hs as (x & [Hx|Hx] & Hc); [by apply not_elem_of_nil in Hx|].
      exists x. split; [by apply Hin|done].
Qed.

(** ** Redaction *)

(** The text with what [hidden] gives for each span. *)
Fixpoint rebuilt (text : string) (pos : nat) (spans : list PiiSpan) (hidden : PiiSpan -> string) : string :=
  match spans with
  | [] => slice_from pos text
  | s :: l => slice pos (start s) text +:+ hidden s +:+ rebuilt text (stop s) l hidden
  end.

Lemma substring_empty n m : String.substring n m "" = "".
Proof. by destruct n, m. Qed.

Lemma slice_cut a b text : (a <= b)%nat -> slice_from a text = slice a b text +:+ slice_from b text.
Proof.
  unfold slice. revert a b. induction text as [|c text IH]; intros a b Hab; [rewrite substring_empty; by destruct a, b|].
  destruct a as [|a].
  - rewrite Nat.sub_0_r. destruct b as [|b]; [done|]. cbn. rewrite sapp_cons. f_equal.
    specialize (IH O b ltac:(lia)). rewrite Nat.sub_0_r in IH. cbn in IH. destruct text; [by destruct b|done].
  - destruct b as [|b]; [lia|]. cbn [slice_from]. rewrite (IH a b) by lia. done.
Qed.

Lemma rebuilt_text text spans : forall pos, chained pos spans ->
  slice_from pos text = rebuilt text pos spans (fun s => slice (start s) (stop s) text).
Proof.
  induction spans as [|s l IH]; intros pos H; [done|]. destruct H as (H1 & H2 & H3). cbn [rebuilt].
  rewrite <- IH by done. rewrite <- (slice_cut (start s) (stop s)) by lia. by apply slice_cut.
Qed.

Lemma redact_from_rebuilt text spans : forall pos,
  redact_from text pos spans = rebuilt text pos spans (fun s => piiPlaceholder (category s)).
Proof. induction spans as [|s l IH]; intros pos; [done|]. cbn. by rewrite IH. Qed.

(** [C10] Redaction is exact: the reported spans are not empty, in order and apart; they
    cover the characters of the matches (of a validated IBAN, card, number or address)
    and no others; and the redacted text is the text with a placeholder of its
    category in the place of each span, everything else kept. *)
Theorem redaction_exact (text : string) :
  let spans := findPiiSpans text in
  chained 0 spans /\
  (forall p, covered p spans <-> covered p (raw_spans text)) /\
  text = rebuilt text 0 spans (fun s => slice (start s) (stop s) text) /\
  redactPii text = rebuilt text 0 spans (fun s => piiPlaceholder (category s)).
Proof.
  destruct (findPiiSpans_ok text) as (H1 & H2 & _). split; [done|]. split; [done|]. split.
  - rewrite <- rebuilt_text by done. by destruct text.
  - unfold redactPii. rewrite <- redact_from_rebuilt. by destruct (findPiiSpans text); [destruct text|].
Qed.

(** [C18] What raises the sensitivity of a call is what redaction hides: a category of
    values is detected in a text exactly when a match of that category is reported,
    and a text is left alone exactly when no such category is detected. *)
Theorem detected_is_redacted (text : string) :
  (forall c, c ∈ SPAN_PRIORITY ->
     (c ∈ detectPiiCategories (Some text) <-> exists s, s ∈ raw_spans text /\ category s = c)) /\
  (findPiiSpans text = [] <-> forall c, c ∈ SPAN_PRIORITY -> c ∉ detectPiiCategories (Some text)).
Proof.
  assert (Hkeep : forall c, c ∈ SPAN_PRIORITY ->
     (c ∈ detectPiiCategories (Some text) <-> exists s, s ∈ raw_spans text /\ category s = c)).
  { intros c Hc. unfold detectPiiCategories. destruct text as [|k r].
    { split; [intros H; by apply not_elem_of_nil in H|]. intros (s & Hs & _).
      assert (Hraw : raw_spans "" = []) by (vm_compute; reflexivity). rewrite Hraw in Hs. by apply not_elem_of_nil in Hs. }
    set (text := String k r). change (negb (truthy_string text)) with false. cbv iota zeta.
    rewrite elem_of_stable_sort, elem_fold_add, value_iff_span. split; [|by left].
    intros [H|(p & Hp & _ & ->)]; [done|]. exfalso. apply mem_string_In in Hc. revert Hp Hc. unfold KEYWORD_CATEGORIES.
    rewrite !elem_of_cons, elem_of_nil. by intros [->|[->|[]]]. }
  split; [done|]. destruct (findPiiSpans_ok text) as (Hchain & Hcov & _). split.
  - intros Hnil c Hc Hin. apply (Hkeep c Hc) in Hin as (s & Hs & _). pose proof (raw_span_bounds _ _ Hs).
    assert (H0 : covered (start s) (raw_spans text)) by (exists s; split; [done|lia]).
    apply Hcov in H0 as (x & Hx & _). rewrite Hnil in Hx. by apply not_elem_of_nil in Hx.
  - intros Hno. destruct (findPiiSpans text) as [|s l]; [done|]. exfalso.
    destruct Hchain as (_ & Hlt & _). assert (H0 : covered (start s) (s :: l)) by (exists s; split; [by left|lia]).
    apply Hcov in H0 as (x & Hx & _). assert (Hc : category x ∈ SPAN_PRIORITY) by (by apply (raw_span_category text)).
    apply (Hno _ Hc), (Hkeep _ Hc). by exists x.
Qed.

(** ** The text of a request *)

(** The values of a body the walk comes to, with their key, whether they are below
    arguments, and their depth. *)
Inductive Visited (body : json) : json -> string -> bool -> nat -> Prop :=
| visited_body : Visited body body "" false 0
| visited_item l key all depth item :
    Visited body (JArr l) key all depth -> item ∈ l -> Visited body item key all (S depth)
| visited_field o key all depth k v :
    Visited body (JObj o) key all depth -> (k, v) ∈ o -> k ∉ SKIP_KEYS ->
    Visited body v k (all || arg_value k v) (S depth).

Lemma walk_deep v key all depth : (MAX_DEPTH < depth)%nat -> walk v key all depth = [].
Proof. intros H. apply Nat.ltb_lt in H. destruct v; cbn [walk]; by rewrite H. Qed.

Lemma walk_visits body v : forall key all depth s, Visited body v key all depth -> s ∈ walk v key all depth ->
  exists key all depth, Visited body (JStr s) key all depth /\ (depth <= MAX_DEPTH)%nat /\
    (all = true \/ key ∈ TEXT_KEYS).
Proof.
  induction v as [| | |t|l IH|o IH] using json_rect'; intros key all depth s Hv Hs;
    (destruct (MAX_DEPTH <? depth)%nat eqn:Ed; [apply Nat.ltb_lt in Ed; rewrite walk_deep in Hs by done; by apply not_elem_of_nil in Hs|]);
    cbn [walk] in Hs; rewrite Ed in Hs; apply Nat.ltb_ge in Ed; try by apply not_elem_of_nil in Hs.
  - destruct (all || mem_string key TEXT_KEYS) eqn:E; [|by apply not_elem_of_nil in Hs].
    apply list_elem_of_singleton in Hs as ->. exists key, all, depth. split; [done|]. split; [done|].
    apply orb_true_iff in E as [E|E]; [by left|right; by apply mem_string_In].
  - apply elem_of_flat_map in Hs as (x & Hx & Hs). rewrite Forall_forall in IH.
    apply (IH x Hx key all (S depth) s); [by apply (visited_item body l)|done].
  - apply elem_of_flat_map in Hs as ([k x] & Hx & Hs). cbn [fst snd] in Hs.
    destruct (mem_string k SKIP_KEYS) eqn:Ek; [by apply not_elem_of_nil in Hs|].
    apply mem_string_false in Ek. rewrite Forall_forall in IH.
    apply (IH (k, x) Hx k (all || arg_value k x) (S depth) s); [by apply (visited_field body o key)|done].
Qed.

Lemma visited_walk body v key all depth : Visited body v key all depth -> (depth <= MAX_DEPTH)%nat ->
  forall s, s ∈ walk v key all depth -> s ∈ walk body "" false 0.
Proof.
  induction 1 as [|l key all depth item Hv IH Hin|o key all depth k v Hv IH Hin Hk]; intros Hd s Hs; [done| |];
    (apply IH; [lia|]); cbn [walk];
    (replace (MAX_DEPTH <? depth)%nat with false by (symmetry; apply Nat.ltb_ge; lia)); apply elem_of_flat_map.
  - by exists item.
  - exists (k, v). cbn [fst snd]. apply mem_string_false in Hk. by rewrite Hk.
Qed.

(** The text of a request holds exactly the strings of its body that are at most 64
    levels down and, reached without passing a key that never holds text, are under a
    text key or below the arguments of a tool call. *)
Theorem request_text_exact (body : json) (s : string) :
  s ∈ walk body "" false 0 <->
  exists key all depth, Visited body (JStr s) key all depth /\ (depth <= MAX_DEPTH)%nat /\
    (all = true \/ key ∈ TEXT_KEYS).
Proof.
  split.
  - apply walk_visits. constructor.
  - intros (key & all & depth & Hv & Hd & Hor). apply (visited_walk body _ _ _ _ Hv Hd).
    cbn [walk]. replace (MAX_DEPTH <? depth)%nat with false by (symmetry; apply Nat.ltb_ge; lia).
    assert (Ht : all || mem_string key TEXT_KEYS = true).
    { apply orb_true_iff. destruct Hor as [->|Hk]; [by left|right; by apply mem_string_In]. }
    rewrite Ht. by left.
Qed.

Module Samples.

Definition text : string :=
  "IBAN SE45 5000 0000 0583 9825 7466, card 4111 1111 1111 1111, mail jane@example.com or 555-123-4567".

Example detected : detectPiiCategories (Some text) = ["credit_card"; "email"; "financial_data"; "iban"; "phone"].
Proof. vm_compute. reflexivity. Qed.

Example redacted : redactPii text = "IBAN [IBAN], card [CREDIT_CARD], mail [EMAIL] or [PHONE]".
Proof. vm_compute. reflexivity. Qed.

Example request_text :
  requestText (JObj [("model", JStr "m");
    ("messages", JArr [JObj [("role", JStr "user"); ("content", JStr "a")];
                       JObj [("content", JArr [JObj [("type", JStr "text"); ("text", JStr "b")];
                                               JObj [("type", JStr "tool_use"); ("input", JObj [("q", JStr "c")])];
                                               JObj [("source", JObj [("data", JStr "x")])]])]])]) = "a b c".
Proof. vm_compute. reflexivity. Qed.
End Samples.
