(* ===== verification/AwsStream.v ===== *)
(** * Event streams of Amazon Bedrock

    Models [readAWSStream], [getPayloadFromAWSChunk] and [readUInt32BE] of
    [src/gateway/src/handlers/streamHandler.ts]: the messages of an AWS event stream
    are cut out of the bytes of the response by their length, and the payload of
    each is given to the transformer of the provider.

    Bytes are integers below 256; the arithmetic of lengths is that of 32-bit
    integers, as the shifts of the language are.  [TextDecoder], [JSON.parse],
    [Buffer.from] with base64 and the text of a number are parameters, and so is the
    transformer, a function on a state of its own that may throw.

    [event_stream_arrives]: whatever way the network cut the stream, the messages
    that were sent are read, in order and whole, and an incomplete one at the end is
    dropped.  [aws_buffer_bounded]: what is kept between reads is below the largest
    message. *)

From Stdlib Require Import ZArith Lia Ascii.
From stdpp Require Import base strings option list.
From S2P Require Import Prelude Framing JsValue BudgetKeys JsText CacheKey.

#[local] Open Scope string_scope.
#[local] Open Scope Z_scope.
#[local] Open Scope list_scope.

(** ** Integers of 32 bits *)

Definition bytes := list Z.

Definition to_int32 (x : Z) : Z := (x + 2 ^ 31) mod 2 ^ 32 - 2 ^ 31.
Definition shl32 (x n : Z) : Z := to_int32 (Z.shiftl (to_int32 x) n).
Definition or32 (x y : Z) : Z := to_int32 (Z.lor (to_int32 x) (to_int32 y)).

(** [x >>> 0] *)
Definition to_uint32 (x : Z) : Z := x mod 2 ^ 32.

(** [buffer[i]]; an element that is not there counts as 0 in a bit operation. *)
Definition byte_at (buffer : bytes) (i : nat) : Z := default 0 (buffer !! i).

Definition readUInt32BE (buffer : bytes) (offset : nat) : Z :=
  to_uint32
    (or32 (or32 (or32 (shl32 (byte_at buffer offset) 24) (shl32 (byte_at buffer (offset + 1)) 16))
             (shl32 (byte_at buffer (offset + 2)) 8))
       (byte_at buffer (offset + 3))).

(** [array.slice(start, end)] of a typed array *)
Definition relative_index (i len : Z) : Z := if i <? 0 then Z.max 0 (len + i) else Z.min i len.

Definition slice (b : bytes) (start end_ : Z) : bytes :=
  let len := Z.of_nat (length b) in
  let from := relative_index start len in
  let to := relative_index end_ len in
  take (Z.to_nat (to - from)) (drop (Z.to_nat from) b).

(** ** Messages *)

Definition AWS_EVENT_STREAM_MIN_MESSAGE_LENGTH : Z := 16.
Definition AWS_EVENT_STREAM_MAX_MESSAGE_LENGTH : Z := 16 * 1024 * 1024.

Inductive Message :=
| Invalid (expectedLength : Z)
| Data (data : bytes).

(** The front of the buffer: the length is read once four bytes are there, the
    message is taken once it is complete. *)
Definition next_message (buffer : bytes) : option (Message * bytes) :=
  if (length buffer <? 4)%nat then None
  else
    let expectedLength := readUInt32BE buffer 0 in
    if (expectedLength <? AWS_EVENT_STREAM_MIN_MESSAGE_LENGTH) ||
       (AWS_EVENT_STREAM_MAX_MESSAGE_LENGTH <? expectedLength)
    then Some (Invalid expectedLength, drop 4 buffer)
    else if Z.of_nat (length buffer) <? expectedLength then None
    else Some (Data (take (Z.to_nat expectedLength) buffer), drop (Z.to_nat expectedLength) buffer).

(** The part of a message [getPayloadFromAWSChunk] reads. *)
Definition payload_bytes (chunk : bytes) : bytes :=
  let chunkLength := readUInt32BE chunk 0 in
  let headersLength := readUInt32BE chunk 4 in
  let headersEnd := 12 + headersLength in
  let payloadLength := chunkLength - headersEnd - 4 in
  slice chunk headersEnd (headersEnd + payloadLength).

Inductive AwsError :=
| InvalidLength (expectedLength : Z)
| PayloadError
| TransformError.

(** What is yielded: a transformer gives a text, or nothing. *)
Inductive Item :=
| I_undefined
| I_text (s : string)
| I_bytes (b : bytes).

(** What a transformer answers. *)
Inductive Transformed :=
| T_one (i : Item)
| T_many (l : list Item).

Definition items_of (t : Transformed) : list Item :=
  match t with T_one i => [i] | T_many l => l end.

(** [encoder.encode(chunk)] encodes the text of the chunk: [String(chunk)] of an
    array of bytes is its numbers with commas. *)
Definition chunk_text (i : Item) : string :=
  match i with
  | I_undefined => ""
  | I_text s => s
  | I_bytes b => String.concat "," (map String_of b)
  end.

Section Stream.
Variable utf8_decode : bytes -> string.
Variable JSON_parse : string -> option json.
Variable base64_text : json -> option string.
Variable number_text : num -> string.

(** The text of a payload; [None] when reading it throws. *)
Definition payload_text (payload : bytes) : option string :=
  match JSON_parse (utf8_decode payload) with
  | None | Some JNull => None
  | Some decodedJson =>
      match prop (Some decodedJson) "bytes" with
      | Some v =>
          if truthy (Some v) then base64_text v
          else Some (CacheKey.JSON_stringify number_text decodedJson)
      | None => Some (CacheKey.JSON_stringify number_text decodedJson)
      end
  end.

Definition getPayloadFromAWSChunk (chunk : bytes) : option string := payload_text (payload_bytes chunk).

Context {S : Type}.
(** The transformer; [None] when it throws. *)
Variable transformFunction : option (S -> string -> option (Transformed * S)).

Definition handle_payload (streamState : S) (data : bytes) (payload : string)
    : S * list Item * option AwsError :=
  match transformFunction with
  | Some f =>
      match f streamState payload with
      | Some (t, streamState) => (streamState, items_of t, None)
      | None => (streamState, [], Some TransformError)
      end
  | None => (streamState, [I_bytes data], None)
  end.

Definition handle_message (streamState : S) (m : Message) : S * list Item * option AwsError :=
  match m with
  | Invalid n => (streamState, [], Some (InvalidLength n))
  | Data data =>
      match getPayloadFromAWSChunk data with
      | None => (streamState, [], Some PayloadError)
      | Some payload => handle_payload streamState data payload
      end
  end.

(** The bytes of each read; what is left when the stream ends is dropped. *)
Definition readAWSStream (streamState : S) (reads : list bytes) : Framing.Reading bytes S Item AwsError :=
  Framing.read next_message handle_message [] streamState reads.

End Stream.

(** ** Lengths *)

Lemma to_int32_mod x : to_int32 x mod 2 ^ 32 = x mod 2 ^ 32.
Proof.
  unfold to_int32. rewrite Zminus_mod, Z.mod_mod, <- Zminus_mod by lia. f_equal. lia.
Qed.

Lemma lor_mod a b : Z.lor a b mod 2 ^ 32 = Z.lor (a mod 2 ^ 32) (b mod 2 ^ 32).
Proof. rewrite <- !Z.land_ones by lia. apply Z.land_lor_distr_l. Qed.

Lemma or32_mod a b : or32 a b mod 2 ^ 32 = Z.lor (a mod 2 ^ 32) (b mod 2 ^ 32).
Proof. unfold or32. by rewrite to_int32_mod, lor_mod, !to_int32_mod. Qed.

Lemma shl32_mod x n : 0 <= n -> shl32 x n mod 2 ^ 32 = (x * 2 ^ n) mod 2 ^ 32.
Proof.
  intros Hn. unfold shl32. rewrite to_int32_mod, Z.shiftl_mul_pow2 by done.
  by rewrite Zmult_mod, to_int32_mod, <- Zmult_mod.
Qed.

(** Bits put behind one another are added. *)
Lemma lor_add a b n : 0 <= n -> 0 <= b < 2 ^ n -> Z.lor (a * 2 ^ n) b = a * 2 ^ n + b.
Proof.
  intros Hn Hb. rewrite <- Z.shiftl_mul_pow2 by done.
  assert (Z.land (Z.shiftl a n) b = 0) as H0.
  { apply Z.bits_inj'. intros i Hi. rewrite Z.land_spec, Z.bits_0.
    destruct (Z.ltb_spec i n); [by rewrite Z.shiftl_spec_low|].
    rewrite (Z.testbit_eqb b) by done. rewrite Z.div_small; [|split; [lia|]].
    { by rewrite Z.mod_0_l, andb_false_r. }
    apply Z.lt_le_trans with (2 ^ n); [lia|]. apply Z.pow_le_mono_r; lia. }
  pose proof (Z.add_lor_land (Z.shiftl a n) b). lia.
Qed.

Definition is_byte (b : Z) : Prop := 0 <= b < 256.

(** Four bytes read as one number, the first the highest. *)
Lemma readUInt32BE_bytes b0 b1 b2 b3 pre post :
  Forall is_byte [b0; b1; b2; b3] ->
  readUInt32BE (pre ++ b0 :: b1 :: b2 :: b3 :: post) (length pre) =
  ((b0 * 256 + b1) * 256 + b2) * 256 + b3.
Proof.
  intros H. inversion_clear H as [|? ? H0 Hr0]. inversion_clear Hr0 as [|? ? H1 Hr1].
  inversion_clear Hr1 as [|? ? H2 Hr2]. inversion_clear Hr2 as [|? ? H3 _].
  unfold is_byte in *. unfold readUInt32BE, byte_at, to_uint32.
  assert (forall i, (pre ++ b0 :: b1 :: b2 :: b3 :: post) !! (length pre + i)%nat =
                    (b0 :: b1 :: b2 :: b3 :: post) !! i) as Hi
    by (intros i; rewrite lookup_app_r by lia; f_equal; lia).
  rewrite <- (Nat.add_0_r (length pre)) at 1. rewrite !Hi. simpl default.
  rewrite !or32_mod, !shl32_mod by lia.
  rewrite !(Z.mod_small _ (2 ^ 32)) by lia.
  replace (b0 * 2 ^ 24) with (b0 * 2 ^ 8 * 2 ^ 16) by lia.
  assert (forall a b n, 0 <= n -> Z.lor (a * 2 ^ n) (b * 2 ^ n) = Z.lor a b * 2 ^ n) as Hd
    by (intros a b n Hn; rewrite <- !Z.shiftl_mul_pow2, Z.shiftl_lor by done; done).
  rewrite Hd, (lor_add b0 b1 8) by lia.
  replace ((b0 * 2 ^ 8 + b1) * 2 ^ 16) with ((b0 * 2 ^ 8 + b1) * 2 ^ 8 * 2 ^ 8) by lia.
  rewrite Hd, (lor_add _ b2 8), (lor_add _ b3 8) by lia. lia.
Qed.

Definition be32 (n : Z) : bytes := [n / 2 ^ 24 mod 256; n / 2 ^ 16 mod 256; n / 2 ^ 8 mod 256; n mod 256].

Lemma readUInt32BE_be32 n pre post :
  0 <= n < 2 ^ 32 -> readUInt32BE (pre ++ be32 n ++ post) (length pre) = n.
Proof.
  intros Hn. unfold be32. cbn [app]. rewrite readUInt32BE_bytes.
  - pose proof (Z.div_mod n 256). pose proof (Z.div_mod (n / 256) 256).
    pose proof (Z.div_mod (n / 256 / 256) 256).
    replace (2 ^ 24) with (256 * 256 * 256) by done. replace (2 ^ 16) with (256 * 256) by done.
    change (2 ^ 8) with 256. rewrite <- !Z.div_div by lia.
    rewrite (Z.mod_small (n / 256 / 256 / 256)); [lia|].
    rewrite !Z.div_div by lia. split; [apply Z.div_pos; lia|]. apply Z.div_lt_upper_bound; lia.
  - repeat constructor; unfold is_byte; apply Z.mod_pos_bound; lia.
Qed.

(** ** The messages that are sent *)

Record Sent := mkSent {
  headers : bytes;
  payload : bytes;
  prelude_crc : bytes;
  message_crc : bytes
}.

Definition total_length (m : Sent) : Z := Z.of_nat (16 + length (headers m) + length (payload m)).

Definition frame (m : Sent) : bytes :=
  be32 (total_length m) ++ be32 (Z.of_nat (length (headers m))) ++
  prelude_crc m ++ headers m ++ payload m ++ message_crc m.

Definition well_formed (m : Sent) : bool :=
  (length (prelude_crc m) =? 4)%nat && (length (message_crc m) =? 4)%nat &&
  (total_length m <=? AWS_EVENT_STREAM_MAX_MESSAGE_LENGTH).

Lemma frame_length m : well_formed m = true -> Z.of_nat (length (frame m)) = total_length m.
Proof.
  unfold well_formed. rewrite !andb_true_iff, !Nat.eqb_eq. intros [[H1 H2] _].
  unfold frame, total_length. rewrite !length_app. simpl. lia.
Qed.

Lemma total_bounds m : well_formed m = true ->
  AWS_EVENT_STREAM_MIN_MESSAGE_LENGTH <= total_length m <= AWS_EVENT_STREAM_MAX_MESSAGE_LENGTH.
Proof.
  unfold well_formed. rewrite !andb_true_iff, Z.leb_le. intros [_ H]. split; [|done].
  unfold total_length, AWS_EVENT_STREAM_MIN_MESSAGE_LENGTH. lia.
Qed.

(** What the reader makes of a buffer that starts as a message does. *)
Lemma next_prefix m b t :
  well_formed m = true -> b = frame m ++ t \/ frame m = b ++ t ->
  (4 <= length b)%nat -> readUInt32BE b 0 = total_length m.
Proof.
  intros Hw Hb Hl. pose proof (total_bounds m Hw) as Ht.
  unfold AWS_EVENT_STREAM_MIN_MESSAGE_LENGTH, AWS_EVENT_STREAM_MAX_MESSAGE_LENGTH in Ht.
  assert (exists r, b = be32 (total_length m) ++ r) as [r ->].
  - unfold frame in Hb. set (x := be32 (total_length m)) in *.
    destruct Hb as [->|Hb]; [rewrite <- app_assoc; by eexists|].
    exists (drop 4 b). rewrite <- (take_drop 4 b) at 1. f_equal.
    apply (f_equal (take 4)) in Hb. rewrite (take_app_le b) in Hb by done. by rewrite <- Hb.
  - apply (readUInt32BE_be32 _ []). lia.
Qed.

Lemma next_frame m t : well_formed m = true -> next_message (frame m ++ t) = Some (Data (frame m), t).
Proof.
  intros Hw. pose proof (frame_length m Hw) as Hl. pose proof (total_bounds m Hw) as [Hlo Hhi].
  unfold AWS_EVENT_STREAM_MIN_MESSAGE_LENGTH in Hlo.
  unfold next_message. destruct (Nat.ltb_spec (length (frame m ++ t)) 4) as [H4|H4];
    [rewrite length_app in H4; lia|].
  rewrite (next_prefix m _ t Hw) by (tauto || done).
  destruct (Z.ltb_spec (total_length m) AWS_EVENT_STREAM_MIN_MESSAGE_LENGTH) as [H|H];
    [unfold AWS_EVENT_STREAM_MIN_MESSAGE_LENGTH in H; lia|].
  destruct (Z.ltb_spec AWS_EVENT_STREAM_MAX_MESSAGE_LENGTH (total_length m)) as [H2|H2]; [lia|]. cbn [orb].
  destruct (Z.ltb_spec (Z.of_nat (length (frame m ++ t))) (total_length m)) as [Hs|Hs];
    [rewrite length_app in Hs; lia|].
  rewrite <- Hl, Nat2Z.id, take_app_length, drop_app_length. done.
Qed.

(** The start of a message that is not there to its end. *)
Definition cut_short (tail : bytes) : Prop :=
  tail = [] \/ exists m t, well_formed m = true /\ t <> [] /\ frame m = tail ++ t.

Lemma next_cut_short tail : cut_short tail -> next_message tail = None.
Proof.
  intros [->|(m & t & Hw & Ht & Hf)]; [done|]. unfold next_message.
  destruct (Nat.ltb_spec (length tail) 4) as [|H4]; [done|].
  pose proof (frame_length m Hw) as Hl. pose proof (total_bounds m Hw) as [Hlo Hhi].
  rewrite (next_prefix m _ t Hw) by (tauto || done).
  destruct (Z.ltb_spec (total_length m) AWS_EVENT_STREAM_MIN_MESSAGE_LENGTH) as [H|H]; [lia|].
  destruct (Z.ltb_spec AWS_EVENT_STREAM_MAX_MESSAGE_LENGTH (total_length m)) as [H2|H2]; [lia|]. cbn [orb].
  destruct (Z.ltb_spec (Z.of_nat (length tail)) (total_length m)) as [|Hs]; [done|].
  rewrite Hf, length_app in Hl. destruct t; [done|simpl in Hl; lia].
Qed.

Lemma payload_frame m : well_formed m = true -> payload_bytes (frame m) = payload m.
Proof.
  intros Hw. pose proof (frame_length m Hw) as Hl. pose proof (total_bounds m Hw) as [Hlo Hhi].
  unfold AWS_EVENT_STREAM_MIN_MESSAGE_LENGTH, AWS_EVENT_STREAM_MAX_MESSAGE_LENGTH in *.
  assert (0 <= Z.of_nat (length (headers m)) < 2 ^ 32) as Hh
    by (unfold total_length in Hhi; lia).
  unfold payload_bytes.
  rewrite (next_prefix m (frame m) [] Hw); [|left; by rewrite app_nil_r|lia].
  assert (readUInt32BE (frame m) 4 = Z.of_nat (length (headers m))) as ->
    by (apply (readUInt32BE_be32 _ (be32 (total_length m))); done).
  set (h := Z.of_nat (length (headers m))) in *.
  replace (12 + h + (total_length m - (12 + h) - 4)) with (total_length m - 4) by lia.
  unfold slice, relative_index. rewrite Hl.
  destruct (Z.ltb_spec (12 + h) 0); [lia|]. destruct (Z.ltb_spec (total_length m - 4) 0); [lia|].
  assert (total_length m = 16 + h + Z.of_nat (length (payload m))) as Ht
    by (unfold total_length, h; lia).
  rewrite !Z.min_l by lia.
  unfold well_formed in Hw. rewrite !andb_true_iff, !Nat.eqb_eq in Hw. destruct Hw as [[Hp Hm] _].
  assert (frame m = (be32 (total_length m) ++ be32 h ++ prelude_crc m ++ headers m) ++
                    payload m ++ message_crc m) as -> by (unfold frame; by rewrite <- !app_assoc).
  rewrite drop_app_length'; [|rewrite !length_app; simpl; lia].
  rewrite take_app_length'; [done|]. lia.
Qed.

(** ** The stream *)

Lemma readUInt32BE_app b t : (4 <= length b)%nat -> readUInt32BE (b ++ t) 0 = readUInt32BE b 0.
Proof.
  intros H. unfold readUInt32BE, byte_at.
  assert (forall i, (i < 4)%nat -> (b ++ t) !! i = b !! i) as Hi
    by (intros i Hi; apply lookup_app_l; lia).
  by rewrite !Hi by lia.
Qed.

#[local] Opaque readUInt32BE.

Lemma next_message_shorter b m r : next_message b = Some (m, r) -> (b_size r < b_size b)%nat.
Proof.
  change (b_size r < b_size b)%nat with (length r < length b)%nat. unfold next_message. destruct (Nat.ltb_spec (length b) 4) as [|H]; [done|].
  destruct (Z.ltb_spec (readUInt32BE b 0) AWS_EVENT_STREAM_MIN_MESSAGE_LENGTH) as [|Hm]; cbn [orb].
  { intros [= _ <-]. rewrite length_drop. lia. }
  destruct (Z.ltb_spec AWS_EVENT_STREAM_MAX_MESSAGE_LENGTH (readUInt32BE b 0)).
  { intros [= _ <-]. rewrite length_drop. lia. }
  destruct (Z.ltb_spec (Z.of_nat (length b)) (readUInt32BE b 0)); [done|].
  intros [= _ <-]. rewrite length_drop. unfold AWS_EVENT_STREAM_MIN_MESSAGE_LENGTH in Hm. lia.
Qed.

Lemma next_message_app b m r t :
  next_message b = Some (m, r) -> next_message (b_app b t) = Some (m, b_app r t).
Proof.
  change (b_app b t) with (b ++ t). change (b_app r t) with (r ++ t). unfold next_message.
  destruct (Nat.ltb_spec (length b) 4) as [|H]; [done|].
  rewrite length_app, readUInt32BE_app by done.
  destruct (Nat.ltb_spec (length b + length t) 4) as [|_]; [lia|].
  destruct (_ || _).
  { intros [= <- <-]. by rewrite drop_app_le by lia. }
  destruct (Z.ltb_spec (Z.of_nat (length b)) (readUInt32BE b 0)); [done|].
  destruct (Z.ltb_spec (Z.of_nat (length b + length t)) (readUInt32BE b 0)); [lia|].
  intros [= <- <-]. rewrite take_app_le, drop_app_le by lia. done.
Qed.

Lemma messages_of_frames ms tail :
  Forall (fun m => well_formed m = true) ms -> cut_short tail ->
  Framing.messages next_message (concat (map frame ms) ++ tail) = (map (fun m => Data (frame m)) ms, tail).
Proof.
  intros Hms Ht. induction Hms as [|m ms Hm _ IH]; cbn [map concat].
  - cbn [app]. by rewrite (messages_unfold _ next_message_shorter), next_cut_short.
  - by rewrite (messages_unfold _ next_message_shorter), <- app_assoc, next_frame, IH.
Qed.

Section Arrives.
Variable utf8_decode : bytes -> string.
Variable JSON_parse : string -> option json.
Variable base64_text : json -> option string.
Variable number_text : num -> string.
Context {S : Type}.
Variable transformFunction : option (S -> string -> option (Transformed * S)).

Notation read_stream := (readAWSStream utf8_decode JSON_parse base64_text number_text transformFunction).
Notation text_of := (payload_text utf8_decode JSON_parse base64_text number_text).

(** What the payloads of messages give, in order, up to the first that cannot be
    read or transformed. *)
Fixpoint delivered (s : S) (ms : list Sent) (tail : bytes) : Framing.Reading bytes S Item AwsError :=
  match ms with
  | [] => Framing.mkReading [] s (inr tail)
  | m :: r =>
      match text_of (payload m) with
      | None => Framing.mkReading [] s (inl PayloadError)
      | Some text =>
          let '(s, l, e) := handle_payload transformFunction s (frame m) text in
          match e with
          | Some e => Framing.mkReading l s (inl e)
          | None => Framing.prepend l (delivered s r tail)
          end
      end
  end.

Lemma read_stream_messages s pieces :
  read_stream s pieces =
  let '(ms, rest) := Framing.messages next_message (concat pieces) in
  Framing.handle_all (handle_message utf8_decode JSON_parse base64_text number_text transformFunction)
    s ms rest.
Proof.
  unfold readAWSStream.
  rewrite (read_messages next_message _ next_message_shorter next_message_app) by done.
  change (b_app [] (joined_pieces pieces)) with (joined_pieces pieces).
  fold bytes. by rewrite <- (joined_pieces_concat (A := Z) pieces : _ = concat pieces).
Qed.

Lemma handle_frames s ms tail :
  Forall (fun m => well_formed m = true) ms ->
  Framing.handle_all (handle_message utf8_decode JSON_parse base64_text number_text transformFunction)
    s (map (fun m => Data (frame m)) ms) tail = delivered s ms tail.
Proof.
  intros H. revert s. induction H as [|m ms Hm _ IH]; intros s; [done|].
  cbn [map handle_all delivered handle_message]. unfold getPayloadFromAWSChunk.
  rewrite payload_frame by done. destruct (text_of (payload m)) as [text|]; [|done].
  destruct (handle_payload transformFunction s (frame m) text) as [[s' l] [e|]]; [done|].
  by rewrite IH.
Qed.

(** The bytes of any stream give the same, however they were cut. *)
Lemma aws_cuts_do_not_matter s pieces : read_stream s pieces = read_stream s [concat pieces].
Proof. rewrite !read_stream_messages. simpl. by rewrite app_nil_r. Qed.

(** [C22] A stream of well-formed messages, cut into reads at any places and broken
    off anywhere in a last message, gives what the payloads of its messages give,
    each once and in order; the message that was broken off gives nothing. *)
Theorem event_stream_arrives s ms tail pieces :
  Forall (fun m => well_formed m = true) ms -> cut_short tail ->
  concat pieces = concat (map frame ms) ++ tail ->
  read_stream s pieces = delivered s ms tail.
Proof.
  intros Hms Ht Hp. rewrite read_stream_messages, Hp, messages_of_frames by done.
  by apply handle_frames.
Qed.

(** What is kept between two reads is less than one message. *)
Lemma aws_buffer_bounded s pieces buffer :
  Framing.outcome (read_stream s pieces) = inr buffer ->
  Z.of_nat (length buffer) < AWS_EVENT_STREAM_MAX_MESSAGE_LENGTH.
Proof.
  rewrite read_stream_messages. pose proof (messages_left _ next_message_shorter (concat pieces)) as Hl.
  destruct (Framing.messages next_message (concat pieces)) as [ms rest]. intros H%handle_all_left.
  subst rest. simpl in Hl. revert Hl. unfold next_message.
  destruct (Nat.ltb_spec (length buffer) 4) as [H4|_].
  { intros _. unfold AWS_EVENT_STREAM_MAX_MESSAGE_LENGTH. lia. }
  destruct (Z.ltb_spec (readUInt32BE buffer 0) AWS_EVENT_STREAM_MIN_MESSAGE_LENGTH); [done|].
  destruct (Z.ltb_spec AWS_EVENT_STREAM_MAX_MESSAGE_LENGTH (readUInt32BE buffer 0)); [done|].
  destruct (Z.ltb_spec (Z.of_nat (length buffer)) (readUInt32BE buffer 0)); [lia|done].
Qed.

End Arrives.

(** ** Samples *)

Module Samples.

Definition latin1 (b : bytes) : string :=
  foldr (fun x s => String (ascii_of_N (Z.to_N x)) s) "" b.

Definition parse (s : string) : option json :=
  if (s =? "")%string then None else Some (JObj [("text", JStr s)]).

Definition upper (n : nat) (s : string) : option (Transformed * nat) :=
  Some (T_one (I_text ("data: " +:+ s)), (n + 1)%nat).

Definition crc : bytes := [0; 0; 0; 0].
Definition hi : Sent := mkSent [7] [72; 105] crc crc.
Definition ho : Sent := mkSent [] [72; 111; 33] crc crc.

(** Two messages and the start of a third; the reads end inside a length, inside a
    payload and inside the last length. *)
Definition wire : bytes := frame hi ++ frame ho ++ [0; 0].
Definition cuts : list bytes := [take 2 wire; take 13 (drop 2 wire); []; take 6 (drop 15 wire); drop 21 wire].

Definition reading := readAWSStream latin1 parse (fun _ => None) (fun _ => "0") (Some upper) 0%nat.

Example both_messages_arrive :
  map chunk_text (Framing.given (reading cuts)) =
  ["data: {" +:+ dquote +:+ "text" +:+ dquote +:+ ":" +:+ dquote +:+ "Hi" +:+ dquote +:+ "}";
   "data: {" +:+ dquote +:+ "text" +:+ dquote +:+ ":" +:+ dquote +:+ "Ho!" +:+ dquote +:+ "}"] /\
  Framing.outcome (reading cuts) = inr [0; 0].
Proof. vm_compute. split; reflexivity. Qed.

(** A length below the smallest message ends the stream. *)
Example bad_length :
  Framing.outcome (reading [frame hi; [0; 0; 0; 3]; frame ho]) = inl (InvalidLength 3).
Proof. vm_compute. reflexivity. Qed.

(** Without a transformer the bytes of a message reach the client as the text of
    an array of numbers. *)
Example raw_messages_are_not_bytes :
  map chunk_text
    (Framing.given (readAWSStream latin1 parse (fun _ => None) (fun _ => "0") None tt [frame ho])) =
  ["0,0,0,19,0,0,0,0,0,0,0,0,72,111,33,0,0,0,0"].
Proof. vm_compute. reflexivity. Qed.

Lemma tail_cut : cut_short [0; 0].
Proof. right. exists ho, (drop 2 (frame ho)). split; [done|]. split; [by vm_compute|reflexivity]. Qed.

Lemma event_stream_arrives_witness :
  reading cuts =
  delivered latin1 parse (fun _ => None) (fun _ => "0") (Some upper) 0%nat [hi; ho] [0; 0].
Proof.
  apply (event_stream_arrives latin1 parse (fun _ => None) (fun _ => "0") (Some upper) 0%nat
           [hi; ho] [0; 0] cuts).
  - repeat constructor.
  - exact tail_cut.
  - vm_compute. reflexivity.
Defined.

End Samples.
