(* ===== verification/StreamHandler.v ===== *)
(** * Streamed answers

    Models the text part of [src/gateway/src/handlers/streamHandler.ts]
    ([readStream], the pump of [handleStreamingMode], the chunk with hook results),
    the separators of the providers ([getStreamModeSplitPattern] and
    [getStreamingMode] of [utils.ts]), the choice of a handler for an answer
    ([responseHandler] of [handlers/responseHandlers.ts]) and the limit on answers of
    custom hosts ([handlers/responseSizeLimit.ts]).

    What a stream is read in is given as the texts its decoder makes of the reads.
    The transformer of a provider is a function on a state of its own that may
    throw; waiting is an output ([Sleep]).

    [text_stream_exact]: the parts between separators are handled once, in order,
    however the stream was cut, and the loop that splits the buffer ends.
    [untransformed_stream_is_unchanged]: without a transformer the text arrives as
    it was sent.  [custom_host_answers_are_bounded]: no more than the limit is
    passed on, whatever length the upstream declared. *)

From Stdlib Require Import ZArith Lia Ascii Floats.SpecFloat.
From stdpp Require Import base strings option list.
From S2P Require Import Prelude Framing JsValue JsText UrlGuard CacheKey.

#[local] Open Scope string_scope.
#[local] Open Scope list_scope.
#[local] Arguments num_of_Z : simpl never.

(** ** Splitting *)

(** What follows [p] in [s], when [s] starts with it. *)
Fixpoint after_prefix (p s : string) : option string :=
  match p, s with
  | EmptyString, _ => Some s
  | String c p, String d s => if Ascii.eqb c d then after_prefix p s else None
  | String _ _, EmptyString => None
  end.

(** The text before the first separator and the text after it. *)
Fixpoint split_once (sep s : string) : option (string * string) :=
  match after_prefix sep s with
  | Some rest => Some ("", rest)
  | None =>
      match s with
      | EmptyString => None
      | String c r => (fun x => (String c x.1, x.2)) <$> split_once sep r
      end
  end.

(** [s.split(sep)] for a separator that is not empty *)
Fixpoint split_fuel (fuel : nat) (sep s : string) : list string :=
  match fuel with
  | O => [s]
  | S n =>
      match split_once sep s with
      | None => [s]
      | Some (a, r) => a :: split_fuel n sep r
      end
  end.

Definition split (sep s : string) : list string := split_fuel (String.length s) sep s.

(** ** The separators of the providers *)

Definition CRLF : string := String (ascii_of_N 13) (String (ascii_of_N 10) "").
Definition LF : string := String (ascii_of_N 10) "".

Definition getStreamModeSplitPattern (proxyProvider requestURL : string) : string :=
  let splitPattern := LF +:+ LF in
  let splitPattern :=
    if (proxyProvider =? "anthropic")%string && endsWith requestURL "/complete"
    then CRLF +:+ CRLF else splitPattern in
  let splitPattern :=
    if (proxyProvider =? "cohere")%string
    then if includes requestURL "/chat" then LF +:+ LF else LF else splitPattern in
  let splitPattern := if (proxyProvider =? "google")%string then CRLF else splitPattern in
  let splitPattern :=
    if (proxyProvider =? "vertex-ai")%string && includes requestURL "/publishers/google"
    then CRLF +:+ CRLF else splitPattern in
  let splitPattern := if (proxyProvider =? "perplexity-ai")%string then CRLF +:+ CRLF else splitPattern in
  let splitPattern := if (proxyProvider =? "deepinfra")%string then LF else splitPattern in
  let splitPattern := if (proxyProvider =? "sambanova")%string then LF else splitPattern in
  if (proxyProvider =? "bytez")%string then " " else splitPattern.

Definition getStreamingMode (stream : any) (provider requestUrl : string) : any :=
  if mem_string provider ["google"; "vertex-ai"] && includes requestUrl "stream" then Some (JBool true)
  else if (provider =? "bedrock")%string &&
          (includes requestUrl "invoke-with-response-stream" || includes requestUrl "converse-stream")
  then Some (JBool true)
  else stream.

(** ** Reading a stream of text *)

Inductive Out :=
| Sleep (ms : nat)
| Chunk (s : string).

Inductive StreamError := TransformError.

Section Reader.
Context {S : Type}.
Variable splitPattern : string.
(** The transformer: [None] when it throws, no text for [undefined]. *)
Variable transformFunction : option (S -> string -> option (option string * S)).
Variable isSleepTimeRequired : bool.

Record ReaderState := mkReader { isFirstChunk : bool; streamState : S }.

Definition pause (s : ReaderState) : list Out :=
  if isFirstChunk s then [Sleep 25] else if isSleepTimeRequired then [Sleep 1] else [].

Definition chunk_of (o : option string) : list Out :=
  match o with Some x => [Chunk x] | None => [] end.

(** The body of the loop over the parts. *)
Definition read_part (s : ReaderState) (part : string) : ReaderState * list Out * option StreamError :=
  if (String.length part =? 0)%nat then (s, [], None)
  else
    match transformFunction with
    | Some f =>
        match f (streamState s) part with
        | Some (o, st) => (mkReader false st, pause s ++ chunk_of o, None)
        | None => (mkReader false (streamState s), pause s, Some TransformError)
        end
    | None => (mkReader false (streamState s), pause s ++ [Chunk (part +:+ splitPattern)], None)
    end.

(** [while (buffer.split(splitPattern).length > 1)] *)
Fixpoint split_loop (fuel : nat) (buffer : string) (s : ReaderState)
    : Framing.Reading string ReaderState Out StreamError :=
  let parts := split splitPattern buffer in
  if (length parts <=? 1)%nat then Framing.mkReading [] s (inr buffer)
  else
    match fuel with
    | O => Framing.mkReading [] s (inr buffer)
    | Datatypes.S n =>
        let lastPart := List.last parts "" in
        let d := Framing.handle_all read_part s (removelast parts) lastPart in
        match Framing.outcome d with
        | inl _ => d
        | inr buffer => Framing.prepend (Framing.given d) (split_loop n buffer (Framing.now d))
        end
    end.

(** What is left of the text when the stream ends. *)
Definition last_part (buffer : string) (s : ReaderState) : list Out * option StreamError :=
  if (0 <? String.length buffer)%nat then
    match transformFunction with
    | Some f =>
        match f (streamState s) buffer with
        | Some (o, _) => (chunk_of o, None)
        | None => ([], Some TransformError)
        end
    | None => ([Chunk buffer], None)
    end
  else ([], None).

Fixpoint read_from (buffer : string) (s : ReaderState) (texts : list string)
    : list Out * option StreamError :=
  match texts with
  | [] => last_part buffer s
  | t :: r =>
      let b := buffer +:+ t in
      let d := split_loop (String.length b) b s in
      match Framing.outcome d with
      | inl e => (Framing.given d, Some e)
      | inr buffer => let '(l, e) := read_from buffer (Framing.now d) r in (Framing.given d ++ l, e)
      end
  end.

Definition readStream (st : S) (texts : list string) : list Out * option StreamError :=
  read_from "" (mkReader true st) texts.

(** The same, of the whole text at once. *)
Definition read_whole (st : S) (text : string) : list Out * option StreamError :=
  let parts := split splitPattern text in
  let d := Framing.handle_all read_part (mkReader true st) (removelast parts) (List.last parts "") in
  match Framing.outcome d with
  | inl e => (Framing.given d, Some e)
  | inr rest => let '(l, e) := last_part rest (Framing.now d) in (Framing.given d ++ l, e)
  end.

End Reader.

Definition chunks (l : list Out) : list string :=
  omap (fun o => match o with Chunk s => Some s | Sleep _ => None end) l.

(** ** Writing to the client *)

Section Client.
Variable JSON_stringify : json -> string.

(** [hooksResult?.beforeRequestHooksResult?.length > 0] *)
Definition shouldSendHookResultChunk (strictOpenAiCompliance : bool) (beforeRequestHooksResult : option (list json))
    : bool :=
  negb strictOpenAiCompliance &&
  match beforeRequestHooksResult with Some (_ :: _) => true | _ => false end.

Definition constructHookResultChunk (beforeRequestHooksResult : list json) (fn : string) : string :=
  let data := JSON_stringify
    (JObj [("hook_results", JObj [("before_request_hooks", JArr beforeRequestHooksResult)])]) in
  if (fn =? "messages")%string
  then "event: hook_results" +:+ LF +:+ "data: " +:+ data +:+ LF +:+ LF
  else "data: " +:+ data +:+ LF +:+ LF.

Definition hook_chunk (strictOpenAiCompliance : bool) (before : option (list json)) (fn : string)
    : list string :=
  if shouldSendHookResultChunk strictOpenAiCompliance before
  then [constructHookResultChunk (default [] before) fn] else [].

End Client.

(** What became of a stream: what the client was given, whether its end was
    closed, whether the upstream was cancelled, and whether an error was logged. *)
Record Pumped := mkPumped {
  written : list string;
  writer_closed : bool;
  upstream_cancelled : bool;
  error_logged : bool
}.

(** Writes until the client goes away, which it does after [patience] of them, if
    ever; the flag says whether it is gone at the end. *)
Fixpoint write_all (patience : option nat) (l : list string) : list string * bool :=
  match patience, l with
  | Some O, _ => ([], true)
  | _, [] => ([], false)
  | _, x :: r => let '(w, gone) := write_all (pred <$> patience) r in (x :: w, gone)
  end.

(** The asynchronous part of [handleStreamingMode]: a write to a client that is gone
    throws, and so does the reader when [failed]. *)
Definition pump (patience : option nat) (hooks : list string) (texts : list string) (failed : bool) : Pumped :=
  let '(w, gone) := write_all patience (hooks ++ texts) in
  mkPumped w (negb gone) (gone || failed) (negb gone && failed).

(** Which reader a stream has, and whether its answer is renamed an event stream;
    the transformer is given by its name. *)
Inductive StreamReader :=
| AwsReader
| TextReader (splitPattern : string) (isSleepTimeRequired : bool).

Definition stream_reader (proxyProvider requestURL : string) : StreamReader :=
  if (proxyProvider =? "bedrock")%string then AwsReader
  else TextReader (getStreamModeSplitPattern proxyProvider requestURL) (proxyProvider =? "azure-openai")%string.

Definition is_event_stream (proxyProvider : string) (transformer_name : option string) : bool :=
  match transformer_name with
  | None => false
  | Some name =>
      mem_string proxyProvider ["google"; "cohere"; "bedrock"] ||
      (proxyProvider =? "vertex-ai")%string &&
      (name =? "VertexLlamaChatCompleteStreamChunkTransform")%string
  end.

(** ** The handler of an answer *)

Inductive Handling :=
| JSONToStream
| StreamingMode
| Audio
| OctetStream
| Image
| Text
| NoContent
| NonStreaming.

(** Which transformer is used, if the answer has one. *)
Inductive Transformer :=
| NoTransformer
| Provider (name : string)
| ChatCompleteJSONToStream
| MessagesJsonToStream
| ModelResponseJSONToStream
| CompleteJSONToStream.

Section Handler.
(** The names of the response transforms of the provider. *)
Variable providerTransformers : string -> bool.

Definition is_success (status : Z) : bool := ((status =? 200) || (status =? 246))%Z.

Definition provider_transformer (name : string) : Transformer :=
  if providerTransformers name then Provider name else NoTransformer.

Definition choose_transformer (responseTransformer : option string) (streamingMode isCacheHit : bool) (status : Z)
    : Transformer :=
  match responseTransformer with
  | None => NoTransformer
  | Some r =>
      if truthy_string r then
        if streamingMode && isCacheHit then
          if (r =? "chatComplete")%string then ChatCompleteJSONToStream
          else if (r =? "messages")%string then MessagesJsonToStream
          else if (r =? "createModelResponse")%string then ModelResponseJSONToStream
          else CompleteJSONToStream
        else if negb streamingMode && isCacheHit then NoTransformer
        else if streamingMode && is_success status then provider_transformer ("stream-" +:+ r)
        else provider_transformer r
      else NoTransformer
  end.

Definition has_transformer (t : Transformer) : bool := match t with NoTransformer => false | _ => true end.

Definition starts_with (o : option string) (p : string) : bool :=
  match o with Some s => startsWith s p | None => false end.

Definition responseHandler (responseTransformer : option string) (streamingMode isCacheHit : bool)
    (status : Z) (contentType : option string) : Handling * Transformer :=
  let t := choose_transformer responseTransformer streamingMode isCacheHit status in
  (if streamingMode && is_success status then
     if isCacheHit && has_transformer t then JSONToStream else StreamingMode
   else if starts_with contentType "audio" then Audio
   else if bool_decide (contentType = Some "application/octet-stream") ||
           bool_decide (contentType = Some "binary/octet-stream") then OctetStream
   else if starts_with contentType "image/" then Image
   else if starts_with contentType "text/plain" || starts_with contentType "text/html" then Text
   else if negb (truthy_opt contentType) && (status =? 204)%Z then NoContent
   else NonStreaming, t).

End Handler.

(** ** The limit on answers of custom hosts *)

Definition DEFAULT_MAX_CUSTOM_HOST_RESPONSE_BYTES : num := num_of_Z (50 * 1024 * 1024).

Definition maxCustomHostResponseBytes (raw : any) : num :=
  let n := ToNumber raw in
  if is_integer_num n && nltb nzero n then n else DEFAULT_MAX_CUSTOM_HOST_RESPONSE_BYTES.

(** The transform of the body: the chunks that are passed on, and whether it was
    ended by an error. *)
Fixpoint count_chunks (maxBytes : num) (seen : Z) (body : list (list Z)) : list (list Z) * bool :=
  match body with
  | [] => ([], false)
  | chunk :: r =>
      let seen := (seen + Z.of_nat (length chunk))%Z in
      if nltb maxBytes (num_of_Z seen) then ([], true)
      else let '(l, e) := count_chunks maxBytes seen r in (chunk :: l, e)
  end.

Inductive Limited :=
| Refused (declared maxBytes : num)
| NoBody
| Body (passed : list (list Z)) (errored : bool).

Definition refused_status : Z := 502.

Definition limitResponseSize (content_length : option string) (body : option (list (list Z))) (maxBytes : num)
    : Limited :=
  let declared := match content_length with Some s => to_number s | None => nzero end in
  if is_finite_num declared && nltb maxBytes declared then Refused declared maxBytes
  else
    match body with
    | None => NoBody
    | Some b => let '(l, e) := count_chunks maxBytes 0 b in Body l e
    end.

(** ** Splitting at a separator *)

Lemma after_prefix_Some p s r : after_prefix p s = Some r -> s = p +:+ r.
Proof.
  revert s. induction p as [|c p IH]; intros s; simpl; [by intros [= ->]|].
  destruct s as [|d s]; [done|]. destruct (Ascii.eqb_spec c d) as [->|]; [|done].
  intros ->%IH. done.
Qed.

Lemma after_prefix_app p s t :
  (String.length p <= String.length s)%nat ->
  after_prefix p (s +:+ t) = (fun r => r +:+ t) <$> after_prefix p s.
Proof.
  revert s. induction p as [|c p IH]; intros s; [by destruct s|]. simpl.
  destruct s as [|d s]; simpl; [lia|]. intros H. destruct (Ascii.eqb c d); [|done].
  apply IH. lia.
Qed.

Lemma split_once_Some sep s a r : split_once sep s = Some (a, r) -> s = a +:+ (sep +:+ r).
Proof.
  revert a. induction s as [|c s IH]; intros a; simpl.
  - destruct (after_prefix sep "") as [x|] eqn:E; [|done].
    intros [= <- <-]. by apply after_prefix_Some in E.
  - destruct (after_prefix sep (String c s)) as [x|] eqn:E.
    + intros [= <- <-]. by apply after_prefix_Some in E.
    + destruct (split_once sep s) as [[a' r']|]; [|done]. simpl. intros [= <- <-].
      by rewrite (IH a' eq_refl) at 1.
Qed.

Lemma split_once_app sep s t a r :
  split_once sep s = Some (a, r) -> split_once sep (s +:+ t) = Some (a, r +:+ t).
Proof.
  revert a. induction s as [|c s IH]; intros a H; pose proof (split_once_Some _ _ _ _ H) as Hs;
    apply (f_equal String.length) in Hs; rewrite !slength_app in Hs.
  - simpl in *. destruct sep; [|simpl in Hs; lia]. destruct r; [|simpl in Hs; lia].
    simpl in H. injection H as <-. by destruct t.
  - cbn [split_once] in H. rewrite sapp_cons. cbn [split_once]. rewrite <- sapp_cons.
    rewrite (after_prefix_app sep (String c s) t) by lia.
    destruct (after_prefix sep (String c s)) as [x|]; [by injection H as <- <-|]. simpl.
    destruct (split_once sep s) as [[a' r']|]; [|done]. injection H as <- <-.
    by rewrite (IH a' eq_refl).
Qed.

Section Separator.
Variable sep : string.
Hypothesis sep_nonempty : sep <> "".

Lemma split_once_shorter b a r : split_once sep b = Some (a, r) -> (b_size r < b_size b)%nat.
Proof.
  intros H%split_once_Some. apply (f_equal String.length) in H. rewrite !slength_app in H.
  simpl. destruct sep; [done|simpl in H; lia].
Qed.

(** The pieces of a text: its complete parts and the last one. *)
Lemma split_messages s :
  split sep s = let '(l, rest) := Framing.messages (split_once sep) s in l ++ [rest].
Proof.
  unfold split, Framing.messages. cbn [b_size string_buffer]. generalize (String.length s) as n.
  intros n. revert s. induction n as [|n IH]; intros s; [done|]. simpl.
  destruct (split_once sep s) as [[a r]|]; [|done]. rewrite IH.
  by destruct (Framing.messages_of (split_once sep) n r).
Qed.

Lemma split_parts s l rest :
  Framing.messages (split_once sep) s = (l, rest) ->
  removelast (split sep s) = l /\ List.last (split sep s) "" = rest /\
  length (split sep s) = Datatypes.S (length l).
Proof.
  intros H. rewrite split_messages, H. split; [apply removelast_last|].
  split; [apply last_last|]. rewrite length_app. simpl. lia.
Qed.

Context {St : Type}.
Variable transformFunction : option (St -> string -> option (option string * St)).
Variable isSleepTimeRequired : bool.

Notation part := (read_part sep transformFunction isSleepTimeRequired).

(** One round of the loop takes every separator; the next finds none. *)
Lemma split_loop_messages fuel b s :
  (String.length b <= fuel)%nat ->
  split_loop sep transformFunction isSleepTimeRequired fuel b s =
  let '(l, rest) := Framing.messages (split_once sep) b in Framing.handle_all part s l rest.
Proof.
  intros Hf. destruct (Framing.messages (split_once sep) b) as [l rest] eqn:E.
  destruct (split_parts _ _ _ E) as (H1 & H2 & H3).
  pose proof (messages_left _ split_once_shorter b) as Hleft. rewrite E in Hleft. simpl in Hleft.
  assert (forall n s', split_loop sep transformFunction isSleepTimeRequired n rest s' =
                       Framing.mkReading [] s' (inr rest)) as Hidle.
  { intros n s'. assert (length (split sep rest) = 1%nat) as Hl
      by (unfold split; destruct (String.length rest); simpl; by rewrite ?Hleft).
    destruct n; simpl; by rewrite Hl. }
  assert (b <> rest -> l <> []) as Hne.
  { intros Hb ->. rewrite (messages_unfold _ split_once_shorter) in E.
    destruct (split_once sep b) as [[a r]|]; [by destruct (Framing.messages _ r)|congruence]. }
  destruct l as [|x l].
  - assert (b = rest) as -> by (destruct (String.eqb_spec b rest); naive_solver). apply Hidle.
  - destruct fuel as [|n].
    { destruct b; [|simpl in Hf; lia]. unfold Framing.messages in E. simpl in E. done. }
    cbn [split_loop]. rewrite H1, H2, H3. cbn [length Nat.leb].
    pose proof (handle_all_left part s (x :: l) rest) as Hr. cbv zeta.
    destruct (Framing.handle_all part s (x :: l) rest) as [g nw [e|y]]; [done|].
    cbn [Framing.outcome Framing.given Framing.now] in *. rewrite (Hr y eq_refl), Hidle.
    unfold Framing.prepend. simpl. by rewrite app_nil_r.
Qed.

Lemma read_from_messages b s texts :
  split_once sep b = None ->
  read_from sep transformFunction isSleepTimeRequired b s texts =
  let d := Framing.read (split_once sep) part b s texts in
  match Framing.outcome d with
  | inl e => (Framing.given d, Some e)
  | inr rest => let '(l, e) := last_part transformFunction rest (Framing.now d) in (Framing.given d ++ l, e)
  end.
Proof.
  revert b s. induction texts as [|t texts IH]; intros b s Hb; cbn [read_from Framing.read].
  - simpl. by destruct (last_part transformFunction b s).
  - change (b_app b t) with (b +:+ t). rewrite split_loop_messages by done.
    unfold Framing.drain_all. rewrite drain_messages. fold (Framing.messages (split_once sep) (b +:+ t)).
    pose proof (messages_left _ split_once_shorter (b +:+ t)) as Hl.
    destruct (Framing.messages (split_once sep) (b +:+ t)) as [l rest]. simpl in Hl.
    pose proof (handle_all_left part s l rest) as Hr. cbv zeta.
    destruct (Framing.handle_all part s l rest) as [g nw [e|y]]; [done|].
    cbn [Framing.outcome Framing.given Framing.now] in *. rewrite (Hr y eq_refl), IH by done.
    cbv zeta. unfold Framing.prepend.
    destruct (Framing.read (split_once sep) part rest nw texts) as [g' nw' [e|z]]; [done|]. simpl.
    destruct (last_part transformFunction z nw'). by rewrite app_assoc.
Qed.

Lemma text_stream_whole st texts :
  readStream sep transformFunction isSleepTimeRequired st texts =
  read_whole sep transformFunction isSleepTimeRequired st (String.concat "" texts).
Proof.
  assert (split_once sep "" = None) as H0
    by (destruct (split_once sep "") as [[]|] eqn:E; [apply split_once_shorter in E; simpl in E; lia|done]).
  unfold readStream. rewrite read_from_messages by done.
  rewrite (read_messages _ _ split_once_shorter (fun b m r t => split_once_app sep b t m r)) by done.
  change (b_app "" (Framing.joined_pieces texts)) with (Framing.joined_pieces texts).
  rewrite joined_pieces_text. unfold read_whole.
  destruct (Framing.messages (split_once sep) (String.concat "" texts)) as [l rest] eqn:E.
  destruct (split_parts _ _ _ E) as (-> & -> & _). done.
Qed.

Lemma messages_text b l rest :
  Framing.messages (split_once sep) b = (l, rest) ->
  b = String.concat "" (map (fun x => x +:+ sep) l) +:+ rest.
Proof.
  revert l. induction b as [b E|b m r E IH] using (messages_ind _ split_once_shorter); intros l;
    rewrite (messages_unfold _ split_once_shorter), E.
  - by intros [= <- <-].
  - destruct (Framing.messages (split_once sep) r) as [l' x] eqn:Er. intros [= <- <-].
    apply split_once_Some in E. rewrite E, (IH l' eq_refl) at 1. cbn [map].
    by rewrite concat_text_cons, !sapp_assoc.
Qed.
End Separator.

Lemma pattern_nonempty provider url : getStreamModeSplitPattern provider url <> "".
Proof.
  unfold getStreamModeSplitPattern.
  repeat match goal with |- context [if ?b then _ else _] => destruct b; [try discriminate|try discriminate] end.
Qed.

(** [C20] For every provider, the parts of a stream of text are handled once each and
    in order, and the last one at the end, as if the whole text had come in one
    read: no cut of the stream into reads changes what is given out. *)
Theorem text_stream_exact {S} provider url (f : option (S -> string -> option (option string * S)))
    sleeps st texts :
  let sep := getStreamModeSplitPattern provider url in
  readStream sep f sleeps st texts = read_whole sep f sleeps st (String.concat "" texts).
Proof. apply text_stream_whole, pattern_nonempty. Qed.

(** Without a transformer, the parts that are not empty arrive with their separator
    and the last one as it is; when no part is empty, that is the text that was
    sent. *)
Lemma handle_untransformed {S} sep sleeps (s : ReaderState (S := S)) l (rest : string) :
  exists s' g, Framing.handle_all (read_part sep None sleeps) s l rest = Framing.mkReading g s' (inr rest) /\
    chunks g = map (fun x => x +:+ sep) (List.filter truthy_string l).
Proof.
  revert s. induction l as [|x l IH]; intros s; [by exists s, []|].
  cbn [Framing.handle_all read_part List.filter]. unfold truthy_string at 1.
  destruct (String.eqb_spec x "") as [->|Hx]; cbn [String.length Nat.eqb negb].
  - change (read_part sep None sleeps s "") with (s, @nil Out, @None StreamError). cbv iota.
    destruct (IH s) as (s' & g & -> & Hg). by exists s', g.
  - destruct x as [|c x]; [done|]. unfold read_part at 1. cbn [String.length Nat.eqb].
    destruct (IH (mkReader false (streamState s))) as (s' & g & -> & Hg).
    exists s', ((pause sleeps s ++ [Chunk (String c x +:+ sep)]) ++ g). split; [done|].
    unfold chunks in *. rewrite !omap_app, Hg. cbn [map].
    assert (omap (fun o => match o with Chunk s => Some s | Sleep _ => None end) (pause sleeps s) = []) as ->
      by (unfold pause; destruct (isFirstChunk s), sleeps; done). done.
Qed.

Theorem untransformed_stream_is_unchanged {S} provider url sleeps (st : S) texts :
  let sep := getStreamModeSplitPattern provider url in
  let text := String.concat "" texts in
  let out := readStream sep None sleeps st texts in
  out.2 = None /\
  (Forall (fun x => truthy_string x = true) (removelast (split sep text)) ->
   String.concat "" (chunks out.1) = text).
Proof.
  cbv zeta. set (sep := getStreamModeSplitPattern provider url).
  pose proof (pattern_nonempty provider url) as Hsep. fold sep in Hsep.
  rewrite text_stream_whole by done. unfold read_whole.
  destruct (Framing.messages (split_once sep) (String.concat "" texts)) as [l rest] eqn:E.
  destruct (split_parts _ _ _ _ E) as (-> & -> & _).
  destruct (handle_untransformed (S := S) sep sleeps (mkReader true st) l rest) as (s' & g & -> & Hg).
  simpl. unfold last_part.
  destruct (Nat.ltb_spec 0 (String.length rest)) as [Hr|Hr]; simpl; (split; [done|]); intros Hl;
    (assert (List.filter truthy_string l = l) as Hf
       by (clear -Hl; induction Hl as [|x l Hx _ IH]; simpl; [done|by rewrite Hx, IH]));
    rewrite (messages_text sep Hsep _ _ _ E); unfold chunks in *; rewrite omap_app, Hg, Hf; simpl.
  - apply concat_text_snoc.
  - destruct rest; [|simpl in Hr; lia]. by rewrite app_nil_r, sapp_nil_r.
Qed.

(** ** Writing and limits *)

(** What the client reads is a start of the stream. Unless the client goes away the
    whole of it is written and closed; the upstream is cancelled when the client is
    gone or the reader failed, and an error is logged for a client that is there. *)
Lemma pump_outcome patience hooks texts failed :
  let p := pump patience hooks texts failed in
  let stream := hooks ++ texts in
  match patience with
  | Some n =>
      if (n <=? length stream)%nat
      then p = mkPumped (take n stream) false true false
      else p = mkPumped stream true failed failed
  | None => p = mkPumped stream true failed failed
  end.
Proof.
  cbv zeta. unfold pump. generalize (hooks ++ texts). intros l.
  assert (forall l, write_all None l = (l, false)) as Hn
    by (clear; induction l as [|x l IH]; simpl; [done|by rewrite IH]).
  assert (forall n l, write_all (Some n) l =
            if (n <=? length l)%nat then (take n l, true) else (l, false)) as Hs.
  { clear. intros n l. revert n. induction l as [|x l IH]; intros [|n]; try done. simpl.
    rewrite IH. by destruct (n <=? length l)%nat. }
  destruct patience as [n|]; [rewrite Hs; by destruct (n <=? length l)%nat|by rewrite Hn].
Qed.

Definition total (l : list (list Z)) : Z := Z.of_nat (length (concat l)).

Lemma num_of_Z_not_nan n : is_nan (num_of_Z n) = false.
Proof. apply binary_normalize_not_nan. Qed.

Lemma count_chunks_spec m seen body :
  is_nan m = false -> nleb (num_of_Z seen) m = true ->
  let '(passed, errored) := count_chunks m seen body in
  nleb (num_of_Z (seen + total passed)) m = true /\
  if errored
  then exists chunk rest, body = passed ++ chunk :: rest /\
         nltb m (num_of_Z (seen + total (passed ++ [chunk]))) = true
  else passed = body.
Proof.
  intros Hm. revert seen. induction body as [|chunk r IH]; intros seen Hs; simpl.
  - by rewrite Z.add_0_r.
  - destruct (nltb m _) eqn:E.
    + unfold total. simpl. rewrite Z.add_0_r. split; [done|]. exists chunk, r. split; [done|].
      by rewrite app_nil_r.
    + specialize (IH (seen + Z.of_nat (length chunk))%Z).
      destruct (count_chunks m _ r) as [passed errored].
      destruct IH as [H1 H2].
      { pose proof (num_of_Z_not_nan (seen + Z.of_nat (length chunk))). num_order. }
      assert (forall l, (seen + total (chunk :: l) = seen + Z.of_nat (length chunk) + total l)%Z) as Ht
        by (intros l; unfold total; simpl; rewrite length_app; lia).
      rewrite Ht. split; [done|]. destruct errored; [|by rewrite H2].
      destruct H2 as (c & rest & -> & H2). exists c, rest. split; [done|]. cbn [app]. by rewrite Ht.
Qed.

Lemma limit_positive raw :
  let m := maxCustomHostResponseBytes raw in is_nan m = false /\ nltb nzero m = true.
Proof.
  cbv zeta. unfold maxCustomHostResponseBytes. destruct (_ && _) eqn:E; [|by vm_compute].
  apply andb_true_iff in E as [_ E]. split; [num_order|done].
Qed.

(** [C40] Whatever the limit is configured to and whatever length a custom host
    declares, the bytes that are passed on never exceed the limit.  An answer whose
    declared length does is refused; a body within the limit is passed on
    unchanged, and one that is cut was longer. *)
Theorem custom_host_answers_are_bounded raw content_length body :
  let m := maxCustomHostResponseBytes raw in
  nltb nzero m = true /\
  match limitResponseSize content_length (Some body) m with
  | Refused declared _ => nltb m declared = true
  | NoBody => False
  | Body passed errored =>
      nleb (num_of_Z (total passed)) m = true /\
      if errored
      then exists chunk rest, body = passed ++ chunk :: rest /\
             nltb m (num_of_Z (total (passed ++ [chunk]))) = true
      else passed = body
  end.
Proof.
  cbv zeta. destruct (limit_positive raw) as [Hn Hp]. split; [done|].
  unfold limitResponseSize. destruct (_ && _) eqn:E.
  - by apply andb_true_iff in E as [_ E].
  - pose proof (count_chunks_spec _ 0 body Hn) as H. destruct (count_chunks _ 0 body) as [passed errored].
    apply H. change (num_of_Z 0) with nzero. num_order.
Qed.

(** ** Samples *)

Module Samples.

Definition upper (n : nat) (s : string) : option (option string * nat) :=
  if includes s "ping" then Some (None, n) else Some (Some ("<" +:+ s +:+ ">"), (n + 1)%nat).

(** A separator that is cut in two, a skipped event and a last part without a
    separator. *)
Example separator_cut_in_two :
  readStream (LF +:+ LF) (Some upper) false 0%nat
    ["one" +:+ LF; LF +:+ "ping" +:+ LF +:+ LF +:+ "tw"; "o" +:+ LF +:+ LF +:+ LF; "three"] =
  ([Sleep 25; Chunk "<one>"; Chunk "<two>"; Chunk ("<" +:+ LF +:+ "three>")], None).
Proof. vm_compute. reflexivity. Qed.

Example vertex_pattern :
  getStreamModeSplitPattern "vertex-ai" "https://x/publishers/google/models" = CRLF +:+ CRLF.
Proof. reflexivity. Qed.

Example cached_stream :
  responseHandler (fun _ => false) (Some "chatComplete") true true 200 (Some "application/json") =
  (JSONToStream, ChatCompleteJSONToStream).
Proof. reflexivity. Qed.

(** A host that declares no length is cut when it sends too much. *)
Example undeclared_answer :
  limitResponseSize None (Some [[1; 2]; [3]; [4; 5]]%Z) (maxCustomHostResponseBytes (Some (JStr "3"))) =
  Body [[1; 2]; [3]]%Z true.
Proof. vm_compute. reflexivity. Qed.

End Samples.
