(* ===== verification/ViaResponses.v ===== *)
(** * A Responses stream read as a Messages stream

    Models [src/gateway/src/adapters/messagesViaResponses/streamTransform.ts] with the
    parts of [responseTransform.ts] it uses (reasoning and web search items, usage, the
    stop reason), [reasoningSignature.ts], and the branch of
    [adaptStreamingResponse] ([handlers/adapterUtils.ts]) for Messages requests that
    were sent to the Responses API.

    [JSON.parse], [randomUUID], the texts of numbers and of values that are added to a
    text are parameters.  Events are kept as data; [sse] gives their text.  Reading
    the summary of a reasoning item throws when it is not an array ([None]).

    The protocol of a client of the Messages API ([client_step]) is that of
    [MessagesStream] with the blocks this adapter can write.
    [via_client_accepts]: every event the adapter writes is accepted, the client holds
    the text deltas that were read, in order, and sees an end exactly when the upstream
    sent one or stopped while it could be read.  [carried_reasoning_round_trip]: a reasoning signature is read back by
    the provider that issued it and by no other.  The [Samples] show a stream that
    ends without a word when reading the upstream fails. *)

From Stdlib Require Import ZArith Lia Ascii Floats.SpecFloat.
From stdpp Require Import base strings option list.
From S2P Require Import Prelude JsValue JsText CacheKey StreamHandler AdapterShared.

#[local] Open Scope string_scope.
#[local] Open Scope list_scope.
#[local] Arguments num_of_Z : simpl never.

(** ** Carried reasoning *)

Definition PREFIX : string := "ps-rsn1:".

Definition encodeReasoningSignature (provider encryptedContent : string) : string :=
  PREFIX +:+ toLowerCase provider +:+ ":" +:+ encryptedContent.

(** The text before the first colon and the text after it. *)
Fixpoint cut_colon (s : string) : option (string * string) :=
  match s with
  | EmptyString => None
  | String c r =>
      if (code c =? 58)%N then Some ("", r)
      else (fun x => (String c x.1, x.2)) <$> cut_colon r
  end.

Definition decodeReasoningSignature (signature : any) (provider : string) : option string :=
  match signature with
  | Some (JStr s) =>
      match after_prefix PREFIX s with
      | None => None
      | Some rest =>
          match cut_colon rest with
          | Some (issuer, payload) =>
              if (issuer =? "")%string then None
              else if negb (issuer =? toLowerCase provider)%string then None
              else if truthy_string payload then Some payload else None
          | None => None
          end
      end
  | _ => None
  end.

(** ** Events *)

Inductive ContentBlock :=
| ThinkingBlock (thinking signature : string)
| TextBlock
| ToolUseBlock (id name : json)
| RedactedThinkingBlock (data : string)
| ServerToolUseBlock (id : json) (query : string)
| WebSearchResultBlock (tool_use_id : json) (results : list (string * json)).

Inductive BlockType := BT_thinking | BT_text | BT_tool_use.

#[export] Instance BlockType_eq_dec : EqDecision BlockType.
Proof. solve_decision. Defined.

Inductive Delta :=
| thinking_delta (s : string)
| signature_delta (s : string)
| text_delta (v : json)
| input_json_delta (v : json).

Inductive Event :=
| message_start (id model : json)
| content_block_start (index : nat) (b : ContentBlock)
| content_block_delta (index : nat) (d : Delta)
| content_block_stop (index : nat)
| message_delta (stop_reason : ANTHROPIC_STOP_REASON) (usage : MessagesUsage) (webSearches : nat)
| message_stop
| error (type : string) (message : json).

Definition result_json (r : string * json) : json :=
  JObj [("type", JStr "web_search_result"); ("url", JStr r.1); ("title", r.2);
        ("encrypted_content", JStr ""); ("page_age", JNull)].

Definition block_json (b : ContentBlock) : json :=
  match b with
  | ThinkingBlock t s => JObj [("type", JStr "thinking"); ("thinking", JStr t); ("signature", JStr s)]
  | TextBlock => JObj [("type", JStr "text"); ("text", JStr "")]
  | ToolUseBlock id name =>
      JObj [("type", JStr "tool_use"); ("id", id); ("name", name); ("input", JObj [])]
  | RedactedThinkingBlock d => JObj [("type", JStr "redacted_thinking"); ("data", JStr d)]
  | ServerToolUseBlock id _ =>
      JObj [("type", JStr "server_tool_use"); ("id", id); ("name", JStr "web_search"); ("input", JObj [])]
  | WebSearchResultBlock id results =>
      JObj [("type", JStr "web_search_tool_result"); ("tool_use_id", id);
            ("content", JArr (map result_json results))]
  end.

Definition delta_json (d : Delta) : json :=
  match d with
  | thinking_delta s => JObj [("type", JStr "thinking_delta"); ("thinking", JStr s)]
  | signature_delta s => JObj [("type", JStr "signature_delta"); ("signature", JStr s)]
  | text_delta v => JObj [("type", JStr "text_delta"); ("text", v)]
  | input_json_delta v => JObj [("type", JStr "input_json_delta"); ("partial_json", v)]
  end.

Definition index_json (i : nat) : json := JNum (num_of_Z (Z.of_nat i)).

(** [messagesUsage] *)
Definition usage_json (u : MessagesUsage) (webSearches : nat) : json :=
  match messages_usage_json u with
  | JObj o =>
      JObj (if (0 <? webSearches)%nat
            then o ++ [("server_tool_use", JObj [("web_search_requests", index_json webSearches)])]
            else o)
  | v => v
  end.

Definition event_data (e : Event) : string * list (string * json) :=
  match e with
  | message_start id model =>
      ("message_start",
       [("message",
          JObj [("id", id); ("type", JStr "message"); ("role", JStr "assistant");
                ("content", JArr []); ("model", model); ("stop_reason", JNull);
                ("stop_sequence", JNull);
                ("usage", JObj [("input_tokens", JNum nzero); ("output_tokens", JNum nzero)])])])
  | content_block_start i b =>
      ("content_block_start", [("index", index_json i); ("content_block", block_json b)])
  | content_block_delta i d =>
      ("content_block_delta", [("index", index_json i); ("delta", delta_json d)])
  | content_block_stop i => ("content_block_stop", [("index", index_json i)])
  | message_delta r u n =>
      ("message_delta",
       [("delta", JObj [("stop_reason", JStr (stop_text r)); ("stop_sequence", JNull)]);
        ("usage", usage_json u n)])
  | message_stop => ("message_stop", [])
  | error ty m => ("error", [("error", JObj [("type", JStr ty); ("message", m)])])
  end.

(** ** The parts of a response *)

(** [pos] *)
Definition pos (v : any) : num :=
  match v with
  | Some (JNum n) => if is_finite_num n && nltb nzero n then n else nzero
  | _ => nzero
  end.

Definition normalizeResponsesUsage (u : any) : NormalizedUsage :=
  let promptTokens := pos (prop u "input_tokens") in
  let completionTokens := pos (prop u "output_tokens") in
  let total := pos (prop u "total_tokens") in
  mkUsage promptTokens completionTokens
    (pos (prop (prop u "input_tokens_details") "cached_tokens")) nzero
    (pos (prop (prop u "output_tokens_details") "reasoning_tokens"))
    (if num_truthy total then total else nadd promptTokens completionTokens).

Definition is_str (v : any) (s : string) : bool :=
  match v with Some (JStr t) => (t =? s)%string | _ => false end.

Definition responsesStopReason (response : any) (hasToolUse : bool) : ANTHROPIC_STOP_REASON :=
  let ended := if hasToolUse then SR_tool_use else SR_end_turn in
  if is_str (prop response "status") "incomplete" then
    let reason := prop (prop response "incomplete_details") "reason" in
    if is_str reason "max_output_tokens" then SR_max_tokens
    else if is_str reason "content_filter" then SR_refusal
    else ended
  else ended.

(** [None]: the summary is not an array, and [map] throws. *)
Definition summary_texts (item : any) : option (list string) :=
  let summary := prop item "summary" in
  if truthy summary then
    match summary with
    | Some (JArr l) => Some (map (fun s => default "" (as_string (prop (Some s) "text"))) l)
    | _ => None
    end
  else Some [].

Definition reasoningSummaryText (item : any) : option string :=
  (fun l => String.concat (LF +:+ LF) (List.filter truthy_string l)) <$> summary_texts item.

Definition reasoningBlock (item : any) (provider : string) : option (option ContentBlock) :=
  match reasoningSummaryText item with
  | None => None
  | Some thinking =>
      let encrypted :=
        match prop item "encrypted_content" with
        | Some (JStr s) => if truthy_string s then encodeReasoningSignature provider s else ""
        | _ => ""
        end in
      Some (if truthy_string thinking then Some (ThinkingBlock thinking encrypted)
            else if truthy_string encrypted then Some (RedactedThinkingBlock encrypted)
            else None)
  end.

(** [block?.signature || block?.data] *)
Definition block_signature (b : option ContentBlock) : string :=
  match b with
  | Some (ThinkingBlock _ s) => s
  | Some (RedactedThinkingBlock d) => d
  | _ => ""
  end.

Definition web_result (s : json) : option (string * json) :=
  match prop (Some s) "url" with
  | Some (JStr url) =>
      if truthy_string url
      then Some (url, match prop (Some s) "title" with
                      | Some t => if truthy (Some t) then t else JStr url
                      | None => JStr url
                      end)
      else None
  | _ => None
  end.

(** [a || b] for a value that is there or not *)
Definition or_json (a : any) (b : json) : json := if truthy a then default b a else b.

(** The blocks of a search and whether an id was drawn for them. *)
Definition webSearchBlocks (uuid : string) (item : any) : list ContentBlock * bool :=
  let action := prop item "action" in
  let type := prop action "type" in
  if truthy action && truthy type && negb (is_str type "search") then ([], false)
  else
    let id := or_json (prop item "id") (JStr ("srvtoolu_" +:+ uuid)) in
    let query := default "" (as_string (prop action "query")) in
    let sources := match prop action "sources" with Some (JArr l) => l | _ => [] end in
    ([ServerToolUseBlock id query; WebSearchResultBlock id (omap web_result sources)],
     negb (truthy (prop item "id"))).

(** ** The state of a stream *)

Record OpenBlock := mkOpen {
  ob_index : nat;
  ob_type : BlockType;
  ob_item : json;
  ob_summary : any;
  ob_sentArgs : bool
}.

Record State := mkState {
  started : bool;
  completed : bool;
  messageId : json;
  model : json;
  nextIndex : nat;
  opened : option OpenBlock;
  hasToolUse : bool;
  provider : string;
  webSearches : nat;
  drawn : nat
}.

Definition eta (s : State) : State :=
  mkState (started s) (completed s) (messageId s) (model s) (nextIndex s) (opened s) (hasToolUse s)
    (provider s) (webSearches s) (drawn s).

Definition set_started v s : State := ltac:(set_field eta s started v).
Definition set_completed v s : State := ltac:(set_field eta s completed v).
Definition set_messageId v s : State := ltac:(set_field eta s messageId v).
Definition set_model v s : State := ltac:(set_field eta s model v).
Definition set_nextIndex v s : State := ltac:(set_field eta s nextIndex v).
Definition set_opened v s : State := ltac:(set_field eta s opened v).
Definition set_hasToolUse v s : State := ltac:(set_field eta s hasToolUse v).
Definition set_webSearches v s : State := ltac:(set_field eta s webSearches v).
Definition set_drawn v s : State := ltac:(set_field eta s drawn v).

Definition createResponsesToMessagesStreamState (provider : string) : State :=
  mkState false false (JStr "") (JStr "") 0 None false provider 0 0.

Record Run := mkRun { st : State; events : list Event }.

Definition push (e : Event) (w : Run) : Run := mkRun (st w) (events w ++ [e]).
Definition upd (f : State -> State) (w : Run) : Run := mkRun (f (st w)) (events w).

(** ** Blocks *)

Definition close (w : Run) : Run :=
  match opened (st w) with
  | None => w
  | Some o => upd (set_opened None) (push (content_block_stop (ob_index o)) w)
  end.

Definition open_ (type : BlockType) (itemId : json) (b : ContentBlock) (w : Run) : OpenBlock * Run :=
  let w := close w in
  let index := nextIndex (st w) in
  let o := mkOpen index type itemId None false in
  (o, push (content_block_start index b)
        (upd (fun s => set_opened (Some o) (set_nextIndex (S index) s)) w)).

(** [state.open?.type === type && state.open.itemId === itemId]; only thinking and
    text blocks are opened this way. *)
Definition blockFor (type : BlockType) (b : ContentBlock) (itemId : json) (w : Run) : OpenBlock * Run :=
  match opened (st w) with
  | Some o =>
      if bool_decide (ob_type o = type) && strict_eq (Some (ob_item o)) itemId then (o, w)
      else open_ type itemId b w
  | None => open_ type itemId b w
  end.

(** A whole block: [rest] and the input of a server tool come apart. *)
Definition emitBlock (number_text : num -> string) (b : ContentBlock) (w : Run) : Run :=
  let w := close w in
  let index := nextIndex (st w) in
  let w := push (content_block_start index b) (upd (set_nextIndex (S index)) w) in
  let w := match b with
           | ServerToolUseBlock _ query =>
               push (content_block_delta index
                       (input_json_delta (JStr (CacheKey.JSON_stringify number_text (JObj [("query", JStr query)]))))) w
           | _ => w
           end in
  push (content_block_stop index) w.

Definition errorEvent (type : string) (message : json) (w : Run) : Run :=
  push (error type message) (upd (set_completed true) w).

Section Stream.
Variable JSON_parse : string -> option json.
Variable number_text : num -> string.
(** The text of a value that is added to a text. *)
Variable added_text : json -> string.
Variable randomUUID : nat -> string.

(** The lines of an SSE message: [split(/\r?\n/)]. *)
Fixpoint split_lines (s : string) : string * list string :=
  match s with
  | EmptyString => ("", [])
  | String c r =>
      let '(l, ls) := split_lines r in
      if (code c =? 10)%N then ("", l :: ls)
      else if (code c =? 13)%N && startsWith r LF then (l, ls)
      else (String c l, ls)
  end.

Definition data_line (l : string) : option string :=
  if startsWith l "data:"
  then Some (drop_while is_space (String.substring 5 (String.length l - 5) l)) else None.

(** The data of one message, unless it is [undefined]. *)
Definition dataOf (chunk : string) : any :=
  let '(l, ls) := split_lines chunk in
  let data := String.concat LF (omap data_line (l :: ls)) in
  if (data =? "")%string || (data =? "[DONE]")%string then None else JSON_parse data.

Definition start (response : any) (w : Run) : Run :=
  if started (st w) then w
  else
    let id := or_json (prop response "id") (JStr ("msg_" +:+ randomUUID (drawn (st w)))) in
    let m := or_json (prop response "model") (JStr "") in
    let d := if truthy (prop response "id") then drawn (st w) else S (drawn (st w)) in
    push (message_start id m)
      (upd (fun s => set_drawn d (set_model m (set_messageId id (set_started true s)))) w).

(** [state.open.itemId === (id ?? state.open.itemId)] *)
Definition same_item (o : OpenBlock) (id : any) : bool :=
  is_null_or_undef id || strict_eq id (ob_item o).

(** [item.id ?? ''] *)
Definition item_key (id : any) : json := default (JStr "") (nullish id (Some (JStr ""))).

(** ** The events of the upstream *)

Inductive Kind :=
| K_created | K_item_added | K_arguments | K_summary | K_text | K_item_done | K_completed
| K_failed | K_error | K_other.

Definition kinds : list (string * Kind) := [
  ("response.created", K_created); ("response.in_progress", K_created);
  ("response.output_item.added", K_item_added);
  ("response.function_call_arguments.delta", K_arguments);
  ("response.reasoning_summary_text.delta", K_summary);
  ("response.output_text.delta", K_text); ("response.refusal.delta", K_text);
  ("response.output_item.done", K_item_done);
  ("response.completed", K_completed); ("response.incomplete", K_completed);
  ("response.failed", K_failed); ("error", K_error)
].

Definition kind_of (ev : any) : Kind :=
  match prop ev "type" with
  | Some (JStr t) => default K_other (own kinds t)
  | _ => K_other
  end.

Definition on_item_added (ev : any) (w : Run) : Run :=
  let w := start None w in
  let item := prop ev "item" in
  if is_str (prop item "type") "function_call" then
    let needs := negb (truthy (prop item "call_id")) && negb (truthy (prop item "id")) in
    let id := or_json (prop item "call_id")
                (or_json (prop item "id") (JStr ("toolu_" +:+ randomUUID (drawn (st w))))) in
    let w := upd (fun s => set_drawn (if needs then S (drawn s) else drawn s) (set_hasToolUse true s)) w in
    (open_ BT_tool_use (item_key (prop item "id")) (ToolUseBlock id (or_json (prop item "name") (JStr ""))) w).2
  else w.

Definition mark_sent (o : OpenBlock) : OpenBlock :=
  mkOpen (ob_index o) (ob_type o) (ob_item o) (ob_summary o) true.

Definition on_arguments (ev : any) (w : Run) : Run :=
  match opened (st w), prop ev "delta" with
  | Some o, Some d =>
      if bool_decide (ob_type o = BT_tool_use) && same_item o (prop ev "item_id") && truthy (Some d)
      then push (content_block_delta (ob_index o) (input_json_delta d))
             (upd (set_opened (Some (mark_sent o))) w)
      else w
  | _, _ => w
  end.

(** [a !== undefined && b !== undefined && b !== a] *)
Definition other_summary (a b : any) : bool :=
  match a, b with Some _, Some b' => negb (strict_eq a b') | _, _ => false end.

Definition on_summary (ev : any) (w : Run) : Run :=
  match prop ev "delta" with
  | Some d =>
      if truthy (Some d) then
        let w := start None w in
        let '(o, w) := blockFor BT_thinking (ThinkingBlock "" "") (item_key (prop ev "item_id")) w in
        let sep := if other_summary (ob_summary o) (prop ev "summary_index") then LF +:+ LF else "" in
        let o' := mkOpen (ob_index o) (ob_type o) (ob_item o) (prop ev "summary_index") (ob_sentArgs o) in
        push (content_block_delta (ob_index o) (thinking_delta (sep +:+ added_text d)))
          (upd (set_opened (Some o')) w)
      else w
  | None => w
  end.

Definition on_text (ev : any) (w : Run) : Run :=
  match prop ev "delta" with
  | Some d =>
      if truthy (Some d) then
        let w := start None w in
        let '(o, w) := blockFor BT_text TextBlock (item_key (prop ev "item_id")) w in
        push (content_block_delta (ob_index o) (text_delta d)) w
      else w
  | None => w
  end.

(** Arguments that come only with the finished item. *)
Definition late_arguments (item : any) (w : Run) : Run :=
  match opened (st w), prop item "arguments" with
  | Some o, Some a =>
      if bool_decide (ob_type o = BT_tool_use) && negb (ob_sentArgs o) &&
         is_str (prop item "type") "function_call" && truthy (Some a)
      then push (content_block_delta (ob_index o) (input_json_delta a)) w else w
  | _, _ => w
  end.

Definition finished_reasoning (item : any) (w : Run) : option Run :=
  let w := start None w in
  match reasoningBlock item (provider (st w)) with
  | None => None
  | Some block =>
      let whole := match block with Some b => emitBlock number_text b w | None => w end in
      Some (match opened (st w) with
            | Some o =>
                if bool_decide (ob_type o = BT_thinking) && same_item o (prop item "id") then
                  if truthy_string (block_signature block)
                  then push (content_block_delta (ob_index o) (signature_delta (block_signature block))) w
                  else w
                else whole
            | None => whole
            end)
  end.

Definition finished_search (item : any) (w : Run) : Run :=
  let w := start None w in
  let '(blocks, drew) := webSearchBlocks (randomUUID (drawn (st w))) item in
  let w := upd (fun s => set_drawn (if drew then S (drawn s) else drawn s)
                          (set_webSearches (match blocks with [] => webSearches s | _ => S (webSearches s) end) s)) w in
  foldl (fun w b => emitBlock number_text b w) w blocks.

Definition on_item_done (ev : any) (w : Run) : option Run :=
  let item := prop ev "item" in
  let w := late_arguments item w in
  let done :=
    if is_str (prop item "type") "reasoning" then finished_reasoning item w
    else if is_str (prop item "type") "web_search_call" then Some (finished_search item w)
    else Some w in
  (fun w =>
     let here := match opened (st w) with Some o => strict_eq (prop item "id") (ob_item o) | None => false end in
     if negb (truthy (prop item "id")) || here then close w else w) <$> done.

Definition on_completed (ev : any) (w : Run) : Run :=
  let response := prop ev "response" in
  let w := upd (set_completed true) (close (start response w)) in
  push message_stop
    (push (message_delta (responsesStopReason response (hasToolUse (st w)))
             (toMessagesUsage (normalizeResponsesUsage (prop response "usage"))) (webSearches (st w))) w).

(** The body of the switch; [None] when it throws. *)
Definition on_event (ev : any) (w : Run) : option Run :=
  match kind_of ev with
  | K_created => Some (start (prop ev "response") w)
  | K_item_added => Some (on_item_added ev w)
  | K_arguments => Some (on_arguments ev w)
  | K_summary => Some (on_summary ev w)
  | K_text => Some (on_text ev w)
  | K_item_done => on_item_done ev w
  | K_completed => Some (on_completed ev w)
  | K_failed =>
      Some (errorEvent "api_error"
              (or_json (prop (prop (prop ev "response") "error") "message") (JStr "Response failed")) w)
  | K_error =>
      Some (errorEvent "api_error"
              (or_json (prop ev "message") (or_json (prop (prop ev "error") "message") (JStr "Stream error"))) w)
  | K_other => Some w
  end.

(** [typeof ev === 'object'] of a value that is not null *)
Definition is_event (ev : any) : bool :=
  match ev with Some (JObj _) | Some (JArr _) => true | _ => false end.

(** A chunk, or the end of the upstream ([None]). *)
Definition transformResponsesStreamChunk (chunk : option string) (s : State) : option Run :=
  let w := mkRun s [] in
  if completed s then Some w
  else
    match chunk with
    | None => Some (errorEvent "api_error" (JStr "Upstream stream ended before the response completed") w)
    | Some chunk =>
        let ev := dataOf chunk in
        if is_event ev then on_event ev w else Some w
    end.

(** ** The loop of [adaptStreamingResponse] *)

(** The reads of the upstream: its chunks, and whether reading it failed after
    them. *)
Record Upstream := mkUpstream { u_chunks : list string; u_failed : bool }.

(** The events that were written, the state, and whether the loop was left by an
    error: the writer is closed in each case. *)
Fixpoint write_chunks (chunks : list string) (w : Run) : Run * bool :=
  match chunks with
  | [] => (w, false)
  | c :: r =>
      match transformResponsesStreamChunk (Some c) (st w) with
      | None => (w, true)
      | Some w' => write_chunks r (mkRun (st w') (events w ++ events w'))
      end
  end.

Definition adaptStream (provider : string) (u : Upstream) : list Event * bool :=
  let '(w, thrown) := write_chunks (u_chunks u) (mkRun (createResponsesToMessagesStreamState provider) []) in
  if thrown || u_failed u then (events w, true)
  else
    match transformResponsesStreamChunk None (st w) with
    | None => (events w, true)
    | Some w' => (events w ++ events w', false)
    end.

Definition sse (e : Event) : string :=
  let '(event, data) := event_data e in
  "event: " +:+ event +:+ LF +:+ "data: " +:+
  CacheKey.JSON_stringify number_text (JObj (("type", JStr event) :: data)) +:+ LF +:+ LF.

End Stream.

(** ** A client of the Messages API *)

(** A block as the client holds it: its start and the deltas it read. *)
Definition Held : Type := ContentBlock * list Delta.

Inductive Ending := Open | Stopping | Stopped | Failed.

Record Client := mkClient {
  c_started : bool;
  c_blocks : list Held;
  c_open : option Held;
  c_end : Ending
}.

Definition new_client : Client := mkClient false [] None Open.

(** A delta is read by a block of its type only. *)
Definition reads_delta (b : ContentBlock) (d : Delta) : bool :=
  match b, d with
  | ThinkingBlock _ _, (thinking_delta _ | signature_delta _) => true
  | TextBlock, text_delta _ => true
  | (ToolUseBlock _ _ | ServerToolUseBlock _ _), input_json_delta _ => true
  | _, _ => false
  end.

(** The next event of a stream: blocks are numbered from 0, one is open at a time,
    and the message stops once, with no block open. An error may come at any time
    before the end, and nothing comes after an end. *)
Definition client_step (c : Client) (e : Event) : option Client :=
  match c_end c, e with
  | Open, message_start _ _ => if c_started c then None else Some (mkClient true [] None Open)
  | Open, content_block_start i b =>
      match c_open c with
      | None => if c_started c && (i =? length (c_blocks c))%nat
                then Some (mkClient true (c_blocks c) (Some (b, [])) Open) else None
      | Some _ => None
      end
  | Open, content_block_delta i d =>
      match c_open c with
      | Some (b, ds) => if (i =? length (c_blocks c))%nat && reads_delta b d
                        then Some (mkClient (c_started c) (c_blocks c) (Some (b, ds ++ [d])) Open) else None
      | None => None
      end
  | Open, content_block_stop i =>
      match c_open c with
      | Some x => if (i =? length (c_blocks c))%nat
                  then Some (mkClient (c_started c) (c_blocks c ++ [x]) None Open) else None
      | None => None
      end
  | Open, message_delta _ _ _ =>
      match c_open c with
      | None => if c_started c then Some (mkClient true (c_blocks c) None Stopping) else None
      | Some _ => None
      end
  | Stopping, message_stop => Some (mkClient (c_started c) (c_blocks c) (c_open c) Stopped)
  | Open, error _ _ => Some (mkClient (c_started c) (c_blocks c) (c_open c) Failed)
  | _, _ => None
  end.

Fixpoint client_run (c : Client) (l : list Event) : option Client :=
  match l with
  | [] => Some c
  | e :: r => match client_step c e with Some c => client_run c r | None => None end
  end.

Definition ended (c : Client) : bool := match c_end c with Stopped | Failed => true | _ => false end.

Definition held (c : Client) : list Held :=
  c_blocks c ++ match c_open c with Some x => [x] | None => [] end.

Definition delta_text (d : Delta) : list json := match d with text_delta v => [v] | _ => [] end.

(** The text the client holds, delta by delta. *)
Definition texts (c : Client) : list json := flat_map (fun x => flat_map delta_text (snd x)) (held c).

Lemma client_reads_app c l l' :
  client_run c (l ++ l') = match client_run c l with Some c => client_run c l' | None => None end.
Proof.
  revert c. induction l as [|e l IH]; intros c; [done|]. simpl. by destruct (client_step c e).
Qed.

(** ** The client follows the stream *)

Definition type_of (b : ContentBlock) : option BlockType :=
  match b with
  | ThinkingBlock _ _ => Some BT_thinking
  | TextBlock => Some BT_text
  | ToolUseBlock _ _ => Some BT_tool_use
  | _ => None
  end.

Definition delta_type (d : Delta) : BlockType :=
  match d with
  | thinking_delta _ | signature_delta _ => BT_thinking
  | text_delta _ => BT_text
  | input_json_delta _ => BT_tool_use
  end.

Definition same_open (o : option OpenBlock) (n : nat) (x : option Held) : Prop :=
  match o, x with
  | None, None => True
  | Some o, Some x => ob_index o = n /\ type_of (fst x) = Some (ob_type o)
  | _, _ => False
  end.

(** A client and the state agree, while the message is open. *)
Record Agrees (s : State) (c : Client) : Prop := {
  agrees_started : c_started c = started s;
  agrees_next : nextIndex s = length (held c);
  agrees_open : same_open (opened s) (length (c_blocks c)) (c_open c);
  agrees_fresh : started s = false -> held c = [];
  agrees_end : c_end c = Open;
  agrees_running : completed s = false
}.

Section From.
(** The client before the events of the run. *)
Variable c0 : Client.

Definition Reads (w : Run) (c : Client) : Prop :=
  client_run c0 (events w) = Some c /\ Agrees (st w) c.

(** From one run to the next the client reads on, and gains the text [l]. *)
Definition gains (l : list json) (w w' : Run) : Prop :=
  forall c, Reads w c -> exists c', Reads w' c' /\ texts c' = texts c ++ l.

Lemma gains_refl w : gains [] w w.
Proof. intros c H. exists c. by rewrite app_nil_r. Qed.

Lemma gains_trans l l' w w1 w2 : gains l w w1 -> gains l' w1 w2 -> gains (l ++ l') w w2.
Proof.
  intros H1 H2 c Hc. destruct (H1 c Hc) as (c1 & Hc1 & E1). destruct (H2 c1 Hc1) as (c2 & Hc2 & E2).
  exists c2. split; [done|]. by rewrite E2, E1, app_assoc.
Qed.

Lemma gains_nil l w w1 w2 : gains [] w w1 -> gains l w1 w2 -> gains l w w2.
Proof. apply (gains_trans []). Qed.

Lemma gains_then l w w1 w2 : gains l w w1 -> gains [] w1 w2 -> gains l w w2.
Proof. intros H1 H2. rewrite <- (app_nil_r l). by apply (gains_trans _ _ _ w1). Qed.

Lemma run_push w c e c' :
  client_run c0 (events w) = Some c -> client_step c e = Some c' ->
  client_run c0 (events (push e w)) = Some c'.
Proof. intros H Hs. simpl. rewrite client_reads_app, H. simpl. by rewrite Hs. Qed.

(** A change of the state that the blocks do not see. *)
Lemma gains_upd f w :
  started (f (st w)) = started (st w) -> nextIndex (f (st w)) = nextIndex (st w) ->
  opened (f (st w)) = opened (st w) ->
  completed (f (st w)) = completed (st w) -> gains [] w (upd f w).
Proof.
  intros E1 E2 E3 E4 c [Hr []]. exists c. rewrite app_nil_r. split; [|done]. split; [done|].
  constructor; simpl; rewrite ?E1, ?E2, ?E3, ?E4; done.
Qed.

(** The open block keeps its place and its type. *)
Lemma gains_reopen o o' w :
  opened (st w) = Some o -> ob_index o' = ob_index o -> ob_type o' = ob_type o ->
  gains [] w (upd (set_opened (Some o')) w).
Proof.
  intros Ho Ei Et c [Hr []]. exists c. rewrite app_nil_r. split; [|done]. split; [done|].
  constructor; simpl; try done. rewrite Ho in agrees_open0. unfold same_open in *.
  destruct (c_open c); [|done]. by rewrite Ei, Et.
Qed.

Lemma gains_close w :
  gains [] w (close w) /\ opened (st (close w)) = None /\ started (st (close w)) = started (st w) /\
  completed (st (close w)) = completed (st w).
Proof.
  unfold close. destruct (opened (st w)) as [o|] eqn:Ho; [|by split; [apply gains_refl|]].
  split; [|done]. intros c [Hr [Hs Hn Hop Hf He Hk]]. rewrite Ho in Hop. unfold same_open in Hop.
  destruct c as [sd blocks [x|] ending]; [|done]. simpl in *. subst ending. destruct Hop as [Hi _].
  exists (mkClient sd (blocks ++ [x]) None Open).
  assert (held (mkClient sd (blocks ++ [x]) None Open) = held (mkClient sd blocks (Some x) Open)) as Hh
    by (unfold held; simpl; by rewrite app_nil_r).
  split; [|unfold texts; by rewrite Hh, app_nil_r]. split.
  - apply (run_push _ _ _ _ Hr). unfold client_step. simpl. by rewrite Hi, Nat.eqb_refl.
  - constructor; rewrite ?Hh; done.
Qed.

Lemma gains_open_ t id b w :
  started (st w) = true -> type_of b = Some t ->
  let '(o, w') := open_ t id b w in
  gains [] w w' /\ opened (st w') = Some o /\ ob_type o = t /\ started (st w') = true.
Proof.
  intros Hst Hb. unfold open_. destruct (gains_close w) as (Hg & Hn & Hs & Hc).
  split; [|rewrite <- Hst, <- Hs; done]. apply (gains_nil _ _ _ _ Hg).
  intros c [Hr [Hcs Hcn Hop Hf He Hk]]. rewrite Hn in Hop. unfold same_open in Hop.
  destruct c as [sd blocks [x|] ending]; [done|]. simpl in *. subst ending.
  unfold held in Hcn. simpl in Hcn. rewrite app_nil_r in Hcn.
  exists (mkClient true blocks (Some (b, [])) Open). split; [split|].
  - apply (run_push (upd _ (close w)) _ _ _ Hr). unfold client_step. simpl. by rewrite Hcs, Hs, Hst, Hcn, Nat.eqb_refl.
  - constructor; simpl; try done.
    + by rewrite Hs, Hst.
    + unfold held. simpl. rewrite length_app, Hcn. simpl. lia.
    + by rewrite Hs, Hst.
  - unfold texts, held. simpl. by rewrite !flat_map_app, !app_nil_r.
Qed.

Lemma gains_delta o d w :
  opened (st w) = Some o -> ob_type o = delta_type d ->
  gains (delta_text d) w (push (content_block_delta (ob_index o) d) w).
Proof.
  intros Ho Ht c [Hr [Hs Hn Hop Hf He Hk]]. rewrite Ho in Hop. unfold same_open in Hop.
  destruct c as [sd blocks [[b ds]|] ending]; [|done]. simpl in *. subst ending.
  destruct Hop as [Hi Hb].
  exists (mkClient sd blocks (Some (b, ds ++ [d])) Open). split; [split|].
  - apply (run_push _ _ _ _ Hr). unfold client_step. simpl. rewrite Hi, Nat.eqb_refl.
    assert (reads_delta b d = true) as -> by (rewrite Ht in Hb; by destruct b, d). done.
  - constructor; simpl; try done.
    + rewrite Hn. unfold held. simpl. by rewrite !length_app.
    + by rewrite Ho.
    + intros H. specialize (Hf H). unfold held in Hf. simpl in Hf. by destruct blocks.
  - unfold texts, held. simpl. rewrite !flat_map_app. simpl. rewrite !app_nil_r, flat_map_app, app_assoc.
    simpl. by rewrite app_nil_r.
Qed.

Lemma gains_start uuid r w :
  gains [] w (start uuid r w) /\ started (st (start uuid r w)) = true /\
  opened (st (start uuid r w)) = opened (st w).
Proof.
  unfold start. destruct (started (st w)) eqn:Hst; [by split; [apply gains_refl|]|].
  split; [|done]. intros c [Hr [Hs Hn Hop Hf He Hk]]. specialize (Hf Hst).
  destruct c as [sd blocks op ending]. simpl in *. subst ending. unfold held in Hf. simpl in Hf.
  apply app_nil in Hf as [-> Hop']. destruct op; [done|]. simpl in Hop.
  exists (mkClient true [] None Open). split; [split|done].
  - match goal with |- client_run c0 (events (push _ ?w')) = _ => apply (run_push w' _ _ _ Hr) end.
    unfold client_step. simpl. by rewrite Hs, Hst.
  - constructor; simpl; done.
Qed.

Lemma gains_blockFor t b id w :
  started (st w) = true -> type_of b = Some t ->
  let '(o, w') := blockFor t b id w in
  gains [] w w' /\ opened (st w') = Some o /\ ob_type o = t /\ started (st w') = true.
Proof.
  intros Hst Hb. unfold blockFor. destruct (opened (st w)) as [o|] eqn:Ho; [|by apply gains_open_].
  destruct (bool_decide (ob_type o = t) && _) eqn:E; [|by apply gains_open_].
  apply andb_true_iff in E as [E%bool_decide_eq_true _]. split; [apply gains_refl|done].
Qed.

Lemma gains_emit nt b w :
  started (st w) = true ->
  gains [] w (emitBlock nt b w) /\ started (st (emitBlock nt b w)) = true.
Proof.
  intros Hst. destruct (gains_close w) as (Hg & Hn & Hs & Hc). unfold emitBlock.
  split; [|destruct b; simpl; by rewrite Hs]. apply (gains_nil _ _ _ _ Hg).
  intros c [Hr [Hcs Hcn Hop Hf He Hk]]. rewrite Hn in Hop. unfold same_open in Hop.
  destruct c as [sd blocks [x|] ending]; [done|]. simpl in *. subst ending.
  unfold held in Hcn. simpl in Hcn. rewrite app_nil_r in Hcn. rewrite Hs, Hst in Hcs. subst sd.
  assert (exists ds, flat_map delta_text ds = [] /\ client_run c0
     (events (push (content_block_stop (nextIndex (st (close w))))
        match b with
        | ServerToolUseBlock _ query =>
            push (content_block_delta (nextIndex (st (close w))) (input_json_delta
                    (JStr (CacheKey.JSON_stringify nt (JObj [("query", JStr query)])))))
              (push (content_block_start (nextIndex (st (close w))) b)
                 (upd (set_nextIndex (S (nextIndex (st (close w))))) (close w)))
        | _ => push (content_block_start (nextIndex (st (close w))) b)
                 (upd (set_nextIndex (S (nextIndex (st (close w))))) (close w))
        end)) = Some (mkClient true (blocks ++ [(b, ds)]) None Open)) as (ds & Hds & Hrun).
  { rewrite Hcn.
    destruct b; eexists; (split; [|
      simpl; rewrite !client_reads_app, Hr; unfold client_run, client_step; simpl;
      rewrite ?Nat.eqb_refl; simpl; rewrite ?Nat.eqb_refl; reflexivity]); done. }
  exists (mkClient true (blocks ++ [(b, ds)]) None Open). split; [split; [exact Hrun|]|].
  - constructor; unfold held; simpl; destruct b; simpl; rewrite ?Hn, ?Hs, ?Hst, ?Hcn, ?length_app;
      simpl; try done; lia.
  - unfold texts, held. simpl. rewrite !app_nil_r, flat_map_app. simpl. by rewrite Hds, !app_nil_r.
Qed.

Lemma gains_emits nt bs w :
  started (st w) = true ->
  gains [] w (foldl (fun w b => emitBlock nt b w) w bs) /\
  started (st (foldl (fun w b => emitBlock nt b w) w bs)) = true.
Proof.
  revert w. induction bs as [|b bs IH]; intros w Hst; [by split; [apply gains_refl|]|]. simpl.
  destruct (gains_emit nt b w Hst) as [H1 H2]. destruct (IH _ H2) as [H3 H4].
  split; [by apply (gains_nil _ _ _ _ H1)|done].
Qed.

(** ** The events of the upstream *)

Variable number_text : num -> string.
Variable added_text : json -> string.
Variable randomUUID : nat -> string.

Lemma item_added_gains ev w : gains [] w (on_item_added randomUUID ev w).
Proof.
  unfold on_item_added. destruct (gains_start randomUUID None w) as (H1 & Hst & _).
  apply (gains_nil _ _ _ _ H1). destruct (is_str _ _); [|apply gains_refl].
  match goal with |- gains _ ?w0 (open_ ?t ?id ?b (upd ?f ?w1)).2 =>
    apply (gains_nil _ _ (upd f w1)); [by apply gains_upd|];
    pose proof (gains_open_ t id b (upd f w1) Hst eq_refl) as H
  end.
  destruct (open_ _ _ _ _). apply H.
Qed.

Lemma arguments_gains ev w : gains [] w (on_arguments ev w).
Proof.
  unfold on_arguments. destruct (opened (st w)) as [o|] eqn:Ho; [|apply gains_refl].
  destruct (prop ev "delta") as [d|]; [|apply gains_refl].
  destruct (_ && _ && _) eqn:E; [|apply gains_refl].
  rewrite !andb_true_iff in E. destruct E as [[Et%bool_decide_eq_true _] _].
  apply (gains_nil _ _ (upd (set_opened (Some (mark_sent o))) w)); [by apply (gains_reopen o)|].
  by apply (gains_delta (mark_sent o) (input_json_delta d)).
Qed.

Lemma summary_gains ev w : gains [] w (on_summary added_text randomUUID ev w).
Proof.
  unfold on_summary. destruct (prop ev "delta") as [d|]; [|apply gains_refl].
  destruct (truthy (Some d)); [|apply gains_refl].
  destruct (gains_start randomUUID None w) as (H1 & Hst & _). apply (gains_nil _ _ _ _ H1).
  pose proof (gains_blockFor BT_thinking (ThinkingBlock "" "") (item_key (prop ev "item_id"))
                (start randomUUID None w) Hst eq_refl) as H.
  destruct (blockFor _ _ _ _) as [o w']. destruct H as (H2 & Ho & Ht & _). apply (gains_nil _ _ _ _ H2).
  set (o' := mkOpen _ _ _ _ _). apply (gains_nil _ _ (upd (set_opened (Some o')) w'));
    [by apply (gains_reopen o)|].
  match goal with |- gains _ _ (push (content_block_delta _ ?x) _) => by apply (gains_delta o' x) end.
Qed.

Definition text_of_event (ev : any) : list json :=
  match prop ev "delta" with Some d => if truthy (Some d) then [d] else [] | None => [] end.

Lemma text_gains ev w : gains (text_of_event ev) w (on_text randomUUID ev w).
Proof.
  unfold on_text, text_of_event. destruct (prop ev "delta") as [d|]; [|apply gains_refl].
  destruct (truthy (Some d)); [|apply gains_refl].
  destruct (gains_start randomUUID None w) as (H1 & Hst & _). apply (gains_nil _ _ _ _ H1).
  pose proof (gains_blockFor BT_text TextBlock (item_key (prop ev "item_id"))
                (start randomUUID None w) Hst eq_refl) as H.
  destruct (blockFor _ _ _ _) as [o w']. destruct H as (H2 & Ho & Ht & _). apply (gains_nil _ _ _ _ H2).
  by apply (gains_delta o (text_delta d)).
Qed.

Lemma late_gains item w : gains [] w (late_arguments item w).
Proof.
  unfold late_arguments. destruct (opened (st w)) as [o|] eqn:Ho; [|apply gains_refl].
  destruct (prop item "arguments") as [a|]; [|apply gains_refl].
  destruct (_ && _ && _ && _) eqn:E; [|apply gains_refl].
  rewrite !andb_true_iff in E. destruct E as [[[Et%bool_decide_eq_true _] _] _].
  by apply (gains_delta o (input_json_delta a)).
Qed.

Lemma reasoning_gains item w w' :
  finished_reasoning number_text randomUUID item w = Some w' -> gains [] w w'.
Proof.
  unfold finished_reasoning. destruct (gains_start randomUUID None w) as (H1 & Hst & _).
  destruct (reasoningBlock _ _) as [block|]; [|done]. intros [= <-]. apply (gains_nil _ _ _ _ H1).
  assert (gains [] (start randomUUID None w)
    match block with
    | Some b => emitBlock number_text b (start randomUUID None w)
    | None => start randomUUID None w
    end) as Hw by (destruct block; [by apply gains_emit|apply gains_refl]).
  destruct (opened _) as [o|] eqn:Ho; [|done].
  destruct (_ && _) eqn:E; [|done]. apply andb_true_iff in E as [E%bool_decide_eq_true _].
  destruct (truthy_string _); [|apply gains_refl].
  by apply (gains_delta o (signature_delta (block_signature block))).
Qed.

Lemma search_gains item w : gains [] w (finished_search number_text randomUUID item w).
Proof.
  unfold finished_search. destruct (gains_start randomUUID None w) as (H1 & Hst & _).
  apply (gains_nil _ _ _ _ H1). destruct (webSearchBlocks _ _) as [blocks drew].
  match goal with |- gains _ ?w1 (foldl _ (upd ?f _) _) =>
    apply (gains_nil _ _ (upd f w1)); [by apply gains_upd|by apply gains_emits] end.
Qed.

Lemma item_done_gains ev w w' : on_item_done number_text randomUUID ev w = Some w' -> gains [] w w'.
Proof.
  unfold on_item_done. set (item := prop ev "item"). set (w1 := late_arguments item w).
  intros H. apply (gains_nil _ _ w1); [apply late_gains|]. revert H.
  assert (forall d w2, d = Some w2 -> gains [] w1 w2 ->
    (fun w => if negb (truthy (prop item "id")) ||
                 match opened (st w) with Some o => strict_eq (prop item "id") (ob_item o) | None => false end
              then close w else w) <$> d = Some w' -> gains [] w1 w') as Hclose.
  { intros d w2 -> Hg [= <-]. destruct (_ || _); [|done].
    apply (gains_nil _ _ _ _ Hg). by destruct (gains_close w2). }
  destruct (is_str _ "reasoning").
  - destruct (finished_reasoning _ _ item w1) as [w2|] eqn:E; [|done].
    by apply (Hclose _ w2 eq_refl), (reasoning_gains item).
  - destruct (is_str _ "web_search_call").
    + by apply (Hclose _ (finished_search number_text randomUUID item w1) eq_refl), (search_gains item).
    + apply (Hclose _ w1 eq_refl), gains_refl.
Qed.

(** A run after its end. *)
Definition Ends (w : Run) (c : Client) : Prop :=
  client_run c0 (events w) = Some c /\ completed (st w) = true /\ ended c = true.

Lemma ends_completed w c ev :
  Reads w c -> exists c', Ends (on_completed randomUUID ev w) c' /\ texts c' = texts c.
Proof.
  intros H. unfold on_completed.
  destruct (gains_start randomUUID (prop ev "response") w) as (H1 & Hst & _).
  destruct (gains_close (start randomUUID (prop ev "response") w)) as (H2 & Hn & Hs & _).
  destruct (gains_nil _ _ _ _ H1 H2 c H) as (c1 & [Hr [Hcs Hcn Hop Hf He Hk]] & Ht).
  rewrite Hn in Hop. unfold same_open in Hop. rewrite Hs, Hst in Hcs.
  destruct c1 as [sd blocks [x|] ending]; [done|]. simpl in *. subst ending sd.
  exists (mkClient true blocks None Stopped). split; [split; [|done]|].
  - simpl. rewrite !client_reads_app, Hr. unfold client_run, client_step. simpl. done.
  - unfold texts, held in *. simpl in *. by rewrite Ht, app_nil_r.
Qed.

Lemma ends_error w c ty m :
  Reads w c -> exists c', Ends (errorEvent ty m w) c' /\ texts c' = texts c.
Proof.
  intros [Hr [Hs Hn Hop Hf He Hk]].
  exists (mkClient (c_started c) (c_blocks c) (c_open c) Failed). split; [split; [|done]|done].
  simpl. rewrite client_reads_app, Hr. unfold client_run, client_step. by rewrite He.
Qed.

(** The text of an event, and whether it ends the stream. *)
Definition event_text (ev : any) : list json :=
  match kind_of ev with K_text => text_of_event ev | _ => [] end.

Definition is_final (ev : any) : bool :=
  match kind_of ev with K_completed | K_failed | K_error => true | _ => false end.

Lemma completed_kept w : completed (st (close w)) = completed (st w).
Proof. unfold close. by destruct (opened (st w)). Qed.

Lemma event_reads ev w w' c :
  on_event number_text added_text randomUUID ev w = Some w' -> Reads w c ->
  exists c', texts c' = texts c ++ event_text ev /\
    if is_final ev then Ends w' c' else Reads w' c'.
Proof.
  intros H Hc. unfold on_event, event_text, is_final in *.
  assert (forall l v, gains l w v -> exists c', texts c' = texts c ++ l /\ Reads v c') as Hg.
  { intros l v Hv. destruct (Hv c Hc) as (c' & H1 & H2). by exists c'. }
  assert (forall v, (exists c', Ends v c' /\ texts c' = texts c) ->
            exists c', texts c' = texts c ++ [] /\ Ends v c') as He.
  { intros v (c' & H1 & H2). exists c'. by rewrite app_nil_r. }
  destruct (kind_of ev); try (injection H as <-);
    eauto using item_added_gains, arguments_gains, summary_gains, text_gains, gains_refl,
      item_done_gains, ends_completed, ends_error.
  apply Hg. by destruct (gains_start randomUUID (prop ev "response") w).
Qed.

End From.

(** ** The theorem *)

Section Loop.
Variable JSON_parse : string -> option json.
Variable number_text : num -> string.
Variable added_text : json -> string.
Variable randomUUID : nat -> string.

Notation loop := (write_chunks JSON_parse number_text added_text randomUUID).
Notation adapt := (adaptStream JSON_parse number_text added_text randomUUID).

(** Reading the summary of this event throws. *)
Definition unreadable (ev : any) : bool :=
  match kind_of ev with
  | K_item_done =>
      is_str (prop (prop ev "item") "type") "reasoning" &&
      match summary_texts (prop ev "item") with Some _ => false | None => true end
  | _ => false
  end.

(** The text deltas of the upstream up to its end, or to an event that cannot be
    read. *)
Fixpoint said (chunks : list string) : list json :=
  match chunks with
  | [] => []
  | c :: r =>
      let ev := dataOf JSON_parse c in
      if is_event ev then
        if unreadable ev then []
        else if is_final ev then [] else event_text ev ++ said r
      else said r
  end.

(** How reading the chunks ends: the upstream sent its end, or an item that cannot be
    read, or neither. *)
Inductive Reading := completes | breaks | goes_on.

Fixpoint reading (chunks : list string) : Reading :=
  match chunks with
  | [] => goes_on
  | c :: r =>
      let ev := dataOf JSON_parse c in
      if is_event ev then
        if unreadable ev then breaks else if is_final ev then completes else reading r
      else reading r
  end.

Lemma on_event_None ev w :
  on_event number_text added_text randomUUID ev w = None <-> unreadable ev = true.
Proof.
  unfold on_event, unreadable. destruct (kind_of ev); try done.
  unfold on_item_done. destruct (is_str (prop (prop ev "item") "type") "reasoning"); simpl.
  - unfold finished_reasoning, reasoningBlock, reasoningSummaryText.
    by destruct (summary_texts (prop ev "item")).
  - by destruct (is_str _ "web_search_call").
Qed.

Lemma write_chunks_ended chunks w :
  completed (st w) = true -> (loop chunks w).2 = false /\ events (loop chunks w).1 = events w /\
  completed (st (loop chunks w).1) = true.
Proof.
  revert w. induction chunks as [|c r IH]; intros w Hw; [done|]. cbn [write_chunks].
  unfold transformResponsesStreamChunk. rewrite Hw. cbn [st events]. rewrite app_nil_r.
  destruct w as [s l]. by apply IH.
Qed.

Lemma write_chunks_reads chunks w c :
  Reads new_client w c ->
  let '(w', thrown) := loop chunks w in
  exists c', texts c' = texts c ++ said chunks /\
    match reading chunks with
    | completes => Ends new_client w' c' /\ thrown = false
    | breaks => Reads new_client w' c' /\ thrown = true
    | goes_on => Reads new_client w' c' /\ thrown = false
    end.
Proof.
  revert w c. induction chunks as [|ch r IH]; intros w c Hc; cbn [write_chunks said reading].
  { exists c. by rewrite app_nil_r. }
  unfold transformResponsesStreamChunk. rewrite (agrees_running _ _ (proj2 Hc)).
  destruct (is_event (dataOf JSON_parse ch)).
  2: { cbn [st events]. rewrite app_nil_r. destruct w as [s l]. by apply IH. }
  set (ev := dataOf JSON_parse ch).
  destruct (on_event _ _ _ ev _) as [w1|] eqn:E.
  - assert (unreadable ev = false) as -> by
      (destruct (unreadable ev) eqn:Hu; [apply (on_event_None ev (mkRun (st w) [])) in Hu; congruence|done]).
    assert (Reads c (mkRun (st w) []) c) as H0 by (split; [done|apply Hc]).
    destruct (event_reads c _ _ _ ev _ _ c E H0) as (c1 & Ht & Hr).
    assert (forall c', client_run c (events w1) = Some c' ->
              client_run new_client (events w ++ events w1) = Some c') as Hrun
      by (intros c' H'; rewrite client_reads_app; destruct Hc as [-> _]; done).
    destruct (is_final ev) eqn:Hf.
    + destruct Hr as (Hr1 & Hr2 & Hr3).
      destruct (write_chunks_ended r (mkRun (st w1) (events w ++ events w1)) Hr2) as (H1 & H2 & H3).
      destruct (loop r _) as [w' thrown]. simpl in *. exists c1.
      unfold is_final, event_text in *. rewrite app_nil_r. split.
      { rewrite Ht. destruct (kind_of ev); try done; by rewrite app_nil_r. }
      split; [|done]. split; [rewrite H2; by apply Hrun|done].
    + destruct Hr as [Hr1 Hr2].
      specialize (IH (mkRun (st w1) (events w ++ events w1)) c1).
      destruct (loop r _) as [w' thrown]. destruct IH as (c2 & Ht2 & H2); [split; [by apply Hrun|done]|].
      exists c2. by rewrite Ht2, Ht, app_assoc.
  - apply on_event_None in E as ->. exists c. by rewrite app_nil_r.
Qed.

(** [C19] Whatever the upstream sends, a client of the Messages API accepts every
    event the adapter writes: blocks are numbered in order, one is open at a time, a
    delta fits its block, and nothing follows the end.  The client holds the text deltas
    of the upstream, each once and in order, up to the end of the upstream or an item
    that cannot be read.  It sees one end, the message stopped or an error event, exactly
    when the upstream sent its end, or stopped without one while it could be read; a
    connection that breaks before, or an unreadable item, closes the stream without a
    word ([broken_upstream_is_silent]). *)
Theorem via_client_accepts provider u :
  exists c, client_run new_client (adapt provider u).1 = Some c /\ texts c = said (u_chunks u) /\
    ended c = match reading (u_chunks u) with
              | completes => true
              | breaks => false
              | goes_on => negb (u_failed u)
              end.
Proof.
  unfold adaptStream.
  assert (Reads new_client (mkRun (createResponsesToMessagesStreamState provider) []) new_client) as H0
    by (split; [done|constructor; done]).
  pose proof (write_chunks_reads (u_chunks u) _ _ H0) as H.
  destruct (loop (u_chunks u) _) as [w thrown]. destruct H as (c & Ht & Hc).
  change (texts new_client) with (@nil json) in Ht. simpl in Ht.
  assert (Hopen : Reads new_client w c -> ended c = false) by (intros [_ Ha]; unfold ended; by rewrite (agrees_end _ _ Ha)).
  destruct (reading (u_chunks u)).
  - destruct Hc as [(Hr & Hk & He) ->]. destruct (u_failed u); cbn [orb]; [by exists c|].
    unfold transformResponsesStreamChunk. rewrite Hk. cbn [events fst]. rewrite app_nil_r. by exists c.
  - destruct Hc as [Hr ->]. cbn [orb fst]. exists c. split; [apply Hr|]. split; [done|by apply Hopen].
  - destruct Hc as [Hr ->]. destruct (u_failed u); cbn [orb negb].
    { exists c. split; [apply Hr|]. split; [done|by apply Hopen]. }
    unfold transformResponsesStreamChunk. rewrite (agrees_running _ _ (proj2 Hr)).
    destruct (ends_error new_client w c "api_error"
                (JStr "Upstream stream ended before the response completed") Hr)
      as (c' & (Hr' & _ & He') & Ht').
    exists c'. cbn [errorEvent push upd events st fst] in *. by rewrite Ht'.
Qed.

End Loop.

(** ** Carried reasoning *)

Definition no_colon (s : string) : bool := sforallb (fun c => negb (code c =? 58)%N) s.

Lemma after_prefix_same p s : after_prefix p (p +:+ s) = Some s.
Proof. induction p as [|c p IH]; [done|]. simpl. by rewrite Ascii.eqb_refl. Qed.

Lemma cut_colon_app a b : no_colon a = true -> cut_colon (a +:+ ":" +:+ b) = Some (a, b).
Proof.
  induction a as [|c a IH]; [done|]. simpl. unfold no_colon in *. simpl.
  rewrite andb_true_iff, negb_true_iff. intros [-> H]. by rewrite (IH H).
Qed.

Lemma no_colon_lower s : no_colon s = true -> no_colon (toLowerCase s) = true.
Proof.
  unfold no_colon, toLowerCase. induction s as [|c s IH]; [done|]. simpl.
  rewrite !andb_true_iff. intros [Hc Hs]. split; [|by apply IH].
  destruct c as [[] [] [] [] [] [] [] []]; try done; by vm_compute.
Qed.

(** A reasoning that was put in a signature comes back to the provider that issued
    it, whatever the case of its name, and to no other. *)
Theorem carried_reasoning_round_trip p p' encrypted :
  no_colon p = true ->
  decodeReasoningSignature (Some (JStr (encodeReasoningSignature p encrypted))) p' =
  if truthy_string p && truthy_string encrypted && (toLowerCase p =? toLowerCase p')%string
  then Some encrypted else None.
Proof.
  intros Hp. unfold decodeReasoningSignature, encodeReasoningSignature.
  rewrite after_prefix_same, cut_colon_app by by apply no_colon_lower.
  assert ((toLowerCase p =? "")%string = negb (truthy_string p)) as ->
    by (by destruct p). unfold truthy_string.
  destruct (p =? "")%string, (encrypted =? "")%string, (toLowerCase p =? toLowerCase p')%string; done.
Qed.

(** A signature of Anthropic is base64 and never holds a colon: it is not taken for
    one of the gateway. *)
Theorem foreign_signature_is_not_sent s p : no_colon s = true -> decodeReasoningSignature (Some (JStr s)) p = None.
Proof.
  intros H. unfold decodeReasoningSignature. destruct (after_prefix PREFIX s) as [r|] eqn:E; [|done].
  apply after_prefix_Some in E as ->. by vm_compute in H.
Qed.

(** ** Samples *)

Module Samples.

Definition ev (t : string) (l : list (string * json)) : json := JObj (("type", JStr t) :: l).
Definition item (t id : string) (l : list (string * json)) : json :=
  JObj (("type", JStr t) :: ("id", JStr id) :: l).

(** The texts of the sample chunks. *)
Definition parse (s : string) : option json :=
  own [("created", ev "response.created" [("response", JObj [("id", JStr "r1"); ("model", JStr "m")])]);
       ("think", ev "response.reasoning_summary_text.delta"
          [("item_id", JStr "i1"); ("summary_index", JNum nzero); ("delta", JStr "hm")]);
       ("thought", ev "response.output_item.done"
          [("item", item "reasoning" "i1" [("encrypted_content", JStr "zz")])]);
       ("text", ev "response.output_text.delta" [("item_id", JStr "i2"); ("delta", JStr "Hi")]);
       ("call", ev "response.output_item.added"
          [("item", item "function_call" "i3" [("call_id", JStr "c1"); ("name", JStr "f")])]);
       ("called", ev "response.output_item.done"
          [("item", item "function_call" "i3" [("arguments", JStr "{}")])]);
       ("completed", ev "response.completed" [("response", JObj [("status", JStr "completed")])]);
       ("malformed", ev "response.output_item.done" [("item", item "reasoning" "i1" [("summary", JStr "x")])])] s.

Definition chunk (s : string) : string := "event: x" +:+ LF +:+ "data: " +:+ s.

Definition run (l : list string) (failed : bool) : list Event * bool :=
  adaptStream parse (fun _ => "0") (fun _ => "") (fun _ => "u") "OpenAI" (mkUpstream (map chunk l) failed).

Example whole_stream :
  run ["created"; "think"; "thought"; "text"; "call"; "called"; "completed"; "text"] false =
  ([message_start (JStr "r1") (JStr "m");
    content_block_start 0 (ThinkingBlock "" ""); content_block_delta 0 (thinking_delta "");
    content_block_delta 0 (signature_delta "ps-rsn1:openai:zz"); content_block_stop 0;
    content_block_start 1 TextBlock; content_block_delta 1 (text_delta (JStr "Hi")); content_block_stop 1;
    content_block_start 2 (ToolUseBlock (JStr "c1") (JStr "f"));
    content_block_delta 2 (input_json_delta (JStr "{}")); content_block_stop 2;
    message_delta SR_tool_use (mkMessagesUsage nzero nzero None) 0; message_stop], false).
Proof. vm_compute. reflexivity. Qed.

(** An upstream that ends too early is reported. *)
Example truncated_stream :
  run ["created"; "text"] false =
  ([message_start (JStr "r1") (JStr "m"); content_block_start 0 TextBlock;
    content_block_delta 0 (text_delta (JStr "Hi"));
    error "api_error" (JStr "Upstream stream ended before the response completed")], false).
Proof. vm_compute. reflexivity. Qed.

(** One whose connection breaks is not: the stream just closes, and so it does after
    a reasoning item whose summary is a text. *)
Example broken_upstream_is_silent :
  run ["created"; "text"] true =
  ([message_start (JStr "r1") (JStr "m"); content_block_start 0 TextBlock;
    content_block_delta 0 (text_delta (JStr "Hi"))], true) /\
  run ["created"; "malformed"; "completed"] false = ([message_start (JStr "r1") (JStr "m")], true).
Proof. vm_compute. split; reflexivity. Qed.

End Samples.
