(* ===== verification/AdminAuth.v ===== *)
(** * Access to the admin pages

    Models [src/gateway/src/middlewares/adminAuth/index.ts]: the configured token, the
    constant-time comparison, cookies with [decodeURIComponent], the sessions of a
    process and the three handlers (the middleware, the status and the login).

    Texts are UTF-16 text as in [McpText].  The sessions are the entries of the [Map]
    in order; each request carries the reading of the clock and the id that
    [crypto.randomUUID] would draw for it, and the value of the variable as its
    environment has it.

    [admin_needs_the_token]: whatever requests a process answered before, a page is
    reached only with the configured token, or with a session that a login with the
    configured token opened in the last twelve hours.  [sessions_are_bounded]: the
    sessions kept after a login were all opened in the last twelve hours. *)

From Stdlib Require Import ZArith Lia Ascii.
From stdpp Require Import base strings option sets list.
From S2P Require Import Prelude JsValue JsText UrlGuard McpText McpGuards.

#[local] Open Scope string_scope.
#[local] Open Scope list_scope.

Definition SESSION_COOKIE_NAME : string := "portkey_admin_session".
Definition SESSION_MAX_AGE_SECONDS : Z := 60 * 60 * 12.
Definition ADMIN_TOKEN_ENV : string := "PS_GATEWAY_ADMIN_TOKEN".
Definition MIN_ADMIN_TOKEN_LENGTH : nat := 16.

(** The lifetime of a session in milliseconds. *)
Definition lifetime : Z := SESSION_MAX_AGE_SECONDS * 1000.

Definition readAdminToken (value : option string) : option string :=
  let token := default "" (trim_text <$> value) in
  if (MIN_ADMIN_TOKEN_LENGTH <=? length (units token))%nat then Some token else None.

(** [tokensMatch] of this file is the loop of [mcp/auth.ts] behind a type test. *)
Definition tokensMatch (candidate : any) (expected : string) : bool :=
  match candidate with
  | Some (JStr s) => McpGuards.tokensMatch s expected
  | _ => false
  end.

(** ** Cookies *)

Definition hex_value (c : ascii) : option N :=
  if is_digit c then Some (code c - 48)%N
  else if ((65 <=? code c) && (code c <=? 70))%N then Some (code c - 55)%N
  else if ((97 <=? code c) && (code c <=? 102))%N then Some (code c - 87)%N
  else None.

(** The byte of [%XX] at the start of a text. *)
Definition percent_byte (s : string) : option (N * string) :=
  match s with
  | String p (String a (String b r)) =>
      if (code p =? 37)%N then
        match hex_value a, hex_value b with
        | Some x, Some y => Some ((x * 16 + y)%N, r)
        | _, _ => None
        end
      else None
  | _ => None
  end.

(** How many bytes a code point takes, by its first. *)
Definition sequence_length (b : N) : nat :=
  if (b <? 128)%N then 1 else if (b <? 224)%N then 2 else if (b <? 240)%N then 3 else 4.

Fixpoint percent_bytes (n : nat) (s : string) : option (list N * string) :=
  match n with
  | O => Some ([], s)
  | S n =>
      match percent_byte s with
      | Some (b, r) => (fun x => (b :: x.1, x.2)) <$> percent_bytes n r
      | None => None
      end
  end.

(** [decodeURIComponent], [None] when it throws: every [%XX] belongs to the UTF-8 of a
    code point. *)
Fixpoint decode_uri (fuel : nat) (s : string) : option string :=
  match fuel, s with
  | O, _ | _, EmptyString => Some ""
  | S n, String c r =>
      if (code c =? 37)%N then
        match percent_byte s with
        | Some (b, _) =>
            match percent_bytes (sequence_length b) s with
            | Some (bytes, rest) =>
                match utf8_units bytes with
                | Some us => (fun t => text_of us +:+ t) <$> decode_uri n rest
                | None => None
                end
            | None => None
            end
        | None => None
        end
      else (fun t => String c t) <$> decode_uri n r
  end.

Definition decodeURIComponent (s : string) : option string := decode_uri (String.length s) s.

(** The text before the first [=], and what follows it, if there is one. *)
Fixpoint cut_equals (s : string) : string * string :=
  match s with
  | EmptyString => ("", "")
  | String c r => if (code c =? 61)%N then ("", r) else let '(a, b) := cut_equals r in (String c a, b)
  end.

(** One part of the header: [acc[rawKey] = decodeURIComponent(value)]. *)
Definition cookie_step (acc : obj string) (cookiePart : string) : obj string :=
  let '(rawKey, value) := cut_equals (trim_text cookiePart) in
  if truthy_string rawKey && negb (rawKey =? "__proto__")%string then
    match decodeURIComponent value with
    | Some v => obj_put acc rawKey v
    | None => acc
    end
  else acc.

Definition parseCookies (cookieHeader : option string) : obj string :=
  match cookieHeader with
  | Some h => if truthy_string h then foldl cookie_step [] (split_on ";" h) else []
  | None => []
  end.

(** ** Requests *)

Record Request := mkRequest {
  rq_env : option string;
  rq_cookie : option string;
  rq_authorization : option string;
  rq_body : option json;
  rq_now : Z;
  rq_uuid : string
}.

Definition getSessionId (r : Request) : option string := own (parseCookies (rq_cookie r)) SESSION_COOKIE_NAME.

Definition getBearerToken (r : Request) : option string :=
  match rq_authorization r with
  | Some h =>
      if truthy_string h then
        match two_words (trim_text h) with
        | (scheme, Some token) =>
            if truthy_string scheme && truthy_string token && (toLowerCase scheme =? "bearer")%string
            then Some token else None
        | _ => None
        end
      else None
  | None => None
  end.

(** ** Sessions *)

Definition Sessions : Type := obj Z.

Definition isSessionActive (sessionId : option string) (now : Z) (m : Sessions) : bool * Sessions :=
  match sessionId with
  | Some id =>
      if truthy_string id then
        match own m id with
        | Some expiresAt =>
            if (expiresAt =? 0)%Z then (false, m)
            else if (expiresAt <? now)%Z then (false, map_delete m id) else (true, m)
        | None => (false, m)
        end
      else (false, m)
  | None => (false, m)
  end.

Definition createSession (now : Z) (uuid : string) (m : Sessions) : string * Sessions :=
  (uuid, obj_put (List.filter (fun p => negb (p.2 <? now)%Z) m) uuid (now + lifetime)%Z).

(** ** Handlers *)

Inductive Call := Page | Status | Login.

Inductive Reason := invalid_credentials | missing_credentials.

Inductive Answer :=
| Misconfigured
| Next
| Unauthorized (reason : Reason)
| Authenticated (active : bool)
| InvalidBody
| WrongToken (reason : Reason)
| LoggedIn (sessionId : string).

Definition answer_status (a : Answer) : Z :=
  match a with
  | Misconfigured => 500
  | InvalidBody => 400
  | Unauthorized _ | WrongToken _ => 401
  | _ => 200
  end.

Definition as_str (o : option string) : any := JStr <$> o.

Definition adminAuthMiddleware (r : Request) (m : Sessions) : Answer * Sessions :=
  match readAdminToken (rq_env r) with
  | None => (Misconfigured, m)
  | Some configuredToken =>
      let '(hasValidSession, m) := isSessionActive (getSessionId r) (rq_now r) m in
      let hasValidBearerToken := tokensMatch (as_str (getBearerToken r)) configuredToken in
      if negb hasValidSession && negb hasValidBearerToken
      then (Unauthorized (if truthy_opt (getSessionId r) || truthy_opt (rq_authorization r)
                          then invalid_credentials else missing_credentials), m)
      else (Next, m)
  end.

Definition adminAuthSessionStatusHandler (r : Request) (m : Sessions) : Answer * Sessions :=
  match readAdminToken (rq_env r) with
  | None => (Misconfigured, m)
  | Some _ =>
      let '(active, m) := isSessionActive (getSessionId r) (rq_now r) m in (Authenticated active, m)
  end.

Definition adminAuthLoginHandler (r : Request) (m : Sessions) : Answer * Sessions :=
  match readAdminToken (rq_env r) with
  | None => (Misconfigured, m)
  | Some configuredToken =>
      match rq_body r with
      | None => (InvalidBody, m)
      | Some body =>
          let admin_token := prop (Some body) "admin_token" in
          if tokensMatch admin_token configuredToken
          then let '(id, m) := createSession (rq_now r) (rq_uuid r) m in (LoggedIn id, m)
          else (WrongToken (if truthy admin_token then invalid_credentials else missing_credentials), m)
      end
  end.

Definition handle (c : Call) (r : Request) (m : Sessions) : Answer * Sessions :=
  match c with
  | Page => adminAuthMiddleware r m
  | Status => adminAuthSessionStatusHandler r m
  | Login => adminAuthLoginHandler r m
  end.

(** The sessions of a process that answered these calls. *)
Definition sessions_after (calls : list (Call * Request)) : Sessions :=
  foldl (fun m c => (handle c.1 c.2 m).2) [] calls.

(** ** Who opened a session *)

(** A login that was let in. *)
Definition logged_in (c : Call * Request) : bool :=
  match c.1 with
  | Login =>
      match readAdminToken (rq_env c.2), rq_body c.2 with
      | Some token, Some body => tokensMatch (prop (Some body) "admin_token") token
      | _, _ => false
      end
  | _ => false
  end.

(** A session of the process: the login it comes from. *)
Definition opened_by (calls : list (Call * Request)) (id : string) (expiresAt : Z) : Prop :=
  exists c, c ∈ calls /\ logged_in c = true /\ rq_uuid c.2 = id /\ expiresAt = (rq_now c.2 + lifetime)%Z.

Definition sound (calls : list (Call * Request)) (m : Sessions) : Prop :=
  forall id e, (id, e) ∈ m -> opened_by calls id e.

Lemma map_delete_sub (m : Sessions) k p : p ∈ map_delete m k -> p ∈ m.
Proof. unfold map_delete. rewrite filter_elem. tauto. Qed.

Lemma obj_put_elem (m : Sessions) k v p : p ∈ obj_put m k v -> p ∈ m \/ p = (k, v).
Proof.
  induction m as [|[k0 v0] m IH]; simpl; [set_solver|].
  destruct (_ =? _)%string eqn:E.
  - apply String.eqb_eq in E as ->. set_solver.
  - set_solver.
Qed.

Lemma isSessionActive_sub id now m p : p ∈ (isSessionActive id now m).2 -> p ∈ m.
Proof.
  unfold isSessionActive. destruct id as [id|]; [|done]. destruct (truthy_string id); [|done].
  destruct (own m id) as [e|]; [|done]. destruct (e =? 0)%Z; [done|].
  destruct (e <? now)%Z; [apply map_delete_sub|done].
Qed.

Lemma isSessionActive_true id now m :
  (isSessionActive id now m).1 = true ->
  exists i e, id = Some i /\ (i, e) ∈ m /\ (now <= e)%Z.
Proof.
  unfold isSessionActive. destruct id as [i|]; [|done]. destruct (truthy_string i); [|done].
  destruct (own m i) as [e|] eqn:E; [|done]. destruct (e =? 0)%Z; [done|].
  destruct (Z.ltb_spec e now); [done|]. intros _. exists i, e. split; [done|].
  split; [by apply own_In|done].
Qed.

Lemma opened_by_mono calls c id e : opened_by calls id e -> opened_by (calls ++ [c]) id e.
Proof. intros (x & Hx & H). exists x. split; [|done]. apply elem_of_app. by left. Qed.

(** Every call keeps the sessions sound. *)
Lemma handle_sound calls c m :
  sound calls m -> sound (calls ++ [c]) (handle c.1 c.2 m).2.
Proof.
  intros Hm id e Hin. destruct c as [[] r]; cbn [fst snd handle] in Hin.
  - unfold adminAuthMiddleware in Hin. destruct (readAdminToken (rq_env r)); [|by apply opened_by_mono, Hm].
    destruct (isSessionActive (getSessionId r) (rq_now r) m) as [a m'] eqn:E.
    apply opened_by_mono, Hm. apply (isSessionActive_sub (getSessionId r) (rq_now r)). rewrite E.
    by destruct (_ && _) in Hin.
  - unfold adminAuthSessionStatusHandler in Hin.
    destruct (readAdminToken (rq_env r)); [|by apply opened_by_mono, Hm].
    destruct (isSessionActive (getSessionId r) (rq_now r) m) as [a m'] eqn:E.
    apply opened_by_mono, Hm. apply (isSessionActive_sub (getSessionId r) (rq_now r)). by rewrite E.
  - unfold adminAuthLoginHandler in Hin. destruct (readAdminToken (rq_env r)) as [token|] eqn:Ht;
      [|by apply opened_by_mono, Hm].
    destruct (rq_body r) as [body|] eqn:Hb; [|by apply opened_by_mono, Hm].
    destruct (tokensMatch _ _) eqn:Hmatch; [|by apply opened_by_mono, Hm].
    unfold createSession in Hin. cbn [snd] in Hin. apply obj_put_elem in Hin as [Hin|[= -> ->]].
    + apply filter_elem in Hin as [Hin _]. by apply opened_by_mono, Hm.
    + exists (Login, r). split; [apply elem_of_app; right; by apply list_elem_of_singleton|].
      unfold logged_in. cbn [fst snd]. by rewrite Ht, Hb.
Qed.

Lemma sessions_sound calls : sound calls (sessions_after calls).
Proof.
  induction calls as [|c calls IH] using rev_ind; [intros id e H; by apply elem_of_nil in H|].
  unfold sessions_after. rewrite foldl_app. cbn [foldl]. by apply handle_sound.
Qed.

(** The bearer token of a request. *)
Definition bears (r : Request) (token : string) : Prop :=
  exists value, getBearerToken r = Some value /\ McpGuards.tokensMatch value token = true.

(** [C35] Whatever calls a process answered before, an admin page is reached only when
    a token of at least 16 characters is configured, and the request either carries
    that token as its bearer token or names in its cookie a session that a login
    opened at most twelve hours earlier, with the token that was configured then. *)
Theorem admin_needs_the_token calls r :
  (adminAuthMiddleware r (sessions_after calls)).1 = Next ->
  exists token, readAdminToken (rq_env r) = Some token /\ (16 <= length (units token))%nat /\
    (bears r token \/
     exists c, c ∈ calls /\ logged_in c = true /\ getSessionId r = Some (rq_uuid c.2) /\
       (rq_now r <= rq_now c.2 + 12 * 60 * 60 * 1000)%Z).
Proof.
  unfold adminAuthMiddleware. destruct (readAdminToken (rq_env r)) as [token|] eqn:Ht; [|done].
  destruct (isSessionActive _ _ _) as [active m] eqn:E. destruct (_ && _) eqn:Hv; [done|]. intros _.
  exists token. split; [done|]. split.
  { unfold readAdminToken, MIN_ADMIN_TOKEN_LENGTH in Ht. destruct (16 <=? _)%nat eqn:Hl; [|done].
    injection Ht as <-. by apply Nat.leb_le. }
  apply andb_false_iff in Hv as [Hv%negb_false_iff|Hv%negb_false_iff].
  - right. subst active. pose proof (isSessionActive_true (getSessionId r) (rq_now r) (sessions_after calls)) as H.
    rewrite E in H. destruct (H eq_refl) as (i & e & Hid & Hin & Hle).
    destruct (sessions_sound calls _ _ Hin) as (c & Hc & Hl & Hu & He).
    exists c. rewrite Hu. split_and!; try done. unfold lifetime, SESSION_MAX_AGE_SECONDS in He. lia.
  - left. unfold tokensMatch, as_str in Hv. destruct (getBearerToken r) as [v|] eqn:Hb; [|done]. by exists v.
Qed.

(** After a login, with a clock that did not go back, every session that is kept was
    opened in the last twelve hours. *)
Theorem sessions_are_bounded calls r id :
  (adminAuthLoginHandler r (sessions_after calls)).1 = LoggedIn id ->
  forall i e, (i, e) ∈ (adminAuthLoginHandler r (sessions_after calls)).2 ->
    (rq_now r <= e)%Z /\ opened_by (calls ++ [(Login, r)]) i e.
Proof.
  intros H i e Hin. split.
  - revert H Hin. unfold adminAuthLoginHandler. destruct (readAdminToken _); [|done].
    destruct (rq_body r); [|done]. destruct (tokensMatch _ _); [|done]. intros _.
    unfold createSession. cbn [snd]. intros [Hin|[= -> ->]]%obj_put_elem.
    + apply filter_elem in Hin as [_ Hk]. cbn [snd] in Hk. apply negb_true_iff, Z.ltb_ge in Hk. done.
    + unfold lifetime, SESSION_MAX_AGE_SECONDS. lia.
  - by apply (handle_sound calls (Login, r) _ (sessions_sound calls)).
Qed.

(** ** Samples *)

Module Samples.

Definition token : string := "0123456789abcdef".
Definition hour : Z := 3600000.

Definition login (t : string) (now : Z) : Call * Request :=
  (Login, mkRequest (Some token) None None (Some (JObj [("admin_token", JStr t)])) now "id-1").

Definition page (cookie authorization : option string) (now : Z) : Request :=
  mkRequest (Some (" " +:+ token +:+ " ")) cookie authorization None now "x".

Definition session_cookie : option string := Some "theme=dark; portkey_admin_session=id%2D1; bad=%ff".

Example pages :
  map (fun r => (adminAuthMiddleware r (sessions_after [login "wrong" 0; login token hour])).1)
    [page session_cookie None (2 * hour); page session_cookie None (14 * hour);
     page (Some "portkey_admin_session=id-2") None hour; page None (Some ("bearer  " +:+ token)) 0;
     page None (Some ("Bearer " +:+ token +:+ "x")) 0; page None None 0] =
  [Next; Unauthorized invalid_credentials; Unauthorized invalid_credentials; Next;
   Unauthorized invalid_credentials; Unauthorized missing_credentials].
Proof. vm_compute. reflexivity. Qed.

(** A token that is too short is not configured. *)
Example short_token :
  (adminAuthMiddleware (mkRequest (Some "short") None (Some "Bearer short") None 0 "x") []).1 = Misconfigured.
Proof. reflexivity. Qed.

Example cookie_escapes :
  map decodeURIComponent ["a%20b"; "%e2%82%ac"; "%c3"; "%zz"; "100%"] =
  [Some "a b"; Some (text_of [8364%N]); None; None; None].
Proof. vm_compute. reflexivity. Qed.

Lemma admin_needs_the_token_witness :
  exists t, readAdminToken (Some (" " +:+ token +:+ " ")) = Some t /\
    (bears (page session_cookie None (2 * hour)) t \/
     exists c, c ∈ [login "wrong" 0; login token hour] /\ logged_in c = true).
Proof.
  destruct (admin_needs_the_token [login "wrong" 0; login token hour] (page session_cookie None (2 * hour)))
    as (t & H1 & _ & [H2|(c & Hc & Hl & _)]); [vm_compute; reflexivity| |].
  - exists t. split; [done|by left].
  - exists t. split; [done|]. right. by exists c.
Defined.

End Samples.
