(* ===== verification/MetricsRegistry.v ===== *)
(** * The metrics registry

    Models [src/gateway/src/middlewares/psMetrics/registry.ts] and [labelValue] of
    [labels.ts]: counters, gauges and histograms with their series, and the text a
    scraper reads.

    A metric's series are the entries of its [Map] in order.  The amount of [inc] is
    whatever JSON value a caller passes, added as the language adds it: the token
    counts of an upstream answer are not checked to be numbers
    ([psMetrics/index.ts]).  The texts of numbers, and of arrays and objects that are
    added to a text, are parameters.

    [series_are_bounded]: a metric keeps at most one series more than its limit.
    [scraped_labels_round_trip]: a reader of the text format reads back the labels
    that were counted, as long as no value holds a NUL ([nul_moves_the_values]), and a
    series is one line.
    [histogram_invariant]: the buckets of a histogram grow with their bounds and never
    exceed its count.  The [Samples] show a count that is a text. *)

From Stdlib Require Import ZArith Lia Ascii Floats.SpecFloat Sorting.Sorted.
From stdpp Require Import base strings option sets list.
From S2P Require Import Prelude JsValue JsText.

#[local] Open Scope string_scope.
#[local] Open Scope list_scope.
#[local] Arguments num_of_Z : simpl never.

Definition LF : string := String (ascii_of_N 10) "".
Definition NUL : ascii := ascii_of_N 0.
Definition BACKSLASH : ascii := ascii_of_N 92.
Definition QUOTE : ascii := ascii_of_N 34.

(** ** Labels *)

Definition Labels : Type := obj string.

Definition OVERFLOW : string := "__overflow__".

(** [v.replace(/c/g, text)] for one character. *)
Fixpoint replace_char (c : ascii) (text : string) (s : string) : string :=
  match s with
  | EmptyString => EmptyString
  | String d r => if Ascii.eqb d c then text +:+ replace_char c text r else String d (replace_char c text r)
  end.

Definition escapeValue (v : string) : string :=
  replace_char QUOTE (String BACKSLASH (String QUOTE ""))
    (replace_char (ascii_of_N 10) (String BACKSLASH "n")
       (replace_char BACKSLASH (String BACKSLASH (String BACKSLASH "")) v)).

(** Texts joined with a NUL between them, and split at it. *)
Definition join_nul (l : list string) : string := String.concat (String NUL "") l.

Fixpoint split_nul (s : string) : list string :=
  match s with
  | EmptyString => [""]
  | String c r =>
      if Ascii.eqb c NUL then "" :: split_nul r
      else match split_nul r with x :: l => String c x :: l | [] => [String c ""] end
  end.

Definition seriesKey (labelNames : list string) (labels : Labels) : string :=
  join_nul (map (fun n => default "" (own labels n)) labelNames).

(** One label, a name and its quoted value; a key has a value for each name. *)
Definition label_text (name value : string) : string :=
  name +:+ "=" +:+ String QUOTE "" +:+ escapeValue value +:+ String QUOTE "".

Definition label_texts (labelNames : list string) (key : string) : list string :=
  zip_with label_text labelNames (split_nul key).

Definition renderLabels (labelNames : list string) (key : string) (extra : string) : string :=
  let parts := label_texts labelNames key ++ if truthy_string extra then [extra] else [] in
  match parts with
  | [] => ""
  | _ => "{" +:+ String.concat "," parts +:+ "}"
  end.

(** [labelValue]: the pattern [/^[A-Za-z0-9 _.:/@-]+$/]. *)
Definition label_char (c : ascii) : bool :=
  is_upper c || is_lower c || is_digit c ||
  existsb (Ascii.eqb c) (String.list_ascii_of_string " _.:/@-").

Definition labelValue (raw : any) (fallback : string) : string :=
  match raw with
  | Some (JStr s) =>
      if truthy_string s then
        let v := String.substring 0 64 (trim s) in
        if truthy_string v && sforallb label_char v then v else "other"
      else fallback
  | _ => fallback
  end.

(** ** Metrics *)

(** The value of a series of a counter or a gauge, and the state of one of a
    histogram. *)
Inductive Value :=
| V_num (n : num)
| V_text (s : string).

Record HistogramState := mkHistogram { buckets : list Z; sum : num; count : Z }.

(** A metric without its name and help: its label names, its limit and its series. *)
Record Metric (V : Type) := mkMetric {
  labelNames : list string;
  maxSeries : nat;
  keys : obj V
}.
Arguments mkMetric {V}.
Arguments labelNames {V}.
Arguments maxSeries {V}.
Arguments keys {V}.

Definition with_keys {V} (k : obj V) (m : Metric V) : Metric V := mkMetric (labelNames m) (maxSeries m) k.

Definition keyFor {V} (m : Metric V) (labels : Labels) : string :=
  let key := seriesKey (labelNames m) labels in
  if hasOwn (keys m) key || (length (keys m) <? maxSeries m)%nat then key
  else join_nul (map (fun _ => OVERFLOW) (labelNames m)).

Section Values.
Variable number_text : num -> string.
(** The text of an array or an object that is added to something. *)
Variable other_text : json -> string.

Definition value_text (v : Value) : string :=
  match v with V_num n => number_text n | V_text s => s end.

(** [old + value] *)
Definition plus (old : Value) (value : json) : Value :=
  match value with
  | JStr s => V_text (value_text old +:+ s)
  | JArr _ | JObj _ => V_text (value_text old +:+ other_text value)
  | _ =>
      match old with
      | V_num a => V_num (nadd a (ToNumber (Some value)))
      | V_text s =>
          V_text (s +:+ match value with
                        | JNum n => number_text n
                        | JBool true => "true"
                        | JBool false => "false"
                        | _ => "null"
                        end)
      end
  end.

(** [Counter.inc]: the amount is compared as a number. *)
Definition inc (m : Metric Value) (labels : Labels) (value : json) : Metric Value :=
  if nleb nzero (ToNumber (Some value)) then
    let key := keyFor m labels in
    with_keys (obj_put (keys m) key (plus (default (V_num nzero) (own (keys m) key)) value)) m
  else m.

(** [Gauge.set] *)
Definition set (m : Metric Value) (labels : Labels) (value : num) : Metric Value :=
  if is_finite_num value then with_keys (obj_put (keys m) (keyFor m labels) (V_num value)) m else m.

(** [Histogram.observe] *)
Definition observe (bucketBounds : list num) (m : Metric HistogramState) (labels : Labels) (value : num)
    : Metric HistogramState :=
  if is_finite_num value then
    let key := keyFor m labels in
    let state := default (mkHistogram (map (fun _ => 0%Z) bucketBounds) nzero 0) (own (keys m) key) in
    let b := zip_with (fun bound n => if nleb value bound then (n + 1)%Z else n) bucketBounds (buckets state) in
    with_keys (obj_put (keys m) key (mkHistogram b (nadd (sum state) value) (count state + 1))) m
  else m.

(** ** Rendering *)

Inductive MetricType := T_counter | T_gauge | T_histogram.

Definition type_text (t : MetricType) : string :=
  match t with T_counter => "counter" | T_gauge => "gauge" | T_histogram => "histogram" end.

Definition head_lines (name help : string) (t : MetricType) : list string :=
  ["# HELP " +:+ name +:+ " " +:+ help; "# TYPE " +:+ name +:+ " " +:+ type_text t].

Definition series_line (name : string) (labelNames : list string) (p : string * Value) : string :=
  name +:+ renderLabels labelNames p.1 "" +:+ " " +:+ value_text p.2.

(** [render] of a counter or a gauge, as lines. *)
Definition render_lines (name help : string) (t : MetricType) (m : Metric Value) : list string :=
  head_lines name help t ++ map (series_line name (labelNames m)) (keys m).

Definition le_label (text : string) : string := "le=" +:+ String QUOTE "" +:+ text +:+ String QUOTE "".

Definition histogram_lines (name : string) (labelNames : list string) (bucketBounds : list num)
    (p : string * HistogramState) : list string :=
  let '(key, state) := p in
  let Z_text n := number_text (num_of_Z n) in
  zip_with (fun bound n =>
    name +:+ "_bucket" +:+ renderLabels labelNames key (le_label (number_text bound)) +:+ " " +:+ Z_text n)
    bucketBounds (buckets state) ++
  [name +:+ "_bucket" +:+ renderLabels labelNames key (le_label "+Inf") +:+ " " +:+ Z_text (count state);
   name +:+ "_sum" +:+ renderLabels labelNames key "" +:+ " " +:+ number_text (sum state);
   name +:+ "_count" +:+ renderLabels labelNames key "" +:+ " " +:+ Z_text (count state)].

Definition render_histogram (name help : string) (bucketBounds : list num) (m : Metric HistogramState)
    : list string :=
  head_lines name help T_histogram ++
  flat_map (histogram_lines name (labelNames m) bucketBounds) (keys m).

(** [metric.render()] joins its lines, and [registry.render()] the metrics. *)
Definition metric_text (lines : list string) : string := String.concat LF lines.

Definition registry_text (metrics : list (list string)) : string :=
  String.concat (LF +:+ LF) (map metric_text metrics) +:+ LF.

End Values.

(** ** A reader of the text format *)

(** The value after an opening quote, and the text after its closing quote. *)
Fixpoint read_value (s : string) : option (string * string) :=
  match s with
  | EmptyString => None
  | String c r =>
      if Ascii.eqb c QUOTE then Some ("", r)
      else if Ascii.eqb c BACKSLASH then
        match r with
        | String d r =>
            (fun x => (String (if Ascii.eqb d "n" then ascii_of_N 10 else d) x.1, x.2)) <$> read_value r
        | EmptyString => None
        end
      else (fun x => (String c x.1, x.2)) <$> read_value r
  end.

(** The name before the equals sign and a quote, and the text after them. *)
Fixpoint read_name (s : string) : option (string * string) :=
  match s with
  | EmptyString => None
  | String c r =>
      if Ascii.eqb c "=" then
        match r with String d r => if Ascii.eqb d QUOTE then Some ("", r) else None | _ => None end
      else (fun x => (String c x.1, x.2)) <$> read_name r
  end.

(** The labels after an opening brace, to the closing one. *)
Fixpoint read_labels (fuel : nat) (s : string) : option (list (string * string) * string) :=
  match fuel with
  | O => None
  | S n =>
      match read_name s with
      | None => None
      | Some (name, s) =>
          match read_value s with
          | Some (v, String c r) =>
              if Ascii.eqb c "}" then Some ([(name, v)], r)
              else if Ascii.eqb c "," then (fun x => ((name, v) :: x.1, x.2)) <$> read_labels n r
              else None
          | _ => None
          end
      end
  end.

(** ** Escapes *)

Lemma replace_char_app c t a b : replace_char c t (a +:+ b) = replace_char c t a +:+ replace_char c t b.
Proof.
  induction a as [|d a IH]; [done|]. rewrite sapp_cons. cbn [replace_char].
  destruct (Ascii.eqb d c); rewrite IH; [by rewrite sapp_assoc|done].
Qed.

Definition escape_char (c : ascii) : string :=
  if Ascii.eqb c BACKSLASH then String BACKSLASH (String BACKSLASH "")
  else if Ascii.eqb c (ascii_of_N 10) then String BACKSLASH "n"
  else if Ascii.eqb c QUOTE then String BACKSLASH (String QUOTE "")
  else String c "".

(** The three replacements in their order escape every character once. *)
Lemma escapeValue_cons c r : escapeValue (String c r) = escape_char c +:+ escapeValue r.
Proof.
  change (String c r) with (String c "" +:+ r). unfold escapeValue. rewrite !replace_char_app. f_equal.
  destruct c as [[] [] [] [] [] [] [] []]; reflexivity.
Qed.

Lemma read_escape d r :
  read_value (String BACKSLASH (String d r)) =
  (fun x => (String (if Ascii.eqb d "n" then ascii_of_N 10 else d) x.1, x.2)) <$> read_value r.
Proof. reflexivity. Qed.

Lemma read_value_escaped v r : read_value (escapeValue v +:+ String QUOTE r) = Some (v, r).
Proof.
  induction v as [|c v IH]; [done|]. rewrite escapeValue_cons, sapp_assoc. unfold escape_char.
  destruct (Ascii.eqb_spec c BACKSLASH) as [->|H1]; [by rewrite !sapp_cons, sapp_nil, read_escape, IH|].
  destruct (Ascii.eqb_spec c (ascii_of_N 10)) as [->|H2];
    [by rewrite !sapp_cons, sapp_nil, read_escape, IH|].
  destruct (Ascii.eqb_spec c QUOTE) as [->|H3]; [by rewrite !sapp_cons, sapp_nil, read_escape, IH|].
  rewrite sapp_cons, sapp_nil. cbn [read_value].
  destruct (Ascii.eqb_spec c QUOTE); [done|]. destruct (Ascii.eqb_spec c BACKSLASH); [done|]. by rewrite IH.
Qed.

(** A text of one line. *)
Definition one_line (s : string) : bool := sforallb (fun c => negb (Ascii.eqb c (ascii_of_N 10))) s.

Lemma one_line_app a b : one_line (a +:+ b) = one_line a && one_line b.
Proof. apply sforallb_append. Qed.

Lemma one_line_escaped v : one_line (escapeValue v) = true.
Proof.
  induction v as [|c v IH]; [done|]. rewrite escapeValue_cons, one_line_app, IH, andb_true_r.
  unfold escape_char. destruct (Ascii.eqb_spec c BACKSLASH); [done|].
  destruct (Ascii.eqb_spec c (ascii_of_N 10)) as [->|H]; [done|]. destruct (Ascii.eqb_spec c QUOTE); [done|].
  unfold one_line. cbn [sforallb]. by destruct (Ascii.eqb_spec c (ascii_of_N 10)).
Qed.

(** ** Keys *)

Definition no_nul (s : string) : bool := sforallb (fun c => negb (Ascii.eqb c NUL)) s.

Lemma split_nul_app a s : no_nul a = true ->
  split_nul (a +:+ s) = match split_nul s with x :: l => (a +:+ x) :: l | [] => [] end.
Proof.
  assert (split_nul s <> []) as Hs.
  { destruct s as [|c s]; [done|]. simpl. destruct (Ascii.eqb c NUL); [done|]. by destruct (split_nul s). }
  induction a as [|c a IH]; intros H; [rewrite sapp_nil; by destruct (split_nul s)|].
  unfold no_nul in *. cbn [sforallb] in H. apply andb_true_iff in H as [Hc%negb_true_iff H].
  rewrite sapp_cons. cbn [split_nul]. rewrite Hc, (IH H). by destruct (split_nul s).
Qed.

Lemma split_join_nul l : l <> [] -> Forall (fun x => no_nul x = true) l -> split_nul (join_nul l) = l.
Proof.
  intros Hl H. induction H as [|x l Hx H IH]; [done|]. unfold join_nul in *.
  destruct l as [|y l].
  - cbn [String.concat]. rewrite <- (sapp_nil_r x) at 1. rewrite split_nul_app by done. simpl.
    by rewrite sapp_nil_r.
  - change (String.concat (String NUL "") (x :: y :: l)) with
      (x +:+ (String NUL "" +:+ String.concat (String NUL "") (y :: l))).
    rewrite split_nul_app by done. rewrite sapp_cons, sapp_nil. cbn [split_nul].
    assert (Ascii.eqb NUL NUL = true) as -> by done. rewrite IH by done. by rewrite sapp_nil_r.
Qed.

(** A name of a label in the format. *)
Definition plain_name (n : string) : bool :=
  sforallb (fun c => is_upper c || is_lower c || is_digit c || Ascii.eqb c "_") n.

Lemma read_name_plain n s : plain_name n = true -> read_name (n +:+ String "=" (String QUOTE s)) = Some (n, s).
Proof.
  induction n as [|c n IH]; [done|]. unfold plain_name in *. cbn [sforallb].
  intros [Hc H]%andb_true_iff. rewrite sapp_cons. cbn [read_name].
  destruct (Ascii.eqb_spec c "=") as [->|]; [done|]. by rewrite (IH H).
Qed.

Lemma read_labels_zip names values rest fuel :
  names <> [] -> length names = length values -> (length names <= fuel)%nat ->
  Forall (fun n => plain_name n = true) names ->
  read_labels fuel (String.concat "," (zip_with label_text names values) +:+ "}" +:+ rest) =
  Some (zip names values, rest).
Proof.
  revert values fuel. induction names as [|n names IH]; intros values fuel Hne Hl Hf Hp; [done|].
  destruct values as [|v values]; [done|]. destruct fuel as [|fuel]; [simpl in Hf; lia|].
  inversion_clear Hp as [|? ? Hn Hp']. cbn [zip_with].
  assert (forall s, read_labels (S fuel) (label_text n v +:+ s) =
    match s with
    | String c r =>
        if Ascii.eqb c "}" then Some ([(n, v)], r)
        else if Ascii.eqb c "," then (fun x => ((n, v) :: x.1, x.2)) <$> read_labels fuel r
        else None
    | EmptyString => None
    end) as Hstep.
  { intros s. unfold label_text. rewrite !sapp_assoc, !sapp_cons, !sapp_nil. cbn [read_labels].
    rewrite read_name_plain by done. rewrite read_value_escaped.
    by destruct s. }
  destruct names as [|n2 names].
  - destruct values; [|done]. cbn [String.concat zip_with]. rewrite Hstep. done.
  - destruct values as [|v2 values]; [done|].
    change (String.concat "," (label_text n v :: zip_with label_text (n2 :: names) (v2 :: values))) with
      (label_text n v +:+ "," +:+ String.concat "," (zip_with label_text (n2 :: names) (v2 :: values))).
    rewrite !sapp_assoc, Hstep, sapp_cons, sapp_nil.
    change (Ascii.eqb "," "}") with false. change (Ascii.eqb "," ",") with true. cbv iota.
    rewrite IH; [done|done|simpl in *; congruence|simpl in *; lia|done].
Qed.

(** What a set of labels says of a metric. *)
Definition label_values (names : list string) (labels : Labels) : list string :=
  map (fun n => default "" (own labels n)) names.

(** The values under which a metric counts a set of labels: a full metric folds a set
    it has no series for into the overflow. *)
Definition counted_values {V} (m : Metric V) (labels : Labels) : list string :=
  if hasOwn (keys m) (seriesKey (labelNames m) labels) || (length (keys m) <? maxSeries m)%nat
  then label_values (labelNames m) labels else map (fun _ => OVERFLOW) (labelNames m).

Lemma split_keyFor {V} (m : Metric V) labels :
  labelNames m <> [] -> Forall (fun v => no_nul v = true) (label_values (labelNames m) labels) ->
  split_nul (keyFor m labels) = counted_values m labels.
Proof.
  intros Hne Hv. unfold keyFor, counted_values, seriesKey. fold (label_values (labelNames m) labels).
  destruct (_ || _); (apply split_join_nul; [by destruct (labelNames m)|]); [done|].
  apply Forall_map, Forall_forall. intros x _. reflexivity.
Qed.

Lemma one_line_label n v : plain_name n = true -> one_line (label_text n v) = true.
Proof.
  intros Hn. unfold label_text. rewrite !one_line_app, one_line_escaped. cbn. rewrite andb_true_r.
  unfold one_line, plain_name in *. induction n as [|c n IH]; [done|]. cbn [sforallb] in *.
  apply andb_true_iff in Hn as [Hc Hn]. rewrite (IH Hn), andb_true_r.
  by destruct (Ascii.eqb_spec c (ascii_of_N 10)) as [->|].
Qed.

Lemma one_line_labels names values : Forall (fun n => plain_name n = true) names ->
  one_line (String.concat "," (zip_with label_text names values)) = true.
Proof.
  intros Hp. revert values. induction Hp as [|n names Hn Hp IH]; intros [|v values]; try done.
  cbn [zip_with]. specialize (IH values).
  destruct (zip_with label_text names values) as [|x ls]; [by apply one_line_label|].
  change (String.concat "," (label_text n v :: x :: ls)) with
    (label_text n v +:+ "," +:+ String.concat "," (x :: ls)).
  by rewrite !one_line_app, one_line_label, IH.
Qed.

(** The bucket bound of a line, as its own label; [None] for a line without one. *)
Definition bound_text (bound : option string) : string :=
  match bound with Some b => le_label b | None => "" end.

Definition bound_labels (bound : option string) : list (string * string) :=
  match bound with Some b => [("le", b)] | None => [] end.

Lemma rendered_labels names values bound key :
  names <> [] -> split_nul key = values -> length names = length values ->
  (forall b, bound = Some b -> escapeValue b = b) ->
  renderLabels names key (bound_text bound) =
  "{" +:+ String.concat "," (zip_with label_text (names ++ map fst (bound_labels bound))
                               (values ++ map snd (bound_labels bound))) +:+ "}".
Proof.
  intros Hne Hk Hl Hb. unfold renderLabels, label_texts. rewrite Hk.
  rewrite zip_with_app by done.
  replace (if truthy_string (bound_text bound) then [bound_text bound] else [])
    with (zip_with label_text (map fst (bound_labels bound)) (map snd (bound_labels bound))).
  - destruct names, values; done.
  - destruct bound as [b|]; [|done]. cbn. unfold label_text, le_label. by rewrite (Hb b).
Qed.

(** [C33] The labels of a series are read back from its line as they were counted, on a
    line of a counter, a gauge or a histogram's bucket: for every metric with label
    names of the format, whatever the values hold, quotes, backslashes and line breaks
    included, as long as they hold no NUL; a set of labels that a full metric has no
    series for is read as the overflow.  The labels take one line. *)
Theorem scraped_labels_round_trip {V} (m : Metric V) labels bound rest :
  let names := labelNames m in
  names <> [] -> Forall (fun n => plain_name n = true) names ->
  Forall (fun v => no_nul v = true) (label_values names labels) ->
  (forall b, bound = Some b -> escapeValue b = b) ->
  exists inside, renderLabels names (keyFor m labels) (bound_text bound) = "{" +:+ inside /\
    read_labels (S (length names)) (inside +:+ rest) =
      Some (zip names (counted_values m labels) ++ bound_labels bound, rest) /\
    one_line inside = true.
Proof.
  intros names Hne Hp Hv Hb. pose proof (split_keyFor m labels Hne Hv) as Hk.
  assert (Hl : length names = length (counted_values m labels)).
  { unfold counted_values, label_values. destruct (_ || _); by rewrite length_map. }
  rewrite (rendered_labels _ _ _ _ Hne Hk Hl Hb). eexists. split; [reflexivity|].
  assert (Hp' : Forall (fun n => plain_name n = true) (names ++ map fst (bound_labels bound))).
  { apply Forall_app. split; [done|]. destruct bound; by repeat constructor. }
  split.
  - rewrite sapp_assoc, read_labels_zip; [|by destruct names|..|done].
    + rewrite zip_with_app by done. by destruct bound.
    + rewrite !length_app, !length_map. lia.
    + rewrite length_app. destruct bound; cbn; lia.
  - rewrite one_line_app, andb_true_r. by apply one_line_labels.
Qed.

(** ** Series *)

(** A metric with its series within the limit, or one more once some were folded
    into the overflow series. *)
Definition bounded {V} (m : Metric V) : Prop :=
  (length (keys m) <= maxSeries m)%nat \/
  length (keys m) = S (maxSeries m) /\
  join_nul (map (fun _ => OVERFLOW) (labelNames m)) ∈ obj_keys (keys m).

Lemma obj_put_length {V} (o : obj V) k v :
  length (obj_put o k v) = if hasOwn o k then length o else S (length o).
Proof.
  induction o as [|[k0 v0] o IH]; [done|]. unfold hasOwn in *. cbn [obj_put own].
  rewrite (String.eqb_sym k k0). destruct (String.eqb_spec k0 k) as [->|Hk]; [done|].
  cbn [length]. rewrite IH. by destruct (own o k).
Qed.

Lemma hasOwn_keys {V} (o : obj V) k : hasOwn o k = true <-> k ∈ obj_keys o.
Proof.
  unfold hasOwn. destruct (own o k) as [v|] eqn:E.
  - split; [|done]. intros _. apply own_In in E. unfold obj_keys. apply list_elem_of_fmap. by exists (k, v).
  - apply own_None in E. split; [done|]. intros H. contradiction.
Qed.

Lemma put_bounded {V} (m : Metric V) labels v :
  bounded m -> bounded (with_keys (obj_put (keys m) (keyFor m labels) v) m).
Proof.
  unfold bounded, with_keys. cbn [keys maxSeries labelNames]. rewrite obj_put_length.
  set (over := join_nul (map _ (labelNames m))). intros H.
  assert (hasOwn (keys m) (keyFor m labels) = true \/
          (length (keys m) < maxSeries m)%nat \/
          (maxSeries m <= length (keys m))%nat /\ keyFor m labels = over) as Hk.
  { unfold keyFor. fold over.
    destruct (hasOwn (keys m) (seriesKey (labelNames m) labels)) eqn:E; [by left|]. cbn [orb].
    destruct (Nat.ltb_spec (length (keys m)) (maxSeries m)); [tauto|]. right. right. done. }
  assert (forall k, k ∈ obj_keys (keys m) -> k ∈ obj_keys (obj_put (keys m) (keyFor m labels) v)) as Hkeep.
  { intros k Hin. apply hasOwn_keys in Hin. apply hasOwn_keys. unfold hasOwn in *. rewrite own_put.
    by destruct (_ =? _)%string. }
  destruct (hasOwn (keys m) (keyFor m labels)) eqn:E.
  - destruct H as [H|[H1 H2]]; [by left|right; split; [done|by apply Hkeep]].
  - destruct Hk as [Hk|[Hk|[Hk1 Hk2]]]; [done|left; lia|].
    destruct H as [H|[H1 H2]].
    + right. split; [lia|]. rewrite Hk2. apply hasOwn_keys. unfold hasOwn. rewrite own_put.
      by rewrite String.eqb_refl.
    + rewrite Hk2 in E. apply hasOwn_keys in H2. fold over in H2. congruence.
Qed.

(** The operations of a metric. *)
Inductive Op :=
| Inc (labels : Labels) (value : json)
| Set_ (labels : Labels) (value : num).

Definition apply_op number_text other_text (m : Metric Value) (o : Op) : Metric Value :=
  match o with
  | Inc l v => inc number_text other_text m l v
  | Set_ l v => set m l v
  end.

Lemma fresh_bounded {V} names limit : bounded (mkMetric (V := V) names limit []).
Proof. left. simpl. lia. Qed.

Definition run_observe bounds (m : Metric HistogramState) (ops : list (Labels * num)) : Metric HistogramState :=
  foldl (fun m o => observe bounds m o.1 o.2) m ops.

Lemma foldl_limit {V A} (f : Metric V -> A -> Metric V) m l :
  (forall m x, maxSeries (f m x) = maxSeries m) -> maxSeries (foldl f m l) = maxSeries m.
Proof. intros Hf. revert m. induction l as [|x l IH]; intros m; [done|]. simpl. by rewrite IH, Hf. Qed.

Lemma foldl_bounded {V A} (f : Metric V -> A -> Metric V) m l :
  (forall m x, bounded m -> bounded (f m x)) -> bounded m -> bounded (foldl f m l).
Proof. intros Hf. revert m. induction l as [|x l IH]; intros m H; [done|]. simpl. by apply IH, Hf. Qed.

(** However many different labels are counted, set or observed, a metric keeps at
    most one series more than its limit. *)
Theorem series_are_bounded number_text other_text names limit bounds ops obs :
  (length (keys (foldl (apply_op number_text other_text) (mkMetric names limit []) ops)) <= S limit)%nat /\
  (length (keys (run_observe bounds (mkMetric names limit []) obs)) <= S limit)%nat.
Proof.
  assert (forall {V} (m : Metric V), bounded m -> maxSeries m = limit -> (length (keys m) <= S limit)%nat) as Hb
    by (intros V m [H|[H _]] <-; lia).
  split; apply Hb.
  - apply foldl_bounded; [|apply fresh_bounded]. intros m [l v|l v] Hm; simpl; [unfold inc|unfold set];
      match goal with |- context [if ?b then _ else _] => destruct b; [by apply put_bounded|done] end.
  - rewrite foldl_limit; [done|]. intros m [l v|l v]; simpl; [unfold inc|unfold set];
      match goal with |- context [if ?b then _ else _] => by destruct b end.
  - apply foldl_bounded; [|apply fresh_bounded]. intros m [l v] Hm. unfold observe. simpl.
    destruct (is_finite_num v); [by apply put_bounded|done].
  - unfold run_observe. rewrite foldl_limit; [done|]. intros m [l v]. unfold observe. simpl.
    by destruct (is_finite_num v).
Qed.

(** ** Histograms *)

(** What the observations of one series add up to. *)
Definition summary (bounds vs : list num) : HistogramState :=
  mkHistogram (map (fun b => Z.of_nat (length (List.filter (fun v => nleb v b) vs))) bounds)
    (foldl nadd nzero vs) (Z.of_nat (length vs)).

(** The observations that count, with the series they went to. *)
Fixpoint observed bounds (m : Metric HistogramState) (ops : list (Labels * num)) : list (string * num) :=
  match ops with
  | [] => []
  | (l, v) :: r =>
      (if is_finite_num v then [(keyFor m l, v)] else []) ++ observed bounds (observe bounds m l v) r
  end.

Definition values_of (key : string) (log : list (string * num)) : list num :=
  map snd (List.filter (fun p => (p.1 =? key)%string) log).

(** The series of a metric are the summaries of a log. *)
Definition summarises bounds (m : Metric HistogramState) (log : list (string * num)) : Prop :=
  forall key, own (keys m) key =
    match values_of key log with [] => None | vs => Some (summary bounds vs) end.

Lemma summary_snoc bounds vs v :
  summary bounds (vs ++ [v]) =
  mkHistogram (zip_with (fun b n => if nleb v b then (n + 1)%Z else n) bounds (buckets (summary bounds vs)))
    (nadd (sum (summary bounds vs)) v) (count (summary bounds vs) + 1).
Proof.
  unfold summary. cbn [buckets sum count]. f_equal.
  - induction bounds as [|b bounds IH]; [done|]. cbn [map zip_with]. rewrite <- IH. f_equal.
    rewrite List.filter_app, length_app. simpl. destruct (nleb v b); simpl; lia.
  - by rewrite foldl_app.
  - rewrite length_app. simpl. lia.
Qed.

Lemma values_of_snoc key log k v :
  values_of key (log ++ [(k, v)]) = values_of key log ++ if (k =? key)%string then [v] else [].
Proof.
  unfold values_of. rewrite List.filter_app, map_app. f_equal. simpl. by destruct (k =? key)%string.
Qed.

Lemma observe_summarises bounds m log l v :
  summarises bounds m log ->
  summarises bounds (observe bounds m l v) (log ++ if is_finite_num v then [(keyFor m l, v)] else []).
Proof.
  intros H. unfold observe. destruct (is_finite_num v); [|by rewrite app_nil_r].
  intros key. cbn [with_keys keys]. rewrite own_put, values_of_snoc, String.eqb_sym.
  destruct (String.eqb_spec (keyFor m l) key) as [->|Hk].
  - rewrite (H key).
    assert (default (mkHistogram (map (fun _ => 0%Z) bounds) nzero 0)
              match values_of key log with [] => None | vs => Some (summary bounds vs) end =
            summary bounds (values_of key log)) as -> by (by destruct (values_of key log)).
    rewrite <- summary_snoc. by destruct (values_of key log).
  - rewrite app_nil_r. apply H.
Qed.

(** Each series of a histogram holds what was observed for it: for each bound the
    number of the values up to it, their sum in order, and their number. *)
Theorem histogram_exact bounds names limit ops key :
  let m := mkMetric names limit [] in
  own (keys (run_observe bounds m ops)) key =
  match values_of key (observed bounds m ops) with [] => None | vs => Some (summary bounds vs) end.
Proof.
  cbv zeta.
  assert (forall m log, summarises bounds m log ->
            summarises bounds (run_observe bounds m ops) (log ++ observed bounds m ops)) as Hrun.
  { induction ops as [|[l v] ops IH]; intros m log H; [by rewrite app_nil_r|].
    cbn [observed]. rewrite app_assoc. apply (IH (observe bounds m l v)).
    by apply observe_summarises. }
  apply (Hrun _ []). by intros k.
Qed.

(** The buckets of a scrape are what its reader expects: they grow with their bounds
    and end at the count. *)
Theorem buckets_are_cumulative bounds vs :
  StronglySorted (fun a b => nleb a b = true) bounds ->
  StronglySorted Z.le (buckets (summary bounds vs) ++ [count (summary bounds vs)]).
Proof.
  unfold summary. cbn [buckets count].
  assert (forall f g : num -> bool, (forall v, f v = true -> g v = true) ->
            (length (List.filter f vs) <= length (List.filter g vs))%nat) as Hle.
  { intros f g Hfg. clear -Hfg. induction vs as [|v vs IH]; [done|]. simpl. specialize (Hfg v).
    destruct (f v); [rewrite Hfg by done; simpl; lia|]. destruct (g v); simpl; lia. }
  induction 1 as [|b bounds H IH Hb]; [repeat constructor|]. cbn [map app]. constructor; [done|].
  apply Forall_app. split.
  - apply Forall_map. apply (Forall_impl _ _ _ Hb). intros b' Hbb. apply Nat2Z.inj_le, Hle.
    intros v Hv. eauto with js.
  - constructor; [|done]. apply Nat2Z.inj_le. apply length_filter_bool.
Qed.

(** ** Samples *)

Module Samples.

Definition text (n : num) : string := if nltb n (num_of_Z 2) then "1" else "7".

Definition labels : Labels := [("model", "a" +:+ String QUOTE (String BACKSLASH LF) +:+ "b")].

Definition counter : Metric Value := mkMetric ["model"; "route"] 1 [].

(** A second series goes to the overflow. *)
Example overflow :
  map fst (keys (inc text (fun _ => "") (inc text (fun _ => "") counter labels (JNum (num_of_Z 1)))
             [("model", "x")] (JNum (num_of_Z 7)))) =
  [seriesKey ["model"; "route"] labels; join_nul [OVERFLOW; OVERFLOW]].
Proof. vm_compute. reflexivity. Qed.

Definition first_line : string :=
  series_line text "t" ["model"; "route"] (seriesKey ["model"; "route"] labels, V_num (num_of_Z 1)).

Example line_is_read :
  read_labels 2 (String.substring 2 (String.length first_line - 2) first_line) =
  Some ([("model", "a" +:+ String QUOTE (String BACKSLASH LF) +:+ "b"); ("route", "")], " 1").
Proof. vm_compute. reflexivity. Qed.

(** A token count that an upstream answers as a text is not added: it is put behind
    the count, and a line break in it starts a line of its own. *)
Example text_amount_breaks_the_count :
  map snd (keys (inc text (fun _ => "") (inc text (fun _ => "") counter labels (JNum (num_of_Z 1)))
             labels (JStr (LF +:+ "5")))) = [V_text ("1" +:+ LF +:+ "5")].
Proof. vm_compute. reflexivity. Qed.

(** A NUL in a value ends it: the rest is read as the next label's. *)
Example nul_moves_the_values :
  label_texts ["model"; "route"] (seriesKey ["model"; "route"] [("model", "a" +:+ String NUL "b"); ("route", "c")]) =
  [label_text "model" "a"; label_text "route" "b"].
Proof. vm_compute. reflexivity. Qed.

Lemma scraped_labels_round_trip_witness :
  (exists inside, renderLabels ["model"; "route"] (keyFor counter labels) "" = "{" +:+ inside /\
    read_labels 3 (inside +:+ " 1") =
    Some ([("model", "a" +:+ String QUOTE (String BACKSLASH LF) +:+ "b"); ("route", "")], " 1")) /\
  (exists inside, renderLabels ["model"; "route"] (keyFor counter labels) (le_label "0.5") = "{" +:+ inside /\
    read_labels 3 (inside +:+ " 1") =
    Some ([("model", "a" +:+ String QUOTE (String BACKSLASH LF) +:+ "b"); ("route", ""); ("le", "0.5")], " 1")).
Proof.
  destruct (scraped_labels_round_trip counter labels None " 1") as (inside & H1 & H2 & _);
    [done|by repeat constructor|by repeat constructor|done|].
  destruct (scraped_labels_round_trip counter labels (Some "0.5") " 1") as (inside' & H1' & H2' & _);
    [done|by repeat constructor|by repeat constructor|by intros b [= <-]|].
  split; [exists inside; by split|exists inside'; by split].
Defined.

End Samples.
