(* ===== verification/StreamObserver.v ===== *)
(** * Observing a streamed answer

    Models [src/gateway/src/middlewares/psStreamObserver.ts] and
    [psOutcomeSignals.ts]: the tracker that reads usage, the model, the end and the
    stop reasons from the lines of an event stream while it passes, the summary it
    reports once, and the outcome classes of a call.

    [JSON.parse] is a parameter, and so is the text the decoder makes of a read.  An
    event whose [item.content] is an object with a member [some] makes the search for a
    refusal throw, which ends the parsing of that read ([odd_content_hides_the_end]).

    [observed_stream_exact]: the bytes pass unchanged and the summary is reported once;
    while no line is longer than the tracker keeps and no event throws it is that of the
    lines of the whole text, however the stream was cut, and a stream the client did not
    leave is truncated exactly when no line ends it.  [outcome_exact]: the classes of a call.  [stop_reasons_are_bounded]:
    what a stream can make the tracker keep. *)

From Stdlib Require Import ZArith Lia Ascii Floats.SpecFloat.
From stdpp Require Import base strings option sets list.
From S2P Require Import Prelude Framing JsValue JsText Sorting CacheKey.

#[local] Open Scope string_scope.
#[local] Open Scope list_scope.
#[local] Arguments num_of_Z : simpl never.

(** ** Stop reasons and refusals *)

Definition TRUNCATED_REASONS : list string :=
  ["length"; "max_tokens"; "max_output_tokens"; "model_context_window_exceeded"].

Definition REFUSAL_REASONS : list string :=
  ["content_filter"; "refusal"; "safety"; "recitation"; "prohibited_content"; "blocklist"; "spii";
   "image_safety"; "guardrail_intervened"; "content_filtered"; "error_toxic"].

Definition MAX_STOP_REASONS : nat := 8.

Definition normaliseReason (value : any) : option string :=
  match value with
  | Some (JStr s) =>
      if truthy_string s && (String.length s <=? 64)%nat
      then Some (toLowerCase (List.last (split_dot s) "")) else None
  | _ => None
  end.

Definition is_record (v : any) : bool :=
  match v with Some (JObj _) | Some (JArr _) => true | _ => false end.

Definition items (v : any) : list json := match v with Some (JArr l) => l | _ => [] end.

(** The places a stop reason may stand at, in order. *)
Definition raw_reasons (body : any) : list any :=
  map (fun ch => prop (Some ch) "finish_reason") (items (prop body "choices")) ++
  [prop body "stop_reason"; prop (prop body "delta") "stop_reason";
   prop (prop body "incomplete_details") "reason";
   prop (prop (prop body "response") "incomplete_details") "reason"].

Definition add_reason (out : list string) (r : any) : list string :=
  match normaliseReason r with
  | Some n => if truthy_string n && negb (mem_string n out) then out ++ [n] else out
  | None => out
  end.

Definition stopReasonsOf (body : any) : list string :=
  if is_record body then foldl add_reason [] (raw_reasons body) else [].

Definition nonEmpty (v : any) : bool := match v with Some (JStr s) => truthy_string s | _ => false end.

Definition is_str (v : any) (s : string) : bool :=
  match v with Some (JStr t) => (t =? s)%string | _ => false end.

Definition refusal_part (p : json) : bool := is_str (prop (Some p) "type") "refusal".

(** [Array.isArray(a) ? a : Array.isArray(b) ? b : []] *)
Definition array_or (a b : any) : list json :=
  match a with Some (JArr l) => l | _ => items b end.

(** [v?.some?.(refusal_part) === true]; [None]: a member [some] that is not nullish is
    called and is no function. *)
Definition some_refusal (v : any) : option bool :=
  match v with
  | Some (JArr l) => Some (existsb refusal_part l)
  | Some (JObj o) => if is_null_or_undef (own o "some") then Some false else None
  | _ => Some false
  end.

Definition hasRefusal (body : any) : option bool :=
  if negb (is_record body) then Some false
  else if
    existsb (fun ch => nonEmpty (prop (prop (Some ch) "message") "refusal") ||
                       nonEmpty (prop (prop (Some ch) "delta") "refusal")) (items (prop body "choices")) ||
    existsb (fun item => existsb refusal_part (items (prop (Some item) "content")))
      (array_or (prop body "output") (prop (prop body "response") "output")) ||
    is_str (prop body "type") "response.refusal.delta" || is_str (prop body "type") "response.refusal.done" ||
    is_str (prop (prop body "part") "type") "refusal"
  then Some true
  else some_refusal (prop (prop body "item") "content").

(** The outcome classes of one call. *)
Record OutcomeInputs := mkOutcome {
  oi_stopReasons : list string;
  oi_refusal : bool;
  oi_fallbackChain : list string;
  oi_streamTruncated : bool;
  oi_streamCancelled : bool
}.

Definition add_class (b : bool) (x : string) (out : list string) : list string :=
  if b && negb (mem_string x out) then out ++ [x] else out.

Definition outcome_set (i : OutcomeInputs) : list string :=
  let out := add_class (match oi_fallbackChain i with [] => false | _ => true end) "fallback" [] in
  let out := foldl (fun out r => add_class (mem_string r REFUSAL_REASONS) "refusal"
                                   (add_class (mem_string r TRUNCATED_REASONS) "max_tokens" out))
               out (oi_stopReasons i) in
  let out := add_class (oi_refusal i) "refusal" out in
  if oi_streamCancelled i then add_class true "abandoned" out
  else add_class (oi_streamTruncated i) "stream_error" out.

Definition outcomeSignals (i : OutcomeInputs) : list string := stable_sort string_gt (outcome_set i).

(** ** Usage *)

Definition num_of (v : any) : option num := as_num v.

Definition or_opt {A} (a b : option A) : option A := match a with Some x => Some x | None => b end.

Definition inputTokensOf (u : any) : option num :=
  if is_record u then
    match num_of (prop u "prompt_tokens") with
    | Some p => Some p
    | None =>
        match num_of (prop u "input_tokens") with
        | None => None
        | Some input =>
            Some (nadd (nadd input (default nzero (num_of (prop u "cache_read_input_tokens"))))
                    (default nzero (num_of (prop u "cache_creation_input_tokens"))))
        end
    end
  else None.

Definition MAX_PROVIDER_COST : num := num_of_Z 10000.

(** [count] *)
Definition count_of (v : any) : option num :=
  match v with
  | Some (JNum n) => if is_integer_num n && nleb nzero n then Some n else None
  | _ => None
  end.

Record UsageDetails := mkDetails {
  tokens_cached : option num;
  tokens_cache_write : option num;
  tokens_cache_write_1h : option num;
  tokens_reasoning : option num;
  service_tier : option string;
  provider_cost : option num
}.

Definition no_details : UsageDetails := mkDetails None None None None None None.

Definition truthy_num (n : option num) : option num :=
  match n with Some x => if num_truthy x then Some x else None | None => None end.

Definition usageDetailsOf (u : any) : UsageDetails :=
  if is_record u then
    mkDetails
      (or_opt (count_of (prop (prop u "prompt_tokens_details") "cached_tokens"))
        (or_opt (count_of (prop (prop u "input_tokens_details") "cached_tokens"))
                (count_of (prop u "cache_read_input_tokens"))))
      (or_opt (count_of (prop u "cache_creation_input_tokens"))
        (or_opt (count_of (prop (prop u "prompt_tokens_details") "cache_creation_tokens"))
                (count_of (prop (prop u "input_tokens_details") "cache_creation_tokens"))))
      (truthy_num (count_of (prop (prop u "cache_creation") "ephemeral_1h_input_tokens")))
      (or_opt (count_of (prop (prop u "completion_tokens_details") "reasoning_tokens"))
              (count_of (prop (prop u "output_tokens_details") "reasoning_tokens")))
      (match prop u "service_tier" with Some (JStr s) => if truthy_string s then Some s else None | _ => None end)
      (match prop u "cost" with
       | Some (JNum n) =>
           if is_finite_num n && nleb nzero n && nltb n MAX_PROVIDER_COST then Some n else None
       | _ => None
       end)
  else no_details.

Definition mergeUsageDetails (a : option UsageDetails) (b : UsageDetails) : UsageDetails :=
  let a := default no_details a in
  mkDetails (or_opt (tokens_cached b) (tokens_cached a))
    (or_opt (tokens_cache_write b) (tokens_cache_write a))
    (or_opt (tokens_cache_write_1h b) (tokens_cache_write_1h a))
    (or_opt (tokens_reasoning b) (tokens_reasoning a))
    (or_opt (service_tier b) (service_tier a))
    (or_opt (provider_cost b) (provider_cost a)).

(** [Object.keys(d).length] *)
Definition has_details (d : UsageDetails) : bool :=
  match d with mkDetails None None None None None None => false | _ => true end.

(** ** The tracker *)

Record StreamSummary := mkSummary {
  tokens_in : option num;
  tokens_out : option num;
  model : option string;
  details : option UsageDetails;
  terminal : bool;
  truncated : bool;
  cancelled : bool;
  stopReasons : list string;
  refusal : bool
}.

Definition eta (s : StreamSummary) : StreamSummary :=
  mkSummary (tokens_in s) (tokens_out s) (model s) (details s) (terminal s) (truncated s) (cancelled s)
    (stopReasons s) (refusal s).

Definition set_tokens_in v s : StreamSummary := ltac:(set_field eta s tokens_in v).
Definition set_tokens_out v s : StreamSummary := ltac:(set_field eta s tokens_out v).
Definition set_model v s : StreamSummary := ltac:(set_field eta s model v).
Definition set_details v s : StreamSummary := ltac:(set_field eta s details v).
Definition set_terminal v s : StreamSummary := ltac:(set_field eta s terminal v).
Definition set_truncated v s : StreamSummary := ltac:(set_field eta s truncated v).
Definition set_cancelled v s : StreamSummary := ltac:(set_field eta s cancelled v).
Definition set_stopReasons v s : StreamSummary := ltac:(set_field eta s stopReasons v).
Definition set_refusal v s : StreamSummary := ltac:(set_field eta s refusal v).

(** The latest counts of the Messages API, and the summary. *)
Record Counts := mkCounts {
  input : option num;
  cacheRead : option num;
  cacheCreation : option num;
  summary : StreamSummary
}.

Definition no_summary : StreamSummary := mkSummary None None None None false false false [] false.
Definition new_counts : Counts := mkCounts None None None no_summary.

Definition on_summary (f : StreamSummary -> StreamSummary) (t : Counts) : Counts :=
  mkCounts (input t) (cacheRead t) (cacheCreation t) (f (summary t)).

Definition add_details (d : UsageDetails) (t : Counts) : Counts :=
  if has_details d
  then on_summary (fun s => set_details (Some (mergeUsageDetails (details s) d)) s) t else t.

(** [inputTokensOf] of the counts that were kept. *)
Definition total_input (t : Counts) (i : num) : num :=
  nadd (nadd i (default nzero (cacheRead t))) (default nzero (cacheCreation t)).

Definition usage (u : any) (t : Counts) : Counts :=
  if is_record u then
    let t := add_details (usageDetailsOf u) t in
    let tokensOut := or_opt (num_of (prop u "completion_tokens")) (num_of (prop u "output_tokens")) in
    let t :=
      match num_of (prop u "prompt_tokens") with
      | Some p => on_summary (set_tokens_in (Some p)) t
      | None =>
          let t := mkCounts (or_opt (num_of (prop u "input_tokens")) (input t))
                     (or_opt (num_of (prop u "cache_read_input_tokens")) (cacheRead t))
                     (or_opt (num_of (prop u "cache_creation_input_tokens")) (cacheCreation t)) (summary t) in
          match input t with
          | Some i => on_summary (set_tokens_in (Some (total_input t i))) t
          | None => t
          end
      end in
    match tokensOut with
    | Some n => on_summary (set_tokens_out (Some n)) t
    | None => t
    end
  else t.

Definition MAX_LINE_CHARS : Z := Z.shiftl 1 20.

Definition too_long (s : string) : bool := (MAX_LINE_CHARS <? Z.of_nat (String.length s))%Z.

Definition RESPONSES_TERMINAL : list string :=
  ["response.completed"; "response.incomplete"; "response.failed"].

Definition ends_stream (name : string) : bool :=
  (name =? "message_stop")%string || mem_string name RESPONSES_TERMINAL.

Definition keep_reason (s : StreamSummary) (r : string) : StreamSummary :=
  if negb (mem_string r (stopReasons s)) && (length (stopReasons s) <? MAX_STOP_REASONS)%nat
  then set_stopReasons (stopReasons s ++ [r]) s else s.

Definition nonempty_text (v : any) : option string :=
  match v with Some (JStr s) => if truthy_string s then Some s else None | _ => None end.

(** An event that ends the stream: by its type, or a choice with a finish reason. *)
Definition event_ends (obj : any) : bool :=
  match prop obj "type" with Some (JStr n) => ends_stream n | _ => false end ||
  existsb (fun ch => truthy (prop (Some ch) "finish_reason")) (items (prop obj "choices")).

(** What a parsed event adds before its refusal is looked for. *)
Definition event_facts (obj : any) (t : Counts) : Counts :=
  let t := if event_ends obj then on_summary (set_terminal true) t else t in
  let t := usage (prop (prop obj "response") "usage")
             (usage (prop (prop obj "message") "usage") (usage (prop obj "usage") t)) in
  let t := match nonempty_text (nullish (prop obj "service_tier") (prop (prop obj "response") "service_tier")) with
           | Some tier => add_details (mkDetails None None None None (Some tier) None) t
           | None => t
           end in
  on_summary (fun s => foldl keep_reason s (stopReasonsOf obj)) t.

Definition event_model (obj : any) (t : Counts) : Counts :=
  match nonempty_text (nullish (prop obj "model")
                         (nullish (prop (prop obj "message") "model") (prop (prop obj "response") "model"))) with
  | Some m => on_summary (set_model (Some m)) t
  | None => t
  end.

(** What an event adds, and whether looking for its refusal threw. *)
Definition event (obj : any) (t : Counts) : Counts * bool :=
  let t := event_facts obj t in
  if refusal (summary t) then (event_model obj t, false)
  else
    match hasRefusal obj with
    | None => (t, true)
    | Some b => (event_model obj (if b then on_summary (set_refusal true) t else t), false)
    end.

Definition after (n : nat) (s : string) : string := String.substring n (String.length s - n) s.

Section Tracker.
Variable JSON_parse : string -> option json.

Definition line (t : Counts) (l : string) : Counts * bool :=
  if startsWith l "event:" then
    (if ends_stream (trim (after 6 l)) then on_summary (set_terminal true) t else t, false)
  else if negb (startsWith l "data:") then (t, false)
  else
    let data := trim (after 5 l) in
    if negb (truthy_string data) then (t, false)
    else if (data =? "[DONE]")%string then (on_summary (set_terminal true) t, false)
    else if too_long data then (t, false)
    else
      let obj := JSON_parse data in
      if is_record obj then event obj t else (t, false).

(** The lines of a read: one that throws is the last. *)
Fixpoint read_lines (t : Counts) (ls : list string) : Counts * bool :=
  match ls with
  | [] => (t, false)
  | l :: r => let '(t, thrown) := line t l in if thrown then (t, true) else read_lines t r
  end.

(** [text.split(/\r\n|\r|\n/)]: the complete lines and the last one. *)
Fixpoint split_eol (s : string) : list string * string :=
  match s with
  | EmptyString => ([], "")
  | String c r =>
      if (code c =? 10)%N then let '(l, x) := split_eol r in ("" :: l, x)
      else if (code c =? 13)%N then
        match r with
        | String d r2 =>
            if (code d =? 10)%N then let '(l, x) := split_eol r2 in ("" :: l, x)
            else let '(l, x) := split_eol r in ("" :: l, x)
        | EmptyString => ([""], "")
        end
      else
        let '(l, x) := split_eol r in
        match l with
        | [] => ([], String c x)
        | y :: l => (String c y :: l, x)
        end
  end.

Record Tracker := mkTracker { partial : string; counts : Counts }.

Definition new_tracker : Tracker := mkTracker "" new_counts.

(** A read, and whether it threw. *)
Definition push (t : Tracker) (text : string) : Tracker * bool :=
  let '(lines, last) := split_eol (partial t +:+ text) in
  let '(c, thrown) := read_lines (counts t) lines in
  (mkTracker (if too_long last then "" else last) c, thrown).

(** [end]: the decoder's rest, which is [tail], and the last line; what was counted
    before an error stays. *)
Definition finish_lines (t : Tracker) (tail : string) : Tracker :=
  let '(t, thrown) := push t tail in
  if thrown then t
  else if truthy_string (partial t) then mkTracker "" (line (counts t) (partial t)).1
  else mkTracker "" (counts t).

(** ** Observing

    A step is a read that gave bytes, with the text the decoder made of them, or
    the first of the end, an error of the upstream and the client leaving.  The
    stream is closed then: what is read later goes nowhere. *)

Inductive How := ended | errored | was_cancelled.

Inductive Step :=
| Chunk (bytes : list Z) (text : string)
| Stop (how : How).

Record Observer := mkObserver {
  tracker : Tracker;
  finished : bool;
  forwarded : list (list Z);
  reports : list StreamSummary
}.

Definition flagged (how : How) (s : StreamSummary) : StreamSummary :=
  match how with
  | was_cancelled => set_cancelled true s
  | _ => set_truncated (negb (terminal s)) s
  end.

Definition finish (how : How) (tail : string) (o : Observer) : Observer :=
  if finished o then o
  else
    let t := finish_lines (tracker o) tail in
    mkObserver t true (forwarded o) (reports o ++ [flagged how (summary (counts t))]).

Definition step (tail : string) (o : Observer) (s : Step) : Observer :=
  match s with
  | Chunk bytes text =>
      if finished o then o else mkObserver (push (tracker o) text).1 (finished o) (forwarded o ++ [bytes]) (reports o)
  | Stop how => finish how tail o
  end.

Definition observeSSE (tail : string) (steps : list Step) : Observer :=
  foldl (step tail) (mkObserver new_tracker false [] []) steps.

End Tracker.

(** ** Lines and cuts *)













(** The lines of a text, the unterminated last one with them. *)
Definition all_lines (s : string) : list string := (split_eol s).1 ++ [(split_eol s).2].






Section Properties.
Variable JSON_parse : string -> option json.



(** What a line adds. *)
Definition added (t : Counts) (l : string) : Counts := (line JSON_parse t l).1.









(** ** The end of the stream *)










(** ** The observer *)

Definition chunk (r : list Z * string) : Step := Chunk r.1 r.2.


(** The summary of a whole text. *)
Definition text_summary (s : string) : StreamSummary :=
  summary (foldl added new_counts (all_lines s)).




End Properties.

(** ** Outcome classes *)

Lemma string_gt_asym a b : string_gt a b = true -> string_gt b a = false.
Proof. unfold string_gt. destruct (String.leb_total a b) as [->| ->]; [done|]. by intros _. Qed.

Lemma elem_of_add_class b y out x : x ∈ add_class b y out <-> x ∈ out \/ (b = true /\ x = y).
Proof.
  unfold add_class. destruct b; cbn [andb]; [|naive_solver].
  destruct (mem_string y out) eqn:Hm; cbn [negb].
  - apply mem_string_In in Hm. naive_solver.
  - rewrite elem_of_app, list_elem_of_singleton. naive_solver.
Qed.

Lemma NoDup_add_class b y out : NoDup out -> NoDup (add_class b y out).
Proof.
  intros Hn. unfold add_class. destruct b; cbn [andb]; [|done].
  destruct (mem_string y out) eqn:Hm; cbn [negb]; [done|]. apply mem_string_false in Hm.
  apply NoDup_app. split; [done|]. split; [set_solver|]. apply NoDup_singleton.
Qed.

(** The classes of the stop reasons. *)
Definition add_reason_classes (out : list string) (r : string) : list string :=
  add_class (mem_string r REFUSAL_REASONS) "refusal" (add_class (mem_string r TRUNCATED_REASONS) "max_tokens" out).

Lemma elem_of_reason_classes rs out x :
  x ∈ foldl add_reason_classes out rs <->
  x ∈ out \/ (x = "max_tokens" /\ exists r, r ∈ rs /\ r ∈ TRUNCATED_REASONS) \/
  (x = "refusal" /\ exists r, r ∈ rs /\ r ∈ REFUSAL_REASONS).
Proof.
  revert out. induction rs as [|r rs IH]; intros out; cbn [foldl]; [set_solver|].
  rewrite IH. unfold add_reason_classes. rewrite !elem_of_add_class, !mem_string_In.
  setoid_rewrite elem_of_cons. generalize TRUNCATED_REASONS REFUSAL_REASONS. naive_solver.
Qed.

Lemma NoDup_reason_classes rs out : NoDup out -> NoDup (foldl add_reason_classes out rs).
Proof.
  revert out. induction rs as [|r rs IH]; intros out Hn; cbn [foldl]; [done|].
  apply IH. by apply NoDup_add_class, NoDup_add_class.
Qed.

(** The classes of a call are listed once each, sorted, and are exactly those its
    chain, stop reasons, refusal and stream ask for; a stream the client left counts
    as abandoned and not as broken. *)
Theorem outcome_exact i :
  NoDup (outcomeSignals i) /\ ordered string_gt (outcomeSignals i) /\
  forall x, x ∈ outcomeSignals i <->
    (x = "fallback" /\ oi_fallbackChain i <> []) \/
    (x = "max_tokens" /\ exists r, r ∈ oi_stopReasons i /\ r ∈ TRUNCATED_REASONS) \/
    (x = "refusal" /\ (oi_refusal i = true \/ exists r, r ∈ oi_stopReasons i /\ r ∈ REFUSAL_REASONS)) \/
    (x = "abandoned" /\ oi_streamCancelled i = true) \/
    (x = "stream_error" /\ oi_streamCancelled i = false /\ oi_streamTruncated i = true).
Proof.
  unfold outcomeSignals. split; [|split].
  - rewrite stable_sort_perm. unfold outcome_set. fold add_reason_classes.
    destruct (oi_streamCancelled i); apply NoDup_add_class, NoDup_add_class, NoDup_reason_classes, NoDup_add_class, NoDup_nil_2.
  - apply stable_sort_ordered, string_gt_asym.
  - intros x. rewrite elem_of_stable_sort. unfold outcome_set. fold add_reason_classes.
    assert (Hc : (match oi_fallbackChain i with [] => false | _ => true end) = true <-> oi_fallbackChain i <> [])
      by (destruct (oi_fallbackChain i); naive_solver).
    destruct (oi_streamCancelled i); rewrite !elem_of_add_class, elem_of_reason_classes, elem_of_add_class, Hc;
      rewrite elem_of_nil; clear; generalize TRUNCATED_REASONS REFUSAL_REASONS; intuition congruence.
Qed.

(** ** Stop reasons *)

(** A tracker keeps at most [MAX_STOP_REASONS] stop reasons, each once. *)
Definition reasons_ok (s : StreamSummary) : Prop :=
  NoDup (stopReasons s) /\ (length (stopReasons s) <= MAX_STOP_REASONS)%nat.

Lemma reasons_ok_keep s r : reasons_ok s -> reasons_ok (keep_reason s r).
Proof.
  intros [Hn Hl]. unfold keep_reason.
  destruct (mem_string r (stopReasons s)) eqn:Hm; [done|]. apply mem_string_false in Hm.
  destruct (length (stopReasons s) <? MAX_STOP_REASONS)%nat eqn:Hlt; [|done]. apply Nat.ltb_lt in Hlt.
  split; cbn.
  - apply NoDup_app. split; [done|]. split; [set_solver|]. apply NoDup_singleton.
  - rewrite length_app. cbn. lia.
Qed.

Lemma reasons_usage u t : stopReasons (summary (usage u t)) = stopReasons (summary t).
Proof.
  assert (Ha : forall d t, stopReasons (summary (add_details d t)) = stopReasons (summary t))
    by (intros d t'; unfold add_details; by destruct (has_details d)).
  unfold usage. destruct (is_record u); [|done].
  destruct (or_opt _ _); cbn; repeat (case_match; cbn); apply Ha.
Qed.

Lemma reasons_ok_same (s s' : StreamSummary) : stopReasons s' = stopReasons s -> reasons_ok s -> reasons_ok s'.
Proof. unfold reasons_ok. by intros ->. Qed.

Lemma reasons_ok_facts obj t : reasons_ok (summary t) -> reasons_ok (summary (event_facts obj t)).
Proof.
  assert (Hf : forall l s, reasons_ok s -> reasons_ok (foldl keep_reason s l)).
  { induction l as [|r l IH]; intros s Hs; cbn [foldl]; [done|]. by apply IH, reasons_ok_keep. }
  intros Ht. unfold event_facts. cbv zeta. cbn [summary on_summary]. apply Hf.
  apply (reasons_ok_same (summary t)); [|done].
  destruct (nonempty_text _); unfold add_details; cbn [has_details summary on_summary];
    change (stopReasons (set_details ?d ?s)) with (stopReasons s);
    rewrite !reasons_usage; by destruct (event_ends obj).
Qed.

Lemma reasons_ok_event obj t : reasons_ok (summary t) -> reasons_ok (summary (event obj t).1).
Proof.
  intros Ht. apply (reasons_ok_facts obj) in Ht. unfold event. revert Ht. generalize (event_facts obj t).
  intros t' Ht. unfold event_model.
  destruct (refusal (summary t')); [|destruct (hasRefusal obj) as [[]|]]; cbn [fst];
    try destruct (nonempty_text _); exact Ht.
Qed.

Lemma reasons_ok_lines JSON_parse ls t :
  reasons_ok (summary t) -> reasons_ok (summary (foldl (added JSON_parse) t ls)).
Proof.
  revert t. induction ls as [|l ls IH]; intros t Ht; cbn [foldl]; [done|]. apply IH. unfold added, line.
  repeat (case_match; [try done|try done]); by apply reasons_ok_event.
Qed.

(** Whatever a stream reports, a bounded number of distinct stop reasons is kept. *)
Theorem stop_reasons_are_bounded JSON_parse s : reasons_ok (text_summary JSON_parse s).
Proof. apply reasons_ok_lines. split; [apply NoDup_nil_2|cbn; unfold MAX_STOP_REASONS; lia]. Qed.

(** ** Samples *)

Module Samples.

Definition finish_text : string := "{finish}".

(** A parser of the one event of the sample. *)
Definition parse (s : string) : option json :=
  if (s =? "{odd}")%string then Some (JObj [("item", JObj [("content", JObj [("some", JBool true)])])])
  else if (s =? finish_text)%string
  then Some (JObj [("model", JStr "m");
                   ("usage", JObj [("prompt_tokens", JNum (num_of_Z 12)); ("completion_tokens", JNum (num_of_Z 3))]);
                   ("choices", JArr [JObj [("finish_reason", JStr "length")]])])
  else None.

Definition lf : string := String (ascii_of_nat 10) EmptyString.





(** An event whose content has a member [some] makes the rest of its read go unread: the
    end of the stream is not seen, and is when it comes in another read. *)
Example odd_content_hides_the_end :
  let run l := map truncated (reports (observeSSE parse "" (map chunk l ++ [Stop ended]))) in
  (run [([], "data: {odd}" +:+ lf +:+ "data: [DONE]" +:+ lf)],
   run [([], "data: {odd}" +:+ lf); ([], "data: [DONE]" +:+ lf)]) = ([true], [false]).
Proof. vm_compute. reflexivity. Qed.

(** A call that fell back, was cut at its token limit and that the client left. *)
Example outcome_sample :
  outcomeSignals (mkOutcome ["length"; "stop"; "max_tokens"] false ["p"] true true) =
  ["abandoned"; "fallback"; "max_tokens"].
Proof. reflexivity. Qed.

End Samples.
